(* ===== verification/_CoqProject ===== *)
-Q . S2P
Prelude.v
Errors.v
Text.v
Blob.v
Url.v
Clean.v
Tags.v
Totp.v
Card.v
Identity.v
CustomField.v
Bank.v
Generator.v
Sso.v
Attachment.v
Model.v
Keys.v
Store.v
Lock.v
Origin.v
Health.v
BuildItem.v
Vault.v
Items.v
Page.v
IdentityPage.v
ToyCodec.v
Sync.v
Replica.v
Lifecycle.v
Activity.v
CardPage.v
Encoding.v
SecretKey.v
Pairing.v
System.v
Backup.v
Dates.v
Import.v
Staging.v
Export.v
ImportCsv.v
ImportBitwarden.v
ImportOnePux.v
ImportFacts.v
HealthVault.v
AppTarget.v
Cbor.v
Passkey.v
PasskeyVault.v
PasskeyFacts.v
Restore.v
AppFill.v
Opaque.v
Wire.v
WireAccount.v
Transport.v
Device.v
Admission.v
Server.v
ServerFacts.v
ServerAuth.v
ServerPairing.v
ServerAccount.v
ServerAdmin.v
Client.v
Account.v
ClientPairing.v
ClientFiles.v
Converge.v
ToyNet.v
ClientFilesFacts.v
AccountFacts.v
Protocol.v
Bridge.v
BridgeFacts.v
Mobile.v
MobileEdit.v
DesktopParts.v
Desktop.v
