(* ===== verification/Prelude.v ===== *)
(** * HavenKeys: a verification library of the vault, its sync and its server

    HavenKeys is an end-to-end encrypted password manager.  Every client
    (desktop, Android, browser extension through the desktop) holds a replica
    of the account's vault: an SQLite file of sealed blobs, opened by
    crates/havenkeys-core.  crates/havenkeys-client keeps the replica in step
    with crates/havenkeys-server over the wire of
    crates/havenkeys-sync-client.  A web browser reaches the vault of a
    running desktop through crates/havenkeys-native-host, which relays the
    messages of crates/havenkeys-protocol to crates/havenkeys-bridge.  The
    Android app calls the vault through crates/havenkeys-mobile, the desktop
    windows through apps/desktop/src-tauri.  This library models those crates
    and proves the properties a user relies on.  Paths without a crate below
    are relative to crates/havenkeys-core/src.

    ** Parts and how they interact

    - Values.  An item is an overview (title, username, websites, tags:
      opened at unlock) and details (secrets: opened one at a time).  Text.v
      is what is used of Rust's strings; Clean.v (with secret edits), Tags.v, Totp.v,
      Card.v, Identity.v, CustomField.v, Bank.v, Generator.v, Sso.v,
      Attachment.v and Model.v are model.rs, tags.rs, totp.rs, card.rs,
      identity.rs, custom_field.rs, bank.rs, generator.rs, sso.rs and the
      value part of attachment.rs, a definition per function.
    - Cryptography.  Blob.v (crypto/blob.rs) is the sealed blob and its
      associated data; Keys.v (crypto/keys.rs, crypto/kdf.rs, account.rs,
      unlock_bundle.rs) the key hierarchy and the biometric bundle.
      Encoding.v (Base32 and Base64url as parameters), SecretKey.v
      (crypto/secret_key.rs), Opaque.v (crates/havenkeys-opaque, pake.rs).
    - Store.v (store.rs): the tables of the replica as finite maps and
      optional rows, the schema's migrations, and the transaction of a pull.
    - Lock.v (lock.rs): the auto-lock timers.  Origin.v (origin.rs,
      equivalent.rs): when a saved website applies to a page.  Health.v
      (health/mod.rs, health/directory.rs): the health report.
    - The vault service.  BuildItem.v, Vault.v, Items.v and Page.v are
      vault.rs with trash.rs, local.rs and the vault part of attachment.rs:
      the one path from an editor's input to an item; the session, the lock
      state machine, creation, unlock and change of password; reading,
      staging and committing items; and what a web page may ask for.
      IdentityPage.v (identity_page.rs) and CardPage.v (card_page.rs): the
      form-role counterparts.  Activity.v (activity.rs, lookalike.rs): the
      log of use that ranks suggestions, and the look-alike warning.
      HealthVault.v (health/vault.rs): the cached report and dismissals.
      AppTarget.v (app_target.rs, asset_links.rs): the apps an item names;
      AppFill.v (app_fill.rs, passkey/app.rs): fills and passkeys for them.
    - Pairing.v (pairing.rs): the code a new device shows and the envelope
      another seals to it.
    - Sync.v (sync.rs): the attested account header and the server pull.
      Replica.v: what an unlocked session promises about its store.
      Lifecycle.v: whole runs of Vault.v and Sync.v.  System.v: every step of
      a vault service as a relation and the invariant of its reachable states.
    - Passkeys.  Cbor.v and Passkey.v (passkey/cbor.rs, mod.rs and the
      codecs), PasskeyVault.v (passkey/vault.rs): registration, discovery and
      assertion over the vault service.  PasskeyFacts.v: its theorems.
    - Files in and out.  Dates.v, Import.v (import/common.rs, mod.rs, and
      the JSON they read), ImportCsv.v, ImportBitwarden.v and ImportOnePux.v (the readers
      of import/), Export.v (export/mod.rs, csv.rs, bitwarden.rs), Backup.v
      (export/backup.rs), Staging.v (import staging of vault.rs), Restore.v
      (export/restore.rs), each with its theorems; ImportFacts.v: those of
      the readers.
    - The wire (crates/havenkeys-sync-client).  Wire.v: wire.rs, error.rs,
      session.rs and the vault methods of client.rs over a [Transport];
      WireAccount.v: its account and pairing methods, and invite.rs;
      Transport.v: transport.rs.
    - The server (crates/havenkeys-server).  Admission.v (billing/mod.rs,
      auth/rate_limit.rs); Server.v (auth/mod.rs and the vault, attachment
      and device routes); ServerAuth.v (routes/auth.rs, pake.rs, email.rs),
      ServerPairing.v (routes/pairings.rs), ServerAccount.v (routes/
      account.rs, accounts.rs, signup.rs, invite.rs, erase.rs) and
      ServerAdmin.v (admin.rs, billing/jobs.rs).  ServerFacts.v: the
      theorems of the vault routes.
    - The client (crates/havenkeys-client).  Client.v: client.rs, sync.rs and
      the wipe of deletion.rs; ClientFiles.v: attachments.rs and restore.rs;
      Device.v: device.rs and key_store.rs; Account.v: account.rs, pake.rs,
      bundle.rs, deletion.rs, removal.rs and [connect]; ClientPairing.v:
      pairing.rs and kit.rs.  Converge.v,
      ClientFilesFacts.v and AccountFacts.v: their theorems; ToyNet.v: a
      whole network of a client and a server the witnesses run on.
    - The browser's way in.  Protocol.v: crates/havenkeys-protocol (lib.rs,
      message.rs, frame.rs: messages, what makes one valid, and frames over a
      stream that arrives in pieces) and crates/havenkeys-native-host (who
      may call it, and the relay of frames).  Bridge.v:
      crates/havenkeys-bridge (convert.rs, ratelimit.rs, dispatch.rs,
      server.rs: the forms of items and errors a browser sees, the token
      buckets, a definition per request, and the life of a connection over
      the state a desktop shares between its connections).  BridgeFacts.v:
      their theorems.
    - The phone (crates/havenkeys-mobile).  Mobile.v: vault.rs, events.rs,
      settings.rs and what the system's autofill and passkey services may ask
      (autofill.rs, asset_links_fetch.rs, cards.rs, identity_fill.rs, save.rs,
      credentials.rs, passkey_json.rs).  MobileEdit.v: items.rs, edit.rs,
      trash.rs, activity.rs, health.rs and qr.rs (the viewer and the drafts
      of the editor), key_file.rs, unlock.rs, account.rs, onboarding.rs and
      pairing.rs.  Each ends with its theorems.
    - The desktop (apps/desktop/src-tauri/src).  DesktopParts.v: what is kept
      beside the vault, a file each (updates.rs, quick_access.rs, confirm.rs,
      scan_slot.rs, pending_files.rs, clipboard.rs, qr_scan.rs,
      item_input.rs).  Desktop.v: state.rs, events.rs, quick_window.rs and
      the commands of the windows, over the client.  Each ends with its
      theorems.
    - Url.v and ToyCodec.v hold the interface of the URL library and the
      concrete libraries the witnesses run on.

    The state of a vault service is the record [VaultService] of Vault.v: the
    store, the lock state, the session of an unlocked vault and the epoch,
    which every lock advances.  A [&mut self] method is a computation of the
    state-and-error monad [M] below (an error keeps the writes made before
    it); a [&self] method is a function of the service to a [result].  A
    client holds a vault service, its connection and the state of a
    [Transport]; a server is a function of its database to a response and the
    next database, so a client run against [Server] is one state machine.

    ** What the theorems show

    - System.v: in every reachable state the service is unlocked exactly when
      it holds a session, the caches are exactly what the stored blobs open
      to, and a write staged earlier is refused as locked or commits what was
      staged ([reachable_coherent]); no step forgets a header revision; a
      pull leaves each item as the last change naming it says; a created item
      reads back.
    - Lifecycle.v: a lock wins over an unlock, write or password change in
      flight; create, lock and unlock, and change password, lock and unlock,
      give the same session.
    - Page.v, Origin.v: credentials leave only for a page the item's own
      rules allow, and a save prompt updates only a login of that page.
      PasskeyFacts.v: a passkey signs only for a relying party its page may
      claim, its counter only grows, and registering puts a credential on at
      most the item chosen.  CardPage.v: a card's values reach only the
      checkout's frames, over https.
    - Blob.v, Keys.v: blobs open only in the context they were sealed for,
      and the inputs of the account's keys are separated.
    - BuildItem.v, CustomField.v, Model.v: edits keep what they do not mean
      to change, never reach another item's secrets, and views show none.
    - Staging.v, Backup.v, Restore.v: an import only adds; a
      backup opens to what was put in it and refuses a splice; a restore
      never replaces what the vault holds.  ImportFacts.v: what a reader
      builds fits the vault, a Bitwarden login keeps its values, a CSV import
      is its rows, and the CSV export reads back.
    - Pairing.v, ServerPairing.v: an envelope opens only under its
      code and signs the new device in; a pairing gives one session, once.
      ServerAccount.v: a session needs a proof of the account's key,
      credentials change only for the one who proved them, and a deleted
      account leaves nothing behind.
    - AccountFacts.v: a device that signed in with OPAQUE never sends its
      auth key; activation keeps the Secret Key first and writes no vault
      unless the server agreed; a change of the master password reported
      done is the server's; a paired device opens its session's vault.
    - ServerFacts.v, Converge.v, ClientFilesFacts.v: pages of changes lose
      and repeat nothing; a push is atomic; a client that syncs with a quiet server reaches the server's
      state, in a bounded number of rounds; restores end; a file opens to the
      bytes its listing names.
    - BridgeFacts.v: whatever arrives on a connection, credentials need the
      switch of web fill, nothing reaches a page or the vault while it is
      frozen, a change of a saved login needs a free place and the user's
      word in the same unlocked session, kept updates are spaced in time, an
      item of another site and no item at all get the same answer, a frame
      reads back however its bytes are cut, and a connection never keeps more
      requests waiting than it may; the relay ends with its input.
    - Mobile.v, MobileEdit.v: a fill leaves a phone only for the item's own
      site, an app the user bound or one its websites vouch for, from an open
      account that may be used; past its auto-lock a phone answers nothing; a
      draft is staged only against the version it was opened from, and keeps
      what it does not name.
    - DesktopParts.v, Desktop.v: locking leaves nothing of the vault on the
      desktop; what the windows read again by themselves does not hold it
      open; only the Allow given to the question shown allows a change; the
      shortcut the system holds is the one shown, whatever fails; an export
      needs the master password, and a file is written whole or not at all.
    - The value files: normal forms, idempotent cleaning, bounds, and total
      generation of passwords and codes.

    ** What is assumed

    Code outside the repository is a class of operations, with what is relied
    on as a second class of laws: [Crypto] (AES-GCM, SHA-256), [KeyLib]
    (Argon2id, HKDF, uuid v8), [Unicode] (lower case, NFC), [UrlLib],
    [SiteLib] and [PslLaws] (URLs, public suffixes), [TotpLib] (Base32,
    HMAC), [JsonLib], [HeaderLib], [Serde], [BackupJson] and [PlainForms]
    (serde forms, Base64), [UuidText] and [UuidParse], [HealthLib] (zxcvbn
    and the two site lists), [AppLib] and [PasskeyLib] (P-256, platform
    associations), [CsvLib] with [CsvLaws], [JsonText], [ZipLib] and
    [QueryLaws] (the readers of files), [Base32Lib] and [Base64UrlLib],
    [HpkeLib] and [FormLib] (the pairing envelope and link), [OpaqueKe] and
    [AuthLib] (OPAQUE, Argon2id and Unicode tables), [ChronoLib], [FloatLib]
    (a power of one half), [LookalikeLib], [HexLib], [FormatChars],
    [ReqwestLib], [Transport], [Platform], [KeyHost], [AppHost] and [Clock]
    (HTTP, TLS, files, the platform's key store, time), [WireSerde] (the
    JSON of a message), [HostIo] and [BridgeHost] (the relay's streams; the
    desktop's clock, window and dialog), [PhoneLib], [PhoneHost], [QrLib],
    [KeystoreCipher] and [KeyFiles] with [KeyFileLaws] (the phone's services,
    camera, Keystore and files), [DesktopHost], [FileHost] with
    [FileLaws], [Disk] and [ShortcutHost] with [HostLaws], [ShortcutLib],
    [Clip], [QrTexts] and [QrMaker] (the computer's clocks, dialogs, files,
    global shortcuts, clipboard and QR codes).  Each law has a concrete
    instance, and each theorem with hypotheses a witness computed on those
    instances.
    Randomness and time are arguments: a nonce is an [option] ([None] is a
    failed generator), a fresh id a number, [now_ms] an integer.

    Machine integers keep their width where the code wraps or saturates
    ([u64_wrapping_add], [i64_saturating_sub], [as_i64]).  Fuel bounds only
    loops whose end depends on the data: the host of [dir_lookup] (the length
    of the text plus one; each round shortens it), CBOR nesting (the depth
    the parser itself allows), pulling pages (the number of changes plus
    two), reading every file or item (their number plus one) and a restore
    (two rounds per item of a batch plus one).  The relay
    takes a round per byte of its input, and the bridge one per match it
    drops to make an answer fit.  Converge.v, ClientFilesFacts.v and
    BridgeFacts.v prove that this fuel is enough; everything else is
    structural.

    ** What is not modelled

    Malformed id text and statements SQLite itself fails; wiping of memory;
    serde forms beyond their laws; the entropy figure of the generator.  Of
    the client, two methods running at once: an [await] is one step of the
    world, a background task a [Job] run by itself, and what a lock in
    between does is proved of the vault service (Lifecycle.v).  Of the
    server: sockets, SQL connections, mail delivery, the location database
    and the payment provider no route calls yet.  Of the bridge: the
    socket and who may open it, poisoned locks, threads that cannot be
    started, and events pushed to a browser.  Of the phone: its start-up and
    the threads that tick and tell.  Of the desktop:
    Tauri's set-up, menus, the updater plugin and the desktop entry; a lock
    during a client call is heard when the call ends.  Outside them: the
    user interfaces.

    This first file is the shared prelude: results and the monad, lengths and
    machine integers, bytes, uuids and orders. *)

From stdpp Require Export base tactics numbers list gmap strings sorting.
From Stdlib Require Export ZArith Lia.

Global Set Default Goal Selector "!".
Global Open Scope Z_scope.

(** ** Results

    Rust's [Result<T, E>].  The bind is the [?] operator: the first error
    ends the computation. *)

Inductive result (E A : Type) : Type :=
| Ok (a : A)
| Err (e : E).
Arguments Ok {E A} a.
Arguments Err {E A} e.

#[export] Instance result_ret {E} : MRet (result E) := fun A a => Ok a.
#[export] Instance result_bind {E} : MBind (result E) := fun A B f r =>
  match r with Ok a => f a | Err e => Err e end.
#[export] Instance result_fmap {E} : FMap (result E) := fun A B f r =>
  match r with Ok a => Ok (f a) | Err e => Err e end.
#[export] Instance result_eq_dec {E A} `{EqDecision E, EqDecision A} :
  EqDecision (result E A).
Proof. solve_decision. Defined.

#[export] Instance Ok_inj {E A} : Inj (=) (=) (@Ok E A).
Proof. by intros x y [= ->]. Qed.
#[export] Instance Err_inj {E A} : Inj (=) (=) (@Err E A).
Proof. by intros x y [= ->]. Qed.

(** [Option::ok_or], [Result::ok], [Result::map_err], [Result::is_ok]. *)
Definition ok_or {E A} (e : E) (o : option A) : result E A :=
  match o with Some a => Ok a | None => Err e end.

Lemma ok_or_Ok {E A} (e : E) (o : option A) a : ok_or e o = Ok a -> o = Some a.
Proof. destruct o; [by intros [= ->]|done]. Qed.

Definition result_ok {E A} (r : result E A) : option A :=
  match r with Ok a => Some a | Err _ => None end.

Definition map_err {E F A} (f : E -> F) (r : result E A) : result F A :=
  match r with Ok a => Ok a | Err e => Err (f e) end.

Definition is_ok {E A} (r : result E A) : bool :=
  match r with Ok _ => true | Err _ => false end.

(** [Iterator::collect::<Result<Vec<_>>>]: stops at the first error. *)
Fixpoint mapM_result {E A B} (f : A -> result E B) (l : list A) : result E (list B) :=
  match l with
  | [] => Ok []
  | x :: l => y ← f x; ys ← mapM_result f l; Ok (y :: ys)
  end.

(** The state-and-error monad of a [&mut self] method that returns a
    [Result]: an error keeps the writes made before it, as Rust's early
    return does. *)
Definition M (S E A : Type) : Type := S -> S * result E A.

#[export] Instance M_ret {S E} : MRet (M S E) := fun A a s => (s, Ok a).
#[export] Instance M_bind {S E} : MBind (M S E) := fun A B f m s =>
  match m s with
  | (s', Ok a) => f a s'
  | (s', Err e) => (s', Err e)
  end.

Definition mthrow_ {S E A} (e : E) : M S E A := fun s => (s, Err e).
Definition mget {S E} : M S E S := fun s => (s, Ok s).
Definition mput {S E} (s' : S) : M S E unit := fun _ => (s', Ok ()).
Definition mmodify {S E} (f : S -> S) : M S E unit := fun s => (f s, Ok ()).
(** Run a [&self] computation. *)
Definition mread {S E A} (f : S -> result E A) : M S E A := fun s => (s, f s).
Definition mlift {S E A} (r : result E A) : M S E A := fun s => (s, r).
Definition mwhen {S E} (b : bool) (m : M S E unit) : M S E unit :=
  if b then m else mret ().

(** Peel one step of a successful computation. *)
Lemma bind_Ok {E A B} (r : result E A) (f : A -> result E B) b :
  (r ≫= f) = Ok b -> exists a, r = Ok a /\ f a = Ok b.
Proof. destruct r as [a|]; [|done]. intros H. by exists a. Qed.

Lemma M_bind_Ok {S E A B} (m : M S E A) (f : A -> M S E B) s s' b :
  (m ≫= f) s = (s', Ok b) -> exists a s1, m s = (s1, Ok a) /\ f a s1 = (s', Ok b).
Proof.
  unfold mbind, M_bind. destruct (m s) as [s1 [a|]] eqn:Em; [|done].
  intros H. by exists a, s1.
Qed.

Lemma mlift_Ok {S E A} (r : result E A) (s s' : S) a :
  mlift r s = (s', Ok a) -> s' = s /\ r = Ok a.
Proof. unfold mlift. by intros [= -> ->]. Qed.

(** One step of a run, for each kind of first command. *)
Section MRun.
Context {S E A B : Type}.
Implicit Type s : S.

Lemma run_mget (f : S -> M S E B) s : (mget ≫= f) s = f s s.
Proof. done. Qed.
Lemma run_mlift (r : result E A) (f : A -> M S E B) s :
  (mlift r ≫= f) s = match r with Ok a => f a s | Err e => (s, Err e) end.
Proof. by destruct r. Qed.
Lemma run_mmodify (g : S -> S) (f : unit -> M S E B) s : (mmodify g ≫= f) s = f () (g s).
Proof. done. Qed.
Lemma run_mret (a : A) (f : A -> M S E B) s : (mret a ≫= f) s = f a s.
Proof. done. Qed.
Lemma run_bind (m : M S E A) (f : A -> M S E B) s s' a : m s = (s', Ok a) -> (m ≫= f) s = f a s'.
Proof. intros H. unfold mbind, M_bind. by rewrite H. Qed.
Lemma run_bind_err (m : M S E A) (f : A -> M S E B) s s' e : m s = (s', Err e) -> (m ≫= f) s = (s', Err e).
Proof. intros H. unfold mbind, M_bind. by rewrite H. Qed.
End MRun.

Ltac mrun := rewrite ?run_mget, ?run_mlift, ?run_mmodify, ?run_mret; cbv beta.

(** [if bad { return Err(e) }] *)
Definition guard_err {E} (bad : bool) (e : E) : result E () :=
  if bad then Err e else Ok ().

(** ** Lengths and machine integers *)

Abbreviation len l := (Z.of_nat (length l)).

Definition i64_min : Z := - 2 ^ 63.
Definition i64_max : Z := 2 ^ 63 - 1.
Definition in_i64 (z : Z) : Prop := i64_min <= z <= i64_max.
Definition u64_max : Z := 2 ^ 64 - 1.
Definition in_u64 (z : Z) : Prop := 0 <= z <= u64_max.
Definition u32_max : Z := 2 ^ 32 - 1.

(** [saturating_add] and [saturating_sub] on [i64] and [u64],
    [wrapping_add] on [u64], and the [as i64] cast. *)
Definition clamp (lo hi z : Z) : Z := Z.max lo (Z.min hi z).
Definition i64_saturating_add (a b : Z) : Z := clamp i64_min i64_max (a + b).
Definition i64_saturating_sub (a b : Z) : Z := clamp i64_min i64_max (a - b).
Definition u64_saturating_add (a b : Z) : Z := clamp 0 u64_max (a + b).
Definition u64_saturating_sub (a b : Z) : Z := clamp 0 u64_max (a - b).
Definition u64_wrapping_add (a b : Z) : Z := (a + b) mod 2 ^ 64.
Definition as_i64 (z : Z) : Z :=
  let w := z mod 2 ^ 64 in if w <? 2 ^ 63 then w else w - 2 ^ 64.

Definition in_range (lo hi z : Z) : bool := (lo <=? z) && (z <=? hi).

Lemma in_range_true lo hi z : in_range lo hi z = true <-> lo <= z <= hi.
Proof. unfold in_range. rewrite andb_true_iff, !Z.leb_le. lia. Qed.

Lemma in_range_false lo hi z : in_range lo hi z = false <-> ~ (lo <= z <= hi).
Proof. rewrite <- not_true_iff_false, in_range_true. tauto. Qed.

Lemma i64_saturating_sub_spec a b :
  in_i64 (a - b) -> i64_saturating_sub a b = a - b.
Proof. unfold in_i64, i64_saturating_sub, clamp, i64_min, i64_max. lia. Qed.

Lemma i64_saturating_add_spec a b :
  in_i64 (a + b) -> i64_saturating_add a b = a + b.
Proof. unfold in_i64, i64_saturating_add, clamp, i64_min, i64_max. lia. Qed.

Lemma as_i64_id z : in_i64 z -> as_i64 z = z.
Proof.
  unfold in_i64, as_i64, i64_min, i64_max. intros Hz.
  destruct (decide (0 <= z)) as [Hp|Hn].
  - rewrite Z.mod_small by lia. destruct (Z.ltb_spec z (2 ^ 63)); lia.
  - assert (z mod 2 ^ 64 = z + 2 ^ 64) as ->.
    { symmetry. apply Z.mod_unique with (-1); lia. }
    destruct (Z.ltb_spec (z + 2 ^ 64) (2 ^ 63)); lia.
Qed.

Lemma as_i64_mod z : as_i64 (z mod 2 ^ 64) = as_i64 z.
Proof. unfold as_i64. by rewrite Z.mod_mod by lia. Qed.

(** ** Bytes, and big- and little-endian words *)

Abbreviation byte := Z (only parsing).
Abbreviation bytes := (list Z) (only parsing).

Definition is_byte (b : Z) : Prop := 0 <= b < 256.
Definition all_bytes (l : list Z) : Prop := Forall is_byte l.

(** [to_le_bytes] and [from_le_bytes] of an [n]-byte word, and the
    big-endian pair. *)
Fixpoint le_bytes (n : nat) (z : Z) : list Z :=
  match n with
  | O => []
  | S n => z mod 256 :: le_bytes n (z / 256)
  end.

Fixpoint le_val (l : list Z) : Z :=
  match l with
  | [] => 0
  | b :: l => b + 256 * le_val l
  end.

Definition be_bytes (n : nat) (z : Z) : list Z := reverse (le_bytes n z).
Definition be_val (l : list Z) : Z := le_val (reverse l).

Lemma length_le_bytes n z : length (le_bytes n z) = n.
Proof. revert z. induction n; intros; simpl; auto. Qed.

Lemma length_be_bytes n z : length (be_bytes n z) = n.
Proof. unfold be_bytes. by rewrite length_reverse, length_le_bytes. Qed.

Lemma le_bytes_all n z : all_bytes (le_bytes n z).
Proof.
  revert z. induction n as [|n IH]; intros z; constructor; [|apply IH].
  apply Z.mod_pos_bound. lia.
Qed.

Lemma be_bytes_all n z : all_bytes (be_bytes n z).
Proof. apply Forall_reverse, le_bytes_all. Qed.

Lemma le_val_bytes n z : le_val (le_bytes n z) = z mod 256 ^ Z.of_nat n.
Proof.
  revert z. induction n as [|n IH]; intros z; cbn [le_bytes le_val].
  - rewrite Z.mod_1_r. done.
  - rewrite IH, Nat2Z.inj_succ, Z.pow_succ_r by lia.
    rewrite Z.rem_mul_r by lia. lia.
Qed.

Lemma be_val_bytes n z : be_val (be_bytes n z) = z mod 256 ^ Z.of_nat n.
Proof. unfold be_val, be_bytes. by rewrite reverse_involutive, le_val_bytes. Qed.

Lemma le_bytes_val l : all_bytes l -> le_bytes (length l) (le_val l) = l.
Proof.
  induction 1 as [|b l Hb _ IH]; [done|]. cbn [length le_bytes le_val].
  unfold is_byte in Hb.
  replace (b + 256 * le_val l) with (le_val l * 256 + b) by lia.
  rewrite Z.add_comm, Z.mod_add, Z.div_add by lia.
  rewrite Z.mod_small, Z.div_small by lia. by rewrite Z.add_0_l, IH.
Qed.

Lemma be_bytes_val l : all_bytes l -> be_bytes (length l) (be_val l) = l.
Proof.
  intros Hl. unfold be_bytes, be_val. rewrite <- (length_reverse l).
  rewrite le_bytes_val by (by apply Forall_reverse). apply reverse_involutive.
Qed.

Lemma be_bytes_inj n a b :
  0 <= a < 256 ^ Z.of_nat n -> 0 <= b < 256 ^ Z.of_nat n ->
  be_bytes n a = be_bytes n b -> a = b.
Proof.
  intros Ha Hb H. apply (f_equal be_val) in H.
  rewrite !be_val_bytes, !Z.mod_small in H by done. done.
Qed.

Lemma le_bytes_inj n a b :
  0 <= a < 256 ^ Z.of_nat n -> 0 <= b < 256 ^ Z.of_nat n ->
  le_bytes n a = le_bytes n b -> a = b.
Proof.
  intros Ha Hb H. apply (f_equal le_val) in H.
  rewrite !le_val_bytes, !Z.mod_small in H by done. done.
Qed.

(** ** Uuids: 128-bit values; [as_bytes] is their big-endian form, so the
    byte order and the numeric order agree. *)

Abbreviation Uuid := Z (only parsing).
Definition is_uuid (u : Z) : Prop := 0 <= u < 2 ^ 128.
Definition uuid_bytes (u : Z) : list Z := be_bytes 16 u.
Definition uuid_nil : Z := 0.
#[global] Arguments be_bytes : simpl never.
#[global] Arguments uuid_bytes : simpl never.

Lemma length_uuid_bytes u : length (uuid_bytes u) = 16%nat.
Proof. apply length_be_bytes. Qed.

Lemma uuid_bytes_inj u v : is_uuid u -> is_uuid v -> uuid_bytes u = uuid_bytes v -> u = v.
Proof. unfold is_uuid, uuid_bytes. intros. by apply (be_bytes_inj 16). Qed.

(** ** Orders

    Rust's [Ord] as a three-way comparison with its laws; instances for the
    keys the code sorts by. *)

Class Cmp (A : Type) := cmp : A -> A -> comparison.
Class CmpLaws (A : Type) `{Cmp A} : Prop := {
  cmp_eq : forall x y : A, cmp x y = Eq <-> x = y;
  cmp_opp : forall x y : A, cmp y x = CompOpp (cmp x y);
  cmp_lt_trans : forall x y z : A, cmp x y = Lt -> cmp y z = Lt -> cmp x z = Lt;
}.

Definition cmp_le {A} `{Cmp A} (x y : A) : Prop := cmp x y <> Gt.
#[export] Instance cmp_le_dec {A} `{Cmp A} (x y : A) : Decision (cmp_le x y).
Proof.
  unfold cmp_le. destruct (cmp x y); [left|left|right]; congruence.
Defined.

Section cmp_le.
Context {A : Type} `{CmpLaws A}.

Lemma cmp_refl (x : A) : cmp x x = Eq.
Proof. by apply cmp_eq. Qed.

#[export] Instance cmp_le_total : Total (cmp_le (A := A)).
Proof.
  intros x y. unfold cmp_le. rewrite (cmp_opp x y).
  destruct (cmp x y); simpl; auto.
Qed.

#[export] Instance cmp_le_trans : Transitive (cmp_le (A := A)).
Proof.
  intros x y z. unfold cmp_le. intros H1 H2 H3.
  destruct (cmp x y) eqn:Exy; [| |done].
  - apply cmp_eq in Exy as ->. done.
  - destruct (cmp y z) eqn:Eyz; [| |done].
    + apply cmp_eq in Eyz as ->. congruence.
    + rewrite (cmp_lt_trans x y z) in H3 by done. done.
Qed.

Lemma cmp_le_antisym (x y : A) : cmp_le x y -> cmp_le y x -> x = y.
Proof.
  unfold cmp_le. rewrite (cmp_opp x y). destruct (cmp x y) eqn:E; simpl; try done.
  intros _ _. by apply cmp_eq.
Qed.
End cmp_le.

#[export] Instance Z_cmp : Cmp Z := Z.compare.
#[export] Instance Z_cmp_laws : CmpLaws Z.
Proof.
  split; unfold cmp, Z_cmp.
  - apply Z.compare_eq_iff.
  - intros x y. apply Z.compare_antisym.
  - intros x y z. rewrite !Z.compare_lt_iff. lia.
Qed.

Definition then_cmp (c d : comparison) : comparison :=
  match c with Eq => d | _ => c end.

#[export] Instance prod_cmp {A B} `{Cmp A, Cmp B} : Cmp (A * B) := fun x y =>
  then_cmp (cmp x.1 y.1) (cmp x.2 y.2).
#[export] Instance prod_cmp_laws {A B} `{CmpLaws A, CmpLaws B} : CmpLaws (A * B).
Proof.
  split; unfold cmp, prod_cmp.
  - intros [x1 x2] [y1 y2]; simpl. split.
    + destruct (cmp x1 y1) eqn:E; simpl; try done.
      apply cmp_eq in E as ->. intros ->%cmp_eq. done.
    + intros [= -> ->]. by rewrite !cmp_refl.
  - intros [x1 x2] [y1 y2]; simpl. rewrite (cmp_opp x1 y1), (cmp_opp x2 y2).
    by destruct (cmp x1 y1).
  - intros [x1 x2] [y1 y2] [z1 z2]; simpl.
    destruct (cmp x1 y1) eqn:E1; try done; destruct (cmp y1 z1) eqn:E2; try done; simpl.
    + apply cmp_eq in E1 as ->. rewrite E2. simpl. by apply cmp_lt_trans.
    + apply cmp_eq in E1 as ->. by rewrite E2.
    + apply cmp_eq in E2 as ->. by rewrite E1.
    + by rewrite (cmp_lt_trans x1 y1 z1).
Qed.

Fixpoint list_cmp_ {A} (c : A -> A -> comparison) (l k : list A) : comparison :=
  match l, k with
  | [], [] => Eq
  | [], _ => Lt
  | _, [] => Gt
  | x :: l, y :: k => then_cmp (c x y) (list_cmp_ c l k)
  end.
#[export] Instance list_cmp {A} `{Cmp A} : Cmp (list A) := list_cmp_ cmp.
#[export] Instance list_cmp_laws {A} `{CmpLaws A} : CmpLaws (list A).
Proof.
  split; unfold cmp, list_cmp.
  - induction x as [|x l IH]; intros [|y k]; simpl; try done. split.
    + destruct (cmp x y) eqn:E; simpl; try done.
      apply cmp_eq in E as ->. intros ->%IH. done.
    + intros [= -> ->]. rewrite cmp_refl. by apply IH.
  - induction x as [|x l IH]; intros [|y k]; simpl; try done.
    rewrite (cmp_opp x y), IH. by destruct (cmp x y).
  - induction x as [|x l IH]; intros [|y k] [|z m]; simpl; try done.
    destruct (cmp x y) eqn:E1; try done; destruct (cmp y z) eqn:E2; try done; simpl.
    + apply cmp_eq in E1 as ->. rewrite E2. simpl. apply IH.
    + apply cmp_eq in E1 as ->. by rewrite E2.
    + apply cmp_eq in E2 as ->. by rewrite E1.
    + by rewrite (cmp_lt_trans x y z).
Qed.

#[export] Instance option_cmp {A} `{Cmp A} : Cmp (option A) := fun x y =>
  match x, y with
  | None, None => Eq
  | None, Some _ => Lt
  | Some _, None => Gt
  | Some x, Some y => cmp x y
  end.
#[export] Instance option_cmp_laws {A} `{CmpLaws A} : CmpLaws (option A).
Proof.
  split; unfold cmp, option_cmp.
  - intros [x|] [y|]; try done. rewrite cmp_eq. split; congruence.
  - intros [x|] [y|]; try done. apply cmp_opp.
  - intros [x|] [y|] [z|]; try done. apply cmp_lt_trans.
Qed.

(** [std::cmp::Reverse]. *)
Record Reverse (A : Type) := { reversed : A }.
Arguments Build_Reverse {A} _.
Arguments reversed {A} _.
#[export] Instance Reverse_cmp {A} `{Cmp A} : Cmp (Reverse A) := fun x y =>
  cmp (reversed y) (reversed x).
#[export] Instance Reverse_cmp_laws {A} `{CmpLaws A} : CmpLaws (Reverse A).
Proof.
  split; unfold cmp, Reverse_cmp.
  - intros [x] [y]; simpl. rewrite cmp_eq. split; congruence.
  - intros [x] [y]; simpl. apply cmp_opp.
  - intros [x] [y] [z]; simpl. intros H1 H2. by apply (cmp_lt_trans z y x).
Qed.

(** [sort_by_key] and [sort_by_cached_key]. *)
Definition key_le {A K} `{Cmp K} (key : A -> K) (x y : A) : Prop := cmp_le (key x) (key y).
#[export] Instance key_le_dec {A K} `{Cmp K} (key : A -> K) : RelDecision (key_le key).
Proof. intros x y. unfold key_le. apply _. Defined.

Definition sort_by_key {A K} `{Cmp K} (key : A -> K) (l : list A) : list A :=
  merge_sort (key_le key) l.

Section sort_by_key.
Context {A K : Type} `{CmpLaws K} (key : A -> K).

#[local] Instance key_le_total : Total (key_le key).
Proof. intros x y. apply (total cmp_le). Qed.
#[local] Instance key_le_trans : Transitive (key_le key).
Proof. intros x y z. unfold key_le. apply cmp_le_trans. Qed.

Lemma sort_by_key_perm l : sort_by_key key l ≡ₚ l.
Proof. apply merge_sort_Permutation. Qed.

Lemma sort_by_key_sorted l : StronglySorted (key_le key) (sort_by_key key l).
Proof. apply (StronglySorted_merge_sort _). Qed.
End sort_by_key.
