(* ===== verification/Errors.v ===== *)
(** * Errors of the security core (crates/havenkeys-core/src/error.rs)

    The error values every core operation returns, and their stable codes. *)

From S2P Require Import Prelude.

(** [error.rs: enum Error]; [InvalidInput] carries its fixed message. *)
Inductive Error : Type :=
| Locked
| Busy
| UnlockFailed
| SecretKeyRequired
| Decryption
| Encryption
| Corrupted
| UnsupportedVersion
| NewerVault
| VaultExists
| NoVault
| NotFound
| Denied
| InvalidInput (msg : string)
| Storage
| Kdf
| Rng
| Offline
| ItemChangedElsewhere
| BundleRefused.

#[export] Instance Error_eq_dec : EqDecision Error.
Proof. solve_decision. Defined.

(** [Error::code]. *)
Definition code (e : Error) : string :=
  match e with
  | Locked => "locked"
  | Busy => "busy"
  | UnlockFailed => "unlock_failed"
  | SecretKeyRequired => "secret_key_required"
  | Decryption => "decryption"
  | Encryption => "encryption"
  | Corrupted => "corrupted"
  | UnsupportedVersion => "unsupported_version"
  | NewerVault => "newer_vault"
  | VaultExists => "vault_exists"
  | NoVault => "no_vault"
  | NotFound => "not_found"
  | Denied => "denied"
  | InvalidInput _ => "invalid_input"
  | Storage => "storage"
  | Kdf => "kdf"
  | Rng => "rng"
  | Offline => "offline"
  | ItemChangedElsewhere => "item_changed_elsewhere"
  | BundleRefused => "bundle_refused"
  end.

(** The [#[error]] messages. *)
Definition display (e : Error) : string :=
  match e with
  | Locked => "The vault is locked."
  | Busy => "The vault is busy. Try again in a moment."
  | UnlockFailed => "Incorrect master password or damaged vault."
  | SecretKeyRequired => "This vault needs your Secret Key."
  | Decryption => "Failed to decrypt vault item."
  | Encryption => "Failed to encrypt vault item."
  | Corrupted => "The vault file is corrupted."
  | UnsupportedVersion => "This vault was created by an unsupported version."
  | NewerVault => "This vault was saved by a newer version of HavenKeys."
  | VaultExists => "A vault already exists."
  | NoVault => "No vault exists yet."
  | NotFound => "Item not found."
  | Denied => "This item is not saved for this website."
  | InvalidInput m => "Invalid input: " +:+ m +:+ "."
  | Storage => "Vault storage error."
  | Kdf => "Key derivation failed."
  | Rng => "Secure random number generator unavailable."
  | Offline => "HavenKeys is offline — the vault is read-only until it reconnects."
  | ItemChangedElsewhere => "This item changed on another device."
  | BundleRefused => "Enter your master password to unlock."
  end.

(** The core's [Result<T>]. *)
Abbreviation Result := (result Error).

(** Two errors with one code differ at most in their message. *)
Lemma code_inj e f :
  code e = code f -> e = f \/ exists m n, e = InvalidInput m /\ f = InvalidInput n.
Proof. destruct e, f; simpl; intros; try discriminate; eauto. Qed.
