(* ===== verification/Text.v ===== *)
(** * Text: what the core uses of Rust's [str] and [char]

    A [String] is the list of its Unicode scalar values; its byte length is
    that of its UTF-8 form.  [char::is_whitespace] and [char::is_control] are
    spelled out from the Unicode properties they test; full lower-casing
    ([str::to_lowercase]) and NFC come from tables outside the repository and
    are the operations of the class [Unicode]. *)

From S2P Require Import Prelude.

Abbreviation char := Z (only parsing).
Abbreviation str := (list Z) (only parsing).

(** A literal of the source. *)
Definition lit (s : string) : list Z :=
  (fun a => Z.of_N (Ascii.N_of_ascii a)) <$> String.list_ascii_of_string s.

#[global] Arguments lit : simpl never.

Class Unicode := {
  to_lowercase : list Z -> list Z;
  nfc : list Z -> list Z;
}.

(** ** UTF-8 *)

Definition utf8_char (c : Z) : list Z :=
  if c <? 128 then [c]
  else if c <? 2048 then [192 + c / 64; 128 + c mod 64]
  else if c <? 65536 then [224 + c / 4096; 128 + (c / 64) mod 64; 128 + c mod 64]
  else [240 + c / 262144; 128 + (c / 4096) mod 64; 128 + (c / 64) mod 64; 128 + c mod 64].

(** [str::as_bytes] and [str::len]. *)
Definition utf8 (s : list Z) : list Z := s ≫= utf8_char.
Definition str_len (s : list Z) : Z := len (utf8 s).

(** ** Character classes *)

Definition is_whitespace (c : Z) : bool :=
  in_range 9 13 c || (c =? 32) || (c =? 133) || (c =? 160) || (c =? 5760)
  || in_range 8192 8202 c || (c =? 8232) || (c =? 8233) || (c =? 8239)
  || (c =? 8287) || (c =? 12288).

Definition is_control (c : Z) : bool := in_range 0 31 c || in_range 127 159 c.
Definition is_ascii (c : Z) : bool := c <? 128.
Definition is_ascii_digit (c : Z) : bool := in_range 48 57 c.
Definition is_ascii_upper (c : Z) : bool := in_range 65 90 c.
Definition is_ascii_lower (c : Z) : bool := in_range 97 122 c.
Definition to_ascii_uppercase (c : Z) : Z := if is_ascii_lower c then c - 32 else c.
Definition to_ascii_lowercase (c : Z) : Z := if is_ascii_upper c then c + 32 else c.
Definition eq_ignore_ascii_case (s t : list Z) : bool :=
  bool_decide (map to_ascii_lowercase s = map to_ascii_lowercase t).

(** [str::bytes().all(is_ascii_digit)]: a UTF-8 string's bytes are all ASCII
    digits exactly when its characters are. *)
Definition all_digits (s : list Z) : bool := forallb is_ascii_digit s.

(** ** Trimming and splitting *)

Fixpoint trim_start (s : list Z) : list Z :=
  match s with
  | c :: s' => if is_whitespace c then trim_start s' else s
  | [] => []
  end.
Definition trim_end (s : list Z) : list Z := reverse (trim_start (reverse s)).
Definition trim (s : list Z) : list Z := trim_end (trim_start s).

(** [split_whitespace]: the maximal runs of non-whitespace.  [cur] is the run
    being read, reversed. *)
Definition flush (cur : list Z) (rest : list (list Z)) : list (list Z) :=
  match cur with [] => rest | _ => reverse cur :: rest end.
Fixpoint split_ws (cur : list Z) (s : list Z) : list (list Z) :=
  match s with
  | [] => flush cur []
  | c :: s => if is_whitespace c then flush cur (split_ws [] s) else split_ws (c :: cur) s
  end.
Definition split_whitespace (s : list Z) : list (list Z) := split_ws [] s.

(** [join(sep)]. *)
Fixpoint join (sep : list Z) (l : list (list Z)) : list Z :=
  match l with
  | [] => []
  | [w] => w
  | w :: l => w ++ sep ++ join sep l
  end.

Definition starts_with (p s : list Z) : bool := bool_decide (take (length p) s = p).
Definition strip_prefix (p s : list Z) : option (list Z) :=
  if starts_with p s then Some (drop (length p) s) else None.
Definition ends_with (p s : list Z) : bool := starts_with (reverse p) (reverse s).
Definition strip_suffix (p s : list Z) : option (list Z) :=
  if ends_with p s then Some (take (length s - length p) s) else None.

(** [str::contains(&str)]. *)
Fixpoint contains (needle s : list Z) : bool :=
  starts_with needle s || match s with [] => false | _ :: s' => contains needle s' end.

(** [str::split_once(char)]. *)
Fixpoint split_once (sep : Z) (s : list Z) : option (list Z * list Z) :=
  match s with
  | [] => None
  | c :: s =>
      if c =? sep then Some ([], s)
      else match split_once sep s with
           | Some (a, b) => Some (c :: a, b)
           | None => None
           end
  end.

(** ** Decimal numbers: [{}] and [{:0w$}] of an unsigned integer, and
    [str::parse] of one no larger than [max] (an optional [+] and at least
    one digit). *)

Fixpoint digits_ (fuel : nat) (n : Z) (acc : list Z) : list Z :=
  match fuel with
  | O => acc
  | S fuel =>
      let acc := 48 + n mod 10 :: acc in
      if n / 10 =? 0 then acc else digits_ fuel (n / 10) acc
  end.
Definition to_decimal (n : Z) : list Z := digits_ (S (S (Z.to_nat (Z.log2 n)))) n [].

Definition pad_zeros (width : nat) (s : list Z) : list Z :=
  replicate (width - length s) 48 ++ s.

Definition digits_val (s : list Z) : Z := foldl (fun n c => n * 10 + (c - 48)) 0 s.
Definition parse_unsigned (max : Z) (s : list Z) : option Z :=
  let s := match s with 43 :: s => s | _ => s end in
  if bool_decide (s = []) || negb (all_digits s) then None
  else let n := digits_val s in if n <=? max then Some n else None.

(** [str::parse::<i64>]. *)
Definition parse_i64 (s : list Z) : option Z :=
  match s with
  | 45 :: d =>
      if bool_decide (d = []) || negb (all_digits d) then None
      else let n := digits_val d in if n <=? - i64_min then Some (- n) else None
  | _ => parse_unsigned i64_max s
  end.

(** [str::split(char)]: one more part than there are separators.  [cur] is
    the part being read, reversed. *)
Fixpoint split_from (sep : Z) (cur s : list Z) : list (list Z) :=
  match s with
  | [] => [reverse cur]
  | c :: s => if c =? sep then reverse cur :: split_from sep [] s else split_from sep (c :: cur) s
  end.
Definition split_on (sep : Z) (s : list Z) : list (list Z) := split_from sep [] s.

(** [str::from_utf8]: the shortest form of each scalar value. *)
Definition cont (b : Z) : bool := in_range 128 191 b.
Definition scalar_or_none (lo c : Z) : option Z :=
  if (lo <=? c) && (c <=? 1114111) && negb (in_range 55296 57343 c) then Some c else None.
Fixpoint from_utf8 (b : list Z) : option (list Z) :=
  match b with
  | [] => Some []
  | b0 :: t =>
      if in_range 0 127 b0 then s ← from_utf8 t; Some (b0 :: s)
      else if in_range 192 223 b0 then
        match t with
        | b1 :: t =>
            if cont b1 then
              c ← scalar_or_none 128 ((b0 - 192) * 64 + (b1 - 128)); s ← from_utf8 t; Some (c :: s)
            else None
        | _ => None
        end
      else if in_range 224 239 b0 then
        match t with
        | b1 :: b2 :: t =>
            if cont b1 && cont b2 then
              c ← scalar_or_none 2048 ((b0 - 224) * 4096 + (b1 - 128) * 64 + (b2 - 128));
              s ← from_utf8 t; Some (c :: s)
            else None
        | _ => None
        end
      else if in_range 240 247 b0 then
        match t with
        | b1 :: b2 :: b3 :: t =>
            if cont b1 && cont b2 && cont b3 then
              c ← scalar_or_none 65536
                    ((b0 - 240) * 262144 + (b1 - 128) * 4096 + (b2 - 128) * 64 + (b3 - 128));
              s ← from_utf8 t; Some (c :: s)
            else None
        | _ => None
        end
      else None
  end.

(** The characters Rust's strings hold. *)
Definition is_scalar (c : Z) : Prop := 0 <= c <= 1114111 /\ ~ (55296 <= c <= 57343).

(** ** Lemmas *)

Definition no_ws (s : list Z) : Prop := Forall (fun c => is_whitespace c = false) s.

Lemma trim_start_suffix s : exists p, s = p ++ trim_start s /\ Forall (fun c => is_whitespace c = true) p.
Proof.
  induction s as [|c s (p & Hp & Hw)]; simpl; [by exists []|].
  destruct (is_whitespace c) eqn:E; [|by exists []].
  exists (c :: p). split; [by rewrite Hp at 1|by constructor].
Qed.

Lemma trim_start_head s c t : trim_start s = c :: t -> is_whitespace c = false.
Proof.
  induction s as [|d s IH]; simpl; [done|].
  destruct (is_whitespace d) eqn:E; [done|]. by intros [= -> ->].
Qed.

Lemma trim_start_id s : (forall c t, s = c :: t -> is_whitespace c = false) -> trim_start s = s.
Proof. destruct s as [|c s]; intros H; [done|]. simpl. by rewrite (H c s). Qed.

Lemma trim_start_idem s : trim_start (trim_start s) = trim_start s.
Proof. apply trim_start_id. intros c t. apply trim_start_head. Qed.

Lemma trim_end_idem s : trim_end (trim_end s) = trim_end s.
Proof. unfold trim_end. by rewrite reverse_involutive, trim_start_idem. Qed.

Lemma trim_end_prefix s : exists p, s = trim_end s ++ p.
Proof.
  unfold trim_end. destruct (trim_start_suffix (reverse s)) as (p & Hp & _).
  exists (reverse p). rewrite <- reverse_app, <- Hp. by rewrite reverse_involutive.
Qed.

(** Trimming twice changes nothing. *)
Lemma trim_idem s : trim (trim s) = trim s.
Proof.
  unfold trim. rewrite (trim_start_id (trim_end (trim_start s))), trim_end_idem; [done|].
  intros c t Hc. destruct (trim_end_prefix (trim_start s)) as [p Hp].
  rewrite Hc in Hp. by apply (trim_start_head s c (t ++ p)).
Qed.

Lemma flush_no_ws cur l :
  no_ws cur -> Forall (fun w => w <> [] /\ no_ws w) l -> Forall (fun w => w <> [] /\ no_ws w) (flush cur l).
Proof.
  intros Hc Hl. destruct cur as [|c cur]; [done|]. constructor; [|done].
  split; [|by apply Forall_reverse].
  intros H%(f_equal length). rewrite length_reverse in H. done.
Qed.

Lemma split_ws_words cur s :
  no_ws cur -> Forall (fun w => w <> [] /\ no_ws w) (split_ws cur s).
Proof.
  revert cur. induction s as [|c s IH]; intros cur Hc; simpl; [by apply flush_no_ws|].
  destruct (is_whitespace c) eqn:E.
  - apply flush_no_ws; [done|]. apply IH. constructor.
  - apply IH. by constructor.
Qed.

Lemma split_ws_run w cur s :
  no_ws w -> split_ws cur (w ++ s) = split_ws (reverse w ++ cur) s.
Proof.
  intros Hw. revert cur. induction Hw as [|c w Hc _ IH]; intros cur; [done|].
  simpl. rewrite Hc, IH, reverse_cons, <- app_assoc. done.
Qed.

Lemma flush_reverse w r : w <> [] -> flush (reverse w) r = w :: r.
Proof.
  intros Hw. destruct (reverse w) as [|c v] eqn:E.
  - apply (f_equal reverse) in E. rewrite reverse_involutive in E. done.
  - unfold flush. by rewrite <- E, reverse_involutive.
Qed.

(** Splitting what was joined with one space gives the words back. *)
Lemma split_whitespace_join l :
  Forall (fun w => w <> [] /\ no_ws w) l -> split_whitespace (join [32] l) = l.
Proof.
  unfold split_whitespace. induction 1 as [|w l [Hne Hw] Hl IH]; [done|].
  destruct l as [|w' l'].
  - simpl. rewrite <- (app_nil_r w) at 1. rewrite split_ws_run by done. simpl.
    rewrite app_nil_r. by apply flush_reverse.
  - change (join [32] (w :: w' :: l')) with (w ++ 32 :: join [32] (w' :: l')).
    rewrite split_ws_run by done. cbn [split_ws].
    change (is_whitespace 32) with true. cbn [orb].
    by rewrite IH, app_nil_r, flush_reverse.
Qed.

Lemma utf8_app s t : utf8 (s ++ t) = utf8 s ++ utf8 t.
Proof. apply bind_app. Qed.

Lemma str_len_app s t : str_len (s ++ t) = str_len s + str_len t.
Proof. unfold str_len. by rewrite utf8_app, length_app, Nat2Z.inj_add. Qed.

Lemma str_len_pos s : 0 <= str_len s.
Proof. unfold str_len. lia. Qed.

Lemma utf8_ascii s : Forall (fun c => c < 128) s -> utf8 s = s.
Proof.
  induction 1 as [|c s Hc _ IH]; [done|].
  change (utf8 (c :: s)) with (utf8_char c ++ utf8 s). rewrite IH.
  unfold utf8_char. destruct (Z.ltb_spec c 128); [done|lia].
Qed.

Lemma all_digits_Forall s : all_digits s = true <-> Forall (fun c => 48 <= c <= 57) s.
Proof.
  unfold all_digits. rewrite forallb_forall, Forall_forall.
  setoid_rewrite <- in_range_true. by setoid_rewrite list_elem_of_In.
Qed.

Lemma digits_val_snoc s c : digits_val (s ++ [c]) = digits_val s * 10 + (c - 48).
Proof. unfold digits_val. by rewrite foldl_app. Qed.

(** ** Decimal digits *)

Definition is_digits (s : list Z) : Prop := Forall (fun c => 48 <= c <= 57) s.

Lemma digits_val_one c : digits_val [c] = c - 48.
Proof. done. Qed.

Lemma digits_val_app s t : digits_val (s ++ t) = digits_val s * 10 ^ len t + digits_val t.
Proof.
  revert s. induction t as [|c t IH]; intros s.
  - rewrite app_nil_r. cbn. lia.
  - replace (s ++ c :: t) with ((s ++ [c]) ++ t) by (by rewrite <- app_assoc).
    rewrite IH, digits_val_snoc. change (c :: t) with ([c] ++ t). rewrite (IH [c]).
    cbn [length app]. rewrite Nat2Z.inj_succ, Z.pow_succ_r by lia. rewrite digits_val_one. lia.
Qed.

Lemma digits_val_bound s : is_digits s -> 0 <= digits_val s < 10 ^ len s.
Proof.
  induction 1 as [|c s Hc _ IH]; [done|]. change (c :: s) with ([c] ++ s).
  rewrite digits_val_app. cbn [length app]. rewrite Nat2Z.inj_succ, Z.pow_succ_r by lia.
 rewrite digits_val_one. nia.
Qed.

Lemma digits_val_inj s t :
  is_digits s -> is_digits t -> length s = length t -> digits_val s = digits_val t -> s = t.
Proof.
  intros Hs. revert t. induction Hs as [|c s Hc Hs IH]; intros [|d t] Ht Hl Hv; try done.
  inversion Ht as [|?? Hd Ht']; subst. injection Hl as Hl.
  change (c :: s) with ([c] ++ s) in Hv. change (d :: t) with ([d] ++ t) in Hv.
  rewrite !digits_val_app, Hl in Hv. rewrite !digits_val_one in Hv.
  pose proof (digits_val_bound _ Hs) as Bs. pose proof (digits_val_bound _ Ht') as Bt.
  rewrite Hl in Bs. assert (c = d) as -> by nia. f_equal. apply IH; [done..|]. nia.
Qed.

Lemma digits_S fuel n acc :
  digits_ (S fuel) n acc =
    if n / 10 =? 0 then 48 + n mod 10 :: acc else digits_ fuel (n / 10) (48 + n mod 10 :: acc).
Proof. done. Qed.

Lemma digits_spec fuel n acc :
  0 <= n < 2 ^ Z.of_nat fuel ->
  exists s, digits_ (S fuel) n acc = s ++ acc /\ is_digits s /\ digits_val s = n /\
    (n < 10 -> length s = 1%nat) /\ (10 <= n -> 10 ^ (len s - 1) <= n).
Proof.
  revert n acc. induction fuel as [|fuel IH]; intros n acc Hn; rewrite digits_S;
    pose proof (Z.mod_pos_bound n 10) as Hm; pose proof (Z.div_mod n 10) as Hd.
  - cbn in Hn. assert (n = 0) as -> by lia. exists [48]. cbn. split_and!; try done; try lia.
    repeat constructor; lia.
  - destruct (Z.eqb_spec (n / 10) 0) as [E|E].
    + exists [48 + n mod 10]. split_and!; [done| |rewrite digits_val_one; lia|done|cbn; lia].
      repeat constructor; lia.
    + destruct (IH (n / 10) (48 + n mod 10 :: acc)) as (s & Es & Hs & Hv & H1 & H2).
      { rewrite Nat2Z.inj_succ, Z.pow_succ_r in Hn by lia. split; [lia|].
        apply Z.div_lt_upper_bound; lia. }
      exists (s ++ [48 + n mod 10]). rewrite Es, <- app_assoc. split_and!; [done| | |lia|].
      * apply Forall_app. split; [done|]. repeat constructor; lia.
      * rewrite digits_val_snoc, Hv. lia.
      * intros _. rewrite length_app. cbn [length].
        destruct (decide (n / 10 < 10)) as [Hlt|Hge]; [rewrite H1 by done; cbn; lia|].
        specialize (H2 ltac:(lia)).
        replace (Z.of_nat (length s + 1) - 1) with (Z.succ (len s - 1)) by lia.
        assert (s <> []) by (intros ->; cbn in Hv; lia).
        assert (0 < len s) by (destruct s; [done|cbn; lia]).
        rewrite Z.pow_succ_r by lia. lia.
Qed.

Lemma to_decimal_spec n :
  0 <= n ->
  is_digits (to_decimal n) /\ digits_val (to_decimal n) = n /\
  (n < 10 -> length (to_decimal n) = 1%nat) /\ (10 <= n -> 10 ^ (len (to_decimal n) - 1) <= n).
Proof.
  intros Hn. unfold to_decimal.
  destruct (digits_spec (S (Z.to_nat (Z.log2 n))) n []) as (s & Es & Hs & Hv & H1 & H2).
  - split; [done|]. destruct (decide (n = 0)) as [->|]; [done|].
    rewrite Nat2Z.inj_succ, Z2Nat.id by apply Z.log2_nonneg.
    apply Z.log2_spec. lia.
  - rewrite app_nil_r in Es.
    by rewrite Es.
Qed.

Lemma to_decimal_length n k : 0 <= n < 10 ^ Z.of_nat k -> (0 < k)%nat -> (length (to_decimal n) <= k)%nat.
Proof.
  intros Hn Hk. destruct (to_decimal_spec n) as (_ & _ & H1 & H2); [lia|].
  destruct (decide (n < 10)) as [Hlt|Hge]; [rewrite H1 by done; lia|].
  specialize (H2 ltac:(lia)).
  destruct (decide (length (to_decimal n) <= k)%nat) as [|Hl]; [done|].
  pose proof (Z.pow_le_mono_r 10 (Z.of_nat k) (len (to_decimal n) - 1)). lia.
Qed.

Lemma digits_val_zeros k s : digits_val (replicate k 48 ++ s) = digits_val s.
Proof. induction k as [|k IH]; [done|]. exact IH. Qed.

(** [{:0w$}] of a number that fits in [w] digits: [w] digits of its value. *)
Lemma pad_decimal_spec k n :
  0 <= n < 10 ^ Z.of_nat k -> (0 < k)%nat ->
  is_digits (pad_zeros k (to_decimal n)) /\ length (pad_zeros k (to_decimal n)) = k /\
  digits_val (pad_zeros k (to_decimal n)) = n.
Proof.
  intros Hn Hk. pose proof (to_decimal_length n k Hn Hk) as Hl.
  destruct (to_decimal_spec n) as (Hd & Hv & _); [lia|]. unfold pad_zeros. split_and!.
  - apply Forall_app. split; [|done]. apply Forall_replicate. lia.
  - rewrite length_app, length_replicate. lia.
  - by rewrite digits_val_zeros.
Qed.

Lemma pad_digits_val s k :
  is_digits s -> length s = k -> (0 < k)%nat -> pad_zeros k (to_decimal (digits_val s)) = s.
Proof.
  intros Hs <- Hk. pose proof (digits_val_bound s Hs) as Hb.
  destruct (pad_decimal_spec (length s) (digits_val s)) as (H1 & H2 & H3); [lia|done|].
  by apply digits_val_inj.
Qed.

Lemma parse_unsigned_digits max s :
  is_digits s -> s <> [] -> digits_val s <= max -> parse_unsigned max s = Some (digits_val s).
Proof.
  intros Hs Hne Hm. unfold parse_unsigned.
  assert ((match s with 43 :: s => s | _ => s end) = s) as ->.
  { destruct Hs as [|c s Hc _]; [done|]. repeat (destruct c as [|c|c]; try done; try lia). }
  rewrite bool_decide_eq_false_2 by done. cbn [orb].
  replace (all_digits s) with true by (symmetry; by apply all_digits_Forall).
  cbn [negb]. destruct (Z.leb_spec (digits_val s) max); [done|lia].
Qed.

Lemma to_decimal_ne n : 0 <= n -> to_decimal n <> [].
Proof.
  intros Hn E. destruct (to_decimal_spec n Hn) as (_ & Hv & H1 & _). rewrite E in Hv, H1.
  cbn in Hv. subst n. specialize (H1 ltac:(lia)). done.
Qed.

(** [str::parse] reads back what [{}] wrote. *)
Lemma parse_to_decimal max n : 0 <= n <= max -> parse_unsigned max (to_decimal n) = Some n.
Proof.
  intros Hn. destruct (to_decimal_spec n) as (Hd & Hv & _); [lia|].
  rewrite parse_unsigned_digits; [by rewrite Hv|done|by apply to_decimal_ne; lia|lia].
Qed.

Lemma from_utf8_char c rest : is_scalar c -> from_utf8 (utf8_char c ++ rest) = (s ← from_utf8 rest; Some (c :: s)).
Proof.
  intros [Hc Hs]. unfold utf8_char.
  assert (forall lo, lo <= c -> scalar_or_none lo c = Some c) as Hsc.
  { intros lo Hlo. unfold scalar_or_none. rewrite !(proj2 (Z.leb_le _ _)) by lia. by rewrite (proj2 (in_range_false _ _ _)) by lia. }
  pose proof (Z.div_mod c 64 ltac:(lia)) as E1. pose proof (Z.mod_pos_bound c 64 ltac:(lia)) as B1.
  pose proof (Z.div_mod (c / 64) 64 ltac:(lia)) as E2. pose proof (Z.mod_pos_bound (c / 64) 64 ltac:(lia)) as B2.
  pose proof (Z.div_mod (c / 64 / 64) 64 ltac:(lia)) as E3. pose proof (Z.mod_pos_bound (c / 64 / 64) 64 ltac:(lia)) as B3.
  rewrite !Z.div_div in * by lia. change (64 * 64) with 4096 in *. change (4096 * 64) with 262144 in *.
  destruct (Z.ltb_spec c 128); [|destruct (Z.ltb_spec c 2048); [|destruct (Z.ltb_spec c 65536)]]; cbn [app from_utf8].
  - by rewrite (proj2 (in_range_true _ _ _)) by lia.
  - rewrite (proj2 (in_range_false 0 127 _)), (proj2 (in_range_true 192 223 _)) by lia. unfold cont.
    rewrite (proj2 (in_range_true 128 191 _)) by lia.
    replace ((192 + c / 64 - 192) * 64 + (128 + c mod 64 - 128)) with c by lia. by rewrite Hsc by lia.
  - rewrite (proj2 (in_range_false 0 127 _)), (proj2 (in_range_false 192 223 _)), (proj2 (in_range_true 224 239 _)) by lia.
    unfold cont. rewrite !(proj2 (in_range_true 128 191 _)) by lia. cbn [andb].
    replace ((224 + c / 4096 - 224) * 4096 + (128 + (c / 64) mod 64 - 128) * 64 + (128 + c mod 64 - 128)) with c by lia.
    by rewrite Hsc by lia.
  - rewrite (proj2 (in_range_false 0 127 _)), (proj2 (in_range_false 192 223 _)), (proj2 (in_range_false 224 239 _)),
      (proj2 (in_range_true 240 247 _)) by lia.
    unfold cont. rewrite !(proj2 (in_range_true 128 191 _)) by lia. cbn [andb].
    replace ((240 + c / 262144 - 240) * 262144 + (128 + (c / 4096) mod 64 - 128) * 4096 + (128 + (c / 64) mod 64 - 128) * 64 + (128 + c mod 64 - 128)) with c by lia.
    by rewrite Hsc by lia.
Qed.
(** Text survives its bytes. *)
Lemma from_utf8_utf8 s : Forall is_scalar s -> from_utf8 (utf8 s) = Some s.
Proof.
  induction 1 as [|c s Hc _ IH]; [done|]. change (utf8 (c :: s)) with (utf8_char c ++ utf8 s).
  by rewrite from_utf8_char, IH.
Qed.

(** A concrete [Unicode] for the witnesses: ASCII lower-casing, and text that
    is already composed. *)
Module ToyUnicode.
#[export] Instance unicode : Unicode := {|
  to_lowercase := map to_ascii_lowercase; nfc := fun s => s |}.
End ToyUnicode.

Lemma strip_prefix_inv p s r : strip_prefix p s = Some r -> s = p ++ r.
Proof.
  unfold strip_prefix, starts_with. destruct (bool_decide_reflect (take (length p) s = p)) as [E|]; [|done].
  intros [= <-]. by rewrite <- E at 1; rewrite take_drop.
Qed.

Lemma strip_prefix_app p r : strip_prefix p (p ++ r) = Some r.
Proof. unfold strip_prefix, starts_with. by rewrite take_app_length, bool_decide_eq_true_2, drop_app_length. Qed.
