(* ===== verification/Blob.v ===== *)
(** * The authenticated blob (crates/havenkeys-core/src/crypto/blob.rs)

    Every stored secret is [version, algorithm, nonce, AES-256-GCM output],
    sealed with associated data that names its purpose, vault, item and, for
    details, backups and attachments, a hash it is bound to.

    AES-GCM and SHA-256 come from crates outside the repository: they are the
    operations of the class [Crypto], and what the code relies on of them is
    stated in [AeadCorrect] (decryption undoes encryption, 16 bytes of tag),
    [AeadBinding] (a ciphertext opens under no other associated data) and
    [Sha256Ideal] (32 bytes, no collision).  The nonce, random in the code,
    is an argument of [seal]: [None] is a failed random generator. *)

From S2P Require Import Prelude Errors Text.

Class Crypto := {
  aes_gcm_encrypt : list Z -> list Z -> list Z -> list Z -> option (list Z);
  aes_gcm_decrypt : list Z -> list Z -> list Z -> list Z -> option (list Z);
  sha256 : list Z -> list Z;
}.

Class AeadCorrect (C : Crypto) : Prop := {
  aead_open : forall k n a p c,
    aes_gcm_encrypt k n a p = Some c -> aes_gcm_decrypt k n a c = Some p;
  aead_len : forall k n a p c,
    aes_gcm_encrypt k n a p = Some c -> len c = len p + 16;
}.

Class AeadBinding (C : Crypto) : Prop :=
  aead_binding : forall k n a a' p p' c,
    aes_gcm_encrypt k n a p = Some c -> aes_gcm_decrypt k n a' c = Some p' -> a = a' /\ p = p'.

Class Sha256Ideal (C : Crypto) : Prop := {
  sha256_len : forall x, length (sha256 x) = 32%nat;
  sha256_inj : forall x y, sha256 x = sha256 y -> x = y;
}.

Definition BLOB_V1 : Z := 1.
Definition ALG_AES_256_GCM : Z := 1.
Definition NONCE_LEN : nat := 12.
Definition TAG_LEN : nat := 16.
Definition HEADER_LEN : nat := 2 + NONCE_LEN.
Definition MIN_BLOB_LEN : nat := HEADER_LEN + TAG_LEN.
Definition MAX_BLOB_LEN : Z := 8 * 1024 * 1024.
Definition MAX_BACKUP_BLOB_LEN : Z := 64 * 1024 * 1024.

Definition AAD_PREFIX : list Z := lit "havenkeys" ++ [0].

Inductive Purpose :=
| PVaultKey
| PItemOverview
| PItemDetails
| PSettings
| PSyncHeader
| PDeviceSettings
| PAssetLinks
| PActivity
| PBackup
| PAttachment.

#[export] Instance Purpose_eq_dec : EqDecision Purpose.
Proof. solve_decision. Defined.

Definition label (p : Purpose) : list Z :=
  lit match p with
      | PVaultKey => "vault-key"
      | PItemOverview => "item-overview"
      | PItemDetails => "item-details"
      | PSettings => "settings"
      | PSyncHeader => "sync-header"
      | PDeviceSettings => "device-settings"
      | PAssetLinks => "asset-links"
      | PActivity => "activity"
      | PBackup => "backup"
      | PAttachment => "attachment"
      end.

Definition max_len (p : Purpose) : Z :=
  match p with PBackup => MAX_BACKUP_BLOB_LEN | _ => MAX_BLOB_LEN end.

Definition needs_binding (p : Purpose) : bool :=
  match p with PItemDetails | PBackup | PAttachment => true | _ => false end.

Definition needs_item_id (p : Purpose) : bool :=
  match p with PItemOverview | PItemDetails | PAttachment => true | _ => false end.

Record BlobContext := {
  purpose : Purpose;
  vault_id : Z;
  item_id : option Z;
  bound_to : option (list Z);
}.

Definition ctx_vault (p : Purpose) (vault : Z) : BlobContext :=
  {| purpose := p; vault_id := vault; item_id := None; bound_to := None |}.

Definition ctx_item (p : Purpose) (vault item : Z) : BlobContext :=
  {| purpose := p; vault_id := vault; item_id := Some item; bound_to := None |}.

Definition option_is_some {A} (o : option A) : bool :=
  match o with Some _ => true | None => false end.

Section Blob.
Context `{C : Crypto}.

Definition ctx_item_details (vault item : Z) (overview_blob : list Z) : BlobContext :=
  {| purpose := PItemDetails; vault_id := vault; item_id := Some item;
     bound_to := Some (sha256 overview_blob) |}.

Definition ctx_backup (header : list Z) : BlobContext :=
  {| purpose := PBackup; vault_id := uuid_nil; item_id := None;
     bound_to := Some (sha256 header) |}.

Definition ctx_backup_record (header : list Z) (index : Z) : BlobContext :=
  {| purpose := PBackup; vault_id := uuid_nil; item_id := None;
     bound_to := Some (sha256 (header ++ le_bytes 4 index)) |}.

Definition ctx_attachment (vault item attachment : Z) : BlobContext :=
  {| purpose := PAttachment; vault_id := vault; item_id := Some item;
     bound_to := Some (sha256 (lit "hk-attachment-v1" ++ uuid_bytes attachment)) |}.

Definition binding_tag (p : Purpose) : list Z :=
  match p with
  | PBackup => lit "header" ++ [0]
  | PAttachment => lit "attachment" ++ [0]
  | _ => lit "overview" ++ [0]
  end.

(** [BlobContext::aad]. *)
Definition aad (ctx : BlobContext) (version algorithm : Z) : Result (list Z) :=
  if negb (eqb (needs_item_id (purpose ctx)) (option_is_some (item_id ctx)))
     || negb (eqb (needs_binding (purpose ctx)) (option_is_some (bound_to ctx)))
  then Err (InvalidInput "blob context")
  else Ok (AAD_PREFIX ++ [version; algorithm] ++ label (purpose ctx) ++ [0]
           ++ uuid_bytes (vault_id ctx)
           ++ match item_id ctx with Some i => uuid_bytes i | None => [] end
           ++ match bound_to ctx with
              | Some b => binding_tag (purpose ctx) ++ b
              | None => []
              end).

Record ParsedBlob := {
  pb_version : Z;
  pb_algorithm : Z;
  pb_nonce : list Z;
  pb_ciphertext_and_tag : list Z;
}.

(** [parse_capped]. *)
Definition parse_capped (blob : list Z) (max : Z) : Result ParsedBlob :=
  if (len blob <? Z.of_nat MIN_BLOB_LEN) || (max <? len blob) then Err Corrupted
  else
    let version := nth 0 blob 0 in
    let algorithm := nth 1 blob 0 in
    if negb (version =? BLOB_V1) || negb (algorithm =? ALG_AES_256_GCM)
    then Err UnsupportedVersion
    else Ok {| pb_version := version; pb_algorithm := algorithm;
               pb_nonce := take NONCE_LEN (drop 2 blob);
               pb_ciphertext_and_tag := drop HEADER_LEN blob |}.

Definition parse (blob : list Z) : Result ParsedBlob := parse_capped blob MAX_BLOB_LEN.

(** [seal_with_aad]. *)
Definition seal_with_aad (key a plaintext : list Z) (random : option (list Z)) : Result (list Z) :=
  nonce ← ok_or Rng random;
  ciphertext ← ok_or Encryption (aes_gcm_encrypt key nonce a plaintext);
  Ok ([BLOB_V1; ALG_AES_256_GCM] ++ nonce ++ ciphertext).

(** [seal]. *)
Definition seal (key : list Z) (ctx : BlobContext) (plaintext : list Z)
    (random : option (list Z)) : Result (list Z) :=
  if max_len (purpose ctx) - Z.of_nat MIN_BLOB_LEN <? len plaintext
  then Err (InvalidInput "item too large")
  else
    a ← aad ctx BLOB_V1 ALG_AES_256_GCM;
    seal_with_aad key a plaintext random.

(** [open]. *)
Definition open (key : list Z) (ctx : BlobContext) (blob : list Z) : Result (list Z) :=
  parsed ← parse_capped blob (max_len (purpose ctx));
  a ← aad ctx (pb_version parsed) (pb_algorithm parsed);
  ok_or Decryption (aes_gcm_decrypt key (pb_nonce parsed) a (pb_ciphertext_and_tag parsed)).

(** ** Well-formed contexts: what the Rust types guarantee *)

Definition ctx_ok (ctx : BlobContext) : Prop :=
  is_uuid (vault_id ctx) /\
  (forall i, item_id ctx = Some i -> is_uuid i) /\
  (forall b, bound_to ctx = Some b -> length b = 32%nat).

(** ** Lemmas on the associated data *)

Lemma nul_split l1 l2 r1 r2 :
  Forall (fun c => c <> 0) l1 -> Forall (fun c => c <> 0) l2 ->
  l1 ++ [0] ++ r1 = l2 ++ [0] ++ r2 -> l1 = l2 /\ r1 = r2.
Proof.
  simpl.
  intros H1. revert l2. induction H1 as [|c l1 Hc _ IH]; intros l2 H2 E.
  - destruct H2; simplify_eq/=; done.
  - destruct H2 as [|c' l2 Hc' H2]; [by simplify_eq/=|].
    injection E as -> E. by apply IH in E as [-> ->].
Qed.

Lemma label_no_nul p : Forall (fun c => c <> 0) (label p).
Proof. destruct p; vm_compute; repeat constructor; done. Qed.

Lemma label_inj p q : label p = label q -> p = q.
Proof. destruct p, q; vm_compute; intros; (reflexivity || discriminate). Qed.

Lemma aad_ok_shape ctx v a x :
  aad ctx v a = Ok x ->
  needs_item_id (purpose ctx) = option_is_some (item_id ctx) /\
  needs_binding (purpose ctx) = option_is_some (bound_to ctx).
Proof.
  unfold aad. destruct (eqb _ _) eqn:E1; simpl; [|done].
  destruct (eqb (needs_binding _) _) eqn:E2; simpl; [|done].
  intros _. split; by apply eqb_true_iff.
Qed.

Lemma aad_inj ctx ctx' v a v' a' x :
  ctx_ok ctx -> ctx_ok ctx' ->
  aad ctx v a = Ok x -> aad ctx' v' a' = Ok x -> ctx = ctx' /\ v = v' /\ a = a'.
Proof.
  intros (Hv & Hi & Hb) (Hv' & Hi' & Hb') H H'.
  destruct (aad_ok_shape _ _ _ _ H) as [S1 S2], (aad_ok_shape _ _ _ _ H') as [S1' S2'].
  unfold aad in H, H'.
  rewrite S1, S2, !eqb_reflx in H. rewrite S1', S2', !eqb_reflx in H'.
  cbn [negb orb] in H, H'.
  apply (inj Ok) in H, H'. rewrite <- H' in H. apply app_inv_head in H.
  apply app_inj_1 in H as [Eva E]; [|done]. injection Eva as -> ->.
  apply nul_split in E as [Ep E]; [|apply label_no_nul..].
  apply label_inj in Ep.
  destruct ctx as [p vi ii bi], ctx' as [p' vi' ii' bi'].
  cbn [purpose vault_id item_id bound_to] in *. subst p'.
  apply app_inj_1 in E as [Evi E]; [|by rewrite !length_uuid_bytes].
  apply uuid_bytes_inj in Evi as ->; [|done..].
  rewrite S1 in S1'. rewrite S2 in S2'.
  assert (ii = ii') as <-.
  { destruct ii as [i|], ii' as [i'|]; try discriminate; [|done].
    apply app_inj_1 in E as [Eii _]; [|by rewrite !length_uuid_bytes].
    f_equal. apply uuid_bytes_inj in Eii; auto. }
  apply app_inv_head in E.
  assert (bi = bi') as <-; [|done].
  destruct bi as [b|], bi' as [b'|]; try discriminate; [|done].
  by apply app_inv_head in E as ->.
Qed.

(** ** Lemmas on sealing and opening *)

Lemma parse_capped_ok blob max p :
  parse_capped blob max = Ok p ->
  Z.of_nat MIN_BLOB_LEN <= len blob <= max /\
  pb_version p = BLOB_V1 /\ pb_algorithm p = ALG_AES_256_GCM /\
  blob = [BLOB_V1; ALG_AES_256_GCM] ++ pb_nonce p ++ pb_ciphertext_and_tag p /\
  length (pb_nonce p) = NONCE_LEN.
Proof.
  unfold parse_capped.
  destruct (Z.ltb_spec (len blob) (Z.of_nat MIN_BLOB_LEN)); simpl; [done|].
  destruct (Z.ltb_spec max (len blob)); simpl; [done|].
  destruct (Z.eqb_spec (nth 0 blob 0) BLOB_V1) as [E0|]; simpl; [|done].
  destruct (Z.eqb_spec (nth 1 blob 0) ALG_AES_256_GCM) as [E1|]; simpl; [|done].
  intros [= <-]. simpl. split_and!; try done.
  - unfold MIN_BLOB_LEN, HEADER_LEN, NONCE_LEN, TAG_LEN in *.
    destruct blob as [|b0 [|b1 blob]]; simpl in *; try lia. subst b0 b1.
    by rewrite <- (take_drop 12 blob) at 1.
  - unfold MIN_BLOB_LEN, HEADER_LEN, NONCE_LEN, TAG_LEN in *.
    rewrite length_take, length_drop. lia.
Qed.

Lemma parse_capped_build nonce ct max :
  length nonce = NONCE_LEN -> (TAG_LEN <= length ct)%nat ->
  Z.of_nat HEADER_LEN + len ct <= max ->
  parse_capped ([BLOB_V1; ALG_AES_256_GCM] ++ nonce ++ ct) max =
    Ok {| pb_version := BLOB_V1; pb_algorithm := ALG_AES_256_GCM;
          pb_nonce := nonce; pb_ciphertext_and_tag := ct |}.
Proof.
  unfold parse_capped, MIN_BLOB_LEN, HEADER_LEN, NONCE_LEN, TAG_LEN. intros Hn Hc Hm.
  rewrite !length_app, Hn. cbn [length].
  destruct (Z.ltb_spec (Z.of_nat (2 + (12 + length ct))) (Z.of_nat (2 + 12 + 16))); [lia|].
  destruct (Z.ltb_spec max (Z.of_nat (2 + (12 + length ct)))); [lia|].
  change (drop 2 ([BLOB_V1; ALG_AES_256_GCM] ++ nonce ++ ct)) with (nonce ++ ct).
  change (drop (2 + 12) ([BLOB_V1; ALG_AES_256_GCM] ++ nonce ++ ct)) with (drop 12 (nonce ++ ct)).
  by rewrite take_app_length', drop_app_length' by done.
Qed.

Lemma seal_ok key ctx p r b :
  seal key ctx p r = Ok b ->
  exists nonce a c,
    r = Some nonce /\ aad ctx BLOB_V1 ALG_AES_256_GCM = Ok a /\
    aes_gcm_encrypt key nonce a p = Some c /\
    b = [BLOB_V1; ALG_AES_256_GCM] ++ nonce ++ c /\
    len p <= max_len (purpose ctx) - Z.of_nat MIN_BLOB_LEN.
Proof.
  unfold seal. destruct (Z.ltb_spec (max_len (purpose ctx) - Z.of_nat MIN_BLOB_LEN) (len p)); [done|].
  destruct (aad ctx BLOB_V1 ALG_AES_256_GCM) as [a|] eqn:Ea; [|done].
  unfold seal_with_aad; simpl. destruct r as [nonce|]; [|done]; simpl.
  destruct (aes_gcm_encrypt key nonce a p) as [c|] eqn:Ec; [|done]; simpl.
  intros [= <-]. by exists nonce, a, c.
Qed.

Lemma open_ok key ctx b p :
  open key ctx b = Ok p ->
  exists nonce ct a,
    b = [BLOB_V1; ALG_AES_256_GCM] ++ nonce ++ ct /\ length nonce = NONCE_LEN /\
    Z.of_nat MIN_BLOB_LEN <= len b <= max_len (purpose ctx) /\
    aad ctx BLOB_V1 ALG_AES_256_GCM = Ok a /\ aes_gcm_decrypt key nonce a ct = Some p.
Proof.
  unfold open. destruct (parse_capped _ _) as [pb|] eqn:Ep; [|done]; simpl.
  apply parse_capped_ok in Ep as (Hl & Hv & Ha & Hb & Hn). rewrite Hv, Ha.
  destruct (aad ctx _ _) as [a|] eqn:Ea; [|done]; simpl.
  destruct (aes_gcm_decrypt _ _ _ _) as [q|] eqn:Eq; [|done]; simpl. intros [= <-].
  by exists (pb_nonce pb), (pb_ciphertext_and_tag pb), a.
Qed.

End Blob.

(** ** A concrete instance

    A transparent cipher whose tag spells out the associated data, and an
    injective hash: it satisfies every law above, so hypotheses that ask for
    them can hold.  It is used by the witnesses only. *)
Module Toy.
Definition tag (a : list Z) : list Z := Zpos (encode a) :: replicate 15 0.
Definition encrypt (k n a p : list Z) : option (list Z) := Some (p ++ tag a).
Definition decrypt (k n a c : list Z) : option (list Z) :=
  let n := (length c - 16)%nat in
  if decide (drop n c = tag a) then Some (take n c) else None.
Definition hash (x : list Z) : list Z := Zpos (encode x) :: replicate 31 0.

#[export] Instance crypto : Crypto := {|
  aes_gcm_encrypt := encrypt; aes_gcm_decrypt := decrypt; sha256 := hash |}.

Lemma cut p a : take (length (p ++ tag a) - 16) (p ++ tag a) = p
  /\ drop (length (p ++ tag a) - 16) (p ++ tag a) = tag a.
Proof.
  assert (length (p ++ tag a) - 16 = length p)%nat as ->.
  { rewrite length_app. unfold tag. cbn [length]. rewrite length_replicate. lia. }
  by rewrite take_app_length, drop_app_length.
Qed.

#[export] Instance correct : AeadCorrect crypto.
Proof.
  split; cbn -[encode]; unfold encrypt, decrypt; intros k n a p c [= <-].
  - destruct (cut p a) as [-> ->]. by rewrite decide_True.
  - rewrite length_app. unfold tag. cbn [length]. rewrite length_replicate. lia.
Qed.

#[export] Instance binding : AeadBinding crypto.
Proof.
  intros k n a a' p p' c. cbn -[encode]. unfold encrypt, decrypt. intros [= <-].
  destruct (cut p a) as [-> ->]. case_decide as E; [|done]. intros [= ->].
  unfold tag in E. injection E as E. split; [|done]. by apply (inj encode).
Qed.

#[export] Instance ideal : Sha256Ideal crypto.
Proof.
  split; cbn -[encode]; unfold hash.
  - done.
  - intros x y E. injection E as E. by apply (inj encode).
Qed.
End Toy.

(** ** Round trip and binding *)

Section RoundTrip.
Context `{C : Crypto}.

Lemma seal_open `{!AeadCorrect C} key ctx plain nonce blob :
  length nonce = NONCE_LEN ->
  seal key ctx plain (Some nonce) = Ok blob ->
  open key ctx blob = Ok plain /\ len blob = len plain + Z.of_nat MIN_BLOB_LEN.
Proof.
  intros Hn (n & a & c & [= <-] & Ha & Hc & -> & Hl)%seal_ok.
  pose proof (aead_len _ _ _ _ _ Hc) as Hlen.
  unfold MIN_BLOB_LEN, HEADER_LEN, TAG_LEN, NONCE_LEN in *.
  split.
  - unfold open. rewrite parse_capped_build.
    + cbn [mbind result_bind pb_version pb_algorithm pb_nonce pb_ciphertext_and_tag].
      rewrite Ha. simpl. by rewrite (aead_open _ _ _ _ _ Hc).
    + done.
    + unfold TAG_LEN. lia.
    + unfold HEADER_LEN, NONCE_LEN. lia.
  - rewrite !length_app. simpl length. lia.
Qed.

Lemma open_binding `{!AeadBinding C} key ctx ctx' plain plain' nonce blob :
  ctx_ok ctx -> ctx_ok ctx' -> length nonce = NONCE_LEN ->
  seal key ctx plain (Some nonce) = Ok blob ->
  open key ctx' blob = Ok plain' ->
  ctx' = ctx /\ plain' = plain.
Proof.
  intros Hctx Hctx' Hn (n & a & c & [= <-] & Ha & Hc & -> & _)%seal_ok H.
  apply open_ok in H as (n' & ct & a' & E & Hn' & _ & Ha' & Hd).
  apply app_inv_head, app_inj_1 in E as [<- <-]; [|congruence].
  destruct (aead_binding _ _ _ _ _ _ _ Hc Hd) as [<- <-].
  destruct (aad_inj ctx ctx' _ _ _ _ a Hctx Hctx' Ha Ha') as [-> _]. done.
Qed.

End RoundTrip.

(** ** Properties *)

Section Properties.
Context `{C : Crypto}.

(** What [seal] produced, [open] reads back under the same key and
    context, and the blob is exactly 30 bytes longer than the plaintext. *)
Lemma seal_open_roundtrip `{!AeadCorrect C} key ctx plain nonce blob :
  length nonce = NONCE_LEN ->
  seal key ctx plain (Some nonce) = Ok blob ->
  open key ctx blob = Ok plain /\ len blob = len plain + Z.of_nat MIN_BLOB_LEN.
Proof. apply seal_open. Qed.

(** A blob opens under no context but the one it was sealed with: not
    another purpose, vault, item or bound hash. *)
Lemma open_context_binding `{!AeadBinding C} key ctx ctx' plain plain' nonce blob :
  ctx_ok ctx -> ctx_ok ctx' -> length nonce = NONCE_LEN ->
  seal key ctx plain (Some nonce) = Ok blob ->
  open key ctx' blob = Ok plain' ->
  ctx' = ctx /\ plain' = plain.
Proof. apply open_binding. Qed.

(** The two halves of an item version cannot be mixed: details sealed
    with one overview blob do not open beside another (security-review CR1),
    nor under another item's or vault's id. *)
Lemma details_bound_to_overview `{!AeadBinding C, !Sha256Ideal C}
    key vault item ov vault' item' ov' plain plain' nonce blob :
  is_uuid vault -> is_uuid item -> is_uuid vault' -> is_uuid item' ->
  length nonce = NONCE_LEN ->
  seal key (ctx_item_details vault item ov) plain (Some nonce) = Ok blob ->
  open key (ctx_item_details vault' item' ov') blob = Ok plain' ->
  vault' = vault /\ item' = item /\ ov' = ov /\ plain' = plain.
Proof.
  intros Hv Hi Hv' Hi' Hn Hs Ho.
  assert (forall v i o, is_uuid v -> is_uuid i -> ctx_ok (ctx_item_details v i o)) as Hok.
  { intros v i o ? ?. split_and!; [done|..]; intros ? [= <-]; [done|]. apply sha256_len. }
  destruct (open_binding key _ _ _ _ _ _ (Hok _ _ ov Hv Hi) (Hok _ _ ov' Hv' Hi') Hn Hs Ho)
    as [[= -> -> E] ->].
  apply sha256_inj in E as ->. done.
Qed.

(** Version 2 backup records cannot be reordered or moved to another
    file: a record opens only with its own file header and its own index. *)
Lemma backup_record_bound `{!AeadBinding C, !Sha256Ideal C}
    key header index header' index' plain plain' nonce blob :
  0 <= index < 2 ^ 32 -> 0 <= index' < 2 ^ 32 -> length nonce = NONCE_LEN ->
  seal key (ctx_backup_record header index) plain (Some nonce) = Ok blob ->
  open key (ctx_backup_record header' index') blob = Ok plain' ->
  header' = header /\ index' = index /\ plain' = plain.
Proof.
  intros Hi Hi' Hn Hs Ho.
  assert (forall h i, ctx_ok (ctx_backup_record h i)) as Hok.
  { intros h i. split_and!; [done|done|]. intros ? [= <-]. apply sha256_len. }
  destruct (open_binding key _ _ _ _ _ _ (Hok _ _) (Hok _ _) Hn Hs Ho) as [E ->].
  apply (f_equal bound_to), (inj Some), sha256_inj in E. apply app_inj_2 in E as [-> E]; [|by rewrite !length_le_bytes].
  apply (le_bytes_inj 4) in E; [|done..]. done.
Qed.

End Properties.

Section Witnesses.
Import Toy.

Definition toy_nonce : list Z := replicate 12 7.

Lemma seal_open_roundtrip_witness :
  exists blob, seal [1] (ctx_item PItemOverview 5 6) [72; 105] (Some toy_nonce) = Ok blob
    /\ open [1] (ctx_item PItemOverview 5 6) blob = Ok [72; 105]
    /\ len blob = 2 + Z.of_nat MIN_BLOB_LEN.
Proof.
  eexists. split; [vm_compute; reflexivity|].
  apply (seal_open_roundtrip [1] (ctx_item PItemOverview 5 6) [72; 105] toy_nonce);
    vm_compute; reflexivity.
Defined.

Lemma toy_ctx_ok p i : 0 <= i < 100 -> ctx_ok (ctx_item p 5 i).
Proof.
  intros Hi. split_and!; [done| |done]. intros j [= <-].
  unfold is_uuid; simpl. split; [lia|]. apply Z.lt_trans with 100; [lia|done].
Qed.

Lemma open_context_binding_witness :
  exists blob, seal [1] (ctx_item PItemOverview 5 6) [72] (Some toy_nonce) = Ok blob
    /\ ctx_item PItemOverview 5 6 = ctx_item PItemOverview 5 6 /\ [72] = [72].
Proof.
  eexists. split; [vm_compute; reflexivity|].
  eapply (open_context_binding [1] (ctx_item PItemOverview 5 6) (ctx_item PItemOverview 5 6)
    [72] [72] toy_nonce); [by apply toy_ctx_ok|by apply toy_ctx_ok|vm_compute; reflexivity..].
Defined.

Lemma details_bound_to_overview_witness :
  exists blob, seal [1] (ctx_item_details 5 6 [9; 9]) [72] (Some toy_nonce) = Ok blob
    /\ 5 = 5 /\ 6 = 6 /\ [9; 9] = [9; 9] /\ [72] = [72].
Proof.
  eexists. split; [vm_compute; reflexivity|].
  eapply (details_bound_to_overview [1] 5 6 [9; 9] 5 6 [9; 9] [72] [72] toy_nonce);
    (done || (vm_compute; reflexivity)).
Defined.

Lemma backup_record_bound_witness :
  exists blob, seal [1] (ctx_backup_record [4; 2] 3) [72] (Some toy_nonce) = Ok blob
    /\ [4; 2] = [4; 2] /\ 3 = 3 /\ [72] = [72].
Proof.
  eexists. split; [vm_compute; reflexivity|].
  eapply (backup_record_bound [1] [4; 2] 3 [4; 2] 3 [72] [72] toy_nonce);
    (done || (vm_compute; reflexivity)).
Defined.

End Witnesses.
