(* ===== verification/Url.v ===== *)
(** * The URL library (the [url] and [percent-encoding] crates)

    A URL is an abstract value with the accessors the source calls; parsing
    and printing are the library's.  Clients state what they rely on as laws
    of their own. *)

From S2P Require Import Prelude Text.

Class UrlLib := {
  Url : Type;
  url_parse : list Z -> option Url;
  url_scheme : Url -> list Z;
  url_host_str : Url -> option (list Z);
  url_username : Url -> list Z;
  url_password : Url -> option (list Z);
  url_path : Url -> list Z;
  url_query_pairs : Url -> list (list Z * list Z);
  url_drop_fragment : Url -> Url;
  url_to_string : Url -> list Z;
  percent_encode : list Z -> list Z;
  percent_decode : list Z -> list Z;
}.

(** What the clients rely on of the WHATWG URL standard: a serialized URL
    parses to itself, is printable ASCII without spaces, holds [://] when it
    has a host, and dropping the fragment changes nothing else. *)
Class UrlLaws (UL : UrlLib) : Prop := {
  url_reparse : forall s u,
    url_parse s = Some u ->
    url_parse (url_to_string (url_drop_fragment u)) = Some (url_drop_fragment u);
  url_printable : forall s u,
    url_parse s = Some u -> Forall (fun c => 33 <= c <= 126) (url_to_string (url_drop_fragment u));
  url_authority : forall s u h,
    url_parse s = Some u -> url_host_str u = Some h ->
    contains (lit "://") (url_to_string (url_drop_fragment u)) = true;
  url_drop_idem : forall u, url_drop_fragment (url_drop_fragment u) = url_drop_fragment u;
  url_drop_scheme : forall u, url_scheme (url_drop_fragment u) = url_scheme u;
  url_drop_host : forall u, url_host_str (url_drop_fragment u) = url_host_str u;
  url_drop_username : forall u, url_username (url_drop_fragment u) = url_username u;
  url_drop_password : forall u, url_password (url_drop_fragment u) = url_password u;
}.

(** A concrete library for the witnesses: a URL is a scheme and a host, in
    printable ASCII. *)
Module ToyUrl.
Fixpoint cut (s acc : list Z) : option (list Z * list Z) :=
  match s with
  | [] => None
  | c :: s' =>
      match strip_prefix (lit "://") s with
      | Some rest => Some (reverse acc, rest)
      | None => cut s' (c :: acc)
      end
  end.
Definition parse (s : list Z) : option (list Z * list Z) :=
  if forallb (in_range 33 126) s then cut s [] else None.

#[export] Instance url_lib : UrlLib := {|
  Url := list Z * list Z;
  url_parse := parse;
  url_scheme := fst;
  url_host_str := fun u => Some u.2;
  url_username := fun _ => [];
  url_password := fun _ => None;
  url_path := fun _ => [];
  url_query_pairs := fun _ => [];
  url_drop_fragment := fun u => u;
  url_to_string := fun u => u.1 ++ lit "://" ++ u.2;
  percent_encode := fun s => s;
  percent_decode := fun s => s;
|}.

Lemma cut_ok s acc u : cut s acc = Some u -> reverse acc ++ s = u.1 ++ lit "://" ++ u.2.
Proof.
  revert acc. induction s as [|c s IH]; intros acc; [done|]. cbn [cut].
  destruct (strip_prefix _ _) as [r|] eqn:E.
  - intros [= <-]. cbn [fst snd]. apply strip_prefix_inv in E. by rewrite E.
  - intros H%IH. rewrite reverse_cons, <- app_assoc in H. exact H.
Qed.

Lemma parse_ok s u : parse s = Some u -> u.1 ++ lit "://" ++ u.2 = s /\ Forall (fun c => 33 <= c <= 126) s.
Proof.
  unfold parse. destruct (forallb _ s) eqn:E; [|done]. intros H%cut_ok.
  split; [by rewrite <- H|]. apply Forall_forall. intros c Hc.
  apply in_range_true. by apply (proj1 (forallb_forall _ _) E), list_elem_of_In.
Qed.

Lemma contains_skip n p s : contains n s = true -> contains n (p ++ s) = true.
Proof. intros H. induction p as [|c p IH]; [done|]. cbn [app contains]. rewrite IH. apply orb_true_r. Qed.

Lemma contains_here n s : contains n (n ++ s) = true.
Proof.
  assert (starts_with n (n ++ s) = true) as H.
  { unfold starts_with. apply bool_decide_eq_true. by rewrite take_app_length. }
  destruct (n ++ s) eqn:E; cbn [contains]; by rewrite H.
Qed.

#[export] Instance url_laws : UrlLaws url_lib.
Proof.
  split; cbn; try done.
  - intros s u H. by rewrite (proj1 (parse_ok _ _ H)).
  - intros s u [H1 H2]%parse_ok. by rewrite H1.
  - intros s u h _ _. apply contains_skip, contains_here.
Qed.
End ToyUrl.
