(* ===== verification/Clean.v ===== *)
(** * Checks shared by the items (crates/havenkeys-core/src/model.rs, "validation";
    [clean_value] of identity.rs) *)

From S2P Require Import Prelude Errors Text Url.

Definition MAX_TITLE_CHARS : nat := 256.
Definition MAX_USERNAME_CHARS : nat := 512.
Definition MAX_URL_LEN : Z := 2048.
Definition MAX_PASSWORD_CHARS : nat := 4096.
Definition MAX_NOTES_BYTES : Z := 64 * 1024.
Definition MAX_NOTE_CONTENT_BYTES : Z := 1024 * 1024.

Definition clean_title (title : list Z) : Result (list Z) :=
  let t := trim title in
  if bool_decide (t = []) then Err (InvalidInput "title is required")
  else if (MAX_TITLE_CHARS <? length t)%nat || existsb is_control t
  then Err (InvalidInput "title is too long or contains control characters")
  else Ok t.

(** [Option::map(str::trim).filter(|u| !u.is_empty())]. *)
Definition trimmed_nonempty (o : option (list Z)) : option (list Z) :=
  match o with
  | Some u => if bool_decide (trim u = []) then None else Some (trim u)
  | None => None
  end.

Definition clean_username (username : option (list Z)) : Result (option (list Z)) :=
  match trimmed_nonempty username with
  | None => Ok None
  | Some u =>
      if (MAX_USERNAME_CHARS <? length u)%nat || existsb is_control u
      then Err (InvalidInput "username is too long or contains control characters")
      else Ok (Some u)
  end.

Definition check_password (p : list Z) : Result () :=
  guard_err (MAX_PASSWORD_CHARS <? length p)%nat (InvalidInput "password is too long").

Definition check_notes (n : list Z) : Result () :=
  guard_err (MAX_NOTES_BYTES <? str_len n) (InvalidInput "notes are too long").

Definition check_note_content (n : list Z) : Result () :=
  guard_err (MAX_NOTE_CONTENT_BYTES <? str_len n) (InvalidInput "note is too long").

(** [if let Some(v) = &v { check(v)? }]. *)
Definition check_some (f : list Z -> Result ()) (o : option (list Z)) : Result () :=
  match o with Some v => f v | None => Ok () end.

Section Urls.
Context `{UL : UrlLib}.

Definition bad_url : Error := InvalidInput "invalid website address".

Definition normalize_url (input : list Z) : Result (list Z) :=
  let trimmed := trim input in
  if bool_decide (trimmed = []) || (MAX_URL_LEN <? str_len trimmed) then Err bad_url
  else
    let with_scheme :=
      if contains (lit "://") trimmed then trimmed else lit "https://" ++ trimmed in
    url ← ok_or bad_url (url_parse with_scheme);
    if negb (bool_decide (url_scheme url = lit "http") || bool_decide (url_scheme url = lit "https"))
    then Err (InvalidInput "only http and https websites are supported")
    else if match url_host_str url with None => true | Some h => bool_decide (h = []) end
    then Err bad_url
    else if negb (bool_decide (url_username url = [])) || bool_decide (is_Some (url_password url))
    then Err (InvalidInput "website addresses must not contain credentials")
    else
      let s := url_to_string (url_drop_fragment url) in
      if MAX_URL_LEN <? str_len s then Err bad_url else Ok s.
End Urls.

(** ** [clean_value] (identity.rs) *)

Inductive Allow := Line | TextLines | PhoneChars.

Definition allowed (value : list Z) (allow : Allow) : bool :=
  match allow with
  | Line => negb (existsb is_control value)
  | TextLines =>
      negb (existsb (fun c => is_control c && negb (c =? 10) && negb (c =? 9) && negb (c =? 13)) value)
  | PhoneChars =>
      forallb (fun c => is_ascii_digit c || (c =? 32) || (c =? 43) || (c =? 40) || (c =? 41)
                        || (c =? 45) || (c =? 46)) value
  end.

Definition clean_value (value : option (list Z)) (max_chars : nat) (allow : Allow) (what : string)
    : Result (option (list Z)) :=
  match value with
  | None => Ok None
  | Some value =>
      let trimmed := trim value in
      if bool_decide (trimmed = []) then Ok None
      else if (max_chars <? length trimmed)%nat || negb (allowed trimmed allow)
      then Err (InvalidInput what)
      else Ok (Some trimmed)
  end.

(** ** Lemmas *)

Lemma clean_value_ok v max a w o :
  clean_value v max a w = Ok o ->
  match o with
  | None => True
  | Some t => t <> [] /\ trim t = t /\ (length t <= max)%nat /\ allowed t a = true
  end.
Proof.
  unfold clean_value. destruct v as [v|]; [|by intros [= <-]]. cbv zeta.
  destruct (bool_decide_reflect (trim v = [])); [by intros [= <-]|].
  destruct (Nat.ltb_spec max (length (trim v))); [done|]. cbn [orb].
  destruct (allowed (trim v) a) eqn:E; [|done]. intros [= <-]. by rewrite trim_idem.
Qed.

(** A cleaned value cleans to itself. *)
Lemma clean_value_idem v max a w o :
  clean_value v max a w = Ok o -> clean_value o max a w = Ok o.
Proof.
  intros H%clean_value_ok. destruct o as [t|]; [|done]. destruct H as (Hne & Ht & Hl & Ha).
  unfold clean_value. rewrite Ht, bool_decide_eq_false_2, Ha by done.
  destruct (Nat.ltb_spec max (length t)); [lia|done].
Qed.

Lemma clean_title_idem t t' : clean_title t = Ok t' -> clean_title t' = Ok t'.
Proof.
  unfold clean_title. cbv zeta. intros H.
  assert (t' = trim t) as E by (repeat case_match; congruence).
  rewrite E, trim_idem. rewrite E in H. exact H.
Qed.

Lemma clean_username_idem u u' : clean_username u = Ok u' -> clean_username u' = Ok u'.
Proof.
  unfold clean_username. destruct u as [u|]; cbn [trimmed_nonempty]; [|by intros [= <-]].
  destruct (bool_decide (trim u = [])) eqn:E; [by intros [= <-]|].
  destruct (_ || _) eqn:E2; [done|]. intros [= <-]. cbn [trimmed_nonempty].
  by rewrite trim_idem, E, E2.
Qed.

Lemma printable_not_ws c : 33 <= c <= 126 -> is_whitespace c = false.
Proof.
  intros Hc. unfold is_whitespace.
  rewrite !(proj2 (in_range_false _ _ _)) by lia.
  repeat match goal with |- context [c =? ?k] => destruct (Z.eqb_spec c k); [lia|] end. done.
Qed.

Lemma printable_not_control s : Forall (fun c => 33 <= c <= 126) s -> existsb is_control s = false.
Proof.
  induction 1 as [|c s Hc _ IH]; [done|]. cbn [existsb]. rewrite IH. unfold is_control.
  by rewrite !(proj2 (in_range_false _ _ _)) by lia.
Qed.

Lemma trim_no_ws s : no_ws s -> trim s = s.
Proof.
  intros Hs. unfold trim, trim_end.
  rewrite (trim_start_id s), trim_start_id, reverse_involutive; [done|..].
  - intros c t E. apply Forall_reverse in Hs. rewrite E in Hs. by inversion Hs.
  - intros c t ->. by inversion Hs.
Qed.

Section UrlLemmas.
Context `{UL : UrlLib} `{!UrlLaws UL}.

(** A normalized address is trimmed, short, printable, and normal. *)
Lemma normalize_url_ok u v :
  normalize_url u = Ok v ->
  v <> [] /\ trim v = v /\ str_len v <= MAX_URL_LEN /\ len v <= MAX_URL_LEN /\
  existsb is_control v = false /\ normalize_url v = Ok v.
Proof.
  unfold normalize_url at 1. cbv zeta. destruct (_ || _); [by intros|].
  destruct (url_parse _) as [url|] eqn:Ep; [|done]. cbn [ok_or mbind result_bind].
  destruct (negb (bool_decide _ || bool_decide _)) eqn:Es; [done|].
  destruct (url_host_str url) as [h|] eqn:Eh; [|done].
  destruct (bool_decide (h = [])) eqn:Ehe; [done|].
  destruct (negb _ || _) eqn:Ec; [done|].
  destruct (Z.ltb_spec MAX_URL_LEN (str_len (url_to_string (url_drop_fragment url)))); [done|].
  intros [= <-]. pose proof (url_printable _ _ Ep) as Hp. pose proof (url_authority _ _ _ Ep Eh) as Ha.
  set (v := url_to_string _) in *.
  assert (trim v = v) as Ht.
  { apply trim_no_ws. eapply Forall_impl; [exact Hp|]. intros c. apply printable_not_ws. }
  assert (v <> []) as Hne by (intros E; rewrite E in Ha; done).
  assert (len v = str_len v).
  { unfold str_len. rewrite utf8_ascii; [done|]. eapply Forall_impl; [exact Hp|]. cbn. lia. }
  split_and!; [done..|lia|by apply printable_not_control|].
  unfold normalize_url. cbv zeta. rewrite Ht, bool_decide_eq_false_2 by done. cbn [orb].
  destruct (Z.ltb_spec MAX_URL_LEN (str_len v)); [lia|]. rewrite Ha.
  subst v. rewrite (url_reparse _ _ Ep). cbn [ok_or mbind result_bind].
  rewrite url_drop_scheme, Es, url_drop_host, Eh, Ehe, url_drop_username, url_drop_password, Ec, url_drop_idem.
  destruct (Z.ltb_spec MAX_URL_LEN (str_len (url_to_string (url_drop_fragment url)))); [lia|done].
Qed.
End UrlLemmas.

(** ** Edits of a secret field (crates/havenkeys-core/src/model.rs, [SecretUpdate])

    A [SecretString] is its text; its wiping on drop has no counterpart. *)

Inductive SecretUpdate :=
| Keep
| SetTo (v : list Z)
| Clear.

#[export] Instance SecretUpdate_eq_dec : EqDecision SecretUpdate.
Proof. solve_decision. Defined.

Definition is_keep (u : SecretUpdate) : bool := match u with Keep => true | _ => false end.

(** [SecretUpdate::apply]: an empty [Set] clears. *)
Definition apply (u : SecretUpdate) (current : option (list Z)) : option (list Z) :=
  match u with
  | Keep => current
  | Clear => None
  | SetTo v => if bool_decide (v = []) then None else Some v
  end.
