(* ===== verification/Tags.v ===== *)
(** * Item tags (crates/havenkeys-core/src/tags.rs)

    Free-form labels, compared without case and stored in one normal form.
    Strings are ordered by scalar value, which is the order of their UTF-8
    bytes. *)

From S2P Require Import Prelude Errors Text.

Definition MAX_TAGS : nat := 20.
Definition MAX_TAG_CHARS : nat := 32.

(** [Iterator::max_by]: the last of the largest elements. *)
Definition max_by {A} (c : A -> A -> comparison) (l : list A) : option A :=
  match l with
  | [] => None
  | x :: l => Some (foldl (fun best y => match c best y with Gt => best | _ => y end) x l)
  end.

Section Tags.
Context `{U : Unicode}.

Definition normalize_one (raw : list Z) : Result (list Z) :=
  let tag := join [32] (split_whitespace raw) in
  if bool_decide (tag = []) then Err (InvalidInput "Tag is empty.")
  else if (MAX_TAG_CHARS <? length tag)%nat then Err (InvalidInput "Tag is too long.")
  else if existsb (fun c => is_control c || (c =? 44)) tag
  then Err (InvalidInput "Tag contains a character that is not allowed.")
  else Ok tag.

Definition key (tag : list Z) : list Z := to_lowercase tag.

(** The [filter] over the [seen] set of keys. *)
Fixpoint unseen (seen : gset (list Z)) (tags : list (list Z)) : list (list Z) :=
  match tags with
  | [] => []
  | t :: tags =>
      if decide (key t ∈ seen) then unseen seen tags
      else t :: unseen ({[key t]} ∪ seen) tags
  end.

Definition dedupe_sorted (tags : list (list Z)) : list (list Z) :=
  sort_by_key (fun t => (key t, t)) (unseen ∅ tags).

Definition normalize (raw : list (list Z)) : Result (list (list Z)) :=
  tags ← mapM_result normalize_one raw;
  let tags := dedupe_sorted tags in
  if (MAX_TAGS <? length tags)%nat then Err (InvalidInput "Too many tags.") else Ok tags.

(** The count of each spelling under its key. *)
Definition count_tag (m : gmap (list Z) (gmap (list Z) nat)) (t : list Z) :
    gmap (list Z) (gmap (list Z) nat) :=
  let by_spelling := default ∅ (m !! key t) in
  <[key t := <[t := S (default 0%nat (by_spelling !! t))]> by_spelling]> m.

Definition tag_counts (tag_sets : list (list (list Z))) : gmap (list Z) (gmap (list Z) nat) :=
  foldl (fun m set => foldl count_tag m set) ∅ tag_sets.

(** [na.cmp(nb).then_with(|| b.cmp(a))]. *)
Definition spelling_cmp (a b : list Z * nat) : comparison :=
  then_cmp (Nat.compare a.2 b.2) (cmp b.1 a.1).

Definition spellings (tag_sets : list (list (list Z))) : gmap (list Z) (list Z) :=
  omap (fun by_spelling : gmap (list Z) nat =>
          fst <$> max_by spelling_cmp (map_to_list by_spelling)) (tag_counts tag_sets).

Definition canonicalize (tags : list (list Z)) (vault : gmap (list Z) (list Z)) : list (list Z) :=
  dedupe_sorted (map (fun t => default t (vault !! key t)) tags).

(** ** Normal forms *)

Lemma join_no_ctrl (l : list (list Z)) : Forall (fun w => w <> [] /\ no_ws w) l -> join [32] l = [] -> l = [].
Proof.
  destruct 1 as [|w l [Hw _] _]; [done|]. destruct l; [done|].
  cbn [join]. intros H. destruct w; done.
Qed.

Lemma split_whitespace_words s : Forall (fun w => w <> [] /\ no_ws w) (split_whitespace s).
Proof. apply split_ws_words. constructor. Qed.

Lemma normalize_one_idem raw t : normalize_one raw = Ok t -> normalize_one t = Ok t.
Proof.
  unfold normalize_one. cbv zeta.
  assert (E : forall u, u = join [32] (split_whitespace raw) -> join [32] (split_whitespace u) = u).
  { intros u ->. by rewrite split_whitespace_join by apply split_whitespace_words. }
  set (tag := join _ (split_whitespace raw)) in *. intros H.
  assert (t = tag) as Ht by (repeat case_match; congruence).
  rewrite (E t Ht), Ht. rewrite Ht in H. exact H.
Qed.

Lemma unseen_spec seen tags :
  NoDup (map key (unseen seen tags)) /\ Forall (fun t => key t ∉ seen) (unseen seen tags).
Proof.
  revert seen. induction tags as [|t tags IH]; intros seen; cbn [unseen]; [split; constructor|].
  case_decide as Hs; [apply IH|]. destruct (IH ({[key t]} ∪ seen)) as [H1 H2]. split.
  - cbn [map]. constructor; [|done]. intros (u & Hu & Hin)%list_elem_of_fmap.
    rewrite Forall_forall in H2. apply H2 in Hin. clear IH. set_solver.
  - constructor; [done|]. eapply Forall_impl; [exact H2|]. clear IH. set_solver.
Qed.

Lemma unseen_id seen tags :
  NoDup (map key tags) -> Forall (fun t => key t ∉ seen) tags -> unseen seen tags = tags.
Proof.
  revert seen. induction tags as [|t tags IH]; intros seen Hn Hf; [done|].
  cbn [map] in Hn. apply NoDup_cons in Hn as [Hn1 Hn2]. inversion Hf as [|?? Hx Hy]; subst.
  cbn [unseen]. rewrite decide_False by done. f_equal. apply IH; [done|].
  rewrite Forall_forall in Hy |- *. intros u Hu. specialize (Hy u Hu).
  intros [E%elem_of_singleton|]%elem_of_union; [|done].
  apply Hn1. rewrite <- E. by apply (list_elem_of_fmap_2 key).
Qed.

Lemma unseen_subset seen tags t : t ∈ unseen seen tags -> t ∈ tags.
Proof.
  revert seen. induction tags as [|u tags IH]; intros seen; cbn [unseen]; [done|].
  rewrite elem_of_cons. case_decide; [by right; eapply IH|].
  intros [->|Hin]%elem_of_cons; [by left|]. right. by eapply IH.
Qed.

Lemma unseen_keeps seen tags t :
  t ∈ tags -> key t ∈ seen \/ exists u, u ∈ unseen seen tags /\ key u = key t.
Proof.
  revert seen. induction tags as [|u tags IH]; intros seen; [by intros ?%elem_of_nil|].
  rewrite elem_of_cons. cbn [unseen]. intros [->|Ht]; case_decide as Hd.
  - by left.
  - right. exists u. split; [left|done].
  - by apply IH.
  - destruct (IH ({[key u]} ∪ seen) Ht) as [Hk|(v & Hv & E)].
    + apply elem_of_union in Hk as [Hk|]; [|by left]. apply elem_of_singleton in Hk.
      right. exists u. split; [left|done].
    + right. exists v. split; [by right|done].
Qed.

Definition tag_key (t : list Z) : list Z * list Z := (key t, t).

#[local] Instance tag_le_antisymm : AntiSymm (=) (key_le tag_key).
Proof. intros x y H1 H2. exact (f_equal snd (cmp_le_antisym _ _ H1 H2)). Qed.

Lemma sort_tags_unique l k :
  l ≡ₚ k -> StronglySorted (key_le tag_key) l -> sort_by_key tag_key k = l.
Proof.
  intros Hp Hl. apply (StronglySorted_unique (key_le tag_key)).
  - apply (sort_by_key_sorted tag_key).
  - done.
  - by rewrite (sort_by_key_perm tag_key), Hp.
Qed.

Lemma dedupe_sorted_spec tags :
  StronglySorted (key_le tag_key) (dedupe_sorted tags) /\ NoDup (map key (dedupe_sorted tags)).
Proof.
  unfold dedupe_sorted. fold tag_key. split; [apply (sort_by_key_sorted tag_key)|].
  rewrite (Permutation_map key (sort_by_key_perm tag_key _)). apply (unseen_spec ∅ tags).
Qed.

Lemma dedupe_sorted_idem tags : dedupe_sorted (dedupe_sorted tags) = dedupe_sorted tags.
Proof.
  destruct (dedupe_sorted_spec tags) as [Hs Hn].
  unfold dedupe_sorted at 1. rewrite unseen_id; [|done|].
  - fold tag_key. by apply sort_tags_unique.
  - apply Forall_forall. set_solver.
Qed.

Lemma mapM_result_id {E A} (f : A -> result E A) l :
  Forall (fun x => f x = Ok x) l -> mapM_result f l = Ok l.
Proof.
  induction 1 as [|x l Hx _ IH]; [done|]. cbn [mapM_result]. rewrite Hx. cbn. by rewrite IH.
Qed.

Lemma mapM_result_ok {E A B} (f : A -> result E B) l k :
  mapM_result f l = Ok k -> Forall2 (fun x y => f x = Ok y) l k.
Proof.
  revert k. induction l as [|x l IH]; intros k; cbn [mapM_result]; [intros [= <-]; constructor|].
  destruct (f x) as [y|] eqn:Ex; [|done]. cbn.
  destruct (mapM_result f l) as [ys|] eqn:El; [|done]. cbn. intros [= <-].
  constructor; [done|]. by apply IH.
Qed.

Lemma dedupe_sorted_perm tags : dedupe_sorted tags ≡ₚ unseen ∅ tags.
Proof. apply (sort_by_key_perm tag_key). Qed.

Lemma dedupe_sorted_elem tags t : t ∈ dedupe_sorted tags -> t ∈ tags.
Proof. rewrite dedupe_sorted_perm. apply unseen_subset. Qed.

Lemma normalize_ok raw tags :
  normalize raw = Ok tags ->
  (length tags <= MAX_TAGS)%nat /\ Forall (fun t => normalize_one t = Ok t) tags /\
  exists cleaned, Forall2 (fun r t => normalize_one r = Ok t) raw cleaned /\ tags = dedupe_sorted cleaned.
Proof.
  unfold normalize. destruct (mapM_result normalize_one raw) as [c|] eqn:E; [|done].
  cbn [mbind result_bind]. cbv zeta. destruct (Nat.ltb_spec MAX_TAGS (length (dedupe_sorted c))); [done|].
  intros Hd%(inj Ok). subst tags. apply mapM_result_ok in E. split_and!; [done| |by exists c].
  apply Forall_forall. intros t Ht%dedupe_sorted_elem.
  apply list_elem_of_lookup in Ht as [i Hi].
  destruct (Forall2_lookup_r _ _ _ _ _ E Hi) as (r & _ & Hr). by apply normalize_one_idem in Hr.
Qed.

(** ** The count of a spelling *)

Definition occurrences (t : list Z) (tags : list (list Z)) : nat := length (filter (.= t) tags).

Lemma count_tag_lookup m t k u :
  (count_tag m t !! k ≫= lookup u : option nat) =
    if decide (k = key t /\ u = t) then Some (S (default 0%nat (m !! k ≫= lookup u)))
    else m !! k ≫= lookup u.
Proof.
  unfold count_tag. destruct (decide (k = key t)) as [->|Hk].
  - rewrite lookup_insert_eq. cbn [mbind option_bind].
    destruct (decide (u = t)) as [->|Hu].
    + rewrite lookup_insert_eq, decide_True by done. do 3 f_equal. by destruct (m !! key t).
    + rewrite lookup_insert_ne, decide_False by (done || by intros [_ ?]). by destruct (m !! key t).
  - by rewrite lookup_insert_ne, decide_False by (congruence || by intros [? _]).
Qed.

Lemma count_fold_lookup tags m k u :
  default 0%nat (foldl count_tag m tags !! k ≫= lookup u) =
    (default 0%nat (m !! k ≫= lookup u) + (if decide (k = key u) then occurrences u tags else 0))%nat.
Proof.
  revert m. induction tags as [|t tags IH]; intros m; cbn [foldl].
  - unfold occurrences. cbn. case_decide; lia.
  - rewrite IH, count_tag_lookup. unfold occurrences. rewrite filter_cons.
    destruct (decide (t = u)) as [->|Ht].
    + destruct (decide (k = key u)) as [Hk|Hk].
      * rewrite !decide_True by done. cbn [from_option length]. unfold id. lia.
      * by rewrite decide_False by (by intros [? _]).
    + by rewrite (decide_False (P := k = key t /\ u = t)) by (intros [_ ?]; congruence).
Qed.

Lemma tag_counts_fold sets : tag_counts sets = foldl count_tag ∅ (concat sets).
Proof.
  unfold tag_counts. generalize (∅ : gmap (list Z) (gmap (list Z) nat)).
  induction sets as [|s sets IH]; intros m; [done|]. cbn [foldl concat]. by rewrite foldl_app, IH.
Qed.

(** Every stored count is positive, and under its own key. *)
Definition counts_ok (m : gmap (list Z) (gmap (list Z) nat)) : Prop :=
  forall k b, m !! k = Some b -> b <> ∅ /\ (forall u n, b !! u = Some n -> (0 < n)%nat /\ key u = k).

Lemma count_tag_ok m t : counts_ok m -> counts_ok (count_tag m t).
Proof.
  intros Hm k b. unfold count_tag. destruct (decide (key t = k)) as [<-|Hk].
  - rewrite lookup_insert_eq. intros [= <-]. split; [apply insert_non_empty|].
    intros u n. destruct (decide (t = u)) as [<-|Hu].
    + rewrite lookup_insert_eq. intros [= <-]. split; [lia|done].
    + rewrite lookup_insert_ne by done. destruct (m !! key t) as [b|] eqn:E; cbn [default].
      * intros Hn. by apply (Hm _ _ E).
      * by rewrite lookup_empty.
  - rewrite lookup_insert_ne by done. apply Hm.
Qed.

Lemma tag_counts_ok sets : counts_ok (tag_counts sets).
Proof.
  rewrite tag_counts_fold. assert (counts_ok ∅) as H by (intros ??; by rewrite lookup_empty).
  revert H. generalize (∅ : gmap (list Z) (gmap (list Z) nat)).
  induction (concat sets) as [|t l IH]; intros m Hm; [done|]. cbn [foldl]. by apply IH, count_tag_ok.
Qed.

Lemma tag_counts_lookup s k u :
  (tag_counts s !! k ≫= lookup u : option nat) =
    if decide (k = key u /\ u ∈ concat s) then Some (occurrences u (concat s)) else None.
Proof.
  pose proof (count_fold_lookup (concat s) ∅ k u) as Hf.
  rewrite <- tag_counts_fold, lookup_empty in Hf. cbn [from_option mbind option_bind] in Hf.
  rewrite Nat.add_0_l in Hf.
  assert (Ho : u ∈ concat s <-> (0 < occurrences u (concat s))%nat).
  { unfold occurrences. split.
    - intros Hu. destruct (filter (.= u) (concat s)) eqn:Ef; [|simpl; lia].
      by apply (filter_nil_not_elem_of (.= u) _ u) in Ef.
    - destruct (filter (.= u) (concat s)) as [|v l] eqn:Ef; [simpl; lia|]. intros _.
      assert (v ∈ filter (.= u) (concat s)) as Hv by (rewrite Ef; left).
      by apply list_elem_of_filter in Hv as [-> ?]. }
  destruct (tag_counts s !! k ≫= lookup u) as [n|] eqn:E; cbn [from_option] in Hf; unfold id in Hf.
  - destruct (tag_counts s !! k) as [b|] eqn:Eb; [|done]. cbn in E.
    destruct (tag_counts_ok s k b Eb) as [_ Hp]. destruct (Hp u n E) as [Hn Hk].
    rewrite decide_True in Hf by done. rewrite decide_True; [by subst|]. split; [done|]. apply Ho. lia.
  - destruct (decide (k = key u /\ u ∈ concat s)) as [[Hk Hu]|]; [|done]. rewrite decide_True in Hf by done.
    apply Ho in Hu. lia.
Qed.

Lemma tag_count_some s k b u n :
  tag_counts s !! k = Some b -> b !! u = Some n ->
  k = key u /\ u ∈ concat s /\ n = occurrences u (concat s).
Proof.
  intros Hb Hu. pose proof (tag_counts_lookup s k u) as H. rewrite Hb in H. cbn in H.
  rewrite Hu in H. case_decide as Hd; [|done]. destruct Hd. by injection H.
Qed.

Lemma tag_count_in s u :
  u ∈ concat s ->
  exists b, tag_counts s !! key u = Some b /\ b !! u = Some (occurrences u (concat s)).
Proof.
  intros Hu. pose proof (tag_counts_lookup s (key u) u) as H. rewrite decide_True in H by done.
  destruct (tag_counts s !! key u) as [b|]; [|done]. by exists b.
Qed.

Lemma counts_ext m m' :
  counts_ok m -> counts_ok m' ->
  (forall k u, (m !! k ≫= lookup u : option nat) = m' !! k ≫= lookup u) -> m = m'.
Proof.
  intros Hm Hm' H. apply map_eq. intros k. specialize (H k).
  destruct (m !! k) as [b|] eqn:E, (m' !! k) as [b'|] eqn:E'; cbn in H; [|..|done].
  - f_equal. by apply map_eq.
  - destruct (Hm k b E) as [Hb _]. destruct Hb. by apply map_empty.
  - destruct (Hm' k b' E') as [Hb _]. destruct Hb. by apply map_empty.
Qed.

Lemma concat_perm {A} (s s' : list (list A)) : s ≡ₚ s' -> concat s ≡ₚ concat s'.
Proof.
  induction 1 as [|x s s' _ IH|x y s|s s' s'' _ IH1 _ IH2]; cbn [concat]; [done|by rewrite IH| |by rewrite IH1].
  by rewrite !app_assoc, (Permutation_app_comm y x).
Qed.

Lemma tag_counts_perm s s' : s ≡ₚ s' -> tag_counts s = tag_counts s'.
Proof.
  intros Hp. apply counts_ext; [apply tag_counts_ok..|]. intros k u.
  rewrite !tag_counts_lookup.
  assert (concat s ≡ₚ concat s') as Hc by (by apply concat_perm).
  assert (occurrences u (concat s) = occurrences u (concat s')) as ->.
  { unfold occurrences. by rewrite Hc. }
  destruct (decide (k = key u /\ u ∈ concat s)) as [[? Hu]|Hn].
  - rewrite decide_True; [done|]. by rewrite Hc in Hu.
  - rewrite decide_False; [done|]. by rewrite Hc in Hn.
Qed.

(** The largest element of [max_by] under a total, transitive comparison. *)
Lemma max_by_spec {A} (c : A -> A -> comparison) l x :
  (forall a b, c b a = CompOpp (c a b)) ->
  (forall a b d, c a b <> Gt -> c b d <> Gt -> c a d <> Gt) ->
  max_by c l = Some x -> x ∈ l /\ forall y, y ∈ l -> c y x <> Gt.
Proof.
  intros Ho Ht. destruct l as [|a l]; [done|]. cbn [max_by]. intros [= <-].
  assert (Hr : forall a, c a a <> Gt).
  { intros b. specialize (Ho b b). destruct (c b b); done. }
  revert a. induction l as [|b l IH]; intros a; cbn [foldl].
  - split; [left|]. intros y ->%list_elem_of_singleton. apply Hr.
  - destruct (c a b) eqn:E.
    1,2: destruct (IH b) as [H1 H2]; split; [by right|];
      intros y [->|Hy]%elem_of_cons; [|by apply H2];
      apply (Ht _ b); [by rewrite E|apply H2; left].
    destruct (IH a) as [H1 H2]. split.
    + apply elem_of_cons in H1 as [H1|H1]; [rewrite H1; left|by right; right].
    + intros y Hy. apply elem_of_cons in Hy as [->|Hy]; [apply H2; left|].
      apply elem_of_cons in Hy as [->|Hy]; [|apply H2; by right].
      apply (Ht _ a); [|apply H2; left]. rewrite (Ho a b), E. done.
Qed.

Lemma spelling_cmp_opp a b : spelling_cmp b a = CompOpp (spelling_cmp a b).
Proof.
  unfold spelling_cmp. rewrite (Nat.compare_antisym a.2 b.2), (cmp_opp b.1 a.1).
  by destruct (Nat.compare a.2 b.2).
Qed.

Lemma spelling_cmp_le a b :
  spelling_cmp a b <> Gt <-> (a.2 < b.2)%nat \/ (a.2 = b.2 /\ cmp_le b.1 a.1).
Proof.
  unfold spelling_cmp, cmp_le. destruct (Nat.compare_spec a.2 b.2); cbn [then_cmp].
  - split; [by right|]. intros [?|[_ ?]]; [lia|done].
  - split; [by left|done].
  - split; [done|]. lia.
Qed.

Lemma spelling_cmp_trans a b d :
  spelling_cmp a b <> Gt -> spelling_cmp b d <> Gt -> spelling_cmp a d <> Gt.
Proof.
  rewrite !spelling_cmp_le. intros [?|[? H1]] [?|[? H2]]; [left; lia..|].
  right. split; [lia|]. by apply (transitivity (R := cmp_le) H2).
Qed.
End Tags.

Section Properties.
Context `{U : Unicode}.

(** What [normalize] stores is canonical: at most 20 tags, each in its
    own normal form, no two equal without case, sorted by key and spelling;
    every tag was given; and normalizing again changes nothing. *)
Lemma normalize_canonical raw tags :
  normalize raw = Ok tags ->
  (length tags <= MAX_TAGS)%nat /\
  Forall (fun t => normalize_one t = Ok t) tags /\
  NoDup (map key tags) /\
  StronglySorted (key_le tag_key) tags /\
  (forall r, r ∈ raw -> exists t, normalize_one r = Ok t /\ exists u, u ∈ tags /\ key u = key t) /\
  normalize tags = Ok tags.
Proof.
  intros (Hl & Hn & c & Hc & Hd)%normalize_ok.
  destruct (dedupe_sorted_spec c) as [Hs Hk]. rewrite <- Hd in Hs, Hk.
  split_and!; try done.
  - intros r (i & Hi)%list_elem_of_lookup. destruct (Forall2_lookup_l _ _ _ _ _ Hc Hi) as (t & Ht & Hr).
    exists t. split; [done|]. apply list_elem_of_lookup_2 in Ht.
    destruct (unseen_keeps ∅ c t Ht) as [?%not_elem_of_empty|(u & Hu & E)]; [done|].
    exists u. split; [|done]. by rewrite Hd, dedupe_sorted_perm.
  - unfold normalize. rewrite mapM_result_id by done. cbn [mbind result_bind]. cbv zeta.
    rewrite Hd, dedupe_sorted_idem, <- Hd. destruct (Nat.ltb_spec MAX_TAGS (length tags)); [lia|done].
Qed.

(** The vault's spelling of a tag is the one most items carry, the
    smallest on a tie; every tag in use has one; and the map does not depend
    on the order the items come in. *)
Lemma spellings_majority (sets sets' : list (list (list Z))) :
  sets ≡ₚ sets' ->
  spellings sets = spellings sets' /\
  (forall t, t ∈ concat sets -> is_Some (spellings sets !! key t)) /\
  (forall k t, spellings sets !! k = Some t ->
     t ∈ concat sets /\ key t = k /\
     forall u, u ∈ concat sets -> key u = k ->
       (occurrences u (concat sets) < occurrences t (concat sets))%nat \/
       (occurrences u (concat sets) = occurrences t (concat sets) /\ cmp_le t u)).
Proof.
  intros Hp. split; [unfold spellings; by rewrite (tag_counts_perm _ _ Hp)|]. split.
  - intros t Ht. unfold spellings. rewrite lookup_omap.
    pose proof (tag_counts_lookup sets (key t) t) as H. rewrite decide_True in H by done.
    destruct (tag_counts sets !! key t) as [b|]; [|done]. cbn in H |- *.
    destruct (map_to_list b) as [|p l] eqn:E; [|by eexists].
    apply map_to_list_empty_iff in E as ->. by rewrite lookup_empty in H.
  - intros k t. unfold spellings. rewrite lookup_omap.
    destruct (tag_counts sets !! k) as [b|] eqn:Eb; [|done]. cbn.
    destruct (max_by spelling_cmp (map_to_list b)) as [[t' n]|] eqn:Em; [|done].
    cbn. intros [= ->].
    apply max_by_spec in Em as [Hin Hmax]; [|apply spelling_cmp_opp|apply spelling_cmp_trans].
    apply elem_of_map_to_list in Hin. destruct (tag_count_some sets k b t n Eb Hin) as (<- & Ht & ->).
    split_and!; [done..|]. intros u Hu Hk.
    destruct (tag_count_in sets u Hu) as (b' & Hb' & Hu'). rewrite Hk, Eb in Hb'.
    injection Hb' as <-. apply elem_of_map_to_list, Hmax, spelling_cmp_le in Hu'. done.
Qed.
End Properties.

Section Witnesses.
Import ToyUnicode.

Lemma normalize_canonical_witness :
  exists tags, normalize [lit " Work  stuff"; lit "home"; lit "WORK stuff"] = Ok tags
    /\ normalize tags = Ok tags /\ length tags = 2%nat.
Proof.
  eexists. split; [vm_compute; reflexivity|]. split; [|reflexivity].
  eapply (normalize_canonical [lit " Work  stuff"; lit "home"; lit "WORK stuff"]).
  vm_compute; reflexivity.
Defined.

Lemma spellings_majority_witness :
  spellings [[lit "Work"]; [lit "work"]; [lit "work"; lit "home"]]
    = spellings [[lit "work"; lit "home"]; [lit "Work"]; [lit "work"]]
  /\ spellings [[lit "Work"]; [lit "work"]; [lit "work"; lit "home"]] !! lit "work" = Some (lit "work").
Proof.
  split; [|vm_compute; reflexivity].
  eapply spellings_majority.
  apply (Permutation_app_comm [[lit "Work"]; [lit "work"]] [[lit "work"; lit "home"]]).
Defined.
End Witnesses.
