(* ===== verification/Totp.v ===== *)
(** * One-time passwords (crates/havenkeys-core/src/totp.rs)

    TOTP codes (RFC 6238) and the [otpauth://] form of a setup.  Base32 and
    HMAC come from crates outside the repository ([TotpLib]). *)

From S2P Require Import Prelude Errors Text Url Clean.

Definition MIN_SECRET_BYTES : nat := 10.
Definition MAX_SECRET_BYTES : nat := 128.
Definition MIN_PERIOD : Z := 1.
Definition MAX_PERIOD : Z := 300.
Definition MAX_URI_LEN : Z := 2048.
Definition MAX_LABEL_LEN : nat := 256.

Inductive TotpAlgorithm := Sha1 | Sha256 | Sha512.

#[export] Instance TotpAlgorithm_eq_dec : EqDecision TotpAlgorithm.
Proof. solve_decision. Defined.

Class TotpLib := {
  base32_decode : list Z -> option (list Z);
  hmac : TotpAlgorithm -> list Z -> list Z -> option (list Z);
}.

(** What the code relies on of HMAC: any key is taken, and a digest is at
    least 20 bytes. *)
Class HmacLaws (L : TotpLib) : Prop := {
  hmac_total : forall a k m, is_Some (hmac a k m);
  hmac_digest : forall a k m d, hmac a k m = Some d -> (20 <= length d)%nat /\ all_bytes d;
}.

Record TotpConfig := {
  secret : list Z;
  algorithm : TotpAlgorithm;
  digits : Z;
  period : Z;
  issuer : option (list Z);
  account : option (list Z);
}.

Record TotpCode := {
  tc_code : list Z;
  tc_period : Z;
  seconds_remaining : Z;
}.

#[export] Instance TotpConfig_eq_dec : EqDecision TotpConfig.
Proof. solve_decision. Defined.

Definition normalize_base32 (input : list Z) : list Z :=
  map to_ascii_uppercase
    (filter (fun c => (negb (is_whitespace c) && negb (c =? 45) && negb (c =? 61)) = true) input).

Definition truncate (s : list Z) : list Z := take MAX_LABEL_LEN s.

(** [Option::filter(|s| !s.is_empty())]. *)
Definition nonempty (o : option (list Z)) : option (list Z) :=
  match o with Some [] => None | _ => o end.

Definition algorithm_name (a : TotpAlgorithm) : list Z :=
  lit match a with Sha1 => "SHA1" | Sha256 => "SHA256" | Sha512 => "SHA512" end.

Section Totp.
Context `{L : TotpLib} `{UL : UrlLib}.

Definition decode_secret (normalized : list Z) : Result (list Z) :=
  bytes ← ok_or (InvalidInput "TOTP secret is not valid Base32") (base32_decode (utf8 normalized));
  if (length bytes <? MIN_SECRET_BYTES)%nat || (MAX_SECRET_BYTES <? length bytes)%nat
  then Err (InvalidInput "TOTP secret has an invalid length")
  else Ok bytes.

(** [TotpConfig::validate]. *)
Definition validate (c : TotpConfig) : Result () :=
  if negb ((digits c =? 6) || (digits c =? 8)) then Err (InvalidInput "TOTP digits must be 6 or 8")
  else if negb (in_range MIN_PERIOD MAX_PERIOD (period c)) then Err (InvalidInput "TOTP period out of range")
  else _ ← decode_secret (secret c); Ok ().

(** [TotpConfig::to_otpauth_uri]. *)
Definition otpauth_label (c : TotpConfig) : list Z :=
  match issuer c, account c with
  | Some i, Some a => percent_encode i ++ [58] ++ percent_encode a
  | None, Some a => percent_encode a
  | Some i, None => percent_encode i
  | None, None => []
  end.
Definition to_otpauth_uri (c : TotpConfig) : list Z :=
  lit "otpauth://totp/" ++ otpauth_label c ++ lit "?secret=" ++ secret c
  ++ lit "&algorithm=" ++ algorithm_name (algorithm c)
  ++ lit "&digits=" ++ to_decimal (digits c) ++ lit "&period=" ++ to_decimal (period c)
  ++ match issuer c with Some i => lit "&issuer=" ++ percent_encode i | None => [] end.

(** The loop over the query pairs of [parse_otpauth]: its five variables. *)
Record Params := {
  p_secret : option (list Z);
  p_algorithm : TotpAlgorithm;
  p_digits : Z;
  p_period : Z;
  p_issuer : option (list Z);
}.
Definition no_params : Params :=
  {| p_secret := None; p_algorithm := Sha1; p_digits := 6; p_period := 30; p_issuer := None |}.

Definition step_param (p : Params) (kv : list Z * list Z) : Result Params :=
  let key := map to_ascii_lowercase kv.1 in
  let value := kv.2 in
  if bool_decide (key = lit "secret") then
    Ok {| p_secret := Some (normalize_base32 value); p_algorithm := p_algorithm p;
          p_digits := p_digits p; p_period := p_period p; p_issuer := p_issuer p |}
  else if bool_decide (key = lit "algorithm") then
    let v := map to_ascii_uppercase value in
    a ← (if bool_decide (v = lit "SHA1") then Ok Sha1
         else if bool_decide (v = lit "SHA256") then Ok Sha256
         else if bool_decide (v = lit "SHA512") then Ok Sha512
         else Err (InvalidInput "unsupported TOTP algorithm"));
    Ok {| p_secret := p_secret p; p_algorithm := a;
          p_digits := p_digits p; p_period := p_period p; p_issuer := p_issuer p |}
  else if bool_decide (key = lit "digits") then
    n ← ok_or (InvalidInput "invalid TOTP digits") (parse_unsigned u32_max value);
    Ok {| p_secret := p_secret p; p_algorithm := p_algorithm p;
          p_digits := n; p_period := p_period p; p_issuer := p_issuer p |}
  else if bool_decide (key = lit "period") then
    n ← ok_or (InvalidInput "invalid TOTP period") (parse_unsigned u32_max value);
    Ok {| p_secret := p_secret p; p_algorithm := p_algorithm p;
          p_digits := p_digits p; p_period := n; p_issuer := p_issuer p |}
  else if bool_decide (key = lit "issuer") then
    Ok {| p_secret := p_secret p; p_algorithm := p_algorithm p;
          p_digits := p_digits p; p_period := p_period p; p_issuer := Some (truncate value) |}
  else Ok p.

Fixpoint scan_params (p : Params) (kvs : list (list Z * list Z)) : Result Params :=
  match kvs with
  | [] => Ok p
  | kv :: kvs => p ← step_param p kv; scan_params p kvs
  end.

(** [trim_start_matches('/')]. *)
Fixpoint trim_slashes (s : list Z) : list Z :=
  match s with c :: s' => if c =? 47 then trim_slashes s' else s | [] => [] end.

Definition check_totp_url (url : Url) : Result () :=
  if negb (bool_decide (url_scheme url = lit "otpauth")) then Err (InvalidInput "invalid otpauth URI")
  else match url_host_str url with
       | Some h =>
           if eq_ignore_ascii_case h (lit "totp") then Ok ()
           else if eq_ignore_ascii_case h (lit "hotp") then Err (InvalidInput "HOTP is not supported")
           else Err (InvalidInput "invalid otpauth URI")
       | None => Err (InvalidInput "invalid otpauth URI")
       end.

Definition parse_otpauth (uri : list Z) : Result TotpConfig :=
  url ← ok_or (InvalidInput "invalid otpauth URI") (url_parse uri);
  _ ← check_totp_url url;
  p ← scan_params no_params (url_query_pairs url);
  let label := percent_decode (trim_slashes (url_path url)) in
  let '(label_issuer, account) :=
    match split_once 58 label with
    | Some (i, a) => (Some (truncate (trim i)), truncate (trim a))
    | None => (None, truncate (trim label))
    end in
  secret ← ok_or (InvalidInput "otpauth URI has no secret") (p_secret p);
  let config :=
    {| secret := secret; algorithm := p_algorithm p; digits := p_digits p; period := p_period p;
       issuer := nonempty (match p_issuer p with Some i => Some i | None => label_issuer end);
       account := nonempty (Some account) |} in
  _ ← validate config;
  Ok config.

Definition parse_totp_input (input : list Z) : Result TotpConfig :=
  let trimmed := trim input in
  if MAX_URI_LEN <? str_len trimmed then Err (InvalidInput "TOTP input too long")
  else if starts_with (lit "otpauth:") (map to_ascii_lowercase trimmed) then parse_otpauth trimmed
  else
    let secret := normalize_base32 trimmed in
    _ ← decode_secret secret;
    Ok {| secret := secret; algorithm := Sha1; digits := 6; period := 30;
          issuer := None; account := None |}.

(** [SecretUpdate::apply_totp] (model.rs). *)
Definition apply_totp (u : SecretUpdate) (current : option TotpConfig) : Result (option TotpConfig) :=
  match u with
  | Keep => Ok current
  | Clear => Ok None
  | SetTo v => if bool_decide (trim v = []) then Ok None else c ← parse_totp_input v; Ok (Some c)
  end.

(** [hotp]: RFC 4226 dynamic truncation.  The byte at the low nibble of the
    last one starts the 31-bit value. *)
Definition dynamic_truncation (digest : list Z) : Z :=
  let offset := Z.to_nat (Z.land (nth (length digest - 1) digest 0) 15) in
  Z.lor (Z.lor (Z.lor (Z.shiftl (Z.land (nth offset digest 0) 127) 24)
                      (Z.shiftl (nth (offset + 1) digest 0) 16))
               (Z.shiftl (nth (offset + 2) digest 0) 8))
        (nth (offset + 3) digest 0).

Definition hotp (a : TotpAlgorithm) (key : list Z) (counter : Z) (digits : Z) : Result Z :=
  digest ← ok_or (InvalidInput "TOTP key") (hmac a key (be_bytes 8 counter));
  Ok (dynamic_truncation digest mod 10 ^ digits).

Definition generate (config : TotpConfig) (unix_seconds : Z) : Result TotpCode :=
  _ ← validate config;
  key ← decode_secret (secret config);
  let counter := unix_seconds / period config in
  value ← hotp (algorithm config) key counter (digits config);
  Ok {| tc_code := pad_zeros (Z.to_nat (digits config)) (to_decimal value);
        tc_period := period config;
        seconds_remaining := period config - unix_seconds mod period config |}.
End Totp.

Section Lemmas.
Context `{L : TotpLib} `{UL : UrlLib}.

Lemma validate_ok c :
  validate c = Ok () <->
  (digits c = 6 \/ digits c = 8) /\ MIN_PERIOD <= period c <= MAX_PERIOD /\ is_ok (decode_secret (secret c)) = true.
Proof.
  unfold validate. destruct (Z.eqb_spec (digits c) 6), (Z.eqb_spec (digits c) 8); cbn [orb negb];
    destruct (in_range MIN_PERIOD MAX_PERIOD (period c)) eqn:E; cbn [negb];
    (apply in_range_true in E || apply in_range_false in E);
    destruct (decode_secret (secret c)); cbn; naive_solver lia.
Qed.

(** Every setup [parse_totp_input] returns is valid. *)
Lemma parse_otpauth_valid uri c : parse_otpauth uri = Ok c -> validate c = Ok ().
Proof.
  unfold parse_otpauth. destruct (url_parse uri) as [u|]; [|done]. cbn [ok_or mbind result_bind].
  destruct (check_totp_url u); [|done]. cbn [mbind result_bind].
  destruct (scan_params no_params _) as [p|]; [|done]. cbn [mbind result_bind].
  destruct (match split_once _ _ with Some _ => _ | None => _ end) as [li ac].
  destruct (p_secret p) as [s|]; [|done]. cbn [ok_or mbind result_bind].
  destruct (validate _) as [[]|] eqn:E; [|done]. cbn. by intros [= <-].
Qed.

Lemma parse_totp_input_valid input c : parse_totp_input input = Ok c -> validate c = Ok ().
Proof.
  unfold parse_totp_input. destruct (_ <? _); [done|].
  destruct (starts_with _ _); [apply parse_otpauth_valid|].
  destruct (decode_secret _) eqn:E; [|done]. cbn [mbind result_bind]. intros [= <-].
  apply validate_ok. cbn [digits period secret]. rewrite E.
  split_and!; [by left|unfold MIN_PERIOD, MAX_PERIOD; lia..|done].
Qed.

Lemma lor_bound a b n : 0 <= n -> 0 <= a < 2 ^ n -> 0 <= b < 2 ^ n -> 0 <= Z.lor a b < 2 ^ n.
Proof.
  intros Hn Ha Hb. split; [apply Z.lor_nonneg; lia|].
  destruct (decide (Z.lor a b = 0)) as [->|Hne]; [lia|].
  assert (0 < Z.lor a b) by (pose proof (proj2 (Z.lor_nonneg a b)); lia).
  apply Z.log2_lt_pow2; [done|]. rewrite Z.log2_lor by lia.
  destruct (decide (n = 0)) as [->|]; [cbn in *; assert (a = 0) as -> by lia; assert (b = 0) as -> by lia; done|].
  apply Z.max_lub_lt.
  - destruct (decide (a = 0)) as [->|]; [cbn; lia|]. apply Z.log2_lt_pow2; lia.
  - destruct (decide (b = 0)) as [->|]; [cbn; lia|]. apply Z.log2_lt_pow2; lia.
Qed.

Lemma nth_byte l i : all_bytes l -> 0 <= nth i l 0 < 256.
Proof.
  intros Hl. destruct (decide (i < length l)%nat) as [Hi|Hi].
  - apply (Forall_nth is_byte 0 l); [done|lia].
  - rewrite nth_overflow by lia. lia.
Qed.

Lemma shiftl_bound z k n m : 0 <= k -> 0 <= m -> n = m + k -> 0 <= z < 2 ^ m -> 0 <= Z.shiftl z k < 2 ^ n.
Proof.
  intros Hk Hm -> Hz. rewrite Z.shiftl_mul_pow2, Z.pow_add_r by lia.
  pose proof (Z.pow_pos_nonneg 2 k). nia.
Qed.

Lemma pow_widen a n m : 0 <= n <= m -> 0 <= a < 2 ^ n -> 0 <= a < 2 ^ m.
Proof. intros Hn Ha. pose proof (Z.pow_le_mono_r 2 n m). lia. Qed.

(** The truncated value has 31 bits, and every byte it reads exists. *)
Lemma dynamic_truncation_bound d : all_bytes d -> 0 <= dynamic_truncation d < 2 ^ 31.
Proof.
  intros Hd. unfold dynamic_truncation. cbv zeta. set (o := Z.to_nat _).
  apply lor_bound; [lia| |apply (pow_widen _ 8); [lia|by apply nth_byte]].
  apply lor_bound; [lia| |apply (pow_widen _ 16); [lia|apply (shiftl_bound _ 8 16 8); [lia..|by apply nth_byte]]].
  apply lor_bound; [lia| |apply (pow_widen _ 24); [lia|apply (shiftl_bound _ 16 24 8); [lia..|by apply nth_byte]]].
  apply (shiftl_bound _ 24 31 7); [lia..|].
  change 127 with (Z.ones 7). rewrite Z.land_ones by lia. apply Z.mod_pos_bound. lia.
Qed.

Lemma truncation_offset (d : list Z) : (20 <= length d)%nat ->
  (Z.to_nat (Z.land (nth (length d - 1) d 0%Z) 15) + 3 < length d)%nat.
Proof.
  intros Hl. change 15 with (Z.ones 4). rewrite Z.land_ones by lia.
  pose proof (Z.mod_pos_bound (nth (length d - 1) d 0) (2 ^ 4)). lia.
Qed.
End Lemmas.

Section Properties.
Context `{L : TotpLib} `{UL : UrlLib}.

(** Every setup the parser accepts gives a code at every instant: exactly
    the setup's number of decimal digits, between 1 second and a whole period
    left, and the same code until the window's last second.  The digest
    bytes read by the truncation all exist. *)
Lemma parsed_totp_generates `{!HmacLaws L} input c t :
  parse_totp_input input = Ok c -> in_u64 t ->
  exists code, generate c t = Ok code /\
    len (tc_code code) = digits c /\ is_digits (tc_code code) /\
    1 <= seconds_remaining code <= period c /\
    (forall t', t <= t' < t + seconds_remaining code ->
       exists code', generate c t' = Ok code' /\ tc_code code' = tc_code code) /\
    (forall d, hmac (algorithm c) (default [] (result_ok (decode_secret (secret c))))
                 (be_bytes 8 (t / period c)) = Some d ->
       (Z.to_nat (Z.land (nth (length d - 1) d 0%Z) 15) + 3 < length d)%nat).
Proof.
  intros Hv%parse_totp_input_valid Ht.
  pose proof (proj1 (validate_ok c) Hv) as (Hd & Hp & Hs).
  unfold MIN_PERIOD in Hp. unfold generate. rewrite Hv. cbn [mbind result_bind].
  destruct (decode_secret (secret c)) as [key|]; [|done]. cbn [mbind result_bind].
  destruct (hmac_total (algorithm c) key (be_bytes 8 (t / period c))) as [d Hh].
  destruct (hmac_digest _ _ _ _ Hh) as [Hl Hb].
  unfold hotp. rewrite Hh. cbn [ok_or mbind result_bind]. eexists. split; [done|].
  cbn [tc_code seconds_remaining].
  pose proof (Z.mod_pos_bound t (period c)) as Hm.
  assert (0 <= dynamic_truncation d mod 10 ^ digits c < 10 ^ Z.of_nat (Z.to_nat (digits c))) as Hr.
  { rewrite Z2Nat.id by lia. apply Z.mod_pos_bound. apply Z.pow_pos_nonneg; lia. }
  destruct (pad_decimal_spec _ _ Hr) as (H1 & H2 & _); [lia|].
  split_and!; [lia|done|lia|lia| |].
  - intros t' Ht'. assert (t' / period c = t / period c) as ->.
    { symmetry. apply Z.div_unique with (t' - period c * (t / period c)); [|lia].
      pose proof (Z.div_mod t (period c)). lia. }
    rewrite Hh. cbn [ok_or mbind result_bind]. by eexists.
  - intros d' Hd'. cbn in Hd'. unfold id in Hd'. apply truncation_offset. by apply hmac_digest in Hd' as [? _].
Qed.
End Properties.

(** A concrete library: a "digest" of 20 equal bytes, Base32 as the
    characters' codes. *)
Module ToyTotp.
#[export] Instance totp_lib : TotpLib := {|
  base32_decode := fun s => Some s; hmac := fun _ _ m => Some (replicate 20 (foldr Z.add 0 m mod 256)) |}.
#[export] Instance hmac_laws : HmacLaws totp_lib.
Proof.
  split; [by eexists|]. cbn. intros a k m d [= <-].
  split; [cbn; lia|]. repeat constructor; apply Z.mod_pos_bound; lia.
Qed.
End ToyTotp.

Section Witnesses.
Import ToyTotp ToyUrl.

Lemma parsed_totp_generates_witness :
  exists c code, parse_totp_input (lit " abcd efgh-ijkl ") = Ok c /\ in_u64 59 /\
    generate c 59 = Ok code /\ len (tc_code code) = 6 /\ 1 <= seconds_remaining code <= 30.
Proof.
  eexists. destruct (parsed_totp_generates (lit " abcd efgh-ijkl ")
    {| secret := lit "ABCDEFGHIJKL"; algorithm := Sha1; digits := 6; period := 30;
       issuer := None; account := None |} 59) as (code & H & Hl & _ & Hr & _).
  - vm_compute. reflexivity.
  - unfold in_u64, u64_max. lia.
  - exists code. split_and!; [vm_compute; reflexivity|unfold in_u64, u64_max; lia..|exact H|exact Hl|apply Hr|apply Hr].
Defined.
End Witnesses.
