(* ===== verification/Card.v ===== *)
(** * The Card item (crates/havenkeys-core/src/card.rs)

    Card numbers are text of digits; brands come from the first matching
    issuer prefix; the overview keeps the brand, the last four digits and the
    expiry only. *)

From S2P Require Import Prelude Errors Text Clean.

Definition MAX_CARDHOLDER_CHARS : nat := 256.
Definition MIN_NUMBER_DIGITS : Z := 8.
Definition MAX_NUMBER_DIGITS : Z := 19.
Definition MIN_VERIFICATION_DIGITS : Z := 3.
Definition MAX_VERIFICATION_DIGITS : Z := 8.
Definition MAX_CARD_NOTES_BYTES : Z := 64 * 1024.
Definition MIN_EXPIRY_YEAR : Z := 1970.
Definition MAX_EXPIRY_YEAR : Z := 2099.
Definition MIN_DIGITS_FOR_LAST4 : Z := 12.

Inductive CardBrand :=
| Visa | Mastercard | Amex | Elo | Hipercard | Diners | Discover | Jcb | Unionpay | Maestro
| BrandOther.

#[export] Instance CardBrand_eq_dec : EqDecision CardBrand.
Proof. solve_decision. Defined.

(** [CardBrand::id] and [CardBrand::display_name]. *)
Definition brand_id (b : CardBrand) : list Z :=
  lit match b with
      | Visa => "visa"
      | Mastercard => "mastercard"
      | Amex => "amex"
      | Elo => "elo"
      | Hipercard => "hipercard"
      | Diners => "diners"
      | Discover => "discover"
      | Jcb => "jcb"
      | Unionpay => "unionpay"
      | Maestro => "maestro"
      | BrandOther => "other"
      end.

Definition brand_display_name (b : CardBrand) : list Z :=
  lit match b with
      | Visa => "Visa"
      | Mastercard => "Mastercard"
      | Amex => "American Express"
      | Elo => "Elo"
      | Hipercard => "Hipercard"
      | Diners => "Diners Club"
      | Discover => "Discover"
      | Jcb => "JCB"
      | Unionpay => "UnionPay"
      | Maestro => "Maestro"
      | BrandOther => "Card"
      end.

(** ** Expiry *)

Record CardExpiry := { year : Z; month : Z }.

#[export] Instance CardExpiry_eq_dec : EqDecision CardExpiry.
Proof. solve_decision. Defined.

Definition bad_expiry : Error :=
  InvalidInput "expiry must be a month and a year from 1970 to 2099".

(** [CardExpiry::new]. *)
Definition expiry_new (y m : Z) : Result CardExpiry :=
  if negb (in_range MIN_EXPIRY_YEAR MAX_EXPIRY_YEAR y) || negb (in_range 1 12 m)
  then Err bad_expiry
  else Ok {| year := y; month := m |}.

Definition is_ascii_str (s : list Z) : bool := forallb is_ascii s.

(** [CardExpiry::parse].  The slices are taken after the ASCII check, where
    bytes and characters agree; [year] is a [u16] and [month] a [u8]. *)
Definition expiry_parse (text : list Z) : Result CardExpiry :=
  if negb (is_ascii_str text) || negb (length text =? 7)%nat
     || negb (nth 4 text 0 =? 45) || negb (all_digits (take 4 text ++ drop 5 text))
  then Err bad_expiry
  else
    y ← ok_or bad_expiry (parse_unsigned 65535 (take 4 text));
    m ← ok_or bad_expiry (parse_unsigned 255 (drop 5 text));
    expiry_new y m.

(** [CardExpiry::to_wire] and [CardExpiry::display]. *)
Definition expiry_to_wire (e : CardExpiry) : list Z :=
  pad_zeros 4 (to_decimal (year e)) ++ [45] ++ pad_zeros 2 (to_decimal (month e)).

Definition expiry_display (e : CardExpiry) : list Z :=
  pad_zeros 2 (to_decimal (month e)) ++ [47] ++ pad_zeros 4 (to_decimal (year e)).

(** ** Brands *)

Record IinRange := { iin_brand : CardBrand; lo : list Z; hi : list Z }.

Definition iin (b : CardBrand) (l h : string) : IinRange :=
  {| iin_brand := b; lo := lit l; hi := lit h |}.

Definition IIN_RANGES : list IinRange := [
  iin Elo "401178" "401179";
  iin Elo "431274" "431274";
  iin Elo "438935" "438935";
  iin Elo "451416" "451416";
  iin Elo "457393" "457393";
  iin Elo "457631" "457632";
  iin Elo "504175" "504175";
  iin Elo "506699" "506778";
  iin Elo "509000" "509999";
  iin Elo "627780" "627780";
  iin Elo "636297" "636297";
  iin Elo "636368" "636368";
  iin Elo "650031" "650033";
  iin Elo "650035" "650051";
  iin Elo "650057" "650081";
  iin Elo "650405" "650439";
  iin Elo "650485" "650538";
  iin Elo "650541" "650598";
  iin Elo "650700" "650718";
  iin Elo "650720" "650727";
  iin Elo "650901" "650978";
  iin Elo "651652" "651704";
  iin Elo "655000" "655019";
  iin Elo "655021" "655058";
  iin Hipercard "606282" "606282";
  iin Hipercard "384100" "384100";
  iin Hipercard "384140" "384140";
  iin Hipercard "384160" "384160";
  iin Hipercard "637095" "637095";
  iin Hipercard "637568" "637568";
  iin Hipercard "637599" "637599";
  iin Hipercard "637609" "637609";
  iin Hipercard "637612" "637612";
  iin Visa "4" "4";
  iin Mastercard "51" "55";
  iin Mastercard "2221" "2720";
  iin Amex "34" "34";
  iin Amex "37" "37";
  iin Diners "300" "305";
  iin Diners "3095" "3095";
  iin Diners "36" "36";
  iin Diners "38" "39";
  iin Discover "6011" "6011";
  iin Discover "644" "649";
  iin Discover "65" "65";
  iin Jcb "3528" "3589";
  iin Unionpay "62" "62";
  iin Unionpay "8100" "8171";
  iin Maestro "50" "50";
  iin Maestro "56" "58";
  iin Maestro "6304" "6304";
  iin Maestro "67" "67"
].

(** The closure of [detect_brand]'s [find]. *)
Definition in_iin (digits : list Z) (r : IinRange) : bool :=
  (length (lo r) <=? length digits)%nat
  && (let prefix := take (length (lo r)) digits in
      bool_decide (cmp_le (lo r) prefix) && bool_decide (cmp_le prefix (hi r))).

Definition detect_brand (digits : list Z) : option CardBrand :=
  if bool_decide (digits = []) || negb (all_digits digits) then None
  else iin_brand <$> List.find (in_iin digits) IIN_RANGES.

(** ** The Luhn check *)

(** One digit's part of the sum; [i] counts from the right. *)
Definition luhn_term (i : nat) (b : Z) : Z :=
  let d := b - 48 in
  if Nat.odd i then let x := d * 2 in if 9 <? x then x - 9 else x else d.

Definition luhn_sum (digits : list Z) : Z := foldr Z.add 0 (imap luhn_term (reverse digits)).

Definition check_digit_ok (digits : list Z) : bool :=
  if bool_decide (digits = []) || negb (all_digits digits) then false
  else luhn_sum digits mod 10 =? 0.

(** ** Fields *)

Definition card_clean_number (raw : list Z) : Result (list Z) :=
  let digits := filter (fun c => (negb (c =? 32) && negb (c =? 45)) = true) raw in
  if negb (in_range MIN_NUMBER_DIGITS MAX_NUMBER_DIGITS (str_len digits)) || negb (all_digits digits)
  then Err (InvalidInput "card number must be 8 to 19 digits")
  else Ok digits.

Definition clean_verification_number (raw : list Z) : Result (list Z) :=
  let v := trim raw in
  if negb (in_range MIN_VERIFICATION_DIGITS MAX_VERIFICATION_DIGITS (str_len v)) || negb (all_digits v)
  then Err (InvalidInput "verification number must be 3 to 8 digits")
  else Ok v.

Record CardFields := {
  cardholder_name : option (list Z);
  cf_brand : option CardBrand;
  number : option (list Z);
  verification_number : option (list Z);
  expiry : option CardExpiry;
  cf_notes : option (list Z);
}.

#[export] Instance CardFields_eq_dec : EqDecision CardFields.
Proof. solve_decision. Defined.

Inductive CardField := FCardholderName | FNumber | FVerificationNumber | FExpiry.

Definition is_blank (s : list Z) : bool := bool_decide (trim s = []).

(** The four [match]es of [CardFields::clean]. *)
Definition clean_holder (o : option (list Z)) : Result (option (list Z)) :=
  match o with
  | None => Ok None
  | Some n =>
      if is_blank n then Ok None
      else let t := trim n in
        if (MAX_CARDHOLDER_CHARS <? length t)%nat || existsb is_control t
        then Err (InvalidInput "cardholder name is too long or contains control characters")
        else Ok (Some t)
  end.

Definition clean_opt (f : list Z -> Result (list Z)) (o : option (list Z)) : Result (option (list Z)) :=
  match o with
  | None => Ok None
  | Some n => if is_blank n then Ok None else t ← f n; Ok (Some t)
  end.

Definition note_control (c : Z) : bool :=
  is_control c && negb ((c =? 10) || (c =? 9) || (c =? 13)).

Definition clean_card_notes (n : list Z) : Result (list Z) :=
  if MAX_CARD_NOTES_BYTES <? str_len n then Err (InvalidInput "notes are too long")
  else if existsb note_control n then Err (InvalidInput "notes contain control characters")
  else Ok n.

Definition card_clean (c : CardFields) : Result CardFields :=
  holder ← clean_holder (cardholder_name c);
  num ← clean_opt card_clean_number (number c);
  ver ← clean_opt clean_verification_number (verification_number c);
  notes ← clean_opt clean_card_notes (cf_notes c);
  Ok {| cardholder_name := holder; cf_brand := cf_brand c; number := num;
        verification_number := ver; expiry := expiry c; cf_notes := notes |}.

(** [CardFields::effective_brand]. *)
Definition effective_brand (c : CardFields) : CardBrand :=
  default BrandOther
    match cf_brand c with
    | Some b => Some b
    | None => number c ≫= detect_brand
    end.

Record CardSummary := {
  cs_brand : CardBrand;
  last4 : option (list Z);
  cs_expiry : option CardExpiry;
}.

#[export] Instance CardSummary_eq_dec : EqDecision CardSummary.
Proof. solve_decision. Defined.

(** [CardFields::summary]; a stored number is ASCII digits, so the byte
    slice is a slice of characters. *)
Definition card_summary (c : CardFields) : CardSummary :=
  {| cs_brand := effective_brand c;
     last4 := match number c with
              | Some n =>
                  if MIN_DIGITS_FOR_LAST4 <=? str_len n
                  then Some (drop (length n - 4) n) else None
              | None => None
              end;
     cs_expiry := expiry c |}.

(** [CardFields::value]. *)
Definition card_value (c : CardFields) (f : CardField) : option (list Z) :=
  match f with
  | FCardholderName => cardholder_name c
  | FNumber => number c
  | FVerificationNumber => verification_number c
  | FExpiry => expiry_display <$> expiry c
  end.

Record CardInput := {
  ci_cardholder_name : option (list Z);
  ci_brand : option CardBrand;
  ci_number : SecretUpdate;
  ci_verification_number : SecretUpdate;
  ci_expiry : option CardExpiry;
  ci_notes : option (list Z);
}.

(** ** Lemmas *)

Lemma all_digits_is_digits s : all_digits s = true <-> is_digits s.
Proof. apply all_digits_Forall. Qed.

Lemma str_len_digits s : is_digits s -> str_len s = len s.
Proof.
  intros Hs. unfold str_len. rewrite utf8_ascii; [done|]. eapply Forall_impl; [exact Hs|]. simpl. lia.
Qed.

Lemma digits_not_ws s : is_digits s -> no_ws s.
Proof.
  intros Hs. eapply Forall_impl; [exact Hs|]. intros c Hc. cbn beta in Hc.
  assert (c = 48 \/ c = 49 \/ c = 50 \/ c = 51 \/ c = 52 \/ c = 53 \/ c = 54 \/ c = 55 \/ c = 56 \/ c = 57)
    as Hcs by lia.
  by destruct Hcs as [->|[->|[->|[->|[->|[->|[->|[->|[->| ->]]]]]]]]].
Qed.

Lemma in_range_len lo hi s : in_range lo hi (str_len s) = true -> lo <= str_len s.
Proof. intros H%in_range_true. lia. Qed.

Lemma card_clean_number_ok raw n :
  card_clean_number raw = Ok n ->
  is_digits n /\ 8 <= len n <= 19 /\ card_clean_number n = Ok n /\ is_blank n = false.
Proof.
  unfold card_clean_number. cbv zeta.
  set (d := filter _ raw). destruct (in_range _ _ (str_len d)) eqn:Er; cbn [negb orb]; [|done].
  destruct (all_digits d) eqn:Ed; cbn [negb]; [|done]. intros [= <-].
  pose proof (proj1 (all_digits_is_digits _) Ed) as Hd.
  assert (filter (fun c => (negb (c =? 32) && negb (c =? 45)) = true) d = d) as ->.
  { subst d. clear. induction raw as [|c raw IH]; [done|].
    rewrite filter_cons. case_decide; [|done]. by rewrite filter_cons, decide_True, IH. }
  rewrite Er, Ed. apply in_range_true in Er. rewrite str_len_digits in Er by done.
  unfold MIN_NUMBER_DIGITS, MAX_NUMBER_DIGITS in Er. split_and!; [done|lia..|done|].
  unfold is_blank. rewrite trim_no_ws by (by apply digits_not_ws).
  apply bool_decide_eq_false. intros E. rewrite E in Er. simpl in Er. lia.
Qed.

Lemma clean_verification_ok raw v :
  clean_verification_number raw = Ok v ->
  is_digits v /\ 3 <= len v <= 8 /\ clean_verification_number v = Ok v /\ is_blank v = false.
Proof.
  unfold clean_verification_number. cbv zeta.
  destruct (in_range _ _ (str_len (trim raw))) eqn:Er; cbn [negb orb]; [|done].
  destruct (all_digits (trim raw)) eqn:Ed; cbn [negb]; [|done]. intros [= <-].
  pose proof (proj1 (all_digits_is_digits _) Ed) as Hd.
  rewrite trim_idem, Er, Ed. apply in_range_true in Er. rewrite str_len_digits in Er by done.
  unfold MIN_VERIFICATION_DIGITS, MAX_VERIFICATION_DIGITS in Er. split_and!; [done|lia..|done|].
  unfold is_blank. rewrite trim_idem. apply bool_decide_eq_false. intros E. rewrite E in Er. simpl in Er. lia.
Qed.

Lemma clean_card_notes_ok n m : clean_card_notes n = Ok m -> m = n.
Proof. unfold clean_card_notes. repeat case_match; congruence. Qed.

(** A cleaning that leaves a cleaned, non-blank value alone lifts to optional
    values. *)
Lemma clean_opt_idem f o o' :
  (forall x y, is_blank x = false -> f x = Ok y -> f y = Ok y /\ is_blank y = false) ->
  clean_opt f o = Ok o' -> clean_opt f o' = Ok o'.
Proof.
  intros Hf. destruct o as [n|]; cbn [clean_opt]; [|by intros [= <-]].
  destruct (is_blank n) eqn:Eb; [by intros [= <-]|].
  destruct (f n) as [t|] eqn:Ef; [|done]. cbn [mbind result_bind]. intros [= <-].
  destruct (Hf _ _ Eb Ef) as [H1 H2]. cbn [clean_opt]. rewrite H2, H1. done.
Qed.

Lemma clean_holder_idem o o' : clean_holder o = Ok o' -> clean_holder o' = Ok o'.
Proof.
  destruct o as [n|]; cbn [clean_holder]; [|by intros [= <-]].
  destruct (is_blank n) eqn:Eb; [by intros [= <-]|].
  destruct (_ || _) eqn:Eg; [done|]. intros [= <-]. cbn [clean_holder].
  unfold is_blank in *. rewrite trim_idem, Eb, Eg. done.
Qed.

Lemma imap_sum_app (f : nat -> Z -> Z) l k :
  foldr Z.add 0 (imap f (l ++ k)) =
    foldr Z.add 0 (imap f l) + foldr Z.add 0 (imap (fun i => f (length l + i)%nat) k).
Proof.
  rewrite imap_app. induction (imap f l) as [|x r IH]; cbn [foldr app]; [|rewrite IH]; unfold compose; lia.
Qed.

(** The sum's dependence on one digit. *)
Lemma luhn_sum_at (a b : list Z) :
  exists r, forall y, luhn_sum (a ++ y :: b) = r + luhn_term (length b) y.
Proof.
  exists (foldr Z.add 0 (imap luhn_term (reverse b)) +
    foldr Z.add 0 (imap (fun i => luhn_term (length (reverse b) + S i)) (reverse a))).
  intros y. unfold luhn_sum. rewrite reverse_app, reverse_cons, <- app_assoc.
  rewrite imap_sum_app. cbn [app imap foldr]. unfold compose.
  rewrite Nat.add_0_r, length_reverse. lia.
Qed.

Lemma luhn_term_inj i x y :
  48 <= x <= 57 -> 48 <= y <= 57 -> luhn_term i x mod 10 = luhn_term i y mod 10 -> x = y.
Proof.
  intros Hx Hy. unfold luhn_term. cbv zeta. destruct (Nat.odd i).
  - destruct (Z.ltb_spec 9 ((x - 48) * 2)), (Z.ltb_spec 9 ((y - 48) * 2));
      rewrite !Z.mod_small by lia; lia.
  - rewrite !Z.mod_small by lia. lia.
Qed.

Lemma take_prefix_app {A} n (p s : list A) : (n <= length p)%nat -> take n (p ++ s) = take n p.
Proof. intros Hn. by rewrite take_app_le. Qed.

Lemma iin_short : Forall (fun r => (length (lo r) <= 6)%nat) IIN_RANGES.
Proof. apply (bool_decide_unpack _). vm_compute. done. Qed.

Lemma in_iin_extend p s r :
  (6 <= length p)%nat -> (length (lo r) <= 6)%nat -> in_iin (p ++ s) r = in_iin p r.
Proof.
  intros Hp Hr. unfold in_iin. rewrite take_prefix_app by lia. rewrite length_app.
  destruct (Nat.leb_spec (length (lo r)) (length p + length s)), (Nat.leb_spec (length (lo r)) (length p)); lia || done.
Qed.

Lemma find_ext {A} (f g : A -> bool) l :
  Forall (fun x => f x = g x) l -> List.find f l = List.find g l.
Proof. induction 1 as [|x l Hx _ IH]; [done|]. cbn. by rewrite Hx, IH. Qed.

Lemma in_app_digits_ne p s : is_digits (p ++ s) -> p <> [] -> all_digits p = true /\ all_digits (p ++ s) = true.
Proof.
  intros H Hne. split; apply all_digits_is_digits; [|done]. by apply Forall_app in H as [? _].
Qed.

Lemma digits_ascii s : is_digits s -> forallb is_ascii s = true.
Proof.
  induction 1 as [|c s Hc _ IH]; [done|]. cbn [forallb]. rewrite IH.
  unfold is_ascii. destruct (Z.ltb_spec c 128); [done|lia].
Qed.

Lemma expiry_parse_ok t e :
  expiry_parse t = Ok e ->
  t = expiry_to_wire e /\ 1970 <= year e <= 2099 /\ 1 <= month e <= 12.
Proof.
  unfold expiry_parse. destruct (is_ascii_str t); [|done].
  destruct (Nat.eqb_spec (length t) 7) as [Hl|]; [|done].
  destruct (Z.eqb_spec (nth 4 t 0) 45) as [H4|]; [|done].
  destruct (all_digits (take 4 t ++ drop 5 t)) eqn:Ed; [|done]. cbn [negb orb].
  apply all_digits_is_digits, Forall_app in Ed as [Hy Hm].
  assert (length (take 4 t) = 4%nat) as Ly by (rewrite length_take; lia).
  assert (length (drop 5 t) = 2%nat) as Lm by (rewrite length_drop; lia).
  pose proof (digits_val_bound _ Hy) as By. pose proof (digits_val_bound _ Hm) as Bm.
  rewrite Ly in By. rewrite Lm in Bm. cbn in By, Bm.
  rewrite (parse_unsigned_digits _ (take 4 t)); [|done|by intros E; rewrite E in Ly|lia].
  rewrite (parse_unsigned_digits _ (drop 5 t)); [|done|by intros E; rewrite E in Lm|lia].
  cbn [ok_or mbind result_bind]. unfold expiry_new.
  destruct (in_range _ _ _) eqn:Ey; [|done]. cbn [negb orb].
  destruct (in_range 1 12 _) eqn:Em; [|done]. cbn [negb]. intros [= <-].
  apply in_range_true in Ey, Em. unfold MIN_EXPIRY_YEAR, MAX_EXPIRY_YEAR in Ey.
  split_and!; cbn [year month]; try lia.
  unfold expiry_to_wire. cbn [year month]. rewrite !pad_digits_val by (done || lia).
  rewrite <- (take_drop_middle t 4 45) at 1; [done|].
  rewrite <- H4. destruct (nth_lookup_or_length t 4 0); [done|lia].
Qed.

Lemma expiry_parse_wire e :
  1970 <= year e <= 2099 -> 1 <= month e <= 12 -> expiry_parse (expiry_to_wire e) = Ok e.
Proof.
  intros Hy Hm. unfold expiry_to_wire.
  destruct (pad_decimal_spec 4 (year e)) as (D1 & L1 & V1); [cbn; lia|lia|].
  destruct (pad_decimal_spec 2 (month e)) as (D2 & L2 & V2); [cbn; lia|lia|].
  set (a := pad_zeros 4 _) in *. set (b := pad_zeros 2 _) in *.
  unfold expiry_parse.
  replace (is_ascii_str (a ++ [45] ++ b)) with true; [cbn [negb orb]|].
  2: { symmetry. unfold is_ascii_str. rewrite !forallb_app. cbn [forallb andb].
    by rewrite !digits_ascii. }
  rewrite !length_app, L1, L2. cbn [length Nat.add Nat.eqb negb orb].
  rewrite app_nth2, L1 by lia. cbn [Nat.sub nth app Z.eqb Pos.eqb negb orb].
  assert (take 4 (a ++ 45 :: b) = a) as -> by (by apply take_app_length').
  assert (drop 5 (a ++ 45 :: b) = b) as ->.
  { rewrite drop_app_ge by lia. by rewrite L1. }
  rewrite (proj2 (all_digits_is_digits (a ++ b))) by (by apply Forall_app). cbn [negb].
  rewrite (parse_unsigned_digits _ a); [|done|by intros E; rewrite E in L1|lia].
  rewrite (parse_unsigned_digits _ b); [|done|by intros E; rewrite E in L2|lia].
  cbn [ok_or mbind result_bind]. rewrite V1, V2. unfold expiry_new.
  rewrite !(proj2 (in_range_true _ _ _)) by (unfold MIN_EXPIRY_YEAR, MAX_EXPIRY_YEAR; lia).
  cbn [negb orb]. by destruct e.
Qed.

(** ** Properties *)

(** An expiry's text is its wire form and nothing else: [parse] accepts
    exactly [to_wire] of the months of 1970 to 2099. *)
Lemma expiry_parse_to_wire t e :
  expiry_parse t = Ok e <->
  t = expiry_to_wire e /\ 1970 <= year e <= 2099 /\ 1 <= month e <= 12.
Proof.
  split; [apply expiry_parse_ok|]. intros (-> & Hy & Hm). by apply expiry_parse_wire.
Qed.

(** The check digit catches any single mistyped digit. *)
Lemma luhn_detects_single_error (a : list Z) (x y : Z) (b : list Z) :
  48 <= y <= 57 -> x <> y ->
  check_digit_ok (a ++ x :: b) = true -> check_digit_ok (a ++ y :: b) = false.
Proof.
  intros Hy Hne. unfold check_digit_ok.
  destruct (bool_decide (a ++ x :: b = [])); [done|].
  destruct (all_digits (a ++ x :: b)) eqn:Ed; [|done]. cbn [negb orb].
  apply all_digits_is_digits, Forall_app in Ed as [_ Hx]. inversion Hx as [|?? Hx' _]; subst.
  destruct (_ || _); [done|]. destruct (luhn_sum_at a b) as [r Hr]. rewrite !Hr.
  intros H1%Z.eqb_eq. apply Z.eqb_neq. intros H2. apply Hne.
  apply (luhn_term_inj (length b)); [done..|].
  rewrite Z.add_mod in H1, H2 by lia.
  pose proof (Z.mod_pos_bound r 10). pose proof (Z.mod_pos_bound (luhn_term (length b) x) 10).
  pose proof (Z.mod_pos_bound (luhn_term (length b) y) 10).
  apply Z.mod_divide in H1 as [k1 H1]; [|lia]. apply Z.mod_divide in H2 as [k2 H2]; [|lia]. lia.
Qed.

(** The brand is settled by the first six digits: typing on never
    changes it. *)
Lemma detect_brand_stable (p s : list Z) :
  (6 <= length p)%nat -> is_digits (p ++ s) -> detect_brand (p ++ s) = detect_brand p.
Proof.
  intros Hl Hd. assert (p <> []) as Hne by (by intros ->; simpl in Hl; lia).
  destruct (in_app_digits_ne p s Hd Hne) as [H1 H2]. unfold detect_brand. rewrite H1, H2.
  rewrite !bool_decide_eq_false_2; [|done|by destruct p]. cbn [negb orb]. f_equal.
  apply find_ext. eapply Forall_impl; [apply iin_short|]. intros r Hr. by apply in_iin_extend.
Qed.

(** What [clean] returns is clean (cleaning again changes nothing), its
    number has 8 to 19 digits, and the overview shows four of them only when
    at least eight stay hidden. *)
Lemma card_clean_normal c c' :
  card_clean c = Ok c' ->
  card_clean c' = Ok c' /\
  (forall n, number c' = Some n -> is_digits n /\ 8 <= len n <= 19) /\
  (forall l4, last4 (card_summary c') = Some l4 ->
     exists hidden, number c' = Some (hidden ++ l4) /\ length l4 = 4%nat /\ (8 <= length hidden)%nat).
Proof.
  unfold card_clean. destruct (clean_holder _) as [h|] eqn:E1; [|done]. cbn [mbind result_bind].
  destruct (clean_opt card_clean_number _) as [n|] eqn:E2; [|done]. cbn [mbind result_bind].
  destruct (clean_opt clean_verification_number _) as [v|] eqn:E3; [|done]. cbn [mbind result_bind].
  destruct (clean_opt clean_card_notes _) as [o|] eqn:E4; [|done]. cbn [mbind result_bind].
  intros [= <-]. cbn [cardholder_name number verification_number cf_notes cf_brand expiry].
  assert (Hn : forall x, n = Some x -> is_digits x /\ 8 <= len x <= 19).
  { intros x ->. destruct (number c) as [raw|]; cbn in E2; [|done].
    destruct (is_blank raw); [done|]. destruct (card_clean_number raw) eqn:E; [|done].
    injection E2 as <-. apply card_clean_number_ok in E. tauto. }
  split_and!.
  - rewrite (clean_holder_idem _ _ E1). cbn [mbind result_bind].
    rewrite (clean_opt_idem _ _ _ (fun x y _ H => proj2 (proj2 (card_clean_number_ok x y H))) E2).
    cbn [mbind result_bind].
    rewrite (clean_opt_idem _ _ _ (fun x y _ H => proj2 (proj2 (clean_verification_ok x y H))) E3).
    cbn [mbind result_bind]. erewrite (clean_opt_idem clean_card_notes); [done| |exact E4].
    intros x y Hb H. apply clean_card_notes_ok in H as Hxy. by subst y.
  - apply Hn.
  - intros l4. unfold card_summary. cbn [last4 number]. destruct n as [x|]; [|done].
    destruct (Hn x eq_refl) as [Hd Hl]. rewrite str_len_digits by done. unfold MIN_DIGITS_FOR_LAST4.
    destruct (Z.leb_spec 12 (len x)); [|done]. intros [= <-].
    exists (take (length x - 4) x). rewrite take_drop, length_drop, length_take. split_and!; [done|lia..].
Qed.

Lemma luhn_detects_single_error_witness :
  check_digit_ok (lit "4111" ++ 49 :: lit "11111111111") = true /\
  check_digit_ok (lit "4111" ++ 57 :: lit "11111111111") = false.
Proof.
  split; [vm_compute; reflexivity|].
  apply (luhn_detects_single_error (lit "4111") 49 57 (lit "11111111111")); [lia|lia|vm_compute; reflexivity].
Defined.

Lemma detect_brand_stable_witness :
  detect_brand (lit "401178" ++ lit "0000") = detect_brand (lit "401178")
  /\ detect_brand (lit "401178") = Some Elo.
Proof.
  split; [|vm_compute; reflexivity].
  apply detect_brand_stable; [vm_compute; lia|]. apply all_digits_Forall. vm_compute. reflexivity.
Defined.

Lemma card_clean_normal_witness :
  exists c, card_clean {| cardholder_name := Some (lit " A B "); cf_brand := None;
      number := Some (lit "4111 1111 1111 1111"); verification_number := Some (lit " 123 ");
      expiry := None; cf_notes := None |} = Ok c /\ card_clean c = Ok c.
Proof.
  eexists. split; [vm_compute; reflexivity|].
  eapply (card_clean_normal {| cardholder_name := Some (lit " A B "); cf_brand := None;
      number := Some (lit "4111 1111 1111 1111"); verification_number := Some (lit " 123 ");
      expiry := None; cf_notes := None |}). vm_compute; reflexivity.
Defined.
