(* ===== verification/Identity.v ===== *)
(** * The Identity item (crates/havenkeys-core/src/identity.rs)

    The person's values, their cleaning, the calendar used for birth dates,
    and what a form field of each role receives. *)

From S2P Require Import Prelude Errors Text Url Clean.

Definition MAX_NAME_CHARS : nat := 256.
Definition MAX_DOCUMENT_CHARS : nat := 64.
Definition MAX_EMAIL_CHARS : nat := 512.
Definition MAX_PHONE_CHARS : nat := 32.
Definition MAX_SHORT_CHARS : nat := 32.
Definition MAX_CUSTOM_FIELDS : nat := 50.
Definition MAX_CUSTOM_LABEL_CHARS : nat := 128.
Definition MAX_CUSTOM_VALUE_CHARS : nat := 4096.
Definition MAX_IDENTITY_NOTES_BYTES : Z := 64 * 1024.
Definition MAX_WEBSITE_LEN : nat := 2048.
Definition MIN_BIRTH_YEAR : Z := 1850.

Record IdCustomField := { idc_label : list Z; idc_value : list Z; idc_hidden : bool }.

Record IdentityFields := {
  first_name : option (list Z);
  middle_name : option (list Z);
  last_name : option (list Z);
  gender : option (list Z);
  birth_date : option (list Z);
  occupation : option (list Z);
  company : option (list Z);
  job_title : option (list Z);
  cpf : option (list Z);
  rg : option (list Z);
  passport : option (list Z);
  drivers_license : option (list Z);
  id_email : option (list Z);
  mobile_phone : option (list Z);
  home_phone : option (list Z);
  work_phone : option (list Z);
  street : option (list Z);
  addr_number : option (list Z);
  complement : option (list Z);
  neighborhood : option (list Z);
  city : option (list Z);
  state : option (list Z);
  postal_code : option (list Z);
  country : option (list Z);
  id_username : option (list Z);
  website : option (list Z);
  custom : list IdCustomField;
  id_notes : option (list Z);
}.

#[export] Instance IdCustomField_eq_dec : EqDecision IdCustomField.
Proof. solve_decision. Defined.
#[export] Instance IdentityFields_eq_dec : EqDecision IdentityFields.
Proof. solve_decision. Defined.

Inductive IdentityField :=
| IFirstName | IMiddleName | ILastName | IGender | IBirthDate | IOccupation | ICompany | IJobTitle
| ICpf | IRg | IPassport | IDriversLicense | IEmail | IMobilePhone | IHomePhone | IWorkPhone
| IStreet | INumber | IComplement | INeighborhood | ICity | IState | IPostalCode | ICountry
| IUsername | IWebsite | INotes | IAddress.

Inductive FillRole :=
| RFullName | RFirstName | RMiddleName | RLastName | REmail | RPhone | RBirthDate | RBirthDay
| RBirthMonth | RBirthYear | RCompany | RStreet | RNumber | RComplement | RAddressLine1
| RAddressLine2 | RNeighborhood | RCity | RState | RPostalCode | RCountry | RUsername
| RCpf | RRg | RPassport | RDriversLicense.

#[export] Instance FillRole_eq_dec : EqDecision FillRole.
Proof. solve_decision. Defined.

Definition ALL_ROLES : list FillRole :=
  [RFullName; RFirstName; RMiddleName; RLastName; REmail; RPhone; RBirthDate; RBirthDay;
   RBirthMonth; RBirthYear; RCompany; RStreet; RNumber; RComplement; RAddressLine1;
   RAddressLine2; RNeighborhood; RCity; RState; RPostalCode; RCountry; RUsername;
   RCpf; RRg; RPassport; RDriversLicense].

Definition is_document (r : FillRole) : bool :=
  match r with RCpf | RRg | RPassport | RDriversLicense => true | _ => false end.

(** ** The calendar *)

(** [i64::div_euclid] by a positive divisor is the flooring division. *)
Definition days_from_civil (y m d : Z) : Z :=
  let y := if m <=? 2 then y - 1 else y in
  let era := y / 400 in
  let yoe := y - era * 400 in
  let mp := (m + 9) mod 12 in
  let doy := (153 * mp + 2) / 5 + d - 1 in
  let doe := yoe * 365 + yoe / 4 - yoe / 100 + doy in
  era * 146097 + doe - 719468.

Definition days_in_month (y m : Z) : Z :=
  if existsb (Z.eqb m) [1; 3; 5; 7; 8; 10; 12] then 31
  else if existsb (Z.eqb m) [4; 6; 9; 11] then 30
  else if ((y mod 4 =? 0) && negb (y mod 100 =? 0)) || (y mod 400 =? 0) then 29
  else 28.

(** One slice of [parse_ymd]; its range lies on character boundaries because
    the bytes around it are the dashes just checked. *)
Definition ymd_num (bytes : list Z) (from to : nat) : option Z :=
  let part := drop from (take to bytes) in
  if negb (all_digits part) then None else parse_unsigned i64_max part.

Definition parse_ymd (value : list Z) : option (Z * Z * Z) :=
  let bytes := utf8 value in
  if negb (length bytes =? 10)%nat || negb (nth 4 bytes 0 =? 45) || negb (nth 7 bytes 0 =? 45)
  then None
  else
    y ← ymd_num bytes 0 4;
    m ← ymd_num bytes 5 7;
    d ← ymd_num bytes 8 10;
    if (y <? 1) || negb (in_range 1 12 m) || (d <? 1) || (days_in_month y m <? d)
    then None
    else Some (y, m, d).

Definition bad_birth_date : Error := InvalidInput "birth date must be a past date as YYYY-MM-DD".

Definition check_birth_date (value : list Z) (now_ms : Z) : Result () :=
  '(y, m, d) ← ok_or bad_birth_date (parse_ymd value);
  if (y <? MIN_BIRTH_YEAR) || (now_ms / 86400000 <? days_from_civil y m d)
  then Err bad_birth_date
  else Ok ().

(** ** Cleaning *)

Fixpoint clean_customs (l : list IdCustomField) : Result (list IdCustomField) :=
  match l with
  | [] => Ok []
  | f :: l =>
      v ← clean_value (Some (idc_value f)) MAX_CUSTOM_VALUE_CHARS TextLines
            "custom field value is too long or contains control characters";
      match v with
      | None => clean_customs l
      | Some v =>
          lb ← clean_value (Some (idc_label f)) MAX_CUSTOM_LABEL_CHARS Line
                 "custom field label is too long or contains control characters";
          lb ← ok_or (InvalidInput "a custom field needs a label") lb;
          rest ← clean_customs l;
          Ok ({| idc_label := lb; idc_value := v; idc_hidden := idc_hidden f |} :: rest)
      end
  end.

Section Identity.
Context `{UL : UrlLib} `{U : Unicode}.

Definition id_clean_website (w : option (list Z)) : Result (option (list Z)) :=
  w ← clean_value w MAX_WEBSITE_LEN Line "invalid website address";
  match w with
  | Some w => u ← normalize_url w; Ok (Some u)
  | None => Ok None
  end.

Definition id_clean_notes (o : option (list Z)) : Result (option (list Z)) :=
  match o with
  | Some n =>
      if bool_decide (trim n = []) then Ok None
      else if MAX_IDENTITY_NOTES_BYTES <? str_len n then Err (InvalidInput "notes are too long")
      else Ok (Some n)
  | None => Ok None
  end.

(** [IdentityFields::clean]. *)
Definition id_clean (i : IdentityFields) (now_ms : Z) : Result IdentityFields :=
  let name v what := clean_value v MAX_NAME_CHARS Line what in
  let doc v what := clean_value v MAX_DOCUMENT_CHARS Line what in
  let phone v what := clean_value v MAX_PHONE_CHARS PhoneChars what in
  let short v what := clean_value v MAX_SHORT_CHARS Line what in
  birth_date ← clean_value (birth_date i) 10 Line "invalid birth date";
  _ ← match birth_date with Some b => check_birth_date b now_ms | None => Ok () end;
  website ← id_clean_website (website i);
  notes ← id_clean_notes (id_notes i);
  _ ← guard_err (MAX_CUSTOM_FIELDS <? length (custom i))%nat (InvalidInput "too many custom fields");
  custom ← clean_customs (custom i);
  first_name ← name (first_name i) "first name is invalid";
  middle_name ← name (middle_name i) "middle name is invalid";
  last_name ← name (last_name i) "last name is invalid";
  gender ← name (gender i) "gender is invalid";
  occupation ← name (occupation i) "occupation is invalid";
  company ← name (company i) "company is invalid";
  job_title ← name (job_title i) "job title is invalid";
  cpf ← doc (cpf i) "CPF is invalid";
  rg ← doc (rg i) "RG is invalid";
  passport ← doc (passport i) "passport number is invalid";
  drivers_license ← doc (drivers_license i) "driver's license is invalid";
  email ← clean_value (id_email i) MAX_EMAIL_CHARS Line "email is invalid";
  mobile_phone ← phone (mobile_phone i) "mobile phone is invalid";
  home_phone ← phone (home_phone i) "home phone is invalid";
  work_phone ← phone (work_phone i) "work phone is invalid";
  street ← name (street i) "street is invalid";
  number ← short (addr_number i) "address number is invalid";
  complement ← name (complement i) "address complement is invalid";
  neighborhood ← name (neighborhood i) "neighborhood is invalid";
  city ← name (city i) "city is invalid";
  state ← name (state i) "state is invalid";
  postal_code ← short (postal_code i) "postal code is invalid";
  country ← name (country i) "country is invalid";
  username ← clean_value (id_username i) MAX_EMAIL_CHARS Line "username is invalid";
  Ok {| first_name := first_name; middle_name := middle_name; last_name := last_name;
        gender := gender; birth_date := birth_date; occupation := occupation;
        company := company; job_title := job_title; cpf := cpf; rg := rg;
        passport := passport; drivers_license := drivers_license; id_email := email;
        mobile_phone := mobile_phone; home_phone := home_phone; work_phone := work_phone;
        street := street; addr_number := number; complement := complement;
        neighborhood := neighborhood; city := city; state := state;
        postal_code := postal_code; country := country; id_username := username;
        website := website; custom := custom; id_notes := notes |}.

(** ** Reading *)

Definition somes {A} (l : list (option A)) : list A := omap id l.

Definition display_name (i : IdentityFields) : list Z :=
  join [32] (filter (.≠ []) (map trim (somes [first_name i; middle_name i; last_name i]))).

(** [str::split('-')]. *)
Fixpoint split_on (sep : Z) (s : list Z) : list (list Z) :=
  match s with
  | [] => [[]]
  | c :: s =>
      if c =? sep then [] :: split_on sep s
      else match split_on sep s with
           | [] => [[c]]
           | w :: ws => (c :: w) :: ws
           end
  end.

Fixpoint trim_zeros (s : list Z) : list Z :=
  match s with c :: s' => if c =? 48 then trim_zeros s' else s | [] => [] end.

Definition date_part (i : IdentityFields) (n : nat) : option (list Z) :=
  d ← birth_date i;
  part ← split_on 45 d !! n;
  Some (match n with O => part | _ => trim_zeros part end).

Definition or_else {A} (a b : option A) : option A :=
  match a with Some _ => a | None => b end.

Definition fill_value (i : IdentityFields) (r : FillRole) : option (list Z) :=
  match r with
  | RFullName => let n := display_name i in if bool_decide (n = []) then None else Some n
  | RFirstName => first_name i
  | RMiddleName => middle_name i
  | RLastName => last_name i
  | REmail => id_email i
  | RPhone => or_else (or_else (mobile_phone i) (home_phone i)) (work_phone i)
  | RBirthDate => birth_date i
  | RBirthDay => date_part i 2
  | RBirthMonth => date_part i 1
  | RBirthYear => date_part i 0
  | RCompany => company i
  | RStreet => street i
  | RNumber => addr_number i
  | RComplement | RAddressLine2 => complement i
  | RAddressLine1 =>
      match street i, addr_number i with
      | Some s, Some n => Some (s ++ lit ", " ++ n)
      | s, n => or_else s n
      end
  | RNeighborhood => neighborhood i
  | RCity => city i
  | RState => state i
  | RPostalCode => postal_code i
  | RCountry => country i
  | RUsername => id_username i
  | RCpf => cpf i
  | RRg => rg i
  | RPassport => passport i
  | RDriversLicense => drivers_license i
  end.

Definition filled_field_names (i : IdentityFields) : list string :=
  map fst (List.filter (fun nv : string * option (list Z) =>
                          match nv.2 with Some v => negb (bool_decide (v = [])) | None => false end)
    [("first_name", first_name i); ("middle_name", middle_name i); ("last_name", last_name i);
     ("gender", gender i); ("birth_date", birth_date i); ("occupation", occupation i);
     ("company", company i); ("job_title", job_title i); ("cpf", cpf i); ("rg", rg i);
     ("passport", passport i); ("drivers_license", drivers_license i); ("email", id_email i);
     ("mobile_phone", mobile_phone i); ("home_phone", home_phone i); ("work_phone", work_phone i);
     ("street", street i); ("number", addr_number i); ("complement", complement i);
     ("neighborhood", neighborhood i); ("city", city i); ("state", state i);
     ("postal_code", postal_code i); ("country", country i); ("username", id_username i);
     ("website", website i); ("notes", id_notes i)])%string.

(** The [join] closure of [formatted_address]. *)
Definition join_parts (parts : list (option (list Z))) (sep : list Z) : option (list Z) :=
  let kept := somes parts in
  if bool_decide (kept = []) then None else Some (join sep kept).

Definition dash_sep : list Z := [32; 8211; 32].

Definition formatted_address (i : IdentityFields) : option (list Z) :=
  let brazil :=
    match country i with
    | Some c =>
        let c := to_lowercase (trim c) in
        bool_decide (c = lit "brazil") || bool_decide (c = lit "brasil") || bool_decide (c = lit "br")
    | None => false
    end in
  let lines :=
    if brazil then
      [join_parts [join_parts [street i; addr_number i] (lit ", "); complement i] dash_sep;
       neighborhood i;
       join_parts [city i; state i] dash_sep;
       (fun p => lit "CEP " ++ p) <$> postal_code i;
       country i]
    else
      [join_parts [join_parts [street i; addr_number i] (lit " "); complement i] (lit ", ");
       neighborhood i;
       join_parts [join_parts [city i; state i] (lit ", "); postal_code i] (lit " ");
       country i] in
  join_parts lines [10].

(** [IdentityFields::value]. *)
Definition id_value (i : IdentityFields) (f : IdentityField) : option (list Z) :=
  match f with
  | IFirstName => first_name i
  | IMiddleName => middle_name i
  | ILastName => last_name i
  | IGender => gender i
  | IBirthDate => birth_date i
  | IOccupation => occupation i
  | ICompany => company i
  | IJobTitle => job_title i
  | ICpf => cpf i
  | IRg => rg i
  | IPassport => passport i
  | IDriversLicense => drivers_license i
  | IEmail => id_email i
  | IMobilePhone => mobile_phone i
  | IHomePhone => home_phone i
  | IWorkPhone => work_phone i
  | IStreet => street i
  | INumber => addr_number i
  | IComplement => complement i
  | INeighborhood => neighborhood i
  | ICity => city i
  | IState => state i
  | IPostalCode => postal_code i
  | ICountry => country i
  | IUsername => id_username i
  | IWebsite => website i
  | INotes => id_notes i
  | IAddress => formatted_address i
  end.
End Identity.

(** ** Lemmas *)

Section Lemmas.
Context `{UL : UrlLib}.

Lemma clean_customs_ok l l' :
  clean_customs l = Ok l' -> clean_customs l' = Ok l' /\ (length l' <= length l)%nat.
Proof.
  revert l'. induction l as [|f l IH]; intros l'; cbn [clean_customs]; [by intros [= <-]|].
  intros ([v|] & Hv & H)%bind_Ok.
  - apply bind_Ok in H as (lb & Hl & H). apply bind_Ok in H as (lb' & Hlb & H).
    apply bind_Ok in H as (rest & Hr & H). apply (inj Ok) in H as <-.
    destruct lb as [lb|]; [|done]. apply (inj Ok) in Hlb as <-.
    destruct (IH _ Hr) as [IH1 IH2]. cbn [clean_customs idc_value idc_label idc_hidden].
    rewrite (clean_value_idem _ _ _ _ _ Hv). cbn [mbind result_bind].
    rewrite (clean_value_idem _ _ _ _ _ Hl). cbn [mbind result_bind ok_or]. rewrite IH1.
    split; [done|]. cbn [length]. lia.
  - destruct (IH _ H). split; [done|]. cbn [length]. lia.
Qed.

Lemma check_birth_date_later b now now' :
  now <= now' -> check_birth_date b now = Ok () -> check_birth_date b now' = Ok ().
Proof.
  unfold check_birth_date. intros Hn. destruct (parse_ymd b) as [[[y m] d]|]; [|done]. cbn.
  destruct (y <? MIN_BIRTH_YEAR); [done|]. cbn [orb].
  pose proof (Z.div_le_mono now now' 86400000).
  destruct (Z.ltb_spec (now / 86400000) (days_from_civil y m d)); [done|].
  destruct (Z.ltb_spec (now' / 86400000) (days_from_civil y m d)); [lia|done].
Qed.

Lemma id_clean_notes_idem o o' : id_clean_notes o = Ok o' -> id_clean_notes o' = Ok o'.
Proof.
  unfold id_clean_notes. destruct o as [n|]; [|by intros [= <-]].
  destruct (bool_decide (trim n = [])) eqn:E1; [by intros [= <-]|].
  destruct (_ <? _) eqn:E2; [done|]. intros [= <-]. by rewrite E1, E2.
Qed.

Lemma id_clean_website_idem `{!UrlLaws UL} w w' : id_clean_website w = Ok w' -> id_clean_website w' = Ok w'.
Proof.
  unfold id_clean_website. intros (o & Ho & H)%bind_Ok. destruct o as [u|].
  - apply bind_Ok in H as (v & Hv & H). apply (inj Ok) in H as <-.
    destruct (normalize_url_ok _ _ Hv) as (Hne & Ht & _ & Hl & Hc & Hi).
    unfold clean_value, allowed. rewrite Ht, bool_decide_eq_false_2, Hc by done.
    destruct (Nat.ltb_spec MAX_WEBSITE_LEN (length v)) as [Hlt|]; [|cbn; by rewrite Hi].
    unfold MAX_URL_LEN, MAX_WEBSITE_LEN in *. lia.
  - by apply (inj Ok) in H as <-.
Qed.
End Lemmas.

(** Rewrite the cleaning of already cleaned values. *)
Ltac clean_again :=
  repeat match goal with
  | H : clean_value _ _ _ _ = Ok ?x |- context [clean_value ?x _ _ _] =>
      rewrite (clean_value_idem _ _ _ _ _ H); cbn [mbind result_bind]
  end.

(** The next calendar day. *)
Definition next_day (y m d : Z) : Z * Z * Z :=
  if d <? days_in_month y m then (y, m, d + 1)
  else if m <? 12 then (y, m + 1, 1) else (y + 1, 1, 1).

Lemma days_in_month_feb y :
  days_in_month y 2 = if ((y mod 4 =? 0) && negb (y mod 100 =? 0)) || (y mod 400 =? 0) then 29 else 28.
Proof. done. Qed.

(** Evaluate the month arithmetic of [days_from_civil] at a known month. *)
Ltac month_end :=
  cbv beta iota zeta delta [next_day days_in_month days_from_civil existsb orb];
  repeat match goal with
  | |- context [(?a + 9) mod 12] => let v := eval vm_compute in ((a + 9) mod 12) in change ((a + 9) mod 12) with v
  | |- context [(153 * ?a + 2) / 5] => let v := eval vm_compute in ((153 * a + 2) / 5) in change ((153 * a + 2) / 5) with v
  | |- context [?a =? ?b] => let v := eval vm_compute in (a =? b) in change (a =? b) with v; cbv iota
  | |- context [?a <=? ?b] => let v := eval vm_compute in (a <=? b) in change (a <=? b) with v; cbv iota
  | |- context [?a <? ?b] => let v := eval vm_compute in (a <? b) in change (a <? b) with v; cbv iota
  end;
  rewrite ?Z.add_simpl_r; lia.

(** March 1st follows the last day of February. *)
Lemma days_feb_end y : days_from_civil y 3 1 = days_from_civil y 2 (days_in_month y 2) + 1.
Proof.
  rewrite days_in_month_feb. unfold days_from_civil. cbv zeta.
  change (3 <=? 2) with false. change (2 <=? 2) with true. cbv iota.
  change ((3 + 9) mod 12) with 0. change ((2 + 9) mod 12) with 11.
  change ((153 * 0 + 2) / 5) with 0. change ((153 * 11 + 2) / 5) with 337.
  assert (y = y mod 400 + y / 400 * 400) as Hy by (pose proof (Z.div_mod y 400); lia).
  pose proof (Z.mod_pos_bound y 400 ltac:(lia)) as Hr.
  set (e := y / 400) in *. set (r := y mod 400) in *. clearbody e r. subst y.
  assert ((r + e * 400) mod 4 = r mod 4) as ->.
  { replace (e * 400) with (e * 100 * 4) by lia. by apply Z.mod_add. }
  assert ((r + e * 400) mod 100 = r mod 100) as ->.
  { replace (e * 400) with (e * 4 * 100) by lia. by apply Z.mod_add. }
  replace (r + e * 400 - e * 400) with r by lia.
  destruct (Z.eqb_spec r 0) as [->|Hr0].
  - replace ((0 + e * 400 - 1) / 400) with (e - 1) by (apply Z.div_unique with 399; lia).
    replace (0 + e * 400 - 1 - (e - 1) * 400) with 399 by lia. rewrite orb_true_r.
    change (399 / 4) with 99. change (399 / 100) with 3. change (0 / 4) with 0. change (0 / 100) with 0. lia.
  - replace ((r + e * 400 - 1) / 400) with e by (apply Z.div_unique with (r - 1); lia).
    replace (r + e * 400 - 1 - e * 400) with (r - 1) by lia. rewrite orb_false_r.
    destruct (Z.eqb_spec (r mod 4) 0), (Z.eqb_spec (r mod 100) 0); cbn [andb negb];
      Z.div_mod_to_equations; lia.
Qed.

(** ** Properties *)

Section Properties.
Context `{UL : UrlLib}.

(** C33: [days_from_civil] counts days: 0 on 1970-01-01, and one more on the
    next day of the Gregorian calendar, across months, years and leap years,
    so the birth-date check compares dates as the calendar orders them. *)
Lemma days_from_civil_counts y m d :
  days_from_civil 1970 1 1 = 0 /\
  (1 <= m <= 12 -> 1 <= d <= days_in_month y m ->
   let '(y', m', d') := next_day y m d in
   days_from_civil y' m' d' = days_from_civil y m d + 1).
Proof.
  split; [done|]. intros Hm Hd. unfold next_day.
  destruct (Z.ltb_spec d (days_in_month y m)) as [Hlt|Hge].
  - unfold days_from_civil. cbv zeta. destruct (m <=? 2); lia.
  - assert (d = days_in_month y m) as -> by lia.
    destruct (decide (m = 2)) as [->|H2]; [apply days_feb_end|].
    assert (m ∈ [1; 3; 4; 5; 6; 7; 8; 9; 10; 11; 12]) as Hin by (rewrite !elem_of_cons; lia).
    repeat (apply elem_of_cons in Hin as [->|Hin]; [month_end|]). by apply elem_of_nil in Hin.
Qed.

(** Cleaning an identity is idempotent: one saved again later,
    unedited, is stored unchanged, its birth date still in the past. *)
Lemma id_clean_idem `{!UrlLaws UL} i now now' i' :
  now <= now' -> id_clean i now = Ok i' -> id_clean i' now' = Ok i'.
Proof.
  intros Hnow H. unfold id_clean in H. cbv zeta in H.
  repeat (apply bind_Ok in H as (? & ? & H)). apply (inj Ok) in H as <-.
  unfold id_clean. cbv zeta.
  cbn [first_name middle_name last_name gender birth_date occupation company job_title cpf rg
       passport drivers_license id_email mobile_phone home_phone work_phone street addr_number
       complement neighborhood city state postal_code country id_username website custom id_notes].
  clean_again. destruct (match x with Some b => _ | None => _ end) as [[]|] eqn:Eb; [|done].
  replace (match x with Some b => check_birth_date b now' | None => Ok () end) with (Ok () : Result ())
    by (destruct x; [symmetry; by eapply check_birth_date_later|done]).
  cbn [mbind result_bind]. erewrite id_clean_website_idem by done. cbn [mbind result_bind].
  erewrite id_clean_notes_idem by done. cbn [mbind result_bind].
  match goal with Hc : clean_customs _ = Ok _ |- _ => destruct (clean_customs_ok _ _ Hc) as [-> Hl] end.
  match goal with |- context [guard_err ?b _] => destruct b eqn:Eg end.
  { apply Nat.ltb_lt in Eg. match goal with Hg : guard_err _ _ = Ok _ |- _ => revert Hg end.
    unfold guard_err. destruct (Nat.ltb_spec MAX_CUSTOM_FIELDS (length (custom i))); [done|lia]. }
  cbn [guard_err mbind result_bind]. clean_again. done.
Qed.
End Properties.

Section Witnesses.
Import ToyUrl.

Lemma days_from_civil_counts_witness :
  1 <= 2 <= 12 /\ 1 <= 29 <= days_in_month 2024 2 /\
  days_from_civil 2024 3 1 = days_from_civil 2024 2 29 + 1.
Proof.
  split; [lia|]. split; [vm_compute; split; discriminate|].
  apply (proj2 (days_from_civil_counts 2024 2 29)); [lia|vm_compute; split; discriminate].
Defined.

Definition sample_identity : IdentityFields :=
  {| first_name := Some (lit " Ada "); middle_name := None; last_name := Some (lit "Lovelace");
     gender := None; birth_date := Some (lit "1915-12-10"); occupation := None; company := None;
     job_title := None; cpf := None; rg := None; passport := None; drivers_license := None;
     id_email := None; mobile_phone := Some (lit "+55 11 9"); home_phone := None;
     work_phone := None; street := None; addr_number := None; complement := None;
     neighborhood := None; city := None; state := None; postal_code := None; country := None;
     id_username := None; website := Some (lit "example.com");
     custom := [{| idc_label := lit " a "; idc_value := lit "b"; idc_hidden := true |}];
     id_notes := None |}.

Lemma id_clean_idem_witness :
  exists i, id_clean sample_identity 0 = Ok i /\ website i = Some (lit "https://example.com")
    /\ id_clean i 86400000 = Ok i.
Proof.
  eexists. split; [vm_compute; reflexivity|]. split; [reflexivity|].
  eapply (id_clean_idem sample_identity 0 86400000); [lia|vm_compute; reflexivity].
Defined.
End Witnesses.
