(* ===== verification/CustomField.v ===== *)
(** * Custom fields (crates/havenkeys-core/src/custom_field.rs)

    Sections of labelled, typed fields of a login, note or bank account.  New
    ids come from the random generator: [new_id k] is the [k]-th one drawn. *)

From S2P Require Import Prelude Errors Text Url Clean Identity Totp.

Definition MAX_SECTIONS : nat := 20.
Definition MAX_FIELDS : nat := 100.
Definition MAX_LABEL_CHARS : nat := MAX_TITLE_CHARS.
Definition MAX_SHORT_VALUE_CHARS : nat := 512.
Definition MAX_TOTAL_BYTES : Z := 256 * 1024.

Definition BAD_LAYOUT : Error :=
  InvalidInput "the item's fields changed; reopen it and try again".

(** ** Stored *)

Record AddressValue := {
  a_street : option (list Z);
  a_number : option (list Z);
  a_complement : option (list Z);
  a_neighborhood : option (list Z);
  a_city : option (list Z);
  a_state : option (list Z);
  a_postal_code : option (list Z);
  a_country : option (list Z);
}.

Inductive FieldValue :=
| VText (v : list Z)
| VUrl (v : list Z)
| VEmail (v : list Z)
| VPhone (v : list Z)
| VDate (v : list Z)
| VAddress (a : AddressValue)
| VPassword (p : option (list Z))
| VOtp (c : option TotpConfig).

Record CustomField := { f_id : Z; f_label : list Z; f_value : FieldValue }.
Record FieldSection := { s_id : Z; s_title : option (list Z); s_fields : list CustomField }.

Inductive FieldKind := KText | KUrl | KEmail | KPhone | KDate | KAddress | KPassword | KOtp.
Inductive AddressPart :=
| PStreet | PNumber | PComplement | PNeighborhood | PCity | PState | PPostalCode | PCountry.

#[export] Instance AddressValue_eq_dec : EqDecision AddressValue.
Proof. solve_decision. Defined.
#[export] Instance FieldValue_eq_dec : EqDecision FieldValue.
Proof. solve_decision. Defined.
#[export] Instance CustomField_eq_dec : EqDecision CustomField.
Proof. solve_decision. Defined.
#[export] Instance FieldSection_eq_dec : EqDecision FieldSection.
Proof. solve_decision. Defined.
#[export] Instance FieldKind_eq_dec : EqDecision FieldKind.
Proof. solve_decision. Defined.

(** [AddressValue::part], [formatted] and [clean]. *)
Definition address_part (a : AddressValue) (p : AddressPart) : option (list Z) :=
  match p with
  | PStreet => a_street a
  | PNumber => a_number a
  | PComplement => a_complement a
  | PNeighborhood => a_neighborhood a
  | PCity => a_city a
  | PState => a_state a
  | PPostalCode => a_postal_code a
  | PCountry => a_country a
  end.

Definition pair_lines (a : option (list Z)) (sep : list Z) (b : option (list Z)) : option (list Z) :=
  match a, b with
  | Some a, Some b => Some (a ++ sep ++ b)
  | Some x, None | None, Some x => Some x
  | None, None => None
  end.

Definition address_lines (a : AddressValue) : list (list Z) :=
  somes [pair_lines (a_street a) (lit ", ") (a_number a);
         a_complement a;
         a_neighborhood a;
         pair_lines (a_city a) (lit " - ") (a_state a);
         a_postal_code a;
         a_country a].

Definition address_formatted (a : AddressValue) : list Z := join [10] (address_lines a).

Definition address_clean (a : AddressValue) : Result AddressValue :=
  let c v := clean_value v MAX_SHORT_VALUE_CHARS Line
               "address is too long or contains control characters" in
  street ← c (a_street a);
  number ← c (a_number a);
  complement ← c (a_complement a);
  neighborhood ← c (a_neighborhood a);
  city ← c (a_city a);
  state ← c (a_state a);
  postal_code ← c (a_postal_code a);
  country ← c (a_country a);
  Ok {| a_street := street; a_number := number; a_complement := complement;
        a_neighborhood := neighborhood; a_city := city; a_state := state;
        a_postal_code := postal_code; a_country := country |}.

(** [FieldValue::kind], [is_concealed], [into_text] and [byte_len]. *)
Definition value_kind (v : FieldValue) : FieldKind :=
  match v with
  | VText _ => KText
  | VUrl _ => KUrl
  | VEmail _ => KEmail
  | VPhone _ => KPhone
  | VDate _ => KDate
  | VAddress _ => KAddress
  | VPassword _ => KPassword
  | VOtp _ => KOtp
  end.

Definition is_concealed (v : FieldValue) : bool :=
  match v with VPassword _ | VOtp _ => true | _ => false end.

(** [str::replace] of one character by a string. *)
Definition replace_char (c : Z) (by_ : list Z) (s : list Z) : list Z :=
  s ≫= (fun x => if x =? c then by_ else [x]).

Definition into_text (v : FieldValue) : list Z :=
  match v with
  | VText v | VUrl v | VEmail v | VPhone v | VDate v => v
  | VAddress a => replace_char 10 (lit ", ") (address_formatted a)
  | VPassword p => default [] p
  | VOtp _ => []
  end.

Definition byte_len (v : FieldValue) : Z :=
  match v with
  | VText v | VUrl v | VEmail v | VPhone v | VDate v => str_len v
  | VAddress a => str_len (address_formatted a)
  | VPassword p => match p with Some p => str_len p | None => 0 end
  | VOtp c => match c with Some c => str_len (secret c) | None => 0 end
  end.

(** [CustomField::concealed]. *)
Definition concealed (f : CustomField) : Result (list Z) :=
  match f_value f with
  | VPassword (Some p) => Ok p
  | VPassword None => Err NotFound
  | _ => Err (InvalidInput "only a password field can be revealed")
  end.

(** ** Input *)

Inductive FieldValueInput :=
| FText (v : list Z)
| FUrl (v : list Z)
| FEmail (v : list Z)
| FPhone (v : list Z)
| FDate (v : list Z)
| FAddress (a : AddressValue)
| FPassword (u : SecretUpdate)
| FOtp (u : SecretUpdate).

Record FieldInput := { i_id : option Z; i_label : list Z; i_value : FieldValueInput }.
Record SectionInput := { si_id : option Z; si_title : option (list Z); si_fields : list FieldInput }.

Definition input_kind (v : FieldValueInput) : FieldKind :=
  match v with
  | FText _ => KText
  | FUrl _ => KUrl
  | FEmail _ => KEmail
  | FPhone _ => KPhone
  | FDate _ => KDate
  | FAddress _ => KAddress
  | FPassword _ => KPassword
  | FOtp _ => KOtp
  end.

(** ** Views *)

Inductive FieldValueView :=
| WText (value : list Z)
| WUrl (value : list Z)
| WEmail (value : list Z)
| WPhone (value : list Z)
| WDate (value : list Z)
| WAddress (parts : AddressValue) (formatted : list Z)
| WPassword (has_value : bool)
| WOtp (has_otp : bool).

Record FieldView := { fv_id : Z; fv_label : list Z; fv_value : FieldValueView }.
Record SectionView := { sv_id : Z; sv_title : option (list Z); sv_fields : list FieldView }.

Definition value_view (v : FieldValue) : FieldValueView :=
  match v with
  | VText value => WText value
  | VUrl value => WUrl value
  | VEmail value => WEmail value
  | VPhone value => WPhone value
  | VDate value => WDate value
  | VAddress parts => WAddress parts (address_formatted parts)
  | VPassword p => WPassword (bool_decide (is_Some p))
  | VOtp c => WOtp (bool_decide (is_Some c))
  end.

Definition views (sections : list FieldSection) : list SectionView :=
  map (fun s => {| sv_id := s_id s; sv_title := s_title s;
                   sv_fields := map (fun f => {| fv_id := f_id f; fv_label := f_label f;
                                                 fv_value := value_view (f_value f) |}) (s_fields s) |})
      sections.

Section CustomField.
Context `{L : TotpLib} `{UL : UrlLib}.

(** [CustomField::totp_code], [copy_value] and [url]. *)
Definition totp_code (f : CustomField) (unix_seconds : Z) : Result TotpCode :=
  match f_value f with
  | VOtp (Some cfg) => Totp.generate cfg unix_seconds
  | VOtp None => Err NotFound
  | _ => Err (InvalidInput "not a one-time password field")
  end.

Definition ok_nonempty (o : option (list Z)) : Result (list Z) :=
  match o with Some [] | None => Err NotFound | Some v => Ok v end.

Definition copy_value (f : CustomField) (part : option AddressPart) (unix_seconds : Z) : Result (list Z) :=
  match f_value f, part with
  | VAddress a, Some p => ok_nonempty (address_part a p)
  | VAddress a, None => ok_nonempty (Some (address_formatted a))
  | _, Some _ => Err (InvalidInput "only an address has parts")
  | (VText v | VUrl v | VEmail v | VPhone v | VDate v), None => ok_nonempty (Some v)
  | VPassword p, None => ok_nonempty p
  | VOtp _, None => c ← totp_code f unix_seconds; Ok (tc_code c)
  end.

Definition field_url (f : CustomField) : Result (list Z) :=
  match f_value f with
  | VUrl v => if bool_decide (v = []) then Err NotFound else normalize_url v
  | _ => Err (InvalidInput "not a URL field")
  end.

(** [clean_plain]. *)
Definition short (v : list Z) (what : string) : Result (list Z) :=
  o ← clean_value (Some v) MAX_SHORT_VALUE_CHARS Line what;
  Ok (default [] o).

Definition clean_plain (value : FieldValueInput) : Result FieldValue :=
  match value with
  | FText v =>
      if MAX_NOTES_BYTES <? str_len v then Err (InvalidInput "a text field is too long")
      else Ok (VText v)
  | FUrl v =>
      if bool_decide (trim v = []) then Ok (VUrl [])
      else u ← normalize_url v; Ok (VUrl u)
  | FEmail v => e ← short v "email is too long or contains control characters"; Ok (VEmail e)
  | FPhone v => p ← short v "phone is too long or contains control characters"; Ok (VPhone p)
  | FDate v =>
      v ← short v "date must be YYYY-MM-DD";
      if negb (bool_decide (v = [])) && negb (bool_decide (is_Some (parse_ymd v)))
      then Err (InvalidInput "date must be YYYY-MM-DD")
      else Ok (VDate v)
  | FAddress a => a ← address_clean a; Ok (VAddress a)
  | FPassword _ | FOtp _ => Err (InvalidInput "not a plain value")
  end.

(** ** [apply_sections]

    The state of its loops: the section ids and the prior values not used
    yet, and the count of ids drawn. *)
Record Layout := {
  section_ids : gset Z;
  prior : gmap Z FieldValue;
  drawn : nat;
}.

Section Apply.
Variable new_id : nat -> Z.

Definition draw : M Layout Error Z := fun s =>
  ({| section_ids := section_ids s; prior := prior s; drawn := S (drawn s) |}, Ok (new_id (drawn s))).

(** [match section.id]. *)
Definition take_section_id (id : option Z) : M Layout Error Z :=
  match id with
  | None => draw
  | Some id => fun s =>
      if decide (id ∈ section_ids s) then
        ({| section_ids := section_ids s ∖ {[id]}; prior := prior s; drawn := drawn s |}, Ok id)
      else (s, Err BAD_LAYOUT)
  end.

(** [match field.id]: the id and the value it held. *)
Definition take_field_id (id : option Z) : M Layout Error (Z * option FieldValue) :=
  match id with
  | None => id ← draw; mret (id, None)
  | Some id => fun s =>
      match prior s !! id with
      | Some v => ({| section_ids := section_ids s; prior := delete id (prior s); drawn := drawn s |},
                   Ok (id, Some v))
      | None => (s, Err BAD_LAYOUT)
      end
  end.

(** [match field.value]. *)
Definition new_value (value : FieldValueInput) (before : option FieldValue) : Result FieldValue :=
  match value with
  | FPassword update =>
      if bool_decide (before = None) && is_keep update then Err BAD_LAYOUT
      else
        let current := match before with Some (VPassword p) => p | _ => None end in
        let p := apply update current in
        _ ← check_some check_password p;
        Ok (VPassword p)
  | FOtp update =>
      if bool_decide (before = None) && is_keep update then Err BAD_LAYOUT
      else
        let current := match before with Some (VOtp c) => c | _ => None end in
        c ← apply_totp update current;
        Ok (VOtp c)
  | plain => clean_plain plain
  end.

Definition kind_changed (before : option FieldValue) (value : FieldValueInput) : bool :=
  match before with
  | Some b => negb (bool_decide (value_kind b = input_kind value))
  | None => false
  end.

Definition apply_field (field : FieldInput) : M Layout Error CustomField :=
  '(id, before) ← take_field_id (i_id field);
  if kind_changed before (i_value field) then mthrow_ BAD_LAYOUT
  else
    label ← mlift (clean_value (Some (i_label field)) MAX_LABEL_CHARS Line
                     "field label is too long or contains control characters");
    label ← mlift (ok_or (InvalidInput "a field needs a label") label);
    value ← mlift (new_value (i_value field) before);
    mret {| f_id := id; f_label := label; f_value := value |}.

Fixpoint apply_fields (fields : list FieldInput) : M Layout Error (list CustomField) :=
  match fields with
  | [] => mret []
  | f :: fields => x ← apply_field f; xs ← apply_fields fields; mret (x :: xs)
  end.

Definition apply_section (section : SectionInput) : M Layout Error FieldSection :=
  id ← take_section_id (si_id section);
  title ← mlift (clean_value (si_title section) MAX_LABEL_CHARS Line
                   "section title is too long or contains control characters");
  fields ← apply_fields (si_fields section);
  mret {| s_id := id; s_title := title; s_fields := fields |}.

Fixpoint apply_each (input : list SectionInput) : M Layout Error (list FieldSection) :=
  match input with
  | [] => mret []
  | s :: input => x ← apply_section s; xs ← apply_each input; mret (x :: xs)
  end.

Definition total_bytes (out : list FieldSection) : Z :=
  foldr Z.add 0 (map (fun s =>
    match s_title s with Some t => str_len t | None => 0 end
    + foldr Z.add 0 (map (fun f => str_len (f_label f) + byte_len (f_value f)) (s_fields s))) out).

Definition all_fields (sections : list FieldSection) : list CustomField := sections ≫= s_fields.

(** [collect::<HashMap>]: the last value of an id wins. *)
Definition prior_values (current : list FieldSection) : gmap Z FieldValue :=
  foldl (fun m f => <[f_id f := f_value f]> m) ∅ (all_fields current).

Definition apply_sections (input : option (list SectionInput)) (current : list FieldSection)
    : Result (list FieldSection) :=
  match input with
  | None => Ok current
  | Some input =>
      if (MAX_SECTIONS <? length input)%nat then Err (InvalidInput "too many sections")
      else if (MAX_FIELDS <? foldr Nat.add 0 (map (fun s => length (si_fields s)) input))%nat
      then Err (InvalidInput "too many fields")
      else
        let start := {| section_ids := list_to_set (map s_id current);
                        prior := prior_values current; drawn := 0 |} in
        out ← (apply_each input start).2;
        if MAX_TOTAL_BYTES <? total_bytes out then Err (InvalidInput "the item's fields are too large")
        else Ok out
  end.
End Apply.
End CustomField.

(** ** Lemmas *)

Section Lemmas.
Context `{L : TotpLib} `{UL : UrlLib}.
Variable new_id : nat -> Z.

Lemma draw_ok s s' id :
  draw new_id s = (s', Ok id) ->
  id = new_id (drawn s) /\ section_ids s' = section_ids s /\ prior s' = prior s /\ drawn s' = S (drawn s).
Proof. unfold draw. by intros [= <- <-]. Qed.

Lemma take_field_id_ok i s s' id before :
  take_field_id new_id i s = (s', Ok (id, before)) ->
  (i = None /\ before = None /\ id = new_id (drawn s) /\ prior s' = prior s /\ drawn s' = S (drawn s)) \/
  (i = Some id /\ (exists v, before = Some v /\ prior s !! id = Some v) /\
   prior s' = delete id (prior s) /\ drawn s' = drawn s).
Proof.
  destruct i as [i|]; cbn [take_field_id].
  - destruct (prior s !! i) as [v|] eqn:E; [|done]. intros [= <- <- <-]. right. split_and!; [done|by exists v|done..].
  - intros (x & s1 & H & [= <- <- <-])%M_bind_Ok. apply draw_ok in H as (-> & _ & Hp & Hd). by left.
Qed.

Lemma apply_field_ok fi s s' f :
  apply_field new_id fi s = (s', Ok f) ->
  exists before,
    take_field_id new_id (i_id fi) s = (s', Ok (f_id f, before)) /\
    kind_changed before (i_value fi) = false /\
    new_value (i_value fi) before = Ok (f_value f).
Proof.
  unfold apply_field. intros ([id before] & s1 & Ht & H)%M_bind_Ok.
  destruct (kind_changed before (i_value fi)) eqn:Ek; [done|].
  apply M_bind_Ok in H as (l & s2 & [-> Hl]%mlift_Ok & H).
  apply M_bind_Ok in H as (l' & s3 & [-> Hl']%mlift_Ok & H).
  apply M_bind_Ok in H as (v & s4 & [-> Hv]%mlift_Ok & H).
  injection H as <- <-. by exists before.
Qed.

(** What a part of the run does to the state: it only uses up prior values
    and draws new ids, and the ids it returns are distinct. *)
Record advance (s s' : Layout) (ids : list Z) : Prop := {
  adv_prior : prior s' ⊆ prior s;
  adv_drawn : (drawn s <= drawn s')%nat;
  adv_ids : forall i, i ∈ ids ->
    (exists k, (drawn s <= k < drawn s')%nat /\ i = new_id k) \/
    (is_Some (prior s !! i) /\ prior s' !! i = None);
  adv_nodup : NoDup ids;
}.

Definition fresh_ids (s : Layout) : Prop := forall k, prior s !! new_id k = None.

Lemma advance_refl s : advance s s [].
Proof. split; [done|done|by intros i ?%elem_of_nil|constructor]. Qed.

Lemma advance_app s s1 s2 l1 l2 :
  Inj (=) (=) new_id -> fresh_ids s -> advance s s1 l1 -> advance s1 s2 l2 -> advance s s2 (l1 ++ l2).
Proof.
  intros Hinj Hf [P1 D1 I1 N1] [P2 D2 I2 N2]. split.
  - by trans (prior s1).
  - lia.
  - intros i [Hi|Hi]%elem_of_app.
    + destruct (I1 i Hi) as [(k & Hk & ->)|[H1 H2]]; [left; exists k; split; [lia|done]|].
      right. split; [done|]. eapply lookup_weaken_None; [exact H2|done].
    + destruct (I2 i Hi) as [(k & Hk & ->)|[[v H1] H2]]; [left; exists k; split; [lia|done]|].
      right. split; [|done]. exists v. by eapply lookup_weaken.
  - apply NoDup_app. split_and!; [done| |done]. intros i Hi1 Hi2.
    destruct (I1 i Hi1) as [(k & Hk & E1)|[[w H1'] H1]], (I2 i Hi2) as [(k' & Hk' & E)|[[v H2] _]].
    + subst i. apply (inj new_id) in E. lia.
    + subst i. eapply lookup_weaken in H2; [|exact P1]. by rewrite Hf in H2.
    + subst i. by rewrite Hf in H1'.
    + by rewrite H1 in H2.
Qed.

Lemma fresh_advance s s' l : fresh_ids s -> advance s s' l -> fresh_ids s'.
Proof. intros Hf Ha k. eapply lookup_weaken_None; [apply Hf|apply Ha]. Qed.

Lemma apply_field_advance fi s s' f :
  apply_field new_id fi s = (s', Ok f) -> advance s s' [f_id f].
Proof.
  intros (before & H & _)%apply_field_ok.
  apply take_field_id_ok in H as [(_ & _ & Hid & Hp & Hd)|(_ & (v & _ & Hv) & Hp & Hd)]; split;
    rewrite ?Hp, ?Hd; try done; try lia; try apply NoDup_singleton.
  - intros i ->%list_elem_of_singleton. left. exists (drawn s). split; [lia|done].
  - apply delete_subseteq.
  - intros i ->%list_elem_of_singleton. right. by rewrite lookup_delete_eq.
Qed.

(** Where a stored value came from. *)
Definition provenance (inputs : list FieldInput) (current : gmap Z FieldValue) (f : CustomField) : Prop :=
  exists fi, fi ∈ inputs /\
    ((i_id fi = None /\ new_value (i_value fi) None = Ok (f_value f)) \/
     (exists before, i_id fi = Some (f_id f) /\ current !! f_id f = Some before /\
        value_kind before = input_kind (i_value fi) /\
        new_value (i_value fi) (Some before) = Ok (f_value f))).

Lemma apply_field_provenance fi s s' f m :
  prior s ⊆ m -> apply_field new_id fi s = (s', Ok f) -> provenance [fi] m f.
Proof.
  intros Hm (before & H & Hk & Hv)%apply_field_ok. exists fi. split; [left|].
  apply take_field_id_ok in H as [(Hi & -> & _)|(Hi & (v & -> & Hp) & _)]; [by left|].
  right. exists v. split_and!; [done|by eapply lookup_weaken| |done].
  unfold kind_changed in Hk. apply negb_false_iff, bool_decide_eq_true in Hk. done.
Qed.

Lemma provenance_weaken i i' m f : (forall x, x ∈ i -> x ∈ i') -> provenance i m f -> provenance i' m f.
Proof. intros H (fi & Hi & Hp). exists fi. auto. Qed.

Lemma apply_fields_ok fis m s s' fs :
  Inj (=) (=) new_id -> fresh_ids s -> prior s ⊆ m ->
  apply_fields new_id fis s = (s', Ok fs) ->
  advance s s' (map f_id fs) /\ Forall (provenance fis m) fs.
Proof.
  intros Hinj. revert s fs. induction fis as [|fi fis IH]; intros s fs Hf Hm; cbn [apply_fields].
  - intros [= <- <-]. split; [apply advance_refl|constructor].
  - intros (f & s1 & H1 & H)%M_bind_Ok. apply M_bind_Ok in H as (fs' & s2 & H2 & [= <- <-]).
    pose proof (apply_field_advance _ _ _ _ H1) as A1.
    destruct (IH s1 fs') as [A2 P2]; [by eapply fresh_advance|etrans; [apply A1|done]|done|].
    split; [by apply (advance_app s s1 s2 [f_id f])|]. constructor.
    + eapply provenance_weaken; [|by eapply apply_field_provenance]. intros x ->%list_elem_of_singleton. left.
    + eapply Forall_impl; [exact P2|]. intros g. apply provenance_weaken. intros x Hx. by right.
Qed.

Lemma take_section_id_advance i s s' id : take_section_id new_id i s = (s', Ok id) -> advance s s' [].
Proof.
  destruct i as [i|]; cbn [take_section_id].
  - case_decide; [|done]. intros [= <- <-]. split; cbn; [done|done|by intros j ?%elem_of_nil|constructor].
  - intros (_ & _ & Hp & Hd)%draw_ok. split; rewrite ?Hp, ?Hd; [done|lia|by intros j ?%elem_of_nil|constructor].
Qed.

Lemma apply_each_ok input m s s' out :
  Inj (=) (=) new_id -> fresh_ids s -> prior s ⊆ m ->
  apply_each new_id input s = (s', Ok out) ->
  advance s s' (map f_id (all_fields out)) /\ Forall (provenance (input ≫= si_fields) m) (all_fields out).
Proof.
  intros Hinj. revert s out. induction input as [|sec input IH]; intros s out Hf Hm; cbn [apply_each].
  - intros [= <- <-]. split; [apply advance_refl|constructor].
  - intros (x & s1 & H1 & H)%M_bind_Ok. apply M_bind_Ok in H as (xs & s2 & H2 & [= <- <-]).
    unfold apply_section in H1. apply M_bind_Ok in H1 as (id & t1 & Ha & H1).
    apply M_bind_Ok in H1 as (title & t2 & [-> _]%mlift_Ok & H1).
    apply M_bind_Ok in H1 as (fs & t3 & Hb & [= <- <-]).
    pose proof (take_section_id_advance _ _ _ _ Ha) as A0.
    destruct (apply_fields_ok (si_fields sec) m t1 t3 fs) as [A1 P1];
      [done|by eapply fresh_advance|etrans; [apply A0|done]|done|].
    pose proof (advance_app _ _ _ _ _ Hinj Hf A0 A1) as A01. cbn [app] in A01.
    destruct (IH t3 xs) as [A2 P2]; [by eapply fresh_advance|etrans; [apply A01|done]|done|].
    unfold all_fields in *. cbn [mbind list_bind s_fields]. rewrite map_app. split; [by eapply advance_app|].
    apply Forall_app. split.
    + eapply Forall_impl; [exact P1|]. intros g. apply provenance_weaken. intros y Hy. apply elem_of_app. by left.
    + eapply Forall_impl; [exact P2|]. intros g. apply provenance_weaken. intros y Hy. apply elem_of_app. by right.
Qed.

Lemma prior_values_lookup current id v :
  prior_values current !! id = Some v -> exists g, g ∈ all_fields current /\ f_id g = id /\ f_value g = v.
Proof.
  unfold prior_values. assert (forall (m : gmap Z FieldValue) l, foldl (fun m f => <[f_id f := f_value f]> m) m l !! id = Some v ->
    m !! id = Some v \/ exists g, g ∈ l /\ f_id g = id /\ f_value g = v) as H.
  { intros m l. revert m. induction l as [|g l IH]; intros m; cbn [foldl]; [by left|].
    intros [Hm|(g' & Hg & E)]%IH; [|right; exists g'; split; [by right|done]].
    destruct (decide (f_id g = id)) as [Hid|Hid].
    - rewrite <- Hid, lookup_insert_eq in Hm. injection Hm as Hm. right. exists g. split; [left|done].
    - rewrite lookup_insert_ne in Hm by done. by left. }
  intros [Hm|?]%H; [by rewrite lookup_empty in Hm|done].
Qed.

Lemma clean_plain_plain v x : clean_plain v = Ok x -> is_concealed x = false.
Proof.
  destruct v; cbn [clean_plain]; intros H; try done;
    repeat first [apply bind_Ok in H as (? & _ & H) | destruct (MAX_NOTES_BYTES <? _) | destruct (bool_decide _)
                 | destruct (negb _ && negb _)];
    try done; by apply (inj Ok) in H as <-.
Qed.

(** A secret value kept or set by [new_value]. *)
Lemma new_value_password v before p :
  new_value v before = Ok (VPassword (Some p)) ->
  v = FPassword (SetTo p) \/ (v = FPassword Keep /\ before = Some (VPassword (Some p))).
Proof.
  destruct v as [?|?|?|?|?|?|u|u]; cbn [new_value];
    try (intros H%clean_plain_plain; done);
    [|intros H; destruct (_ && _); [done|]; by apply bind_Ok in H as (? & _ & ?)].
  destruct (_ && _) eqn:Eb; [done|]. intros (? & _ & H)%bind_Ok. injection H as H.
  destruct u as [|w|]; cbn [apply] in H; [|case_bool_decide; [done|]; injection H as ->; by left|done].
  right. split; [done|]. destruct before as [[]|]; congruence.
Qed.

Lemma new_value_otp v before c :
  new_value v before = Ok (VOtp (Some c)) ->
  (exists w, v = FOtp (SetTo w) /\ parse_totp_input w = Ok c) \/
  (v = FOtp Keep /\ before = Some (VOtp (Some c))).
Proof.
  destruct v as [?|?|?|?|?|?|u|u]; cbn [new_value];
    try (intros H%clean_plain_plain; done);
    [intros H; destruct (_ && _); [done|]; by apply bind_Ok in H as (? & _ & ?)|].
  destruct (_ && _) eqn:Eb; [done|]. intros (o & Ho & H)%bind_Ok. injection H as ->.
  destruct u as [|w|]; cbn [apply_totp] in Ho; [|case_bool_decide; [done|]|done].
  - right. split; [done|]. destruct before as [[]|]; congruence.
  - apply bind_Ok in Ho as (c' & Hc & [= ->]). left. by exists w.
Qed.
End Lemmas.

(** ** Properties *)

Section Properties.
Context `{L : TotpLib} `{UL : UrlLib}.

(** A save cannot reach another item's fields: in the stored layout every
    password and one-time-password setup was either set by this save or was
    already in the field of the same id of this item; field ids stay distinct;
    and the size limit holds. *)
Lemma apply_sections_own_secrets new_id input current out :
  Inj (=) (=) new_id -> (forall k f, f ∈ all_fields current -> f_id f <> new_id k) ->
  apply_sections new_id (Some input) current = Ok out ->
  NoDup (map f_id (all_fields out)) /\
  total_bytes out <= MAX_TOTAL_BYTES /\
  Forall (fun f =>
    (forall p, f_value f = VPassword (Some p) ->
       (exists fi, fi ∈ input ≫= si_fields /\ i_value fi = FPassword (SetTo p)) \/
       (exists g, g ∈ all_fields current /\ f_id g = f_id f /\ f_value g = VPassword (Some p))) /\
    (forall c, f_value f = VOtp (Some c) ->
       (exists fi w, fi ∈ input ≫= si_fields /\ i_value fi = FOtp (SetTo w) /\ parse_totp_input w = Ok c) \/
       (exists g, g ∈ all_fields current /\ f_id g = f_id f /\ f_value g = VOtp (Some c))))
    (all_fields out).
Proof.
  intros Hinj Hnew. unfold apply_sections. destruct (_ <? _)%nat; [done|]. destruct (_ <? _)%nat; [done|].
  cbv zeta. set (start := {| section_ids := _ |}). intros (o & Ho & H)%bind_Ok.
  destruct (Z.ltb_spec MAX_TOTAL_BYTES (total_bytes o)); [done|]. injection H as ->.
  destruct (apply_each new_id input start) as [s' r] eqn:E. cbn in Ho. subst r.
  destruct (apply_each_ok new_id input (prior_values current) start s' out) as [Ha Hp]; [done| |done|done|].
  { intros k. apply eq_None_not_Some. intros [v Hv].
    apply prior_values_lookup in Hv as (g & Hg & Hid & _). by apply (Hnew k) in Hg. }
  split_and!; [apply Ha|done|]. eapply Forall_impl; [exact Hp|].
  intros f (fi & Hi & Hf). split.
  - intros p Hval. rewrite Hval in Hf. destruct Hf as [[_ Hv]|(b & _ & Hb & _ & Hv)];
      apply new_value_password in Hv as [Hs|[_ Hk]]; try done; [left; by exists fi|left; by exists fi|].
    injection Hk as ->. right. apply prior_values_lookup in Hb. done.
  - intros c Hval. rewrite Hval in Hf. destruct Hf as [[_ Hv]|(b & _ & Hb & _ & Hv)];
      apply new_value_otp in Hv as [(w & Hs & Hw)|[_ Hk]]; try done; [left; by exists fi, w|left; by exists fi, w|].
    injection Hk as ->. right. apply prior_values_lookup in Hb. done.
Qed.

(** Opening an item shows no concealed value: two items that differ only
    in what their password and one-time-password fields hold give the UI the
    same views. *)
Lemma views_hide_secrets sections sections' :
  Forall2 (fun s s' => s_id s = s_id s' /\ s_title s = s_title s' /\
    Forall2 (fun f f' => f_id f = f_id f' /\ f_label f = f_label f' /\
      match f_value f, f_value f' with
      | VPassword p, VPassword p' => is_Some p <-> is_Some p'
      | VOtp c, VOtp c' => is_Some c <-> is_Some c'
      | v, v' => v = v' /\ is_concealed v = false
      end) (s_fields s) (s_fields s')) sections sections' ->
  views sections = views sections'.
Proof.
  unfold views. induction 1 as [|s s' l l' (Hi & Ht & Hf) _ IH]; [done|]. cbn [map].
  rewrite Hi, Ht. f_equal; [|exact IH]. f_equal. clear IH.
  induction Hf as [|f f' k k' (Hfi & Hfl & Hv) _ IHf]; [done|]. cbn [map].
  rewrite Hfi, Hfl. f_equal; [|exact IHf].
  f_equal. destruct (f_value f), (f_value f'); cbn [value_view]; try (destruct Hv; congruence);
    f_equal; by apply bool_decide_ext.
Qed.
End Properties.

Section Witnesses.
Import ToyTotp ToyUrl.

Definition sample_section : FieldSection :=
  {| s_id := 1; s_title := None;
     s_fields := [{| f_id := 2; f_label := lit "PIN"; f_value := VPassword (Some (lit "1234")) |}] |}.
Definition sample_edit : SectionInput :=
  {| si_id := Some 1; si_title := None;
     si_fields := [{| i_id := Some 2; i_label := lit "PIN"; i_value := FPassword Keep |};
                   {| i_id := None; i_label := lit "Note"; i_value := FText (lit "x") |}] |}.

Lemma apply_sections_own_secrets_witness :
  exists out, apply_sections (fun k => 100 + Z.of_nat k) (Some [sample_edit]) [sample_section] = Ok out
    /\ NoDup (map f_id (all_fields out)) /\ map f_id (all_fields out) = [2; 100].
Proof.
  eexists. split; [vm_compute; reflexivity|]. split; [|reflexivity].
  eapply (apply_sections_own_secrets (fun k => 100 + Z.of_nat k) [sample_edit] [sample_section]).
  - intros a b E. lia.
  - intros k f Hf. apply list_elem_of_singleton in Hf as ->. cbn. lia.
  - vm_compute. reflexivity.
Defined.

Lemma views_hide_secrets_witness :
  views [sample_section] = views [{| s_id := 1; s_title := None;
     s_fields := [{| f_id := 2; f_label := lit "PIN"; f_value := VPassword (Some (lit "9")) |}] |}].
Proof.
  apply views_hide_secrets. repeat (constructor; try done); cbn; eauto.
Defined.
End Witnesses.
