(* ===== verification/Bank.v ===== *)
(** * The Bank Account item (crates/havenkeys-core/src/bank.rs) *)

From S2P Require Import Prelude Errors Text Clean Card CustomField.

Definition MAX_BANK_CHARS : nat := 64.
Definition MAX_HOLDER_CHARS : nat := 256.
Definition MAX_BRANCH_DIGITS : Z := 8.
Definition MAX_ACCOUNT_DIGITS : Z := 20.
Definition MAX_ACCOUNT_DIGIT_CHARS : Z := 2.
Definition MIN_DIGITS_FOR_LAST3 : nat := 4.

Inductive BankAccountType := Checking | Savings | Payment | TypeOther.
Inductive DetailsLanguage := En | PtBr.

#[export] Instance BankAccountType_eq_dec : EqDecision BankAccountType.
Proof. solve_decision. Defined.

(** [BankAccountType::label]; the third is ["poupança"]. *)
Definition type_label (t : BankAccountType) (lang : DetailsLanguage) : list Z :=
  match lang, t with
  | En, Checking => lit "checking"
  | En, Savings => lit "savings"
  | En, Payment => lit "payment"
  | En, TypeOther => lit "other"
  | PtBr, Checking => lit "corrente"
  | PtBr, Savings => lit "poupan" ++ [231] ++ lit "a"
  | PtBr, Payment => lit "pagamento"
  | PtBr, TypeOther => lit "outra"
  end.

(** An Android app an item fills in (model.rs, [AppBinding]). *)
Record AppBinding := { package : list Z; cert_sha256 : list Z }.

#[export] Instance AppBinding_eq_dec : EqDecision AppBinding.
Proof. solve_decision. Defined.

Record BankAccountFields := {
  bank : option (list Z);
  holder_name : option (list Z);
  account_type : option BankAccountType;
  branch : option (list Z);
  branch_digit : option (list Z);
  account : option (list Z);
  account_digit : option (list Z);
  b_password : option (list Z);
  b_notes : option (list Z);
  b_sections : list FieldSection;
  b_app_bindings : list AppBinding;
}.

#[export] Instance BankAccountFields_eq_dec : EqDecision BankAccountFields.
Proof. solve_decision. Defined.

Record BankAccountInput := {
  bi_bank : option (list Z);
  bi_holder_name : option (list Z);
  bi_account_type : option BankAccountType;
  bi_branch : option (list Z);
  bi_branch_digit : option (list Z);
  bi_account : SecretUpdate;
  bi_account_digit : SecretUpdate;
}.

Record BankSummary := {
  bs_bank : option (list Z);
  bs_branch : option (list Z);
  account_last3 : option (list Z);
}.

#[export] Instance BankSummary_eq_dec : EqDecision BankSummary.
Proof. solve_decision. Defined.

Record BankValues := {
  bv_branch : option (list Z);
  bv_branch_digit : option (list Z);
  bv_account : option (list Z);
  bv_account_digit : option (list Z);
}.

(** [DetailsLanguage::parse]. *)
Definition parse_language (tag : list Z) : Result DetailsLanguage :=
  if bool_decide (tag = lit "en") then Ok En
  else if bool_decide (tag = lit "pt-BR") then Ok PtBr
  else Err (InvalidInput "unsupported language").

Definition kept (c : Z) : bool := negb (is_whitespace c) && negb (c =? 46).

Definition compact (raw : list Z) : list Z := map to_ascii_uppercase (List.filter kept raw).

Definition digit_or_x (c : Z) : bool := is_ascii_digit c || (c =? 88).

Definition bad_digit : Error := InvalidInput "check digit must be 0-9 or X, within its length limit".

Definition clean_digit (raw : list Z) (max : Z) : Result (option (list Z)) :=
  let d := compact raw in
  if bool_decide (d = []) then Ok None
  else if (max <? str_len d) || negb (forallb digit_or_x d) then Err bad_digit
  else Ok (Some d).

(** [str::rsplit_once('-')]. *)
Definition rsplit_once (sep : Z) (s : list Z) : option (list Z * list Z) :=
  match split_once sep (reverse s) with
  | Some (b, a) => Some (reverse a, reverse b)
  | None => None
  end.

Definition bank_clean_number (raw : list Z) (max_digits digit_max : Z)
    : Result (option (list Z) * option (list Z)) :=
  let c := compact raw in
  if bool_decide (c = []) then Ok (None, None)
  else
    '(number, digit) ← match rsplit_once 45 c with
                       | Some (n, d) => d ← clean_digit d digit_max; Ok (n, d)
                       | None => Ok (c, None)
                       end;
    if bool_decide (number = []) || (max_digits <? str_len number) || negb (all_digits number)
    then Err (InvalidInput "branch and account must be digits, within their length limits")
    else Ok (Some number, digit).

Definition join_digit (number : list Z) (digit : option (list Z)) : list Z :=
  match digit with None => number | Some d => number ++ [45] ++ d end.

Definition clean_text (raw : list Z) (max : nat) : Result (option (list Z)) :=
  let t := trim raw in
  if (max <? length t)%nat || existsb is_control t
  then Err (InvalidInput "bank or holder name is too long or contains control characters")
  else Ok (if bool_decide (t = []) then None else Some t).

Definition clean_pair (number digit : option (list Z)) (max_digits digit_max : Z)
    : Result (option (list Z) * option (list Z)) :=
  '(number, split) ← bank_clean_number (default [] number) max_digits digit_max;
  own ← clean_digit (default [] digit) digit_max;
  if bool_decide (is_Some split) && bool_decide (is_Some own) then Err bad_digit
  else Ok (number, match split with Some _ => split | None => own end).

(** [.map(f).transpose()?.flatten()]. *)
Definition clean_opt_text (o : option (list Z)) (max : nat) : Result (option (list Z)) :=
  match o with Some v => clean_text v max | None => Ok None end.

(** [BankAccountFields::clean]. *)
Definition bank_clean (b : BankAccountFields) : Result BankAccountFields :=
  '(br, brd) ← clean_pair (branch b) (branch_digit b) MAX_BRANCH_DIGITS 1;
  '(ac, acd) ← clean_pair (account b) (account_digit b) MAX_ACCOUNT_DIGITS MAX_ACCOUNT_DIGIT_CHARS;
  _ ← check_some check_password (b_password b);
  _ ← check_some check_notes (b_notes b);
  bk ← clean_opt_text (bank b) MAX_BANK_CHARS;
  holder ← clean_opt_text (holder_name b) MAX_HOLDER_CHARS;
  Ok {| bank := bk; holder_name := holder; account_type := account_type b; branch := br;
        branch_digit := brd; account := ac; account_digit := acd; b_password := b_password b;
        b_notes := b_notes b; b_sections := b_sections b; b_app_bindings := b_app_bindings b |}.

(** [BankAccountFields::summary]. *)
Definition last3 (a : list Z) (digit : list Z) : list Z :=
  let keep := (3 - length digit)%nat in
  let skip := (length a - keep)%nat in
  let tail := drop skip a in
  match digit with [] => tail | _ => tail ++ [45] ++ digit end.

Definition bank_summary (b : BankAccountFields) : BankSummary :=
  {| bs_bank := bank b;
     bs_branch := branch b;
     account_last3 :=
       match account b with
       | Some a =>
           if (MIN_DIGITS_FOR_LAST3 <=? length a)%nat
           then Some (last3 a (default [] (account_digit b))) else None
       | None => None
       end |}.

Definition branch_joined (b : BankAccountFields) : option (list Z) :=
  (fun n => join_digit n (branch_digit b)) <$> branch b.

Definition account_joined (b : BankAccountFields) : option (list Z) :=
  (fun n => join_digit n (account_digit b)) <$> account b.

(** [BankAccountFields::details]; the second label is ["Agência"]. *)
Definition bank_details (b : BankAccountFields) (lang : DetailsLanguage) : option (list Z) :=
  let '(branch_l, account_l, holder_l) :=
    match lang with
    | En => (lit "Branch", lit "Account", lit "Holder")
    | PtBr => (lit "Ag" ++ [234] ++ lit "ncia", lit "Conta", lit "Titular")
    end in
  let kind := (fun t => type_label t lang) <$> account_type b in
  let account_line :=
    (fun n => match kind with
              | Some k => account_l ++ lit " " ++ n ++ lit " (" ++ k ++ lit ")"
              | None => account_l ++ lit " " ++ n
              end) <$> account_joined b in
  let lines := Identity.somes
    [bank b;
     (fun n => branch_l ++ lit " " ++ n) <$> branch_joined b;
     account_line;
     (fun h => holder_l ++ lit " " ++ h) <$> holder_name b] in
  if bool_decide (lines = []) then None else Some (join [10] lines).

(** [BankAccountFields::values]. *)
Definition bank_values (b : BankAccountFields) : option BankValues :=
  if bool_decide (branch b = None) && bool_decide (account b = None) then None
  else Some {| bv_branch := branch b;
               bv_branch_digit := match branch b with Some _ => branch_digit b | None => None end;
               bv_account := account b;
               bv_account_digit := match account b with Some _ => account_digit b | None => None end |}.

(** ** Lemmas *)

Definition code_char (c : Z) : Prop := 48 <= c <= 57 \/ c = 88.

Lemma code_char_kept c : code_char c -> kept c = true /\ to_ascii_uppercase c = c.
Proof.
  intros Hc. split.
  - unfold kept. rewrite (printable_not_ws c) by (unfold code_char in Hc; lia).
    destruct (Z.eqb_spec c 46); [unfold code_char in Hc; lia|done].
  - unfold to_ascii_uppercase, is_ascii_lower. rewrite (proj2 (in_range_false _ _ _)); [done|].
    unfold code_char in Hc. lia.
Qed.

Lemma compact_code s : Forall code_char s -> compact s = s.
Proof.
  unfold compact. induction 1 as [|c s Hc _ IH]; [done|]. cbn [List.filter].
  destruct (code_char_kept c Hc) as [-> Hu]. cbn [map]. by rewrite Hu, IH.
Qed.

Lemma digits_code s : is_digits s -> Forall code_char s.
Proof. intros H. eapply Forall_impl; [exact H|]. intros c Hc. by left. Qed.

Lemma clean_digit_ok raw max d :
  clean_digit raw max = Ok (Some d) ->
  Forall code_char d /\ d <> [] /\ str_len d <= max /\ clean_digit d max = Ok (Some d).
Proof.
  unfold clean_digit. cbv zeta. destruct (bool_decide_reflect (compact raw = [])) as [|Hne]; [done|].
  destruct (Z.ltb_spec max (str_len (compact raw))) as [|Hl]; [done|]. cbn [orb].
  destruct (forallb digit_or_x (compact raw)) eqn:Ef; [|done]. cbn [negb]. intros [= <-].
  assert (Forall code_char (compact raw)) as Hc.
  { apply Forall_forall. intros c Hc%list_elem_of_In. pose proof (proj1 (forallb_forall _ _) Ef c Hc) as H.
    unfold digit_or_x, is_ascii_digit in H. apply orb_prop in H as [H%in_range_true|H%Z.eqb_eq]; [by left|by right]. }
  split_and!; [done..|]. rewrite (compact_code (compact raw)) by done.
  rewrite bool_decide_eq_false_2, Ef by done. destruct (Z.ltb_spec max (str_len (compact raw))); [lia|done].
Qed.

Lemma split_once_none sep s : Forall (fun c => c <> sep) s -> split_once sep s = None.
Proof.
  induction 1 as [|c s Hc _ IH]; [done|]. cbn [split_once]. destruct (Z.eqb_spec c sep); [done|by rewrite IH].
Qed.

Lemma digits_no_dash n : is_digits n -> rsplit_once 45 n = None.
Proof.
  intros H. unfold rsplit_once. rewrite split_once_none; [done|].
  apply Forall_reverse. eapply Forall_impl; [exact H|]. cbn. lia.
Qed.

Lemma bank_clean_number_ok raw max dmax n d :
  bank_clean_number raw max dmax = Ok (n, d) ->
  (forall x, n = Some x -> is_digits x /\ x <> [] /\ len x <= max) /\
  (forall x, d = Some x -> clean_digit x dmax = Ok (Some x)) /\
  bank_clean_number (default [] n) max dmax = Ok (n, None).
Proof.
  unfold bank_clean_number at 1. cbv zeta. case_bool_decide as Hc; [by intros [= <- <-]|].
  intros ([num dig] & Hs & H)%bind_Ok.
  destruct (bool_decide_reflect (num = [])) as [|Hne]; [done|]. cbn [orb] in H.
  destruct (Z.ltb_spec max (str_len num)) as [|Hl]; [done|]. cbn [orb] in H.
  destruct (all_digits num) eqn:Ed; [|done]. cbn [negb] in H. apply (inj Ok) in H. injection H as <- <-.
  pose proof (proj1 (all_digits_is_digits _) Ed) as Hd. rewrite str_len_digits in Hl by done.
  split_and!.
  - by intros x [= <-].
  - intros x ->. destruct (rsplit_once 45 (compact raw)) as [[a b]|]; [|done].
    apply bind_Ok in Hs as (d' & Hd' & Hs). apply (inj Ok) in Hs. injection Hs as -> ->.
    apply clean_digit_ok in Hd'. tauto.
  - cbn [default]. unfold bank_clean_number. cbv zeta. unfold id. rewrite compact_code by (by apply digits_code).
    rewrite bool_decide_eq_false_2 by done. rewrite digits_no_dash by done. cbn [mbind result_bind].
    rewrite bool_decide_eq_false_2, str_len_digits, Ed by done. cbn [orb negb].
    destruct (Z.ltb_spec max (len num)); [lia|done].
Qed.

Lemma clean_pair_ok n d max dmax n' d' :
  clean_pair n d max dmax = Ok (n', d') ->
  (forall x, n' = Some x -> is_digits x /\ x <> [] /\ len x <= max) /\
  (forall x, d' = Some x -> Forall code_char x /\ x <> [] /\ str_len x <= dmax) /\
  clean_pair n' d' max dmax = Ok (n', d').
Proof.
  unfold clean_pair. intros ([num split] & Hn & H)%bind_Ok. apply bind_Ok in H as (own & Ho & H).
  destruct (_ && _) eqn:Eb; [done|]. apply (inj Ok) in H. injection H as <- <-.
  apply bank_clean_number_ok in Hn as (Hn & Hsp & Hagain).
  set (d' := match split with Some _ => split | None => own end).
  assert (Hd : forall x, d' = Some x -> clean_digit x dmax = Ok (Some x)).
  { intros x. subst d'. destruct split as [s|]; [intros [= ->]; by apply Hsp|].
    intros ->. apply clean_digit_ok in Ho. tauto. }
  split_and!; [done| |].
  - intros x Hx%Hd%clean_digit_ok. tauto.
  - rewrite Hagain. cbn [mbind result_bind].
    assert (clean_digit (default [] d') dmax = Ok d') as ->.
    { destruct d' as [x|]; [by apply Hd|done]. }
    cbn [mbind result_bind]. done.
Qed.

Lemma clean_text_idem raw max t : clean_text raw max = Ok t -> clean_opt_text t max = Ok t.
Proof.
  unfold clean_text. cbv zeta. destruct (_ || _) eqn:E; [done|]. intros [= <-].
  destruct (bool_decide (trim raw = [])) eqn:Ee; [done|]. cbn [clean_opt_text]. unfold clean_text.
  cbv zeta. by rewrite trim_idem, E, Ee.
Qed.

(** ** Properties *)

(** A cleaned bank account is clean: cleaning it again changes nothing,
    its numbers are digits within their limits with check digits of [0-9X],
    and the overview shows at most three characters of account and digit
    together (a two-character digit and one of the number at most), never of
    an account shorter than four digits. *)
Lemma bank_clean_normal b b' :
  bank_clean b = Ok b' ->
  bank_clean b' = Ok b' /\
  (forall a, account b' = Some a -> is_digits a /\ 1 <= len a <= 20) /\
  (forall x, branch b' = Some x -> is_digits x /\ 1 <= len x <= 8) /\
  (forall t, account_last3 (bank_summary b') = Some t ->
     (3 < length (default [] (account b')))%nat /\
     (length (filter (fun c => c <> 45%Z) t) <= 3)%nat).
Proof.
  unfold bank_clean at 1. intros ([br brd] & Hb & H)%bind_Ok. apply bind_Ok in H as ([ac acd] & Ha & H).
  apply bind_Ok in H as ([] & Hp & H). apply bind_Ok in H as ([] & Hn & H).
  apply bind_Ok in H as (bk & Hk & H). apply bind_Ok in H as (hd & Hh & H). apply (inj Ok) in H as <-.
  destruct (clean_pair_ok _ _ _ _ _ _ Hb) as (Hbr & _ & Hb').
  destruct (clean_pair_ok _ _ _ _ _ _ Ha) as (Hac & Had & Ha').
  assert (Hpos : forall x max, (is_digits x /\ x <> [] /\ len x <= max) -> is_digits x /\ 1 <= len x <= max).
  { intros x max (? & Hx & ?). split; [done|]. destruct x; [done|cbn [length] in *; lia]. }
  split_and!.
  - unfold bank_clean. cbn [bank holder_name account_type branch branch_digit account account_digit
      b_password b_notes b_sections b_app_bindings].
    rewrite Hb'. cbn [mbind result_bind]. rewrite Ha'. cbn [mbind result_bind].
    rewrite Hp. cbn [mbind result_bind]. rewrite Hn. cbn [mbind result_bind].
    assert (clean_opt_text bk MAX_BANK_CHARS = Ok bk) as ->.
    { destruct (bank b); cbn in Hk; [by eapply clean_text_idem|]. by apply (inj Ok) in Hk as <-. }
    assert (clean_opt_text hd MAX_HOLDER_CHARS = Ok hd) as Hh'.
    { destruct (holder_name b); cbn in Hh; [by eapply clean_text_idem|]. by apply (inj Ok) in Hh as <-. }
    cbn [mbind result_bind]. by rewrite Hh'.
  - intros a Hx. by apply Hpos, Hac.
  - intros a Hx. by apply Hpos, Hbr.
  - intros t. cbn [bank_summary account_last3 account account_digit]. destruct ac as [a|]; [|done].
    unfold MIN_DIGITS_FOR_LAST3. destruct (Nat.leb_spec 4 (length a)) as [Hl|]; [|done]. intros [= <-].
    split; [cbn; unfold id; lia|]. unfold last3. cbv zeta.
    assert (Hf : forall s : list Z, (length (filter (fun c => c <> 45%Z) s) <= length s)%nat) by apply length_filter.
    destruct acd as [d|]; cbn [default]; unfold id; cbn [length].
    + destruct (Had d eq_refl) as (Hc & Hne & Hdl). unfold MAX_ACCOUNT_DIGIT_CHARS in Hdl.
      assert (len d <= 2) as Hl2.
      { unfold str_len in Hdl. rewrite utf8_ascii in Hdl; [lia|].
        eapply Forall_impl; [exact Hc|]. unfold code_char. intros c. lia. }
      destruct d as [|x d]; [done|]. rewrite !filter_app, !length_app.
      etrans; [apply Nat.add_le_mono; [apply Hf|apply Nat.add_le_mono; [|apply Hf]]|].
      { instantiate (1 := 0%nat). by vm_compute. }
      rewrite length_drop. cbn [length] in *. lia.
    + etrans; [apply Hf|]. rewrite length_drop. lia.
Qed.

(** A check digit travels only with its number. *)
Lemma bank_values_digit b v :
  bank_values b = Some v ->
  (bv_branch v = None -> bv_branch_digit v = None) /\
  (bv_account v = None -> bv_account_digit v = None) /\
  (is_Some (bv_branch v) \/ is_Some (bv_account v)).
Proof.
  unfold bank_values. destruct (branch b), (account b); cbn; intros [= <-]; cbn; naive_solver.
Qed.

Definition sample_bank : BankAccountFields :=
  {| bank := Some (lit " Banco "); holder_name := None; account_type := None;
     branch := Some (lit "0001-9"); branch_digit := None; account := Some (lit "12.345-x");
     account_digit := None; b_password := None; b_notes := None; b_sections := [];
     b_app_bindings := [] |}.

Lemma bank_clean_normal_witness :
  exists b, bank_clean sample_bank = Ok b /\ bank_clean b = Ok b
    /\ account_last3 (bank_summary b) = Some (lit "45-X").
Proof.
  eexists. split; [vm_compute; reflexivity|]. split; [|vm_compute; reflexivity].
  eapply (bank_clean_normal sample_bank). vm_compute. reflexivity.
Defined.

Lemma bank_values_digit_witness :
  exists v, bank_values sample_bank = Some v /\ (is_Some (bv_branch v) \/ is_Some (bv_account v)).
Proof. eexists. split; [reflexivity|]. eapply (bank_values_digit sample_bank). reflexivity. Defined.
