(* ===== verification/Generator.v ===== *)
(** * The password generator (crates/havenkeys-core/src/generator.rs)

    The random source is an argument: [sample k n] is the [k]-th draw, from
    [0..n), the [Uniform] sampler of the [rand] crate.  The entropy figure (a
    float) is not modelled. *)

From S2P Require Import Prelude Errors Text.

Definition MIN_LENGTH : nat := 8.
Definition MAX_LENGTH : nat := 128.

Definition UPPER : list Z := lit "ABCDEFGHIJKLMNOPQRSTUVWXYZ".
Definition LOWER : list Z := lit "abcdefghijklmnopqrstuvwxyz".
Definition DIGITS : list Z := lit "0123456789".
Definition SYMBOLS : list Z := lit "!@#$%^&*()-_=+[]{};:,.?/~".
Definition AMBIGUOUS : list Z := lit "Il1O0o".

Record GeneratorOptions := {
  g_length : nat;
  uppercase : bool;
  lowercase : bool;
  g_digits : bool;
  symbols : bool;
  avoid_ambiguous : bool;
}.

#[export] Instance GeneratorOptions_eq_dec : EqDecision GeneratorOptions.
Proof. solve_decision. Defined.

Definition default_options : GeneratorOptions :=
  {| g_length := 24; uppercase := true; lowercase := true; g_digits := true; symbols := true;
     avoid_ambiguous := false |}.

Definition class (chars : list Z) (avoid : bool) : list Z :=
  List.filter (fun c => negb avoid || negb (existsb (Z.eqb c) AMBIGUOUS)) chars.

(** [GeneratorOptions::validate]. *)
Definition validate_options (o : GeneratorOptions) : Result () :=
  if negb ((MIN_LENGTH <=? g_length o) && (g_length o <=? MAX_LENGTH))%nat
  then Err (InvalidInput "password length out of range")
  else if negb (uppercase o || lowercase o || g_digits o || symbols o)
  then Err (InvalidInput "select at least one character type")
  else Ok ().

Definition enabled_classes (o : GeneratorOptions) : list (list Z) :=
  map (fun p => class p.2 (avoid_ambiguous o))
    (List.filter fst [(uppercase o, UPPER); (lowercase o, LOWER); (g_digits o, DIGITS); (symbols o, SYMBOLS)]).

Section Generate.
Variable sample : nat -> nat -> nat.

(** The draw counter is the state. *)
Definition pick (set : list Z) : M nat Error Z := fun k =>
  if bool_decide (set = []) then (k, Err (InvalidInput "empty character set"))
  else (S k, Ok (nth (sample k (length set)) set 0)).

Fixpoint pick_each (classes : list (list Z)) (out : list Z) : M nat Error (list Z) :=
  match classes with
  | [] => mret out
  | set :: classes => c ← pick set; pick_each classes (out ++ [c])
  end.

(** [while out.len() < options.length]. *)
Fixpoint pick_more (n : nat) (alphabet out : list Z) : M nat Error (list Z) :=
  match n with
  | O => mret out
  | S n => c ← pick alphabet; pick_more n alphabet (out ++ [c])
  end.

(** [out.swap(i, j)]. *)
Definition swap (i j : nat) (out : list Z) : list Z :=
  <[i := nth j out 0]> (<[j := nth i out 0]> out).

(** [for i in (1..out.len()).rev()]. *)
Fixpoint shuffle (i : nat) (out : list Z) : M nat Error (list Z) :=
  match i with
  | O => mret out
  | S i' => fun k => shuffle i' (swap i (sample k (S i)) out) (S k)
  end.

Definition generate (o : GeneratorOptions) : M nat Error (list Z) :=
  _ ← mlift (validate_options o);
  let classes := enabled_classes o in
  if bool_decide (classes = []) then mthrow_ (InvalidInput "select at least one character type")
  else
    out ← pick_each classes [];
    out ← pick_more (g_length o - length out) (concat classes) out;
    shuffle (length out - 1) out.
End Generate.

(** ** Lemmas *)

Section Lemmas.
Variable sample : nat -> nat -> nat.
Hypothesis sample_lt : forall k n, (0 < n)%nat -> (sample k n < n)%nat.

Lemma pick_ok set k : set <> [] -> exists c, pick sample set k = (S k, Ok c) /\ c ∈ set.
Proof.
  intros Hs. unfold pick. rewrite bool_decide_eq_false_2 by done. eexists. split; [done|].
  apply list_elem_of_In, nth_In, sample_lt. destruct set; [done|cbn; lia].
Qed.

Lemma pick_each_ok classes out k :
  Forall (.≠ []) classes ->
  exists k' l, pick_each sample classes out k = (k', Ok (out ++ l)) /\
    Forall2 (fun c set => c ∈ set) l classes.
Proof.
  intros Hc. revert out k. induction Hc as [|set classes Hs _ IH]; intros out k.
  - exists k, []. by rewrite app_nil_r.
  - destruct (pick_ok set k Hs) as (c & Hp & Hin). destruct (IH (out ++ [c]) (S k)) as (k' & l & H & Hl).
    exists k', (c :: l). split; [|by constructor].
    cbn [pick_each]. unfold mbind, M_bind. rewrite Hp, H, <- app_assoc. done.
Qed.

Lemma pick_more_ok n alphabet out k :
  alphabet <> [] ->
  exists k' l, pick_more sample n alphabet out k = (k', Ok (out ++ l)) /\
    length l = n /\ Forall (.∈ alphabet) l.
Proof.
  intros Ha. revert out k. induction n as [|n IH]; intros out k.
  - exists k, []. rewrite app_nil_r. split_and!; [done|done|constructor].
  - destruct (pick_ok alphabet k Ha) as (c & Hp & Hin).
    destruct (IH (out ++ [c]) (S k)) as (k' & l & H & Hl & Hf).
    exists k', (c :: l). split_and!; [|cbn; by rewrite Hl|by constructor].
    cbn [pick_more]. unfold mbind, M_bind. rewrite Hp, H, <- app_assoc. done.
Qed.

Lemma swap_perm i j out : (i < length out)%nat -> (j < length out)%nat -> swap i j out ≡ₚ out.
Proof.
  intros Hi Hj. unfold swap.
  destruct (nth_lookup_or_length out i 0) as [Ei|]; [|lia].
  destruct (nth_lookup_or_length out j 0) as [Ej|]; [|lia].
  destruct (decide (i = j)) as [->|Hne].
  - by rewrite (list_insert_id (<[j:=nth j out 0]> out)); rewrite ?(list_insert_id out) by done.
  - symmetry. apply Permutation_inj. rewrite !length_insert. split; [done|].
    exists (fun n => if decide (n = i) then j else if decide (n = j) then i else n). split.
    + intros a b. repeat case_decide; congruence.
    + intros n. repeat case_decide; subst.
      * rewrite list_lookup_insert_ne, list_lookup_insert_eq by done. done.
      * by rewrite list_lookup_insert_eq by (by rewrite length_insert).
      * by rewrite !list_lookup_insert_ne by done.
Qed.

Lemma shuffle_ok i out k :
  (i < length out)%nat -> exists k' l, shuffle sample i out k = (k', Ok l) /\ l ≡ₚ out.
Proof.
  revert out k. induction i as [|i IH]; intros out k Hi; [by exists k, out|].
  cbn [shuffle]. pose proof (sample_lt k (S (S i)) ltac:(lia)) as Hs.
  assert (swap (S i) (sample k (S (S i))) out ≡ₚ out) as Hp by (apply swap_perm; lia).
  destruct (IH (swap (S i) (sample k (S (S i))) out) (S k)) as (k' & l & H & Hl).
  { rewrite Hp. lia. }
  exists k', l. split; [done|]. by rewrite Hl.
Qed.

Lemma class_subset chars a c : c ∈ class chars a -> c ∈ chars /\ (a = true -> c ∉ AMBIGUOUS).
Proof.
  unfold class. rewrite !list_elem_of_In, filter_In. intros [Hc Hf]. split; [done|].
  intros -> Hin%list_elem_of_In. cbn in Hf. apply negb_true_iff in Hf.
  rewrite <- not_true_iff_false, existsb_exists in Hf. apply Hf. exists c.
  split; [by apply list_elem_of_In|apply Z.eqb_refl].
Qed.

Lemma class_ne chars a : chars ∈ [UPPER; LOWER; DIGITS; SYMBOLS] -> class chars a <> [].
Proof.
  rewrite !elem_of_cons. intros [->|[->|[->|[->|[]%elem_of_nil]]]]; by destruct a; vm_compute.
Qed.

Lemma enabled_classes_ok o :
  Forall (fun cl => cl <> [] /\ exists chars, chars ∈ [UPPER; LOWER; DIGITS; SYMBOLS] /\
                      cl = class chars (avoid_ambiguous o)) (enabled_classes o).
Proof.
  unfold enabled_classes. apply Forall_forall. intros cl (p & -> & Hp)%list_elem_of_fmap.
  apply list_elem_of_In, filter_In in Hp as [Hp _]. apply list_elem_of_In in Hp.
  assert (p.2 ∈ [UPPER; LOWER; DIGITS; SYMBOLS]) as H.
  { revert Hp. rewrite !elem_of_cons. intros [->|[->|[->|[->|[]%elem_of_nil]]]]; cbn; auto 6. }
  split; [by apply class_ne|]. by exists p.2.
Qed.
End Lemmas.

(** ** Properties *)

(** With any unbiased sampler, valid options always give a password: of
    the asked length, every character from an enabled class, at least one
    from each enabled class, and none ambiguous when those are avoided. *)
Lemma generate_spec (sample : nat -> nat -> nat) o k :
  (forall k n, (0 < n)%nat -> (sample k n < n)%nat) ->
  validate_options o = Ok () ->
  exists k' pw, generate sample o k = (k', Ok pw) /\
    length pw = g_length o /\
    Forall (fun c => c ∈ concat (enabled_classes o)) pw /\
    Forall (fun cl => exists c, c ∈ pw /\ c ∈ cl) (enabled_classes o) /\
    (avoid_ambiguous o = true -> Forall (fun c => c ∉ AMBIGUOUS) pw).
Proof.
  intros Hs Hv. pose proof (enabled_classes_ok o) as Hcl.
  assert (8 <= g_length o)%nat as Hlen.
  { unfold validate_options, MIN_LENGTH in Hv. destruct (Nat.leb_spec 8 (g_length o)); [done|]. done. }
  assert (enabled_classes o <> [] /\ (length (enabled_classes o) <= 4)%nat) as [Hne Hl4].
  { unfold validate_options in Hv. destruct (negb (_ && _)); [done|]. unfold enabled_classes.
    destruct (uppercase o), (lowercase o), (g_digits o), (symbols o); cbn in Hv |- *; done || (split; [done|lia]). }
  unfold generate, mbind, M_bind, mlift. rewrite Hv. cbv zeta. rewrite bool_decide_eq_false_2 by done.
  assert (Forall (.≠ []) (enabled_classes o)) as Hcne.
  { eapply Forall_impl; [exact Hcl|]. by intros cl [? _]. }
  destruct (pick_each_ok sample Hs (enabled_classes o) [] k Hcne) as (k1 & l1 & -> & H1).
  rewrite app_nil_l. pose proof (Forall2_length _ _ _ H1) as Hl1.
  assert (concat (enabled_classes o) <> []) as Ha.
  { destruct Hcne as [|c cs Hc _]; [done|]. by destruct c. }
  destruct (pick_more_ok sample Hs (g_length o - length l1) (concat (enabled_classes o)) l1 k1 Ha)
    as (k2 & l2 & -> & Hl2 & H2).
  destruct (shuffle_ok sample Hs (length (l1 ++ l2) - 1) (l1 ++ l2) k2) as (k3 & pw & -> & Hp).
  { rewrite length_app. lia. }
  assert (Forall (fun c => c ∈ concat (enabled_classes o)) pw) as Hall.
  { rewrite Hp. apply Forall_app. split; [|done]. apply Forall_forall. intros c (i & Hi)%list_elem_of_lookup.
    destruct (Forall2_lookup_l _ _ _ _ _ H1 Hi) as (cl & Hcl' & Hin).
    apply list_elem_of_In, in_concat. exists cl. split; apply list_elem_of_In; [by eapply list_elem_of_lookup_2|done]. }
  exists k3, pw. split_and!; [done| |done| |].
  - rewrite Hp, length_app. lia.
  - apply Forall_forall. intros cl (i & Hi)%list_elem_of_lookup.
    destruct (Forall2_lookup_r _ _ _ _ _ H1 Hi) as (c & Hc & Hin). exists c. split; [|done].
    rewrite Hp. apply elem_of_app. left. by eapply list_elem_of_lookup_2.
  - intros Hav. eapply Forall_impl; [exact Hall|]. intros c Hc%list_elem_of_In.
    apply in_concat in Hc as (cl & Hcl'%list_elem_of_In & Hc%list_elem_of_In).
    rewrite Forall_forall in Hcl. destruct (Hcl _ Hcl') as (_ & chars & _ & ->).
    by apply (class_subset chars (avoid_ambiguous o)).
Qed.

Lemma generate_spec_witness :
  validate_options default_options = Ok () /\
  exists k' pw, generate (fun k n => Nat.modulo k n) default_options 0%nat = (k', Ok pw) /\ length pw = 24%nat.
Proof.
  split; [reflexivity|].
  destruct (generate_spec (fun k n => Nat.modulo k n) default_options 0%nat) as (k' & pw & H & Hl & _).
  - intros k n Hn. apply Nat.mod_upper_bound. lia.
  - reflexivity.
  - exists k', pw. split; [exact H|exact Hl].
Defined.
