(* ===== verification/Sso.v ===== *)
(** * "Sign in with" providers (crates/havenkeys-core/src/sso.rs) *)

From S2P Require Import Prelude Errors Text Clean.

Definition MAX_ACCOUNT_CHARS : nat := 254.

Inductive SsoProvider :=
| Google | Microsoft | Github | Apple | Facebook | Discord | X | Linkedin | Gitlab.

#[export] Instance SsoProvider_eq_dec : EqDecision SsoProvider.
Proof. solve_decision. Defined.

Definition ALL : list SsoProvider :=
  [Apple; Discord; Facebook; Github; Gitlab; Google; Linkedin; Microsoft; X].

Definition name (p : SsoProvider) : list Z :=
  lit match p with
      | Google => "Google"
      | Microsoft => "Microsoft"
      | Github => "GitHub"
      | Apple => "Apple"
      | Facebook => "Facebook"
      | Discord => "Discord"
      | X => "X"
      | Linkedin => "LinkedIn"
      | Gitlab => "GitLab"
      end.

Definition origins (p : SsoProvider) : list (list Z) :=
  match p with
  | Google => [lit "https://accounts.google.com"]
  | Microsoft => [lit "https://login.microsoftonline.com"; lit "https://login.live.com"]
  | Github => [lit "https://github.com"]
  | Apple => [lit "https://appleid.apple.com"]
  | Facebook => [lit "https://www.facebook.com"]
  | Discord => [lit "https://discord.com"]
  | X => [lit "https://x.com"; lit "https://api.x.com"]
  | Linkedin => [lit "https://www.linkedin.com"]
  | Gitlab => [lit "https://gitlab.com"]
  end.

Definition allows_origin (p : SsoProvider) (origin : list Z) : bool :=
  existsb (fun o => bool_decide (o = origin)) (origins p).

Definition from_name (n : list Z) : option SsoProvider :=
  let n := trim n in
  if eq_ignore_ascii_case n (lit "twitter") then Some X
  else List.find (fun p => eq_ignore_ascii_case (name p) n) ALL.

Record SignInWith := { provider : SsoProvider; sso_account : option (list Z) }.

#[export] Instance SignInWith_eq_dec : EqDecision SignInWith.
Proof. solve_decision. Defined.

Definition clean_sign_in_with (value : option SignInWith) : Result (option SignInWith) :=
  match value with
  | None => Ok None
  | Some v =>
      account ← match trimmed_nonempty (sso_account v) with
                | None => Ok None
                | Some a =>
                    if (MAX_ACCOUNT_CHARS <? length a)%nat || existsb is_control a
                    then Err (InvalidInput "account is too long or contains control characters")
                    else Ok (Some a)
                end;
      Ok (Some {| provider := provider v; sso_account := account |})
  end.

(** ** Properties *)

(** A sign-in run continues only into https origins, and no origin
    belongs to two providers: one provider's login never continues into
    another's page; and every provider is found by its name. *)
Lemma sso_origins_disjoint p q o :
  allows_origin p o = true -> allows_origin q o = true ->
  p = q /\ starts_with (lit "https://") o = true /\ from_name (name p) = Some p.
Proof.
  unfold allows_origin. rewrite !existsb_exists. intros (a & Ha & Ea) (b & Hb & Eb).
  apply bool_decide_eq_true in Ea, Eb. subst a b.
  apply list_elem_of_In in Ha, Hb.
  cut (p = q /\ starts_with (lit "https://") o = true).
  { intros [? ?]. split_and!; [done..|]. destruct p; vm_compute; reflexivity. }
  destruct p; cbn [origins] in Ha; rewrite !elem_of_cons in Ha; destruct_or?;
    try (by apply elem_of_nil in Ha); subst o; (split; [|vm_compute; reflexivity]);
    destruct q; try reflexivity; exfalso; cbn [origins] in Hb; rewrite !elem_of_cons in Hb;
    destruct_or?; try (by apply elem_of_nil in Hb); vm_compute in Hb; discriminate.
Qed.

Lemma sso_origins_disjoint_witness :
  allows_origin X (lit "https://api.x.com") = true /\ X = X.
Proof.
  split; [vm_compute; reflexivity|].
  apply (sso_origins_disjoint X X (lit "https://api.x.com")); vm_compute; reflexivity.
Defined.
