(* ===== verification/Attachment.v ===== *)
(** * Attachment names and types (crates/havenkeys-core/src/attachment.rs)

    The record of an attached file, the sanitizer every name goes through,
    and the type sniffed from a file's first bytes. *)

From S2P Require Import Prelude Errors Text.

Definition MAX_ATTACHMENT_BYTES : Z := 5 * 1024 * 1024.
Definition MAX_ATTACHMENTS_PER_ITEM : nat := 20.
Definition MAX_NAME_CHARS : nat := 120.
Definition MAX_EXTENSION_CHARS : nat := 10.
Definition FALLBACK_NAME : list Z := lit "attachment".

(** [extra] is the JSON object of unknown fields: keys and raw values. *)
Record AttachmentMeta := {
  att_id : Z;
  att_name : list Z;
  mime : list Z;
  size : Z;
  blob_sha256 : list Z;
  att_created_at : Z;
  att_extra : list (list Z * list Z);
}.

#[export] Instance AttachmentMeta_eq_dec : EqDecision AttachmentMeta.
Proof. solve_decision. Defined.

(** [TRIMMED]. *)
Definition trimmed_char (c : Z) : bool := is_whitespace c || (c =? 46).

Definition is_hidden (c : Z) : bool :=
  is_control c || (c =? 1564) || in_range 8203 8207 c || in_range 8232 8238 c
  || (c =? 8288) || in_range 8294 8297 c || (c =? 65279).

(** [rsplit(['/', '\\']).next()]: the text after the last separator. *)
Definition is_separator (c : Z) : bool := (c =? 47) || (c =? 92).
Definition last_component (s : list Z) : list Z :=
  foldl (fun acc c => if is_separator c then [] else acc ++ [c]) [] s.

(** [split('.').next()]: the text before the first dot. *)
Fixpoint before_dot (s : list Z) : list Z :=
  match s with c :: s => if c =? 46 then [] else c :: before_dot s | [] => [] end.

Definition is_device_name (name : list Z) : bool :=
  let stem := trim_end (before_dot name) in
  let numbered prefix :=
    (length stem =? 4)%nat && forallb is_ascii stem
    && eq_ignore_ascii_case (take 3 stem) prefix
    && in_range 49 57 (nth 3 stem 0) in
  existsb (eq_ignore_ascii_case stem) [lit "CON"; lit "PRN"; lit "AUX"; lit "NUL"]
  || numbered (lit "COM") || numbered (lit "LPT").

(** [trim_matches], [trim_start_matches] and [trim_end_matches] of a class. *)
Fixpoint drop_start (p : Z -> bool) (s : list Z) : list Z :=
  match s with c :: s' => if p c then drop_start p s' else s | [] => [] end.
Definition drop_end (p : Z -> bool) (s : list Z) : list Z := reverse (drop_start p (reverse s)).
Definition drop_both (p : Z -> bool) (s : list Z) : list Z := drop_end p (drop_start p s).

(** [name.rfind('.').map(|i| &name[i..])]: the last dot and what follows. *)
Fixpoint from_last_dot (s : list Z) : option (list Z) :=
  match s with
  | [] => None
  | c :: s' =>
      match from_last_dot s' with
      | Some e => Some e
      | None => if c =? 46 then Some s else None
      end
  end.

Definition extension (name : list Z) : list Z :=
  match from_last_dot name with
  | Some e => if (length e <=? MAX_EXTENSION_CHARS)%nat then e else []
  | None => []
  end.

Definition cap_length (name : list Z) : list Z :=
  if (length name <=? MAX_NAME_CHARS)%nat then name
  else let ext := extension name in take (MAX_NAME_CHARS - length ext) name ++ ext.

(** The closure that replaces the reserved characters: less, greater, colon,
    double quote, bar, question mark and star. *)
Definition replace_reserved (c : Z) : Z :=
  if existsb (Z.eqb c) [60; 62; 58; 34; 124; 63; 42] then 95 else c.

Definition sanitize_name (raw : list Z) : list Z :=
  let last := last_component raw in
  let cleaned := map replace_reserved (List.filter (fun c => negb (is_hidden c)) last) in
  let name := drop_both trimmed_char cleaned in
  if bool_decide (name = []) then FALLBACK_NAME
  else
    let name := drop_end trimmed_char (cap_length name) in
    if is_device_name name then 95 :: name else name.

(** [sniff]; [\x89] and [\xFF] are spelled as numbers. *)
Definition sniff (bytes : list Z) : list Z :=
  if starts_with ([137] ++ lit "PNG" ++ [13; 10; 26; 10]) bytes then lit "image/png"
  else if starts_with [255; 216; 255] bytes then lit "image/jpeg"
  else if starts_with (lit "RIFF") bytes && bool_decide (take 4 (drop 8 bytes) = lit "WEBP")
  then lit "image/webp"
  else if starts_with (lit "GIF87a") bytes || starts_with (lit "GIF89a") bytes then lit "image/gif"
  else if starts_with (lit "%PDF-") bytes then lit "application/pdf"
  else lit "application/octet-stream".

Definition is_previewable (mime : list Z) : bool :=
  existsb (fun m => bool_decide (mime = m))
    [lit "image/png"; lit "image/jpeg"; lit "image/webp"; lit "image/gif"].

(** ** Lemmas *)

(** What a file name may hold after cleaning. *)
Definition safe_char (c : Z) : Prop :=
  is_hidden c = false /\ is_separator c = false /\ existsb (Z.eqb c) [60; 62; 58; 34; 124; 63; 42] = false.

Lemma last_component_no_sep s : Forall (fun c => is_separator c = false) (last_component s).
Proof.
  unfold last_component. set (f := fun acc c => _).
  assert (forall acc, Forall (fun c => is_separator c = false) acc ->
            Forall (fun c => is_separator c = false) (foldl f acc s)) as H; [|by apply H].
  induction s as [|c s IH]; intros acc H; [done|]. cbn [foldl]. apply IH. subst f. cbn beta.
  destruct (is_separator c) eqn:E; [constructor|]. apply Forall_app. split; [done|by repeat constructor].
Qed.

Lemma replace_reserved_safe c :
  is_hidden c = false -> is_separator c = false -> safe_char (replace_reserved c).
Proof.
  intros H1 H2. unfold replace_reserved. destruct (existsb _ _) eqn:E; [|done]. by vm_compute.
Qed.

Lemma cleaned_safe s :
  Forall safe_char (map replace_reserved (List.filter (fun c => negb (is_hidden c)) (last_component s))).
Proof.
  apply Forall_fmap, Forall_forall. intros c [Hc Hh]%list_elem_of_In%filter_In.
  apply list_elem_of_In in Hc. apply replace_reserved_safe; [by apply negb_true_iff|].
  pose proof (last_component_no_sep s) as H. rewrite Forall_forall in H. by apply H.
Qed.

Lemma drop_start_suffix p s : exists q, s = q ++ drop_start p s.
Proof.
  induction s as [|c s [q Hq]]; [by exists []|]. cbn [drop_start].
  destruct (p c); [exists (c :: q); cbn; by rewrite <- Hq|by exists []].
Qed.

Lemma drop_end_prefix p s : exists q, s = drop_end p s ++ q.
Proof.
  unfold drop_end. destruct (drop_start_suffix p (reverse s)) as [q Hq].
  exists (reverse q). by rewrite <- reverse_app, <- Hq, reverse_involutive.
Qed.

Lemma Forall_drop_end (P : Z -> Prop) p s : Forall P s -> Forall P (drop_end p s).
Proof. intros H. destruct (drop_end_prefix p s) as [q Hq]. rewrite Hq in H. by apply Forall_app in H as [? _]. Qed.

Lemma Forall_drop_start (P : Z -> Prop) p s : Forall P s -> Forall P (drop_start p s).
Proof. intros H. destruct (drop_start_suffix p s) as [q Hq]. rewrite Hq in H. by apply Forall_app in H as [_ ?]. Qed.

Lemma drop_end_length p s : (length (drop_end p s) <= length s)%nat.
Proof. destruct (drop_end_prefix p s) as [q Hq]. rewrite Hq at 2. rewrite length_app. lia. Qed.

Lemma drop_start_head p s c t : drop_start p s = c :: t -> p c = false.
Proof.
  induction s as [|d s IH]; [done|]. cbn [drop_start]. destruct (p d) eqn:E; [done|]. by intros [= -> ->].
Qed.

(** The first character kept by trimming is not a trimmed one, so trimming
    the end of a text that starts with one never empties it. *)
Lemma drop_both_head p s c t : drop_both p s = c :: t -> p c = false.
Proof.
  unfold drop_both. intros H. destruct (drop_end_prefix p (drop_start p s)) as [q Hq].
  rewrite H in Hq. by apply (drop_start_head p s c (t ++ q)).
Qed.

Lemma drop_start_snoc p s c : p c = false -> exists t, drop_start p (s ++ [c]) = t ++ [c].
Proof.
  intros Hc. induction s as [|d s [t Ht]]; cbn [drop_start app].
  - rewrite Hc. by exists [].
  - destruct (p d); [by exists t|by exists (d :: s)].
Qed.

Lemma drop_end_cons p c s : p c = false -> exists t, drop_end p (c :: s) = c :: t.
Proof.
  intros Hc. unfold drop_end. rewrite reverse_cons.
  destruct (drop_start_snoc p (reverse s) c Hc) as [t ->].
  exists (reverse t). by rewrite reverse_snoc.
Qed.

Lemma from_last_dot_suffix s e : from_last_dot s = Some e -> exists q, s = q ++ e.
Proof.
  revert e. induction s as [|c s IH]; intros e; cbn [from_last_dot]; [done|].
  destruct (from_last_dot s) as [e'|].
  - intros [= <-]. destruct (IH e' eq_refl) as [q ->]. by exists (c :: q).
  - destruct (c =? 46); [|done]. intros [= <-]. by exists [].
Qed.

Lemma extension_ok name :
  (length (extension name) <= MAX_EXTENSION_CHARS)%nat /\ exists q, name = q ++ extension name.
Proof.
  unfold extension. destruct (from_last_dot name) as [e|] eqn:E; [|split; [cbn; lia|exists name; by rewrite app_nil_r]].
  destruct (Nat.leb_spec (length e) MAX_EXTENSION_CHARS); [|split; [cbn; lia|exists name; by rewrite app_nil_r]].
  split; [done|]. by apply from_last_dot_suffix.
Qed.

Lemma cap_length_ok name :
  (length (cap_length name) <= MAX_NAME_CHARS)%nat /\
  (forall P : Z -> Prop, Forall P name -> Forall P (cap_length name)) /\
  (forall c t, name = c :: t -> exists t', cap_length name = c :: t').
Proof.
  unfold cap_length. destruct (Nat.leb_spec (length name) MAX_NAME_CHARS) as [Hl|Hl].
  - split_and!; [done|done|]. intros c t ->. by exists t.
  - cbv zeta. destruct (extension_ok name) as [He [q Hq]]. unfold MAX_EXTENSION_CHARS, MAX_NAME_CHARS in *.
    split_and!.
    + rewrite length_app, length_take. lia.
    + intros P HP. apply Forall_app. split; [by apply Forall_take|].
      rewrite Hq in HP. by apply Forall_app in HP as [_ ?].
    + intros c t ->. remember (120 - length (extension (c :: t)))%nat as n eqn:En.
      destruct n as [|n]; [lia|]. cbn [take app]. by eexists.
Qed.

Lemma underscore_not_device name : is_device_name (95 :: name) = false.
Proof.
  unfold is_device_name. cbv zeta. cbn [before_dot]. change (95 =? 46) with false. cbv iota.
  destruct (trim_end_prefix (95 :: before_dot name)) as [q Hq].
  assert (trim_end (95 :: before_dot name) = [] \/ exists t, trim_end (95 :: before_dot name) = 95 :: t) as Hs.
  { destruct (trim_end _) as [|c t]; [by left|]. right. injection Hq as <- _. by exists t. }
  destruct Hs as [->|[t ->]]; [by vm_compute|].
  assert (forall d r, to_ascii_lowercase d <> 95 -> eq_ignore_ascii_case (95 :: t) (d :: r) = false) as Hne.
  { intros d r Hd. unfold eq_ignore_ascii_case. apply bool_decide_eq_false. cbn [map]. intros [= E _]. by apply Hd. }
  assert (forall d r, to_ascii_lowercase d <> 95 -> eq_ignore_ascii_case (take 3 (95 :: t)) (d :: r) = false) as Hnt.
  { intros d r Hd. unfold eq_ignore_ascii_case. apply bool_decide_eq_false. cbn [map take]. intros [= E _]. by apply Hd. }
  change (lit "CON") with [67; 79; 78]. change (lit "PRN") with [80; 82; 78].
  change (lit "AUX") with [65; 85; 88]. change (lit "NUL") with [78; 85; 76].
  change (lit "COM") with [67; 79; 77]. change (lit "LPT") with [76; 80; 84].
  cbn [existsb]. rewrite !Hne, !Hnt by (vm_compute; discriminate).
  rewrite !andb_false_r. done.
Qed.

(** ** Properties *)

(** A sanitized name is safe to write to disk: not empty, no path
    separator, control, direction-override or reserved character, not a
    Windows device name, not ending in a dot or a space, and at most 121
    characters. *)
Lemma sanitize_name_safe raw :
  sanitize_name raw <> [] /\
  Forall safe_char (sanitize_name raw) /\
  is_device_name (sanitize_name raw) = false /\
  (forall c t, reverse (sanitize_name raw) = c :: t -> trimmed_char c = false) /\
  (length (sanitize_name raw) <= 121)%nat.
Proof.
  unfold sanitize_name. cbv zeta. pose proof (cleaned_safe raw) as Hs.
  set (cleaned := map replace_reserved _) in *.
  assert (Forall safe_char (drop_both trimmed_char cleaned)) as Hsafe.
  { by apply Forall_drop_end, Forall_drop_start. }
  destruct (drop_both trimmed_char cleaned) as [|c t] eqn:En.
  - rewrite bool_decide_eq_true_2 by done. split_and!; [by vm_compute| |by vm_compute| |by vm_compute; lia].
    + repeat constructor.
    + intros d u Hr. vm_compute in Hr. injection Hr as <- _. done.
  - rewrite bool_decide_eq_false_2 by done. pose proof (drop_both_head _ _ _ _ En) as Hc.
    destruct (cap_length_ok (c :: t)) as (Hl & Hf & Hh). destruct (Hh c t eq_refl) as [t' Et].
    specialize (Hf _ Hsafe). rewrite Et in *.
    pose proof (Forall_drop_end _ trimmed_char _ Hf) as Hfin. pose proof (drop_end_length trimmed_char (c :: t')) as Hle.
    assert (forall d u, reverse (drop_end trimmed_char (c :: t')) = d :: u -> trimmed_char d = false) as Hend.
    { intros d u. unfold drop_end. rewrite reverse_involutive. apply drop_start_head. }
    destruct (drop_end_cons trimmed_char c t' Hc) as [t'' Ed]. rewrite Ed in *. unfold MAX_NAME_CHARS in Hl.
    destruct (is_device_name (c :: t'')) eqn:Edev.
    + split_and!; [done|constructor; [by vm_compute|done]|apply underscore_not_device| |cbn [length] in *; lia].
      intros d u. rewrite reverse_cons. intros Hr.
      destruct (reverse (c :: t'')) as [|d' u'] eqn:Er; [apply (f_equal length) in Er; by rewrite length_reverse in Er|].
      injection Hr as <- _. by apply (Hend d' u').
    + split_and!; [done|done|done|exact Hend|cbn [length] in *; lia].
Qed.

(** A device name of 120 characters or more keeps its cap and then gains the
    underscore: 121 characters, where the doc comment promises 120. *)
Lemma sanitize_name_over_cap :
  length (sanitize_name (lit "CON." ++ replicate 200 97)) = 121%nat.
Proof. vm_compute. reflexivity. Qed.
