(* ===== verification/Model.v ===== *)
(** * The item model (crates/havenkeys-core/src/model.rs)

    Overviews and details, the editor's input and its shape check, and the
    settings.  Unknown JSON fields ([extra]) are kept as keys and raw values. *)

From S2P Require Import Prelude Errors Text Url Clean Totp Sso Card Identity CustomField.
From S2P Require Import Bank Attachment Generator.

Definition MAX_URLS : nat := 32.
Definition MAX_PASSWORD_HISTORY : nat := 5.

Inductive ItemType := Login | SecureNote | Identity | CardItem | BankAccount.

#[export] Instance ItemType_eq_dec : EqDecision ItemType.
Proof. solve_decision. Defined.

Definition is_site_bound (t : ItemType) : bool :=
  match t with Login | BankAccount => true | _ => false end.

Inductive MatchType := Exact | Origin | Domain.
Record UrlRule := { url : list Z; match_type : MatchType }.

#[export] Instance MatchType_eq_dec : EqDecision MatchType.
Proof. solve_decision. Defined.
#[export] Instance UrlRule_eq_dec : EqDecision UrlRule.
Proof. solve_decision. Defined.

Record ItemOverview := {
  id : Z;
  item_type : ItemType;
  title : list Z;
  username : option (list Z);
  urls : list UrlRule;
  has_password : bool;
  has_totp : bool;
  has_notes : bool;
  has_passkey : bool;
  auto_sign_in : bool;
  sign_in_with : option SignInWith;
  card : option CardSummary;
  bank : option BankSummary;
  tags : list (list Z);
  trashed_at : option Z;
  attachments : list AttachmentMeta;
  extra : list (list Z * list Z);
  created_at : Z;
  updated_at : Z;
}.

#[export] Instance ItemOverview_eq_dec : EqDecision ItemOverview.
Proof. solve_decision. Defined.

(** A stored passkey (passkey/mod.rs, [Passkey]) and the dismissable health
    checks (health/mod.rs, [HealthCheck]). *)
Record Passkey := {
  credential_id : list Z;
  rp_id : list Z;
  user_handle : list Z;
  user_name : list Z;
  display_name : option (list Z);
  private_key : list Z;
  pk_created_at : Z;
  pk_replaced_at : option Z;
}.

Inductive HealthCheck := Weak | Reused | Old | PasskeyCheck | TwoFactor | Insecure | Duplicate.

Record PreviousPassword := { pp_password : list Z; replaced_at : Z }.

#[export] Instance Passkey_eq_dec : EqDecision Passkey.
Proof. solve_decision. Defined.
#[export] Instance HealthCheck_eq_dec : EqDecision HealthCheck.
Proof. solve_decision. Defined.
#[export] Instance PreviousPassword_eq_dec : EqDecision PreviousPassword.
Proof. solve_decision. Defined.

Record LoginDetails := {
  password : option (list Z);
  totp : option TotpConfig;
  notes : option (list Z);
  password_history : list PreviousPassword;
  passkeys : list Passkey;
  sections : list FieldSection;
  app_bindings : list AppBinding;
  health_ignored : list HealthCheck;
}.

Inductive ItemDetails :=
| DLogin (l : LoginDetails)
| DNote (content : list Z) (sections : list FieldSection)
| DIdentity (i : IdentityFields)
| DCard (c : CardFields)
| DBank (b : BankAccountFields).

#[export] Instance LoginDetails_eq_dec : EqDecision LoginDetails.
Proof. solve_decision. Defined.
#[export] Instance ItemDetails_eq_dec : EqDecision ItemDetails.
Proof. solve_decision. Defined.

(** [ItemDetails::item_type]. *)
Definition details_type (d : ItemDetails) : ItemType :=
  match d with
  | DLogin _ => Login
  | DNote _ _ => SecureNote
  | DIdentity _ => Identity
  | DCard _ => CardItem
  | DBank _ => BankAccount
  end.

Record ItemInput := {
  in_type : ItemType;
  in_title : list Z;
  in_username : option (list Z);
  in_urls : list UrlRule;
  in_password : SecretUpdate;
  in_totp : SecretUpdate;
  in_notes : SecretUpdate;
  in_content : SecretUpdate;
  in_auto_sign_in : option bool;
  in_sign_in_with : option SignInWith;
  in_identity : option IdentityFields;
  in_card : option CardInput;
  in_bank : option BankAccountInput;
  in_sections : option (list SectionInput);
  in_tags : option (list (list Z));
}.

(** [ItemInput::blank]. *)
Definition blank (t : ItemType) (title : list Z) : ItemInput :=
  {| in_type := t; in_title := title; in_username := None; in_urls := []; in_password := Keep;
     in_totp := Keep; in_notes := Keep; in_content := Keep; in_auto_sign_in := None;
     in_sign_in_with := None; in_identity := None; in_card := None; in_bank := None;
     in_sections := None; in_tags := None |}.

Inductive SecretField := SfPassword | SfNotes | SfContent.
Inductive Theme := Dark | Light | System.

#[export] Instance Theme_eq_dec : EqDecision Theme.
Proof. solve_decision. Defined.

Record Settings := {
  auto_lock_minutes : Z;
  clipboard_clear_seconds : Z;
  theme : Theme;
  browser_integration : bool;
  auto_passkey_upgrade : bool;
  set_auto_sign_in : bool;
  equivalent_domains : bool;
  generator : GeneratorOptions;
}.

#[export] Instance Settings_eq_dec : EqDecision Settings.
Proof. solve_decision. Defined.

Definition AUTO_LOCK_CHOICES : list Z := [0; 5; 15; 30; 60].

(** [Settings::default], [restrictive] and [validate]. *)
Definition settings_default : Settings :=
  {| auto_lock_minutes := 15; clipboard_clear_seconds := 30; theme := Dark;
     browser_integration := false; auto_passkey_upgrade := true; set_auto_sign_in := true;
     equivalent_domains := true; generator := default_options |}.

Definition settings_restrictive : Settings :=
  {| auto_lock_minutes := auto_lock_minutes settings_default;
     clipboard_clear_seconds := clipboard_clear_seconds settings_default;
     theme := theme settings_default;
     browser_integration := false; auto_passkey_upgrade := false; set_auto_sign_in := false;
     equivalent_domains := false; generator := generator settings_default |}.

Definition settings_validate (s : Settings) : Result () :=
  if negb (existsb (Z.eqb (auto_lock_minutes s)) AUTO_LOCK_CHOICES)
  then Err (InvalidInput "unsupported auto-lock interval")
  else if negb (in_range 10 300 (clipboard_clear_seconds s))
  then Err (InvalidInput "clipboard timeout must be 10-300 seconds")
  else validate_options (generator s).

(** ** Validation *)

Definition clean_urls `{UL : UrlLib} (l : list UrlRule) : Result (list UrlRule) :=
  if (MAX_URLS <? length l)%nat then Err (InvalidInput "too many websites")
  else mapM_result (fun r => u ← normalize_url (url r); Ok {| url := u; match_type := match_type r |})
         (List.filter (fun r => negb (bool_decide (trim (url r) = []))) l).

(** [username.is_some_and(|u| !u.trim().is_empty())]. *)
Definition username_given (i : ItemInput) : bool :=
  match in_username i with Some u => negb (bool_decide (trim u = [])) | None => false end.

Definition is_none {A} (o : option A) : bool := match o with None => true | _ => false end.
Definition is_some {A} (o : option A) : bool := negb (is_none o).

Definition login_fields (i : ItemInput) : bool :=
  username_given i || negb (bool_decide (in_urls i = [])) || negb (is_keep (in_password i))
  || negb (is_keep (in_totp i)) || negb (is_keep (in_notes i)) || is_some (in_sign_in_with i).

Definition type_in (t : ItemType) (l : list ItemType) : bool := bool_decide (t ∈ l).

(** The arms of [check_shape]'s [match], in order. *)
Definition check_shape (i : ItemInput) : Result () :=
  let t := in_type i in
  let identity_only := login_fields i || negb (is_keep (in_content i)) in
  if negb (type_in t [Login; SecureNote; BankAccount]) && is_some (in_sections i)
  then Err (InvalidInput "only a login, a bank account or a secure note has custom fields")
  else if type_in t [BankAccount] && is_none (in_bank i)
  then Err (InvalidInput "a bank account needs its values")
  else if type_in t [BankAccount]
       && (username_given i || negb (is_keep (in_totp i)) || negb (is_keep (in_content i))
           || is_some (in_sign_in_with i) || is_some (in_identity i) || is_some (in_card i))
  then Err (InvalidInput "a bank account only has bank values")
  else if type_in t [Login; SecureNote; Identity; CardItem] && is_some (in_bank i)
  then Err (InvalidInput "only a bank account has bank values")
  else if type_in t [CardItem] && is_none (in_card i)
  then Err (InvalidInput "a card needs its values")
  else if type_in t [CardItem] && (identity_only || is_some (in_identity i))
  then Err (InvalidInput "a card only has card values")
  else if type_in t [Login; SecureNote; Identity] && is_some (in_card i)
  then Err (InvalidInput "only a card has card values")
  else if type_in t [Identity] && is_none (in_identity i)
  then Err (InvalidInput "an identity needs its values")
  else if type_in t [Identity] && identity_only
  then Err (InvalidInput "an identity only has identity values")
  else if type_in t [Login; SecureNote] && is_some (in_identity i)
  then Err (InvalidInput "only an identity has identity values")
  else if type_in t [Login] && negb (is_keep (in_content i))
  then Err (InvalidInput "logins do not have note content")
  else if type_in t [SecureNote] && login_fields i
  then Err (InvalidInput "secure notes only have a title and content")
  else Ok ().

(** [FileEdits] and [FileEdits::apply] (attachment.rs). *)
Record FileEdits := { added : list AttachmentMeta; removed : list Z }.

Definition with_attachments (o : ItemOverview) (l : list AttachmentMeta) : ItemOverview :=
  {| id := id o; item_type := item_type o; title := title o; username := username o; urls := urls o;
     has_password := has_password o; has_totp := has_totp o; has_notes := has_notes o;
     has_passkey := has_passkey o; auto_sign_in := auto_sign_in o; sign_in_with := sign_in_with o;
     card := card o; bank := bank o; tags := tags o; trashed_at := trashed_at o; attachments := l;
     extra := extra o; created_at := created_at o; updated_at := updated_at o |}.

Definition retain_other (x : Z) (l : list AttachmentMeta) : list AttachmentMeta :=
  List.filter (fun m => negb (att_id m =? x)) l.

Fixpoint remove_files (ids : list Z) (l : list AttachmentMeta) : Result (list AttachmentMeta) :=
  match ids with
  | [] => Ok l
  | x :: ids =>
      let l' := retain_other x l in
      if (length l' =? length l)%nat then Err NotFound else remove_files ids l'
  end.

Definition apply_files (e : FileEdits) (o : ItemOverview) : Result (ItemOverview * option (list Z)) :=
  if bool_decide (added e = []) && bool_decide (removed e = []) then Ok (o, None)
  else
    l ← remove_files (removed e) (attachments o);
    let l := l ++ added e in
    if (MAX_ATTACHMENTS_PER_ITEM <? length l)%nat
    then Err (InvalidInput "An item holds up to 20 files")
    else Ok (with_attachments o l, Some (map att_id l)).

(** ** Properties *)

(** What an input of each type may hold. *)
Definition shape_ok (i : ItemInput) : Prop :=
  match in_type i with
  | Login => in_content i = Keep /\ in_identity i = None /\ in_card i = None /\ in_bank i = None
  | SecureNote =>
      login_fields i = false /\ in_identity i = None /\ in_card i = None /\ in_bank i = None
  | Identity =>
      login_fields i = false /\ in_content i = Keep /\ is_Some (in_identity i) /\ in_card i = None
      /\ in_bank i = None /\ in_sections i = None
  | CardItem =>
      login_fields i = false /\ in_content i = Keep /\ in_identity i = None /\ is_Some (in_card i)
      /\ in_bank i = None /\ in_sections i = None
  | BankAccount =>
      username_given i = false /\ in_totp i = Keep /\ in_content i = Keep /\ in_sign_in_with i = None
      /\ in_identity i = None /\ in_card i = None /\ is_Some (in_bank i)
  end.

Lemma is_none_spec {A} (o : option A) : is_none o = true <-> o = None.
Proof. by destruct o. Qed.

Lemma is_keep_spec u : is_keep u = true <-> u = Keep.
Proof. by destruct u. Qed.

(** Evaluate the type tests at a known type; split on one field of the input
    and close the refused cases. *)
Ltac eval_types :=
  repeat match goal with
  | |- context [type_in ?t ?l] => let b := eval vm_compute in (type_in t l) in change (type_in t l) with b
  end; cbn [negb andb].
Ltac shape_case e :=
  destruct e; cbn [is_none is_keep negb andb orb];
  rewrite ?orb_true_r, ?orb_false_r; cbn [andb];
  try (split; [done|]; intros; destruct_and?;
       repeat match goal with H : is_Some None |- _ => by destruct (is_Some_None H) end; done).

(** The shape check accepts exactly the inputs whose fields belong to
    their type: login fields on logins (and the allowed ones on bank
    accounts), card values on cards and only there, and so on. *)
Lemma check_shape_spec i : check_shape i = Ok () <-> shape_ok i.
Proof.
  unfold check_shape, shape_ok, is_some. cbv zeta. destruct (in_type i); eval_types.
  - shape_case (in_bank i). shape_case (in_card i). shape_case (in_identity i). by shape_case (in_content i).
  - shape_case (in_bank i). shape_case (in_card i). shape_case (in_identity i). by shape_case (login_fields i).
  - shape_case (in_sections i). shape_case (in_bank i). shape_case (in_card i). shape_case (in_identity i).
    shape_case (login_fields i). by shape_case (in_content i).
  - shape_case (in_sections i). shape_case (in_bank i). shape_case (in_card i). shape_case (login_fields i).
    shape_case (in_content i). by shape_case (in_identity i).
  - shape_case (in_bank i). shape_case (username_given i). shape_case (in_totp i). shape_case (in_content i).
    shape_case (in_sign_in_with i). shape_case (in_identity i). by shape_case (in_card i).
Qed.
