(* ===== verification/Keys.v ===== *)
(** * Keys (crates/havenkeys-core/src/crypto/keys.rs, kdf.rs, account.rs,
      unlock_bundle.rs)

    The key hierarchy: master password and Secret Key to the key-encryption
    and auth keys, bound to the account; the vault key to the data key and
    the Identity's item id; and the biometric unlock bundle.  Argon2id, HKDF
    and the uuid crate are outside the repository ([KeyLib]). *)

From S2P Require Import Prelude Errors Text.

Definition KEY_LEN : nat := 32.
Definition SECRET_KEY_LEN : nat := 16.
Definition SALT_LEN : nat := 16.

(** ** KDF parameters (kdf.rs); Argon2id is the one algorithm *)

Definition DEFAULT_MEMORY_KIB : Z := 128 * 1024.
Definition DEFAULT_ITERATIONS : Z := 4.
Definition DEFAULT_PARALLELISM : Z := 4.
Definition MIN_MEMORY_KIB : Z := 19 * 1024.
Definition MAX_MEMORY_KIB : Z := 1024 * 1024.
Definition MIN_ITERATIONS : Z := 2.
Definition MAX_ITERATIONS : Z := 16.
Definition MIN_PARALLELISM : Z := 1.
Definition MAX_PARALLELISM : Z := 16.

Record KdfParams := {
  memory_kib : Z;
  iterations : Z;
  parallelism : Z;
  salt : list Z;
}.

#[export] Instance KdfParams_eq_dec : EqDecision KdfParams.
Proof. solve_decision. Defined.

Definition kdf_validate (k : KdfParams) : Result () :=
  if in_range MIN_MEMORY_KIB MAX_MEMORY_KIB (memory_kib k)
     && in_range MIN_ITERATIONS MAX_ITERATIONS (iterations k)
     && in_range MIN_PARALLELISM MAX_PARALLELISM (parallelism k)
  then Ok () else Err Corrupted.

(** [KdfParams::with_cost]; [random] is the fresh salt. *)
Definition with_cost (m i p : Z) (random : option (list Z)) : Result KdfParams :=
  salt ← ok_or Rng random;
  let params := {| memory_kib := m; iterations := i; parallelism := p; salt := salt |} in
  _ ← kdf_validate params;
  Ok params.

(** ** The account (account.rs) *)

Definition MAX_EMAIL_LEN : Z := 254.

Section Email.
Context `{U : Unicode}.

(** [split('@')] gives exactly two non-empty parts. *)
Definition one_at (s : list Z) : bool :=
  match split_once 64 s with
  | Some (l, d) => negb (bool_decide (l = [])) && negb (bool_decide (d = [])) && negb (existsb (Z.eqb 64) d)
  | None => false
  end.

Definition bad_email : Error := InvalidInput "email address is not valid".

(** [NormalizedEmail::parse]. *)
Definition email_parse (raw : list Z) : Result (list Z) :=
  let normalized := to_lowercase (nfc (trim raw)) in
  if bool_decide (normalized = []) || (MAX_EMAIL_LEN <? str_len normalized) then Err bad_email
  else if existsb is_whitespace normalized then Err bad_email
  else if negb (one_at normalized) then Err bad_email
  else Ok normalized.
End Email.

Record AccountRef := { ref_id : Z; ref_email : list Z }.

#[export] Instance AccountRef_eq_dec : EqDecision AccountRef.
Proof. solve_decision. Defined.

(** ** Key derivation *)

Definition INFO_DATA : list Z := lit "havenkeys/v1/data".
Definition INFO_KEK_V3 : list Z := lit "havenkeys/v3/kek".
Definition INFO_AUTH_V3 : list Z := lit "havenkeys/v3/auth".
Definition INFO_IDENTITY_ID : list Z := lit "havenkeys/v3/identity-item-id".

(** [argon2id password salt m t p]; [hkdf salt ikm info length]; and the
    version-8 uuid made of 16 bytes. *)
Class KeyLib := {
  argon2id : list Z -> KdfParams -> option (list Z);
  hkdf : option (list Z) -> list Z -> list Z -> nat -> option (list Z);
  uuid_v8 : list Z -> Z;
}.

Section Keys.
Context `{K : KeyLib} `{U : Unicode}.

Definition derive_master_key (password : list Z) (params : KdfParams) : Result (list Z) :=
  _ ← kdf_validate params;
  ok_or Kdf (argon2id (utf8 (nfc password)) params).

Definition hkdf_sha256 (salt : option (list Z)) (ikm info : list Z) : Result (list Z) :=
  ok_or Kdf (hkdf salt ikm info KEY_LEN).

Definition account_salt (a : AccountRef) : list Z := uuid_bytes (ref_id a) ++ utf8 (ref_email a).

(** The input keying material and salt of [account_bound]. *)
Definition account_bound (master_key secret_key : list Z) (a : AccountRef) (info : list Z)
    : Result (list Z) :=
  hkdf_sha256 (Some (account_salt a)) (master_key ++ secret_key) info.

Definition derive_kek_v3 (master_key secret_key : list Z) (a : AccountRef) : Result (list Z) :=
  account_bound master_key secret_key a INFO_KEK_V3.

Definition derive_auth_key_from_master (master_key secret_key : list Z) (a : AccountRef)
    : Result (list Z) :=
  account_bound master_key secret_key a INFO_AUTH_V3.

Definition derive_data_key (vault_key : list Z) : Result (list Z) :=
  hkdf_sha256 None vault_key INFO_DATA.

Definition derive_identity_item_id (vault_key : list Z) : Result Z :=
  okm ← ok_or Kdf (hkdf None vault_key INFO_IDENTITY_ID 16);
  Ok (uuid_v8 okm).
End Keys.

(** ** The unlock bundle (unlock_bundle.rs) *)

Definition BUNDLE_VERSION : Z := 1.
Definition BUNDLE_LEN : nat := 1 + KEY_LEN + KEY_LEN + 8 + 8.
Definition BUNDLE_MAX_AGE_MS : Z := 14 * 24 * 60 * 60 * 1000.

Record UnlockBundle := {
  bun_vault_key : list Z;
  bun_auth_key : list Z;
  enrolled_at_ms : Z;
  boot_count : Z;
}.

(** [i64::to_be_bytes] and [i64::from_be_bytes]: two's complement. *)
Definition i64_be_bytes (z : Z) : list Z := be_bytes 8 (z mod 2 ^ 64).
Definition i64_from_be_bytes (l : list Z) : Z := as_i64 (be_val l).

Definition bundle_encode (b : UnlockBundle) : list Z :=
  [BUNDLE_VERSION] ++ bun_vault_key b ++ bun_auth_key b
  ++ i64_be_bytes (enrolled_at_ms b) ++ i64_be_bytes (boot_count b).

Definition bundle_decode (bytes : list Z) : Result UnlockBundle :=
  if negb (length bytes =? BUNDLE_LEN)%nat || negb (nth 0 bytes 0 =? BUNDLE_VERSION)
  then Err BundleRefused
  else
    let tail := drop (1 + 2 * KEY_LEN) bytes in
    Ok {| bun_vault_key := take KEY_LEN (drop 1 bytes);
          bun_auth_key := take KEY_LEN (drop (1 + KEY_LEN) bytes);
          enrolled_at_ms := i64_from_be_bytes (take 8 tail);
          boot_count := i64_from_be_bytes (take 8 (drop 8 tail)) |}.

Definition check_fresh (b : UnlockBundle) (now_ms boot : Z) : Result () :=
  let age := i64_saturating_sub now_ms (enrolled_at_ms b) in
  if negb (in_range 0 BUNDLE_MAX_AGE_MS age) || (boot <? 0) || negb (boot =? boot_count b)
  then Err BundleRefused else Ok ().

(** ** Lemmas *)

Lemma i64_be_bytes_inv z : in_i64 z -> i64_from_be_bytes (i64_be_bytes z) = z.
Proof.
  intros Hz. unfold i64_from_be_bytes, i64_be_bytes. rewrite be_val_bytes.
  change (256 ^ Z.of_nat 8) with (2 ^ 64). rewrite Z.mod_mod, as_i64_mod by lia. by apply as_i64_id.
Qed.

Lemma length_i64_be_bytes z : length (i64_be_bytes z) = 8%nat.
Proof. apply length_be_bytes. Qed.

(** ** UTF-8 is injective on scalar values *)

Definition scalar (c : Z) : Prop := 0 <= c < 1114112.

Lemma utf8_char_head c d (t u : list Z) :
  scalar c -> scalar d -> utf8_char c ++ t = utf8_char d ++ u -> c = d /\ t = u.
Proof.
  unfold scalar, utf8_char. intros Hc Hd.
  destruct (Z.ltb_spec c 128), (Z.ltb_spec d 128); try destruct (Z.ltb_spec c 2048);
    try destruct (Z.ltb_spec d 2048); try destruct (Z.ltb_spec c 65536); try destruct (Z.ltb_spec d 65536);
    cbn [app]; intros E; injection E; clear E; intros;
    first [exfalso; Z.div_mod_to_equations; lia | split; [Z.div_mod_to_equations; lia|done]].
Qed.

Lemma utf8_inj s t : Forall scalar s -> Forall scalar t -> utf8 s = utf8 t -> s = t.
Proof.
  intros Hs. revert t. induction Hs as [|c s Hc Hs IH]; intros t Ht.
  - destruct Ht as [|d t Hd _]; [done|]. intros E.
    apply (f_equal length) in E. change (utf8 (d :: t)) with (utf8_char d ++ utf8 t) in E.
    rewrite length_app in E. unfold utf8_char in E. repeat case_match; cbn in E; lia.
  - destruct Ht as [|d t Hd Ht]; intros E.
    + apply (f_equal length) in E. change (utf8 (c :: s)) with (utf8_char c ++ utf8 s) in E.
      rewrite length_app in E. unfold utf8_char in E. repeat case_match; cbn in E; lia.
    + change (utf8_char c ++ utf8 s = utf8_char d ++ utf8 t) in E.
      apply utf8_char_head in E as [-> E]; [|done..]. f_equal. by apply IH.
Qed.

(** ** Properties *)

(** The inputs of the two account-bound keys are separated: the HKDF salt,
    keying material and label together determine the master key, the Secret
    Key, the account id, the normalized email and which of the two keys is
    made, so nothing but the exact same credentials for the same account
    reaches the same HKDF call. *)
Lemma account_keys_separated (mk sk : list Z) a info (mk' sk' : list Z) a' info' :
  length mk = KEY_LEN -> length mk' = KEY_LEN ->
  is_uuid (ref_id a) -> is_uuid (ref_id a') ->
  Forall scalar (ref_email a) -> Forall scalar (ref_email a') ->
  info ∈ [INFO_KEK_V3; INFO_AUTH_V3] -> info' ∈ [INFO_KEK_V3; INFO_AUTH_V3] ->
  (account_salt a, mk ++ sk, info) = (account_salt a', mk' ++ sk', info') ->
  mk = mk' /\ sk = sk' /\ a = a' /\ info = info' /\ INFO_KEK_V3 <> INFO_AUTH_V3 /\
  INFO_DATA ∉ [INFO_KEK_V3; INFO_AUTH_V3; INFO_IDENTITY_ID].
Proof.
  intros Hm Hm' Hu Hu' He He' _ _ E.
  pose proof (f_equal (fst ∘ fst) E) as Es. pose proof (f_equal (snd ∘ fst) E) as Ek.
  pose proof (f_equal snd E) as Ei0. cbn [compose fst snd] in Es, Ek, Ei0. subst info'.
  unfold compose in Es, Ek. cbn [fst snd] in Es, Ek.
  apply app_inj_1 in Ek as [-> ->]; [|congruence]. unfold account_salt in Es.
  apply app_inj_1 in Es as [Ei Ee]; [|by rewrite !length_uuid_bytes].
  apply uuid_bytes_inj in Ei; [|done..]. apply utf8_inj in Ee; [|done..].
  split_and!; [done|done| |done| |].
  - destruct a, a'. cbn in *. congruence.
  - by vm_compute.
  - apply (bool_decide_unpack _). vm_compute. done.
Qed.

(** The unlock bundle reads back exactly as encoded. *)
Lemma bundle_roundtrip b :
  length (bun_vault_key b) = KEY_LEN -> length (bun_auth_key b) = KEY_LEN ->
  in_i64 (enrolled_at_ms b) -> in_i64 (boot_count b) ->
  bundle_decode (bundle_encode b) = Ok b /\ length (bundle_encode b) = BUNDLE_LEN.
Proof.
  intros Hv Ha He Hb. unfold KEY_LEN in *.
  assert (length (bundle_encode b) = BUNDLE_LEN) as Hl.
  { unfold bundle_encode. rewrite !length_app, !length_i64_be_bytes, Hv, Ha. done. }
  split; [|done]. unfold bundle_decode. rewrite Hl, Nat.eqb_refl. cbn [negb orb].
  destruct b as [vk ak en bc]. cbn [bun_vault_key bun_auth_key enrolled_at_ms boot_count] in *.
  unfold bundle_encode. cbn [bun_vault_key bun_auth_key enrolled_at_ms boot_count].
  change (nth 0 ([BUNDLE_VERSION] ++ vk ++ ak ++ i64_be_bytes en ++ i64_be_bytes bc) 0 =? BUNDLE_VERSION) with true.
  cbn [negb]. cbv zeta. f_equal. unfold KEY_LEN.
  change (drop 1 ([BUNDLE_VERSION] ++ vk ++ ak ++ i64_be_bytes en ++ i64_be_bytes bc))
    with (vk ++ ak ++ i64_be_bytes en ++ i64_be_bytes bc).
  assert (forall n, drop (1 + n) ([BUNDLE_VERSION] ++ vk ++ ak ++ i64_be_bytes en ++ i64_be_bytes bc)
    = drop n (vk ++ ak ++ i64_be_bytes en ++ i64_be_bytes bc)) as Hdrop by done.
  rewrite !Hdrop. rewrite take_app_length' by done. rewrite drop_app_length' by done.
  rewrite take_app_length' by done.
  assert (drop (2 * 32) (vk ++ ak ++ i64_be_bytes en ++ i64_be_bytes bc) = i64_be_bytes en ++ i64_be_bytes bc) as ->.
  { rewrite drop_app_ge by lia. rewrite Hv. by rewrite drop_app_length'. }
  rewrite (take_app_length' (i64_be_bytes en)), (drop_app_length' (i64_be_bytes en)) by (symmetry; apply length_i64_be_bytes).
  rewrite take_ge by (by rewrite length_i64_be_bytes). by rewrite !i64_be_bytes_inv.
Qed.

(** A bundle is accepted exactly in the boot it was enrolled in and from
    its enrolment to 14 days after; a clock set back or an unknown boot count
    refuses it. *)
Lemma check_fresh_spec b now boot :
  in_i64 (now - enrolled_at_ms b) ->
  check_fresh b now boot = Ok () <->
  enrolled_at_ms b <= now <= enrolled_at_ms b + BUNDLE_MAX_AGE_MS /\ 0 <= boot /\ boot = boot_count b.
Proof.
  intros Hn. unfold check_fresh. rewrite i64_saturating_sub_spec by done.
  destruct (in_range 0 BUNDLE_MAX_AGE_MS _) eqn:E;
    [apply in_range_true in E|apply in_range_false in E]; cbn [negb orb];
    [destruct (Z.ltb_spec boot 0), (Z.eqb_spec boot (boot_count b)); cbn [orb negb]; split; intros; done || lia
    |split; [done|lia]].
Qed.

Definition sample_bundle : UnlockBundle :=
  {| bun_vault_key := replicate 32 1; bun_auth_key := replicate 32 2; enrolled_at_ms := 1000; boot_count := 7 |}.

Lemma account_keys_separated_witness :
  let a := {| ref_id := 5; ref_email := lit "a@b" |} in
  replicate 32 9 = replicate 32 9 /\ a = a.
Proof.
  intros a.
  destruct (account_keys_separated (replicate 32 9) (replicate 16 8) a INFO_KEK_V3
              (replicate 32 9) (replicate 16 8) a INFO_KEK_V3) as (H1 & _ & H2 & _).
  - reflexivity.
  - reflexivity.
  - split; [|apply Z.lt_trans with 6]; done.
  - split; [|apply Z.lt_trans with 6]; done.
  - repeat constructor; done.
  - repeat constructor; done.
  - left.
  - left.
  - reflexivity.
  - exact (conj H1 H2).
Defined.

Lemma bundle_roundtrip_witness : bundle_decode (bundle_encode sample_bundle) = Ok sample_bundle.
Proof.
  apply bundle_roundtrip; [reflexivity|reflexivity|unfold in_i64, i64_min, i64_max; cbn; lia..].
Defined.

Lemma check_fresh_spec_witness : check_fresh sample_bundle 2000 7 = Ok ().
Proof.
  apply check_fresh_spec; [unfold in_i64, i64_min, i64_max; cbn; lia|].
  unfold BUNDLE_MAX_AGE_MS; cbn; lia.
Defined.
