(* ===== verification/Store.v ===== *)
(** * The replica store (crates/havenkeys-core/src/store.rs)

    The SQLite tables as finite maps and optional single rows.  Ids stored as
    text are the uuids they print; malformed id text, and statements that
    SQLite itself fails, are not modelled.  A function that changes the
    database returns the new one; a transaction that fails leaves the old. *)

From S2P Require Import Prelude Errors Text Keys.

Definition SCHEMA_VERSION : Z := 9.
Definition FORMAT_VERSION : Z := 1.

(** ** Opening: the schema and its migrations

    A schema is its set of tables and columns (["table.column"]); creating a
    table or adding a column that exists is an SQL error. *)

Definition columns (table : string) (cols : list string) : list string :=
  map (fun c => (table ++ "." ++ c)%string) cols.

Definition attachment_cache_ddl : list string := columns "attachment_cache" ["id"; "blob"; "last_used"].
Definition pake_ddl : list string := columns "account" ["pake_confirmed"].
Definition plan_ddl : list string :=
  columns "account" ["plan_status"; "entitlement"; "trial_ends_at"; "period_end"].
Definition local_blob_ddl : list string := columns "local_blob" ["name"; "blob"].

Definition SCHEMA : list string :=
  columns "vault_header" ["id"; "format_version"; "vault_id"; "kdf"; "wrapped_vault_key";
                          "created_at"; "key_scheme"; "header_revision"]
  ++ columns "items" ["id"; "overview"; "details"; "revision"]
  ++ columns "account" ["id"; "account_id"; "email"; "server_url"; "server_cursor";
                        "max_header_rev"; "last_synced_at"; "plan_status"; "entitlement";
                        "trial_ends_at"; "period_end"; "pake_confirmed"]
  ++ columns "settings" ["id"; "blob"]
  ++ columns "unreadable_items" ["id"; "revision"]
  ++ local_blob_ddl ++ attachment_cache_ddl.

Definition MIGRATE_8_TO_9 : list string := attachment_cache_ddl.
Definition MIGRATE_7_TO_8 : list string := pake_ddl.
Definition MIGRATE_6_TO_7 : list string := plan_ddl.
Definition MIGRATE_5_TO_6 : list string := local_blob_ddl.

(** [execute_batch] of additions. *)
Fixpoint execute_batch (add : list string) (schema : gset string) : Result (gset string) :=
  match add with
  | [] => Ok schema
  | c :: add => if decide (c ∈ schema) then Err Storage else execute_batch add ({[c]} ∪ schema)
  end.

Record Db := { user_version : Z; schema : gset string }.

(** The transaction of one [match] arm of [init]. *)
Fixpoint execute_all (batches : list (list string)) (schema : gset string) : Result (gset string) :=
  match batches with
  | [] => Ok schema
  | b :: bs => s ← execute_batch b schema; execute_all bs s
  end.

Definition upgrade (batches : list (list string)) (db : Db) : Result Db :=
  s ← execute_all batches (schema db);
  Ok {| user_version := SCHEMA_VERSION; schema := s |}.

(** [Store::init]. *)
Definition init (db : Db) : Result Db :=
  let v := user_version db in
  if v =? 0 then upgrade [SCHEMA] db
  else if v =? 5 then upgrade [MIGRATE_5_TO_6; MIGRATE_6_TO_7; MIGRATE_7_TO_8; MIGRATE_8_TO_9] db
  else if v =? 6 then upgrade [MIGRATE_6_TO_7; MIGRATE_7_TO_8; MIGRATE_8_TO_9] db
  else if v =? 7 then upgrade [MIGRATE_7_TO_8; MIGRATE_8_TO_9] db
  else if v =? 8 then upgrade [MIGRATE_8_TO_9] db
  else if v =? SCHEMA_VERSION then Ok db
  else if SCHEMA_VERSION <? v then Err NewerVault
  else Err UnsupportedVersion.

(** ** Records *)

(** [KeyScheme]: one scheme, stored as 3. *)
Inductive KeyScheme := AccountBound.

#[export] Instance KeyScheme_eq_dec : EqDecision KeyScheme.
Proof. solve_decision. Defined.

Definition key_scheme_to_db (k : KeyScheme) : Z := match k with AccountBound => 3 end.
Definition key_scheme_from_db (v : Z) : Result KeyScheme :=
  if v =? 3 then Ok AccountBound else Err UnsupportedVersion.

Record HeaderRecord := {
  format_version : Z;
  vault_id : Z;
  kdf : KdfParams;
  wrapped_vault_key : list Z;
  created_at : Z;
  key_scheme : KeyScheme;
  revision : Z;
}.

#[export] Instance HeaderRecord_eq_dec : EqDecision HeaderRecord.
Proof. solve_decision. Defined.

(** The [vault_header] row: every number as SQLite's [i64]. *)
Record HeaderRow := {
  row_format_version : Z;
  row_vault_id : Z;
  row_kdf : KdfParams;
  row_wrapped_vault_key : list Z;
  row_created_at : Z;
  row_key_scheme : Z;
  row_header_revision : Z;
}.

Record AccountRecord := {
  account_id : Z;
  email : list Z;
  server_url : list Z;
  server_cursor : Z;
  max_header_rev : Z;
  last_synced_at : option Z;
}.

Inductive Entitlement := Full | Frozen.

Definition entitlement_as_str (e : Entitlement) : list Z :=
  match e with Full => lit "full" | Frozen => lit "frozen" end.
Definition entitlement_parse (s : list Z) : Entitlement :=
  if bool_decide (s = lit "frozen") then Frozen else Full.

Record PlanRecord := {
  plan_status : option (list Z);
  entitlement : Entitlement;
  trial_ends_at : option (list Z);
  period_end : option (list Z);
}.

Definition plan_default : PlanRecord :=
  {| plan_status := None; entitlement := Full; trial_ends_at := None; period_end := None |}.

(** The [account] row. *)
Record AccountRow := {
  acc : AccountRecord;
  acc_plan_status : option (list Z);
  acc_entitlement : list Z;
  acc_trial_ends_at : option (list Z);
  acc_period_end : option (list Z);
  acc_pake_confirmed : Z;
}.

Record ItemRow := { row_overview : list Z; row_details : list Z; row_revision : Z }.
Record CacheRow := { cache_blob : list Z; last_used : Z }.

Record Store := {
  header_row : option HeaderRow;
  items : gmap Z ItemRow;
  account_row : option AccountRow;
  settings_row : option (list Z);
  unreadable_items : gmap Z Z;
  local_blobs : gmap (list Z) (list Z);
  attachment_cache : gmap Z CacheRow;
}.

(** A freshly created database. *)
Definition empty_store : Store :=
  {| header_row := None; items := ∅; account_row := None; settings_row := None;
     unreadable_items := ∅; local_blobs := ∅; attachment_cache := ∅ |}.

(** One setter per table. *)
Definition set_header_row h s :=
  {| header_row := h; items := items s; account_row := account_row s; settings_row := settings_row s;
     unreadable_items := unreadable_items s; local_blobs := local_blobs s; attachment_cache := attachment_cache s |}.
Definition set_items i s :=
  {| header_row := header_row s; items := i; account_row := account_row s; settings_row := settings_row s;
     unreadable_items := unreadable_items s; local_blobs := local_blobs s; attachment_cache := attachment_cache s |}.
Definition set_account_row a s :=
  {| header_row := header_row s; items := items s; account_row := a; settings_row := settings_row s;
     unreadable_items := unreadable_items s; local_blobs := local_blobs s; attachment_cache := attachment_cache s |}.
Definition set_settings_row b s :=
  {| header_row := header_row s; items := items s; account_row := account_row s; settings_row := b;
     unreadable_items := unreadable_items s; local_blobs := local_blobs s; attachment_cache := attachment_cache s |}.
Definition set_unreadable u s :=
  {| header_row := header_row s; items := items s; account_row := account_row s; settings_row := settings_row s;
     unreadable_items := u; local_blobs := local_blobs s; attachment_cache := attachment_cache s |}.
Definition set_local_blobs l s :=
  {| header_row := header_row s; items := items s; account_row := account_row s; settings_row := settings_row s;
     unreadable_items := unreadable_items s; local_blobs := l; attachment_cache := attachment_cache s |}.
Definition set_cache c s :=
  {| header_row := header_row s; items := items s; account_row := account_row s; settings_row := settings_row s;
     unreadable_items := unreadable_items s; local_blobs := local_blobs s; attachment_cache := c |}.

(** ** The header *)

(** [u32::try_from] and [u64::try_from] of an [i64]; [i64::try_from] of a
    [u64]. *)
Definition header (s : Store) : Result (option HeaderRecord) :=
  match header_row s with
  | None => Ok None
  | Some r =>
      _ ← guard_err (negb (in_range 0 u32_max (row_format_version r))) Corrupted;
      scheme ← key_scheme_from_db (row_key_scheme r);
      _ ← guard_err (row_header_revision r <? 0) Corrupted;
      Ok (Some {| format_version := row_format_version r; vault_id := row_vault_id r;
                  kdf := row_kdf r; wrapped_vault_key := row_wrapped_vault_key r;
                  created_at := row_created_at r; key_scheme := scheme;
                  revision := row_header_revision r |})
  end.

Definition insert_header (h : HeaderRecord) (settings_blob : list Z) (s : Store) : Store * Result () :=
  match header_row s with
  | Some _ => (s, Err VaultExists)
  | None =>
      if i64_max <? revision h then (s, Err Storage)
      else
        (set_settings_row (Some settings_blob)
           (set_header_row (Some {| row_format_version := format_version h; row_vault_id := vault_id h;
                                    row_kdf := kdf h; row_wrapped_vault_key := wrapped_vault_key h;
                                    row_created_at := created_at h;
                                    row_key_scheme := key_scheme_to_db (key_scheme h);
                                    row_header_revision := revision h |}) s), Ok ())
  end.

Definition update_key_wrap (k : KdfParams) (wrapped : list Z) (scheme : KeyScheme) (rev : Z) (s : Store)
    : Store * Result () :=
  if i64_max <? rev then (s, Err Storage)
  else match header_row s with
       | None => (s, Err NoVault)
       | Some r =>
           (set_header_row (Some {| row_format_version := row_format_version r; row_vault_id := row_vault_id r;
                                    row_kdf := k; row_wrapped_vault_key := wrapped;
                                    row_created_at := row_created_at r;
                                    row_key_scheme := key_scheme_to_db scheme;
                                    row_header_revision := rev |}) s, Ok ())
       end.

(** ** Items *)

Definition item_overviews (s : Store) : list (Z * list Z) :=
  map (fun p => (p.1, row_overview p.2)) (map_to_list (items s)).

Definition item_details (id : Z) (s : Store) : option (list Z) := row_details <$> items s !! id.

Definition item_blobs (id : Z) (s : Store) : option (list Z * list Z) :=
  (fun r => (row_overview r, row_details r)) <$> items s !! id.

Definition upsert_item (id : Z) (ov det : list Z) (rev : Z) (s : Store) : Store :=
  set_items (<[id := {| row_overview := ov; row_details := det; row_revision := rev |}]> (items s)) s.

Definition item_revision (id : Z) (s : Store) : option Z := row_revision <$> items s !! id.

Definition item_ids (s : Store) : list Z := map fst (map_to_list (items s)).

Definition delete_item (id : Z) (s : Store) : Store * bool :=
  (set_items (delete id (items s)) s, bool_decide (is_Some (items s !! id))).

(** The row of [apply_pull]: id, overview, details, revision. *)
Record PullRow := { pull_id : Z; pull_overview : list Z; pull_details : list Z; pull_revision : Z }.

Definition pull_upsert (s : Store) (r : PullRow) : Store :=
  let s := upsert_item (pull_id r) (pull_overview r) (pull_details r) (pull_revision r) s in
  set_unreadable (delete (pull_id r) (unreadable_items s)) s.

Definition pull_delete (sn : Store * nat) (id : Z) : Store * nat :=
  let '(s, n) := sn in
  let '(s, gone) := delete_item id s in
  (set_unreadable (delete id (unreadable_items s)) s, if gone then S n else n).

Definition pull_unreadable (s : Store) (p : Z * Z) : Store :=
  set_unreadable (<[p.1 := p.2]> (unreadable_items s)) s.

Definition with_cursor (cursor synced_at : Z) (r : AccountRow) : AccountRow :=
  {| acc := {| account_id := account_id (acc r); email := email (acc r); server_url := server_url (acc r);
               server_cursor := cursor; max_header_rev := max_header_rev (acc r);
               last_synced_at := Some synced_at |};
     acc_plan_status := acc_plan_status r; acc_entitlement := acc_entitlement r;
     acc_trial_ends_at := acc_trial_ends_at r; acc_period_end := acc_period_end r;
     acc_pake_confirmed := acc_pake_confirmed r |}.

Definition set_cursor (cursor synced_at : Z) (s : Store) : Store :=
  set_account_row (with_cursor cursor synced_at <$> account_row s) s.

Definition apply_pull (rows : list PullRow) (deletions : list Z) (unreadable : list (Z * Z))
    (cursor : option (Z * Z)) (s : Store) : Store * nat :=
  let s := foldl pull_upsert s rows in
  let '(s, deleted) := foldl pull_delete (s, 0%nat) deletions in
  let s := foldl pull_unreadable s unreadable in
  (match cursor with Some (c, t) => set_cursor c t s | None => s end, deleted).

(** [ORDER BY id]: a uuid's text order is its numeric order. *)
Definition unreadable_revisions (s : Store) : list (Z * Z) :=
  sort_by_key fst (map_to_list (unreadable_items s)).

Definition unreadable_ids (s : Store) : list Z := map fst (unreadable_revisions s).
Definition unreadable_count (s : Store) : nat := size (unreadable_items s).

Definition reset_cursor (synced_at : Z) (s : Store) : Store :=
  set_unreadable ∅ (set_cursor 0 synced_at s).

(** ** The account *)

Definition account (s : Store) : option AccountRecord := acc <$> account_row s.

Definition set_account (rec : AccountRecord) (s : Store) : Store * Result () :=
  match account_row s with
  | Some r =>
      if negb (account_id (acc r) =? account_id rec)
      then (s, Err (InvalidInput "this vault is linked to a different account"))
      else
        (set_account_row
           (Some {| acc := {| account_id := account_id rec; email := email rec; server_url := server_url rec;
                              server_cursor := server_cursor (acc r);
                              max_header_rev := max_header_rev (acc r);
                              last_synced_at := last_synced_at (acc r) |};
                    acc_plan_status := acc_plan_status r; acc_entitlement := acc_entitlement r;
                    acc_trial_ends_at := acc_trial_ends_at r; acc_period_end := acc_period_end r;
                    acc_pake_confirmed := acc_pake_confirmed r |}) s, Ok ())
  | None =>
      (set_account_row
         (Some {| acc := rec; acc_plan_status := None; acc_entitlement := lit "full";
                  acc_trial_ends_at := None; acc_period_end := None; acc_pake_confirmed := 0 |}) s, Ok ())
  end.

Definition plan (s : Store) : PlanRecord :=
  match account_row s with
  | None => plan_default
  | Some r => {| plan_status := acc_plan_status r; entitlement := entitlement_parse (acc_entitlement r);
                 trial_ends_at := acc_trial_ends_at r; period_end := acc_period_end r |}
  end.

Definition set_plan (p : PlanRecord) (s : Store) : Store :=
  set_account_row
    ((fun r => {| acc := acc r; acc_plan_status := plan_status p;
                  acc_entitlement := entitlement_as_str (entitlement p);
                  acc_trial_ends_at := trial_ends_at p; acc_period_end := period_end p;
                  acc_pake_confirmed := acc_pake_confirmed r |}) <$> account_row s) s.

Definition pake_confirmed (s : Store) : bool :=
  match account_row s with Some r => acc_pake_confirmed r =? 1 | None => false end.

Definition set_pake_confirmed (s : Store) : Store :=
  set_account_row
    ((fun r => {| acc := acc r; acc_plan_status := acc_plan_status r; acc_entitlement := acc_entitlement r;
                  acc_trial_ends_at := acc_trial_ends_at r; acc_period_end := acc_period_end r;
                  acc_pake_confirmed := 1 |}) <$> account_row s) s.

Definition with_max_rev (rev : Z) (r : AccountRow) : AccountRow :=
  {| acc := {| account_id := account_id (acc r); email := email (acc r); server_url := server_url (acc r);
               server_cursor := server_cursor (acc r); max_header_rev := Z.max (max_header_rev (acc r)) rev;
               last_synced_at := last_synced_at (acc r) |};
     acc_plan_status := acc_plan_status r; acc_entitlement := acc_entitlement r;
     acc_trial_ends_at := acc_trial_ends_at r; acc_period_end := acc_period_end r;
     acc_pake_confirmed := acc_pake_confirmed r |}.

Definition raise_max_header_rev (rev : Z) (s : Store) : Store :=
  set_account_row (with_max_rev rev <$> account_row s) s.

(** ** Blobs and the attachment cache *)

Definition settings_blob (s : Store) : option (list Z) := settings_row s.
Definition write_settings (b : list Z) (s : Store) : Store := set_settings_row (Some b) s.

Definition local_blob (name : list Z) (s : Store) : option (list Z) := local_blobs s !! name.
Definition set_local_blob (name blob : list Z) (s : Store) : Store :=
  set_local_blobs (<[name := blob]> (local_blobs s)) s.

(** Reading an entry sets its use time to the clock's second. *)
Definition cached_attachment (id now_s : Z) (s : Store) : Store * option (list Z) :=
  (set_cache (alter (fun r => {| cache_blob := cache_blob r; last_used := now_s * 1000 |}) id
                (attachment_cache s)) s,
   cache_blob <$> attachment_cache s !! id).

Definition put_cached_attachment (id : Z) (blob : list Z) (now_ms : Z) (s : Store) : Store :=
  set_cache (<[id := {| cache_blob := blob; last_used := now_ms |}]> (attachment_cache s)) s.

Definition delete_cached_attachment (id : Z) (s : Store) : Store :=
  set_cache (delete id (attachment_cache s)) s.

(** The loop of [prune_attachment_cache] over the rows, newest first. *)
Fixpoint prune_rows (keep : gset Z) (cap : Z) (rows : list (Z * Z)) (total : Z) (cache : gmap Z CacheRow)
    : gmap Z CacheRow :=
  match rows with
  | [] => cache
  | (id, size) :: rows =>
      let total := total + size in
      if negb (bool_decide (id ∈ keep)) || (cap <? total)
      then prune_rows keep cap rows (total - size) (delete id cache)
      else prune_rows keep cap rows total cache
  end.

(** [ORDER BY last_used DESC]; SQLite leaves the order of ties open, the
    model takes the smaller id first. *)
Definition cache_rows (cache : gmap Z CacheRow) : list (Z * Z) :=
  map (fun p => (p.1, len (cache_blob p.2)))
    (sort_by_key (fun p : Z * CacheRow => (Build_Reverse (last_used p.2), p.1)) (map_to_list cache)).

Definition prune_attachment_cache (keep : gset Z) (cap : Z) (s : Store) : Store :=
  set_cache (prune_rows keep cap (cache_rows (attachment_cache s)) 0 (attachment_cache s)) s.

(** ** Lemmas *)

(** The tables a database of version [v] has: the current schema without
    what the later migrations add. *)
Definition schema_at (v : Z) : gset string :=
  list_to_set SCHEMA ∖ list_to_set
    ((if v <? 9 then MIGRATE_8_TO_9 else []) ++ (if v <? 8 then MIGRATE_7_TO_8 else [])
     ++ (if v <? 7 then MIGRATE_6_TO_7 else []) ++ (if v <? 6 then MIGRATE_5_TO_6 else [])).

Lemma header_ok s h :
  header s = Ok (Some h) ->
  exists r, header_row s = Some r /\ h = {| format_version := row_format_version r; vault_id := row_vault_id r;
    kdf := row_kdf r; wrapped_vault_key := row_wrapped_vault_key r; created_at := row_created_at r;
    key_scheme := AccountBound; revision := row_header_revision r |} /\ 0 <= row_header_revision r.
Proof.
  unfold header. destruct (header_row s) as [r|]; [|done].
  intros (? & _ & H)%bind_Ok. apply bind_Ok in H as (k & _ & H). apply bind_Ok in H as ([] & Hr & H).
  apply (inj Ok) in H. injection H as <-. exists r. destruct k. split_and!; [done|done|].
  unfold guard_err in Hr. destruct (Z.ltb_spec (row_header_revision r) 0); [done|lia].
Qed.

(** The last element of a list with a given id. *)
Definition last_with {A} (key : A -> Z) (id : Z) (l : list A) : option A :=
  foldl (fun o x => if key x =? id then Some x else o) None l.

Lemma last_with_snoc {A} (key : A -> Z) id l x :
  last_with key id (l ++ [x]) = if key x =? id then Some x else last_with key id l.
Proof. unfold last_with. by rewrite foldl_app. Qed.

Lemma last_with_None {A} (key : A -> Z) id l : last_with key id l = None <-> id ∉ map key l.
Proof.
  induction l as [|x l IH] using rev_ind; [split; [by intros _ ?%elem_of_nil|done]|].
  rewrite last_with_snoc, map_app, elem_of_app. cbn [map]. rewrite list_elem_of_singleton.
  destruct (Z.eqb_spec (key x) id) as [<-|Hne]; [split; [done|tauto]|]. rewrite IH. split; [|tauto].
  intros H [?|?]; congruence.
Qed.

Lemma last_with_Some {A} (key : A -> Z) id l x : last_with key id l = Some x -> x ∈ l /\ key x = id.
Proof.
  induction l as [|y l IH] using rev_ind; [done|]. rewrite last_with_snoc, elem_of_app, list_elem_of_singleton.
  destruct (Z.eqb_spec (key y) id) as [<-|Hne]; [intros [= ->]; tauto|]. intros [??]%IH. tauto.
Qed.

Lemma last_with_nodup {A} (key : A -> Z) l x : NoDup (map key l) -> x ∈ l -> last_with key (key x) l = Some x.
Proof.
  intros Hn Hx. destruct (last_with key (key x) l) as [y|] eqn:E.
  - apply last_with_Some in E as [Hy Hk]. f_equal.
    apply list_elem_of_lookup in Hx as [i Hi], Hy as [j Hj].
    assert (i = j) as ->; [|congruence]. apply (NoDup_lookup _ i j (key x) Hn).
    + etrans; [apply (list_lookup_fmap key l i)|]. by rewrite Hi.
    + etrans; [apply (list_lookup_fmap key l j)|]. rewrite Hj. cbn. congruence.
  - apply last_with_None in E. destruct E. apply list_elem_of_fmap. eauto.
Qed.

Definition row_of (r : PullRow) : ItemRow :=
  {| row_overview := pull_overview r; row_details := pull_details r; row_revision := pull_revision r |}.

(** The other tables a run of upserts, deletions or records leaves alone. *)
Definition same_rest (s s' : Store) : Prop :=
  header_row s' = header_row s /\ account_row s' = account_row s /\ settings_row s' = settings_row s /\
  local_blobs s' = local_blobs s /\ attachment_cache s' = attachment_cache s.

Lemma same_rest_trans s1 s2 s3 : same_rest s1 s2 -> same_rest s2 s3 -> same_rest s1 s3.
Proof. unfold same_rest. intros (?&?&?&?&?) (?&?&?&?&?). split_and!; congruence. Qed.

Lemma foldl_rest {A} (f : Store -> A -> Store) l s :
  (forall s x, same_rest s (f s x)) -> same_rest s (foldl f s l).
Proof.
  intros Hf. revert s. induction l as [|x l IH]; intros s; [by split_and!|].
  cbn [foldl]. eapply same_rest_trans; [apply Hf|apply IH].
Qed.

Lemma pull_upsert_lookup rows s id :
  let s' := foldl pull_upsert s rows in
  items s' !! id = from_option (Some ∘ row_of) (items s !! id) (last_with pull_id id rows) /\
  unreadable_items s' !! id = from_option (const None) (unreadable_items s !! id) (last_with pull_id id rows).
Proof.
  induction rows as [|r rows [IH1 IH2]] using rev_ind; [done|].
  cbv zeta. rewrite foldl_app, last_with_snoc. cbn [foldl]. destruct (Z.eqb_spec (pull_id r) id) as [<-|Hne]; cbn.
  - by rewrite lookup_insert_eq, lookup_delete_eq.
  - by rewrite lookup_insert_ne, lookup_delete_ne.
Qed.

Lemma pull_delete_lookup (dels : list Z) s n id :
  let s' := (foldl pull_delete (s, n) dels).1 in
  (id ∈ dels -> items s' !! id = None /\ unreadable_items s' !! id = None) /\
  (id ∉ dels -> items s' !! id = items s !! id /\ unreadable_items s' !! id = unreadable_items s !! id).
Proof.
  revert s n. induction dels as [|d dels IH]; intros s n; cbn [foldl].
  { split; [by intros ?%elem_of_nil|done]. }
  cbn [pull_delete delete_item]. set (s1 := set_unreadable _ _).
  match goal with |- context [foldl _ (s1, ?n1) dels] => destruct (IH s1 n1) as [IH1 IH2] end. split.
  - intros Hd. destruct (decide (id ∈ dels)) as [Hin|Hnin]; [by apply IH1|].
    apply elem_of_cons in Hd as [->|]; [|done]. destruct (IH2 Hnin) as [-> ->].
    subst s1. cbn. by rewrite !lookup_delete_eq.
  - intros [Hne Hnin]%not_elem_of_cons. destruct (IH2 Hnin) as [-> ->]. subst s1. cbn.
    by rewrite !lookup_delete_ne by done.
Qed.

Lemma pull_delete_rest dels s n : same_rest s (foldl pull_delete (s, n) dels).1.
Proof.
  revert s n. induction dels as [|d dels IH]; intros s n; [by split_and!|].
  cbn [foldl pull_delete delete_item]. eapply same_rest_trans; [|apply IH]. by split_and!.
Qed.

Lemma pull_unreadable_lookup l s id :
  let s' := foldl pull_unreadable s l in
  items s' = items s /\
  unreadable_items s' !! id = from_option (Some ∘ snd) (unreadable_items s !! id) (last_with fst id l).
Proof.
  induction l as [|p l [IH1 IH2]] using rev_ind; [done|].
  cbv zeta. rewrite foldl_app, last_with_snoc. cbn [foldl]. destruct (Z.eqb_spec p.1 id) as [<-|Hne]; cbn.
  - by rewrite lookup_insert_eq.
  - by rewrite lookup_insert_ne.
Qed.

(** What [apply_pull] does to the items and to the record of unreadable
    ones, id by id. *)
Lemma apply_pull_lookup rows (dels : list Z) unr cursor s id :
  let s' := (apply_pull rows dels unr cursor s).1 in
  items s' !! id =
    (if decide (id ∈ dels) then None else from_option (Some ∘ row_of) (items s !! id) (last_with pull_id id rows)) /\
  unreadable_items s' !! id =
    match last_with fst id unr with
    | Some p => Some p.2
    | None => if decide (id ∈ dels) then None
              else from_option (const None) (unreadable_items s !! id) (last_with pull_id id rows)
    end.
Proof.
  unfold apply_pull. cbv zeta.
  destruct (pull_upsert_lookup rows s id) as [U1 U2].
  destruct (pull_delete_lookup dels (foldl pull_upsert s rows) 0 id) as [D1 D2].
  destruct (foldl pull_delete _ dels) as [s2 n2]. cbn [fst] in *.
  destruct (pull_unreadable_lookup unr s2 id) as [R1 R2].
  set (s3 := foldl pull_unreadable s2 unr) in *.
  assert (items (match cursor with Some (c, t) => set_cursor c t s3 | None => s3 end) = items s3 /\
          unreadable_items (match cursor with Some (c, t) => set_cursor c t s3 | None => s3 end) = unreadable_items s3)
    as [-> ->] by (by destruct cursor as [[]|]).
  rewrite R1, R2. destruct (decide (id ∈ dels)) as [Hin|Hnin].
  - destruct (D1 Hin) as [-> ->]. by destruct (last_with fst id unr).
  - destruct (D2 Hnin) as [-> ->]. rewrite U1, U2. by destruct (last_with fst id unr).
Qed.

Lemma apply_pull_rest rows dels unr cursor s :
  let s' := (apply_pull rows dels unr cursor s).1 in
  header_row s' = header_row s /\ settings_row s' = settings_row s /\
  local_blobs s' = local_blobs s /\ attachment_cache s' = attachment_cache s /\
  account_row s' = match cursor with Some (c, t) => with_cursor c t <$> account_row s | None => account_row s end.
Proof.
  unfold apply_pull. cbv zeta.
  assert (same_rest s (foldl pull_upsert s rows)) as R1 by (apply foldl_rest; intros; by repeat split).
  pose proof (pull_delete_rest dels (foldl pull_upsert s rows) 0) as R2.
  destruct (foldl pull_delete _ dels) as [s2 n2]. cbn [fst] in *.
  assert (same_rest s (foldl pull_unreadable s2 unr)) as (H1 & H2 & H3 & H4 & H5).
  { eapply same_rest_trans; [eapply same_rest_trans; [exact R1|exact R2]|]. apply foldl_rest. intros; by repeat split. }
  destruct cursor as [[c t]|]; cbn; rewrite ?H1, ?H2, ?H3, ?H4, ?H5; done.
Qed.

(** The sizes of a list of cache rows. *)
Definition rows_size (rows : list (Z * Z)) : Z := foldr Z.add 0 (map snd rows).

Definition cache_size (cache : gmap Z CacheRow) : Z :=
  rows_size (map (fun p => (p.1, len (cache_blob p.2))) (map_to_list cache)).

Lemma rows_size_perm l k : l ≡ₚ k -> rows_size l = rows_size k.
Proof. unfold rows_size. induction 1; cbn; lia. Qed.

(** The rows [prune_rows] keeps. *)
Fixpoint kept_rows (keep : gset Z) (cap : Z) (rows : list (Z * Z)) (total : Z) : list (Z * Z) :=
  match rows with
  | [] => []
  | (id, size) :: rows =>
      if negb (bool_decide (id ∈ keep)) || (cap <? total + size)
      then kept_rows keep cap rows total
      else (id, size) :: kept_rows keep cap rows (total + size)
  end.

Lemma kept_rows_ok keep cap rows total :
  Forall (fun p => 0 <= p.2) rows -> 0 <= total <= cap ->
  total + rows_size (kept_rows keep cap rows total) <= cap /\
  Forall (fun p => p.1 ∈ keep) (kept_rows keep cap rows total).
Proof.
  intros Hs. revert total. induction Hs as [|[id size] rows Hsz _ IH]; intros total Ht; cbn [kept_rows].
  { split; [unfold rows_size; cbn; lia|constructor]. }
  destruct (bool_decide_reflect (id ∈ keep)) as [Hk|Hk]; cbn [negb orb]; [|by apply IH].
  destruct (Z.ltb_spec cap (total + size)) as [Hl|Hl]; [by apply IH|]. cbn in Hsz.
  destruct (IH (total + size)) as [H1 H2]; [lia|].
  split; [|by constructor]. unfold rows_size in *. cbn [map foldr snd]. lia.
Qed.

Lemma kept_rows_sub keep cap rows total : sublist (kept_rows keep cap rows total) rows.
Proof.
  revert total. induction rows as [|[id size] rows IH]; intros total; cbn [kept_rows]; [constructor|].
  destruct (_ || _); by constructor.
Qed.

Lemma kept_rows_ids keep cap (rows : list (Z * Z)) total id :
  id ∈ map fst (kept_rows keep cap rows total) -> id ∈ map fst rows.
Proof.
  intros (p & -> & Hp)%list_elem_of_fmap. apply list_elem_of_fmap. exists p. split; [done|].
  eapply elem_of_sublist; [done|apply kept_rows_sub].
Qed.

Lemma prune_rows_lookup keep cap rows total cache id :
  NoDup (map fst rows) ->
  prune_rows keep cap rows total cache !! id =
    if decide (id ∈ map fst rows)
    then if decide (id ∈ map fst (kept_rows keep cap rows total)) then cache !! id else None
    else cache !! id.
Proof.
  revert total cache. induction rows as [|[i size] rows IH]; intros total cache Hn; cbn [prune_rows kept_rows]; [done|].
  cbn [map fst] in Hn. apply NoDup_cons in Hn as [Hi Hn].
  assert (forall t, i ∉ map fst (kept_rows keep cap rows t)) as Hk.
  { intros t Hin%kept_rows_ids. done. }
  destruct (_ || _).
  - replace (total + size - size) with total by lia. rewrite IH by done. cbn [map fst].
    destruct (decide (id = i)) as [->|Hne].
    + rewrite (decide_False (P := i ∈ map fst rows)) by done. rewrite lookup_delete_eq.
      rewrite decide_True by (by left). by rewrite decide_False by done.
    + rewrite lookup_delete_ne by done.
      destruct (decide (id ∈ map fst rows)) as [Hin|Hin].
      * rewrite (decide_True (P := id ∈ i :: map fst rows)) by (by right). done.
      * rewrite (decide_False (P := id ∈ i :: map fst rows)); [done|]. by intros [?|?]%elem_of_cons.
  - rewrite IH by done. cbn [map fst]. destruct (decide (id = i)) as [->|Hne].
    + rewrite (decide_False (P := i ∈ map fst rows)) by done.
      rewrite !decide_True by (by left). done.
    + destruct (decide (id ∈ map fst rows)) as [Hin|Hin].
      * rewrite (decide_True (P := id ∈ i :: map fst rows)) by (by right).
        destruct (decide (id ∈ map fst (kept_rows _ _ _ _))) as [H|H].
        -- by rewrite decide_True by (by right).
        -- rewrite decide_False; [done|]. by intros [?|?]%elem_of_cons.
      * rewrite (decide_False (P := id ∈ i :: map fst rows)); [done|]. by intros [?|?]%elem_of_cons.
Qed.

Definition size_row (p : Z * CacheRow) : Z * Z := (p.1, len (cache_blob p.2)).

Lemma size_rows_fst l : map fst (map size_row l) = map fst l.
Proof. by rewrite map_map. Qed.

Lemma NoDup_map_fst {A B} (l : list (A * B)) : NoDup (map fst l) -> NoDup l.
Proof. apply NoDup_fmap_1. Qed.

Lemma elem_of_size_rows (cache : gmap Z CacheRow) id size :
  (id, size) ∈ map size_row (map_to_list cache) <-> exists r, cache !! id = Some r /\ size = len (cache_blob r).
Proof.
  split.
  - intros ([i r] & [= -> ->] & Hr%elem_of_map_to_list)%list_elem_of_fmap. eauto.
  - intros (r & Hr & ->). apply list_elem_of_fmap. exists (id, r). split; [done|]. by apply elem_of_map_to_list.
Qed.

Lemma cache_rows_perm cache : cache_rows cache ≡ₚ map size_row (map_to_list cache).
Proof. unfold cache_rows. apply fmap_Permutation, sort_by_key_perm. Qed.

Lemma cache_rows_nodup cache : NoDup (map fst (cache_rows cache)).
Proof.
  eapply NoDup_Permutation_proper; [apply fmap_Permutation, cache_rows_perm|].
  rewrite size_rows_fst. apply NoDup_fst_map_to_list.
Qed.

(** Pruning leaves exactly the kept rows. *)
Lemma prune_kept keep cap (cache : gmap Z CacheRow) :
  map size_row (map_to_list (prune_rows keep cap (cache_rows cache) 0 cache))
    ≡ₚ kept_rows keep cap (cache_rows cache) 0.
Proof.
  assert (forall id size, (id, size) ∈ cache_rows cache <->
          exists r, cache !! id = Some r /\ size = len (cache_blob r)) as Hrows.
  { intros id size. rewrite cache_rows_perm. apply elem_of_size_rows. }
  pose proof (cache_rows_nodup cache) as Hn.
  apply NoDup_Permutation.
  - apply NoDup_map_fst. rewrite size_rows_fst. apply NoDup_fst_map_to_list.
  - apply NoDup_map_fst in Hn. eapply sublist_NoDup; [apply Hn|apply kept_rows_sub].
  - intros [id size]. rewrite elem_of_size_rows. setoid_rewrite prune_rows_lookup; [|done].
    assert (forall r, cache !! id = Some r -> id ∈ map fst (cache_rows cache)) as Hin.
    { intros r Hr. apply list_elem_of_fmap. exists (id, len (cache_blob r)). split; [done|]. apply Hrows. eauto. }
    split.
    + intros (r & Hr & ->). destruct (decide (id ∈ map fst (cache_rows cache))) as [_|Hni].
      * destruct (decide _) as [Hk|]; [|done].
        apply list_elem_of_fmap in Hk as ([i sz] & -> & Hk). cbn in *.
        assert ((i, sz) ∈ cache_rows cache) as (r' & Hr' & ->)%Hrows
          by (eapply elem_of_sublist; [done|apply kept_rows_sub]).
        by simplify_eq.
      * destruct Hni. eauto.
    + intros Hk. assert ((id, size) ∈ cache_rows cache) as (r & Hr & ->)%Hrows
        by (eapply elem_of_sublist; [done|apply kept_rows_sub]).
      exists r. split; [|done]. rewrite !decide_True; [done| |by eapply Hin].
      apply list_elem_of_fmap. by exists (id, len (cache_blob r)).
Qed.

(** ** Properties *)

Section Properties.
Implicit Type s : Store.

(** Opening a database of any released schema version (5 to 8), a new
    one, or a current one, ends with exactly the current schema at the
    current version: no migration step is missing, repeated or fails.  A
    newer database is refused as newer. *)
Lemma init_reaches_schema v :
  (init {| user_version := v; schema := if v =? 0 then ∅ else schema_at v |} =
   if (v =? 0) || in_range 5 9 v then Ok {| user_version := 9; schema := list_to_set SCHEMA |}
   else if 9 <? v then Err NewerVault else Err UnsupportedVersion).
Proof.
  unfold in_range. destruct (Z.eqb_spec v 0) as [->|H0]; [vm_compute; reflexivity|].
  destruct (Z.eqb_spec v 5) as [->|H5]; [vm_compute; reflexivity|].
  destruct (Z.eqb_spec v 6) as [->|H6]; [vm_compute; reflexivity|].
  destruct (Z.eqb_spec v 7) as [->|H7]; [vm_compute; reflexivity|].
  destruct (Z.eqb_spec v 8) as [->|H8]; [vm_compute; reflexivity|].
  destruct (Z.eqb_spec v 9) as [->|H9]; [vm_compute; reflexivity|].
  unfold init, SCHEMA_VERSION. cbn [user_version].
  rewrite !(proj2 (Z.eqb_neq _ _)) by done. cbn [orb].
  destruct (Z.leb_spec 5 v), (Z.leb_spec v 9); cbn [andb]; try done. lia.
Qed.

(** The attachment cache is pruned to files the vault still names and
    to the byte limit, and what survives is unchanged. *)
Lemma prune_bounds keep cap s :
  0 <= cap ->
  let s' := prune_attachment_cache keep cap s in
  cache_size (attachment_cache s') <= cap /\
  (forall id r, attachment_cache s' !! id = Some r -> attachment_cache s !! id = Some r /\ id ∈ keep) /\
  items s' = items s.
Proof.
  intros Hcap. cbv zeta. cbn [attachment_cache prune_attachment_cache set_cache items].
  set (cache := attachment_cache s).
  destruct (kept_rows_ok keep cap (cache_rows cache) 0) as [Hsz Hk]; [|lia|].
  { apply Forall_forall. intros [id size] Hin. rewrite cache_rows_perm in Hin.
    apply elem_of_size_rows in Hin as (r & _ & ->). cbn. lia. }
  split_and!; [|intros id r|done].
  - unfold cache_size. change (fun p => _) with size_row. rewrite (rows_size_perm _ _ (prune_kept keep cap cache)). lia.
  - intros Hr. assert ((id, len (cache_blob r)) ∈ kept_rows keep cap (cache_rows cache) 0) as Hin.
    { rewrite <- prune_kept. apply elem_of_size_rows. eauto. }
    rewrite Forall_forall in Hk. split; [|by apply (Hk _ Hin)].
    rewrite prune_rows_lookup in Hr by apply cache_rows_nodup.
    by repeat destruct (decide _).
Qed.


End Properties.

(** ** Witnesses *)

Section Witnesses.
Definition sample_account : AccountRow :=
  {| acc := {| account_id := 7; email := lit "a@b.c"; server_url := lit "https://x"; server_cursor := 12;
               max_header_rev := 5; last_synced_at := None |};
     acc_plan_status := None; acc_entitlement := lit "full"; acc_trial_ends_at := None;
     acc_period_end := None; acc_pake_confirmed := 0 |}.

Definition sample_cache : gmap Z CacheRow :=
  list_to_map [(1, {| cache_blob := [0; 0; 0; 0; 0; 0]; last_used := 30 |});
               (2, {| cache_blob := [0; 0; 0; 0; 0; 0]; last_used := 20 |});
               (3, {| cache_blob := [0; 0; 0]; last_used := 10 |})].

Definition sample_store : Store := set_cache sample_cache (set_account_row (Some sample_account) empty_store).

Lemma prune_bounds_witness :
  cache_size (attachment_cache (prune_attachment_cache {[1; 2; 3]} 10 sample_store)) <= 10.
Proof. apply (prune_bounds {[1; 2; 3]} 10 sample_store). lia. Defined.

(** The pruning loop skips an entry that does not fit and goes on: an older,
    smaller one survives a newer one. *)
Lemma prune_keeps_older_smaller :
  map (fun id => bool_decide (is_Some (attachment_cache (prune_attachment_cache {[1; 2; 3]} 10 sample_store) !! id)))
    [1; 2; 3] = [true; false; true].
Proof. vm_compute. reflexivity. Qed.
End Witnesses.
