(* ===== verification/Lock.v ===== *)
(** * The auto-lock policy (crates/havenkeys-core/src/lock.rs)

    A [Duration] is its number of nanoseconds; the addition that could
    exceed the largest [Duration] (it would panic) is exact here. *)

From S2P Require Import Prelude.

Definition from_secs (s : Z) : Z := s * 1000000000.
Definition duration_sub (a b : Z) : Z := Z.max 0 (a - b).

Definition SUSPEND_THRESHOLD : Z := from_secs 30.

Inductive LockReason := Idle | Suspend.

#[export] Instance LockReason_eq_dec : EqDecision LockReason.
Proof. solve_decision. Defined.

Definition reason_as_str (r : LockReason) : string :=
  match r with Idle => "idle" | Suspend => "suspend" end.

Record LockManager := {
  timeout : option Z;
  last_activity : Z;
  last_tick : option (Z * Z);
}.

Definition new (t : option Z) : LockManager :=
  {| timeout := t; last_activity := 0; last_tick := None |}.

Definition timeout_from_minutes (minutes : Z) : option Z :=
  if 0 <? minutes then Some (from_secs (minutes * 60)) else None.

Definition set_timeout (t : option Z) (m : LockManager) : LockManager :=
  {| timeout := t; last_activity := last_activity m; last_tick := last_tick m |}.

Definition reset (mono wall : Z) (m : LockManager) : LockManager :=
  {| timeout := timeout m; last_activity := mono; last_tick := Some (mono, wall) |}.

Definition record_activity (mono : Z) (m : LockManager) : LockManager :=
  if last_activity m <? mono
  then {| timeout := timeout m; last_activity := mono; last_tick := last_tick m |}
  else m.

Definition tick (mono wall : Z) (m : LockManager) : LockManager * option LockReason :=
  let m' := {| timeout := timeout m; last_activity := last_activity m; last_tick := Some (mono, wall) |} in
  let suspended :=
    match last_tick m with
    | Some (prev_mono, prev_wall) =>
        duration_sub mono prev_mono + SUSPEND_THRESHOLD <? duration_sub wall prev_wall
    | None => false
    end in
  (m',
   if suspended then Some Suspend
   else match timeout m with
        | Some t => if t <=? duration_sub mono (last_activity m) then Some Idle else None
        | None => None
        end).

(** ** Runs *)

Inductive event := Activity (mono : Z) | Tick (mono wall : Z).

Definition step (m : LockManager) (e : event) : LockManager :=
  match e with
  | Activity t => record_activity t m
  | Tick t w => (tick t w m).1
  end.

Definition run (es : list event) (m : LockManager) : LockManager := foldl step m es.

(** The times of activity in a run, and its last clock reading. *)
Definition activities (es : list event) : list Z :=
  omap (fun e => match e with Activity t => Some t | Tick _ _ => None end) es.
Definition last_seen (first : Z * Z) (es : list event) : Z * Z :=
  foldl (fun p e => match e with Activity _ => p | Tick t w => (t, w) end) first es.

Lemma run_timeout es m : timeout (run es m) = timeout m.
Proof.
  revert m. induction es as [|e es IH]; intros m; [done|]. unfold run in *. cbn [foldl]. rewrite IH.
  destruct e; cbn; [|done]. unfold record_activity. by destruct (_ <? _).
Qed.

Lemma run_last_tick es m p :
  last_tick m = Some p -> last_tick (run es m) = Some (last_seen p es).
Proof.
  revert m p. induction es as [|e es IH]; intros m p Hm; [done|].
  unfold run, last_seen in *. cbn [foldl]. apply IH.
  destruct e; cbn; [|done]. unfold record_activity. by destruct (_ <? _).
Qed.

Lemma run_last_activity es m :
  last_activity (run es m) = foldl Z.max (last_activity m) (activities es).
Proof.
  revert m. induction es as [|e es IH]; intros m; [done|]. unfold run in *. cbn [foldl]. rewrite IH.
  destruct e as [t|t w]; cbn; [|done]. f_equal. unfold record_activity.
  destruct (Z.ltb_spec (last_activity m) t); cbn; lia.
Qed.

Lemma max_below t m a l :
  (t <=? duration_sub m (foldl Z.max a l)) = forallb (fun x => t <=? duration_sub m x) (a :: l).
Proof.
  revert a. induction l as [|b l IH]; intros a; cbn [foldl forallb]; [by rewrite andb_true_r|].
  rewrite IH. cbn [forallb]. rewrite andb_assoc. f_equal. unfold duration_sub.
  apply eq_true_iff_eq. rewrite andb_true_iff, !Z.leb_le. lia.
Qed.

(** Over every run since the vault was unlocked, a tick answers exactly
    this.  It reports a suspend when the wall clock gained more than 30 s on
    the monotonic clock since the last reading; else it reports idle when a
    timeout is set and it has passed since the unlock and since every
    recorded activity, in whatever order the activity arrived; else nothing.
    With no timeout it never reports idle. *)
Lemma tick_exact t mono0 wall0 es mono wall :
  let '(pm, pw) := last_seen (mono0, wall0) es in
  (tick mono wall (run es (reset mono0 wall0 (new t)))).2 =
    (if SUSPEND_THRESHOLD + Z.max 0 (mono - pm) <? wall - pw then Some Suspend
     else match t with
          | Some t => if forallb (fun a => t <=? Z.max 0 (mono - a)) (mono0 :: activities es)
                      then Some Idle else None
          | None => None
          end).
Proof.
  destruct (last_seen (mono0, wall0) es) as [pm pw] eqn:Hl. unfold tick. cbn [snd].
  rewrite (run_last_tick es _ (mono0, wall0)) by done. rewrite Hl, run_timeout, run_last_activity.
  cbn [timeout reset new last_activity].
  assert (duration_sub mono pm + SUSPEND_THRESHOLD <? duration_sub wall pw
          = (SUSPEND_THRESHOLD + Z.max 0 (mono - pm) <? wall - pw)) as ->.
  { apply eq_true_iff_eq. rewrite !Z.ltb_lt. unfold duration_sub, SUSPEND_THRESHOLD, from_secs. lia. }
  destruct (_ <? _); [done|]. destruct t as [t|]; [|done]. by rewrite max_below.
Qed.
