(* ===== verification/Origin.v ===== *)
(** * Domain matching (crates/havenkeys-core/src/origin.rs, equivalent.rs)

    Whether a saved website rule applies to a page.  URL parsing is the
    [url] crate's, registrable domains come from the [psl] crate; both are
    parameters. *)

From S2P Require Import Prelude Errors Text Url Clean Model.

(** [url::Host]; an IPv4 address as its four octets, an IPv6 address as its
    128-bit value. *)
Inductive Host :=
| HDomain (d : list Z)
| HIpv4 (a b c d : Z)
| HIpv6 (ip : Z).

Class SiteLib (UL : UrlLib) := {
  url_host : Url -> option Host;
  url_port : Url -> option Z;
  url_port_or_known_default : Url -> option Z;
  url_origin_ascii : Url -> list Z;
  ipv6_to_string : Z -> list Z;
  (** [psl::domain]: the registrable domain, and whether its suffix is a
      known one. *)
  psl_domain : list Z -> option (list Z * bool);
  (** The domains of the compiled equivalent-domains table, by group; [None]
      when the JSON does not parse. *)
  equivalent_table : option (list (list Z * list (list Z)));
}.

Inductive MatchStrength := ExactUrl | SameHost | SameSite | Equivalent.

#[export] Instance MatchStrength_eq_dec : EqDecision MatchStrength.
Proof. solve_decision. Defined.

(** The derived order: strongest first. *)
Definition rank (s : MatchStrength) : Z :=
  match s with ExactUrl => 0 | SameHost => 1 | SameSite => 2 | Equivalent => 3 end.

Record MatchPolicy := { equivalent_domains : bool }.
Definition DIRECT : MatchPolicy := {| equivalent_domains := false |}.

Section Origin.
Context {UL : UrlLib} {SL : SiteLib UL}.

Definition is_http (u : Url) : bool :=
  bool_decide (url_scheme u = lit "http") || bool_decide (url_scheme u = lit "https").

(** [PageUrl::parse]. *)
Definition page_parse (raw : list Z) : option Url :=
  if MAX_URL_LEN * 4 <? str_len raw then None
  else u ← url_parse raw;
       if negb (is_http u) || is_none (url_host u) then None else Some u.

Definition is_https (u : Url) : bool := bool_decide (url_scheme u = lit "https").

(** [host_key]. *)
Definition strip_dot (d : list Z) : list Z := default d (strip_suffix (lit ".") d).
Definition host_key (u : Url) : option (list Z) :=
  match url_host u with
  | None => None
  | Some (HDomain d) => Some (strip_dot d)
  | Some (HIpv4 a b c d) => Some (join (lit ".") (map to_decimal [a; b; c; d]))
  | Some (HIpv6 ip) => Some (lit "[" ++ ipv6_to_string ip ++ lit "]")
  end.

Definition title_and_origin (u : Url) : option (list Z * list Z) :=
  host ← host_key u;
  let title := default host (strip_prefix (lit "www.") host) in
  let origin := url_origin_ascii u in
  if bool_decide (origin = lit "null") then None else Some (title, origin).

Definition registrable_domain_of (host : list Z) : option (list Z) :=
  match psl_domain host with
  | Some (d, true) => Some d
  | _ => None
  end.

Definition registrable_domain (u : Url) : option (list Z) :=
  match url_host u with
  | Some (HDomain d) => registrable_domain_of (strip_dot d)
  | _ => None
  end.

Definition site_of (u : Url) : option (list Z) :=
  host ← host_key u;
  Some (default host (registrable_domain_of host)).

Definition same_site (a b : Url) : bool :=
  match site_of a, site_of b with
  | Some x, Some y => bool_decide (x = y)
  | _, _ => false
  end.

(** ** The equivalent-domains table *)

(** [build]: one group's domains, then the groups. *)
Fixpoint build_domains (i : nat) (ds : list (list Z)) (index : gmap (list Z) nat) : option (gmap (list Z) nat) :=
  match ds with
  | [] => Some index
  | d :: ds =>
      if negb (forallb is_ascii d) || negb (bool_decide (d = map to_ascii_lowercase d)) then None
      else match registrable_domain_of d with
           | Some r =>
               if negb (bool_decide (r = d)) then None
               else if is_some (index !! r) then None
               else build_domains i ds (<[r := i]> index)
           | None => None
           end
  end.

Fixpoint build_groups (i : nat) (gs : list (list Z * list (list Z))) (index : gmap (list Z) nat)
    : option (gmap (list Z) nat) :=
  match gs with
  | [] => Some index
  | (note, ds) :: gs =>
      if bool_decide (trim note = []) || (length ds <? 2)%nat then None
      else index ← build_domains i ds index; build_groups (S i) gs index
  end.

Definition build (table : option (list (list Z * list (list Z)))) : option (gmap (list Z) nat) :=
  gs ← table; build_groups 0 gs ∅.

(** The index read at run time: a malformed table is empty. *)
Definition index : gmap (list Z) nat := default ∅ (build equivalent_table).

Definition same_group (a b : list Z) : bool :=
  negb (bool_decide (a = b)) &&
  match index !! a, index !! b with
  | Some x, Some y => (x =? y)%nat
  | _, _ => false
  end.

(** ** Rules *)

Definition scheme_allowed (rule page : Url) : bool :=
  (bool_decide (url_scheme rule = lit "https") && bool_decide (url_scheme page = lit "https"))
  || (bool_decide (url_scheme rule = lit "http") && bool_decide (url_scheme page = lit "http"))
  || (bool_decide (url_scheme rule = lit "http") && bool_decide (url_scheme page = lit "https")).

Definition rule_port (rule page : Url) : option Z :=
  if is_none (url_port rule) && bool_decide (url_scheme rule = lit "http")
     && bool_decide (url_scheme page = lit "https")
  then Some 443
  else url_port_or_known_default rule.

Definition port_matches (rule page : Url) : bool :=
  bool_decide (rule_port rule page = url_port_or_known_default page).

Definition match_rule (rule : UrlRule) (page : Url) (policy : MatchPolicy) : option MatchStrength :=
  rule_url ← url_parse (url rule);
  if negb (is_http rule_url) then None
  else if negb (scheme_allowed rule_url page) || negb (port_matches rule_url page) then None
  else
    rule_host ← host_key rule_url;
    page_host ← host_key page;
    let same_host := bool_decide (rule_host = page_host) in
    match match_type rule with
    | Exact => if same_host && bool_decide (url_path rule_url = url_path page) then Some ExactUrl else None
    | Origin => if same_host then Some SameHost else None
    | Domain =>
        if same_host then Some SameHost
        else
          rule_site ← registrable_domain rule_url;
          page_site ← registrable_domain page;
          if bool_decide (rule_site = page_site) then Some SameSite
          else if equivalent_domains policy && same_group rule_site page_site then Some Equivalent
          else None
    end.

(** [Iterator::min]. *)
Definition stronger (a b : MatchStrength) : MatchStrength := if rank b <? rank a then b else a.
Fixpoint strongest (l : list MatchStrength) : option MatchStrength :=
  match l with
  | [] => None
  | s :: l => Some (match strongest l with Some t => stronger s t | None => s end)
  end.

Definition match_item (item : ItemOverview) (page : Url) (policy : MatchPolicy) : option MatchStrength :=
  strongest (omap (fun r => match_rule r page policy) (urls item)).

(** ** Specification

    The boundary the matcher enforces, as a relation. *)

Definition same_registrable (a b : Url) : Prop :=
  exists d, registrable_domain a = Some d /\ registrable_domain b = Some d.

Definition equivalent_registrable (a b : Url) : Prop :=
  exists d e g, registrable_domain a = Some d /\ registrable_domain b = Some e /\ d <> e /\
                index !! d = Some g /\ index !! e = Some g.

Definition no_downgrade (rule page : Url) : Prop :=
  url_scheme page = lit "https" \/ (url_scheme page = lit "http" /\ url_scheme rule = lit "http").

Definition applies (rule : UrlRule) (page : Url) (policy : MatchPolicy) (s : MatchStrength) : Prop :=
  exists ru rh ph,
    url_parse (url rule) = Some ru /\ host_key ru = Some rh /\ host_key page = Some ph /\
    is_http ru = true /\ no_downgrade ru page /\ rule_port ru page = url_port_or_known_default page /\
    match s with
    | ExactUrl => match_type rule = Exact /\ rh = ph /\ url_path ru = url_path page
    | SameHost => (match_type rule = Origin \/ match_type rule = Domain) /\ rh = ph
    | SameSite => match_type rule = Domain /\ rh <> ph /\ same_registrable ru page
    | Equivalent => match_type rule = Domain /\ rh <> ph /\ equivalent_domains policy = true /\
                    equivalent_registrable ru page
    end.

(** ** Lemmas *)

Lemma scheme_allowed_spec r p :
  is_http r = true -> scheme_allowed r p = true <-> no_downgrade r p.
Proof.
  unfold is_http, scheme_allowed, no_downgrade.
  rewrite !orb_true_iff, !andb_true_iff, !bool_decide_eq_true.
  assert (lit "http" <> lit "https") by done. intuition congruence.
Qed.

Lemma same_group_spec d e :
  same_group d e = true <-> d <> e /\ exists g, index !! d = Some g /\ index !! e = Some g.
Proof.
  unfold same_group. rewrite andb_true_iff, negb_true_iff, bool_decide_eq_false.
  destruct (index !! d) as [x|], (index !! e) as [y|]; try (split; [by intros [??]|by intros (?&?&?&?)]).
  rewrite Nat.eqb_eq. split; [intros [? ->]; eauto|]. intros (? & g & [= ->] & [= ->]). done.
Qed.

Lemma strongest_None l : strongest l = None <-> l = [].
Proof. by destruct l. Qed.

Lemma stronger_or a b : stronger a b = a \/ stronger a b = b.
Proof. unfold stronger. destruct (_ <? _); auto. Qed.

Lemma stronger_rank a b : rank (stronger a b) <= rank a /\ rank (stronger a b) <= rank b.
Proof. unfold stronger. destruct (Z.ltb_spec (rank b) (rank a)); lia. Qed.

Lemma strongest_Some l s :
  strongest l = Some s -> s ∈ l /\ Forall (fun t => rank s <= rank t) l.
Proof.
  revert s. induction l as [|a l IH]; intros s; [done|]. cbn [strongest]. intros [= <-].
  destruct (strongest l) as [t|] eqn:E.
  - destruct (IH t eq_refl) as [Hin Hmin]. destruct (stronger_rank a t) as [Ha Ht]. split.
    + destruct (stronger_or a t) as [-> | ->]; [by left|by right].
    + constructor; [done|]. eapply Forall_impl; [done|]. cbn. lia.
  - apply strongest_None in E as ->. split; [by left|]. by repeat constructor.
Qed.

Lemma match_rule_iff rule page policy s :
  match_rule rule page policy = Some s <-> applies rule page policy s.
Proof.
  unfold match_rule, applies. destruct (url_parse (url rule)) as [ru|]; [|split; [done|by intros (?&?&?&?&?)]].
  cbn [mbind option_bind]. destruct (is_http ru) eqn:Hh; cbn [negb];
    [|split; [done|intros (?&?&?&[= ->]&?&?&?&?); congruence]].
  pose proof (scheme_allowed_spec ru page Hh) as Hs.
  destruct (scheme_allowed ru page); cbn [negb orb]; [apply proj1 in Hs; specialize (Hs eq_refl)|].
  2:{ split; [done|]. intros (?&?&?&[= <-]&_&_&_&H%Hs&_). done. }
  unfold port_matches. destruct (bool_decide_reflect (rule_port ru page = url_port_or_known_default page)) as [Hp|Hp];
    cbn [negb]; [|split; [done|intros (?&?&?&[= <-]&_&_&_&_&H&_); done]].
  destruct (host_key ru) as [rh|] eqn:Hrh; [|split; [done|intros (?&?&?&[= <-]&?&_); congruence]].
  destruct (host_key page) as [ph|] eqn:Hph; [|split; [done|by intros (?&?&?&_&_&?&_)]].
  cbn [mbind option_bind].
  transitivity (match s with
    | ExactUrl => match_type rule = Exact /\ rh = ph /\ url_path ru = url_path page
    | SameHost => (match_type rule = Origin \/ match_type rule = Domain) /\ rh = ph
    | SameSite => match_type rule = Domain /\ rh <> ph /\ same_registrable ru page
    | Equivalent => match_type rule = Domain /\ rh <> ph /\ equivalent_domains policy = true /\
                    equivalent_registrable ru page
    end).
  2:{ split; [intros H; exists ru, rh, ph; tauto|]. intros (?&?&?&[= <-]&?&[= <-]&_&_&_&H). by simplify_eq. }
  unfold same_registrable, equivalent_registrable.
  destruct (bool_decide_reflect (rh = ph)) as [->|Hne]; destruct (match_type rule).
  - destruct (bool_decide_reflect (url_path ru = url_path page)); destruct s; naive_solver.
  - destruct s; naive_solver.
  - destruct s; naive_solver.
  - destruct s; naive_solver.
  - destruct s; naive_solver.
  - destruct (registrable_domain ru) as [d|]; [|destruct s; naive_solver].
    destruct (registrable_domain page) as [e|]; [|destruct s; naive_solver].
    cbn [mbind option_bind]. destruct (bool_decide_reflect (d = e)) as [->|Hde]; [destruct s; naive_solver|].
    pose proof (same_group_spec d e) as Hg.
    destruct (equivalent_domains policy), (same_group d e); cbn [andb]; destruct s; naive_solver.
Qed.

(** C27: a saved item matches a page only inside the written boundary, and as
    strongly as its best rule.  A rule applies to a page when it is an
    http(s) rule, never going from https down to http, with the same
    effective port, and either the same host (and path, for an exact rule)
    or, for a domain rule only, one registrable domain under a known public
    suffix, or two in one group of the table when the policy allows it; the
    answer is a strength some rule gives, none gives a stronger one, and
    there is none exactly when no rule applies. *)
Theorem match_item_best item page policy :
  match match_item item page policy with
  | Some s => (exists r, r ∈ urls item /\ applies r page policy s) /\
              (forall r t, r ∈ urls item -> applies r page policy t -> rank s <= rank t)
  | None => forall r t, r ∈ urls item -> ~ applies r page policy t
  end.
Proof.
  unfold match_item. destruct (strongest _) as [s|] eqn:E.
  - apply strongest_Some in E as [Hin Hmin]. rewrite Forall_forall in Hmin. split.
    + apply list_elem_of_omap in Hin as (r & Hr & Hm). exists r. by rewrite <- match_rule_iff.
    + intros r t Hr Ht%match_rule_iff. apply Hmin. apply list_elem_of_omap. eauto.
  - apply strongest_None in E. intros r t Hr Ht%match_rule_iff.
    assert (t ∈ omap (fun r => match_rule r page policy) (urls item)) as Hin by (apply list_elem_of_omap; eauto).
    rewrite E in Hin. by apply elem_of_nil in Hin.
Qed.
End Origin.

(** What the directory lookup relies on of the public suffix list: a
    registrable domain is the host itself or follows one of its dots. *)
Definition at_or_under (host d : list Z) : Prop := host = d \/ exists p, host = p ++ [46] ++ d.

Class PslLaws {UL : UrlLib} (SL : SiteLib UL) : Prop :=
  psl_under : forall h d known, psl_domain h = Some (d, known) -> at_or_under h d.

(** A concrete library for the witnesses: the registrable domain is the last
    two labels, and two domains are equivalent. *)
Module ToySite.
Fixpoint last_two (fuel : nat) (h : list Z) : option (list Z * bool) :=
  match fuel with
  | O => None
  | S fuel =>
      match split_once 46 h with
      | None => None
      | Some (_, rest) =>
          match split_once 46 rest with
          | None => Some (h, true)
          | Some _ => last_two fuel rest
          end
      end
  end.

#[export] Instance site_lib : SiteLib ToyUrl.url_lib := {|
  url_host := fun u : @Url ToyUrl.url_lib => Some (HDomain (snd u));
  url_port := fun _ => None;
  url_port_or_known_default := fun u : @Url ToyUrl.url_lib => if bool_decide (fst u = lit "https") then Some 443 else Some 80;
  url_origin_ascii := fun u : @Url ToyUrl.url_lib => fst u ++ lit "://" ++ snd u;
  ipv6_to_string := fun _ => lit "::1";
  psl_domain := fun h => last_two (length h) h;
  equivalent_table := Some [(lit "one company", [lit "a.com"; lit "b.com"])] |}.

#[export] Instance psl_laws : PslLaws site_lib.
Proof.
  assert (forall s a b, split_once 46 s = Some (a, b) -> s = a ++ [46] ++ b) as Hsplit.
  { induction s as [|c s IH]; intros a b; cbn [split_once]; [done|]. destruct (Z.eqb_spec c 46) as [->|].
    - by intros [= <- <-].
    - destruct (split_once 46 s) as [[x y]|] eqn:E; [|done]. intros [= <- <-]. by rewrite (IH x y). }
  intros h d known. cbn [psl_domain site_lib]. generalize (length h). intros fuel. revert h.
  induction fuel as [|fuel IH]; intros h; cbn [last_two]; [done|].
  destruct (split_once 46 h) as [[a rest]|] eqn:E; [|done]. apply Hsplit in E.
  destruct (split_once 46 rest) as [p|] eqn:E2.
  - intros [-> | [q ->]]%IH; right; subst h; [by exists a|]. exists (a ++ [46] ++ q). by rewrite <- !app_assoc.
  - intros [= <- _]. by left.
Qed.
End ToySite.
