(* ===== verification/Health.v ===== *)
(** * Vault health (crates/havenkeys-core/src/health/mod.rs, directory.rs)

    The site lists and their lookup by DNS labels, and the report computed
    from a snapshot of the logins.  The strength score is the [zxcvbn]
    crate's, and the two lists are data compiled into the program: both are
    parameters. *)

From S2P Require Import Prelude Errors Text Url Model Origin.

Definition MAX_SITES : nat := 20000.
Definition MAX_NAME : nat := 100.
Definition OLD_AFTER_MS : Z := 365 * 24 * 3600 * 1000.
Definition STRONG_ENOUGH : Z := 3.

(** ** Site lists (directory.rs) *)

Record Site := { help : option (list Z) }.
Record Directory := { sites : list Site; by_domain : gmap (list Z) nat }.

(** [serde_json::Value], as far as the entries are read. *)
Inductive Json := JStr (s : list Z) | JArr (l : list Json) | JOther.
Definition as_str (v : Json) : option (list Z) := match v with JStr s => Some s | _ => None end.
Definition as_array (v : Json) : option (list Json) := match v with JArr l => Some l | _ => None end.

Record RawSite := {
  raw_name : Json;
  raw_domains : Json;
  raw_passwordless : option bool;
  raw_help : Json;
}.

Section Directory.
Context {UL : UrlLib} {SL : SiteLib UL}.

Definition clean_host (v : Json) : option (list Z) :=
  s ← as_str v;
  if bool_decide (s = []) || (253 <? str_len s) || negb (contains (lit ".") s) || ends_with (lit ".") s
  then None
  else
    u ← url_parse (lit "https://" ++ s ++ lit "/");
    host ← host_key u;
    if bool_decide (host = s) then Some host else None.

Definition clean_help (v : Json) : option (list Z) :=
  s ← as_str v;
  u ← url_parse s;
  if is_https u && is_some (url_host u) then Some (url_to_string u) else None.

Definition clean_name (v : Json) : bool :=
  match as_str v with
  | Some n =>
      let n := trim n in
      negb (bool_decide (n = [])) && (length n <=? MAX_NAME)%nat && negb (existsb is_control n)
  | None => false
  end.

(** The body of [Directory::parse]'s loop; [None] is an entry that does not
    read as a [RawSite]. *)
Definition add_site (require_passwordless : bool) (dir : Directory) (entry : option RawSite) : Directory :=
  match entry with
  | None => dir
  | Some raw =>
      if negb (clean_name (raw_name raw)) then dir
      else if require_passwordless && negb (bool_decide (raw_passwordless raw = Some true)) then dir
      else match as_array (raw_domains raw) with
           | None => dir
           | Some l =>
               let domains := omap clean_host l in
               if bool_decide (domains = []) then dir
               else
                 let idx := length (sites dir) in
                 {| sites := sites dir ++ [{| help := clean_help (raw_help raw) |}];
                    by_domain := foldl (fun m d => match m !! d with Some _ => m | None => <[d := idx]> m end)
                                   (by_domain dir) domains |}
           end
  end.

(** [Directory::parse]; [None] is text that is not a JSON array. *)
Definition dir_parse (json : option (list (option RawSite))) (require_passwordless : bool) : Directory :=
  let empty := {| sites := []; by_domain := ∅ |} in
  match json with
  | None => empty
  | Some entries => foldl (add_site require_passwordless) empty (take MAX_SITES entries)
  end.

(** The loop of [Directory::lookup]; each round drops the first label, so
    the host's length bounds the rounds. *)
Fixpoint lookup_loop (fuel : nat) (dir : Directory) (site h : list Z) : option Site :=
  match fuel with
  | O => None
  | S fuel =>
      match by_domain dir !! h with
      | Some i => sites dir !! i
      | None =>
          if str_len h <=? str_len site then None
          else '(_, rest) ← split_once 46 h; lookup_loop fuel dir site rest
      end
  end.

Definition dir_lookup (dir : Directory) (host : list Z) : option Site :=
  site ← registrable_domain_of host;
  lookup_loop (S (length host)) dir site host.

Fixpoint help_for (dir : Directory) (hosts : list (list Z)) : option (list Z) :=
  match hosts with
  | [] => None
  | h :: hosts =>
      match dir_lookup dir h ≫= help with
      | Some u => Some u
      | None => help_for dir hosts
      end
  end.

Definition rule_host (u : list Z) : option (list Z * list Z) :=
  url ← url_parse u;
  if negb (is_http url) then None
  else host ← host_key url; Some (url_scheme url, map to_ascii_lowercase host).
End Directory.

(** ** Reports *)

Record HealthCounts := {
  n_weak : Z; n_reused : Z; n_old : Z; n_passkey : Z; n_two_factor : Z; n_insecure : Z; n_duplicate : Z
}.
Definition no_counts : HealthCounts := {| n_weak := 0; n_reused := 0; n_old := 0; n_passkey := 0;
  n_two_factor := 0; n_insecure := 0; n_duplicate := 0 |}.

Definition count (c : HealthCheck) (n : HealthCounts) : Z :=
  match c with
  | Weak => n_weak n | Reused => n_reused n | Old => n_old n | PasskeyCheck => n_passkey n
  | TwoFactor => n_two_factor n | Insecure => n_insecure n | Duplicate => n_duplicate n
  end.

(** [HealthCounts::add]. *)
Definition counts_add (n : HealthCounts) (c : HealthCheck) : HealthCounts :=
  let up d := if decide (c = d) then count d n + 1 else count d n in
  {| n_weak := up Weak; n_reused := up Reused; n_old := up Old; n_passkey := up PasskeyCheck;
     n_two_factor := up TwoFactor; n_insecure := up Insecure; n_duplicate := up Duplicate |}.

Record HealthIssue := {
  issue_item : Z;
  issue_checks : list HealthCheck;
  reused_group : option nat;
  duplicate_group : option nat;
  issue_help : bool;
}.
Record HealthDismissed := { dis_item : Z; dis_checks : list HealthCheck }.
Record HealthReport := {
  computed_at : Z;
  counts : HealthCounts;
  issues : list HealthIssue;
  dismissed : list HealthDismissed;
}.

Record LoginFacts := {
  fact_id : Z;
  fact_title : list Z;
  fact_username : option (list Z);
  fact_hosts : list (list Z * list Z);
  fact_password : option (list Z);
  last_changed : Z;
  fact_has_totp : bool;
  fact_has_passkey : bool;
  ignored : list HealthCheck;
  dedupe : list Z;
}.

Record HealthSnapshot := { logins : list LoginFacts; snap_generation : Z; snap_epoch : Z }.

Class HealthLib := {
  zxcvbn_score : list Z -> list (list Z) -> Z;
  passkey_sites : Directory;
  twofactor_sites : Directory;
}.

(** [groups]: the keys with two or more logins, numbered by each group's
    smallest item id. *)
Definition collect_keys (keys : list (nat * list Z)) : gmap (list Z) (list nat) :=
  foldl (fun m p => <[p.2 := default [] (m !! p.2) ++ [p.1]]> m) ∅ keys.

Fixpoint min_opt (l : list Z) : option Z :=
  match l with
  | [] => None
  | x :: l => Some (match min_opt l with Some y => Z.min x y | None => x end)
  end.

Definition number_groups (multi : list (list nat)) : gmap nat nat :=
  foldl (fun m p => foldl (fun m i => <[i := p.1]> m) m p.2) ∅ (imap pair multi).

Definition multiple (by_key : gmap (list Z) (list nat)) : list (list nat) :=
  List.filter (fun v => (1 <? length v)%nat) (map snd (map_to_list by_key)).

Definition groups (keys : list (nat * list Z)) (ids : list Z) : gmap nat nat :=
  number_groups (sort_by_key (fun v => min_opt (omap (fun i => ids !! i) v)) (multiple (collect_keys keys))).

Section Compute.
Context {UL : UrlLib} {SL : SiteLib UL} {HL : HealthLib}.

Definition is_weak (f : LoginFacts) (password : list Z) : bool :=
  zxcvbn_score password (fact_title f :: option_list (fact_username f)) <? STRONG_ENOUGH.

Definition set_password (f : LoginFacts) : option (list Z) :=
  match fact_password f with
  | Some p => if bool_decide (p = []) then None else Some p
  | None => None
  end.

Definition push (b : bool) (c : HealthCheck) : list HealthCheck := if b then [c] else [].

Definition listed (dir : Directory) (f : LoginFacts) : bool :=
  existsb (fun h => is_some (dir_lookup dir h.2)) (fact_hosts f).

(** The checks [compute] finds for the login at index [i]. *)
Definition found_checks (reused duplicate : gmap nat nat) (now_ms : Z) (i : nat) (f : LoginFacts)
    : list HealthCheck :=
  (match set_password f with
   | Some p => push (is_weak f p) Weak ++ push (is_some (reused !! i)) Reused
               ++ push (OLD_AFTER_MS <? now_ms - last_changed f) Old
   | None => []
   end)
  ++ (if negb (fact_has_passkey f) && listed passkey_sites f then [PasskeyCheck]
      else push (negb (fact_has_totp f) && listed twofactor_sites f) TwoFactor)
  ++ push (existsb (fun h => bool_decide (h.1 = lit "http") && is_some (registrable_domain_of h.2))
             (fact_hosts f)) Insecure
  ++ push (is_some (duplicate !! i)) Duplicate.

Definition has_check (c : HealthCheck) (l : list HealthCheck) : bool := bool_decide (c ∈ l).

Definition help_directory (kept : list HealthCheck) : option Directory :=
  if has_check PasskeyCheck kept then Some passkey_sites
  else if has_check TwoFactor kept then Some twofactor_sites
  else None.

(** One round of [compute]'s loop: [partition] by the dismissed checks, and
    the rows pushed when a part is not empty. *)
Definition kept_checks (f : LoginFacts) (found : list HealthCheck) : list HealthCheck :=
  List.filter (fun c => negb (has_check c (ignored f))) found.
Definition gone_checks (f : LoginFacts) (found : list HealthCheck) : list HealthCheck :=
  List.filter (fun c => has_check c (ignored f)) found.

Definition issue_row (reused duplicate : gmap nat nat) (i : nat) (f : LoginFacts) (kept : list HealthCheck)
    : list HealthIssue :=
  if bool_decide (kept = []) then []
  else [{| issue_item := fact_id f; issue_checks := kept;
           reused_group := if has_check Reused kept then reused !! i else None;
           duplicate_group := if has_check Duplicate kept then duplicate !! i else None;
           issue_help := match help_directory kept with
                         | Some d => is_some (help_for d (map snd (fact_hosts f)))
                         | None => false
                         end |}].

Definition dismissed_row (f : LoginFacts) (gone : list HealthCheck) : list HealthDismissed :=
  if bool_decide (gone = []) then [] else [{| dis_item := fact_id f; dis_checks := gone |}].

Definition add_login (reused duplicate : gmap nat nat) (now_ms : Z) (r : HealthReport) (p : nat * LoginFacts)
    : HealthReport :=
  let '(i, f) := p in
  let found := found_checks reused duplicate now_ms i f in
  let kept := kept_checks f found in
  {| computed_at := computed_at r;
     counts := foldl counts_add (counts r) kept;
     dismissed := dismissed r ++ dismissed_row f (gone_checks f found);
     issues := issues r ++ issue_row reused duplicate i f kept |}.

(** The [BTreeMap] of ids to indices, in order. *)
Definition ordered (l : list LoginFacts) : list (Z * nat) :=
  sort_by_key fst (map_to_list (foldl (fun m p => <[fact_id p.2 := p.1]> m) (∅ : gmap Z nat) (imap pair l))).

Definition reused_keys (l : list LoginFacts) : list (nat * list Z) :=
  omap (fun p => (fun w => (p.1, w)) <$> set_password p.2) (imap pair l).
Definition duplicate_keys (l : list LoginFacts) : list (nat * list Z) :=
  map (fun p => (p.1, dedupe p.2)) (imap pair l).

Definition compute (s : HealthSnapshot) (now_ms : Z) : HealthReport :=
  let ids := map fact_id (logins s) in
  let reused := groups (reused_keys (logins s)) ids in
  let duplicate := groups (duplicate_keys (logins s)) ids in
  foldl (add_login reused duplicate now_ms)
    {| computed_at := now_ms; counts := no_counts; issues := []; dismissed := [] |}
    (omap (fun p => (fun f => (p.2, f)) <$> logins s !! p.2) (ordered (logins s))).
End Compute.

(** ** Lemmas *)

Lemma count_add_spec n c d : count d (counts_add n c) = count d n + (if decide (c = d) then 1 else 0).
Proof. unfold counts_add. destruct d; cbn [count n_weak n_reused n_old n_passkey n_two_factor n_insecure n_duplicate]; destruct (decide _); lia. Qed.

Definition occurrences (c : HealthCheck) (l : list HealthCheck) : Z := len (List.filter (fun d => bool_decide (d = c)) l).

Lemma counts_fold l n d : count d (foldl counts_add n l) = count d n + occurrences d l.
Proof.
  revert n. induction l as [|c l IH]; intros n; cbn [foldl]; [unfold occurrences; cbn; lia|].
  rewrite IH, count_add_spec. unfold occurrences. cbn [List.filter].
  rewrite bool_decide_decide. destruct (decide (c = d)); cbn [length]; lia.
Qed.

(** *** Groups *)

Lemma collect_keys_snoc keys p :
  collect_keys (keys ++ [p]) = <[p.2 := default [] (collect_keys keys !! p.2) ++ [p.1]]> (collect_keys keys).
Proof. unfold collect_keys. by rewrite foldl_app. Qed.

Lemma collect_keys_lookup keys k :
  default [] (collect_keys keys !! k) = map fst (List.filter (fun p => bool_decide (p.2 = k)) keys).
Proof.
  induction keys as [|p keys IH] using rev_ind; [done|].
  rewrite collect_keys_snoc, List.filter_app, map_app, <- IH. cbn [List.filter].
  destruct (bool_decide_reflect (p.2 = k)) as [<-|Hne].
  - by rewrite lookup_insert_eq.
  - rewrite lookup_insert_ne by done. cbn [map]. by rewrite app_nil_r.
Qed.

Lemma group_members keys k v i :
  collect_keys keys !! k = Some v -> i ∈ v <-> (i, k) ∈ keys.
Proof.
  intros Hv. pose proof (collect_keys_lookup keys k) as Hl. rewrite Hv in Hl. cbn in Hl. rewrite Hl.
  split.
  - intros ([j k'] & -> & Hp)%list_elem_of_fmap.
    apply list_elem_of_In, List.filter_In in Hp as [Hp%list_elem_of_In Hk].
    cbn in *. by apply bool_decide_eq_true in Hk as ->.
  - intros Hin. apply list_elem_of_fmap. exists (i, k). split; [done|].
    apply list_elem_of_In, List.filter_In. split; [by apply list_elem_of_In|]. by rewrite bool_decide_eq_true_2.
Qed.

Lemma NoDup_two {A} (l : list A) x y : x ∈ l -> y ∈ l -> x <> y -> (1 < length l)%nat.
Proof.
  intros Hx Hy Hne. destruct l as [|a [|b l]]; [by apply elem_of_nil in Hx| |cbn; lia].
  apply list_elem_of_singleton in Hx as ->. by apply list_elem_of_singleton in Hy as ->.
Qed.

Lemma group_nodup keys k v :
  NoDup (map fst keys) -> collect_keys keys !! k = Some v -> NoDup v.
Proof.
  intros Hn Hv. pose proof (collect_keys_lookup keys k) as Hl. rewrite Hv in Hl. cbn in Hl. subst v.
  clear Hv. induction keys as [|[i k'] keys IH]; [constructor|]. cbn in Hn. apply NoDup_cons in Hn as [Hi Hn].
  cbn [List.filter snd]. destruct (bool_decide _); [|by apply IH]. cbn [map fst]. constructor; [|by apply IH].
  intros ([j w] & -> & Hj)%list_elem_of_fmap. apply Hi. apply list_elem_of_In, List.filter_In in Hj as [Hj _].
  apply list_elem_of_fmap. exists (j, w). split; [done|]. by apply list_elem_of_In.
Qed.

Lemma inner_numbers (v : list nat) g (m : gmap nat nat) i :
  is_Some (foldl (fun m i => <[i := g]> m) m v !! i) <-> i ∈ v \/ is_Some (m !! i).
Proof.
  revert m. induction v as [|j v IH]; intros m; cbn [foldl].
  { split; [tauto|]. intros [?%elem_of_nil|?]; done. }
  rewrite IH, elem_of_cons. destruct (decide (i = j)) as [->|Hne].
  - rewrite lookup_insert_eq. split; [by eauto|]. intros _. right. by eexists.
  - rewrite lookup_insert_ne by done. tauto.
Qed.

Lemma number_groups_dom (multi : list (list nat)) i :
  is_Some (number_groups multi !! i) <-> exists v, v ∈ multi /\ i ∈ v.
Proof.
  unfold number_groups. assert (forall (l : list (nat * list nat)) (m : gmap nat nat),
    is_Some (foldl (fun m p => foldl (fun m i => <[i := p.1]> m) m p.2) m l !! i) <->
    (exists p, p ∈ l /\ i ∈ p.2) \/ is_Some (m !! i)) as H.
  { intros l. induction l as [|p l IH]; intros m; cbn [foldl].
    { split; [tauto|]. intros [(p & ?%elem_of_nil & _)|?]; done. }
    rewrite IH, inner_numbers. setoid_rewrite elem_of_cons. naive_solver. }
  rewrite H, lookup_empty. split.
  - intros [([g v] & Hp & Hi)|[? ?]]; [|done]. exists v. split; [|done].
    apply elem_of_lookup_imap in Hp as (k & w & [= -> ->] & Hw). by apply list_elem_of_lookup_2 in Hw.
  - intros (v & [g Hg]%list_elem_of_lookup & Hi). left. exists (g, v). split; [|done].
    apply elem_of_lookup_imap. eauto.
Qed.

Lemma groups_spec keys ids i :
  NoDup (map fst keys) ->
  is_Some (groups keys ids !! i) <-> exists k j, (i, k) ∈ keys /\ (j, k) ∈ keys /\ i <> j.
Proof.
  intros Hn. unfold groups. rewrite number_groups_dom.
  assert (forall v, v ∈ sort_by_key (fun v => min_opt (omap (fun i => ids !! i) v)) (multiple (collect_keys keys)) <->
                    exists k, collect_keys keys !! k = Some v /\ (1 < length v)%nat) as Hm.
  { intros v. rewrite sort_by_key_perm. unfold multiple. rewrite list_elem_of_In, List.filter_In, Nat.ltb_lt.
    split.
    - intros [Hv Hl]. apply list_elem_of_In, list_elem_of_fmap in Hv as ([k w] & -> & Hw%elem_of_map_to_list). eauto.
    - intros (k & Hk & Hl). split; [|done]. apply list_elem_of_In, list_elem_of_fmap. exists (k, v).
      split; [done|]. by apply elem_of_map_to_list. }
  setoid_rewrite Hm. split.
  - intros (v & (k & Hk & Hl) & Hi). pose proof (group_nodup _ _ _ Hn Hk) as Hv.
    exists k. apply list_elem_of_lookup in Hi as [a Ha].
    assert (exists j, j ∈ v /\ i <> j) as (j & Hj & Hne).
    { destruct v as [|x [|y v]]; [done|cbn in Hl; lia|]. apply NoDup_cons in Hv as [Hx _].
      destruct (decide (i = x)) as [->|]; [|exists x; split; [by left|done]].
      exists y. split; [by right; left|]. intros ->. apply Hx. by left. }
    exists j. apply list_elem_of_lookup_2 in Ha. by rewrite <- !(group_members _ _ _ _ Hk).
  - intros (k & j & Hi & Hj & Hne). destruct (collect_keys keys !! k) as [v|] eqn:Hk.
    + exists v. rewrite (group_members _ _ _ _ Hk). split; [|done]. exists k. split; [done|].
      apply (NoDup_two v i j); [by rewrite (group_members _ _ _ _ Hk)..|done].
    + pose proof (collect_keys_lookup keys k) as Hl. rewrite Hk in Hl. cbn in Hl.
      assert (i ∈ map fst (List.filter (fun p => bool_decide (p.2 = k)) keys)) as Hin.
      { apply list_elem_of_fmap. exists (i, k). split; [done|]. apply list_elem_of_In, List.filter_In.
        split; [by apply list_elem_of_In|]. by rewrite bool_decide_eq_true_2. }
      rewrite <- Hl in Hin. by apply elem_of_nil in Hin.
Qed.

(** *** The order of the report *)

Lemma index_map_lookup (l : list LoginFacts) z i :
  foldl (fun m p => <[fact_id p.2 := p.1]> m) (∅ : gmap Z nat) (imap pair l) !! z = Some i ->
  exists f, l !! i = Some f /\ fact_id f = z.
Proof.
  assert (forall (k : list (nat * LoginFacts)) (m : gmap Z nat),
    (forall j f, (j, f) ∈ k -> l !! j = Some f) ->
    (m !! z = Some i -> exists f, l !! i = Some f /\ fact_id f = z) ->
    foldl (fun m p => <[fact_id p.2 := p.1]> m) m k !! z = Some i -> exists f, l !! i = Some f /\ fact_id f = z) as H.
  { induction k as [|[j f] k IH]; intros m Hk Hm; cbn [foldl fst snd]; [done|]. apply IH.
    - intros j' f' Hin. apply Hk. by right.
    - destruct (decide (fact_id f = z)) as [<-|Hne].
      + rewrite lookup_insert_eq. intros [= ->]. exists f. split; [|done]. apply Hk. by left.
      + by rewrite lookup_insert_ne. }
  apply H; [|done]. intros j f (k & w & [= -> ->] & Hw)%elem_of_lookup_imap. done.
Qed.

Lemma ordered_in l z i : (z, i) ∈ ordered l -> exists f, l !! i = Some f /\ fact_id f = z.
Proof.
  unfold ordered. rewrite sort_by_key_perm. intros H%elem_of_map_to_list. by apply index_map_lookup.
Qed.

Lemma sorted_lt (l : list (Z * nat)) :
  StronglySorted (key_le fst) l -> NoDup (map fst l) -> StronglySorted Z.lt (map fst l).
Proof.
  induction 1 as [|p l Hs IH Hp]; cbn [map]; [constructor|]. intros [Hn Hd]%NoDup_cons.
  constructor; [by apply IH|]. apply Forall_forall. intros z (q & -> & Hq)%list_elem_of_fmap.
  rewrite Forall_forall in Hp. specialize (Hp q Hq). unfold key_le, cmp_le, cmp, Z_cmp in Hp.
  apply Z.compare_ngt_iff in Hp.
  assert (p.1 <> q.1); [|lia]. intros E. apply Hn. rewrite E. apply list_elem_of_fmap. eauto.
Qed.

Lemma ordered_sorted l : StronglySorted Z.lt (map fst (ordered l)).
Proof.
  apply sorted_lt; [apply sort_by_key_sorted|]. unfold ordered.
  eapply NoDup_Permutation_proper; [apply fmap_Permutation, sort_by_key_perm|]. apply NoDup_fst_map_to_list.
Qed.

Section Report.
Context {UL : UrlLib} {SL : SiteLib UL} {HL : HealthLib}.

Definition rows (l : list LoginFacts) : list (nat * LoginFacts) :=
  omap (fun p => (fun f => (p.2, f)) <$> l !! p.2) (ordered l).

Lemma rows_ids l : map (fun p => fact_id p.2) (rows l) = map fst (ordered l).
Proof.
  unfold rows. assert (forall p, p ∈ ordered l -> exists f, l !! p.2 = Some f /\ fact_id f = p.1) as H.
  { intros [z i] Hp. by apply ordered_in. }
  induction (ordered l) as [|p k IH]; [done|]. cbn [omap list_omap].
  destruct (H p) as (f & Hf & Hz); [by left|]. rewrite Hf. cbn. rewrite Hz. f_equal.
  apply IH. intros q Hq. apply H. by right.
Qed.

Lemma rows_in l i f : (i, f) ∈ rows l -> l !! i = Some f.
Proof.
  unfold rows. intros ([z j] & _ & H)%list_elem_of_omap. cbn in H.
  destruct (l !! j) eqn:E; [|done]. cbn in H. by injection H as -> ->.
Qed.

(** A fold of [add_login] row by row. *)
Lemma fold_report reused duplicate now l r :
  let kept p := kept_checks p.2 (found_checks reused duplicate now p.1 p.2) in
  let r' := foldl (add_login reused duplicate now) r l in
  counts r' = foldl counts_add (counts r) (concat (map kept l)) /\
  issues r' = issues r ++ concat (map (fun p => issue_row reused duplicate p.1 p.2 (kept p)) l).
Proof.
  cbv zeta. revert r. induction l as [|[i f] l IH]; intros r; cbn [foldl map concat]; [by rewrite app_nil_r|].
  destruct (IH (add_login reused duplicate now r (i, f))) as [-> ->]. cbn [counts issues add_login fst snd].
  by rewrite foldl_app, app_assoc.
Qed.

Lemma issue_row_checks reused duplicate i f kept :
  concat (map issue_checks (issue_row reused duplicate i f kept)) = kept.
Proof. unfold issue_row. destruct (bool_decide_reflect (kept = [])) as [->|]; [done|]. apply app_nil_r. Qed.

Lemma issue_rows_checks reused duplicate kept (l : list (nat * LoginFacts)) :
  concat (map issue_checks (concat (map (fun p => issue_row reused duplicate p.1 p.2 (kept p)) l))) =
  concat (map kept l).
Proof.
  induction l as [|p l IH]; [done|]. cbn [map concat]. by rewrite map_app, concat_app, IH, issue_row_checks.
Qed.

(** The issues' ids are some of the rows', in order. *)
Lemma issue_rows_in reused duplicate kept (l : list (nat * LoginFacts)) z :
  z ∈ map issue_item (concat (map (fun p => issue_row reused duplicate p.1 p.2 (kept p)) l)) ->
  z ∈ map (fun p => fact_id p.2) l.
Proof.
  induction l as [|p l IH]; [done|]. cbn [map concat]. rewrite map_app, elem_of_app.
  intros [H|H]; [|right; by apply IH]. unfold issue_row in H.
  destruct (bool_decide _); [by apply elem_of_nil in H|]. apply list_elem_of_singleton in H. subst z. by left.
Qed.

Lemma issue_rows_sorted reused duplicate kept (l : list (nat * LoginFacts)) :
  StronglySorted Z.lt (map (fun p => fact_id p.2) l) ->
  StronglySorted Z.lt (map issue_item (concat (map (fun p => issue_row reused duplicate p.1 p.2 (kept p)) l))).
Proof.
  induction l as [|p l IH]; intros Hs; [constructor|]. cbn [map concat].
  rewrite map_app. cbn [map] in Hs. apply StronglySorted_inv in Hs as [Hs Hp].
  unfold issue_row at 1. destruct (bool_decide _); cbn [map app]; [by apply IH|]. constructor; [by apply IH|].
  apply Forall_forall. intros z Hz%issue_rows_in. rewrite Forall_forall in Hp. by apply Hp.
Qed.

Lemma reused_keys_in l i w :
  (i, w) ∈ reused_keys l <-> exists f, l !! i = Some f /\ set_password f = Some w.
Proof.
  unfold reused_keys. rewrite list_elem_of_omap. split.
  - intros ([j f] & (k & x & [= -> ->] & Hx)%elem_of_lookup_imap & H). cbn in H.
    destruct (set_password x) eqn:E; [|done]. cbn in H. injection H as -> ->. eauto.
  - intros (f & Hf & Hw). exists (i, f). split; [apply elem_of_lookup_imap; eauto|]. cbn. by rewrite Hw.
Qed.

Lemma imap_pair_fst {A} (l : list A) : NoDup (map fst (imap pair l)).
Proof.
  assert (map fst (imap pair l) = seq 0 (length l)) as ->; [|apply NoDup_seq].
  apply list_eq. intros i. etrans; [apply (list_lookup_fmap fst)|]. rewrite list_lookup_imap.
  destruct (l !! i) eqn:E; cbn.
  - apply lookup_lt_Some in E. symmetry. by apply lookup_seq.
  - apply lookup_ge_None in E. symmetry. apply lookup_seq_ge. lia.
Qed.

Lemma reused_keys_nodup l : NoDup (map fst (reused_keys l)).
Proof.
  unfold reused_keys. pose proof (imap_pair_fst l) as Hn.
  induction (imap pair l) as [|p k IH]; [constructor|]. cbn [map] in Hn. apply NoDup_cons in Hn as [Hp Hn].
  cbn [omap list_omap]. destruct (set_password p.2) eqn:E; cbn [fmap option_fmap option_map]; [|by apply IH].
  cbn [map fst]. constructor; [|by apply IH].
  intros ([j w] & Hj & (q & Hq & H)%list_elem_of_omap)%list_elem_of_fmap. apply Hp. cbn in Hj. rewrite Hj.
  destruct (set_password q.2); [|done]. cbn in H. injection H as <- _. apply list_elem_of_fmap. eauto.
Qed.

Lemma elem_of_push c b d : c ∈ push b d <-> b = true /\ c = d.
Proof.
  unfold push. destruct b; [rewrite list_elem_of_singleton; tauto|]. split; [by intros ?%elem_of_nil|by intros [? _]].
Qed.

Lemma found_reused reused duplicate now i f :
  Reused ∈ found_checks reused duplicate now i f -> is_Some (reused !! i) /\ is_Some (set_password f).
Proof.
  unfold found_checks. rewrite !elem_of_app. intros [H|[H|[H|H]]].
  - destruct (set_password f) as [p|]; [|by apply elem_of_nil in H].
    rewrite !elem_of_app, !elem_of_push in H. destruct H as [[_ ?]|[[Hr _]|[_ ?]]]; [done| |done].
    split; [|eauto]. by destruct (reused !! i).
  - destruct (_ && _); [by apply list_elem_of_singleton in H|]. by apply elem_of_push in H as [_ ?].
  - by apply elem_of_push in H as [_ ?].
  - by apply elem_of_push in H as [_ ?].
Qed.

(** The health report is exact and never shows a dismissed check.  Its
    issues are in strictly increasing item order, each for a login of the
    snapshot with the checks found for it that the user has not dismissed;
    the counts are the occurrences of each check in the issues; and a
    password is called reused exactly when another login of the snapshot
    has the same one. *)
Lemma report_exact s now :
  let r := compute s now in
  StronglySorted Z.lt (map issue_item (issues r)) /\
  (forall c, count c (counts r) = occurrences c (concat (map issue_checks (issues r)))) /\
  (forall x, x ∈ issues r -> exists i f,
     logins s !! i = Some f /\ issue_item x = fact_id f /\ issue_checks x <> [] /\
     (forall c, c ∈ issue_checks x -> c ∉ ignored f) /\
     (Reused ∈ issue_checks x -> exists j f' w, j <> i /\ logins s !! j = Some f' /\ w <> [] /\
        fact_password f = Some w /\ fact_password f' = Some w)).
Proof.
  unfold compute. cbv zeta. fold (rows (logins s)).
  set (reused := groups (reused_keys (logins s)) _). set (duplicate := groups (duplicate_keys (logins s)) _).
  pose proof (fold_report reused duplicate now (rows (logins s))
    {| computed_at := now; counts := no_counts; issues := []; dismissed := [] |}) as [Hc Hi].
  set (r := foldl _ _ _) in *. cbn [counts issues app] in Hc, Hi. rewrite Hc, Hi. split_and!.
  - apply issue_rows_sorted with (kept := fun p => kept_checks p.2 (found_checks reused duplicate now p.1 p.2)).
    rewrite rows_ids. apply ordered_sorted.
  - intros c. rewrite counts_fold,
      (issue_rows_checks reused duplicate (fun p => kept_checks p.2 (found_checks reused duplicate now p.1 p.2))).
    by destruct c.
  - intros x Hx. apply list_elem_of_In, in_concat in Hx as (row & Hrow & Hx).
    apply list_elem_of_In, list_elem_of_fmap in Hrow as ([i f] & -> & Hrow%rows_in). apply list_elem_of_In in Hx.
    exists i, f. cbn [fst snd] in Hx. unfold issue_row in Hx.
    destruct (bool_decide_reflect (kept_checks f (found_checks reused duplicate now i f) = [])) as [|Hne];
      [by apply elem_of_nil in Hx|].
    apply list_elem_of_singleton in Hx. subst x. cbn [issue_item issue_checks].
    assert (forall c, c ∈ kept_checks f (found_checks reused duplicate now i f) ->
                      c ∈ found_checks reused duplicate now i f /\ c ∉ ignored f) as Hk.
    { intros c Hc'. unfold kept_checks in Hc'. apply list_elem_of_In, List.filter_In in Hc' as [Hf Hn].
      split; [by apply list_elem_of_In|]. apply negb_true_iff in Hn. unfold has_check in Hn.
      by apply bool_decide_eq_false in Hn. }
    split_and!; [done..|intros c Hc'; by apply Hk|]. intros [Hr _]%Hk.
    assert (is_Some (reused !! i) /\ is_Some (set_password f)) as [Hg [w Hw]].
    { by apply found_reused in Hr. }
    apply groups_spec in Hg as (k & j & H1 & H2 & Hij); [|apply reused_keys_nodup].
    apply reused_keys_in in H1 as (f1 & Hf1 & Hk1), H2 as (f2 & Hf2 & Hk2).
    assert (f1 = f) as -> by congruence. exists j, f2, k. unfold set_password in *.
    destruct (fact_password f) as [p1|]; [|done]. destruct (fact_password f2) as [p2|]; [|done].
    destruct (bool_decide_reflect (p1 = [])); [done|]. destruct (bool_decide_reflect (p2 = [])); [done|].
    simplify_eq. done.
Qed.
End Report.

(** *** The lookup by labels *)

Lemma split_once_app sep s a b : split_once sep s = Some (a, b) -> s = a ++ [sep] ++ b.
Proof.
  revert a b. induction s as [|c s IH]; intros a b; cbn [split_once]; [done|]. destruct (Z.eqb_spec c sep) as [->|].
  - by intros [= <- <-].
  - destruct (split_once sep s) as [[x y]|] eqn:E; [|done]. intros [= <- <-]. by rewrite (IH x y).
Qed.

Lemma split_once_first sep p d a b :
  split_once sep (p ++ [sep] ++ d) = Some (a, b) -> b = d \/ exists q, b = q ++ [sep] ++ d.
Proof.
  revert a b. induction p as [|c p IH]; intros a b; cbn [app split_once].
  - rewrite Z.eqb_refl. intros [= <- <-]. by left.
  - destruct (Z.eqb_spec c sep); [intros [= <- <-]; right; by exists p|].
    destruct (split_once sep (p ++ sep :: d)) as [[x y]|] eqn:E; [|done]. intros [= <- <-]. by apply (IH x y).
Qed.

Lemma split_once_some sep p d : is_Some (split_once sep (p ++ [sep] ++ d)).
Proof.
  induction p as [|c p [[x y] IH]]; cbn [app split_once]; [rewrite Z.eqb_refl; eauto|].
  destruct (c =? sep); [eauto|]. cbn [app] in IH. rewrite IH. eauto.
Qed.

Lemma at_or_under_trans a b c : at_or_under a b -> at_or_under b c -> at_or_under a c.
Proof.
  intros [-> | [p ->]]; [done|]. intros [-> | [q ->]]; right; [by exists p|].
  exists (p ++ [46] ++ q). by rewrite <- !app_assoc.
Qed.

Lemma utf8_char_pos c : (0 < length (utf8_char c))%nat.
Proof. unfold utf8_char. repeat case_match; cbn; lia. Qed.

Lemma str_len_under h d : at_or_under h d -> str_len d <= str_len h /\ (h <> d -> str_len d < str_len h).
Proof.
  unfold str_len. intros [-> | [p ->]]; [split; [lia|done]|]. rewrite !utf8_app, !length_app.
  assert (length (utf8 [46]) = 1%nat) as -> by reflexivity. split; lia.
Qed.

Lemma lookup_loop_spec fuel dir site h :
  (length h < fuel)%nat -> at_or_under h site ->
  match lookup_loop fuel dir site h with
  | Some s => exists d i, at_or_under h d /\ at_or_under d site /\ by_domain dir !! d = Some i /\ sites dir !! i = Some s
  | None => forall d i, at_or_under h d -> at_or_under d site -> by_domain dir !! d = Some i ->
              exists d' i', at_or_under h d' /\ at_or_under d' site /\ by_domain dir !! d' = Some i' /\ sites dir !! i' = None
  end.
Proof.
  revert h. induction fuel as [|fuel IH]; intros h Hf Hh; [lia|]. cbn [lookup_loop].
  destruct (by_domain dir !! h) as [i|] eqn:Eh.
  { destruct (sites dir !! i) as [s|] eqn:Es.
    - exists h, i. split_and!; [by left|done..].
    - intros _ _ _ _ _. exists h, i. split_and!; [by left|done..]. }
  destruct (Z.leb_spec (str_len h) (str_len site)) as [Hl|Hl].
  { intros d i Hd Hs Hi. destruct (decide (h = site)) as [->|Hne].
    - destruct (decide (d = site)) as [->|Hne]; [congruence|].
      apply str_len_under in Hd as [Hd _]. apply str_len_under in Hs as [_ Hs]. specialize (Hs Hne). lia.
    - apply str_len_under in Hh as [_ Hh]. specialize (Hh Hne). lia. }
  assert (h <> site) as Hne by (intros ->; lia). destruct Hh as [|[p Hp]]; [done|].
  destruct (split_once_some 46 p site) as [[a rest] Er]. rewrite Hp, Er. cbn [mbind option_bind].
  assert (at_or_under rest site) as Hrest.
  { apply split_once_first in Er as [-> | [q ->]]; [by left|right; by exists q]. }
  pose proof (split_once_app _ _ _ _ Er) as Happ. rewrite <- Hp in Happ.
  assert (length rest < fuel)%nat as Hlen.
  { rewrite Happ, !length_app in Hf. cbn in Hf. lia. }
  specialize (IH rest Hlen Hrest). rewrite <- Hp.
  assert (forall d, at_or_under rest d -> at_or_under h d) as Hup.
  { intros d Hd. eapply at_or_under_trans; [|exact Hd]. right. by exists a. }
  destruct (lookup_loop fuel dir site rest) as [s|].
  - destruct IH as (d & i & ? & ?). exists d, i. auto.
  - intros d i Hd Hs Hi. assert (at_or_under rest d) as Hrd.
    { destruct Hd as [-> | [q Hq]]; [congruence|]. rewrite <- Hp, Hq in Er.
      apply split_once_first in Er as [-> | [r ->]]; [by left|right; by exists r]. }
    destruct (IH d i Hrd Hs Hi) as (d' & i' & ? & ?). exists d', i'. auto.
Qed.

(** A host matches a listed site only through the host itself or a
    parent domain of it, cut at a dot, and never above the host's
    registrable domain: a host that merely ends in a listed name, or lists
    one as a subdomain label of its own, matches nothing. *)
Lemma lookup_within_site {UL : UrlLib} {SL : SiteLib UL} `{!PslLaws SL} dir host s :
  dir_lookup dir host = Some s ->
  exists site d i, registrable_domain_of host = Some site /\
    at_or_under host d /\ at_or_under d site /\ by_domain dir !! d = Some i /\ sites dir !! i = Some s.
Proof.
  unfold dir_lookup. destruct (registrable_domain_of host) as [site|] eqn:E; [|done]. cbn [mbind option_bind].
  intros Hs. pose proof (lookup_loop_spec (S (length host)) dir site host) as H. rewrite Hs in H.
  assert (at_or_under host site) as Hu.
  { unfold registrable_domain_of in E. destruct (psl_domain host) as [[d []]|] eqn:Ep; [|done..].
    injection E as ->. by apply (psl_under _ _ _ Ep). }
  destruct H as (d & i & ? & ? & ? & ?); [lia|done|]. by exists site, d, i.
Qed.

(** ** Witnesses *)

Section Witnesses.
Import ToyUrl ToySite.

Definition sample_directory : Directory :=
  {| sites := [{| help := None |}]; by_domain := {[ lit "github.com" := 0%nat ]} |}.

Lemma lookup_within_site_witness :
  exists site d i, registrable_domain_of (lit "login.github.com") = Some site /\
    at_or_under (lit "login.github.com") d /\ at_or_under d site /\
    by_domain sample_directory !! d = Some i /\ sites sample_directory !! i = Some {| help := None |}.
Proof. apply (lookup_within_site sample_directory). vm_compute. reflexivity. Defined.

Example evil_hosts_miss :
  dir_lookup sample_directory (lit "evilgithub.com") = None /\
  dir_lookup sample_directory (lit "github.com.evil.com") = None.
Proof. vm_compute. done. Qed.
End Witnesses.
