(* ===== verification/BuildItem.v ===== *)
(** * Building an item (crates/havenkeys-core/src/vault.rs, [build_item])

    The one path from an editor's input to an overview and details: shape
    check, merge with the current secrets, password history, and the
    overview's summary of the details. *)

From S2P Require Import Prelude Errors Text Blob Url Tags Totp Clean Card Identity.
From S2P Require Import CustomField Bank Sso Attachment Model.

(** ** Comparing secrets *)

Section SecretsEqual.
Context `{C : Crypto}.

(** [secrets_equal]: the digests' bytes folded with no early exit. *)
Definition secrets_equal (a b : list Z) : bool :=
  let da := sha256 (utf8 a) in
  let db := sha256 (utf8 b) in
  foldl (fun acc p => Z.lor acc (Z.lxor p.1 p.2)) 0 (zip da db) =? 0.
End SecretsEqual.

(** [login_input_from]. *)
Definition login_input_from (existing : ItemOverview) : ItemInput :=
  {| in_type := Login; in_title := title existing; in_username := username existing;
     in_urls := urls existing; in_password := Keep; in_totp := Keep; in_notes := Keep;
     in_content := Keep; in_auto_sign_in := None; in_sign_in_with := None; in_identity := None;
     in_card := None; in_bank := None; in_sections := None; in_tags := None |}.

(** ** Details

    The arms of [build_item]'s [match item_type]: each merges the input with
    the current details, which must be of the same type. *)

Section BuildItem.
Context {C : Crypto} {U : Unicode} {UL : UrlLib} {L : TotpLib}.
Context (new_id : nat -> Z).

Definition no_login : LoginDetails :=
  {| password := None; totp := None; notes := None; password_history := []; passkeys := [];
     sections := []; app_bindings := []; health_ignored := [] |}.

(** The block after [let password = password.apply(cur_pw)]: a replaced or
    cleared password goes to the history. *)
Definition next_history (previous password : option (list Z)) (history : list PreviousPassword) (now_ms : Z)
    : list PreviousPassword :=
  match previous with
  | Some old =>
      if match password with Some p => secrets_equal p old | None => false end then history
      else take MAX_PASSWORD_HISTORY ({| pp_password := old; replaced_at := now_ms |} :: history)
  | None => history
  end.

Definition build_login (i : ItemInput) (current : option ItemDetails) (now_ms : Z) : Result ItemDetails :=
  cur ← match current with
        | Some (DLogin l) => Ok l
        | Some _ => Err Corrupted
        | None => Ok no_login
        end;
  let pw := apply (in_password i) (password cur) in
  _ ← check_some check_password pw;
  let history := next_history (password cur) pw (password_history cur) now_ms in
  let n := apply (in_notes i) (notes cur) in
  _ ← check_some check_notes n;
  t ← apply_totp (in_totp i) (totp cur);
  secs ← apply_sections new_id (in_sections i) (sections cur);
  Ok (DLogin {| password := pw; totp := t; notes := n; password_history := history;
                passkeys := passkeys cur; sections := secs; app_bindings := app_bindings cur;
                health_ignored := health_ignored cur |}).

Definition build_note (i : ItemInput) (current : option ItemDetails) : Result ItemDetails :=
  '(cur, cur_sections) ← match current with
                         | Some (DNote c s) => Ok (Some c, s)
                         | Some _ => Err Corrupted
                         | None => Ok (None, [])
                         end;
  let content := default [] (apply (in_content i) cur) in
  _ ← check_note_content content;
  secs ← apply_sections new_id (in_sections i) cur_sections;
  Ok (DNote content secs).

Definition build_identity (i : ItemInput) (current : option ItemDetails) (now_ms : Z) : Result ItemDetails :=
  _ ← match current with
      | None | Some (DIdentity _) => Ok ()
      | Some _ => Err Corrupted
      end;
  fields ← ok_or (InvalidInput "an identity needs its values") (in_identity i);
  fields ← id_clean fields now_ms;
  Ok (DIdentity fields).

Definition build_card (i : ItemInput) (current : option ItemDetails) : Result ItemDetails :=
  '(cur_number, cur_cvv) ← match current with
                           | Some (DCard f) => Ok (number f, verification_number f)
                           | Some _ => Err Corrupted
                           | None => Ok (None, None)
                           end;
  ci ← ok_or (InvalidInput "a card needs its values") (in_card i);
  fields ← card_clean {| cardholder_name := ci_cardholder_name ci; cf_brand := ci_brand ci;
                         number := apply (ci_number ci) cur_number;
                         verification_number := apply (ci_verification_number ci) cur_cvv;
                         expiry := ci_expiry ci; cf_notes := ci_notes ci |};
  Ok (DCard fields).

Definition no_bank : BankAccountFields :=
  {| Bank.bank := None; holder_name := None; account_type := None; branch := None; branch_digit := None;
     account := None; account_digit := None; b_password := None; b_notes := None; b_sections := [];
     b_app_bindings := [] |}.

Definition build_bank (i : ItemInput) (current : option ItemDetails) : Result ItemDetails :=
  cur ← match current with
        | Some (DBank f) => Ok f
        | Some _ => Err Corrupted
        | None => Ok no_bank
        end;
  bi ← ok_or (InvalidInput "a bank account needs its values") (in_bank i);
  secs ← apply_sections new_id (in_sections i) (b_sections cur);
  fields ← bank_clean {| Bank.bank := bi_bank bi; holder_name := bi_holder_name bi;
                         account_type := bi_account_type bi; branch := bi_branch bi;
                         branch_digit := bi_branch_digit bi;
                         account := apply (bi_account bi) (account cur);
                         account_digit := apply (bi_account_digit bi) (account_digit cur);
                         b_password := apply (in_password i) (b_password cur);
                         b_notes := apply (in_notes i) (b_notes cur);
                         b_sections := secs; b_app_bindings := b_app_bindings cur |};
  if bool_decide (trim (in_title i) = []) && is_none (Bank.bank fields) && is_none (account fields)
  then Err (InvalidInput "a bank account needs a title, a bank or an account")
  else Ok (DBank fields).

Definition build_details (i : ItemInput) (current : option ItemDetails) (now_ms : Z) : Result ItemDetails :=
  match in_type i with
  | Login => build_login i current now_ms
  | SecureNote => build_note i current
  | Identity => build_identity i current now_ms
  | CardItem => build_card i current
  | BankAccount => build_bank i current
  end.

(** ** The overview *)

Definition build_title (d : ItemDetails) (raw : list Z) : Result (list Z) :=
  match d with
  | DIdentity f => Ok (Identity.display_name f)
  | DCard f =>
      if bool_decide (trim raw = []) then
        if is_none (number f) then Err (InvalidInput "a card needs a number or a title")
        else Ok (brand_display_name (effective_brand f))
      else clean_title raw
  | DBank f =>
      if bool_decide (trim raw = []) then Ok (default (lit "Bank account") (Bank.bank f))
      else clean_title raw
  | _ => clean_title raw
  end.

(** [(has_password, has_totp, has_notes, has_passkey)]. *)
Definition detail_flags (d : ItemDetails) : bool * bool * bool * bool :=
  match d with
  | DLogin l => (is_some (password l), is_some (totp l), is_some (notes l), negb (bool_decide (passkeys l = [])))
  | DNote _ _ => (false, false, false, false)
  | DIdentity f => (false, false, is_some (id_notes f), false)
  | DCard f => (false, false, is_some (cf_notes f), false)
  | DBank f => (is_some (b_password f), false, is_some (b_notes f), false)
  end.

Definition build_item (item : Z) (i : ItemInput) (current : option ItemDetails) (created now_ms : Z)
    : Result (ItemOverview * ItemDetails) :=
  _ ← check_shape i;
  details ← build_details i current now_ms;
  t ← build_title details (in_title i);
  let '(hp, ht, hn, hk) := detail_flags details in
  user ← match in_type i with
         | Login => clean_username (in_username i)
         | SecureNote | CardItem | BankAccount => Ok None
         | Identity => Ok match details with DIdentity f => id_email f | _ => None end
         end;
  us ← match in_type i with
       | Login | BankAccount => clean_urls (in_urls i)
       | _ => Ok []
       end;
  sso ← match in_type i with Login => clean_sign_in_with (in_sign_in_with i) | _ => Ok None end;
  tgs ← normalize (default [] (in_tags i));
  Ok ({| id := item; item_type := in_type i; title := t; username := user; urls := us;
         has_password := hp; has_totp := ht; has_notes := hn; has_passkey := hk;
         auto_sign_in := default true (in_auto_sign_in i); sign_in_with := sso;
         card := match details with DCard f => Some (card_summary f) | _ => None end;
         bank := match details with DBank f => Some (bank_summary f) | _ => None end;
         tags := tgs; trashed_at := None; attachments := []; extra := [];
         created_at := created; updated_at := now_ms |}, details).
End BuildItem.

(** ** Lemmas *)

#[export] Instance DLogin_inj : Inj (=) (=) DLogin.
Proof. by intros x y [= ->]. Qed.

Section Lemmas.
Context {C : Crypto} {U : Unicode} {UL : UrlLib} {L : TotpLib}.

Lemma fold_xor_zero (l : list (Z * Z)) acc :
  foldl (fun acc p => Z.lor acc (Z.lxor p.1 p.2)) acc l = 0 <-> acc = 0 /\ Forall (fun p => p.1 = p.2) l.
Proof.
  revert acc. induction l as [|[x y] l IH]; intros acc; cbn [foldl].
  - split; [by intros ->|by intros [-> _]].
  - rewrite IH, Z.lor_eq_0_iff, Z.lxor_eq_0_iff, Forall_cons. cbn. tauto.
Qed.

(** The comparison covers every byte: it holds exactly for equal digests. *)
Lemma secrets_equal_digest `{!Sha256Ideal C} a b :
  secrets_equal a b = true <-> sha256 (utf8 a) = sha256 (utf8 b).
Proof.
  unfold secrets_equal. rewrite Z.eqb_eq, fold_xor_zero.
  assert (length (sha256 (utf8 a)) = length (sha256 (utf8 b))) as Hl by (by rewrite !sha256_len).
  split.
  - intros [_ Hf]. revert Hl Hf. generalize (sha256 (utf8 a)) (sha256 (utf8 b)).
    intros l. induction l as [|x l IH]; intros [|y k] Hl Hf; try done.
    cbn in Hf. apply Forall_cons in Hf as [Hxy Hf]. cbn in Hxy, Hl. f_equal; [done|]. apply IH; [lia|done].
  - intros ->. split; [done|]. generalize (sha256 (utf8 b)). intros l. induction l; cbn; by constructor.
Qed.

Lemma secrets_equal_text `{!Sha256Ideal C} a b : secrets_equal a b = true <-> utf8 a = utf8 b.
Proof. rewrite secrets_equal_digest. split; [apply sha256_inj|by intros ->]. Qed.

Lemma clean_sign_in_with_idem s s' : clean_sign_in_with s = Ok s' -> clean_sign_in_with s' = Ok s'.
Proof.
  unfold clean_sign_in_with. destruct s as [v|]; [|by intros [= <-]].
  intros (acc & Hacc & H)%bind_Ok. apply (inj Ok) in H. subst s'. cbn [sso_account provider].
  assert (trimmed_nonempty acc = acc /\
          match acc with
          | None => Ok None
          | Some a => if (MAX_ACCOUNT_CHARS <? length a)%nat || existsb is_control a
                      then Err (InvalidInput "account is too long or contains control characters")
                      else Ok (Some a)
          end = Ok acc) as [-> ->]; [|done].
  destruct (trimmed_nonempty (sso_account v)) as [a|] eqn:Ea; [|by apply (inj Ok) in Hacc as <-].
  destruct (_ || _) eqn:Eb; [done|]. apply (inj Ok) in Hacc. subst acc. rewrite Eb. split; [|done].
  unfold trimmed_nonempty in *. destruct (sso_account v) as [u|]; [|done].
  destruct (bool_decide_reflect (trim u = [])); [done|]. injection Ea as <-.
  rewrite trim_idem. by rewrite bool_decide_eq_false_2.
Qed.

Lemma normalize_idem raw ts : normalize raw = Ok ts -> normalize ts = Ok ts.
Proof.
  intros (Hlen & Hone & cleaned & _ & Hd)%normalize_ok. unfold normalize.
  rewrite (mapM_result_id _ _ Hone). cbn [mbind result_bind]. cbv zeta.
  rewrite Hd, dedupe_sorted_idem, <- Hd. by rewrite (proj2 (Nat.ltb_ge _ _) Hlen).
Qed.

Lemma clean_urls_idem `{!UrlLaws UL} us vs : clean_urls us = Ok vs -> clean_urls vs = Ok vs.
Proof.
  unfold clean_urls. destruct (Nat.ltb_spec MAX_URLS (length us)) as [|Hl]; [done|].
  set (us' := List.filter _ us). intros H%mapM_result_ok.
  assert (length vs <= length us)%nat as Hlen.
  { rewrite <- (Forall2_length _ _ _ H). apply List.filter_length_le. }
  assert (Forall (fun v => trim (url v) <> [] /\ normalize_url (url v) = Ok (url v)) vs) as Hv.
  { apply Forall_forall. intros v [i Hi]%list_elem_of_lookup.
    destruct (Forall2_lookup_r _ _ _ _ _ H Hi) as (r & _ & Hr).
    apply bind_Ok in Hr as (w & Hw & Hv). apply (inj Ok) in Hv. subst v. cbn [url].
    apply normalize_url_ok in Hw as (Hne & Ht & _ & _ & _ & Hn). by rewrite Ht. }
  rewrite (proj2 (Nat.ltb_ge _ _)) by lia.
  assert (List.filter (fun r => negb (bool_decide (trim (url r) = []))) vs = vs) as ->.
  { clear -Hv. induction Hv as [|v vs [Hne _] _ IH]; [done|]. cbn [List.filter].
    by rewrite bool_decide_eq_false_2, IH by done. }
  apply mapM_result_id. eapply Forall_impl; [exact Hv|]. intros [u t] [_ Hn]. cbn [url match_type] in *.
  by rewrite Hn.
Qed.

(** The steps of a successful build of a login. *)
Lemma build_login_ok new_id i cur now l :
  build_login new_id i cur now = Ok (DLogin l) ->
  exists old, (cur = Some (DLogin old) \/ cur = None /\ old = no_login) /\
    password l = apply (in_password i) (password old) /\
    check_some check_password (password l) = Ok () /\
    check_some check_notes (notes l) = Ok () /\
    notes l = apply (in_notes i) (notes old) /\
    apply_totp (in_totp i) (totp old) = Ok (totp l) /\
    apply_sections new_id (in_sections i) (sections old) = Ok (sections l) /\
    password_history l = next_history (password old) (password l) (password_history old) now /\
    passkeys l = passkeys old /\ app_bindings l = app_bindings old /\ health_ignored l = health_ignored old.
Proof.
  unfold build_login. intros (old & Hold & H)%bind_Ok. exists old.
  apply bind_Ok in H as ([] & Hp & H). apply bind_Ok in H as ([] & Hn & H).
  apply bind_Ok in H as (t & Ht & H). apply bind_Ok in H as (secs & Hs & H).
  apply (inj Ok) in H. apply (inj DLogin) in H. subst l. cbn. split_and!; try done.
  destruct cur as [[] |]; try done; apply (inj Ok) in Hold; subst; auto.
Qed.

(** A build that keeps all but the password. *)
Lemma build_login_kept new_id i l now :
  in_type i = Login -> in_notes i = Keep -> in_totp i = Keep -> in_sections i = None ->
  check_some check_password (apply (in_password i) (password l)) = Ok () ->
  check_some check_notes (notes l) = Ok () ->
  build_details new_id i (Some (DLogin l)) now = Ok (DLogin
    {| password := apply (in_password i) (password l); totp := totp l; notes := notes l;
       password_history := next_history (password l) (apply (in_password i) (password l)) (password_history l) now;
       passkeys := passkeys l; sections := sections l; app_bindings := app_bindings l;
       health_ignored := health_ignored l |}).
Proof.
  intros Ht Hn Htotp Hs Hpw Hnotes. unfold build_details, build_login. rewrite Ht, Hn, Htotp, Hs.
  cbn [mbind result_bind]. cbv zeta. rewrite Hpw. cbn [mbind result_bind apply]. rewrite Hnotes. done.
Qed.

(** The details a build returns are of the input's type. *)
Lemma build_details_type new_id i cur now d :
  build_details new_id i cur now = Ok d ->
  details_type d = in_type i /\ (forall c, cur = Some c -> details_type c = in_type i).
Proof.
  unfold build_details. destruct (in_type i).
  - unfold build_login. intros (old & Hold & H)%bind_Ok.
    do 4 (apply bind_Ok in H as (? & _ & H)). apply (inj Ok) in H. subst d.
    split; [done|]. intros c ->. by destruct c.
  - unfold build_note. intros ([? ?] & Hold & H)%bind_Ok.
    do 2 (apply bind_Ok in H as (? & _ & H)). apply (inj Ok) in H. subst d.
    split; [done|]. intros c ->. by destruct c.
  - unfold build_identity. intros (? & Hold & H)%bind_Ok.
    do 2 (apply bind_Ok in H as (? & _ & H)). apply (inj Ok) in H. subst d.
    split; [done|]. intros c ->. by destruct c.
  - unfold build_card. intros ([? ?] & Hold & H)%bind_Ok.
    do 2 (apply bind_Ok in H as (? & _ & H)). apply (inj Ok) in H. subst d.
    split; [done|]. intros c ->. by destruct c.
  - unfold build_bank. intros (? & Hold & H)%bind_Ok.
    do 3 (apply bind_Ok in H as (? & _ & H)). destruct (_ && _); [done|]. apply (inj Ok) in H. subst d.
    split; [done|]. intros c ->. by destruct c.
Qed.

(** What an overview says of the details stored with it. *)
Definition summarizes (o : ItemOverview) (d : ItemDetails) : Prop :=
  item_type o = details_type d /\
  detail_flags d = (has_password o, has_totp o, has_notes o, has_passkey o) /\
  card o = match d with DCard f => Some (card_summary f) | _ => None end /\
  bank o = match d with DBank f => Some (bank_summary f) | _ => None end.

(** The steps of a successful build. *)
Lemma build_item_ok new_id item i cur created now o d :
  build_item new_id item i cur created now = Ok (o, d) ->
  check_shape i = Ok () /\ build_details new_id i cur now = Ok d /\ summarizes o d /\
  id o = item /\ item_type o = in_type i /\ build_title d (in_title i) = Ok (title o) /\
  (in_type i = Login -> clean_username (in_username i) = Ok (username o) /\
                        clean_sign_in_with (in_sign_in_with i) = Ok (sign_in_with o)) /\
  (is_site_bound (in_type i) = true -> clean_urls (in_urls i) = Ok (urls o)) /\
  (is_site_bound (in_type i) = false -> urls o = []) /\
  normalize (default [] (in_tags i)) = Ok (tags o) /\
  auto_sign_in o = default true (in_auto_sign_in i) /\
  trashed_at o = None /\ attachments o = [] /\ extra o = [] /\
  created_at o = created /\ updated_at o = now.
Proof.
  unfold build_item. intros ([] & Hs & H)%bind_Ok. apply bind_Ok in H as (d' & Hd & H).
  pose proof (build_details_type _ _ _ _ _ Hd) as [Ht _].
  apply bind_Ok in H as (t & Htitle & H). destruct (detail_flags d') as [[[hp ht] hn] hk] eqn:Hf.
  apply bind_Ok in H as (user & Hu & H). apply bind_Ok in H as (us & Hus & H).
  apply bind_Ok in H as (sso & Hsso & H). apply bind_Ok in H as (tgs & Htags & H).
  apply (inj Ok) in H.
  assert (d = d') as -> by (by apply (f_equal snd) in H).
  apply (f_equal fst) in H. cbn [fst] in H. subst o. unfold summarizes.
  cbn [id item_type title username urls has_password has_totp has_notes has_passkey auto_sign_in
       sign_in_with card bank tags trashed_at attachments extra created_at updated_at].
  split_and!; try done; destruct (in_type i); try done; intros; by apply (inj Ok) in Hus.
Qed.
End Lemmas.

(** ** Properties *)

Section Properties.
Context {C : Crypto} {U : Unicode} {UL : UrlLib} {L : TotpLib}.


(** Editing a login loses nothing it does not mean to change.  The
    replaced or cleared password becomes the newest entry of the history,
    which keeps its order and never grows past five; a kept secret stays;
    passkeys, app bindings and dismissed health checks are untouched. *)
Lemma edit_keeps_login `{!Sha256Ideal C} new_id item i old created now o l :
  in_type i = Login ->
  build_item new_id item i (Some (DLogin old)) created now = Ok (o, DLogin l) ->
  (forall p, password old = Some p ->
     (exists q, password l = Some q /\ utf8 q = utf8 p /\ password_history l = password_history old) \/
     password_history l = take 5 ({| pp_password := p; replaced_at := now |} :: password_history old)) /\
  (password old = None -> password_history l = password_history old) /\
  (length (password_history l) <= Nat.max 5 (length (password_history old)))%nat /\
  (in_password i = Keep -> password l = password old /\ password_history l = password_history old) /\
  (in_notes i = Keep -> notes l = notes old) /\ (in_totp i = Keep -> totp l = totp old) /\
  (in_sections i = None -> sections l = sections old) /\
  passkeys l = passkeys old /\ app_bindings l = app_bindings old /\ health_ignored l = health_ignored old.
Proof.
  intros Ht (_ & Hd & _)%build_item_ok. unfold build_details in Hd. rewrite Ht in Hd.
  apply build_login_ok in Hd as (old' & Hold & Hpw & _ & _ & Hn & Htotp & Hsec & Hhist & Hrest).
  assert (old' = old) as -> by (by destruct Hold as [[= ->]|[? _]]).
  unfold next_history in Hhist. rewrite Hhist. split_and!; try tauto.
  - intros p Hp. rewrite Hp in *. destruct (password l) as [q|]; [|by right].
    destruct (secrets_equal q p) eqn:E; [|by right]. left. exists q. by apply secrets_equal_text in E.
  - by intros ->.
  - destruct (password old); [|lia]. destruct (match _ with Some _ => _ | None => _ end); [lia|].
    rewrite length_take. unfold MAX_PASSWORD_HISTORY. cbn [length]. lia.
  - intros Hk. rewrite Hk in Hpw. cbn in Hpw. rewrite Hpw. split; [done|].
    destruct (password old) as [p|]; [|done]. by rewrite (proj2 (secrets_equal_text p p) eq_refl).
  - intros Hk. by rewrite Hn, Hk.
  - intros Hk. rewrite Hk in Htotp. by apply (inj Ok) in Htotp.
  - intros Hk. rewrite Hk in Hsec. by apply (inj Ok) in Hsec.
Qed.

(** The input of a browser's password update ([stage_save_update], then
    [stage_update_with]'s defaults). *)
Definition password_update (o : ItemOverview) (pw : SecretUpdate) : ItemInput :=
  {| in_type := Login; in_title := title o; in_username := username o; in_urls := urls o;
     in_password := pw; in_totp := Keep; in_notes := Keep; in_content := Keep;
     in_auto_sign_in := Some (auto_sign_in o); in_sign_in_with := sign_in_with o; in_identity := None;
     in_card := None; in_bank := None; in_sections := None; in_tags := Some (tags o) |}.

(** Saving a new password for a login from the browser changes its
    password, its history and its update time, and nothing else of the
    item, whatever the item was built from; and it always succeeds for a
    password within the length limit. *)
Lemma password_update_only `{!UrlLaws UL} new_id item i cur created now o l new_id' pw now' :
  in_type i = Login ->
  build_item new_id item i cur created now = Ok (o, DLogin l) ->
  check_some check_password (apply pw (password l)) = Ok () ->
  exists o' l',
    build_item new_id' item (password_update o pw) (Some (DLogin l)) (created_at o) now' = Ok (o', DLogin l') /\
    l' = {| password := apply pw (password l); totp := totp l; notes := notes l;
            password_history := next_history (password l) (apply pw (password l)) (password_history l) now';
            passkeys := passkeys l; sections := sections l; app_bindings := app_bindings l;
            health_ignored := health_ignored l |} /\
    o' = {| id := id o; item_type := Login; title := title o; username := username o; urls := urls o;
            has_password := is_some (apply pw (password l)); has_totp := has_totp o; has_notes := has_notes o;
            has_passkey := has_passkey o; auto_sign_in := auto_sign_in o; sign_in_with := sign_in_with o;
            card := None; bank := None; tags := tags o; trashed_at := None; attachments := [];
            extra := []; created_at := created_at o; updated_at := now' |}.
Proof.
  intros Ht (_ & Hd & (Hty & Hf & _) & Hid & _ & Htitle & Hlog & Hurls & _ & Htags & _)%build_item_ok Hpw.
  unfold build_details in Hd. rewrite Ht in *.
  apply build_login_ok in Hd as (_ & _ & _ & _ & Hn & _).
  destruct (Hlog eq_refl) as [Hu%clean_username_idem Hs%clean_sign_in_with_idem].
  specialize (Hurls eq_refl). apply clean_urls_idem in Hurls. apply normalize_idem in Htags.
  unfold build_title in Htitle. apply clean_title_idem in Htitle.
  eexists _, _. split; [|split; reflexivity].
  unfold build_item. rewrite (eq_refl : check_shape (password_update o pw) = Ok ()). cbn [mbind result_bind].
  rewrite (build_login_kept new_id' (password_update o pw) l now') by done. cbn [mbind result_bind].
  unfold build_title. cbn [in_title password_update]. rewrite Htitle. cbn [mbind result_bind].
  cbn [password_update detail_flags in_type in_username in_urls in_sign_in_with in_tags in_auto_sign_in
    password totp notes passkeys].
  rewrite Hu. cbn [mbind result_bind]. rewrite Hurls. cbn [mbind result_bind]. rewrite Hs.
  cbn [mbind result_bind]. change (default [] (Some (tags o))) with (tags o). rewrite Htags. cbn [mbind result_bind].
  cbn in Hf. injection Hf as _ -> -> ->. by rewrite Hid.
Qed.
End Properties.

(** ** Witnesses *)

Section Witnesses.
Import Blob.Toy ToyUnicode ToyUrl ToyTotp.

Definition sample_input : ItemInput :=
  {| in_type := Login; in_title := lit " Site "; in_username := Some (lit "me"); in_urls := [];
     in_password := SetTo (lit "old-password"); in_totp := Keep; in_notes := Keep; in_content := Keep;
     in_auto_sign_in := None; in_sign_in_with := None; in_identity := None; in_card := None; in_bank := None;
     in_sections := None; in_tags := Some [lit "work"] |}.

Definition sample_login : LoginDetails :=
  {| password := Some (lit "old-password"); totp := None; notes := None; password_history := [];
     passkeys := []; sections := []; app_bindings := []; health_ignored := [] |}.

Definition sample_overview : ItemOverview :=
  {| id := 7; item_type := Login; title := lit "Site"; username := Some (lit "me"); urls := [];
     has_password := true; has_totp := false; has_notes := false; has_passkey := false;
     auto_sign_in := true; sign_in_with := None; card := None; bank := None; tags := [lit "work"];
     trashed_at := None; attachments := []; extra := []; created_at := 1; updated_at := 2 |}.

Lemma sample_build : build_item (fun n => Z.of_nat n) 7 sample_input None 1 2 = Ok (sample_overview, DLogin sample_login).
Proof. vm_compute. reflexivity. Qed.


Lemma password_update_only_witness :
  exists o' l', build_item (fun n => Z.of_nat n) 7 (password_update sample_overview (SetTo (lit "new"))) 
    (Some (DLogin sample_login)) 1 3 = Ok (o', DLogin l') /\ tags o' = tags sample_overview.
Proof.
  destruct (password_update_only (fun n => Z.of_nat n) 7 sample_input None 1 2 sample_overview sample_login
              (fun n => Z.of_nat n) (SetTo (lit "new")) 3) as (o' & l' & H & _ & Ho).
  - reflexivity.
  - apply sample_build.
  - reflexivity.
  - exists o', l'. split; [exact H|]. by rewrite Ho.
Defined.

Lemma edit_keeps_login_witness :
  exists o l, build_item (fun n => Z.of_nat n) 7 (password_update sample_overview (SetTo (lit "new")))
    (Some (DLogin sample_login)) 1 3 = Ok (o, DLogin l) /\
  (length (password_history l) <= 5)%nat.
Proof.
  destruct (build_item (fun n => Z.of_nat n) 7 (password_update sample_overview (SetTo (lit "new")))
    (Some (DLogin sample_login)) 1 3) as [[o [l| | | |]]|] eqn:E; try (vm_compute in E; discriminate E).
  exists o, l. split; [reflexivity|].
  apply (edit_keeps_login (fun n => Z.of_nat n) 7 (password_update sample_overview (SetTo (lit "new")))
           sample_login 1 3 o l eq_refl E).
Defined.
End Witnesses.
