(* ===== verification/Vault.v ===== *)
(** * The vault service: sessions and the lock state machine
    (crates/havenkeys-core/src/vault.rs; local.rs)

    The [VaultService] is its store, its lock state, the session that exists
    while it is unlocked, and the epoch that every lock advances.  A [&mut
    self] method is a computation of the state-and-error monad; a [&self]
    method is a function of the service.  Nonces and new ids are arguments. *)

From S2P Require Import Prelude Errors Text Blob Url Model Keys Store Origin Health.

Abbreviation StoreT := Store.Store (only parsing).

(** What serde_json gives the vault: one encoding per stored type. *)
Class Codec (A : Type) := {
  to_json : A -> list Z;
  from_json : list Z -> option A;
}.
Class CodecLaws (A : Type) `{Codec A} : Prop := json_roundtrip : forall a : A, from_json (to_json a) = Some a.

Class JsonLib := {
  settings_codec : Codec Settings;
  overview_codec : Codec ItemOverview;
  details_codec : Codec ItemDetails;
  (** [serde_json::from_slice::<IgnoredAny>]: well-formed JSON. *)
  is_json : list Z -> bool;
}.
#[export] Existing Instance settings_codec.
#[export] Existing Instance overview_codec.
#[export] Existing Instance details_codec.
Class JsonLaws (J : JsonLib) : Prop := {
  settings_laws : CodecLaws Settings;
  overview_laws : CodecLaws ItemOverview;
  details_laws : CodecLaws ItemDetails;
  json_any : forall s : Settings, is_json (to_json s) = true;
}.
#[export] Existing Instance settings_laws.
#[export] Existing Instance overview_laws.
#[export] Existing Instance details_laws.

Definition MIN_MASTER_PASSWORD_CHARS : nat := 10.
Definition MAX_MASTER_PASSWORD_CHARS : nat := 1024.
Definition UPGRADE_WINDOW_MS : Z := 5 * 60000.
Definition MAX_RECENT_FILLS : nat := 16.

Inductive VaultState := SLocked | SUnlocking | SUnlocked | SLocking.

#[export] Instance VaultState_eq_dec : EqDecision VaultState.
Proof. solve_decision. Defined.

Record RecentFill := { fill_item : Z; fill_site : list Z; filled_at_ms : Z }.

(** [RecentFill::is_recent]. *)
Definition is_recent (f : RecentFill) (now_ms : Z) : bool :=
  in_range 0 UPGRADE_WINDOW_MS (i64_saturating_sub now_ms (filled_at_ms f)).

Record Session := {
  ses_vault_id : Z;
  data_key : list Z;
  ses_vault_key : list Z;
  identity_id : Z;
  overviews : gmap Z ItemOverview;
  trash : gmap Z ItemOverview;
  ses_settings : Settings;
  damaged_items : nat;
  damaged_settings : bool;
  recent_fills : list RecentFill;
  generation : Z;
  health : option HealthReport;
}.

Definition with_maps (o t : gmap Z ItemOverview) (s : Session) : Session :=
  {| ses_vault_id := ses_vault_id s; data_key := data_key s; ses_vault_key := ses_vault_key s;
     identity_id := identity_id s; overviews := o; trash := t; ses_settings := ses_settings s;
     damaged_items := damaged_items s; damaged_settings := damaged_settings s;
     recent_fills := recent_fills s; generation := generation s; health := health s |}.

Definition with_settings (st : Settings) (s : Session) : Session :=
  {| ses_vault_id := ses_vault_id s; data_key := data_key s; ses_vault_key := ses_vault_key s;
     identity_id := identity_id s; overviews := overviews s; trash := trash s; ses_settings := st;
     damaged_items := damaged_items s; damaged_settings := false;
     recent_fills := recent_fills s; generation := generation s; health := health s |}.

Definition with_health (h : option HealthReport) (s : Session) : Session :=
  {| ses_vault_id := ses_vault_id s; data_key := data_key s; ses_vault_key := ses_vault_key s;
     identity_id := identity_id s; overviews := overviews s; trash := trash s; ses_settings := ses_settings s;
     damaged_items := damaged_items s; damaged_settings := damaged_settings s;
     recent_fills := recent_fills s; generation := generation s; health := h |}.

Definition with_fills (l : list RecentFill) (s : Session) : Session :=
  {| ses_vault_id := ses_vault_id s; data_key := data_key s; ses_vault_key := ses_vault_key s;
     identity_id := identity_id s; overviews := overviews s; trash := trash s; ses_settings := ses_settings s;
     damaged_items := damaged_items s; damaged_settings := damaged_settings s;
     recent_fills := l; generation := generation s; health := health s |}.

(** [s.generation = s.generation.wrapping_add(1); s.health = None]. *)
Definition items_changed (s : Session) : Session :=
  {| ses_vault_id := ses_vault_id s; data_key := data_key s; ses_vault_key := ses_vault_key s;
     identity_id := identity_id s; overviews := overviews s; trash := trash s; ses_settings := ses_settings s;
     damaged_items := damaged_items s; damaged_settings := damaged_settings s;
     recent_fills := recent_fills s; generation := u64_wrapping_add (generation s) 1; health := None |}.

(** [Session::place] and [Session::forget]. *)
Definition is_trashed (s : Session) (o : ItemOverview) : bool :=
  is_some (trashed_at o) && negb (Model.id o =? identity_id s).

Definition place (o : ItemOverview) (s : Session) : Session :=
  if is_trashed s o
  then with_maps (delete (Model.id o) (overviews s)) (<[Model.id o := o]> (trash s)) s
  else with_maps (<[Model.id o := o]> (overviews s)) (delete (Model.id o) (trash s)) s.

Definition forget (item : Z) (s : Session) : Session :=
  with_maps (delete item (overviews s)) (delete item (trash s)) s.

Record VaultService := {
  store : StoreT;
  state : VaultState;
  session_ : option Session;
  epoch : Z;
}.

Abbreviation V := (M VaultService Error).

Definition new_service (s : StoreT) : VaultService :=
  {| store := s; state := SLocked; session_ := None; epoch := 0 |}.

Definition set_store (s : StoreT) (v : VaultService) : VaultService :=
  {| store := s; state := state v; session_ := session_ v; epoch := epoch v |}.
Definition set_session (s : option Session) (v : VaultService) : VaultService :=
  {| store := store v; state := state v; session_ := s; epoch := epoch v |}.
Definition set_state (st : VaultState) (v : VaultService) : VaultService :=
  {| store := store v; state := st; session_ := session_ v; epoch := epoch v |}.
Definition open_with (s : Session) (v : VaultService) : VaultService :=
  {| store := store v; state := SUnlocked; session_ := Some s; epoch := epoch v |}.

(** [VaultService::session] and [session_mut]. *)
Definition session (v : VaultService) : Result Session :=
  match state v, session_ v with
  | SUnlocked, Some s => Ok s
  | _, _ => Err Locked
  end.

Definition modify_session (f : Session -> Session) : V () := fun v =>
  match session v with
  | Ok s => (set_session (Some (f s)) v, Ok ())
  | Err e => (v, Err e)
  end.

(** Run a method of the store. *)
Definition on_store (f : StoreT -> StoreT * Result ()) : V () := fun v =>
  let '(s, r) := f (store v) in (set_store s v, r).
Definition on_store' (f : StoreT -> StoreT) : V () := mmodify (fun v => set_store (f (store v)) v).

Definition is_unlocked (v : VaultService) : bool :=
  bool_decide (state v = SUnlocked) && is_some (session_ v).

Record VaultStatus := {
  vs_state : VaultState;
  vault_exists : bool;
  vs_damaged_items : nat;
  vs_unreadable_items : nat;
  vs_damaged_settings : bool;
}.

(** [VaultService::status]. *)
Definition status (v : VaultService) : Result VaultStatus :=
  h ← Store.header (store v);
  Ok {| vs_state := state v; vault_exists := is_some h;
        vs_damaged_items := match session_ v with Some s => damaged_items s | None => 0%nat end;
        vs_unreadable_items := unreadable_count (store v);
        vs_damaged_settings := match session_ v with Some s => damaged_settings s | None => false end |}.

(** The header getters that are safe while locked. *)
Definition header_field {A} (f : HeaderRecord -> A) (v : VaultService) : Result (option A) :=
  h ← Store.header (store v); Ok (option_map f h).

(** [lock]. *)
Definition lock (v : VaultService) : VaultService * bool :=
  ({| store := store v; state := SLocked; session_ := None; epoch := u64_wrapping_add (epoch v) 1 |},
   negb (bool_decide (state v = SLocked))).

(** [replace_store]. *)
Definition replace_store (s : StoreT) (v : VaultService) : VaultService * StoreT :=
  let v := (lock v).1 in (set_store s v, store v).

Definition not_linked : Error := InvalidInput "this vault is not linked to an account".

(** [require_account] (sync.rs). *)
Definition require_account (v : VaultService) : Result AccountRecord :=
  ok_or not_linked (account (store v)).

Definition require_header (v : VaultService) : Result HeaderRecord :=
  h ← Store.header (store v); ok_or NoVault h.

(** [AccountRecord::to_ref] (store.rs). *)
Definition to_ref `{U : Unicode} (a : AccountRecord) : Result AccountRef :=
  e ← email_parse (Store.email a); Ok {| ref_id := Store.account_id a; ref_email := e |}.

Definition check_new_master_password (p : list Z) : Result () :=
  if (length p <? MIN_MASTER_PASSWORD_CHARS)%nat
  then Err (InvalidInput "master password must be at least 10 characters")
  else if (MAX_MASTER_PASSWORD_CHARS <? length p)%nat
  then Err (InvalidInput "master password is too long")
  else Ok ().

Section Vault.
Context {C : Crypto} {K : KeyLib} {U : Unicode} {J : JsonLib}.

(** ** Sealing JSON *)

Definition seal_json {A} `{Codec A} (key : list Z) (ctx : BlobContext) (value : A)
    (random : option (list Z)) : Result (list Z) :=
  seal key ctx (to_json value) random.

Definition open_json {A} `{Codec A} (key : list Z) (ctx : BlobContext) (data : list Z) : Result A :=
  plain ← open key ctx data;
  ok_or Corrupted (from_json plain).

Definition wrap_vault_key (kek : list Z) (vault : Z) (vault_key : list Z) (random : option (list Z))
    : Result (list Z) :=
  seal kek (ctx_vault PVaultKey vault) vault_key random.

Definition unwrap_vault_key (kek : list Z) (vault : Z) (wrapped : list Z) : Result (list Z) :=
  plain ← map_err (fun _ => UnlockFailed) (open kek (ctx_vault PVaultKey vault) wrapped);
  if (length plain =? KEY_LEN)%nat then Ok plain else Err Corrupted.

(** ** Tickets: derivation outside the lock *)

Record UnlockTicket := {
  tk_vault_id : Z;
  tk_kdf : KdfParams;
  tk_scheme : KeyScheme;
  tk_epoch : Z;
}.

Definition password_refused (p : list Z) : bool :=
  bool_decide (p = []) || (MAX_MASTER_PASSWORD_CHARS <? length p)%nat.

(** [derive_session_for_account]: the key that unwraps, and the login key. *)
Definition derive_session_for_account (t : UnlockTicket) (password secret_key : list Z) (a : AccountRef)
    : Result (list Z * list Z) :=
  if password_refused password then Err UnlockFailed
  else
    master ← derive_master_key password (tk_kdf t);
    kek ← derive_kek_v3 master secret_key a;
    auth ← derive_auth_key_from_master master secret_key a;
    Ok (kek, auth).

Definition derive_for_account (t : UnlockTicket) (password secret_key : list Z) (a : AccountRef)
    : Result (list Z) :=
  p ← derive_session_for_account t password secret_key a; Ok p.1.

Record PreparedVault := { prep_header : HeaderRecord; prep_vault_key : list Z }.

Record AccountVault := { av_prepared : PreparedVault; av_secret_key : list Z; av_auth_key : list Z }.

(** [prepare_new_account_vault]; the random secret key, vault id, vault key
    and nonce are arguments. *)
Definition prepare_new_account_vault (password : list Z) (a : AccountRef) (params : KdfParams) (now_ms : Z)
    (secret_key : option (list Z)) (vault : Z) (vault_key random : option (list Z)) : Result AccountVault :=
  _ ← check_new_master_password password;
  sk ← ok_or Rng secret_key;
  master ← derive_master_key password params;
  kek ← derive_kek_v3 master sk a;
  auth ← derive_auth_key_from_master master sk a;
  vk ← ok_or Rng vault_key;
  wrapped ← wrap_vault_key kek vault vk random;
  Ok {| av_prepared :=
          {| prep_header := {| Store.format_version := FORMAT_VERSION; Store.vault_id := vault;
                               Store.kdf := params; wrapped_vault_key := wrapped;
                               Store.created_at := now_ms; key_scheme := AccountBound;
                               Store.revision := 0 |};
             prep_vault_key := vk |};
        av_secret_key := sk; av_auth_key := auth |}.

(** ** Opening a session *)

Definition settings_ctx (vault : Z) : BlobContext := ctx_vault PSettings vault.

(** The settings that open and validate, if any. *)
Definition read_settings (key : list Z) (vault : Z) (blob : option (list Z)) : option Settings :=
  b ← blob;
  s ← result_ok (open_json key (settings_ctx vault) b);
  if is_ok (settings_validate s) then Some s else None.

Definition read_overview (key : list Z) (vault : Z) (row : Z * list Z) : Result ItemOverview :=
  ov ← open_json key (ctx_item PItemOverview vault row.1) row.2;
  if Model.id ov =? row.1 then Ok ov else Err Corrupted.

(** One round of [open_session]'s loop over the rows. *)
Definition read_row (key : list Z) (vault ident : Z)
    (acc : gmap Z ItemOverview * gmap Z ItemOverview * nat) (row : Z * list Z)
    : gmap Z ItemOverview * gmap Z ItemOverview * nat :=
  let '(live, tr, damaged) := acc in
  match read_overview key vault row with
  | Ok ov =>
      if is_some (trashed_at ov) && negb (Model.id ov =? ident)
      then (live, <[Model.id ov := ov]> tr, damaged)
      else (<[Model.id ov := ov]> live, tr, damaged)
  | Err _ => (live, tr, S damaged)
  end.

Definition open_session (v : VaultService) (vault : Z) (vault_key : list Z) : Result Session :=
  key ← derive_data_key vault_key;
  let opened := read_settings key vault (settings_blob (store v)) in
  ident ← derive_identity_item_id vault_key;
  let '(live, tr, damaged) := foldl (read_row key vault ident) (∅, ∅, 0%nat) (item_overviews (store v)) in
  Ok {| ses_vault_id := vault; data_key := key; ses_vault_key := vault_key; identity_id := ident;
        overviews := live; trash := tr; ses_settings := default settings_restrictive opened;
        damaged_items := damaged; damaged_settings := is_none opened; recent_fills := [];
        generation := 0; health := None |}.

(** [create_account_vault]. *)
Definition create_account_vault (prepared : PreparedVault) (a : AccountRecord) (random : option (list Z)) : V () :=
  v ← mget;
  _ ← mlift (guard_err (negb (bool_decide (state v = SLocked))) Busy);
  h ← mlift (Store.header (store v));
  _ ← mlift (guard_err (is_some h) VaultExists);
  _ ← on_store (set_account a);
  let vault := Store.vault_id (prep_header prepared) in
  key ← mlift (derive_data_key (prep_vault_key prepared));
  ident ← mlift (derive_identity_item_id (prep_vault_key prepared));
  blob ← mlift (seal_json key (settings_ctx vault) settings_default random);
  _ ← on_store (insert_header (prep_header prepared) blob);
  mmodify (open_with
    {| ses_vault_id := vault; data_key := key; ses_vault_key := prep_vault_key prepared;
       identity_id := ident; overviews := ∅; trash := ∅; ses_settings := settings_default;
       damaged_items := 0; damaged_settings := false; recent_fills := []; generation := 0;
       health := None |}).

(** The state test [begin_unlock] and [unlock_with_vault_key] start with. *)
Definition expect_locked (v : VaultService) : Result () :=
  match state v with
  | SLocked => Ok ()
  | SUnlocked => Err (InvalidInput "vault is already unlocked")
  | SUnlocking | SLocking => Err Busy
  end.

Definition begin_unlock : V UnlockTicket :=
  v ← mget;
  _ ← mlift (expect_locked v);
  h ← mlift (require_header v);
  _ ← mlift (guard_err (negb (Store.format_version h =? FORMAT_VERSION)) UnsupportedVersion);
  _ ← mlift (kdf_validate (Store.kdf h));
  _ ← mmodify (set_state SUnlocking);
  mret {| tk_vault_id := Store.vault_id h; tk_kdf := Store.kdf h; tk_scheme := key_scheme h;
          tk_epoch := epoch v |}.

Definition complete_unlock (v : VaultService) (t : UnlockTicket) (key : Result (list Z)) : Result Session :=
  kek ← key;
  h ← require_header v;
  if negb (Store.vault_id h =? tk_vault_id t) || negb (bool_decide (Store.kdf h = tk_kdf t))
     || negb (bool_decide (key_scheme h = tk_scheme t))
  then Err UnlockFailed
  else
    vk ← unwrap_vault_key kek (Store.vault_id h) (wrapped_vault_key h);
    open_session v (Store.vault_id h) vk.

Definition finish_unlock (t : UnlockTicket) (key : Result (list Z)) : V () := fun v =>
  if negb (bool_decide (state v = SUnlocking)) || negb (tk_epoch t =? epoch v) then (v, Err Locked)
  else match complete_unlock v t key with
       | Ok s => (open_with s v, Ok ())
       | Err e => (set_state SLocked v, Err e)
       end.

Definition unlock_for_account (password secret_key : list Z) (a : AccountRef) : V () :=
  t ← begin_unlock;
  finish_unlock t (derive_for_account t password secret_key a).

(** [unlock_with_vault_key]. *)
Definition authenticate_settings (key : list Z) (vault : Z) (blob : list Z) : Result () :=
  map_err (fun _ => BundleRefused)
    (plain ← open key (settings_ctx vault) blob;
     guard_err (negb (is_json plain)) Corrupted).

Definition unlock_with_vault_key (vault_key : list Z) : V () :=
  v ← mget;
  _ ← mlift (expect_locked v);
  h ← mlift (require_header v);
  _ ← mlift (guard_err (negb (Store.format_version h =? FORMAT_VERSION)) UnsupportedVersion);
  key ← mlift (derive_data_key vault_key);
  blob ← mlift (ok_or BundleRefused (settings_blob (store v)));
  _ ← mlift (authenticate_settings key (Store.vault_id h) blob);
  s ← mlift (open_session v (Store.vault_id h) vault_key);
  mmodify (open_with s).

(** [adopt_and_unlock]. *)
Definition adopt_and_unlock (prepared : PreparedVault) (seen_epoch : Z) : V () :=
  v ← mget;
  _ ← mlift (guard_err (negb (bool_decide (state v = SLocked))) Busy);
  _ ← mlift (guard_err (negb (seen_epoch =? epoch v)) Locked);
  local ← mlift (require_header v);
  a ← mlift (require_account v);
  let floor := Z.max (max_header_rev a) (as_i64 (Store.revision local)) in
  let h := prep_header prepared in
  _ ← mlift (guard_err (negb (Store.vault_id h =? Store.vault_id local)
                        || negb (Store.format_version h =? FORMAT_VERSION)) UnlockFailed);
  _ ← mlift (guard_err (as_i64 (Store.revision h) <=? floor) UnlockFailed);
  _ ← on_store (update_key_wrap (Store.kdf h) (wrapped_vault_key h) (key_scheme h) (Store.revision h));
  _ ← on_store' (raise_max_header_rev (as_i64 (Store.revision h)));
  v ← mget;
  s ← mlift (open_session v (Store.vault_id h) (prep_vault_key prepared));
  mmodify (open_with s).

(** ** Changing the master password *)

Record RekeyTicket := { rk_header : HeaderRecord; rk_epoch : Z; rk_account : option AccountRef }.

Record Rekeyed := {
  re_kdf : KdfParams;
  re_wrapped : list Z;
  re_scheme : KeyScheme;
  current_auth_key : list Z;
  new_auth_key : list Z;
}.

Definition begin_rekey (v : VaultService) : Result RekeyTicket :=
  _ ← session v;
  h ← require_header v;
  a ← match account (store v) with
      | Some a => r ← to_ref a; Ok (Some r)
      | None => Ok None
      end;
  Ok {| rk_header := h; rk_epoch := epoch v; rk_account := a |}.

(** [RekeyTicket::derive_for_account]. *)
Definition rekey_derive (t : RekeyTicket) (current new : list Z) (new_kdf : KdfParams) (secret_key : list Z)
    (a : AccountRef) (random : option (list Z)) : Result Rekeyed :=
  _ ← check_new_master_password new;
  let h := rk_header t in
  current_master ← derive_master_key current (Store.kdf h);
  current_kek ← derive_kek_v3 current_master secret_key a;
  cur_auth ← derive_auth_key_from_master current_master secret_key a;
  vk ← unwrap_vault_key current_kek (Store.vault_id h) (wrapped_vault_key h);
  new_master ← derive_master_key new new_kdf;
  new_kek ← derive_kek_v3 new_master secret_key a;
  new_auth ← derive_auth_key_from_master new_master secret_key a;
  wrapped ← wrap_vault_key new_kek (Store.vault_id h) vk random;
  Ok {| re_kdf := new_kdf; re_wrapped := wrapped; re_scheme := AccountBound;
        current_auth_key := cur_auth; new_auth_key := new_auth |}.

Definition header_changed (a b : HeaderRecord) : bool :=
  negb (Store.vault_id a =? Store.vault_id b) || negb (bool_decide (Store.kdf a = Store.kdf b))
  || negb (bool_decide (wrapped_vault_key a = wrapped_vault_key b))
  || negb (bool_decide (key_scheme a = key_scheme b))
  || negb (Store.revision a =? Store.revision b).

Definition commit_rekey (t : RekeyTicket) (rekeyed : Result Rekeyed) (rev : Z) : V () :=
  v ← mget;
  _ ← mlift (session v);
  _ ← mlift (guard_err (negb (rk_epoch t =? epoch v)) Locked);
  r ← mlift rekeyed;
  current ← mlift (require_header v);
  _ ← mlift (guard_err (header_changed current (rk_header t)) Busy);
  _ ← mlift (require_account v);
  _ ← mlift (guard_err (negb (rev =? u64_saturating_add (Store.revision current) 1)) Corrupted);
  _ ← on_store (update_key_wrap (re_kdf r) (re_wrapped r) (re_scheme r) rev);
  on_store' (raise_max_header_rev (as_i64 rev)).

Definition change_master_password_for_account (current new : list Z) (new_kdf : KdfParams)
    (secret_key : list Z) (random : option (list Z)) : V () :=
  v ← mget;
  t ← mlift (begin_rekey v);
  a ← mlift (ok_or not_linked (rk_account t));
  commit_rekey t (rekey_derive t current new new_kdf secret_key a random)
    (u64_saturating_add (Store.revision (rk_header t)) 1).

(** [begin_password_check] and [PasswordCheck::verify]. *)
Record PasswordCheck := { pc_header : HeaderRecord; pc_account : AccountRef }.

Definition begin_password_check (v : VaultService) : Result PasswordCheck :=
  _ ← session v;
  h ← require_header v;
  a ← require_account v;
  r ← to_ref a;
  Ok {| pc_header := h; pc_account := r |}.

Definition verify_password (c : PasswordCheck) (password secret_key : list Z) : Result () :=
  if password_refused password then Err UnlockFailed
  else
    master ← derive_master_key password (Store.kdf (pc_header c));
    kek ← derive_kek_v3 master secret_key (pc_account c);
    map_err (fun _ => UnlockFailed)
      (_ ← unwrap_vault_key kek (Store.vault_id (pc_header c)) (wrapped_vault_key (pc_header c)); Ok ()).

(** [begin_bundle] and [BundleTicket::derive]. *)
Record BundleTicket := { bt_vault_id : Z; bt_kdf : KdfParams; bt_wrapped : list Z; bt_epoch : Z }.

Definition begin_bundle (v : VaultService) : Result BundleTicket :=
  _ ← session v;
  h ← require_header v;
  Ok {| bt_vault_id := Store.vault_id h; bt_kdf := Store.kdf h; bt_wrapped := wrapped_vault_key h;
        bt_epoch := epoch v |}.

Definition bundle_derive (t : BundleTicket) (password secret_key : list Z) (a : AccountRef)
    (enrolled boot : Z) : Result UnlockBundle :=
  if boot <? 0 then Err BundleRefused
  else if password_refused password then Err UnlockFailed
  else
    master ← derive_master_key password (bt_kdf t);
    kek ← derive_kek_v3 master secret_key a;
    vk ← map_err (fun _ => UnlockFailed) (unwrap_vault_key kek (bt_vault_id t) (bt_wrapped t));
    auth ← derive_auth_key_from_master master secret_key a;
    Ok {| bun_vault_key := vk; bun_auth_key := auth; enrolled_at_ms := enrolled; boot_count := boot |}.

(** ** Settings *)

Definition settings (v : VaultService) : Result Settings := s ← session v; Ok (ses_settings s).

Definition update_settings (st : Settings) (random : option (list Z)) : V () :=
  _ ← mlift (settings_validate st);
  v ← mget;
  s ← mlift (session v);
  blob ← mlift (seal_json (data_key s) (settings_ctx (ses_vault_id s)) st random);
  _ ← on_store' (write_settings blob);
  modify_session (with_settings st).

(** ** Values local to this device (local.rs) *)

Inductive LocalSlot := DeviceSettings | AssetLinks | ActivitySlot.
Definition slot_name (s : LocalSlot) : list Z :=
  match s with
  | DeviceSettings => lit "device_settings" | AssetLinks => lit "asset_links" | ActivitySlot => lit "activity"
  end.
Definition slot_purpose (s : LocalSlot) : Purpose :=
  match s with DeviceSettings => PDeviceSettings | AssetLinks => PAssetLinks | ActivitySlot => PActivity end.

Definition read_local {A} `{Codec A} (slot : LocalSlot) (v : VaultService) : Result (option A) :=
  s ← session v;
  match local_blob (slot_name slot) (store v) with
  | None => Ok None
  | Some b => a ← open_json (data_key s) (ctx_vault (slot_purpose slot) (ses_vault_id s)) b; Ok (Some a)
  end.

Definition write_local {A} `{Codec A} (slot : LocalSlot) (value : A) (random : option (list Z)) : V () :=
  v ← mget;
  s ← mlift (session v);
  blob ← mlift (seal_json (data_key s) (ctx_vault (slot_purpose slot) (ses_vault_id s)) value random);
  on_store' (set_local_blob (slot_name slot) blob).
End Vault.
