(* ===== verification/Items.v ===== *)
(** * Items of an unlocked vault: reading, staging and committing
    (crates/havenkeys-core/src/vault.rs, trash.rs, attachment.rs, health/vault.rs)

    A read opens one item's details; a write is staged (sealed under the
    session, nothing stored), sent to the server, and committed with the
    revision the server assigned. *)

From S2P Require Import Prelude Errors Text Blob Url Tags Totp Clean Card Identity.
From S2P Require Import CustomField Bank Sso Attachment Model Keys Store Origin Health BuildItem.
From S2P Require Import Vault.

Definition MAX_SEARCH_QUERY_CHARS : nat := 256.
Definition REPEAT_CHANGE_WINDOW_MS : Z := 24 * 60 * 60 * 1000.
Definition TRASH_RETENTION_MS : Z := 30 * 86400000.
Definition DAY_MS : Z := 86400000.
Definition HEALTH_CACHE_MS : Z := 10 * 60000.

Record StagedWrite := {
  sw_item : Z;
  base_revision : option Z;
  sw_overview : option (list Z);
  sw_details : option (list Z);
  attachment_ids : option (list Z);
  sw_epoch : Z;
  plain : option ItemOverview;
}.

Definition with_ids (ids : option (list Z)) (w : StagedWrite) : StagedWrite :=
  {| sw_item := sw_item w; base_revision := base_revision w; sw_overview := sw_overview w;
     sw_details := sw_details w; attachment_ids := ids; sw_epoch := sw_epoch w; plain := plain w |}.

(** One field of an overview replaced. *)
Definition with_tags (t : list (list Z)) (o : ItemOverview) : ItemOverview :=
  {| Model.id := Model.id o; item_type := item_type o; title := title o; username := username o; urls := urls o;
     has_password := has_password o; has_totp := has_totp o; has_notes := has_notes o;
     has_passkey := has_passkey o; auto_sign_in := auto_sign_in o; sign_in_with := sign_in_with o;
     card := card o; Model.bank := Model.bank o; tags := t; trashed_at := trashed_at o; attachments := attachments o;
     extra := extra o; Model.created_at := Model.created_at o; updated_at := updated_at o |}.

Definition with_trashed (t : option Z) (o : ItemOverview) : ItemOverview :=
  {| Model.id := Model.id o; item_type := item_type o; title := title o; username := username o; urls := urls o;
     has_password := has_password o; has_totp := has_totp o; has_notes := has_notes o;
     has_passkey := has_passkey o; auto_sign_in := auto_sign_in o; sign_in_with := sign_in_with o;
     card := card o; Model.bank := Model.bank o; tags := tags o; trashed_at := t; attachments := attachments o;
     extra := extra o; Model.created_at := Model.created_at o; updated_at := updated_at o |}.

Definition with_extra (e : list (list Z * list Z)) (o : ItemOverview) : ItemOverview :=
  {| Model.id := Model.id o; item_type := item_type o; title := title o; username := username o; urls := urls o;
     has_password := has_password o; has_totp := has_totp o; has_notes := has_notes o;
     has_passkey := has_passkey o; auto_sign_in := auto_sign_in o; sign_in_with := sign_in_with o;
     card := card o; Model.bank := Model.bank o; tags := tags o; trashed_at := trashed_at o;
     attachments := attachments o; extra := e; Model.created_at := Model.created_at o; updated_at := updated_at o |}.

Definition with_updated (t : Z) (o : ItemOverview) : ItemOverview :=
  {| Model.id := Model.id o; item_type := item_type o; title := title o; username := username o; urls := urls o;
     has_password := has_password o; has_totp := has_totp o; has_notes := has_notes o;
     has_passkey := has_passkey o; auto_sign_in := auto_sign_in o; sign_in_with := sign_in_with o;
     card := card o; Model.bank := Model.bank o; tags := tags o; trashed_at := trashed_at o;
     attachments := attachments o; extra := extra o; Model.created_at := Model.created_at o; updated_at := t |}.

(** The defaults [stage_update_with] fills in from the existing item. *)
Definition fill_defaults (existing : ItemOverview) (i : ItemInput) : ItemInput :=
  {| in_type := in_type i; in_title := in_title i; in_username := in_username i; in_urls := in_urls i;
     in_password := in_password i; in_totp := in_totp i; in_notes := in_notes i; in_content := in_content i;
     in_auto_sign_in := Some (default (auto_sign_in existing) (in_auto_sign_in i));
     in_sign_in_with := in_sign_in_with i; in_identity := in_identity i; in_card := in_card i;
     in_bank := in_bank i; in_sections := in_sections i;
     in_tags := Some (default (tags existing) (in_tags i)) |}.

Definition no_files : FileEdits := {| added := []; removed := [] |}.

Section Items.
Context {C : Crypto} {K : KeyLib} {U : Unicode} {J : JsonLib} {UL : UrlLib} {SL : SiteLib UL} {L : TotpLib}.

(** ** Reading *)

Definition values (m : gmap Z ItemOverview) : list ItemOverview := map snd (map_to_list m).

Definition by_title (o : ItemOverview) : list Z * Z := (to_lowercase (title o), Model.id o).

Definition list_items (v : VaultService) : Result (list ItemOverview) :=
  s ← session v; Ok (sort_by_key by_title (values (overviews s))).

Definition lower_contains (q : list Z) (s : list Z) : bool := contains q (to_lowercase s).
Definition some_with {A} (f : A -> bool) (o : option A) : bool := match o with Some a => f a | None => false end.

(** The filter of [search]. *)
Definition matches_query (q : list Z) (i : ItemOverview) : bool :=
  lower_contains q (title i)
  || some_with (lower_contains q) (username i)
  || existsb (lower_contains q) (tags i)
  || existsb (fun r => some_with (fun u => some_with (contains q) (url_host_str u)) (url_parse (Model.url r))) (urls i)
  || some_with (fun s => lower_contains q (Sso.name (provider s)) || some_with (lower_contains q) (sso_account s))
       (sign_in_with i)
  || some_with (fun b => existsb (lower_contains q) (option_list (bs_bank b) ++ option_list (bs_branch b)))
       (Model.bank i)
  || (all_digits q && some_with (contains q) (Model.card i ≫= last4)).

Definition search (query : list Z) (v : VaultService) : Result (list ItemOverview) :=
  s ← session v;
  if (MAX_SEARCH_QUERY_CHARS <? length query)%nat then Err (InvalidInput "search query too long")
  else
    let q := to_lowercase (trim query) in
    if bool_decide (q = []) then list_items v
    else Ok (sort_by_key by_title (List.filter (matches_query q) (values (overviews s)))).

Definition get_item (item : Z) (v : VaultService) : Result ItemOverview :=
  s ← session v; ok_or NotFound (overviews s !! item).

Definition open_details (v : VaultService) (s : Session) (item : Z) (t : ItemType) : Result ItemDetails :=
  '(ov_blob, data) ← ok_or NotFound (item_blobs item (store v));
  d ← map_err (fun e => if decide (e = Corrupted) then Corrupted else Decryption)
        (open_json (data_key s) (ctx_item_details (ses_vault_id s) item ov_blob) data);
  if decide (details_type d = t) then Ok d else Err Corrupted.

Definition load_details (item : Z) (v : VaultService) : Result ItemDetails :=
  s ← session v;
  o ← ok_or NotFound (overviews s !! item);
  open_details v s item (item_type o).

Definition load_trashed_details (item : Z) (v : VaultService) : Result ItemDetails :=
  s ← session v;
  o ← ok_or NotFound (trash s !! item);
  open_details v s item (item_type o).

Definition reveal (item : Z) (f : SecretField) (v : VaultService) : Result (list Z) :=
  d ← load_details item v;
  value ← match d, f with
          | DLogin l, SfPassword => Ok (password l)
          | DLogin l, SfNotes => Ok (notes l)
          | DNote c _, SfContent => Ok (Some c)
          | _, _ => Err (InvalidInput "field does not exist on this item")
          end;
  ok_or NotFound value.

Definition totp_code (item : Z) (unix_seconds : Z) (v : VaultService) : Result TotpCode :=
  d ← load_details item v;
  match d with
  | DLogin l => match totp l with Some cfg => Totp.generate cfg unix_seconds | None => Err NotFound end
  | _ => Err NotFound
  end.

Definition password_history_times (item : Z) (v : VaultService) : Result (list Z) :=
  d ← load_details item v;
  match d with DLogin l => Ok (map replaced_at (password_history l)) | _ => Ok [] end.

Fixpoint max_opt (l : list Z) : option Z :=
  match l with
  | [] => None
  | x :: l => Some (match max_opt l with Some y => Z.max x y | None => x end)
  end.

Definition update_needs_confirmation (item now_ms : Z) (v : VaultService) : Result bool :=
  h ← password_history_times item v;
  Ok match max_opt h with
     | Some at_ => i64_saturating_sub now_ms at_ <? REPEAT_CHANGE_WINDOW_MS
     | None => false
     end.

Definition reveal_previous_password (item : Z) (index : nat) (v : VaultService) : Result (list Z) :=
  d ← load_details item v;
  match d with
  | DLogin l => ok_or NotFound (pp_password <$> password_history l !! index)
  | _ => Err NotFound
  end.

Definition reveal_identity (item : Z) (v : VaultService) : Result IdentityFields :=
  d ← load_details item v;
  match d with DIdentity f => Ok f | _ => Err Denied end.

Definition identity_value (item : Z) (f : IdentityField) (v : VaultService) : Result (list Z) :=
  i ← reveal_identity item v; ok_or NotFound (id_value i f).

Definition identity_custom_value (item : Z) (index : nat) (v : VaultService) : Result (list Z) :=
  i ← reveal_identity item v; ok_or NotFound (idc_value <$> custom i !! index).

Definition card_fields (item : Z) (v : VaultService) : Result CardFields :=
  d ← load_details item v;
  match d with DCard f => Ok f | _ => Err Denied end.

Definition bank_fields (item : Z) (v : VaultService) : Result BankAccountFields :=
  d ← load_details item v;
  match d with DBank f => Ok f | _ => Err Denied end.

Definition card_value_of (item : Z) (f : CardField) (v : VaultService) : Result (list Z) :=
  c ← card_fields item v; ok_or NotFound (card_value c f).

Definition item_sections (item : Z) (v : VaultService) : Result (list FieldSection) :=
  d ← load_details item v;
  match d with
  | DLogin l => Ok (sections l)
  | DNote _ s => Ok s
  | DBank b => Ok (b_sections b)
  | _ => Err NotFound
  end.

Definition item_field (item field : Z) (v : VaultService) : Result CustomField :=
  secs ← item_sections item v;
  ok_or NotFound (List.find (fun f => f_id f =? field) (concat (map s_fields secs))).

(** ** Staging *)

Definition seal_staged (v : VaultService) (o : ItemOverview) (d : option ItemDetails) (base : option Z)
    (r1 r2 : option (list Z)) : Result StagedWrite :=
  s ← session v;
  ov_blob ← seal_json (data_key s) (ctx_item PItemOverview (ses_vault_id s) (Model.id o)) o r1;
  det_blob ← match d with
             | Some d => b ← seal_json (data_key s) (ctx_item_details (ses_vault_id s) (Model.id o) ov_blob) d r2;
                         Ok (Some b)
             | None => Ok None
             end;
  Ok {| sw_item := Model.id o; base_revision := base; sw_overview := Some ov_blob; sw_details := det_blob;
        attachment_ids := None; sw_epoch := epoch v; plain := Some o |}.

Definition tag_spellings (except : option Z) (v : VaultService) : Result (gmap (list Z) (list Z)) :=
  s ← session v;
  Ok (spellings (map tags (List.filter (fun o => negb (bool_decide (Some (Model.id o) = except)))
                             (values (overviews s))))).

Definition stage (v : VaultService) (o : ItemOverview) (d : option ItemDetails) (base : option Z)
    (r1 r2 : option (list Z)) : Result StagedWrite :=
  o ← (if bool_decide (tags o = []) then Ok o
       else sp ← tag_spellings (Some (Model.id o)) v; Ok (with_tags (canonicalize (tags o) sp) o));
  seal_staged v o d base r1 r2.

(** [batch.entry(key).or_insert]. *)
Definition add_spellings (ts : list (list Z)) (batch : gmap (list Z) (list Z)) : gmap (list Z) (list Z) :=
  foldl (fun m t => match m !! Tags.key t with Some _ => m | None => <[Tags.key t := t]> m end) batch ts.

Definition stage_in_batch (v : VaultService) (o : ItemOverview) (d : option ItemDetails) (base : option Z)
    (batch : gmap (list Z) (list Z)) (r1 r2 : option (list Z)) : Result (StagedWrite * gmap (list Z) (list Z)) :=
  s ← session v;
  if is_some (overviews s !! Model.id o) then w ← stage v o d base r1 r2; Ok (w, batch)
  else
    let ts := if bool_decide (tags o = []) then tags o else canonicalize (tags o) batch in
    w ← seal_staged v (with_tags ts o) d base r1 r2;
    Ok (w, add_spellings ts batch).

Definition stage_create_with (new_id : nat -> Z) (item : Z) (i : ItemInput) (files : FileEdits) (now_ms : Z)
    (r1 r2 : option (list Z)) (v : VaultService) : Result StagedWrite :=
  if decide (in_type i = Identity) then Err Denied
  else
    '(o, d) ← build_item new_id item i None now_ms now_ms;
    '(o, ids) ← apply_files files o;
    w ← stage v o (Some d) None r1 r2;
    Ok (with_ids ids w).

Definition stage_create (new_id : nat -> Z) (item : Z) (i : ItemInput) (now_ms : Z) (r1 r2 : option (list Z))
    (v : VaultService) : Result StagedWrite :=
  stage_create_with new_id item i no_files now_ms r1 r2 v.

Definition stage_update_with (new_id : nat -> Z) (item : Z) (i : ItemInput) (files : FileEdits) (now_ms : Z)
    (r1 r2 : option (list Z)) (v : VaultService) : Result StagedWrite :=
  existing ← get_item item v;
  if negb (bool_decide (item_type existing = in_type i)) then Err (InvalidInput "item type cannot change")
  else
    current ← load_details item v;
    '(o, d) ← build_item new_id item (fill_defaults existing i) (Some current) (Model.created_at existing) now_ms;
    '(o, ids) ← apply_files files (with_attachments (with_extra (extra existing) o) (attachments existing));
    w ← stage v o (Some d) (item_revision item (store v)) r1 r2;
    Ok (with_ids ids w).

Definition stage_update (new_id : nat -> Z) (item : Z) (i : ItemInput) (now_ms : Z) (r1 r2 : option (list Z))
    (v : VaultService) : Result StagedWrite :=
  stage_update_with new_id item i no_files now_ms r1 r2 v.

Definition tombstone (v : VaultService) (item : Z) : StagedWrite :=
  {| sw_item := item; base_revision := item_revision item (store v); sw_overview := None; sw_details := None;
     attachment_ids := None; sw_epoch := epoch v; plain := None |}.

Definition stage_delete (item : Z) (v : VaultService) : Result StagedWrite :=
  s ← session v;
  _ ← guard_err (is_none (overviews s !! item)) NotFound;
  _ ← guard_err (item =? identity_id s) Denied;
  Ok (tombstone v item).

(** ** The account's one identity *)

Definition identity_with_email (e : list Z) : IdentityFields :=
  {| first_name := None; middle_name := None; last_name := None; gender := None; birth_date := None;
     occupation := None; company := None; job_title := None; cpf := None; rg := None; passport := None;
     drivers_license := None; id_email := Some e; mobile_phone := None; home_phone := None;
     work_phone := None; street := None; addr_number := None; complement := None; neighborhood := None;
     city := None; Identity.state := None; postal_code := None; country := None; id_username := None;
     website := None; custom := []; id_notes := None |}.

Definition identity_input (e : list Z) : ItemInput :=
  {| in_type := Identity; in_title := []; in_username := None; in_urls := []; in_password := Keep;
     in_totp := Keep; in_notes := Keep; in_content := Keep; in_auto_sign_in := None; in_sign_in_with := None;
     in_identity := Some (identity_with_email e); in_card := None; in_bank := None; in_sections := None;
     in_tags := None |}.

Definition stage_identity_if_missing (new_id : nat -> Z) (e : list Z) (now_ms : Z) (r1 r2 : option (list Z))
    (v : VaultService) : Result (option StagedWrite) :=
  s ← session v;
  let item := identity_id s in
  if is_some (overviews s !! item) || is_some (trash s !! item) then Ok None
  else
    '(o, d) ← build_item new_id item (identity_input e) None now_ms now_ms;
    w ← stage v o (Some d) None r1 r2;
    Ok (Some w).

(** ** Committing *)

Definition commit_write (w : StagedWrite) (rev : Z) : V (option ItemOverview) :=
  v ← mget;
  _ ← mlift (session v);
  _ ← mlift (guard_err (negb (sw_epoch w =? epoch v)) Locked);
  _ ← modify_session items_changed;
  match sw_overview w, sw_details w, plain w with
  | Some ov, Some det, Some o =>
      _ ← on_store' (upsert_item (sw_item w) ov det rev);
      _ ← modify_session (place o);
      mret (Some o)
  | None, None, None =>
      _ ← on_store' (fun s => (delete_item (sw_item w) s).1);
      _ ← modify_session (forget (sw_item w));
      mret None
  | _, _, _ => mthrow_ (InvalidInput "malformed staged write")
  end.

(** ** The Trash (trash.rs) *)

Definition stage_trash (item now_ms : Z) (r1 r2 : option (list Z)) (v : VaultService) : Result StagedWrite :=
  s ← session v;
  if item =? identity_id s then Err Denied
  else
    o ← ok_or NotFound (overviews s !! item);
    match load_details item v with
    | Ok d => seal_staged v (with_trashed (Some now_ms) o) (Some d) (item_revision item (store v)) r1 r2
    | Err (Decryption | Corrupted) => Ok (tombstone v item)
    | Err e => Err e
    end.

Definition stage_restore_trashed (item : Z) (r1 r2 : option (list Z)) (v : VaultService) : Result StagedWrite :=
  s ← session v;
  o ← ok_or NotFound (trash s !! item);
  d ← load_trashed_details item v;
  stage v (with_trashed None o) (Some d) (item_revision item (store v)) r1 r2.

Definition stage_purge (item : Z) (v : VaultService) : Result StagedWrite :=
  s ← session v;
  if (item =? identity_id s) || is_none (trash s !! item) then Err NotFound else Ok (tombstone v item).

Definition sorted_ids (l : list Z) : list Z := sort_by_key (fun x => x) l.

Definition stage_empty_trash (v : VaultService) : Result (list StagedWrite) :=
  s ← session v;
  let ids := List.filter (fun x => negb (x =? identity_id s)) (map fst (map_to_list (trash s))) in
  Ok (map (tombstone v) (sorted_ids ids)).

Definition is_due (s : Session) (now_ms : Z) (o : ItemOverview) : bool :=
  negb (Model.id o =? identity_id s)
  && some_with (fun t => TRASH_RETENTION_MS <=? i64_saturating_sub now_ms t) (trashed_at o).

Definition stage_expired_trash (now_ms : Z) (v : VaultService) : Result (list StagedWrite) :=
  s ← session v;
  Ok (map (tombstone v) (sorted_ids (map Model.id (List.filter (is_due s now_ms) (values (trash s)))))).

(** [days_left]: [div_euclid] by a positive number is Coq's [/]. *)
Definition days_left (trashed now_ms : Z) : Z :=
  let remaining := i64_saturating_sub (i64_saturating_add trashed TRASH_RETENTION_MS) now_ms in
  let days := i64_saturating_add remaining (DAY_MS - 1) / DAY_MS in
  clamp 0 (TRASH_RETENTION_MS / DAY_MS) days.

Record TrashEntry := { te_overview : ItemOverview; te_days_left : Z }.

Definition list_trash (now_ms : Z) (v : VaultService) : Result (list TrashEntry) :=
  s ← session v;
  Ok (sort_by_key (fun e => (Build_Reverse (trashed_at (te_overview e)), Model.id (te_overview e)))
        (map (fun o => {| te_overview := o;
                          te_days_left := days_left (default now_ms (trashed_at o)) now_ms |}) (values (trash s)))).

Definition trash_count (v : VaultService) : Result nat := s ← session v; Ok (base.size (trash s)).

(** ** Files of an item (attachment.rs) *)

Definition stored_overview (s : Session) (item : Z) : Result ItemOverview :=
  ok_or NotFound (match overviews s !! item with Some o => Some o | None => trash s !! item end).

Record SealedAttachment := { sa_meta : AttachmentMeta; sa_blob : list Z }.

Definition seal_attachment (new : Z) (item : Z) (name bytes : list Z) (now_ms : Z) (random : option (list Z))
    (v : VaultService) : Result SealedAttachment :=
  if MAX_ATTACHMENT_BYTES <? len bytes then Err (InvalidInput "Files can be up to 5 MB")
  else
    s ← session v;
    blob ← seal (data_key s) (ctx_attachment (ses_vault_id s) item new) bytes random;
    Ok {| sa_meta := {| att_id := new; att_name := sanitize_name name; mime := sniff bytes;
                        Attachment.size := len bytes; blob_sha256 := sha256 blob; att_created_at := now_ms;
                        att_extra := [] |};
          sa_blob := blob |}.

Definition open_attachment (item : Z) (m : AttachmentMeta) (blob : list Z) (v : VaultService) : Result (list Z) :=
  if negb (bool_decide (sha256 blob = blob_sha256 m)) then Err Decryption
  else s ← session v; open (data_key s) (ctx_attachment (ses_vault_id s) item (att_id m)) blob.

Definition attachment_meta (item att : Z) (v : VaultService) : Result AttachmentMeta :=
  s ← session v;
  o ← stored_overview s item;
  ok_or NotFound (List.find (fun m => att_id m =? att) (attachments o)).

(** The session's check before each use of the cache. *)
Definition cached_attachment_of (att now_s : Z) : V (option (list Z)) :=
  v ← mget;
  _ ← mlift (session v);
  let '(st, b) := cached_attachment att now_s (store v) in
  _ ← mmodify (set_store st);
  mret b.

Definition cache_attachment (att : Z) (blob : list Z) (now_ms : Z) : V () :=
  v ← mget; _ ← mlift (session v); on_store' (put_cached_attachment att blob now_ms).

Definition evict_attachment (att : Z) : V () :=
  v ← mget; _ ← mlift (session v); on_store' (delete_cached_attachment att).

Definition held_files (s : Session) : gset Z :=
  list_to_set (map att_id (concat (map attachments (values (overviews s) ++ values (trash s))))).

Definition prune_attachments (cap : Z) : V () :=
  v ← mget;
  s ← mlift (session v);
  on_store' (prune_attachment_cache (held_files s) cap).

Inductive AttachmentChange := AddFiles (l : list AttachmentMeta) | RemoveFile (x : Z).

Definition change_files (c : AttachmentChange) (o : ItemOverview) : Result ItemOverview :=
  match c with
  | AddFiles l =>
      if (MAX_ATTACHMENTS_PER_ITEM <? length (attachments o) + length l)%nat
      then Err (InvalidInput "An item holds up to 20 files")
      else Ok (with_attachments o (attachments o ++ l))
  | RemoveFile x =>
      let l := retain_other x (attachments o) in
      if (length l =? length (attachments o))%nat then Err NotFound else Ok (with_attachments o l)
  end.

Definition stage_attachments (item : Z) (c : AttachmentChange) (now_ms : Z) (r1 r2 : option (list Z))
    (v : VaultService) : Result StagedWrite :=
  s ← session v;
  o ← stored_overview s item;
  o ← change_files c o;
  let o := with_updated now_ms o in
  d ← (if is_some (trashed_at o) then load_trashed_details item v else load_details item v);
  w ← seal_staged v o (Some d) (item_revision item (store v)) r1 r2;
  Ok (with_ids (Some (map att_id (attachments o))) w).
End Items.
