(* ===== verification/Page.v ===== *)
(** * Page-bound access (crates/havenkeys-core/src/vault.rs)

    What a browser may ask for: every request names the frame and, for an
    iframe, the tab's top page, and is checked against the item's own
    website rules on every call. *)

From S2P Require Import Prelude Errors Text Blob Url Tags Totp Clean Card Identity.
From S2P Require Import CustomField Bank Sso Attachment Model Keys Store Origin Health BuildItem.
From S2P Require Import Vault Items.

Definition MAX_PROVIDER_ACCOUNTS : nat := 10.
Definition MAX_SSO_PICKER_ACCOUNTS : nat := 50.

Inductive MatchKind := MkLogin | MkBank.

#[export] Instance MatchKind_eq_dec : EqDecision MatchKind.
Proof. solve_decision. Defined.

Record Suggestion := {
  sg_id : Z;
  kind : MatchKind;
  sg_title : list Z;
  sg_username : option (list Z);
  sg_bank : option BankSummary;
  sg_has_totp : bool;
  strength : MatchStrength;
  sg_account : option (list Z);
  sg_provider : option SsoProvider;
  sg_tags : list (list Z);
}.

(** [Suggestion::new]. *)
Definition suggestion (o : ItemOverview) (st : MatchStrength) : Suggestion :=
  {| sg_id := Model.id o; kind := if decide (item_type o = BankAccount) then MkBank else MkLogin;
     sg_title := title o; sg_username := username o; sg_bank := Model.bank o; sg_has_totp := has_totp o;
     strength := st; sg_account := sign_in_with o ≫= sso_account; sg_provider := provider <$> sign_in_with o;
     sg_tags := tags o |}.

Inductive SaveTarget := NewLogin (title : option (list Z)) | UpdateLogin (item : Z).
Inductive SaveAction := SaveAdd | SaveUpdate (item : Z) | SaveUnchanged.
Inductive ProviderLogin := One (item : Z) | NoneFound | Several.

#[export] Instance SaveAction_eq_dec : EqDecision SaveAction.
Proof. solve_decision. Defined.

Record SsoAccount := { sa_id : Z; sa_title : list Z; sa_username : list Z }.
Record FillCredentials := { fc_username : option (list Z); fc_password : option (list Z); fc_bank : option BankValues }.
Record SsoStart := { ss_provider : SsoProvider; ss_account : option (list Z); auto_choose : bool }.
Record StagedSave := { save_write : StagedWrite; save_item : Z }.
Record ConfirmUpdate := { cu_item : Z; cu_title : list Z; cu_username : option (list Z); cu_site : list Z }.

Section Page.
Context {C : Crypto} {K : KeyLib} {U : Unicode} {J : JsonLib} {UL : UrlLib} {SL : SiteLib UL} {L : TotpLib}.

Definition normalize_username (u : option (list Z)) : option (list Z) := to_lowercase <$> trimmed_nonempty u.

(** ** The page of a request *)

Record PageContext := { frame : Url; top : option Url }.

Definition context_parse (page_url : list Z) (top_url : option (list Z)) : option PageContext :=
  f ← page_parse page_url;
  match top_url with
  | Some t => t ← page_parse t; Some {| frame := f; top := Some t |}
  | None => Some {| frame := f; top := None |}
  end.

(** [PageContext::matches]. *)
Definition context_matches (p : PageContext) (o : ItemOverview) (policy : MatchPolicy) : option MatchStrength :=
  st ← match_item o (frame p) policy;
  match top p with
  | Some t => _ ← match_item o t policy; Some st
  | None => Some st
  end.

Definition match_policy (v : VaultService) : Result MatchPolicy :=
  s ← session v; Ok {| Origin.equivalent_domains := Model.equivalent_domains (ses_settings s) |}.

Definition is_direct (p : MatchPolicy) : bool := negb (Origin.equivalent_domains p).

Definition suggestion_key (s : Suggestion) : Z * (list Z * Z) :=
  (rank (strength s), (to_lowercase (sg_title s), sg_id s)).

(** [page_matches]. *)
Definition page_matches (page_url : list Z) (top_url : option (list Z)) (policy : MatchPolicy) (v : VaultService)
    : Result (list Suggestion) :=
  s ← session v;
  match context_parse page_url top_url with
  | None => Ok []
  | Some page =>
      Ok (sort_by_key suggestion_key
            (omap (fun o => suggestion o <$> context_matches page o policy)
               (List.filter (fun o => is_site_bound (item_type o)) (Items.values (overviews s)))))
  end.

Definition direct_matches (page_url : list Z) (top_url : option (list Z)) (v : VaultService) :=
  page_matches page_url top_url DIRECT v.

Definition matches_page (item : Z) (page_url : list Z) (top_url : option (list Z)) (v : VaultService)
    : Result bool :=
  policy ← match_policy v;
  s ← session v;
  match context_parse page_url top_url with
  | None => Ok false
  | Some page =>
      Ok (some_with (fun o => is_site_bound (item_type o) && is_some (context_matches page o policy))
            (overviews s !! item))
  end.

(** [authorize_for_page_with] and [authorize_for_page]. *)
Definition authorize_with (item : Z) (page_url : list Z) (top_url : option (list Z)) (policy : MatchPolicy)
    (v : VaultService) : Result ItemOverview :=
  s ← session v;
  o ← ok_or NotFound (overviews s !! item);
  page ← ok_or Denied (context_parse page_url top_url);
  if negb (is_site_bound (item_type o)) || is_none (context_matches page o policy) then Err Denied else Ok o.

Definition authorize_for_page (item : Z) (page_url : list Z) (top_url : option (list Z)) (v : VaultService)
    : Result ItemOverview :=
  policy ← match_policy v; authorize_with item page_url top_url policy v.

(** ** Filling *)

Definition fill_reply (item : Z) (user : option (list Z)) (v : VaultService) : Result FillCredentials :=
  d ← load_details item v;
  match d with
  | DLogin l => Ok {| fc_username := user; fc_password := password l; fc_bank := None |}
  | DBank f => Ok {| fc_username := None; fc_password := b_password f; fc_bank := bank_values f |}
  | _ => Err Denied
  end.

(** [record_fill]. *)
Definition push_fill (item : Z) (site : list Z) (now_ms : Z) (l : list RecentFill) : list RecentFill :=
  let kept := List.filter (fun f => is_recent f now_ms
                                    && negb ((fill_item f =? item) && bool_decide (fill_site f = site))) l in
  let l := kept ++ [{| fill_item := item; fill_site := site; filled_at_ms := now_ms |}] in
  drop (length l - MAX_RECENT_FILLS) l.

Definition record_fill (item : Z) (page_url : list Z) (now_ms : Z) : V () :=
  match page_parse page_url ≫= site_of with
  | None => mret ()
  | Some site => modify_session (fun s => with_fills (push_fill item site now_ms (recent_fills s)) s)
  end.

Definition fill_for_page (item : Z) (page_url : list Z) (top_url : option (list Z)) (now_ms : Z)
    : V FillCredentials :=
  v ← mget;
  o ← mlift (authorize_for_page item page_url top_url v);
  creds ← mlift (fill_reply item (username o) v);
  _ ← (if bool_decide (item_type o = Login) && is_some (fc_password creds)
       then record_fill item page_url now_ms else mret ());
  mret creds.

Definition totp_for_page (item : Z) (page_url : list Z) (top_url : option (list Z)) (unix_seconds : Z)
    (v : VaultService) : Result TotpCode :=
  o ← authorize_for_page item page_url top_url v;
  if decide (item_type o = Login) then Items.totp_code item unix_seconds v else Err Denied.

Definition auto_sign_in_for (item : Z) (v : VaultService) : Result bool :=
  s ← session v;
  o ← ok_or NotFound (overviews s !! item);
  Ok (bool_decide (item_type o = Login) && set_auto_sign_in (ses_settings s) && auto_sign_in o).

(** ** Sign in with *)

Definition start_sso_for_page (item : Z) (page_url : list Z) (top_url : option (list Z)) (v : VaultService)
    : Result SsoStart :=
  o ← authorize_for_page item page_url top_url v;
  sw ← ok_or Denied (sign_in_with o);
  s ← session v;
  Ok {| ss_provider := provider sw; ss_account := sso_account sw;
        auto_choose := set_auto_sign_in (ses_settings s) && auto_sign_in o |}.

Definition same_account (p : SsoProvider) (wanted : option (list Z)) (s : Suggestion) : bool :=
  bool_decide (sg_provider s = Some p)
  && (is_none wanted || bool_decide (normalize_username (sg_account s) = wanted)).

(** The loop of [check_sso]: [inl] is its early return. *)
Fixpoint scan_sso (p : SsoProvider) (wanted : option (list Z)) (l : list Suggestion) (without : list Z)
    : () + list Z :=
  match l with
  | [] => inr without
  | s :: l =>
      if same_account p wanted s then inl ()
      else scan_sso p wanted l
             (if bool_decide (sg_provider s = Some p) && is_none (normalize_username (sg_account s))
              then without ++ [sg_id s] else without)
  end.

Definition check_sso (page_url : list Z) (top_url : option (list Z)) (p : SsoProvider) (account : option (list Z))
    (v : VaultService) : Result SaveAction :=
  let wanted := normalize_username account in
  direct ← direct_matches page_url top_url v;
  match scan_sso p wanted direct [] with
  | inl _ => Ok SaveUnchanged
  | inr [x] => Ok (SaveUpdate x)
  | inr _ =>
      policy ← match_policy v;
      if is_direct policy then Ok SaveAdd
      else
        related ← page_matches page_url top_url policy v;
        Ok (if existsb (same_account p wanted) related then SaveUnchanged else SaveAdd)
  end.

(** [provider_logins]: one pass per origin, an item at most once. *)
Fixpoint new_accounts (seen : gset Z) (l : list Suggestion) : gset Z * list SsoAccount :=
  match l with
  | [] => (seen, [])
  | s :: l =>
      match trimmed_nonempty (sg_username s) with
      | None => new_accounts seen l
      | Some u =>
          if decide (sg_id s ∈ seen) then new_accounts seen l
          else let '(seen', out) := new_accounts ({[sg_id s]} ∪ seen) l in
               (seen', {| sa_id := sg_id s; sa_title := sg_title s; sa_username := u |} :: out)
      end
  end.

Fixpoint origin_accounts (origins : list (list Z)) (seen : gset Z) (v : VaultService) : Result (list SsoAccount) :=
  match origins with
  | [] => Ok []
  | o :: origins =>
      l ← direct_matches (o ++ lit "/") None v;
      let '(seen, out) := new_accounts seen l in
      rest ← origin_accounts origins seen v;
      Ok (out ++ rest)
  end.

Definition provider_logins (p : SsoProvider) (v : VaultService) : Result (list SsoAccount) :=
  out ← origin_accounts (Sso.origins p) ∅ v;
  Ok (sort_by_key (fun a => (to_lowercase (sa_title a), (to_lowercase (sa_username a), sa_id a))) out).

Definition sso_accounts (p : SsoProvider) (v : VaultService) : Result (list SsoAccount) :=
  l ← provider_logins p v; Ok (take MAX_SSO_PICKER_ACCOUNTS l).

(** A [BTreeSet]'s iteration: sorted, without repetition. *)
Definition btree_set (l : list (list Z)) : list (list Z) := sort_by_key (fun x => x) (remove_dups l).

Definition provider_accounts (p : SsoProvider) (v : VaultService) : Result (list (list Z)) :=
  l ← provider_logins p v;
  Ok (take MAX_PROVIDER_ACCOUNTS (btree_set (omap (fun a => normalize_username (Some (sa_username a))) l))).

Definition provider_login (item : Z) (v : VaultService) : Result ProviderLogin :=
  o ← get_item item v;
  match sign_in_with o with
  | None => Ok NoneFound
  | Some sso =>
      match normalize_username (sso_account sso) with
      | None => Ok NoneFound
      | Some want =>
          l ← provider_logins (provider sso) v;
          let hits := List.filter (fun a => negb (sa_id a =? item)
                        && bool_decide (normalize_username (Some (sa_username a)) = Some want)) l in
          Ok match map sa_id hits with [x] => One x | [] => NoneFound | _ => Several end
      end
  end.

(** ** Saving *)

Definition new_login_for_frame (page_url : list Z) (top_url : option (list Z)) (t : option (list Z))
    : Result ItemInput :=
  page ← ok_or Denied (context_parse page_url top_url);
  '(host, origin) ← ok_or Denied (title_and_origin (frame page));
  t ← match t with Some t => clean_title t | None => Ok host end;
  let i := blank Login t in
  Ok {| in_type := in_type i; in_title := in_title i; in_username := in_username i;
        in_urls := [{| Model.url := origin; match_type := Domain |}]; in_password := in_password i;
        in_totp := in_totp i; in_notes := in_notes i; in_content := in_content i;
        in_auto_sign_in := in_auto_sign_in i; in_sign_in_with := in_sign_in_with i;
        in_identity := in_identity i; in_card := in_card i; in_bank := in_bank i;
        in_sections := in_sections i; in_tags := in_tags i |}.

(** [ItemInput { password, sign_in_with, username, ..base }]. *)
Definition with_save (user : option (list Z)) (pw : SecretUpdate) (sso : option SignInWith) (i : ItemInput) : ItemInput :=
  {| in_type := in_type i; in_title := in_title i; in_username := user; in_urls := in_urls i;
     in_password := pw; in_totp := in_totp i; in_notes := in_notes i; in_content := in_content i;
     in_auto_sign_in := in_auto_sign_in i; in_sign_in_with := sso; in_identity := in_identity i;
     in_card := in_card i; in_bank := in_bank i; in_sections := in_sections i; in_tags := in_tags i |}.

(** The accumulator of [save_action]'s loop; [inl] is its early return. *)
Record SaveScan := { to_update : option Z; by_current : list Z }.

Definition scan_candidate (wanted : option (list Z)) (pw : list Z) (current : option (list Z)) (v : VaultService)
    (acc : SaveScan) (c : Suggestion) : () + SaveScan :=
  match kind c with
  | MkBank =>
      match load_details (sg_id c) v with
      | Ok (DBank f) => if some_with (fun s => secrets_equal s pw) (b_password f) then inl () else inr acc
      | _ => inr acc
      end
  | MkLogin =>
      let same_user := bool_decide (normalize_username (sg_username c) = wanted) in
      if negb same_user && is_some wanted then inr acc
      else
        let saved := match load_details (sg_id c) v with Ok (DLogin l) => password l | _ => None end in
        if some_with (fun s => secrets_equal s pw) saved then inl ()
        else
          let by_cur := match saved, current with
                        | Some s, Some cur => secrets_equal s cur
                        | _, _ => false
                        end in
          inr {| to_update := if same_user && is_none (to_update acc) then Some (sg_id c) else to_update acc;
                 by_current := if by_cur then by_current acc ++ [sg_id c] else by_current acc |}
  end.

Fixpoint scan_candidates (wanted : option (list Z)) (pw : list Z) (current : option (list Z)) (v : VaultService)
    (l : list Suggestion) (acc : SaveScan) : () + SaveScan :=
  match l with
  | [] => inr acc
  | c :: l =>
      match scan_candidate wanted pw current v acc c with
      | inl u => inl u
      | inr acc => scan_candidates wanted pw current v l acc
      end
  end.

Definition save_action (candidates : list Suggestion) (user : option (list Z)) (pw : list Z)
    (current : option (list Z)) (v : VaultService) : Result SaveAction :=
  if bool_decide (pw = []) then Err (InvalidInput "password is required")
  else
    let current := match current with Some [] => None | c => c end in
    match scan_candidates (normalize_username user) pw current v candidates
            {| to_update := None; by_current := [] |} with
    | inl _ => Ok SaveUnchanged
    | inr acc =>
        Ok match to_update acc, by_current acc with
           | Some x, _ => SaveUpdate x
           | None, [x] => SaveUpdate x
           | None, _ => SaveAdd
           end
    end.

Definition unchanged_or_add (related : list Suggestion) (user : option (list Z)) (pw : list Z) (v : VaultService)
    : Result SaveAction :=
  a ← save_action related user pw None v;
  Ok match a with SaveUnchanged => SaveUnchanged | _ => SaveAdd end.

Definition check_login (page_url : list Z) (top_url : option (list Z)) (user : option (list Z)) (pw : list Z)
    (current : option (list Z)) (v : VaultService) : Result SaveAction :=
  candidates ← direct_matches page_url top_url v;
  action ← save_action candidates user pw current v;
  policy ← match_policy v;
  if negb (bool_decide (action = SaveAdd)) || is_direct policy then Ok action
  else
    related ← page_matches page_url top_url policy v;
    unchanged_or_add related user pw v.

Definition stage_save_update (new_id : nat -> Z) (item : Z) (page_url : list Z) (top_url : option (list Z))
    (pw : list Z) (now_ms : Z) (r1 r2 : option (list Z)) (v : VaultService) : Result StagedSave :=
  existing ← authorize_with item page_url top_url DIRECT v;
  if negb (bool_decide (item_type existing = Login)) then Err Denied
  else
    w ← stage_update new_id item
          (with_save (username existing) (SetTo pw) (sign_in_with existing) (login_input_from existing))
          now_ms r1 r2 v;
    Ok {| save_write := w; save_item := item |}.

Definition stage_save_login (new_id : nat -> Z) (fresh : Z) (page_url : list Z) (top_url : option (list Z))
    (user : option (list Z)) (pw : list Z) (target : SaveTarget) (now_ms : Z) (r1 r2 : option (list Z))
    (v : VaultService) : Result StagedSave :=
  if bool_decide (pw = []) then Err (InvalidInput "password is required")
  else
    _ ← session v;
    match target with
    | UpdateLogin item => stage_save_update new_id item page_url top_url pw now_ms r1 r2 v
    | NewLogin t =>
        base ← new_login_for_frame page_url top_url t;
        w ← stage_create new_id fresh (with_save user (SetTo pw) None base) now_ms r1 r2 v;
        Ok {| save_write := w; save_item := sw_item w |}
    end.

Definition stage_save_sso (new_id : nat -> Z) (fresh : Z) (page_url : list Z) (top_url : option (list Z))
    (p : SsoProvider) (account : option (list Z)) (target : SaveTarget) (now_ms : Z) (r1 r2 : option (list Z))
    (v : VaultService) : Result StagedSave :=
  _ ← session v;
  let sso := Some {| provider := p; sso_account := account |} in
  match target with
  | NewLogin t =>
      base ← new_login_for_frame page_url top_url t;
      w ← stage_create new_id fresh (with_save (in_username base) (in_password base) sso base) now_ms r1 r2 v;
      Ok {| save_write := w; save_item := sw_item w |}
  | UpdateLogin item =>
      if is_none (trimmed_nonempty account) then Err (InvalidInput "account is required")
      else
        existing ← authorize_with item page_url top_url DIRECT v;
        if negb (bool_decide (provider <$> sign_in_with existing = Some p)) then Err Denied
        else
          w ← stage_update new_id item
                (with_save (username existing) Keep sso (login_input_from existing)) now_ms r1 r2 v;
          Ok {| save_write := w; save_item := item |}
  end.

Definition confirm_update_summary (item : Z) (page_url : list Z) (v : VaultService) : Result ConfirmUpdate :=
  s ← session v;
  o ← ok_or NotFound (overviews s !! item);
  site ← ok_or Denied (page_parse page_url ≫= site_of);
  Ok {| cu_item := item; cu_title := title o; cu_username := username o; cu_site := site |}.
End Page.

(** ** Lemmas *)

Section Lemmas.
Context {C : Crypto} {K : KeyLib} {U : Unicode} {J : JsonLib} {UL : UrlLib} {SL : SiteLib UL} {L : TotpLib}.

(** What a successful match of a page says: one of the item's rules applies
    to the frame, and one to the page embedding it. *)
Definition page_allowed (o : ItemOverview) (p : PageContext) (policy : MatchPolicy) : Prop :=
  is_site_bound (item_type o) = true /\
  (exists r st, r ∈ urls o /\ applies r (frame p) policy st) /\
  (forall t, top p = Some t -> exists r st, r ∈ urls o /\ applies r t policy st).

Lemma match_item_some o page policy st :
  match_item o page policy = Some st -> exists r t, r ∈ urls o /\ applies r page policy t.
Proof.
  unfold match_item. intros [Hin _]%strongest_Some.
  apply list_elem_of_omap in Hin as (r & Hr & Hm). exists r, st. by rewrite <- match_rule_iff.
Qed.

Lemma context_matches_some p o policy st :
  context_matches p o policy = Some st ->
  (exists r t, r ∈ urls o /\ applies r (frame p) policy t) /\
  (forall u, top p = Some u -> exists r t, r ∈ urls o /\ applies r u policy t).
Proof.
  unfold context_matches. destruct (match_item o (frame p) policy) as [f|] eqn:Ef; [|done].
  cbn [mbind option_bind]. split; [by eapply match_item_some|]. intros u Hu. rewrite Hu in *.
  destruct (match_item o u policy) as [t|] eqn:Et; [|done]. by eapply match_item_some.
Qed.

Lemma authorize_with_ok item page_url top_url policy v o :
  authorize_with item page_url top_url policy v = Ok o ->
  exists s p, session v = Ok s /\ overviews s !! item = Some o /\
    context_parse page_url top_url = Some p /\ page_allowed o p policy.
Proof.
  unfold authorize_with. intros (s & Hs & H)%bind_Ok. apply bind_Ok in H as (o' & Ho & H).
  apply bind_Ok in H as (p & Hp & H). destruct (overviews s !! item) as [x|] eqn:Ex; [|done].
  apply (inj Ok) in Ho. subst x. destruct (context_parse page_url top_url) as [q|] eqn:Eq; [|done].
  apply (inj Ok) in Hp. subst q. destruct (_ || _) eqn:Ed; [done|]. apply (inj Ok) in H. subst o'.
  apply orb_false_iff in Ed as [Eb Em]. apply negb_false_iff in Eb.
  destruct (context_matches p o policy) as [st|] eqn:Em'; [|done].
  apply context_matches_some in Em' as [Hf Ht]. exists s, p. done.
Qed.

Lemma page_matches_in page_url top_url policy v l c :
  page_matches page_url top_url policy v = Ok l -> c ∈ l ->
  exists s p o st, session v = Ok s /\ context_parse page_url top_url = Some p /\
    o ∈ Items.values (overviews s) /\ is_site_bound (item_type o) = true /\
    context_matches p o policy = Some st /\ c = suggestion o st.
Proof.
  unfold page_matches. intros (s & Hs & H)%bind_Ok Hc.
  destruct (context_parse page_url top_url) as [p|] eqn:Ep; apply (inj Ok) in H; subst l;
    [|by apply elem_of_nil in Hc].
  rewrite sort_by_key_perm in Hc. apply list_elem_of_omap in Hc as (o & Ho & Hc).
  apply list_elem_of_In, List.filter_In in Ho as [Ho%list_elem_of_In Hb].
  destruct (context_matches p o policy) as [st|] eqn:Em; [|done]. cbn in Hc. injection Hc as <-.
  exists s, p, o, st. done.
Qed.

(** A scan that ends without [Unchanged] updates only a login candidate
    whose username is the one typed (or whose password is the current one). *)
Definition may_update (wanted current : option (list Z)) (v : VaultService) (c : Suggestion) : Prop :=
  kind c = MkLogin /\
  (normalize_username (sg_username c) = wanted \/
   (wanted = None \/ normalize_username (sg_username c) = wanted) /\
   exists l cur, load_details (sg_id c) v = Ok (DLogin l) /\ current = Some cur /\
     some_with (fun s => secrets_equal s cur) (password l) = true).

Lemma scan_candidate_ok wanted pw current v acc c acc' :
  scan_candidate wanted pw current v acc c = inr acc' ->
  (forall x, to_update acc' = Some x ->
     to_update acc = Some x \/ x = sg_id c /\ may_update wanted current v c) /\
  (forall x, x ∈ by_current acc' -> x ∈ by_current acc \/ x = sg_id c /\ may_update wanted current v c).
Proof.
  unfold scan_candidate. destruct (kind c) eqn:Ek.
  2:{ destruct (load_details (sg_id c) v) as [[]|]; [..|]; try (intros [= <-]; split; auto; fail).
      destruct (some_with _ _); [done|]. intros [= <-]. split; auto. }
  cbv zeta. destruct (bool_decide_reflect (normalize_username (sg_username c) = wanted)) as [Hu|Hu]; cbn [negb andb].
  - destruct (some_with _ _); [done|]. intros [= <-]. cbn [to_update by_current]. split.
    + intros x. destruct (to_update acc); cbn [is_none]; [auto|]. intros [= <-]. right. split; [done|]. by split; [|left].
    + intros x Hx. destruct (match match load_details (sg_id c) v with Ok (DLogin l) => password l | _ => None end with
        Some _ => _ | None => _ end); [|auto].
      apply elem_of_app in Hx as [Hx|Hx%list_elem_of_singleton]; [auto|]. right. split; [done|]. by split; [|left].
  - destruct wanted as [w|]; cbn [is_some is_none negb]; [intros [= <-]; auto|].
    destruct (load_details (sg_id c) v) as [[l| | | |]|] eqn:El; cbn [some_with];
      try (intros [= <-]; cbn [to_update by_current]; split; auto; fail).
    destruct (some_with _ _) eqn:Es; [done|]. intros [= <-]. cbn [to_update by_current]. split; [auto|].
    intros x Hx. destruct (password l) as [s|] eqn:Ep; [|auto].
    destruct current as [cur|] eqn:Ec; [|auto]. destruct (secrets_equal s cur) eqn:Eq; [|auto].
    apply elem_of_app in Hx as [Hx|Hx%list_elem_of_singleton]; [auto|]. right. split; [done|].
    split; [done|]. right. split; [by left|]. exists l, cur. rewrite Ep. done.
Qed.

Lemma scan_candidates_ok wanted pw current v l acc acc' :
  scan_candidates wanted pw current v l acc = inr acc' ->
  (forall x, to_update acc' = Some x \/ x ∈ by_current acc' ->
     to_update acc = Some x \/ x ∈ by_current acc \/
     exists c, c ∈ l /\ x = sg_id c /\ may_update wanted current v c).
Proof.
  revert acc. induction l as [|c l IH]; intros acc; cbn [scan_candidates].
  { intros [= <-] x [H|H]; auto. }
  destruct (scan_candidate wanted pw current v acc c) as [|acc1] eqn:E; [done|].
  apply scan_candidate_ok in E as [H1 H2]. intros H x Hx. apply (IH _ H) in Hx as [Hx|[Hx|(c' & Hc & Hx)]].
  - destruct (H1 x Hx) as [?|?]; [auto|]. right. right. exists c. split; [by left|done].
  - destruct (H2 x Hx) as [?|?]; [auto|]. right. right. exists c. split; [by left|done].
  - right. right. exists c'. split; [by right|done].
Qed.

Lemma save_action_update candidates user pw current v x :
  save_action candidates user pw current v = Ok (SaveUpdate x) ->
  exists c, c ∈ candidates /\ x = sg_id c /\
    may_update (normalize_username user) (match current with Some [] => None | c => c end) v c.
Proof.
  unfold save_action. destruct (bool_decide _); [done|]. cbv zeta.
  destruct (scan_candidates _ _ _ _ _ _) as [|acc] eqn:E; [done|].
  pose proof (scan_candidates_ok _ _ _ _ _ _ _ E) as H. cbn [to_update by_current] in H.
  destruct (to_update acc) as [y|] eqn:Eu.
  - intros [= <-]. destruct (H y) as [?|[?%elem_of_nil|?]]; [by left|done..].
  - destruct (by_current acc) as [|y [|]] eqn:Eb; [done| |done]. intros [= <-].
    destruct (H y) as [?|[?%elem_of_nil|?]]; [right; by left|done..].
Qed.
End Lemmas.

(** ** Properties *)

Section Properties.
Context {C : Crypto} {K : KeyLib} {U : Unicode} {J : JsonLib} {UL : UrlLib} {SL : SiteLib UL} {L : TotpLib}.

(** C5: credentials leave for a page only when the vault is unlocked and the
    item's own rules allow the page: the item is a login or bank account,
    one of its websites applies to the frame and, for an iframe, one applies
    to the page embedding it, under the vault's own equivalence setting.
    What leaves is that item's username and password (or bank values), and
    nothing but the record of recent fills changes.  A refused request
    changes nothing at all. *)
Theorem fill_authorized item page_url top_url now v v' r :
  fill_for_page item page_url top_url now v = (v', r) ->
  store v' = store v /\ epoch v' = epoch v /\ state v' = state v /\
  match r with
  | Err _ => v' = v
  | Ok creds =>
      exists s p o d, session v = Ok s /\ overviews s !! item = Some o /\
        context_parse page_url top_url = Some p /\
        page_allowed o p {| Origin.equivalent_domains := Model.equivalent_domains (ses_settings s) |} /\
        load_details item v = Ok d /\
        (exists fills, session v' = Ok (with_fills fills s)) /\
        match d with
        | DLogin l => creds = {| fc_username := username o; fc_password := password l; fc_bank := None |}
        | DBank b => creds = {| fc_username := None; fc_password := b_password b; fc_bank := bank_values b |}
        | _ => False
        end
  end.
Proof.
  unfold fill_for_page. mrun.
  destruct (authorize_for_page item page_url top_url v) as [o|e] eqn:Ea; [|by intros [= <- <-]].
  unfold authorize_for_page in Ea. apply bind_Ok in Ea as (policy & Hp & Ha).
  apply authorize_with_ok in Ha as (s & p & Hs & Ho & Hc & Hal).
  unfold match_policy in Hp. rewrite Hs in Hp. cbn [mbind result_bind] in Hp. apply (inj Ok) in Hp. subst policy.
  mrun. destruct (fill_reply item (username o) v) as [creds|e] eqn:Ef; [|by intros [= <- <-]].
  unfold fill_reply in Ef. apply bind_Ok in Ef as (d & Hd & Hf).
  assert (exists fills v1, (if bool_decide (item_type o = Login) && is_some (fc_password creds)
       then record_fill item page_url now else mret ()) v = (v1, Ok ()) /\
       store v1 = store v /\ epoch v1 = epoch v /\ state v1 = state v /\ session v1 = Ok (with_fills fills s))
    as (fills & v1 & Hrun & H1 & H2 & H3 & H4).
  { assert (session v = Ok (with_fills (recent_fills s) s)) as Hsame by (rewrite Hs; by destruct s).
    destruct (_ && _); [|exists (recent_fills s), v; done]. unfold record_fill.
    destruct (page_parse page_url ≫= site_of) as [site|]; [|exists (recent_fills s), v; done].
    unfold modify_session. rewrite Hs. eexists _, _. split; [reflexivity|]. cbn.
    unfold session in Hs |- *. cbn. destruct (state v); done. }
  erewrite run_bind by exact Hrun. intros [= <- <-]. split_and!; [done..|].
  exists s, p, o, d. split_and!; [done..|by exists fills|]. destruct d; try done; by apply (inj Ok) in Hf.
Qed.

(** A save prompt proposes to change a login only where that login is
    saved: the item is live, is a login (never a bank account), one of its
    websites applies directly to the frame and the embedding page (the
    equivalent-domains setting never widens an update), and either its
    username is the typed one, or it was found by the current password. *)
Lemma check_login_updates_direct page_url top_url user pw current v x :
  check_login page_url top_url user pw current v = Ok (SaveUpdate x) ->
  exists s p o, session v = Ok s /\ context_parse page_url top_url = Some p /\
    o ∈ Items.values (overviews s) /\ Model.id o = x /\ item_type o = Login /\ page_allowed o p DIRECT /\
    (normalize_username (username o) = normalize_username user \/
     exists l cur, load_details x v = Ok (DLogin l) /\ current = Some cur /\
       some_with (fun s => secrets_equal s cur) (password l) = true).
Proof.
  unfold check_login. intros (cands & Hc & H)%bind_Ok. apply bind_Ok in H as (act & Ha & H).
  apply bind_Ok in H as (policy & _ & H).
  assert (act = SaveUpdate x) as ->.
  { destruct (_ || _); [by apply (inj Ok) in H|]. apply bind_Ok in H as (rel & _ & H).
    unfold unchanged_or_add in H. apply bind_Ok in H as (a & _ & H). apply (inj Ok) in H. by destruct a. }
  apply save_action_update in Ha as (c & Hin & -> & Hk & Hm).
  unfold direct_matches in Hc. destruct (page_matches_in _ _ _ _ _ _ Hc Hin) as (s & p & o & st & Hs & Hp & Ho & Hb & Hctx & ->).
  exists s, p, o. cbn [suggestion kind sg_id sg_username] in *.
  assert (item_type o = Login) as Hl.
  { destruct (decide (item_type o = BankAccount)); [done|]. by destruct (item_type o). }
  split_and!; [done..|split; [done|by apply (context_matches_some _ _ _ _ Hctx)]|].
  destruct Hm as [?|[_ (l & cur & Hd & Hcur & He)]]; [by left|right].
  exists l, cur. split_and!; [done| |done]. by destruct current as [[|]|].
Qed.
End Properties.
