(* ===== verification/IdentityPage.v ===== *)
(** * The Identity for web pages and apps (crates/havenkeys-core/src/identity_page.rs)

    The identity is bound to no site: what a page gets is limited to an
    http(s) page, a frame of the tab's own site, the roles asked for, and its
    documents to a confirmed request on https. *)

From S2P Require Import Prelude Errors Text Blob Url Tags Totp Clean Card Identity.
From S2P Require Import CustomField Bank Sso Attachment Model Keys Store Origin Health BuildItem.
From S2P Require Import Vault Items Page.

Definition MAX_SUMMARY_TITLE_BYTES : Z := 4 * 256.

Record IdentitySummary := { is_title : list Z; is_email : option (list Z); is_roles : list FillRole }.

(** The longest prefix of at most [n] bytes. *)
Fixpoint truncate_bytes (n : Z) (s : list Z) : list Z :=
  match s with
  | c :: s' => if str_len [c] <=? n then c :: truncate_bytes (n - str_len [c]) s' else []
  | [] => []
  end.

Section IdentityPage.
Context {C : Crypto} {K : KeyLib} {U : Unicode} {J : JsonLib} {UL : UrlLib} {SL : SiteLib UL} {L : TotpLib}.

Definition checked_page (page_url : list Z) (top_url : option (list Z)) : Result Url :=
  page ← ok_or Denied (page_parse page_url);
  match top_url with
  | Some t => top ← ok_or Denied (page_parse t); if same_site page top then Ok page else Err Denied
  | None => Ok page
  end.

Definition identity_item_id (v : VaultService) : Result Z := s ← session v; Ok (identity_id s).

Definition identity_id_for_page (page_url : list Z) (top_url : option (list Z)) (v : VaultService) : Result Z :=
  item ← identity_item_id v;
  _ ← checked_page page_url top_url;
  _ ← get_item item v;
  Ok item.

Definition has_role (f : IdentityFields) (r : FillRole) : bool := Model.is_some (fill_value f r).

Definition identity_summary (item : Z) (v : VaultService) : Result IdentitySummary :=
  o ← get_item item v;
  f ← reveal_identity item v;
  Ok {| is_title := truncate_bytes MAX_SUMMARY_TITLE_BYTES (title o); is_email := username o;
        is_roles := List.filter (has_role f) ALL_ROLES |}.

Definition identity_values (roles : list FillRole) (documents : bool) (v : VaultService)
    : Result (list (FillRole * list Z)) :=
  item ← identity_item_id v;
  f ← reveal_identity item v;
  Ok (omap (fun r => (fun x => (r, x)) <$> fill_value f r)
        (List.filter (fun r => negb (is_document r) || documents) roles)).

Definition identity_summary_for_page (page_url : list Z) (top_url : option (list Z)) (v : VaultService)
    : Result IdentitySummary :=
  item ← identity_id_for_page page_url top_url v; identity_summary item v.

Definition identity_values_for_page (page_url : list Z) (top_url : option (list Z)) (roles : list FillRole)
    (documents : bool) (v : VaultService) : Result (list (FillRole * list Z)) :=
  _ ← identity_item_id v;
  page ← checked_page page_url top_url;
  identity_values roles (documents && is_https page) v.

Definition identity_summary_for_app (v : VaultService) : Result IdentitySummary :=
  item ← identity_item_id v; identity_summary item v.
Definition identity_values_for_app (roles : list FillRole) (documents : bool) (v : VaultService)
    : Result (list (FillRole * list Z)) := identity_values roles documents v.
End IdentityPage.

(** ** What a page gets *)

Lemma truncate_bytes_spec n s : 0 <= n ->
  str_len (truncate_bytes n s) <= n /\ (str_len s <= n -> truncate_bytes n s = s) /\ exists r, s = truncate_bytes n s ++ r.
Proof.
  revert n. induction s as [|c s IH]; intros n Hn; cbn [truncate_bytes]; [by split_and!; [|done|exists []]|].
  change (c :: s) with ([c] ++ s). rewrite str_len_app.
  destruct (Z.leb_spec (str_len [c]) n) as [Hc|Hc].
  - destruct (IH (n - str_len [c])) as (I1 & I2 & r & I3); [lia|].
    change (c :: truncate_bytes (n - str_len [c]) s) with ([c] ++ truncate_bytes (n - str_len [c]) s). rewrite str_len_app.
    split_and!; [lia| |exists r; by rewrite <- app_assoc, <- I3].
    intros H. rewrite I2; [done|lia].
  - split_and!; [by cbn| |by exists ([c] ++ s)]. pose proof (str_len_pos s). lia.
Qed.

Section Facts.
Context {C : Crypto} {K : KeyLib} {U : Unicode} {J : JsonLib} {UL : UrlLib} {SL : SiteLib UL} {L : TotpLib}.

(** A frame is checked against the tab. *)
Definition own_frame (page_url : list Z) (top_url : option (list Z)) (page : Url) : Prop :=
  page_parse page_url = Some page /\
  forall t, top_url = Some t -> exists top, page_parse t = Some top /\ same_site page top = true.

Lemma checked_page_ok page_url top_url page : checked_page page_url top_url = Ok page -> own_frame page_url top_url page.
Proof.
  unfold checked_page. intros (p & Hp & H)%bind_Ok. apply ok_or_Ok in Hp. destruct top_url as [t|].
  - apply bind_Ok in H as (top & Ht & H). apply ok_or_Ok in Ht. destruct (same_site p top) eqn:E; [|done].
    injection H as <-. split; [done|]. intros ? [= <-]. by exists top.
  - by injection H as <-.
Qed.

Lemma identity_values_in roles documents v l r x :
  identity_values roles documents v = Ok l -> (r, x) ∈ l ->
  r ∈ roles /\ (is_document r = true -> documents = true) /\
  exists s f, session v = Ok s /\ reveal_identity (identity_id s) v = Ok f /\ fill_value f r = Some x.
Proof.
  unfold identity_values, identity_item_id. intros (i & (s & Hs & [= <-])%bind_Ok & (f & Hf & [= <-])%bind_Ok)%bind_Ok X.
  apply list_elem_of_omap in X as (r' & Hin & E). destruct (fill_value f r') as [y|] eqn:Ef; [|done]. injection E as <- <-.
  apply list_elem_of_In, filter_In in Hin as [Hin Hd]. split_and!; [by apply list_elem_of_In| |by exists s, f].
  intros Hdoc. by rewrite Hdoc in Hd.
Qed.

(** What a page gets of the identity: values of roles it asked for, for a
    frame of the tab's own site, and its documents only confirmed and on
    https. *)
Lemma identity_for_page page_url top_url roles documents v l r x :
  identity_values_for_page page_url top_url roles documents v = Ok l -> (r, x) ∈ l ->
  exists page, own_frame page_url top_url page /\ r ∈ roles /\
    (is_document r = true -> documents = true /\ is_https page = true) /\
    exists s f, session v = Ok s /\ reveal_identity (identity_id s) v = Ok f /\ fill_value f r = Some x.
Proof.
  unfold identity_values_for_page. intros (i & _ & (page & Hp%checked_page_ok & H)%bind_Ok)%bind_Ok X.
  destruct (identity_values_in _ _ _ _ _ _ H X) as (Hr & Hd & Hf). exists page. split_and!; [done|done| |done].
  intros Hdoc. by apply andb_true_iff, Hd.
Qed.
End Facts.
