(* ===== verification/ToyCodec.v ===== *)
(** * Concrete libraries for the witnesses

    A codec of every stored type (a value's code as one number, a record's as
    the list of its fields' codes), a key library and a well-formed JSON test:
    they satisfy the laws the theorems ask for, so the hypotheses can hold.
    Used by the witnesses only. *)

From S2P Require Import Prelude Errors Text Blob Url Tags Totp Clean Card Identity.
From S2P Require Import CustomField Bank Generator Sso Attachment Model Keys Store Origin Health.
From S2P Require Import BuildItem Vault.


#[export] Instance TotpAlgorithm_countable : Countable TotpAlgorithm.
Proof.
  apply (inj_countable' (fun x => match x with Sha1 => 0%nat | Sha256 => 1%nat | Sha512 => 2%nat end) (fun n => match n with 0%nat => Sha1 | 1%nat => Sha256 | _ => Sha512 end)).
  by intros [].
Defined.

#[export] Instance TotpConfig_countable : Countable TotpConfig.
Proof.
  apply (inj_countable (fun x => [encode (secret x); encode (algorithm x); encode (digits x); encode (period x); encode (issuer x); encode (Totp.account x)])
    (fun l => match l with
     | [x0; x1; x2; x3; x4; x5] => x0 ← decode x0; x1 ← decode x1; x2 ← decode x2; x3 ← decode x3; x4 ← decode x4; x5 ← decode x5; Some {| secret := x0; algorithm := x1; digits := x2; period := x3; issuer := x4; Totp.account := x5 |}
     | _ => None end)). intros []. cbn -[encode decode]. by rewrite !decode_encode.
Defined.

#[export] Instance AddressValue_countable : Countable AddressValue.
Proof.
  apply (inj_countable (fun x => [encode (a_street x); encode (a_number x); encode (a_complement x); encode (a_neighborhood x); encode (a_city x); encode (a_state x); encode (a_postal_code x); encode (a_country x)])
    (fun l => match l with
     | [x0; x1; x2; x3; x4; x5; x6; x7] => x0 ← decode x0; x1 ← decode x1; x2 ← decode x2; x3 ← decode x3; x4 ← decode x4; x5 ← decode x5; x6 ← decode x6; x7 ← decode x7; Some {| a_street := x0; a_number := x1; a_complement := x2; a_neighborhood := x3; a_city := x4; a_state := x5; a_postal_code := x6; a_country := x7 |}
     | _ => None end)). intros []. cbn -[encode decode]. by rewrite !decode_encode.
Defined.

#[export] Instance FieldValue_countable : Countable FieldValue.
Proof.
  apply (inj_countable' (fun x => match x with VText a0 => inl (a0) | VUrl a0 => inr (inl (a0)) | VEmail a0 => inr (inr (inl (a0))) | VPhone a0 => inr (inr (inr (inl (a0)))) | VDate a0 => inr (inr (inr (inr (inl (a0))))) | VAddress a0 => inr (inr (inr (inr (inr (inl (a0)))))) | VPassword a0 => inr (inr (inr (inr (inr (inr (inl (a0))))))) | VOtp a0 => inr (inr (inr (inr (inr (inr (inr (a0))))))) end)
    (fun y => match y with inl (a0) => VText a0 | inr (inl (a0)) => VUrl a0 | inr (inr (inl (a0))) => VEmail a0 | inr (inr (inr (inl (a0)))) => VPhone a0 | inr (inr (inr (inr (inl (a0))))) => VDate a0 | inr (inr (inr (inr (inr (inl (a0)))))) => VAddress a0 | inr (inr (inr (inr (inr (inr (inl (a0))))))) => VPassword a0 | inr (inr (inr (inr (inr (inr (inr (a0))))))) => VOtp a0 end)). by intros [].
Defined.

#[export] Instance CustomField_countable : Countable CustomField.CustomField.
Proof.
  apply (inj_countable (fun x => [encode (f_id x); encode (f_label x); encode (f_value x)])
    (fun l => match l with
     | [x0; x1; x2] => x0 ← decode x0; x1 ← decode x1; x2 ← decode x2; Some {| f_id := x0; f_label := x1; f_value := x2 |}
     | _ => None end)). intros []. cbn -[encode decode]. by rewrite !decode_encode.
Defined.

#[export] Instance FieldSection_countable : Countable FieldSection.
Proof.
  apply (inj_countable (fun x => [encode (s_id x); encode (s_title x); encode (s_fields x)])
    (fun l => match l with
     | [x0; x1; x2] => x0 ← decode x0; x1 ← decode x1; x2 ← decode x2; Some {| s_id := x0; s_title := x1; s_fields := x2 |}
     | _ => None end)). intros []. cbn -[encode decode]. by rewrite !decode_encode.
Defined.

#[export] Instance AppBinding_countable : Countable AppBinding.
Proof.
  apply (inj_countable (fun x => [encode (package x); encode (cert_sha256 x)])
    (fun l => match l with
     | [x0; x1] => x0 ← decode x0; x1 ← decode x1; Some {| package := x0; cert_sha256 := x1 |}
     | _ => None end)). intros []. cbn -[encode decode]. by rewrite !decode_encode.
Defined.

#[export] Instance PreviousPassword_countable : Countable PreviousPassword.
Proof.
  apply (inj_countable (fun x => [encode (pp_password x); encode (replaced_at x)])
    (fun l => match l with
     | [x0; x1] => x0 ← decode x0; x1 ← decode x1; Some {| pp_password := x0; replaced_at := x1 |}
     | _ => None end)). intros []. cbn -[encode decode]. by rewrite !decode_encode.
Defined.

#[export] Instance Passkey_countable : Countable Passkey.
Proof.
  apply (inj_countable (fun x => [encode (credential_id x); encode (rp_id x); encode (user_handle x); encode (user_name x); encode (Model.display_name x); encode (private_key x); encode (pk_created_at x); encode (pk_replaced_at x)])
    (fun l => match l with
     | [x0; x1; x2; x3; x4; x5; x6; x7] => x0 ← decode x0; x1 ← decode x1; x2 ← decode x2; x3 ← decode x3; x4 ← decode x4; x5 ← decode x5; x6 ← decode x6; x7 ← decode x7; Some {| credential_id := x0; rp_id := x1; user_handle := x2; user_name := x3; Model.display_name := x4; private_key := x5; pk_created_at := x6; pk_replaced_at := x7 |}
     | _ => None end)). intros []. cbn -[encode decode]. by rewrite !decode_encode.
Defined.

#[export] Instance HealthCheck_countable : Countable HealthCheck.
Proof.
  apply (inj_countable' (fun x => match x with Weak => 0%nat | Reused => 1%nat | Old => 2%nat | PasskeyCheck => 3%nat | TwoFactor => 4%nat | Insecure => 5%nat | Duplicate => 6%nat end) (fun n => match n with 0%nat => Weak | 1%nat => Reused | 2%nat => Old | 3%nat => PasskeyCheck | 4%nat => TwoFactor | 5%nat => Insecure | _ => Duplicate end)).
  by intros [].
Defined.

#[export] Instance LoginDetails_countable : Countable LoginDetails.
Proof.
  apply (inj_countable (fun x => [encode (password x); encode (totp x); encode (notes x); encode (password_history x); encode (passkeys x); encode (sections x); encode (app_bindings x); encode (health_ignored x)])
    (fun l => match l with
     | [x0; x1; x2; x3; x4; x5; x6; x7] => x0 ← decode x0; x1 ← decode x1; x2 ← decode x2; x3 ← decode x3; x4 ← decode x4; x5 ← decode x5; x6 ← decode x6; x7 ← decode x7; Some {| password := x0; totp := x1; notes := x2; password_history := x3; passkeys := x4; sections := x5; app_bindings := x6; health_ignored := x7 |}
     | _ => None end)). intros []. cbn -[encode decode]. by rewrite !decode_encode.
Defined.

#[export] Instance IdCustomField_countable : Countable IdCustomField.
Proof.
  apply (inj_countable (fun x => [encode (idc_label x); encode (idc_value x); encode (idc_hidden x)])
    (fun l => match l with
     | [x0; x1; x2] => x0 ← decode x0; x1 ← decode x1; x2 ← decode x2; Some {| idc_label := x0; idc_value := x1; idc_hidden := x2 |}
     | _ => None end)). intros []. cbn -[encode decode]. by rewrite !decode_encode.
Defined.

#[export] Instance IdentityFields_countable : Countable IdentityFields.
Proof.
  apply (inj_countable (fun x => [encode (first_name x); encode (middle_name x); encode (last_name x); encode (gender x); encode (birth_date x); encode (occupation x); encode (company x); encode (job_title x); encode (cpf x); encode (rg x); encode (passport x); encode (drivers_license x); encode (id_email x); encode (mobile_phone x); encode (home_phone x); encode (work_phone x); encode (street x); encode (addr_number x); encode (Identity.complement x); encode (neighborhood x); encode (city x); encode (Identity.state x); encode (postal_code x); encode (country x); encode (id_username x); encode (website x); encode (custom x); encode (id_notes x)])
    (fun l => match l with
     | [x0; x1; x2; x3; x4; x5; x6; x7; x8; x9; x10; x11; x12; x13; x14; x15; x16; x17; x18; x19; x20; x21; x22; x23; x24; x25; x26; x27] => x0 ← decode x0; x1 ← decode x1; x2 ← decode x2; x3 ← decode x3; x4 ← decode x4; x5 ← decode x5; x6 ← decode x6; x7 ← decode x7; x8 ← decode x8; x9 ← decode x9; x10 ← decode x10; x11 ← decode x11; x12 ← decode x12; x13 ← decode x13; x14 ← decode x14; x15 ← decode x15; x16 ← decode x16; x17 ← decode x17; x18 ← decode x18; x19 ← decode x19; x20 ← decode x20; x21 ← decode x21; x22 ← decode x22; x23 ← decode x23; x24 ← decode x24; x25 ← decode x25; x26 ← decode x26; x27 ← decode x27; Some {| first_name := x0; middle_name := x1; last_name := x2; gender := x3; birth_date := x4; occupation := x5; company := x6; job_title := x7; cpf := x8; rg := x9; passport := x10; drivers_license := x11; id_email := x12; mobile_phone := x13; home_phone := x14; work_phone := x15; street := x16; addr_number := x17; Identity.complement := x18; neighborhood := x19; city := x20; Identity.state := x21; postal_code := x22; country := x23; id_username := x24; website := x25; custom := x26; id_notes := x27 |}
     | _ => None end)). intros []. cbn -[encode decode]. by rewrite !decode_encode.
Defined.

#[export] Instance CardBrand_countable : Countable CardBrand.
Proof.
  apply (inj_countable' (fun x => match x with Visa => 0%nat | Mastercard => 1%nat | Amex => 2%nat | Elo => 3%nat | Hipercard => 4%nat | Diners => 5%nat | Discover => 6%nat | Jcb => 7%nat | Unionpay => 8%nat | Maestro => 9%nat | BrandOther => 10%nat end) (fun n => match n with 0%nat => Visa | 1%nat => Mastercard | 2%nat => Amex | 3%nat => Elo | 4%nat => Hipercard | 5%nat => Diners | 6%nat => Discover | 7%nat => Jcb | 8%nat => Unionpay | 9%nat => Maestro | _ => BrandOther end)).
  by intros [].
Defined.

#[export] Instance CardExpiry_countable : Countable CardExpiry.
Proof.
  apply (inj_countable (fun x => [encode (year x); encode (month x)])
    (fun l => match l with
     | [x0; x1] => x0 ← decode x0; x1 ← decode x1; Some {| year := x0; month := x1 |}
     | _ => None end)). intros []. cbn -[encode decode]. by rewrite !decode_encode.
Defined.

#[export] Instance CardFields_countable : Countable CardFields.
Proof.
  apply (inj_countable (fun x => [encode (cardholder_name x); encode (cf_brand x); encode (number x); encode (verification_number x); encode (expiry x); encode (cf_notes x)])
    (fun l => match l with
     | [x0; x1; x2; x3; x4; x5] => x0 ← decode x0; x1 ← decode x1; x2 ← decode x2; x3 ← decode x3; x4 ← decode x4; x5 ← decode x5; Some {| cardholder_name := x0; cf_brand := x1; number := x2; verification_number := x3; expiry := x4; cf_notes := x5 |}
     | _ => None end)). intros []. cbn -[encode decode]. by rewrite !decode_encode.
Defined.

#[export] Instance CardSummary_countable : Countable CardSummary.
Proof.
  apply (inj_countable (fun x => [encode (cs_brand x); encode (last4 x); encode (cs_expiry x)])
    (fun l => match l with
     | [x0; x1; x2] => x0 ← decode x0; x1 ← decode x1; x2 ← decode x2; Some {| cs_brand := x0; last4 := x1; cs_expiry := x2 |}
     | _ => None end)). intros []. cbn -[encode decode]. by rewrite !decode_encode.
Defined.

#[export] Instance BankAccountType_countable : Countable BankAccountType.
Proof.
  apply (inj_countable' (fun x => match x with Checking => 0%nat | Savings => 1%nat | Payment => 2%nat | TypeOther => 3%nat end) (fun n => match n with 0%nat => Checking | 1%nat => Savings | 2%nat => Payment | _ => TypeOther end)).
  by intros [].
Defined.

#[export] Instance BankAccountFields_countable : Countable BankAccountFields.
Proof.
  apply (inj_countable (fun x => [encode (Bank.bank x); encode (holder_name x); encode (account_type x); encode (branch x); encode (branch_digit x); encode (Bank.account x); encode (account_digit x); encode (b_password x); encode (b_notes x); encode (b_sections x); encode (b_app_bindings x)])
    (fun l => match l with
     | [x0; x1; x2; x3; x4; x5; x6; x7; x8; x9; x10] => x0 ← decode x0; x1 ← decode x1; x2 ← decode x2; x3 ← decode x3; x4 ← decode x4; x5 ← decode x5; x6 ← decode x6; x7 ← decode x7; x8 ← decode x8; x9 ← decode x9; x10 ← decode x10; Some {| Bank.bank := x0; holder_name := x1; account_type := x2; branch := x3; branch_digit := x4; Bank.account := x5; account_digit := x6; b_password := x7; b_notes := x8; b_sections := x9; b_app_bindings := x10 |}
     | _ => None end)). intros []. cbn -[encode decode]. by rewrite !decode_encode.
Defined.

#[export] Instance BankSummary_countable : Countable BankSummary.
Proof.
  apply (inj_countable (fun x => [encode (bs_bank x); encode (bs_branch x); encode (account_last3 x)])
    (fun l => match l with
     | [x0; x1; x2] => x0 ← decode x0; x1 ← decode x1; x2 ← decode x2; Some {| bs_bank := x0; bs_branch := x1; account_last3 := x2 |}
     | _ => None end)). intros []. cbn -[encode decode]. by rewrite !decode_encode.
Defined.

#[export] Instance ItemDetails_countable : Countable ItemDetails.
Proof.
  apply (inj_countable' (fun x => match x with DLogin a0 => inl (a0) | DNote a0 a1 => inr (inl ((a0, a1))) | DIdentity a0 => inr (inr (inl (a0))) | DCard a0 => inr (inr (inr (inl (a0)))) | DBank a0 => inr (inr (inr (inr (a0)))) end)
    (fun y => match y with inl (a0) => DLogin a0 | inr (inl ((a0, a1))) => DNote a0 a1 | inr (inr (inl (a0))) => DIdentity a0 | inr (inr (inr (inl (a0)))) => DCard a0 | inr (inr (inr (inr (a0)))) => DBank a0 end)). by intros [].
Defined.

#[export] Instance SsoProvider_countable : Countable SsoProvider.
Proof.
  apply (inj_countable' (fun x => match x with Google => 0%nat | Microsoft => 1%nat | Github => 2%nat | Apple => 3%nat | Facebook => 4%nat | Discord => 5%nat | X => 6%nat | Linkedin => 7%nat | Gitlab => 8%nat end) (fun n => match n with 0%nat => Google | 1%nat => Microsoft | 2%nat => Github | 3%nat => Apple | 4%nat => Facebook | 5%nat => Discord | 6%nat => X | 7%nat => Linkedin | _ => Gitlab end)).
  by intros [].
Defined.

#[export] Instance SignInWith_countable : Countable SignInWith.
Proof.
  apply (inj_countable (fun x => [encode (provider x); encode (sso_account x)])
    (fun l => match l with
     | [x0; x1] => x0 ← decode x0; x1 ← decode x1; Some {| provider := x0; sso_account := x1 |}
     | _ => None end)). intros []. cbn -[encode decode]. by rewrite !decode_encode.
Defined.

#[export] Instance ItemType_countable : Countable ItemType.
Proof.
  apply (inj_countable' (fun x => match x with Login => 0%nat | SecureNote => 1%nat | Identity => 2%nat | CardItem => 3%nat | BankAccount => 4%nat end) (fun n => match n with 0%nat => Login | 1%nat => SecureNote | 2%nat => Identity | 3%nat => CardItem | _ => BankAccount end)).
  by intros [].
Defined.

#[export] Instance MatchType_countable : Countable MatchType.
Proof.
  apply (inj_countable' (fun x => match x with Exact => 0%nat | Origin => 1%nat | Domain => 2%nat end) (fun n => match n with 0%nat => Exact | 1%nat => Origin | _ => Domain end)).
  by intros [].
Defined.

#[export] Instance UrlRule_countable : Countable UrlRule.
Proof.
  apply (inj_countable (fun x => [encode (url x); encode (match_type x)])
    (fun l => match l with
     | [x0; x1] => x0 ← decode x0; x1 ← decode x1; Some {| url := x0; match_type := x1 |}
     | _ => None end)). intros []. cbn -[encode decode]. by rewrite !decode_encode.
Defined.

#[export] Instance AttachmentMeta_countable : Countable AttachmentMeta.
Proof.
  apply (inj_countable (fun x => [encode (att_id x); encode (att_name x); encode (mime x); encode (Attachment.size x); encode (blob_sha256 x); encode (att_created_at x); encode (att_extra x)])
    (fun l => match l with
     | [x0; x1; x2; x3; x4; x5; x6] => x0 ← decode x0; x1 ← decode x1; x2 ← decode x2; x3 ← decode x3; x4 ← decode x4; x5 ← decode x5; x6 ← decode x6; Some {| att_id := x0; att_name := x1; mime := x2; Attachment.size := x3; blob_sha256 := x4; att_created_at := x5; att_extra := x6 |}
     | _ => None end)). intros []. cbn -[encode decode]. by rewrite !decode_encode.
Defined.

#[export] Instance ItemOverview_countable : Countable ItemOverview.
Proof.
  apply (inj_countable (fun x => [encode (Model.id x); encode (item_type x); encode (title x); encode (username x); encode (urls x); encode (has_password x); encode (has_totp x); encode (has_notes x); encode (has_passkey x); encode (auto_sign_in x); encode (sign_in_with x); encode (card x); encode (Model.bank x); encode (tags x); encode (trashed_at x); encode (attachments x); encode (extra x); encode (Model.created_at x); encode (updated_at x)])
    (fun l => match l with
     | [x0; x1; x2; x3; x4; x5; x6; x7; x8; x9; x10; x11; x12; x13; x14; x15; x16; x17; x18] => x0 ← decode x0; x1 ← decode x1; x2 ← decode x2; x3 ← decode x3; x4 ← decode x4; x5 ← decode x5; x6 ← decode x6; x7 ← decode x7; x8 ← decode x8; x9 ← decode x9; x10 ← decode x10; x11 ← decode x11; x12 ← decode x12; x13 ← decode x13; x14 ← decode x14; x15 ← decode x15; x16 ← decode x16; x17 ← decode x17; x18 ← decode x18; Some {| Model.id := x0; item_type := x1; title := x2; username := x3; urls := x4; has_password := x5; has_totp := x6; has_notes := x7; has_passkey := x8; auto_sign_in := x9; sign_in_with := x10; card := x11; Model.bank := x12; tags := x13; trashed_at := x14; attachments := x15; extra := x16; Model.created_at := x17; updated_at := x18 |}
     | _ => None end)). intros []. cbn -[encode decode]. by rewrite !decode_encode.
Defined.

#[export] Instance Theme_countable : Countable Theme.
Proof.
  apply (inj_countable' (fun x => match x with Dark => 0%nat | Light => 1%nat | System => 2%nat end) (fun n => match n with 0%nat => Dark | 1%nat => Light | _ => System end)).
  by intros [].
Defined.

#[export] Instance GeneratorOptions_countable : Countable GeneratorOptions.
Proof.
  apply (inj_countable (fun x => [encode (g_length x); encode (uppercase x); encode (lowercase x); encode (g_digits x); encode (symbols x); encode (avoid_ambiguous x)])
    (fun l => match l with
     | [x0; x1; x2; x3; x4; x5] => x0 ← decode x0; x1 ← decode x1; x2 ← decode x2; x3 ← decode x3; x4 ← decode x4; x5 ← decode x5; Some {| g_length := x0; uppercase := x1; lowercase := x2; g_digits := x3; symbols := x4; avoid_ambiguous := x5 |}
     | _ => None end)). intros []. cbn -[encode decode]. by rewrite !decode_encode.
Defined.

#[export] Instance Settings_countable : Countable Settings.
Proof.
  apply (inj_countable (fun x => [encode (auto_lock_minutes x); encode (clipboard_clear_seconds x); encode (theme x); encode (browser_integration x); encode (auto_passkey_upgrade x); encode (set_auto_sign_in x); encode (Model.equivalent_domains x); encode (generator x)])
    (fun l => match l with
     | [x0; x1; x2; x3; x4; x5; x6; x7] => x0 ← decode x0; x1 ← decode x1; x2 ← decode x2; x3 ← decode x3; x4 ← decode x4; x5 ← decode x5; x6 ← decode x6; x7 ← decode x7; Some {| auto_lock_minutes := x0; clipboard_clear_seconds := x1; theme := x2; browser_integration := x3; auto_passkey_upgrade := x4; set_auto_sign_in := x5; Model.equivalent_domains := x6; generator := x7 |}
     | _ => None end)). intros []. cbn -[encode decode]. by rewrite !decode_encode.
Defined.


Module ToyCodec.
Definition codec (A : Type) `{Countable A} : Codec A := {|
  to_json := fun a => [Zpos (encode a)];
  from_json := fun l => match l with [Zpos p] => decode p | _ => None end |}.

Lemma codec_laws (A : Type) `{Countable A} : @CodecLaws A (codec A).
Proof. intros a. cbn -[encode]. apply decode_encode. Qed.

#[export] Instance json_lib : JsonLib := {|
  settings_codec := codec Settings; overview_codec := codec ItemOverview; details_codec := codec ItemDetails;
  is_json := fun _ => true |}.

#[export] Instance json_laws : JsonLaws json_lib.
Proof. split; try apply codec_laws. done. Qed.

(** The master key spells out the password; every derived key is 32 bytes
    that spell out their inputs. *)
Definition spell (l : list Z) : list Z := Zpos (encode l) :: replicate 31 0%Z.

#[export] Instance key_lib : KeyLib := {|
  argon2id := fun p params => Some (spell p);
  hkdf := fun salt ikm info n => Some (take n (Zpos (encode (salt, ikm, info)) :: replicate 31 0%Z));
  uuid_v8 := fun _ => 1 |}.
End ToyCodec.
