(* ===== verification/Sync.v ===== *)
(** * The account header and the server pull (crates/havenkeys-core/src/sync.rs)

    The attested header a device publishes and adopts, signing in with it on
    a new device, and the replica catching up with the server. *)

From S2P Require Import Prelude Errors Text Blob Url Tags Totp Clean Card Identity.
From S2P Require Import CustomField Bank Sso Attachment Model Keys Store Origin Health BuildItem.
From S2P Require Import Vault Items.

Definition SYNC_FORMAT : Z := 1.

Record HeaderBody := {
  hb_format : Z;
  hb_vault_id : Z;
  vault_format : Z;
  hb_key_scheme : KeyScheme;
  hb_kdf : KdfParams;
  hb_wrapped_vault_key : list Z;
  hb_revision : Z;
  hb_created_at : Z;
}.

Record HeaderFile := { hf_body : HeaderBody; attestation : list Z }.

#[export] Instance HeaderBody_eq_dec : EqDecision HeaderBody.
Proof. solve_decision. Defined.
#[export] Instance HeaderFile_eq_dec : EqDecision HeaderFile.
Proof. solve_decision. Defined.

(** serde_json on the two header types, and the [data_encoding] crate's
    Base64. *)
Class HeaderLib := {
  canonical : HeaderBody -> list Z;
  file_to_json : HeaderFile -> list Z;
  file_from_json : list Z -> option HeaderFile;
  base64_encode : list Z -> list Z;
  base64_decode : list Z -> option (list Z);
}.
Class HeaderLaws (H : HeaderLib) : Prop := {
  canonical_inj : forall b b', canonical b = canonical b' -> b = b';
  file_roundtrip : forall f, file_from_json (file_to_json f) = Some f;
  base64_roundtrip : forall l, base64_decode (base64_encode l) = Some l;
}.

Record SyncReport := {
  rep_added : nat;
  rep_updated : nat;
  rep_deleted : nat;
  skipped_items : nat;
  header_adopted : bool;
}.
Definition empty_report : SyncReport :=
  {| rep_added := 0; rep_updated := 0; rep_deleted := 0; skipped_items := 0; header_adopted := false |}.

Record RemoteChange := {
  rc_item : Z;
  rc_revision : Z;
  rc_overview : option (list Z);
  rc_details : option (list Z);
  rc_deleted : bool;
}.

Definition deletion (item : Z) : RemoteChange :=
  {| rc_item := item; rc_revision := 0; rc_overview := None; rc_details := None; rc_deleted := true |}.

Section Sync.
Context {C : Crypto} {K : KeyLib} {U : Unicode} {J : JsonLib} {H : HeaderLib}.

(** ** The header *)

Definition header_body (h : HeaderRecord) : HeaderBody :=
  {| hb_format := SYNC_FORMAT; hb_vault_id := Store.vault_id h; vault_format := Store.format_version h;
     hb_key_scheme := key_scheme h; hb_kdf := Store.kdf h;
     hb_wrapped_vault_key := base64_encode (wrapped_vault_key h); hb_revision := Store.revision h;
     hb_created_at := Store.created_at h |}.

Definition body_to_record (b : HeaderBody) : Result HeaderRecord :=
  w ← ok_or Corrupted (base64_decode (hb_wrapped_vault_key b));
  Ok {| Store.format_version := vault_format b; Store.vault_id := hb_vault_id b; Store.kdf := hb_kdf b;
        wrapped_vault_key := w; Store.created_at := hb_created_at b; key_scheme := hb_key_scheme b;
        Store.revision := hb_revision b |}.

Definition header_ctx (vault : Z) : BlobContext := ctx_vault PSyncHeader vault.

Definition encode_header (key : list Z) (h : HeaderRecord) (random : option (list Z)) : Result (list Z) :=
  let body := header_body h in
  att ← seal key (header_ctx (Store.vault_id h)) (canonical body) random;
  Ok (file_to_json {| hf_body := body; attestation := base64_encode att |}).

Definition encode_header_for (p : PreparedVault) (random : option (list Z)) : Result (list Z) :=
  key ← derive_data_key (prep_vault_key p);
  encode_header key (prep_header p) random.

Definition parse_header (bytes : list Z) : Result HeaderFile :=
  if 64 * 1024 <? len bytes then Err Corrupted
  else
    h ← ok_or Corrupted (file_from_json bytes);
    if negb (hb_format (hf_body h) =? SYNC_FORMAT) || negb (vault_format (hf_body h) =? FORMAT_VERSION)
    then Err UnsupportedVersion
    else _ ← kdf_validate (hb_kdf (hf_body h)); Ok h.

Definition verify_header (key : list Z) (h : HeaderFile) : bool :=
  match base64_decode (attestation h) with
  | None => false
  | Some att =>
      match open key (header_ctx (hb_vault_id (hf_body h))) att with
      | Ok plain => bool_decide (plain = canonical (hf_body h))
      | Err _ => false
      end
  end.

Definition prepare_sign_in (header password secret_key : list Z) (a : AccountRef)
    : Result (PreparedVault * list Z) :=
  file ← parse_header header;
  record ← body_to_record (hf_body file);
  master ← derive_master_key password (Store.kdf record);
  kek ← derive_kek_v3 master secret_key a;
  auth ← derive_auth_key_from_master master secret_key a;
  vk ← unwrap_vault_key kek (Store.vault_id record) (wrapped_vault_key record);
  key ← derive_data_key vk;
  if negb (verify_header key file) then Err Corrupted
  else Ok ({| prep_header := record; prep_vault_key := vk |}, auth).

(** The envelope of an approving device (pairing.rs, [PairingPayload]). *)
Record PairingPayload := {
  pp_account_id : Z;
  pp_vault_id : Z;
  pp_email : list Z;
  pp_secret_key : list Z;
  pp_vault_key : list Z;
}.
Record PairedSignIn := { ps_prepared : PreparedVault; ps_account : AccountRef; ps_secret_key : list Z }.

Definition prepare_paired_sign_in (header : list Z) (p : PairingPayload) : Result PairedSignIn :=
  file ← parse_header header;
  record ← body_to_record (hf_body file);
  if negb (Store.vault_id record =? pp_vault_id p) then Err Corrupted
  else
    key ← derive_data_key (pp_vault_key p);
    if negb (verify_header key file) then Err Corrupted
    else
      e ← email_parse (pp_email p);
      Ok {| ps_prepared := {| prep_header := record; prep_vault_key := pp_vault_key p |};
            ps_account := {| ref_id := pp_account_id p; ref_email := e |};
            ps_secret_key := pp_secret_key p |}.

(** [account_bound_header]; the one scheme is account-bound. *)
Definition account_bound_header (v : VaultService) : Result HeaderRecord := require_header v.

Definition encode_account_header (random : option (list Z)) (v : VaultService) : Result (list Z) :=
  local ← account_bound_header v;
  s ← session v;
  encode_header (data_key s) local random.

(** [encode_rekeyed_header] (vault.rs). *)
Definition encode_rekeyed_header (t : RekeyTicket) (r : Rekeyed) (random : option (list Z)) (v : VaultService)
    : Result (list Z) :=
  s ← session v;
  if negb (rk_epoch t =? epoch v) then Err Locked
  else
    let h := rk_header t in
    encode_header (data_key s)
      {| Store.format_version := Store.format_version h; Store.vault_id := Store.vault_id h;
         Store.kdf := re_kdf r; wrapped_vault_key := re_wrapped r; Store.created_at := Store.created_at h;
         key_scheme := re_scheme r; Store.revision := u64_saturating_add (Store.revision h) 1 |} random.

Definition adopt_account_header (remote : list Z) : V bool :=
  v ← mget;
  local ← mlift (account_bound_header v);
  file ← mlift (parse_header remote);
  _ ← mlift (guard_err (negb (hb_vault_id (hf_body file) =? Store.vault_id local))
               (InvalidInput "that header is for a different vault"));
  s ← mlift (session v);
  if negb (verify_header (data_key s) file) then mret false
  else
    record ← mlift (body_to_record (hf_body file));
    let floor := Z.max (match account (store v) with Some a => max_header_rev a | None => 0 end)
                       (as_i64 (Store.revision local)) in
    let remote_rev := as_i64 (Store.revision record) in
    if remote_rev <=? floor then mret false
    else
      _ ← on_store (update_key_wrap (Store.kdf record) (wrapped_vault_key record) (key_scheme record)
                      (Store.revision record));
      _ ← on_store' (raise_max_header_rev remote_rev);
      mret true.

(** ** The pull *)

(** [check_item_bytes]. *)
Definition check_item_bytes (s : Session) (item : Z) (ov det : list Z) : option ItemOverview :=
  o ← result_ok (open_json (data_key s) (ctx_item PItemOverview (ses_vault_id s) item) ov);
  d ← result_ok (open_json (data_key s) (ctx_item_details (ses_vault_id s) item ov) det);
  if negb (Model.id o =? item) || negb (bool_decide (details_type d = item_type o)) then None else Some o.

Definition check_change (s : Session) (c : RemoteChange) : option (PullRow * ItemOverview) :=
  match rc_overview c, rc_details c with
  | Some ov, Some det =>
      (fun o => ({| pull_id := rc_item c; pull_overview := ov; pull_details := det;
                    pull_revision := rc_revision c |}, o)) <$> check_item_bytes s (rc_item c) ov det
  | _, _ => None
  end.

(** The vectors [apply_changes] fills. *)
Record PullPlan := {
  pl_rows : list PullRow;
  pl_overviews : list ItemOverview;
  pl_deletions : list Z;
  pl_unreadable : list (Z * Z);
  pl_added : nat;
  pl_updated : nat;
}.
Definition empty_plan : PullPlan :=
  {| pl_rows := []; pl_overviews := []; pl_deletions := []; pl_unreadable := []; pl_added := 0; pl_updated := 0 |}.

Definition plan_change (s : Session) (p : PullPlan) (c : RemoteChange) : PullPlan :=
  if rc_deleted c then
    {| pl_rows := pl_rows p; pl_overviews := pl_overviews p; pl_deletions := pl_deletions p ++ [rc_item c];
       pl_unreadable := pl_unreadable p; pl_added := pl_added p; pl_updated := pl_updated p |}
  else match check_change s c with
  | Some (row, o) =>
      let known := is_some (overviews s !! rc_item c) || is_some (trash s !! rc_item c) in
      {| pl_rows := pl_rows p ++ [row]; pl_overviews := pl_overviews p ++ [o];
         pl_deletions := pl_deletions p; pl_unreadable := pl_unreadable p;
         pl_added := if known then pl_added p else S (pl_added p);
         pl_updated := if known then S (pl_updated p) else pl_updated p |}
  | None =>
      {| pl_rows := pl_rows p; pl_overviews := pl_overviews p; pl_deletions := pl_deletions p;
         pl_unreadable := pl_unreadable p ++ [(rc_item c, rc_revision c)];
         pl_added := pl_added p; pl_updated := pl_updated p |}
  end.

(** The changes no later one of the batch supersedes. *)
Definition last_index (changes : list RemoteChange) : gmap Z nat :=
  foldl (fun m p => <[rc_item p.2 := p.1]> m) ∅ (imap pair changes).
Definition last_changes (changes : list RemoteChange) : list RemoteChange :=
  map snd (List.filter (fun p => bool_decide (last_index changes !! rc_item p.2 = Some p.1)) (imap pair changes)).

Definition apply_changes (changes : list RemoteChange) (cursor : option Z) (now_ms : Z) : V SyncReport :=
  v ← mget;
  _ ← mlift (require_account v);
  s ← mlift (session v);
  let p := foldl (plan_change s) empty_plan (last_changes changes) in
  let '(st, deleted) := apply_pull (pl_rows p) (pl_deletions p) (pl_unreadable p)
                          ((fun c => (c, now_ms)) <$> cursor) (store v) in
  _ ← mmodify (set_store st);
  _ ← modify_session (fun s => foldl (fun s o => place o s) s (pl_overviews p));
  _ ← modify_session (fun s => foldl (fun s i => forget i s) s (pl_deletions p));
  _ ← (if negb (bool_decide (pl_overviews p = [])) || negb (bool_decide (pl_deletions p = []))
       then modify_session items_changed else mret ());
  mret {| rep_added := pl_added p; rep_updated := pl_updated p; rep_deleted := deleted;
          skipped_items := length (pl_unreadable p); header_adopted := false |}.

Definition apply_remote_changes (cursor : Z) (changes : list RemoteChange) (now_ms : Z) : V SyncReport :=
  apply_changes changes (Some cursor) now_ms.

(** The changes [apply_refetched] passes on. *)
Definition refetched (recorded : gmap Z Z) (requested : list Z) (changes : list RemoteChange) : list RemoteChange :=
  let wanted : gset Z := list_to_set (List.filter (fun i => is_some (recorded !! i)) requested) in
  let changes := List.filter (fun c => bool_decide (rc_item c ∈ wanted)) changes in
  let returned : gset Z := list_to_set (map rc_item changes) in
  List.filter (fun c => some_with (fun rev => rev <=? rc_revision c) (recorded !! rc_item c)) changes
  ++ map deletion (elements (wanted ∖ returned)).

Definition apply_refetched (requested : list Z) (changes : list RemoteChange) (now_ms : Z) : V SyncReport :=
  v ← mget;
  apply_changes (refetched (unreadable_items (store v)) requested changes) None now_ms.

Definition reset_sync_cursor (now_ms : Z) : V () :=
  v ← mget; _ ← mlift (require_account v); on_store' (reset_cursor now_ms).

Definition replica_item_ids (v : VaultService) : Result (list Z) :=
  _ ← require_account v; Ok (item_ids (store v)).

Definition drop_items_the_server_lacks (held : list Z) (seen : gset Z) (now_ms : Z) : V SyncReport :=
  v ← mget;
  _ ← mlift (require_account v);
  let missing := map deletion (List.filter (fun i => negb (bool_decide (i ∈ seen))) held) in
  if bool_decide (missing = []) then mret empty_report
  else apply_changes missing None now_ms.
End Sync.
