(* ===== verification/Replica.v ===== *)
(** * The replica's invariant

    What an unlocked session promises about its store: each item lives in
    exactly one of the two caches, the cache is exactly what the stored
    blobs open to, and every write staged under the session can be read back
    once committed.  The operations of Vault.v, Items.v, Page.v and Sync.v
    preserve it. *)

From S2P Require Import Prelude Errors Text Blob Url Tags Totp Clean Card Identity.
From S2P Require Import CustomField Bank Sso Attachment Model Keys Store Origin Health BuildItem.
From S2P Require Import Vault Items Page Sync.

Definition good_nonce (r : option (list Z)) : Prop := forall n, r = Some n -> length n = NONCE_LEN.

(** ** Sessions of a service *)

Lemma session_unlocked v s : session v = Ok s -> state v = SUnlocked /\ session_ v = Some s.
Proof. unfold session. destruct (state v), (session_ v); try done. by intros [= ->]. Qed.

Lemma session_set v s s' : session v = Ok s -> session (set_session (Some s') v) = Ok s'.
Proof. intros [Hs _]%session_unlocked. unfold session. cbn. by rewrite Hs. Qed.

Lemma session_set_store st v : session (set_store st v) = session v.
Proof. done. Qed.

Lemma modify_session_run f v s :
  session v = Ok s -> modify_session f v = (set_session (Some (f s)) v, Ok ()).
Proof. intros Hs. unfold modify_session. by rewrite Hs. Qed.

Lemma set_session_twice a b v : set_session a (set_session b v) = set_session a v.
Proof. done. Qed.

Lemma set_session_same v s : session v = Ok s -> set_session (Some s) v = v.
Proof. intros [_ Hs]%session_unlocked. destruct v. cbn in *. by subst. Qed.

(** ** The invariant *)

Section Replica.
Context {C : Crypto} {K : KeyLib} {U : Unicode} {J : JsonLib} {UL : UrlLib} {SL : SiteLib UL} {L : TotpLib}.

(** What the cache holds for an id, and what the stored blob reads as. *)
Definition cached (s : Session) (i : Z) : option ItemOverview :=
  match overviews s !! i with Some o => Some o | None => trash s !! i end.
Definition readable (m : gmap Z ItemRow) (s : Session) (i : Z) : option ItemOverview :=
  row ← m !! i; result_ok (read_overview (data_key s) (ses_vault_id s) (i, row_overview row)).

Record session_ok (m : gmap Z ItemRow) (s : Session) : Prop := {
  live_home : forall i o, overviews s !! i = Some o ->
    Model.id o = i /\ is_trashed s o = false /\ trash s !! i = None;
  trash_home : forall i o, trash s !! i = Some o ->
    Model.id o = i /\ is_trashed s o = true /\ overviews s !! i = None;
  cache_exact : forall i, cached s i = readable m s i;
}.

(** The item's details open beside its overview, with the type it names. *)
Definition details_readable (s : Session) (i : Z) (ov det : list Z) (o : ItemOverview) : Prop :=
  exists d, open_json (data_key s) (ctx_item_details (ses_vault_id s) i ov) det = Ok d /\
            details_type d = item_type o.

(** A write the session staged: a new version that reads back, or a
    deletion, never of the account's identity. *)
Inductive sealed_write (s : Session) (w : StagedWrite) : Prop :=
| sealed_put ov det o :
    sw_overview w = Some ov -> sw_details w = Some det -> plain w = Some o ->
    read_overview (data_key s) (ses_vault_id s) (sw_item w, ov) = Ok o ->
    details_readable s (sw_item w) ov det o -> sealed_write s w
| sealed_delete :
    sw_overview w = None -> sw_details w = None -> plain w = None ->
    sw_item w <> identity_id s -> sealed_write s w.

(** Sessions that differ in nothing the invariant reads. *)
Definition same_items (s s' : Session) : Prop :=
  data_key s' = data_key s /\ ses_vault_id s' = ses_vault_id s /\ identity_id s' = identity_id s /\
  overviews s' = overviews s /\ trash s' = trash s.

Lemma session_ok_same m s s' : same_items s s' -> session_ok m s -> session_ok m s'.
Proof.
  intros (Hk & Hv & Hi & Ho & Ht) [H1 H2 H3]. split.
  - intros i o. rewrite Ho, Ht. unfold is_trashed. rewrite Hi. apply H1.
  - intros i o. rewrite Ho, Ht. unfold is_trashed. rewrite Hi. apply H2.
  - intros i. unfold cached, readable. rewrite Ho, Ht, Hk, Hv. apply H3.
Qed.

Lemma sealed_same s s' w : same_items s s' -> sealed_write s w -> sealed_write s' w.
Proof.
  intros (Hk & Hv & Hi & _) [ov det o H1 H2 H3 H4 (d & H5 & H6)|H1 H2 H3 H4].
  - eapply sealed_put; [done..|by rewrite Hk, Hv|]. exists d. by rewrite Hk, Hv.
  - apply sealed_delete; [done..|congruence].
Qed.

Lemma same_items_refl s : same_items s s.
Proof. done. Qed.

(** Keys and ids of a session never change while it lives. *)
Definition same_keys (s s' : Session) : Prop :=
  data_key s' = data_key s /\ ses_vault_id s' = ses_vault_id s /\ identity_id s' = identity_id s.

Lemma sealed_keys s s' w : same_keys s s' -> sealed_write s w -> sealed_write s' w.
Proof.
  intros (Hk & Hv & Hi) [ov det o H1 H2 H3 H4 (d & H5 & H6)|H1 H2 H3 H4].
  - eapply sealed_put; [done..|by rewrite Hk, Hv|]. exists d. by rewrite Hk, Hv.
  - apply sealed_delete; [done..|congruence].
Qed.

Lemma place_keys o s : same_keys s (place o s).
Proof. unfold place. by destruct (is_trashed s o). Qed.
Lemma forget_keys i s : same_keys s (forget i s).
Proof. done. Qed.
Lemma is_trashed_keys s s' o : same_keys s s' -> is_trashed s' o = is_trashed s o.
Proof. intros (_ & _ & Hi). unfold is_trashed. by rewrite Hi. Qed.

Lemma read_overview_id key vault i b o : read_overview key vault (i, b) = Ok o -> Model.id o = i.
Proof.
  unfold read_overview. cbn [fst snd]. intros (x & _ & H)%bind_Ok.
  destruct (Z.eqb_spec (Model.id x) i); [|done]. apply (inj Ok) in H. by subst.
Qed.

(** ** Placing and forgetting *)

Lemma cached_place o s i :
  cached (place o s) i = if decide (i = Model.id o) then Some o else cached s i.
Proof.
  unfold cached, place. destruct (is_trashed s o); cbn [overviews trash with_maps].
  - destruct (decide (i = Model.id o)) as [->|Hne].
    + by rewrite lookup_delete_eq, lookup_insert_eq.
    + by rewrite lookup_delete_ne, lookup_insert_ne.
  - destruct (decide (i = Model.id o)) as [->|Hne].
    + by rewrite lookup_insert_eq.
    + by rewrite lookup_insert_ne, lookup_delete_ne.
Qed.

Lemma cached_forget i s j : cached (forget i s) j = if decide (j = i) then None else cached s j.
Proof.
  unfold cached. cbn [overviews trash forget with_maps]. destruct (decide (j = i)) as [->|Hne].
  - by rewrite !lookup_delete_eq.
  - by rewrite !lookup_delete_ne.
Qed.

Lemma session_ok_place m s i row o :
  session_ok m s -> read_overview (data_key s) (ses_vault_id s) (i, row_overview row) = Ok o ->
  session_ok (<[i := row]> m) (place o s).
Proof.
  intros [H1 H2 H3] Hr. pose proof (read_overview_id _ _ _ _ _ Hr) as Hid.
  pose proof (is_trashed_keys _ _ o (place_keys o s)) as Ht. split.
  - intros j x. unfold place. destruct (is_trashed s o) eqn:Et; cbn [overviews trash with_maps].
    + destruct (decide (j = Model.id o)) as [->|Hne]; [by rewrite lookup_delete_eq|].
      rewrite lookup_delete_ne, lookup_insert_ne by done. apply H1.
    + destruct (decide (j = Model.id o)) as [->|Hne].
      * rewrite lookup_insert_eq, lookup_delete_eq. by intros [= <-].
      * rewrite lookup_insert_ne, lookup_delete_ne by done. apply H1.
  - intros j x. unfold place. destruct (is_trashed s o) eqn:Et; cbn [overviews trash with_maps].
    + destruct (decide (j = Model.id o)) as [->|Hne].
      * rewrite lookup_insert_eq, lookup_delete_eq. by intros [= <-].
      * rewrite lookup_insert_ne, lookup_delete_ne by done. apply H2.
    + destruct (decide (j = Model.id o)) as [->|Hne]; [by rewrite lookup_delete_eq|].
      rewrite lookup_insert_ne, lookup_delete_ne by done. apply H2.
  - intros j. rewrite cached_place, Hid. unfold readable.
    destruct (place_keys o s) as (-> & -> & _). destruct (decide (j = i)) as [->|Hne].
    + rewrite lookup_insert_eq. cbn [mbind option_bind]. by rewrite Hr.
    + rewrite lookup_insert_ne by done. apply H3.
Qed.

Lemma session_ok_forget m s i : session_ok m s -> session_ok (delete i m) (forget i s).
Proof.
  intros [H1 H2 H3]. split.
  - intros j x. cbn [overviews trash forget with_maps].
    destruct (decide (j = i)) as [->|Hne]; [by rewrite lookup_delete_eq|].
    rewrite !lookup_delete_ne by done. apply H1.
  - intros j x. cbn [overviews trash forget with_maps].
    destruct (decide (j = i)) as [->|Hne]; [by rewrite lookup_delete_eq|].
    rewrite !lookup_delete_ne by done. apply H2.
  - intros j. rewrite cached_forget. unfold readable. cbn [data_key ses_vault_id forget with_maps].
    destruct (decide (j = i)) as [->|Hne]; [by rewrite lookup_delete_eq|].
    rewrite lookup_delete_ne by done. apply H3.
Qed.

(** ** Opening a session *)

Lemma read_rows_ok key vault ident rows live tr n :
  NoDup (map fst rows) ->
  (forall i, i ∈ map fst rows -> live !! i = None /\ tr !! i = None) ->
  forall live' tr' n', foldl (read_row key vault ident) (live, tr, n) rows = (live', tr', n') ->
  forall i,
    (forall b, (i, b) ∈ rows ->
       match read_overview key vault (i, b) with
       | Ok o => if is_some (trashed_at o) && negb (Model.id o =? ident)
                 then live' !! i = None /\ tr' !! i = Some o
                 else live' !! i = Some o /\ tr' !! i = None
       | Err _ => live' !! i = None /\ tr' !! i = None
       end) /\
    (i ∉ map fst rows -> live' !! i = live !! i /\ tr' !! i = tr !! i).
Proof.
  revert live tr n. induction rows as [|[j b] rows IH]; intros live tr n Hn Hfree live' tr' n'; cbn [foldl].
  { intros [= <- <- <-] i. split; [by intros b ?%elem_of_nil|done]. }
  cbn [map fst] in Hn. apply NoDup_cons in Hn as [Hj Hn].
  destruct (Hfree j) as [Hl Ht]; [by left|].
  intros Hf i. destruct (read_row key vault ident (live, tr, n) (j, b)) as [[live1 tr1] n1] eqn:E1.
  assert (forall k, k <> j -> live1 !! k = live !! k /\ tr1 !! k = tr !! k) as Hother.
  { intros k Hk. unfold read_row in E1. destruct (read_overview key vault (j, b)) as [o|] eqn:Er.
    - pose proof (read_overview_id _ _ _ _ _ Er) as Hid.
      destruct (_ && _); injection E1 as <- <- _; rewrite Hid, ?lookup_insert_ne by done; done.
    - by injection E1 as <- <- _. }
  assert (forall k, k ∈ map fst rows -> live1 !! k = None /\ tr1 !! k = None) as Hfree1.
  { intros k Hk. destruct (Hother k) as [-> ->]; [by intros ->|]. apply Hfree. by right. }
  destruct (IH live1 tr1 n1 Hn Hfree1 live' tr' n' Hf i) as [IHin IHout]. split.
  - intros b' [[= -> ->]|Hin]%elem_of_cons; [|by apply IHin].
    destruct (IHout Hj) as [-> ->]. unfold read_row in E1.
    destruct (read_overview key vault (j, b)) as [o|] eqn:Er.
    + pose proof (read_overview_id _ _ _ _ _ Er) as Hid.
      destruct (_ && _); injection E1 as <- <- _; rewrite Hid, lookup_insert_eq; done.
    + by injection E1 as <- <- _.
  - intros [Hne Hnin]%not_elem_of_cons. destruct (IHout Hnin) as [-> ->]. by apply Hother.
Qed.

Lemma open_session_ok v vault vk s :
  open_session v vault vk = Ok s ->
  session_ok (items (store v)) s /\ ses_vault_id s = vault /\ ses_vault_key s = vk /\
  derive_data_key vk = Ok (data_key s) /\ derive_identity_item_id vk = Ok (identity_id s).
Proof.
  unfold open_session. intros (key & Hkey & H)%bind_Ok. apply bind_Ok in H as (ident & Hident & H).
  destruct (foldl _ _ _) as [[live tr] n] eqn:Ef. apply (inj Ok) in H. subst s. cbn.
  split; [|done].
  assert (map fst (item_overviews (store v)) = map fst (map_to_list (items (store v)))) as Hfst.
  { unfold item_overviews. by rewrite map_map. }
  assert (NoDup (map fst (item_overviews (store v)))) as Hn.
  { rewrite Hfst. apply NoDup_fst_map_to_list. }
  pose proof (read_rows_ok _ _ _ _ _ _ _ Hn (fun i _ => conj (lookup_empty i) (lookup_empty i)) _ _ _ Ef) as Hrows.
  assert (forall i row, items (store v) !! i = Some row -> (i, row_overview row) ∈ item_overviews (store v)) as Hin.
  { intros i row Hi. unfold item_overviews. apply list_elem_of_fmap. exists (i, row). split; [done|].
    by apply elem_of_map_to_list. }
  assert (forall i, items (store v) !! i = None -> i ∉ map fst (item_overviews (store v))) as Hout.
  { intros i Hi. rewrite Hfst. intros ([j row] & -> & Hj%elem_of_map_to_list)%list_elem_of_fmap. cbn in Hi. congruence. }
  split; cbn [overviews trash].
  - intros i o Ho. destruct (items (store v) !! i) as [row|] eqn:Ei.
    + destruct (Hrows i) as [Hr _]. specialize (Hr _ (Hin _ _ Ei)).
      destruct (read_overview key vault (i, row_overview row)) as [x|] eqn:Er; [|destruct Hr; congruence].
      pose proof (read_overview_id _ _ _ _ _ Er) as Hid. unfold is_trashed. cbn [identity_id].
      destruct (_ && _) eqn:Et; destruct Hr as [Hl Ht]; [congruence|]. assert (x = o) as -> by congruence. done.
    + destruct (Hrows i) as [_ Hr]. destruct (Hr (Hout _ Ei)) as [Hl _]. rewrite lookup_empty in Hl. congruence.
  - intros i o Ho. destruct (items (store v) !! i) as [row|] eqn:Ei.
    + destruct (Hrows i) as [Hr _]. specialize (Hr _ (Hin _ _ Ei)).
      destruct (read_overview key vault (i, row_overview row)) as [x|] eqn:Er; [|destruct Hr; congruence].
      pose proof (read_overview_id _ _ _ _ _ Er) as Hid. unfold is_trashed. cbn [identity_id].
      destruct (_ && _) eqn:Et; destruct Hr as [Hl Ht]; [|congruence]. assert (x = o) as -> by congruence. done.
    + destruct (Hrows i) as [_ Hr]. destruct (Hr (Hout _ Ei)) as [_ Hl]. rewrite lookup_empty in Hl. congruence.
  - intros i. unfold cached, readable. cbn [overviews trash data_key ses_vault_id].
    destruct (items (store v) !! i) as [row|] eqn:Ei; cbn [mbind option_bind].
    + destruct (Hrows i) as [Hr _]. specialize (Hr _ (Hin _ _ Ei)).
      destruct (read_overview key vault (i, row_overview row)) as [x|]; cbn [result_ok].
      * destruct (_ && _); destruct Hr as [Hl Ht]; by rewrite Hl, ?Ht.
      * destruct Hr as [Hl Ht]. by rewrite Hl, Ht.
    + destruct (Hrows i) as [_ Hr]. destruct (Hr (Hout _ Ei)) as [Hl Ht]. by rewrite Hl, Ht.
Qed.

(** ** Staging *)

Lemma seal_json_open `{!AeadCorrect C} {A} `{CodecLaws A} key ctx (a : A) r b :
  good_nonce r -> seal_json key ctx a r = Ok b -> open_json key ctx b = Ok a.
Proof.
  intros Hg Hs. pose proof (seal_ok _ _ _ _ _ Hs) as (n & ? & ? & -> & _).
  unfold open_json. unfold seal_json in Hs.
  destruct (seal_open key ctx (to_json a) n b (Hg n eq_refl) Hs) as [-> _].
  cbn [mbind result_bind]. by rewrite json_roundtrip.
Qed.

Definition staged (v : VaultService) (s : Session) (w : StagedWrite) : Prop :=
  sealed_write s w /\ sw_epoch w = epoch v.

Lemma staged_with_ids v s ids w : staged v s w -> staged v s (with_ids ids w).
Proof.
  intros [[ov det o H1 H2 H3 H4 H5|H1 H2 H3 H4] He]; (split; [|done]).
  - by eapply sealed_put.
  - by apply sealed_delete.
Qed.

Lemma seal_staged_ok `{!AeadCorrect C, !JsonLaws J} v s o d base r1 r2 w :
  session v = Ok s -> good_nonce r1 -> good_nonce r2 -> details_type d = item_type o ->
  seal_staged v o (Some d) base r1 r2 = Ok w ->
  staged v s w /\ sw_item w = Model.id o /\ plain w = Some o /\ base_revision w = base /\
  exists ov det, sw_overview w = Some ov /\ sw_details w = Some det /\
    open_json (data_key s) (ctx_item_details (ses_vault_id s) (Model.id o) ov) det = Ok d.
Proof.
  intros Hs Hg1 Hg2 Ht. unfold seal_staged. rewrite Hs. cbn [mbind result_bind].
  intros (ov & Hov & H)%bind_Ok. apply bind_Ok in H as (det & Hdet & H).
  apply bind_Ok in Hdet as (b & Hb & Hdet). apply (inj Ok) in Hdet. subst det.
  apply (inj Ok) in H. subst w. apply seal_json_open in Hov; [|done]. apply seal_json_open in Hb; [|done].
  split; [split; [|done]|split_and!; try done; by exists ov, b]. eapply sealed_put; [done..| |].
  - unfold read_overview. cbn [sw_item fst snd]. rewrite Hov. cbn [mbind result_bind]. by rewrite Z.eqb_refl.
  - by exists d.
Qed.

Lemma stage_ok `{!AeadCorrect C, !JsonLaws J} v s o d base r1 r2 w :
  session v = Ok s -> good_nonce r1 -> good_nonce r2 -> details_type d = item_type o ->
  stage v o (Some d) base r1 r2 = Ok w -> staged v s w /\ sw_item w = Model.id o /\ base_revision w = base /\
  exists ts, plain w = Some (with_tags ts o).
Proof.
  intros Hs Hg1 Hg2 Ht. unfold stage. intros (o' & Ho & Hw)%bind_Ok.
  assert (exists ts, o' = with_tags ts o) as [ts ->].
  { destruct (bool_decide _); [apply (inj Ok) in Ho as <-; exists (tags o); by destruct o|].
    apply bind_Ok in Ho as (sp & _ & Ho). apply (inj Ok) in Ho. by eexists. }
  apply (seal_staged_ok v s) in Hw as (Hst & Hi & Hp & Hb & _); [|done..]. split_and!; [done..|by exists ts].
Qed.

Lemma apply_files_type f o o' ids :
  apply_files f o = Ok (o', ids) ->
  item_type o' = item_type o /\ Model.id o' = Model.id o /\ trashed_at o' = trashed_at o.
Proof.
  unfold apply_files. destruct (_ && _); [by intros [= <- _]|]. intros (l & _ & H)%bind_Ok.
  destruct (_ <? _)%nat; [done|]. by injection H as <- _.
Qed.

Lemma tombstone_ok v s i : i <> identity_id s -> staged v s (tombstone v i).
Proof. intros Hi. split; [|done]. by apply sealed_delete. Qed.

(** A staging operation of the unlocked vault. *)
Inductive stages (v : VaultService) : StagedWrite -> Prop :=
| by_create new_id i inp files now r1 r2 w :
    good_nonce r1 -> good_nonce r2 -> stage_create_with new_id i inp files now r1 r2 v = Ok w -> stages v w
| by_update new_id i inp files now r1 r2 w :
    good_nonce r1 -> good_nonce r2 -> stage_update_with new_id i inp files now r1 r2 v = Ok w -> stages v w
| by_delete i w : stage_delete i v = Ok w -> stages v w
| by_identity new_id e now r1 r2 w :
    good_nonce r1 -> good_nonce r2 -> stage_identity_if_missing new_id e now r1 r2 v = Ok (Some w) -> stages v w
| by_trash i now r1 r2 w :
    good_nonce r1 -> good_nonce r2 -> stage_trash i now r1 r2 v = Ok w -> stages v w
| by_restore i r1 r2 w :
    good_nonce r1 -> good_nonce r2 -> stage_restore_trashed i r1 r2 v = Ok w -> stages v w
| by_purge i w : stage_purge i v = Ok w -> stages v w
| by_empty l w : stage_empty_trash v = Ok l -> w ∈ l -> stages v w
| by_expired now l w : stage_expired_trash now v = Ok l -> w ∈ l -> stages v w
| by_files i c now r1 r2 w :
    good_nonce r1 -> good_nonce r2 -> stage_attachments i c now r1 r2 v = Ok w -> stages v w
| by_stage o d base r1 r2 w :
    good_nonce r1 -> good_nonce r2 -> details_type d = item_type o ->
    stage v o (Some d) base r1 r2 = Ok w -> stages v w
| by_batch o d base batch batch' ids r1 r2 w :
    good_nonce r1 -> good_nonce r2 -> details_type d = item_type o ->
    stage_in_batch v o (Some d) base batch r1 r2 = Ok (w, batch') -> stages v (with_ids ids w).

Lemma open_details_type v s i t d : open_details v s i t = Ok d -> details_type d = t.
Proof.
  unfold open_details. intros ([ov data] & _ & H)%bind_Ok. apply bind_Ok in H as (x & _ & H).
  destruct (decide (details_type x = t)); [|done]. apply (inj Ok) in H. by subst.
Qed.

Lemma load_details_type v s i d :
  session v = Ok s -> load_details i v = Ok d ->
  exists o, overviews s !! i = Some o /\ details_type d = item_type o.
Proof.
  intros Hs. unfold load_details. rewrite Hs. cbn [mbind result_bind]. intros (o & Ho & Hd)%bind_Ok.
  destruct (overviews s !! i) as [x|]; [|done]. apply (inj Ok) in Ho. subst x.
  exists o. split; [done|]. by eapply open_details_type.
Qed.

Lemma load_trashed_type v s i d :
  session v = Ok s -> load_trashed_details i v = Ok d ->
  exists o, trash s !! i = Some o /\ details_type d = item_type o.
Proof.
  intros Hs. unfold load_trashed_details. rewrite Hs. cbn [mbind result_bind]. intros (o & Ho & Hd)%bind_Ok.
  destruct (trash s !! i) as [x|]; [|done]. apply (inj Ok) in Ho. subst x.
  exists o. split; [done|]. by eapply open_details_type.
Qed.

Lemma change_files_type c o o' :
  change_files c o = Ok o' -> item_type o' = item_type o /\ trashed_at o' = trashed_at o /\ Model.id o' = Model.id o.
Proof.
  destruct c; cbn [change_files]; [destruct (_ <? _)%nat|destruct (_ =? _)%nat]; try done;
    intros E%(inj Ok); by subst.
Qed.

Lemma elem_tombstones v (ids : list Z) w : w ∈ map (tombstone v) (sorted_ids ids) -> exists i, i ∈ ids /\ w = tombstone v i.
Proof.
  intros (i & -> & Hi)%list_elem_of_fmap. exists i. split; [|done].
  unfold sorted_ids in Hi. by rewrite sort_by_key_perm in Hi.
Qed.

Lemma trash_ids s m i o : session_ok m s -> (i, o) ∈ map_to_list (trash s) -> Model.id o = i.
Proof. intros [_ H2 _] Hi%elem_of_map_to_list. by destruct (H2 _ _ Hi). Qed.

Lemma batch_ok `{!AeadCorrect C, !JsonLaws J} v s o d base batch batch' r1 r2 w :
  session v = Ok s -> good_nonce r1 -> good_nonce r2 -> details_type d = item_type o ->
  stage_in_batch v o (Some d) base batch r1 r2 = Ok (w, batch') ->
  staged v s w /\ sw_item w = Model.id o /\ base_revision w = base /\ exists ts, plain w = Some (with_tags ts o).
Proof.
  intros Hs Hg1 Hg2 Ht. unfold stage_in_batch. rewrite Hs. cbn [mbind result_bind].
  destruct (is_some _).
  - intros (w' & Hw & H)%bind_Ok. injection H as <- _. by apply (stage_ok v s) in Hw.
  - cbv zeta. intros (w' & Hw & H)%bind_Ok. injection H as <- _.
    apply (seal_staged_ok v s) in Hw as (Hst & Hi & Hp & Hb & _); [|done..]. split_and!; [done..|by eexists].
Qed.

(** Everything the vault stages reads back, and no deletion names the
    identity. *)
Lemma stages_ok `{!AeadCorrect C, !JsonLaws J} v s w :
  session v = Ok s -> session_ok (items (store v)) s -> stages v w -> staged v s w.
Proof.
  intros Hs Hok Hw. destruct Hw as
    [new_id i inp files now r1 r2 w Hg1 Hg2 H|new_id i inp files now r1 r2 w Hg1 Hg2 H|i w H
    |new_id e now r1 r2 w Hg1 Hg2 H|i now r1 r2 w Hg1 Hg2 H|i r1 r2 w Hg1 Hg2 H|i w H|l w H Hl|now l w H Hl
    |i c now r1 r2 w Hg1 Hg2 H|o d base r1 r2 w Hg1 Hg2 Hty H|o d base batch batch' ids r1 r2 w Hg1 Hg2 Hty H].
  - unfold stage_create_with in H. destruct (decide _); [done|]. apply bind_Ok in H as ([o d] & Hb & H).
    apply build_item_ok in Hb as (_ & _ & [Ht _] & _). apply bind_Ok in H as ([o' ids] & Hf & H).
    apply apply_files_type in Hf as [Hf _]. apply bind_Ok in H as (w' & Hw & H). apply (inj Ok) in H. subst w.
    apply staged_with_ids. apply (stage_ok v s) in Hw as [Hst _]; [exact Hst|done|done|done|]. congruence.
  - unfold stage_update_with in H. apply bind_Ok in H as (ex & _ & H). destruct (negb _); [done|].
    apply bind_Ok in H as (cur & _ & H). apply bind_Ok in H as ([o d] & Hb & H).
    apply build_item_ok in Hb as (_ & _ & [Ht _] & _). apply bind_Ok in H as ([o' ids] & Hf & H).
    apply apply_files_type in Hf as [Hf _]. apply bind_Ok in H as (w' & Hw & H). apply (inj Ok) in H. subst w.
    apply staged_with_ids. apply (stage_ok v s) in Hw as [Hst _]; [exact Hst|done|done|done|]. cbn in Hf. congruence.
  - unfold stage_delete in H. rewrite Hs in H. cbn [mbind result_bind] in H.
    apply bind_Ok in H as (_ & _ & H). apply bind_Ok in H as ([] & Hi & H). apply (inj Ok) in H. subst w.
    apply tombstone_ok. unfold guard_err in Hi. by destruct (Z.eqb_spec i (identity_id s)).
  - unfold stage_identity_if_missing in H. rewrite Hs in H. cbn [mbind result_bind] in H.
    destruct (_ || _); [done|]. apply bind_Ok in H as ([o d] & Hb & H).
    apply build_item_ok in Hb as (_ & _ & [Ht _] & _). apply bind_Ok in H as (w' & Hw & H).
    injection H as <-. apply (stage_ok v s) in Hw as [Hst _]; [exact Hst|done|done|done|]. congruence.
  - unfold stage_trash in H. rewrite Hs in H. cbn [mbind result_bind] in H.
    destruct (Z.eqb_spec i (identity_id s)) as [|Hi]; [done|]. apply bind_Ok in H as (o & Ho & H).
    destruct (load_details i v) as [d|e] eqn:Hd.
    + apply (load_details_type _ _ _ _ Hs) in Hd as (o' & Ho' & Ht). rewrite Ho' in Ho. apply (inj Ok) in Ho. subst o'.
      apply (seal_staged_ok v s) in H as [Hst _]; [exact Hst|done|done|done|]. done.
    + destruct e; try done; apply (inj Ok) in H; subst w; by apply tombstone_ok.
  - unfold stage_restore_trashed in H. rewrite Hs in H. cbn [mbind result_bind] in H.
    apply bind_Ok in H as (o & Ho & H). apply bind_Ok in H as (d & Hd & H).
    apply (load_trashed_type _ _ _ _ Hs) in Hd as (o' & Ho' & Ht). rewrite Ho' in Ho. apply (inj Ok) in Ho. subst o'.
    apply (stage_ok v s) in H as [Hst _]; [exact Hst|done|done|done|]. done.
  - unfold stage_purge in H. rewrite Hs in H. cbn [mbind result_bind] in H.
    destruct (Z.eqb_spec i (identity_id s)) as [|Hi]; [done|]. destruct (is_none _); [done|]. cbn in H.
    apply (inj Ok) in H. subst w. by apply tombstone_ok.
  - unfold stage_empty_trash in H. rewrite Hs in H. cbn [mbind result_bind] in H. apply (inj Ok) in H. subst l.
    apply elem_tombstones in Hl as (i & Hi & ->). apply list_elem_of_In, List.filter_In in Hi as [_ Hi].
    apply tombstone_ok. by destruct (Z.eqb_spec i (identity_id s)).
  - unfold stage_expired_trash in H. rewrite Hs in H. cbn [mbind result_bind] in H. apply (inj Ok) in H. subst l.
    apply elem_tombstones in Hl as (i & (o & -> & Ho)%list_elem_of_fmap & ->).
    apply list_elem_of_In, List.filter_In in Ho as [_ Hdue]. unfold is_due in Hdue. apply tombstone_ok.
    by destruct (Z.eqb_spec (Model.id o) (identity_id s)).
  - unfold stage_attachments in H. rewrite Hs in H. cbn [mbind result_bind] in H.
    apply bind_Ok in H as (o & Ho & H). apply bind_Ok in H as (o' & Hc & H). cbv zeta in H.
    apply bind_Ok in H as (d & Hd & H). apply bind_Ok in H as (w' & Hw & H). apply (inj Ok) in H. subst w.
    apply change_files_type in Hc as (Hty & Htr & _). apply staged_with_ids.
    apply (seal_staged_ok v s) in Hw as [Hst _]; [exact Hst|done|done|done|]. cbn [item_type with_updated trashed_at] in *. rewrite Hty.
    destruct Hok as [Hl Ht _]. unfold stored_overview in Ho. destruct (is_some (trashed_at o')).
    + apply (load_trashed_type _ _ _ _ Hs) in Hd as (x & Hx & Hd). destruct (Ht _ _ Hx) as (_ & _ & Hn).
      rewrite Hn, Hx in Ho. apply (inj Ok) in Ho. by subst.
    + apply (load_details_type _ _ _ _ Hs) in Hd as (x & Hx & Hd). rewrite Hx in Ho.
      apply (inj Ok) in Ho. by subst.
  - by apply (stage_ok v s) in H as [Hst _].
  - apply staged_with_ids. by apply (batch_ok v s) in H as [Hst _].
Qed.

(** ** Committing *)

Lemma commit_write_cases w rev v v' r :
  commit_write w rev v = (v', r) ->
  (v' = v /\ (exists e, r = Err e) /\ forall s, session v = Ok s -> sw_epoch w <> epoch v) \/
  exists s, session v = Ok s /\ sw_epoch w = epoch v /\
    ((exists ov det o, sw_overview w = Some ov /\ sw_details w = Some det /\ plain w = Some o /\ r = Ok (Some o) /\
        v' = set_session (Some (place o (items_changed s))) (set_store (upsert_item (sw_item w) ov det rev (store v)) v)) \/
     (sw_overview w = None /\ sw_details w = None /\ plain w = None /\ r = Ok None /\
        v' = set_session (Some (forget (sw_item w) (items_changed s))) (set_store (delete_item (sw_item w) (store v)).1 v)) \/
     ((exists e, r = Err e) /\ v' = set_session (Some (items_changed s)) v /\
      ~ (is_Some (sw_overview w) /\ is_Some (sw_details w) /\ is_Some (plain w)) /\
      ~ (sw_overview w = None /\ sw_details w = None /\ plain w = None))).
Proof.
  unfold commit_write. mrun. destruct (session v) as [s|] eqn:Hs; [|intros [= <- <-]; left; split_and!; eauto; done].
  mrun. unfold guard_err. destruct (Z.eqb_spec (sw_epoch w) (epoch v)) as [He|He]; cbn [negb];
    [|intros [= <- <-]; left; split_and!; eauto].
  erewrite run_bind by (by apply modify_session_run).
  set (v1 := set_session (Some (items_changed s)) v).
  assert (session v1 = Ok (items_changed s)) as Hs1 by (by eapply session_set).
  intros H. right. exists s. split_and!; [done..|].
  destruct (sw_overview w) as [ov|]; destruct (sw_details w) as [det|]; destruct (plain w) as [o|];
    try (unfold mthrow_ in H; injection H as <- <-; right; right; split_and!; eauto;
         intros (H1 & H2 & H3); first [by destruct H1|by destruct H2|by destruct H3|done]).
  - left. unfold on_store' in H. rewrite run_mmodify in H.
    erewrite run_bind in H by (apply modify_session_run; by rewrite session_set_store).
    injection H as <- <-. exists ov, det, o. done.
  - right. left. unfold on_store' in H. rewrite run_mmodify in H.
    erewrite run_bind in H by (apply modify_session_run; by rewrite session_set_store).
    injection H as <- <-. done.
Qed.

Lemma items_changed_same s : same_items s (items_changed s).
Proof. done. Qed.

(** A step of an unlocked vault that keeps the invariant and the session's
    keys, under the same epoch. *)
Definition keeps (v v' : VaultService) (s : Session) : Prop :=
  exists s', session v' = Ok s' /\ session_ok (items (store v')) s' /\ same_keys s s' /\ epoch v' = epoch v.

Lemma keeps_refl v s : session v = Ok s -> session_ok (items (store v)) s -> keeps v v s.
Proof. by exists s. Qed.

Lemma same_keys_trans s1 s2 s3 : same_keys s1 s2 -> same_keys s2 s3 -> same_keys s1 s3.
Proof. intros (?&?&?) (?&?&?). split_and!; congruence. Qed.

Lemma commit_write_keeps w rev v s v' r :
  session v = Ok s -> session_ok (items (store v)) s -> staged v s w ->
  commit_write w rev v = (v', r) -> keeps v v' s /\ r = Ok (plain w).
Proof.
  intros Hs Hok [Hw He] [(_ & _ & Hne)|(s' & Hs' & _ & Hc)]%commit_write_cases; [by destruct (Hne s)|].
  assert (s' = s) as -> by congruence.
  pose proof (session_ok_same _ _ _ (items_changed_same s) Hok) as Hok1.
  destruct Hc as [(ov & det & o & Hov & Hdet & Hp & -> & ->)|[(Hov & Hdet & Hp & -> & ->)|(_ & _ & Hn1 & Hn2)]].
  - destruct Hw as [ov' det' o' H1 H2 H3 H4 _|]; [|congruence]. simplify_eq.
    split; [|by rewrite H3]. eexists. split_and!; [by eapply session_set| |apply (place_keys o' (items_changed s))|done].
    apply session_ok_place; [done|]. exact H4.
  - split; [|by rewrite Hp]. eexists. split_and!; [by eapply session_set| |done|done].
    by apply session_ok_forget.
  - destruct Hw; [destruct Hn1; split_and!; eauto|by destruct Hn2].
Qed.

(** ** The pull *)

Lemma session_ok_places_from rows os : forall m s0 s,
  same_keys s0 s ->
  Forall2 (fun r o => read_overview (data_key s0) (ses_vault_id s0) (pull_id r, pull_overview r) = Ok o) rows os ->
  session_ok m s ->
  let s' := foldl (fun s o => place o s) s os in
  session_ok (foldl (fun m r => <[pull_id r := row_of r]> m) m rows) s' /\ same_keys s0 s'.
Proof.
  intros m s0 s Hk Hf. revert m s Hk. induction Hf as [|r o rows os Hr _ IH]; intros m s1 Hk Hok; [done|]. cbn [foldl].
  apply IH; [eapply same_keys_trans; [exact Hk|apply place_keys]|].
  destruct Hk as (Hk1 & Hk2 & _). apply session_ok_place; [done|]. by rewrite Hk1, Hk2.
Qed.

Lemma session_ok_places s rows os m :
  Forall2 (fun r o => read_overview (data_key s) (ses_vault_id s) (pull_id r, pull_overview r) = Ok o) rows os ->
  session_ok m s ->
  let s' := foldl (fun s o => place o s) s os in
  session_ok (foldl (fun m r => <[pull_id r := row_of r]> m) m rows) s' /\ same_keys s s'.
Proof. intros Hf Hok. by apply session_ok_places_from. Qed.

Lemma session_ok_forgets s m (ids : list Z) :
  session_ok m s ->
  let s' := foldl (fun s i => forget i s) s ids in
  session_ok (foldl (fun m i => delete i m) m ids) s' /\ same_keys s s'.
Proof.
  revert s m. induction ids as [|i ids IH]; intros s m Hok; cbn [foldl]; [done|].
  destruct (IH (forget i s) (delete i m)) as [H1 H2]; [by apply session_ok_forget|]. split; [done|].
  exact H2.
Qed.

Lemma pull_items rows (dels : list Z) unr cursor st :
  items (apply_pull rows dels unr cursor st).1 =
  foldl (fun m i => delete i m) (foldl (fun m r => <[pull_id r := row_of r]> m) (items st) rows) dels.
Proof.
  assert (forall l st, items (foldl pull_upsert st l) = foldl (fun m r => <[pull_id r := row_of r]> m) (items st) l) as Hu.
  { induction l as [|x l IH]; intros; [done|]. cbn [foldl]. by rewrite IH. }
  assert (forall l st n, items (foldl pull_delete (st, n) l).1 = foldl (fun m i => delete i m) (items st) l) as Hd.
  { induction l as [|x l IH]; intros; [done|]. cbn [foldl pull_delete delete_item]. by rewrite IH. }
  unfold apply_pull. rewrite <- Hu, <- (Hd _ _ 0%nat). destruct (foldl pull_delete _ dels) as [s2 n2]. cbn [fst].
  destruct (pull_unreadable_lookup unr s2 0) as [R1 _]. by destruct cursor as [[]|].
Qed.

Lemma last_index_snoc l c : last_index (l ++ [c]) = <[rc_item c := length l]> (last_index l).
Proof. unfold last_index. rewrite imap_app, foldl_app. cbn. by rewrite Nat.add_0_r. Qed.

Lemma last_changes_snoc l c :
  last_changes (l ++ [c]) = List.filter (fun x => negb (rc_item x =? rc_item c)) (last_changes l) ++ [c].
Proof.
  unfold last_changes. rewrite imap_app, List.filter_app, map_app. f_equal.
  - assert (forall p, p ∈ imap pair l -> (p.1 < length l)%nat) as Hlt.
    { intros p (n & x & -> & ?%lookup_lt_Some)%elem_of_lookup_imap. done. }
    revert Hlt. generalize (imap pair l) as L'. induction L' as [|p L' IH]; intros Hlt; [done|].
    cbn [List.filter]. rewrite last_index_snoc.
    assert (p.1 <> length l) as Hp by (specialize (Hlt p); rewrite elem_of_cons in Hlt; specialize (Hlt (or_introl eq_refl)); lia).
    assert (forall q, q ∈ L' -> (q.1 < length l)%nat) as Hlt' by (intros q Hq; apply Hlt; by right).
    specialize (IH Hlt'). rewrite last_index_snoc in IH.
    destruct (Z.eqb_spec (rc_item p.2) (rc_item c)) as [He|He].
    + rewrite He, lookup_insert_eq, bool_decide_eq_false_2 by congruence.
      destruct (bool_decide _); [|exact IH]. cbn [map List.filter]. by rewrite He, Z.eqb_refl.
    + rewrite lookup_insert_ne by congruence. destruct (bool_decide _); [|exact IH].
      cbn [map List.filter]. rewrite (proj2 (Z.eqb_neq _ _) He). cbn [negb]. by rewrite IH.
  - cbn [imap List.filter map snd fst]. rewrite last_index_snoc, Nat.add_0_r, lookup_insert_eq.
    by rewrite bool_decide_eq_true_2.
Qed.

(** No two changes of [last_changes] name one item, and the last change of
    an item is kept. *)
Lemma last_changes_nodup l : NoDup (map rc_item (last_changes l)).
Proof.
  induction l as [|c l IH] using rev_ind; [constructor|]. rewrite last_changes_snoc, map_app. cbn [map].
  apply NoDup_app. split_and!.
  - eapply sublist_NoDup; [exact IH|]. apply (fmap_sublist rc_item). clear.
    induction (last_changes l) as [|x k IH]; [done|]. cbn [List.filter].
    destruct (negb _); by constructor.
  - intros i (x & -> & Hx)%list_elem_of_fmap Hc%list_elem_of_singleton.
    apply list_elem_of_In, List.filter_In in Hx as [_ Hx]. cbv beta in *. lia.
  - apply NoDup_singleton.
Qed.

Lemma last_with_filter {A} (key : A -> Z) i j l :
  i <> j -> last_with key i (List.filter (fun x => negb (key x =? j)) l) = last_with key i l.
Proof.
  intros Hij. induction l as [|x l IH] using rev_ind; [done|].
  rewrite List.filter_app, last_with_snoc. cbn [List.filter]. destruct (Z.eqb_spec (key x) j) as [He|He]; cbn [negb].
  - rewrite app_nil_r, IH. destruct (Z.eqb_spec (key x) i); [congruence|done].
  - by rewrite last_with_snoc, IH.
Qed.

Lemma last_with_changes i l : last_with rc_item i (last_changes l) = last_with rc_item i l.
Proof.
  induction l as [|c l IH] using rev_ind; [done|]. rewrite last_changes_snoc, !last_with_snoc.
  destruct (Z.eqb_spec (rc_item c) i) as [|Hne]; [done|]. rewrite <- IH. by apply last_with_filter.
Qed.

Lemma check_change_Some s c row o :
  check_change s c = Some (row, o) ->
  pull_id row = rc_item c /\ read_overview (data_key s) (ses_vault_id s) (pull_id row, pull_overview row) = Ok o.
Proof.
  unfold check_change. destruct (rc_overview c) as [ov|]; [|done]. destruct (rc_details c) as [det|]; [|done].
  destruct (check_item_bytes s (rc_item c) ov det) as [x|] eqn:E; [|done]. cbn. intros [= <- <-]. cbn. split; [done|].
  unfold check_item_bytes in E. destruct (open_json _ (ctx_item _ _ _) _) as [x0|] eqn:Ho; [|done]. cbn in E.
  destruct (open_json _ (ctx_item_details _ _ _) _) as [d|]; [|done]. cbn in E.
  unfold read_overview. cbn [fst snd]. rewrite Ho. cbn [mbind result_bind].
  destruct (Z.eqb_spec (Model.id x0) (rc_item c)) as [|]; [|done]. cbn in E.
  destruct (negb (bool_decide _)); [done|]. by injection E as ->.
Qed.

(** What the plan of a batch says of one item. *)
Definition planned (s : Session) (p : PullPlan) (i : Z) (c : option RemoteChange) : Prop :=
  match c with
  | None => last_with pull_id i (pl_rows p) = None /\ i ∉ pl_deletions p /\ last_with fst i (pl_unreadable p) = None
  | Some c =>
      if rc_deleted c
      then last_with pull_id i (pl_rows p) = None /\ i ∈ pl_deletions p /\ last_with fst i (pl_unreadable p) = None
      else match check_change s c with
      | Some (row, _) => last_with pull_id i (pl_rows p) = Some row /\ i ∉ pl_deletions p /\
                         last_with fst i (pl_unreadable p) = None
      | None => last_with pull_id i (pl_rows p) = None /\ i ∉ pl_deletions p /\
                last_with fst i (pl_unreadable p) = Some (i, rc_revision c)
      end
  end.

Lemma plan_changes s l i :
  NoDup (map rc_item l) -> planned s (foldl (plan_change s) empty_plan l) i (last_with rc_item i l).
Proof.
  induction l as [|c l IH] using rev_ind; intros Hn; [split_and!; [done|by apply not_elem_of_nil|done]|].
  rewrite map_app in Hn. apply NoDup_app in Hn as (Hn & Hdisj & _). specialize (IH Hn).
  rewrite foldl_app, last_with_snoc. cbn [foldl]. set (p := foldl _ _ l) in *.
  destruct (Z.eqb_spec (rc_item c) i) as [He|He].
  - assert (last_with rc_item i l = None) as Hnone.
    { apply last_with_None. intros Hi. apply (Hdisj _ Hi). cbn. rewrite <- He. by left. }
    rewrite Hnone in IH. destruct IH as (I1 & I2 & I3). unfold planned, plan_change.
    destruct (rc_deleted c); cbn [pl_rows pl_deletions pl_unreadable]; [rewrite elem_of_app, list_elem_of_singleton; by auto|].
    destruct (check_change s c) as [[row o]|] eqn:Hc; cbn [pl_rows pl_deletions pl_unreadable].
    + apply check_change_Some in Hc as [Hid _]. rewrite last_with_snoc, Hid, He, Z.eqb_refl. done.
    + rewrite (last_with_snoc fst). cbn [fst]. by rewrite He, Z.eqb_refl.
  - assert (planned s p i (last_with rc_item i l) -> planned s (plan_change s p c) i (last_with rc_item i l)) as Hk; [|by apply Hk].
    assert (last_with pull_id i (pl_rows (plan_change s p c)) = last_with pull_id i (pl_rows p) /\
            (i ∈ pl_deletions (plan_change s p c) <-> i ∈ pl_deletions p) /\
            last_with fst i (pl_unreadable (plan_change s p c)) = last_with fst i (pl_unreadable p)) as (E1 & E2 & E3).
    { unfold plan_change. destruct (rc_deleted c); cbn [pl_rows pl_deletions pl_unreadable]; [rewrite elem_of_app, list_elem_of_singleton; intuition congruence|].
      destruct (check_change s c) as [[row o]|] eqn:Hc; cbn [pl_rows pl_deletions pl_unreadable].
      - apply check_change_Some in Hc as [Hid _]. rewrite last_with_snoc, Hid.
        by rewrite (proj2 (Z.eqb_neq _ _) He).
      - rewrite (last_with_snoc fst). cbn [fst]. by rewrite (proj2 (Z.eqb_neq _ _) He). }
    unfold planned. rewrite E1, E3. destruct (last_with rc_item i l) as [c'|]; [|by rewrite E2].
    destruct (rc_deleted c'); [by rewrite E2|]. destruct (check_change s c') as [[]|]; by rewrite E2.
Qed.

Lemma plan_rows s l :
  let p := foldl (plan_change s) empty_plan l in
  Forall2 (fun r o => read_overview (data_key s) (ses_vault_id s) (pull_id r, pull_overview r) = Ok o)
    (pl_rows p) (pl_overviews p).
Proof.
  induction l as [|c l IH] using rev_ind; [constructor|]. cbv zeta in *. rewrite foldl_app. cbn [foldl].
  unfold plan_change at 1 3. destruct (rc_deleted c); [exact IH|].
  destruct (check_change s c) as [[row o]|] eqn:Hc; [|exact IH]. cbn.
  apply Forall2_app; [exact IH|]. constructor; [|done]. by apply check_change_Some in Hc as [_ ?].
Qed.

(** What the pull of [changes] leaves of one item. *)
Definition pulled (v v' : VaultService) (s s' : Session) (changes : list RemoteChange) (i : Z) : Prop :=
  match last_with rc_item i changes with
  | Some c =>
      if rc_deleted c
      then items (store v') !! i = None /\ cached s' i = None /\ unreadable_items (store v') !! i = None
      else match check_change s c with
      | Some (row, o) => items (store v') !! i = Some (row_of row) /\ cached s' i = Some o /\
                         unreadable_items (store v') !! i = None
      | None => items (store v') !! i = items (store v) !! i /\ cached s' i = cached s i /\
                unreadable_items (store v') !! i = Some (rc_revision c)
      end
  | None => items (store v') !! i = items (store v) !! i /\ cached s' i = cached s i /\
            unreadable_items (store v') !! i = unreadable_items (store v) !! i
  end.

Lemma apply_changes_run changes cursor now v s a :
  session v = Ok s -> session_ok (items (store v)) s -> require_account v = Ok a ->
  exists v' rep s',
    apply_changes changes cursor now v = (v', Ok rep) /\ session v' = Ok s' /\
    session_ok (items (store v')) s' /\ same_keys s s' /\ epoch v' = epoch v /\
    let p := foldl (plan_change s) empty_plan (last_changes changes) in
    store v' = (apply_pull (pl_rows p) (pl_deletions p) (pl_unreadable p) ((fun c => (c, now)) <$> cursor) (store v)).1.
Proof.
  intros Hs Hok Ha. set (p := foldl (plan_change s) empty_plan (last_changes changes)).
  destruct (apply_pull (pl_rows p) (pl_deletions p) (pl_unreadable p) ((fun c => (c, now)) <$> cursor) (store v))
    as [st n] eqn:Epull.
  destruct (session_ok_places s (pl_rows p) (pl_overviews p) (items (store v))) as [Hok1 Hk1];
    [apply plan_rows|done|]. set (s1 := foldl _ s (pl_overviews p)) in *.
  destruct (session_ok_forgets s1 _ (pl_deletions p) Hok1) as [Hok2 Hk2].
  set (s2 := foldl _ s1 (pl_deletions p)) in *.
  assert (items st = foldl (fun m i => delete i m) (foldl (fun m r => <[pull_id r := row_of r]> m) (items (store v))
    (pl_rows p)) (pl_deletions p)) as Hst.
  { by rewrite <- (pull_items _ _ (pl_unreadable p) ((fun c => (c, now)) <$> cursor)), Epull. }
  unfold apply_changes. mrun. rewrite Ha. mrun. rewrite Hs. fold p. rewrite Epull. mrun.
  erewrite run_bind by (apply modify_session_run; by rewrite session_set_store). fold s1.
  erewrite run_bind by (apply modify_session_run; by eapply session_set; rewrite session_set_store). fold s2.
  assert (session (set_session (Some s2) (set_session (Some s1) (set_store st v))) = Ok s2) as Hs2.
  { do 2 eapply session_set. by rewrite session_set_store. }
  destruct (_ || _).
  - erewrite run_bind by (by apply modify_session_run). do 3 eexists. split_and!; [done|by eapply session_set| | |done|done].
    + cbn [store set_session set_store]. rewrite Hst. by apply (session_ok_same _ s2).
    + by eapply same_keys_trans.
  - mrun. do 3 eexists. split_and!; [done|exact Hs2| | |done|done].
    + cbn [store set_session set_store]. by rewrite Hst.
    + by eapply same_keys_trans.
Qed.

Lemma apply_changes_effect changes cursor now v s a :
  session v = Ok s -> session_ok (items (store v)) s -> require_account v = Ok a ->
  exists v' rep s',
    apply_changes changes cursor now v = (v', Ok rep) /\ session v' = Ok s' /\
    session_ok (items (store v')) s' /\ (forall i, pulled v v' s s' changes i) /\ same_keys s s' /\ epoch v' = epoch v /\
    account_row (store v') = match cursor with Some c => with_cursor c now <$> account_row (store v) | None => account_row (store v) end.
Proof.
  intros Hs Hok Ha.
  destruct (apply_changes_run changes cursor now v s a) as (v' & rep & s' & Hr & Hs' & Hok' & Hk & Hep & Hst); [done..|].
  exists v', rep, s'. split; [done|]. split; [done|]. split; [done|]. split; [|split; [done|split; [done|]]].
  2: { cbv zeta in Hst. rewrite Hst. destruct (apply_pull_rest (pl_rows (foldl (plan_change s) empty_plan (last_changes changes)))
         (pl_deletions (foldl (plan_change s) empty_plan (last_changes changes)))
         (pl_unreadable (foldl (plan_change s) empty_plan (last_changes changes))) ((fun c => (c, now)) <$> cursor) (store v))
         as (_ & _ & _ & _ & ->). by destruct cursor. }
  intros i. unfold pulled.
  pose proof (plan_changes s (last_changes changes) i (last_changes_nodup changes)) as Hp.
  rewrite last_with_changes in Hp. cbv zeta in Hst. set (p := foldl _ _ _) in *.
  destruct (apply_pull_lookup (pl_rows p) (pl_deletions p) (pl_unreadable p) ((fun c => (c, now)) <$> cursor)
    (store v) i) as [Hi Hu]. rewrite <- Hst in Hi, Hu.
  assert (items (store v') !! i = items (store v) !! i -> cached s' i = cached s i) as Hsame.
  { intros He. rewrite (cache_exact _ _ Hok'), (cache_exact _ _ Hok). unfold readable. rewrite He.
    by destruct Hk as (-> & -> & _). }
  destruct (last_with rc_item i changes) as [c|] eqn:Hc; cbn [planned] in Hp.
  - destruct (rc_deleted c).
    + destruct Hp as (P1 & P2 & P3). rewrite decide_True in Hi by done. rewrite decide_True in Hu by done. rewrite P3 in Hu. split_and!; [done| |done].
      rewrite (cache_exact _ _ Hok'). unfold readable. by rewrite Hi.
    + destruct (check_change s c) as [[row o]|] eqn:Hcc; destruct Hp as (P1 & P2 & P3);
        rewrite decide_False in Hi by done; rewrite decide_False in Hu by done; rewrite P1 in Hi; rewrite P3 in Hu; cbn in Hi, Hu.
      * rewrite P1 in Hu. cbn in Hu. split_and!; [done| |done]. rewrite (cache_exact _ _ Hok'). unfold readable. rewrite Hi.
        cbn [mbind option_bind row_of row_overview]. apply check_change_Some in Hcc as [Hid Hread].
        apply last_with_Some in Hc as [_ Hc]. destruct Hk as (-> & -> & _).
        rewrite <- Hc, <- Hid. by rewrite Hread.
      * split_and!; auto.
  - destruct Hp as (P1 & P2 & P3). rewrite decide_False in Hi by done. rewrite decide_False in Hu by done. rewrite P1 in Hi, Hu. rewrite P3 in Hu.
    cbn in Hi, Hu. split_and!; auto.
Qed.
(** C4: a pull leaves each item as the last change naming it says: deleted,
    replaced by the change's version under its revision when both blobs open
    and agree, or untouched and recorded as unreadable at that revision when
    they do not; items no change names keep everything. *)
Theorem pull_net_effect changes cursor now v s a :
  session v = Ok s -> session_ok (items (store v)) s -> require_account v = Ok a ->
  exists v' rep s',
    apply_changes changes cursor now v = (v', Ok rep) /\ session v' = Ok s' /\
    session_ok (items (store v')) s' /\ forall i, pulled v v' s s' changes i.
Proof.
  intros Hs Hok Ha. destruct (apply_changes_effect changes cursor now v s a) as (v' & rep & s' & H1 & H2 & H3 & H4 & _); [done..|].
  by exists v', rep, s'.
Qed.
End Replica.
