(* ===== verification/Lifecycle.v ===== *)
(** * The vault's lifecycle: create, lock, unlock, change of password

    Properties of Vault.v and Sync.v as whole runs: what was created or
    re-encrypted unlocks again to the same session, a lock wins over an
    unlock in flight, and a published header signs another device in. *)

From S2P Require Import Prelude Errors Text Blob Url Tags Totp Clean Card Identity.
From S2P Require Import CustomField Bank Sso Attachment Model Keys Store Lock Origin Health.
From S2P Require Import BuildItem Vault Items Page ToyCodec Sync Replica.

Section Lifecycle.
Context {C : Crypto} {K : KeyLib} {U : Unicode} {J : JsonLib} {H : HeaderLib}.

(** What an unlock with the password goes through. *)
Record unlocks (password secret_key : list Z) (a : AccountRef) (v : VaultService) (h : HeaderRecord)
    (vk : list Z) (s : Session) : Prop := {
  un_locked : state v = SLocked;
  un_header : Store.header (store v) = Ok (Some h);
  un_format : Store.format_version h = FORMAT_VERSION;
  un_kdf : kdf_validate (Store.kdf h) = Ok ();
  un_accepted : password_refused password = false;
  un_keys : exists m kek auth, derive_master_key password (Store.kdf h) = Ok m /\
    derive_kek_v3 m secret_key a = Ok kek /\ derive_auth_key_from_master m secret_key a = Ok auth /\
    unwrap_vault_key kek (Store.vault_id h) (wrapped_vault_key h) = Ok vk;
  un_session : open_session v (Store.vault_id h) vk = Ok s;
}.

Lemma open_session_store v v' vault vk : store v = store v' -> open_session v vault vk = open_session v' vault vk.
Proof. unfold open_session. by intros ->. Qed.

Lemma unlock_run password secret_key a v h vk s :
  unlocks password secret_key a v h vk s ->
  unlock_for_account password secret_key a v = (open_with s v, Ok ()).
Proof.
  intros [Hl Hh Hf Hk Hp (m & kek & auth & Hm & Hkek & Hauth & Hun) Hs].
  assert (begin_unlock v = (set_state SUnlocking v, Ok {| tk_vault_id := Store.vault_id h; tk_kdf := Store.kdf h;
    tk_scheme := key_scheme h; tk_epoch := epoch v |})) as Hb.
  { unfold begin_unlock, expect_locked, require_header. mrun. rewrite Hl, Hh. cbn [mbind result_bind ok_or]. mrun.
    rewrite Hf, Z.eqb_refl. cbn [negb guard_err]. mrun. by rewrite Hk. }
  unfold unlock_for_account. erewrite run_bind by exact Hb.
  assert (derive_for_account {| tk_vault_id := Store.vault_id h; tk_kdf := Store.kdf h;
    tk_scheme := key_scheme h; tk_epoch := epoch v |} password secret_key a = Ok kek) as ->.
  { unfold derive_for_account, derive_session_for_account. cbn [tk_kdf]. rewrite Hp, Hm. cbn [mbind result_bind].
    rewrite Hkek. cbn [mbind result_bind]. by rewrite Hauth. }
  unfold finish_unlock. cbn [state set_state epoch tk_epoch]. rewrite bool_decide_eq_true_2 by done.
  rewrite Z.eqb_refl. cbn [negb orb].
  assert (complete_unlock (set_state SUnlocking v) {| tk_vault_id := Store.vault_id h; tk_kdf := Store.kdf h;
    tk_scheme := key_scheme h; tk_epoch := epoch v |} (Ok kek) = Ok s) as ->.
  { unfold complete_unlock, require_header. cbn [mbind result_bind store set_state tk_vault_id tk_kdf tk_scheme]. rewrite Hh.
    cbn [mbind result_bind ok_or]. rewrite Z.eqb_refl, !bool_decide_eq_true_2 by done. cbn [negb orb].
    rewrite Hun. cbn [mbind result_bind]. by rewrite (open_session_store _ v). }
  done.
Qed.

Lemma begin_unlock_inv v v1 t :
  begin_unlock v = (v1, Ok t) ->
  exists h, state v = SLocked /\ Store.header (store v) = Ok (Some h) /\ Store.format_version h = FORMAT_VERSION /\
    kdf_validate (Store.kdf h) = Ok () /\ v1 = set_state SUnlocking v /\
    t = {| tk_vault_id := Store.vault_id h; tk_kdf := Store.kdf h; tk_scheme := key_scheme h; tk_epoch := epoch v |}.
Proof.
  unfold begin_unlock, expect_locked, require_header. mrun.
  destruct (state v); try done. mrun. destruct (Store.header (store v)) as [[h|]|] eqn:Hh; cbn [mbind result_bind ok_or]; mrun; try done.
  unfold guard_err. destruct (Z.eqb_spec (Store.format_version h) FORMAT_VERSION); cbn [negb]; mrun; [|done].
  destruct (kdf_validate (Store.kdf h)) as [[]|] eqn:Hk; mrun; [|done].
  intros [= <- <-]. by exists h.
Qed.

Lemma unlock_inv password secret_key a v v' :
  unlock_for_account password secret_key a v = (v', Ok ()) ->
  exists h vk s, unlocks password secret_key a v h vk s /\ v' = open_with s v.
Proof.
  unfold unlock_for_account. intros (t & v1 & Hb & Hf)%M_bind_Ok.
  apply begin_unlock_inv in Hb as (h & Hl & Hh & Hfm & Hk & -> & ->).
  unfold finish_unlock in Hf. destruct (_ || _); [done|].
  destruct (complete_unlock _ _ _) as [s|] eqn:Hc; [|done]. injection Hf as <-.
  unfold complete_unlock in Hc. apply bind_Ok in Hc as (kek & Hd & Hc).
  unfold require_header in Hc. cbn [store set_state] in Hc. rewrite Hh in Hc. cbn [mbind result_bind ok_or] in Hc.
  destruct (_ || _); [done|]. apply bind_Ok in Hc as (vk & Hun & Hs).
  unfold derive_for_account, derive_session_for_account in Hd. cbn [tk_kdf] in Hd.
  destruct (password_refused password) eqn:Hp; [done|].
  apply bind_Ok in Hd as ([kek' auth] & Hd & Hkk). cbn in Hkk. apply (inj Ok) in Hkk. subst kek'.
  apply bind_Ok in Hd as (m & Hm & Hd). apply bind_Ok in Hd as (kek' & Hkek & Hd).
  apply bind_Ok in Hd as (auth' & Hauth & Hd). apply (inj Ok) in Hd. simplify_eq.
  exists h, vk, s. split; [|done]. split; try done. by exists m, kek, auth.
Qed.

(** ** Keys wrapped and unwrapped *)

Lemma wrap_unwrap `{!AeadCorrect C} kek vault vk r w :
  good_nonce r -> length vk = KEY_LEN -> wrap_vault_key kek vault vk r = Ok w ->
  unwrap_vault_key kek vault w = Ok vk.
Proof.
  intros Hg Hl Hw. pose proof (seal_ok _ _ _ _ _ Hw) as (n & ? & ? & -> & _).
  unfold wrap_vault_key in Hw. unfold unwrap_vault_key.
  destruct (seal_open kek (ctx_vault PVaultKey vault) vk n w (Hg n eq_refl) Hw) as [-> _].
  cbn [map_err mbind result_bind]. by rewrite Hl, Nat.eqb_refl.
Qed.

Lemma new_password_accepted p : check_new_master_password p = Ok () -> password_refused p = false.
Proof.
  unfold check_new_master_password, password_refused. destruct (length p <? _)%nat eqn:E1; [done|].
  destruct (_ <? length p)%nat eqn:E2; [done|]. intros _. apply orb_false_iff. split; [|done].
  apply bool_decide_eq_false_2. intros ->. done.
Qed.

Lemma master_kdf p k m : derive_master_key p k = Ok m -> kdf_validate k = Ok ().
Proof. unfold derive_master_key. by intros ([] & Hk & _)%bind_Ok. Qed.

(** A new vault before anything was stored in it. *)
Definition fresh (v : VaultService) : Prop := items (store v) = ∅ /\ unreadable_items (store v) = ∅.

Lemma settings_default_ok : settings_validate settings_default = Ok ().
Proof. by vm_compute. Qed.

Lemma create_inv p rec r v v1 :
  create_account_vault p rec r v = (v1, Ok ()) ->
  exists st key ident blob,
    state v = SLocked /\ Store.header (store v) = Ok None /\ set_account rec (store v) = (st, Ok ()) /\
    derive_data_key (prep_vault_key p) = Ok key /\ derive_identity_item_id (prep_vault_key p) = Ok ident /\
    seal_json key (settings_ctx (Store.vault_id (prep_header p))) settings_default r = Ok blob /\
    (insert_header (prep_header p) blob st).2 = Ok () /\
    v1 = open_with
      {| ses_vault_id := Store.vault_id (prep_header p); data_key := key; ses_vault_key := prep_vault_key p;
         identity_id := ident; overviews := ∅; trash := ∅; ses_settings := settings_default;
         damaged_items := 0; damaged_settings := false; recent_fills := []; generation := 0; health := None |}
      (set_store (insert_header (prep_header p) blob st).1 v).
Proof.
  unfold create_account_vault. mrun. unfold guard_err at 1.
  destruct (bool_decide _) eqn:Hl; cbn [negb]; mrun; [|done]. apply bool_decide_eq_true in Hl.
  destruct (Store.header (store v)) as [h|] eqn:Hh; mrun; [|done].
  destruct h as [h|]; cbn [is_some guard_err]; mrun; [done|].
  intros ([] & v2 & Hacc & Hrun)%M_bind_Ok. unfold on_store in Hacc.
  destruct (set_account rec (store v)) as [st r0] eqn:Eacc. injection Hacc as <- ->.
  revert Hrun. mrun. destruct (derive_data_key _) as [key|] eqn:Hkey; mrun; [|done].
  destruct (derive_identity_item_id _) as [ident|] eqn:Hid; mrun; [|done].
  destruct (seal_json _ _ _ _) as [blob|] eqn:Hb; mrun; [|done].
  intros ([] & v3 & Hins & Hrun)%M_bind_Ok. unfold on_store in Hins. cbn [store set_store] in Hins.
  destruct (insert_header (prep_header p) blob st) as [st' r1] eqn:Eins. injection Hins as <- ->.
  injection Hrun as <-. exists st, key, ident, blob. rewrite Eins. split_and!; done.
Qed.

Lemma set_account_items rec st : items (set_account rec st).1 = items st.
Proof. unfold set_account. destruct (account_row st); [by destruct (negb _)|done]. Qed.

Lemma account_header rec st : header_row (set_account rec st).1 = header_row st.
Proof. unfold set_account. destruct (account_row st); [by destruct (negb _)|done]. Qed.

Lemma create_then_unlocks `{!AeadCorrect C, !JsonLaws J} password a params now sk vault vk r rec r2 v p v1 :
  good_nonce r -> good_nonce r2 -> (forall k, vk = Some k -> length k = KEY_LEN) -> items (store v) = ∅ ->
  prepare_new_account_vault password a params now sk vault vk r = Ok p ->
  create_account_vault (av_prepared p) rec r2 v = (v1, Ok ()) ->
  exists s, session v1 = Ok s /\
    unlocks password (av_secret_key p) a (lock v1).1 (prep_header (av_prepared p)) (prep_vault_key (av_prepared p)) s.
Proof.
  intros Hg1 Hg2 Hlen Hempty Hp Hc. unfold prepare_new_account_vault in Hp.
  apply bind_Ok in Hp as ([] & Hpw & Hp). apply bind_Ok in Hp as (sk' & _ & Hp).
  apply bind_Ok in Hp as (m & Hm & Hp). apply bind_Ok in Hp as (kek & Hkek & Hp).
  apply bind_Ok in Hp as (auth & Hauth & Hp). apply bind_Ok in Hp as (vk' & Hvk & Hp).
  apply bind_Ok in Hp as (w & Hw & Hp). apply (inj Ok) in Hp. subst p. cbn [av_prepared prep_header prep_vault_key av_secret_key] in *.
  destruct vk as [vk0|]; [|done]. apply (inj Ok) in Hvk. subst vk0.
  apply create_inv in Hc as (st & key & ident & blob & Hl & Hh & Hacc & Hkey & Hid & Hb & Hins & ->).
  cbn [prep_header prep_vault_key Store.vault_id] in *. set (h := {| Store.format_version := _ |}) in *.
  assert (header_row st = None) as Hst.
  { unfold insert_header in Hins. by destruct (header_row st). }
  assert (insert_header h blob st = (set_settings_row (Some blob) (set_header_row
    (Some {| row_format_version := Store.format_version h; row_vault_id := Store.vault_id h;
       row_kdf := Store.kdf h; row_wrapped_vault_key := wrapped_vault_key h; row_created_at := Store.created_at h;
       row_key_scheme := key_scheme_to_db (key_scheme h); row_header_revision := Store.revision h |}) st), Ok ())) as Ei.
  { unfold insert_header. by rewrite Hst. }
  rewrite Ei. cbn [fst]. eexists. split; [done|]. split; try done.
  - by apply master_kdf in Hm.
  - by apply new_password_accepted.
  - exists m, kek, auth. split_and!; try done. cbn. apply (wrap_unwrap _ _ _ r); [done| |done]. by apply Hlen.
  - unfold open_session. rewrite Hkey. cbn [mbind result_bind store lock fst open_with set_store].
    rewrite Hid. cbn [mbind result_bind]. unfold item_overviews. cbn [items set_settings_row set_header_row settings_blob settings_row].
    assert (items st = ∅) as ->.
    { pose proof (set_account_items rec (store v)) as Hi. rewrite Hacc in Hi. cbn in Hi. congruence. }
    rewrite map_to_list_empty. cbn [map foldl].
    assert (forall b, b = Some blob -> read_settings key (Store.vault_id h) b = Some settings_default) as Hread.
    { intros b ->. unfold read_settings. cbn [mbind option_bind].
      apply seal_json_open in Hb; [|done]. change (Store.vault_id h) with vault. rewrite Hb. cbn [result_ok mbind option_bind]. by rewrite settings_default_ok. }
    by rewrite Hread.
Qed.

(** ** A change of password *)

Lemma open_session_tables v v' vault vk :
  items (store v) = items (store v') -> settings_row (store v) = settings_row (store v') ->
  open_session v vault vk = open_session v' vault vk.
Proof. unfold open_session, item_overviews, settings_blob. by intros -> ->. Qed.

Lemma rekey_derive_inv t current new k sk a r rk :
  rekey_derive t current new k sk a r = Ok rk ->
  check_new_master_password new = Ok () /\
  exists m kek vk m' kek' auth',
    derive_master_key current (Store.kdf (rk_header t)) = Ok m /\ derive_kek_v3 m sk a = Ok kek /\
    unwrap_vault_key kek (Store.vault_id (rk_header t)) (wrapped_vault_key (rk_header t)) = Ok vk /\
    derive_master_key new k = Ok m' /\ derive_kek_v3 m' sk a = Ok kek' /\
    derive_auth_key_from_master m' sk a = Ok auth' /\
    wrap_vault_key kek' (Store.vault_id (rk_header t)) vk r = Ok (re_wrapped rk) /\ re_kdf rk = k /\
    re_scheme rk = AccountBound.
Proof.
  unfold rekey_derive. intros ([] & Hp & H1)%bind_Ok. apply bind_Ok in H1 as (m & Hm & H1).
  apply bind_Ok in H1 as (kek & Hkek & H1). apply bind_Ok in H1 as (auth & _ & H1).
  apply bind_Ok in H1 as (vk & Hvk & H1). apply bind_Ok in H1 as (m' & Hm' & H1).
  apply bind_Ok in H1 as (kek' & Hkek' & H1). apply bind_Ok in H1 as (auth' & Hauth' & H1).
  apply bind_Ok in H1 as (w & Hw & H1). apply (inj Ok) in H1. subst rk.
  split; [done|]. by exists m, kek, vk, m', kek', auth'.
Qed.

Lemma unwrap_length kek vault w vk : unwrap_vault_key kek vault w = Ok vk -> length vk = KEY_LEN.
Proof.
  unfold unwrap_vault_key. intros (x & _ & H1)%bind_Ok.
  destruct (Nat.eqb_spec (length x) KEY_LEN); [|done]. apply (inj Ok) in H1. by subst.
Qed.

Lemma header_inv st h :
  Store.header st = Ok (Some h) ->
  exists r, header_row st = Some r /\ in_range 0 u32_max (row_format_version r) = true /\
    0 <= row_header_revision r /\ Store.format_version h = row_format_version r /\
    Store.vault_id h = row_vault_id r /\ Store.kdf h = row_kdf r /\
    wrapped_vault_key h = row_wrapped_vault_key r /\ Store.revision h = row_header_revision r.
Proof.
  unfold Store.header. destruct (header_row st) as [r|]; [|done]. unfold guard_err.
  destruct (in_range 0 u32_max (row_format_version r)) eqn:Hf; [|done]. cbn [negb mbind result_bind].
  destruct (key_scheme_from_db (row_key_scheme r)); [|done]. cbn [mbind result_bind].
  destruct (Z.ltb_spec (row_header_revision r) 0); [done|]. cbn [mbind result_bind].
  intros [= <-]. exists r. by split_and!.
Qed.

Lemma commit_rekey_inv t rk rev v v' :
  commit_rekey t (Ok rk) rev v = (v', Ok ()) ->
  exists h st, Store.header (store v) = Ok (Some h) /\ header_changed h (rk_header t) = false /\
    rev = u64_saturating_add (Store.revision h) 1 /\
    update_key_wrap (re_kdf rk) (re_wrapped rk) (re_scheme rk) rev (store v) = (st, Ok ()) /\
    v' = set_store (raise_max_header_rev (as_i64 rev) st) v.
Proof.
  unfold commit_rekey, require_header. mrun. destruct (session v); mrun; [|done]. unfold guard_err.
  destruct (negb (rk_epoch t =? epoch v)); mrun; [done|].
  destruct (Store.header (store v)) as [[h|]|] eqn:Hh; cbn [mbind result_bind ok_or]; mrun; try done.
  destruct (header_changed h (rk_header t)) eqn:Hc; mrun; [done|]. destruct (require_account v); mrun; [|done].
  destruct (Z.eqb_spec rev (u64_saturating_add (Store.revision h) 1)) as [Hr|]; cbn [negb]; mrun; [|done].
  intros ([] & v1 & Hu & Hm)%M_bind_Ok. unfold on_store in Hu.
  destruct (update_key_wrap _ _ _ _ _) as [st r0] eqn:Eu. injection Hu as <- ->.
  unfold on_store', mmodify in Hm. injection Hm as <-. by exists h, st.
Qed.

Lemma header_same a b : header_changed a b = false ->
  Store.vault_id a = Store.vault_id b /\ Store.kdf a = Store.kdf b /\ wrapped_vault_key a = wrapped_vault_key b /\
  Store.revision a = Store.revision b.
Proof.
  unfold header_changed. rewrite !orb_false_iff, !negb_false_iff, !Z.eqb_eq, !bool_decide_eq_true. tauto.
Qed.

Lemma rekey_unlocks `{!AeadCorrect C} current new k sk a r v0 h vk s v' :
  unlocks current sk a v0 h vk s -> good_nonce r ->
  (exists rec, account (store v0) = Some rec /\ to_ref rec = Ok a) ->
  change_master_password_for_account current new k sk r (open_with s v0) = (v', Ok ()) ->
  session v' = Ok s /\ epoch v' = epoch v0 /\
  exists h', unlocks new sk a (lock v').1 h' vk s /\ Store.revision h < Store.revision h'.
Proof.
  intros Hu Hg (rec & Hrec & Href) Hc. destruct Hu as [_ Hh Hf _ _ (m & kek & auth & Hm & Hkek & _ & Hun) Hs].
  unfold change_master_password_for_account, begin_rekey, session, require_header in Hc. revert Hc. mrun.
  cbn [open_with state session_ store mbind result_bind]. rewrite Hh. cbn [mbind result_bind ok_or].
  rewrite Hrec. cbn [mbind result_bind]. rewrite Href. cbn [mbind result_bind]. mrun. cbn [rk_account ok_or rk_header]. mrun.
  set (t := {| rk_header := h |}). intros Hc.
  destruct (rekey_derive t current new k sk a r) as [rk|e] eqn:Hd.
  2:{ revert Hc. unfold commit_rekey. mrun. destruct (session _); mrun; [|done].
      unfold guard_err at 1. by destruct (negb _); mrun. }
  apply rekey_derive_inv in Hd as (Hnew & m0 & kek0 & vk0 & m' & kek' & auth' & E1 & E2 & E3 & Hm' & Hkek' & Hauth' & Hw & Hk & Hsch).
  subst t. cbn [rk_header] in *. rewrite Hm in E1. apply (inj Ok) in E1. subst m0. rewrite Hkek in E2. apply (inj Ok) in E2. subst kek0.
  rewrite Hun in E3. apply (inj Ok) in E3. subst vk0.
  apply commit_rekey_inv in Hc as (h1 & st & Hh1 & Hch & Hrev & Hup & ->). cbn [store open_with rk_header] in *.
  assert (h1 = h) as -> by congruence. clear Hh1 Hch Hrev.
  unfold update_key_wrap in Hup. set (rev := u64_saturating_add (Store.revision h) 1) in *.
  destruct (Z.ltb_spec i64_max rev); [done|]. pose proof (header_inv _ _ Hh) as (row & Hrow & Hr1 & Hr2 & Hr3 & Hr4 & Hr5 & Hr6 & Hr7).
  rewrite Hrow in Hup. injection Hup as <-. rewrite Hk, Hsch.
  split; [done|]. split; [done|].
  exists {| Store.format_version := row_format_version row; Store.vault_id := row_vault_id row; Store.kdf := k;
    wrapped_vault_key := re_wrapped rk; Store.created_at := row_created_at row; key_scheme := AccountBound; Store.revision := rev |}.
  assert (Store.revision h < rev /\ 0 <= rev) as [Hrv1 Hrv2].
  { unfold rev, u64_saturating_add, clamp, i64_max, u64_max in *. lia. }
  split; [|done]. split; try done.
  - unfold Store.header. cbn -[in_range]. rewrite Hr1. cbn [negb guard_err mbind result_bind].
    unfold guard_err. destruct (Z.ltb_spec rev 0); [lia|done].
  - cbn. congruence.
  - by apply master_kdf in Hm'.
  - by apply new_password_accepted.
  - exists m', kek', auth'. split_and!; [done..|]. cbn [Store.vault_id wrapped_vault_key]. rewrite <- Hr4.
    apply (wrap_unwrap _ _ _ r); [done| |done]. by eapply unwrap_length.
  - cbn [Store.vault_id]. rewrite <- Hr4, <- Hs. by apply open_session_tables.
Qed.

(** ** The published header *)

Lemma header_roundtrip `{!AeadCorrect C, !HeaderLaws H} key h r bytes :
  good_nonce r -> encode_header key h r = Ok bytes -> len bytes <= 64 * 1024 ->
  Store.format_version h = FORMAT_VERSION -> kdf_validate (Store.kdf h) = Ok () ->
  exists file, parse_header bytes = Ok file /\ body_to_record (hf_body file) = Ok h /\ verify_header key file = true.
Proof.
  intros Hg He Hlen Hf Hk. unfold encode_header in He. apply bind_Ok in He as (att & Hatt & He).
  apply (inj Ok) in He. subst bytes. eexists. split_and!.
  - unfold parse_header. destruct (Z.ltb_spec (64 * 1024) (len (file_to_json {| hf_body := header_body h;
      attestation := base64_encode att |}))); [lia|].
    rewrite file_roundtrip. cbn [ok_or mbind result_bind hf_body header_body hb_format vault_format hb_kdf].
    rewrite Hf, !Z.eqb_refl. cbn [negb orb]. by rewrite Hk.
  - unfold body_to_record. cbn. rewrite base64_roundtrip. cbn. by destruct h as [? ? ? ? ? [] ?].
  - unfold verify_header. cbn [attestation hf_body]. rewrite base64_roundtrip.
    pose proof (seal_ok _ _ _ _ _ Hatt) as (n & ? & ? & -> & _).
    destruct (seal_open _ _ _ _ _ (Hg n eq_refl) Hatt) as [Ho _]. change (hb_vault_id (header_body h)) with (Store.vault_id h).
    rewrite Ho. by apply bool_decide_eq_true_2.
Qed.

Lemma sign_in_run `{!AeadCorrect C, !HeaderLaws H} password sk a v h vk s r bytes :
  unlocks password sk a v h vk s -> good_nonce r ->
  encode_account_header r (open_with s v) = Ok bytes -> len bytes <= 64 * 1024 ->
  exists auth, prepare_sign_in bytes password sk a = Ok ({| prep_header := h; prep_vault_key := vk |}, auth).
Proof.
  intros [_ Hh Hf Hk _ (m & kek & auth & Hm & Hkek & Hauth & Hun) Hs] Hg He Hlen.
  unfold encode_account_header, account_bound_header, require_header in He. cbn [open_with store] in He.
  rewrite Hh in He. cbn [mbind result_bind ok_or session state session_ open_with] in He.
  assert (derive_data_key vk = Ok (data_key s)) as Hkey.
  { unfold open_session in Hs. apply bind_Ok in Hs as (key & Hkey & Hs). apply bind_Ok in Hs as (i & _ & Hs).
    destruct (foldl _ _ _) as [[??]?]. apply (inj Ok) in Hs. by subst s. }
  destruct (header_roundtrip (data_key s) h r bytes) as (file & Hp & Hb & Hv); [done..|].
  exists auth. unfold prepare_sign_in. rewrite Hp. cbn [mbind result_bind]. rewrite Hb. cbn [mbind result_bind].
  rewrite Hm. cbn [mbind result_bind]. rewrite Hkek. cbn [mbind result_bind]. rewrite Hauth. cbn [mbind result_bind].
  rewrite Hun. cbn [mbind result_bind]. rewrite Hkey. cbn [mbind result_bind]. by rewrite Hv.
Qed.

(** ** The lock *)

Lemma lock_epoch v : in_u64 (epoch v) -> epoch (lock v).1 <> epoch v.
Proof.
  unfold in_u64, u64_max, lock, u64_wrapping_add. cbn. intros He Heq.
  destruct (decide (epoch v + 1 = 2 ^ 64)) as [E|E]; [rewrite E, Z.mod_same in Heq by lia; lia|].
  rewrite Z.mod_small in Heq; lia.
Qed.

Lemma finish_refused t key v : tk_epoch t <> epoch v -> finish_unlock t key v = (v, Err Locked).
Proof.
  intros He. unfold finish_unlock. rewrite (proj2 (Z.eqb_neq _ _) He). by rewrite orb_true_r.
Qed.

Lemma commit_refused w rev v : sw_epoch w <> epoch v -> commit_write w rev v = (v, Err Locked).
Proof.
  intros He. unfold commit_write. mrun. destruct (session v) as [s|e] eqn:Es; [|].
  - mrun. rewrite (proj2 (Z.eqb_neq _ _) He). by cbn [negb guard_err].
  - unfold session in Es. destruct (state v), (session_ v); congruence.
Qed.

Lemma rekey_refused t rk rev v : rk_epoch t <> epoch v -> commit_rekey t rk rev v = (v, Err Locked).
Proof.
  intros He. unfold commit_rekey. mrun. destruct (session v) as [s|e] eqn:Es; [|].
  - mrun. rewrite (proj2 (Z.eqb_neq _ _) He). by cbn [negb guard_err].
  - unfold session in Es. destruct (state v), (session_ v); congruence.
Qed.

(** Refused as locked, with the service left as it was. *)
Definition refused {A} (m : V A) (v : VaultService) : Prop := m v = (v, Err Locked).

(** Locked and unlocked again with these credentials, the vault holds the
    session [s]. *)
Definition reopens (password secret_key : list Z) (a : AccountRef) (v : VaultService) (s : Session) : Prop :=
  exists v', unlock_for_account password secret_key a (lock v).1 = (v', Ok ()) /\ session v' = Ok s.

Lemma unlocks_reopens password secret_key a v h vk s :
  unlocks password secret_key a (lock v).1 h vk s -> reopens password secret_key a v s.
Proof. intros Hu. eexists. split; [by apply (unlock_run _ _ _ _ _ _ _ Hu)|done]. Qed.

(** ** Properties *)

(** C25: a lock wins over work in flight.  An unlock begun before the lock is
    refused when its slow key derivation comes back, whatever key it brings,
    even if another unlock has begun meanwhile; and a write or a password
    change prepared before the lock is refused by every later state of that
    epoch, which is left as it was. *)
Theorem lock_beats_work_in_flight v v1 t key :
  in_u64 (epoch v) -> begin_unlock v = (v1, Ok t) ->
  let v2 := (lock v1).1 in
  refused (finish_unlock t key) v2 /\
  (forall v3 t', begin_unlock v2 = (v3, Ok t') -> refused (finish_unlock t key) v3) /\
  (forall v3 w rev, epoch v3 = epoch v2 -> sw_epoch w = epoch v -> refused (commit_write w rev) v3) /\
  (forall v3 rt rk rev, epoch v3 = epoch v2 -> rk_epoch rt = epoch v -> refused (commit_rekey rt rk rev) v3).
Proof.
  intros He (h & _ & _ & _ & _ & -> & ->)%begin_unlock_inv v2. subst v2.
  pose proof (lock_epoch (set_state SUnlocking v) He) as Hne. cbn [epoch set_state] in Hne. split_and!.
  - apply finish_refused. cbn [tk_epoch]. congruence.
  - intros v3 t' (h' & _ & _ & _ & _ & -> & ->)%begin_unlock_inv. apply finish_refused. cbn [tk_epoch epoch set_state]. congruence.
  - intros v3 w rev E1 E2. apply commit_refused. congruence.
  - intros v3 rt rk rev E1 E2. apply rekey_refused. congruence.
Qed.

(** A vault created for an account, then locked, unlocks with the
    password, the secret key and the account it was created with, to the
    very session the creation opened. *)
Lemma create_lock_unlock `{!AeadCorrect C, !JsonLaws J} password a params now sk vault vk r rec r2 v p v1 :
  good_nonce r -> good_nonce r2 -> (forall k, vk = Some k -> length k = KEY_LEN) -> items (store v) = ∅ ->
  prepare_new_account_vault password a params now sk vault vk r = Ok p ->
  create_account_vault (av_prepared p) rec r2 v = (v1, Ok ()) ->
  exists s, session v1 = Ok s /\ reopens password (av_secret_key p) a v1 s.
Proof.
  intros Hg1 Hg2 Hl He Hp Hc.
  destruct (create_then_unlocks password a params now sk vault vk r rec r2 v p v1) as (s & Hs & Hu); [done..|].
  exists s. split; [done|]. by eapply unlocks_reopens.
Qed.

(** C26: after a change of the master password the vault, once locked,
    unlocks with the new password to the very session it had: nothing but
    the wrapped key was re-encrypted, and the header's revision grew. *)
Theorem rekey_then_unlock `{!AeadCorrect C} current new k sk a r v0 v v' :
  unlock_for_account current sk a v0 = (v, Ok ()) ->
  (exists rec, account (store v0) = Some rec /\ to_ref rec = Ok a) -> good_nonce r ->
  change_master_password_for_account current new k sk r v = (v', Ok ()) ->
  exists s h h', session v = Ok s /\ session v' = Ok s /\ reopens new sk a v' s /\
    Store.header (store v) = Ok (Some h) /\ Store.header (store v') = Ok (Some h') /\
    Store.revision h < Store.revision h'.
Proof.
  intros (h & vk & s & Hu & ->)%unlock_inv Hrec Hg Hc.
  destruct (rekey_unlocks current new k sk a r v0 h vk s v' Hu Hg Hrec Hc) as (Hs & _ & h' & Hu' & Hr).
  exists s, h, h'. split_and!; [done..|by eapply unlocks_reopens| | |done].
  - apply (un_header _ _ _ _ _ _ _ Hu).
  - apply (un_header _ _ _ _ _ _ _ Hu').
Qed.

(** A device that unlocks publishes a header that signs another device
    in with the same password, secret key and account: it recovers the
    published header exactly and the vault key of this session. *)
Lemma published_header_signs_in `{!AeadCorrect C, !HeaderLaws H} password sk a v0 v r bytes :
  unlock_for_account password sk a v0 = (v, Ok ()) -> good_nonce r ->
  encode_account_header r v = Ok bytes -> len bytes <= 64 * 1024 ->
  exists s p auth, session v = Ok s /\ prepare_sign_in bytes password sk a = Ok (p, auth) /\
    Store.header (store v) = Ok (Some (prep_header p)) /\ prep_vault_key p = ses_vault_key s.
Proof.
  intros (h & vk & s & Hu & ->)%unlock_inv Hg He Hlen.
  destruct (sign_in_run password sk a v0 h vk s r bytes Hu Hg He Hlen) as [auth Ha].
  exists s. do 2 eexists. split_and!; [done|exact Ha|apply (un_header _ _ _ _ _ _ _ Hu)|].
  pose proof (un_session _ _ _ _ _ _ _ Hu) as Hs. unfold open_session in Hs.
  apply bind_Ok in Hs as (key & _ & Hs). apply bind_Ok in Hs as (i & _ & Hs).
  destruct (foldl _ _ _) as [[??]?]. apply (inj Ok) in Hs. by subst s.
Qed.
End Lifecycle.

(** ** A concrete vault *)

Module Sample.
Import Blob.Toy ToyUnicode ToyCodec.

(** A header as its numbers, one after the other. *)
Definition flat (b : HeaderBody) : list Z :=
  [hb_format b; hb_vault_id b; vault_format b; hb_revision b; hb_created_at b; memory_kib (hb_kdf b);
   iterations (hb_kdf b); parallelism (hb_kdf b); len (salt (hb_kdf b))] ++ salt (hb_kdf b) ++ hb_wrapped_vault_key b.
Definition unflat (l : list Z) : option HeaderBody :=
  match l with
  | f :: v :: vf :: r :: c :: m :: i :: p :: n :: rest =>
      Some {| hb_format := f; hb_vault_id := v; vault_format := vf; hb_key_scheme := AccountBound;
              hb_kdf := {| memory_kib := m; iterations := i; parallelism := p; salt := take (Z.to_nat n) rest |};
              hb_wrapped_vault_key := drop (Z.to_nat n) rest; hb_revision := r; hb_created_at := c |}
  | _ => None
  end.

Lemma unflat_flat b : unflat (flat b) = Some b.
Proof.
  destruct b as [? ? ? [] [? ? ? sl] ? ? ?]. unfold flat, unflat. cbn -[Z.of_nat Z.to_nat].
  by rewrite Nat2Z.id, take_app_length, drop_app_length.
Qed.

#[export] Instance header_lib : HeaderLib := {|
  canonical := flat;
  file_to_json := fun f => len (flat (hf_body f)) :: flat (hf_body f) ++ attestation f;
  file_from_json := fun l => match l with
    | n :: l => (fun b => {| hf_body := b; attestation := drop (Z.to_nat n) l |}) <$> unflat (take (Z.to_nat n) l)
    | [] => None end;
  base64_encode := fun l => l; base64_decode := Some |}.

#[export] Instance header_laws : HeaderLaws header_lib.
Proof.
  split; [| |done].
  - intros b b'. cbn -[flat]. intros E%(f_equal unflat). rewrite !unflat_flat in E. by injection E.
  - intros [b att]. cbn -[Z.of_nat Z.to_nat flat]. by rewrite Nat2Z.id, take_app_length, drop_app_length, unflat_flat.
Qed.

Definition of_ok {E A} (d : A) (r : result E A) : A := match r with Ok a => a | Err _ => d end.
Definition password : list Z := lit "correct horse".
Definition who : AccountRef := {| ref_id := 5; ref_email := lit "a@b.c" |}.
Definition params : KdfParams := {| memory_kib := 131072; iterations := 4; parallelism := 4; salt := replicate 16 1 |}.
Definition record : AccountRecord :=
  {| Store.account_id := 5; Store.email := lit "a@b.c"; server_url := lit "https://x.y"; server_cursor := 0;
     max_header_rev := 0; last_synced_at := None |}.
Definition nonce (n : Z) : option (list Z) := Some (replicate 12 n).
Definition prepared : Result AccountVault :=
  prepare_new_account_vault password who params 1000 (Some (replicate 16 7)) 9 (Some (replicate 32 3)) (nonce 1).
Definition no_vault : AccountVault :=
  {| av_prepared := {| prep_header := {| Store.format_version := 0; Store.vault_id := 0; Store.kdf := params;
       wrapped_vault_key := []; Store.created_at := 0; key_scheme := AccountBound; Store.revision := 0 |};
       prep_vault_key := [] |}; av_secret_key := []; av_auth_key := [] |}.
Definition vault0 : AccountVault := of_ok no_vault prepared.
Definition created : VaultService := (create_account_vault (av_prepared vault0) record (nonce 2) (new_service empty_store)).1.
Definition locked : VaultService := (lock created).1.
Definition unlocked : VaultService := (unlock_for_account password (av_secret_key vault0) who locked).1.
Definition rekeyed : VaultService :=
  (change_master_password_for_account password (lit "battery staple") params (av_secret_key vault0) (nonce 3) unlocked).1.

Lemma nonce_good n : good_nonce (nonce n).
Proof. unfold nonce. intros x [= <-]. done. Qed.

Definition ticket : UnlockTicket := {| tk_vault_id := 9; tk_kdf := params; tk_scheme := AccountBound; tk_epoch := 1 |}.
Definition unlocking : VaultService := (begin_unlock locked).1.

Lemma lock_beats_work_in_flight_witness :
  begin_unlock locked = (unlocking, Ok ticket) /\
  refused (finish_unlock ticket (Ok [])) (lock unlocking).1.
Proof.
  destruct (lock_beats_work_in_flight locked unlocking ticket (Ok [])) as [Hl _].
  - vm_compute. by split.
  - vm_compute. reflexivity.
  - split; [vm_compute; reflexivity|exact Hl].
Defined.

Lemma create_lock_unlock_witness :
  exists s, session created = Ok s /\ reopens password (av_secret_key vault0) who created s.
Proof.
  apply (create_lock_unlock password who params 1000 (Some (replicate 16 7)) 9 (Some (replicate 32 3)) (nonce 1) record
    (nonce 2) (new_service empty_store) vault0 created).
  - apply nonce_good.
  - apply nonce_good.
  - by intros k [= <-].
  - done.
  - vm_compute. reflexivity.
  - vm_compute. reflexivity.
Defined.

Lemma rekey_then_unlock_witness :
  exists s h h', session unlocked = Ok s /\ session rekeyed = Ok s /\
    reopens (lit "battery staple") (av_secret_key vault0) who rekeyed s /\ Store.header (store unlocked) = Ok (Some h) /\ Store.header (store rekeyed) = Ok (Some h') /\
    Store.revision h < Store.revision h'.
Proof.
  apply (rekey_then_unlock password (lit "battery staple") params (av_secret_key vault0) who (nonce 3) locked unlocked rekeyed).
  - vm_compute. reflexivity.
  - exists record. split; vm_compute; reflexivity.
  - apply nonce_good.
  - vm_compute. reflexivity.
Defined.

Lemma published_header_signs_in_witness :
  exists bytes s p auth, encode_account_header (nonce 4) unlocked = Ok bytes /\ session unlocked = Ok s /\
    prepare_sign_in bytes password (av_secret_key vault0) who = Ok (p, auth) /\
    Store.header (store unlocked) = Ok (Some (prep_header p)) /\ prep_vault_key p = ses_vault_key s.
Proof.
  exists (of_ok [] (encode_account_header (nonce 4) unlocked)).
  destruct (published_header_signs_in password (av_secret_key vault0) who locked unlocked (nonce 4)
    (of_ok [] (encode_account_header (nonce 4) unlocked))) as (s & p & auth & H1).
  - vm_compute. reflexivity.
  - apply nonce_good.
  - vm_compute. reflexivity.
  - apply Z.leb_le. vm_compute. reflexivity.
  - exists s, p, auth. split; [vm_compute; reflexivity|exact H1].
Defined.
End Sample.
