(* ===== verification/Activity.v ===== *)
(** * What this device did with the vault, and look-alike sites
      (crates/havenkeys-core/src: activity.rs, lookalike.rs, find_matches and
      lookalike_for_page of vault.rs)

    The sealed record of uses and searches, the ranking it gives, and the
    warning for a page that only looks like a saved site.  A score is a
    binary64 of the Standard Library's specification of floats; [powf] is the
    platform's, and a parameter. *)

From Stdlib Require Import Floats.SpecFloat.
From S2P Require Import Prelude Errors Text Blob Url Tags Totp Clean Card Identity.
From S2P Require Import CustomField Bank Sso Attachment Model Keys Store Origin Health BuildItem.
From S2P Require Import Vault Items Page ToyCodec Sync Replica.

(** ** Scores *)

Abbreviation f64 := spec_float.

Class FloatLib := half_powf : f64 -> f64.

Definition f64_of_Z (z : Z) : f64 := binary_normalize 53 1024 z 0 false.

(** [total_cmp] compares the bits, those of a negative number flipped. *)
Definition f64_magnitude (x : f64) : Z :=
  match x with
  | S754_zero _ => 0
  | S754_infinity _ => 2047 * 2 ^ 52
  | S754_nan => 2047 * 2 ^ 52 + 2 ^ 51
  | S754_finite _ m e => if Z.pos m <? 2 ^ 52 then Z.pos m else (e + 1075) * 2 ^ 52 + (Z.pos m - 2 ^ 52)
  end.
Definition f64_key (x : f64) : Z :=
  match x with
  | S754_zero true | S754_infinity true | S754_finite true _ _ => -1 - f64_magnitude x
  | _ => f64_magnitude x
  end.
Definition OrderedScore (x : f64) : Z := f64_key x.

Definition HALF_LIFE_MS : Z := 30 * DAY_MS.
Definition FORGET_AFTER_MS : Z := 365 * DAY_MS.
Definition MAX_RECENT_SEARCHES : nat := 10.
Definition VERSION : Z := 1.

Record Use := { score : f64; last_ms : Z }.
Record Activity := { act_version : Z; uses : gmap Z Use; searches : list (list Z) }.

Definition default_activity : Activity := {| act_version := VERSION; uses := ∅; searches := [] |}.
Definition with_uses (u : gmap Z Use) (a : Activity) : Activity :=
  {| act_version := act_version a; uses := u; searches := searches a |}.
Definition with_searches (l : list (list Z)) (a : Activity) : Activity :=
  {| act_version := act_version a; uses := uses a; searches := l |}.

(** A use the record still counts. *)
Definition remembered (now_ms : Z) (u : Use) : bool := i64_saturating_sub now_ms (last_ms u) <=? FORGET_AFTER_MS.

Section Activity.
Context {C : Crypto} {K : KeyLib} {U : Unicode} {J : JsonLib} {UL : UrlLib} {SL : SiteLib UL} {L : TotpLib}.
Context {FL : FloatLib} {AC : Codec Activity}.

Definition decayed (s : f64) (from_ms to_ms : Z) : f64 :=
  let elapsed := f64_of_Z (Z.max (i64_saturating_sub to_ms from_ms) 0) in
  SFmul 53 1024 s (half_powf (SFdiv 53 1024 elapsed (f64_of_Z HALF_LIFE_MS))).

(** ** The record *)

Definition activity (v : VaultService) : Result Activity :=
  match read_local ActivitySlot v with
  | Ok (Some a) => Ok (if act_version a =? VERSION then a else default_activity)
  | Ok None => Ok default_activity
  | Err (Corrupted | Decryption) => Ok default_activity
  | Err e => Err e
  end.

Definition save_activity (a : Activity) (now_ms : Z) (random : option (list Z)) : V () :=
  v ← mget;
  s ← mlift (session v);
  let kept := filter (fun p => (is_some (overviews s !! p.1) || is_some (trash s !! p.1))
                               && remembered now_ms p.2 = true) (uses a) in
  write_local ActivitySlot (with_uses kept a) random.

Definition next_use (now_ms : Z) (u : option Use) : Use :=
  match u with
  | Some u => {| score := SFadd 53 1024 (decayed (score u) (last_ms u) now_ms) (f64_of_Z 1);
                 last_ms := Z.max now_ms (last_ms u) |}
  | None => {| score := f64_of_Z 1; last_ms := now_ms |}
  end.

Definition record_use (item now_ms : Z) (random : option (list Z)) : V () :=
  v ← mget;
  s ← mlift (session v);
  _ ← mlift (guard_err (is_none (overviews s !! item)) NotFound);
  a ← mlift (activity v);
  save_activity (with_uses (<[item := next_use now_ms (uses a !! item)]> (uses a)) a) now_ms random.

(** ** Ranking *)

Definition score_of (a : Activity) (now_ms item : Z) : f64 :=
  match uses a !! item with
  | Some u => if remembered now_ms u then decayed (score u) (last_ms u) now_ms else S754_zero false
  | None => S754_zero false
  end.
Definition use_score (now_ms : Z) (v : VaultService) : Result (Z -> f64) :=
  a ← activity v; Ok (score_of a now_ms).

Definition rank_key (score : Z -> f64) (s : Suggestion) : Z * (Reverse Z * (list Z * Z)) :=
  (rank (strength s), (Build_Reverse (OrderedScore (score (sg_id s))), (to_lowercase (sg_title s), sg_id s))).
Definition rank_by_use (l : list Suggestion) (now_ms : Z) (v : VaultService) : Result (list Suggestion) :=
  score ← use_score now_ms v; Ok (sort_by_key (rank_key score) l).

Definition find_matches (page_url : list Z) (top_url : option (list Z)) (now_ms : Z) (v : VaultService)
    : Result (list Suggestion) :=
  policy ← match_policy v;
  out ← page_matches page_url top_url policy v;
  rank_by_use out now_ms v.

Definition frequently_used (n : nat) (now_ms : Z) (v : VaultService) : Result (list ItemOverview) :=
  s ← session v;
  a ← activity v;
  let ranked := omap (fun p : Z * Use =>
                  if (p.1 =? identity_id s) || negb (remembered now_ms p.2) then None
                  else (fun o => (decayed (score p.2) (last_ms p.2) now_ms, last_ms p.2, o)) <$> overviews s !! p.1)
                (map_to_list (uses a)) in
  let key (r : f64 * Z * ItemOverview) :=
    let '(sc, last, o) := r in (Build_Reverse (f64_key sc), (Build_Reverse last, Model.id o)) in
  Ok (map snd (take n (sort_by_key key ranked))).

Definition recently_created (n : nat) (v : VaultService) : Result (list ItemOverview) :=
  s ← session v;
  Ok (take n (sort_by_key (fun o => (Build_Reverse (Model.created_at o), Model.id o))
                (List.filter (fun o => negb (Model.id o =? identity_id s)) (Items.values (overviews s))))).

(** ** Searches *)

Definition recent_searches (v : VaultService) : Result (list (list Z)) :=
  _ ← session v; a ← activity v; Ok (searches a).

Definition push_search (query : list Z) (l : list (list Z)) : list (list Z) :=
  let lower := to_lowercase query in
  take MAX_RECENT_SEARCHES (query :: List.filter (fun q => negb (bool_decide (to_lowercase q = lower))) l).

Definition record_search (query : list Z) (now_ms : Z) (random : option (list Z)) : V () :=
  v ← mget;
  _ ← mlift (session v);
  let query := trim query in
  if bool_decide (query = []) then mret ()
  else
    _ ← mlift (guard_err (MAX_SEARCH_QUERY_CHARS <? length query)%nat (InvalidInput "search query too long"));
    a ← mlift (activity v);
    save_activity (with_searches (push_search query (searches a)) a) now_ms random.

Definition clear_recent_searches (now_ms : Z) (random : option (list Z)) : V () :=
  v ← mget;
  _ ← mlift (session v);
  a ← mlift (activity v);
  save_activity (with_searches [] a) now_ms random.
End Activity.

(** ** Look-alike sites (lookalike.rs) *)

(** [idna::domain_to_unicode] ([None] when it fails) and the confusable
    skeleton of unicode-security. *)
Class LookalikeLib := {
  domain_to_unicode : list Z -> option (list Z);
  skeleton : list Z -> list Z;
}.

Section Lookalike.
Context {C : Crypto} {K : KeyLib} {U : Unicode} {J : JsonLib} {UL : UrlLib} {SL : SiteLib UL} {L : TotpLib}.
Context {LL : LookalikeLib}.

Definition digit_letter (c : Z) : Z :=
  if c =? 48 then 111 else if c =? 49 then 108 else if c =? 51 then 101 else if c =? 53 then 115 else c.

Definition lookalike_key (domain : list Z) : list Z :=
  to_lowercase (skeleton (map digit_letter (default domain (domain_to_unicode domain)))).

Definition page_site (page : Url) : option (list Z) := h ← host_key page; registrable_domain_of h.
Definition rule_site (rule_url : list Z) : option (list Z) :=
  u ← url_parse rule_url; if is_http u then h ← host_key u; registrable_domain_of h else None.

Definition imitated (site : list Z) (saved : list (list Z)) : option (list Z) :=
  List.find (fun s => negb (bool_decide (s = site)) && bool_decide (lookalike_key s = lookalike_key site)) saved.

Definition saved_sites (s : Session) : list (list Z) :=
  btree_set (omap (fun r => rule_site (Model.url r))
               (concat (map urls (List.filter (fun o => is_site_bound (item_type o)) (Items.values (overviews s)))))).

Definition lookalike_for_page (page_url : list Z) (top_url : option (list Z)) (v : VaultService)
    : Result (option (list Z)) :=
  s ← session v;
  match context_parse page_url top_url with
  | None => Ok None
  | Some page =>
      policy ← match_policy v;
      matches ← page_matches page_url top_url policy v;
      if negb (length matches =? 0)%nat then Ok None
      else
        let saved := saved_sites s in
        if bool_decide (saved = []) then Ok None
        else Ok (List.hd_error (omap (fun site => imitated site saved)
                                  (omap page_site (Page.frame page :: option_list (Page.top page)))))
  end.
End Lookalike.

(** ** What the ranking and the warning promise *)

Section Facts.
Context {C : Crypto} {K : KeyLib} {U : Unicode} {J : JsonLib} {UL : UrlLib} {SL : SiteLib UL} {L : TotpLib}.
Context {FL : FloatLib} {AC : Codec Activity} {LL : LookalikeLib}.

Lemma sorted_weaken {A} (R1 R2 : A -> A -> Prop) l :
  (forall a b, R1 a b -> R2 a b) -> StronglySorted R1 l -> StronglySorted R2 l.
Proof.
  intros Hi. induction 1 as [|a l _ IH Hall]; constructor; [done|]. by eapply Forall_impl; [exact Hall|apply Hi].
Qed.

(** Use only reorders: the matches of a page are exactly those its items'
    rules give, the stronger rule first whatever the record holds. *)
Lemma find_matches_reorders page_url top_url now v l :
  find_matches page_url top_url now v = Ok l ->
  exists policy out, match_policy v = Ok policy /\ page_matches page_url top_url policy v = Ok out /\
    l ≡ₚ out /\ StronglySorted (fun a b => rank (strength a) <= rank (strength b)) l.
Proof.
  unfold find_matches, rank_by_use. intros (policy & Hp & (out & Hm & (sc & _ & [= <-])%bind_Ok)%bind_Ok)%bind_Ok.
  exists policy, out. split_and!; [done|done|apply sort_by_key_perm|].
  eapply sorted_weaken; [|apply sort_by_key_sorted].
  intros a b Hle. cbv beta. unfold key_le, cmp_le, cmp, prod_cmp, rank_key in Hle. cbn [fst snd] in Hle.
  destruct (cmp (rank (strength a)) (rank (strength b))) eqn:E; cbn [then_cmp] in Hle; [apply cmp_eq in E; rewrite E; reflexivity| |done].
  change (rank (strength a) < rank (strength b)) in E. lia.
Qed.

(** Searches: the newest first, at most ten, no two alike but for case. *)
Definition distinct_searches (l : list (list Z)) : Prop :=
  (length l <= MAX_RECENT_SEARCHES)%nat /\ NoDup (map to_lowercase l).

Lemma push_search_spec query l :
  distinct_searches l -> distinct_searches (push_search query l) /\ head (push_search query l) = Some query.
Proof.
  intros [_ Hn]. unfold push_search, distinct_searches. split; [|done]. split; [rewrite length_take; lia|].
  rewrite fmap_take. eapply sublist_NoDup; [|apply sublist_take]. cbn [map]. apply NoDup_cons. split.
  - intros X. apply list_elem_of_fmap in X as (q & E & X). apply list_elem_of_In, filter_In in X as [_ X].
    by rewrite <- E, bool_decide_eq_true_2 in X.
  - clear -Hn. induction l as [|q l IH]; [done|]. cbn [List.filter map] in *.
    apply NoDup_cons in Hn as [Hq Hn]. destruct (negb _); [|by apply IH]. cbn [map]. apply NoDup_cons. split; [|by apply IH].
    intros X. apply Hq. apply list_elem_of_fmap in X as (x & -> & X). apply list_elem_of_In, filter_In in X as [X _].
    by apply list_elem_of_fmap_2, list_elem_of_In.
Qed.

(** A warning names a saved site other than the page's, with its look, and
    never for a page some login matches. *)
Lemma lookalike_warns page_url top_url v s :
  lookalike_for_page page_url top_url v = Ok (Some s) ->
  exists ses policy site, session v = Ok ses /\ match_policy v = Ok policy /\ page_matches page_url top_url policy v = Ok [] /\
    s ∈ saved_sites ses /\ s <> site /\ lookalike_key s = lookalike_key site.
Proof.
  unfold lookalike_for_page. intros (ses & Hs & H)%bind_Ok. destruct (context_parse _ _) as [page|]; [|done].
  apply bind_Ok in H as (policy & Hp & H). apply bind_Ok in H as (ms & Hm & H).
  destruct ms; cbn [length Nat.eqb negb] in H; [|done]. destruct (bool_decide _); [done|]. injection H as H.
  assert (exists site, imitated site (saved_sites ses) = Some s) as (site & Hi).
  { destruct (omap _ _) as [|x l] eqn:E; [done|]. injection H as <-.
    assert (x ∈ x :: l) as X by by left. rewrite <- E in X. apply list_elem_of_omap in X as (site & _ & X). by exists site. }
  exists ses, policy, site. unfold imitated in Hi. apply find_some in Hi as [Hin [H1 H2]%andb_true_iff].
  apply negb_true_iff, bool_decide_eq_false in H1. apply bool_decide_eq_true in H2.
  split_and!; try done. by apply list_elem_of_In.
Qed.

Lemma activity_version v a : activity v = Ok a -> act_version a = VERSION.
Proof.
  unfold activity. destruct (read_local ActivitySlot v) as [[b|]|e]; [|by intros [= <-]|by destruct e; intros [= <-]].
  destruct (Z.eqb_spec (act_version b) VERSION); by intros [= <-].
Qed.

Lemma next_remembered now u : remembered now (next_use now u) = true.
Proof.
  unfold remembered, FORGET_AFTER_MS, DAY_MS, i64_saturating_sub, clamp, i64_min, i64_max, next_use. apply Z.leb_le.
  destruct u; cbn [last_ms]; lia.
Qed.

(** A use that was recorded is what the record then holds. *)
Lemma recorded_use `{!AeadCorrect C, !CodecLaws Activity} item now r v v' :
  good_nonce r -> record_use item now r v = (v', Ok ()) ->
  exists a a', activity v = Ok a /\ activity v' = Ok a' /\ uses a' !! item = Some (next_use now (uses a !! item)) /\
    searches a' = searches a.
Proof.
  intros Hg H. unfold record_use in H. rewrite run_mget in H. cbv beta in H.
  apply M_bind_Ok in H as (s & v1 & [-> Hs]%mlift_Ok & H).
  apply M_bind_Ok in H as ([] & v1 & [-> Ho]%mlift_Ok & H).
  apply M_bind_Ok in H as (a & v1 & [-> Ha]%mlift_Ok & H).
  unfold save_activity in H. rewrite run_mget in H. cbv beta in H.
  apply M_bind_Ok in H as (s1 & v1 & [-> Hs1]%mlift_Ok & H).
  unfold write_local in H. rewrite run_mget in H. cbv beta in H.
  apply M_bind_Ok in H as (s2 & v1 & [-> Hs2]%mlift_Ok & H).
  apply M_bind_Ok in H as (blob & v1 & [-> Hb]%mlift_Ok & H).
  injection H as <-. rewrite Hs in Hs1, Hs2. injection Hs1 as <-. injection Hs2 as <-.
  destruct (overviews s !! item) as [o|] eqn:Eo; [|done].
  assert (forall x, session (set_store x v) = Ok s) as Hs' by (intros x; exact Hs).
  exists a. unfold activity at 2, read_local. rewrite Hs'. cbn [mbind result_bind].
  unfold local_blob, set_local_blob. cbn [store set_store local_blobs set_local_blobs]. rewrite lookup_insert_eq.
  rewrite (seal_json_open _ _ _ _ _ Hg Hb). cbn [mbind result_bind].
  assert (act_version a = VERSION) as Ev by exact (activity_version _ _ Ha).
  cbn [act_version with_uses]. rewrite Ev, Z.eqb_refl.
  eexists. split; [done|]. split; [done|]. split; [|done]. cbn [uses with_uses]. apply map_lookup_filter_Some. rewrite lookup_insert_eq. split; [done|].
  cbn [fst snd]. rewrite Eo. by rewrite next_remembered.
Qed.
End Facts.
