(* ===== verification/CardPage.v ===== *)
(** * Cards for web pages and apps (crates/havenkeys-core/src/card_page.rs)

    A card is bound to no site: what protects it is https, the frame rule
    (the tab's own site, or a payment processor's field), the roles asked
    for, and the user's pick. *)

From S2P Require Import Prelude Errors Text Blob Url Tags Totp Clean Card Identity.
From S2P Require Import CustomField Bank Sso Attachment Model Keys Store Origin Health BuildItem.
From S2P Require Import Vault Items Page IdentityPage ToyCodec Sync Replica Activity.

Definition PAYMENT_FRAME_ORIGINS : list (list Z) := map lit
  ["https://js.stripe.com";
   "https://checkoutshopper-live.adyen.com";
   "https://checkoutshopper-live-us.adyen.com";
   "https://checkoutshopper-live-au.adyen.com";
   "https://checkoutshopper-live-apse.adyen.com";
   "https://checkoutshopper-live-in.adyen.com";
   "https://checkoutshopper-live-nea.adyen.com";
   "https://assets.braintreegateway.com";
   "https://secure-fields.mercadopago.com";
   "https://api-static.mercadopago.com";
   "https://checkout-security.ms.tiendanube.com";
   "https://checkout.pci.shopifyinc.com"].
Definition PAYMENT_FRAME_PARENTS : list (list Z) := [lit "js.stripe.com"].
Definition MAX_PAGE_CARDS : nat := 50.

Inductive CardRole :=
| CrHolder | CrGivenName | CrFamilyName | CrNumber | CrVerification | CrExpiryMonth | CrExpiryYear | CrBrand.
#[export] Instance CardRole_eq_dec : EqDecision CardRole.
Proof. solve_decision. Defined.

Record CardOffer := {
  of_id : Z;
  of_title : list Z;
  of_brand : option CardBrand;
  of_last4 : option (list Z);
  of_expiry : option CardExpiry;
}.
Record CardList := { insecure : bool; offers : list CardOffer }.
Record CardFrame := { cfr_url : list Z; cfr_roles : list CardRole }.
Record NewCard := {
  nc_title : option (list Z);
  nc_holder : option (list Z);
  nc_number : list Z;
  nc_verification : option (list Z);
  nc_expiry : option (list Z);
}.

Section CardPage.
Context {C : Crypto} {K : KeyLib} {U : Unicode} {J : JsonLib} {UL : UrlLib} {SL : SiteLib UL} {L : TotpLib}.
Context {FL : FloatLib} {AC : Codec Activity}.

(** ** Frames *)

Definition is_payment_frame (page : Url) : bool :=
  if negb (is_https page) || Model.is_some (url_port page) then false
  else if bool_decide (url_origin_ascii page ∈ PAYMENT_FRAME_ORIGINS) then true
  else match host_key page with
       | None => false
       | Some host =>
           existsb (fun parent => match strip_suffix parent host ≫= strip_suffix (lit ".") with
                                  | Some label => negb (bool_decide (label = []))
                                  | None => false
                                  end) PAYMENT_FRAME_PARENTS
       end.

Definition frame_allowed (frame top : Url) : bool := is_https frame && (same_site frame top || is_payment_frame frame).

Definition frame_may_get_cards (frame_url top_url : list Z) : bool :=
  match page_parse frame_url, page_parse top_url with
  | Some frame, Some top => is_https top && frame_allowed frame top
  | _, _ => false
  end.

(** ** Values *)

Definition offer_of (o : ItemOverview) : CardOffer :=
  {| of_id := Model.id o; of_title := truncate_bytes MAX_SUMMARY_TITLE_BYTES (title o);
     of_brand := cs_brand <$> Model.card o; of_last4 := Model.card o ≫= last4; of_expiry := Model.card o ≫= cs_expiry |}.

Definition role_value (f : CardFields) (r : CardRole) : option (list Z) :=
  let words := split_whitespace <$> cardholder_name f in
  v ← match r with
      | CrHolder => join [32] <$> words
      | CrGivenName => words ≫= head
      | CrFamilyName => match words with Some (_ :: w :: ws) => Some (join [32] (w :: ws)) | _ => None end
      | CrNumber => number f
      | CrVerification => verification_number f
      | CrExpiryMonth => (fun e => to_decimal (month e)) <$> expiry f
      | CrExpiryYear => (fun e => pad_zeros 4 (to_decimal (year e))) <$> expiry f
      | CrBrand => Some (brand_id (effective_brand f))
      end;
  if bool_decide (v = []) then None else Some v.

Definition values_of (f : CardFields) (roles : list CardRole) : list (CardRole * list Z) :=
  omap (fun r => (fun x => (r, x)) <$> role_value f r) roles.

(** ** Offering and filling *)

Definition card_offers (now_ms : Z) (v : VaultService) : Result (list CardOffer) :=
  score ← use_score now_ms v;
  items ← list_items v;
  let cards := List.filter (fun o => bool_decide (item_type o = CardItem)) items in
  Ok (map offer_of (take MAX_PAGE_CARDS
        (sort_by_key (fun o => Build_Reverse (OrderedScore (score (Model.id o)))) cards))).

Definition fill_fields (item : Z) (v : VaultService) : Result CardFields :=
  map_err (fun e => match e with Denied => NotFound | _ => e end) (card_fields item v).

Definition cards_for_page (page_url : list Z) (top_url : option (list Z)) (now_ms : Z) (v : VaultService)
    : Result CardList :=
  _ ← session v;
  page ← ok_or Denied (page_parse page_url);
  top ← ok_or Denied (page_parse (default page_url top_url));
  if negb (is_https top) then Ok {| insecure := true; offers := [] |}
  else if Model.is_some top_url && negb (frame_allowed page top) then Err Denied
  else cards ← card_offers now_ms v; Ok {| insecure := false; offers := cards |}.

Fixpoint check_frames (top : Url) (frames : list CardFrame) : Result () :=
  match frames with
  | [] => Ok ()
  | f :: frames =>
      page ← ok_or Denied (page_parse (cfr_url f));
      if negb (frame_allowed page top) then Err Denied else check_frames top frames
  end.

Definition card_values_for_page (item : Z) (top_url : list Z) (frames : list CardFrame) (v : VaultService)
    : Result (list (list (CardRole * list Z))) :=
  _ ← session v;
  top ← ok_or Denied (page_parse top_url);
  if negb (is_https top) then Err Denied
  else
    _ ← check_frames top frames;
    f ← fill_fields item v;
    Ok (map (fun fr => values_of f (cfr_roles fr)) frames).

(** ** Saving *)

Definition new_card_input (c : NewCard) : Result ItemInput :=
  digits ← card_clean_number (nc_number c);
  _ ← guard_err (negb (check_digit_ok digits)) (InvalidInput "the card number fails its check digit");
  exp ← match nc_expiry c with Some e => e ← expiry_parse e; Ok (Some e) | None => Ok None end;
  t ← match nc_title c with
      | Some t => clean_title t
      | None => Ok match detect_brand digits with Some b => brand_display_name b | None => lit "Card" end
      end;
  Ok {| in_type := CardItem; in_title := t; in_username := None; in_urls := []; in_password := Keep; in_totp := Keep;
        in_notes := Keep; in_content := Keep; in_auto_sign_in := None; in_sign_in_with := None; in_identity := None;
        in_card := Some {| ci_cardholder_name := nc_holder c; ci_brand := None; ci_number := SetTo digits;
                           ci_verification_number := match nc_verification c with Some n => SetTo n | None => Keep end;
                           ci_expiry := exp; ci_notes := None |};
        in_bank := None; in_sections := None; in_tags := None |}.

Definition stage_new_card (new_id : nat -> Z) (fresh : Z) (c : NewCard) (now_ms : Z) (r1 r2 : option (list Z))
    (v : VaultService) : Result StagedSave :=
  i ← new_card_input c;
  w ← stage_create new_id fresh i now_ms r1 r2 v;
  Ok {| save_write := w; save_item := sw_item w |}.

Definition stage_save_card (new_id : nat -> Z) (fresh : Z) (page_url : list Z) (top_url : option (list Z)) (c : NewCard)
    (now_ms : Z) (r1 r2 : option (list Z)) (v : VaultService) : Result StagedSave :=
  _ ← session v;
  page ← ok_or Denied (page_parse page_url);
  _ ← guard_err (negb (is_https page)) Denied;
  _ ← match top_url with
      | Some t =>
          top ← ok_or Denied (page_parse t);
          guard_err (negb (is_https top) || negb (same_site page top)) Denied
      | None => Ok ()
      end;
  stage_new_card new_id fresh c now_ms r1 r2 v.

(** ** For an Android app *)

Definition cards_for_app (now_ms : Z) (v : VaultService) : Result (list CardOffer) :=
  _ ← session v; card_offers now_ms v.

Definition card_values_for_app (item : Z) (roles : list CardRole) (v : VaultService)
    : Result (list (CardRole * list Z)) :=
  _ ← session v; f ← fill_fields item v; Ok (values_of f roles).

Definition stage_save_card_for_app (new_id : nat -> Z) (fresh : Z) (c : NewCard) (now_ms : Z) (r1 r2 : option (list Z))
    (v : VaultService) : Result StagedSave :=
  _ ← session v; stage_new_card new_id fresh c now_ms r1 r2 v.

(** The loop of [card_number_saved]. *)
Fixpoint number_among (digits : list Z) (cards : list ItemOverview) (v : VaultService) : Result bool :=
  match cards with
  | [] => Ok false
  | o :: cards =>
      match card_fields (Model.id o) v with
      | Ok f => if bool_decide (number f = Some digits) then Ok true else number_among digits cards v
      | Err Locked => Err Locked
      | Err _ => number_among digits cards v
      end
  end.

Definition card_number_saved (raw : list Z) (v : VaultService) : Result bool :=
  _ ← session v;
  digits ← card_clean_number raw;
  items ← list_items v;
  number_among digits (List.filter (fun o => bool_decide (item_type o = CardItem)) items) v.
End CardPage.

(** ** What a checkout gets *)

Section Facts.
Context {C : Crypto} {K : KeyLib} {U : Unicode} {J : JsonLib} {UL : UrlLib} {SL : SiteLib UL} {L : TotpLib}.
Context {FL : FloatLib} {AC : Codec Activity}.

(** A processor's field: https on the default port, at one of its origins or
    under one of its hosts. *)
Definition processor_frame (page : Url) : Prop :=
  url_port page = None /\
  (url_origin_ascii page ∈ PAYMENT_FRAME_ORIGINS \/
   exists label parent, label <> [] /\ parent ∈ PAYMENT_FRAME_PARENTS /\ host_key page = Some (label ++ lit "." ++ parent)).

Lemma strip_suffix_inv p s r : strip_suffix p s = Some r -> s = r ++ p.
Proof.
  unfold strip_suffix, ends_with. destruct (starts_with (reverse p) (reverse s)) eqn:E; [|done]. intros [= <-].
  assert (strip_prefix (reverse p) (reverse s) = Some (drop (length (reverse p)) (reverse s))) as X%strip_prefix_inv
    by (unfold strip_prefix; by rewrite E).
  rewrite length_reverse in X. apply (f_equal reverse) in X. rewrite reverse_involutive, reverse_app, reverse_involutive in X.
  revert X. generalize (reverse (drop (length p) (reverse s))) as q. intros q ->.
  by rewrite length_app, Nat.add_sub, take_app_length.
Qed.

Lemma is_payment_frame_spec page : is_payment_frame page = true -> processor_frame page.
Proof.
  intros Hx. unfold is_payment_frame in Hx. unfold processor_frame. destruct (is_https page); [|done].
  destruct (url_port page); [done|]. cbn [negb orb Model.is_some] in Hx. split; [done|].
  destruct (bool_decide_reflect (url_origin_ascii page ∈ PAYMENT_FRAME_ORIGINS)); [by left|].
  destruct (host_key page) as [host|]; [|done]. apply existsb_exists in Hx as (parent & Hp & Hl). right.
  destruct (strip_suffix parent host ≫= strip_suffix (lit ".")) as [label|] eqn:E; [|done].
  apply bind_Some in E as (rest & E1 & E2).
  exists label, parent. split_and!; [by intros ->; rewrite bool_decide_eq_true_2 in Hl|by apply list_elem_of_In|].
  by rewrite (strip_suffix_inv _ _ _ E1), (strip_suffix_inv _ _ _ E2), <- app_assoc.
Qed.

(** A frame a card may reach. *)
Definition checkout_frame (frame_url : list Z) (top : Url) : Prop :=
  exists page, page_parse frame_url = Some page /\ is_https page = true /\ (same_site page top = true \/ processor_frame page).

Lemma frame_allowed_spec page top url :
  page_parse url = Some page -> frame_allowed page top = true -> checkout_frame url top.
Proof.
  intros Hp [Hh Hs]%andb_true_iff. exists page. split_and!; [done..|].
  apply orb_true_iff in Hs as [|?%is_payment_frame_spec]; [by left|by right].
Qed.

Lemma check_frames_spec top frames : check_frames top frames = Ok () ->
  Forall (fun f => checkout_frame (cfr_url f) top) frames.
Proof.
  induction frames as [|f frames IH]; [by constructor|]. cbn [check_frames].
  intros (page & Hp%ok_or_Ok & H)%bind_Ok. destruct (frame_allowed page top) eqn:E; [|done].
  constructor; [by eapply frame_allowed_spec|by apply IH].
Qed.

Lemma role_value_some f r x : role_value f r = Some x ->
  x <> [] /\ match r with CrNumber => number f = Some x | CrVerification => verification_number f = Some x | _ => True end.
Proof.
  unfold role_value. intros (y & Hy & H)%bind_Some. destruct (bool_decide_reflect (y = [])); [done|]. injection H as <-.
  by destruct r.
Qed.

Lemma session_locked v e : session v = Err e -> e = Locked.
Proof. unfold session. destruct (state v); destruct (session_ v); cbn; congruence. Qed.

Lemma values_of_in f roles r x : (r, x) ∈ values_of f roles -> r ∈ roles /\ role_value f r = Some x.
Proof.
  unfold values_of. intros (r' & Hin & E)%list_elem_of_omap. destruct (role_value f r') as [y|] eqn:Ef; [|done].
  by injection E as <- <-.
Qed.

(** A card's values reach a page only when the tab is https and every
    frame asking is https and of the tab's own site or a payment processor's
    field; each frame gets only the roles it asked for, of that one card, and
    a refusal names no item. *)
Lemma card_values_stay_on_checkout item top_url frames v :
  match card_values_for_page item top_url frames v with
  | Ok answers =>
      exists top f, page_parse top_url = Some top /\ is_https top = true /\
        Forall (fun fr => checkout_frame (cfr_url fr) top) frames /\
        load_details item v = Ok (DCard f) /\
        Forall2 (fun fr answer => forall r x, (r, x) ∈ answer -> r ∈ cfr_roles fr /\ role_value f r = Some x) frames answers
  | Err e => e = Denied -> forall top, page_parse top_url = Some top -> is_https top = true ->
      Exists (fun fr => forall page, page_parse (cfr_url fr) = Some page -> frame_allowed page top = false) frames
  end.
Proof.
  destruct (card_values_for_page item top_url frames v) as [answers|e] eqn:H.
  - unfold card_values_for_page in H. apply bind_Ok in H as (s & _ & H). apply bind_Ok in H as (top & Ht%ok_or_Ok & H).
    destruct (is_https top) eqn:Hh; [|done]. cbn [negb] in H. apply bind_Ok in H as ([] & Hf%check_frames_spec & H).
    apply bind_Ok in H as (f & Hc & [= <-]). exists top, f. split_and!; [done..| |].
    + unfold fill_fields, card_fields in Hc. destruct (load_details item v) as [[]|[]] eqn:E; try done. by injection Hc as <-.
    + apply Forall2_fmap_r, Forall_Forall2_diag, Forall_true. intros fr r x. apply values_of_in.
  - intros -> top Ht Hh. unfold card_values_for_page in H.
    destruct (session v) as [s|e] eqn:Es; [|by rewrite (session_locked _ _ Es) in H]. cbn [mbind result_bind] in H. rewrite Ht in H. cbn [ok_or mbind result_bind] in H.
    rewrite Hh in H. cbn [negb] in H. destruct (check_frames top frames) as [[]|e] eqn:Ef.
    + cbn [mbind result_bind] in H. unfold fill_fields in H. by destruct (card_fields item v) as [|[]].
    + clear H. revert e Ef. induction frames as [|fr frames IH]; intros e Ef; [done|]. cbn [check_frames] in Ef.
      destruct (page_parse (cfr_url fr)) as [page|] eqn:Ep; [|apply Exists_cons_hd; congruence].
      cbn [ok_or mbind result_bind] in Ef. destruct (frame_allowed page top) eqn:Ea; [|apply Exists_cons_hd; congruence].
      apply Exists_cons_tl. by eapply IH.
Qed.
End Facts.
