(* ===== verification/Encoding.v ===== *)
(** * Base32 and Base64url (the data-encoding crate)

    [BASE32_NOPAD] and [BASE64URL_NOPAD] as parameters, with what their
    documentation promises: decoding undoes encoding, accepts the one text an
    encoder writes, and the text has a known length and alphabet. *)

From S2P Require Import Prelude Text.

Record TextEncoding := {
  encode_text : list Z -> list Z;
  decode_text : list Z -> option (list Z);
}.

Class Base32Lib := base32_nopad : TextEncoding.
Class Base64UrlLib := base64url_nopad : TextEncoding.

(** [bits] bits a character. *)
Record encoding_laws (bits : nat) (alphabet : Z -> bool) (E : TextEncoding) : Prop := {
  enc_roundtrip : forall b, all_bytes b -> decode_text E (encode_text E b) = Some b;
  enc_canonical : forall t b, decode_text E t = Some b -> all_bytes b /\ encode_text E b = t;
  enc_length : forall b, length (encode_text E b) = ((8 * length b + (bits - 1)) / bits)%nat;
  enc_alphabet : forall b, Forall (fun c => alphabet c = true) (encode_text E b);
}.

Definition base32_char (c : Z) : bool := in_range 65 90 c || in_range 50 55 c.
Definition base64url_char (c : Z) : bool :=
  in_range 65 90 c || in_range 97 122 c || in_range 48 57 c || (c =? 45) || (c =? 95).

Class Base32Laws (B : Base32Lib) : Prop := base32_laws : encoding_laws 5 base32_char base32_nopad.
Class Base64UrlLaws (B : Base64UrlLib) : Prop := base64url_laws : encoding_laws 6 base64url_char base64url_nopad.

(** ** The encodings of RFC 4648, for the witnesses *)

Module Rfc4648.

(** The [w] low bits of a number, the high ones first, and back. *)
Fixpoint to_bits (w : nat) (z : Z) : list Z :=
  match w with O => [] | S w => (z / 2 ^ Z.of_nat w) mod 2 :: to_bits w z end.
Definition of_bits (l : list Z) : Z := foldl (fun n b => 2 * n + b) 0 l.

Definition is_bits (l : list Z) : Prop := Forall (fun b => b = 0 \/ b = 1) l.

Lemma length_to_bits w z : length (to_bits w z) = w.
Proof. induction w; cbn; auto. Qed.

Lemma to_bits_bits w z : is_bits (to_bits w z).
Proof.
  induction w as [|w IH]; constructor; [|done].
  pose proof (Z.mod_pos_bound (z / 2 ^ Z.of_nat w) 2). lia.
Qed.

Lemma of_bits_acc l a : foldl (fun n b => 2 * n + b) a l = a * 2 ^ len l + of_bits l.
Proof.
  unfold of_bits. revert a. induction l as [|b l IH]; intros a; [cbn; lia|].
  cbn [foldl length]. rewrite (IH (2 * a + b)), (IH (2 * 0 + b)), Nat2Z.inj_succ, Z.pow_succ_r by lia. lia.
Qed.

Lemma of_bits_cons b l : of_bits (b :: l) = b * 2 ^ len l + of_bits l.
Proof. unfold of_bits at 1. cbn [foldl]. rewrite of_bits_acc. f_equal; lia. Qed.

Lemma of_bits_range l : is_bits l -> 0 <= of_bits l < 2 ^ len l.
Proof.
  induction 1 as [|b l Hb _ IH]; [cbn; lia|].
  rewrite of_bits_cons. cbn [length]. rewrite Nat2Z.inj_succ, Z.pow_succ_r by lia. destruct Hb; subst; lia.
Qed.

Lemma of_to_bits w z : of_bits (to_bits w z) = z mod 2 ^ Z.of_nat w.
Proof.
  induction w as [|w IH]; [cbn; by rewrite Z.mod_1_r|]. cbn [to_bits].
  rewrite of_bits_cons, IH, length_to_bits, Nat2Z.inj_succ, Z.pow_succ_r by lia.
  rewrite (Z.mul_comm 2), Z.rem_mul_r by lia. lia.
Qed.

Lemma to_of_bits l : is_bits l -> to_bits (length l) (of_bits l) = l.
Proof.
  assert (forall w a z, to_bits w (a * 2 ^ Z.of_nat w + z) = to_bits w z) as Hhigh.
  { induction w as [|w IH]; intros a z; [done|]. cbn [to_bits]. rewrite Nat2Z.inj_succ, Z.pow_succ_r by lia.
    replace (a * (2 * 2 ^ Z.of_nat w) + z) with ((2 * a) * 2 ^ Z.of_nat w + z) by lia. rewrite IH. f_equal.
    rewrite Z.add_comm, Z.div_add by lia. rewrite (Z.mul_comm 2 a). by rewrite Z.mod_add by lia. }
  induction 1 as [|b l Hb Hl IH]; [done|]. cbn [length to_bits]. rewrite of_bits_cons, Hhigh, IH. f_equal.
  pose proof (of_bits_range l Hl). rewrite Z.add_comm, Z.div_add, Z.div_small by lia. destruct Hb; subst; done.
Qed.

(** Groups of [n]. *)
Fixpoint groups (fuel n : nat) (l : list Z) : list (list Z) :=
  match fuel, l with
  | S fuel, _ :: _ => take n l :: groups fuel n (drop n l)
  | _, _ => []
  end.

Lemma groups_concat fuel n l : (0 < n)%nat -> (length l <= fuel)%nat -> concat (groups fuel n l) = l.
Proof.
  intros Hn. revert l. induction fuel as [|f IH]; intros [|x l] Hl; try done; [cbn in Hl; lia|].
  cbn [groups concat]. rewrite IH; [apply take_drop|]. rewrite length_drop. cbn [length] in *. lia.
Qed.

Lemma groups_whole fuel n (ls : list (list Z)) :
  (0 < n)%nat -> (length ls <= fuel)%nat -> Forall (fun g => length g = n) ls -> groups fuel n (concat ls) = ls.
Proof.
  intros Hn. revert fuel. induction ls as [|g ls IH]; intros fuel Hf H; [by destruct fuel|].
  apply Forall_cons in H as [Hg H]. destruct fuel as [|fuel]; [cbn in Hf; lia|]. cbn [concat].
  destruct g as [|x g]; [cbn in Hg; lia|]. cbn [app groups].
  change (x :: g ++ concat ls) with ((x :: g) ++ concat ls). rewrite take_app_length', drop_app_length' by done.
  f_equal. apply IH; [cbn in Hf; lia|done].
Qed.

Lemma groups_length fuel n l m :
  (0 < n)%nat -> (length l <= fuel)%nat -> length l = (m * n)%nat ->
  Forall (fun g => length g = n) (groups fuel n l) /\ length (groups fuel n l) = m.
Proof.
  intros Hn. revert l m. induction fuel as [|f IH]; intros [|x l] m Hl Hm; try (cbn in Hl; lia);
    try (destruct m; [by split; [constructor|]|cbn in Hm; nia]).
  destruct m as [|m]; [cbn in Hm; lia|]. cbn [groups].
  destruct (IH (drop n (x :: l)) m) as [H1 H2].
  - rewrite length_drop. cbn [length] in *. lia.
  - rewrite length_drop, Hm. nia.
  - split; [|cbn; by rewrite H2]. constructor; [|done]. rewrite length_take, Hm. nia.
Qed.

Section Radix.
Variables (k : nat) (to_char of_char : Z -> Z) (alphabet : Z -> bool).
Hypothesis k_range : (1 < k < 8)%nat.
Hypothesis chars_in : forall v, 0 <= v < 2 ^ Z.of_nat k -> alphabet (to_char v) = true /\ of_char (to_char v) = v.
Hypothesis chars_out : forall c, alphabet c = true -> 0 <= of_char c < 2 ^ Z.of_nat k /\ to_char (of_char c) = c.

(** The zero bits that fill the last character. *)
Definition fill (n : nat) : nat := ((8 * n + (k - 1)) / k * k - 8 * n)%nat.

Definition enc (b : list Z) : list Z :=
  let bits := concat (map (to_bits 8) b) ++ replicate (fill (length b)) 0 in
  map (fun g => to_char (of_bits g)) (groups (length bits) k bits).

Definition dec (t : list Z) : option (list Z) :=
  if forallb alphabet t then
    let bits := concat (map (fun c => to_bits k (of_char c)) t) in
    let n := (k * length t / 8)%nat in
    if bool_decide (drop (8 * n) bits = replicate (fill n) 0)
    then Some (map of_bits (groups (length bits) 8 (take (8 * n) bits)))
    else None
  else None.

Definition radix : TextEncoding := {| encode_text := enc; decode_text := dec |}.

Lemma concat_bits_length (w : nat) {A} (f : A -> Z) (l : list A) :
  length (concat (map (fun x => to_bits w (f x)) l)) = (w * length l)%nat.
Proof.
  induction l as [|x l IH]; [cbn; lia|]. cbn [map concat length]. rewrite length_app, length_to_bits, IH. lia.
Qed.

Lemma concat_bits_bits (w : nat) {A} (f : A -> Z) (l : list A) : is_bits (concat (map (fun x => to_bits w (f x)) l)).
Proof. induction l as [|x l IH]; [constructor|]. cbn. apply Forall_app. split; [apply to_bits_bits|done]. Qed.

Definition padded (b : list Z) : list Z := concat (map (to_bits 8) b) ++ replicate (fill (length b)) 0.

Lemma padded_length b : length (padded b) = ((8 * length b + (k - 1)) / k * k)%nat.
Proof.
  unfold padded, fill. rewrite length_app, length_replicate.
  rewrite (concat_bits_length 8 (fun x => x)).
  pose proof (Nat.div_mod (8 * length b + (k - 1)) k). pose proof (Nat.mod_upper_bound (8 * length b + (k - 1)) k). nia.
Qed.

Lemma padded_bits b : is_bits (padded b).
Proof.
  apply Forall_app. split; [apply (concat_bits_bits 8 (fun x => x))|]. apply Forall_replicate. by left.
Qed.

Lemma padded_groups b :
  Forall (fun g => length g = k) (groups (length (padded b)) k (padded b)) /\
  length (groups (length (padded b)) k (padded b)) = ((8 * length b + (k - 1)) / k)%nat /\
  Forall is_bits (groups (length (padded b)) k (padded b)).
Proof.
  destruct (groups_length (length (padded b)) k (padded b) ((8 * length b + (k - 1)) / k)) as [H1 H2];
    [lia|done|apply padded_length|]. split_and!; [done..|].
  pose proof (padded_bits b) as Hb. rewrite <- (groups_concat (length (padded b)) k (padded b)) in Hb at 1 by lia.
  by apply Forall_concat.
Qed.

Lemma whole_bytes m : (k * ((8 * m + (k - 1)) / k) / 8)%nat = m.
Proof.
  pose proof (Nat.div_mod (8 * m + (k - 1)) k). pose proof (Nat.mod_upper_bound (8 * m + (k - 1)) k).
  symmetry. apply (Nat.div_unique _ 8 _ (k * ((8 * m + (k - 1)) / k) - 8 * m)%nat); nia.
Qed.

Lemma group_char g : length g = k -> is_bits g ->
  alphabet (to_char (of_bits g)) = true /\ to_bits k (of_char (to_char (of_bits g))) = g.
Proof.
  intros Hl Hb. pose proof (of_bits_range g Hb) as Hr. rewrite Hl in Hr.
  destruct (chars_in _ Hr) as [Ha ->]. split; [done|]. rewrite <- Hl. by apply to_of_bits.
Qed.

Lemma enc_chars b : Forall (fun c => alphabet c = true) (enc b).
Proof.
  destruct (padded_groups b) as (H1 & _ & H2). unfold enc. apply Forall_map. revert H1 H2. fold (padded b).
  generalize (groups (length (padded b)) k (padded b)). intros l H1 H2.
  induction l as [|g l IH]; [constructor|]. apply Forall_cons in H1 as [Hg H1], H2 as [Hb H2].
  constructor; [by apply group_char|by apply IH].
Qed.

Lemma enc_bits b : concat (map (fun c => to_bits k (of_char c)) (enc b)) = padded b.
Proof.
  destruct (padded_groups b) as (H1 & _ & H2). unfold enc. fold (padded b). rewrite map_map.
  rewrite <- (groups_concat (length (padded b)) k (padded b)) at 3 by lia. f_equal. revert H1 H2.
  generalize (groups (length (padded b)) k (padded b)). intros l H1 H2.
  induction l as [|g l IH]; [done|]. apply Forall_cons in H1 as [Hg H1], H2 as [Hb H2].
  cbn [map]. f_equal; [by apply group_char|by apply IH].
Qed.

Lemma enc_len b : length (enc b) = ((8 * length b + (k - 1)) / k)%nat.
Proof. unfold enc. fold (padded b). rewrite length_map. apply padded_groups. Qed.

Lemma byte_groups b : Forall (fun g => length g = 8%nat) (map (to_bits 8) b).
Proof. apply Forall_map, Forall_true. intros x. apply length_to_bits. Qed.

Lemma dec_enc b : all_bytes b -> dec (enc b) = Some b.
Proof.
  intros Hb. unfold dec. rewrite enc_bits, enc_len, whole_bytes.
  assert (forallb alphabet (enc b) = true) as ->.
  { apply forallb_forall. intros c Hc%list_elem_of_In. pose proof (enc_chars b) as Hf. rewrite Forall_forall in Hf. by apply Hf. }
  pose proof (concat_bits_length 8 (fun x => x) b) as Hl.
  unfold padded. rewrite drop_app_length', take_app_length' by done. rewrite bool_decide_eq_true_2 by done. f_equal.
  rewrite groups_whole; [|lia| |apply byte_groups].
  - rewrite map_map. rewrite <- (map_id b) at 2. apply map_ext_in. intros x Hx%list_elem_of_In.
    rewrite of_to_bits. unfold all_bytes in Hb. rewrite Forall_forall in Hb. apply Z.mod_small. by apply Hb.
  - rewrite length_app, length_map. rewrite (concat_bits_length 8 (fun x => x)). lia.
Qed.

Lemma enc_dec t b : dec t = Some b -> all_bytes b /\ enc b = t.
Proof.
  unfold dec. destruct (forallb alphabet t) eqn:Ea; [|done].
  set (bits := concat _). set (n := (k * length t / 8)%nat).
  destruct (bool_decide_reflect (drop (8 * n) bits = replicate (fill n) 0)) as [Hz|]; [|done]. intros [= <-].
  assert (length bits = (k * length t)%nat) as Hl by apply concat_bits_length.
  assert (is_bits bits) as Hbits by apply concat_bits_bits.
  assert (8 * n <= k * length t)%nat as Hn by (subst n; apply Nat.Div0.mul_div_le).
  destruct (groups_length (length bits) 8 (take (8 * n) bits) n) as [Hg Hgl]; [lia| | |].
  { rewrite length_take. lia. }
  { rewrite length_take. lia. }
  pose proof (groups_concat (length bits) 8 (take (8 * n) bits)) as Hc.
  set (gs := groups _ _ _) in *.
  assert (concat gs = take (8 * n) bits) as Hcat by (apply Hc; [lia|rewrite length_take; lia]).
  assert (Forall is_bits gs) as Hgb.
  { apply Forall_concat. rewrite Hcat. by apply Forall_take. }
  assert (map (to_bits 8) (map of_bits gs) = gs) as Hback.
  { clear -Hg Hgb. induction gs as [|g gs IH]; [done|]. apply Forall_cons in Hg as [Hg1 Hg], Hgb as [Hb1 Hgb].
    cbn [map]. rewrite <- Hg1, to_of_bits by done. f_equal. rewrite Hg1. by apply IH. }
  split.
  { apply Forall_map. clear -Hg Hgb. induction gs as [|g gs IH]; [constructor|].
    apply Forall_cons in Hg as [Hg1 Hg], Hgb as [Hb1 Hgb]. constructor; [|by apply IH].
    pose proof (of_bits_range g Hb1) as Hr. rewrite Hg1 in Hr. done. }
  assert (padded (map of_bits gs) = bits) as Hp.
  { unfold padded. rewrite Hback, length_map, Hgl, Hcat, <- Hz. apply take_drop. }
  unfold enc. fold (padded (map of_bits gs)). rewrite Hp.
  assert (bits = concat (map (fun c => to_bits k (of_char c)) t)) as Hbt by done.
  rewrite Hbt at 2. rewrite groups_whole; [|lia| |].
  - rewrite map_map. rewrite <- (map_id t) at 2. apply map_ext_in. intros c Hci.
    pose proof (proj1 (forallb_forall _ _) Ea c Hci) as Hca. destruct (chars_out c Hca) as [Hr Ho].
    by rewrite of_to_bits, Z.mod_small.
  - rewrite length_map, Hl. nia.
  - apply Forall_map, Forall_true. intros c. apply length_to_bits.
Qed.

Lemma radix_laws : encoding_laws k alphabet radix.
Proof. split; cbn; [apply dec_enc|apply enc_dec|apply enc_len|apply enc_chars]. Qed.
End Radix.

Definition to_32 (v : Z) : Z := if v <? 26 then 65 + v else 24 + v.
Definition of_32 (c : Z) : Z := if c <? 65 then c - 24 else c - 65.
Definition to_64 (v : Z) : Z :=
  if v <? 26 then 65 + v else if v <? 52 then 71 + v else if v <? 62 then v - 4 else if v =? 62 then 45 else 95.
Definition of_64 (c : Z) : Z :=
  if in_range 65 90 c then c - 65 else if in_range 97 122 c then c - 71 else if in_range 48 57 c then c + 4
  else if c =? 45 then 62 else 63.

#[export] Instance base32 : Base32Lib := radix 5 to_32 of_32 base32_char.
#[export] Instance base64url : Base64UrlLib := radix 6 to_64 of_64 base64url_char.

Lemma all_below (f : Z -> bool) n v : forallb f (map Z.of_nat (seq 0 n)) = true -> 0 <= v < Z.of_nat n -> f v = true.
Proof.
  intros H Hv. apply (proj1 (forallb_forall _ _) H), in_map_iff. exists (Z.to_nat v). split; [lia|]. apply in_seq. lia.
Qed.

(** Both tables, checked on every value and every character. *)
Lemma table_ok (k : nat) (to_char of_char : Z -> Z) (alphabet : Z -> bool) :
  (forall c, alphabet c = true -> 0 <= c < 128) ->
  forallb (fun v => alphabet (to_char v) && (of_char (to_char v) =? v)) (map Z.of_nat (seq 0 (2 ^ k))) = true ->
  forallb (fun c => implb (alphabet c) (in_range 0 (2 ^ Z.of_nat k - 1) (of_char c) && (to_char (of_char c) =? c)))
    (map Z.of_nat (seq 0 128)) = true ->
  (1 < k < 8)%nat -> encoding_laws k alphabet (radix k to_char of_char alphabet).
Proof.
  intros Ha Hv Hc Hk. apply radix_laws; [done| |].
  - intros v Hr. apply (all_below _ _ v) in Hv as [H1 H2]%andb_true_iff; [by apply Z.eqb_eq in H2|].
    by rewrite Nat2Z.inj_pow.
  - intros c H. apply (all_below _ _ c) in Hc; [|by apply Ha]. cbv beta in Hc. rewrite H in Hc. cbn [implb] in Hc.
    apply andb_true_iff in Hc as [H1%in_range_true H2%Z.eqb_eq]. split; [lia|done].
Qed.

#[export] Instance base32_lawful : Base32Laws base32.
Proof.
  apply table_ok; [|vm_compute; reflexivity|vm_compute; reflexivity|lia].
  intros c. unfold base32_char. rewrite orb_true_iff, !in_range_true. lia.
Qed.

#[export] Instance base64url_lawful : Base64UrlLaws base64url.
Proof.
  apply table_ok; [|vm_compute; reflexivity|vm_compute; reflexivity|lia].
  intros c. unfold base64url_char. rewrite !orb_true_iff, !in_range_true, !Z.eqb_eq. lia.
Qed.
End Rfc4648.
