(* ===== verification/SecretKey.v ===== *)
(** * The Secret Key (crates/havenkeys-core/src/crypto/secret_key.rs)

    Its text form [H1-XXXX-…]: 26 Base32 characters of key and two check
    characters, and the forgiving parser of what a user types. *)

From S2P Require Import Prelude Errors Text Blob Keys Encoding.

Definition PREFIX : list Z := lit "H1".
Definition KEY_CHARS : nat := 26.
Definition CHECK_CHARS : nat := 2.
Definition GROUP : nat := 4.
Definition CHECK_LABEL : list Z := lit "havenkeys/secret-key/check".

Definition BAD : Error := InvalidInput "that Secret Key is not valid".

(** The characters a typed one stands for: none when it is ignored, and an
    error when it is no character of a key. *)
Definition key_char (c : Z) : Result (list Z) :=
  let u := to_ascii_uppercase c in
  if (u =? 32) || (u =? 45) || (u =? 9) then Ok []
  else if u =? 48 then Ok (lit "O")
  else if u =? 49 then Ok (lit "I")
  else if u =? 56 then Ok (lit "B")
  else if base32_char u then Ok [u]
  else Err BAD.

(** The loop of [parse]: the text read so far. *)
Fixpoint clean_from (clean : list Z) (text : list Z) : Result (list Z) :=
  match text with
  | [] => Ok clean
  | c :: text =>
      u ← key_char c;
      let clean := clean ++ u in
      if (length PREFIX + KEY_CHARS + CHECK_CHARS <? length clean)%nat then Err BAD else clean_from clean text
  end.

Section SecretKey.
Context {C : Crypto} {B : Base32Lib}.

(** [SecretKey::generate]; [random] is the OS generator's. *)
Definition generate (random : option (list Z)) : Result (list Z) := ok_or Rng random.

Definition check_chars (key : list Z) : list Z :=
  take CHECK_CHARS (encode_text base32_nopad (take 5 (sha256 (CHECK_LABEL ++ key)))).

Definition to_text (key : list Z) : list Z :=
  let body := encode_text base32_nopad key ++ check_chars key in
  PREFIX ++ concat (map (cons 45) (Rfc4648.groups (length body) GROUP body)).

Definition parse (text : list Z) : Result (list Z) :=
  clean ← clean_from [] text;
  body ← ok_or BAD (strip_prefix (lit "HI") clean);
  if negb (length body =? KEY_CHARS + CHECK_CHARS)%nat then Err BAD
  else
    key ← ok_or BAD (decode_text base32_nopad (take KEY_CHARS body));
    if negb (length key =? SECRET_KEY_LEN)%nat then Err BAD
    else if negb (bool_decide (check_chars key = drop KEY_CHARS body)) then Err BAD
    else Ok key.

(** ** What was typed, whatever its case, spaces and look-alike digits *)

Definition typed (text : list Z) : Result (list Z) := (fun l => concat l) <$> mapM_result key_char text.

Definition is_secret_key (key : list Z) : Prop := all_bytes key /\ length key = SECRET_KEY_LEN.

(** The one spelling of a key. *)
Definition spelling (key : list Z) : list Z := lit "HI" ++ encode_text base32_nopad key ++ check_chars key.

Lemma clean_from_typed clean text out :
  clean_from clean text = Ok out <->
  (exists t, typed text = Ok t /\ out = clean ++ t) /\
  (text = [] \/ (length out <= 30)%nat).
Proof.
  unfold typed. revert clean. induction text as [|c text IH]; intros clean; cbn [clean_from mapM_result].
  { cbn. split.
    - intros [= <-]. split; [exists []; by rewrite app_nil_r|by left].
    - intros [(t & [= <-] & ->) _]. by rewrite app_nil_r. }
  destruct (key_char c) as [u|e]; cbn [mbind result_bind]; [|by split; [|intros [(t & [=] & _) _]]].
  change (length PREFIX + KEY_CHARS + CHECK_CHARS)%nat with 30%nat.
  destruct (Nat.ltb_spec 30 (length (clean ++ u))) as [Hl|Hl].
  { split; [done|]. intros [(t & Ht & ->) [[=]|Hle]]. destruct (mapM_result key_char text) as [us|]; [|done].
    cbn in Ht. apply (inj Ok) in Ht. subst t. rewrite !length_app in *. lia. }
  rewrite IH. destruct (mapM_result key_char text) as [us|e] eqn:Em; cbn.
  - split.
    + intros [(t & [= <-] & ->) Ho]. split; [eexists; split; [done|by rewrite app_assoc]|].
      right. destruct Ho as [->|]; [|done]. cbn in Em. apply (inj Ok) in Em. subst us. cbn. by rewrite app_nil_r.
    + intros [(t & [= <-] & ->) Ho]. split; [eexists; split; [done|by rewrite app_assoc]|]. right. by destruct Ho.
  - by split; intros [(t & [=] & _) _].
Qed.

Lemma typed_key_app s t a b : typed s = Ok a -> typed t = Ok b -> typed (s ++ t) = Ok (a ++ b).
Proof.
  unfold typed. revert a. induction s as [|c s IH]; intros a Ha Hb.
  { cbn in Ha. apply (inj Ok) in Ha. by subst a. }
  cbn [app mapM_result] in *. destruct (key_char c) as [u|]; [|done]. cbn [mbind result_bind] in *.
  destruct (mapM_result key_char s) as [us|]; [|done]. cbn in Ha. apply (inj Ok) in Ha. subst a.
  specialize (IH (concat us) eq_refl Hb). destruct (mapM_result key_char (s ++ t)); [|done]. cbn in *.
  apply (inj Ok) in IH. by rewrite <- app_assoc, <- IH.
Qed.

Lemma key_char_upper c : base32_char c = true -> key_char c = Ok [c].
Proof.
  intros H. assert (65 <= c <= 90 \/ 50 <= c <= 55) as Hc.
  { unfold base32_char in H. rewrite orb_true_iff, !in_range_true in H. lia. }
  assert (to_ascii_uppercase c = c) as Hu.
  { unfold to_ascii_uppercase, is_ascii_lower. by rewrite (proj2 (in_range_false 97 122 c)) by lia. }
  unfold key_char. rewrite Hu, H. by repeat match goal with |- context [c =? ?n] => destruct (Z.eqb_spec c n); [lia|] end.
Qed.

Lemma typed_body l : Forall (fun c => base32_char c = true) l -> typed l = Ok l.
Proof.
  induction 1 as [|c l Hc _ IH]; [done|]. apply (typed_key_app [c] l [c] l); [|done].
  unfold typed. cbn [mapM_result]. by rewrite (key_char_upper c).
Qed.

Lemma typed_grouped gs :
  Forall (fun c => base32_char c = true) (concat gs) -> typed (concat (map (cons 45) gs)) = Ok (concat gs).
Proof.
  induction gs as [|g gs IH]; [done|]. cbn [concat map]. intros [Hg Hgs]%Forall_app.
  apply typed_key_app; [|by apply IH]. change (45 :: g) with ([45] ++ g). apply (typed_key_app _ _ [] g); [done|by apply typed_body].
Qed.

Context `{!Base32Laws B, !Sha256Ideal C}.

Lemma body_chars key : Forall (fun c => base32_char c = true) (encode_text base32_nopad key ++ check_chars key).
Proof. apply Forall_app. split; [|apply Forall_take]; apply (enc_alphabet _ _ _ base32_laws). Qed.

Lemma length_check_chars key : length (check_chars key) = CHECK_CHARS.
Proof.
  unfold check_chars. rewrite length_take, (enc_length _ _ _ base32_laws), length_take, sha256_len. done.
Qed.

Lemma length_key_part key : is_secret_key key -> length (encode_text base32_nopad key) = KEY_CHARS.
Proof. intros [_ Hl]. by rewrite (enc_length _ _ _ base32_laws), Hl. Qed.

Lemma typed_to_text key : typed (to_text key) = Ok (spelling key).
Proof.
  unfold to_text, spelling. apply typed_key_app; [done|].
  set (body := _ ++ check_chars key). rewrite typed_grouped; rewrite Rfc4648.groups_concat by (done || (unfold GROUP; lia)); [done|].
  apply body_chars.
Qed.

Lemma to_text_ascii key : Forall (fun c => 0 <= c < 128) (to_text key).
Proof.
  unfold to_text. apply Forall_app. split; [by repeat constructor|].
  pose proof (body_chars key) as Hb. set (body := _ ++ check_chars key) in *.
  rewrite <- (Rfc4648.groups_concat (length body) GROUP body) in Hb by (done || (unfold GROUP; lia)).
  revert Hb. generalize (Rfc4648.groups (length body) GROUP body). clear body.
  induction l as [|g gs IH]; [constructor|]. cbn [concat map]. intros [Hg Hgs]%Forall_app. apply Forall_app.
  split; [|by apply IH]. constructor; [lia|]. eapply Forall_impl; [exact Hg|]. intros c Hc. cbn in Hc.
  unfold base32_char in Hc. rewrite orb_true_iff, !in_range_true in Hc. lia.
Qed.

Lemma to_text_scalar key : Forall is_scalar (to_text key).
Proof. eapply Forall_impl; [apply to_text_ascii|]. unfold is_scalar. cbn. lia. Qed.

Lemma parse_iff text key : parse text = Ok key <-> is_secret_key key /\ typed text = Ok (spelling key).
Proof.
  split.
  - unfold parse. intros H. apply bind_Ok in H as (clean & Hc & H). apply clean_from_typed in Hc as [(t & Ht & ->) _].
    cbn [app] in H. destruct (strip_prefix (lit "HI") t) as [body|] eqn:Ep; [|done]. cbn [ok_or mbind result_bind] in H.
    apply strip_prefix_inv in Ep as ->. destruct (Nat.eqb_spec (length body) (KEY_CHARS + CHECK_CHARS)) as [Hl|]; [|done].
    cbn [negb] in H. destruct (decode_text _ _) as [k|] eqn:Ed; [|done]. cbn [ok_or mbind result_bind] in H.
    destruct (Nat.eqb_spec (length k) SECRET_KEY_LEN) as [Hk|]; [|done]. cbn [negb] in H.
    destruct (bool_decide_reflect (check_chars k = drop KEY_CHARS body)) as [Hs|]; [|done]. cbn [negb] in H.
    apply (inj Ok) in H. subst k. apply (enc_canonical _ _ _ base32_laws) in Ed as [Hb He].
    split; [done|]. rewrite Ht. f_equal. unfold spelling. by rewrite He, Hs, take_drop.
  - intros [Hk Ht]. unfold parse. pose proof (length_key_part key Hk) as Hlk. pose proof (length_check_chars key) as Hlc.
    assert (clean_from [] text = Ok (spelling key)) as ->.
    { apply clean_from_typed. split; [by exists (spelling key)|]. right. unfold spelling.
      rewrite !length_app, Hlk, Hlc. change (length (lit "HI")) with 2%nat. unfold KEY_CHARS, CHECK_CHARS. lia. }
    cbn [mbind result_bind]. unfold spelling. rewrite strip_prefix_app. cbn [ok_or mbind result_bind].
    rewrite length_app, Hlk, Hlc. cbn [Nat.add Nat.eqb negb KEY_CHARS CHECK_CHARS].
    rewrite (take_app_length' _ _ 26), (drop_app_length' _ _ 26) by done.
    destruct Hk as [Hb Hl]. rewrite (enc_roundtrip _ _ _ base32_laws) by done. cbn [ok_or mbind result_bind].
    rewrite Hl, bool_decide_eq_true_2 by done. done.
Qed.

Lemma parse_to_text key : is_secret_key key -> parse (to_text key) = Ok key.
Proof. intros Hk. apply parse_iff. by rewrite typed_to_text. Qed.

(** A Secret Key's printed form reads back to it, and a text is accepted
    as a key exactly when, case, spaces, dashes and look-alike digits aside,
    it spells that key with its check characters. *)
Lemma secret_key_reads_back text key :
  (is_secret_key key -> parse (to_text key) = Ok key) /\
  (parse text = Ok key <-> is_secret_key key /\ typed text = typed (to_text key)).
Proof.
  rewrite !parse_iff, typed_to_text. tauto.
Qed.
End SecretKey.

(** ** A key with its lookalikes *)

Module TypedKey.
Import Blob.Toy Rfc4648.

Definition key : list Z := replicate 15 7 ++ [200].
Definition sloppy : list Z := map to_ascii_lowercase (to_text key) ++ lit " ".

Lemma key_typed_by_hand : parse sloppy = Ok key /\ parse (to_text key) = Ok key.
Proof.
  destruct (secret_key_reads_back sloppy key) as [H1 H2]. split.
  - apply H2. split; [|vm_compute; reflexivity]. split; [|done]. by repeat constructor.
  - apply H1. split; [|done]. by repeat constructor.
Defined.
End TypedKey.
