(* ===== verification/Pairing.v ===== *)
(** * Signing in a new device from an unlocked one (pairing.rs)

    The [havenkeys:/][/pair/v1] link a new device shows as a QR code, the
    envelope the approving device seals to its key with HPKE, and
    [VaultService::seal_pairing], the one caller of the seal.  HPKE and the
    form encoding of the link are parameters; a key pair's private key and
    the randomness of an encapsulation are arguments. *)

From S2P Require Import Prelude Errors Text Blob Url Tags Totp Clean Card.
From S2P Require Import Identity CustomField Bank Sso Attachment Model Keys Store Lock Origin.
From S2P Require Import Health BuildItem Vault Items Page ToyCodec Sync Replica Lifecycle Encoding.
From S2P Require Import SecretKey.

(** [hpke_seal randomness public info plain] is the encapsulated key and the
    ciphertext. *)
Class HpkeLib := {
  hpke_public : list Z -> list Z;
  hpke_public_ok : list Z -> bool;
  hpke_enc_ok : list Z -> bool;
  hpke_seal : list Z -> list Z -> list Z -> list Z -> option (list Z * list Z);
  hpke_open : list Z -> list Z -> list Z -> list Z -> option (list Z);
}.

Class FormLib := {
  form_serialize : list (list Z * list Z) -> list Z;
  form_parse : list Z -> list (list Z * list Z);
}.

Definition LINK_PREFIX : list Z := lit "havenkeys:/" ++ lit "/pair/v1?".
Definition MAX_LINK_LEN : Z := 512.
Definition MAX_ENVELOPE_LEN : Z := 4096.
Definition ENVELOPE_V1 : Z := 1.
Definition SUITE : list Z := [0; 32; 0; 1; 0; 2].
Definition ENC_LEN : nat := 32.
Definition HEADER_LEN : nat := 1 + length SUITE + ENC_LEN.
Definition TAG_LEN : nat := 16.
Definition PAYLOAD_V1 : Z := 1.
Definition MAX_EMAIL_LEN : Z := 320.
Definition MAX_SECRET_KEY_TEXT : Z := 64.
Definition PAIRING_ID_CHARS : Z := 22.

Definition bad_link : Error := InvalidInput "that is not a HavenKeys sign-in code".

Record PairingLink := {
  link_server : list Z;
  link_id : list Z;
  link_key : list Z;
}.
Record PairingKeys := { pk_secret : list Z; pk_public : list Z }.

(** The slots [PairingLink::parse] fills. *)
Record Slots := { slot_server : option (list Z); slot_id : option (list Z); slot_pk : option (list Z) }.

Section Pairing.
Context {C : Crypto} {K : KeyLib} {U : Unicode} {J : JsonLib} {H : HeaderLib}.
Context {UL : UrlLib} {B32 : Base32Lib} {B64 : Base64UrlLib} {HP : HpkeLib} {F : FormLib}.

Definition valid_pairing_id (id : list Z) : bool :=
  (str_len id =? PAIRING_ID_CHARS) &&
  match decode_text base64url_nopad (utf8 id) with Some b => len b =? 16 | None => false end.

(** ** The link *)

Definition link_to_text (l : PairingLink) : list Z :=
  LINK_PREFIX ++ form_serialize
    [(lit "server", link_server l); (lit "id", link_id l); (lit "pk", encode_text base64url_nopad (link_key l))].

(** [slot.replace(value).is_some()] is a second value of the key. *)
Definition fill_slot (r : Result Slots) (kv : list Z * list Z) : Result Slots :=
  s ← r;
  if bool_decide (kv.1 = lit "server") then
    if is_some (slot_server s) then Err bad_link
    else Ok {| slot_server := Some kv.2; slot_id := slot_id s; slot_pk := slot_pk s |}
  else if bool_decide (kv.1 = lit "id") then
    if is_some (slot_id s) then Err bad_link
    else Ok {| slot_server := slot_server s; slot_id := Some kv.2; slot_pk := slot_pk s |}
  else if bool_decide (kv.1 = lit "pk") then
    if is_some (slot_pk s) then Err bad_link
    else Ok {| slot_server := slot_server s; slot_id := slot_id s; slot_pk := Some kv.2 |}
  else Err bad_link.

Definition web_scheme (s : list Z) : bool := bool_decide (s = lit "https") || bool_decide (s = lit "http").

Definition link_parse (text : list Z) : Result PairingLink :=
  if MAX_LINK_LEN <? str_len text then Err bad_link
  else
    query ← ok_or bad_link (strip_prefix LINK_PREFIX text);
    s ← foldl fill_slot (Ok {| slot_server := None; slot_id := None; slot_pk := None |}) (form_parse (utf8 query));
    server ← ok_or bad_link (slot_server s);
    id ← ok_or bad_link (slot_id s);
    pk ← ok_or bad_link (slot_pk s);
    url ← ok_or bad_link (url_parse server);
    if negb (web_scheme (url_scheme url)) || negb (is_some (url_host_str url)) then Err bad_link
    else if negb (valid_pairing_id id) then Err bad_link
    else
      key ← ok_or bad_link (decode_text base64url_nopad (utf8 pk));
      if negb (len key =? 32) then Err bad_link
      else Ok {| link_server := server; link_id := id; link_key := key |}.

(** ** The payload *)

Definition cannot_send : Error := InvalidInput "the account cannot be sent".

Definition payload_encode (p : PairingPayload) : Result (list Z) :=
  let key := utf8 (to_text (pp_secret_key p)) in
  let mail := utf8 (pp_email p) in
  if (MAX_SECRET_KEY_TEXT <? len key) || bool_decide (mail = []) || (MAX_EMAIL_LEN <? len mail)
  then Err cannot_send
  else Ok ([PAYLOAD_V1] ++ uuid_bytes (pp_account_id p) ++ uuid_bytes (pp_vault_id p) ++ pp_vault_key p
           ++ [len key mod 256] ++ key ++ be_bytes 2 (len mail) ++ mail).

(** The closure [take]. *)
Definition taken (n : nat) (rest : list Z) : Result (list Z * list Z) :=
  if (length rest <? n)%nat then Err Corrupted else Ok (take n rest, drop n rest).

Definition payload_decode (bytes : list Z) : Result PairingPayload :=
  '(version, rest) ← taken 1 bytes;
  if negb (bool_decide (version = [PAYLOAD_V1])) then Err UnsupportedVersion
  else
    '(acct, rest) ← taken 16 rest;
    '(vault, rest) ← taken 16 rest;
    '(key, rest) ← taken 32 rest;
    '(key_len, rest) ← taken 1 rest;
    if MAX_SECRET_KEY_TEXT <? be_val key_len then Err Corrupted
    else
      '(text, rest) ← taken (Z.to_nat (be_val key_len)) rest;
      key_text ← ok_or Corrupted (from_utf8 text);
      secret_key ← map_err (fun _ => Corrupted) (SecretKey.parse key_text);
      '(mail_len, rest) ← taken 2 rest;
      if (be_val mail_len =? 0) || (MAX_EMAIL_LEN <? be_val mail_len) then Err Corrupted
      else
        '(mail, rest) ← taken (Z.to_nat (be_val mail_len)) rest;
        e ← ok_or Corrupted (from_utf8 mail);
        if negb (bool_decide (rest = [])) then Err Corrupted
        else Ok {| pp_account_id := be_val acct; pp_vault_id := be_val vault; pp_email := e;
                   pp_secret_key := secret_key; pp_vault_key := key |}.

(** ** The envelope *)

Definition info (server id : list Z) : list Z := lit "havenkeys/pair/v1" ++ [0] ++ utf8 server ++ [0] ++ utf8 id.

Definition seal_envelope (random : list Z) (l : PairingLink) (p : PairingPayload) : Result (list Z) :=
  if negb (hpke_public_ok (link_key l)) then Err bad_link
  else
    plain ← payload_encode p;
    ec ← ok_or Encryption (hpke_seal random (link_key l) (info (link_server l) (link_id l)) plain);
    let out := [ENVELOPE_V1] ++ SUITE ++ ec.1 ++ ec.2 in
    if MAX_ENVELOPE_LEN <? len out then Err Encryption else Ok out.

Definition generate_keys (secret : list Z) : PairingKeys := {| pk_secret := secret; pk_public := hpke_public secret |}.

Definition open_envelope (k : PairingKeys) (server id envelope : list Z) : Result PairingPayload :=
  if (MAX_ENVELOPE_LEN <? len envelope) || (len envelope <? Z.of_nat (HEADER_LEN + TAG_LEN)) then Err Corrupted
  else if negb (bool_decide (take 1 envelope = [ENVELOPE_V1])) ||
          negb (bool_decide (take (length SUITE) (drop 1 envelope) = SUITE)) then Err UnsupportedVersion
  else
    let enc := take ENC_LEN (drop (1 + length SUITE) envelope) in
    if negb (hpke_enc_ok enc) then Err Corrupted
    else
      plain ← ok_or Decryption (hpke_open (pk_secret k) enc (info server id) (drop HEADER_LEN envelope));
      payload_decode plain.

(** The claim secret: its generator and what the server compares. *)
Definition claim_generate (random : option (list Z)) : Result (list Z) := ok_or Rng random.
Definition claim_hash (secret : list Z) : list Z := sha256 secret.

(** [VaultService::seal_pairing] (vault.rs). *)
Definition seal_pairing (random : list Z) (l : PairingLink) (a : AccountRecord) (secret_key : list Z)
    (v : VaultService) : Result (list Z) :=
  s ← session v;
  seal_envelope random l
    {| pp_account_id := Store.account_id a; pp_vault_id := ses_vault_id s; pp_email := Store.email a;
       pp_secret_key := secret_key; pp_vault_key := ses_vault_key s |}.
End Pairing.

(** ** What pairing promises

    The link and the payload read back, an envelope opens for the one key,
    server and pairing it was sealed for, and a device that scanned an
    unlocked one's answer signs in to the same vault (Pairing.v, the sign-in
    of Sync.v). *)

(** What is relied on of HPKE (RFC 9180): the recipient opens what was
    sealed to it, and a sealed message opens for no other key or context. *)
Class HpkeLaws (HP : HpkeLib) : Prop := {
  hpke_opens : forall r sk info p enc ct,
    hpke_seal r (hpke_public sk) info p = Some (enc, ct) -> hpke_open sk enc info ct = Some p;
  hpke_sizes : forall r pk info p enc ct,
    hpke_seal r pk info p = Some (enc, ct) -> length enc = ENC_LEN /\ hpke_enc_ok enc = true /\ len ct = len p + 16;
  hpke_binds : forall r pk info p enc ct sk info' p',
    hpke_seal r pk info p = Some (enc, ct) -> hpke_open sk enc info' ct = Some p' ->
    pk = hpke_public sk /\ info = info' /\ p = p';
}.

(** A Rust string, and what is relied on of the form encoding. *)
Definition is_str (s : list Z) : Prop := Forall is_scalar s.
Class FormLaws (F : FormLib) : Prop :=
  form_roundtrip : forall l, Forall (fun kv => is_str kv.1 /\ is_str kv.2) l -> form_parse (utf8 (form_serialize l)) = l.

Section PairingFacts.
Context {C : Crypto} {K : KeyLib} {U : Unicode} {J : JsonLib} {H : HeaderLib}.
Context {UL : UrlLib} {B32 : Base32Lib} {B64 : Base64UrlLib} {HP : HpkeLib} {F : FormLib}.
Context `{!Base32Laws B32, !Base64UrlLaws B64, !HpkeLaws HP, !FormLaws F, !Sha256Ideal C}.

(** ** The link *)

Record link_ok (l : PairingLink) : Prop := {
  lo_url : exists u, url_parse (link_server l) = Some u /\ web_scheme (url_scheme u) = true /\
             Model.is_some (url_host_str u) = true;
  lo_id : valid_pairing_id (link_id l) = true;
  lo_key : length (link_key l) = 32%nat /\ all_bytes (link_key l);
}.

Lemma ascii_str s : Forall (fun c => 0 <= c < 128) s -> is_str s.
Proof. intros Hs. eapply Forall_impl; [exact Hs|]. unfold is_scalar. cbn. lia. Qed.

Lemma lit_str s : is_str (lit s).
Proof.
  unfold lit. apply Forall_fmap, Forall_true. intros a. pose proof (Ascii.N_ascii_bounded a). unfold is_scalar. cbn. lia.
Qed.

Lemma b64_ascii b : Forall (fun c => 0 <= c < 128) (encode_text base64url_nopad b).
Proof.
  pose proof (enc_alphabet _ _ _ base64url_laws b) as Ha. eapply Forall_impl; [exact Ha|].
  intros c Hc. cbn in Hc. unfold base64url_char in Hc. rewrite !orb_true_iff, !in_range_true, !Z.eqb_eq in Hc. lia.
Qed.

Lemma ascii_b64 b : utf8 (encode_text base64url_nopad b) = encode_text base64url_nopad b.
Proof.
  apply utf8_ascii. eapply Forall_impl; [apply b64_ascii|]. cbn. lia.
Qed.

Lemma link_roundtrip l :
  link_ok l -> is_str (link_server l) -> is_str (link_id l) -> str_len (link_to_text l) <= MAX_LINK_LEN -> link_parse (link_to_text l) = Ok l.
Proof.
  intros [(u & Hu & Hs & Hh) Hi [Hk Hb]] Hss Hsi Hl. unfold link_parse. rewrite (proj2 (Z.ltb_ge _ _) Hl).
  unfold link_to_text. rewrite strip_prefix_app. cbn [ok_or mbind result_bind]. rewrite form_roundtrip.
  2: { repeat apply Forall_cons_2; [split; cbn; auto using lit_str, ascii_str, b64_ascii..|by apply Forall_nil]. }
  cbn [foldl]. unfold fill_slot. cbn [mbind result_bind fst snd].
  rewrite (bool_decide_eq_true_2 (lit "server" = lit "server")) by done.
  rewrite (bool_decide_eq_false_2 (lit "id" = lit "server")) by (by vm_compute).
  rewrite (bool_decide_eq_true_2 (lit "id" = lit "id")) by done.
  rewrite (bool_decide_eq_false_2 (lit "pk" = lit "server")) by (by vm_compute).
  rewrite (bool_decide_eq_false_2 (lit "pk" = lit "id")) by (by vm_compute).
  rewrite (bool_decide_eq_true_2 (lit "pk" = lit "pk")) by done.
  cbn -[Z.eqb]. rewrite Hu. cbn -[Z.eqb]. rewrite Hs, Hh, Hi. cbn -[Z.eqb].
  rewrite ascii_b64, (enc_roundtrip _ _ _ base64url_laws) by done. cbn -[Z.eqb]. rewrite Hk. cbn. by destruct l.
Qed.

Lemma link_parse_ok text l : link_parse text = Ok l -> link_ok l.
Proof.
  unfold link_parse. destruct (_ <? _); [done|]. intros Hp.
  apply bind_Ok in Hp as (q & _ & Hp). apply bind_Ok in Hp as (s & _ & Hp).
  apply bind_Ok in Hp as (server & _ & Hp). apply bind_Ok in Hp as (id & _ & Hp). apply bind_Ok in Hp as (pk & _ & Hp).
  destruct (url_parse server) as [u|] eqn:Eu; [|done]. cbn [ok_or mbind result_bind] in Hp.
  destruct (web_scheme _) eqn:Ew; [|done]. destruct (Model.is_some _) eqn:Eh; [|done].
  destruct (valid_pairing_id id) eqn:Ei; [|done]. cbn [negb orb] in Hp.
  destruct (decode_text _ _) as [key|] eqn:Ed; [|done]. cbn [ok_or mbind result_bind] in Hp.
  destruct (Z.eqb_spec (len key) 32) as [Hl|]; [|done]. apply (inj Ok) in Hp. subst l. split; cbn.
  - by exists u.
  - done.
  - split; [lia|]. by apply (enc_canonical _ _ _ base64url_laws) in Ed as [? _].
Qed.

(** ** The payload *)

Record payload_ok (p : PairingPayload) : Prop := {
  po_account : is_uuid (pp_account_id p);
  po_vault : is_uuid (pp_vault_id p);
  po_key : length (pp_vault_key p) = 32%nat;
  po_secret : is_secret_key (pp_secret_key p);
  po_email : Forall is_scalar (pp_email p);
}.

Lemma taken_app n a b : length a = n -> taken n (a ++ b) = Ok (a, b).
Proof.
  intros Hn. unfold taken. rewrite length_app, Hn. destruct (Nat.ltb_spec (n + length b) n); [lia|].
  by rewrite take_app_length', drop_app_length'.
Qed.

Lemma be_val_uuid u : is_uuid u -> be_val (uuid_bytes u) = u.
Proof. intros Hu. unfold uuid_bytes. rewrite be_val_bytes. by apply Z.mod_small. Qed.

Lemma payload_roundtrip p bytes : payload_ok p -> payload_encode p = Ok bytes -> payload_decode bytes = Ok p.
Proof.
  intros [Ha Hv Hk Hs He] Hp. unfold payload_encode in Hp.
  pose proof (SecretKey.parse_to_text _ Hs) as Hparse. pose proof (to_text_scalar (pp_secret_key p)) as Hsc.
  pose proof (from_utf8_utf8 _ Hsc) as Htext. pose proof (from_utf8_utf8 _ He) as Hmail.
  set (key := utf8 (to_text (pp_secret_key p))) in *. set (mail := utf8 (pp_email p)) in *.
  unfold MAX_SECRET_KEY_TEXT, MAX_EMAIL_LEN in Hp.
  destruct (Z.ltb_spec 64 (len key)); [done|]. destruct (bool_decide_reflect (mail = [])) as [|Hne]; [done|].
  destruct (Z.ltb_spec 320 (len mail)); [done|]. cbn [orb] in Hp. apply (inj Ok) in Hp. subst bytes.
  assert (len key mod 256 = len key) as Hm by (apply Z.mod_small; lia).
  assert (1 <= len mail) by (destruct mail; [done|cbn [length]; lia]).
  assert (be_val (be_bytes 2 (len mail)) = len mail) as Hbm by (rewrite be_val_bytes; apply Z.mod_small; lia).
  assert (be_val [len key mod 256] = len key) as Hbk by (rewrite Hm; unfold be_val; cbn; lia).
  unfold payload_decode, MAX_SECRET_KEY_TEXT, MAX_EMAIL_LEN.
  rewrite taken_app by done. cbn [mbind result_bind]. rewrite bool_decide_eq_true_2 by done. cbn [negb].
  rewrite taken_app by apply length_uuid_bytes. cbn [mbind result_bind].
  rewrite taken_app by apply length_uuid_bytes. cbn [mbind result_bind].
  rewrite taken_app by done. cbn [mbind result_bind].
  rewrite taken_app by done. cbn [mbind result_bind]. rewrite Hbk.
  destruct (Z.ltb_spec 64 (len key)); [lia|]. rewrite Nat2Z.id, taken_app by done. cbn [mbind result_bind].
  rewrite Htext. cbn [ok_or mbind result_bind]. rewrite Hparse. cbn [map_err mbind result_bind].
  rewrite taken_app by apply length_be_bytes. cbn [mbind result_bind]. rewrite Hbm.
  destruct (Z.eqb_spec (len mail) 0); [lia|]. destruct (Z.ltb_spec 320 (len mail)); [lia|]. cbn [orb].
  rewrite <- (app_nil_r mail) at 2. rewrite Nat2Z.id, taken_app by done. cbn [mbind result_bind]. rewrite Hmail.
  cbn [ok_or mbind result_bind]. rewrite bool_decide_eq_true_2 by done. cbn [negb].
  rewrite !be_val_uuid by done. by destruct p.
Qed.

(** ** The envelope *)

Lemma utf8_str_inj s t : is_str s -> is_str t -> utf8 s = utf8 t -> s = t.
Proof. intros Hs Ht E. apply (f_equal from_utf8) in E. rewrite !from_utf8_utf8 in E by done. by injection E. Qed.

Lemma info_inj s i s' i' :
  valid_pairing_id i = true -> valid_pairing_id i' = true -> is_str s -> is_str s' -> is_str i -> is_str i' ->
  info s i = info s' i' -> s = s' /\ i = i'.
Proof.
  unfold valid_pairing_id. intros [Hl _]%andb_true_iff [Hl' _]%andb_true_iff ? ? ? ? E.
  apply Z.eqb_eq in Hl, Hl'. unfold str_len in Hl, Hl'.
  unfold info in E. apply app_inv_head in E. apply app_inv_head in E. rewrite !app_assoc in E.
  apply app_inj_2 in E as [E1 E2]; [|lia]. apply app_inj_2 in E1 as [E1 _]; [|done].
  split; by apply utf8_str_inj.
Qed.

Lemma seal_envelope_inv r l p env :
  seal_envelope r l p = Ok env -> exists plain enc ct,
    payload_encode p = Ok plain /\ hpke_seal r (link_key l) (info (link_server l) (link_id l)) plain = Some (enc, ct) /\
    env = [ENVELOPE_V1] ++ SUITE ++ enc ++ ct /\ len env <= MAX_ENVELOPE_LEN.
Proof.
  unfold seal_envelope. destruct (negb _); [done|]. intros Hs. apply bind_Ok in Hs as (plain & Hp & Hs).
  destruct (hpke_seal _ _ _ _) as [[enc ct]|] eqn:Eh; [|done]. cbn [ok_or mbind result_bind fst snd] in Hs.
  destruct (Z.ltb_spec MAX_ENVELOPE_LEN (len ([ENVELOPE_V1] ++ SUITE ++ enc ++ ct))); [done|].
  apply (inj Ok) in Hs. subst env. by exists plain, enc, ct.
Qed.

(** Opening reads the parts the envelope was made of. *)
Lemma open_envelope_run k server id enc ct :
  length enc = ENC_LEN -> hpke_enc_ok enc = true -> 16 <= len ct ->
  len ([ENVELOPE_V1] ++ SUITE ++ enc ++ ct) <= MAX_ENVELOPE_LEN ->
  open_envelope k server id ([ENVELOPE_V1] ++ SUITE ++ enc ++ ct) =
    (plain ← ok_or Decryption (hpke_open (pk_secret k) enc (info server id) ct); payload_decode plain).
Proof.
  intros Hl Ho Hc Hm. unfold open_envelope. rewrite (proj2 (Z.ltb_ge _ _) Hm).
  assert (len ([ENVELOPE_V1] ++ SUITE ++ enc ++ ct) <? Z.of_nat (HEADER_LEN + TAG_LEN) = false) as ->.
  { apply Z.ltb_ge. rewrite !length_app, Hl. cbn -[Z.of_nat Nat.add]. unfold HEADER_LEN, TAG_LEN, ENC_LEN. cbn [length SUITE]. lia. }
  cbn [orb]. rewrite take_app_length', bool_decide_eq_true_2 by done.
  rewrite (drop_app_length' [ENVELOPE_V1]) by done. rewrite take_app_length, bool_decide_eq_true_2 by done. cbn [negb orb].
  replace (drop (1 + length SUITE) ([ENVELOPE_V1] ++ SUITE ++ enc ++ ct)) with (enc ++ ct) by done.
  rewrite take_app_length' by done. rewrite Ho. cbn [negb].
  replace (drop HEADER_LEN ([ENVELOPE_V1] ++ SUITE ++ enc ++ ct)) with (drop ENC_LEN (enc ++ ct)) by done.
  by rewrite drop_app_length' by done.
Qed.

Lemma envelope_opens r l p env sk :
  payload_ok p -> hpke_public sk = link_key l -> seal_envelope r l p = Ok env ->
  open_envelope (generate_keys sk) (link_server l) (link_id l) env = Ok p.
Proof.
  intros Hp Hk (plain & enc & ct & He & Hs & -> & Hm)%seal_envelope_inv.
  destruct (hpke_sizes _ _ _ _ _ _ Hs) as (Hl & Ho & Hc). rewrite open_envelope_run by (done || lia).
  rewrite <- Hk in Hs. cbn [generate_keys pk_secret]. rewrite (hpke_opens _ _ _ _ _ _ Hs). cbn [ok_or mbind result_bind].
  by apply payload_roundtrip.
Qed.

(** An envelope opens to exactly the payload sealed in it, for exactly
    the private key of the scanned link and its server and pairing. *)
Lemma envelope_opens_only_here r l p env sk server id p' :
  payload_ok p -> link_ok l -> is_str (link_server l) -> is_str (link_id l) ->
  is_str server -> is_str id -> valid_pairing_id id = true ->
  seal_envelope r l p = Ok env ->
  open_envelope (generate_keys sk) server id env = Ok p' <->
    hpke_public sk = link_key l /\ server = link_server l /\ id = link_id l /\ p' = p.
Proof.
  intros Hp Hl ? ? ? ? Hid Hs. split; [|intros (Hk & -> & -> & ->); by eapply envelope_opens].
  intros Ho. pose proof Hs as (plain & enc & ct & He & Hseal & -> & Hm)%seal_envelope_inv.
  destruct (hpke_sizes _ _ _ _ _ _ Hseal) as (Hlen & Hok & Hc). rewrite open_envelope_run in Ho by (done || lia).
  apply bind_Ok in Ho as (plain' & Hop & Hdec). destruct (hpke_open _ _ _ _) as [x|] eqn:Eo; [|done].
  cbn in Hop. apply (inj Ok) in Hop. subst x.
  destruct (hpke_binds _ _ _ _ _ _ _ _ _ Hseal Eo) as (Hk & Hi & <-).
  apply info_inj in Hi as [<- <-]; try done; [|apply lo_id, Hl].
  rewrite (payload_roundtrip p plain) in Hdec by done. apply (inj Ok) in Hdec. by split_and!.
Qed.

(** ** The new device's sign-in *)

Lemma paired_sign_in_run `{!AeadCorrect C, !HeaderLaws H} v h s a p r bytes :
  session v = Ok s -> derive_data_key (ses_vault_key s) = Ok (data_key s) ->
  Store.header (store v) = Ok (Some h) -> Store.format_version h = FORMAT_VERSION -> kdf_validate (Store.kdf h) = Ok () ->
  Store.vault_id h = ses_vault_id s -> good_nonce r ->
  encode_account_header r v = Ok bytes -> len bytes <= 64 * 1024 ->
  pp_vault_id p = ses_vault_id s -> pp_vault_key p = ses_vault_key s -> email_parse (pp_email p) = Ok (ref_email a) ->
  pp_account_id p = ref_id a ->
  prepare_paired_sign_in bytes p =
    Ok {| ps_prepared := {| prep_header := h; prep_vault_key := ses_vault_key s |};
          ps_account := a; ps_secret_key := pp_secret_key p |}.
Proof.
  intros Hs Hkey Hh Hf Hkdf Hv Hg He Hlen Hpv Hpk Hmail Hacc.
  unfold encode_account_header, account_bound_header, require_header in He. rewrite Hh in He.
  cbn [mbind result_bind ok_or] in He. rewrite Hs in He. cbn [mbind result_bind] in He.
  destruct (header_roundtrip (data_key s) h r bytes) as (file & Hp & Hb & Hver); [done..|].
  unfold prepare_paired_sign_in. rewrite Hp. cbn [mbind result_bind]. rewrite Hb. cbn [mbind result_bind].
  rewrite Hv, Hpv, Z.eqb_refl, Hpk, Hkey. cbn [negb mbind result_bind]. rewrite Hver, Hmail, Hacc. cbn. by destruct a.
Qed.

Lemma opened_session v vault vk s :
  open_session v vault vk = Ok s -> derive_data_key vk = Ok (data_key s) /\ ses_vault_id s = vault /\ ses_vault_key s = vk.
Proof.
  unfold open_session. intros (key & Hkey & Hs)%bind_Ok. apply bind_Ok in Hs as (i & _ & Hs).
  destruct (foldl _ _ _) as [[??]?]. apply (inj Ok) in Hs. by subst s.
Qed.

Lemma unlocked_session password sk a v0 v :
  unlock_for_account password sk a v0 = (v, Ok ()) -> exists s h,
    session v = Ok s /\ Store.header (store v) = Ok (Some h) /\ Store.format_version h = FORMAT_VERSION /\
    kdf_validate (Store.kdf h) = Ok () /\ derive_data_key (ses_vault_key s) = Ok (data_key s) /\
    Store.vault_id h = ses_vault_id s /\ length (ses_vault_key s) = KEY_LEN.
Proof.
  intros (h & vk & s & [_ Hh Hf Hk _ (m & kek & au & _ & _ & _ & Hun) Hs] & ->)%unlock_inv.
  apply opened_session in Hs as (Hkey & Hv & Hvk). apply unwrap_length in Hun.
  exists s, h. rewrite Hvk, Hv. by split_and!.
Qed.

(** C19: a new device that shows its link to an unlocked one, and is handed
    the envelope and the account's published header, signs in: to the vault
    key of that session, the same account and the same Secret Key. *)
Theorem paired_device_signs_in `{!AeadCorrect C, !HeaderLaws H} password sk a v0 v rn bytes rec random dev server id l env :
  unlock_for_account password sk a v0 = (v, Ok ()) -> good_nonce rn ->
  encode_account_header rn v = Ok bytes -> len bytes <= 64 * 1024 ->
  to_ref rec = Ok a -> is_uuid (Store.account_id rec) -> is_str (Store.email rec) -> is_secret_key sk ->
  (forall h, Store.header (store v) = Ok (Some h) -> is_uuid (Store.vault_id h)) ->
  let shown := {| link_server := server; link_id := id; link_key := pk_public (generate_keys dev) |} in
  link_ok shown -> is_str server -> is_str id -> str_len (link_to_text shown) <= MAX_LINK_LEN ->
  link_parse (link_to_text shown) = Ok l -> seal_pairing random l rec sk v = Ok env ->
  exists s h p, session v = Ok s /\ Store.header (store v) = Ok (Some h) /\
    open_envelope (generate_keys dev) server id env = Ok p /\
    prepare_paired_sign_in bytes p =
      Ok {| ps_prepared := {| prep_header := h; prep_vault_key := ses_vault_key s |};
            ps_account := a; ps_secret_key := sk |}.
Proof.
  intros Hu Hg He Hlen Hr Hacc Hmail Hsk Hvault shown Hok Hss Hsi Hsl Hl Hseal.
  rewrite link_roundtrip in Hl by done. apply (inj Ok) in Hl. subst l.
  destruct (unlocked_session _ _ _ _ _ Hu) as (s & h & Hs & Hh & Hf & Hk & Hkey & Hv & Hvk).
  unfold seal_pairing in Hseal. rewrite Hs in Hseal. cbn [mbind result_bind] in Hseal.
  unfold to_ref in Hr. apply bind_Ok in Hr as (m & Hm & Hr). apply (inj Ok) in Hr. subst a.
  exists s, h. eexists. split_and!; [done|done| |].
  - eapply (envelope_opens _ shown); [|done|exact Hseal]. split; cbn; try done. rewrite <- Hv. by apply Hvault.
  - by eapply paired_sign_in_run.
Qed.
End PairingFacts.

(** ** Two devices *)

Module ToyPairing.
Import Blob.Toy ToyUnicode ToyCodec ToyUrl Rfc4648 Sample.

(** HPKE with a private key that is its public one and a tag that names the
    key and the context. *)
Definition tag (pk info : list Z) : list Z := Zpos (countable.encode (pk, info)) :: replicate 15 0.
#[export] Instance hpke : HpkeLib := {|
  hpke_public := fun sk => sk;
  hpke_public_ok := fun _ => true;
  hpke_enc_ok := fun _ => true;
  hpke_seal := fun _ pk info p => Some (replicate 32 0, p ++ tag pk info);
  hpke_open := fun sk _ info c =>
    let n := (length c - 16)%nat in if decide (drop n c = tag sk info) then Some (take n c) else None;
|}.

Lemma cut_hpke p pk info : take (length (p ++ tag pk info) - 16) (p ++ tag pk info) = p /\
  drop (length (p ++ tag pk info) - 16) (p ++ tag pk info) = tag pk info.
Proof.
  rewrite length_app. replace (length p + length (tag pk info) - 16)%nat with (length p) by (cbn; lia).
  by rewrite take_app_length, drop_app_length.
Qed.

#[export] Instance hpke_laws : HpkeLaws hpke.
Proof.
  split; cbn -[tag].
  - intros r sk info p enc ct [= <- <-]. destruct (cut_hpke p sk info) as [-> ->]. by rewrite decide_True.
  - intros r pk info p enc ct [= <- <-]. rewrite length_app. cbn. split_and!; [done..|lia].
  - intros r pk info p enc ct sk info' p' [= <- <-]. destruct (cut_hpke p pk info) as [-> ->].
    destruct (decide _) as [E|]; [|done]. intros [= <-]. injection E as E. apply (inj countable.encode) in E. by injection E.
Qed.

(** A form that marks every character and ends every text. *)
Definition marked (s : list Z) : list Z := concat (map (fun c => [49; c]) s) ++ [48].
Fixpoint texts (cur : list Z) (s : list Z) : list (list Z) :=
  match s with
  | 49 :: c :: s => texts (cur ++ [c]) s
  | 48 :: s => cur :: texts [] s
  | _ => []
  end.
Fixpoint pairs (l : list (list Z)) : list (list Z * list Z) :=
  match l with k :: v :: l => (k, v) :: pairs l | _ => [] end.
#[export] Instance form : FormLib := {|
  form_serialize := fun l => concat (map (fun kv => marked kv.1 ++ marked kv.2) l);
  form_parse := fun b => match from_utf8 b with Some s => pairs (texts [] s) | None => [] end;
|}.

Lemma texts_marked s rest cur : texts cur (marked s ++ rest) = (cur ++ s) :: texts [] rest.
Proof.
  revert cur. induction s as [|c s IH]; intros cur; [by rewrite app_nil_r|].
  change (marked (c :: s) ++ rest) with (49 :: c :: marked s ++ rest). cbn [texts]. by rewrite IH, <- app_assoc.
Qed.

Lemma marked_str s : is_str s -> is_str (marked s).
Proof.
  assert (is_str [48] /\ is_scalar 49) as [H0 H1] by (unfold is_str, is_scalar; rewrite Forall_singleton; lia).
  intros Hs. apply Forall_app. split; [|done].
  induction Hs as [|c s Hc _ IH]; [by apply Forall_nil|]. cbn. by repeat apply Forall_cons_2.
Qed.

#[export] Instance form_laws : FormLaws form.
Proof.
  intros l Hl. cbn. rewrite from_utf8_utf8.
  - induction Hl as [|[k v] l [Hk Hv] _ IH]; [done|]. cbn [map concat fst snd]. rewrite <- !app_assoc.
    rewrite !texts_marked. cbn [app pairs]. by rewrite IH.
  - induction Hl as [|[k v] l [Hk Hv] _ IH]; [constructor|]. cbn [map concat fst snd].
    apply Forall_app; split; [apply Forall_app; split; by apply marked_str|done].
Qed.

Definition server : list Z := lit "https:/" ++ lit "/x.y".
Definition id : list Z := replicate 22 65.
Definition device : list Z := replicate 32 5.
Definition shown : PairingLink := {| link_server := server; link_id := id; link_key := device |}.
Definition envelope : list Z := of_ok [] (seal_pairing [] shown record (av_secret_key vault0) unlocked).
Definition header : list Z := of_ok [] (encode_account_header (nonce 4) unlocked).

Lemma strings_ok : is_str server /\ is_str id.
Proof.
  split; [apply Forall_app; split; apply lit_str|]. apply Forall_replicate. unfold is_scalar. lia.
Qed.

Lemma shown_ok : link_ok shown.
Proof.
  split; cbn [shown link_server link_id link_key].
  - eexists. split_and!; vm_compute; reflexivity.
  - vm_compute. reflexivity.
  - split; [done|]. by repeat constructor.
Qed.

Lemma paired_device_signs_in_witness :
  exists s h p, session unlocked = Ok s /\ Store.header (store unlocked) = Ok (Some h) /\
    open_envelope (generate_keys device) server id envelope = Ok p /\
    prepare_paired_sign_in header p =
      Ok {| ps_prepared := {| prep_header := h; prep_vault_key := ses_vault_key s |};
            ps_account := who; ps_secret_key := av_secret_key vault0 |}.
Proof.
  apply (paired_device_signs_in password (av_secret_key vault0) who locked unlocked (nonce 4) header record []
    device server id shown envelope).
  - vm_compute. reflexivity.
  - apply nonce_good.
  - vm_compute. reflexivity.
  - apply Z.leb_le. vm_compute. reflexivity.
  - vm_compute. reflexivity.
  - done.
  - apply lit_str.
  - split; [|done]. by repeat constructor.
  - intros h E. assert (Store.vault_id h = 9) as ->; [|done].
    assert (Store.header (store unlocked) = Ok (Some (prep_header (av_prepared vault0)))) as E' by (vm_compute; reflexivity).
    rewrite E' in E. by injection E as <-.
  - apply shown_ok.
  - apply strings_ok.
  - apply strings_ok.
  - apply Z.leb_le. vm_compute. reflexivity.
  - vm_compute. reflexivity.
  - vm_compute. reflexivity.
Defined.

Definition payload : PairingPayload :=
  {| pp_account_id := 5; pp_vault_id := 9; pp_email := lit "a@b.c"; pp_secret_key := replicate 16 7;
     pp_vault_key := replicate 32 3 |}.

Lemma envelope_opens_only_here_witness :
  exists env, seal_envelope [] shown payload = Ok env /\
    (open_envelope (generate_keys device) server id env = Ok payload <->
     hpke_public device = device /\ server = server /\ id = id /\ payload = payload).
Proof.
  exists (of_ok [] (seal_envelope [] shown payload)). split; [vm_compute; reflexivity|].
  apply (envelope_opens_only_here [] shown payload _ device server id payload).
  - split; cbn; [done|done|done| |apply lit_str]. split; [|done]. by repeat constructor.
  - apply shown_ok.
  - apply strings_ok.
  - apply strings_ok.
  - apply strings_ok.
  - apply strings_ok.
  - vm_compute. reflexivity.
  - vm_compute. reflexivity.
Defined.
End ToyPairing.
