(* ===== verification/System.v ===== *)
(** * The running vault: every step, and what no sequence of them breaks

    The steps of one vault service as a relation, the invariant they keep,
    and the contract of the two ways a replica changes: a staged write
    committed under the revision the server gave it, and a pull. *)

From S2P Require Import Prelude Errors Text Blob Url Tags Totp Clean Card Identity.
From S2P Require Import CustomField Bank Sso Attachment Model Keys Store Origin Health BuildItem.
From S2P Require Import Vault Items Page ToyCodec Sync Replica Lifecycle.

(** ** Computations that stay within a relation of service states *)

Definition within {A} (R : relation VaultService) (m : V A) : Prop := forall v, R v (m v).1.

Section Within.
Context (R : relation VaultService) `{!PreOrder R}.

Lemma within_bind {A B} (m : V A) (f : A -> V B) : within R m -> (forall a, within R (f a)) -> within R (m ≫= f).
Proof.
  intros Hm Hf v. unfold mbind, M_bind. specialize (Hm v). destruct (m v) as [v1 [a|e]]; [|done].
  etrans; [exact Hm|apply Hf].
Qed.
Lemma within_mlift {A} (r : Result A) : within R (mlift r).
Proof. intros v. cbn. reflexivity. Qed.
Lemma within_mget : within R (A := VaultService) mget.
Proof. intros v. cbn. reflexivity. Qed.
Lemma within_mret {A} (a : A) : within R (mret (M := M VaultService Error) a).
Proof. intros v. cbn. reflexivity. Qed.
Lemma within_throw {A} e : within R (A := A) (mthrow_ e).
Proof. intros v. cbn. reflexivity. Qed.
End Within.

(** The header revisions seen so far are never forgotten. *)
Definition forward (v v' : VaultService) : Prop :=
  forall r, account_row (store v) = Some r ->
  exists r', account_row (store v') = Some r' /\ max_header_rev (acc r) <= max_header_rev (acc r').

#[export] Instance forward_preorder : PreOrder forward.
Proof.
  split.
  - intros v r Hr. by exists r.
  - intros v1 v2 v3 H1 H2 r Hr. destruct (H1 r Hr) as (r2 & Hr2 & ?). destruct (H2 r2 Hr2) as (r3 & Hr3 & ?).
    exists r3. split; [done|lia].
Qed.

Definition same_items_opt (a b : option Session) : Prop :=
  match a, b with Some s, Some s' => same_items s s' | None, None => True | _, _ => False end.

Definition headed (s : Store) : Prop := is_Some (header_row s).

(** Steps that leave the items, the caches and the keys alone. *)
Definition quiet (v v' : VaultService) : Prop :=
  epoch v' = epoch v /\ state v' = state v /\ items (store v') = items (store v) /\
  same_items_opt (session_ v) (session_ v') /\ forward v v' /\ (headed (store v) -> headed (store v')).

#[export] Instance quiet_preorder : PreOrder quiet.
Proof.
  split.
  - intros v. unfold quiet. split_and!; [done..| |reflexivity|done]. by destruct (session_ v).
  - intros v1 v2 v3 (E1 & S1 & I1 & O1 & F1 & D1) (E2 & S2 & I2 & O2 & F2 & D2). unfold quiet.
    split_and!; [congruence..| |by etrans|auto].
    destruct (session_ v1), (session_ v2), (session_ v3); try done. cbn in *.
    destruct O1 as (?&?&?&?&?), O2 as (?&?&?&?&?). unfold same_items. split_and!; congruence.
Qed.

Lemma quiet_modify f : (forall s, same_items s (f s)) -> within quiet (modify_session f).
Proof.
  intros Hf v. unfold modify_session. destruct (session v) as [s|] eqn:Hs; [|reflexivity].
  apply session_unlocked in Hs as [Hst Hs]. unfold quiet. cbn. rewrite Hs. split_and!; try done; [apply Hf|].
  intros r Hr. by exists r.
Qed.

(** A store method that leaves the items alone and forgets no revision. *)
Definition calm (s s' : Store) : Prop :=
  items s' = items s /\ (headed s -> headed s') /\
  forall r, account_row s = Some r ->
  exists r', account_row s' = Some r' /\ max_header_rev (acc r) <= max_header_rev (acc r').

Lemma quiet_store f : (forall s, calm s (f s).1) -> within quiet (on_store f).
Proof.
  intros Hf v. unfold on_store. specialize (Hf (store v)). destruct (f (store v)) as [st r].
  destruct Hf as (Hi & Hh & Hr). unfold quiet, forward. cbn in *. split_and!; try done. by destruct (session_ v).
Qed.
Lemma quiet_store' f : (forall s, calm s (f s)) -> within quiet (on_store' f).
Proof.
  intros Hf v. specialize (Hf (store v)) as (Hi & Hh & Hr). unfold quiet, forward. cbn. split_and!; try done.
  by destruct (session_ v).
Qed.

Lemma calm_same s s' :
  items s' = items s -> account_row s' = account_row s -> header_row s' = header_row s -> calm s s'.
Proof. intros Hi Ha Hh. unfold calm, headed. rewrite Hh. split_and!; [done..|]. rewrite Ha. intros r Hr. by exists r. Qed.

Lemma calm_raise rev s : calm s (raise_max_header_rev rev s).
Proof.
  split_and!; [done..|]. intros r Hr. unfold raise_max_header_rev. cbn. rewrite Hr. eexists. split; [done|]. cbn. lia.
Qed.
Lemma calm_wrap k w sc rev s : calm s (update_key_wrap k w sc rev s).1.
Proof.
  unfold update_key_wrap. destruct (_ <? _); [by apply calm_same|].
  destruct (header_row s) as [h|]; [|by apply calm_same]. unfold calm, headed. cbn. split_and!; [done|by eexists|].
  intros r Hr. by exists r.
Qed.
Lemma calm_cursor c t s : calm s (set_cursor c t s).
Proof. split_and!; [done..|]. intros r Hr. cbn. rewrite Hr. eexists. split; [done|]. cbn. lia. Qed.
Lemma calm_reset t s : calm s (reset_cursor t s).
Proof. apply calm_cursor. Qed.
Lemma calm_prune held cap s : calm s (prune_attachment_cache held cap s).
Proof. by apply calm_same. Qed.

(** Decompose a command and close its leaves. *)
Ltac quiet :=
  repeat first
    [ apply (within_bind quiet) | apply (within_mlift quiet) | apply (within_mget quiet)
    | apply (within_mret quiet) | apply (within_throw quiet) | apply quiet_modify | apply quiet_store
    | apply quiet_store' | apply calm_raise | apply calm_wrap | apply calm_reset | apply calm_prune
    | progress intros | by apply calm_same | case_match ]; try done.

Section Steps.
Context {C : Crypto} {K : KeyLib} {U : Unicode} {J : JsonLib} {UL : UrlLib} {SL : SiteLib UL} {L : TotpLib}
  {H : HeaderLib}.

Lemma quiet_adopt remote : within quiet (adopt_account_header remote).
Proof. unfold adopt_account_header. quiet. Qed.
Lemma quiet_rekey t r rev : within quiet (commit_rekey t r rev).
Proof. unfold commit_rekey. quiet. Qed.
Lemma quiet_settings st r : within quiet (update_settings st r).
Proof. unfold update_settings. quiet. Qed.
Lemma quiet_local {A} `{Codec A} slot (a : A) r : within quiet (write_local slot a r).
Proof. unfold write_local. quiet. Qed.
Lemma quiet_cached att now : within quiet (cached_attachment_of att now).
Proof.
  intros v. unfold cached_attachment_of. mrun. destruct (session v); mrun; [|reflexivity].
  unfold cached_attachment. mrun. unfold quiet, forward. cbn. split_and!; try done; [by destruct (session_ v)|]. intros r Hr. by exists r.
Qed.
Lemma quiet_cache att b now : within quiet (cache_attachment att b now).
Proof. unfold cache_attachment. quiet. Qed.
Lemma quiet_evict att : within quiet (evict_attachment att).
Proof. unfold evict_attachment. quiet. Qed.
Lemma quiet_prune cap : within quiet (prune_attachments cap).
Proof. unfold prune_attachments. quiet. Qed.
Lemma quiet_fill item page top now : within quiet (fill_for_page item page top now).
Proof. unfold fill_for_page, record_fill. quiet. Qed.
Lemma quiet_reset now : within quiet (reset_sync_cursor now).
Proof. unfold reset_sync_cursor. quiet. Qed.

(** ** The service and what is on its way to the server *)

Record World := { svc : VaultService; out : list StagedWrite }.

Inductive step : World -> World -> Prop :=
| step_stage x w : stages (svc x) w -> step x {| svc := svc x; out := w :: out x |}
| step_commit x w rev : w ∈ out x -> step x {| svc := (commit_write w rev (svc x)).1; out := out x |}
| step_pull x changes cursor now : step x {| svc := (apply_changes changes cursor now (svc x)).1; out := out x |}
| step_lock x : epoch (svc x) < u64_max -> step x {| svc := (lock (svc x)).1; out := out x |}
| step_create x p rec r : step x {| svc := (create_account_vault p rec r (svc x)).1; out := out x |}
| step_begin x : step x {| svc := (begin_unlock (svc x)).1; out := out x |}
| step_finish x t key : step x {| svc := (finish_unlock t key (svc x)).1; out := out x |}
| step_bundle x vk : step x {| svc := (unlock_with_vault_key vk (svc x)).1; out := out x |}
| step_adopt x p seen : step x {| svc := (adopt_and_unlock p seen (svc x)).1; out := out x |}
| step_header x remote : step x {| svc := (adopt_account_header remote (svc x)).1; out := out x |}
| step_rekey x t r rev : step x {| svc := (commit_rekey t r rev (svc x)).1; out := out x |}
| step_settings x st r : step x {| svc := (update_settings st r (svc x)).1; out := out x |}
| step_reset x now : step x {| svc := (reset_sync_cursor now (svc x)).1; out := out x |}
| step_fill x item page top now : step x {| svc := (fill_for_page item page top now (svc x)).1; out := out x |}
| step_cached x att now : step x {| svc := (cached_attachment_of att now (svc x)).1; out := out x |}
| step_cache x att b now : step x {| svc := (cache_attachment att b now (svc x)).1; out := out x |}
| step_evict x att : step x {| svc := (evict_attachment att (svc x)).1; out := out x |}
| step_prune x cap : step x {| svc := (prune_attachments cap (svc x)).1; out := out x |}.

(** A store this code wrote: nothing is stored before the header. *)
Definition sound_store (s : Store) : Prop := header_row s = None -> items s = ∅.

Inductive reachable : World -> Prop :=
| reach_new st : sound_store st -> reachable {| svc := new_service st; out := [] |}
| reach_step x y : reachable x -> step x y -> reachable y
| reach_replace x st : reachable x -> sound_store st -> epoch (svc x) < u64_max ->
    reachable {| svc := (replace_store st (svc x)).1; out := out x |}.

Record coherent (x : World) : Prop := {
  co_epoch : 0 <= epoch (svc x);
  co_open : state (svc x) = SUnlocked <-> is_Some (session_ (svc x));
  co_cache : forall s, session (svc x) = Ok s -> session_ok (items (store (svc x))) s /\ headed (store (svc x));
  co_store : sound_store (store (svc x));
  co_out : forall w, w ∈ out x -> sw_epoch w <= epoch (svc x) /\
    (sw_epoch w = epoch (svc x) -> exists s, session (svc x) = Ok s /\ sealed_write s w);
}.

Lemma coherent_quiet x v' : coherent x -> quiet (svc x) v' -> coherent {| svc := v'; out := out x |}.
Proof.
  intros [H1 H2 H3 H4 H5] (E & S & I & O & _ & D).
  assert (is_Some (session_ v') <-> is_Some (session_ (svc x))) as Hopen.
  { destruct (session_ v'), (session_ (svc x)); cbn in O; try done; by rewrite ?is_Some_alt. }
  assert (forall s', session v' = Ok s' -> exists s, session (svc x) = Ok s /\ same_items s s') as Hses.
  { intros s' [Hst Hs]%session_unlocked. unfold session. rewrite <- S, Hst. rewrite Hs in O.
    destruct (session_ (svc x)) as [s|]; [|done]. by exists s. }
  split; cbn [svc out].
  - by rewrite E.
  - rewrite S, H2. by symmetry.
  - intros s' Hs'. destruct (Hses s' Hs') as (s & Hs & Hsame). destruct (H3 s Hs) as [Hok Hh].
    split; [|by auto]. rewrite I. by eapply session_ok_same.
  - intros Hn. rewrite I. destruct (header_row (store (svc x))) eqn:Eh; [|by apply H4].
    destruct D as [? D]; [by eexists|]. unfold headed in *. congruence.
  - intros w Hw. rewrite E. destruct (H5 w Hw) as [Hle Heq]. split; [done|]. intros He.
    destruct (Heq He) as (s & Hs & Hw'). apply session_unlocked in Hs as [Hst Hs].
    rewrite Hs in O. destruct (session_ v') as [s'|] eqn:Es'; [|done]. exists s'. split.
    + unfold session. by rewrite S, Hst, Es'.
    + by eapply sealed_same.
Qed.

Lemma coherent_keeps x v' s :
  coherent x -> session (svc x) = Ok s -> keeps (svc x) v' s -> header_row (store v') = header_row (store (svc x)) ->
  coherent {| svc := v'; out := out x |}.
Proof.
  intros [H1 H2 H3 H4 H5] Hs (s' & Hs' & Hok & Hk & He) Hh. destruct (H3 s Hs) as [_ Hhd].
  assert (headed (store v')) as Hhd' by (unfold headed; by rewrite Hh).
  pose proof (session_unlocked _ _ Hs') as [Hst Hses].
  split; cbn [svc out].
  - by rewrite He.
  - rewrite Hses, Hst. split; [by eexists|done].
  - intros s2 Hs2. assert (s2 = s') as -> by congruence. done.
  - intros Hn. unfold headed in Hhd'. rewrite Hn in Hhd'. by destruct Hhd'.
  - intros w Hw. rewrite He. destruct (H5 w Hw) as [Hle Heq]. split; [done|]. intros Hwe.
    destruct (Heq Hwe) as (s0 & Hs0 & Hw'). assert (s0 = s) as -> by congruence.
    exists s'. split; [done|]. by eapply sealed_keys.
Qed.

(** A step of a vault that is not unlocked: it stays so, or it opens. *)
Definition settles (v v' : VaultService) : Prop :=
  epoch v' = epoch v /\ state v <> SUnlocked /\ (sound_store (store v) -> sound_store (store v')) /\
  ((state v' <> SUnlocked /\ session_ v' = session_ v) \/
   (exists s, state v' = SUnlocked /\ session_ v' = Some s /\
      (sound_store (store v) -> session_ok (items (store v')) s) /\ headed (store v'))).

Lemma settles_refl v : state v <> SUnlocked -> settles v v.
Proof. intros Hs. unfold settles. split_and!; [done..|]. by left. Qed.

Lemma coherent_settles x v' : coherent x -> settles (svc x) v' -> coherent {| svc := v'; out := out x |}.
Proof.
  intros [H1 H2 H3 H4 H5] (He & Hst & Hsound & Hs).
  split; cbn [svc out].
  - by rewrite He.
  - destruct Hs as [[Hs1 Hs2]|(s & Hs1 & Hs2 & _)].
    + rewrite Hs2, <- H2. by split.
    + rewrite Hs1, Hs2. split; [by eexists|done].
  - intros s2 [Hs3 Hs4]%session_unlocked. destruct Hs as [[Hs1 Hs2]|(s & Hs1 & Hs2 & Hok & Hh)]; [done|].
    rewrite Hs2 in Hs4. injection Hs4 as ->. auto.
  - by apply Hsound.
  - intros w Hw. rewrite He. destruct (H5 w Hw) as [Hle Heq]. split; [done|]. intros Hwe.
    destruct (Heq Hwe) as (s & [Hs1 _]%session_unlocked & _). done.
Qed.

Lemma sound_headed s : headed s -> sound_store s.
Proof. intros [h Hh] Hn. congruence. Qed.

Definition calm_step (v v' : VaultService) : Prop := quiet v v' \/ settles v v'.

Lemma calm_refl v : calm_step v v.
Proof. left. reflexivity. Qed.

Lemma require_headed v h : require_header v = Ok h -> headed (store v).
Proof.
  unfold require_header, Store.header. unfold headed. destruct (header_row (store v)); [by eexists|done].
Qed.

Lemma opens_settles v vault vk s :
  state v <> SUnlocked -> open_session v vault vk = Ok s -> headed (store v) -> settles v (open_with s v).
Proof.
  intros Hst Ho Hh. unfold settles. split_and!; [done..|]. right. exists s. split_and!; [done..| |done].
  intros _. by apply open_session_ok in Ho as [? _].
Qed.

Lemma begin_settles v : calm_step v (begin_unlock v).1.
Proof.
  destruct (begin_unlock v) as [v' [t|e]] eqn:E; cbn [fst].
  - apply begin_unlock_inv in E as (h & Hl & _ & _ & _ & -> & _). right. unfold settles. cbn. rewrite Hl.
    split_and!; [done..|]. by left.
  - assert (v' = v) as ->; [|apply calm_refl]. revert E. unfold begin_unlock. mrun.
    destruct (expect_locked v); mrun; [|congruence]. destruct (require_header v); mrun; [|congruence].
    unfold guard_err. destruct (negb _); mrun; [congruence|]. by destruct (kdf_validate _); mrun; [|congruence].
Qed.

Lemma finish_settles t key v : calm_step v (finish_unlock t key v).1.
Proof.
  unfold finish_unlock. destruct (bool_decide_reflect (state v = SUnlocking)) as [Hst|]; cbn [negb orb fst]; [|apply calm_refl].
  destruct (negb _); [apply calm_refl|]. destruct (complete_unlock v t key) as [s|] eqn:Hc; cbn [fst]; right.
  - unfold complete_unlock in Hc. apply bind_Ok in Hc as (kek & _ & Hc). apply bind_Ok in Hc as (h & Hh & Hc).
    destruct (_ || _); [done|]. apply bind_Ok in Hc as (vk & _ & Hc).
    eapply opens_settles; [congruence|done|by eapply require_headed].
  - unfold settles. cbn. rewrite Hst. split_and!; [done..|]. by left.
Qed.

Lemma bundle_settles vk v : calm_step v (unlock_with_vault_key vk v).1.
Proof.
  unfold unlock_with_vault_key. mrun. destruct (expect_locked v) as [[]|] eqn:El; mrun; [|apply calm_refl].
  assert (state v <> SUnlocked) as Hst by (intros E; unfold expect_locked in El; by rewrite E in El).
  destruct (require_header v) as [h|] eqn:Hh; mrun; [|apply calm_refl].
  unfold guard_err. destruct (negb _); mrun; [apply calm_refl|]. destruct (derive_data_key vk); mrun; [|apply calm_refl].
  destruct (ok_or _ _); mrun; [|apply calm_refl]. destruct (authenticate_settings _ _ _); mrun; [|apply calm_refl].
  destruct (open_session _ _ _) as [s|] eqn:Ho; mrun; [|apply calm_refl]. right.
  eapply opens_settles; [done|exact Ho|by eapply require_headed].
Qed.

Lemma adopt_settles p seen v : calm_step v (adopt_and_unlock p seen v).1.
Proof.
  unfold adopt_and_unlock. mrun. unfold guard_err.
  destruct (bool_decide_reflect (state v = SLocked)) as [Hst|]; cbn [negb]; mrun; [|apply calm_refl].
  destruct (negb _); mrun; [apply calm_refl|]. destruct (require_header v) as [h|] eqn:Hh; mrun; [|apply calm_refl].
  destruct (require_account v) as [a|]; mrun; [|apply calm_refl]. destruct (_ || _); mrun; [apply calm_refl|].
  destruct (_ <=? _); mrun; [apply calm_refl|].
  pose proof (quiet_store _ (calm_wrap (Store.kdf (prep_header p)) (wrapped_vault_key (prep_header p))
    (key_scheme (prep_header p)) (Store.revision (prep_header p))) v) as Hq.
  unfold mbind at 1, M_bind at 1.
  destruct (on_store (update_key_wrap _ _ _ _) v) as [v1 [[]|e]]; [|left; exact Hq].
  cbn [fst] in Hq.
  set (v2 := set_store (raise_max_header_rev (as_i64 (Store.revision (prep_header p))) (store v1)) v1).
  assert (quiet v1 v2) as Hq2 by exact (quiet_store' _ (calm_raise (as_i64 (Store.revision (prep_header p)))) v1).
  unfold on_store'. mrun. fold v2.
  assert (quiet v v2) as Hq3 by (by etrans). pose proof Hq3 as (E & S & I & O & _ & D).
  mrun. destruct (open_session v2 _ _) as [s|] eqn:Ho; mrun; [|left; exact Hq3].
  right. unfold settles. cbn. rewrite Hst. assert (headed (store v2)) as Hhd by (apply D; by eapply require_headed).
  split_and!; [done..| |]; [intros _; by apply sound_headed|]. right. exists s. split_and!; [done..| |done].
  intros _. by apply open_session_ok in Ho as [? _].
Qed.

Lemma calm_account a st : items (set_account a st).1 = items st /\ header_row (set_account a st).1 = header_row st.
Proof. unfold set_account. by destruct (account_row st); [destruct (negb _)|]. Qed.

Lemma create_settles p a r v : calm_step v (create_account_vault p a r v).1.
Proof.
  destruct (create_account_vault p a r v) as [v' [[]|e]] eqn:E; cbn [fst].
  - apply create_inv in E as (st & key & ident & blob & Hst & Hh & Hacc & _ & _ & _ & Hins & ->).
    pose proof (calm_account a (store v)) as [Hi Hr]. rewrite Hacc in Hi, Hr. cbn [fst] in Hi, Hr.
    unfold insert_header in *. destruct (header_row st) eqn:Ehr; [done|]. destruct (_ <? _); [done|]. cbn.
    right. unfold settles. cbn. rewrite Hst. split_and!; [done..| |]; [by intros _ ?|].
    right. eexists. split_and!; [done..| |by eexists]. intros Hs.
    assert (items st = ∅) as Hemp by (rewrite Hi; apply Hs; congruence). cbn. rewrite Hemp.
    split; cbn; [by intros ? ? ?%lookup_empty_Some..|]. intros i. unfold cached, readable. cbn. by rewrite !lookup_empty.
  - revert E. unfold create_account_vault. mrun. unfold guard_err.
    destruct (bool_decide_reflect (state v = SLocked)) as [Hst|]; cbn [negb]; mrun; [|intros [= <- _]; apply calm_refl].
    destruct (Store.header (store v)) as [h|]; mrun; [|intros [= <- _]; apply calm_refl].
    destruct (is_some h); mrun; [intros [= <- _]; apply calm_refl|].
    assert (forall st, items st = items (store v) -> header_row st = header_row (store v) -> calm_step v (set_store st v)) as Hsame.
    { intros st Hi Hr. right. unfold settles. cbn. rewrite Hst. split_and!; [done..| |by left].
      unfold sound_store. by rewrite Hi, Hr. }
    pose proof (calm_account a (store v)) as [Hi Hr]. unfold on_store, mbind at 1, M_bind at 1.
    destruct (set_account a (store v)) as [st [[]|e1]]; cbn [fst] in Hi, Hr; cbv beta iota; [|intros [= <- _]; by apply Hsame].
    mrun. destruct (derive_data_key _); mrun; [|intros [= <- _]; by apply Hsame].
    destruct (derive_identity_item_id _); mrun; [|intros [= <- _]; by apply Hsame].
    destruct (seal_json _ _ _ _); mrun; [|intros [= <- _]; by apply Hsame].
    unfold mbind, M_bind. cbn [store set_store]. unfold insert_header.
    destruct (header_row st) eqn:Ehr; [intros [= <- _]; apply Hsame; congruence|].
    destruct (_ <? _); [|done]. intros [= <- _]. apply Hsame; congruence.
Qed.

Lemma seal_staged_unlocked v o d base r1 r2 w : seal_staged v o d base r1 r2 = Ok w -> exists s, session v = Ok s.
Proof. unfold seal_staged. intros (s & Hs & _)%bind_Ok. by exists s. Qed.
Lemma stage_unlocked v o d base r1 r2 w : stage v o d base r1 r2 = Ok w -> exists s, session v = Ok s.
Proof. unfold stage. intros (o' & _ & Hw)%bind_Ok. by eapply seal_staged_unlocked. Qed.

Lemma stages_unlocked v w : stages v w -> exists s, session v = Ok s.
Proof.
  destruct (session v) as [s|e] eqn:Hs; [by exists s|]. intros Hw. exfalso.
  assert (forall o d base r1 r2 w, stage v o d base r1 r2 = Ok w -> False) as Hstage.
  { intros ? ? ? ? ? ? (s & Hs')%stage_unlocked. congruence. }
  destruct Hw as [???????? _ _ H0|???????? _ _ H0|?? H0|?????? _ _ H0|????? _ _ H0|???? _ _ H0|?? H0|?? H0|??? H0|?????? _ _ H0|?????? _ _ _ H0|????????? _ _ _ H0].
  - unfold stage_create_with in H0. destruct (decide _); [done|]. apply bind_Ok in H0 as ([] & _ & H0).
    apply bind_Ok in H0 as ([] & _ & H0). apply bind_Ok in H0 as (w' & Hw & _). by eapply Hstage.
  - unfold stage_update_with, get_item in H0. by rewrite Hs in H0.
  - unfold stage_delete in H0. by rewrite Hs in H0.
  - unfold stage_identity_if_missing in H0. by rewrite Hs in H0.
  - unfold stage_trash in H0. by rewrite Hs in H0.
  - unfold stage_restore_trashed in H0. by rewrite Hs in H0.
  - unfold stage_purge in H0. by rewrite Hs in H0.
  - unfold stage_empty_trash in H0. by rewrite Hs in H0.
  - unfold stage_expired_trash in H0. by rewrite Hs in H0.
  - unfold stage_attachments in H0. by rewrite Hs in H0.
  - by eapply Hstage.
  - unfold stage_in_batch in H0. by rewrite Hs in H0.
Qed.

Lemma commit_write_rest w rev v :
  header_row (store (commit_write w rev v).1) = header_row (store v) /\
  account_row (store (commit_write w rev v).1) = account_row (store v).
Proof.
  destruct (commit_write w rev v) as [v' r] eqn:E. cbn [fst].
  apply commit_write_cases in E as [(-> & _)|(s & _ & _ & [(ov & det & o & _ & _ & _ & _ & ->)|[(_ & _ & _ & _ & ->)|(_ & -> & _)]])]; done.
Qed.

Lemma apply_changes_cases changes cursor now v :
  (apply_changes changes cursor now v).1 = v \/
  exists s a, session v = Ok s /\ require_account v = Ok a.
Proof.
  unfold apply_changes. mrun. destruct (require_account v) as [a|]; mrun; [|by left].
  destruct (session v) as [s|]; mrun; [|by left]. right. by exists s, a.
Qed.

(** ** Revisions are never forgotten *)

Lemma forward_same v v' : account_row (store v') = account_row (store v) -> forward v v'.
Proof. intros Ha r Hr. exists r. rewrite Ha. by split. Qed.
Lemma forward_quiet {A} (m : V A) : within quiet m -> within forward m.
Proof. intros Hm v. by destruct (Hm v) as (_ & _ & _ & _ & ? & _). Qed.
Lemma forward_modify f : (forall v, account_row (store (f v)) = account_row (store v)) -> within forward (mmodify f).
Proof. intros Hf v. apply forward_same, Hf. Qed.
Lemma forward_account a : within forward (on_store (set_account a)).
Proof.
  intros v r Hr. unfold on_store, set_account. rewrite Hr. destruct (negb _); cbn; [by exists r|].
  eexists. split; [done|]. cbn. lia.
Qed.
Lemma forward_insert h b : within forward (on_store (insert_header h b)).
Proof.
  intros v r Hr. unfold on_store, insert_header. destruct (header_row (store v)); [by exists r|].
  destruct (_ <? _); by exists r.
Qed.

Ltac go_forward :=
  repeat first
    [ apply (within_bind forward) | apply (within_mlift forward) | apply (within_mget forward)
    | apply (within_mret forward) | apply (within_throw forward) | apply forward_account | apply forward_insert
    | by (apply forward_quiet; quiet) | apply forward_modify | progress intros | case_match ]; try done.

Lemma forward_create p rec r : within forward (create_account_vault p rec r).
Proof. unfold create_account_vault. go_forward. Qed.
Lemma forward_begin : within forward begin_unlock.
Proof. unfold begin_unlock. go_forward. Qed.
Lemma forward_finish t key : within forward (finish_unlock t key).
Proof. intros v. unfold finish_unlock. repeat case_match; by apply forward_same. Qed.
Lemma forward_bundle vk : within forward (unlock_with_vault_key vk).
Proof. unfold unlock_with_vault_key. go_forward. Qed.
Lemma forward_adopt p seen : within forward (adopt_and_unlock p seen).
Proof. unfold adopt_and_unlock. go_forward. Qed.
Lemma forward_changes changes cursor now : within forward (apply_changes changes cursor now).
Proof.
  intros v. destruct (apply_changes_cases changes cursor now v) as [->|(s & a & Hs & Ha)]; [reflexivity|].
  unfold apply_changes. mrun. rewrite Ha. mrun. rewrite Hs. mrun. set (p := foldl _ _ _).
  destruct (apply_pull _ _ _ _ (store v)) as [st n] eqn:Ep. mrun.
  assert (forward v (set_store st v)) as Hf.
  { intros r Hr. pose proof (apply_pull_rest (pl_rows p) (pl_deletions p) (pl_unreadable p) ((fun c => (c, now)) <$> cursor)
      (store v)) as (_ & _ & _ & _ & Hacc). rewrite Ep in Hacc. cbn [fst] in Hacc.
    cbn [store set_store]. rewrite Hacc. destruct ((fun c => (c, now)) <$> cursor) as [[c t]|]; [|by exists r].
    rewrite Hr. eexists. split; [done|]. cbn. lia. }
  etrans; [exact Hf|].
  assert (within forward (A := SyncReport) (
    _ ← modify_session (fun s => foldl (fun s o => place o s) s (pl_overviews p));
    _ ← modify_session (fun s => foldl (fun s i => forget i s) s (pl_deletions p));
    _ ← (if negb (bool_decide (pl_overviews p = [])) || negb (bool_decide (pl_deletions p = []))
         then modify_session items_changed else mret ());
    mret {| rep_added := pl_added p; rep_updated := pl_updated p; rep_deleted := n;
            skipped_items := length (pl_unreadable p); header_adopted := false |})) as Hw; [|apply Hw].
  assert (forall f, within forward (modify_session f)) as Hm.
  { intros f v'. unfold modify_session. case_match; by apply forward_same. }
  apply (within_bind forward); [apply Hm|intros _]. apply (within_bind forward); [apply Hm|intros _].
  apply (within_bind forward); [destruct (_ || _); [apply Hm|apply (within_mret forward)]|]. intros _. apply (within_mret forward).
Qed.

Lemma step_forward x y : step x y -> forward (svc x) (svc y).
Proof.
  intros Hxy. destruct Hxy; cbn [svc].
  - reflexivity.
  - apply forward_same, commit_write_rest.
  - apply forward_changes.
  - by apply forward_same.
  - apply forward_create.
  - apply forward_begin.
  - apply forward_finish.
  - apply forward_bundle.
  - apply forward_adopt.
  - apply (forward_quiet _ (quiet_adopt _)).
  - apply (forward_quiet _ (quiet_rekey _ _ _)).
  - apply (forward_quiet _ (quiet_settings _ _)).
  - apply (forward_quiet _ (quiet_reset _)).
  - apply (forward_quiet _ (quiet_fill _ _ _ _)).
  - apply (forward_quiet _ (quiet_cached _ _)).
  - apply (forward_quiet _ (quiet_cache _ _ _)).
  - apply (forward_quiet _ (quiet_evict _)).
  - apply (forward_quiet _ (quiet_prune _)).
Qed.


Context `{!AeadCorrect C, !JsonLaws J}.

Lemma coherent_calm x v' : coherent x -> calm_step (svc x) v' -> coherent {| svc := v'; out := out x |}.
Proof. intros Hx [Hq|Hs]; [by apply coherent_quiet|by apply coherent_settles]. Qed.

Lemma coherent_stage x w : coherent x -> stages (svc x) w -> coherent {| svc := svc x; out := w :: out x |}.
Proof.
  intros Hx Hw. destruct (stages_unlocked _ _ Hw) as [s Hs]. destruct (co_cache x Hx s Hs) as [Hok _].
  destruct (stages_ok _ _ _ Hs Hok Hw) as [Hsealed He]. destruct Hx as [H1 H2 H3 H4 H5].
  split; cbn [svc out]; [done..|]. intros w' [->|Hin]%elem_of_cons; [|by apply H5].
  rewrite He. split; [lia|]. intros _. by exists s.
Qed.

Lemma coherent_commit x w rev :
  coherent x -> w ∈ out x -> coherent {| svc := (commit_write w rev (svc x)).1; out := out x |}.
Proof.
  intros Hx Hw. destruct (co_out x Hx w Hw) as [_ Heq].
  destruct (decide (sw_epoch w = epoch (svc x))) as [He|He].
  - destruct (Heq He) as (s & Hs & Hsealed). destruct (co_cache x Hx s Hs) as [Hok _].
    destruct (commit_write w rev (svc x)) as [v' r] eqn:Ec.
    pose proof (commit_write_rest w rev (svc x)) as [Hh _]. rewrite Ec in Hh.
    destruct (commit_write_keeps w rev (svc x) s v' r) as [Hk _]; [done..|].
    by eapply coherent_keeps.
  - rewrite commit_refused by done. by destruct x.
Qed.

Lemma coherent_pull x changes cursor now :
  coherent x -> coherent {| svc := (apply_changes changes cursor now (svc x)).1; out := out x |}.
Proof.
  intros Hx. destruct (apply_changes_cases changes cursor now (svc x)) as [->|(s & a & Hs & Ha)]; [by destruct x|].
  destruct (co_cache x Hx s Hs) as [Hok _].
  destruct (apply_changes_run changes cursor now (svc x) s a) as (v' & rep & s' & Hr & Hs' & Hok' & Hk & He & Hst); [done..|].
  rewrite Hr. cbn [fst]. eapply (coherent_keeps x v' s); [done..|by exists s'|].
  cbv zeta in Hst. rewrite Hst. by apply apply_pull_rest.
Qed.

Lemma coherent_lock x st : sound_store st -> coherent x -> epoch (svc x) < u64_max ->
  coherent {| svc := (replace_store st (svc x)).1; out := out x |}.
Proof.
  intros Hst [H1 H2 H3 H4 H5] He. split; cbn [svc out fst replace_store lock epoch state session_ store set_store].
  - unfold u64_wrapping_add, u64_max in *. apply Z.mod_pos_bound. lia.
  - split; [done|by intros []].
  - intros s Hs. done.
  - done.
  - intros w Hw. destruct (H5 w Hw) as [Hle _]. unfold u64_wrapping_add, u64_max in *. rewrite Z.mod_small by lia.
    split; [lia|]. lia.
Qed.

Lemma step_coherent x y : coherent x -> step x y -> coherent y.
Proof.
  intros Hx Hxy. destruct Hxy.
  - by apply coherent_stage.
  - by apply coherent_commit.
  - by apply coherent_pull.
  - assert ((lock (svc x)).1 = (replace_store (store (svc x)) (svc x)).1) as -> by done.
    apply coherent_lock; [by apply co_store|done..].
  - apply coherent_calm; [done|apply create_settles].
  - apply coherent_calm; [done|apply begin_settles].
  - apply coherent_calm; [done|apply finish_settles].
  - apply coherent_calm; [done|apply bundle_settles].
  - apply coherent_calm; [done|apply adopt_settles].
  - apply coherent_quiet; [done|apply quiet_adopt].
  - apply coherent_quiet; [done|apply quiet_rekey].
  - apply coherent_quiet; [done|apply quiet_settings].
  - apply coherent_quiet; [done|apply quiet_reset].
  - apply coherent_quiet; [done|apply quiet_fill].
  - apply coherent_quiet; [done|apply quiet_cached].
  - apply coherent_quiet; [done|apply quiet_cache].
  - apply coherent_quiet; [done|apply quiet_evict].
  - apply coherent_quiet; [done|apply quiet_prune].
Qed.

Lemma reachable_invariant x : reachable x -> coherent x.
Proof.
  induction 1 as [st Hst|x y _ IH Hxy|x st _ IH Hst He].
  - split; cbn [svc out new_service epoch state session_ store]; [done| |done|done|by intros w ?%elem_of_nil].
    split; [done|by intros []].
  - by eapply step_coherent.
  - by apply coherent_lock.
Qed.

(** ** What a commit leaves *)

(** The write's item after its commit. *)
Definition written (v' : VaultService) (s' : Session) (w : StagedWrite) (rev : Z) : Prop :=
  match plain w with
  | Some o =>
      item_revision (sw_item w) (store v') = Some rev /\ stored_overview s' (sw_item w) = Ok o /\
      exists d, open_details v' s' (sw_item w) (item_type o) = Ok d
  | None => items (store v') !! sw_item w = None /\ stored_overview s' (sw_item w) = Err NotFound
  end.

Lemma open_details_row v s i t row d :
  items (store v) !! i = Some row ->
  open_json (data_key s) (ctx_item_details (ses_vault_id s) i (row_overview row)) (row_details row) = Ok d ->
  details_type d = t -> open_details v s i t = Ok d.
Proof.
  intros Hi Ho Ht. unfold open_details, item_blobs. rewrite Hi. cbn. rewrite Ho. cbn.
  by rewrite decide_True.
Qed.

Lemma commit_written w rev v s :
  session v = Ok s -> session_ok (items (store v)) s -> staged v s w ->
  exists v' s', commit_write w rev v = (v', Ok (plain w)) /\ session v' = Ok s' /\ same_keys s s' /\
    session_ok (items (store v')) s' /\ written v' s' w rev /\
    forall j, j <> sw_item w -> items (store v') !! j = items (store v) !! j /\ cached s' j = cached s j.
Proof.
  intros Hs Hok Hst. destruct (commit_write w rev v) as [v' r] eqn:Ec.
  destruct (commit_write_keeps w rev v s v' r) as [(s' & Hs' & Hok' & Hk & He) ->]; [done..|].
  exists v', s'. split; [done|]. split; [done|]. split; [done|]. split; [done|].
  assert (forall j, items (store v') !! j = items (store v) !! j -> cached s' j = cached s j) as Hsame.
  { intros j Hj. rewrite (cache_exact _ _ Hok'), (cache_exact _ _ Hok). unfold readable. rewrite Hj.
    by destruct Hk as (-> & -> & _). }
  destruct Hst as [Hw Hew].
  apply commit_write_cases in Ec as [(_ & _ & Hne)|(s0 & Hs0 & _ & Hc)]; [by destruct (Hne s)|].
  assert (s0 = s) as -> by congruence. destruct Hk as (Hk1 & Hk2 & _).
  destruct Hc as [(ov & det & o & Hov & Hdet & Hp & Hr & ->)|[(Hov & Hdet & Hp & Hr & ->)|([e Hr] & _)]]; [..|done].
  - split.
    + destruct Hw as [ov' det' o' H1 H2 H3 H4 (d & H5 & H6)|]; [|congruence]. simplify_eq.
      unfold written. rewrite H3. split; [unfold item_revision; cbn; by rewrite lookup_insert_eq|]. split.
      * change (ok_or NotFound (cached s' (sw_item w)) = Ok o'). rewrite (cache_exact _ _ Hok'). unfold readable.
        cbn -[read_overview]. rewrite lookup_insert_eq. cbn -[read_overview].
        rewrite Hk1, Hk2, H4. done.
      * exists d. eapply open_details_row; [cbn; by rewrite lookup_insert_eq| |done]. cbn [row_overview row_details].
        by rewrite Hk1, Hk2.
    + intros j Hj. assert (items (store (set_session (Some (place o (items_changed s))) (set_store
        (upsert_item (sw_item w) ov det rev (store v)) v))) !! j = items (store v) !! j) as E.
      { cbn. by rewrite lookup_insert_ne. }
      split; [done|by apply Hsame].
  - split.
    + unfold written. rewrite Hp. split; [cbn; by rewrite lookup_delete_eq|].
      change (ok_or NotFound (cached s' (sw_item w)) = Err NotFound). rewrite (cache_exact _ _ Hok'). unfold readable.
      cbn. by rewrite lookup_delete_eq.
    + intros j Hj. assert (items (store (set_session (Some (forget (sw_item w) (items_changed s))) (set_store
        (delete_item (sw_item w) (store v)).1 v))) !! j = items (store v) !! j) as E.
      { cbn. by rewrite lookup_delete_ne. }
      split; [done|by apply Hsame].
Qed.

(** The version a creation builds. *)
Lemma create_staged new_id i inp files now r1 r2 v s w :
  session v = Ok s -> good_nonce r1 -> good_nonce r2 -> stage_create_with new_id i inp files now r1 r2 v = Ok w ->
  exists o d o' ts, build_item new_id i inp None now now = Ok (o, d) /\ plain w = Some (with_tags ts o') /\
    (exists ids, apply_files files o = Ok (o', ids)) /\ sw_item w = i /\ staged v s w /\
    exists ov det, sw_overview w = Some ov /\ sw_details w = Some det /\
      open_json (data_key s) (ctx_item_details (ses_vault_id s) i ov) det = Ok d.
Proof.
  intros Hs Hg1 Hg2 Hw. unfold stage_create_with in Hw. destruct (decide _); [done|].
  apply bind_Ok in Hw as ([o d] & Hb & Hw). pose proof (build_item_ok _ _ _ _ _ _ _ _ Hb) as (_ & _ & [Ht _] & Hid & _).
  apply bind_Ok in Hw as ([o' ids] & Hf & Hw). pose proof (apply_files_type _ _ _ _ Hf) as (Hft & Hfi & _).
  apply bind_Ok in Hw as (w' & Hw' & Hw). apply (inj Ok) in Hw. subst w.
  unfold stage in Hw'. apply bind_Ok in Hw' as (o2 & Ho2 & Hw').
  assert (exists ts, o2 = with_tags ts o') as [ts ->].
  { destruct (bool_decide _); [apply (inj Ok) in Ho2 as <-; exists (tags o'); by destruct o'|].
    apply bind_Ok in Ho2 as (sp & _ & Ho2). apply (inj Ok) in Ho2. by eexists. }
  assert (details_type d = item_type (with_tags ts o')) as Hty by (cbn; congruence).
  destruct (seal_staged_ok v s (with_tags ts o') d None r1 r2 w' Hs Hg1 Hg2 Hty Hw') as (Hst & Hi & Hp & _ & ov & det & Hov & Hdet & Hod).
  exists o, d, o', ts. cbn [with_ids plain sw_item sw_overview sw_details].
  assert (Model.id (with_tags ts o') = i) as Hid' by (cbn; congruence).
  split_and!; [done..|by exists ids|congruence|by apply staged_with_ids|].
  exists ov, det. rewrite Hid' in Hod. by split_and!.
Qed.

Lemma cached_live s m i o :
  session_ok m s -> cached s i = Some o -> is_trashed s o = false -> overviews s !! i = Some o.
Proof.
  intros Hok. unfold cached. destruct (overviews s !! i) as [x|] eqn:Ex; [done|]. intros Ht Hn.
  destruct (trash_home _ _ Hok _ _ Ht) as (_ & Htr & _). congruence.
Qed.

(** What [stage] seals, and the details it opens to. *)
Lemma stage_put v s o d base r1 r2 w :
  session v = Ok s -> good_nonce r1 -> good_nonce r2 -> details_type d = item_type o ->
  stage v o (Some d) base r1 r2 = Ok w ->
  exists ts ov det, plain w = Some (with_tags ts o) /\ sw_item w = Model.id o /\ staged v s w /\
    sw_overview w = Some ov /\ sw_details w = Some det /\
    open_json (data_key s) (ctx_item_details (ses_vault_id s) (Model.id o) ov) det = Ok d.
Proof.
  intros Hs Hg1 Hg2 Ht. unfold stage. intros (o' & Ho & Hw)%bind_Ok.
  assert (exists ts, o' = with_tags ts o) as [ts ->].
  { destruct (bool_decide _); [apply (inj Ok) in Ho as <-; exists (tags o); by destruct o|].
    apply bind_Ok in Ho as (sp & _ & Ho). apply (inj Ok) in Ho. by eexists. }
  apply (seal_staged_ok v s) in Hw as (Hst & Hi & Hp & _ & ov & det & Hov & Hdet & Hod); [|done..].
  exists ts, ov, det. by split_and!.
Qed.

(** A live version, committed: the item reads back as it was staged. *)
Lemma put_committed v s w rev o d ov det :
  session v = Ok s -> session_ok (items (store v)) s -> staged v s w -> plain w = Some o -> is_trashed s o = false ->
  sw_overview w = Some ov -> sw_details w = Some det -> details_type d = item_type o ->
  open_json (data_key s) (ctx_item_details (ses_vault_id s) (sw_item w) ov) det = Ok d ->
  exists v' s', commit_write w rev v = (v', Ok (Some o)) /\ session v' = Ok s' /\ session_ok (items (store v')) s' /\
    get_item (sw_item w) v' = Ok o /\ load_details (sw_item w) v' = Ok d /\ item_revision (sw_item w) (store v') = Some rev.
Proof.
  intros Hs Hok Hst Hp Htr Hov Hdet Hty Hod.
  destruct (commit_written w rev v s Hs Hok Hst) as (v' & s' & Hc & Hs' & (Hk1 & Hk2 & Hk3) & Hok' & Hwr & _).
  unfold written in Hwr. rewrite Hp in Hwr, Hc. destruct Hwr as (Hrev & Hso & _).
  exists v', s'. split; [done|]. split; [done|]. split; [done|].
  assert (cached s' (sw_item w) = Some o) as Hcache.
  { change (ok_or NotFound (cached s' (sw_item w)) = Ok o) in Hso. destruct (cached s' (sw_item w)); [|done]. by injection Hso as ->. }
  assert (overviews s' !! sw_item w = Some o) as Hlive by (eapply cached_live; [done|done|]; unfold is_trashed in *; by rewrite Hk3).
  split; [unfold get_item; rewrite Hs'; cbn; by rewrite Hlive|]. split; [|done].
  unfold load_details. rewrite Hs'. cbn. rewrite Hlive. cbn.
  apply commit_write_cases in Hc as [(_ & [e He] & _)|(s0 & _ & _ & [(ov' & det' & o2 & Hov' & Hdet' & _ & _ & Hv)|[(_ & _ & Hp' & _)|([e He] & _)]])];
    [done| |congruence|done]. simplify_eq.
  by eapply open_details_row; [cbn; by rewrite lookup_insert_eq|cbn; by rewrite Hk1, Hk2|].
Qed.

(** An Identity whose pulled overview carries [trashed_at] stays in the live
    cache, but [stage_attachments] looks for its details in the Trash: no
    change of its files can be staged. *)
Lemma marked_identity_files_refused v s o c now r1 r2 :
  session v = Ok s -> session_ok (items (store v)) s ->
  overviews s !! identity_id s = Some o -> is_some (trashed_at o) = true ->
  exists e, stage_attachments (identity_id s) c now r1 r2 v = Err e.
Proof.
  intros Hs Hok Ho Ht. unfold stage_attachments. rewrite Hs. cbn [mbind result_bind]. unfold stored_overview. rewrite Ho.
  cbn [ok_or mbind result_bind]. destruct (change_files c o) as [o'|e] eqn:Hc; cbn [mbind result_bind]; [|by exists e].
  apply change_files_type in Hc as (_ & Htr & _). cbn [with_updated trashed_at]. rewrite Htr, Ht.
  destruct (live_home _ _ Hok _ _ Ho) as (_ & _ & Hn). unfold load_trashed_details. rewrite Hs. cbn [mbind result_bind].
  rewrite Hn. by exists NotFound.
Qed.

(** ** Properties *)

(** C1: whatever runs - staging, commits, pulls, locks, unlocks by password,
    by bundle or by signing in again, adopted headers, password changes, a
    store swapped for another - the service is unlocked exactly when it
    holds a session; the session's two caches are exactly what the stored
    blobs open to, each item in one of them; and every write ever staged,
    whenever the server's answer comes, is either refused as locked with the
    vault left alone, or commits the version that was staged. *)
Theorem reachable_coherent x :
  reachable x ->
  (state (svc x) = SUnlocked <-> is_Some (session_ (svc x))) /\
  (forall s, session (svc x) = Ok s -> session_ok (items (store (svc x))) s) /\
  (forall w rev, w ∈ out x ->
     commit_write w rev (svc x) = (svc x, Err Locked) /\ sw_epoch w <> epoch (svc x) \/
     exists v' s', commit_write w rev (svc x) = (v', Ok (plain w)) /\ session v' = Ok s' /\
       session_ok (items (store v')) s' /\ written v' s' w rev /\
       (plain w = None -> sw_item w <> identity_id s')).
Proof.
  intros [H1 H2 H3 H4 H5]%reachable_invariant. split_and!; [done|by intros s [? _]%H3|].
  intros w rev Hw. destruct (H5 w Hw) as [_ Heq]. destruct (decide (sw_epoch w = epoch (svc x))) as [He|He].
  - right. destruct (Heq He) as (s & Hs & Hsealed). destruct (H3 s Hs) as [Hok _].
    destruct (commit_written w rev (svc x) s Hs Hok (conj Hsealed He)) as (v' & s' & Hc & Hs' & Hk & Hok' & Hwr & _).
    exists v', s'. split_and!; try done. intros Hp. destruct Hk as (_ & _ & ->).
    destruct Hsealed; [congruence|done].
  - left. split; [by apply commit_refused|done].
Qed.

(** No sequence of steps forgets how recent a header this replica has
    accepted: the highest header revision on record only grows. *)
Lemma header_revision_never_lowers x y :
  rtc step x y ->
  forall r, account_row (store (svc x)) = Some r ->
  exists r', account_row (store (svc y)) = Some r' /\ max_header_rev (acc r) <= max_header_rev (acc r').
Proof.
  intros Hxy. change (forward (svc x) (svc y)). induction Hxy as [x|x y z Hs _ IH]; [reflexivity|].
  etrans; [by apply step_forward|exact IH].
Qed.

(** C24: a staged write, once the server assigned it a revision, is what the
    vault then holds: its item reads back as staged, with that revision and
    with details that open, or is gone; and every other item is untouched. *)
Theorem commit_applies_staged v s w rev :
  session v = Ok s -> session_ok (items (store v)) s -> stages v w ->
  exists v' s', commit_write w rev v = (v', Ok (plain w)) /\ session v' = Ok s' /\
    session_ok (items (store v')) s' /\ written v' s' w rev /\
    forall j, j <> sw_item w -> items (store v') !! j = items (store v) !! j /\ cached s' j = cached s j.
Proof.
  intros Hs Hok Hw. pose proof (stages_ok v s w Hs Hok Hw) as Hst.
  destruct (commit_written w rev v s Hs Hok Hst) as (v' & s' & Hc & Hs' & _ & Hok' & Hwr & Hrest).
  by exists v', s'.
Qed.

(** C23: an item created from a form and committed reads back as the form
    said: the built overview (with its tags in the vault's spelling and the
    added files) in the list, and exactly the built details when revealed. *)
Theorem create_then_read new_id i inp files now r1 r2 v s w rev :
  session v = Ok s -> session_ok (items (store v)) s -> good_nonce r1 -> good_nonce r2 ->
  stage_create_with new_id i inp files now r1 r2 v = Ok w ->
  exists v' o0 o1 ids ts d,
    commit_write w rev v = (v', Ok (Some (with_tags ts o1))) /\
    build_item new_id i inp None now now = Ok (o0, d) /\ apply_files files o0 = Ok (o1, ids) /\
    get_item i v' = Ok (with_tags ts o1) /\ load_details i v' = Ok d /\ item_revision i (store v') = Some rev.
Proof.
  intros Hs Hok Hg1 Hg2 Hw.
  destruct (create_staged new_id i inp files now r1 r2 v s w) as (o & d & o' & ts & Hb & Hp & [ids Hf] & Hi & Hst & ov & det & Hov & Hdet & Hod); [done..|].
  pose proof (build_item_ok _ _ _ _ _ _ _ _ Hb) as (_&_&[Hty _]&_&_&_&_&_&_&_&_&Htr&_).
  pose proof (apply_files_type _ _ _ _ Hf) as (Hft & _ & Ht). rewrite <- Hi in Hod.
  destruct (put_committed v s w rev (with_tags ts o') d ov det) as (v' & s' & Hc & _ & _ & Hg & Hl & Hrev); [done..|unfold is_trashed; cbn; by rewrite Ht, Htr|done|done|cbn; congruence|done|].
  rewrite Hi in Hg, Hl, Hrev. by exists v', o, o', ids, ts, d.
Qed.
End Steps.

(** ** A concrete run *)

Module Run.
Import Blob.Toy ToyUnicode ToyUrl ToyTotp ToySite ToyCodec Sample.

Definition site_input : ItemInput :=
  {| in_type := Login; in_title := lit "Site"; in_username := Some (lit "me");
     in_urls := [{| Model.url := lit "https://a.com"; match_type := Domain |}];
     in_password := SetTo (lit "old-password"); in_totp := Keep; in_notes := Keep; in_content := Keep;
     in_auto_sign_in := None; in_sign_in_with := None; in_identity := None; in_card := None; in_bank := None;
     in_sections := None; in_tags := Some [lit "work"] |}.

Definition no_write : StagedWrite :=
  {| sw_item := 0; base_revision := None; sw_overview := None; sw_details := None; attachment_ids := None;
     sw_epoch := 0; plain := None |}.
Definition new_id (n : nat) : Z := 100 + Z.of_nat n.
Definition write : StagedWrite := of_ok no_write (stage_create_with new_id 42 site_input no_files 2000 (nonce 5) (nonce 6) unlocked).
Definition session1 : Session :=
  of_ok {| ses_vault_id := 0; data_key := []; ses_vault_key := []; identity_id := 0; overviews := ∅; trash := ∅;
           ses_settings := settings_default; damaged_items := 0; damaged_settings := false; recent_fills := [];
           generation := 0; health := None |} (session unlocked).

Lemma session1_ok : session unlocked = Ok session1 /\ session_ok (items (store unlocked)) session1.
Proof.
  assert (unlock_for_account password (av_secret_key vault0) who locked = (unlocked, Ok ())) as H by (vm_compute; reflexivity).
  apply unlock_inv in H as (h & vk & s & Hu & Hv). apply un_session, open_session_ok in Hu as [Hok _].
  assert (session unlocked = Ok s) as Hs by (by rewrite Hv).
  assert (session1 = s) as -> by (unfold session1; by rewrite Hs). split; [done|]. by rewrite Hv.
Qed.

Lemma write_staged : stage_create_with new_id 42 site_input no_files 2000 (nonce 5) (nonce 6) unlocked = Ok write.
Proof. vm_compute. reflexivity. Qed.

Lemma write_stages : stages unlocked write.
Proof. apply (by_create _ new_id 42 site_input no_files 2000 (nonce 5) (nonce 6) write); [apply nonce_good..|apply write_staged]. Qed.

Definition stored : VaultService := (commit_write write 7 unlocked).1.
Definition w0 : World := {| svc := new_service empty_store; out := [] |}.
Definition w1 : World := {| svc := created; out := [] |}.
Definition sent : StagedWrite := of_ok no_write (stage_create_with new_id 42 site_input no_files 2000 (nonce 5) (nonce 6) created).
Definition w2 : World := {| svc := created; out := [sent] |}.
Definition w3 : World := {| svc := locked; out := out w2 |}.

Lemma run_steps : rtc step w0 w3.
Proof.
  apply (rtc_l _ w0 w1); [apply (step_create w0 (av_prepared vault0) record (nonce 2))|].
  apply (rtc_l _ w1 w2).
  { apply step_stage. apply (by_create _ new_id 42 site_input no_files 2000 (nonce 5) (nonce 6) sent); [apply nonce_good..|].
    vm_compute. reflexivity. }
  apply (rtc_l _ w2 w3); [apply step_lock; vm_compute; reflexivity|apply rtc_refl].
Qed.

Lemma reachable_rtc x y : reachable x -> rtc step x y -> reachable y.
Proof. intros Hx Hxy. induction Hxy; [done|]. apply IHHxy. by eapply reach_step. Qed.

Lemma run_reachable : reachable w3.
Proof. apply (reachable_rtc w0); [by apply reach_new|apply run_steps]. Qed.

Lemma reachable_coherent_witness :
  exists w, w ∈ out w3 /\ sw_overview w <> None /\ commit_write w 7 (svc w3) = (svc w3, Err Locked).
Proof.
  exists sent.
  split; [by left|]. split; [vm_compute; discriminate|].
  destruct (reachable_coherent w3 run_reachable) as (_ & _ & H).
  destruct (H sent 7)
    as [[Hc _]|(v' & s' & Hc & _)]; [by left|exact Hc|].
  exfalso. assert ((commit_write sent
    7 (svc w3)).2 = Err Locked) as He by (vm_compute; reflexivity). rewrite Hc in He. discriminate He.
Defined.

Lemma header_revision_never_lowers_witness :
  exists r', account_row (store locked) = Some r' /\ 0 <= max_header_rev (acc r').
Proof.
  destruct (account_row (store created)) as [r|] eqn:E; [|vm_compute in E; discriminate E].
  destruct (header_revision_never_lowers w2 w3) with (r := r) as (r' & Hr & Hle).
  - apply rtc_once, step_lock. vm_compute. reflexivity.
  - exact E.
  - exists r'. split; [exact Hr|]. vm_compute in E. injection E as <-. exact Hle.
Defined.

Lemma commit_applies_staged_witness :
  exists v' s', commit_write write 7 unlocked = (v', Ok (plain write)) /\ session v' = Ok s' /\ written v' s' write 7.
Proof.
  destruct (commit_applies_staged unlocked session1 write 7 (proj1 session1_ok) (proj2 session1_ok) write_stages)
    as (v' & s' & H1 & H2 & _ & H3 & _). exists v', s'. split; [exact H1|]. split; [exact H2|exact H3].
Defined.

Lemma create_then_read_witness : exists o d, get_item 42 stored = Ok o /\ load_details 42 stored = Ok d.
Proof.
  destruct (create_then_read new_id 42 site_input no_files 2000 (nonce 5) (nonce 6) unlocked session1 write 7)
    as (v' & o0 & o1 & ids & ts & d & Hc & _ & _ & Hg & Hl & _).
  - apply session1_ok.
  - apply session1_ok.
  - apply nonce_good.
  - apply nonce_good.
  - apply write_staged.
  - exists (with_tags ts o1), d. unfold stored. rewrite Hc. split; [exact Hg|exact Hl].
Defined.

Definition remote : RemoteChange :=
  {| rc_item := 42; rc_revision := 7; rc_overview := sw_overview write; rc_details := sw_details write; rc_deleted := false |}.
Definition garbled : RemoteChange :=
  {| rc_item := 43; rc_revision := 8; rc_overview := Some [1]; rc_details := Some [2]; rc_deleted := false |}.

Lemma pull_net_effect_witness :
  exists v' rep s', apply_changes [garbled; remote] (Some 8) 3000 unlocked = (v', Ok rep) /\
    is_Some (cached s' 42) /\ unreadable_items (store v') !! 43 = Some 8.
Proof.
  destruct (pull_net_effect [garbled; remote] (Some 8) 3000 unlocked session1 record) as (v' & rep & s' & Hr & _ & _ & Hp).
  - apply session1_ok.
  - apply session1_ok.
  - vm_compute. reflexivity.
  - exists v', rep, s'. split; [exact Hr|]. split.
    + specialize (Hp 42). unfold pulled in Hp. change (last_with rc_item 42 [garbled; remote]) with (Some remote) in Hp.
      cbn [rc_deleted remote] in Hp. destruct (check_change session1 remote) as [[row o]|] eqn:E; [|vm_compute in E; discriminate E].
      destruct Hp as (_ & -> & _). by eexists.
    + specialize (Hp 43). unfold pulled in Hp. change (last_with rc_item 43 [garbled; remote]) with (Some garbled) in Hp.
      cbn [rc_deleted garbled] in Hp. destruct (check_change session1 garbled) as [[row o]|] eqn:E; [vm_compute in E; discriminate E|].
      by destruct Hp as (_ & _ & ->).
Defined.

Lemma fill_authorized_witness :
  exists v' r, fill_for_page 42 (lit "https://a.com") None 4000 stored = (v', Ok r) /\ store v' = store stored /\
    fc_password r = Some (lit "old-password").
Proof.
  destruct (fill_for_page 42 (lit "https://a.com") None 4000 stored) as [v' [r|]] eqn:E; [|vm_compute in E; discriminate E].
  exists v', r. split; [reflexivity|]. split.
  - apply (fill_authorized 42 (lit "https://a.com") None 4000 stored v' (Ok r) E).
  - vm_compute in E. injection E as _ <-. reflexivity.
Defined.

Lemma check_login_updates_direct_witness :
  exists s o, check_login (lit "https://a.com") None (Some (lit "me")) (lit "new-password") None stored = Ok (SaveUpdate 42) /\
    session stored = Ok s /\ Model.id o = 42 /\ item_type o = Login.
Proof.
  destruct (check_login_updates_direct (lit "https://a.com") None (Some (lit "me")) (lit "new-password") None stored 42)
    as (s & p & o & Hs & _ & _ & Hid & Hl & _); [vm_compute; reflexivity|].
  exists s, o. split; [vm_compute; reflexivity|]. split; [exact Hs|]. split; [exact Hid|exact Hl].
Defined.
End Run.
