(* ===== verification/Backup.v ===== *)
(** * Backup files (crates/havenkeys-core/src/export/backup.rs)

    The encrypted backup: a header with the key derivation parameters and the
    number of records, then length-prefixed records sealed with the header and
    their index: the items first, then each attached file.  The writer and the
    reader, the reading of version 1 files, and what a record holds.

    The sink of the writer is a byte string (its own failures are left out),
    the source of the reader the bytes still to come.  serde's forms of the
    two JSON documents are [BackupJson]. *)

From S2P Require Import Prelude Errors Text Blob Url Tags Totp Clean Card.
From S2P Require Import Identity CustomField Bank Sso Attachment Model Keys Vault ToyCodec.

Definition PAYLOAD_VERSION : Z := 1.
Definition MAGIC : list Z := lit "HKBACKUP".
Definition FILE_VERSION : Z := 2.
Definition KDF_ARGON2ID : Z := 1.
Definition HEADER_LEN : nat := 8 + 1 + 1 + 4 + 4 + 4 + SALT_LEN.
Definition V2_HEADER_LEN : nat := HEADER_LEN + 4.
Definition MAX_ITEMS : nat := 50 * 1000.
Definition MAX_TEXT_EXPORT_BYTES : Z := 64 * 1024 * 1024.
Definition MAX_ATTACHMENT_VAULT_BYTES : Z := 192 * 1024 * 1024.
Definition MAX_BACKUP_BYTES : Z := MAX_TEXT_EXPORT_BYTES.
Definition MAX_BACKUP_FILE_BYTES : Z := MAX_BACKUP_BYTES + MAX_ATTACHMENT_VAULT_BYTES + 1024 * 1024.
Definition MAX_PAYLOAD_LEN : Z := MAX_BACKUP_BLOB_LEN - Z.of_nat MIN_BLOB_LEN.

Definition NOT_A_BACKUP : Error := InvalidInput "not a HavenKeys backup file".
Definition NEWER : Error := InvalidInput "this backup was made by a newer version of HavenKeys".
Definition WRONG_PASSWORD : Error := InvalidInput "wrong backup password, or the file is damaged".
Definition UNREADABLE : Error := InvalidInput "this backup can't be read by this version of HavenKeys".
Definition TOO_LARGE : Error := InvalidInput "backup file is too large".
Definition OUT_OF_ORDER : Error := InvalidInput "backup records out of order".

Record BackupItem := { bi_overview : ItemOverview; bi_details : ItemDetails }.
Record OpenedBackup := { ob_items : list BackupItem; ob_unreadable : nat }.
Record BackupAttachment := { ba_item_id : Z; ba_meta : AttachmentMeta; ba_bytes : list Z }.
(** [RecordHead]: what an attachment record holds before the bytes. *)
Record RecordHead := { rh_item_id : Z; rh_meta : AttachmentMeta }.
(** [Payload]: its items are still JSON. *)
Record Payload := { pl_version : Z; pl_exported_at : Z; pl_items : list (list Z) }.

Class BackupJson := {
  head_to_json : RecordHead -> list Z;
  head_from_json : list Z -> option RecordHead;
  payload_to_json : Payload -> list Z;
  payload_from_json : list Z -> option Payload;
  (** the [version] of a document, whatever else it holds *)
  version_from_json : list Z -> option Z;
  item_to_json : BackupItem -> list Z;
  item_from_json : list Z -> option BackupItem;
}.
Class BackupJsonLaws (B : BackupJson) : Prop := {
  head_roundtrip : forall h, head_from_json (head_to_json h) = Some h;
  payload_roundtrip : forall p, payload_from_json (payload_to_json p) = Some p;
  version_roundtrip : forall p, version_from_json (payload_to_json p) = Some (pl_version p);
  item_roundtrip : forall i, item_from_json (item_to_json i) = Some i;
}.

(** ** The header *)

Definition header (kdf : KdfParams) (record_count : Z) : list Z :=
  MAGIC ++ [FILE_VERSION; KDF_ARGON2ID] ++ le_bytes 4 (memory_kib kdf) ++ le_bytes 4 (iterations kdf)
  ++ le_bytes 4 (parallelism kdf) ++ salt kdf ++ le_bytes 4 record_count.

Definition u32_at (b : list Z) (at_ : nat) : Z := le_val (take 4 (drop at_ b)).

Definition parse_header (h : list Z) : Result (Z * KdfParams) :=
  if negb (bool_decide (take 8 h = MAGIC)) then Err NOT_A_BACKUP
  else
    let v := nth 8 h 0 in
    if negb ((v =? 1) || (v =? FILE_VERSION)) then Err (if FILE_VERSION <? v then NEWER else NOT_A_BACKUP)
    else if negb (nth 9 h 0 =? KDF_ARGON2ID) then Err NOT_A_BACKUP
    else
      let kdf := {| memory_kib := u32_at h 10; iterations := u32_at h 14; parallelism := u32_at h 18;
                    salt := drop 22 h |} in
      _ ← map_err (fun _ => NOT_A_BACKUP) (kdf_validate kdf);
      Ok (v, kdf).

Section Backup.
Context {C : Crypto} {K : KeyLib} {U : Unicode} {B : BackupJson}.

(** ** Writing *)

Record BackupWriter := {
  bw_out : list Z;
  bw_key : list Z;
  bw_header : list Z;
  bw_index : Z;
  bw_count : Z;
  bw_written : Z;
}.

Definition writer_new (password : list Z) (kdf : KdfParams) (attachment_count : Z) : Result BackupWriter :=
  if u32_max <? attachment_count + 1 then Err TOO_LARGE
  else
    let h := header kdf (attachment_count + 1) in
    key ← derive_master_key password kdf;
    Ok {| bw_out := h; bw_key := key; bw_header := h; bw_index := 0; bw_count := attachment_count + 1;
          bw_written := Z.of_nat V2_HEADER_LEN |}.

(** [record]; [random] is the nonce. *)
Definition write_record (plain : list Z) (random : option (list Z)) (w : BackupWriter) : Result BackupWriter :=
  sealed ← seal (bw_key w) (ctx_backup_record (bw_header w) (bw_index w)) plain random;
  let written := bw_written w + 4 + len sealed in
  if MAX_BACKUP_FILE_BYTES <? written then Err TOO_LARGE
  else Ok {| bw_out := bw_out w ++ le_bytes 4 (len sealed) ++ sealed; bw_key := bw_key w; bw_header := bw_header w;
             bw_index := bw_index w + 1; bw_count := bw_count w; bw_written := written |}.

Definition write_items (payload : list Z) (random : option (list Z)) (w : BackupWriter) : Result BackupWriter :=
  if negb (bw_index w =? 0) then Err OUT_OF_ORDER
  else if MAX_PAYLOAD_LEN <? len payload then Err TOO_LARGE
  else write_record payload random w.

Definition attachment_plain (f : BackupAttachment) : list Z :=
  let head := head_to_json {| rh_item_id := ba_item_id f; rh_meta := ba_meta f |} in
  le_bytes 4 (len head) ++ head ++ ba_bytes f.

Definition write_attachment (f : BackupAttachment) (random : option (list Z)) (w : BackupWriter) : Result BackupWriter :=
  if (bw_index w =? 0) || (bw_count w <=? bw_index w) then Err OUT_OF_ORDER
  else if (MAX_ATTACHMENT_BYTES <? len (ba_bytes f)) || negb (len (ba_bytes f) =? size (ba_meta f))
  then Err (InvalidInput "attachment is not valid")
  else write_record (attachment_plain f) random w.

Definition writer_finish (w : BackupWriter) : Result (list Z) :=
  if negb (bw_index w =? bw_count w) then Err OUT_OF_ORDER else Ok (bw_out w).

Definition seal_backup (payload password : list Z) (kdf : KdfParams) (random : option (list Z)) : Result (list Z) :=
  if MAX_PAYLOAD_LEN <? len payload then Err TOO_LARGE
  else
    w ← writer_new password kdf 0;
    w ← write_items payload random w;
    writer_finish w.

(** ** Reading *)

Record BackupAttachments := {
  br_rest : list Z;
  br_key : list Z;
  br_header : list Z;
  br_index : Z;
  br_count : Z;
  br_read : Z;
  br_done : bool;
}.

Definition advance (rest : list Z) (read : Z) (r : BackupAttachments) : BackupAttachments :=
  {| br_rest := rest; br_key := br_key r; br_header := br_header r; br_index := br_index r + 1;
     br_count := br_count r; br_read := read; br_done := br_done r |}.

(** [v1_items]. *)
Definition v1_items : M BackupAttachments Error (list Z) := fun r =>
  let cap := MAX_BACKUP_BYTES - Z.of_nat HEADER_LEN in
  if cap <? len (br_rest r) then (r, Err TOO_LARGE)
  else (advance [] (br_read r) r,
        map_err (fun _ => WRONG_PASSWORD) (open (br_key r) (ctx_backup (br_header r)) (br_rest r))).

(** [record]. *)
Definition read_record (max : Z) : M BackupAttachments Error (list Z) := fun r =>
  if (length (br_rest r) <? 4)%nat then (r, Err WRONG_PASSWORD)
  else
    let n := le_val (take 4 (br_rest r)) in
    let rest := drop 4 (br_rest r) in
    if negb (in_range (Z.of_nat MIN_BLOB_LEN) max n) then (r, Err WRONG_PASSWORD)
    else
      let read := br_read r + (4 + n) in
      if MAX_BACKUP_FILE_BYTES <? read then (r, Err TOO_LARGE)
      else if len rest <? n then (r, Err WRONG_PASSWORD)
      else
        (advance (drop (Z.to_nat n) rest) read r,
         map_err (fun _ => WRONG_PASSWORD)
           (open (br_key r) (ctx_backup_record (br_header r) (br_index r)) (take (Z.to_nat n) rest))).

Definition parse_attachment (plain : list Z) : option BackupAttachment :=
  if (length plain <? 4)%nat then None
  else
    let n := le_val (take 4 plain) in
    let rest := drop 4 plain in
    if len rest <? n then None
    else
      h ← head_from_json (take (Z.to_nat n) rest);
      let bytes := drop (Z.to_nat n) rest in
      if (len bytes <=? MAX_ATTACHMENT_BYTES) && (len bytes =? size (rh_meta h))
      then Some {| ba_item_id := rh_item_id h; ba_meta := rh_meta h; ba_bytes := bytes |} else None.

(** [attachment]. *)
Definition read_attachment : M BackupAttachments Error BackupAttachment :=
  plain ← read_record MAX_BLOB_LEN; mlift (ok_or UNREADABLE (parse_attachment plain)).

Definition set_done (d : bool) (r : BackupAttachments) : BackupAttachments :=
  {| br_rest := br_rest r; br_key := br_key r; br_header := br_header r; br_index := br_index r;
     br_count := br_count r; br_read := br_read r; br_done := d |}.

(** [Iterator::next]; [end] is the check that nothing follows. *)
Definition next (r : BackupAttachments) : BackupAttachments * option (Result BackupAttachment) :=
  if br_done r then (r, None)
  else if br_index r =? br_count r then
    (set_done true r, if bool_decide (br_rest r = []) then None else Some (Err WRONG_PASSWORD))
  else
    let '(r, a) := read_attachment r in
    (set_done (negb (is_ok a)) r, Some a).

(** [for attachment in rest { attachment? … }], at most [fuel] turns. *)
Fixpoint read_all (fuel : nat) (r : BackupAttachments) : option (Result (list BackupAttachment)) :=
  match fuel with
  | O => None
  | S fuel =>
      let '(r, a) := next r in
      match a with
      | None => Some (Ok [])
      | Some (Err e) => Some (Err e)
      | Some (Ok f) => l ← read_all fuel r; Some (l ≫= fun l => Ok (f :: l))
      end
  end.

Definition parse_payload (plain : list Z) : Result OpenedBackup :=
  v ← ok_or UNREADABLE (version_from_json plain);
  if negb (v =? PAYLOAD_VERSION) then Err (if PAYLOAD_VERSION <? v then NEWER else UNREADABLE)
  else
    p ← ok_or UNREADABLE (payload_from_json plain);
    if negb (pl_version p =? PAYLOAD_VERSION) then Err UNREADABLE
    else if (MAX_ITEMS <? length (pl_items p))%nat then Err (InvalidInput "backup contains too many items")
    else
      Ok {| ob_items := omap item_from_json (pl_items p);
            ob_unreadable := length (List.filter (fun raw => bool_decide (is_none (item_from_json raw))) (pl_items p)) |}.

(** Everything before the payload is parsed. *)
Definition open_items (bytes password : list Z) : Result (list Z * BackupAttachments) :=
  if (length bytes <? HEADER_LEN)%nat then Err NOT_A_BACKUP
  else
    let head := take HEADER_LEN bytes in
    let rest := drop HEADER_LEN bytes in
    vk ← parse_header head;
    let '(version, kdf) := vk : Z * KdfParams in
    if version =? FILE_VERSION then
      if (length rest <? 4)%nat then Err NOT_A_BACKUP
      else
        let n := take 4 rest in
        let count := le_val n in
        if count =? 0 then Err NOT_A_BACKUP
        else
          key ← derive_master_key password kdf;
          let '(r, plain) := read_record MAX_BACKUP_BLOB_LEN
            {| br_rest := drop 4 rest; br_key := key; br_header := head ++ n; br_index := 0; br_count := count;
               br_read := len (head ++ n); br_done := false |} in
          plain ← plain; Ok (plain, r)
    else
      key ← derive_master_key password kdf;
      let '(r, plain) := v1_items
        {| br_rest := rest; br_key := key; br_header := head; br_index := 0; br_count := 1;
           br_read := len head; br_done := false |} in
      plain ← plain; Ok (plain, r).

Definition open_backup_stream (bytes password : list Z) : Result (OpenedBackup * BackupAttachments) :=
  pr ← open_items bytes password;
  o ← parse_payload pr.1;
  Ok (o, pr.2).
End Backup.

(** ** What a backup file promises

    Reading back what was written gives the items and every file, in order;
    and records of genuine backups, cut and pasted into any other file, do
    not read to the end. *)

(** ** Records on the wire *)

Definition frame (b : list Z) : list Z := le_bytes 4 (len b) ++ b.
Definition framed (bs : list (list Z)) : list Z := concat (map frame bs).

Lemma framed_cons b bs : framed (b :: bs) = frame b ++ framed bs.
Proof. done. Qed.
Lemma length_frame b : length (frame b) = (4 + length b)%nat.
Proof. unfold frame. by rewrite length_app, length_le_bytes. Qed.
Lemma framed_app bs bs' : framed (bs ++ bs') = framed bs ++ framed bs'.
Proof. unfold framed. by rewrite map_app, concat_app. Qed.

Definition is_u32_len (b : list Z) : Prop := len b < 2 ^ 32.

Lemma le_val_frame b tail : is_u32_len b -> le_val (take 4 (frame b ++ tail)) = len b.
Proof.
  intros Hb. unfold frame. rewrite <- app_assoc, take_app_length' by (by rewrite length_le_bytes).
  rewrite le_val_bytes. apply Z.mod_small. unfold is_u32_len in Hb. lia.
Qed.
Lemma drop_frame b tail : drop 4 (frame b ++ tail) = b ++ tail.
Proof. unfold frame. by rewrite <- app_assoc, drop_app_length' by (by rewrite length_le_bytes). Qed.

Section Facts.
Context {C : Crypto} {K : KeyLib} {U : Unicode} {B : BackupJson}.

(** Reading a record that starts with the frame of [b]. *)
Lemma read_record_frame max r b tail :
  br_rest r = frame b ++ tail -> is_u32_len b ->
  Z.of_nat MIN_BLOB_LEN <= len b <= max -> br_read r + (4 + len b) <= MAX_BACKUP_FILE_BYTES ->
  read_record max r =
    (advance tail (br_read r + (4 + len b)) r,
     map_err (fun _ => WRONG_PASSWORD) (open (br_key r) (ctx_backup_record (br_header r) (br_index r)) b)).
Proof.
  intros Hr Hb Hlen Hread. unfold read_record. rewrite Hr, le_val_frame, drop_frame by done. cbv zeta.
  rewrite (proj2 (Nat.ltb_ge _ _)) by (rewrite length_app, length_frame; lia).
  rewrite (proj2 (in_range_true _ _ _)) by done. cbn [negb].
  rewrite (proj2 (Z.ltb_ge _ _)) by lia. rewrite length_app, (proj2 (Z.ltb_ge _ _)) by lia.
  by rewrite Nat2Z.id, take_app_length, drop_app_length.
Qed.

(** What a record that reads was. *)
Lemma read_record_inv max r b tail r' p :
  br_rest r = frame b ++ tail -> is_u32_len b -> read_record max r = (r', Ok p) ->
  open (br_key r) (ctx_backup_record (br_header r) (br_index r)) b = Ok p /\ r' = advance tail (br_read r + (4 + len b)) r.
Proof.
  intros Hr Hb. unfold read_record. rewrite Hr, le_val_frame, drop_frame by done. cbv zeta.
  rewrite (proj2 (Nat.ltb_ge _ _)) by (rewrite length_app, length_frame; lia).
  destruct (in_range _ _ _); cbn [negb]; [|done]. destruct (_ <? _); [done|].
  rewrite length_app, (proj2 (Z.ltb_ge _ _)) by lia. rewrite Nat2Z.id, take_app_length, drop_app_length.
  intros [= <- Ho]. split; [|done]. destruct (open _ _ b); [|done]. by injection Ho as ->.
Qed.

(** ** What the writer wrote *)

(** The plaintexts with their nonces, sealed in order from index [i]. *)
Fixpoint sealed_from (key h : list Z) (i : Z) (l : list (list Z * option (list Z))) (bs : list (list Z)) : Prop :=
  match l, bs with
  | [], [] => True
  | (p, r) :: l, b :: bs => seal key (ctx_backup_record h i) p r = Ok b /\ sealed_from key h (i + 1) l bs
  | _, _ => False
  end.

Lemma sealed_length key h i l bs : sealed_from key h i l bs -> length bs = length l.
Proof. revert i bs. induction l as [|[p r] l IH]; intros i [|b bs]; cbn; [done..|]. intros [_ Hl%IH]. by rewrite Hl. Qed.

Lemma seal_backup_len `{!AeadCorrect C} key h i p r b :
  (forall n, r = Some n -> length n = NONCE_LEN) -> seal key (ctx_backup_record h i) p r = Ok b ->
  len b = len p + Z.of_nat MIN_BLOB_LEN /\ len p <= MAX_PAYLOAD_LEN /\ is_u32_len b.
Proof.
  intros Hn Hs. pose proof (seal_ok _ _ _ _ _ Hs) as (n & a & c & -> & _ & Hc & -> & Hp).
  pose proof (aead_len _ _ _ _ _ Hc) as Hlen. specialize (Hn n eq_refl). cbn [purpose ctx_backup_record max_len] in Hp.
  unfold is_u32_len, MAX_PAYLOAD_LEN. rewrite !length_app, Hn. cbn [length].
  unfold MIN_BLOB_LEN, Blob.HEADER_LEN, NONCE_LEN, TAG_LEN, MAX_BACKUP_BLOB_LEN in *. lia.
Qed.

(** Appending records keeps this. *)
Definition wrote (w w' : BackupWriter) (l : list (list Z * option (list Z))) : Prop :=
  exists bs, bw_out w' = bw_out w ++ framed bs /\ bw_key w' = bw_key w /\ bw_header w' = bw_header w /\
    bw_count w' = bw_count w /\ bw_index w' = bw_index w + len l /\
    bw_written w' = bw_written w + len (framed bs) /\ bw_written w' <= Z.max (bw_written w) MAX_BACKUP_FILE_BYTES /\
    sealed_from (bw_key w) (bw_header w) (bw_index w) l bs.

Lemma wrote_record p r w w' : write_record p r w = Ok w' -> wrote w w' [(p, r)].
Proof.
  unfold write_record. intros (b & Hb & Hw)%bind_Ok. destruct (Z.ltb_spec MAX_BACKUP_FILE_BYTES (bw_written w + 4 + len b)); [done|].
  injection Hw as <-. exists [b]. cbn [bw_out bw_key bw_header bw_count bw_index bw_written sealed_from length].
  unfold framed. cbn [map concat]. rewrite app_nil_r, length_frame. split_and!; try done; lia.
Qed.

Lemma sealed_app key h i l l' bs bs' :
  sealed_from key h i l bs -> sealed_from key h (i + len l) l' bs' -> sealed_from key h i (l ++ l') (bs ++ bs').
Proof.
  revert i bs. induction l as [|[p r] l IH]; intros i [|b bs]; cbn [sealed_from app length]; [|done..|].
  - by rewrite Z.add_0_r.
  - intros [Hb Hs] Hs'. split; [done|]. apply IH; [done|]. by replace (i + 1 + len l) with (i + Z.of_nat (S (length l))) by lia.
Qed.

Lemma wrote_trans w1 w2 w3 l l' : wrote w1 w2 l -> wrote w2 w3 l' -> wrote w1 w3 (l ++ l').
Proof.
  intros (bs & O1 & K1 & H1 & C1 & I1 & W1 & M1 & S1) (bs' & O2 & K2 & H2 & C2 & I2 & W2 & M2 & S2).
  exists (bs ++ bs'). rewrite framed_app, !length_app. rewrite K1, H1, I1 in S2.
  split; [by rewrite O2, O1, app_assoc|]. split; [congruence|]. split; [congruence|]. split; [congruence|].
  split; [lia|]. split; [lia|]. split; [lia|]. by apply sealed_app.
Qed.

(** A whole backup: the items, then each file. *)
Fixpoint write_files (fs : list (BackupAttachment * option (list Z))) (w : BackupWriter) : Result BackupWriter :=
  match fs with
  | [] => Ok w
  | (f, r) :: fs => w ← write_attachment f r w; write_files fs w
  end.
Definition make_backup (payload : list Z) (r : option (list Z)) (fs : list (BackupAttachment * option (list Z)))
    (password : list Z) (kdf : KdfParams) : Result (list Z) :=
  w ← writer_new password kdf (len fs);
  w ← write_items payload r w;
  w ← write_files fs w;
  writer_finish w.

Definition plains (fs : list (BackupAttachment * option (list Z))) : list (list Z * option (list Z)) :=
  map (fun p => (attachment_plain p.1, p.2)) fs.

Lemma wrote_files fs w w' :
  write_files fs w = Ok w' ->
  wrote w w' (plains fs) /\ Forall (fun p => len (ba_bytes p.1) <= MAX_ATTACHMENT_BYTES /\ len (ba_bytes p.1) = size (ba_meta p.1)) fs.
Proof.
  revert w. induction fs as [|[f r] fs IH]; intros w; cbn [write_files].
  - intros [= <-]. split; [|constructor]. exists []. cbn [plains map length framed concat sealed_from].
    rewrite app_nil_r. split_and!; try done; cbn; lia.
  - intros (w1 & Hf & Hw)%bind_Ok. apply IH in Hw as [Hw Hall]. unfold write_attachment in Hf.
    destruct (_ || _); [done|]. destruct (Z.ltb_spec MAX_ATTACHMENT_BYTES (len (ba_bytes f))); [done|].
    destruct (Z.eqb_spec (len (ba_bytes f)) (size (ba_meta f))); [|done]. split; [|by constructor].
    apply (wrote_trans w w1 w' [(attachment_plain f, r)]); [by apply wrote_record|done].
Qed.

(** The header before the record count. *)
Definition kdf_header (kdf : KdfParams) : list Z := take HEADER_LEN (header kdf 0).

Lemma header_split kdf n : length (salt kdf) = SALT_LEN -> header kdf n = kdf_header kdf ++ le_bytes 4 n.
Proof.
  intros Hs. unfold kdf_header, header. rewrite !app_assoc. f_equal.
  rewrite take_app_length'; [done|]. rewrite !length_app, !length_le_bytes, Hs. done.
Qed.

Lemma length_kdf_header kdf : length (salt kdf) = SALT_LEN -> length (kdf_header kdf) = HEADER_LEN.
Proof.
  intros Hs. unfold kdf_header, header. rewrite length_take, !length_app, !length_le_bytes, Hs.
  vm_compute. done.
Qed.

Lemma parse_kdf_header kdf :
  length (salt kdf) = SALT_LEN -> kdf_validate kdf = Ok () -> parse_header (kdf_header kdf) = Ok (FILE_VERSION, kdf).
Proof.
  intros Hs Hv. destruct kdf as [m i p s]. cbn [salt memory_kib iterations parallelism] in *.
  assert (kdf_header {| memory_kib := m; iterations := i; parallelism := p; salt := s |} =
    MAGIC ++ [FILE_VERSION; KDF_ARGON2ID] ++ le_bytes 4 m ++ le_bytes 4 i ++ le_bytes 4 p ++ s) as ->.
  { unfold kdf_header, header. cbn [salt memory_kib iterations parallelism]. rewrite !app_assoc.
    apply take_app_length'. rewrite !length_app, !length_le_bytes, Hs. done. }
  assert (Hr := Hv). unfold kdf_validate in Hr. cbn [memory_kib iterations parallelism] in Hr.
  destruct (_ && _) eqn:E in Hr; [|done]. apply andb_true_iff in E as [[Em Ei]%andb_true_iff Ep].
  apply in_range_true in Em, Ei, Ep.
  assert (forall z, 0 <= z < 2 ^ 32 -> le_val (le_bytes 4 z) = z) as Hle.
  { intros z Hz. rewrite le_val_bytes. by apply Z.mod_small. }
  unfold MIN_MEMORY_KIB, MAX_MEMORY_KIB, MIN_ITERATIONS, MAX_ITERATIONS, MIN_PARALLELISM, MAX_PARALLELISM in *.
  pose proof (Hle m ltac:(lia)) as Vm. pose proof (Hle i ltac:(lia)) as Vi. pose proof (Hle p ltac:(lia)) as Vp.
  pose proof (length_le_bytes 4 m) as Lm. pose proof (length_le_bytes 4 i) as Li. pose proof (length_le_bytes 4 p) as Lp.
  generalize dependent (le_bytes 4 m). generalize dependent (le_bytes 4 i). generalize dependent (le_bytes 4 p).
  intros xp Vp Lp xi Vi Li xm Vm Lm.
  destruct xp as [|p0 [|p1 [|p2 [|p3 [|]]]]], xi as [|i0 [|i1 [|i2 [|i3 [|]]]]], xm as [|m0 [|m1 [|m2 [|m3 [|]]]]]; try done.
  unfold parse_header, u32_at. change MAGIC with [72; 75; 66; 65; 67; 75; 85; 80]. cbn -[le_val kdf_validate].
  change (drop 0 s) with s. change (take 0 s) with (@nil Z). by rewrite Vm, Vi, Vp, Hv.
Qed.

(** What [make_backup] wrote. *)
Lemma make_backup_spec payload r fs password kdf file :
  make_backup payload r fs password kdf = Ok file ->
  exists key bs, derive_master_key password kdf = Ok key /\ len fs + 1 <= u32_max /\
    file = header kdf (len fs + 1) ++ framed bs /\
    Z.of_nat V2_HEADER_LEN + len (framed bs) <= MAX_BACKUP_FILE_BYTES /\
    sealed_from key (header kdf (len fs + 1)) 0 ((payload, r) :: plains fs) bs /\
    Forall (fun p => len (ba_bytes p.1) <= MAX_ATTACHMENT_BYTES /\ len (ba_bytes p.1) = size (ba_meta p.1)) fs.
Proof.
  unfold make_backup. intros (w0 & H0 & Hw)%bind_Ok. apply bind_Ok in Hw as (w1 & H1 & Hw).
  apply bind_Ok in Hw as (w2 & H2 & Hw). unfold writer_new in H0.
  destruct (Z.ltb_spec u32_max (len fs + 1)); [done|]. cbv zeta in H0. apply bind_Ok in H0 as (key & Hk & H0).
  injection H0 as <-. unfold write_items in H1. destruct (negb _); [done|]. destruct (_ <? _); [done|].
  apply wrote_record in H1. apply wrote_files in H2 as [H2 Hall].
  destruct (wrote_trans _ _ _ _ _ H1 H2) as (bs & O & _ & _ & _ & _ & W & M & S).
  cbn [bw_out bw_key bw_header bw_count bw_index bw_written] in *. unfold writer_finish in Hw.
  destruct (negb _); [done|]. injection Hw as <-. exists key, bs. split_and!; try done.
  rewrite W in M. unfold MAX_BACKUP_FILE_BYTES, MAX_BACKUP_BYTES, MAX_TEXT_EXPORT_BYTES, MAX_ATTACHMENT_VAULT_BYTES, V2_HEADER_LEN, HEADER_LEN, SALT_LEN in *. lia.
Qed.

(** ** Reading it back *)

Lemma parse_attachment_plain `{!BackupJsonLaws B} f :
  len (attachment_plain f) < 2 ^ 32 -> len (ba_bytes f) <= MAX_ATTACHMENT_BYTES -> len (ba_bytes f) = size (ba_meta f) ->
  parse_attachment (attachment_plain f) = Some f.
Proof.
  intros Hl Hb Hs. unfold parse_attachment, attachment_plain in *. cbv zeta in *.
  set (h := head_to_json _) in *. rewrite length_app, length_app, length_le_bytes in Hl.
  rewrite (proj2 (Nat.ltb_ge _ _)) by (rewrite length_app, length_le_bytes; lia).
  rewrite take_app_length', drop_app_length' by (by rewrite length_le_bytes).
  rewrite le_val_bytes, Z.mod_small by lia. rewrite length_app, (proj2 (Z.ltb_ge _ _)) by lia.
  rewrite Nat2Z.id, take_app_length, drop_app_length. unfold h. rewrite head_roundtrip. cbn [mbind option_bind rh_meta rh_item_id].
  rewrite (proj2 (Z.leb_le _ _)) by done. rewrite Hs, Z.eqb_refl. by destruct f.
Qed.

(** The reader at the start of a run of well-sealed files. *)
Definition good_nonces (l : list (list Z * option (list Z))) : Prop :=
  Forall (fun p => forall n, p.2 = Some n -> length n = NONCE_LEN) l.

Lemma read_all_S fuel r :
  read_all (S fuel) r =
    let '(r, a) := next r in
    match a with
    | None => Some (Ok [])
    | Some (Err e) => Some (Err e)
    | Some (Ok f) => l ← read_all fuel r; Some (l ≫= fun l => Ok (f :: l))
    end.
Proof. done. Qed.

Lemma read_all_files `{!AeadCorrect C, !BackupJsonLaws B} fs : forall r bs,
  br_done r = false -> br_rest r = framed bs -> br_count r = br_index r + len bs ->
  sealed_from (br_key r) (br_header r) (br_index r) (plains fs) bs -> good_nonces (plains fs) ->
  Forall (fun p => len (attachment_plain p.1) + Z.of_nat MIN_BLOB_LEN <= MAX_BLOB_LEN) fs ->
  Forall (fun p => len (ba_bytes p.1) <= MAX_ATTACHMENT_BYTES /\ len (ba_bytes p.1) = size (ba_meta p.1)) fs ->
  br_read r + len (framed bs) <= MAX_BACKUP_FILE_BYTES ->
  read_all (S (length bs)) r = Some (Ok (map fst fs)).
Proof.
  induction fs as [|[f n] fs IH]; intros r bs Hd Hrest Hcount Hs Hn Hfit Hsize Hread.
  - destruct bs; [|done]. cbn [length read_all]. unfold next. rewrite Hd, Hcount.
    replace (br_index r + len (@nil (list Z))) with (br_index r) by (cbn; lia). rewrite Z.eqb_refl, Hrest. done.
  - destruct bs as [|b bs]; [done|]. cbn [plains map sealed_from fst snd] in Hs. destruct Hs as [Hb Hs].
    apply Forall_cons in Hn as [Hn1 Hn], Hfit as [Hf1 Hfit], Hsize as [[Hz1 Hz2] Hsize]. cbn [fst snd] in *.
    destruct (seal_backup_len _ _ _ _ _ _ Hn1 Hb) as (Hlen & _ & Hu).
    assert (exists nn, n = Some nn) as [nn ->] by (apply seal_ok in Hb as (nn & ? & ? & -> & _); by eexists).
    destruct (seal_open _ _ _ nn b (Hn1 nn eq_refl) Hb) as [Ho _].
    rewrite framed_cons, length_app, length_frame in Hread.
    rewrite read_all_S. unfold next. rewrite Hd, Hcount.
    rewrite (proj2 (Z.eqb_neq _ _)) by (cbn [length]; lia). unfold read_attachment. unfold mbind at 1, M_bind.
    rewrite (read_record_frame MAX_BLOB_LEN r b (framed bs)) by (done || lia).
    rewrite Ho. cbn [map_err mlift]. rewrite parse_attachment_plain by (done || (unfold MAX_BLOB_LEN in *; lia)).
    cbn [ok_or is_ok negb]. change (length (b :: bs)) with (S (length bs)). rewrite (IH _ bs); try done.
    + cbn [br_count br_index set_done advance]. rewrite Hcount. cbn [length]. lia.
    + cbn [br_read set_done advance]. lia.
Qed.

Lemma header_length kdf n : length (salt kdf) = SALT_LEN -> length (header kdf n) = V2_HEADER_LEN.
Proof. intros Hs. by rewrite header_split, length_app, length_kdf_header, length_le_bytes. Qed.

(** The reader once the header and the first record are in. *)
Definition after_items (key h : list Z) (count : Z) (b : list Z) (rest : list Z) : BackupAttachments :=
  {| br_rest := rest; br_key := key; br_header := h; br_index := 1; br_count := count;
     br_read := len h + (4 + len b); br_done := false |}.

Lemma open_items_v2 kdf n key b rest password :
  length (salt kdf) = SALT_LEN -> 0 < n < 2 ^ 32 -> derive_master_key password kdf = Ok key ->
  is_u32_len b -> Z.of_nat MIN_BLOB_LEN <= len b <= MAX_BACKUP_BLOB_LEN ->
  open_items (header kdf n ++ frame b ++ rest) password =
    (p ← map_err (fun _ => WRONG_PASSWORD) (open key (ctx_backup_record (header kdf n) 0) b);
     Ok (p, after_items key (header kdf n) n b rest)).
Proof.
  intros Hs Hn Hk Hb Hlen.
  assert (kdf_validate kdf = Ok ()) as Hv by (unfold derive_master_key in Hk; by apply bind_Ok in Hk as ([] & ? & _)).
  unfold open_items. rewrite (header_split kdf n Hs), <- !app_assoc.
  pose proof (length_kdf_header kdf Hs) as Hh.
  rewrite (proj2 (Nat.ltb_ge _ _)) by (rewrite length_app; lia). cbv zeta.
  rewrite take_app_length', drop_app_length' by done. rewrite parse_kdf_header by done.
  cbn [mbind result_bind]. rewrite Z.eqb_refl.
  rewrite (proj2 (Nat.ltb_ge _ _)) by (rewrite length_app, length_le_bytes; lia).
  rewrite take_app_length', drop_app_length' by (by rewrite length_le_bytes).
  rewrite le_val_bytes, Z.mod_small by lia. rewrite (proj2 (Z.eqb_neq _ _)) by lia. rewrite Hk. cbn [mbind result_bind].
  rewrite (read_record_frame MAX_BACKUP_BLOB_LEN _ b rest); try done.
  cbn [br_read]. rewrite length_app, Hh, length_le_bytes.
  unfold MAX_BACKUP_BLOB_LEN, MAX_BACKUP_FILE_BYTES, MAX_BACKUP_BYTES, MAX_TEXT_EXPORT_BYTES, MAX_ATTACHMENT_VAULT_BYTES,
    HEADER_LEN, SALT_LEN in *. lia.
Qed.

(** C11: a backup reads back. Under the same password, a file the writer
    finished gives exactly the payload it was given, and then every attached
    file, in order and with nothing after the last one; provided each file's
    record fits a blob, which its 5 MiB of bytes and its description do. *)
Theorem backup_roundtrip `{!AeadCorrect C, !BackupJsonLaws B} payload r fs password kdf file :
  length (salt kdf) = SALT_LEN -> good_nonces ((payload, r) :: plains fs) ->
  Forall (fun p => len (attachment_plain p.1) + Z.of_nat MIN_BLOB_LEN <= MAX_BLOB_LEN) fs ->
  make_backup payload r fs password kdf = Ok file ->
  exists rest, open_backup_stream file password = (o ← parse_payload payload; Ok (o, rest)) /\
    read_all (length fs + 1) rest = Some (Ok (map fst fs)).
Proof.
  intros Hs Hn Hfit Hm. apply make_backup_spec in Hm as (key & bs & Hk & Hcount & -> & Hmax & Hsealed & Hsize).
  destruct bs as [|b bs]; [done|]. destruct Hsealed as [Hb Hsealed].
  assert (Hlens := sealed_length _ _ _ _ _ Hsealed). unfold plains in Hlens. rewrite length_map in Hlens.
  apply Forall_cons in Hn as [Hn1 Hn]. destruct (seal_backup_len _ _ _ _ _ _ Hn1 Hb) as (Hlen & Hp & Hu).
  assert (exists nn, r = Some nn) as [nn ->] by (apply seal_ok in Hb as (nn & ? & ? & -> & _); by eexists).
  destruct (seal_open _ _ _ nn b (Hn1 nn eq_refl) Hb) as [Ho _].
  exists (after_items key (header kdf (len fs + 1)) (len fs + 1) b (framed bs)). split.
  - unfold open_backup_stream. rewrite framed_cons, (open_items_v2 kdf (len fs + 1) key); try done.
    + by rewrite Ho.
    + unfold u32_max in Hcount. lia.
    + unfold MAX_PAYLOAD_LEN in Hp. lia.
  - replace (length fs + 1)%nat with (S (length bs)) by lia.
    apply read_all_files; try done.
    + cbn [br_count br_index after_items]. lia.
    + cbn [br_read after_items]. rewrite framed_cons, length_app, length_frame in Hmax.
      rewrite header_length by done. lia.
Qed.

(** ** Cut and paste *)

(** Record [i] of the backup with header [h], as its writer sealed it. *)
Definition record_of (key h : list Z) (i : Z) (b : list Z) : Prop :=
  exists p n, length n = NONCE_LEN /\ seal key (ctx_backup_record h i) p (Some n) = Ok b.

(** A backup under [key]: its header and its records. *)
Record genuine (key : list Z) (kdf : KdfParams) (bs : list (list Z)) : Prop := {
  gen_salt : length (salt kdf) = SALT_LEN;
  gen_count : len bs < 2 ^ 32;
  gen_records : forall i b, bs !! i = Some b -> record_of key (header kdf (len bs)) (Z.of_nat i) b;
}.

Lemma record_of_u32 `{!AeadCorrect C} key h i b : record_of key h i b -> is_u32_len b.
Proof. intros (p & n & Hn & Hs). eapply seal_backup_len; [|exact Hs]. by intros ? [= <-]. Qed.

Lemma read_record_nil max r : br_rest r = [] -> read_record max r = (r, Err WRONG_PASSWORD).
Proof. intros Hr. unfold read_record. by rewrite Hr. Qed.

Lemma read_all_inv fuel : forall r bs fs,
  br_done r = false -> br_rest r = framed bs -> Forall is_u32_len bs -> read_all fuel r = Some (Ok fs) ->
  br_count r = br_index r + len bs /\
  forall i b, bs !! i = Some b -> exists p, open (br_key r) (ctx_backup_record (br_header r) (br_index r + Z.of_nat i)) b = Ok p.
Proof.
  induction fuel as [|fuel IH]; intros r bs fs Hd Hr Hu; [done|]. rewrite read_all_S. unfold next. rewrite Hd.
  destruct bs as [|b bs].
  { rewrite Hr. destruct (Z.eqb_spec (br_index r) (br_count r)) as [He|He].
    - intros _. split; [cbn; lia|]. intros i b. by rewrite lookup_nil.
    - unfold read_attachment. rewrite (run_bind_err _ _ _ _ _ (read_record_nil _ _ Hr)). done. }
  apply Forall_cons in Hu as [Hb Hu].
  destruct (Z.eqb_spec (br_index r) (br_count r)) as [He|He].
  { rewrite Hr, framed_cons. rewrite bool_decide_eq_false_2; [done|]. intros Hn.
    apply (f_equal length) in Hn. rewrite length_app, length_frame in Hn. cbn in Hn. lia. }
  unfold read_attachment. destruct (read_record MAX_BLOB_LEN r) as [r1 [plain|e]] eqn:E.
  2: { by rewrite (run_bind_err _ _ _ _ _ E). }
  rewrite (run_bind _ _ _ _ _ E). apply (read_record_inv _ _ b (framed bs)) in E as [Ho ->]; [|done..].
  unfold mlift. destruct (ok_or UNREADABLE (parse_attachment plain)) as [f|]; [|done]. cbn [is_ok negb].
  destruct (read_all fuel _) as [[l|e]|] eqn:El; [|done..]. intros _.
  destruct (IH (set_done false (advance (framed bs) (br_read r + (4 + len b)) r)) bs l) as [Hc Hi]; [done..|].
  cbn [br_count br_index br_key br_header set_done advance] in Hc, Hi. split; [cbn [length]; lia|].
  intros [|i] b' Hb'; cbn in Hb'.
  - injection Hb' as <-. exists plain. by rewrite Z.add_0_r.
  - replace (br_index r + Z.of_nat (S i)) with (br_index r + 1 + Z.of_nat i) by lia. by apply Hi.
Qed.

Lemma open_items_inv hd bs password kdf key p r :
  length hd = V2_HEADER_LEN -> parse_header (take HEADER_LEN hd) = Ok (FILE_VERSION, kdf) ->
  derive_master_key password kdf = Ok key -> Forall is_u32_len bs ->
  open_items (hd ++ framed bs) password = Ok (p, r) ->
  exists b bs', bs = b :: bs' /\ open key (ctx_backup_record hd 0) b = Ok p /\
    r = after_items key hd (le_val (drop HEADER_LEN hd)) b (framed bs').
Proof.
  intros Hl Hp Hk Hu. unfold open_items, V2_HEADER_LEN in *.
  rewrite (proj2 (Nat.ltb_ge _ _)) by (rewrite length_app; lia). cbv zeta.
  rewrite take_app_le, drop_app_le by lia. rewrite Hp. cbn [mbind result_bind]. rewrite Z.eqb_refl.
  rewrite (proj2 (Nat.ltb_ge _ _)) by (rewrite length_app, length_drop; lia).
  assert (length (drop HEADER_LEN hd) = 4%nat) as Hd by (rewrite length_drop; lia).
  rewrite take_app_length', drop_app_length' by done. destruct (_ =? 0); [done|]. rewrite Hk. cbn [mbind result_bind].
  rewrite take_drop. destruct bs as [|b bs]; [by rewrite read_record_nil|]. apply Forall_cons in Hu as [Hb Hu].
  destruct (read_record _ _) as [r1 [plain|e]] eqn:E; [|done]. cbn [mbind result_bind]. intros [= -> ->].
  apply (read_record_inv _ _ b (framed bs)) in E as [Ho ->]; [|done..]. exists b, bs. by split_and!.
Qed.

(** C10: records cannot be dropped, repeated, reordered or given another
    count. Take any records of a backup, any number of times and in any
    order, behind any header that leads to its key: if the file reads to its
    end, it is that backup. *)
Theorem backup_splice_refused `{!AeadCorrect C, !AeadBinding C, !Sha256Ideal C}
    key kdf0 bs0 hd bs password kdf o rest fuel fs :
  genuine key kdf0 bs0 ->
  length hd = V2_HEADER_LEN -> parse_header (take HEADER_LEN hd) = Ok (FILE_VERSION, kdf) ->
  derive_master_key password kdf = Ok key -> (forall b, b ∈ bs -> b ∈ bs0) ->
  open_backup_stream (hd ++ framed bs) password = Ok (o, rest) -> read_all fuel rest = Some (Ok fs) ->
  hd = header kdf0 (len bs0) /\ bs = bs0.
Proof.
  intros [Hsalt Hcount Hrec] Hl Hp Hk Hsub Ho Hall.
  assert (Forall is_u32_len bs) as Hu.
  { apply Forall_forall. intros b Hb. apply Hsub in Hb as (j & Hj)%list_elem_of_lookup. eapply record_of_u32; by eapply Hrec. }
  unfold open_backup_stream in Ho. apply bind_Ok in Ho as ([p r] & Hi & Ho). apply bind_Ok in Ho as (o' & _ & Ho).
  injection Ho as -> ->. cbn [snd] in *.
  destruct (open_items_inv hd bs password kdf key p rest) as (b & bs' & -> & Hb & ->); [done..|].
  assert (forall b' i q, b' ∈ b :: bs' -> 0 <= i < 2 ^ 32 -> open key (ctx_backup_record hd i) b' = Ok q ->
    hd = header kdf0 (len bs0) /\ bs0 !! Z.to_nat i = Some b') as Hbound.
  { intros b' i q Hin Hi32 Hq. apply Hsub in Hin as (j & Hj)%list_elem_of_lookup.
    destruct (Hrec _ _ Hj) as (pl & n & Hn & Hs). pose proof (lookup_lt_Some _ _ _ Hj).
    destruct (backup_record_bound key (header kdf0 (len bs0)) (Z.of_nat j) hd i pl q n b') as (-> & -> & _); [lia|done..|].
    by rewrite Nat2Z.id. }
  destruct (Hbound b 0 p) as [Hhd Hb0]; [by left|lia|done|]. split; [done|].
  apply Forall_cons in Hu as [_ Hu].
  destruct (read_all_inv fuel (after_items key hd (le_val (drop HEADER_LEN hd)) b (framed bs')) bs' fs) as [Hc Hopen]; [done..|].
  cbn [br_count br_index br_key br_header after_items] in Hc, Hopen.
  rewrite Hhd, (header_split kdf0 (len bs0) Hsalt), drop_app_length' in Hc by (by rewrite length_kdf_header).
  rewrite le_val_bytes, Z.mod_small in Hc by lia.
  apply list_eq_same_length with (length bs0); [done|cbn [length]; lia|].
  intros [|i] x y Hlt Hx Hy; cbn in Hx.
  - injection Hx as <-. change (Z.to_nat 0) with 0%nat in Hb0. congruence.
  - destruct (Hopen i x Hx) as [q Hq]. destruct (Hbound x (1 + Z.of_nat i) q) as [_ Hx0];
      [right; by eapply list_elem_of_lookup_2|lia|done|].
    replace (Z.to_nat (1 + Z.of_nat i)) with (S i) in Hx0 by lia. congruence.
Qed.
End Facts.

(** ** Witnesses *)

Module ToyBackup.
Import Blob.Toy ToyUnicode ToyCodec.

#[export] Instance head_eq_dec : EqDecision RecordHead.
Proof. solve_decision. Defined.
#[export] Instance head_countable : Countable RecordHead.
Proof.
  apply (inj_countable' (fun h => (rh_item_id h, rh_meta h)) (fun p => {| rh_item_id := p.1; rh_meta := p.2 |})).
  by intros [].
Defined.
#[export] Instance payload_eq_dec : EqDecision Payload.
Proof. solve_decision. Defined.
#[export] Instance payload_countable : Countable Payload.
Proof.
  apply (inj_countable' (fun p => (pl_version p, pl_exported_at p, pl_items p))
    (fun p => {| pl_version := p.1.1; pl_exported_at := p.1.2; pl_items := p.2 |})). by intros [].
Defined.
#[export] Instance item_eq_dec : EqDecision BackupItem.
Proof. solve_decision. Defined.
#[export] Instance item_countable : Countable BackupItem.
Proof.
  apply (inj_countable' (fun i => (bi_overview i, bi_details i)) (fun p => {| bi_overview := p.1; bi_details := p.2 |})).
  by intros [].
Defined.

#[export] Instance backup_json : BackupJson := {|
  head_to_json := @to_json _ (codec RecordHead); head_from_json := @from_json _ (codec RecordHead);
  payload_to_json := @to_json _ (codec Payload); payload_from_json := @from_json _ (codec Payload);
  version_from_json := fun l => pl_version <$> @from_json _ (codec Payload) l;
  item_to_json := @to_json _ (codec BackupItem); item_from_json := @from_json _ (codec BackupItem) |}.
#[export] Instance backup_json_laws : BackupJsonLaws backup_json.
Proof.
  split; try apply codec_laws. intros p. cbn -[to_json from_json]. by rewrite (codec_laws Payload).
Qed.

Definition password : list Z := [72].
Definition params : KdfParams :=
  {| memory_kib := 19456; iterations := 2; parallelism := 1; salt := replicate 16 7 |}.
Definition payload : list Z := payload_to_json {| pl_version := 1; pl_exported_at := 5; pl_items := [[]] |}.
Definition nonce : option (list Z) := Some (replicate 12 1).
Definition photo : BackupAttachment := {|
  ba_item_id := 3; ba_bytes := [1; 2; 3];
  ba_meta := {| att_id := 9; att_name := [97]; mime := []; Attachment.size := 3; blob_sha256 := []; att_created_at := 0; att_extra := [] |} |}.
Definition files : list (BackupAttachment * option (list Z)) := [(photo, nonce); (photo, nonce)].
Definition master : list Z := match derive_master_key password params with Ok k => k | Err _ => [] end.
Definition head : list Z := header params 3.
Definition record (i : Z) (p : list Z) : list Z :=
  match seal master (ctx_backup_record head i) p nonce with Ok b => b | Err _ => [] end.
Definition records : list (list Z) := [record 0 payload; record 1 (attachment_plain photo); record 2 (attachment_plain photo)].

Lemma good_files : good_nonces ((payload, nonce) :: plains files).
Proof. repeat constructor; by intros ? [= <-]. Qed.

Lemma records_genuine : genuine master params records.
Proof.
  split; [done|done|]. intros i b Hi. unfold record_of.
  destruct i as [|[|[|i]]]; cbn in Hi; [| | |done]; injection Hi as <-;
    [exists payload|exists (attachment_plain photo)..]; exists (replicate 12 1); (split; [done|vm_compute; reflexivity]).
Qed.

Lemma backup_roundtrip_witness :
  exists file, make_backup payload nonce files password params = Ok file /\
  exists rest, open_backup_stream file password = (o ← parse_payload payload; Ok (o, rest)) /\
    read_all (length files + 1) rest = Some (Ok (map fst files)).
Proof.
  eexists. split; [vm_compute; reflexivity|].
  eapply (backup_roundtrip payload nonce files password params); [done|apply good_files|repeat constructor; vm_compute; done|].
  vm_compute. reflexivity.
Defined.

Lemma backup_splice_refused_witness :
  exists o rest fs, open_backup_stream (head ++ framed records) password = Ok (o, rest) /\
    read_all 3 rest = Some (Ok fs) /\ head = header params (len records) /\ records = records.
Proof.
  do 3 eexists. split; [vm_compute; reflexivity|]. split; [vm_compute; reflexivity|].
  eapply (backup_splice_refused master params records head records password params _ _ 3);
    [apply records_genuine|done|vm_compute; reflexivity|vm_compute; reflexivity|done|vm_compute; reflexivity|vm_compute; reflexivity].
Defined.
End ToyBackup.
