(* ===== verification/Dates.v ===== *)
(** * Dates and ids of imports and exports (crates/havenkeys-core/src/import/common.rs)

    Days to civil dates and back, and the UTC timestamp Bitwarden and
    KeePassXC write.  A timestamp is ASCII, so its bytes are its
    characters; [div_euclid] by a positive divisor is the flooring division,
    and [/] is only used on dividends that are not negative. *)

From S2P Require Import Prelude Errors Text Url Clean.

(** The hyphenated text the uuid crate writes. *)
Class UuidText := uuid_text : Z -> list Z.

(** [civil_from_days], before the era is added: the day [doe] of a 400 year
    era that starts on March 1st. *)
Definition civil_of_doe (doe : Z) : Z * Z * Z :=
  let yoe := (doe - doe / 1460 + doe / 36524 - doe / 146096) / 365 in
  let doy := doe - (365 * yoe + yoe / 4 - yoe / 100) in
  let mp := (5 * doy + 2) / 153 in
  let d := doy - (153 * mp + 2) / 5 + 1 in
  let m := if mp <? 10 then mp + 3 else mp - 9 in
  (yoe, m, d).

Definition civil_from_days (days : Z) : Z * Z * Z :=
  let z := days + 719468 in
  let era := z / 146097 in
  let doe := z - era * 146097 in
  let '(yoe, m, d) := civil_of_doe doe in
  let y := yoe + era * 400 in
  (if m <=? 2 then y + 1 else y, m, d).

Definition days_from_civil (y m d : Z) : Z :=
  let y := if m <=? 2 then y - 1 else y in
  let era := y / 400 in
  let yoe := y - era * 400 in
  let mp := if 2 <? m then m - 3 else m + 9 in
  let doy := (153 * mp + 2) / 5 + d - 1 in
  let doe := yoe * 365 + yoe / 4 - yoe / 100 + doy in
  era * 146097 + doe - 719468.

(** [{:0w$}] of a signed integer: the sign counts towards the width. *)
Definition pad_int (w : nat) (n : Z) : list Z :=
  if n <? 0 then 45 :: pad_zeros (w - 1) (to_decimal (- n)) else pad_zeros w (to_decimal n).

Definition date_text (c : Z * Z * Z) : list Z :=
  let '(y, m, d) := c in pad_int 4 y ++ [45] ++ pad_int 2 m ++ [45] ++ pad_int 2 d.

Definition format_date (secs : Z) : list Z := date_text (civil_from_days (secs / 86400)).

Definition format_utc_timestamp_ms (ms : Z) : list Z :=
  let secs := ms / 1000 in
  let millis := ms mod 1000 in
  let day := secs mod 86400 in
  date_text (civil_from_days (secs / 86400)) ++ [84] ++ pad_int 2 (day / 3600) ++ [58]
    ++ pad_int 2 ((day mod 3600) / 60) ++ [58] ++ pad_int 2 (day mod 60) ++ [46] ++ pad_int 3 millis ++ [90].

Fixpoint take_digits (s : list Z) : list Z * list Z :=
  match s with
  | c :: s' => if is_ascii_digit c then let '(a, b) := take_digits s' in (c :: a, b) else ([], s)
  | [] => ([], [])
  end.

Definition parse_utc_timestamp_ms (s : list Z) : option Z :=
  let s := trim s in
  if (length s <? 20)%nat || negb (forallb is_ascii s) then None
  else
    let num a b :=
      let part := drop a (take b s) in
      if all_digits part then parse_unsigned i64_max part else None in
    let at_ i := nth i s 0 in
    if negb (at_ 4%nat =? 45) || negb (at_ 7%nat =? 45) || negb ((at_ 10%nat =? 84) || (at_ 10%nat =? 32))
       || negb (at_ 13%nat =? 58) || negb (at_ 16%nat =? 58)
    then None
    else
      y ← num 0%nat 4%nat; mo ← num 5%nat 7%nat; d ← num 8%nat 10%nat;
      h ← num 11%nat 13%nat; mi ← num 14%nat 16%nat; sec ← num 17%nat 19%nat;
      let rest := drop 19 s in
      let '(frac, zone) := match strip_prefix (lit ".") rest with
                           | Some r => take_digits r
                           | None => ([], rest)
                           end in
      if negb (bool_decide (zone = lit "Z")) || negb (in_range 1 12 mo) || negb (in_range 1 31 d)
         || (23 <? h) || (59 <? mi) || (60 <? sec)
      then None
      else
        ms ← if bool_decide (frac = []) then Some 0
             else let f := take (Nat.min (length frac) 3) frac in
                  parse_unsigned i64_max (f ++ replicate (3 - length f) 48);
        let days := days_from_civil y mo d in
        let total := days * 86400000 + (h * 3600 + mi * 60 + sec) * 1000 + ms in
        if 0 <=? total then Some total else None.

(** ** The calendar inverts *)

Lemma div_spec a b : 0 < b -> exists r, a = b * (a / b) + r /\ 0 <= r < b.
Proof. intros Hb. exists (a mod b). split; [apply Z.div_mod; lia|by apply Z.mod_pos_bound]. Qed.
(** The year of the era, and the day within it, are in range. *)
Lemma yoe_bounds doe : 0 <= doe < 146097 ->
  let yoe := (doe - doe / 1460 + doe / 36524 - doe / 146096) / 365 in
  0 <= yoe <= 399 /\ 0 <= doe - (365 * yoe + yoe / 4 - yoe / 100) <= 365.
Proof.
  intros H. cbv zeta.
  assert (doe / 146096 = 0 \/ doe = 146096) as [E | ->].
  { destruct (decide (doe = 146096)); [by right|left; apply Z.div_small; lia]. }
  2: { vm_compute. intuition discriminate. }
  rewrite E.
  destruct (div_spec doe 146096 ltac:(lia)) as (r0 & E0 & R0). rewrite E in E0.
  destruct (div_spec doe 36524 ltac:(lia)) as (r1 & E1 & R1). generalize dependent (doe / 36524). intros c E1.
  destruct (div_spec doe 1460 ltac:(lia)) as (r2 & E2 & R2). generalize dependent (doe / 1460). intros a E2.
  destruct (div_spec (doe - a + c - 0) 365 ltac:(lia)) as (r3 & E3 & R3). generalize dependent ((doe - a + c - 0) / 365). intros y E3.
  destruct (div_spec y 100 ltac:(lia)) as (r4 & E4 & R4). generalize dependent (y / 100). intros d E4.
  destruct (div_spec y 4 ltac:(lia)) as (r5 & E5 & R5). generalize dependent (y / 4). intros b E5.
  assert (0 <= y <= 399) by lia. split; [done|].
  assert (0 <= c <= 3) by lia. assert (0 <= d <= 3) by lia.
  (assert (c = 0 \/ c = 1 \/ c = 2 \/ c = 3) as [->|[->|[->| ->]]] by lia;
    (assert (d = 0 \/ d = 1 \/ d = 2 \/ d = 3) as [->|[->|[->| ->]]] by lia);
    lia).
Qed.

(** The month and the day of the month, from the day of the year. *)
Definition doy_ok (doy : Z) : bool :=
  let mp := (5 * doy + 2) / 153 in
  let d := doy - (153 * mp + 2) / 5 + 1 in
  in_range 0 11 mp && in_range 1 31 d.

Lemma doy_in_range doy :
  0 <= doy <= 365 ->
  let mp := (5 * doy + 2) / 153 in 0 <= mp <= 11 /\ 1 <= doy - (153 * mp + 2) / 5 + 1 <= 31.
Proof.
  intros H. assert (forallb (fun i => doy_ok (Z.of_nat i)) (seq 0 366) = true) as Hall by reflexivity.
  rewrite forallb_forall in Hall. specialize (Hall (Z.to_nat doy)). rewrite Z2Nat.id in Hall by lia.
  unfold doy_ok in Hall. cbv zeta in *. rewrite andb_true_iff, !in_range_true in Hall. apply Hall, in_seq. lia.
Qed.

Lemma days_from_civil_era y m d era : days_from_civil (y + era * 400) m d = days_from_civil y m d + era * 146097.
Proof.
  unfold days_from_civil. cbv zeta.
  assert ((if m <=? 2 then y + era * 400 - 1 else y + era * 400) = (if m <=? 2 then y - 1 else y) + era * 400) as ->
    by (destruct (m <=? 2); lia).
  rewrite Z.div_add by lia. set (y' := if m <=? 2 then y - 1 else y).
  replace (y' + era * 400 - (y' / 400 + era) * 400) with (y' - y' / 400 * 400) by lia. lia.
Qed.

Lemma civil_of_doe_inverts doe :
  0 <= doe < 146097 ->
  let '(yoe, m, d) := civil_of_doe doe in
  let y := if m <=? 2 then yoe + 1 else yoe in
  days_from_civil y m d = doe - 719468 /\ 1 <= m <= 12 /\ 1 <= d <= 31 /\ 0 <= y <= 400 /\ (doe < 146037 -> y <= 399).
Proof.
  intros H. destruct (yoe_bounds doe H) as [Hy Hd]. unfold civil_of_doe. cbv zeta.
  set (yoe := (doe - _ + _ - _) / 365) in *. set (doy := doe - (365 * yoe + _ - _)) in *.
  destruct (doy_in_range doy Hd) as [Hm Hdd]. set (mp := (5 * doy + 2) / 153) in *. fold mp in Hdd.
  assert (exists m, (if mp <? 10 then mp + 3 else mp - 9) = m /\ 1 <= m <= 12 /\
    (m <=? 2) = (10 <=? mp) /\ (if 2 <? m then m - 3 else m + 9) = mp) as (m & -> & Hm12 & Hle & Hmp).
  { destruct (Z.ltb_spec mp 10); eexists; (split; [done|]); (split; [lia|]); split.
    - rewrite (proj2 (Z.leb_gt 10 mp)), (proj2 (Z.leb_gt _ 2)) by lia. done.
    - rewrite (proj2 (Z.ltb_lt 2 _)) by lia. lia.
    - rewrite (proj2 (Z.leb_le 10 mp)), (proj2 (Z.leb_le _ 2)) by lia. done.
    - rewrite (proj2 (Z.ltb_ge 2 _)) by lia. lia. }
  split_and!; try lia.
  - unfold days_from_civil. cbv zeta. rewrite Hmp.
    assert ((if m <=? 2 then (if m <=? 2 then yoe + 1 else yoe) - 1 else if m <=? 2 then yoe + 1 else yoe) = yoe) as ->
      by (destruct (m <=? 2); lia).
    rewrite Z.div_small by lia. replace (yoe - 0 * 400) with yoe by lia. unfold doy. lia.
  - destruct (m <=? 2); lia.
  - destruct (m <=? 2); lia.
  - intros Hdoe. rewrite Hle. destruct (Z.leb_spec 10 mp) as [H10|]; [|lia].
    assert (yoe <> 399); [|lia]. intros E399. unfold mp, doy in H10. rewrite E399 in H10.
    apply Z.div_le_mono with (c := 1) in H10; [|lia]. rewrite Z.div_1_r in H10.
    change (399 / 4) with 99 in H10. change (399 / 100) with 3 in H10.
    destruct (div_spec (5 * (doe - (365 * 399 + 99 - 3)) + 2) 153 ltac:(lia)) as (r & Er & Hr).
    rewrite Z.div_1_r in H10. lia.
Qed.

(** A day's civil date is a date of the calendar, and that day's. *)
Lemma civil_inverts days :
  let '(y, m, d) := civil_from_days days in
  days_from_civil y m d = days /\ 1 <= m <= 12 /\ 1 <= d <= 31 /\
  (0 <= days < 2932897 -> 0 <= y <= 9999).
Proof.
  unfold civil_from_days. cbv zeta. destruct (div_spec (days + 719468) 146097 ltac:(lia)) as (doe & Ez & Hdoe).
  set (era := (days + 719468) / 146097) in *.
  replace (days + 719468 - era * 146097) with doe by lia.
  pose proof (civil_of_doe_inverts doe Hdoe) as H. destruct (civil_of_doe doe) as [[yoe m] d].
  cbv zeta in H. destruct H as (H1 & Hm & Hd & Hy & Hl).
  assert ((if m <=? 2 then yoe + era * 400 + 1 else yoe + era * 400)
          = (if m <=? 2 then yoe + 1 else yoe) + era * 400) as -> by (destruct (m <=? 2); lia).
  rewrite days_from_civil_era, H1. split; [lia|]. split; [done|]. split; [done|]. intros Hdays.
  assert (4 <= era <= 24) by lia. destruct (decide (doe < 146037)); [lia|]. assert (era <= 23) by lia. lia.
Qed.

(** ** The timestamp reads back *)

(** [w] digits of [n]. *)
Definition field (w : nat) (n : Z) (s : list Z) : Prop :=
  is_digits s /\ length s = w /\ digits_val s = n.

Lemma pad_int_field w n : 0 <= n < 10 ^ Z.of_nat w -> (0 < w)%nat -> field w n (pad_int w n).
Proof.
  intros Hn Hw. unfold pad_int. rewrite (proj2 (Z.ltb_ge n 0)) by lia. by apply pad_decimal_spec.
Qed.

Lemma field_parse w n s : field w n s -> (0 < w)%nat -> n <= i64_max -> parse_unsigned i64_max s = Some n.
Proof. intros (Hd & Hl & <-) Hw Hn. apply parse_unsigned_digits; [done| |done]. intros ->. cbn in Hl. lia. Qed.

Lemma field_all_digits w n s : field w n s -> all_digits s = true.
Proof. intros (Hd & _). by apply all_digits_Forall. Qed.

Lemma take_digits_field w n s rest :
  field w n s -> take_digits (s ++ 90 :: rest) = (s, 90 :: rest).
Proof.
  intros (Hd & _). induction Hd as [|c s Hc _ IH]; [done|]. cbn [app take_digits].
  assert (is_ascii_digit c = true) as -> by (by apply in_range_true). by rewrite IH.
Qed.

Lemma printable_no_ws s : Forall (fun c => 33 <= c < 127) s -> no_ws s.
Proof.
  intros H. eapply Forall_impl; [exact H|]. intros c Hc. apply printable_not_ws. cbn in Hc. lia.
Qed.

(** The text of a timestamp's fields, read back. *)
Lemma parse_fields y mo d h mi sec ms sy smo sd sh smi ss sms :
  field 4 y sy -> field 2 mo smo -> field 2 d sd -> field 2 h sh -> field 2 mi smi -> field 2 sec ss -> field 3 ms sms ->
  in_range 1 12 mo = true -> in_range 1 31 d = true -> h <= 23 -> mi <= 59 -> sec <= 60 ->
  let total := days_from_civil y mo d * 86400000 + (h * 3600 + mi * 60 + sec) * 1000 + ms in
  0 <= total ->
  parse_utc_timestamp_ms ((sy ++ [45] ++ smo ++ [45] ++ sd) ++ [84] ++ sh ++ [58] ++ smi ++ [58] ++ ss ++ [46] ++ sms ++ [90])
    = Some total.
Proof.
  intros Fy Fmo Fd Fh Fmi Fs Fms Hmo Hd Hh Hmi Hsec total Htot.
  set (s := (sy ++ _ ++ _ ++ _ ++ _) ++ _).
  assert (Forall (fun c => 33 <= c < 127) s) as Hs.
  { assert (forall w n t, field w n t -> Forall (fun c => 33 <= c < 127) t) as Hf.
    { intros w n t (Hdt & _). eapply Forall_impl; [exact Hdt|]. intros c. cbn. lia. }
    unfold s. repeat (apply Forall_app; split); try (by eapply Hf); by repeat constructor. }
  assert (forallb is_ascii s = true) as Ha.
  { apply forallb_forall. intros c Hc. eapply Forall_forall in Hs; [|by apply list_elem_of_In].
    apply Z.ltb_lt. lia. }
  unfold parse_utc_timestamp_ms. rewrite (trim_no_ws s) by (by apply printable_no_ws). cbv zeta.
  rewrite Ha. clear Ha Hs. subst s.
  assert (forall w n t, field w n t -> (0 < w < 5)%nat -> parse_unsigned i64_max t = Some n /\ all_digits t = true) as Hp.
  { intros w n t Ht Hw. split; [|by eapply field_all_digits]. eapply field_parse; [done|lia|].
    destruct Ht as (Hdt & Hlt & <-). pose proof (digits_val_bound t Hdt) as Hb. rewrite Hlt in Hb.
    assert (10 ^ Z.of_nat w <= 10 ^ 5) by (apply Z.pow_le_mono_r; lia). unfold i64_max. lia. }
  pose proof (Hp _ _ _ Fy ltac:(lia)) as [Py Ay]. pose proof (Hp _ _ _ Fmo ltac:(lia)) as [Pmo Amo].
  pose proof (Hp _ _ _ Fd ltac:(lia)) as [Pd Ad]. pose proof (Hp _ _ _ Fh ltac:(lia)) as [Ph Ah].
  pose proof (Hp _ _ _ Fmi ltac:(lia)) as [Pmi Ami]. pose proof (Hp _ _ _ Fs ltac:(lia)) as [Ps As_].
  pose proof (Hp _ _ _ Fms ltac:(lia)) as [Pms _]. pose proof (take_digits_field _ _ _ [] Fms) as Tms.
  destruct Fy as (_ & Ly & _), Fmo as (_ & Lmo & _), Fd as (_ & Ld & _), Fh as (_ & Lh & _),
    Fmi as (_ & Lmi & _), Fs as (_ & Ls & _), Fms as (_ & Lms & _). clear Hp.
  destruct sy as [|y0 [|y1 [|y2 [|y3 [|]]]]]; try discriminate Ly. destruct smo as [|m0 [|m1 [|]]]; try discriminate Lmo.
  destruct sd as [|d0 [|d1 [|]]]; try discriminate Ld. destruct sh as [|h0 [|h1 [|]]]; try discriminate Lh.
  destruct smi as [|i0 [|i1 [|]]]; try discriminate Lmi. destruct ss as [|s0 [|s1 [|]]]; try discriminate Ls.
  destruct sms as [|x0 [|x1 [|x2 [|]]]]; try discriminate Lms.
  cbn -[parse_unsigned days_from_civil all_digits take_digits strip_prefix Z.mul Z.add Z.leb Z.ltb] in *.
  rewrite Ay, Amo, Ad, Ah, Ami, As_, Py, Pmo, Pd, Ph, Pmi, Ps.
  cbn -[parse_unsigned days_from_civil all_digits take_digits strip_prefix Z.mul Z.add Z.leb Z.ltb].
  change (strip_prefix (lit ".") [46; x0; x1; x2; 90]) with (Some [x0; x1; x2; 90]). cbv iota. rewrite Tms.
  rewrite bool_decide_eq_true_2 by done. rewrite Hmo, Hd, (proj2 (Z.ltb_ge _ _)), (proj2 (Z.ltb_ge _ _)), (proj2 (Z.ltb_ge _ _)) by lia.
  cbn -[parse_unsigned days_from_civil Z.mul Z.add Z.leb]. rewrite Pms.
  cbn -[days_from_civil Z.mul Z.add Z.leb]. fold total. by rewrite (proj2 (Z.leb_le _ _)).
Qed.

(** A timestamp written for an export reads back, to the millisecond,
    from 1970 to the end of the year 9999. *)
Lemma timestamp_roundtrip ms :
  0 <= ms < 2932897 * 86400000 -> parse_utc_timestamp_ms (format_utc_timestamp_ms ms) = Some ms.
Proof.
  intros H. unfold format_utc_timestamp_ms. cbv zeta.
  destruct (div_spec ms 1000 ltac:(lia)) as (mil & E1 & R1). destruct (div_spec (ms / 1000) 86400 ltac:(lia)) as (day & E2 & R2).
  assert (ms mod 1000 = mil) as -> by (symmetry; by apply (Z.mod_unique ms 1000 (ms / 1000)); [left|]).
  assert ((ms / 1000) mod 86400 = day) as -> by (symmetry; by apply (Z.mod_unique _ 86400 (ms / 1000 / 86400)); [left|]).
  set (days := ms / 1000 / 86400) in *. assert (0 <= days < 2932897) as Hdays by lia.
  pose proof (civil_inverts days) as Hc. unfold date_text. destruct (civil_from_days days) as [[y m] d].
  destruct Hc as (Hc & Hm & Hd & Hy). specialize (Hy Hdays).
  destruct (div_spec day 3600 ltac:(lia)) as (r & E3 & R3).
  assert (day mod 3600 = r) as -> by (symmetry; by apply (Z.mod_unique day 3600 (day / 3600)); [left|]).
  destruct (div_spec r 60 ltac:(lia)) as (sec & E4 & R4).
  assert (day mod 60 = sec) as -> by (symmetry; apply (Z.mod_unique day 60 (60 * (day / 3600) + r / 60)); [left|]; lia).
  erewrite parse_fields; [..|]; try (by apply pad_int_field; [|lia]; cbn; lia); try (apply in_range_true; lia); try lia.
  f_equal. lia.
Qed.

Lemma timestamp_roundtrip_witness :
  format_utc_timestamp_ms 1792108800123 = lit "2026-10-16T00:00:00.123Z" /\
  parse_utc_timestamp_ms (format_utc_timestamp_ms 1792108800123) = Some 1792108800123.
Proof. split; [vm_compute; reflexivity|]. apply (timestamp_roundtrip 1792108800123). lia. Defined.
