(* ===== verification/Import.v ===== *)
(** * Importing: the shared parts (crates/havenkeys-core/src/import/mod.rs, common.rs)

    Sources and their limits, the report of an import, and the building
    blocks the file formats share: line cleaning, notes text, website rules,
    custom fields and tags.  A [&mut ImportReport] is passed and returned;
    wiping memory has no counterpart. *)

From S2P Require Import Prelude Errors Text Url Tags Totp Clean Card Identity.
From S2P Require Import CustomField Bank Sso Attachment Model.

Definition MAX_ITEMS : nat := 50 * 1000.
Definition MAX_TEXT_EXPORT_BYTES : Z := 64 * 1024 * 1024.
Definition MAX_ARCHIVE_BYTES : Z := 256 * 1024 * 1024.

Inductive ImportSource := OnePassword | BitwardenJson | BitwardenCsv | Chrome | Firefox | KeePassXc | LastPass.
#[export] Instance ImportSource_eq_dec : EqDecision ImportSource.
Proof. solve_decision. Defined.

Definition max_bytes (s : ImportSource) : Z :=
  match s with OnePassword => MAX_ARCHIVE_BYTES | _ => MAX_TEXT_EXPORT_BYTES end.

Definition source_extension (s : ImportSource) : list Z :=
  match s with OnePassword => lit "1pux" | BitwardenJson => lit "json" | _ => lit "csv" end.

Definition source_name (s : ImportSource) : list Z :=
  match s with
  | OnePassword => lit "1Password"
  | BitwardenJson | BitwardenCsv => lit "Bitwarden"
  | Chrome => lit "Chrome"
  | Firefox => lit "Firefox"
  | KeePassXc => lit "KeePassXC"
  | LastPass => lit "LastPass"
  end.

(** ** The report *)

Record ImportReport := {
  imported : nat;
  r_logins : nat;
  r_secure_notes : nat;
  r_cards : nat;
  r_bank_accounts : nat;
  converted_to_notes : nat;
  skipped_duplicates : nat;
  skipped_existing : nat;
  r_identities : nat;
  skipped_archived : nat;
  failed : nat;
  attachments_skipped : nat;
  attachments_skipped_storage : nat;
  password_history_skipped : nat;
  passkeys_skipped : nat;
  urls_moved_to_notes : nat;
  fields_to_notes : nat;
  sso_upgraded : nat;
}.
#[export] Instance ImportReport_eq_dec : EqDecision ImportReport.
Proof. solve_decision. Defined.

(** [ImportReport::default()]. *)
Definition no_report : ImportReport :=
  {| imported := 0; r_logins := 0; r_secure_notes := 0; r_cards := 0; r_bank_accounts := 0; converted_to_notes := 0;
     skipped_duplicates := 0; skipped_existing := 0; r_identities := 0; skipped_archived := 0; failed := 0;
     attachments_skipped := 0; attachments_skipped_storage := 0; password_history_skipped := 0; passkeys_skipped := 0;
     urls_moved_to_notes := 0; fields_to_notes := 0; sso_upgraded := 0 |}.

(** The fields of the report, to change one at a time. *)
Inductive Count :=
| CImported | CLogins | CSecureNotes | CCards | CBankAccounts | CConverted | CDuplicates | CExisting | CIdentities
| CArchived | CFailed | CAttachments | CAttachmentsStorage | CHistory | CPasskeys | CUrls | CFields | CSso.
#[export] Instance Count_eq_dec : EqDecision Count.
Proof. solve_decision. Defined.

Definition get (c : Count) (r : ImportReport) : nat :=
  match c with
  | CImported => imported r | CLogins => r_logins r | CSecureNotes => r_secure_notes r | CCards => r_cards r
  | CBankAccounts => r_bank_accounts r | CConverted => converted_to_notes r | CDuplicates => skipped_duplicates r
  | CExisting => skipped_existing r | CIdentities => r_identities r | CArchived => skipped_archived r
  | CFailed => failed r | CAttachments => attachments_skipped r | CAttachmentsStorage => attachments_skipped_storage r
  | CHistory => password_history_skipped r | CPasskeys => passkeys_skipped r | CUrls => urls_moved_to_notes r
  | CFields => fields_to_notes r | CSso => sso_upgraded r
  end.

(** [report.c = f(report.c)]. *)
Definition update (c : Count) (f : nat -> nat) (r : ImportReport) : ImportReport :=
  let at_ c' := if decide (c' = c) then f (get c' r) else get c' r in
  {| imported := at_ CImported; r_logins := at_ CLogins; r_secure_notes := at_ CSecureNotes; r_cards := at_ CCards;
     r_bank_accounts := at_ CBankAccounts; converted_to_notes := at_ CConverted; skipped_duplicates := at_ CDuplicates;
     skipped_existing := at_ CExisting; r_identities := at_ CIdentities; skipped_archived := at_ CArchived;
     failed := at_ CFailed; attachments_skipped := at_ CAttachments; attachments_skipped_storage := at_ CAttachmentsStorage;
     password_history_skipped := at_ CHistory; passkeys_skipped := at_ CPasskeys; urls_moved_to_notes := at_ CUrls;
     fields_to_notes := at_ CFields; sso_upgraded := at_ CSso |}.
Definition bump (c : Count) : ImportReport -> ImportReport := update c S.
Definition bump_by (c : Count) (n : nat) : ImportReport -> ImportReport := update c (fun x => x + n)%nat.

Lemma get_update c c' f r : get c (update c' f r) = if decide (c = c') then f (get c r) else get c r.
Proof. by destruct c. Qed.

(** A field of a report with one count raised. *)
Ltac counts := repeat match goal with
  | |- context [?f (bump ?c ?r)] => first [change (f (bump c r)) with (S (f r)) | change (f (bump c r)) with (f r)]
  end.

Record ImportedItem := {
  ii_input : ItemInput;
  ii_created_at : option Z;
  ii_updated_at : option Z;
}.
Record Parsed := { pa_items : list ImportedItem; pa_report : ImportReport }.

(** ** Text *)

(** [non_empty]. *)
Definition non_empty (s : option (list Z)) : option (list Z) :=
  match s with Some s => if bool_decide (trim s = []) then None else Some (trim s) | None => None end.

Definition clean_line (s : list Z) (max_chars : nat) : list Z :=
  trim (take max_chars (List.filter (fun c => negb (is_control c)) s)).

Definition set_or_keep (value : option (list Z)) : SecretUpdate :=
  match value with Some v => SetTo v | None => Keep end.

(** [clean_line], if it leaves anything. *)
Definition clean_some (max_chars : nat) (s : option (list Z)) : option (list Z) :=
  match s with
  | Some s => if bool_decide (clean_line s max_chars = []) then None else Some (clean_line s max_chars)
  | None => None
  end.

Record Extras := { ex_lines : list (list Z); ex_section : option (list Z) }.
Definition no_extras : Extras := {| ex_lines := []; ex_section := None |}.

Definition extras_section (title : option (list Z)) (e : Extras) : Extras :=
  {| ex_lines := ex_lines e; ex_section := non_empty title |}.

Definition extras_push (label : option (list Z)) (value : list Z) (e : Extras) : Extras :=
  if bool_decide (trim value = []) then e
  else
    let lines := match ex_section e with
                 | Some s => ex_lines e ++ (if bool_decide (ex_lines e = []) then [] else [[]]) ++ [[91] ++ s ++ [93]]
                 | None => ex_lines e
                 end in
    {| ex_lines := lines ++ [match non_empty label with Some l => l ++ lit ": " ++ value | None => value end];
       ex_section := None |}.

Definition extras_render (e : Extras) : list Z := join [10] (ex_lines e).

Definition join_notes (first : option (list Z)) (e : Extras) : option (list Z) :=
  let rendered := extras_render e in
  match non_empty first, bool_decide (rendered = []) with
  | None, true => None
  | Some n, true => Some n
  | None, false => Some rendered
  | Some n, false => Some (n ++ [10; 10] ++ rendered)
  end.

(** [onepux::legacy_sso_note]. *)
Definition legacy_sso_note (provider : list Z) : list Z := lit "Sign in with " ++ provider.

(** A card brand by its name as password managers write it. *)
Definition brand_from_name (value : list Z) : option CardBrand :=
  let v := map to_ascii_lowercase (trim value) in
  let is_ names := existsb (fun n => bool_decide (v = lit n)) names in
  if is_ ["visa"; "visaelectron"; "electron"]%string then Some Visa
  else if is_ ["mc"; "mastercard"; "master"]%string then Some Mastercard
  else if is_ ["amex"; "americanexpress"; "american express"]%string then Some Amex
  else if is_ ["elo"]%string then Some Elo
  else if is_ ["hipercard"; "hiper"]%string then Some Hipercard
  else if is_ ["diners"; "dinersclub"; "diners club"; "carteblanche"]%string then Some Diners
  else if is_ ["discover"]%string then Some Discover
  else if is_ ["jcb"]%string then Some Jcb
  else if is_ ["unionpay"; "china unionpay"]%string then Some Unionpay
  else if is_ ["maestro"]%string then Some Maestro
  else None.

Section ImportForms.
Context {U : Unicode} {UL : UrlLib} {L : TotpLib}.

(** ** Tags *)

(** The tags that normalise, and the names that do not. *)
Definition add_tag (acc : list (list Z) * list (list Z)) (value : list Z) : list (list Z) * list (list Z) :=
  let '(ok, rejected) := acc in
  match normalize_one value with
  | Ok tag =>
      if existsb (fun t => bool_decide (to_lowercase t = to_lowercase tag)) ok then (ok, rejected)
      else if (length ok <? MAX_TAGS)%nat then (ok ++ [tag], rejected)
      else (ok, rejected ++ [value])
  | Err _ => (ok, rejected ++ [value])
  end.

Definition split_tags (raw : list (list Z)) : list (list Z) * list (list Z) :=
  let '(ok, rejected) := foldl add_tag ([], []) raw in (dedupe_sorted ok, rejected).

(** ** Websites *)

Definition add_url (acc : list UrlRule * ImportReport * Extras) (raw : list Z * MatchType)
    : list UrlRule * ImportReport * Extras :=
  let '(out, report, extras) := acc in
  let candidate := trim raw.1 in
  if bool_decide (candidate = []) then acc
  else
    match normalize_url candidate with
    | Ok u =>
        if negb (existsb (fun r => bool_decide (Model.url r = u)) out) && (length out <? MAX_URLS)%nat
        then (out ++ [{| Model.url := u; match_type := raw.2 |}], report, extras)
        else acc
    | Err _ => (out, bump CUrls report, extras_push (Some (lit "Website")) candidate (extras_section None extras))
    end.

Definition collect_urls (raw : list (list Z * MatchType)) (report : ImportReport) (extras : Extras)
    : list UrlRule * ImportReport * Extras :=
  foldl add_url ([], report, extras) raw.

(** ** Custom fields *)

Record ItemSections := { is_sections : list SectionInput; is_count : nat; is_bytes : Z }.
Definition no_sections : ItemSections := {| is_sections := []; is_count := 0; is_bytes := 0 |}.

Definition sections_start (t : option (list Z)) (s : ItemSections) : ItemSections :=
  let t := clean_some MAX_LABEL_CHARS (non_empty t) in
  {| is_sections := is_sections s ++ [{| si_id := None; si_title := t; si_fields := [] |}]; is_count := is_count s;
     is_bytes := is_bytes s + from_option str_len 0 t |}.

Definition default_label (k : FieldKind) : list Z :=
  match k with
  | KText => lit "Text" | KUrl => lit "URL" | KEmail => lit "Email" | KPhone => lit "Phone" | KDate => lit "Date"
  | KAddress => lit "Address" | KPassword => lit "Password" | KOtp => lit "One-time password"
  end.

Definition value_bytes (v : FieldValueInput) : Z :=
  match v with
  | FUrl v => Z.max (match normalize_url v with Ok n => str_len n | Err _ => 0 end) (str_len v)
  | FText v | FEmail v | FPhone v | FDate v => str_len v
  | FAddress a => str_len (address_formatted a)
  | FPassword (SetTo v) | FOtp (SetTo v) => str_len v
  | FPassword _ | FOtp _ => 0
  end.

(** [push]: whether the field was taken. *)
Definition sections_push (label : option (list Z)) (value : FieldValueInput) (s : ItemSections) : ItemSections * bool :=
  let has_fields (x : SectionInput) := negb (bool_decide (length (si_fields x) = 0%nat)) in
  let used := length (List.filter has_fields (is_sections s)) in
  match last (is_sections s) with
  | None => (s, false)
  | Some sec =>
      if (MAX_FIELDS <=? is_count s)%nat || (negb (has_fields sec) && (MAX_SECTIONS <=? used)%nat) then (s, false)
      else
        let label := default (default_label (input_kind value)) (clean_some MAX_LABEL_CHARS (non_empty label)) in
        let added := str_len label + value_bytes value in
        if MAX_TOTAL_BYTES <? is_bytes s + added then (s, false)
        else
          ({| is_sections := removelast (is_sections s) ++
                [{| si_id := si_id sec; si_title := si_title sec;
                    si_fields := si_fields sec ++ [{| i_id := None; i_label := label; i_value := value |}] |}];
              is_count := S (is_count s); is_bytes := is_bytes s + added |}, true)
  end.

Definition sections_finish (s : ItemSections) : option (list SectionInput) :=
  let l := List.filter (fun x => negb (bool_decide (length (si_fields x) = 0%nat))) (is_sections s) in
  if (length l =? 0)%nat then None else Some l.

(** [validated]: the candidate if it passes its checks, else the fallback as
    text if that does. *)
Definition validated (candidate : FieldValueInput) (fallback : option (list Z)) : option FieldValueInput :=
  let passes := match candidate with
                | FOtp (SetTo t) => is_ok (parse_totp_input t)
                | FPassword (SetTo p) => is_ok (check_password p)
                | other => is_ok (clean_plain other)
                end in
  if passes then Some candidate
  else
    t ← fallback;
    if is_ok (clean_plain (FText t)) then Some (FText t) else None.
End ImportForms.

(** ** JSON values as the importers read them (serde_json's [Value])

    An object is the list of its entries in the map's iteration order; a
    number is kept as the [i64] it is, or as no more than a number.  Parsing
    is serde_json's. *)

Inductive json :=
| JNull
| JBool (b : bool)
| JInt (n : Z)
| JNumber
| JStr (s : list Z)
| JArr (l : list json)
| JObj (m : list (list Z * json)).

(** [serde_json::from_slice::<Value>]. *)
Class JsonText := json_parse : list Z -> option json.

Definition is_null (v : json) : bool := match v with JNull => true | _ => false end.
Definition is_object (v : json) : bool := match v with JObj _ => true | _ => false end.
Definition as_bool (v : json) : option bool := match v with JBool b => Some b | _ => None end.
Definition as_i64 (v : json) : option Z := match v with JInt n => Some n | _ => None end.
Definition as_str (v : json) : option (list Z) := match v with JStr s => Some s | _ => None end.
Definition as_array (v : json) : option (list json) := match v with JArr l => Some l | _ => None end.

Fixpoint entry (key : list Z) (m : list (list Z * json)) : option json :=
  match m with
  | [] => None
  | (k, v) :: m => if bool_decide (k = key) then Some v else entry key m
  end.

(** [Value::get], and [unwrap_or(&Value::Null)] of it ([Value]'s index). *)
Definition jget (key : string) (v : json) : option json :=
  match v with JObj m => entry (lit key) m | _ => None end.
Definition jget_or_null (key : string) (v : json) : json := default JNull (jget key v).

Definition array_at (key : string) (v : json) : option (list json) := x ← jget key v; as_array x.
Definition i64_at (key : string) (v : json) : option Z := x ← jget key v; as_i64 x.

(** [common::str_at]. *)
Fixpoint str_at (v : json) (path : list string) : option (list Z) :=
  match path with
  | [] => as_str v
  | key :: path => x ← jget key v; str_at x path
  end.

(** [bitwarden::text]: the text at a key, trimmed, if there is any. *)
Definition text_at (v : json) (key : string) : option (list Z) := non_empty (str_at v [key]).

Definition UTF8_BOM : list Z := [239; 187; 191].
(** [bytes.strip_prefix(UTF8_BOM).unwrap_or(bytes)]. *)
Definition strip_bom (bytes : list Z) : list Z := default bytes (strip_prefix UTF8_BOM bytes).
