(* ===== verification/Staging.v ===== *)
(** * Staging an import (crates/havenkeys-core/src/vault.rs, [stage_import])

    Every parsed item becomes a sealed write, unless the vault already holds
    "the same" one: items are compared by a digest of what identifies them.
    A login that lacks "Sign in with" gets it from the import instead.

    The ids of the new items, the ids drawn inside each, and the random bytes
    of each seal are arguments, by the item's place in the import. *)

From S2P Require Import Prelude Errors Text Blob Url Tags Totp Clean Card.
From S2P Require Import Identity CustomField Bank Sso Attachment Model Keys Store Origin Health.
From S2P Require Import BuildItem Vault Items Page ToyCodec Sync Replica Lifecycle System Dates.
From S2P Require Import Import.

Definition kind_debug (k : FieldKind) : list Z :=
  match k with
  | KText => lit "Text" | KUrl => lit "Url" | KEmail => lit "Email" | KPhone => lit "Phone" | KDate => lit "Date"
  | KAddress => lit "Address" | KPassword => lit "Password" | KOtp => lit "Otp"
  end.

Definition with_notes_and_sso (n : SecretUpdate) (sso : option SignInWith) (i : ItemInput) : ItemInput :=
  {| in_type := in_type i; in_title := in_title i; in_username := in_username i; in_urls := in_urls i;
     in_password := in_password i; in_totp := in_totp i; in_notes := n; in_content := in_content i;
     in_auto_sign_in := in_auto_sign_in i; in_sign_in_with := sso; in_identity := in_identity i;
     in_card := in_card i; in_bank := in_bank i; in_sections := in_sections i; in_tags := in_tags i |}.

Record StagedImport := { si_writes : list StagedWrite; si_report : ImportReport }.

Section Staging.
Context {C : Crypto} {K : KeyLib} {U : Unicode} {J : JsonLib} {UL : UrlLib} {SL : SiteLib UL} {L : TotpLib}.
Context {UT : UuidText}.

(** ** What identifies an item *)

(** The closure [field]: the length, then the bytes. *)
Definition key_field (s : list Z) : list Z := le_bytes 8 (str_len s) ++ utf8 s.
Definition key_fields (l : list (list Z)) : list Z := l ≫= key_field.

Definition note_key_fields (sections : list FieldSection) : list (list Z) :=
  sections ≫= (fun s =>
    [lit "section"; default [] (s_title s)] ++
    (s_fields s ≫= (fun f =>
      [f_label f; kind_debug (value_kind (f_value f));
       match f_value f with
       | VOtp c => from_option secret [] c
       | v => into_text v
       end]))).

(** What [dedupe_key_parts] hashes. *)
Definition dedupe_fields (o : ItemOverview) (d : option ItemDetails) : list (list Z) :=
  match item_type o with
  | Login =>
      [lit "login"; title o; default [] (username o)] ++ sort_by_key (fun u => u) (map Model.url (urls o))
  | SecureNote =>
      [lit "note"; title o] ++ match d with Some (DNote c secs) => c :: note_key_fields secs | _ => [] end
  | Identity => [lit "identity"; uuid_text (Model.id o)]
  | BankAccount =>
      lit "bank" ::
      match d with
      | Some (DBank f) => [default [] (Bank.bank f); default [] (Bank.branch f); default (title o) (Bank.account f)]
      | _ => [uuid_text (Model.id o)]
      end
  | CardItem =>
      lit "card" ::
      match d with
      | Some (DCard f) => [default (title o) (number f); from_option expiry_to_wire [] (expiry f)]
      | _ => [uuid_text (Model.id o)]
      end
  end.

Definition dedupe_key_parts (o : ItemOverview) (d : option ItemDetails) : list Z :=
  sha256 (key_fields (dedupe_fields o d)).
Definition dedupe_key (o : ItemOverview) (d : ItemDetails) : list Z := dedupe_key_parts o (Some d).

(** The key [dedupe_index] gives an item that is already here. *)
Definition index_key (v : VaultService) (o : ItemOverview) : list Z :=
  dedupe_key_parts o
    match item_type o with
    | Login | Identity => None
    | _ => result_ok (load_details (Model.id o) v)
    end.

Definition index_step (v : VaultService) (acc : gset (list Z) * gmap (list Z) (option Z)) (o : ItemOverview)
    : gset (list Z) * gmap (list Z) (option Z) :=
  let key := index_key v o in
  ({[key]} ∪ acc.1,
   if bool_decide (item_type o = Login) && is_none (sign_in_with o)
   then <[key := match acc.2 !! key with Some _ => None | None => Some (Model.id o) end]> acc.2
   else acc.2).

Definition dedupe_index (v : VaultService) : Result (gset (list Z) * gmap (list Z) Z) :=
  s ← session v;
  let '(keys, upgrade) := foldl (index_step v) (∅, ∅) (values (overviews s)) in
  Ok (keys, omap (fun o => o) upgrade).

(** ** Filling in "Sign in with" *)

Definition stage_sso_upgrade (new_id : nat -> Z) (item : Z) (sso : SignInWith) (now_ms : Z) (r1 r2 : option (list Z))
    (v : VaultService) : Result (option StagedWrite) :=
  match get_item item v with
  | Err _ => Ok None
  | Ok existing =>
      let legacy := legacy_sso_note (Sso.name (provider sso)) in
      let clear_notes := match load_details item v with
                         | Ok (DLogin l) => some_with (fun n => eq_ignore_ascii_case (trim n) legacy) (notes l)
                         | _ => false
                         end in
      let input := with_notes_and_sso (if clear_notes then Clear else Keep) (Some sso) (login_input_from existing) in
      w ← stage_update new_id item input now_ms r1 r2 v;
      Ok (Some w)
  end.

(** ** The import *)

Record Staging := {
  st_writes : list StagedWrite;
  st_report : ImportReport;
  st_upgrade : gmap (list Z) Z;
  st_batch : gmap (list Z) (list Z);
}.

Definition counted (c : Count) (s : Staging) : Staging :=
  {| st_writes := st_writes s; st_report := bump c (st_report s); st_upgrade := st_upgrade s; st_batch := st_batch s |}.
Definition took (w : StagedWrite) (c : Count) (s : Staging) : Staging :=
  {| st_writes := st_writes s ++ [w]; st_report := bump c (st_report s); st_upgrade := st_upgrade s;
     st_batch := st_batch s |}.

(** A new item, once it is known not to be here: staged, then counted. *)
Definition stage_new (v : VaultService) (o : ItemOverview) (d : ItemDetails) (r1 r2 : option (list Z)) (s : Staging)
    : Result Staging :=
  '(w, batch) ← stage_in_batch v o (Some d) None (st_batch s) r1 r2;
  let s := {| st_writes := st_writes s; st_report := st_report s; st_upgrade := st_upgrade s; st_batch := batch |} in
  match item_type o with
  | Login => Ok (took w CLogins s)
  | SecureNote => Ok (took w CSecureNotes s)
  | Identity => Err Denied
  | CardItem => Ok (took w CCards s)
  | BankAccount => Ok (took w CBankAccounts s)
  end.

(** One turn of the loop. *)
Definition import_one (v : VaultService) (existing : gset (list Z)) (item : Z) (new_id : nat -> Z)
    (r1 r2 : option (list Z)) (now_ms : Z) (i : ImportedItem) (s : Staging) : Result Staging :=
  let created := default now_ms (ii_created_at i) in
  let updated := default created (ii_updated_at i) in
  match build_item new_id item (ii_input i) None created updated with
  | Err _ => Ok (counted CFailed s)
  | Ok (o, d) =>
      let key := dedupe_key o d in
      let add s := if decide (key ∈ existing) then Ok (counted CDuplicates s) else stage_new v o d r1 r2 s in
      match sign_in_with o, st_upgrade s !! key with
      | Some sso, Some target =>
          let s := {| st_writes := st_writes s; st_report := st_report s; st_upgrade := delete key (st_upgrade s);
                      st_batch := st_batch s |} in
          match stage_sso_upgrade new_id target sso now_ms r1 r2 v with
          | Ok (Some w) => Ok (took w CSso s)
          | Ok None => add s
          | Err _ => Ok (counted CFailed s)
          end
      | _, _ => add s
      end
  end.

(** What the loop draws for the item at each place. *)
Record Draws := { dr_item : nat -> Z; dr_ids : nat -> nat -> Z; dr_random : nat -> option (list Z) * option (list Z) }.

Fixpoint import_each (v : VaultService) (existing : gset (list Z)) (dr : Draws) (now_ms : Z) (k : nat)
    (items : list ImportedItem) (s : Staging) : Result Staging :=
  match items with
  | [] => Ok s
  | i :: items =>
      s ← import_one v existing (dr_item dr k) (dr_ids dr k) (dr_random dr k).1 (dr_random dr k).2 now_ms i s;
      import_each v existing dr now_ms (S k) items s
  end.

(** The report with the counts of new items cleared. *)
Definition cleared (r : ImportReport) : ImportReport :=
  foldr (fun c r => update c (fun _ => 0%nat) r) r [CLogins; CSecureNotes; CCards; CBankAccounts].

Definition stage_import (dr : Draws) (items : list ImportedItem) (report : ImportReport) (now_ms : Z) (v : VaultService)
    : Result StagedImport :=
  '(existing, upgrade) ← dedupe_index v;
  spellings ← tag_spellings None v;
  s ← import_each v existing dr now_ms 0 items
        {| st_writes := []; st_report := cleared report; st_upgrade := upgrade; st_batch := spellings |};
  Ok {| si_writes := st_writes s;
        si_report := update CImported (fun _ => length (st_writes s) - sso_upgraded (st_report s))%nat (st_report s) |}.
End Staging.

(** ** What an import may write

    Every write of an import is a new item under an id of its own, whose
    identifying fields no item here has, or "Sign in with" for a login that
    lacked it; and the report accounts for every parsed item. *)

Section Facts.
Context {C : Crypto} {K : KeyLib} {U : Unicode} {J : JsonLib} {UL : UrlLib} {SL : SiteLib UL} {L : TotpLib}.
Context {UT : UuidText}.

(** ** What a staged write carries *)

Lemma seal_staged_fields v o d base r1 r2 w :
  seal_staged v o d base r1 r2 = Ok w -> sw_item w = Model.id o /\ base_revision w = base /\ plain w = Some o.
Proof.
  unfold seal_staged. intros (s & _ & H)%bind_Ok. apply bind_Ok in H as (ov & _ & H).
  apply bind_Ok in H as (det & _ & H). by injection H as <-.
Qed.

Lemma stage_fields v o d base r1 r2 w :
  stage v o d base r1 r2 = Ok w -> sw_item w = Model.id o /\ base_revision w = base /\ exists ts, plain w = Some (with_tags ts o).
Proof.
  unfold stage. intros (o' & Ho & Hw)%bind_Ok. apply seal_staged_fields in Hw as (Hi & Hb & Hp).
  destruct (bool_decide _).
  - injection Ho as <-. split_and!; [done..|]. exists (tags o). by destruct o.
  - apply bind_Ok in Ho as (sp & _ & Ho). injection Ho as <-. split_and!; [done..|by eexists].
Qed.

Lemma batch_fields v o d base batch r1 r2 w batch' :
  stage_in_batch v o d base batch r1 r2 = Ok (w, batch') ->
  sw_item w = Model.id o /\ base_revision w = base /\ exists ts, plain w = Some (with_tags ts o).
Proof.
  unfold stage_in_batch. intros (s & _ & H)%bind_Ok. destruct (is_some _).
  - apply bind_Ok in H as (w' & Hw & H). injection H as <- _. by eapply stage_fields.
  - cbv zeta in H. apply bind_Ok in H as (w' & Hw & H). injection H as <- _.
    apply seal_staged_fields in Hw as (Hi & Hb & Hp). split_and!; [done..|by eexists].
Qed.

Lemma update_fields new_id item i now r1 r2 v w :
  stage_update new_id item i now r1 r2 v = Ok w ->
  sw_item w = item /\ base_revision w = item_revision item (store v).
Proof.
  unfold stage_update, stage_update_with. intros (ex & _ & H)%bind_Ok. destruct (negb _); [done|].
  apply bind_Ok in H as (cur & _ & H). apply bind_Ok in H as ([o d] & Hb & H).
  apply build_item_ok in Hb as (_ & _ & _ & Hid & _). apply bind_Ok in H as ([o' ids] & Hf & H).
  cbn in Hf. injection Hf as <- _.
  apply bind_Ok in H as (w' & Hw & H). injection H as <-. apply stage_fields in Hw as (Hi & Hb & _).
  split; [|done]. by rewrite <- Hid.
Qed.

(** ** The index of what is here *)

(** A live login that lacks "Sign in with", under its key. *)
Definition upgradable (v : VaultService) (s : Session) (key : list Z) (item : Z) : Prop :=
  exists o, overviews s !! item = Some o /\ item_type o = Login /\ sign_in_with o = None /\ index_key v o = key.

Lemma upgradable_key v s k k' t : upgradable v s k t -> upgradable v s k' t -> k = k'.
Proof. intros (o & Ho & _ & _ & <-) (o' & Ho' & _ & _ & <-). congruence. Qed.

Lemma index_fold v l keys up :
  foldl (index_step v) (∅, ∅) l = (keys, up) ->
  (forall key, key ∈ keys <-> exists o, o ∈ l /\ index_key v o = key) /\
  (forall key t, up !! key = Some (Some t) ->
     exists o, o ∈ l /\ Model.id o = t /\ item_type o = Login /\ sign_in_with o = None /\ index_key v o = key).
Proof.
  revert keys up. induction l as [|o l IH] using rev_ind; intros keys up.
  { intros [= <- <-]. split; [|by intros ??; rewrite lookup_empty]. intros key. split; [set_solver|].
    by intros (o & Ho%elem_of_nil & _). }
  rewrite foldl_app. destruct (foldl (index_step v) (∅, ∅) l) as [keys0 up0]. cbn [foldl].
  destruct (IH _ _ eq_refl) as [Hk Hu]. intros [= <- <-]. cbn [fst snd] in *. split.
  - intros key. rewrite elem_of_union, elem_of_singleton, Hk. split.
    + intros [->|(o' & Ho' & <-)]; [exists o|exists o']; split; set_solver.
    + intros (o' & [Ho'|Ho']%elem_of_app & <-); [right; by exists o'|]. apply list_elem_of_singleton in Ho'. left. congruence.
  - intros key t. assert (forall t, up0 !! key = Some (Some t) -> exists o', o' ∈ l ++ [o] /\ Model.id o' = t /\
      item_type o' = Login /\ sign_in_with o' = None /\ index_key v o' = key) as Hold.
    { intros t' (o' & Ho' & Hr)%Hu. exists o'. split; [set_solver|done]. }
    destruct (bool_decide_reflect (item_type o = Login)) as [Hl|]; [|apply Hold]. cbn [andb].
    destruct (sign_in_with o) eqn:Es; cbn [is_none]; [apply Hold|].
    destruct (decide (index_key v o = key)) as [<-|Hne]; [|rewrite lookup_insert_ne by done; apply Hold].
    rewrite lookup_insert_eq. destruct (up0 !! index_key v o); [done|]. intros [= <-]. exists o. split; [set_solver|done].
Qed.

(** What the index holds. *)
Lemma dedupe_index_spec v s existing upgrade :
  session v = Ok s -> map_Forall (fun i o => Model.id o = i) (overviews s) -> dedupe_index v = Ok (existing, upgrade) ->
  (forall key, key ∈ existing <-> exists i o, overviews s !! i = Some o /\ index_key v o = key) /\
  (forall key t, upgrade !! key = Some t -> upgradable v s key t).
Proof.
  intros Hs Hid. unfold dedupe_index. rewrite Hs. cbn [mbind result_bind].
  destruct (foldl _ _ _) as [keys up] eqn:E. intros [= <- <-]. apply index_fold in E as [Hk Hu].
  assert (forall o, o ∈ values (overviews s) <-> exists i, overviews s !! i = Some o) as Hv.
  { intros o. unfold values. rewrite list_elem_of_fmap. split.
    - intros ([i x] & -> & Hx%elem_of_map_to_list). by exists i.
    - intros (i & Hi). exists (i, o). split; [done|by apply elem_of_map_to_list]. }
  split.
  - intros key. rewrite Hk. split.
    + intros (o & (i & Hi)%Hv & <-). by exists i, o.
    + intros (i & o & Hi & <-). exists o. split; [|done]. apply Hv. by exists i.
  - intros key t. rewrite lookup_omap. intros ([x|] & Hx & [= ->])%bind_Some.
    apply Hu in Hx as (o & (i & Hi)%Hv & <- & Hl & Hn & Hkey). exists o. split; [|done].
    by rewrite (Hid _ _ Hi).
Qed.

(** ** One turn *)

(** A write of an import: a new item no key of which is here, or a login
    that gets "Sign in with". *)
Definition import_write (v : VaultService) (s : Session) (existing : gset (list Z)) (ids : Z -> Prop) (w : StagedWrite) : Prop :=
  (exists o d ts, plain w = Some (with_tags ts o) /\ ids (sw_item w) /\ base_revision w = None /\
     dedupe_key o d ∉ existing /\ item_type o <> Identity) \/
  (exists key, upgradable v s key (sw_item w) /\ key ∈ existing /\ base_revision w = item_revision (sw_item w) (store v)).

Definition news (r : ImportReport) : nat := r_logins r + r_secure_notes r + r_cards r + r_bank_accounts r.

(** What a turn did: nothing but a count, a new item, or an upgrade. *)
Inductive turn (v : VaultService) (existing : gset (list Z)) (item : Z) (s : Staging) : Staging -> Prop :=
| turn_failed s' :
    st_writes s' = st_writes s -> st_upgrade s' ⊆ st_upgrade s -> st_report s' = bump CFailed (st_report s) ->
    turn v existing item s s'
| turn_duplicate s' :
    st_writes s' = st_writes s -> st_upgrade s' ⊆ st_upgrade s -> st_report s' = bump CDuplicates (st_report s) ->
    turn v existing item s s'
| turn_new s' w o d ts c :
    st_writes s' = st_writes s ++ [w] -> st_upgrade s' ⊆ st_upgrade s -> st_report s' = bump c (st_report s) ->
    c ∈ [CLogins; CSecureNotes; CCards; CBankAccounts] ->
    plain w = Some (with_tags ts o) -> sw_item w = item -> base_revision w = None ->
    dedupe_key o d ∉ existing -> item_type o <> Identity -> turn v existing item s s'
| turn_upgrade s' w key t :
    st_writes s' = st_writes s ++ [w] -> st_upgrade s !! key = Some t -> st_upgrade s' = delete key (st_upgrade s) ->
    st_report s' = bump CSso (st_report s) -> sw_item w = t -> base_revision w = item_revision t (store v) ->
    turn v existing item s s'.

Lemma stage_new_turn v existing o d r1 r2 s0 s s' :
  stage_new v o d r1 r2 s = Ok s' -> dedupe_key o d ∉ existing -> st_writes s = st_writes s0 ->
  st_upgrade s ⊆ st_upgrade s0 -> st_report s = st_report s0 -> turn v existing (Model.id o) s0 s'.
Proof.
  intros H Hk Hw Hu Hr. unfold stage_new in H. apply bind_Ok in H as ([w batch] & Hb & H).
  apply batch_fields in Hb as (Hi & Hbase & ts & Hp). cbv zeta in H.
  destruct (item_type o) eqn:Ht; try done; injection H as <-;
    (eapply (turn_new _ _ _ _ _ w o d ts); cbn [took st_writes st_upgrade st_report];
      [by rewrite Hw|done|by rewrite Hr| |done|done|done|done|congruence]); set_solver.
Qed.

Lemma import_one_turn v existing item new_id r1 r2 now i s s' :
  import_one v existing item new_id r1 r2 now i s = Ok s' -> turn v existing item s s'.
Proof.
  unfold import_one. destruct (build_item _ _ _ _ _ _) as [[o d]|e] eqn:Hb.
  2: { intros [= <-]. by apply turn_failed. }
  apply build_item_ok in Hb as (_ & _ & _ & <- & _). cbv zeta.
  assert (forall s1, st_writes s1 = st_writes s -> st_upgrade s1 ⊆ st_upgrade s -> st_report s1 = st_report s ->
    (if decide (dedupe_key o d ∈ existing) then Ok (counted CDuplicates s1) else stage_new v o d r1 r2 s1) = Ok s' ->
    turn v existing (Model.id o) s s') as Hadd.
  { intros s1 Hw Hu Hr. case_decide.
    - intros [= <-]. apply turn_duplicate; [done|done|]. cbn. by rewrite Hr.
    - intros Hs. by eapply stage_new_turn. }
  destruct (sign_in_with o) as [sso|]; [|by apply Hadd].
  destruct (st_upgrade s !! dedupe_key o d) as [t|] eqn:Et; [|by apply Hadd].
  destruct (stage_sso_upgrade _ _ _ _ _ _ _) as [[w|]|e] eqn:Ew.
  - intros [= <-]. unfold stage_sso_upgrade in Ew. destruct (get_item t v); [|done].
    apply bind_Ok in Ew as (w' & Ew & [= <-]). apply update_fields in Ew as [Hi Hbase].
    by eapply (turn_upgrade _ _ _ _ _ w' (dedupe_key o d) t).
  - apply Hadd; [done|apply delete_subseteq|done].
  - intros [= <-]. apply turn_failed; [done|apply delete_subseteq|done].
Qed.

(** ** The loop *)

Section Loop.
Context (v : VaultService) (ses : Session) (existing : gset (list Z)) (dr : Draws) (r0 : ImportReport).
Hypothesis ids_new : forall k, overviews ses !! dr_item dr k = None.
Hypothesis ids_inj : Inj (=) (=) (dr_item dr).

Definition drawn_before (k : nat) (i : Z) : Prop := exists j, (j < k)%nat /\ i = dr_item dr j.

Record loop_inv (k : nat) (s : Staging) : Prop := {
  li_up : forall key t, st_upgrade s !! key = Some t -> upgradable v ses key t /\ key ∈ existing;
  li_writes : Forall (import_write v ses existing (drawn_before k)) (st_writes s);
  li_nodup : NoDup (map sw_item (st_writes s));
  li_used : forall w key t, w ∈ st_writes s -> st_upgrade s !! key = Some t -> sw_item w <> t;
  li_new : (length (st_writes s) + sso_upgraded r0 = news (st_report s) + sso_upgraded (st_report s))%nat;
  li_all : (length (st_writes s) + skipped_duplicates (st_report s) + failed (st_report s)
            = k + skipped_duplicates r0 + failed r0)%nat;
}.

Lemma import_write_later k w :
  import_write v ses existing (drawn_before k) w -> import_write v ses existing (drawn_before (S k)) w.
Proof.
  intros [(o & d & ts & Hp & (j & Hj & Hi) & H)|H]; [left|by right]. exists o, d, ts. split; [done|].
  split; [|done]. exists j. split; [lia|done].
Qed.

(** A write's id is one drawn so far, or one of this vault's. *)
Lemma import_write_id k w :
  import_write v ses existing (drawn_before k) w -> sw_item w <> dr_item dr k.
Proof.
  intros [(o & d & ts & _ & (j & Hj & ->) & _)|(key & (o & Ho & _) & _)] E.
  - apply ids_inj in E. lia.
  - rewrite E, ids_new in Ho. done.
Qed.

Lemma Forall_later k l :
  Forall (import_write v ses existing (drawn_before k)) l -> Forall (import_write v ses existing (drawn_before (S k))) l.
Proof. intros H. eapply Forall_impl; [exact H|]. apply import_write_later. Qed.

Lemma turn_inv k s s' : loop_inv k s -> turn v existing (dr_item dr k) s s' -> loop_inv (S k) s'.
Proof.
  intros [Hup Hw Hnd Hused Hnew Hall] Ht.
  assert (forall s1 : Staging, st_upgrade s1 ⊆ st_upgrade s -> forall key t, st_upgrade s1 !! key = Some t -> st_upgrade s !! key = Some t) as Hsub.
  { intros s1 Hs key t Hl. by eapply lookup_weaken. }
  destruct Ht as [s' Ew Eu Er|s' Ew Eu Er|s' w o d ts c Ew Eu Er Hc Hp Hi Hb Hk Hty|s' w key t Ew Et Eu Er Hi Hb].
  1, 2: split; rewrite ?Ew, ?Er; eauto using Forall_later; unfold news in *; counts; lia.
  - assert (import_write v ses existing (drawn_before (S k)) w) as Hw'.
    { left. exists o, d, ts. split_and!; try done. exists k. split; [lia|done]. }
    split; rewrite ?Ew, ?Er.
    + eauto.
    + apply Forall_app. split; [by apply Forall_later|by constructor].
    + rewrite map_app. apply NoDup_app. split_and!; [done| |repeat constructor; set_solver].
      intros x (w1 & -> & Hw1)%list_elem_of_fmap Hx%list_elem_of_singleton. rewrite Forall_forall in Hw.
      apply (import_write_id k w1); [by apply Hw|congruence].
    + intros w1 key t [Hw1|Hw1%list_elem_of_singleton]%elem_of_app Hl; [eauto|]. subst w1. rewrite Hi. intros E.
      destruct (Hup key t) as [(o' & Ho' & _) _]; [by apply (Hsub s')|]. rewrite <- E, ids_new in Ho'. done.
    + rewrite length_app. unfold news in *. rewrite !elem_of_cons in Hc. destruct Hc as [->|[->|[->|[->|[]%elem_of_nil]]]]; cbn [length]; counts; lia.
    + rewrite length_app. rewrite !elem_of_cons in Hc. destruct Hc as [->|[->|[->|[->|[]%elem_of_nil]]]]; cbn [length]; counts; lia.
  - destruct (Hup _ _ Et) as [Hu Hke].
    assert (import_write v ses existing (drawn_before (S k)) w) as Hw'.
    { right. exists key. by rewrite Hi. }
    split; rewrite ?Ew, ?Er.
    + intros key' t' Hl. rewrite Eu in Hl. apply lookup_delete_Some in Hl as [_ Hl]. by apply Hup.
    + apply Forall_app. split; [by apply Forall_later|by constructor].
    + rewrite map_app. apply NoDup_app. split_and!; [done| |repeat constructor; set_solver].
      intros x (w1 & -> & Hw1)%list_elem_of_fmap Hx%list_elem_of_singleton. apply (Hused w1 key t); [done..|congruence].
    + intros w1 key' t' Hw1 Hl. rewrite Eu in Hl. apply lookup_delete_Some in Hl as [Hne Hl].
      apply elem_of_app in Hw1 as [Hw1|Hw1%list_elem_of_singleton]; [eauto|]. subst w1. rewrite Hi. intros <-.
      apply Hne. destruct (Hup _ _ Hl) as [Hu' _]. by eapply upgradable_key.
    + rewrite length_app. unfold news in *. cbn [length]. counts. lia.
    + rewrite length_app. cbn [length]. counts. lia.
Qed.

Lemma import_each_inv now items k s s' :
  loop_inv k s -> import_each v existing dr now k items s = Ok s' -> loop_inv (k + length items) s'.
Proof.
  revert k s. induction items as [|i items IH]; intros k s Hs; cbn [import_each length].
  - intros [= <-]. by rewrite Nat.add_0_r.
  - intros (s1 & H1 & H)%bind_Ok. apply import_one_turn in H1. replace (k + S (length items))%nat with (S k + length items)%nat by lia.
    eapply IH; [|exact H]. by eapply turn_inv.
Qed.
End Loop.

Lemma cleared_news r : news (cleared r) = 0%nat /\ sso_upgraded (cleared r) = sso_upgraded r /\
  skipped_duplicates (cleared r) = skipped_duplicates r /\ failed (cleared r) = failed r.
Proof. done. Qed.

(** ** The writes of an import are writes of the vault *)

Lemma with_ids_same w : with_ids (attachment_ids w) w = w.
Proof. by destruct w. Qed.

Lemma sso_upgrade_stages new_id item sso now r1 r2 v w :
  good_nonce r1 -> good_nonce r2 -> stage_sso_upgrade new_id item sso now r1 r2 v = Ok (Some w) -> stages v w.
Proof.
  intros H1 H2. unfold stage_sso_upgrade. destruct (get_item item v); [|done]. cbv zeta.
  intros (w1 & Hw & H)%bind_Ok. injection H as <-. unfold stage_update in Hw. exact (by_update v _ _ _ _ _ _ _ _ H1 H2 Hw).
Qed.

Lemma stage_new_stages v o d r1 r2 s s' :
  good_nonce r1 -> good_nonce r2 -> details_type d = item_type o -> Forall (stages v) (st_writes s) ->
  stage_new v o d r1 r2 s = Ok s' -> Forall (stages v) (st_writes s').
Proof.
  intros H1 H2 Ht Hs H. unfold stage_new in H. apply bind_Ok in H as ([w batch] & Hw & H). cbv zeta in H.
  assert (stages v w) as Hst by (rewrite <- (with_ids_same w); exact (by_batch v o d None _ _ _ _ _ w H1 H2 Ht Hw)).
  destruct (item_type o); try done; injection H as <-; (apply Forall_app; split; [done|by apply Forall_singleton]).
Qed.

(** So an import is a run of steps of the vault, and what is proved of those
    holds of it. *)
Lemma import_each_stages v existing dr now items : forall k s s',
  (forall k, good_nonce (dr_random dr k).1 /\ good_nonce (dr_random dr k).2) -> Forall (stages v) (st_writes s) ->
  import_each v existing dr now k items s = Ok s' -> Forall (stages v) (st_writes s').
Proof.
  induction items as [|i items IH]; intros k s s' Hg Hs; cbn [import_each]; [by intros [= <-]|].
  intros (s1 & H1 & H)%bind_Ok. apply (IH (S k) s1); [done| |done]. destruct (Hg k) as [G1 G2]. clear IH H.
  unfold import_one in H1. destruct (build_item _ _ _ _ _ _) as [[o d]|e] eqn:Hb; [|by injection H1 as <-].
  apply build_item_ok in Hb as (_ & _ & [Ht _] & _). cbv zeta in H1.
  assert (forall s0, st_writes s0 = st_writes s ->
    (if decide (dedupe_key o d ∈ existing) then Ok (counted CDuplicates s0)
     else stage_new v o d (dr_random dr k).1 (dr_random dr k).2 s0) = Ok s1 -> Forall (stages v) (st_writes s1)) as Hadd.
  { intros s0 Hw. case_decide; [intros [= <-]; cbn; by rewrite Hw|]. apply stage_new_stages; [done..|by rewrite Hw]. }
  destruct (sign_in_with o) as [sso|]; [|by apply (Hadd s)].
  destruct (st_upgrade s !! dedupe_key o d) as [t|]; [|by apply (Hadd s)].
  destruct (stage_sso_upgrade _ _ _ _ _ _ _) as [[w|]|e] eqn:Ew.
  - injection H1 as <-. cbn. apply Forall_app. split; [done|]. apply Forall_singleton. exact (sso_upgrade_stages _ _ _ _ _ _ _ _ G1 G2 Ew).
  - by eapply Hadd; [|exact H1].
  - by injection H1 as <-.
Qed.

Lemma import_stages v dr items report now si :
  (forall k, good_nonce (dr_random dr k).1 /\ good_nonce (dr_random dr k).2) ->
  stage_import dr items report now v = Ok si -> Forall (stages v) (si_writes si).
Proof.
  intros Hg. unfold stage_import. intros ([existing upgrade] & _ & H)%bind_Ok. apply bind_Ok in H as (sp & _ & H).
  apply bind_Ok in H as (s & Hs & H). injection H as <-. eapply import_each_stages; [done| |exact Hs]. by apply Forall_nil.
Qed.
End Facts.

(** ** A concrete import *)

Module ToyImport.
Import Blob.Toy ToyUnicode ToyUrl ToyTotp ToySite ToyCodec Sample Run.
#[local] Instance uuid_lib : UuidText := to_decimal.

Definition import (i : ItemInput) : ImportedItem := {| ii_input := i; ii_created_at := Some 5; ii_updated_at := None |}.
Definition with_google : ItemInput :=
  with_notes_and_sso Keep (Some {| provider := Google; sso_account := None |}) site_input.
Definition a_note : ItemInput :=
  {| in_type := SecureNote; in_title := lit "Door"; in_username := None; in_urls := []; in_password := Keep;
     in_totp := Keep; in_notes := Keep; in_content := SetTo (lit "4711"); in_auto_sign_in := None;
     in_sign_in_with := None; in_identity := None; in_card := None; in_bank := None; in_sections := None; in_tags := None |}.
Definition parsed : list ImportedItem := [import with_google; import site_input; import a_note; import (blank Login [])].
Definition draws : Draws := {| dr_item := fun k => 200 + Z.of_nat k; dr_ids := fun k n => 300 + Z.of_nat n; dr_random := fun _ => (nonce 5, nonce 6) |}.
Definition session2 : Session := of_ok session1 (session stored).
Definition held : ItemOverview := default BuildItem.sample_overview (overviews session2 !! 42).

Lemma held_only : overviews session2 = {[42 := held]}.
Proof. vm_compute. reflexivity. Qed.

End ToyImport.
