(* ===== verification/Export.v ===== *)
(** * Exporting the vault (crates/havenkeys-core/src/export/mod.rs, csv.rs, bitwarden.rs)

    What each export holds of each item, in the order the code visits them:
    the backup's payload, the Bitwarden JSON items and folders, and the CSV
    rows, with the counts of what is left out.  serde's printing of the
    Bitwarden documents, the csv crate's quoting of a record and the uuid
    crate's text are [PlainForms]; their write errors are left out (the sink
    is a byte vector). *)

From S2P Require Import Prelude Errors Text Blob Url Tags Totp Clean Card Identity.
From S2P Require Import CustomField Bank Sso Attachment Model Keys Store Origin Health BuildItem.
From S2P Require Import Vault Items Backup Dates.

(** ** Formats and counts *)

Inductive ExportFormat := FBackup | FBitwardenJson | FCsv.
#[export] Instance ExportFormat_eq_dec : EqDecision ExportFormat.
Proof. solve_decision. Defined.

(** [ExportFormat::extension], [ExportFormat::name]. *)
Definition format_extension (f : ExportFormat) : list Z :=
  match f with FBackup => lit "hkbackup" | FBitwardenJson => lit "json" | FCsv => lit "csv" end.
Definition format_name (f : ExportFormat) : list Z :=
  match f with FBackup => lit "HavenKeys backup" | FBitwardenJson => lit "Bitwarden JSON" | FCsv => lit "CSV" end.

Definition default_file_name (f : ExportFormat) (now_ms : Z) : list Z :=
  lit "havenkeys-export-" ++ format_date (now_ms / 1000) ++ [46] ++ format_extension f.

Record ExportSummary := {
  ex_logins : nat;
  ex_secure_notes : nat;
  ex_cards : nat;
  ex_identities : nat;
  ex_bank_accounts : nat;
  passkeys_left_out : nat;
  password_history_left_out : nat;
  custom_fields_left_out : nat;
  items_left_out : nat;
  ex_unreadable : nat;
  attachments_left_out : nat;
  ex_attachments : nat;
}.
#[export] Instance ExportSummary_eq_dec : EqDecision ExportSummary.
Proof. solve_decision. Defined.

Definition no_summary : ExportSummary :=
  {| ex_logins := 0; ex_secure_notes := 0; ex_cards := 0; ex_identities := 0; ex_bank_accounts := 0;
     passkeys_left_out := 0; password_history_left_out := 0; custom_fields_left_out := 0; items_left_out := 0;
     ex_unreadable := 0; attachments_left_out := 0; ex_attachments := 0 |}.

(** One of the counts of items by type, one more. *)
Definition count_type (t : ItemType) (s : ExportSummary) : ExportSummary :=
  {| ex_logins := ex_logins s + (if decide (t = Login) then 1 else 0);
     ex_secure_notes := ex_secure_notes s + (if decide (t = SecureNote) then 1 else 0);
     ex_cards := ex_cards s + (if decide (t = CardItem) then 1 else 0);
     ex_identities := ex_identities s + (if decide (t = Identity) then 1 else 0);
     ex_bank_accounts := ex_bank_accounts s + (if decide (t = BankAccount) then 1 else 0);
     passkeys_left_out := passkeys_left_out s; password_history_left_out := password_history_left_out s;
     custom_fields_left_out := custom_fields_left_out s; items_left_out := items_left_out s;
     ex_unreadable := ex_unreadable s; attachments_left_out := attachments_left_out s;
     ex_attachments := ex_attachments s |}.

(** The counts an item's details add: passkeys, old passwords, fields, items. *)
Definition count_left (pk h f i : nat) (s : ExportSummary) : ExportSummary :=
  {| ex_logins := ex_logins s; ex_secure_notes := ex_secure_notes s; ex_cards := ex_cards s;
     ex_identities := ex_identities s; ex_bank_accounts := ex_bank_accounts s;
     passkeys_left_out := passkeys_left_out s + pk; password_history_left_out := password_history_left_out s + h;
     custom_fields_left_out := custom_fields_left_out s + f; items_left_out := items_left_out s + i;
     ex_unreadable := ex_unreadable s; attachments_left_out := attachments_left_out s;
     ex_attachments := ex_attachments s |}.

(** The counts of unreadable items, and of files left out and carried. *)
Definition count_files (u out in_ : nat) (s : ExportSummary) : ExportSummary :=
  {| ex_logins := ex_logins s; ex_secure_notes := ex_secure_notes s; ex_cards := ex_cards s;
     ex_identities := ex_identities s; ex_bank_accounts := ex_bank_accounts s;
     passkeys_left_out := passkeys_left_out s; password_history_left_out := password_history_left_out s;
     custom_fields_left_out := custom_fields_left_out s; items_left_out := items_left_out s;
     ex_unreadable := ex_unreadable s + u; attachments_left_out := attachments_left_out s + out;
     ex_attachments := ex_attachments s + in_ |}.

Definition field_count (sections : list FieldSection) : nat := length (all_fields sections).

Definition count (f : ExportFormat) (o : ItemOverview) (d : ItemDetails) (s : ExportSummary) : ExportSummary :=
  let s := count_type (item_type o) s in
  if decide (f = FBackup) then count_files 0 0 (length (attachments o)) s
  else
    let s := count_files 0 (length (attachments o)) 0 s in
    match d with
    | DLogin l =>
        let s := count_left (length (passkeys l)) 0 0 0 s in
        if decide (f = FCsv) then count_left 0 (length (password_history l)) (field_count (sections l)) 0 s else s
    | DBank b => if decide (f = FCsv) then count_left 0 0 (field_count (b_sections b)) 0 s else s
    | _ =>
        if decide (f = FCsv) then
          let s := count_left 0 0 0 1 s in
          match d with DNote _ secs => count_left 0 0 (field_count secs) 0 s | _ => s end
        else s
    end.

(** One item of a visit: its overview, and its details if they open. *)
Definition Visit : Type := ItemOverview * option ItemDetails.

Definition count_visit (f : ExportFormat) (s : ExportSummary) (x : Visit) : ExportSummary :=
  match x.2 with Some d => count f x.1 d s | None => count_files 1 0 0 s end.

(** ** The Bitwarden documents *)

Record BwField := { bf_name : list Z; bf_value : list Z; bf_type : Z }.
Record BwUri := { bu_match : option Z; bu_uri : list Z }.
Record BwHistory := { bh_last_used_date : list Z; bh_password : list Z }.
Record BwLogin := {
  bl_uris : list BwUri;
  bl_username : option (list Z);
  bl_password : option (list Z);
  bl_totp : option (list Z);
}.
Record BwCard := {
  bc_cardholder_name : option (list Z);
  bc_brand : option (list Z);
  bc_number : option (list Z);
  bc_exp_month : option (list Z);
  bc_exp_year : option (list Z);
  bc_code : option (list Z);
}.
Record BwIdentity := {
  bid_first_name : option (list Z); bid_middle_name : option (list Z); bid_last_name : option (list Z);
  bid_address1 : option (list Z); bid_address2 : option (list Z); bid_address3 : option (list Z);
  bid_city : option (list Z); bid_state : option (list Z); bid_postal_code : option (list Z);
  bid_country : option (list Z); bid_company : option (list Z); bid_email : option (list Z);
  bid_phone : option (list Z); bid_ssn : option (list Z); bid_username : option (list Z);
  bid_passport_number : option (list Z); bid_license_number : option (list Z);
}.
(** [Item]: [type], then at most one of the four bodies. *)
Record BwItem := {
  bw_id : Z;
  bw_folder_id : option (list Z);
  bw_type : Z;
  bw_name : list Z;
  bw_notes : option (list Z);
  bw_fields : list BwField;
  bw_login : option BwLogin;
  bw_secure_note : bool;
  bw_card : option BwCard;
  bw_identity : option BwIdentity;
  bw_password_history : list BwHistory;
  bw_creation_date : list Z;
  bw_revision_date : list Z;
}.
Record BwFolder := { fo_id : list Z; fo_name : list Z }.

Class PlainForms := {
  folders_json : list BwFolder -> list Z;
  bw_item_json : BwItem -> list Z;
  (** one record of the csv crate, terminated by a line feed *)
  csv_record : list (list Z) -> list Z;
}.

Section ExportForms.
Context {C : Crypto} {K : KeyLib} {U : Unicode} {J : JsonLib} {UL : UrlLib} {SL : SiteLib UL} {L : TotpLib}.
Context {B : BackupJson} {P : PlainForms} {UT : UuidText}.

(** ** The password of a backup *)

Definition check_backup_password (backup master : list Z) : Result () :=
  let n := length backup in
  if (n <? MIN_MASTER_PASSWORD_CHARS)%nat then Err (InvalidInput "backup password must be at least 10 characters")
  else if (MAX_MASTER_PASSWORD_CHARS <? n)%nat then Err (InvalidInput "backup password is too long")
  else if secrets_equal backup master then Err (InvalidInput "backup password must differ from the master password")
  else Ok ().

(** ** The visit *)

Definition by_creation (o : ItemOverview) : Z * Z := (Model.created_at o, Model.id o).

(** The items [for_each_item] visits, in its order. *)
Definition for_each_item (v : VaultService) : Result (list Visit) :=
  s ← session v;
  Ok (map (fun o => (o, result_ok (load_details (Model.id o) v))) (sort_by_key by_creation (values (overviews s)))).

Definition summarize (f : ExportFormat) (v : VaultService) : Result ExportSummary :=
  l ← for_each_item v; Ok (foldl (count_visit f) no_summary l).

(** The visited items whose details open. *)
Definition readable (l : list Visit) : list (ItemOverview * ItemDetails) :=
  omap (fun x => d ← x.2; Some (x.1, d)) l.

Definition backup_attachments (v : VaultService) : Result (list (Z * AttachmentMeta)) :=
  l ← for_each_item v;
  Ok (concat (map (fun x => map (pair (Model.id x.1)) (attachments x.1)) (readable l))).

Definition render_backup_payload (now_ms : Z) (v : VaultService) : Result (list Z * ExportSummary) :=
  l ← for_each_item v;
  Ok (payload_to_json
        {| pl_version := PAYLOAD_VERSION; pl_exported_at := now_ms;
           pl_items := map (fun x => item_to_json {| bi_overview := x.1; bi_details := x.2 |}) (readable l) |},
      foldl (count_visit FBackup) no_summary l).

(** ** Bitwarden items *)

Definition bw_field (name value : list Z) (hidden : bool) : BwField :=
  {| bf_name := name; bf_value := value; bf_type := if hidden then 1 else 0 |}.

(** [push_custom_fields]. *)
Definition custom_field (f : CustomField.CustomField) : option BwField :=
  match f_value f with
  | VText v | VUrl v | VEmail v | VPhone v | VDate v => Some (bw_field (f_label f) v false)
  | VAddress a => Some (bw_field (f_label f) (address_formatted a) false)
  | VPassword (Some p) => Some (bw_field (f_label f) p true)
  | VOtp (Some c) => Some (bw_field (f_label f) (to_otpauth_uri c) true)
  | VPassword None | VOtp None => None
  end.
Definition custom_fields (sections : list FieldSection) : list BwField := omap custom_field (all_fields sections).

Definition bw_name_of (o : ItemOverview) (d : ItemDetails) : list Z :=
  if negb (bool_decide (trim (title o) = [])) then title o
  else
    match d with
    | DIdentity _ => lit "Identity"
    | DCard f => brand_display_name (effective_brand f)
    | _ => lit "Untitled"
    end.

Definition folder_id (tag : list Z) : list Z := uuid_text (uuid_v8 (take 16 (sha256 (utf8 tag)))).

Definition login_uris (o : ItemOverview) : list BwUri :=
  map (fun r => {| bu_match := match match_type r with Domain => None | Model.Origin => Some 1 | Exact => Some 3 end;
                   bu_uri := Model.url r |}) (urls o).

(** [Vec::dedup]: consecutive repetitions. *)
Fixpoint dedup {A} `{EqDecision A} (l : list A) : list A :=
  match l with
  | x :: (y :: _) as t => if decide (x = y) then dedup t else x :: dedup t
  | _ => l
  end.

Definition android_uris (bindings : list AppBinding) : list BwUri :=
  map (fun p => {| bu_match := None; bu_uri := lit "androidapp://" ++ p |})
    (dedup (sort_by_key (fun p => p) (map package bindings))).

Definition opt_field (name : list Z) (v : option (list Z)) : list BwField :=
  match v with Some v => [bw_field name v false] | None => [] end.

Definition bank_bw_fields (b : BankAccountFields) : list BwField :=
  opt_field (lit "Bank") (Bank.bank b)
  ++ opt_field (lit "Ag" ++ [234] ++ lit "ncia") (branch_joined b)
  ++ match account_joined b with Some a => [bw_field (lit "Conta") a true] | None => [] end
  ++ opt_field (lit "Titular") (holder_name b)
  ++ opt_field (lit "Tipo de conta") ((fun t => type_label t PtBr) <$> account_type b).

Definition identity_bw_fields (f : IdentityFields) : list BwField :=
  opt_field (lit "Gender") (gender f) ++ opt_field (lit "Birth date") (birth_date f)
  ++ opt_field (lit "Occupation") (occupation f) ++ opt_field (lit "Job title") (job_title f)
  ++ opt_field (lit "RG") (rg f) ++ opt_field (lit "Home phone") (home_phone f)
  ++ opt_field (lit "Work phone") (work_phone f) ++ opt_field (lit "Website") (website f)
  ++ map (fun c => bw_field (idc_label c) (idc_value c) (idc_hidden c)) (custom f).

Definition bw_identity_of (f : IdentityFields) : BwIdentity :=
  {| bid_first_name := first_name f; bid_middle_name := middle_name f; bid_last_name := last_name f;
     bid_address1 := match street f, addr_number f with
                     | Some s, Some n => Some (s ++ [32] ++ n)
                     | s, n => or_else s n
                     end;
     bid_address2 := Identity.complement f; bid_address3 := neighborhood f; bid_city := city f;
     bid_state := Identity.state f; bid_postal_code := postal_code f; bid_country := country f;
     bid_company := company f; bid_email := id_email f; bid_phone := mobile_phone f; bid_ssn := cpf f;
     bid_username := id_username f; bid_passport_number := passport f; bid_license_number := drivers_license f |}.

Definition bw_card_of (f : CardFields) : BwCard :=
  {| bc_cardholder_name := cardholder_name f; bc_brand := Some (brand_display_name (effective_brand f));
     bc_number := number f; bc_exp_month := (fun e => to_decimal (month e)) <$> expiry f;
     bc_exp_year := (fun e => to_decimal (year e)) <$> expiry f; bc_code := verification_number f |}.

Definition bw_item (o : ItemOverview) (d : ItemDetails) : BwItem :=
  let made t notes fields login note card identity history :=
    {| bw_id := Model.id o; bw_folder_id := folder_id <$> head (tags o); bw_type := t; bw_name := bw_name_of o d;
       bw_notes := notes; bw_fields := fields; bw_login := login; bw_secure_note := note; bw_card := card;
       bw_identity := identity; bw_password_history := history;
       bw_creation_date := format_utc_timestamp_ms (Model.created_at o);
       bw_revision_date := format_utc_timestamp_ms (updated_at o) |} in
  match d with
  | DLogin l =>
      made 1 (notes l) (custom_fields (sections l))
        (Some {| bl_uris := login_uris o ++ android_uris (app_bindings l); bl_username := username o;
                 bl_password := password l; bl_totp := to_otpauth_uri <$> totp l |})
        false None None
        (map (fun h => {| bh_last_used_date := format_utc_timestamp_ms (replaced_at h);
                          bh_password := pp_password h |}) (password_history l))
  | DNote content secs => made 2 (Some content) (custom_fields secs) None true None None []
  | DCard f => made 3 (cf_notes f) [] None false (Some (bw_card_of f)) None []
  | DBank f =>
      made 1 (b_notes f) (bank_bw_fields f ++ custom_fields (b_sections f))
        (Some {| bl_uris := login_uris o ++ android_uris (b_app_bindings f); bl_username := None;
                 bl_password := b_password f; bl_totp := None |})
        false None None []
  | DIdentity f => made 4 (id_notes f) (identity_bw_fields f) None false None (Some (bw_identity_of f)) []
  end.

(** The folders: the first tag of each item, once each, in byte order. *)
Definition folders (s : Session) : list BwFolder :=
  map (fun t => {| fo_id := folder_id t; fo_name := t |})
    (sort_by_key (fun t => t) (elements (list_to_set (omap (fun o => head (tags o)) (values (overviews s))) : gset (list Z)))).

Definition quoted (s : string) : list Z := [34] ++ lit s ++ [34].

Definition render_bitwarden (v : VaultService) : Result (list Z * ExportSummary) :=
  s ← session v;
  l ← for_each_item v;
  Ok ([123] ++ quoted "encrypted" ++ lit ":false," ++ quoted "folders" ++ [58] ++ folders_json (folders s)
        ++ [44] ++ quoted "items" ++ lit ":[" ++ join [44] (map (fun x => bw_item_json (bw_item x.1 x.2)) (readable l)) ++ lit "]}",
      foldl (count_visit FBitwardenJson) no_summary l).

(** ** CSV rows *)

Definition CSV_HEADER : list (list Z) :=
  [lit "name"; lit "url"; lit "username"; lit "password"; lit "note"; lit "totp"].

(** One more line of a note. *)
Definition add_line (note line : list Z) : list Z := (if bool_decide (note = []) then [] else note ++ [10]) ++ line.

Definition labelled (label : list Z) (v : option (list Z)) : list (list Z) :=
  match v with Some v => [label ++ lit ": " ++ v] | None => [] end.

Definition bank_lines (b : BankAccountFields) : list (list Z) :=
  labelled (lit "Bank") (Bank.bank b) ++ labelled (lit "Ag" ++ [234] ++ lit "ncia") (branch_joined b)
  ++ labelled (lit "Conta") (account_joined b) ++ labelled (lit "Titular") (holder_name b)
  ++ labelled (lit "Tipo") ((fun t => type_label t PtBr) <$> account_type b).

Definition csv_row (o : ItemOverview) (d : ItemDetails) : option (list (list Z)) :=
  let row pw totp notes bank :=
    let note := foldl add_line (default [] notes)
                  (map (fun r => lit "Website: " ++ Model.url r) (drop 1 (urls o)) ++ bank) in
    Some [title o; from_option Model.url [] (head (urls o)); default [] (username o); default [] pw; note;
          default [] totp] in
  match d with
  | DLogin l => row (password l) (to_otpauth_uri <$> totp l) (notes l) []
  | DBank b => row (b_password b) None (b_notes b) (bank_lines b)
  | _ => None
  end.

Definition render_csv (v : VaultService) : Result (list Z * ExportSummary) :=
  l ← for_each_item v;
  Ok (concat (map csv_record (CSV_HEADER :: omap (fun x => csv_row x.1 x.2) (readable l))),
      foldl (count_visit FCsv) no_summary l).

Definition render (f : ExportFormat) (now_ms : Z) (v : VaultService) : Result (list Z * ExportSummary) :=
  _ ← session v;
  match f with
  | FBackup => render_backup_payload now_ms v
  | FBitwardenJson => render_bitwarden v
  | FCsv => render_csv v
  end.
End ExportForms.
