(* ===== verification/ImportCsv.v ===== *)
(** * Importing CSV exports (crates/havenkeys-core/src/import/csv.rs)

    Bitwarden, Chromium, Firefox, KeePassXC and LastPass.  The csv crate's
    reader is [CsvLib]: what each of its reads gives, the header's first, up
    to the end of the file. *)

From S2P Require Import Prelude Errors Text Url Tags Totp Clean Card Identity.
From S2P Require Import CustomField Bank Sso Attachment Model Dates Import.

Inductive CsvRead :=
| CsvRecord (fields : list (list Z))
| CsvIoError
| CsvBad.

Class CsvLib := csv_reads : list Z -> list CsvRead.

Definition required_columns (s : ImportSource) : list (list Z) :=
  match s with
  | BitwardenCsv => [lit "type"; lit "name"; lit "login_uri"; lit "login_username"; lit "login_password"]
  | Chrome => [lit "name"; lit "url"; lit "username"; lit "password"]
  | Firefox => [lit "url"; lit "username"; lit "password"; lit "httprealm"]
  | KeePassXc => [lit "title"; lit "username"; lit "password"; lit "url"]
  | LastPass => [lit "url"; lit "username"; lit "password"; lit "extra"; lit "name"]
  | OnePassword | BitwardenJson => []
  end.

Definition INVALID_ONEPUX : Error := InvalidInput "not a valid 1Password export (.1pux) file".
Definition INVALID_BITWARDEN : Error := InvalidInput "not a valid Bitwarden export file".
Definition TOO_MANY_ITEMS : Error := InvalidInput "export contains too many items".
Definition TOO_LARGE : Error := InvalidInput "export file is too large".

Definition invalid (s : ImportSource) : Error :=
  match s with
  | BitwardenCsv | BitwardenJson => INVALID_BITWARDEN
  | Chrome => InvalidInput "not a valid Chrome export file"
  | Firefox => InvalidInput "not a valid Firefox export file"
  | KeePassXc => InvalidInput "not a valid KeePassXC export file"
  | LastPass => InvalidInput "not a valid LastPass export file"
  | OnePassword => INVALID_ONEPUX
  end.

(** ** Rows *)

Record Row := { columns : gmap (list Z) nat; row_fields : list (list Z) }.

(** [Row::get]: the value as written, if it has anything but whitespace. *)
Definition row_get (row : Row) (column : string) : option (list Z) :=
  i ← columns row !! lit column;
  v ← row_fields row !! i;
  if bool_decide (trim v = []) then None else Some v.

(** [Login]: the parts of a login every source fills in its own way. *)
Record LoginRow := {
  lr_title : option (list Z);
  lr_username : option (list Z);
  lr_password : option (list Z);
  lr_urls : list (list Z);
  lr_totp : option (list Z);
  lr_notes : option (list Z);
  lr_more_notes : option (list Z);
  lr_folder : option (list Z);
  lr_created_at : option Z;
  lr_updated_at : option Z;
}.

(** [or] of two options. *)
Definition opt_or {A} (a b : option A) : option A := match a with Some _ => a | None => b end.

Definition title_or (title fallback : option (list Z)) : list Z :=
  default (lit "Untitled") (opt_or (clean_some MAX_TITLE_CHARS title) fallback).

Definition is_space_byte (b : Z) : bool := (b =? 32) || (b =? 9) || (b =? 10) || (b =? 12) || (b =? 13).

Section Csv.
Context {U : Unicode} {UL : UrlLib} {L : TotpLib} {CL : CsvLib}.

(** The names of the folder a tag cannot be made of, kept in the notes. *)
Definition keep_rejected (rejected : list (list Z)) (e : Extras) : Extras :=
  foldl (fun e name => extras_push (Some (lit "Folder")) name (extras_section None e)) e rejected.

(** A login's one-time password: the setting, or a line of the notes. *)
Definition row_totp (totp : option (list Z)) (r : ImportReport) (e : Extras)
    : option (list Z) * ImportReport * Extras :=
  match totp with
  | Some t =>
      if is_ok (parse_totp_input t) then (Some (trim t), r, e)
      else (None, bump CFields r, extras_push (Some (lit "One-time password")) (trim t) (extras_section None e))
  | None => (None, r, e)
  end.

(** The host an untitled login is named after. *)
Definition host_title (urls : list UrlRule) : option (list Z) :=
  first ← head urls;
  u ← url_parse (Model.url first);
  host ← url_host_str u;
  Some (default host (strip_prefix (lit "www.") host)).

Definition tags_of_folder (folder : option (list Z)) : list (list Z) * list (list Z) :=
  split_tags (option_list (non_empty folder)).

Definition csv_login (f : LoginRow) (r : ImportReport) : ImportedItem * ImportReport :=
  let '(urls, r, e) := collect_urls (map (fun u => (u, Domain)) (lr_urls f)) r no_extras in
  let '(totp, r, e) := row_totp (lr_totp f) r e in
  let e := match non_empty (lr_more_notes f) with
           | Some more => extras_push None more (extras_section None e)
           | None => e
           end in
  let '(tags, rejected) := tags_of_folder (lr_folder f) in
  let e := keep_rejected rejected e in
  let title := title_or (lr_title f) (host_title urls) in
  ({| ii_input :=
        {| in_type := Login; in_title := title; in_username := clean_some MAX_USERNAME_CHARS (lr_username f);
           in_urls := urls; in_password := set_or_keep (lr_password f); in_totp := set_or_keep totp;
           in_notes := set_or_keep (join_notes (lr_notes f) e); in_content := Keep; in_auto_sign_in := None;
           in_sign_in_with := None; in_identity := None; in_card := None; in_bank := None; in_sections := None;
           in_tags := Some tags |};
      ii_created_at := lr_created_at f; ii_updated_at := opt_or (lr_updated_at f) (lr_created_at f) |},
   bump CLogins r).

Definition csv_note (title content more : option (list Z)) (created updated : option Z) (folder : option (list Z))
    (r : ImportReport) : ImportedItem * ImportReport :=
  let e := match non_empty more with Some more => extras_push None more no_extras | None => no_extras end in
  let '(tags, rejected) := tags_of_folder folder in
  let e := keep_rejected rejected e in
  ({| ii_input :=
        {| in_type := SecureNote; in_title := title_or title None; in_username := None; in_urls := [];
           in_password := Keep; in_totp := Keep; in_notes := Keep; in_content := SetTo (default [] (join_notes content e));
           in_auto_sign_in := None; in_sign_in_with := None; in_identity := None; in_card := None; in_bank := None;
           in_sections := None; in_tags := Some tags |};
      ii_created_at := created; ii_updated_at := opt_or updated created |},
   bump CSecureNotes r).

(** A positive count of milliseconds (Firefox). *)
Definition positive_ms (v : option (list Z)) : option Z :=
  s ← v; n ← parse_i64 (trim s); if 0 <? n then Some n else None.

Definition keepass_note (f : LoginRow) : bool :=
  bool_decide (lr_username f = None) && bool_decide (lr_password f = None) && bool_decide (lr_urls f = [])
  && bool_decide (lr_totp f = None) && negb (bool_decide (lr_notes f = None)).

Definition convert_row (s : ImportSource) (row : Row) (r : ImportReport) : option ImportedItem * ImportReport :=
  let get := row_get row in
  let some (x : ImportedItem * ImportReport) := (Some x.1, x.2) in
  match s with
  | Chrome =>
      some (csv_login
        {| lr_title := get "name"; lr_username := get "username"; lr_password := get "password";
           lr_urls := option_list (get "url"); lr_totp := None; lr_notes := get "note"; lr_more_notes := None;
           lr_folder := None; lr_created_at := None; lr_updated_at := None |} r)
  | Firefox =>
      let created_at := positive_ms (get "timecreated") in
      some (csv_login
        {| lr_title := None; lr_username := get "username"; lr_password := get "password";
           lr_urls := option_list (get "url"); lr_totp := None; lr_notes := None; lr_more_notes := None;
           lr_folder := None; lr_created_at := created_at;
           lr_updated_at := opt_or (positive_ms (get "timepasswordchanged")) created_at |} r)
  | KeePassXc =>
      let created_at := get "created" ≫= parse_utc_timestamp_ms in
      let updated_at := get "last modified" ≫= parse_utc_timestamp_ms in
      let f := {| lr_title := get "title"; lr_username := get "username"; lr_password := get "password";
                  lr_urls := option_list (get "url"); lr_totp := get "totp"; lr_notes := get "notes";
                  lr_more_notes := None; lr_folder := None; lr_created_at := created_at;
                  lr_updated_at := updated_at |} in
      if keepass_note f then some (csv_note (lr_title f) (lr_notes f) None created_at updated_at None r)
      else some (csv_login f r)
  | LastPass =>
      let url := get "url" in
      if bool_decide (trim <$> url = Some (lit "http://sn"))
      then some (csv_note (get "name") (get "extra") None None None (get "grouping") r)
      else
        some (csv_login
          {| lr_title := get "name"; lr_username := get "username"; lr_password := get "password";
             lr_urls := option_list url; lr_totp := get "totp"; lr_notes := get "extra"; lr_more_notes := None;
             lr_folder := get "grouping"; lr_created_at := None; lr_updated_at := None |} r)
  | BitwardenCsv =>
      let kind := (fun t => map to_ascii_lowercase (trim t)) <$> get "type" in
      if bool_decide (kind = Some (lit "note"))
      then some (csv_note (get "name") (get "notes") (get "fields") None None (get "folder") r)
      else if bool_decide (kind = Some (lit "login"))
      then
        some (csv_login
          {| lr_title := get "name"; lr_username := get "login_username"; lr_password := get "login_password";
             lr_urls := from_option (split_on 44) [] (get "login_uri"); lr_totp := get "login_totp";
             lr_notes := get "notes"; lr_more_notes := get "fields"; lr_folder := get "folder";
             lr_created_at := None; lr_updated_at := None |} r)
      else (None, r)
  | OnePassword | BitwardenJson => (None, r)
  end.

(** ** The file *)

(** [columns.entry(name).or_insert(i)]: the first column of a name. *)
Definition add_column (m : gmap (list Z) nat) (c : nat * list Z) : gmap (list Z) nat :=
  let name := map to_ascii_lowercase (trim c.2) in
  match m !! name with Some _ => m | None => <[name := c.1]> m end.

Definition header_columns (names : list (list Z)) : gmap (list Z) nat :=
  foldl add_column ∅ (imap pair names).

Definition is_blank_record (fields : list (list Z)) : bool := forallb (forallb is_space_byte) fields.

(** The records after the header: the items so far, in order, and the report. *)
Fixpoint csv_rows (s : ImportSource) (cols : gmap (list Z) nat) (width : nat) (reads : list CsvRead)
    (items : list ImportedItem) (r : ImportReport) : Result Parsed :=
  match reads with
  | [] => Ok {| pa_items := items; pa_report := r |}
  | CsvIoError :: _ => Err (invalid s)
  | CsvBad :: reads => csv_rows s cols width reads items (bump CFailed r)
  | CsvRecord fields :: reads =>
      if is_blank_record fields then csv_rows s cols width reads items r
      else if (MAX_ITEMS <=? length items)%nat then Err TOO_MANY_ITEMS
      else if negb (length fields =? width)%nat then csv_rows s cols width reads items (bump CFailed r)
      else
        match mapM from_utf8 fields with
        | None => csv_rows s cols width reads items (bump CFailed r)
        | Some fields =>
            match convert_row s {| columns := cols; row_fields := fields |} r with
            | (Some item, r) => csv_rows s cols width reads (items ++ [item]) r
            | (None, r) => csv_rows s cols width reads items (bump CFailed r)
            end
        end
  end.

Definition csv_parse (s : ImportSource) (bytes : list Z) : Result Parsed :=
  let required := required_columns s in
  if bool_decide (required = []) then Err (invalid s)
  else
    match csv_reads (strip_bom bytes) with
    | CsvRecord header :: reads =>
        names ← ok_or (invalid s) (mapM from_utf8 header);
        let cols := header_columns names in
        if negb (forallb (fun c => bool_decide (is_Some (cols !! c))) required) then Err (invalid s)
        else csv_rows s cols (length header) reads [] no_report
    | _ => Err (invalid s)
    end.
End Csv.
