(* ===== verification/ImportBitwarden.v ===== *)
(** * Importing a Bitwarden JSON export (crates/havenkeys-core/src/import/bitwarden.rs)

    [&mut ImportReport], [&mut Extras] and [&mut ItemSections] are passed and
    returned.  A folder or item is a JSON value; what is missing or of
    another type reads as absent, as in the code. *)

From S2P Require Import Prelude Errors Text Url Tags Totp Clean Card Identity.
From S2P Require Import CustomField Bank Sso Attachment Model Dates Import ImportCsv.

Definition ENCRYPTED : Error := InvalidInput "encrypted Bitwarden exports are not supported".

(** [match_type]. *)
Definition bw_match_type (uri : json) : MatchType :=
  match i64_at "match" uri with
  | Some n => if n =? 1 then Model.Origin else if n =? 3 then Exact else Domain
  | None => Domain
  end.

Definition type_name (t : Z) : list Z :=
  if t =? 3 then lit "Card" else if t =? 4 then lit "Identity" else if t =? 5 then lit "SSH key" else lit "Item".

(** [label]: [firstName] is "First name". *)
Definition key_label (key : list Z) : list Z :=
  concat (imap (fun i c =>
    if is_ascii_upper c then [32; to_ascii_lowercase c]
    else if (i =? 0)%nat then [to_ascii_uppercase c] else [c]) key).

Definition SECRET_KEYS : list (list Z) :=
  [lit "privateKey"; lit "ssn"; lit "passportNumber"; lit "licenseNumber"].

(** [push_fields]. *)
Definition push_field (e : Extras) (f : json) : Extras :=
  if bool_decide (i64_at "type" f = Some 3) then e
  else match text_at f "value" with Some v => extras_push (text_at f "name") v e | None => e end.
Definition push_fields (custom : list json) (e : Extras) : Extras := foldl push_field e custom.

(** The folders by id; the last entry of an id wins. *)
Definition folder_entry (f : json) : option (list Z * list Z) :=
  id ← text_at f "id"; n ← text_at f "name"; Some (id, n).
Definition folder_names (root : json) : gmap (list Z) (list Z) :=
  foldl (fun m f => match folder_entry f with Some (id, n) => <[id := n]> m | None => m end) ∅
    (default [] (array_at "folders" root)).

Definition is_set (u : SecretUpdate) : bool := match u with SetTo _ => true | _ => false end.

Section Bitwarden.
Context {U : Unicode} {UL : UrlLib} {L : TotpLib} {JT : JsonText}.

(** What an item's conversion changes: its sections, its extra notes and the
    report. *)
Record Conv := { cv_sections : ItemSections; cv_extras : Extras; cv_report : ImportReport }.

Definition with_sections (s : ItemSections) (c : Conv) : Conv :=
  {| cv_sections := s; cv_extras := cv_extras c; cv_report := cv_report c |}.
Definition with_extras (f : Extras -> Extras) (c : Conv) : Conv :=
  {| cv_sections := cv_sections c; cv_extras := f (cv_extras c); cv_report := cv_report c |}.
Definition with_report (f : ImportReport -> ImportReport) (c : Conv) : Conv :=
  {| cv_sections := cv_sections c; cv_extras := cv_extras c; cv_report := f (cv_report c) |}.
Definition start_section (t : option (list Z)) (c : Conv) : Conv := with_sections (sections_start t (cv_sections c)) c.

(** [validated(...).is_some_and(|fv| sections.push(name, fv))]: whether the
    value was kept as a field. *)
Definition keep_field (name : option (list Z)) (candidate : FieldValueInput) (fallback : option (list Z)) (c : Conv)
    : Conv * bool :=
  match validated candidate fallback with
  | Some v => let '(s, taken) := sections_push name v (cv_sections c) in (with_sections s c, taken)
  | None => (c, false)
  end.

(** One custom field into the current section ([custom_sections]). *)
Definition custom_section (c : Conv) (f : json) : Conv :=
  match text_at f "value" with
  | None => c
  | Some value =>
      let name := text_at f "name" in
      let kept candidate :=
        let '(c, kept) := keep_field name candidate (Some value) c in
        if kept then c
        else with_extras (fun e => extras_push name value (extras_section None e)) (with_report (bump CFields) c) in
      match i64_at "type" f with
      | Some n => if n =? 1 then kept (FPassword (SetTo value)) else if n =? 3 then c else kept (FText value)
      | None => kept (FText value)
      end
  end.
Definition custom_sections (custom : list json) (c : Conv) : Conv := foldl custom_section c custom.

(** One value of a type the vault does not have. *)
Definition other_value (c : Conv) (kv : list Z * json) : Conv :=
  match non_empty (as_str kv.2) with
  | None => c
  | Some v =>
      let label := key_label kv.1 in
      let candidate := if bool_decide (kv.1 ∈ SECRET_KEYS) then FPassword (SetTo v) else FText v in
      let '(c, kept) := keep_field (Some label) candidate (Some v) c in
      if kept then c else with_extras (extras_push (Some label) v) (with_report (bump CFields) c)
  end.

(** ** Cards *)

(** A value taken if it passes [check], else a line of the notes. *)
Definition take_checked (label : string) (check : list Z -> Result (list Z)) (v : option (list Z)) (e : Extras)
    : option (list Z) * Extras :=
  match v with
  | Some t => match check t with Ok x => (Some x, e) | Err _ => (None, extras_push (Some (lit label)) t e) end
  | None => (None, e)
  end.

Definition card_brand (v : option (list Z)) (e : Extras) : option CardBrand * Extras :=
  match v with
  | Some b =>
      match brand_from_name b with
      | Some x => (Some x, e)
      | None => (None, if eq_ignore_ascii_case b (lit "other") then e else extras_push (Some (lit "Brand")) b e)
      end
  | None => (None, e)
  end.

Definition parse_expiry (m y : list Z) : option CardExpiry :=
  m ← parse_unsigned 255 m;
  y ← parse_unsigned 65535 y;
  result_ok (expiry_new (if y <? 100 then y + 2000 else y) m).

Definition card_expiry (month year : option (list Z)) (e : Extras) : option CardExpiry * Extras :=
  match month, year with
  | Some m, Some y =>
      match parse_expiry m y with
      | Some x => (Some x, e)
      | None => (None, extras_push (Some (lit "Expiry")) (m ++ [47] ++ y) e)
      end
  | Some v, None | None, Some v => (None, extras_push (Some (lit "Expiry")) v e)
  | None, None => (None, e)
  end.

(** [card_input]; the notes are filled in by the caller. *)
Definition card_input (c : json) (e : Extras) : CardInput * Extras :=
  let '(n, e) := take_checked "Number" card_clean_number (text_at c "number") e in
  let '(code, e) := take_checked "Security code" clean_verification_number (text_at c "code") e in
  let '(brand, e) := card_brand (text_at c "brand") e in
  let '(exp, e) := card_expiry (text_at c "expMonth") (text_at c "expYear") e in
  ({| ci_cardholder_name := clean_some MAX_CARDHOLDER_CHARS (text_at c "cardholderName"); ci_brand := brand;
      ci_number := set_or_keep n; ci_verification_number := set_or_keep code; ci_expiry := exp; ci_notes := None |}, e).

Definition with_card_notes (notes : option (list Z)) (c : CardInput) : CardInput :=
  {| ci_cardholder_name := ci_cardholder_name c; ci_brand := ci_brand c; ci_number := ci_number c;
     ci_verification_number := ci_verification_number c; ci_expiry := ci_expiry c; ci_notes := notes |}.

(** ** Items: [ItemInput { .., ..ItemInput::blank(..) }] of each kind *)

Definition note_input (title content : list Z) (sections : option (list SectionInput)) (tags : list (list Z)) : ItemInput :=
  {| in_type := SecureNote; in_title := title; in_username := None; in_urls := []; in_password := Keep; in_totp := Keep;
     in_notes := Keep; in_content := SetTo content; in_auto_sign_in := None; in_sign_in_with := None;
     in_identity := None; in_card := None; in_bank := None; in_sections := sections; in_tags := Some tags |}.

Definition card_item_input (title : list Z) (card : CardInput) (tags : list (list Z)) : ItemInput :=
  {| in_type := CardItem; in_title := title; in_username := None; in_urls := []; in_password := Keep; in_totp := Keep;
     in_notes := Keep; in_content := Keep; in_auto_sign_in := None; in_sign_in_with := None; in_identity := None;
     in_card := Some card; in_bank := None; in_sections := None; in_tags := Some tags |}.

Definition uris_of (login : json) : list (list Z * MatchType) :=
  omap (fun u => s ← text_at u "uri"; Some (s, bw_match_type u)) (default [] (array_at "uris" login)).

(** [text(login, "totp")]: the setting, or a line of the notes. *)
Definition bw_totp (totp : option (list Z)) (c : Conv) : option (list Z) * Conv :=
  match totp with
  | Some t =>
      if is_ok (parse_totp_input t) then (Some t, c)
      else (None, with_extras (fun e => extras_push (Some (lit "One-time password")) t (extras_section None e))
                    (with_report (bump CFields) c))
  | None => (None, c)
  end.

Definition nonblank (v : option (list Z)) : option (list Z) :=
  s ← v; if bool_decide (trim s = []) then None else Some s.

Definition convert_login (item : json) (title : list Z) (notes : option (list Z)) (custom : list json)
    (tags : list (list Z)) (c : Conv) : ItemInput * Conv :=
  let login := jget_or_null "login" item in
  let c := match array_at "fido2Credentials" login with
           | Some pk => with_report (bump_by CPasskeys (length pk)) c
           | None => c
           end in
  let '(urls, r, e) := collect_urls (uris_of login) (cv_report c) (cv_extras c) in
  let c := {| cv_sections := cv_sections c; cv_extras := e; cv_report := r |} in
  let '(totp, c) := bw_totp (text_at login "totp") c in
  let c := with_report (bump CLogins) (custom_sections custom (start_section None c)) in
  ({| in_type := Login; in_title := title; in_username := clean_some MAX_USERNAME_CHARS (text_at login "username");
      in_urls := urls; in_password := set_or_keep (nonblank (str_at login ["password"%string]));
      in_totp := set_or_keep totp; in_notes := set_or_keep (join_notes notes (cv_extras c)); in_content := Keep;
      in_auto_sign_in := None; in_sign_in_with := None; in_identity := None; in_card := None; in_bank := None;
      in_sections := sections_finish (cv_sections c); in_tags := Some tags |}, c).

Definition convert_note (title : list Z) (notes : option (list Z)) (custom : list json) (tags : list (list Z)) (c : Conv)
    : ItemInput * Conv :=
  let c := with_report (bump CSecureNotes) (custom_sections custom (start_section None c)) in
  (note_input title (default [] (join_notes notes (cv_extras c))) (sections_finish (cv_sections c)) tags, c).

Definition convert_card (item : json) (title : list Z) (notes : option (list Z)) (custom : list json)
    (tags : list (list Z)) (c : Conv) : ItemInput * Conv :=
  let '(card, e) := card_input (jget_or_null "card" item) (cv_extras c) in
  let c := with_report (bump CCards) (with_extras (fun _ => push_fields custom e) c) in
  let untitled := bool_decide (text_at item "name" = None) in
  (card_item_input (if untitled && is_set (ci_number card) then [] else title)
     (with_card_notes (join_notes notes (cv_extras c)) card) tags, c).

Definition convert_other (kind : Z) (item : json) (title : list Z) (notes : option (list Z)) (custom : list json)
    (tags : list (list Z)) (c : Conv) : ItemInput * Conv :=
  let key := if kind =? 4 then "identity"%string else if kind =? 5 then "sshKey"%string else ""%string in
  let c := start_section (Some (type_name kind)) c in
  let c := match jget key item with Some (JObj values) => foldl other_value c values | _ => c end in
  let c := with_report (bump CConverted) (custom_sections custom (start_section None c)) in
  let rendered := extras_render (cv_extras c) in
  let body := lit "Imported from Bitwarden (" ++ type_name kind ++ [41]
                ++ (if bool_decide (rendered = []) then [] else [10; 10] ++ rendered)
                ++ from_option (fun n => [10; 10] ++ n) [] notes in
  (note_input title body (sections_finish (cv_sections c)) tags, c).

Definition bw_title (item : json) : list Z := title_or (text_at item "name") None.

(** [convert_item]: [None] is an item that is not an object. *)
Definition bw_convert_item (folders : gmap (list Z) (list Z)) (item : json) (r : ImportReport)
    : option ImportedItem * ImportReport :=
  if negb (is_object item) then (None, r)
  else
    let kind := default 0 (i64_at "type" item) in
    let title := bw_title item in
    let notes := text_at item "notes" in
    let r := match array_at "passwordHistory" item with Some h => bump_by CHistory (length h) r | None => r end in
    let created_at := text_at item "creationDate" ≫= parse_utc_timestamp_ms in
    let updated_at := opt_or (text_at item "revisionDate" ≫= parse_utc_timestamp_ms) created_at in
    let custom := default [] (array_at "fields" item) in
    let folder := id ← text_at item "folderId"; folders !! id in
    let '(tags, rejected) := split_tags (option_list folder) in
    let c := {| cv_sections := no_sections; cv_extras := keep_rejected rejected no_extras; cv_report := r |} in
    let '(input, c) :=
      if kind =? 1 then convert_login item title notes custom tags c
      else if kind =? 2 then convert_note title notes custom tags c
      else if kind =? 3 then convert_card item title notes custom tags c
      else convert_other kind item title notes custom tags c in
    (Some {| ii_input := input; ii_created_at := created_at; ii_updated_at := updated_at |}, cv_report c).

(** The loop over [items]. *)
Fixpoint bw_items (folders : gmap (list Z) (list Z)) (l : list json) (items : list ImportedItem) (r : ImportReport) : Parsed :=
  match l with
  | [] => {| pa_items := items; pa_report := r |}
  | item :: l =>
      if from_option (fun d => negb (is_null d)) false (jget "deletedDate" item)
      then bw_items folders l items (bump CArchived r)
      else
        match bw_convert_item folders item r with
        | (Some x, r) => bw_items folders l (items ++ [x]) r
        | (None, r) => bw_items folders l items (bump CFailed r)
        end
  end.

Definition bw_convert (root : json) : Result Parsed :=
  if bool_decide ((jget "encrypted" root ≫= as_bool) = Some true) then Err ENCRYPTED
  else
    list ← ok_or INVALID_BITWARDEN (array_at "items" root);
    if (MAX_ITEMS <? length list)%nat then Err TOO_MANY_ITEMS
    else Ok (bw_items (folder_names root) list [] no_report).

Definition bitwarden_parse (bytes : list Z) : Result Parsed :=
  root ← ok_or INVALID_BITWARDEN (json_parse (strip_bom bytes));
  bw_convert root.
End Bitwarden.
