(* ===== verification/ImportOnePux.v ===== *)
(** * Importing a 1Password export (crates/havenkeys-core/src/import/onepux.rs, mod.rs)

    A [.1pux] file is a ZIP archive with a JSON document; the ZIP reader is
    [ZipLib].  The number of files an archive declares is read from its bytes
    before that reader sees it.  Last comes [parse], the entry point of every
    import. *)

From S2P Require Import Prelude Errors Text Url Tags Totp Clean Card Identity.
From S2P Require Import CustomField Bank Sso Attachment Model Dates Import ImportCsv ImportBitwarden.

Definition MAX_EXPORT_DATA_BYTES : Z := 64 * 1024 * 1024.
Definition MAX_ARCHIVE_ENTRIES : Z := 10 * 1000.

(** An opened archive: its file names, and an entry's declared size and what
    reading at most so many bytes of it gives. *)
Record ZipEntry := { entry_size : Z; entry_read : Z -> option (list Z) }.
Record ZipArchive := { file_names : list (list Z); by_name : list Z -> option ZipEntry }.
Class ZipLib := zip_open : list Z -> option ZipArchive.

(** ** The declared number of entries *)

(** [archive.get(lo..hi)]; [hi] is a [usize] of 64 bits and wraps. *)
Definition get_range (archive : list Z) (lo hi : Z) : option (list Z) :=
  let hi := hi mod 2 ^ 64 in
  if (lo <=? hi) && (hi <=? len archive) then Some (take (Z.to_nat (hi - lo)) (drop (Z.to_nat lo) archive)) else None.

Definition u16_at (archive : list Z) (at_ : Z) : option Z := le_val <$> get_range archive at_ (at_ + 2).
Definition u64_at (archive : list Z) (at_ : Z) : option Z := le_val <$> get_range archive at_ (at_ + 8).

Definition EOCD : list Z := [80; 75; 5; 6].
Definition LOCATOR : list Z := [80; 75; 6; 7].
Definition EOCD64 : list Z := [80; 75; 6; 6].

(** The ZIP64 record a locator just before the end record names. *)
Definition zip64_record (archive : list Z) (at_ : Z) : option Z :=
  if at_ <? 20 then None
  else
    let loc := at_ - 20 in
    if bool_decide (get_range archive loc (loc + 4) = Some LOCATOR) then
      o ← u64_at archive (loc + 8);
      if bool_decide (get_range archive o (o + 4) = Some EOCD64) then Some o else None
    else None.

Definition declared_at (archive : list Z) (most at_ : Z) : Z :=
  if negb (bool_decide (get_range archive at_ (at_ + 4) = Some EOCD)) then most
  else
    let most := most `max` default 0 (u16_at archive (at_ + 8)) `max` default 0 (u16_at archive (at_ + 10)) in
    match zip64_record archive at_ with
    | Some r => most `max` default 0 (u64_at archive (r + 24)) `max` default 0 (u64_at archive (r + 32))
    | None => most
    end.

Definition declared_entries (archive : list Z) : Z :=
  let start := (length archive - (22 + 65535))%nat in
  foldl (declared_at archive) 0 (map Z.of_nat (seq start (length archive - 21 - start))).

(** ** Values *)

Definition timestamp_ms (item : json) (key : string) : option Z :=
  s ← i64_at key item; if 0 <? s then Some (Z.min (s * 1000) i64_max) else None.

Definition CATEGORIES : list (string * string) :=
  [("002", "Credit card"); ("004", "Identity"); ("006", "Document"); ("100", "Software license"); ("101", "Bank account");
   ("102", "Database"); ("103", "Driver licence"); ("104", "Outdoor licence"); ("105", "Membership"); ("106", "Passport");
   ("107", "Reward program"); ("108", "Social security number"); ("109", "Wireless router"); ("110", "Server");
   ("111", "Email account"); ("112", "API credential"); ("113", "Medical record"); ("114", "SSH key");
   ("115", "Crypto wallet")]%string.
Definition category_name (uuid : list Z) : list Z :=
  match List.find (fun p => bool_decide (lit p.1 = uuid)) CATEGORIES with Some p => lit p.2 | None => lit "Item" end.

Definition one_of (names : list string) (s : list Z) : bool := existsb (fun n => bool_decide (lit n = s)) names.

(** The kind of a section value: the first entry of the object. *)
Definition value_entry (v : json) : option (list Z * json) := match v with JObj (kv :: _) => Some kv | _ => None end.

Definition or_str (o : option (list Z)) (v : json) : option (list Z) := opt_or o (as_str v).

Definition ADDRESS_KEYS : list string := ["street"; "city"; "state"; "zip"; "country"]%string.

Definition prefixed (label : string) (v : option (list Z)) : list (list Z) :=
  match v with Some v => [lit label ++ v] | None => [] end.

Definition ssh_lines (v : json) : list (list Z) :=
  let meta k := non_empty (str_at v ["metadata"%string; k]) in
  prefixed "Key type: " (meta "keyType"%string) ++ prefixed "Fingerprint: " (meta "fingerprint"%string)
  ++ prefixed "Public key: " (meta "publicKey"%string)
  ++ match opt_or (non_empty (str_at v ["privateKey"%string])) (meta "privateKey"%string) with
     | Some k => [lit "Private key:" ++ [10] ++ k]
     | None => []
     end.

(** [render_value], but for the count of a file. *)
Definition render_text (value : json) : option (list Z) :=
  '(kind, v) ← value_entry value;
  let text :=
    if one_of ["string"; "concealed"; "phone"; "url"; "menu"; "creditCardType"; "creditCardNumber"; "totp"; "gender"] kind
    then as_str v
    else if one_of ["email"] kind then or_str (str_at v ["email_address"%string]) v
    else if one_of ["monthYear"] kind then
      n ← as_i64 v; if 0 <? n then Some (pad_int 2 (n mod 100) ++ [47] ++ to_decimal (n / 100)) else None
    else if one_of ["date"] kind then format_date <$> as_i64 v
    else if one_of ["address"] kind then
      let parts := omap (fun k => text_at v k) ADDRESS_KEYS in
      if bool_decide (parts = []) then None else Some (join (lit ", ") parts)
    else if one_of ["sshKey"] kind then
      let lines := ssh_lines v in if bool_decide (lines = []) then None else Some (join [10] lines)
    else if one_of ["ssoLogin"] kind then legacy_sso_note <$> text_at v "provider"
    else if one_of ["file"] kind then None
    else as_str v in
  t ← text; if bool_decide (trim t = []) then None else Some t.

Definition is_file (value : json) : bool :=
  match value_entry value with Some (kind, _) => bool_decide (kind = lit "file") | None => false end.

(** [render_value]: a file is counted, and has no text. *)
Definition render_value (value : json) (r : ImportReport) : option (list Z) * ImportReport :=
  (render_text value, if is_file value then bump CAttachments r else r).

Definition address_value (v : json) : option FieldValueInput :=
  let a := {| a_street := text_at v "street"; a_number := None; a_complement := None; a_neighborhood := None;
              a_city := text_at v "city"; a_state := text_at v "state"; a_postal_code := text_at v "zip";
              a_country := text_at v "country" |} in
  if bool_decide (a_street a = None) && bool_decide (a_city a = None) && bool_decide (a_state a = None)
     && bool_decide (a_postal_code a = None) && bool_decide (a_country a = None)
  then None else Some (FAddress a).

(** ** Cards and bank accounts *)

Record CardParts := {
  cp_cardholder : option (list Z);
  cp_brand : option CardBrand;
  cp_number : option (list Z);
  cp_verification : option (list Z);
  cp_expiry : option CardExpiry;
}.
Definition no_card_parts : CardParts :=
  {| cp_cardholder := None; cp_brand := None; cp_number := None; cp_verification := None; cp_expiry := None |}.

Record BankParts := {
  bp_bank : option (list Z);
  bp_holder : option (list Z);
  bp_account_type : option BankAccountType;
  bp_branch : option (list Z);
  bp_branch_digit : option (list Z);
  bp_account : option (list Z);
  bp_account_digit : option (list Z);
}.
Definition no_bank_parts : BankParts :=
  {| bp_bank := None; bp_holder := None; bp_account_type := None; bp_branch := None; bp_branch_digit := None;
     bp_account := None; bp_account_digit := None |}.

(** [find_map] of the texts at the keys. *)
Definition first_text (keys : list string) (value : json) : option (list Z) := head (omap (text_at value) keys).

(** [fill]: the slot with the value if there is one, and whether it was taken. *)
Definition fill {A} (slot v : option A) : option A * bool := match v with Some _ => (v, true) | None => (slot, false) end.

Definition month_year (value : json) : option CardExpiry :=
  n ← i64_at "monthYear" value;
  if (0 <? n) && (n / 100 <=? 65535) then result_ok (expiry_new (n / 100) (n mod 100)) else None.
Arguments month_year : simpl never.

Definition account_type_of (t : list Z) : BankAccountType :=
  if bool_decide (t = lit "checking") then Checking
  else if bool_decide (t = lit "savings") then Savings
  else if bool_decide (t = lit "payment") then Payment
  else TypeOther.

Definition short_text (text : list Z) (max : nat) : option (list Z) :=
  let t := clean_line text (max + 1) in
  if negb (bool_decide (t = [])) && (length t <=? max)%nat && bool_decide (t = trim text) then Some t else None.

Section OnePux.
Context {U : Unicode} {UL : UrlLib} {L : TotpLib} {JT : JsonText} {ZL : ZipLib} {CL : CsvLib}.

(** [CardParts::take]: the parts after a field, and whether it was taken. *)
Definition take_card (field value : json) (p : CardParts) : CardParts * bool :=
  let id := default [] (str_at field ["id"%string]) in
  let title := to_lowercase (default [] (str_at field ["title"%string])) in
  let text := first_text ["string"; "concealed"; "creditCardNumber"; "creditCardType"] value in
  let has key := bool_decide (is_Some (jget key value)) in
  if bool_decide (cp_number p = None) && (bool_decide (id = lit "ccnum") || has "creditCardNumber"%string) then
    let '(n, taken) := fill (cp_number p) (t ← text; result_ok (card_clean_number t)) in
    ({| cp_cardholder := cp_cardholder p; cp_brand := cp_brand p; cp_number := n;
        cp_verification := cp_verification p; cp_expiry := cp_expiry p |}, taken)
  else if bool_decide (cp_verification p = None) && bool_decide (id = lit "cvv") then
    let '(v, taken) := fill (cp_verification p) (t ← text; result_ok (clean_verification_number t)) in
    ({| cp_cardholder := cp_cardholder p; cp_brand := cp_brand p; cp_number := cp_number p;
        cp_verification := v; cp_expiry := cp_expiry p |}, taken)
  else if bool_decide (cp_cardholder p = None) && bool_decide (id = lit "cardholder") then
    let '(c, taken) := fill (cp_cardholder p) (clean_some MAX_CARDHOLDER_CHARS text) in
    ({| cp_cardholder := c; cp_brand := cp_brand p; cp_number := cp_number p;
        cp_verification := cp_verification p; cp_expiry := cp_expiry p |}, taken)
  else if bool_decide (cp_brand p = None) && (bool_decide (id = lit "type") || has "creditCardType"%string) then
    let '(b, taken) := fill (cp_brand p) (t ← text; brand_from_name t) in
    ({| cp_cardholder := cp_cardholder p; cp_brand := b; cp_number := cp_number p;
        cp_verification := cp_verification p; cp_expiry := cp_expiry p |}, taken)
  else
    let expiry_field := bool_decide (id = lit "expiry") || (bool_decide (id = []) && contains (lit "expir") title) in
    if bool_decide (cp_expiry p = None) && expiry_field then
      let '(e, taken) := fill (cp_expiry p) (month_year value) in
      ({| cp_cardholder := cp_cardholder p; cp_brand := cp_brand p; cp_number := cp_number p;
          cp_verification := cp_verification p; cp_expiry := e |}, taken)
    else (p, false).

(** [BankParts::take]. *)
Definition take_bank (field value : json) (p : BankParts) : BankParts * bool :=
  let id := default [] (str_at field ["id"%string]) in
  match first_text ["string"; "concealed"; "menu"] value with
  | None => (p, false)
  | Some text =>
      if bool_decide (id = lit "bankName") && bool_decide (bp_bank p = None) then
        let '(b, taken) := fill (bp_bank p) (short_text text MAX_BANK_CHARS) in
        ({| bp_bank := b; bp_holder := bp_holder p; bp_account_type := bp_account_type p; bp_branch := bp_branch p;
            bp_branch_digit := bp_branch_digit p; bp_account := bp_account p; bp_account_digit := bp_account_digit p |}, taken)
      else if bool_decide (id = lit "owner") && bool_decide (bp_holder p = None) then
        let '(h, taken) := fill (bp_holder p) (short_text text MAX_HOLDER_CHARS) in
        ({| bp_bank := bp_bank p; bp_holder := h; bp_account_type := bp_account_type p; bp_branch := bp_branch p;
            bp_branch_digit := bp_branch_digit p; bp_account := bp_account p; bp_account_digit := bp_account_digit p |}, taken)
      else if bool_decide (id = lit "accountType") && bool_decide (bp_account_type p = None) then
        ({| bp_bank := bp_bank p; bp_holder := bp_holder p; bp_account_type := Some (account_type_of (to_lowercase text));
            bp_branch := bp_branch p; bp_branch_digit := bp_branch_digit p; bp_account := bp_account p;
            bp_account_digit := bp_account_digit p |}, true)
      else if one_of ["branchCode"; "routingNo"] id && bool_decide (bp_branch p = None) then
        match bank_clean_number text MAX_BRANCH_DIGITS 1 with
        | Ok (Some branch, digit) =>
            ({| bp_bank := bp_bank p; bp_holder := bp_holder p; bp_account_type := bp_account_type p;
                bp_branch := Some branch; bp_branch_digit := digit; bp_account := bp_account p;
                bp_account_digit := bp_account_digit p |}, true)
        | _ => (p, false)
        end
      else if bool_decide (id = lit "accountNo") && bool_decide (bp_account p = None) then
        match bank_clean_number text MAX_ACCOUNT_DIGITS MAX_ACCOUNT_DIGIT_CHARS with
        | Ok (Some account, digit) =>
            ({| bp_bank := bp_bank p; bp_holder := bp_holder p; bp_account_type := bp_account_type p;
                bp_branch := bp_branch p; bp_branch_digit := bp_branch_digit p; bp_account := Some account;
                bp_account_digit := digit |}, true)
        | _ => (p, false)
        end
      else (p, false)
  end.

(** [custom_field_from].  Of a file there is nothing to keep, so no report is
    changed here. *)
Definition custom_field_from (value : json) : option FieldValueInput :=
  '(kind, v) ← value_entry value;
  let text t := non_empty t in
  candidate ←
    (if one_of ["file"] kind then None
     else if one_of ["concealed"] kind then (fun t => FPassword (SetTo t)) <$> text (as_str v)
     else if one_of ["totp"] kind then (fun t => FOtp (SetTo t)) <$> text (as_str v)
     else if one_of ["email"] kind then FEmail <$> text (or_str (str_at v ["email_address"%string]) v)
     else if one_of ["phone"] kind then FPhone <$> text (as_str v)
     else if one_of ["url"] kind then FUrl <$> text (as_str v)
     else if one_of ["date"] kind then (fun s => FDate (format_date s)) <$> as_i64 v
     else if one_of ["address"] kind then address_value v
     else if one_of ["sshKey"] kind then (fun t => FPassword (SetTo t)) <$> render_text value
     else FText <$> render_text value);
  validated candidate (render_text value).

(** ** Websites and form fields *)

Definition onepux_urls (overview : json) (r : ImportReport) (e : Extras) : list UrlRule * ImportReport * Extras :=
  let raw := omap (fun u => text_at u "url") (default [] (array_at "urls" overview)) ++ option_list (text_at overview "url") in
  collect_urls (map (fun u => (u, Domain)) raw) r e.

(** The designated username and password of a login form. *)
Definition designated (acc : option (list Z) * option (list Z)) (f : json) : option (list Z) * option (list Z) :=
  let '(u, p) := acc in
  match str_at f ["designation"%string], text_at f "value" with
  | Some d, Some v =>
      if bool_decide (d = lit "username") && bool_decide (u = None) then (Some v, p)
      else if bool_decide (d = lit "password") && bool_decide (p = None) then (u, Some v)
      else acc
  | _, _ => acc
  end.

Definition form_field (acc : option (list Z) * option (list Z) * Conv) (f : json)
    : option (list Z) * option (list Z) * Conv :=
  let '(u, p, c) := acc in
  match text_at f "value" with
  | None => acc
  | Some value =>
      if from_option (one_of ["username"; "password"]) false (str_at f ["designation"%string]) then acc
      else
        let kind := default [] (str_at f ["fieldType"%string]) in
        if bool_decide (u = None) && one_of ["T"; "E"] kind then (Some value, p, c)
        else if bool_decide (p = None) && one_of ["P"] kind then (u, Some value, c)
        else if negb (one_of ["C"; "R"; "B"; "I"] kind) then
          let name := text_at f "name" in
          let candidate := if one_of ["P"] kind then FPassword (SetTo value) else FText value in
          let '(c, kept) := keep_field name candidate (Some value) c in
          (u, p, if kept then c else with_extras (extras_push name value) (with_report (bump CFields) c))
        else acc
  end.

Definition login_fields (fields : list json) (c : Conv) : option (list Z) * option (list Z) * Conv :=
  let '(u, p) := foldl designated (None, None) fields in
  foldl form_field (u, p, with_extras (extras_section None) c) fields.

(** ** Items *)

Record OnePuxState := {
  op_conv : Conv;
  op_card : CardParts;
  op_bank : BankParts;
  op_totp : option (list Z);
  op_sso : option SignInWith;
}.
Definition op_with (c : Conv) (s : OnePuxState) : OnePuxState :=
  {| op_conv := c; op_card := op_card s; op_bank := op_bank s; op_totp := op_totp s; op_sso := op_sso s |}.

Definition category_of (item : json) : list Z := default [] (str_at item ["categoryUuid"%string]).
Definition is_login (category : list Z) : bool := one_of ["001"; "005"] category.
Definition takes_fields (category : list Z) : bool := negb (one_of ["002"; "101"] category).
Definition is_converted (category : list Z) : bool := negb (one_of ["001"; "005"; "002"; "003"; "101"] category).

(** A login's "Sign in with", of a section value. *)
Definition sso_of (value : json) : option SignInWith :=
  s ← jget "ssoLogin" value;
  n ← str_at s ["provider"%string];
  p ← from_name n;
  Some {| provider := p; sso_account := clean_some Sso.MAX_ACCOUNT_CHARS (text_at s "username") |}.

(** The rest of a field as text of the notes. *)
Definition note_field (label : option (list Z)) (value : json) (c : Conv) : Conv :=
  let '(text, r) := render_value value (cv_report c) in
  let c := with_report (fun _ => r) c in
  match text with
  | None => c
  | Some t =>
      let label := if bool_decide (is_Some (jget "totp" value))
                   then Some (default (lit "One-time password") (nonblank label)) else label in
      with_extras (extras_push label t) c
  end.

(** One field of a section. *)
Definition section_field (category : list Z) (s : OnePuxState) (field : json) : OnePuxState :=
  let label := str_at field ["title"%string] in
  let value := jget_or_null "value" field in
  let '(card, card_taken) := if one_of ["002"] category then take_card field value (op_card s) else (op_card s, false) in
  let '(bank, bank_taken) := if one_of ["101"] category then take_bank field value (op_bank s) else (op_bank s, false) in
  let s := {| op_conv := op_conv s; op_card := card; op_bank := bank; op_totp := op_totp s; op_sso := op_sso s |} in
  if card_taken || bank_taken then s
  else
    let totp := if is_login category && bool_decide (op_totp s = None)
                then t ← text_at value "totp"; if is_ok (parse_totp_input t) then Some t else None else None in
    match totp with
    | Some t => {| op_conv := op_conv s; op_card := op_card s; op_bank := op_bank s; op_totp := Some t; op_sso := op_sso s |}
    | None =>
        match (if is_login category && bool_decide (op_sso s = None) then sso_of value else None) with
        | Some x => {| op_conv := op_conv s; op_card := op_card s; op_bank := op_bank s; op_totp := op_totp s; op_sso := Some x |}
        | None =>
            let c := op_conv s in
            match (if takes_fields category then custom_field_from value else None) with
            | Some v =>
                let '(sec, taken) := sections_push label v (cv_sections c) in
                let c := with_sections sec c in
                op_with (if taken then c else note_field label value (with_report (bump CFields) c)) s
            | None => op_with (note_field label value c) s
            end
        end
    end.

Definition item_section (category : list Z) (s : OnePuxState) (section : json) : OnePuxState :=
  let title := str_at section ["title"%string] in
  let c := with_extras (extras_section title) (op_conv s) in
  let s := op_with (if takes_fields category then start_section title c else c) s in
  foldl (section_field category) s (default [] (array_at "fields" section)).

(** A converted item's websites, as URL fields; those that do not fit. *)
Definition early_url (acc : Conv * list (list Z)) (rule : UrlRule) : Conv * list (list Z) :=
  let '(c, early) := acc in
  let '(s, taken) := sections_push (Some (lit "Website")) (FUrl (Model.url rule)) (cv_sections c) in
  (with_sections s c, if taken then early else early ++ [Model.url rule]).

Definition early_urls (overview : json) (c : Conv) : Conv * list (list Z) :=
  let c := start_section None c in
  let '(urls, r, e) := onepux_urls overview (cv_report c) (cv_extras c) in
  foldl early_url ({| cv_sections := cv_sections c; cv_extras := e; cv_report := r |}, []) urls.

(** [join_notes], the closure. *)
Definition onepux_notes (notes_plain : option (list Z)) (extra : list Z) : option (list Z) :=
  let parts := option_list notes_plain ++ (if bool_decide (extra = []) then [] else [extra]) in
  if bool_decide (parts = []) then None else Some (join [10; 10] parts).

Definition tag_names (overview : json) : list (list Z) := omap as_str (default [] (array_at "tags" overview)).

Definition no_state (r : ImportReport) : OnePuxState :=
  {| op_conv := {| cv_sections := no_sections; cv_extras := no_extras; cv_report := r |};
     op_card := no_card_parts; op_bank := no_bank_parts; op_totp := None; op_sso := None |}.

(** [collect_urls] of an item whose notes come after it. *)
Definition conv_urls (overview : json) (c : Conv) : list UrlRule * Conv :=
  let '(urls, r, e) := onepux_urls overview (cv_report c) (cv_extras c) in
  (urls, {| cv_sections := cv_sections c; cv_extras := e; cv_report := r |}).

Definition login_input (overview details : json) (title : list Z) (notes : option (list Z)) (tags : list (list Z))
    (s : OnePuxState) : ItemInput * Conv :=
  let c := start_section None (op_conv s) in
  let '(u, p, c) := match array_at "loginFields" details with
                    | Some form => login_fields form c
                    | None => (None, None, c)
                    end in
  let p := opt_or p (text_at details "password") in
  let '(urls, c) := conv_urls overview (with_report (bump CLogins) c) in
  ({| in_type := Login; in_title := title; in_username := clean_some MAX_USERNAME_CHARS u; in_urls := urls;
      in_password := set_or_keep p; in_totp := set_or_keep (op_totp s);
      in_notes := set_or_keep (onepux_notes notes (extras_render (cv_extras c))); in_content := Keep;
      in_auto_sign_in := None; in_sign_in_with := op_sso s; in_identity := None; in_card := None; in_bank := None;
      in_sections := sections_finish (cv_sections c); in_tags := Some tags |}, c).

Definition secure_note_input (title : list Z) (notes : option (list Z)) (tags : list (list Z)) (s : OnePuxState)
    : ItemInput * Conv :=
  let c := with_report (bump CSecureNotes) (op_conv s) in
  (note_input title (default [] (onepux_notes notes (extras_render (cv_extras c)))) (sections_finish (cv_sections c)) tags, c).

Definition credit_card_input (overview : json) (title : list Z) (notes : option (list Z)) (tags : list (list Z))
    (s : OnePuxState) : ItemInput * Conv :=
  let '(urls, c) := conv_urls overview (with_report (bump CCards) (op_conv s)) in
  let keep e rule := extras_push (Some (lit "Website")) (Model.url rule) (extras_section None e) in
  let c := with_extras (fun e => foldl keep e urls) c in
  let parts := op_card s in
  let untitled := bool_decide (text_at overview "title" = None) in
  (card_item_input (if untitled && bool_decide (is_Some (cp_number parts)) then [] else title)
     {| ci_cardholder_name := cp_cardholder parts; ci_brand := cp_brand parts;
        ci_number := set_or_keep (cp_number parts); ci_verification_number := set_or_keep (cp_verification parts);
        ci_expiry := cp_expiry parts; ci_notes := onepux_notes notes (extras_render (cv_extras c)) |} tags, c).

Definition bank_account_input (overview : json) (title : list Z) (notes : option (list Z)) (tags : list (list Z))
    (s : OnePuxState) : ItemInput * Conv :=
  let '(urls, c) := conv_urls overview (with_report (bump CBankAccounts) (op_conv s)) in
  let parts := op_bank s in
  ({| in_type := BankAccount; in_title := title; in_username := None; in_urls := urls; in_password := Keep;
      in_totp := Keep; in_notes := set_or_keep (onepux_notes notes (extras_render (cv_extras c))); in_content := Keep;
      in_auto_sign_in := None; in_sign_in_with := None; in_identity := None; in_card := None;
      in_bank := Some {| bi_bank := bp_bank parts; bi_holder_name := bp_holder parts;
                         bi_account_type := bp_account_type parts; bi_branch := bp_branch parts;
                         bi_branch_digit := bp_branch_digit parts; bi_account := set_or_keep (bp_account parts);
                         bi_account_digit := set_or_keep (bp_account_digit parts) |};
      in_sections := None; in_tags := Some tags |}, c).

Definition converted_input (category : list Z) (early : list (list Z)) (title : list Z) (notes : option (list Z))
    (tags : list (list Z)) (s : OnePuxState) : ItemInput * Conv :=
  let c := with_report (bump CConverted) (op_conv s) in
  let rendered := extras_render (cv_extras c) in
  let body := lit "Imported from 1Password (" ++ category_name category ++ [41]
                ++ (if bool_decide (early = []) then [] else [10] ++ lit "Website: " ++ join (lit ", ") early)
                ++ (if bool_decide (rendered = []) then [] else [10; 10] ++ rendered)
                ++ from_option (fun n => [10; 10] ++ n) [] notes in
  (note_input title body (sections_finish (cv_sections c)) tags, c).

Definition tags_line (rejected : list (list Z)) (e : Extras) : Extras :=
  if bool_decide (rejected = []) then e
  else extras_push (Some (lit "Tags")) (join (lit ", ") rejected) (extras_section None e).

(** [convert_item].  Its result is always an item. *)
Definition onepux_item (item : json) (r : ImportReport) : ImportedItem * ImportReport :=
  let category := category_of item in
  let overview := jget_or_null "overview" item in
  let details := jget_or_null "details" item in
  let title := title_or (text_at overview "title") None in
  let r := match array_at "passwordHistory" details with Some h => bump_by CHistory (length h) r | None => r end in
  let s := no_state r in
  let '(c, early) := if is_converted category then early_urls overview (op_conv s) else (op_conv s, []) in
  let s := foldl (item_section category) (op_with c s) (default [] (array_at "sections" details)) in
  let '(tags, rejected) := split_tags (tag_names overview) in
  let s := op_with (with_extras (tags_line rejected) (op_conv s)) s in
  let notes := text_at details "notesPlain" in
  let '(input, c) :=
    if is_login category then login_input overview details title notes tags s
    else if one_of ["003"] category then secure_note_input title notes tags s
    else if one_of ["002"] category then credit_card_input overview title notes tags s
    else if one_of ["101"] category then bank_account_input overview title notes tags s
    else converted_input category early title notes tags s in
  ({| ii_input := input; ii_created_at := timestamp_ms item "createdAt"; ii_updated_at := timestamp_ms item "updatedAt" |},
   cv_report c).

Definition is_active (item : json) : bool :=
  from_option (fun s => bool_decide (s = lit "active")) true (str_at item ["state"%string]).

(** The three loops of [convert]. *)
Fixpoint onepux_items (l : list json) (p : Parsed) : Result Parsed :=
  match l with
  | [] => Ok p
  | item :: l =>
      if (MAX_ITEMS <=? length (pa_items p))%nat then Err TOO_MANY_ITEMS
      else if negb (is_active item)
      then onepux_items l {| pa_items := pa_items p; pa_report := bump CArchived (pa_report p) |}
      else
        let '(x, r) := onepux_item item (pa_report p) in
        onepux_items l {| pa_items := pa_items p ++ [x]; pa_report := r |}
  end.

Fixpoint onepux_vaults (l : list json) (p : Parsed) : Result Parsed :=
  match l with
  | [] => Ok p
  | vault :: l =>
      p ← match array_at "items" vault with Some items => onepux_items items p | None => Ok p end;
      onepux_vaults l p
  end.

Fixpoint onepux_accounts (l : list json) (p : Parsed) : Result Parsed :=
  match l with
  | [] => Ok p
  | account :: l =>
      vaults ← ok_or INVALID_ONEPUX (array_at "vaults" account);
      p ← onepux_vaults vaults p;
      onepux_accounts l p
  end.

Definition onepux_convert (root : json) (attachments : nat) : Result Parsed :=
  accounts ← ok_or INVALID_ONEPUX (array_at "accounts" root);
  onepux_accounts accounts {| pa_items := []; pa_report := bump_by CAttachments attachments no_report |}.

(** [export.data] of the archive, capped before and while it is read. *)
Definition export_data (zip : ZipArchive) : Result (list Z) :=
  e ← ok_or INVALID_ONEPUX (by_name zip (lit "export.data"));
  if MAX_EXPORT_DATA_BYTES <? entry_size e then Err TOO_LARGE
  else
    buf ← ok_or INVALID_ONEPUX (entry_read e (MAX_EXPORT_DATA_BYTES + 1));
    if MAX_EXPORT_DATA_BYTES <? len buf then Err TOO_LARGE else Ok buf.

Definition onepux_parse (archive : list Z) : Result Parsed :=
  if MAX_ARCHIVE_BYTES <? len archive then Err TOO_LARGE
  else if MAX_ARCHIVE_ENTRIES <? declared_entries archive then Err (InvalidInput "export file has too many files")
  else
    zip ← ok_or INVALID_ONEPUX (zip_open archive);
    let attachments := length (List.filter (starts_with (lit "files/")) (file_names zip)) in
    data ← export_data zip;
    root ← ok_or INVALID_ONEPUX (json_parse data);
    onepux_convert root attachments.

(** [import::parse]. *)
Definition import_parse (s : ImportSource) (bytes : list Z) : Result Parsed :=
  if max_bytes s <? len bytes then Err TOO_LARGE
  else
    match s with
    | OnePassword => onepux_parse bytes
    | BitwardenJson => bitwarden_parse bytes
    | BitwardenCsv | Chrome | Firefox | KeePassXc | LastPass => csv_parse s bytes
    end.
End OnePux.
