(* ===== verification/ImportFacts.v ===== *)
(** * Imports fit the vault (import/common.rs against custom_field.rs)

    The sections the importers build are within every limit the vault sets:
    the sections of any parsed export are stored as they are.  A Bitwarden
    import drops no value, a CSV import accounts for every row, and the CSV
    export reads back. *)

From S2P Require Import Prelude Errors Text Blob Url Clean Tags Totp Card Identity.
From S2P Require Import CustomField Bank Sso Attachment Model Keys Store Origin Health BuildItem.
From S2P Require Import Vault Items Page ToyCodec Sync Replica Lifecycle System Backup Dates.
From S2P Require Import Import Export ImportCsv ImportBitwarden ImportOnePux.

(** ** Byte lengths *)

Lemma str_len_cons c s : str_len (c :: s) = str_len [c] + str_len s.
Proof. exact (str_len_app [c] s). Qed.

Lemma trim_start_len s : str_len (trim_start s) <= str_len s.
Proof. destruct (trim_start_suffix s) as (p & E & _). rewrite E at 2. rewrite str_len_app. pose proof (str_len_pos p). lia. Qed.

Lemma trim_len s : str_len (trim s) <= str_len s.
Proof.
  unfold trim. destruct (trim_end_prefix (trim_start s)) as [p E]. pose proof (trim_start_len s) as H.
  rewrite E, str_len_app in H. pose proof (str_len_pos p). lia.
Qed.

Lemma clean_value_len v max a w o :
  clean_value v max a w = Ok o -> from_option str_len 0 o <= from_option str_len 0 v.
Proof.
  unfold clean_value. destruct v as [v|]; cbn [from_option]; [|by intros [= <-]].
  destruct (bool_decide _). { intros [= <-]. apply str_len_pos. }
  destruct (_ || _); [done|]. intros [= <-]. apply trim_len.
Qed.

Lemma upper_len s : str_len (map to_ascii_uppercase s) = str_len s.
Proof.
  induction s as [|c s IH]; [done|]. cbn [map]. rewrite str_len_cons, IH, (str_len_cons c s). f_equal.
  unfold to_ascii_uppercase, is_ascii_lower. destruct (in_range 97 122 c) eqn:E; [|done].
  apply in_range_true in E. unfold str_len. rewrite !utf8_ascii by (repeat constructor; lia). done.
Qed.

Lemma filter_str_len (P : Z -> Prop) `{forall x, Decision (P x)} s : str_len (filter P s) <= str_len s.
Proof.
  induction s as [|c s IH]; [done|]. rewrite filter_cons, (str_len_cons c s). pose proof (str_len_pos [c]).
  destruct (decide (P c)); [rewrite (str_len_cons c (filter P s))|]; lia.
Qed.

Lemma normalize_base32_len s : str_len (normalize_base32 s) <= str_len s.
Proof. unfold normalize_base32. rewrite upper_len. apply filter_str_len. Qed.

(** The length of joined lines grows with the lines. *)
Lemma join_cons sep w l : join sep (w :: l) = w ++ match l with [] => [] | _ => sep ++ join sep l end.
Proof. destruct l; [by rewrite app_nil_r|done]. Qed.

(** ** An address and its cleaned form

    [shorter a b]: [a] is part of what [b] is. *)
Definition shorter (a b : option (list Z)) : Prop :=
  match a, b with Some x, Some y => str_len x <= str_len y | None, _ => True | Some _, None => False end.

Lemma clean_value_shorter v max a w o : clean_value v max a w = Ok o -> shorter o v.
Proof.
  intros H. pose proof (clean_value_len _ _ _ _ _ H) as Hl. unfold shorter.
  destruct o as [x|]; [|done]. destruct v as [y|]; [done|]. unfold clean_value in H. done.
Qed.

Lemma pair_lines_shorter a b a' b' sep : shorter a' a -> shorter b' b -> shorter (pair_lines a' sep b') (pair_lines a sep b).
Proof.
  unfold shorter, pair_lines. pose proof (str_len_pos sep) as Hs.
  destruct a as [a|], b as [b|], a' as [a'|], b' as [b'|]; intros H1 H2; try done; rewrite ?str_len_app; try lia.
  - pose proof (str_len_pos b). lia.
  - pose proof (str_len_pos a). lia.
Qed.

Lemma join_somes_len l' l :
  Forall2 shorter l' l -> str_len (join [10] (somes l')) <= str_len (join [10] (somes l)) /\ (somes l = [] -> somes l' = []).
Proof.
  induction 1 as [|x y l' l Hxy _ [IH1 IH2]]; [done|].
  assert (forall w r, str_len (join [10] (w :: r)) = str_len w + match r with [] => 0 | _ => 1 + str_len (join [10] r) end) as Hj.
  { intros w r. rewrite join_cons, str_len_app. destruct r; [done|]. rewrite str_len_app. done. }
  pose proof (str_len_pos (join [10] (somes l))) as Hp.
  change (somes (x :: l')) with (match x with Some w => w :: somes l' | None => somes l' end).
  change (somes (y :: l)) with (match y with Some w => w :: somes l | None => somes l end).
  unfold shorter in Hxy. destruct x as [x|], y as [y|]; try done.
  - rewrite !Hj. split; [|done]. destruct (somes l) eqn:E; [by rewrite IH2; [lia|]|].
    destruct (somes l'); lia.
  - rewrite Hj. split; [|done]. pose proof (str_len_pos y). destruct (somes l) eqn:E; [rewrite (IH2 eq_refl); cbn [join]; change (str_len []) with 0; lia|lia].
Qed.

(** ** Values the vault stores

    The query of a URL decodes to no more bytes than the URL has (the
    [application/x-www-form-urlencoded] parser). *)
Class QueryLaws (UL : UrlLib) : Prop := {
  query_len : forall s u k v, url_parse s = Some u -> (k, v) ∈ url_query_pairs u -> str_len v <= str_len s;
}.

Section Fits.
Context {U : Unicode} {UL : UrlLib} {L : TotpLib} {UW : UrlLaws UL} {QW : QueryLaws UL}.

Lemma scan_params_secret (n : Z) p kvs p' :
  0 <= n -> (forall k v, (k, v) ∈ kvs -> str_len v <= n) ->
  from_option str_len 0 (p_secret p) <= n -> scan_params p kvs = Ok p' -> from_option str_len 0 (p_secret p') <= n.
Proof.
  intros Hn. revert p. induction kvs as [|[k v] kvs IH]; intros p Hk Hp; cbn [scan_params]; [by intros [= <-]|].
  intros (p1 & H1 & H)%bind_Ok. refine (IH p1 _ _ H); [intros k' v' Hin; apply (Hk k'); by right|].
  assert (str_len v <= n) as Hv by (apply (Hk k); left). clear IH H. unfold step_param in H1. cbn [fst snd] in H1.
  destruct (bool_decide _). { injection H1 as <-. cbn. etrans; [apply normalize_base32_len|done]. }
  destruct (bool_decide _). { apply bind_Ok in H1 as (a & _ & H1). by injection H1 as <-. }
  destruct (bool_decide _). { apply bind_Ok in H1 as (a & _ & H1). by injection H1 as <-. }
  destruct (bool_decide _). { apply bind_Ok in H1 as (a & _ & H1). by injection H1 as <-. }
  destruct (bool_decide _); injection H1 as <-; exact Hp.
Qed.

(** A setup's secret is no longer than the text it was read from. *)
Lemma parse_totp_len t c : parse_totp_input t = Ok c -> str_len (secret c) <= str_len t.
Proof.
  unfold parse_totp_input. cbv zeta. destruct (_ <? _); [done|]. pose proof (trim_len t) as Ht.
  destruct (starts_with _ _).
  - unfold parse_otpauth. intros (u & Hu & H)%bind_Ok. apply bind_Ok in H as (_ & _ & H).
    apply bind_Ok in H as (p & Hp & H). destruct (url_parse (trim t)) as [u'|] eqn:Eu; [|done].
    injection Hu as ->. pose proof (str_len_pos (trim t)) as H0.
    pose proof (scan_params_secret _ no_params _ p H0 (fun k v => query_len _ _ k v Eu) H0 Hp) as Hs.
    destruct (match split_once _ _ with Some _ => _ | None => _ end) as [li acc] in H.
    apply bind_Ok in H as (sec & Hsec & H). apply bind_Ok in H as (_ & _ & H). injection H as <-. cbn [secret].
    destruct (p_secret p) as [s|]; [|done]. injection Hsec as ->. cbn in Hs. lia.
  - intros (_ & _ & H)%bind_Ok. injection H as <-. cbn [secret]. pose proof (normalize_base32_len (trim t)). lia.
Qed.

Definition storable (v : FieldValueInput) : Prop :=
  exists x, new_value v None = Ok x /\ byte_len x <= value_bytes v.

Lemma short_len v w x : short v w = Ok x -> str_len x <= str_len v.
Proof.
  unfold short. intros (o & Ho & H)%bind_Ok. injection H as <-. apply clean_value_len in Ho. cbn in Ho.
  destruct o; [done|apply str_len_pos].
Qed.

Lemma address_clean_len a a' : address_clean a = Ok a' -> str_len (address_formatted a') <= str_len (address_formatted a).
Proof.
  unfold address_clean. intros H.
  do 8 (apply bind_Ok in H as (? & ?%clean_value_shorter & H)). injection H as <-.
  unfold address_formatted, address_lines. cbn [a_street a_number a_complement a_neighborhood a_city a_state a_postal_code a_country].
  apply join_somes_len. repeat (constructor; [first [assumption | apply pair_lines_shorter; assumption]|]). constructor.
Qed.

Lemma clean_plain_storable v x : clean_plain v = Ok x -> storable v.
Proof.
  intros H. exists x. assert (new_value v None = clean_plain v) as -> by (destruct v; [done..|by cbn in H|by cbn in H]).
  split; [done|]. destruct v as [v|v|v|v|v|a|u|u]; cbn [clean_plain] in H; cbn [value_bytes].
  - destruct (_ <? _); [done|]. by injection H as <-.
  - destruct (bool_decide _). { injection H as <-. etrans; [apply (str_len_pos v)|apply Z.le_max_r]. }
    apply bind_Ok in H as (u & Hu & H). injection H as <-. rewrite Hu. apply Z.le_max_l.
  - apply bind_Ok in H as (u & Hu & H). injection H as <-. by eapply short_len.
  - apply bind_Ok in H as (u & Hu & H). injection H as <-. by eapply short_len.
  - apply bind_Ok in H as (u & Hu & H). destruct (_ && _); [done|]. injection H as <-. by eapply short_len.
  - apply bind_Ok in H as (u & Hu & H). injection H as <-. by apply address_clean_len.
  - done.
  - done.
Qed.

Lemma validated_storable c fb v : validated c fb = Some v -> storable v.
Proof.
  unfold validated. cbv zeta. match goal with |- (if ?b then _ else _) = _ -> _ => destruct b eqn:E end.
  - intros [= <-]. destruct c as [t|t|t|t|t|a|u|u]; try (destruct (clean_plain _) eqn:Ec in E; [by eapply clean_plain_storable|done]).
    + destruct u as [|p|]; [done| |done]. destruct (check_password p) eqn:Ep in E; [|done].
      exists (VPassword (apply (SetTo p) None)). cbn [new_value is_keep apply]. rewrite andb_false_r.
      pose proof (str_len_pos p). destruct (bool_decide (p = [])); cbn [check_some]; [by split|].
      rewrite Ep. by split.
    + destruct u as [|t|]; [done| |done]. destruct (parse_totp_input t) as [c|] eqn:Ep in E; [|done].
      cbn [new_value is_keep apply_totp]. unfold storable. cbn [new_value is_keep apply_totp]. rewrite andb_false_r.
      destruct (bool_decide (trim t = [])); [exists (VOtp None); split; [done|apply str_len_pos]|].
      rewrite Ep. exists (VOtp (Some c)). split; [done|]. by apply parse_totp_len.
  - destruct fb as [t|]; [|done]. cbn [mbind option_bind]. destruct (clean_plain (FText t)) eqn:Ec; [|done].
    intros [= <-]. by eapply clean_plain_storable.
Qed.

Lemma url_storable u : normalize_url u = Ok u -> storable (FUrl u).
Proof.
  intros H. apply (clean_plain_storable (FUrl u) (VUrl u)). cbn [clean_plain].
  destruct (normalize_url_ok u u H) as (Hne & Ht & _). rewrite Ht, bool_decide_eq_false_2 by done. by rewrite H.
Qed.

(** ** Sections within the limits *)

Definition label_ok (l : list Z) : Prop := forall w, clean_value (Some l) MAX_LABEL_CHARS Line w = Ok (Some l).
Definition title_ok (t : option (list Z)) : Prop := forall w, clean_value t MAX_LABEL_CHARS Line w = Ok t.
Definition field_ok (f : FieldInput) : Prop := i_id f = None /\ label_ok (i_label f) /\ storable (i_value f).
Definition section_ok (s : SectionInput) : Prop := si_id s = None /\ title_ok (si_title s) /\ Forall field_ok (si_fields s).

Definition sum_map {A} (f : A -> Z) (l : list A) : Z := foldr Z.add 0 (map f l).
Definition field_bytes (f : FieldInput) : Z := str_len (i_label f) + value_bytes (i_value f).
Definition section_bytes (s : SectionInput) : Z := from_option str_len 0 (si_title s) + sum_map field_bytes (si_fields s).
Definition has_fields (s : SectionInput) : bool := negb (bool_decide (length (si_fields s) = 0%nat)).
Definition field_total (l : list SectionInput) : nat := foldr Nat.add 0%nat (map (fun s => length (si_fields s)) l).

Record fits (s : ItemSections) : Prop := {
  fit_ok : Forall section_ok (is_sections s);
  fit_count : is_count s = field_total (is_sections s);
  fit_fields : (is_count s <= MAX_FIELDS)%nat;
  fit_sections : (length (List.filter has_fields (is_sections s)) <= MAX_SECTIONS)%nat;
  fit_total : sum_map section_bytes (List.filter has_fields (is_sections s)) <= MAX_TOTAL_BYTES;
  fit_bytes : sum_map section_bytes (is_sections s) <= is_bytes s;
}.

Lemma sum_map_app {A} (f : A -> Z) l k : sum_map f (l ++ k) = sum_map f l + sum_map f k.
Proof. induction l as [|x l IH]; [done|]. unfold sum_map in *. cbn. rewrite IH. lia. Qed.

Lemma sum_map_le {A} (f g : A -> Z) l : Forall (fun x => f x <= g x) l -> sum_map f l <= sum_map g l.
Proof. induction 1 as [|x l Hx _ IH]; [done|]. unfold sum_map in *. cbn. lia. Qed.

Lemma field_total_app l k : field_total (l ++ k) = (field_total l + field_total k)%nat.
Proof. induction l as [|x l IH]; [done|]. unfold field_total in *. cbn. rewrite IH. lia. Qed.

Lemma value_bytes_pos v : 0 <= value_bytes v.
Proof.
  destruct v as [v|v|v|v|v|a|[|v|]|[|v|]]; cbn; try apply str_len_pos; try done.
  pose proof (str_len_pos v). lia.
Qed.

Lemma section_bytes_pos s : 0 <= section_bytes s.
Proof.
  unfold section_bytes. assert (0 <= sum_map field_bytes (si_fields s)).
  { induction (si_fields s) as [|f l IH]; [done|]. unfold sum_map in *. cbn. unfold field_bytes at 1.
    pose proof (str_len_pos (i_label f)). pose proof (value_bytes_pos (i_value f)). lia. }
  destruct (si_title s) as [t|]; cbn; [pose proof (str_len_pos t)|]; lia.
Qed.

Lemma bytes_filter l : sum_map section_bytes (List.filter has_fields l) <= sum_map section_bytes l.
Proof.
  induction l as [|s l IH]; [done|]. cbn [List.filter]. pose proof (section_bytes_pos s).
  destruct (has_fields s); unfold sum_map in *; cbn; lia.
Qed.

Lemma filter_controls s c : c ∈ List.filter (fun c => negb (is_control c)) s -> is_control c = false.
Proof. rewrite list_elem_of_In, filter_In. by intros [_ H%negb_true_iff]. Qed.

Lemma trim_elem c s : c ∈ trim s -> c ∈ s.
Proof.
  intros H. unfold trim in H. destruct (trim_end_prefix (trim_start s)) as [p E].
  destruct (trim_start_suffix s) as (q & E' & _). rewrite E', E. apply elem_of_app. right. apply elem_of_app. by left.
Qed.

Lemma trim_length s : (length (trim s) <= length s)%nat.
Proof.
  unfold trim. destruct (trim_end_prefix (trim_start s)) as [p E]. destruct (trim_start_suffix s) as (q & E' & _).
  apply (f_equal length) in E, E'. rewrite length_app in E, E'. lia.
Qed.

Lemma clean_line_ok s : clean_line s MAX_LABEL_CHARS <> [] -> label_ok (clean_line s MAX_LABEL_CHARS).
Proof.
  intros Hne w. unfold clean_value. unfold clean_line in *. set (t := take _ _) in *. rewrite trim_idem.
  rewrite bool_decide_eq_false_2 by done.
  assert (length (trim t) <= MAX_LABEL_CHARS)%nat as Hl.
  { etrans; [apply trim_length|]. unfold t. rewrite length_take. lia. }
  rewrite (proj2 (Nat.ltb_ge _ _)) by done. cbn [orb allowed].
  assert (existsb is_control (trim t) = false) as ->; [|done].
  apply not_true_is_false. intros (c & Hc & Hi)%existsb_exists. apply list_elem_of_In, trim_elem in Hc.
  unfold t in Hc. apply elem_of_take in Hc as (i & Hc & _). apply list_elem_of_lookup_2 in Hc.
  apply filter_controls in Hc. congruence.
Qed.

Lemma clean_some_ok o l : clean_some MAX_LABEL_CHARS o = Some l -> label_ok l.
Proof.
  unfold clean_some. destruct o as [s|]; [|done]. case_bool_decide as E; [done|]. intros [= <-]. by apply clean_line_ok.
Qed.

Lemma default_label_ok k : label_ok (default_label k).
Proof. intros w. by destruct k. Qed.

Lemma no_sections_fits : fits no_sections.
Proof. split; try done; cbn; unfold MAX_FIELDS, MAX_SECTIONS; lia. Qed.

Lemma start_fits t s : fits s -> fits (sections_start t s).
Proof.
  intros []. unfold sections_start. cbv zeta. set (t' := clean_some _ _).
  assert (title_ok t') as Ht.
  { intros w. unfold t'. destruct (clean_some _ _) eqn:E; [by eapply clean_some_ok|done]. }
  split; cbn [is_sections is_count is_bytes].
  - apply Forall_app. split; [done|]. repeat constructor. exact Ht.
  - rewrite field_total_app, fit_count0. unfold field_total at 3. cbn. lia.
  - done.
  - rewrite List.filter_app. cbn [List.filter has_fields]. rewrite app_nil_r. exact fit_sections0.
  - rewrite List.filter_app. cbn [List.filter has_fields]. rewrite app_nil_r. exact fit_total0.
  - rewrite sum_map_app. apply Z.add_le_mono; [done|]. unfold section_bytes, sum_map. cbn. lia.
Qed.

Lemma push_fits l v s : storable v -> fits s -> fits (sections_push l v s).1.
Proof.
  intros Hv Hs. pose proof Hs as []. unfold sections_push. cbv zeta. fold has_fields.
  destruct (last (is_sections s)) as [sec|] eqn:El; [|done]. destruct (_ || _) eqn:Efull; [done|].
  apply orb_false_iff in Efull as [Hc%Nat.leb_gt Hu].
  destruct (Z.ltb_spec MAX_TOTAL_BYTES (is_bytes s + (str_len (default (default_label (input_kind v)) (clean_some MAX_LABEL_CHARS (non_empty l))) + value_bytes v))); [done|].
  set (label := default _ _) in *.
  assert (label_ok label) as Hlab.
  { unfold label. destruct (clean_some _ _) eqn:E; [by eapply clean_some_ok|apply default_label_ok]. }
  apply last_Some in El as [front Ef]. rewrite Ef in *. rewrite removelast_last. cbn [fst].
  rewrite Forall_app, Forall_singleton in fit_ok0. destruct fit_ok0 as [Hfr (Hid & Htt & Hff)].
  set (sec' := {| si_id := _; si_title := _; si_fields := _ |}).
  assert (section_bytes sec' = section_bytes sec + (str_len label + value_bytes v)) as Hb.
  { unfold section_bytes, sec'. cbn [si_title si_fields]. rewrite sum_map_app. unfold sum_map at 2, field_bytes at 2.
    cbn [map foldr i_label i_value]. lia. }
  assert (has_fields sec' = true) as Hh.
  { unfold has_fields, sec'. cbn [si_fields]. rewrite length_app. apply negb_true_iff, bool_decide_eq_false. cbn. lia. }
  rewrite List.filter_app, length_app in fit_sections0. rewrite List.filter_app, length_app in Hu.
  change (negb (bool_decide (length (si_fields sec) = 0%nat))) with (has_fields sec) in Hu.
  rewrite sum_map_app in fit_bytes0. unfold sum_map at 2 in fit_bytes0. cbn [map foldr] in fit_bytes0.
  rewrite field_total_app in fit_count0. unfold field_total at 2 in fit_count0. cbn [map foldr] in fit_count0.
  split; cbn [is_sections is_count is_bytes].
  - apply Forall_app. split; [done|]. constructor; [|done]. split; [done|]. split; [done|].
    apply Forall_app. split; [done|]. by repeat constructor.
  - rewrite field_total_app. unfold field_total at 2, sec'. cbn [map foldr si_fields]. rewrite length_app. cbn [length]. lia.
  - lia.
  - rewrite List.filter_app, length_app. cbn [List.filter] in *. rewrite Hh. cbn [length].
    destruct (has_fields sec); cbn [length andb negb] in *; [lia|]. apply Nat.leb_gt in Hu. lia.
  - etrans; [apply bytes_filter|]. rewrite sum_map_app. unfold sum_map at 2. cbn [map foldr]. lia.
  - rewrite sum_map_app. unfold sum_map at 2. cbn [map foldr]. lia.
Qed.

(** ** They are stored as they are *)

Definition stored_field (i : FieldInput) (f : CustomField) : Prop :=
  f_label f = i_label i /\ new_value (i_value i) None = Ok (f_value f).
Definition stored_section (i : SectionInput) (s : FieldSection) : Prop :=
  s_title s = si_title i /\ Forall2 stored_field (si_fields i) (s_fields s).

Section Accepted.
Variable new_id : nat -> Z.

Lemma apply_field_fits i s : field_ok i ->
  exists s' f, apply_field new_id i s = (s', Ok f) /\ stored_field i f /\ str_len (f_label f) + byte_len (f_value f) <= field_bytes i.
Proof.
  intros (Hid & Hl & x & Hx & Hb). unfold apply_field. rewrite Hid.
  eexists _, {| f_id := new_id (drawn s); f_label := i_label i; f_value := x |}.
  rewrite (run_bind _ _ _ _ (new_id (drawn s), None)) by done. cbn [kind_changed].
  rewrite Hl, run_mlift. cbn [ok_or]. rewrite run_mlift, Hx, run_mlift.
  split; [done|]. split; [done|]. unfold field_bytes. cbn [f_label f_value]. lia.
Qed.

Definition field_len (f : CustomField) : Z := str_len (f_label f) + byte_len (f_value f).

Lemma apply_fields_fits l s : Forall field_ok l ->
  exists s' fs, apply_fields new_id l s = (s', Ok fs) /\ Forall2 stored_field l fs /\ sum_map field_len fs <= sum_map field_bytes l.
Proof.
  intros H. revert s. induction H as [|i l Hi _ IH]; intros s; [by exists s, []|].
  destruct (apply_field_fits i s Hi) as (s1 & f & E1 & Hf & Hb). destruct (IH s1) as (s2 & fs & E2 & Hfs & Hbs).
  exists s2, (f :: fs). cbn [apply_fields]. rewrite (run_bind _ _ _ _ _ E1), (run_bind _ _ _ _ _ E2).
  split; [done|]. split; [by constructor|]. unfold sum_map in *. cbn [map foldr]. unfold field_len at 1. lia.
Qed.

Definition section_len (s : FieldSection) : Z :=
  match s_title s with Some t => str_len t | None => 0 end + sum_map field_len (s_fields s).

Lemma apply_each_fits l s : Forall section_ok l ->
  exists s' out, apply_each new_id l s = (s', Ok out) /\ Forall2 stored_section l out /\
    sum_map section_len out <= sum_map section_bytes l.
Proof.
  intros H. revert s. induction H as [|i l (Hid & Ht & Hf) _ IH]; intros s; [by exists s, []|].
  destruct (apply_fields_fits (si_fields i) {| section_ids := section_ids s; prior := prior s; drawn := S (drawn s) |} Hf)
    as (s1 & fs & E1 & Hfs & Hb).
  destruct (IH s1) as (s2 & out & E2 & Hout & Hbs).
  exists s2, ({| s_id := new_id (drawn s); s_title := si_title i; s_fields := fs |} :: out).
  cbn [apply_each]. unfold apply_section. rewrite Hid.
  rewrite (run_bind _ _ s s1 {| s_id := new_id (drawn s); s_title := si_title i; s_fields := fs |}).
  - rewrite (run_bind _ _ _ _ _ E2). split; [done|]. split; [by repeat constructor|].
    unfold sum_map in *. cbn [map foldr]. unfold section_len at 1, section_bytes at 1, sum_map. cbn [s_title s_fields].
    destruct (si_title i); cbn [from_option]; lia.
  - rewrite (run_bind _ _ _ _ (new_id (drawn s))) by done. rewrite Ht, run_mlift. by rewrite (run_bind _ _ _ _ _ E1).
Qed.

Lemma total_bytes_sum out : total_bytes out = sum_map section_len out.
Proof. done. Qed.

Lemma fits_accepted s : fits s ->
  exists out, apply_sections new_id (sections_finish s) [] = Ok out /\
    Forall2 stored_section (List.filter has_fields (is_sections s)) out.
Proof.
  intros []. unfold sections_finish. fold has_fields. destruct (Nat.eqb_spec (length (List.filter has_fields (is_sections s))) 0) as [E|E].
  { apply nil_length_inv in E. rewrite E. exists []. by split. }
  set (l := List.filter has_fields (is_sections s)) in *. cbn [apply_sections].
  rewrite (proj2 (Nat.ltb_ge _ _)) by done.
  assert (field_total l <= field_total (is_sections s))%nat as Hft.
  { unfold l. clear. induction (is_sections s) as [|x k IH]; [done|]. cbn [List.filter].
    destruct (has_fields x); unfold field_total in *; cbn; lia. }
  fold (field_total l). rewrite (proj2 (Nat.ltb_ge _ _)) by lia.
  assert (Forall section_ok l) as Hl.
  { unfold l. apply Forall_forall. intros x (Hx & _)%list_elem_of_In%filter_In. eapply Forall_forall; [exact fit_ok0|].
    by apply list_elem_of_In. }
  match goal with |- context [apply_each _ _ ?st] => destruct (apply_each_fits l st Hl) as (s' & out & E1 & Hout & Hb) end.
  exists out. rewrite E1. cbn [snd mbind result_bind]. rewrite total_bytes_sum, (proj2 (Z.ltb_ge _ _)) by lia. by split.
Qed.
End Accepted.

(** ** Every importer builds such sections *)

Definition conv_fits (c : Conv) : Prop := fits (cv_sections c).
Definition input_fits (i : ItemInput) : Prop :=
  exists s, fits s /\ in_sections i = sections_finish s /\ check_shape i = Ok ().
Definition item_fits (x : ImportedItem) : Prop := input_fits (ii_input x).

Lemma no_sections_input i : in_sections i = None -> check_shape i = Ok () -> input_fits i.
Proof. intros E Hs. exists no_sections. split; [apply no_sections_fits|]. by rewrite E. Qed.

Lemma foldl_keeps {A B} (P : A -> Prop) (f : A -> B -> A) l a :
  (forall a b, P a -> P (f a b)) -> P a -> P (foldl f a l).
Proof. intros Hf. revert a. induction l as [|b l IH]; intros a Ha; [done|]. by apply IH, Hf. Qed.

Lemma collect_urls_normal raw r e :
  Forall (fun x => normalize_url (Model.url x) = Ok (Model.url x)) (collect_urls raw r e).1.1.
Proof.
  unfold collect_urls. apply (foldl_keeps (fun a : list UrlRule * ImportReport * Extras =>
    Forall (fun x => normalize_url (Model.url x) = Ok (Model.url x)) a.1.1)); [|done].
  intros [[out r'] e'] [u m] H. cbn [fst] in H. unfold add_url. cbn [fst snd]. case_bool_decide; [done|].
  destruct (normalize_url (trim u)) as [n|] eqn:En; [|done]. destruct (_ && _); [|done]. cbn [fst].
  apply Forall_app. split; [done|]. repeat constructor. cbn [Model.url]. apply normalize_url_ok in En. tauto.
Qed.

Lemma keep_field_fits l v fb c : conv_fits c -> conv_fits (keep_field l v fb c).1.
Proof.
  intros H. unfold keep_field. destruct (validated v fb) as [x|] eqn:E; [|done]. apply validated_storable in E.
  pose proof (push_fits l x (cv_sections c) E H) as Hp. by destruct (sections_push l x (cv_sections c)).
Qed.

Ltac kept_field H := match goal with |- context [keep_field ?l ?v ?fb ?c] =>
  let K := fresh "K" in pose proof (keep_field_fits l v fb c H) as K; destruct (keep_field l v fb c) as [? []]; exact K end.

Lemma custom_section_fits c f : conv_fits c -> conv_fits (custom_section c f).
Proof.
  intros H. unfold custom_section. destruct (text_at f "value"); [|done]. cbv zeta.
  destruct (i64_at "type" f) as [n|]; [|kept_field H]. destruct (n =? 1); [kept_field H|].
  destruct (n =? 3); [done|kept_field H].
Qed.

Lemma custom_sections_fits l c : conv_fits c -> conv_fits (custom_sections l c).
Proof. apply foldl_keeps, custom_section_fits. Qed.

Lemma other_value_fits c kv : conv_fits c -> conv_fits (other_value c kv).
Proof. intros H. unfold other_value. destruct (non_empty _); [|done]. cbv zeta. destruct (bool_decide _); kept_field H. Qed.

Lemma start_section_fits t c : conv_fits c -> conv_fits (start_section t c).
Proof. apply start_fits. Qed.

(** ** Bitwarden *)

Lemma convert_login_fits item title notes custom tags c :
  conv_fits c -> input_fits (convert_login item title notes custom tags c).1.
Proof.
  intros H. unfold convert_login. cbv zeta.
  set (c1 := match array_at "fido2Credentials" _ with Some _ => _ | None => _ end).
  assert (conv_fits c1) as H1 by (unfold c1; by destruct (array_at _ _)). clearbody c1.
  destruct (collect_urls _ _ _) as [[urls r] e].
  set (c2 := {| cv_sections := cv_sections c1; cv_extras := e; cv_report := r |}).
  assert (conv_fits (bw_totp (text_at (jget_or_null "login" item) "totp") c2).2) as H2.
  { unfold bw_totp. destruct (text_at _ _); [|done]. by destruct (is_ok _). }
  destruct (bw_totp _ c2) as [totp c3]. eexists. split; [|done].
  by apply (custom_sections_fits custom (start_section None c3)), start_section_fits.
Qed.

Lemma convert_other_fits kind item title notes custom tags c :
  conv_fits c -> input_fits (convert_other kind item title notes custom tags c).1.
Proof.
  intros H. unfold convert_other. cbv zeta. eexists. split; [|done].
  apply (custom_sections_fits custom), start_section_fits.
  destruct (jget _ item) as [[]|]; try by apply start_section_fits. by apply (foldl_keeps conv_fits), start_section_fits;
    [apply other_value_fits|].
Qed.

Lemma bw_item_fits folders item r x r' : bw_convert_item folders item r = (Some x, r') -> item_fits x.
Proof.
  unfold bw_convert_item. destruct (is_object item); [|done]. cbn [negb]. cbv zeta.
  destruct (split_tags _) as [tags rejected].
  match goal with |- context [convert_login _ _ _ _ _ ?c0] => set (c := c0) end.
  assert (conv_fits c) as H by apply no_sections_fits. clearbody c. unfold item_fits.
  destruct (_ =? 1).
  { pose proof (convert_login_fits item (bw_title item) (text_at item "notes") (default [] (array_at "fields" item)) tags c H) as Hf.
    destruct (convert_login _ _ _ _ _ c). by intros [= <- <-]. }
  destruct (_ =? 2).
  { intros [= <- <-]. eexists. split; [|done].
    by apply (custom_sections_fits (default [] (array_at "fields" item)) (start_section None c)), start_section_fits. }
  destruct (_ =? 3).
  { unfold convert_card. destruct (card_input _ _) as [card e]. intros [= <- <-]. by apply no_sections_input. }
  match goal with |- context [convert_other ?k ?i ?t ?n ?cu ?tg c] => pose proof (convert_other_fits k i t n cu tg c H) as Hf end.
  destruct (convert_other _ _ _ _ _ _ c). by intros [= <- <-].
Qed.

Lemma bw_items_fits folders l items r : Forall item_fits items -> Forall item_fits (pa_items (bw_items folders l items r)).
Proof.
  revert items r. induction l as [|item l IH]; intros items r H; [done|]. cbn [bw_items].
  destruct (from_option _ _ _); [by apply IH|]. destruct (bw_convert_item folders item r) as [[x|] r'] eqn:E; [|by apply IH].
  apply IH, Forall_app. split; [done|]. repeat constructor. by eapply bw_item_fits.
Qed.

(** ** CSV *)

Lemma convert_row_fits s row r x r' : convert_row s row r = (Some x, r') -> item_fits x.
Proof.
  assert (forall f r, item_fits (csv_login f r).1) as Hl.
  { intros f r0. unfold csv_login. destruct (collect_urls _ _ _) as [[urls r1] e]. destruct (row_totp _ _ _) as [[totp r2] e'].
    destruct (tags_of_folder _). by apply no_sections_input. }
  assert (forall t c m a b f r, item_fits (csv_note t c m a b f r).1) as Hn.
  { intros. unfold csv_note. destruct (tags_of_folder _). by apply no_sections_input. }
  assert (forall (y : ImportedItem * ImportReport), item_fits y.1 -> (Some y.1, y.2) = (Some x, r') -> item_fits x) as Hs
    by (by intros y Hy [= <- _]).
  unfold convert_row. cbv zeta. destruct s; try done; try apply Hs, Hl.
  - destruct (bool_decide _); [apply Hs, Hn|]. destruct (bool_decide _); [apply Hs, Hl|done].
  - destruct (keepass_note _); [apply Hs, Hn|apply Hs, Hl].
  - destruct (bool_decide _); [apply Hs, Hn|apply Hs, Hl].
Qed.

Lemma csv_rows_fits s cols w reads items r p :
  csv_rows s cols w reads items r = Ok p -> Forall item_fits items -> Forall item_fits (pa_items p).
Proof.
  revert items r. induction reads as [|rd reads IH]; intros items r; cbn [csv_rows]; [by intros [= <-]|].
  destruct rd as [fields| |]; [|done|apply IH]. destruct (is_blank_record fields); [apply IH|].
  destruct (_ <=? _)%nat; [done|]. destruct (negb _); [apply IH|]. destruct (mapM _ _) as [fs|]; [|apply IH].
  destruct (convert_row _ _ _) as [[x|] r'] eqn:E; [|apply IH]. intros H Hi. eapply IH; [exact H|].
  apply Forall_app. split; [done|]. repeat constructor. by eapply convert_row_fits.
Qed.

(** ** 1Password *)

Lemma note_field_fits l v c : conv_fits c -> conv_fits (note_field l v c).
Proof. intros H. unfold note_field, render_value. by destruct (render_text v). Qed.

Lemma section_field_fits category s f : conv_fits (op_conv s) -> conv_fits (op_conv (section_field category s f)).
Proof.
  intros H. unfold section_field. cbv zeta.
  destruct (if one_of ["002"] category then _ else _) as [card t1]. destruct (if one_of ["101"] category then _ else _) as [bank t2].
  destruct (t1 || t2); [done|]. cbn [op_conv op_totp op_sso op_card op_bank].
  destruct (if is_login category && bool_decide (op_totp s = None) then _ else None); [done|].
  destruct (if is_login category && bool_decide (op_sso s = None) then _ else None); [done|].
  destruct (if takes_fields category then _ else None) as [v|] eqn:E; [|by apply note_field_fits].
  destruct (takes_fields category); [|done]. assert (storable v) as Hv.
  { unfold custom_field_from in E. destruct (value_entry _) as [[kind x]|]; [|done]. cbn [mbind option_bind] in E.
    match type of E with (?o ≫= _) = _ => destruct o as [cand|]; [|done] end. by apply validated_storable in E. }
  pose proof (push_fits (str_at f ["title"%string]) v (cv_sections (op_conv s)) Hv H) as Hp.
  destruct (sections_push _ v _) as [sec []]; cbn [op_conv op_with]; [exact Hp|]. by apply note_field_fits.
Qed.

Lemma item_section_fits category s x : conv_fits (op_conv s) -> conv_fits (op_conv (item_section category s x)).
Proof.
  intros H. unfold item_section. cbv zeta. apply (foldl_keeps (fun s => conv_fits (op_conv s))).
  - intros s' f. apply section_field_fits.
  - cbn [op_conv op_with]. destruct (takes_fields category); [by apply start_section_fits|done].
Qed.

Lemma onepux_urls_normal o r e :
  Forall (fun x => normalize_url (Model.url x) = Ok (Model.url x)) (onepux_urls o r e).1.1.
Proof. apply collect_urls_normal. Qed.

Lemma early_urls_fits o c : conv_fits c -> conv_fits (early_urls o c).1.
Proof.
  intros H. unfold early_urls. cbv zeta. set (c1 := start_section None c).
  assert (conv_fits c1) as H1 by by apply start_section_fits. clearbody c1.
  pose proof (onepux_urls_normal o (cv_report c1) (cv_extras c1)) as Hn.
  destruct (onepux_urls _ _ _) as [[urls r] e]. cbn [fst] in Hn.
  assert (forall acc : Conv * list (list Z), conv_fits acc.1 -> conv_fits (foldl early_url acc urls).1) as Hf.
  { induction Hn as [|u urls Hu _ IH]; intros acc Ha; [done|]. apply IH. destruct acc as [c2 early]. cbn [fst] in Ha.
    unfold early_url. pose proof (push_fits (Some (lit "Website")) _ (cv_sections c2) (url_storable _ Hu) Ha) as Hp.
    by destruct (sections_push _ _ _). }
  by apply Hf.
Qed.

Lemma login_fields_fits l c : conv_fits c -> conv_fits (login_fields l c).2.
Proof.
  intros H. unfold login_fields. destruct (foldl designated _ l) as [u p].
  apply (foldl_keeps (fun a : option (list Z) * option (list Z) * Conv => conv_fits a.2)); [|done].
  intros [[u' p'] c'] f Hc. cbn [snd] in Hc. unfold form_field. destruct (text_at f "value"); [|done].
  destruct (from_option _ _ _); [done|]. cbv zeta. destruct (bool_decide (u' = None) && _); [done|].
  destruct (bool_decide (p' = None) && _); [done|]. destruct (negb _); [|done].
  match goal with |- context [keep_field ?l ?v ?fb c'] => pose proof (keep_field_fits l v fb c' Hc) as K; destruct (keep_field l v fb c') as [? []] end;
  exact K.
Qed.

Lemma onepux_item_fits item r : item_fits (onepux_item item r).1.
Proof.
  unfold onepux_item. cbv zeta. set (category := category_of item). set (overview := jget_or_null "overview" item).
  set (details := jget_or_null "details" item). set (title := title_or _ None). set (s0 := no_state _).
  assert (conv_fits (op_conv s0)) as H0 by apply no_sections_fits.
  pose proof (early_urls_fits overview _ H0) as He.
  assert (exists c early, (if is_converted category then early_urls overview (op_conv s0) else (op_conv s0, [])) = (c, early) /\ conv_fits c)
    as (c & early & -> & Hc).
  { destruct (is_converted category); [|exists (op_conv s0), []; by split].
    destruct (early_urls overview (op_conv s0)) as [c early]. exists c, early. by split. }
  set (s1 := foldl (item_section category) _ _).
  assert (conv_fits (op_conv s1)) as H1.
  { apply (foldl_keeps (fun s => conv_fits (op_conv s))); [intros s x; apply item_section_fits|exact Hc]. }
  destruct (split_tags _) as [tags rejected]. set (s2 := op_with _ s1).
  assert (conv_fits (op_conv s2)) as H2 by exact H1. clearbody s2. clear s1 H1.
  set (notes := text_at details "notesPlain"). unfold item_fits.
  assert (forall x : ItemInput * Conv, input_fits x.1 -> input_fits (ii_input (let '(input, c) := x in
    ({| ii_input := input; ii_created_at := timestamp_ms item "createdAt"; ii_updated_at := timestamp_ms item "updatedAt" |}, cv_report c)).1))
    as Hx by by intros [].
  apply Hx. clear Hx. destruct (is_login category).
  { unfold login_input. pose proof (start_section_fits None _ H2) as H3.
    assert (exists u p c', match array_at "loginFields" details with Some form => login_fields form (start_section None (op_conv s2))
              | None => (None, None, start_section None (op_conv s2)) end = (u, p, c') /\ conv_fits c') as (u & p & c' & -> & H4).
    { destruct (array_at "loginFields" details) as [form|]; [|exists None, None, (start_section None (op_conv s2)); split; [reflexivity|exact H3]]. pose proof (login_fields_fits form _ H3) as Hl.
      destruct (login_fields _ _) as [[u p] c']. exists u, p, c'. split; [reflexivity|exact Hl]. }
    unfold conv_urls. destruct (onepux_urls _ _ _) as [[urls r1] e]. eexists. split; [|done]. exact H4. }
  destruct (one_of ["003"] category); [exists (cv_sections (op_conv s2)); by split|].
  destruct (one_of ["002"] category).
  { unfold credit_card_input. destruct (conv_urls _ _). by apply no_sections_input. }
  destruct (one_of ["101"] category).
  { unfold bank_account_input. destruct (conv_urls _ _). by apply no_sections_input. }
  exists (cv_sections (op_conv s2)). by split.
Qed.

Definition parsed_fits (p : Parsed) : Prop := Forall item_fits (pa_items p).

Lemma onepux_items_fits l p p' : onepux_items l p = Ok p' -> parsed_fits p -> parsed_fits p'.
Proof.
  revert p. induction l as [|item l IH]; intros p; cbn [onepux_items]; [by intros [= <-]|].
  destruct (_ <=? _)%nat; [done|]. destruct (negb _); [intros H Hp; by apply (IH _ H)|].
  pose proof (onepux_item_fits item (pa_report p)) as Hx. destruct (onepux_item item (pa_report p)) as [x r].
  intros H Hp. apply (IH _ H). apply Forall_app. split; [exact Hp|]. by repeat constructor.
Qed.

Lemma onepux_vaults_fits l p p' : onepux_vaults l p = Ok p' -> parsed_fits p -> parsed_fits p'.
Proof.
  revert p. induction l as [|v l IH]; intros p; cbn [onepux_vaults]; [by intros [= <-]|].
  intros (p1 & H1 & H)%bind_Ok Hp. apply (IH _ H). destruct (array_at _ v); [by eapply onepux_items_fits|].
  by injection H1 as <-.
Qed.

Lemma onepux_accounts_fits l p p' : onepux_accounts l p = Ok p' -> parsed_fits p -> parsed_fits p'.
Proof.
  revert p. induction l as [|a l IH]; intros p; cbn [onepux_accounts]; [by intros [= <-]|].
  intros (vaults & _ & H)%bind_Ok Hp. apply bind_Ok in H as (p1 & H1 & H). apply (IH _ H). by eapply onepux_vaults_fits.
Qed.

Section Parse.
Context {JT : JsonText} {ZL : ZipLib} {CL : CsvLib}.

Lemma import_parse_fits s bytes p : import_parse s bytes = Ok p -> parsed_fits p.
Proof.
  unfold import_parse. destruct (_ <? _); [done|].
  assert (csv_parse s bytes = Ok p -> parsed_fits p) as Hcsv.
  { unfold csv_parse. cbv zeta. destruct (bool_decide _); [done|]. destruct (csv_reads _) as [|[] reads]; try done.
    intros (names & _ & H)%bind_Ok. destruct (negb _); [done|]. eapply csv_rows_fits; [exact H|by apply Forall_nil]. }
  destruct s; try exact Hcsv.
  - unfold onepux_parse. destruct (_ <? _); [done|]. destruct (_ <? _); [done|].
    intros (zip & _ & H)%bind_Ok. apply bind_Ok in H as (data & _ & H). apply bind_Ok in H as (root & _ & H).
    unfold onepux_convert in H. apply bind_Ok in H as (accounts & _ & H). eapply onepux_accounts_fits; [exact H|by apply Forall_nil].
  - unfold bitwarden_parse. intros (root & _ & H)%bind_Ok. unfold bw_convert in H. destruct (bool_decide _); [done|].
    apply bind_Ok in H as (l & _ & H). destruct (_ <? _)%nat; [done|]. injection H as <-. apply bw_items_fits. by apply Forall_nil.
Qed.

(** Whatever a file of another password manager holds, every item parsed
    from it has the shape of its type, and its custom fields are within the
    limits of the vault: saving the item stores every section of it that has
    a field, with its title, and every field with its label and value, and
    refuses none. *)
Lemma import_sections_stored new_id source bytes p x :
  import_parse source bytes = Ok p -> x ∈ pa_items p ->
  check_shape (ii_input x) = Ok () /\
  exists out, apply_sections new_id (in_sections (ii_input x)) [] = Ok out /\
    Forall2 stored_section (default [] (in_sections (ii_input x))) out.
Proof.
  intros H Hx. apply import_parse_fits in H. unfold parsed_fits in H. rewrite Forall_forall in H.
  destruct (H x Hx) as (s & Hs & E & Hsh). split; [done|]. rewrite E. destruct (fits_accepted new_id s Hs) as (out & E1 & E2).
  exists out. split; [done|]. unfold sections_finish. fold has_fields.
  destruct (Nat.eqb_spec (length (List.filter has_fields (is_sections s))) 0) as [E0|]; [|done].
  apply nil_length_inv in E0. by rewrite E0 in E2.
Qed.
End Parse.
End Fits.

(** ** A concrete export *)

Module ToyBitwarden.
Import ToyUnicode ToyUrl ToyTotp.

#[export] Instance query_laws : QueryLaws url_lib.
Proof. split. intros s u k v _ H. by apply not_elem_of_nil in H. Qed.

Definition str_entry (k v : string) : list Z * json := (lit k, JStr (lit v)).
Definition bw_field (k v : string) (t : Z) : json := JObj [str_entry "name" k; (lit "type", JInt t); str_entry "value" v].
Definition website (u : string) : json := JObj [str_entry "uri" u].

(** A login in a folder, with a PIN and a linked field, and a passport. *)
Definition document : json :=
  JObj [(lit "encrypted", JBool false);
        (lit "folders", JArr [JObj [str_entry "id" "f"; str_entry "name" "Work"]]);
        (lit "items", JArr [
          JObj [str_entry "folderId" "f"; str_entry "name" "Site"; (lit "type", JInt 1);
                (lit "login", JObj [str_entry "username" "me"; str_entry "password" "secret";
                                    (lit "uris", JArr [website "https://site.example"; website "bare"])]);
                (lit "fields", JArr [bw_field "PIN" "4711" 1; bw_field "User" "x" 3; bw_field "" "kept" 0])];
          JObj [str_entry "name" "Me"; (lit "type", JInt 4); str_entry "notes" "mine";
                (lit "identity", JObj [str_entry "firstName" "Sam"; str_entry "passportNumber" "X1"])]])].

#[export] Instance json_text : JsonText := fun bytes => if bool_decide (bytes = lit "{..}") then Some document else None.
#[export] Instance no_zip : ZipLib := fun _ => None.
#[export] Instance no_csv : CsvLib := fun _ => [].

Definition read : Parsed :=
  match import_parse BitwardenJson (UTF8_BOM ++ lit "{..}") with Ok p => p | Err _ => {| pa_items := []; pa_report := no_report |} end.
Definition login_item : ImportedItem := nth 0 (pa_items read) {| ii_input := blank Login []; ii_created_at := None; ii_updated_at := None |}.

Lemma import_sections_stored_witness :
  import_parse BitwardenJson (UTF8_BOM ++ lit "{..}") = Ok read /\
  map (fun s => map (fun f => (i_label f, i_value f)) (si_fields s)) (default [] (in_sections (ii_input login_item)))
    = [[(lit "PIN", FPassword (SetTo (lit "4711"))); (lit "Text", FText (lit "kept"))]] /\
  (r_logins (pa_report read), converted_to_notes (pa_report read)) = (1%nat, 1%nat) /\
  exists out, apply_sections (fun k => Z.of_nat k) (in_sections (ii_input login_item)) [] = Ok out.
Proof.
  assert (import_parse BitwardenJson (UTF8_BOM ++ lit "{..}") = Ok read) as E by (vm_compute; reflexivity).
  split; [exact E|]. split; [vm_compute; reflexivity|]. split; [vm_compute; reflexivity|].
  destruct (import_sections_stored (fun k => Z.of_nat k) BitwardenJson (UTF8_BOM ++ lit "{..}") read login_item E) as (_ & out & H & _).
  - apply list_elem_of_lookup. exists 0%nat. vm_compute. reflexivity.
  - exists out. exact H.
Defined.
End ToyBitwarden.

(** ** A Bitwarden import drops no value (import/bitwarden.rs, common.rs)

    What an item of the export holds is a field of the imported item or part
    of its text. *)

(** ** Text that holds a value *)

Definition infix (v s : list Z) : Prop := exists a b, s = a ++ v ++ b.

Lemma infix_refl v : infix v v.
Proof. exists [], []. by rewrite app_nil_r. Qed.
Lemma infix_app_l v a s : infix v s -> infix v (a ++ s).
Proof. intros (x & y & ->). exists (a ++ x), y. by rewrite <- app_assoc. Qed.
Lemma infix_app_r v s b : infix v s -> infix v (s ++ b).
Proof. intros (x & y & ->). exists x, (y ++ b). by rewrite <- !app_assoc. Qed.
Lemma infix_ne v s : infix v s -> v <> [] -> s <> [].
Proof. intros (x & y & ->) Hv [_ [E _]%app_nil]%app_nil. by rewrite E in Hv. Qed.

Lemma join_infix sep l s v : s ∈ l -> infix v s -> infix v (join sep l).
Proof.
  induction l as [|w l IH]; [by intros H%not_elem_of_nil|]. rewrite join_cons. intros [->|H]%elem_of_cons Hv; [by apply infix_app_r|].
  destruct l as [|w' l]; [by apply not_elem_of_nil in H|]. apply infix_app_l, infix_app_l. by apply IH.
Qed.

(** ** The extra notes *)

Definition noted (e : Extras) (v : list Z) : Prop := exists s, s ∈ ex_lines e /\ infix v s.

Lemma push_noted l v e : trim v <> [] -> noted (extras_push l v e) v.
Proof.
  intros Hv. unfold extras_push. rewrite bool_decide_eq_false_2 by done. cbn [ex_lines].
  eexists. split; [apply elem_of_app; right; by apply list_elem_of_singleton|].
  destruct (non_empty l) as [x|]; [|apply infix_refl]. apply infix_app_l, infix_app_l, infix_refl.
Qed.

Lemma push_keeps l w e v : noted e v -> noted (extras_push l w e) v.
Proof.
  intros (s & Hs & Hv). unfold extras_push. case_bool_decide; [by exists s|]. exists s. split; [|done]. cbn [ex_lines].
  apply elem_of_app. left. destruct (ex_section e); [|done]. apply elem_of_app. by left.
Qed.

Lemma section_keeps t e v : noted e v -> noted (extras_section t e) v.
Proof. done. Qed.

Lemma render_noted e v : noted e v -> infix v (extras_render e).
Proof. intros (s & Hs & Hv). by eapply join_infix. Qed.

Lemma join_notes_first n e : trim n <> [] -> exists t, join_notes (Some n) e = Some t /\ infix (trim n) t.
Proof.
  intros H. unfold join_notes, non_empty. rewrite bool_decide_eq_false_2 by done. case_bool_decide.
  - eexists. split; [done|apply infix_refl].
  - eexists. split; [done|]. apply infix_app_r, infix_refl.
Qed.

Lemma join_notes_noted n e v : v <> [] -> noted e v -> exists t, join_notes n e = Some t /\ infix v t.
Proof.
  intros Hne H%render_noted. unfold join_notes. cbv zeta.
  rewrite (bool_decide_eq_false_2 (extras_render e = [])) by (by eapply infix_ne).
  destruct (non_empty n); eexists; (split; [done|]); [|done]. by apply infix_app_l, infix_app_l.
Qed.

(** ** Fields *)

Definition holds (f : FieldInput) (v : list Z) : Prop := i_value f = FText v \/ i_value f = FPassword (SetTo v).
Definition fielded (l : list SectionInput) (v : list Z) : Prop := exists s f, s ∈ l /\ f ∈ si_fields s /\ holds f v.

Section Keeps.
Context {U : Unicode} {UL : UrlLib} {L : TotpLib}.

Lemma start_fielded t s v : fielded (is_sections s) v -> fielded (is_sections (sections_start t s)) v.
Proof. intros (x & f & Hx & Hf). exists x, f. split; [|done]. cbn [sections_start is_sections]. apply elem_of_app. by left. Qed.

Lemma sections_push_fielded l x s w :
  let '(s', taken) := sections_push l x s in
  (fielded (is_sections s) w -> fielded (is_sections s') w) /\
  (taken = true -> (x = FText w \/ x = FPassword (SetTo w)) -> fielded (is_sections s') w).
Proof.
  unfold sections_push. cbv zeta. destruct (last (is_sections s)) as [sec|] eqn:El; [|done].
  destruct (_ || _); [done|]. destruct (_ <? _); [done|]. cbn [is_sections].
  apply last_Some in El as [front Ef]. rewrite Ef, removelast_last. split.
  - intros (y & f & [Hy| ->%list_elem_of_singleton]%elem_of_app & Hf & Hh).
    + exists y, f. split; [|done]. apply elem_of_app. by left.
    + eexists _, f. split; [apply elem_of_app; right; by apply list_elem_of_singleton|]. cbn [si_fields].
      split; [|done]. apply elem_of_app. by left.
  - intros _ Hx. eexists _, _. split; [apply elem_of_app; right; by apply list_elem_of_singleton|]. cbn [si_fields].
    split; [apply elem_of_app; right; by apply list_elem_of_singleton|]. exact Hx.
Qed.

Lemma finish_fielded s v : fielded (is_sections s) v -> fielded (default [] (sections_finish s)) v.
Proof.
  intros (x & f & Hx & Hf & Hh). unfold sections_finish. fold has_fields.
  assert (x ∈ List.filter has_fields (is_sections s)) as Hin.
  { apply list_elem_of_In, filter_In. split; [by apply list_elem_of_In|]. unfold has_fields.
    apply negb_true_iff, bool_decide_eq_false. destruct (si_fields x); [by apply not_elem_of_nil in Hf|done]. }
  destruct (Nat.eqb_spec (length (List.filter has_fields (is_sections s))) 0) as [E|_].
  - apply nil_length_inv in E. rewrite E in Hin. by apply not_elem_of_nil in Hin.
  - by exists x, f.
Qed.

(** ** A conversion *)

Definition kept_by (c : Conv) (v : list Z) : Prop := fielded (is_sections (cv_sections c)) v \/ noted (cv_extras c) v.

Lemma keep_field_cases l x fb c w :
  let '(c', kept) := keep_field l x fb c in
  (kept_by c w -> kept_by c' w) /\
  (kept = true -> (x = FText w \/ x = FPassword (SetTo w)) -> fb = Some w -> kept_by c' w).
Proof.
  unfold keep_field. destruct (validated x fb) as [y|] eqn:E; [|done].
  pose proof (sections_push_fielded l y (cv_sections c) w) as Hp. destruct (sections_push l y (cv_sections c)) as [s taken].
  destruct Hp as [Hp1 Hp2]. split; [intros [H|H]; [left; by apply Hp1|by right]|].
  intros Ht Hx ->. left. apply Hp2; [done|]. unfold validated in E. cbv zeta in E.
  match type of E with (if ?b then _ else _) = _ => destruct b end; [by injection E as <-|].
  cbn [mbind option_bind] in E. destruct (is_ok _); [|done]. injection E as <-. by left.
Qed.

Lemma text_at_facts f k v : text_at f k = Some v -> trim v = v /\ v <> [].
Proof.
  unfold text_at, non_empty. destruct (str_at f [k]); [|done]. case_bool_decide; [done|]. intros [= <-]. by rewrite trim_idem.
Qed.

(** Taking a value, or else writing it down, keeps it and all before it. *)
Lemma keep_or_note l x v c w (f : Extras -> Extras) g :
  trim v = v -> v <> [] -> (x = FText v \/ x = FPassword (SetTo v)) ->
  (forall e, noted (f e) v) -> (forall e, noted e w -> noted (f e) w) ->
  let '(c', kept) := keep_field l x (Some v) c in
  let c2 := if kept then c' else with_extras f (with_report g c') in
  (kept_by c w -> kept_by c2 w) /\ kept_by c2 v.
Proof.
  intros Ht Hne Hx Hf Hm. pose proof (keep_field_cases l x (Some v) c w) as H1. pose proof (keep_field_cases l x (Some v) c v) as H2.
  destruct (keep_field l x (Some v) c) as [c' []]; cbv zeta in *.
  - split; [by apply H1|by apply H2].
  - split; [|right; apply Hf]. intros H%H1. destruct H as [H|H]; [by left|right; by apply Hm].
Qed.

Lemma note_value_keeps l v e w : noted e w -> noted (extras_push l v (extras_section None e)) w.
Proof. intros H. by apply push_keeps. Qed.

(** A field of the export that is not a link to another. *)
Definition field_value (f : json) (v : list Z) : Prop := text_at f "value" = Some v /\ i64_at "type" f <> Some 3.

Lemma custom_section_keeps c f w : (kept_by c w -> kept_by (custom_section c f) w) /\ (field_value f w -> kept_by (custom_section c f) w).
Proof.
  unfold custom_section, field_value. destruct (text_at f "value") as [v|] eqn:Ev; [|by split; [|intros [? _]]].
  destruct (text_at_facts f _ v Ev) as [Ht Hne]. cbv zeta. set (name := text_at f "name").
  assert (forall x, (x = FText v \/ x = FPassword (SetTo v)) ->
    let c2 := (let '(c, kept) := keep_field name x (Some v) c in
      if kept then c else with_extras (fun e => extras_push name v (extras_section None e)) (with_report (bump CFields) c)) in
    (kept_by c w -> kept_by c2 w) /\ (v = w -> kept_by c2 w)) as Hk.
  { intros x Hx. pose proof (keep_or_note name x v c w (fun e => extras_push name v (extras_section None e)) (bump CFields) Ht Hne Hx) as H.
    destruct (keep_field name x (Some v) c) as [c' kept]. cbv zeta in *.
    destruct H as [Ha Hb]; [intros e; apply push_noted; by rewrite Ht|intros e; by apply note_value_keeps|].
    split; [done|by intros <-]. }
  destruct (i64_at "type" f) as [n|].
  2: { destruct (Hk (FText v) (or_introl eq_refl)) as [Ha Hb]. split; [done|]. intros [[= ->] _]. by apply Hb. }
  destruct (n =? 1). { destruct (Hk (FPassword (SetTo v)) (or_intror eq_refl)) as [Ha Hb]. split; [done|]. intros [[= ->] _]. by apply Hb. }
  destruct (Z.eqb_spec n 3) as [->|]; [by split; [|intros [_ []]]|].
  destruct (Hk (FText v) (or_introl eq_refl)) as [Ha Hb]. split; [done|]. intros [[= ->] _]. by apply Hb.
Qed.

Lemma foldl_collects {A S} (P : S -> Prop) (Q : A -> Prop) (step : S -> A -> S) l s :
  (forall s x, P s -> P (step s x)) -> (forall s x, Q x -> P (step s x)) ->
  (P s \/ exists x, x ∈ l /\ Q x) -> P (foldl step s l).
Proof.
  intros H1 H2. revert s. induction l as [|x l IH]; intros s; cbn [foldl].
  - intros [H|(x & H & _)]; [done|by apply not_elem_of_nil in H].
  - intros [H|(y & [->|Hy]%elem_of_cons & Hq)]; apply IH; [left; by apply H1|left; by apply H2|right; by exists y].
Qed.

Lemma custom_sections_keep custom c w :
  kept_by c w \/ (exists f, f ∈ custom /\ field_value f w) -> kept_by (custom_sections custom c) w.
Proof.
  apply (foldl_collects (fun c => kept_by c w) (fun f => field_value f w)); intros c' f; apply custom_section_keeps.
Qed.

(** A value of an identity or an SSH key. *)
Definition entry_value (kv : list Z * json) (v : list Z) : Prop := non_empty (as_str kv.2) = Some v.

Lemma other_value_keeps c kv w : (kept_by c w -> kept_by (other_value c kv) w) /\ (entry_value kv w -> kept_by (other_value c kv) w).
Proof.
  unfold other_value, entry_value. destruct (non_empty (as_str kv.2)) as [v|] eqn:Ev; [|done].
  assert (trim v = v /\ v <> []) as [Ht Hne].
  { unfold non_empty in Ev. destruct (as_str kv.2); [|done]. case_bool_decide; [done|]. injection Ev as <-. by rewrite trim_idem. }
  cbv zeta. set (x := if bool_decide _ then _ else _). assert (x = FText v \/ x = FPassword (SetTo v)) as Hx
    by (unfold x; destruct (bool_decide _); [by right|by left]). clearbody x.
  pose proof (keep_or_note (Some (key_label kv.1)) x v c w (extras_push (Some (key_label kv.1)) v) (bump CFields) Ht Hne Hx) as H.
  destruct (keep_field (Some (key_label kv.1)) x (Some v) c) as [c' kept]. cbv zeta in H.
  destruct H as [Ha Hb]; [intros e; apply push_noted; by rewrite Ht|intros e; by apply push_keeps|].
  split; [done|by intros [= <-]].
Qed.

(** ** The item *)

Definition set_text (u : SecretUpdate) : list (list Z) := match u with SetTo t => [t] | _ => [] end.

(** The texts of an item: its notes, its content, a card's notes. *)
Definition texts (i : ItemInput) : list (list Z) :=
  set_text (in_notes i) ++ set_text (in_content i) ++ from_option (fun c => option_list (ci_notes c)) [] (in_card i).

Definition in_item (i : ItemInput) (v : list Z) : Prop :=
  fielded (default [] (in_sections i)) v \/ exists t, t ∈ texts i /\ infix v t.

Lemma kept_in_item c notes i v :
  v <> [] -> kept_by c v -> in_sections i = sections_finish (cv_sections c) ->
  (forall t, join_notes notes (cv_extras c) = Some t -> t ∈ texts i) -> in_item i v.
Proof.
  intros Hne [H|H] Hs Ht; [left; rewrite Hs; by apply finish_fielded|right].
  destruct (join_notes_noted notes _ v Hne H) as (t & Et & Hv). exists t. split; [by apply Ht|done].
Qed.

Lemma notes_in_item e notes n i :
  notes = Some n -> trim n = n -> n <> [] -> (forall t, join_notes notes e = Some t -> t ∈ texts i) -> in_item i n.
Proof.
  intros -> Hn Hne Ht. right. destruct (join_notes_first n e) as (t & Et & Hv); [by rewrite Hn|]. exists t.
  split; [by apply Ht|]. by rewrite Hn in Hv.
Qed.

Lemma bw_totp_keeps o c w : (kept_by c w -> kept_by (bw_totp o c).2 w) /\
  (forall t, o = Some t -> trim t <> [] -> (bw_totp o c).1 = Some t \/ kept_by (bw_totp o c).2 t).
Proof.
  unfold bw_totp. destruct o as [t|]; [|done]. destruct (is_ok _); cbn [fst snd].
  - split; [done|]. intros t' [= <-] _. by left.
  - split; [intros [H|H]; [by left|right; by apply push_keeps]|]. intros t' [= <-] Ht. right. right. by apply push_noted.
Qed.

(** A website that is no web address is written down. *)
Lemma collect_urls_keeps raw r e w :
  noted e w \/ (exists x, x ∈ raw /\ trim x.1 = w /\ w <> [] /\ is_ok (normalize_url w) = false) ->
  noted (collect_urls raw r e).2 w.
Proof.
  unfold collect_urls.
  apply (foldl_collects (fun a : list UrlRule * ImportReport * Extras => noted a.2 w)
    (fun x => trim x.1 = w /\ w <> [] /\ is_ok (normalize_url w) = false) add_url raw ([], r, e)).
  - intros [[out r'] e'] x H. cbn [snd] in H. unfold add_url. cbv zeta. case_bool_decide; [done|].
    destruct (normalize_url _); [by destruct (_ && _)|]. cbn [snd]. by apply push_keeps.
  - intros [[out r'] e'] x (Hx & Hne & Hu). unfold add_url. cbv zeta. rewrite Hx, bool_decide_eq_false_2 by done.
    destruct (normalize_url w); [done|]. cbn [snd]. apply push_noted. subst w. by rewrite trim_idem.
Qed.

Lemma convert_login_keeps item title notes custom tags c w :
  let i := (convert_login item title notes custom tags c).1 in
  let login := jget_or_null "login" item in
  (w <> [] -> kept_by c w \/ (exists f, f ∈ custom /\ field_value f w) -> in_item i w) /\
  (forall n, notes = Some n -> trim n = n -> n <> [] -> in_item i n) /\
  (forall t, text_at login "totp" = Some t -> in_totp i = SetTo t \/ in_item i t) /\
  (forall u, u ∈ default [] (array_at "uris" login) -> text_at u "uri" = Some w -> is_ok (normalize_url w) = false -> in_item i w).
Proof.
  cbv zeta. unfold convert_login. cbv zeta. set (login := jget_or_null "login" item).
  set (c1 := match array_at "fido2Credentials" _ with Some _ => _ | None => _ end).
  assert (forall v, kept_by c v -> kept_by c1 v) as H1 by (intros v; unfold c1; by destruct (array_at _ _)). clearbody c1.
  assert (forall v, noted (cv_extras c1) v \/ (exists x, x ∈ uris_of login /\ trim x.1 = v /\ v <> [] /\ is_ok (normalize_url v) = false) ->
    noted (collect_urls (uris_of login) (cv_report c1) (cv_extras c1)).2 v) as Hu by (intros v; apply collect_urls_keeps).
  destruct (collect_urls _ _ _) as [[urls r] e]. cbn [snd] in Hu.
  set (c2 := {| cv_sections := cv_sections c1; cv_extras := e; cv_report := r |}).
  assert (forall v, kept_by c1 v -> kept_by c2 v) as H2 by (intros v [H|H]; [by left|right; apply Hu; by left]).
  pose proof (fun v => bw_totp_keeps (text_at login "totp") c2 v) as Ht. destruct (bw_totp _ c2) as [totp c3]. cbn [fst snd] in *.
  set (c4 := custom_sections custom (start_section None c3)).
  assert (forall v, kept_by c3 v \/ (exists f, f ∈ custom /\ field_value f v) -> kept_by c4 v) as H4.
  { intros v H. apply custom_sections_keep. destruct H as [[H|H]|H]; [left; left; by apply start_fielded|left; by right|by right]. }
  match goal with |- context [in_item ?x w] => set (i := x) end.
  assert (forall v, v <> [] -> kept_by c4 v -> in_item i v) as Hi.
  { intros v Hne H. apply (kept_in_item c4 notes); [done..|]. intros t Et. unfold texts, i. cbn [in_notes].
    change (cv_extras (with_report (bump CLogins) c4)) with (cv_extras c4). rewrite Et. by left. }
  split_and!.
  - intros Hne [H|H]; apply Hi; try done; apply H4; [left|by right]. by apply Ht, H2, H1.
  - intros n -> Hn Hne. apply (notes_in_item (cv_extras c4) (Some n)); [done..|]. intros t Et. unfold texts, i. cbn [in_notes].
    change (cv_extras (with_report (bump CLogins) c4)) with (cv_extras c4). rewrite Et. by left.
  - intros t Et. destruct (text_at_facts _ _ _ Et) as [Htt Hne].
    destruct (proj2 (Ht t) t Et) as [E|E]; [by rewrite Htt|left; unfold i; cbn [in_totp]; by rewrite E|right].
    apply Hi; [done|]. apply H4. by left.
  - intros u Hin Eu Hbad. destruct (text_at_facts _ _ _ Eu) as [Htt Hne]. apply Hi; [done|]. apply H4. left. apply Ht. right. apply Hu.
    right. exists (w, bw_match_type u). split; [|done]. unfold uris_of. apply list_elem_of_omap. exists u. split; [done|]. by rewrite Eu.
Qed.

Lemma convert_note_keeps title notes custom tags c w :
  let i := (convert_note title notes custom tags c).1 in
  (w <> [] -> kept_by c w \/ (exists f, f ∈ custom /\ field_value f w) -> in_item i w) /\
  (forall n, notes = Some n -> trim n = n -> n <> [] -> in_item i n).
Proof.
  cbv zeta. unfold convert_note. cbv zeta. cbn [fst]. set (c4 := custom_sections custom (start_section None c)).
  match goal with |- context [in_item ?x w] => set (i := x) end.
  assert (forall t, join_notes notes (cv_extras c4) = Some t -> t ∈ texts i) as Hi.
  { intros t Et. unfold texts, i, note_input. cbn [in_notes in_content set_text app].
    change (cv_extras (with_report (bump CSecureNotes) c4)) with (cv_extras c4). rewrite Et. by left. }
  split.
  - intros Hne H. apply (kept_in_item c4 notes); [done| |done|done]. apply custom_sections_keep.
    destruct H as [[H|H]|H]; [left; left; by apply start_fielded|left; by right|by right].
  - intros n En Hn Hne. by apply (notes_in_item (cv_extras c4) notes).
Qed.

Lemma push_field_keeps e f w : (noted e w -> noted (push_field e f) w) /\ (field_value f w -> noted (push_field e f) w).
Proof.
  unfold push_field, field_value. case_bool_decide as E3; [by split; [|intros [_ []]]|].
  destruct (text_at f "value") as [v|] eqn:Ev; [|by split; [|intros [? _]]]. destruct (text_at_facts f _ v Ev) as [Ht Hne].
  split; [by apply push_keeps|]. intros [[= <-] _]. apply push_noted. by rewrite Ht.
Qed.

Lemma card_input_keeps j e w : noted e w -> noted (card_input j e).2 w.
Proof.
  intros H. unfold card_input.
  assert (forall l f v e, noted e w -> noted (take_checked l f v e).2 w) as Ht.
  { intros l f v e0 H0. unfold take_checked. destruct v; [|done]. destruct (f _); [done|]. by apply push_keeps. }
  pose proof (Ht "Number"%string card_clean_number (text_at j "number") e H) as H1. destruct (take_checked _ _ _ e) as [n e1].
  pose proof (Ht "Security code"%string clean_verification_number (text_at j "code") e1 H1) as H2.
  destruct (take_checked _ _ _ e1) as [code e2]. cbn [snd] in H2.
  assert (noted (card_brand (text_at j "brand") e2).2 w) as H3.
  { unfold card_brand. destruct (text_at _ _); [|done]. destruct (brand_from_name _); [done|]. cbn [snd].
    destruct (eq_ignore_ascii_case _ _); [done|by apply push_keeps]. }
  destruct (card_brand _ e2) as [b e3]. cbn [snd] in H3.
  assert (noted (card_expiry (text_at j "expMonth") (text_at j "expYear") e3).2 w) as H4.
  { unfold card_expiry. destruct (text_at j "expMonth"), (text_at j "expYear"); try done; [destruct (parse_expiry _ _); [done|]| |];
      by apply push_keeps. }
  by destruct (card_expiry _ _ e3).
Qed.

Lemma convert_card_keeps item title notes custom tags c w :
  let i := (convert_card item title notes custom tags c).1 in
  (w <> [] -> (exists f, f ∈ custom /\ field_value f w) -> in_item i w) /\
  (forall n, notes = Some n -> trim n = n -> n <> [] -> in_item i n).
Proof.
  cbv zeta. unfold convert_card. destruct (card_input _ _) as [card e]. cbv zeta. cbn [fst].
  match goal with |- context [in_item ?x w] => set (i := x) end.
  assert (forall t, join_notes notes (push_fields custom e) = Some t -> t ∈ texts i) as Hi.
  { intros t Et. unfold texts, i, card_item_input, with_card_notes. cbn [in_notes in_content set_text app in_card from_option ci_notes].
    change (cv_extras (with_report (bump CCards) (with_extras (fun _ => push_fields custom e) c))) with (push_fields custom e).
    rewrite Et. by left. }
  split.
  - intros Hne (f & Hf & Hv). right. destruct (join_notes_noted notes (push_fields custom e) w Hne) as (t & Et & Ht); [|by exists t; split; [apply Hi|]].
    apply (foldl_collects (fun e => noted e w) (fun f => field_value f w)); [intros e' x; apply push_field_keeps..|]. right. by exists f.
  - intros n En Hn Hne. by apply (notes_in_item (push_fields custom e) notes).
Qed.

Lemma convert_other_keeps kind item title notes custom tags c w :
  let i := (convert_other kind item title notes custom tags c).1 in
  let key := if kind =? 4 then "identity"%string else if kind =? 5 then "sshKey"%string else ""%string in
  (w <> [] -> (exists f, f ∈ custom /\ field_value f w) \/
     (exists m kv, jget key item = Some (JObj m) /\ kv ∈ m /\ entry_value kv w) -> in_item i w) /\
  (forall n, notes = Some n -> in_item i n).
Proof.
  cbv zeta. unfold convert_other. cbv zeta. cbn [fst]. set (key := if kind =? 4 then _ else _).
  set (c1 := start_section _ c). set (c2 := match jget key item with Some (JObj m) => foldl other_value c1 m | _ => c1 end).
  set (c4 := custom_sections custom (start_section None c2)).
  match goal with |- context [in_item ?x w] => set (i := x) end.
  split.
  - intros Hne H. assert (kept_by c4 w) as [H4|H4].
    { apply custom_sections_keep. destruct H as [H|(m & kv & Em & Hin & He)]; [by right|left].
      assert (kept_by c2 w) as [H2|H2]; [|left; by apply start_fielded|by right].
      unfold c2. rewrite Em. apply (foldl_collects (fun c => kept_by c w) (fun kv => entry_value kv w));
        [intros c' x; apply other_value_keeps..|]. right. by exists kv. }
    + left. by apply finish_fielded.
    + right. eexists. split; [unfold texts, i, note_input; cbn [in_notes in_content set_text app]; by left|].
      apply render_noted in H4. change (cv_extras (with_report (bump CConverted) c4)) with (cv_extras c4).
      rewrite (bool_decide_eq_false_2 (extras_render (cv_extras c4) = [])) by (by eapply infix_ne).
      apply infix_app_l, infix_app_l, (infix_app_l w [41]), infix_app_r, (infix_app_l w [10; 10]). exact H4.
  - intros n ->. right. eexists. split; [unfold texts, i, note_input; cbn [in_notes in_content set_text app]; by left|].
    apply infix_app_l, infix_app_l, (infix_app_l n [41]), infix_app_l. apply (infix_app_l n [10; 10]), infix_refl.
Qed.

(** A Bitwarden import drops none of an item's values.  The item it makes
    holds, as a field or within its text: the notes; the value of every custom
    field that is not a link; of a login, the one-time password (as its setup,
    when it is one) and every website that is no web address; and of an
    identity or an SSH key, every value. *)
Lemma bitwarden_keeps_values folders item r x r' :
  bw_convert_item folders item r = (Some x, r') ->
  let i := ii_input x in let kind := default 0 (i64_at "type" item) in let login := jget_or_null "login" item in
  (forall n, text_at item "notes" = Some n -> in_item i n) /\
  (forall f v, f ∈ default [] (array_at "fields" item) -> field_value f v -> in_item i v) /\
  (kind = 1 -> forall t, text_at login "totp" = Some t -> in_totp i = SetTo t \/ in_item i t) /\
  (kind = 1 -> forall u v, u ∈ default [] (array_at "uris" login) -> text_at u "uri" = Some v ->
     is_ok (normalize_url v) = false -> in_item i v) /\
  (forall m kv v, (kind = 4 /\ jget "identity" item = Some (JObj m)) \/ (kind = 5 /\ jget "sshKey" item = Some (JObj m)) ->
     kv ∈ m -> entry_value kv v -> in_item i v).
Proof.
  cbv zeta. unfold bw_convert_item. destruct (is_object item); [|done]. cbn [negb]. cbv zeta.
  set (kind := default 0 (i64_at "type" item)). destruct (split_tags _) as [tags rejected].
  match goal with |- context [convert_login _ _ _ _ _ ?c0] => set (c := c0) end. clearbody c.
  set (custom := default [] (array_at "fields" item)).
  assert (forall n, text_at item "notes" = Some n -> trim n = n /\ n <> []) as Hn by (intros n; apply text_at_facts).
  assert (forall f v, field_value f v -> v <> []) as Hf by (intros f v [(_ & Hne)%text_at_facts _]; exact Hne).
  assert (forall kv v, entry_value kv v -> v <> []) as He.
  { intros kv v. unfold entry_value, non_empty. destruct (as_str kv.2); [|done]. case_bool_decide; [done|]. by intros [= <-]. }
  destruct (Z.eqb_spec kind 1) as [Ek|Ek1].
  { pose proof (fun w => convert_login_keeps item (bw_title item) (text_at item "notes") custom tags c w) as H.
    destruct (convert_login _ _ _ _ _ c) as [i c']. cbn [fst] in H. cbv zeta in H. intros [= <- _]. cbn [ii_input].
    split_and!; [intros n En; apply (H n); [done|by apply Hn..]| | | |].
    - intros f v Hin Hv. apply (proj1 (H v)); [by eapply Hf|]. right. by exists f.
    - intros _. apply (H []).
    - intros _ u v. apply (H v).
    - intros m kv v [[? _]|[? _]]; lia. }
  destruct (Z.eqb_spec kind 2) as [Ek|Ek2].
  { pose proof (fun w => convert_note_keeps (bw_title item) (text_at item "notes") custom tags c w) as H.
    destruct (convert_note _ _ _ _ c) as [i c']. cbn [fst] in H. cbv zeta in H. intros [= <- _]. cbn [ii_input].
    split_and!; [intros n En; apply (H n); [done|by apply Hn..]| |lia|lia|intros m kv v [[? _]|[? _]]; lia].
    intros f v Hin Hv. apply (proj1 (H v)); [by eapply Hf|]. right. by exists f. }
  destruct (Z.eqb_spec kind 3) as [Ek|Ek3].
  { pose proof (fun w => convert_card_keeps item (bw_title item) (text_at item "notes") custom tags c w) as H.
    destruct (convert_card _ _ _ _ _ c) as [i c']. cbn [fst] in H. cbv zeta in H. intros [= <- _]. cbn [ii_input].
    split_and!; [intros n En; apply (H n); [done|by apply Hn..]| |lia|lia|intros m kv v [[? _]|[? _]]; lia].
    intros f v Hin Hv. apply (proj1 (H v)); [by eapply Hf|]. by exists f. }
  pose proof (fun w => convert_other_keeps kind item (bw_title item) (text_at item "notes") custom tags c w) as H.
  destruct (convert_other _ _ _ _ _ _ c) as [i c']. cbn [fst] in H. cbv zeta in H. intros [= <- _]. cbn [ii_input].
  split_and!; [intros n En; by apply (H n)| |lia|lia|].
  - intros f v Hin Hv. apply (proj1 (H v)); [by eapply Hf|]. left. by exists f.
  - intros m kv v Hk Hin Hv. apply (proj1 (H v)); [by eapply He|]. right. exists m, kv. split; [|done].
    by destruct Hk as [[-> E]|[-> E]].
Qed.
End Keeps.

Module ToyKept.
Import ToyUnicode ToyUrl ToyTotp ToyBitwarden.

Definition passport : json := nth 1 (default [] (array_at "items" document)) JNull.
Definition passport_item : ImportedItem := nth 1 (pa_items read) login_item.

Lemma bitwarden_keeps_values_witness :
  bw_convert_item ∅ passport no_report = (Some passport_item, bump CConverted no_report) /\
  in_item (ii_input passport_item) (lit "mine") /\ in_item (ii_input passport_item) (lit "X1").
Proof.
  assert (bw_convert_item ∅ passport no_report = (Some passport_item, bump CConverted no_report)) as E by (vm_compute; reflexivity).
  split; [exact E|]. destruct (bitwarden_keeps_values _ _ _ _ _ E) as (Hn & _ & _ & _ & Hv).
  split; [apply Hn; vm_compute; reflexivity|].
  apply (Hv [str_entry "firstName" "Sam"; str_entry "passportNumber" "X1"] (str_entry "passportNumber" "X1")).
  - left. split; vm_compute; reflexivity.
  - right. left.
  - vm_compute. reflexivity.
Defined.
End ToyKept.

(** ** CSV in and out (import/csv.rs against export/csv.rs)

    What a CSV import makes of every row, and that the logins of an export
    read back. *)

#[local] Opaque MAX_ITEMS.

Section CsvFacts.
Context {U : Unicode} {UL : UrlLib} {L : TotpLib} {CL : CsvLib}.

(** ** What a row becomes does not depend on the rows before it *)

Lemma add_url_report x out e : exists out' e' f, forall r, add_url (out, r, e) x = (out', f r, e').
Proof.
  unfold add_url. cbv zeta. case_bool_decide; [by exists out, e, (fun r => r)|].
  destruct (normalize_url _) as [u|]; [|by eexists _, _, _].
  destruct (_ && _); [by eexists _, _, (fun r => r)|by exists out, e, (fun r => r)].
Qed.

Lemma collect_urls_report raw r r' e out :
  let a := foldl add_url (out, r, e) raw in let b := foldl add_url (out, r', e) raw in a.1.1 = b.1.1 /\ a.2 = b.2.
Proof.
  revert r r' e out. induction raw as [|x raw IH]; intros r r' e out; [done|].
  cbv zeta. cbn [foldl]. destruct (add_url_report x out e) as (out' & e' & f & E). rewrite !E. apply IH.
Qed.

(** The counts a row leaves alone: all but its own and the notes' two. *)
Lemma collect_urls_counts c raw r e : c <> CUrls -> get c (collect_urls raw r e).1.2 = get c r.
Proof.
  intros Hc. unfold collect_urls. apply (foldl_keeps (fun a : list UrlRule * ImportReport * Extras => get c a.1.2 = get c r)); [|done].
  intros [[out r'] e'] [u m] H. cbn [fst snd] in H. unfold add_url. cbn [fst snd]. case_bool_decide; [done|].
  destruct (normalize_url _); [by destruct (_ && _)|]. cbn [fst snd]. unfold bump. by rewrite get_update, decide_False.
Qed.

Lemma row_totp_report t r r' e : let a := row_totp t r e in let b := row_totp t r' e in a.1.1 = b.1.1 /\ a.2 = b.2.
Proof. unfold row_totp. destruct t as [t|]; [|done]. by destruct (is_ok _). Qed.

Lemma row_totp_counts c t r e : c <> CFields -> get c (row_totp t r e).1.2 = get c r.
Proof.
  intros Hc. unfold row_totp. destruct t as [t|]; [|done]. destruct (is_ok _); [done|]. cbn [fst snd].
  unfold bump. by rewrite get_update, decide_False.
Qed.

Lemma csv_login_report f r r' : (csv_login f r).1 = (csv_login f r').1.
Proof.
  unfold csv_login. pose proof (collect_urls_report (map (fun u => (u, Domain)) (lr_urls f)) r r' no_extras []) as Hc.
  fold (collect_urls (map (fun u => (u, Domain)) (lr_urls f)) r no_extras) in Hc.
  fold (collect_urls (map (fun u => (u, Domain)) (lr_urls f)) r' no_extras) in Hc.
  destruct (collect_urls _ r _) as [[urls r1] e], (collect_urls _ r' _) as [[urls' r1'] e'].
  cbn [fst snd] in Hc. destruct Hc as [<- <-]. pose proof (row_totp_report (lr_totp f) r1 r1' e) as Ht.
  destruct (row_totp _ r1 _) as [[t r2] e2], (row_totp _ r1' _) as [[t' r2'] e2']. cbn [fst snd] in Ht.
  destruct Ht as [<- <-]. by destruct (tags_of_folder _).
Qed.

Lemma csv_login_counts c f r : c <> CUrls -> c <> CFields ->
  get c (csv_login f r).2 = (get c r + if decide (c = CLogins) then 1 else 0)%nat.
Proof.
  intros Hu Hf. unfold csv_login. set (raw := map _ _). pose proof (collect_urls_counts c raw r no_extras Hu) as H1.
  destruct (collect_urls raw r no_extras) as [[urls r1] e]. cbn [fst snd] in H1.
  pose proof (row_totp_counts c (lr_totp f) r1 e Hf) as H2. destruct (row_totp _ _ _) as [[t r2] e2]. cbn [fst snd] in H2.
  destruct (tags_of_folder _). cbn [snd]. unfold bump. rewrite get_update, H2, H1. destruct (decide (c = CLogins)); lia.
Qed.

Lemma csv_note_report t co m a b f r r' : (csv_note t co m a b f r).1 = (csv_note t co m a b f r').1.
Proof. unfold csv_note. by destruct (tags_of_folder _). Qed.

Lemma csv_note_counts c t co m a b f r :
  get c (csv_note t co m a b f r).2 = (get c r + if decide (c = CSecureNotes) then 1 else 0)%nat.
Proof.
  unfold csv_note. destruct (tags_of_folder _). cbn [snd]. unfold bump. rewrite get_update.
  destruct (decide (c = CSecureNotes)); lia.
Qed.

(** A row's item, and its count, are a function of the row. *)
Lemma convert_row_cases s row :
  (exists f, forall r, convert_row s row r = (Some (csv_login f r).1, (csv_login f r).2)) \/
  (exists t c m a b f, forall r, convert_row s row r = (Some (csv_note t c m a b f r).1, (csv_note t c m a b f r).2)) \/
  (forall r, convert_row s row r = (None, r)).
Proof.
  unfold convert_row. cbv zeta. destruct s.
  - by right; right.
  - by right; right.
  - destruct (bool_decide _); [right; left; by eexists _, _, _, _, _, _|].
    destruct (bool_decide _); [left; by eexists|by right; right].
  - left; by eexists.
  - left; by eexists.
  - destruct (keepass_note _); [right; left; by eexists _, _, _, _, _, _|left; by eexists].
  - destruct (bool_decide _); [right; left; by eexists _, _, _, _, _, _|left; by eexists].
Qed.

Lemma convert_row_report s row r : (convert_row s row r).1 = (convert_row s row no_report).1.
Proof.
  destruct (convert_row_cases s row) as [(f & E)|[(t & c & m & a & b & f & E)|E]]; rewrite !E; cbn [fst].
  - f_equal. apply csv_login_report.
  - f_equal. apply csv_note_report.
  - done.
Qed.

(** Which count it is, decided. *)
Ltac decided := cbn [get fst snd] in *;
  repeat match goal with H : context [decide (?a = ?b)] |- _ => destruct (decide (a = b)); [try discriminate|try done] end.

Definition made (r : ImportReport) : nat := (r_logins r + r_secure_notes r)%nat.

Lemma convert_row_counts s row r :
  let '(x, r') := convert_row s row r in
  failed r' = failed r /\ made r' = (made r + match x with Some _ => 1 | None => 0 end)%nat.
Proof.
  unfold made. destruct (convert_row_cases s row) as [(f & E)|[(t & c & m & a & b & f & E)|E]]; rewrite E; [| |lia].
  - pose proof (csv_login_counts CFailed f r ltac:(done) ltac:(done)). pose proof (csv_login_counts CLogins f r ltac:(done) ltac:(done)).
    pose proof (csv_login_counts CSecureNotes f r ltac:(done) ltac:(done)). decided. lia.
  - pose proof (csv_note_counts CFailed t c m a b f r). pose proof (csv_note_counts CLogins t c m a b f r).
    pose proof (csv_note_counts CSecureNotes t c m a b f r). decided. lia.
Qed.

(** ** The rows of a file *)

(** What one read after the header becomes. *)
Definition row_item (s : ImportSource) (cols : gmap (list Z) nat) (width : nat) (rd : CsvRead) : option ImportedItem :=
  match rd with
  | CsvRecord fields =>
      if is_blank_record fields || negb (length fields =? width)%nat then None
      else texts ← mapM from_utf8 fields; (convert_row s {| columns := cols; row_fields := texts |} no_report).1
  | _ => None
  end.

(** A read that is not a blank line. *)
Definition counts_row (rd : CsvRead) : bool :=
  match rd with CsvRecord fields => negb (is_blank_record fields) | _ => true end.

Lemma omap_step {A B} (f : A -> option B) x l :
  omap f (x :: l) = match f x with Some y => y :: omap f l | None => omap f l end.
Proof. done. Qed.

Lemma csv_rows_exact s cols w reads items r p :
  csv_rows s cols w reads items r = Ok p -> (length items <= MAX_ITEMS)%nat -> made r = length items ->
  pa_items p = items ++ omap (row_item s cols w) reads /\
  (length (pa_items p) <= MAX_ITEMS)%nat /\ made (pa_report p) = length (pa_items p) /\
  (failed (pa_report p) + length (omap (row_item s cols w) reads) = failed r + length (List.filter counts_row reads))%nat.
Proof.
  revert items r. induction reads as [|rd reads IH]; intros items r; cbn [csv_rows].
  { intros [= <-] Hl Hm. cbn [pa_items pa_report omap list_omap List.filter length]. rewrite app_nil_r. split_and!; [done..|lia]. }
  assert (forall items0, made r = items0 -> made (bump CFailed r) = items0) as Hmade by done.
  assert (row_item s cols w rd = None -> counts_row rd = true -> csv_rows s cols w reads items (bump CFailed r) = Ok p ->
    (length items <= MAX_ITEMS)%nat -> made r = length items ->
    pa_items p = items ++ omap (row_item s cols w) (rd :: reads) /\
    (length (pa_items p) <= MAX_ITEMS)%nat /\ made (pa_report p) = length (pa_items p) /\
    (failed (pa_report p) + length (omap (row_item s cols w) (rd :: reads)) = failed r + length (List.filter counts_row (rd :: reads)))%nat) as Hfail.
  { intros Hn Hc H Hl Hm. destruct (IH _ _ H Hl (Hmade _ Hm)) as (E1 & E2 & E3 & E4).
    rewrite omap_step, Hn. cbn [List.filter]. rewrite Hc. cbn [length]. split_and!; [done..|].
    change (failed (bump CFailed r)) with (S (failed r)) in E4. lia. }
  destruct rd as [fields| |]; [|done|by apply Hfail].
  destruct (is_blank_record fields) eqn:Eb.
  { intros H Hl Hm. destruct (IH _ _ H Hl Hm) as (E1 & E2 & E3 & E4).
    rewrite omap_step. cbn [List.filter row_item counts_row]. rewrite Eb. cbn [orb negb]. done. }
  destruct (Nat.leb_spec MAX_ITEMS (length items)) as [|Hlt]; [done|].
  assert (counts_row (CsvRecord fields) = true) as Hc by (cbn; by rewrite Eb).
  destruct (length fields =? w)%nat eqn:Ew; cbn [negb].
  2: { apply Hfail; [|done]. cbn [row_item]. by rewrite Eb, Ew. }
  destruct (mapM from_utf8 fields) as [texts|] eqn:Et.
  2: { apply Hfail; [|done]. cbn [row_item]. by rewrite Eb, Ew, Et. }
  pose proof (convert_row_report s {| columns := cols; row_fields := texts |} r) as Hrep.
  pose proof (convert_row_counts s {| columns := cols; row_fields := texts |} r) as Hcnt.
  destruct (convert_row s {| columns := cols; row_fields := texts |} r) as [[x|] r']; cbn [fst] in Hrep; destruct Hcnt as [Hf Hm'].
  2: { assert (row_item s cols w (CsvRecord fields) = None) as Hn by (cbn [row_item]; by rewrite Eb, Ew, Et; cbn).
       intros H Hl Hm. destruct (IH _ _ H Hl) as (E1 & E2 & E3 & E4); [change (made r' = length items); lia|].
       rewrite omap_step, Hn. cbn [List.filter]. rewrite Hc. cbn [length]. split_and!; [done..|].
       change (failed (bump CFailed r')) with (S (failed r')) in E4. lia. }
  assert (row_item s cols w (CsvRecord fields) = Some x) as Hx by (cbn [row_item]; by rewrite Eb, Ew, Et; cbn).
  intros H Hl Hm. destruct (IH _ _ H) as (E1 & E2 & E3 & E4); [rewrite length_app; cbn [length]; lia..|].
  rewrite omap_step, Hx. cbn [List.filter]. rewrite Hc. cbn [length]. rewrite E1, <- app_assoc. rewrite <- app_assoc in *.
  split_and!; [done|by rewrite <- E1|by rewrite <- E1|]. lia.
Qed.

(** C16: a CSV import leaves no row unaccounted for.  A file it reads has
    every column its source requires; every row that is not blank becomes an
    item, in the order of the file and whatever the rows around it hold, or is
    counted as failed; and the items are counted as logins and secure notes,
    at most [MAX_ITEMS] of them. *)
Theorem csv_import_exact s bytes p :
  csv_parse s bytes = Ok p ->
  exists header names rows,
    csv_reads (strip_bom bytes) = CsvRecord header :: rows /\ mapM from_utf8 header = Some names /\
    (forall c, c ∈ required_columns s -> is_Some (header_columns names !! c)) /\
    pa_items p = omap (row_item s (header_columns names) (length header)) rows /\
    (length (pa_items p) + failed (pa_report p) = length (List.filter counts_row rows))%nat /\
    (r_logins (pa_report p) + r_secure_notes (pa_report p) = length (pa_items p))%nat /\
    (length (pa_items p) <= MAX_ITEMS)%nat.
Proof.
  unfold csv_parse. cbv zeta. destruct (bool_decide _); [done|].
  destruct (csv_reads _) as [|[header| |] rows]; try done. destruct (mapM from_utf8 header) as [names|] eqn:En; [|done].
  cbn [ok_or mbind result_bind]. destruct (forallb _ _) eqn:Ef; [|done]. cbn [negb]. intros H.
  apply csv_rows_exact in H as (E1 & E2 & E3 & E4); [|apply Nat.le_0_l|done].
  exists header, names, rows. split; [done|]. split; [done|]. split.
  { intros c Hc. rewrite forallb_forall in Ef. apply list_elem_of_In in Hc. by apply Ef, bool_decide_eq_true in Hc. }
  cbn [app] in E1. split; [done|]. rewrite <- E1 in E4. change (failed no_report) with 0%nat in E4.
  split; [lia|]. split; [exact E3|exact E2].
Qed.
End CsvFacts.

(** ** An export reads back

    The csv crate: records written by its writer are what its reader gives,
    and a first field of letters is written as it is. *)
Class CsvLaws (P : PlainForms) (CL : CsvLib) : Prop := {
  csv_roundtrip : forall rows n, (2 <= n)%nat -> Forall (fun r => length r = n) rows ->
    csv_reads (concat (map csv_record rows)) = map (fun r => CsvRecord (map utf8 r)) rows;
  csv_plain : forall f rest, f <> [] -> Forall (fun c => 97 <= c <= 122) f -> exists t, csv_record (f :: rest) = f ++ t;
}.

Section ReadBack.
Context {C : Crypto} {K : KeyLib} {U : Unicode} {J : JsonLib} {UL : UrlLib} {SL : SiteLib UL} {L : TotpLib}.
Context {B : BackupJson} {P : PlainForms} {UT : UuidText} {CL : CsvLib} {UW : UrlLaws UL} {CW : CsvLaws P CL}.

Lemma mapM_utf8 l : Forall (Forall is_scalar) l -> mapM from_utf8 (map utf8 l) = Some l.
Proof.
  intros H. apply mapM_Some_2. induction H as [|s l Hs _ IH]; constructor; [by apply from_utf8_utf8|done].
Qed.

Lemma clean_line_id t max : trim t = t -> existsb is_control t = false -> (length t <= max)%nat -> clean_line t max = t.
Proof.
  intros Ht Hc Hl. unfold clean_line.
  assert (List.filter (fun c => negb (is_control c)) t = t) as ->.
  { clear Ht Hl. induction t as [|c t IH]; [done|]. cbn [existsb] in Hc. apply orb_false_iff in Hc as [Hc Hr].
    cbn [List.filter]. rewrite Hc. cbn [negb]. by rewrite IH. }
  by rewrite take_ge.
Qed.

Definition row_columns : gmap (list Z) nat := header_columns CSV_HEADER.

(** The columns of an export, by name. *)
Lemma row_get_at fields name i :
  row_columns !! lit name = Some i ->
  row_get {| columns := row_columns; row_fields := fields |} name = nonblank (fields !! i).
Proof. intros E. unfold row_get, nonblank. cbn [columns row_fields]. by rewrite E. Qed.

Definition password_of (d : ItemDetails) : option (list Z) :=
  match d with DLogin l => password l | DBank b => b_password b | _ => None end.

(** Text the vault stores is in normal form, and Rust's strings are scalars. *)
Definition exportable (o : ItemOverview) (d : ItemDetails) : Prop :=
  clean_title (title o) = Ok (title o) /\ clean_username (username o) = Ok (username o) /\
  clean_urls (urls o) = Ok (urls o) /\
  forall row, csv_row o d = Some row -> Forall (Forall is_scalar) row.

(** What an exported item is when it is read as a Chrome export. *)
Definition reads_as (x : ItemOverview * ItemDetails) (i : ImportedItem) : Prop :=
  let input := ii_input i in
  in_type input = Login /\ in_title input = title x.1 /\ in_username input = username x.1 /\
  map Model.url (in_urls input) = take 1 (map Model.url (urls x.1)) /\
  in_password input = set_or_keep (nonblank (password_of x.2)) /\ in_totp input = Keep.

Lemma clean_urls_normal l r : clean_urls l = Ok l -> r ∈ l -> normalize_url (Model.url r) = Ok (Model.url r).
Proof.
  unfold clean_urls. destruct (_ <? _)%nat; [done|].
  assert (forall k m, mapM_result (fun r => u ← normalize_url (Model.url r); Ok {| Model.url := u; match_type := match_type r |}) k = Ok m ->
    r ∈ m -> normalize_url (Model.url r) = Ok (Model.url r)) as Hk; [|by apply Hk].
  induction k as [|x k IH]; intros m; cbn [mapM_result].
  { intros [= <-] H. by apply not_elem_of_nil in H. }
  intros (y & Hy & H)%bind_Ok. apply bind_Ok in H as (m' & Hm & H). injection H as <-.
  apply bind_Ok in Hy as (u & Hu & Hy). injection Hy as <-. intros [->|H]%elem_of_cons; [|by eapply IH].
  cbn [Model.url]. apply normalize_url_ok in Hu. tauto.
Qed.

Lemma clean_title_facts t : clean_title t = Ok t -> t <> [] /\ trim t = t /\ existsb is_control t = false /\ (length t <= MAX_TITLE_CHARS)%nat.
Proof.
  unfold clean_title. cbv zeta. case_bool_decide as E; [done|]. destruct (_ || _) eqn:Eo; [done|].
  intros [= Et]. rewrite Et in *. apply orb_false_iff in Eo as [Hl%Nat.ltb_ge Hc]. done.
Qed.

Lemma clean_username_facts u t : clean_username u = Ok u -> u = Some t ->
  t <> [] /\ trim t = t /\ existsb is_control t = false /\ (length t <= MAX_USERNAME_CHARS)%nat.
Proof.
  intros H ->. unfold clean_username in H. cbn [trimmed_nonempty] in H. case_bool_decide as E; [done|].
  destruct (_ || _) eqn:Eo; [done|]. injection H as Et. rewrite Et in *. apply orb_false_iff in Eo as [Hl%Nat.ltb_ge Hc]. done.
Qed.

Lemma utf8_char_space c : is_scalar c -> is_whitespace c = false -> forallb is_space_byte (utf8_char c) = false.
Proof.
  intros Hc Hw. unfold is_scalar in Hc. unfold utf8_char.
  assert (forall b, 128 <= b -> is_space_byte b = false) as Hb.
  { intros b Hb. unfold is_space_byte. rewrite !(proj2 (Z.eqb_neq _ _)) by lia. done. }
  destruct (Z.ltb_spec c 128).
  - cbn [forallb]. rewrite andb_true_r. unfold is_whitespace in Hw. unfold is_space_byte.
    rewrite !orb_false_iff in Hw. destruct Hw as (((((((((( Hr & H32) & _) & _) & _) & _) & _) & _) & _) & _) & _).
    apply in_range_false in Hr. rewrite H32. cbn [orb]. rewrite !(proj2 (Z.eqb_neq _ _)) by lia. done.
  - destruct (Z.ltb_spec c 2048); [|destruct (Z.ltb_spec c 65536)]; cbn [forallb]; rewrite Hb; try done.
    + assert (0 <= c / 64) by (apply Z.div_pos; lia). lia.
    + assert (0 <= c / 4096) by (apply Z.div_pos; lia). lia.
    + assert (0 <= c / 262144) by (apply Z.div_pos; lia). lia.
Qed.

(** A record with a title is not a blank line. *)
Lemma titled_not_blank t rest : t <> [] -> trim t = t -> Forall is_scalar t -> is_blank_record (map utf8 (t :: rest)) = false.
Proof.
  intros Hne Ht Hs. unfold is_blank_record. cbn [map forallb]. destruct t as [|c t]; [done|].
  assert (is_whitespace c = false) as Hw.
  { unfold trim in Ht. destruct (trim_end_prefix (trim_start (c :: t))) as [q Eq]. rewrite Ht in Eq.
    by eapply (trim_start_head (c :: t) c (t ++ q)). }
  apply Forall_cons in Hs as [Hc _]. unfold utf8. rewrite bind_cons, forallb_app, utf8_char_space by done. done.
Qed.

Lemma one_url u r : trim u = u -> u <> [] -> normalize_url u = Ok u ->
  collect_urls [(u, Domain)] r no_extras = ([{| Model.url := u; match_type := Domain |}], r, no_extras).
Proof.
  intros Ht Hne Hu. unfold collect_urls. cbn [foldl]. unfold add_url. cbn [fst snd]. rewrite Ht, bool_decide_eq_false_2 by done.
  by rewrite Hu.
Qed.

Lemma nonblank_some t : t <> [] -> trim t = t -> nonblank (Some t) = Some t.
Proof. intros Hne Ht. unfold nonblank. cbn [mbind option_bind]. by rewrite Ht, bool_decide_eq_false_2. Qed.

(** The login of a row of an export, read by the Chrome importer. *)
Lemma chrome_row t u us pw n ot r :
  t <> [] -> trim t = t -> existsb is_control t = false -> (length t <= MAX_TITLE_CHARS)%nat ->
  clean_username us = Ok us ->
  (u = [] \/ normalize_url u = Ok u) ->
  exists i r', convert_row Chrome {| columns := row_columns; row_fields := [t; u; default [] us; pw; n; ot] |} r = (Some i, r') /\
    in_type (ii_input i) = Login /\ in_title (ii_input i) = t /\ in_username (ii_input i) = us /\
    map Model.url (in_urls (ii_input i)) = (if bool_decide (u = []) then [] else [u]) /\
    in_password (ii_input i) = set_or_keep (nonblank (Some pw)) /\ in_totp (ii_input i) = Keep.
Proof.
  intros Hne Ht Hc Hl Hus Hu. unfold convert_row. cbv zeta.
  rewrite (row_get_at _ "name" 0), (row_get_at _ "username" 2), (row_get_at _ "password" 3), (row_get_at _ "url" 1),
    (row_get_at _ "note" 4) by (vm_compute; reflexivity).
  cbn [lookup list_lookup]. rewrite (nonblank_some t) by done.
  assert (clean_some MAX_USERNAME_CHARS (nonblank (Some (default [] us))) = us) as Eus.
  { destruct us as [x|]; [|done]. destruct (clean_username_facts _ x Hus eq_refl) as (H1 & H2 & H3 & H4).
    cbn [default]. rewrite nonblank_some by done. cbn [clean_some]. by rewrite clean_line_id, bool_decide_eq_false_2. }
  eexists _, _. split; [done|]. unfold csv_login. cbn [lr_urls lr_totp lr_more_notes lr_folder lr_title lr_username lr_password lr_notes].
  assert (collect_urls (map (fun u => (u, Domain)) (option_list (nonblank (Some u)))) r no_extras =
    (if bool_decide (u = []) then [] else [{| Model.url := u; match_type := Domain |}], r, no_extras)) as ->.
  { destruct Hu as [->|Hu]; [done|]. destruct (normalize_url_ok _ _ Hu) as (Hun & Hut & _).
    rewrite nonblank_some, (bool_decide_eq_false_2 (u = [])) by done. by apply one_url. }
  cbn [row_totp]. destruct (tags_of_folder None) as [tags rejected]. cbn [fst snd ii_input in_type in_title in_username in_urls in_password in_totp].
  split; [done|]. split. { unfold title_or. cbn [clean_some]. by rewrite clean_line_id, bool_decide_eq_false_2. }
  split; [exact Eus|]. split; [by destruct (bool_decide _)|]. done.
Qed.

(** The logins and bank accounts of a visit: what has a row. *)
Definition with_row (l : list (ItemOverview * ItemDetails)) : list (ItemOverview * ItemDetails) :=
  List.filter (fun x => Model.is_some (csv_row x.1 x.2)) l.

Lemma exported_row o d row :
  exportable o d -> csv_row o d = Some row ->
  exists i, row_item Chrome row_columns 6 (CsvRecord (map utf8 row)) = Some i /\ reads_as (o, d) i.
Proof.
  intros (Htitle & Huser & Hurls & Hs) Hrow. specialize (Hs row Hrow).
  destruct (clean_title_facts _ Htitle) as (Hne & Ht & Hc & Hl).
  set (u := from_option Model.url [] (head (urls o))).
  assert (u = [] \/ normalize_url u = Ok u) as Hu.
  { unfold u. destruct (urls o) as [|x k] eqn:E; [by left|]. right. apply (clean_urls_normal (x :: k)); [done|]. left. }
  assert (take 1 (map Model.url (urls o)) = if bool_decide (u = []) then [] else [u]) as Hfirst.
  { unfold u in *. destruct (urls o) as [|x k]; [done|]. cbn [head map take from_option].
    assert (normalize_url (Model.url x) = Ok (Model.url x)) as Hx by (apply (clean_urls_normal (x :: k)); [done|left]).
    apply normalize_url_ok in Hx as (Hx & _). by rewrite bool_decide_eq_false_2. }
  assert (exists pw n ot, row = [title o; u; default [] (username o); default [] pw; n; ot] /\ password_of d = pw) as (pw & n & ot & -> & Hpw).
  { destruct d; cbn in Hrow; try done; injection Hrow as <-; by eexists _, _, _. }
  destruct (chrome_row (title o) u (username o) (default [] pw) n ot no_report Hne Ht Hc Hl Huser Hu)
    as (i & r' & E & H1 & H2 & H3 & H4 & H5 & H6).
  exists i. split.
  - assert (Forall is_scalar (title o)) as Hst by (apply Forall_cons in Hs as [Hs _]; exact Hs).
    cbn [row_item]. rewrite titled_not_blank by assumption.
    rewrite length_map. cbn [orb length Nat.eqb negb]. rewrite mapM_utf8 by done. cbn [mbind option_bind]. by rewrite E.
  - unfold reads_as. cbn [fst snd]. rewrite Hfirst. split_and!; try done.
    rewrite H5, Hpw. by destruct pw.
Qed.

Lemma exported_rows l :
  Forall (fun x => exportable x.1 x.2) l ->
  Forall2 reads_as (with_row l)
    (omap (row_item Chrome row_columns 6) (map (fun r => CsvRecord (map utf8 r)) (omap (fun x => csv_row x.1 x.2) l))) /\
  length (List.filter counts_row (map (fun r => CsvRecord (map utf8 r)) (omap (fun x => csv_row x.1 x.2) l))) = length (with_row l).
Proof.
  induction 1 as [|[o d] l Hx _ [IH1 IH2]]; [done|]. rewrite (omap_step (fun x => csv_row x.1 x.2)). cbn [fst snd] in *.
  unfold with_row. cbn [List.filter fst snd]. destruct (csv_row o d) as [row|] eqn:Er; cbn [Model.is_some Model.is_none negb]; [|done].
  destruct (exported_row o d row Hx Er) as (i & Ei & Hi). cbn [map]. rewrite omap_step, Ei. split; [by constructor|].
  cbn [List.filter]. assert (counts_row (CsvRecord (map utf8 row)) = true) as ->.
  { cbn [counts_row row_item] in *. destruct (is_blank_record _); [done|done]. }
  cbn [length]. f_equal. exact IH2.
Qed.

Lemma csv_rows_total s cols w reads items r :
  CsvIoError ∉ reads -> (length items + length (List.filter counts_row reads) <= MAX_ITEMS)%nat ->
  exists p, csv_rows s cols w reads items r = Ok p.
Proof.
  revert items r. induction reads as [|rd reads IH]; intros items r Hio Hl; cbn [csv_rows]; [by eexists|].
  apply not_elem_of_cons in Hio as [Hne Hio]. cbn [List.filter] in Hl.
  destruct rd as [fields| |]; [|done|apply IH; [done|cbn in Hl; lia]]. cbn [counts_row] in Hl.
  destruct (is_blank_record fields); [by apply IH|]. cbn [negb length] in Hl.
  rewrite (proj2 (Nat.leb_gt _ _)) by lia. destruct (negb _); [apply IH; [done|lia]|].
  destruct (mapM _ _); [|apply IH; [done|lia]]. destruct (convert_row _ _ _) as [[x|] r']; apply IH; try done; rewrite ?length_app; cbn [length]; lia.
Qed.

(** C17: the CSV export of a vault reads back as a Chrome export.  Every login
    and bank account that opened is one login, in the order of the export,
    with its title, username, first website and password (unless that is
    blank), and none fails; the one-time password, which the export's sixth
    column holds, is not read. *)
Theorem csv_export_reads_back v bytes sum l :
  for_each_item v = Ok l -> render_csv v = Ok (bytes, sum) ->
  Forall (fun x => exportable x.1 x.2) (readable l) -> (length (readable l) <= MAX_ITEMS)%nat ->
  exists p, csv_parse Chrome bytes = Ok p /\ failed (pa_report p) = 0%nat /\
    Forall2 reads_as (with_row (readable l)) (pa_items p).
Proof.
  intros Hl Hr Hex Hmax. unfold render_csv in Hr. rewrite Hl in Hr. cbn [mbind result_bind] in Hr. injection Hr as <- _.
  set (rows := omap (fun x => csv_row x.1 x.2) (readable l)).
  destruct (exported_rows _ Hex) as [Hf Hn]. fold rows in Hf, Hn.
  assert (csv_reads (concat (map csv_record (CSV_HEADER :: rows))) = CsvRecord (map utf8 CSV_HEADER) :: map (fun r => CsvRecord (map utf8 r)) rows) as Hreads.
  { rewrite (csv_roundtrip _ 6); [done|lia|]. constructor; [done|]. apply Forall_forall. intros row (x & _ & Hx)%list_elem_of_omap.
    destruct x as [o d]. cbn [fst snd] in Hx. destruct d; cbn in Hx; try done; by injection Hx as <-. }
  assert (strip_bom (concat (map csv_record (CSV_HEADER :: rows))) = concat (map csv_record (CSV_HEADER :: rows))) as Hbom.
  { destruct (csv_plain (lit "name") [lit "url"; lit "username"; lit "password"; lit "note"; lit "totp"]) as [t Et];
      [done|apply Forall_forall; intros c Hc; vm_compute in Hc; set_solver by lia|].
    cbn [map concat]. unfold CSV_HEADER at 1 2. rewrite Et. done. }
  unfold csv_parse. cbv zeta. rewrite bool_decide_eq_false_2 by done.
  change (csv_record CSV_HEADER ++ concat (map csv_record rows)) with (concat (map csv_record (CSV_HEADER :: rows))).
  rewrite Hbom, Hreads. assert (mapM from_utf8 (map utf8 CSV_HEADER) = Some CSV_HEADER) as -> by (vm_compute; reflexivity).
  cbn [ok_or mbind result_bind]. fold row_columns.
  assert (forallb (fun c => bool_decide (is_Some (row_columns !! c))) (required_columns Chrome) = true) as -> by (vm_compute; reflexivity).
  cbn [negb]. change (length (map utf8 CSV_HEADER)) with 6%nat.
  assert (length (with_row (readable l)) <= length (readable l))%nat as Hwl by apply List.filter_length_le.
  destruct (csv_rows_total Chrome row_columns 6 (map (fun r => CsvRecord (map utf8 r)) rows) [] no_report) as (p & Hp).
  { intros (r & E & _)%list_elem_of_fmap. done. }
  { rewrite Hn. cbn [length]. lia. }
  exists p. split; [exact Hp|]. apply csv_rows_exact in Hp as (E1 & E2 & E3 & E4); [|apply Nat.le_0_l|done].
  cbn [app] in E1. rewrite E1. split; [|exact Hf].
  change (failed no_report) with 0%nat in E4. apply Forall2_length in Hf. rewrite Hn, Hf in E4. lia.
Qed.
End ReadBack.

(** ** A concrete CSV and a concrete vault

    Every byte that is not a letter is written behind a zero. *)
Module ToyCsv.
Definition escape (b : Z) : list Z := if in_range 97 122 b then [b] else [0; b].
Definition record (r : list (list Z)) : list Z := concat (map (fun f => concat (map escape (utf8 f)) ++ [44]) r) ++ [10].

Fixpoint read (bytes cur : list Z) (fields : list (list Z)) : list CsvRead :=
  match bytes with
  | [] => []
  | 0 :: b :: bytes => read bytes (b :: cur) fields
  | 44 :: bytes => read bytes [] (reverse cur :: fields)
  | 10 :: bytes => CsvRecord (reverse fields) :: read bytes [] []
  | b :: bytes => read bytes (b :: cur) fields
  end.

#[export] Instance plain_forms : PlainForms := {|
  folders_json := fun _ => lit "[]"; bw_item_json := fun i => bw_name i; csv_record := record |}.
#[export] Instance csv_lib : CsvLib := fun bytes => read bytes [] [].

Lemma read_escaped b bytes cur fields : read (escape b ++ bytes) cur fields = read bytes (b :: cur) fields.
Proof.
  unfold escape. destruct (in_range 97 122 b) eqn:E; [|done]. apply in_range_true in E. cbn [app].
  assert (exists n, b = Zpos n /\ b <> 44 /\ b <> 10) as (n & -> & H1 & H2) by (destruct b as [|n|]; try lia; exists n; lia).
  cbn [read]. repeat match goal with |- context [match ?p with _ => _ end] => destruct p; try lia end; done.
Qed.

Lemma read_field bs bytes cur fields : read (concat (map escape bs) ++ bytes) cur fields = read bytes (reverse bs ++ cur) fields.
Proof.
  revert cur. induction bs as [|b bs IH]; intros cur; [done|]. cbn [map concat]. rewrite <- app_assoc, read_escaped, IH.
  by rewrite reverse_cons, <- app_assoc.
Qed.

Lemma read_record r bytes fields :
  read (record r ++ bytes) [] fields = CsvRecord (reverse fields ++ map utf8 r) :: read bytes [] [].
Proof.
  unfold record. revert fields. induction r as [|f r IH]; intros fields.
  { cbn [map concat app read]. by rewrite app_nil_r. }
  cbn [map concat]. rewrite <- !app_assoc, read_field. cbn [app read]. rewrite app_nil_r, reverse_involutive.
  change (10 :: bytes) with ([10] ++ bytes). rewrite app_assoc, IH. by rewrite reverse_cons, <- app_assoc.
Qed.

#[export] Instance csv_laws : CsvLaws plain_forms csv_lib.
Proof.
  split.
  - intros rows n _ _. unfold csv_reads, csv_lib. induction rows as [|r rows IH]; [done|].
    cbn [map concat]. change (csv_record r) with (record r). rewrite read_record, IH. done.
  - intros f rest _ Hf. cbn [csv_record plain_forms]. unfold record. cbn [map concat].
    exists ([44] ++ concat (map (fun f => concat (map escape (utf8 f)) ++ [44]) rest) ++ [10]). rewrite <- !app_assoc. f_equal.
    rewrite utf8_ascii by (eapply Forall_impl; [exact Hf|]; cbn; lia).
    clear rest. induction Hf as [|c f Hc _ IH]; [done|]. cbn [map concat]. rewrite IH. unfold escape.
    by rewrite (proj2 (in_range_true _ _ _)).
Qed.
End ToyCsv.

Module ToyExport.
Import Blob.Toy ToyUnicode ToyUrl ToyTotp ToySite ToyCodec Sample Run ToyCsv.

Definition visits : list Visit := of_ok [] (for_each_item stored).
Definition rendered : list Z * ExportSummary := of_ok ([], no_summary) (render_csv stored).
Definition site : ItemOverview * ItemDetails := default (BuildItem.sample_overview, DLogin sample_login) (head (readable visits)).

Lemma site_only : readable visits = [site].
Proof. vm_compute. reflexivity. Qed.

Definition is_scalar_ (c : Z) : bool := in_range 0 1114111 c && negb (in_range 55296 57343 c).
Lemma scalar_true s : forallb is_scalar_ s = true -> Forall is_scalar s.
Proof.
  intros H. apply Forall_forall. intros c Hc. rewrite forallb_forall in H. apply list_elem_of_In, H in Hc.
  unfold is_scalar_ in Hc. rewrite andb_true_iff, negb_true_iff, in_range_true, in_range_false in Hc. split; lia.
Qed.

Lemma site_exportable : exportable site.1 site.2.
Proof.
  split_and!; [vm_compute; reflexivity..|]. intros row H.
  assert (forallb (forallb is_scalar_) row = true) as Hr.
  { apply (f_equal (fun o => from_option (forallb (forallb is_scalar_)) true o)) in H. cbn [from_option] in H. rewrite <- H.
    vm_compute. reflexivity. }
  apply Forall_forall. intros s Hs. rewrite forallb_forall in Hr. by apply scalar_true, Hr, list_elem_of_In.
Qed.

Lemma csv_export_reads_back_witness :
  exists p, csv_parse Chrome rendered.1 = Ok p /\ failed (pa_report p) = 0%nat /\ Forall2 reads_as [site] (pa_items p).
Proof.
  assert (for_each_item stored = Ok visits) as Hv by (vm_compute; reflexivity).
  assert (render_csv stored = Ok (rendered.1, rendered.2)) as Hr by (vm_compute; reflexivity).
  assert (with_row [site] = [site]) as Hs by (vm_compute; reflexivity).
  destruct (csv_export_reads_back stored rendered.1 rendered.2 visits Hv Hr) as (p & H1 & H2 & H3).
  - rewrite site_only. constructor; [exact site_exportable|by apply Forall_nil].
  - rewrite site_only. apply (Nat.leb_le 1). vm_compute. reflexivity.
  - exists p. rewrite site_only, Hs in H3. split; [exact H1|]. split; [exact H2|exact H3].
Defined.

(** A KeePassXC file: a login with a code that does not parse, a row too
    short, a blank line and an entry of notes alone. *)
Definition keepass : list Z :=
  concat (map record [[lit "Title"; lit "Username"; lit "Password"; lit "URL"; lit "Notes"; lit "TOTP"];
                      [lit "Site"; lit "me"; lit "secret"; lit "https://a.com"; lit "n"; lit "?"];
                      [lit "short"]; [[32]; []]; [lit "Memo"; []; []; []; lit "remember"; []]]).
Definition from_keepass : Parsed := of_ok {| pa_items := []; pa_report := no_report |} (csv_parse KeePassXc keepass).

Lemma csv_import_exact_witness :
  csv_parse KeePassXc keepass = Ok from_keepass /\
  map (fun i => (in_title (ii_input i), in_notes (ii_input i), in_content (ii_input i))) (pa_items from_keepass)
    = [(lit "Site", SetTo (lit "n" ++ [10; 10] ++ lit "One-time password: ?"), Keep);
       (lit "Memo", Keep, SetTo (lit "remember"))] /\
  (length (pa_items from_keepass) + failed (pa_report from_keepass) = 3)%nat.
Proof.
  assert (csv_parse KeePassXc keepass = Ok from_keepass) as E by (vm_compute; reflexivity).
  split; [exact E|]. split; [vm_compute; reflexivity|].
  destruct (csv_import_exact KeePassXc keepass from_keepass E) as (header & names & rows & Hr & _ & _ & _ & Hn & _ & _).
  rewrite Hn. assert (csv_reads (strip_bom keepass) = CsvRecord header :: rows -> length (List.filter counts_row rows) = 3%nat) as H.
  { intros H. apply (f_equal (fun l => length (List.filter counts_row (drop 1 l)))) in H. cbn [drop] in H. rewrite drop_0 in H.
    rewrite <- H. vm_compute. reflexivity. }
  exact (H Hr).
Defined.
End ToyExport.
