(* ===== verification/HealthVault.v ===== *)
(** * Vault health on the unlocked vault (crates/havenkeys-core/src/health/vault.rs)

    The snapshot a report is computed from, the cached report, dismissed
    checks and help pages, over Health.v and the vault service. *)

From S2P Require Import Prelude Errors Text Blob Url Tags Totp Clean Card Identity.
From S2P Require Import CustomField Bank Sso Attachment Model Keys Store Origin Health BuildItem.
From S2P Require Import Vault Items Page ToyCodec Sync Replica Dates Import Staging.

Definition check_rank (c : HealthCheck) : Z :=
  match c with
  | Weak => 0 | Reused => 1 | Old => 2 | PasskeyCheck => 3 | TwoFactor => 4 | Insecure => 5 | Duplicate => 6
  end.

(** [Vec::dedup]. *)
Fixpoint dedup {A} `{EqDecision A} (l : list A) : list A :=
  match l with
  | x :: l' => match l' with
               | y :: _ => if decide (x = y) then dedup l' else x :: dedup l'
               | [] => [x]
               end
  | [] => []
  end.

Definition with_ignored (l : list HealthCheck) (d : LoginDetails) : LoginDetails :=
  {| password := password d; totp := totp d; notes := notes d; password_history := password_history d;
     passkeys := passkeys d; sections := sections d; app_bindings := app_bindings d; health_ignored := l |}.

Section HealthVault.
Context {C : Crypto} {K : KeyLib} {U : Unicode} {J : JsonLib} {UL : UrlLib} {SL : SiteLib UL} {L : TotpLib} {HL : HealthLib} {UT : UuidText}.

Definition cached_health (now_ms : Z) (v : VaultService) : Result (option HealthReport) :=
  s ← session v;
  Ok match health s with
     | Some r => if in_range 0 HEALTH_CACHE_MS (Prelude.as_i64 (now_ms - computed_at r)) then Some r else None
     | None => None
     end.

Definition login_facts (o : ItemOverview) (d : LoginDetails) : LoginFacts :=
  {| fact_id := Model.id o; fact_title := title o; fact_username := username o;
     fact_hosts := omap (fun r => rule_host (Model.url r)) (urls o); fact_password := password d;
     last_changed := match password_history d with p :: _ => replaced_at p | [] => Model.created_at o end;
     fact_has_totp := has_totp o; fact_has_passkey := has_passkey o; ignored := health_ignored d;
     dedupe := dedupe_key_parts o None |}.

Definition health_snapshot (v : VaultService) : Result HealthSnapshot :=
  s ← session v;
  Ok {| logins := omap (fun o => match load_details (Model.id o) v with
                                 | Ok (DLogin d) => Some (login_facts o d)
                                 | _ => None
                                 end)
                    (List.filter (fun o => bool_decide (item_type o = Login)) (Items.values (overviews s)));
        snap_generation := generation s; snap_epoch := epoch v |}.

Definition store_health (snap : HealthSnapshot) (r : HealthReport) (v : VaultService) : VaultService * bool :=
  if negb (snap_epoch snap =? epoch v) then (v, false)
  else match session v with
       | Ok s => if generation s =? snap_generation snap then (set_session (Some (with_health (Some r) s)) v, true) else (v, false)
       | Err _ => (v, false)
       end.

Definition health_report (now_ms : Z) : V HealthReport := fun v =>
  match cached_health now_ms v with
  | Err e => (v, Err e)
  | Ok (Some r) => (v, Ok r)
  | Ok None =>
      match health_snapshot v with
      | Err e => (v, Err e)
      | Ok snap => let r := compute snap now_ms in ((store_health snap r v).1, Ok r)
      end
  end.

Definition stage_health_ignored (item : Z) (checks : list HealthCheck) (r1 r2 : option (list Z)) (v : VaultService)
    : Result StagedWrite :=
  o ← get_item item v;
  if negb (bool_decide (item_type o = Login)) then Err Denied
  else
    d ← load_details item v;
    match d with
    | DLogin l =>
        stage v o (Some (DLogin (with_ignored (dedup (sort_by_key check_rank checks)) l))) (item_revision item (store v)) r1 r2
    | _ => Err Corrupted
    end.

Definition health_help_url (item : Z) (c : HealthCheck) (v : VaultService) : Result (list Z) :=
  dir ← match c with
        | PasskeyCheck => Ok passkey_sites
        | TwoFactor => Ok twofactor_sites
        | _ => Err (InvalidInput "no help link for this check")
        end;
  o ← get_item item v;
  if negb (bool_decide (item_type o = Login)) then Err Denied
  else ok_or NotFound (help_for dir (map snd (omap (fun r => rule_host (Model.url r)) (urls o)))).
End HealthVault.

(** ** The cached report *)

Section Facts.
Context {C : Crypto} {K : KeyLib} {U : Unicode} {J : JsonLib} {UL : UrlLib} {SL : SiteLib UL} {L : TotpLib} {HL : HealthLib} {UT : UuidText}.

Lemma computed_now s now : computed_at (compute s now) = now.
Proof.
  unfold compute.
  assert (forall re du l r, computed_at (foldl (add_login re du now) r l) = computed_at r) as Hf
    by (intros re du l; induction l as [|[i f] l IH]; intros r; [done|]; cbn [foldl]; by rewrite IH).
  apply Hf.
Qed.

(** A report is the cached one, or computed from the vault as it is; either
    way it is cached, and asked for again within ten minutes it is the same
    and changes nothing. *)
Lemma health_report_cached now v v' r :
  health_report now v = (v', Ok r) ->
  (cached_health now v = Ok (Some r) /\ v' = v \/
   exists snap, health_snapshot v = Ok snap /\ r = compute snap now) /\
  forall later, 0 <= Prelude.as_i64 (later - computed_at r) <= HEALTH_CACHE_MS -> health_report later v' = (v', Ok r).
Proof.
  unfold health_report at 1. destruct (cached_health now v) as [[r'|]|] eqn:Ec; [| |done].
  - intros [= <- <-]. split; [by left|]. intros later Hl. unfold health_report.
    unfold cached_health in Ec |- *. destruct (session v) as [s|]; [|done]. cbn [mbind result_bind] in Ec |- *.
    destruct (health s) as [r|]; [|done]. destruct (in_range 0 HEALTH_CACHE_MS (Prelude.as_i64 (now - _))); [|done].
    injection Ec as <-. by rewrite (proj2 (in_range_true _ _ _)).
  - destruct (health_snapshot v) as [snap|] eqn:Es; [|done]. intros [= <- <-].
    split; [by right; exists snap|]. intros later Hl. unfold health_report.
    unfold health_snapshot in Es. apply bind_Ok in Es as (s & Hs & [= <-]).
    unfold store_health. cbn [snap_epoch snap_generation]. rewrite Z.eqb_refl, Hs, Z.eqb_refl. cbn [negb fst].
    unfold cached_health. rewrite (session_set _ _ _ Hs). cbn [mbind result_bind health with_health].
    by rewrite (proj2 (in_range_true _ _ _)).
Qed.

(** A report computed while the vault was locked, or changed, is not kept. *)
Lemma stale_report_dropped snap r v v' b :
  store_health snap r v = (v', b) ->
  if b then snap_epoch snap = epoch v /\ exists s, session v = Ok s /\ generation s = snap_generation snap /\
              session v' = Ok (with_health (Some r) s)
  else v' = v.
Proof.
  unfold store_health. destruct (Z.eqb_spec (snap_epoch snap) (epoch v)); cbn [negb]; [|by intros [= <- <-]].
  destruct (session v) as [s|] eqn:Hs; [|by intros [= <- <-]].
  destruct (Z.eqb_spec (generation s) (snap_generation snap)); intros [= <- <-]; [|done].
  split; [done|]. exists s. split_and!; [done..|]. by apply (session_set _ _ _ Hs).
Qed.

Lemma dedup_in {A} `{EqDecision A} (x : A) l : x ∈ dedup l <-> x ∈ l.
Proof.
  induction l as [|y l IH]; [done|]. cbn [dedup]. destruct l as [|z l]; [done|].
  destruct (decide (y = z)) as [->|]; rewrite ?elem_of_cons in *; rewrite IH; rewrite ?elem_of_cons; naive_solver.
Qed.

Lemma dismissed_exactly c checks : c ∈ dedup (sort_by_key check_rank checks) <-> c ∈ checks.
Proof. by rewrite dedup_in, (sort_by_key_perm check_rank checks). Qed.
End Facts.
