(* ===== verification/AppTarget.v ===== *)
(** * Who is asking Android to fill (crates/havenkeys-core/src/app_target.rs, asset_links.rs)

    An app is its package name and signing certificates; a privileged browser
    is trusted to report its page; a website vouches for an app with its
    Digital Asset Links file, kept in a bounded cache.  The vendored browser
    list, the JSON of an asset links file and hex text are [AppLib]. *)

From S2P Require Import Prelude Errors Text Url Clean Model Origin.

Definition CERT_LEN : nat := 32.
Definition MAX_PACKAGE_LEN : Z := 255.
Definition MAX_SIGNERS : nat := 16.
Definition MAX_DOMAIN_LEN : Z := 260.
Definition MAX_ASSET_LINKS_BYTES : Z := 128 * 1024.
Definition MAX_STATEMENTS : nat := 256.
Definition FRESH_MS : Z := 7 * 24 * 60 * 60 * 1000.
Definition RETRY_FAILED_MS : Z := 60 * 60 * 1000.
Definition MAX_CACHED_HOSTS : nat := 256.
Definition MAX_CANDIDATES : nat := 8.

Record AppIdentity := { app_package : list Z; app_certs : list (list Z) }.

(** ** Packages *)

Definition is_ascii_alphabetic (c : Z) : bool := is_ascii_upper c || is_ascii_lower c.
Definition is_ascii_alphanumeric (c : Z) : bool := is_ascii_alphabetic c || is_ascii_digit c.

Definition valid_segment (seg : list Z) : bool :=
  match seg with
  | [] => false
  | c :: seg => is_ascii_alphabetic c && forallb (fun c => is_ascii_alphanumeric c || (c =? 95)) seg
  end.

Definition valid_package (p : list Z) : bool :=
  negb (bool_decide (p = [])) && (str_len p <=? MAX_PACKAGE_LEN)
  && (2 <=? length (split_on 46 p))%nat && forallb valid_segment (split_on 46 p).

(** [AppIdentity::new]. *)
Definition app_identity (package : list Z) (certs : list (list Z)) : Result AppIdentity :=
  if negb (valid_package package) || bool_decide (certs = []) || (MAX_SIGNERS <? length certs)%nat then Err Denied
  else
    certs ← mapM_result (fun c : list Z => if (length c =? CERT_LEN)%nat then Ok c else Err Denied) certs;
    Ok {| app_package := package; app_certs := certs |}.

Definition signed_by (cert : list Z) (a : AppIdentity) : bool := bool_decide (cert ∈ app_certs a).

(** ** Fingerprints *)

(** [u8::from_str_radix(part, 16)] of two bytes: a [+] may stand for the
    first digit. *)
Definition hex_digit (c : Z) : option Z :=
  if is_ascii_digit c then Some (c - 48)
  else if in_range 97 102 c then Some (c - 87)
  else if in_range 65 70 c then Some (c - 55)
  else None.
Definition hex_byte (part : list Z) : option Z :=
  match part with
  | [43; b] => hex_digit b
  | [a; b] => x ← hex_digit a; y ← hex_digit b; Some (16 * x + y)
  | _ => None
  end.

Definition parse_fingerprint (text : list Z) : option (list Z) :=
  let parts := split_on 58 text in
  if negb (length parts =? CERT_LEN)%nat then None
  else mapM (fun part => if str_len part =? 2 then hex_byte part else None) parts.

(** ** The documents *)

Record ListedSignature := { build : list Z; cert_fingerprint_sha256 : list Z }.
Record ListedApp := { la_kind : list Z; la_package : list Z; la_signatures : list ListedSignature }.
Record RawStatement := {
  relation : list (list Z);
  namespace : list Z;
  rs_package : option (list Z);
  rs_fingerprints : list (list Z);
}.
Record AppStatement := { as_package : list Z; as_certs : list (list Z); login_creds : bool }.

Class AppLib := {
  (** the vendored list; [None] when it does not parse *)
  browser_list : option (list ListedApp);
  (** the statements of an asset links file, each [None] when it is not one *)
  raw_statements : list Z -> option (list (option RawStatement));
  hexlower : list Z -> list Z;
}.

Section AppTarget.
Context {UL : UrlLib} {SL : SiteLib UL} {AL : AppLib}.

(** ** Browsers *)

Definition browsers : list (list Z * list Z) :=
  match browser_list with
  | None => []
  | Some apps =>
      List.filter (fun a => bool_decide (la_kind a = lit "android")) apps ≫= fun a =>
      map (pair (la_package a))
        (omap (fun s => parse_fingerprint (cert_fingerprint_sha256 s))
           (List.filter (fun s => bool_decide (build s = lit "release")) (la_signatures a)))
  end.

Definition is_privileged_browser (package cert : list Z) : bool :=
  existsb (fun p => bool_decide (p.1 = package) && bool_decide (p.2 = cert)) browsers.

Definition page_url_for (scheme domain : list Z) : option (list Z) :=
  if bool_decide (domain = []) || (MAX_DOMAIN_LEN <? str_len domain)
     || existsb (fun c => bool_decide (c ∈ lit "/\@?# ")) domain
  then None
  else let raw := scheme ++ lit "://" ++ domain ++ lit "/" in _ ← page_parse raw; Some raw.

Definition browser_page_url (domain : list Z) (scheme : option (list Z)) : option (list Z) :=
  match scheme with
  | Some s =>
      if bool_decide (s = lit "https") then page_url_for (lit "https") domain
      else if bool_decide (s = lit "http") then page_url_for (lit "http") domain
      else None
  | None => None
  end.

Inductive FillTarget := TBrowser (page_url : list Z) | TApp (a : AppIdentity).

Definition classify (own_package package : list Z) (certs : list (list Z)) (web_domain web_scheme : option (list Z))
    : Result FillTarget :=
  app ← app_identity package certs;
  if bool_decide (app_package app = own_package) then Err Denied
  else if negb (existsb (is_privileged_browser (app_package app)) (app_certs app)) then Ok (TApp app)
  else
    domain ← ok_or Denied web_domain;
    page ← ok_or Denied (browser_page_url domain web_scheme);
    Ok (TBrowser page).

(** ** Asset links *)

Definition LOGIN_RELATIONS : list (list Z) :=
  [lit "delegate_permission/common.handle_all_urls"; lit "delegate_permission/common.get_login_creds"].
Definition GET_LOGIN_CREDS : list Z := lit "delegate_permission/common.get_login_creds".
Definition GENERIC_LABELS : list (list Z) :=
  map lit ["com"; "org"; "net"; "app"; "apps"; "android"; "mobile"; "client"; "www"; "beta"; "debug";
           "release"; "prod"; "lite"]%string.

(** One statement of the file that says something about logging in. *)
Definition statement (s : RawStatement) : option AppStatement :=
  if negb (bool_decide (namespace s = lit "android_app"))
     || negb (existsb (fun r => bool_decide (r ∈ LOGIN_RELATIONS)) (relation s))
  then None
  else
    package ← rs_package s;
    if negb (valid_package package) then None
    else
      let certs := map hexlower (omap parse_fingerprint (rs_fingerprints s)) in
      if bool_decide (certs = []) then None
      else Some {| as_package := package; as_certs := certs;
                   login_creds := existsb (fun r => bool_decide (r = GET_LOGIN_CREDS)) (relation s) |}.

Definition links_parse (body : list Z) : Result (list AppStatement) :=
  if MAX_ASSET_LINKS_BYTES <? len body then Err (InvalidInput "asset links file too large")
  else
    raw ← ok_or (InvalidInput "asset links file is not valid") (raw_statements body);
    if (MAX_STATEMENTS <? length raw)%nat then Err (InvalidInput "asset links file too large")
    else Ok (omap (fun r => s ← r; statement s) raw).

Definition vouches_for (statements : list AppStatement) (app : AppIdentity) : bool :=
  existsb (fun s => bool_decide (as_package s = app_package app)
                    && existsb (fun c => bool_decide (hexlower c ∈ as_certs s)) (app_certs app)) statements.

Fixpoint find_map {A B} (f : A -> option B) (l : list A) : option B :=
  match l with [] => None | x :: l => match f x with Some y => Some y | None => find_map f l end end.

Definition login_creds_cert (statements : list AppStatement) (app : AppIdentity) : option (list Z) :=
  find_map (fun s => List.find (fun c => bool_decide (hexlower c ∈ as_certs s)) (app_certs app))
    (List.filter (fun s => login_creds s && bool_decide (as_package s = app_package app)) statements).

(** ** The cache *)

Record CachedHost := { ch_host : list Z; checked_at_ms : Z; ch_statements : option (list AppStatement) }.
Definition AssetLinksCache : Type := list CachedHost.

Definition fresh (h : CachedHost) (now_ms : Z) : bool :=
  in_range 0 (match ch_statements h with Some _ => FRESH_MS | None => RETRY_FAILED_MS end)
    (i64_saturating_sub now_ms (checked_at_ms h)).

Definition is_fresh (host : list Z) (now_ms : Z) (c : AssetLinksCache) : bool :=
  existsb (fun h => bool_decide (ch_host h = host) && fresh h now_ms) c.

Definition statements_for (host : list Z) (now_ms : Z) (c : AssetLinksCache) : option (list AppStatement) :=
  h ← List.find (fun h => bool_decide (ch_host h = host) && fresh h now_ms) c; ch_statements h.

Definition newest_first (h : CachedHost) : Reverse Z := {| reversed := checked_at_ms h |}.

(** [record]. *)
Definition cache_record (host : list Z) (now_ms : Z) (statements : option (list AppStatement)) (c : AssetLinksCache)
    : AssetLinksCache :=
  let c := List.filter (fun h => negb (bool_decide (ch_host h = host))) c
           ++ [{| ch_host := host; checked_at_ms := now_ms; ch_statements := statements |}] in
  if (MAX_CACHED_HOSTS <? length c)%nat then take MAX_CACHED_HOSTS (sort_by_key newest_first c) else c.

Definition verified_hosts (app : AppIdentity) (now_ms : Z) (c : AssetLinksCache) : list (list Z) :=
  map ch_host (List.filter (fun h => match ch_statements h with Some s => vouches_for s app | None => false end)
                 (List.filter (fun h => fresh h now_ms) c)).

(** The loop of [candidate_hosts]: it stops once it holds enough. *)
Fixpoint candidates (labels : list (list Z)) (hosts out : list (list Z)) : list (list Z) :=
  match hosts with
  | [] => out
  | host :: hosts =>
      match registrable_domain_of host with
      | None => candidates labels hosts out
      | Some site =>
          let first := default [] (head (split_on 46 site)) in
          if bool_decide (first ∈ labels) && negb (bool_decide (host ∈ out)) then
            let out := out ++ [host] in
            if (length out =? MAX_CANDIDATES)%nat then out else candidates labels hosts out
          else candidates labels hosts out
      end
  end.

Definition candidate_hosts (package : list Z) (hosts : list (list Z)) : list (list Z) :=
  let labels := List.filter (fun l => (3 <=? str_len l) && negb (bool_decide (l ∈ GENERIC_LABELS)))
                  (map (map to_ascii_lowercase) (split_on 46 package)) in
  candidates labels hosts [].
End AppTarget.
