(* ===== verification/Cbor.v ===== *)
(** * The CBOR WebAuthn needs (crates/havenkeys-core/src/passkey/cbor.rs)

    The encoder, and a reader of the same shapes (RFC 8949), which the code
    does not have: it states that an encoding is unambiguous, also when more
    bytes follow. *)

From S2P Require Import Prelude Errors Text.

Inductive Value :=
| VInt (i : Z)
| VBytes (b : list Z)
| VString (t : list Z)
| VMap (entries : list (Value * Value)).

(** An unsigned argument with its major type, in the shortest form. *)
Definition cbor_head (major n : Z) : list Z :=
  let m := Z.shiftl major 5 in
  if n <? 24 then [Z.lor m n]
  else if n <=? 255 then [Z.lor m 24; n]
  else if n <=? 65535 then Z.lor m 25 :: be_bytes 2 n
  else if n <=? 4294967295 then Z.lor m 26 :: be_bytes 4 n
  else Z.lor m 27 :: be_bytes 8 n.

(** [!(i as u64)]. *)
Definition not_u64 (i : Z) : Z := u64_max - i mod 2 ^ 64.

Fixpoint write (v : Value) : list Z :=
  match v with
  | VInt i => if 0 <=? i then cbor_head 0 i else cbor_head 1 (not_u64 i)
  | VBytes b => cbor_head 2 (len b) ++ b
  | VString t => cbor_head 3 (str_len t) ++ utf8 t
  | VMap es => cbor_head 5 (len es) ++ concat (map (fun e => write e.1 ++ write e.2) es)
  end.
Definition encode : Value -> list Z := write.

(** ** Reading *)

Definition read_head (b : list Z) : option (Z * Z * list Z) :=
  match b with
  | [] => None
  | x :: t =>
      let major := Z.shiftr x 5 in
      let low := Z.land x 31 in
      let arg n := if (length t <? n)%nat then None else Some (major, be_val (take n t), drop n t) in
      if low <? 24 then Some (major, low, t)
      else if low =? 24 then arg 1%nat
      else if low =? 25 then arg 2%nat
      else if low =? 26 then arg 4%nat
      else if low =? 27 then arg 8%nat
      else None
  end.

Fixpoint read (fuel : nat) (b : list Z) : option (Value * list Z) :=
  match fuel with
  | O => None
  | S fuel =>
      h ← read_head b;
      let '(major, n, t) := h : Z * Z * list Z in
      if major =? 0 then Some (VInt n, t)
      else if major =? 1 then Some (VInt (-1 - n), t)
      else if major =? 2 then
        if len t <? n then None else Some (VBytes (take (Z.to_nat n) t), drop (Z.to_nat n) t)
      else if major =? 3 then
        if len t <? n then None
        else s ← from_utf8 (take (Z.to_nat n) t); Some (VString s, drop (Z.to_nat n) t)
      else if major =? 5 then
        r ← (fix entries (k : nat) (t : list Z) : option (list (Value * Value) * list Z) :=
               match k with
               | O => Some ([], t)
               | S k =>
                   x ← read fuel t;
                   y ← read fuel x.2;
                   r ← entries k y.2;
                   Some ((x.1, y.1) :: r.1, r.2)
               end) (Z.to_nat n) t;
        Some (VMap r.1, r.2)
      else None
  end.

(** ** What can be encoded *)

Fixpoint depth (v : Value) : nat :=
  match v with
  | VMap es => S (foldr Nat.max 0%nat (map (fun e => Nat.max (depth e.1) (depth e.2)) es))
  | _ => 1%nat
  end.

Fixpoint valid (v : Value) : Prop :=
  match v with
  | VInt i => in_i64 i
  | VBytes b => len b <= u64_max
  | VString t => Forall is_scalar t /\ str_len t <= u64_max
  | VMap es => len es <= u64_max /\ foldr (fun e p => (valid e.1 /\ valid e.2) /\ p) True es
  end.

Section Induction.
Context (P : Value -> Prop) (Hi : forall i, P (VInt i)) (Hb : forall b, P (VBytes b)) (Ht : forall t, P (VString t))
  (Hm : forall es, Forall (fun e => P e.1 /\ P e.2) es -> P (VMap es)).

Fixpoint Value_ind' (v : Value) : P v :=
  match v with
  | VInt i => Hi i
  | VBytes b => Hb b
  | VString t => Ht t
  | VMap es => Hm es
      ((fix go (es : list (Value * Value)) : Forall (fun e => P e.1 /\ P e.2) es :=
          match es with
          | [] => Forall_nil_2 _
          | e :: es => Forall_cons_2 _ _ _ (conj (Value_ind' e.1) (Value_ind' e.2)) (go es)
          end) es)
  end.
End Induction.

(** ** Reading back *)

Lemma head_byte m k :
  m ∈ [0; 1; 2; 3; 5] -> 0 <= k < 32 ->
  Z.shiftr (Z.lor (Z.shiftl m 5) k) 5 = m /\ Z.land (Z.lor (Z.shiftl m 5) k) 31 = k.
Proof.
  intros Hm Hk.
  assert (forallb (fun m => forallb (fun i => let k := Z.of_nat i in
    (Z.shiftr (Z.lor (Z.shiftl m 5) k) 5 =? m) && (Z.land (Z.lor (Z.shiftl m 5) k) 31 =? k)) (seq 0 32))
    [0; 1; 2; 3; 5] = true) as H by reflexivity.
  rewrite forallb_forall in H. specialize (H m (proj1 (list_elem_of_In _ _) Hm)). rewrite forallb_forall in H.
  specialize (H (Z.to_nat k)). rewrite Z2Nat.id in H by lia. cbv zeta in H. rewrite andb_true_iff, !Z.eqb_eq in H.
  apply H, in_seq. lia.
Qed.

Lemma be_arg n w rest :
  0 <= n < 256 ^ Z.of_nat w -> be_val (take w (be_bytes w n ++ rest)) = n /\ drop w (be_bytes w n ++ rest) = rest /\
  (length (be_bytes w n ++ rest) <? w)%nat = false.
Proof.
  intros Hn. rewrite take_app_length', drop_app_length' by (by rewrite length_be_bytes).
  rewrite be_val_bytes, Z.mod_small by done. split_and!; [done..|]. apply Nat.ltb_ge. rewrite length_app, length_be_bytes. lia.
Qed.

Lemma read_head_write major n rest :
  major ∈ [0; 1; 2; 3; 5] -> 0 <= n <= u64_max -> read_head (cbor_head major n ++ rest) = Some (major, n, rest).
Proof.
  intros Hm Hn. unfold cbor_head. cbv zeta.
  destruct (Z.ltb_spec n 24).
  { destruct (head_byte major n Hm) as [Hs Hl]; [lia|]. cbn [app read_head]. rewrite Hs, Hl.
    by rewrite (proj2 (Z.ltb_lt _ _)). }
  destruct (Z.leb_spec n 255).
  { destruct (head_byte major 24 Hm) as [Hs Hl]; [lia|]. cbn [app read_head]. rewrite Hs, Hl.
    cbn -[be_val take drop length Nat.ltb]. change (length (n :: rest) <? 1)%nat with false.
    change (take 1 (n :: rest)) with [n]. change (drop 1 (n :: rest)) with rest.
    replace (be_val [n]) with n by (unfold be_val; cbn; lia). done. }
  destruct (Z.leb_spec n 65535); [|destruct (Z.leb_spec n 4294967295)].
  - destruct (head_byte major 25 Hm) as [Hs Hl]; [lia|]. destruct (be_arg n 2 rest) as (A1 & A2 & A3); [cbn; lia|].
    cbn [app read_head]. rewrite Hs, Hl. cbn -[be_val be_bytes take drop length Nat.ltb]. by rewrite A3, A1, A2.
  - destruct (head_byte major 26 Hm) as [Hs Hl]; [lia|]. destruct (be_arg n 4 rest) as (A1 & A2 & A3); [cbn; lia|].
    cbn [app read_head]. rewrite Hs, Hl. cbn -[be_val be_bytes take drop length Nat.ltb]. by rewrite A3, A1, A2.
  - destruct (head_byte major 27 Hm) as [Hs Hl]; [lia|]. unfold u64_max in Hn. destruct (be_arg n 8 rest) as (A1 & A2 & A3); [cbn; lia|].
    cbn [app read_head]. rewrite Hs, Hl. cbn -[be_val be_bytes take drop length Nat.ltb]. by rewrite A3, A1, A2.
Qed.

Lemma not_u64_neg i : in_i64 i -> i < 0 -> not_u64 i = -1 - i /\ 0 <= not_u64 i <= u64_max.
Proof.
  unfold in_i64, i64_min, i64_max, not_u64, u64_max. intros Hi Hn.
  assert (i mod 2 ^ 64 = i + 2 ^ 64) as -> by (symmetry; apply (Z.mod_unique i (2 ^ 64) (-1)); lia). lia.
Qed.

(** Entries, read one after the other. *)
Fixpoint read_entries (fuel : nat) (k : nat) (t : list Z) : option (list (Value * Value) * list Z) :=
  match k with
  | O => Some ([], t)
  | S k =>
      x ← read fuel t;
      y ← read fuel x.2;
      r ← read_entries fuel k y.2;
      Some ((x.1, y.1) :: r.1, r.2)
  end.

Lemma read_S fuel b :
  read (S fuel) b =
    h ← read_head b;
    let '(major, n, t) := h : Z * Z * list Z in
    if major =? 0 then Some (VInt n, t)
    else if major =? 1 then Some (VInt (-1 - n), t)
    else if major =? 2 then
      if len t <? n then None else Some (VBytes (take (Z.to_nat n) t), drop (Z.to_nat n) t)
    else if major =? 3 then
      if len t <? n then None
      else s ← from_utf8 (take (Z.to_nat n) t); Some (VString s, drop (Z.to_nat n) t)
    else if major =? 5 then r ← read_entries fuel (Z.to_nat n) t; Some (VMap r.1, r.2)
    else None.
Proof.
  cbn [read]. destruct (read_head b) as [[[major n] t]|]; [|done]. cbn [mbind option_bind].
  repeat (case_match; [done|]). case_match; [|done]. f_equal.
  generalize (Z.to_nat n). intros k. revert t. induction k as [|k IH]; intros t; [done|]. cbn [read_entries].
  destruct (read fuel t) as [x|]; [|done]. cbn [mbind option_bind]. destruct (read fuel x.2) as [y|]; [|done].
  cbn [mbind option_bind]. by rewrite IH.
Qed.

Lemma depth_entry e es : In e es -> (depth e.1 < depth (VMap es) /\ depth e.2 < depth (VMap es))%nat.
Proof.
  cbn [depth]. induction es as [|e' es IH]; [done|]. intros [->|Hin]; cbn [map foldr]; [lia|]. specialize (IH Hin). lia.
Qed.

Lemma read_entries_write fuel es rest :
  Forall (fun e => forall t, read fuel (write e.1 ++ t) = Some (e.1, t)) es ->
  Forall (fun e => forall t, read fuel (write e.2 ++ t) = Some (e.2, t)) es ->
  read_entries fuel (length es) (concat (map (fun e => write e.1 ++ write e.2) es) ++ rest) = Some (es, rest).
Proof.
  intros H1 H2. induction es as [|[k v] es IH]; [done|]. apply Forall_cons in H1 as [Hk H1]. apply Forall_cons in H2 as [Hv H2].
  cbn [length read_entries map concat fst snd] in *. rewrite <- !app_assoc, Hk. cbn [mbind option_bind snd fst]. rewrite Hv.
  cbn [mbind option_bind snd fst]. by rewrite IH.
Qed.

Lemma read_write v : forall fuel rest, valid v -> (depth v <= fuel)%nat -> read fuel (write v ++ rest) = Some (v, rest).
Proof.
  induction v as [i|b|t|es IH] using Value_ind'; intros [|fuel] rest Hv Hd; try (cbn in Hd; lia); rewrite read_S.
  - cbn [valid] in Hv. cbn [write]. destruct (Z.leb_spec 0 i) as [Hi|Hi].
    + rewrite read_head_write; [done|set_solver|]. unfold in_i64, i64_max, u64_max in *. lia.
    + destruct (not_u64_neg i Hv Hi) as [E B]. rewrite read_head_write by (set_solver || done). cbn [mbind option_bind].
      rewrite E. cbn. f_equal. f_equal. f_equal. lia.
  - cbn [valid] in Hv. cbn [write]. rewrite <- app_assoc, read_head_write by (set_solver || lia). cbn -[Z.ltb].
    rewrite length_app, (proj2 (Z.ltb_ge _ _)) by lia. by rewrite Nat2Z.id, take_app_length, drop_app_length.
  - cbn [valid] in Hv. destruct Hv as [Hs Hl]. unfold str_len in Hl. cbn [write]. rewrite <- app_assoc. unfold str_len.
    rewrite read_head_write by (set_solver || lia). cbn -[Z.ltb from_utf8].
    rewrite length_app, (proj2 (Z.ltb_ge _ _)) by lia. rewrite Nat2Z.id, take_app_length, drop_app_length.
    by rewrite from_utf8_utf8.
  - cbn [valid] in Hv. destruct Hv as [Hl Hv]. cbn [write]. rewrite <- app_assoc, read_head_write by (set_solver || lia).
    cbn -[read_entries]. rewrite Nat2Z.id.
    assert (forall e, In e es -> valid e.1 /\ valid e.2) as Hve.
    { clear -Hv. induction es as [|e es IH]; [done|]. destruct Hv as [He Hv]. intros x [<-|Hx]; [done|by apply IH]. }
    rewrite read_entries_write; [done|..]; apply Forall_forall; intros e He%list_elem_of_In; intros t;
      destruct (depth_entry e es He) as [D1 D2]; destruct (Hve e He) as [V1 V2];
      eapply Forall_forall in IH as [I1 I2]; try (by apply list_elem_of_In); [apply I1|apply I2]; try done; lia.
Qed.

(** What the passkey code encodes, a CBOR reader gets back, whatever
    bytes follow it: so no two documents have the same encoding and none is a
    prefix of another. *)
Lemma cbor_roundtrip v rest :
  valid v -> read (depth v) (encode v ++ rest) = Some (v, rest).
Proof. intros Hv. by apply read_write. Qed.

Definition sample : Value :=
  VMap [(VInt (-3), VBytes [7; 8]); (VString (lit "fmt"), VMap []); (VInt (- 2 ^ 63), VInt (2 ^ 40))].

Lemma cbor_roundtrip_witness :
  encode sample = [163; 34; 66; 7; 8; 99; 102; 109; 116; 160; 59; 127; 255; 255; 255; 255; 255; 255; 255;
                   27; 0; 0; 1; 0; 0; 0; 0; 0] /\
  read (depth sample) (encode sample ++ [9]) = Some (sample, [9]).
Proof.
  split; [vm_compute; reflexivity|]. apply (cbor_roundtrip sample [9]).
  change (lit "fmt") with [102; 109; 116] in *. unfold sample. change (lit "fmt") with [102; 109; 116].
  cbn. unfold in_i64, i64_min, i64_max, u64_max, str_len, is_scalar. cbn. repeat split; try lia.
  all: repeat (apply Forall_cons_2; [lia|]); apply Forall_nil_2.
Defined.
