(* ===== verification/Passkey.v ===== *)
(** * Passkeys: the authenticator (crates/havenkeys-core/src/passkey/mod.rs, rp.rs, webauthn.rs)

    Which relying-party IDs a page or an app may use, the client data and
    authenticator data that are signed, registration and assertion.  The
    P-256 operations, Base64url, serde_json's text of a string and the url
    crate's host parser are [PasskeyLib]. *)

From S2P Require Import Prelude Errors Text Blob Url Clean Model Origin AppTarget Cbor.

Definition MAX_RP_ID_BYTES : Z := 253.
Definition MAX_PASSKEYS_PER_LOGIN : nat := 8.
Definition CREDENTIAL_ID_LEN : nat := 16.
Definition MAX_USER_HANDLE_BYTES : nat := 64.
Definition MIN_CHALLENGE_BYTES : nat := 1.
Definition MAX_CHALLENGE_BYTES : nat := 4096.
Definition COSE_ALG_ES256 : Z := -7.

Class PasskeyLib := {
  host_parse : list Z -> option Host;
  json_str : list Z -> list Z;
  encode_b64url : list Z -> list Z;
  decode_b64url : list Z -> option (list Z);
  (** [SigningKey::from_slice]: the scalar is in range *)
  signing_key : list Z -> bool;
  (** the public key's coordinates, its DER form, and the DER signature *)
  point_x : list Z -> list Z;
  point_y : list Z -> list Z;
  public_key_der : list Z -> option (list Z);
  sign : list Z -> list Z -> list Z;
}.

Record RpContext := {
  rp : list Z;
  rp_origin : list Z;
  cross_origin : bool;
  top_origin : option (list Z);
}.

Inductive Ceremony := Create | Get.
Record NewUser := { nu_handle : list Z; nu_name : list Z; nu_display : option (list Z) }.
Record Registration := {
  reg_credential_id : list Z;
  reg_client_data : list Z;
  reg_authenticator_data : list Z;
  reg_attestation : list Z;
  reg_public_key : list Z;
}.
Record Assertion := {
  ass_credential_id : list Z;
  ass_client_data : list Z;
  ass_authenticator_data : list Z;
  ass_signature : list Z;
  ass_user_handle : list Z;
}.

(** A site-supplied account name. *)
Definition clean_site_name (name : option (list Z)) : Result (option (list Z)) :=
  match name with
  | None => Ok None
  | Some n =>
      let n := trim n in
      if (MAX_USERNAME_CHARS <? length n)%nat || existsb is_control n
      then Err (InvalidInput "account name is too long or contains control characters")
      else Ok (Some n)
  end.

Section Passkey.
Context {C : Crypto} {UL : UrlLib} {SL : SiteLib UL} {AL : AppLib} {PL : PasskeyLib}.

(** ** Relying parties *)

Definition secure_context (u : Url) : bool :=
  bool_decide (url_scheme u = lit "https")
  || (bool_decide (url_scheme u = lit "http") && bool_decide (url_host_str u = Some (lit "localhost"))).

Definition normalize_rp_id (raw : list Z) : option (list Z) :=
  if bool_decide (raw = []) || (MAX_RP_ID_BYTES <? str_len raw) || ends_with (lit ".") raw then None
  else
    h ← host_parse raw;
    Some match h with
         | HDomain d => d
         | HIpv4 a b c d => join (lit ".") (map to_decimal [a; b; c; d])
         | HIpv6 ip => lit "[" ++ ipv6_to_string ip ++ lit "]"
         end.

(** [same_site] of two hosts (rp.rs). *)
Definition hosts_same_site (a b : list Z) : bool :=
  match registrable_domain_of a, registrable_domain_of b with
  | Some x, Some y => bool_decide (x = y)
  | _, _ => bool_decide (a = b)
  end.

Definition top_frame (host origin : list Z) (top_url : option (list Z)) : Result (bool * option (list Z)) :=
  match top_url with
  | None => Ok (false, None)
  | Some t =>
      top ← ok_or Denied (page_parse t);
      if negb (secure_context top) then Err Denied
      else
        top_host ← ok_or Denied (host_key top);
        if negb (hosts_same_site host top_host) then Err Denied
        else
          let o := url_origin_ascii top in
          if bool_decide (o = origin) then Ok (false, None) else Ok (true, Some o)
  end.

(** [rp_id] is a parent of [host] within its registrable domain. *)
Definition parent_within (rp_id host : list Z) (is_domain : bool) : Result bool :=
  site ← ok_or Denied (registrable_domain_of host);
  let parent := match strip_suffix rp_id host with Some rest => ends_with (lit ".") rest | None => false end in
  let within_site := bool_decide (rp_id = site) || ends_with (lit "." ++ site) rp_id in
  Ok (is_domain && parent && within_site).

Definition authorize_rp (rp_id page_url : list Z) (top_url : option (list Z)) : Result RpContext :=
  frame ← ok_or Denied (page_parse page_url);
  if negb (secure_context frame) then Err Denied
  else
    host ← ok_or Denied (host_key frame);
    rp_id ← ok_or Denied (normalize_rp_id rp_id);
    allowed ← (if bool_decide (rp_id = host) then Ok true
               else parent_within rp_id host (match url_host frame with Some (HDomain _) => true | _ => false end));
    if negb allowed then Err Denied
    else
      let origin := url_origin_ascii frame in
      t ← top_frame host origin top_url;
      Ok {| rp := rp_id; rp_origin := origin; cross_origin := t.1; top_origin := t.2 |}.

Definition android_app_origin (cert : list Z) : list Z := lit "android:apk-key-hash:" ++ encode_b64url cert.

Definition app_rp_id (raw : list Z) : option (list Z) :=
  id ← normalize_rp_id raw;
  match host_parse id with
  | Some (HDomain _) =>
      if negb (bool_decide (id = lit "localhost")) && is_some (registrable_domain_of id) then Some id else None
  | _ => None
  end.

Definition authorize_rp_for_app (rp_id : list Z) (app : AppIdentity) (cache : AssetLinksCache) (now_ms : Z)
    : Result RpContext :=
  rp_id ← ok_or Denied (app_rp_id rp_id);
  statements ← ok_or Denied (statements_for rp_id now_ms cache);
  cert ← ok_or Denied (login_creds_cert statements app);
  Ok {| rp := rp_id; rp_origin := android_app_origin cert; cross_origin := false; top_origin := None |}.

(** ** What is signed *)

Definition FLAG_UP : Z := 1.
Definition FLAG_UV : Z := 4.
Definition FLAG_BE : Z := 8.
Definition FLAG_BS : Z := 16.
Definition FLAG_AT : Z := 64.
Definition AAGUID : list Z := [95; 169; 98; 59; 194; 255; 65; 102; 146; 218; 192; 17; 160; 54; 188; 176].

Definition quoted (s : string) : list Z := [34] ++ lit s ++ [34].

Definition client_data_json (c : Ceremony) (challenge : list Z) (ctx : RpContext) : list Z :=
  let kind := match c with Create => lit "webauthn.create" | Get => lit "webauthn.get" end in
  utf8 ([123] ++ quoted "type" ++ [58] ++ json_str kind ++ [44] ++ quoted "challenge" ++ [58]
        ++ json_str (encode_b64url challenge) ++ [44] ++ quoted "origin" ++ [58] ++ json_str (rp_origin ctx) ++ [44]
        ++ quoted "crossOrigin" ++ [58] ++ (if cross_origin ctx then lit "true" else lit "false")
        ++ match top_origin ctx with Some t => [44] ++ quoted "topOrigin" ++ [58] ++ json_str t | None => [] end
        ++ [125]).

(** [credential_id.len() as u16]. *)
Definition authenticator_data (rp_id : list Z) (attested : option (list Z * list Z)) : list Z :=
  let flags := Z.lor (Z.lor (Z.lor FLAG_UP FLAG_UV) FLAG_BE) FLAG_BS in
  let flags := match attested with Some _ => Z.lor flags FLAG_AT | None => flags end in
  sha256 (utf8 rp_id) ++ [flags] ++ be_bytes 4 0
  ++ match attested with
     | Some (credential_id, cose_key) => AAGUID ++ be_bytes 2 (len credential_id mod 2 ^ 16) ++ credential_id ++ cose_key
     | None => []
     end.

Definition cose_public_key (key : list Z) : list Z :=
  encode (VMap [(VInt 1, VInt 2); (VInt 3, VInt COSE_ALG_ES256); (VInt (-1), VInt 1);
                (VInt (-2), VBytes (point_x key)); (VInt (-3), VBytes (point_y key))]).

Definition attestation_object_none (auth_data : list Z) : list Z :=
  encode (VMap [(VString (lit "fmt"), VString (lit "none")); (VString (lit "attStmt"), VMap []);
                (VString (lit "authData"), VBytes auth_data)]).

(** [new_signing_key]: eight draws at most; [None] is a failing generator. *)
Fixpoint first_key (draws : list (option (list Z))) : Result (list Z) :=
  match draws with
  | [] => Err Rng
  | None :: _ => Err Rng
  | Some b :: draws => if signing_key b then Ok b else first_key draws
  end.
Definition new_signing_key (draws : nat -> option (list Z)) : Result (list Z) := first_key (map draws (seq 0 8)).

(** [register]; [random] draws the key's tries, then the credential ID. *)
Definition register (ctx : RpContext) (challenge : list Z) (user : NewUser) (now_ms : Z)
    (draws : nat -> option (list Z)) (random_id : option (list Z)) : Result (Passkey * Registration) :=
  key ← new_signing_key draws;
  credential_id ← ok_or Rng random_id;
  let data := authenticator_data (rp ctx) (Some (credential_id, cose_public_key key)) in
  public_key ← ok_or Encryption (public_key_der key);
  Ok ({| credential_id := credential_id; rp_id := rp ctx; user_handle := nu_handle user; user_name := nu_name user;
         display_name := nu_display user; private_key := key; pk_created_at := now_ms; pk_replaced_at := None |},
      {| reg_credential_id := credential_id; reg_client_data := client_data_json Create challenge ctx;
         reg_authenticator_data := data; reg_attestation := attestation_object_none data; reg_public_key := public_key |}).

(** [assert]. *)
Definition sign_assertion (p : Passkey) (ctx : RpContext) (challenge : list Z) (client_data_hash : option (list Z))
    : Result Assertion :=
  if negb (signing_key (private_key p)) then Err Corrupted
  else
    let data := authenticator_data (rp ctx) None in
    let client := client_data_json Get challenge ctx in
    let signed := data ++ match client_data_hash with Some h => h | None => sha256 client end in
    Ok {| ass_credential_id := credential_id p; ass_client_data := client; ass_authenticator_data := data;
          ass_signature := sign (private_key p) signed; ass_user_handle := user_handle p |}.
End Passkey.
