(* ===== verification/PasskeyVault.v ===== *)
(** * Passkeys of an unlocked vault (crates/havenkeys-core/src/passkey/vault.rs)

    Finding, using, creating and removing passkeys for a page.  The page URL
    is checked on every call; a passkey is bound to its relying-party ID.

    A login's details are read through [load_details]; one that does not open
    is skipped.  The map of items is visited in no particular order, as in
    the code. *)

From S2P Require Import Prelude Errors Text Blob Url Tags Totp Clean Card Identity.
From S2P Require Import CustomField Bank Sso Attachment Model Keys Store Origin Health BuildItem.
From S2P Require Import Vault Items Page AppTarget Cbor Passkey.

Record PasskeyMatch := {
  pm_item : Z;
  pm_credential : list Z;
  pm_title : list Z;
  pm_user : list Z;
  pm_replaced : bool;
}.
Inductive Upgrade := UpNone | UpAsk (item : Z) | UpAuto (item : Z).
#[export] Instance Upgrade_eq_dec : EqDecision Upgrade.
Proof. solve_decision. Defined.

Record CreateCheck := { cc_excluded : bool; cc_candidates : list Suggestion; cc_upgrade : Upgrade }.
Record CreateQuery := {
  cq_rp : list Z; cq_page : list Z; cq_top : option (list Z); cq_user : list Z; cq_exclude : list (list Z);
  cq_conditional : bool }.
Record PasskeyCreate := {
  pc_rp : list Z; pc_page : list Z; pc_top : option (list Z); pc_challenge : list Z; pc_handle : list Z;
  pc_user : list Z; pc_display : option (list Z); pc_item : option Z; pc_conditional : bool }.
Record NewPasskey := { np_challenge : list Z; np_handle : list Z; np_user : list Z; np_display : option (list Z) }.
Record Homes := { chosen : option Z; offered : list Z; refuse_replace : bool }.
Record StagedPasskey := { sp_write : StagedWrite; sp_item : Z; sp_registration : Registration }.
Record PasskeyInfo := {
  pi_credential : list Z; pi_rp : list Z; pi_user : list Z; pi_display : option (list Z); pi_created : Z;
  pi_replaced : bool }.

(** The overview and details with some fields replaced. *)
Definition with_passkeys (l : list Passkey) (d : LoginDetails) : LoginDetails :=
  {| password := password d; totp := totp d; notes := notes d; password_history := password_history d; passkeys := l;
     sections := sections d; app_bindings := app_bindings d; health_ignored := health_ignored d |}.
Definition with_has_passkey (b : bool) (o : ItemOverview) : ItemOverview :=
  {| Model.id := Model.id o; item_type := item_type o; title := title o; username := username o; urls := urls o;
     has_password := has_password o; has_totp := has_totp o; has_notes := has_notes o; has_passkey := b;
     auto_sign_in := auto_sign_in o; sign_in_with := sign_in_with o; card := card o; Model.bank := Model.bank o;
     tags := tags o; trashed_at := trashed_at o; attachments := attachments o; extra := extra o;
     Model.created_at := Model.created_at o; updated_at := updated_at o |}.
Definition replaced_now (now_ms : Z) (p : Passkey) : Passkey :=
  {| credential_id := credential_id p; rp_id := rp_id p; user_handle := user_handle p; user_name := user_name p;
     display_name := display_name p; private_key := private_key p; pk_created_at := pk_created_at p;
     pk_replaced_at := Some now_ms |}.

Definition check_challenge (c : list Z) : Result () :=
  if (MIN_CHALLENGE_BYTES <=? length c)%nat && (length c <=? MAX_CHALLENGE_BYTES)%nat then Ok ()
  else Err (InvalidInput "invalid challenge").

Section PasskeyVault.
Context {C : Crypto} {K : KeyLib} {U : Unicode} {J : JsonLib} {UL : UrlLib} {SL : SiteLib UL} {L : TotpLib}.
Context {AL : AppLib} {PL : PasskeyLib}.

Definition fold_name (s : list Z) : list Z := to_lowercase (trim s).

(** Stable: [false] sorts before [true]. *)
Definition same_user_first (candidates : list Suggestion) (user : list Z) : list Suggestion :=
  let same s := bool_decide (fold_name <$> sg_username s = Some (fold_name user)) in
  List.filter same candidates ++ List.filter (fun s => negb (same s)) candidates.

Definition passkey_logins (s : Session) : list ItemOverview :=
  List.filter (fun o => bool_decide (item_type o = Login) && has_passkey o) (Items.values (overviews s)).

(** The passkeys of a login that opens. *)
Definition login_passkeys (v : VaultService) (item : Z) : option (list Passkey) :=
  match load_details item v with Ok (DLogin d) => Some (passkeys d) | _ => None end.

Definition find_login_with_passkey (pred : Passkey -> bool) (v : VaultService) : Result (option Z) :=
  s ← session v;
  Ok (find_map (fun o => match login_passkeys v (Model.id o) with
                         | Some l => if existsb pred l then Some (Model.id o) else None
                         | None => None
                         end) (passkey_logins s)).

Definition same_account_passkey (rp handle : list Z) (p : Passkey) : bool :=
  bool_decide (rp_id p = rp) && bool_decide (user_handle p = handle).

Definition find_passkey_holder (rp handle : list Z) (v : VaultService) : Result (option Z) :=
  find_login_with_passkey (same_account_passkey rp handle) v.

Definition load_login_for_edit (item now_ms : Z) (v : VaultService) : Result (ItemOverview * ItemDetails * option Z) :=
  o ← get_item item v;
  d ← load_details item v;
  Ok (with_updated now_ms o, d, item_revision item (store v)).

(** ** Using a passkey *)

Definition usable (ctx : RpContext) (allow : list (list Z)) (p : Passkey) : bool :=
  bool_decide (rp_id p = rp ctx) && (bool_decide (allow = []) || bool_decide (credential_id p ∈ allow)).

Definition passkey_match (o : ItemOverview) (p : Passkey) : PasskeyMatch :=
  {| pm_item := Model.id o; pm_credential := credential_id p; pm_title := title o; pm_user := user_name p;
     pm_replaced := is_some (pk_replaced_at p) |}.

Definition match_key (m : PasskeyMatch) : list Z * (list Z * (Z * Z)) :=
  (to_lowercase (pm_title m), (to_lowercase (pm_user m), (if pm_replaced m then 1 else 0, pm_item m))).

Definition passkeys_for (ctx : RpContext) (allow : list (list Z)) (v : VaultService) : Result (list PasskeyMatch) :=
  s ← session v;
  Ok (sort_by_key match_key
        (passkey_logins s ≫= fun o =>
           match login_passkeys v (Model.id o) with
           | Some l => map (passkey_match o) (List.filter (usable ctx allow) l)
           | None => []
           end)).

Definition find_passkeys (rp_id page_url : list Z) (top_url : option (list Z)) (allow : list (list Z)) (v : VaultService)
    : Result (list PasskeyMatch) :=
  _ ← session v;
  ctx ← authorize_rp rp_id page_url top_url;
  passkeys_for ctx allow v.

Definition assert_for (item : Z) (credential : list Z) (ctx : RpContext) (challenge : list Z)
    (client_data_hash : option (list Z)) (v : VaultService) : Result Assertion :=
  d ← load_details item v;
  match d with
  | DLogin l =>
      p ← ok_or Denied (List.find (fun p => bool_decide (credential_id p = credential) && bool_decide (rp_id p = rp ctx))
                          (passkeys l));
      sign_assertion p ctx challenge client_data_hash
  | _ => Err Denied
  end.

Definition passkey_assert (item : Z) (credential rp_id page_url : list Z) (top_url : option (list Z)) (challenge : list Z)
    (v : VaultService) : Result Assertion :=
  _ ← session v;
  _ ← check_challenge challenge;
  ctx ← authorize_rp rp_id page_url top_url;
  assert_for item credential ctx challenge None v.

Definition passkey_assert_with_hash (item : Z) (credential rp_id page_url challenge hash : list Z) (v : VaultService)
    : Result Assertion :=
  _ ← session v;
  _ ← check_challenge challenge;
  ctx ← authorize_rp rp_id page_url None;
  assert_for item credential ctx challenge (Some hash) v.

(** ** Dropping replaced passkeys *)

Definition proven (ctx : RpContext) (allow : list (list Z)) (all : list Passkey) (p : Passkey) : bool :=
  bool_decide (rp_id p = rp ctx) && is_some (pk_replaced_at p)
  && existsb (fun q => is_none (pk_replaced_at q) && bool_decide (rp_id q = rp_id p)
                       && bool_decide (user_handle q = user_handle p) && bool_decide (credential_id q ∈ allow)) all.

(** The credentials of a login that may go. *)
Definition gone (ctx : RpContext) (allow : list (list Z)) (l : list Passkey) : list (list Z) :=
  map credential_id (List.filter (proven ctx allow l) l).

Definition without (ids : list (list Z)) (l : list Passkey) : list Passkey :=
  List.filter (fun p => negb (bool_decide (credential_id p ∈ ids))) l.

Definition stage_drop_replaced_passkeys (rp_id page_url : list Z) (top_url : option (list Z)) (allow : list (list Z))
    (now_ms : Z) (r1 r2 : option (list Z)) (v : VaultService) : Result (option StagedWrite) :=
  s ← session v;
  ctx ← authorize_rp rp_id page_url top_url;
  if bool_decide (allow = []) then Ok None
  else
    match find_map (fun o => l ← login_passkeys v (Model.id o);
                             if bool_decide (gone ctx allow l = []) then None else Some (Model.id o, gone ctx allow l))
            (passkey_logins s) with
    | None => Ok None
    | Some (item, ids) =>
        odb ← load_login_for_edit item now_ms v;
        let '(o, d, base) := odb : ItemOverview * ItemDetails * option Z in
        match d with
        | DLogin l => w ← stage v o (Some (DLogin (with_passkeys (without ids (passkeys l)) l))) base r1 r2; Ok (Some w)
        | _ => Err Denied
        end
    end.

(** ** Creating a passkey *)

Definition with_room (l : list Suggestion) (v : VaultService) : list Suggestion :=
  List.filter (fun s => match login_passkeys v (sg_id s) with
                        | Some l => (length l <? MAX_PASSKEYS_PER_LOGIN)%nat
                        | None => false
                        end) l.

(** The login's username folds to the site's account name, or it has none. *)
Definition may_be_account (user : list Z) (s : Suggestion) : bool :=
  match sg_username s with
  | None => true
  | Some u => bool_decide (fold_name u = []) || bool_decide (fold_name u = fold_name user)
  end.

Definition upgrade_for (page_url user : list Z) (homes : list Suggestion) (now_ms : Z) (v : VaultService) : Result Upgrade :=
  s ← session v;
  match page_parse page_url ≫= site_of with
  | None => Ok UpNone
  | Some site =>
      let fills := List.filter (fun f => bool_decide (fill_site f = site) && is_recent f now_ms) (reverse (recent_fills s)) in
      match find_map (fun f => List.find (fun h => (sg_id h =? fill_item f) && may_be_account user h) homes) fills with
      | None => Ok UpNone
      | Some h => Ok (if auto_passkey_upgrade (ses_settings s) then UpAuto (sg_id h) else UpAsk (sg_id h))
      end
  end.

Definition check_passkey_create (q : CreateQuery) (now_ms : Z) (v : VaultService) : Result CreateCheck :=
  _ ← session v;
  ctx ← authorize_rp (cq_rp q) (cq_page q) (cq_top q);
  excluded ← (if bool_decide (cq_exclude q = []) then Ok false
              else l ← passkeys_for ctx (cq_exclude q) v; Ok (negb (length l =? 0)%nat));
  matches ← direct_matches (cq_page q) (cq_top q) v;
  let candidates := same_user_first (with_room matches v) (cq_user q) in
  up ← (if cq_conditional q && negb excluded then upgrade_for (cq_page q) (cq_user q) candidates now_ms v else Ok UpNone);
  Ok {| cc_excluded := excluded; cc_candidates := candidates; cc_upgrade := up |}.

Definition new_login_for_passkey (new_id : nat -> Z) (item : Z) (page_url user : list Z) (now_ms : Z)
    : Result (ItemOverview * ItemDetails) :=
  page ← ok_or Denied (page_parse page_url);
  '(t, origin) ← ok_or Denied (title_and_origin page);
  let b := blank Login t in
  build_item new_id item
    {| in_type := in_type b; in_title := in_title b;
       in_username := if bool_decide (user = []) then None else Some user;
       in_urls := [{| Model.url := origin; match_type := Domain |}]; in_password := in_password b; in_totp := in_totp b;
       in_notes := in_notes b; in_content := in_content b; in_auto_sign_in := in_auto_sign_in b;
       in_sign_in_with := in_sign_in_with b; in_identity := in_identity b; in_card := in_card b; in_bank := in_bank b;
       in_sections := in_sections b; in_tags := in_tags b |} None now_ms now_ms.

(** The passkeys of the login once the new one is in: the account's older
    replaced ones go, its current one is marked, unless the login is full. *)
Definition add_passkey (new : Passkey) (now_ms : Z) (l : list Passkey) : Result (list Passkey) :=
  let same := same_account_passkey (rp_id new) (user_handle new) in
  let l := List.filter (fun p => negb (same p && is_some (pk_replaced_at p))) l in
  let l := if (MAX_PASSKEYS_PER_LOGIN <=? length l)%nat then List.filter (fun p => negb (same p)) l else l in
  let l := map (fun p => if same p then replaced_now now_ms p else p) l in
  if (MAX_PASSKEYS_PER_LOGIN <=? length l)%nat
  then Err (InvalidInput "this login already has the maximum number of passkeys")
  else Ok (l ++ [new]).

(** The login a new passkey goes into. *)
Definition home_for (holder : option Z) (homes : Homes) (user : list Z)
    (new_login : list Z -> Result (ItemOverview * ItemDetails)) (now_ms : Z) (v : VaultService)
    : Result (ItemOverview * ItemDetails * option Z) :=
  match holder, chosen homes with
  | Some item, _ => load_login_for_edit item now_ms v
  | None, Some item => if negb (bool_decide (item ∈ offered homes)) then Err Denied else load_login_for_edit item now_ms v
  | None, None => od ← new_login user; Ok (od.1, od.2, None)
  end.

Definition stage_create_for (ctx : RpContext) (new : NewPasskey) (homes : Homes)
    (new_login : list Z -> Result (ItemOverview * ItemDetails)) (now_ms : Z)
    (draws : nat -> option (list Z)) (random_id r1 r2 : option (list Z)) (v : VaultService) : Result StagedPasskey :=
  if bool_decide (np_handle new = []) || (MAX_USER_HANDLE_BYTES <? length (np_handle new))%nat
  then Err (InvalidInput "invalid user handle")
  else
    user ← clean_site_name (Some (np_user new));
    let user := default [] user in
    display ← clean_site_name (np_display new);
    let display := match display with Some [] => None | d => d end in
    '(passkey, registration) ← register ctx (np_challenge new)
        {| nu_handle := np_handle new; nu_name := user; nu_display := display |} now_ms draws random_id;
    holder ← find_passkey_holder (rp ctx) (np_handle new) v;
    if refuse_replace homes && is_some holder then Err Denied
    else
      odb ← home_for holder homes user new_login now_ms v;
      let '(o, d, base) := odb : ItemOverview * ItemDetails * option Z in
      match d with
      | DLogin l =>
          keys ← add_passkey passkey now_ms (passkeys l);
          w ← stage v (with_has_passkey true o) (Some (DLogin (with_passkeys keys l))) base r1 r2;
          Ok {| sp_write := w; sp_item := Model.id o; sp_registration := registration |}
      | _ => Err Denied
      end.

(** The consent of a conditional create: a fill of that login, just now. *)
Definition check_conditional (req : PasskeyCreate) (now_ms : Z) (v : VaultService) : Result () :=
  if pc_conditional req then
    item ← ok_or Denied (pc_item req);
    matches ← direct_matches (pc_page req) (pc_top req) v;
    up ← upgrade_for (pc_page req) (pc_user req) (with_room matches v) now_ms v;
    if negb (bool_decide (up = UpAuto item)) then Err Denied else Ok ()
  else Ok ().

Definition spend_fill (item : Z) (site : list Z) (l : list RecentFill) : list RecentFill :=
  List.filter (fun f => negb ((fill_item f =? item) && bool_decide (fill_site f = site))) l.

(** Everything before the fill is spent. *)
Definition stage_passkey (new_id : nat -> Z) (item : Z) (req : PasskeyCreate) (now_ms : Z)
    (draws : nat -> option (list Z)) (random_id r1 r2 : option (list Z)) (v : VaultService) : Result StagedPasskey :=
  _ ← session v;
  _ ← check_challenge (pc_challenge req);
  _ ← check_conditional req now_ms v;
  ctx ← authorize_rp (pc_rp req) (pc_page req) (pc_top req);
  matches ← direct_matches (pc_page req) (pc_top req) v;
  stage_create_for ctx
    {| np_challenge := pc_challenge req; np_handle := pc_handle req; np_user := pc_user req; np_display := pc_display req |}
    {| chosen := pc_item req; offered := map sg_id matches; refuse_replace := pc_conditional req |}
    (fun user => new_login_for_passkey new_id item (pc_page req) user now_ms) now_ms draws random_id r1 r2 v.

Definition stage_passkey_create (new_id : nat -> Z) (item : Z) (req : PasskeyCreate) (now_ms : Z)
    (draws : nat -> option (list Z)) (random_id r1 r2 : option (list Z)) : V StagedPasskey :=
  v ← mget;
  staged ← mlift (stage_passkey new_id item req now_ms draws random_id r1 r2 v);
  _ ← (if pc_conditional req then
         match page_parse (pc_page req) ≫= site_of with
         | Some site => modify_session (fun s => with_fills (spend_fill (sp_item staged) site (recent_fills s)) s)
         | None => mret ()
         end
       else mret ());
  mret staged.

(** ** Looking and removing *)

Definition has_passkey_for_page (page_url : list Z) (top_url : option (list Z)) (v : VaultService) : Result bool :=
  h ← find_login_with_passkey (fun p => is_ok (authorize_rp (rp_id p) page_url top_url)) v;
  Ok (is_some h).

Definition list_passkeys (item : Z) (v : VaultService) : Result (list PasskeyInfo) :=
  d ← load_details item v;
  match d with
  | DLogin l =>
      Ok (map (fun p => {| pi_credential := encode_b64url (credential_id p); pi_rp := rp_id p; pi_user := user_name p;
                           pi_display := display_name p; pi_created := pk_created_at p;
                           pi_replaced := is_some (pk_replaced_at p) |}) (passkeys l))
  | _ => Ok []
  end.

Definition stage_remove_passkey (item : Z) (credential : list Z) (now_ms : Z) (r1 r2 : option (list Z)) (v : VaultService)
    : Result StagedWrite :=
  c ← ok_or (InvalidInput "invalid base64url") (decode_b64url credential);
  if negb (length c =? CREDENTIAL_ID_LEN)%nat then Err (InvalidInput "invalid credential ID")
  else
    o ← get_item item v;
    d ← load_details item v;
    match d with
    | DLogin l =>
        let keys := without [c] (passkeys l) in
        if (length keys =? length (passkeys l))%nat then Err NotFound
        else
          stage v (with_updated now_ms (with_has_passkey (negb (bool_decide (keys = []))) o))
            (Some (DLogin (with_passkeys keys l))) (item_revision item (store v)) r1 r2
    | _ => Err NotFound
    end.
End PasskeyVault.
