(* ===== verification/PasskeyFacts.v ===== *)
(** * What passkeys promise

    A relying-party ID a page may use is its host or a parent of it in the
    same site, so a passkey is only ever used by pages of one site; the
    signature covers the page's own origin; a new passkey, committed, signs;
    and a fill grants one silent passkey. *)

From S2P Require Import Prelude Errors Text Blob Url Tags Totp Clean Card Identity.
From S2P Require Import CustomField Bank Sso Attachment Model Keys Store Origin Health BuildItem.
From S2P Require Import Vault Items Page ToyCodec Sync Replica Lifecycle System AppTarget Cbor Passkey PasskeyVault.

(** What is relied on of the Public Suffix List: a name between a host and
    its registrable domain has the same registrable domain. *)
Class PslBetween (UL : UrlLib) (SL : SiteLib UL) : Prop := psl_between :
  forall host site rp, registrable_domain_of host = Some site ->
    rp = site \/ ends_with (lit "." ++ site) rp = true ->
    (exists rest, strip_suffix rp host = Some rest /\ ends_with (lit ".") rest = true) ->
    registrable_domain_of rp = Some site.

Section Facts.
Context {C : Crypto} {K : KeyLib} {U : Unicode} {J : JsonLib} {UL : UrlLib} {SL : SiteLib UL} {L : TotpLib}.
Context {AL : AppLib} {PL : PasskeyLib}.

(** ** Relying parties *)

(** What an authorization says of the frame. *)
Lemma authorize_rp_ok raw page top ctx :
  authorize_rp raw page top = Ok ctx ->
  exists frame host, page_parse page = Some frame /\ secure_context frame = true /\ host_key frame = Some host /\
    normalize_rp_id raw = Some (rp ctx) /\ rp_origin ctx = url_origin_ascii frame /\
    (rp ctx = host \/ parent_within (rp ctx) host
       (match url_host frame with Some (HDomain _) => true | _ => false end) = Ok true) /\
    top_frame host (rp_origin ctx) top = Ok (cross_origin ctx, top_origin ctx).
Proof.
  unfold authorize_rp. destruct (page_parse page) as [frame|] eqn:Hp; [|done]. cbn [ok_or mbind result_bind].
  destruct (secure_context frame) eqn:Hsec; [|done]. cbn [negb]. destruct (host_key frame) as [host|] eqn:Hh; [|done].
  cbn [ok_or mbind result_bind]. destruct (normalize_rp_id raw) as [id|] eqn:Hn; [|done]. cbn [ok_or mbind result_bind].
  intros (allowed & Ha & H)%bind_Ok. destruct allowed; [|done]. cbn [negb] in H. cbv zeta in H.
  apply bind_Ok in H as ([b t] & Ht & H). injection H as <-. cbn [rp rp_origin cross_origin top_origin fst snd].
  exists frame, host. split_and!; try done. destruct (bool_decide_reflect (id = host)); [by left|by right].
Qed.

(** The relying party's site is the host's. *)
Lemma rp_of_site `{!PslBetween UL SL} r host b :
  r = host \/ parent_within r host b = Ok true ->
  default r (registrable_domain_of r) = default host (registrable_domain_of host).
Proof.
  intros [->|H]; [done|]. unfold parent_within in H. destruct (registrable_domain_of host) as [site|] eqn:Es; [|done].
  cbn [ok_or mbind result_bind] in H. injection H as H. rewrite !andb_true_iff, orb_true_iff, bool_decide_eq_true in H.
  destruct H as [[_ Hp] Hw]. rewrite (psl_between host site r); [done|done|done|].
  destruct (strip_suffix r host) as [rest|]; [|done]. by exists rest.
Qed.

Definition page_site (page : list Z) : option (list Z) := page_parse page ≫= site_of.

Lemma authorized_site `{!PslBetween UL SL} raw page top ctx :
  authorize_rp raw page top = Ok ctx -> page_site page = Some (default (rp ctx) (registrable_domain_of (rp ctx))).
Proof.
  intros (frame & host & Hp & _ & Hh & _ & _ & Hr & _)%authorize_rp_ok. unfold page_site, site_of.
  rewrite Hp. cbn [mbind option_bind]. rewrite Hh. cbn [mbind option_bind]. f_equal. symmetry. by eapply rp_of_site.
Qed.

(** ** Assertions *)

Lemma assert_for_ok item cred ctx ch h v a :
  assert_for item cred ctx ch h v = Ok a ->
  exists l p, load_details item v = Ok (DLogin l) /\ p ∈ passkeys l /\ credential_id p = cred /\ rp_id p = rp ctx /\
    sign_assertion p ctx ch h = Ok a.
Proof.
  unfold assert_for. intros (d & Hd & H)%bind_Ok. destruct d as [l| | | |]; try done.
  apply bind_Ok in H as (p & Hp & H). destruct (List.find _ _) as [q|] eqn:Hf; [|done]. injection Hp as ->.
  apply List.find_some in Hf as [Hin Hq]. rewrite andb_true_iff, !bool_decide_eq_true in Hq. destruct Hq as [Hc Hr].
  exists l, p. split_and!; try done. by apply list_elem_of_In.
Qed.

(** C13: a passkey signs only for its own site. An assertion for a page is
    made with a stored passkey of that credential, over authenticator data
    for the passkey's relying party and client data that names the page's own
    origin and the challenge; and every page that could have created, or can
    ever use, a passkey for that relying party is of the same site. *)
Theorem passkey_bound_to_site `{!PslBetween UL SL} item cred raw page top ch v a :
  passkey_assert item cred raw page top ch v = Ok a ->
  exists ctx l p frame,
    load_details item v = Ok (DLogin l) /\ p ∈ passkeys l /\ credential_id p = cred /\ rp_id p = rp ctx /\
    page_parse page = Some frame /\ rp_origin ctx = url_origin_ascii frame /\ secure_context frame = true /\
    ass_client_data a = client_data_json Get ch ctx /\
    ass_authenticator_data a = sha256 (utf8 (rp_id p)) ++ [29; 0; 0; 0; 0] /\
    ass_signature a = sign (private_key p) (ass_authenticator_data a ++ sha256 (ass_client_data a)) /\
    forall raw' page' top' ctx', authorize_rp raw' page' top' = Ok ctx' -> rp ctx' = rp_id p ->
      page_site page' = page_site page.
Proof.
  unfold passkey_assert. intros (s & _ & H)%bind_Ok. apply bind_Ok in H as (_ & _ & H). apply bind_Ok in H as (ctx & Hctx & H).
  apply assert_for_ok in H as (l & p & Hl & Hp & Hc & Hr & Ha). unfold sign_assertion in Ha.
  destruct (signing_key (private_key p)); [|done]. cbn [negb] in Ha. cbv zeta in Ha. injection Ha as <-.
  pose proof (authorize_rp_ok _ _ _ _ Hctx) as (frame & host & Hpg & Hsec & _ & _ & Ho & _).
  exists ctx, l, p, frame. cbn [ass_client_data ass_authenticator_data ass_signature].
  do 8 (split; [done|]). split; [by rewrite Hr|]. split; [done|].
  intros raw' page' top' ctx' Hctx' E. rewrite (authorized_site _ _ _ _ Hctx), (authorized_site _ _ _ _ Hctx').
  by rewrite E, Hr.
Qed.

(** ** The passkeys of a login *)

(** One current passkey for each account, and no more than the limit. *)
Definition keys_ok (l : list Passkey) : Prop :=
  (length l <= MAX_PASSKEYS_PER_LOGIN)%nat /\
  forall r h, (length (List.filter (fun p => same_account_passkey r h p && is_none (pk_replaced_at p)) l) <= 1)%nat.

Lemma same_account_iff r h p : same_account_passkey r h p = true <-> rp_id p = r /\ user_handle p = h.
Proof. unfold same_account_passkey. by rewrite andb_true_iff, !bool_decide_eq_true. Qed.

Lemma filter_filter_length {A} (f g : A -> bool) l :
  (length (List.filter f (List.filter g l)) <= length (List.filter f l))%nat.
Proof. induction l as [|x l IH]; [done|]. cbn. destruct (g x); cbn; destruct (f x); cbn; lia. Qed.

Lemma filter_none {A} (f : A -> bool) l : (forall x, In x l -> f x = false) -> List.filter f l = [].
Proof. induction l as [|x l IH]; intros H; [done|]. cbn. rewrite (H x (or_introl eq_refl)). apply IH. intros y Hy. apply H. by right. Qed.

(** The current passkeys of an account, after the account's are marked. *)
Lemma current_after_mark now (same : Passkey -> bool) (l : list Passkey) r h :
  (length (List.filter (fun p => same_account_passkey r h p && is_none (pk_replaced_at p))
             (map (fun p => if same p then replaced_now now p else p) l))
   <= length (List.filter (fun p => same_account_passkey r h p && is_none (pk_replaced_at p)) l))%nat.
Proof.
  induction l as [|p l IH]; [done|]. cbn [map List.filter]. destruct (same p).
  - cbn [pk_replaced_at replaced_now is_none]. rewrite andb_false_r. destruct (_ && _); cbn [length]; lia.
  - destruct (_ && _); cbn [length]; lia.
Qed.

Lemma add_passkey_mem new now l l' :
  add_passkey new now l = Ok l' ->
  new ∈ l' /\
  (forall p, p ∈ l -> same_account_passkey (rp_id new) (user_handle new) p = false -> p ∈ l') /\
  (forall p, p ∈ l' -> p = new \/ p ∈ l \/ exists q, q ∈ l /\ p = replaced_now now q).
Proof.
  unfold add_passkey. set (same := same_account_passkey (rp_id new) (user_handle new)).
  set (l1 := List.filter _ l). cbv zeta. set (l2 := if (_ <=? length l1)%nat then _ else l1).
  set (l3 := map _ l2). destruct (_ <=? length l3)%nat; [done|]. intros [= <-]. split_and!.
  - apply elem_of_app. right. set_solver.
  - intros p Hp Hs. apply elem_of_app. left. apply list_elem_of_In, List.in_map_iff. exists p. rewrite Hs. split; [done|].
    assert (In p l1) as H1. { apply List.filter_In. split; [by apply list_elem_of_In|]. by rewrite Hs. }
    unfold l2. destruct (_ <=? _)%nat; [|done]. apply List.filter_In. split; [done|]. by rewrite Hs.
  - assert (forall p, In p l2 -> In p l) as Hsub.
    { intros p. unfold l2. destruct (_ <=? _)%nat; rewrite ?List.filter_In; [intros [Hp _]|intros Hp];
        by apply List.filter_In in Hp as [Hp _]. }
    intros p [Hp|Hp%list_elem_of_singleton]%elem_of_app; [|by left]. right.
    apply list_elem_of_In, List.in_map_iff in Hp as (q & <- & Hq). apply Hsub, list_elem_of_In in Hq.
    destruct (same q); [right; by exists q|by left].
Qed.

Lemma add_passkey_ok new now l l' :
  pk_replaced_at new = None -> keys_ok l -> add_passkey new now l = Ok l' -> keys_ok l'.
Proof.
  intros Hn [Hlen Hone]. unfold add_passkey. set (same := same_account_passkey (rp_id new) (user_handle new)).
  set (l1 := List.filter _ l). cbv zeta. set (l2 := if (_ <=? length l1)%nat then _ else l1).
  set (l3 := map _ l2). destruct (Nat.leb_spec MAX_PASSKEYS_PER_LOGIN (length l3)) as [|Hl3]; [done|]. intros [= <-].
  assert (forall r h, (length (List.filter (fun p => same_account_passkey r h p && is_none (pk_replaced_at p)) l3) <= 1)%nat) as H3.
  { intros r h. etrans; [apply current_after_mark|]. etrans; [|apply (Hone r h)]. unfold l2, l1.
    destruct (_ <=? _)%nat; [etrans; [apply filter_filter_length|]|]; apply filter_filter_length. }
  split; [rewrite length_app; cbn [length]; lia|]. intros r h. rewrite List.filter_app, length_app. cbn [List.filter].
  destruct (same_account_passkey r h new) eqn:Es; rewrite ?Hn; cbn [is_none andb length]; [|specialize (H3 r h); lia].
  rewrite filter_none; [cbn; lia|]. intros p Hp. apply List.in_map_iff in Hp as (q & <- & Hq).
  apply same_account_iff in Es as [<- <-]. fold same. destruct (same q) eqn:Eq.
  - cbn [pk_replaced_at replaced_now is_none]. apply andb_false_r.
  - by rewrite Eq.
Qed.

(** ** Creating *)

Lemma first_key_ok l k : first_key l = Ok k -> signing_key k = true.
Proof. induction l as [|[b|] l IH]; cbn; try done. destruct (signing_key b) eqn:E; [by intros [= <-]|apply IH]. Qed.

Lemma register_ok ctx ch user now draws rid p reg :
  register ctx ch user now draws rid = Ok (p, reg) ->
  signing_key (private_key p) = true /\ rp_id p = rp ctx /\ user_handle p = nu_handle user /\ pk_replaced_at p = None /\
  rid = Some (credential_id p) /\ reg_credential_id reg = credential_id p /\
  public_key_der (private_key p) = Some (reg_public_key reg).
Proof.
  unfold register. intros (k & Hk & H)%bind_Ok. apply bind_Ok in H as (c & Hc & H). cbv zeta in H.
  apply bind_Ok in H as (d & Hd & H). injection H as <- <-. destruct rid; [|done]. injection Hc as ->.
  cbn. destruct (public_key_der k); [|done]. injection Hd as ->. split_and!; try done. by eapply first_key_ok.
Qed.

(** The login a new passkey goes into is a login of this vault, or new. *)
Lemma home_ok v s holder homes user new_login now o l base :
  session v = Ok s -> session_ok (items (store v)) s ->
  (forall u o d, new_login u = Ok (o, d) -> details_type d = item_type o /\ is_trashed s o = false) ->
  home_for holder homes user new_login now v = Ok (o, DLogin l, base) ->
  item_type o = Login /\ is_trashed s o = false /\
  match holder, chosen homes with
  | Some i, _ => Model.id o = i /\ load_details i v = Ok (DLogin l)
  | None, Some i => i ∈ offered homes /\ Model.id o = i /\ load_details i v = Ok (DLogin l)
  | None, None => new_login user = Ok (o, DLogin l)
  end.
Proof.
  intros Hs Hok Hnew. unfold home_for.
  assert (forall i, load_login_for_edit i now v = Ok (o, DLogin l, base) ->
    item_type o = Login /\ is_trashed s o = false /\ Model.id o = i /\ load_details i v = Ok (DLogin l)) as Hedit.
  { intros i. unfold load_login_for_edit, get_item. rewrite Hs. cbn [mbind result_bind].
    intros (o0 & Ho & H)%bind_Ok. apply bind_Ok in H as (d & Hd & H). injection H as <- -> _.
    destruct (load_details_type _ _ _ _ Hs Hd) as (o1 & Ho1 & Ht). rewrite Ho1 in Ho. injection Ho as ->.
    destruct (live_home _ _ Hok _ _ Ho1) as (Hid & Htr & _). cbn. split; [by rewrite <- Ht|]. split; [exact Htr|]. by split. }
  destruct holder as [i|]; [apply Hedit|]. destruct (chosen homes) as [i|].
  - destruct (bool_decide_reflect (i ∈ offered homes)) as [Hin|]; [|done]. cbn [negb]. intros (H1 & H2 & H3 & H4)%Hedit.
    by split_and!.
  - intros ([o0 d] & Hn & H)%bind_Ok. injection H as <- -> <-. destruct (Hnew _ _ _ Hn) as [Ht Htr]. by split_and!.
Qed.

Lemma new_login_ok s new_id item page now u o d :
  new_login_for_passkey new_id item page u now = Ok (o, d) ->
  details_type d = item_type o /\ is_trashed s o = false.
Proof.
  unfold new_login_for_passkey. intros (pg & _ & H)%bind_Ok. apply bind_Ok in H as ([t org] & _ & H). cbv zeta in H.
  apply build_item_ok in H as (_ & _ & [Ht _] & _ & _ & _ & _ & _ & _ & _ & _ & Htr & _).
  split; [done|]. unfold is_trashed. by rewrite Htr.
Qed.

Lemma new_login_no_keys new_id item page now u o l :
  new_login_for_passkey new_id item page u now = Ok (o, DLogin l) -> passkeys l = [].
Proof.
  unfold new_login_for_passkey. intros (pg & _ & H)%bind_Ok. apply bind_Ok in H as ([t org] & _ & H). cbv zeta in H.
  apply build_item_ok in H as (_ & Hd & _). cbn in Hd. unfold build_login in Hd. cbn in Hd. by injection Hd as <-.
Qed.

(** What [stage_passkey] staged. *)
Lemma stage_passkey_ok v s new_id item req now draws rid r1 r2 sp :
  session v = Ok s -> session_ok (items (store v)) s ->
  stage_passkey new_id item req now draws rid r1 r2 v = Ok sp ->
  exists ctx p o l keys base,
    authorize_rp (pc_rp req) (pc_page req) (pc_top req) = Ok ctx /\ rp_id p = rp ctx /\
    signing_key (private_key p) = true /\ pk_replaced_at p = None /\ rid = Some (credential_id p) /\
    reg_credential_id (sp_registration sp) = credential_id p /\
    public_key_der (private_key p) = Some (reg_public_key (sp_registration sp)) /\
    item_type o = Login /\ is_trashed s o = false /\ sp_item sp = Model.id o /\ add_passkey p now (passkeys l) = Ok keys /\
    (load_details (Model.id o) v = Ok (DLogin l) \/ pc_item req = None /\ exists u, new_login_for_passkey new_id item (pc_page req) u now = Ok (o, DLogin l)) /\
    (pc_conditional req = true -> forall i, pc_item req = Some i -> Model.id o = i) /\
    stage v (with_has_passkey true o) (Some (DLogin (with_passkeys keys l))) base r1 r2 = Ok (sp_write sp).
Proof.
  intros Hs Hok. unfold stage_passkey. rewrite Hs. cbn [mbind result_bind].
  intros (_ & _ & H)%bind_Ok. apply bind_Ok in H as (_ & _ & H). apply bind_Ok in H as (ctx & Hctx & H).
  apply bind_Ok in H as (ms & _ & H). unfold stage_create_for in H. destruct (_ || _); [done|].
  apply bind_Ok in H as (u & _ & H). cbv zeta in H. apply bind_Ok in H as (disp & _ & H).
  apply bind_Ok in H as ([p reg] & Hreg & H). apply register_ok in Hreg as (Hk & Hrp & _ & Hrep & Hrid & Hcred & Hpub).
  apply bind_Ok in H as (holder & _ & H). cbn [refuse_replace] in H.
  destruct (pc_conditional req && is_some holder) eqn:Hcond; [done|].
  apply bind_Ok in H as ([[o d] base] & Hhome & H). destruct d as [l| | | |]; try done.
  apply bind_Ok in H as (keys & Hadd & H). apply bind_Ok in H as (w & Hw & H). injection H as <-.
  apply (home_ok v s) in Hhome as (Hty & Htr & Hh); [|done|done|intros ???; apply new_login_ok].
  exists ctx, p, o, l, keys, base. cbn [sp_item sp_write sp_registration]. split_and!; try done.
  - cbn [chosen] in Hh. destruct holder as [i|]; [left; by destruct Hh as [-> ?]|]. destruct (pc_item req) as [i|].
    + left. by destruct Hh as (_ & -> & ?).
    + right. split; [done|]. by eexists.
  - intros Hc i Hi. rewrite Hc in Hcond. destruct holder; [done|]. cbn [chosen] in Hh. rewrite Hi in Hh. by destruct Hh as (_ & ? & _).
Qed.

(** C14: a passkey that was created signs in. Once the write staged for a site
    is committed, the passkey signs for the page that created it: whatever
    the challenge, the assertion verifies under the public key the site got. *)
Theorem created_passkey_signs `{!AeadCorrect C, !JsonLaws J} v s new_id item req now draws rid r1 r2 sp rev ch :
  session v = Ok s -> session_ok (items (store v)) s -> good_nonce r1 -> good_nonce r2 ->
  (forall i l p, load_details i v = Ok (DLogin l) -> p ∈ passkeys l -> rid <> Some (credential_id p)) ->
  stage_passkey new_id item req now draws rid r1 r2 v = Ok sp -> check_challenge ch = Ok () ->
  exists v' o a key ctx,
    commit_write (sp_write sp) rev v = (v', Ok (Some o)) /\
    public_key_der key = Some (reg_public_key (sp_registration sp)) /\
    authorize_rp (pc_rp req) (pc_page req) (pc_top req) = Ok ctx /\
    passkey_assert (sp_item sp) (reg_credential_id (sp_registration sp)) (pc_rp req) (pc_page req) (pc_top req) ch v' = Ok a /\
    ass_signature a = sign key (ass_authenticator_data a ++ sha256 (ass_client_data a)) /\
    ass_client_data a = client_data_json Get ch ctx.
Proof.
  intros Hs Hok Hg1 Hg2 Hfresh Hst Hch.
  apply (stage_passkey_ok v s) in Hst as (ctx & p & o & l & keys & base & Hctx & Hrp & Hk & Hrep & Hrid & Hcred & Hpub & Hty & Htr & Hitem & Hadd & Hhome & _ & Hw); [|done..].
  apply (stage_put v s) in Hw as (ts & ov & det & Hp & Hi & Hsd & Hov & Hdet & Hod); [|done..].
  rewrite <- Hi in Hod. destruct (put_committed v s (sp_write sp) rev (with_tags ts (with_has_passkey true o)) (DLogin (with_passkeys keys l)) ov det)
    as (v' & s' & Hc & Hs' & _ & Hg & Hl & _); try done.
  exists v', (with_tags ts (with_has_passkey true o)). rewrite Hi in Hl. cbn [Model.id with_has_passkey] in Hl. rewrite <- Hitem in Hl.
  destruct (add_passkey_mem _ _ _ _ Hadd) as (Hpin & _ & Hmem).
  assert (forall q, q ∈ keys -> credential_id q = credential_id p -> q = p) as Huniq.
  { intros q Hq E. destruct Hhome as [Hd|(_ & u & Hb%new_login_no_keys)].
    - destruct (Hmem q Hq) as [->|[Hin|(q' & Hin & ->)]]; [done|..]; exfalso; apply (Hfresh _ _ _ Hd Hin); by rewrite Hrid, <- E.
    - rewrite Hb in Hmem. destruct (Hmem q Hq) as [->|[Hin|(q' & Hin & _)]]; [done|..]; by apply elem_of_nil in Hin. }
  unfold passkey_assert. rewrite Hs'. cbn [mbind result_bind]. rewrite Hch. cbn [mbind result_bind]. rewrite Hctx.
  cbn [mbind result_bind]. unfold assert_for. rewrite Hl. cbn [mbind result_bind passkeys with_passkeys].
  assert (exists q, List.find (fun q => bool_decide (credential_id q = reg_credential_id (sp_registration sp)) && bool_decide (rp_id q = rp ctx)) keys = Some q) as [q Hq].
  { destruct (List.find _ keys) as [q|] eqn:Hf; [by exists q|]. exfalso.
    apply list_elem_of_In in Hpin. pose proof (List.find_none _ _ Hf _ Hpin) as Hn. cbn in Hn.
    by rewrite Hcred, Hrp, !bool_decide_eq_true_2 in Hn. }
  rewrite Hq. apply List.find_some in Hq as [Hin Hq]. rewrite andb_true_iff, !bool_decide_eq_true in Hq. destruct Hq as [Hqc _].
  assert (q = p) as -> by (apply Huniq; [by apply list_elem_of_In|congruence]).
  cbn [ok_or mbind result_bind]. unfold sign_assertion. rewrite Hk. cbn [negb]. cbv zeta.
  eexists. exists (private_key p), ctx. split_and!; done.
Qed.
(** ** Silent creation *)

Lemma find_map_some {A B} (f : A -> option B) l y : find_map f l = Some y -> exists x, x ∈ l /\ f x = Some y.
Proof.
  induction l as [|x l IH]; [done|]. cbn [find_map]. destruct (f x) as [z|] eqn:E.
  - intros [= <-]. exists x. split; [by left|done].
  - intros (w & Hw & Hf)%IH. exists w. split; [by right|done].
Qed.

(** A silent creation rests on a fill of that login on that site, kept and recent. *)
Lemma upgrade_needs_fill page user homes now v s i :
  session v = Ok s -> upgrade_for page user homes now v = Ok (UpAuto i) ->
  exists site f, page_parse page ≫= site_of = Some site /\ f ∈ recent_fills s /\ fill_item f = i /\ fill_site f = site /\
    is_recent f now = true /\ auto_passkey_upgrade (ses_settings s) = true.
Proof.
  intros Hs. unfold upgrade_for. rewrite Hs. cbn [mbind result_bind].
  destruct (page_parse page ≫= site_of) as [site|] eqn:Hp; [|done]. cbv zeta.
  destruct (find_map _ _) as [h|] eqn:Hf; [|done]. destruct (auto_passkey_upgrade (ses_settings s)) eqn:Hauto; [|done].
  intros [= <-]. apply find_map_some in Hf as (f & Hin & Hh). apply List.find_some in Hh as [_ Hh].
  apply andb_true_iff in Hh as [Hid%Z.eqb_eq _]. apply list_elem_of_In, List.filter_In in Hin as [Hin Hf].
  apply andb_true_iff in Hf as [Hsite%bool_decide_eq_true Hrec]. exists site, f. apply list_elem_of_In in Hin. rewrite elem_of_reverse in Hin.
  by split_and!.
Qed.

Lemma conditional_needs_fill req now v s :
  session v = Ok s -> pc_conditional req = true -> check_conditional req now v = Ok () ->
  exists i site f, pc_item req = Some i /\ page_parse (pc_page req) ≫= site_of = Some site /\ f ∈ recent_fills s /\
    fill_item f = i /\ fill_site f = site /\ is_recent f now = true /\ auto_passkey_upgrade (ses_settings s) = true.
Proof.
  intros Hs Hc. unfold check_conditional. rewrite Hc. intros (i & Hi & H)%bind_Ok. apply bind_Ok in H as (ms & _ & H).
  apply bind_Ok in H as (up & Hup & H). destruct (bool_decide_reflect (up = UpAuto i)) as [->|]; [|done].
  apply (upgrade_needs_fill _ _ _ _ _ s) in Hup as (site & f & H1); [|done].
  destruct (pc_item req); [|done]. injection Hi as ->. by exists i, site, f.
Qed.

Lemma stage_passkey_consent new_id item req now draws rid r1 r2 v sp :
  stage_passkey new_id item req now draws rid r1 r2 v = Ok sp -> check_conditional req now v = Ok ().
Proof. unfold stage_passkey. intros (s & _ & H)%bind_Ok. apply bind_Ok in H as (_ & _ & H). by apply bind_Ok in H as ([] & Hc & _). Qed.

(** A passkey is created without a prompt only on the strength of one
    fill. A silent creation that was staged rests on a recent fill of that
    very login on the page's site, with the setting on; it spends the fill,
    and touches nothing else of the vault; so until the login is filled again
    every other silent creation for it on that site is refused, whatever the
    clock and the request. *)
Lemma silent_create_spends_fill v s new_id item req now draws rid r1 r2 v' sp :
  session v = Ok s -> session_ok (items (store v)) s -> pc_conditional req = true ->
  stage_passkey_create new_id item req now draws rid r1 r2 v = (v', Ok sp) ->
  exists site f, page_parse (pc_page req) ≫= site_of = Some site /\
    f ∈ recent_fills s /\ fill_item f = sp_item sp /\ fill_site f = site /\ is_recent f now = true /\
    auto_passkey_upgrade (ses_settings s) = true /\ store v' = store v /\
    session v' = Ok (with_fills (spend_fill (sp_item sp) site (recent_fills s)) s) /\
    forall new_id' item' req' now' draws' rid' r1' r2',
      pc_conditional req' = true -> pc_item req' = Some (sp_item sp) -> page_parse (pc_page req') ≫= site_of = Some site ->
      is_ok (stage_passkey new_id' item' req' now' draws' rid' r1' r2' v') = false.
Proof.
  intros Hs Hok Hc. unfold stage_passkey_create. mrun. destruct (stage_passkey _ _ _ _ _ _ _ _ v) as [sp'|e] eqn:Hst; mrun; [|done].
  rewrite Hc. pose proof (conditional_needs_fill _ _ _ _ Hs Hc (stage_passkey_consent _ _ _ _ _ _ _ _ _ _ Hst)) as (i & site & f & Hi & Hsite & Hin & Hf).
  apply (stage_passkey_ok v s) in Hst as (ctx & p & o & l & keys & base & _ & _ & _ & _ & _ & _ & _ & _ & _ & Hitem & _ & _ & Hcond & _); [|done..].
  rewrite <- (Hcond Hc i Hi), <- Hitem in Hf. rewrite Hsite.
  assert (forall g, exists w, modify_session g v = (w, Ok ()) /\ store w = store v /\ session w = Ok (g s)) as Hrun.
  { intros g. unfold modify_session. rewrite Hs. eexists. split; [reflexivity|]. split; [done|].
    unfold session in Hs |- *. cbn. by destruct (state v). }
  destruct (Hrun (fun s => with_fills (spend_fill (sp_item sp') site (recent_fills s)) s)) as (w & Hw & Hst & Hs').
  erewrite run_bind by exact Hw. intros [= <- <-]. exists site, f. destruct Hf as (Hf1 & Hf2 & Hf3 & Hf4).
  do 8 (split; [done|]). intros new_id' item' req' now' draws' rid' r1' r2' Hc' Hi' Hsite'.
  destruct (stage_passkey _ _ _ _ _ _ _ _ w) as [sp2|] eqn:E; [|done]. apply stage_passkey_consent in E.
  apply (conditional_needs_fill _ _ _ _ Hs' Hc') in E as (i2 & site2 & f2 & Hi2 & Hsite2 & Hin2 & Hf21 & Hf22 & _). simplify_eq.
  cbn [recent_fills with_fills] in Hin2. unfold spend_fill in Hin2. apply list_elem_of_In, List.filter_In in Hin2 as [_ Hn].
  apply negb_true_iff, andb_false_iff in Hn as [Hn%Z.eqb_neq|Hn%bool_decide_eq_false]; congruence.
Qed.
End Facts.

(** ** A concrete authenticator *)

Module ToyPasskey.
Import Blob.Toy ToyUnicode ToyUrl ToyTotp ToySite ToyCodec Sample System.Run.

#[export] Instance app_lib : AppLib := {| browser_list := None; raw_statements := fun _ => None; hexlower := fun c => c |}.
#[export] Instance passkey_lib : PasskeyLib := {|
  host_parse := fun h => Some (HDomain h);
  json_str := fun s => [34] ++ s ++ [34];
  encode_b64url := fun b => b;
  decode_b64url := Some;
  signing_key := fun k => (length k =? 32)%nat;
  point_x := fun k => k;
  point_y := fun k => k;
  public_key_der := Some;
  sign := fun k m => k ++ m;
|}.

Lemma label_split s a b : split_once 46 s = Some (a, b) -> s = a ++ [46] ++ b /\ split_once 46 a = None.
Proof.
  revert a b. induction s as [|c s IH]; intros a b; cbn [split_once]; [done|]. destruct (Z.eqb_spec c 46) as [->|Hc].
  - by intros [= <- <-].
  - destruct (split_once 46 s) as [[x y]|]; [|done]. intros [= <- <-]. destruct (IH x y eq_refl) as [-> Hn].
    split; [done|]. cbn [split_once]. rewrite (proj2 (Z.eqb_neq _ _) Hc). by rewrite Hn.
Qed.

Lemma label_join a b : split_once 46 a = None -> split_once 46 (a ++ [46] ++ b) = Some (a, b).
Proof.
  induction a as [|c a IH]; [done|]. cbn [split_once app]. destruct (Z.eqb_spec c 46); [done|].
  destruct (split_once 46 a) as [[x y]|]; [done|]. intros _. cbn [app] in IH. by rewrite IH.
Qed.

(** The last two labels, of a name and of what is put before it. *)
Lemma last_two_dom fuel h d : last_two fuel h = Some (d, true) -> exists a b, d = a ++ [46] ++ b /\ split_once 46 a = None /\ split_once 46 b = None.
Proof.
  revert h. induction fuel as [|fuel IH]; intros h; cbn [last_two]; [done|].
  destruct (split_once 46 h) as [[a rest]|] eqn:E; [|done]. apply label_split in E as [-> Ha].
  destruct (split_once 46 rest) eqn:E2; [apply IH|]. intros [= <-]. by exists a, rest.
Qed.

Lemma last_two_under a b : split_once 46 a = None -> split_once 46 b = None ->
  forall fuel h, (length h <= fuel)%nat -> at_or_under h (a ++ [46] ++ b) -> last_two fuel h = Some (a ++ [46] ++ b, true).
Proof.
  intros Ha Hb fuel. induction fuel as [|fuel IH]; intros h Hl Hh.
  { exfalso. destruct Hh as [->|[p ->]]; rewrite !length_app in Hl; cbn in Hl; lia. }
  cbn [last_two]. destruct Hh as [->|[p ->]]; [by rewrite (label_join a b Ha), Hb|].
  destruct (split_once 46 p) as [[x y]|] eqn:Hp.
  - apply label_split in Hp as [-> Hx]. rewrite <- !app_assoc, (label_join x) by done.
    assert (exists z, split_once 46 (y ++ [46] ++ a ++ [46] ++ b) = Some z) as [z ->].
    { destruct (split_once 46 y) as [[u w]|] eqn:Hy; [|rewrite label_join by done; by eexists].
      apply label_split in Hy as [-> Hu]. rewrite <- !app_assoc, label_join by done. by eexists. }
    apply IH; [rewrite !length_app in *; cbn in *; lia|]. right. by exists y.
  - rewrite (label_join p) by done. rewrite (label_join a b Ha).
    apply IH; [rewrite !length_app in *; cbn in *; lia|]. by left.
Qed.

#[export] Instance psl_between_laws : PslBetween ToyUrl.url_lib site_lib.
Proof.
  intros host site rp. unfold registrable_domain_of. cbn [psl_domain site_lib].
  destruct (last_two (length host) host) as [[d []]|] eqn:E; try done. intros [= <-].
  apply last_two_dom in E as (a & b & -> & Ha & Hb). intros Hrp _. rewrite (last_two_under a b Ha Hb); [done..|].
  destruct Hrp as [->|H]; [by left|]. right. unfold ends_with, starts_with in H. apply bool_decide_eq_true in H.
  apply (f_equal (fun l => l ++ drop (length (reverse (lit "." ++ a ++ [46] ++ b))) (reverse rp))) in H.
  rewrite take_drop in H. apply (f_equal reverse) in H. rewrite reverse_app, !reverse_involutive in H.
  eexists. exact H.
Qed.

Definition request : PasskeyCreate :=
  {| pc_rp := lit "a.com"; pc_page := lit "https://www.a.com"; pc_top := None; pc_challenge := [1; 2; 3]; pc_handle := [9];
     pc_user := lit "me"; pc_display := None; pc_item := Some 42; pc_conditional := true |}.
Definition filled : VaultService := (fill_for_page 42 (lit "https://www.a.com") None 4000 stored).1.
Definition draws (n : nat) : option (list Z) := Some (replicate 32 (Z.of_nat n)).
Definition cred : list Z := replicate 16 7.
Definition session2 : Session := of_ok session1 (session stored).
Definition session3 : Session := of_ok session1 (session filled).
Definition no_key : StagedPasskey :=
  {| sp_write := no_write; sp_item := 0;
     sp_registration := {| reg_credential_id := []; reg_client_data := []; reg_authenticator_data := []; reg_attestation := []; reg_public_key := [] |} |}.
Definition new_key : StagedPasskey :=
  of_ok no_key (stage_passkey new_id 50 request 4500 draws (Some cred) (nonce 8) (nonce 9) filled).
Definition keyed : VaultService := (commit_write (sp_write new_key) 8 filled).1.

Lemma quiet_session v v' s :
  quiet v v' -> session v = Ok s -> session_ok (items (store v)) s ->
  exists s', session v' = Ok s' /\ session_ok (items (store v')) s'.
Proof.
  intros (_ & Hst & Hi & Hsame & _) [Hu Hs]%session_unlocked Hok. rewrite Hs in Hsame.
  destruct (session_ v') as [s'|] eqn:E; [|done]. exists s'. unfold session. rewrite Hst, Hu, E, Hi.
  split; [done|]. by eapply session_ok_same.
Qed.

Lemma stored_ok : session stored = Ok session2 /\ session_ok (items (store stored)) session2.
Proof.
  destruct session1_ok as [Hs Hok]. pose proof (stages_ok unlocked session1 write Hs Hok write_stages) as Hst.
  destruct (commit_written write 7 unlocked session1 Hs Hok Hst) as (v' & s' & Hc & Hs' & _ & Hok' & _).
  assert (stored = v') as E by (unfold stored; by rewrite Hc). unfold session2. rewrite E, Hs'. by split.
Qed.

Lemma filled_ok : session filled = Ok session3 /\ session_ok (items (store filled)) session3.
Proof.
  destruct stored_ok as [Hs Hok].
  destruct (quiet_session _ _ _ (quiet_fill 42 (lit "https://www.a.com") None 4000 stored) Hs Hok) as (s & Hs' & Hok').
  unfold session3. change (fill_for_page 42 (lit "https://www.a.com") None 4000 stored).1 with filled in *.
  rewrite Hs'. by split.
Qed.

Lemma new_key_staged : stage_passkey new_id 50 request 4500 draws (Some cred) (nonce 8) (nonce 9) filled = Ok new_key.
Proof. vm_compute. reflexivity. Qed.

Lemma filled_fresh i l p : load_details i filled = Ok (DLogin l) -> p ∈ passkeys l -> Some cred <> Some (credential_id p).
Proof.
  intros Hd Hp. destruct (decide (i = 42)) as [->|Hi].
  - vm_compute in Hd. injection Hd as <-. by apply elem_of_nil in Hp.
  - exfalso. destruct filled_ok as [Hs _]. unfold load_details in Hd. rewrite Hs in Hd. cbn [mbind result_bind] in Hd.
    assert (overviews session3 = {[42 := default BuildItem.sample_overview (overviews session3 !! 42)]}) as E by (vm_compute; reflexivity).
    rewrite E, lookup_singleton_ne in Hd by (exact (not_eq_sym Hi)). discriminate Hd.
Qed.

Lemma created_passkey_signs_witness :
  exists v' o a, commit_write (sp_write new_key) 8 filled = (v', Ok (Some o)) /\
    passkey_assert 42 cred (lit "a.com") (lit "https://www.a.com") None [4; 5] v' = Ok a /\
    ass_authenticator_data a = sha256 (utf8 (lit "a.com")) ++ [29; 0; 0; 0; 0].
Proof.
  destruct (created_passkey_signs filled session3 new_id 50 request 4500 draws (Some cred) (nonce 8) (nonce 9) new_key 8 [4; 5])
    as (v' & o & a & key & ctx & Hc & _ & _ & Ha & _).
  - apply filled_ok.
  - apply filled_ok.
  - apply nonce_good.
  - apply nonce_good.
  - apply filled_fresh.
  - apply new_key_staged.
  - reflexivity.
  - exists v', o, a. split; [exact Hc|]. assert (v' = keyed) as -> by (unfold keyed; by rewrite Hc).
    split; [exact Ha|]. vm_compute in Ha. injection Ha as <-. vm_compute. reflexivity.
Defined.

Lemma passkey_bound_to_site_witness :
  exists a l p, passkey_assert 42 cred (lit "a.com") (lit "https://www.a.com") None [4; 5] keyed = Ok a /\
    load_details 42 keyed = Ok (DLogin l) /\ p ∈ passkeys l /\
    ass_signature a = private_key p ++ ass_authenticator_data a ++ sha256 (ass_client_data a) /\
    is_ok (passkey_assert 42 cred (lit "a.com") (lit "https://www.b.com") None [4; 5] keyed) = false.
Proof.
  destruct (passkey_assert 42 cred (lit "a.com") (lit "https://www.a.com") None [4; 5] keyed) as [a|e] eqn:E; [|vm_compute in E; discriminate E].
  destruct (passkey_bound_to_site 42 cred (lit "a.com") (lit "https://www.a.com") None [4; 5] keyed a E)
    as (ctx & l & p & frame & Hl & Hp & _ & _ & _ & _ & _ & _ & _ & Hsig & _).
  exists a, l, p. split; [reflexivity|]. split; [exact Hl|]. split; [exact Hp|]. split; [exact Hsig|]. vm_compute. reflexivity.
Defined.

Lemma silent_create_spends_fill_witness :
  exists v' f, stage_passkey_create new_id 50 request 4500 draws (Some cred) (nonce 8) (nonce 9) filled = (v', Ok new_key) /\
    f ∈ recent_fills session3 /\ fill_item f = 42 /\
    is_ok (stage_passkey new_id 51 request 4600 draws (Some cred) (nonce 8) (nonce 9) v') = false.
Proof.
  destruct (stage_passkey_create new_id 50 request 4500 draws (Some cred) (nonce 8) (nonce 9) filled) as [v' r] eqn:E.
  assert (r = Ok new_key) as ->.
  { change r with (v', r).2. rewrite <- E. unfold stage_passkey_create. rewrite run_mget, new_key_staged. vm_compute. reflexivity. }
  destruct (silent_create_spends_fill filled session3 new_id 50 request 4500 draws (Some cred) (nonce 8) (nonce 9) v' new_key)
    as (site & f & Hsite & Hin & Hid & _ & _ & _ & _ & _ & Hno).
  - apply filled_ok.
  - apply filled_ok.
  - reflexivity.
  - exact E.
  - exists v', f. split; [reflexivity|]. split; [exact Hin|]. split; [rewrite Hid; vm_compute; reflexivity|].
    apply Hno; [reflexivity|vm_compute; reflexivity|exact Hsite].
Defined.
End ToyPasskey.
