(* ===== verification/Restore.v ===== *)
(** * Restoring a backup (crates/havenkeys-core/src/export/restore.rs)

    A backup is hostile input: every item is rebuilt through [build_item]
    with each value passed as new, and what an editor's input cannot carry
    (passkeys, old passwords, app bindings) is checked before it is put back.
    A plan holds the rebuilt items, so that their files can be added before
    they are sealed. *)

From S2P Require Import Prelude Errors Text Blob Url Tags Totp Clean Card.
From S2P Require Import Identity CustomField Bank Sso Attachment Model Keys Store Origin Health.
From S2P Require Import BuildItem Vault Items Page ToyCodec Sync Replica Lifecycle System Backup.
From S2P Require Import Dates Import Staging AppTarget Cbor Passkey PasskeyVault PasskeyFacts.

(** model.rs. *)
Definition MAX_APP_BINDINGS : nat := 32.

Definition BAD : Error := InvalidInput "backup item is not valid".

Definition set_ (v : option (list Z)) : SecretUpdate := match v with Some v => SetTo v | None => Keep end.

Section Restore.
Context {C : Crypto} {K : KeyLib} {U : Unicode} {J : JsonLib} {UL : UrlLib} {SL : SiteLib UL} {L : TotpLib}.
Context {AL : AppLib} {PL : PasskeyLib}.

(** ** Rebuilding an item *)

Definition set_or_clear (v : option (list Z)) : SecretUpdate := match v with Some v => SetTo v | None => Clear end.

Definition value_input (v : FieldValue) : FieldValueInput :=
  match v with
  | VText v => FText v
  | VUrl v => FUrl v
  | VEmail v => FEmail v
  | VPhone v => FPhone v
  | VDate v => FDate v
  | VAddress a => FAddress a
  | VPassword p => FPassword (set_or_clear p)
  | VOtp c => FOtp (set_or_clear (to_otpauth_uri <$> c))
  end.
Definition sections_input (l : list FieldSection) : list SectionInput :=
  map (fun s => {| si_id := None; si_title := s_title s;
                   si_fields := map (fun f => {| i_id := None; i_label := f_label f; i_value := value_input (f_value f) |})
                                  (s_fields s) |}) l.

Definition check_passkey (k : Passkey) : Result () :=
  let key_ok := (length (private_key k) =? 32)%nat && signing_key (private_key k) in
  if negb (length (credential_id k) =? CREDENTIAL_ID_LEN)%nat || bool_decide (user_handle k = [])
     || (MAX_USER_HANDLE_BYTES <? length (user_handle k))%nat
     || negb (bool_decide (normalize_rp_id (rp_id k) = Some (rp_id k)))
  then Err BAD
  else
    user ← clean_site_name (Some (user_name k));
    if negb (bool_decide (user = Some (user_name k))) then Err BAD
    else
      display ← clean_site_name (Model.display_name k);
      if negb (bool_decide (display = Model.display_name k)) || negb key_ok then Err BAD else Ok ().

Fixpoint check_each (l : list Passkey) : Result () :=
  match l with [] => Ok () | k :: l => _ ← check_passkey k; check_each l end.
Definition check_passkeys (keys : list Passkey) : Result () :=
  if (MAX_PASSKEYS_PER_LOGIN <? length keys)%nat then Err BAD else check_each keys.

Fixpoint check_passwords (l : list PreviousPassword) : Result () :=
  match l with [] => Ok () | h :: l => _ ← check_password (pp_password h); check_passwords l end.
Definition check_history (l : list PreviousPassword) : Result () :=
  if (MAX_PASSWORD_HISTORY <? length l)%nat then Err BAD else check_passwords l.

(** The bytes of UTF-8 above 127 are no hexadecimal digits. *)
Definition hex_ok (s : list Z) : bool :=
  (str_len s =? 64) && forallb (fun b => is_ascii_digit b || in_range 97 102 b) s.
Definition check_bindings (l : list AppBinding) : Result () :=
  if (MAX_APP_BINDINGS <? length l)%nat || negb (forallb (fun b => valid_package (package b) && hex_ok (cert_sha256 b)) l)
  then Err BAD else Ok ().

(** The input of an item of a backup; what it cannot carry is checked. *)
Definition rebuild_input (o : ItemOverview) (d : ItemDetails) : Result ItemInput :=
  let b := blank (item_type o) (title o) in
  let made user us pw totp notes content auto sso ident cardi banki secs :=
    {| in_type := in_type b; in_title := in_title b; in_username := user; in_urls := us; in_password := pw;
       in_totp := totp; in_notes := notes; in_content := content; in_auto_sign_in := auto; in_sign_in_with := sso;
       in_identity := ident; in_card := cardi; in_bank := banki; in_sections := secs; in_tags := Some (tags o) |} in
  match d with
  | DLogin l =>
      _ ← check_history (password_history l);
      _ ← check_passkeys (passkeys l);
      _ ← check_bindings (app_bindings l);
      Ok (made (username o) (urls o) (set_ (password l)) (set_ (to_otpauth_uri <$> totp l)) (set_ (notes l)) Keep
            (Some (auto_sign_in o)) (sign_in_with o) None None None (Some (sections_input (sections l))))
  | DNote content secs =>
      Ok (made None [] Keep Keep Keep (SetTo content) None None None None None (Some (sections_input secs)))
  | DIdentity f => Ok (made None [] Keep Keep Keep Keep None None (Some f) None None None)
  | DCard f =>
      Ok (made None [] Keep Keep Keep Keep None None None
            (Some {| ci_cardholder_name := cardholder_name f; ci_brand := cf_brand f; ci_number := set_ (number f);
                     ci_verification_number := set_ (verification_number f); ci_expiry := expiry f;
                     ci_notes := cf_notes f |}) None None)
  | DBank f =>
      _ ← check_bindings (b_app_bindings f);
      Ok (made None (urls o) (set_ (b_password f)) Keep (set_ (b_notes f)) Keep None None None None
            (Some {| bi_bank := Bank.bank f; bi_holder_name := holder_name f; bi_account_type := account_type f;
                     bi_branch := Bank.branch f; bi_branch_digit := branch_digit f;
                     bi_account := set_ (Bank.account f); bi_account_digit := set_ (account_digit f) |})
            (Some (sections_input (b_sections f))))
  end.

(** Back into the rebuilt item, what was checked. *)
Definition put_back (d : ItemDetails) (od : ItemOverview * ItemDetails) : ItemOverview * ItemDetails :=
  let '(o, built) := od : ItemOverview * ItemDetails in
  match d, built with
  | DLogin l, DLogin n =>
      (with_has_passkey (negb (bool_decide (passkeys l = []))) o,
       DLogin {| password := password n; totp := totp n; notes := notes n; password_history := password_history l;
                 passkeys := passkeys l; sections := sections n; app_bindings := app_bindings l;
                 health_ignored := health_ignored l |})
  | DBank f, DBank n =>
      (o, DBank {| Bank.bank := Bank.bank n; holder_name := holder_name n; account_type := account_type n;
                   Bank.branch := Bank.branch n; branch_digit := branch_digit n; Bank.account := Bank.account n;
                   account_digit := account_digit n; b_password := b_password n; b_notes := b_notes n;
                   b_sections := b_sections n; b_app_bindings := b_app_bindings f |})
  | _, _ => (o, built)
  end.

Definition rebuild (new_id : nat -> Z) (id : Z) (item : BackupItem) : Result (ItemOverview * ItemDetails) :=
  let o := bi_overview item in
  let d := bi_details item in
  if negb (bool_decide (details_type d = item_type o)) then Err BAD
  else
    input ← rebuild_input o d;
    built ← build_item new_id id input None (Model.created_at o) (updated_at o);
    Ok (put_back d built).

(** ** The plan *)

Record IdentityFiles := { if_backup_id : Z; if_id : Z; if_held : list AttachmentMeta; if_added : list AttachmentMeta }.
Record RestorePlan := {
  rp_items : list (ItemOverview * ItemDetails);
  rp_places : gmap Z nat;
  rp_identity : option IdentityFiles;
  rp_report : ImportReport;
}.

Definition same_file (a b : AttachmentMeta) : bool :=
  bool_decide (att_name a = att_name b) && (size a =? size b) && (att_created_at a =? att_created_at b).

Definition target (f : BackupAttachment) (p : RestorePlan) : option Z :=
  match rp_places p !! ba_item_id f with
  | Some at_ =>
      match rp_items p !! at_ with
      | Some (o, _) => if (length (attachments o) <? MAX_ATTACHMENTS_PER_ITEM)%nat then Some (Model.id o) else None
      | None => None
      end
  | None =>
      match rp_identity p with
      | Some i =>
          if (if_backup_id i =? ba_item_id f)
             && (length (if_held i) + length (if_added i) <? MAX_ATTACHMENTS_PER_ITEM)%nat
             && negb (existsb (fun m => same_file m (ba_meta f)) (if_held i))
          then Some (if_id i) else None
      | None => None
      end
  end.

Definition attach (backup_id : Z) (m : AttachmentMeta) (p : RestorePlan) : RestorePlan :=
  match rp_places p !! backup_id with
  | Some at_ =>
      {| rp_items := alter (fun x => (with_attachments x.1 (attachments x.1 ++ [m]), x.2)) at_ (rp_items p);
         rp_places := rp_places p; rp_identity := rp_identity p; rp_report := rp_report p |}
  | None =>
      match rp_identity p with
      | Some i =>
          if if_backup_id i =? backup_id then
            {| rp_items := rp_items p; rp_places := rp_places p;
               rp_identity := Some {| if_backup_id := if_backup_id i; if_id := if_id i; if_held := if_held i;
                                      if_added := if_added i ++ [m] |};
               rp_report := rp_report p |}
          else p
      | None => p
      end
  end.

Definition take_identity_files (p : RestorePlan) : RestorePlan * option (Z * list AttachmentMeta) :=
  ({| rp_items := rp_items p; rp_places := rp_places p; rp_identity := None; rp_report := rp_report p |},
   match rp_identity p with
   | Some i => if bool_decide (if_added i = []) then None else Some (if_id i, if_added i)
   | None => None
   end).

(** [ImportReport::restore_found_existing]. *)
Definition type_count (t : ItemType) : Count :=
  match t with
  | Login => CLogins
  | SecureNote => CSecureNotes
  | CardItem => CCards
  | Identity => CIdentities
  | BankAccount => CBankAccounts
  end.
Definition restore_found_existing (t : option ItemType) (r : ImportReport) : ImportReport :=
  let r := match t with Some t => update (type_count t) Nat.pred r | None => r end in
  update CImported Nat.pred (bump CExisting r).

(** ** Planning *)

Definition counted_plan (c : Count) (p : RestorePlan) : RestorePlan :=
  {| rp_items := rp_items p; rp_places := rp_places p; rp_identity := rp_identity p; rp_report := bump c (rp_report p) |}.

(** Already here: counted; the backup's Identity passes its files on. *)
Definition plan_existing (s : Session) (backup_id id : Z) (t : ItemType) (p : RestorePlan) : RestorePlan :=
  let ours := match t with Identity => overviews s !! id | _ => None end in
  counted_plan CExisting
    {| rp_items := rp_items p; rp_places := rp_places p;
       rp_identity := match rp_identity p, ours with
                      | None, Some o => Some {| if_backup_id := backup_id; if_id := id; if_held := attachments o; if_added := [] |}
                      | i, _ => i
                      end;
       rp_report := rp_report p |}.

(** One turn: the plan, and the ids seen. *)
Definition plan_one (s : Session) (new_id : nat -> Z) (item : BackupItem) (st : RestorePlan * gset Z)
    : RestorePlan * gset Z :=
  let '(p, seen) := st : RestorePlan * gset Z in
  let o := bi_overview item in
  let backup_id := Model.id o in
  if negb (bool_decide (item_type o = Identity)) && (backup_id =? identity_id s) then (counted_plan CFailed p, seen)
  else
    let id := if bool_decide (item_type o = Identity) then identity_id s else backup_id in
    if is_some (overviews s !! id) || is_some (trash s !! id) then (plan_existing s backup_id id (item_type o) p, seen)
    else if bool_decide (id ∈ seen) then (plan_existing s backup_id id (item_type o) p, seen)
    else
      let seen := {[id]} ∪ seen in
      match rebuild new_id id item with
      | Err _ => (counted_plan CFailed p, seen)
      | Ok (o, d) =>
          ({| rp_items := rp_items p ++ [(o, d)]; rp_places := <[backup_id := length (rp_items p)]> (rp_places p);
              rp_identity := rp_identity p; rp_report := bump (type_count (item_type o)) (rp_report p) |}, seen)
      end.

Fixpoint plan_each (s : Session) (dr : nat -> nat -> Z) (k : nat) (items : list BackupItem) (st : RestorePlan * gset Z)
    : RestorePlan * gset Z :=
  match items with
  | [] => st
  | i :: items => plan_each s dr (S k) items (plan_one s (dr k) i st)
  end.

Definition plan_restore (dr : nat -> nat -> Z) (b : OpenedBackup) (v : VaultService) : Result RestorePlan :=
  s ← session v;
  let p := {| rp_items := []; rp_places := ∅; rp_identity := None;
              rp_report := bump_by CFailed (ob_unreadable b) no_report |} in
  Ok (plan_each s dr 0 (ob_items b) (p, ∅)).1.

(** ** Sealing *)

Fixpoint seal_each (v : VaultService) (random : nat -> option (list Z) * option (list Z)) (k : nat)
    (items : list (ItemOverview * ItemDetails)) (batch : gmap (list Z) (list Z)) : Result (list StagedWrite) :=
  match items with
  | [] => Ok []
  | (o, d) :: items =>
      wb ← stage_in_batch v o (Some d) None batch (random k).1 (random k).2;
      let ids := map att_id (attachments o) in
      let w := with_ids (if bool_decide (ids = []) then None else Some ids) wb.1 in
      ws ← seal_each v random (S k) items wb.2;
      Ok (w :: ws)
  end.

Definition stage_restore (random : nat -> option (list Z) * option (list Z)) (p : RestorePlan) (v : VaultService)
    : Result StagedImport :=
  sp ← tag_spellings None v;
  writes ← seal_each v random 0 (rp_items p) sp;
  Ok {| si_writes := writes; si_report := update CImported (fun _ => length writes) (rp_report p) |}.
End Restore.

(** ** What a restore may write

    A restore never overwrites: every write is new, under an id this vault
    holds nowhere, and only an Identity takes the account's identity id; each
    item of the file is restored, here already or failed. *)

Section Facts.
Context {C : Crypto} {K : KeyLib} {U : Unicode} {J : JsonLib} {UL : UrlLib} {SL : SiteLib UL} {L : TotpLib}.
Context {AL : AppLib} {PL : PasskeyLib} {B : BackupJson}.

(** ** One item *)

(** What the input could not carry was checked. *)
Definition checked (d : ItemDetails) : Prop :=
  match d with
  | DLogin l => check_history (password_history l) = Ok () /\ check_passkeys (passkeys l) = Ok () /\
                check_bindings (app_bindings l) = Ok ()
  | DBank f => check_bindings (b_app_bindings f) = Ok ()
  | _ => True
  end.

Lemma rebuild_input_ok o d i :
  rebuild_input o d = Ok i -> details_type d = item_type o -> checked d /\ in_type i = details_type d.
Proof.
  unfold rebuild_input. intros H Ht. destruct d as [l|content secs|f|f|f].
  - apply bind_Ok in H as ([] & H1 & H). apply bind_Ok in H as ([] & H2 & H). apply bind_Ok in H as ([] & H3 & H).
    injection H as <-. split; [|done]. by split_and!.
  - injection H as <-. by split.
  - injection H as <-. by split.
  - injection H as <-. by split.
  - apply bind_Ok in H as ([] & H1 & H). injection H as <-. by split.
Qed.

Lemma put_back_ok d o n o' d' :
  details_type d = details_type n -> checked d -> summarizes o n -> put_back d (o, n) = (o', d') ->
  summarizes o' d' /\ checked d' /\ Model.id o' = Model.id o /\ item_type o' = item_type o /\
  Model.created_at o' = Model.created_at o /\ updated_at o' = updated_at o /\ attachments o' = attachments o /\
  trashed_at o' = trashed_at o.
Proof.
  intros Ht Hc (Hty & Hf & Hca & Hb). unfold put_back. destruct d, n; try discriminate Ht; intros [= <- <-]; split_and!; try done.
  - unfold summarizes in *. cbn in *. injection Hf as H1 H2 H3 H4. split_and!; try done. congruence.
Qed.

Lemma rebuild_ok new_id id item o d :
  rebuild new_id id item = Ok (o, d) ->
  summarizes o d /\ checked d /\ Model.id o = id /\ item_type o = item_type (bi_overview item) /\
  Model.created_at o = Model.created_at (bi_overview item) /\ updated_at o = updated_at (bi_overview item) /\
  attachments o = [] /\ trashed_at o = None.
Proof.
  unfold rebuild. destruct (bool_decide_reflect (details_type (bi_details item) = item_type (bi_overview item))) as [Hty|]; [|done].
  cbn [negb]. intros (input & Hin & H)%bind_Ok. apply bind_Ok in H as ([o1 d1] & Hb & H). injection H as H.
  apply rebuild_input_ok in Hin as [Hc Ht]; [|done].
  apply build_item_ok in Hb as (_ & _ & Hs & Hid & Hit & _ & _ & _ & _ & _ & _ & Htr & Ha & _ & Hcr & Hup).
  assert (details_type (bi_details item) = details_type d1) as Hd by (destruct Hs as [<- _]; congruence).
  destruct (put_back_ok _ _ _ _ _ Hd Hc Hs H) as (H1 & H2 & H3 & H4 & H5 & H6 & H7 & H8).
  split_and!; congruence.
Qed.

(** ** The plan *)

(** An item of the plan: new here, well formed, from an item of the file. *)
Record planned (s : Session) (b : list BackupItem) (x : ItemOverview * ItemDetails) : Prop := {
  pl_new : overviews s !! Model.id x.1 = None /\ trash s !! Model.id x.1 = None;
  pl_identity : item_type x.1 = Identity <-> Model.id x.1 = identity_id s;
  pl_formed : summarizes x.1 x.2 /\ checked x.2;
  pl_from : exists i, i ∈ b /\ item_type x.1 = item_type (bi_overview i) /\
    (Model.id x.1 <> identity_id s -> Model.id x.1 = Model.id (bi_overview i)) /\
    Model.created_at x.1 = Model.created_at (bi_overview i) /\ updated_at x.1 = updated_at (bi_overview i);
  pl_files : (length (attachments x.1) <= MAX_ATTACHMENTS_PER_ITEM)%nat;
  pl_live : trashed_at x.1 = None;
}.

(** How many of the items are of a type. *)
Definition of_type (t : ItemType) (l : list (ItemOverview * ItemDetails)) : nat :=
  length (List.filter (fun x => bool_decide (item_type x.1 = t)) l).

Record plan_ok (s : Session) (b : list BackupItem) (k u : nat) (p : RestorePlan) : Prop := {
  po_items : Forall (planned s b) (rp_items p);
  po_nodup : NoDup (map (fun x => Model.id x.1) (rp_items p));
  po_types : forall t, get (type_count t) (rp_report p) = of_type t (rp_items p);
  po_all : (length (rp_items p) + failed (rp_report p) + skipped_existing (rp_report p) = k + u)%nat;
}.

Definition seen_all (p : RestorePlan) (seen : gset Z) : Prop := Forall (fun x => Model.id x.1 ∈ seen) (rp_items p).

Lemma plan_one_ok s b k u new_id i p seen p' seen' :
  plan_ok s b k u p -> seen_all p seen -> i ∈ b -> plan_one s new_id i (p, seen) = (p', seen') ->
  plan_ok s b (S k) u p' /\ seen_all p' seen'.
Proof.
  intros [Hi Hn Ht Ha] Hs Hib. unfold plan_one. set (o := bi_overview i). set (t := item_type o).
  assert (forall p1 c, rp_items p1 = rp_items p -> rp_report p1 = rp_report p -> (c = CFailed \/ c = CExisting) ->
    plan_ok s b (S k) u (counted_plan c p1) /\ seen_all (counted_plan c p1) seen) as Hcount.
  { intros p1 c E1 E2 Hc. split; [|unfold seen_all; cbn; by rewrite E1].
    split; cbn [rp_items counted_plan rp_report]; rewrite ?E1, ?E2; try done.
    - intros t'. rewrite <- Ht. unfold bump. rewrite get_update. by destruct Hc as [-> | ->], t'.
    - destruct Hc as [-> | ->]; counts; lia. }
  destruct (negb (bool_decide (t = Identity)) && (Model.id o =? identity_id s)) eqn:Eslot.
  { intros [= <- <-]. apply Hcount; [done..|by left]. }
  set (id := if bool_decide (t = Identity) then identity_id s else Model.id o).
  assert ((t = Identity <-> id = identity_id s) /\ (id <> identity_id s -> id = Model.id o)) as [Hid1 Hid2].
  { unfold id. destruct (bool_decide_reflect (t = Identity)); [done|]. cbn in Eslot. apply Z.eqb_neq in Eslot. done. }
  destruct (is_some (overviews s !! id)) eqn:E1; cbn [orb]; [intros [= <- <-]; apply Hcount; [done..|by right]|].
  destruct (is_some (trash s !! id)) eqn:E2; [intros [= <- <-]; apply Hcount; [done..|by right]|].
  destruct (bool_decide_reflect (id ∈ seen)) as [|Hns]; [intros [= <- <-]; apply Hcount; [done..|by right]|].
  cbv zeta. destruct (rebuild new_id id i) as [[o1 d1]|e] eqn:Hr; intros [= <- <-].
  2: { destruct (Hcount p CFailed) as [H1 H2]; [done..|by left|]. split; [done|]. eapply Forall_impl; [exact H2|]. set_solver. }
  apply rebuild_ok in Hr as (H1 & H2 & H3 & H4 & H5 & H6 & H7 & H8).
  assert (planned s b (o1, d1)) as Hpl.
  { split; cbn [fst snd].
    - rewrite H3. destruct (overviews s !! id); [done|]. by destruct (trash s !! id).
    - rewrite H3, H4. exact Hid1.
    - done.
    - exists i. rewrite H3. by split_and!.
    - rewrite H7. cbn. lia.
    - done. }
  split; [split; cbn [rp_items rp_report]|unfold seen_all; cbn [rp_items]].
  - apply Forall_app. split; [done|by apply Forall_singleton].
  - rewrite map_app. apply NoDup_app. split_and!; [done| |repeat constructor; set_solver].
    intros x (y & -> & Hy)%list_elem_of_fmap Hx%list_elem_of_singleton. apply Hns. cbn in Hx. rewrite <- H3, <- Hx.
    unfold seen_all in Hs. rewrite Forall_forall in Hs. by apply Hs.
  - intros t'. unfold bump. rewrite get_update, Ht. unfold of_type. rewrite List.filter_app, length_app. cbn [List.filter fst].
    destruct (decide (item_type o1 = t')) as [->|Hne].
    + rewrite decide_True, bool_decide_eq_true_2 by done. cbn [length]. lia.
    + rewrite decide_False by (intros E; apply Hne; by destruct (item_type o1), t'). rewrite bool_decide_eq_false_2 by done. cbn [length]. lia.
  - rewrite length_app. unfold type_count. destruct (item_type o1); cbn [length]; counts; lia.
  - apply Forall_app. split; [eapply Forall_impl; [exact Hs|]; set_solver|]. apply Forall_singleton. cbn. set_solver.
Qed.

Lemma plan_each_ok s b dr u : forall items k p seen,
  plan_ok s b k u p -> seen_all p seen -> items ⊆ b -> plan_ok s b (k + length items) u (plan_each s dr k items (p, seen)).1.
Proof.
  induction items as [|i items IH]; intros k p seen Hp Hs Hsub; cbn [plan_each length]; [by rewrite Nat.add_0_r|].
  destruct (plan_one s (dr k) i (p, seen)) as [p' seen'] eqn:E.
  apply (plan_one_ok s b k u) in E as [Hp' Hs']; [|done|done|set_solver].
  replace (k + S (length items))%nat with (S k + length items)%nat by lia. apply IH; [done..|set_solver].
Qed.

Lemma plan_restore_ok dr b v s p :
  session v = Ok s -> plan_restore dr b v = Ok p -> plan_ok s (ob_items b) (length (ob_items b)) (ob_unreadable b) p.
Proof.
  intros Hs. unfold plan_restore. rewrite Hs. cbn [mbind result_bind]. intros [= <-].
  apply (plan_each_ok s (ob_items b) dr (ob_unreadable b) (ob_items b) 0).
  - split; cbn [rp_items rp_report]; [by apply Forall_nil|by apply NoDup_nil|by intros []|].
    change (failed (bump_by CFailed (ob_unreadable b) no_report)) with (0 + ob_unreadable b)%nat.
    change (skipped_existing (bump_by CFailed (ob_unreadable b) no_report)) with 0%nat. cbn [length]. lia.
  - by apply Forall_nil.
  - done.
Qed.

(** ** Files *)

(** A file listed where [target] had room for it. *)
Inductive lists_file : RestorePlan -> RestorePlan -> Prop :=
| lists (p : RestorePlan) f m i : target f p = Some i -> lists_file p (attach (ba_item_id f) m p).

(** What a change of one element leaves alone. *)
Lemma alter_map {A D} (g : A -> D) (f : A -> A) i l : (forall x, g (f x) = g x) -> map g (alter f i l) = map g l.
Proof.
  intros Hg. revert i. induction l as [|x l IH]; intros [|i]; try done; cbn; [by rewrite Hg|]. f_equal. apply IH.
Qed.

Lemma of_type_map t l : of_type t l = length (List.filter (fun y => bool_decide (y = t)) (map (fun x => item_type x.1) l)).
Proof. unfold of_type. induction l as [|x l IH]; [done|]. cbn. destruct (bool_decide _); cbn; by rewrite IH. Qed.

Lemma lists_file_ok s b k u p p' : lists_file p p' -> plan_ok s b k u p -> plan_ok s b k u p'.
Proof.
  intros [q f m i Hroom] [Hi Hn Ht Ha]. unfold target in Hroom. unfold attach.
  destruct (rp_places q !! ba_item_id f) as [at_|].
  2: { destruct (rp_identity q) as [g|]; [destruct (if_backup_id g =? ba_item_id f)|]; by split. }
  destruct (rp_items q !! at_) as [[o d]|] eqn:Eat; [|done].
  destruct (Nat.ltb_spec (length (attachments o)) MAX_ATTACHMENTS_PER_ITEM) as [Hlt|]; [|done].
  set (f0 := fun x : ItemOverview * ItemDetails => _). split; cbn [rp_items rp_report].
  - apply Forall_lookup. intros j x Hx. destruct (decide (j = at_)) as [->|Hj].
    + rewrite list_lookup_alter_eq, Eat in Hx. cbn in Hx. injection Hx as <-. rewrite Forall_lookup in Hi.
      destruct (Hi _ _ Eat) as [P1 P2 P3 P4 P5 P6]. split; cbn in *; try done. rewrite length_app. cbn. lia.
    + rewrite list_lookup_alter_ne in Hx by done. rewrite Forall_lookup in Hi. by eapply Hi.
  - by rewrite alter_map.
  - intros t. rewrite Ht, !of_type_map. by rewrite alter_map.
  - by rewrite length_alter.
Qed.

(** ** Sealing *)

(** The write of a planned item. *)
Definition write_of (x : ItemOverview * ItemDetails) (w : StagedWrite) : Prop :=
  sw_item w = Model.id x.1 /\ base_revision w = None /\ (exists ts, plain w = Some (with_tags ts x.1)) /\
  attachment_ids w = (if bool_decide (attachments x.1 = []) then None else Some (map att_id (attachments x.1))).

Lemma seal_each_writes v random : forall items k batch ws,
  seal_each v random k items batch = Ok ws -> Forall2 write_of items ws.
Proof.
  induction items as [|[o d] items IH]; intros k batch ws; cbn [seal_each]; [intros [= <-]; by apply Forall2_nil|].
  intros ([w batch'] & Hw & H)%bind_Ok. apply bind_Ok in H as (ws' & H & E). injection E as <-.
  constructor; [|by eapply IH]. apply batch_fields in Hw as (H1 & H2 & H3). split_and!; try done.
  cbn [with_ids attachment_ids fst]. destruct (attachments o); [done|]. by rewrite !bool_decide_eq_false_2.
Qed.

(** How many of the writes are of a type. *)
Definition write_type (w : StagedWrite) : option ItemType := item_type <$> plain w.
Definition typed (t : ItemType) (l : list StagedWrite) : nat := length (List.filter (fun w => bool_decide (write_type w = Some t)) l).

Lemma writes_type x w : write_of x w -> write_type w = Some (item_type x.1).
Proof. intros (_ & _ & [ts Hp] & _). unfold write_type. by rewrite Hp. Qed.

Lemma writes_typed t xs ws : Forall2 write_of xs ws -> typed t ws = of_type t xs.
Proof.
  unfold typed, of_type. induction 1 as [|x w xs ws Hw _ IH]; [done|]. cbn [List.filter]. rewrite (writes_type _ _ Hw).
  rewrite (bool_decide_ext (Some (item_type x.1) = Some t) (item_type x.1 = t)) by (split; congruence).
  destruct (bool_decide _); cbn [length]; by rewrite IH.
Qed.

(** The writes of a restore are steps of the vault. *)
Lemma seal_each_stages v random : (forall k, good_nonce (random k).1 /\ good_nonce (random k).2) -> forall items k batch ws,
  Forall (fun x => details_type x.2 = item_type x.1) items -> seal_each v random k items batch = Ok ws -> Forall (stages v) ws.
Proof.
  intros Hg. induction items as [|[o d] items IH]; intros k batch ws Ht; cbn [seal_each]; [intros [= <-]; by apply Forall_nil|].
  apply Forall_cons in Ht as [Ht1 Ht]. intros ([w batch'] & Hw & H)%bind_Ok. apply bind_Ok in H as (ws' & H & E).
  injection E as <-. destruct (Hg k) as [G1 G2]. apply Forall_cons. split; [|by eapply IH].
  exact (by_batch v o d None _ _ _ _ _ w G1 G2 Ht1 Hw).
Qed.

(** A restore never overwrites. Whatever the backup holds, and whatever
    files were added to the plan, every write is new: under an id this vault
    holds neither live nor in the Trash, without a base revision, a different
    id for each; it is the write of an item of the file, well formed, not in
    the Trash, with its passkeys, history and app bindings checked and no
    more files than an item may have; only an Identity takes the account's
    identity id; each is a step of the vault; and the report accounts for
    every item: restored, here already or failed. *)
Lemma restore_adds_only dr random b v s p p' si :
  session v = Ok s -> plan_restore dr b v = Ok p -> rtc lists_file p p' ->
  (forall k, good_nonce (random k).1 /\ good_nonce (random k).2) ->
  stage_restore random p' v = Ok si ->
  Forall2 write_of (rp_items p') (si_writes si) /\ Forall (planned s (ob_items b)) (rp_items p') /\
  NoDup (map sw_item (si_writes si)) /\ Forall (stages v) (si_writes si) /\
  let r := si_report si in
  imported r = length (si_writes si) /\ (forall t, get (type_count t) r = typed t (si_writes si)) /\
  (imported r + failed r + skipped_existing r = length (ob_items b) + ob_unreadable b)%nat.
Proof.
  intros Hs Hp Hf Hg. apply (plan_restore_ok _ _ _ _ _ Hs) in Hp.
  assert (plan_ok s (ob_items b) (length (ob_items b)) (ob_unreadable b) p') as [Hi Hn Ht Ha].
  { clear Hg. induction Hf as [|p p1 p' H1 _ IH]; [done|]. apply IH. by eapply lists_file_ok. }
  unfold stage_restore. intros (sp & _ & H)%bind_Ok. apply bind_Ok in H as (ws & Hw & H). injection H as <-.
  cbn [si_writes si_report]. pose proof (seal_each_writes _ _ _ _ _ _ Hw) as H2.
  pose proof (Forall2_length _ _ _ H2) as Hlen. split; [done|]. split; [done|]. split.
  { assert (map sw_item ws = map (fun x => Model.id x.1) (rp_items p')) as ->; [|done].
    clear -H2. induction H2 as [|x w xs ws [E _] _ IH]; [done|]. cbn. by rewrite E, IH. }
  split.
  { eapply seal_each_stages; [done| |exact Hw]. eapply Forall_impl; [exact Hi|]. intros x Hx.
    destruct (pl_formed _ _ _ Hx) as [[<- _] _]. done. }
  cbv zeta. set (f := fun _ : nat => length ws). set (r := rp_report p') in *.
  change (imported (update CImported f r)) with (length ws).
  change (failed (update CImported f r)) with (failed r).
  change (skipped_existing (update CImported f r)) with (skipped_existing r).
  split; [done|]. split; [|lia]. intros t. rewrite (writes_typed _ _ _ H2), <- Ht, get_update. by destruct t.
Qed.
End Facts.

(** ** A concrete restore *)

Module ToyRestore.
Import Blob.Toy ToyUnicode ToyUrl ToyTotp ToySite ToyCodec Sample System.Run ToyPasskey.

Definition backup_item (i : Z) (inp : ItemInput) : BackupItem :=
  match build_item new_id i inp None 5 6 with
  | Ok (o, d) => {| bi_overview := o; bi_details := d |}
  | Err _ => {| bi_overview := BuildItem.sample_overview; bi_details := DNote [] [] |}
  end.
Definition a_note : ItemInput :=
  {| in_type := SecureNote; in_title := lit "Door"; in_username := None; in_urls := []; in_password := Keep;
     in_totp := Keep; in_notes := Keep; in_content := SetTo (lit "4711"); in_auto_sign_in := None;
     in_sign_in_with := None; in_identity := None; in_card := None; in_bank := None; in_sections := None; in_tags := None |}.

(** A login held here, a note, the note's id again, a note that squats the
    identity's id, and an Identity. *)
Definition backup : OpenedBackup :=
  {| ob_items := [backup_item 42 site_input; backup_item 43 a_note; backup_item 43 a_note;
                  backup_item (identity_id session2) a_note; backup_item 77 (identity_input (lit "a@b.c"))];
     ob_unreadable := 1 |}.
Definition ids (k n : nat) : Z := 500 + 10 * Z.of_nat k + Z.of_nat n.
Definition random (k : nat) : option (list Z) * option (list Z) := (nonce 5, nonce 6).
Definition no_plan : RestorePlan := {| rp_items := []; rp_places := ∅; rp_identity := None; rp_report := no_report |}.
Definition plan : RestorePlan := of_ok no_plan (plan_restore ids backup stored).
Definition a_file : AttachmentMeta :=
  {| att_id := 900; att_name := lit "key.txt"; mime := lit "text/plain"; size := 3; blob_sha256 := [1]; att_created_at := 4;
     att_extra := [] |}.

Lemma restore_adds_only_witness :
  exists si, stage_restore random (attach 43 a_file plan) stored = Ok si /\
    map sw_item (si_writes si) = [43; identity_id session2] /\ NoDup (map sw_item (si_writes si)) /\
    map attachment_ids (si_writes si) = [Some [900]; None] /\ failed (si_report si) = 2%nat /\ skipped_existing (si_report si) = 2%nat.
Proof.
  destruct (stage_restore random (attach 43 a_file plan) stored) as [si|e] eqn:E; [|vm_compute in E; discriminate E].
  exists si. split; [reflexivity|].
  edestruct (restore_adds_only ids random backup stored session2 plan (attach 43 a_file plan) si) as (_ & _ & Hnd & _).
  - apply stored_ok.
  - vm_compute. reflexivity.
  - apply rtc_once. apply (lists plan {| ba_item_id := 43; ba_meta := a_file; ba_bytes := [1; 2; 3] |} a_file 43).
    vm_compute. reflexivity.
  - intros k. split; apply nonce_good.
  - exact E.
  - assert (map sw_item (si_writes si) = [43; identity_id session2] /\ map attachment_ids (si_writes si) = [Some [900]; None]
      /\ failed (si_report si) = 2%nat /\ skipped_existing (si_report si) = 2%nat) as (H1 & H2 & H3 & H4).
    { vm_compute in E. injection E as <-. vm_compute. done. }
    split; [exact H1|]. split; [exact Hnd|]. split; [exact H2|]. split; [exact H3|exact H4].
Defined.
End ToyRestore.
