(* ===== verification/AppFill.v ===== *)
(** * Filling Android apps, and their passkeys
      (crates/havenkeys-core/src: app_fill.rs, passkey/app.rs)

    An app matches an item the user bound it to (package and certificate), or
    one whose website vouches for it; [hosts] is that second set, from
    AppTarget.v.  A passkey of an app rests on the cached asset links of its
    relying party. *)

From S2P Require Import Prelude Errors Text Blob Url Tags Totp Clean Card Identity.
From S2P Require Import CustomField Bank Sso Attachment Model Keys Store Origin Health BuildItem.
From S2P Require Import Vault Items Page ToyCodec Sync Replica Activity AppTarget Cbor Passkey PasskeyVault Restore.

(** [HEXLOWER_PERMISSIVE] of data-encoding. *)
Class HexLib := hex_decode : list Z -> option (list Z).

Record AppCreateQuery := {
  aq_rp : list Z;
  aq_app : AppIdentity;
  aq_hosts : list (list Z);
  aq_user : list Z;
  aq_exclude : list (list Z);
}.
Record AppPasskeyCreate := {
  ap_rp : list Z;
  ap_app : AppIdentity;
  ap_hosts : list (list Z);
  ap_challenge : list Z;
  ap_handle : list Z;
  ap_user : list Z;
  ap_display : option (list Z);
  ap_item : option Z;
}.

Definition with_bindings (l : list AppBinding) (d : ItemDetails) : ItemDetails :=
  match d with
  | DLogin d =>
      DLogin {| password := password d; totp := totp d; notes := notes d; password_history := password_history d;
                passkeys := passkeys d; sections := sections d; app_bindings := l; health_ignored := health_ignored d |}
  | DBank f =>
      DBank {| Bank.bank := Bank.bank f; holder_name := holder_name f; account_type := account_type f; branch := branch f;
               branch_digit := branch_digit f; Bank.account := Bank.account f; account_digit := account_digit f;
               b_password := b_password f; b_notes := b_notes f; b_sections := b_sections f; b_app_bindings := l |}
  | _ => d
  end.
Definition bindings_of (d : ItemDetails) : option (list AppBinding) :=
  match d with DLogin d => Some (app_bindings d) | DBank f => Some (b_app_bindings f) | _ => None end.

Definition push_binding (l : list AppBinding) (b : AppBinding) : list AppBinding :=
  if bool_decide (b ∈ l) then l else l ++ [b].

Section AppFill.
Context {C : Crypto} {K : KeyLib} {U : Unicode} {J : JsonLib} {UL : UrlLib} {SL : SiteLib UL} {L : TotpLib}.
Context {AL : AppLib} {PL : PasskeyLib} {FL : FloatLib} {AC : Codec Activity} {ACC : Codec AssetLinksCache} {HX : HexLib}.

Definition binding_cert (b : AppBinding) : option (list Z) :=
  c ← hex_decode (utf8 (cert_sha256 b)); if (length c =? CERT_LEN)%nat then Some c else None.
Definition bindings_for (app : AppIdentity) : list AppBinding :=
  map (fun cert => {| package := app_package app; cert_sha256 := hexlower cert |}) (app_certs app).

(** ** Matching *)

Definition binds (app : AppIdentity) (b : AppBinding) : bool :=
  bool_decide (package b = app_package app)
  && match binding_cert b with Some c => signed_by c app | None => false end.

Definition bound_to (item : Z) (app : AppIdentity) (v : VaultService) : Result bool :=
  match load_details item v with
  | Ok d => Ok match bindings_of d with Some l => existsb (binds app) l | None => false end
  | Err Locked => Err Locked
  | Err _ => Ok false
  end.

Definition host_page (h : list Z) : option Url := page_parse (lit "https://" ++ h ++ lit "/").

Definition app_match (o : ItemOverview) (app : AppIdentity) (hosts : list (list Z)) (policy : MatchPolicy)
    (v : VaultService) : Result (option MatchStrength) :=
  bound ← bound_to (Model.id o) app v;
  if bound : bool then Ok (Some ExactUrl)
  else Ok (strongest (omap (fun page => match_item o page policy) (omap host_page hosts))).

(** The loop of [app_matches]: the first error ends it. *)
Fixpoint app_suggestions (app : AppIdentity) (hosts : list (list Z)) (policy : MatchPolicy) (v : VaultService)
    (l : list ItemOverview) : Result (list Suggestion) :=
  match l with
  | [] => Ok []
  | o :: l =>
      m ← app_match o app hosts policy v;
      rest ← app_suggestions app hosts policy v l;
      Ok match m with Some st => suggestion o st :: rest | None => rest end
  end.

Definition app_matches (app : AppIdentity) (hosts : list (list Z)) (policy : MatchPolicy) (v : VaultService)
    : Result (list Suggestion) :=
  s ← session v;
  out ← app_suggestions app hosts policy v
          (List.filter (fun o => is_site_bound (item_type o)) (Items.values (overviews s)));
  Ok (sort_by_key suggestion_key out).

Definition matches_for_app (app : AppIdentity) (hosts : list (list Z)) (now_ms : Z) (v : VaultService)
    : Result (list Suggestion) :=
  policy ← match_policy v;
  out ← app_matches app hosts policy v;
  rank_by_use out now_ms v.

Definition direct_app_matches (app : AppIdentity) (hosts : list (list Z)) (v : VaultService) :=
  app_matches app hosts DIRECT v.

Definition authorize_for_app_with (item : Z) (app : AppIdentity) (hosts : list (list Z)) (policy : MatchPolicy)
    (v : VaultService) : Result ItemOverview :=
  s ← session v;
  o ← ok_or NotFound (overviews s !! item);
  if negb (is_site_bound (item_type o)) then Err Denied
  else
    m ← app_match o app hosts policy v;
    match m with Some _ => Ok o | None => Err Denied end.
Definition authorize_for_app (item : Z) (app : AppIdentity) (hosts : list (list Z)) (v : VaultService)
    : Result ItemOverview :=
  policy ← match_policy v; authorize_for_app_with item app hosts policy v.

(** ** Filling and binding *)

Definition fill_for_app (item : Z) (app : AppIdentity) (hosts : list (list Z)) (v : VaultService)
    : Result FillCredentials :=
  o ← authorize_for_app item app hosts v; fill_reply item (username o) v.

Definition totp_for_app (item : Z) (app : AppIdentity) (hosts : list (list Z)) (unix_seconds : Z) (v : VaultService)
    : Result TotpCode :=
  o ← authorize_for_app item app hosts v;
  if decide (item_type o = Login) then Items.totp_code item unix_seconds v else Err Denied.

Definition too_many_apps : Error := InvalidInput "too many apps for this login".

Definition stage_bind_app (item : Z) (app : AppIdentity) (now_ms : Z) (r1 r2 : option (list Z)) (v : VaultService)
    : Result StagedWrite :=
  existing ← get_item item v;
  if negb (is_site_bound (item_type existing)) then Err Denied
  else
    d ← load_details item v;
    old ← ok_or Corrupted (bindings_of d);
    let l := foldl push_binding old (bindings_for app) in
    _ ← guard_err (MAX_APP_BINDINGS <? length l)%nat too_many_apps;
    stage v (with_updated now_ms existing) (Some (with_bindings l d)) (item_revision item (store v)) r1 r2.

(** ** Saving *)

Definition check_login_for_app (app : AppIdentity) (hosts : list (list Z)) (user : option (list Z)) (pw : list Z)
    (current : option (list Z)) (v : VaultService) : Result SaveAction :=
  candidates ← direct_app_matches app hosts v;
  action ← save_action candidates user pw current v;
  policy ← match_policy v;
  if negb (bool_decide (action = SaveAdd)) || is_direct policy then Ok action
  else
    related ← app_matches app hosts policy v;
    unchanged_or_add related user pw v.

Definition stage_save_login_for_app (new_id : nat -> Z) (fresh : Z) (app : AppIdentity) (hosts : list (list Z))
    (user : option (list Z)) (pw : list Z) (target : SaveTarget) (now_ms : Z) (r1 r2 : option (list Z))
    (v : VaultService) : Result StagedSave :=
  if bool_decide (pw = []) then Err (InvalidInput "password is required")
  else
    _ ← session v;
    match target with
    | UpdateLogin item =>
        existing ← authorize_for_app_with item app hosts DIRECT v;
        if negb (bool_decide (item_type existing = Login)) then Err Denied
        else
          w ← stage_update new_id item
                (with_save (username existing) (SetTo pw) (sign_in_with existing) (login_input_from existing))
                now_ms r1 r2 v;
          Ok {| save_write := w; save_item := item |}
    | NewLogin t =>
        t ← match trimmed_nonempty t with Some t => clean_title t | None => Ok (app_package app) end;
        '(o, d) ← build_item new_id fresh (with_save user (SetTo pw) None (blank Login t)) None now_ms now_ms;
        _ ← guard_err (MAX_APP_BINDINGS <? length (bindings_for app))%nat too_many_apps;
        w ← stage v o (Some (with_bindings (bindings_for app) d)) None r1 r2;
        Ok {| save_write := w; save_item := fresh |}
    end.

(** ** Searching, and the hosts a lookup may ask about *)

Definition search_logins (query : list Z) (v : VaultService) : Result (list Suggestion) :=
  l ← search query v;
  Ok (map (fun o => suggestion o SameSite) (List.filter (fun o => is_site_bound (item_type o)) l)).

Definition rule_domain (r : UrlRule) : option (list Z) :=
  u ← url_parse (Model.url r);
  match url_host u with
  | Some (HDomain d) => if bool_decide (d = lit "localhost") then None else Some (map to_ascii_lowercase d)
  | _ => None
  end.
Definition login_hosts (v : VaultService) : Result (list (list Z)) :=
  s ← session v;
  Ok (btree_set (omap rule_domain
        (concat (map urls (List.filter (fun o => is_site_bound (item_type o)) (Items.values (overviews s))))))).

(** ** Passkeys for apps (passkey/app.rs) *)

Definition authorize_app_rp (rp_id : list Z) (app : AppIdentity) (now_ms : Z) (v : VaultService) : Result RpContext :=
  _ ← session v;
  let cache : AssetLinksCache := match read_local AssetLinks v with Ok (Some c) => c | _ => [] end in
  authorize_rp_for_app rp_id app cache now_ms.

Definition find_passkeys_for_app (rp_id : list Z) (app : AppIdentity) (allow : list (list Z)) (now_ms : Z)
    (v : VaultService) : Result (list PasskeyMatch) :=
  ctx ← authorize_app_rp rp_id app now_ms v; passkeys_for ctx allow v.

Definition passkey_assert_for_app (item : Z) (credential rp_id : list Z) (app : AppIdentity) (challenge : list Z)
    (now_ms : Z) (v : VaultService) : Result Assertion :=
  _ ← session v;
  _ ← check_challenge challenge;
  ctx ← authorize_app_rp rp_id app now_ms v;
  assert_for item credential ctx challenge None v.

Definition check_passkey_create_for_app (q : AppCreateQuery) (now_ms : Z) (v : VaultService) : Result CreateCheck :=
  ctx ← authorize_app_rp (aq_rp q) (aq_app q) now_ms v;
  excluded ← (if bool_decide (aq_exclude q = []) then Ok false
              else l ← passkeys_for ctx (aq_exclude q) v; Ok (negb (length l =? 0)%nat));
  matches ← direct_app_matches (aq_app q) (aq_hosts q) v;
  Ok {| cc_excluded := excluded; cc_candidates := same_user_first (with_room matches v) (aq_user q); cc_upgrade := UpNone |}.

Definition stage_passkey_create_for_app (new_id : nat -> Z) (item : Z) (req : AppPasskeyCreate) (now_ms : Z)
    (draws : nat -> option (list Z)) (random_id r1 r2 : option (list Z)) (v : VaultService) : Result StagedPasskey :=
  _ ← session v;
  _ ← check_challenge (ap_challenge req);
  ctx ← authorize_app_rp (ap_rp req) (ap_app req) now_ms v;
  matches ← direct_app_matches (ap_app req) (ap_hosts req) v;
  let site := lit "https://" ++ rp ctx ++ lit "/" in
  stage_create_for ctx
    {| np_challenge := ap_challenge req; np_handle := ap_handle req; np_user := ap_user req; np_display := ap_display req |}
    {| chosen := ap_item req; offered := map sg_id matches; refuse_replace := false |}
    (fun user => new_login_for_passkey new_id item site user now_ms) now_ms draws random_id r1 r2 v.
End AppFill.

(** ** What an app gets *)

Section Facts.
Context {C : Crypto} {K : KeyLib} {U : Unicode} {J : JsonLib} {UL : UrlLib} {SL : SiteLib UL} {L : TotpLib}.
Context {AL : AppLib} {PL : PasskeyLib} {FL : FloatLib} {AC : Codec Activity} {ACC : Codec AssetLinksCache} {HX : HexLib}.

(** The user bound the item to the app: its package and one of the
    certificates it is signed with. *)
Definition user_bound (d : ItemDetails) (app : AppIdentity) : Prop :=
  exists l b c, bindings_of d = Some l /\ b ∈ l /\ package b = app_package app /\
    hex_decode (utf8 (cert_sha256 b)) = Some c /\ length c = CERT_LEN /\ c ∈ app_certs app.

(** A website of the item stands for the app. *)
Definition site_vouched (o : ItemOverview) (hosts : list (list Z)) (policy : MatchPolicy) : Prop :=
  exists h page st, h ∈ hosts /\ host_page h = Some page /\ match_item o page policy = Some st.

Lemma binds_spec app b : binds app b = true ->
  package b = app_package app /\ exists c, hex_decode (utf8 (cert_sha256 b)) = Some c /\ length c = CERT_LEN /\ c ∈ app_certs app.
Proof.
  unfold binds, binding_cert. intros [Hp Hc]%andb_true_iff. split; [by apply bool_decide_eq_true in Hp|].
  destruct (hex_decode (utf8 (cert_sha256 b))) as [c|]; [|done]. cbn [mbind option_bind] in Hc.
  destruct (Nat.eqb_spec (length c) CERT_LEN); [|done]. exists c. split_and!; [done..|]. by apply bool_decide_eq_true in Hc.
Qed.

Lemma app_match_some o app hosts policy v st :
  app_match o app hosts policy v = Ok (Some st) ->
  (exists d, load_details (Model.id o) v = Ok d /\ user_bound d app) \/ site_vouched o hosts policy.
Proof.
  unfold app_match. intros (bound & Hb & H)%bind_Ok. destruct bound.
  - left. unfold bound_to in Hb. destruct (load_details (Model.id o) v) as [d|[]]; try done. injection Hb as Hb.
    exists d. split; [done|]. destruct (bindings_of d) as [l|] eqn:El; [|done].
    apply existsb_exists in Hb as (b & Hin%list_elem_of_In & Hs). destruct (binds_spec _ _ Hs) as (Hp & c & H1 & H2 & H3).
    by exists l, b, c.
  - right. injection H as [X _]%strongest_Some.
    apply list_elem_of_omap in X as (page & X & Hm). apply list_elem_of_omap in X as (h & Hh & Hp). by exists h, page, st.
Qed.

Lemma authorize_for_app_with_ok item app hosts policy v o :
  authorize_for_app_with item app hosts policy v = Ok o ->
  exists s, session v = Ok s /\ overviews s !! item = Some o /\ is_site_bound (item_type o) = true /\
    ((exists d, load_details (Model.id o) v = Ok d /\ user_bound d app) \/ site_vouched o hosts policy).
Proof.
  unfold authorize_for_app_with. intros (s & Hs & (o' & Ho%ok_or_Ok & H)%bind_Ok)%bind_Ok.
  destruct (is_site_bound (item_type o')) eqn:Eb; [|done]. cbn [negb] in H.
  apply bind_Ok in H as (m & Hm & H). destruct m as [st|]; [|done]. injection H as <-.
  exists s. split_and!; [done..|]. by eapply app_match_some.
Qed.

(** Credentials leave for an app only from an item bound to it by the user or
    vouched for by one of its websites under the vault's own policy. *)
Lemma app_fill_authorized item app hosts v creds :
  fill_for_app item app hosts v = Ok creds ->
  exists s o policy, session v = Ok s /\ overviews s !! item = Some o /\ is_site_bound (item_type o) = true /\
    match_policy v = Ok policy /\
    ((exists d, load_details (Model.id o) v = Ok d /\ user_bound d app) \/ site_vouched o hosts policy) /\
    fill_reply item (username o) v = Ok creds.
Proof.
  unfold fill_for_app, authorize_for_app. intros (o & Ha & Hf)%bind_Ok. apply bind_Ok in Ha as (policy & Hp & Ha).
  destruct (authorize_for_app_with_ok _ _ _ _ _ _ Ha) as (s & ? & ? & ? & ?). by exists s, o, policy.
Qed.

(** A saved login is updated only when it matches the app directly. *)
Lemma app_save_update_direct new_id fresh app hosts user pw item now r1 r2 v sv :
  stage_save_login_for_app new_id fresh app hosts user pw (UpdateLogin item) now r1 r2 v = Ok sv ->
  pw <> [] /\ save_item sv = item /\
  exists s o, session v = Ok s /\ overviews s !! item = Some o /\ item_type o = Login /\
    ((exists d, load_details (Model.id o) v = Ok d /\ user_bound d app) \/ site_vouched o hosts DIRECT).
Proof.
  unfold stage_save_login_for_app. destruct (bool_decide_reflect (pw = [])); [done|].
  intros (s & Hs & H)%bind_Ok. apply bind_Ok in H as (o & Ha & H).
  destruct (bool_decide_reflect (item_type o = Login)) as [Ht|]; [|done]. cbn [negb] in H.
  apply bind_Ok in H as (w & _ & [= <-]). split_and!; [done|done|].
  destruct (authorize_for_app_with_ok _ _ _ _ _ _ Ha) as (s' & ? & ? & ? & ?). by exists s', o.
Qed.

(** A passkey signs for an app only when the relying party's own asset links,
    fresh in the cache, grant the app its sign-in credentials; what it signs
    names one of the app's certificates. *)
Lemma app_assert_vouched item cred rp_id app challenge now v a :
  passkey_assert_for_app item cred rp_id app challenge now v = Ok a ->
  exists ctx cache id statements cert, session v <> Err Locked /\ app_rp_id rp_id = Some id /\
    (cache = [] \/ read_local AssetLinks v = Ok (Some cache)) /\
    statements_for id now cache = Some statements /\ login_creds_cert statements app = Some cert /\ cert ∈ app_certs app /\
    rp ctx = id /\ rp_origin ctx = android_app_origin cert /\ assert_for item cred ctx challenge None v = Ok a.
Proof.
  unfold passkey_assert_for_app. intros (s & Hs & (? & _ & (ctx & Hc & Ha)%bind_Ok)%bind_Ok)%bind_Ok.
  unfold authorize_app_rp in Hc. rewrite Hs in Hc. cbn [mbind result_bind] in Hc.
  set (cache := match read_local AssetLinks v with Ok (Some c) => c | _ => [] end) in Hc.
  unfold authorize_rp_for_app in Hc. apply bind_Ok in Hc as (id & Hid%ok_or_Ok & Hc).
  apply bind_Ok in Hc as (sts & Hst%ok_or_Ok & Hc). apply bind_Ok in Hc as (cert & Hce%ok_or_Ok & [= <-]).
  eexists _, cache, id, sts, cert. split_and!; try done.
  - congruence.
  - unfold cache. destruct (read_local AssetLinks v) as [[c|]|]; [by right|by left..].
  - unfold login_creds_cert in Hce. clear -Hce. induction (List.filter _ sts) as [|x l IH]; [done|]. cbn [find_map] in Hce.
    destruct (List.find _ (app_certs app)) as [c|] eqn:E; [|by apply IH]. injection Hce as <-.
    apply find_some in E as [E _]. by apply list_elem_of_In.
  - reflexivity.
  - reflexivity.
Qed.
End Facts.
