(* ===== verification/Opaque.v ===== *)
(** * The OPAQUE configuration (crates/havenkeys-opaque, core/src/pake.rs)

    The byte-level calls around the [opaque-ke] crate: the size limit checked
    before a message is parsed, and every library error turned into one of
    two answers.  The crate itself is the class [OpaqueKe]; what [OsRng]
    draws is an argument.  The password is the 32-byte auth key. *)

From S2P Require Import Prelude Errors Text.

Definition CONTEXT : list Z := lit "havenkeys/opaque/v1".
Definition MAX_MESSAGE_BYTES : Z := 512.

Inductive PakeError := Malformed | InvalidLogin.
#[export] Instance PakeError_eq_dec : EqDecision PakeError.
Proof. solve_decision. Defined.

(** [opaque_ke::errors::ProtocolError]; the rest of its cases are told apart
    by nothing here. *)
Inductive ProtocolError := InvalidLoginError | ReflectedValueError | OtherProtocolError.

(** The messages and stored values with a [deserialize]. *)
Inductive OpaqueMessage :=
| MRegistrationRequest | MRegistrationResponse | MRegistrationUpload | MServerRegistration
| MCredentialRequest | MCredentialResponse | MCredentialFinalization | MServerLogin | MServerSetup.

(** The [opaque-ke] crate with the suite fixed: whether bytes deserialize,
    and the calls on bytes that do.  States stay inside the process. *)
Class OpaqueKe := {
  deserializes : OpaqueMessage -> list Z -> bool;
  ClientRegistrationState : Type;
  ClientLoginState : Type;
  client_registration_start : list Z -> list Z -> result ProtocolError (ClientRegistrationState * list Z);
  client_registration_finish : ClientRegistrationState -> list Z -> list Z -> list Z -> result ProtocolError (list Z);
  client_login_start : list Z -> list Z -> result ProtocolError (ClientLoginState * list Z);
  client_login_finish : ClientLoginState -> list Z -> list Z -> list Z -> list Z -> result ProtocolError (list Z);
  server_setup : list Z -> list Z;
  server_registration_start : list Z -> list Z -> list Z -> result ProtocolError (list Z);
  server_registration_finish : list Z -> list Z;
  server_login_start : list Z -> list Z -> option (list Z) -> list Z -> list Z -> list Z ->
    result ProtocolError (list Z * list Z);
  server_login_finish : list Z -> list Z -> list Z -> result ProtocolError ();
}.

Section Opaque.
Context {O : OpaqueKe}.

Definition pake_error_from (e : ProtocolError) : PakeError :=
  match e with InvalidLoginError | ReflectedValueError => InvalidLogin | OtherProtocolError => Malformed end.

Definition checked (bytes : list Z) : result PakeError (list Z) :=
  if bool_decide (bytes = []) || (MAX_MESSAGE_BYTES <? len bytes) then Err Malformed else Ok bytes.

(** [T::deserialize(checked(bytes)?)]. *)
Definition deserialize (m : OpaqueMessage) (bytes : list Z) : result PakeError (list Z) :=
  b ← checked bytes; if deserializes m b then Ok b else Err Malformed.

(** ** [ClientRegistration] and [ClientLogin] *)

Definition register_start (random auth_key : list Z) : result PakeError (ClientRegistrationState * list Z) :=
  map_err pake_error_from (client_registration_start random auth_key).
Definition register_finish (s : ClientRegistrationState) (random auth_key response : list Z) : result PakeError (list Z) :=
  r ← deserialize MRegistrationResponse response;
  map_err pake_error_from (client_registration_finish s random auth_key r).
Definition login_start (random auth_key : list Z) : result PakeError (ClientLoginState * list Z) :=
  map_err pake_error_from (client_login_start random auth_key).
Definition login_finish (s : ClientLoginState) (random auth_key response : list Z) : result PakeError (list Z) :=
  r ← deserialize MCredentialResponse response;
  map_err pake_error_from (client_login_finish s random auth_key r CONTEXT).

(** ** [ServerKeys] *)

Definition keys_generate (random : list Z) : list Z := server_setup random.
Definition keys_from_bytes (bytes : list Z) : result PakeError (list Z) :=
  if deserializes MServerSetup bytes then Ok bytes else Err Malformed.
Definition keys_register (keys request id : list Z) : result PakeError (list Z) :=
  r ← deserialize MRegistrationRequest request;
  map_err (fun _ => Malformed) (server_registration_start keys r id).
Definition keys_login_start (random keys : list Z) (record : option (list Z)) (request id : list Z)
    : result PakeError (list Z * list Z) :=
  rec ← match record with
        | Some r => r ← deserialize MServerRegistration r; Ok (Some r)
        | None => Ok None
        end;
  q ← deserialize MCredentialRequest request;
  map_err pake_error_from (server_login_start random keys rec q id CONTEXT).

Definition record_from_upload (upload : list Z) : result PakeError (list Z) :=
  u ← deserialize MRegistrationUpload upload; Ok (server_registration_finish u).
(** [login_finish] of the server. *)
Definition server_finish (state finalization : list Z) : result PakeError () :=
  s ← deserialize MServerLogin state;
  f ← deserialize MCredentialFinalization finalization;
  map_err pake_error_from (server_login_finish s f CONTEXT).
End Opaque.
