(* ===== verification/Wire.v ===== *)
(** * Talking to the server (crates/havenkeys-sync-client)

    What the client sends and what it accepts back: wire.rs (the JSON shapes
    and their checks), client.rs (one method per route; the account routes
    are in WireAccount.v), error.rs and session.rs.  The HTTP transport is a class ([transport_send]); a JSON form
    is an instance of [Serde].  The server is not trusted here: every method
    either returns a value of the shape the protocol promises or an error. *)

From S2P Require Import Prelude Errors Text Blob Url Tags Totp Clean Card Identity.
From S2P Require Import CustomField Bank Sso Attachment Model Keys Store Origin Health BuildItem.
From S2P Require Import Vault Items Sync.

(** serde_json on one type of document; [from_json] of other bytes fails. *)
Class Serde (A : Type) := { to_json : A -> list Z; from_json : list Z -> option A }.
Class SerdeLaws (A : Type) `{Serde A} : Prop := { json_roundtrip : forall a, from_json (to_json a) = Some a }.

(** ** error.rs *)

Record ConflictInfo := { cf_item : Z; cf_revision : option Z }.

Inductive SyncError : Type :=
| Unavailable
| Unauthorized
| AccountDeleted
| AccountFrozen
| RateLimited
| Refused (what : string)
| Conflict (items : list ConflictInfo)
| Protocol (what : string)
| TooLarge
| Unsupported
| AttachmentsFull
| VaultFull
| InvalidServerUrl.

#[export] Instance ConflictInfo_eq_dec : EqDecision ConflictInfo.
Proof. solve_decision. Defined.
#[export] Instance SyncError_eq_dec : EqDecision SyncError.
Proof. solve_decision. Defined.

(** ** transport.rs *)

Inductive Method := Get | Post | Put | Delete.

(** The path and query of a request, before it is printed. *)
Inductive Path :=
| PSync (since : Z)
| PItems
| PFetch
| PHeader
| PLogout
| PAttachment (id : Z)
| PDevice (id : Z)
| PHealth
| PActivateRegister
| PActivate
| PParams
| PPakeStart
| PPakeFinish
| PLogin
| PRegister
| PReauth
| PEnroll
| PCredentials
| PDeleteAccount
| PDevices
| PPairings
| PPairing (id suffix : list Z).

Record HttpRequest := { method : Method; path : Path; req_token : option (list Z); req_body : option (list Z) }.
Record HttpResponse := { status : Z; body : list Z }.

(** [Transport::send]; the state is everything outside this process. *)
Class Transport (W : Type) :=
  transport_send : HttpRequest -> W -> W * result SyncError HttpResponse.

(** ** session.rs *)

Record AccountInfo := {
  ai_status : list Z;
  ai_entitlement : Entitlement;
  ai_trial_ends_at : option (list Z);
  ai_period_end : option (list Z);
}.

Record Session := {
  token : list Z;
  expires_at : list Z;
  sess_account_id : Z;
  sess_vault_id : Z;
  sess_account : option AccountInfo;
}.

(** ** wire.rs *)

Definition MAX_CHANGES : nat := 500.
Definition MAX_HEADER_BYTES : Z := 64 * 1024.
Definition KEY_SCHEME : Z := 3.

Record ChangeDto := {
  cd_item : Z;
  cd_base_revision : option Z;
  cd_overview : option (list Z);
  cd_details : option (list Z);
  cd_deleted : bool;
  cd_attachment_ids : option (list Z);
}.
Record WriteBody := { wb_changes : list ChangeDto }.
Record FetchBody := { fb_item_ids : list Z }.
Record AttachmentPutBody := { apb_item : Z; apb_blob : list Z }.

Record AccountDto := {
  ad_status : list Z;
  ad_entitlement : list Z;
  ad_trial_ends_at : option (list Z);
  ad_period_end : option (list Z);
}.
Record RemoteChangeDto := {
  rd_item : Z;
  rd_revision : Z;
  rd_overview : option (list Z);
  rd_details : option (list Z);
  rd_deleted : bool;
}.
Record PullDto := {
  pd_cursor : Z;
  pd_has_more : bool;
  pd_changes : list RemoteChangeDto;
  pd_account : option AccountDto;
}.
Record FetchDto := { fd_changes : list RemoteChangeDto; fd_unanswered : list Z }.
Record AppliedDto := { ap_item : Z; ap_revision : Z }.
Record WriteAckDto := { wa_cursor : Z; wa_applied : list AppliedDto }.
Record ConflictsDto := { cds_conflicts : list ConflictInfo }.
Record HeaderDto := { hd_header : list Z; hd_revision : Z; hd_key_scheme : Z }.
Record AttachmentDto := { atd_item : Z; atd_blob : list Z }.
(** The body of a refusal: [{"error":{"code":…,"message":…}}]. *)
Record ErrorBody := { eb_code : list Z; eb_message : list Z }.

Definition frozen_word : list Z := lit "frozen".

(** [AccountInfo::from]. *)
Definition short (s : list Z) : list Z := if 32 <? len s then [] else s.
Definition account_info (d : AccountDto) : AccountInfo :=
  {| ai_status := short (ad_status d);
     ai_entitlement := if bool_decide (ad_entitlement d = frozen_word) then Frozen else Full;
     ai_trial_ends_at := s ← short <$> ad_trial_ends_at d; if bool_decide (s = []) then None else Some s;
     ai_period_end := s ← short <$> ad_period_end d; if bool_decide (s = []) then None else Some s |}.

Section Wire.
Context {H : HeaderLib}.

(** [ChangeDto::try_from]. *)
Definition change_dto (w : StagedWrite) : result SyncError ChangeDto :=
  match sw_overview w, sw_details w with
  | Some ov, Some det =>
      if (MAX_BLOB_LEN <? len ov) || (MAX_BLOB_LEN <? len det) then Err (Refused "an item is too large to sync")
      else Ok {| cd_item := sw_item w; cd_base_revision := base_revision w;
                 cd_overview := Some (base64_encode ov); cd_details := Some (base64_encode det);
                 cd_deleted := false; cd_attachment_ids := attachment_ids w |}
  | None, None =>
      Ok {| cd_item := sw_item w; cd_base_revision := base_revision w; cd_overview := None;
            cd_details := None; cd_deleted := true; cd_attachment_ids := None |}
  | _, _ => Err (Protocol "malformed staged write")
  end.

Definition decode_blob (value : option (list Z)) : result SyncError (option (list Z)) :=
  match value with
  | None => Ok None
  | Some raw =>
      if MAX_BLOB_LEN / 3 * 4 + 4 <? str_len raw then Err TooLarge
      else
        bytes ← ok_or (Protocol "blob encoding") (base64_decode raw);
        if MAX_BLOB_LEN <? len bytes then Err TooLarge else Ok (Some bytes)
  end.

Definition is_none {A} (o : option A) : bool := match o with None => true | Some _ => false end.
Definition is_some {A} (o : option A) : bool := negb (is_none o).

(** [RemoteChange::try_from]. *)
Definition remote_change (d : RemoteChangeDto) : result SyncError RemoteChange :=
  if rd_revision d <? 0 then Err (Protocol "item revision")
  else
    overview ← decode_blob (rd_overview d);
    details ← decode_blob (rd_details d);
    if rd_deleted d && (is_some overview || is_some details) then Err (Protocol "a deletion carrying blobs")
    else if negb (rd_deleted d) && (is_none overview || is_none details) then Err (Protocol "an item missing a blob")
    else Ok {| rc_item := rd_item d; rc_revision := rd_revision d; rc_overview := overview;
               rc_details := details; rc_deleted := rd_deleted d |}.

Record RemoteHeader := { rh_bytes : list Z; rh_revision : Z; rh_key_scheme : Z }.

(** [RemoteHeader::try_from]. *)
Definition remote_header (d : HeaderDto) : result SyncError RemoteHeader :=
  bytes ← ok_or (Protocol "header encoding") (base64_decode (hd_header d));
  if bool_decide (bytes = []) || (MAX_HEADER_BYTES <? len bytes) then Err (Protocol "header size")
  else if hd_revision d <? 0 then Err (Protocol "header revision")
  else Ok {| rh_bytes := bytes; rh_revision := hd_revision d; rh_key_scheme := hd_key_scheme d |}.

(** [AttachmentDto::into_parts]. *)
Definition into_parts (d : AttachmentDto) : result SyncError (Z * list Z) :=
  b ← decode_blob (Some (atd_blob d)); Ok (atd_item d, default [] b).

(** ** client.rs *)

Record Pulled := { cursor : Z; has_more : bool; changes : list RemoteChange; pulled_account : option AccountInfo }.
Record WriteAck := { ack_cursor : Z; applied : list (Z * Z) }.
Record Fetched := { f_changes : list RemoteChange; unanswered : list Z }.

Definition error_for (st : Z) : SyncError :=
  if (st =? 401) || (st =? 403) then Unauthorized
  else if st =? 404 then Refused "not found"
  else if st =? 426 then Refused "upgrade required"
  else if st =? 409 then Conflict []
  else if st =? 413 then Refused "too large"
  else if st =? 429 then RateLimited
  else if in_range 400 499 st then Refused "the request was refused"
  else Unavailable.

Context {S1 : Serde ErrorBody}.

Definition said (r : HttpResponse) (word : string) : bool :=
  match from_json (body r) with
  | Some b => bool_decide (eb_code b = lit word)
  | None => false
  end.

Definition error_from (r : HttpResponse) : SyncError :=
  if (status r =? 410) && said r "account_deleted" then AccountDeleted
  else if (status r =? 402) && said r "account_frozen" then AccountFrozen
  else if (status r =? 413) && said r "attachments_full" then AttachmentsFull
  else if (status r =? 413) && said r "vault_full" then VaultFull
  else error_for (status r).

(** [wire::parse] and [expect_ok]. *)
Definition parse_body {A} `{Serde A} (b : list Z) : result SyncError A :=
  ok_or (Protocol "unexpected response") (from_json b).
Definition expect_ok {A} `{Serde A} (r : HttpResponse) : result SyncError A :=
  if negb (status r =? 200) then Err (error_from r) else parse_body (body r).

Context {S2 : Serde PullDto} {S3 : Serde WriteBody} {S4 : Serde WriteAckDto} {S5 : Serde ConflictsDto}.
Context {S6 : Serde FetchBody} {S7 : Serde FetchDto} {S8 : Serde HeaderDto}.
Context {S9 : Serde AttachmentPutBody} {S10 : Serde AttachmentDto}.
Context {W : Type} {T : Transport W}.

(** A client method: the world outside, threaded. *)
Abbreviation Http := (M W SyncError).

Definition send (m : Method) (p : Path) (s : option Session) (b : option (list Z)) : Http HttpResponse :=
  transport_send {| method := m; path := p; req_token := token <$> s; req_body := b |}.
Definition get (p : Path) (s : option Session) : Http HttpResponse := send Get p s None.
Definition post {A} `{Serde A} (p : Path) (s : option Session) (b : A) : Http HttpResponse :=
  send Post p s (Some (to_json b)).
Definition put {A} `{Serde A} (p : Path) (s : option Session) (b : A) : Http HttpResponse :=
  send Put p s (Some (to_json b)).

Definition logout (s : Session) : Http () :=
  r ← send Post PLogout (Some s) None;
  if (status r =? 204) || (status r =? 200) || (status r =? 401) then mret ()
  else mthrow_ (error_from r).

Definition header (s : Session) : Http RemoteHeader :=
  r ← get PHeader (Some s);
  dto ← mlift (expect_ok r);
  h ← mlift (remote_header dto);
  _ ← mlift (guard_err (rh_key_scheme h <? KEY_SCHEME) (Protocol "key scheme"));
  mret h.

(** The checks of [pull] on the answer. *)
Definition check_page (dto : PullDto) : result SyncError Pulled :=
  if pd_cursor dto <? 0 then Err (Protocol "cursor")
  else if (MAX_CHANGES <? length (pd_changes dto))%nat
  then Err (Protocol "page is larger than the protocol allows")
  else
    changes ← mapM_result remote_change (pd_changes dto);
    Ok {| cursor := pd_cursor dto; has_more := pd_has_more dto; changes := changes;
          pulled_account := account_info <$> pd_account dto |}.

Definition pull (s : Session) (since : Z) : Http Pulled :=
  if since <? 0 then mthrow_ (Refused "cursor is not valid")
  else
    r ← get (PSync since) (Some s);
    dto ← mlift (expect_ok r);
    mlift (check_page dto).

(** The reading of [write]'s answer. *)
Definition check_ack (sent : nat) (r : HttpResponse) : result SyncError WriteAck :=
  if status r =? 409 then
    dto ← parse_body (body r);
    if bool_decide (cds_conflicts dto = []) then Err (Protocol "a conflict naming no items")
    else Err (Conflict (cds_conflicts dto))
  else
    dto ← expect_ok r;
    if negb (length (wa_applied dto) =? sent)%nat then Err (Protocol "the server acknowledged a different batch")
    else Ok {| ack_cursor := wa_cursor dto; applied := map (fun a => (ap_item a, ap_revision a)) (wa_applied dto) |}.

Definition write (s : Session) (staged : list StagedWrite) : Http WriteAck :=
  if bool_decide (staged = []) then mthrow_ (Refused "nothing to write")
  else if (MAX_CHANGES <? length staged)%nat then mthrow_ (Refused "too many changes in one batch")
  else
    changes ← mlift (mapM_result change_dto staged);
    r ← post PItems (Some s) {| wb_changes := changes |};
    mlift (check_ack (length staged) r).

(** Every id of the answer was asked for, and once. *)
Fixpoint check_asked (asked seen : gset Z) (ids : list Z) : bool :=
  match ids with
  | [] => true
  | i :: ids => bool_decide (i ∈ asked) && bool_decide (i ∉ seen) && check_asked asked ({[i]} ∪ seen) ids
  end.

Definition check_fetched (ids : list Z) (dto : FetchDto) : result SyncError Fetched :=
  if negb (check_asked (list_to_set ids) ∅ (map rd_item (fd_changes dto) ++ fd_unanswered dto))
  then Err (Protocol "an item that was not asked for")
  else
    changes ← mapM_result remote_change (fd_changes dto);
    Ok {| f_changes := changes; unanswered := fd_unanswered dto |}.

Definition fetch_items (s : Session) (ids : list Z) : Http Fetched :=
  if bool_decide (ids = []) || (MAX_CHANGES <? length ids)%nat then mthrow_ (Refused "item list is not valid")
  else
    r ← post PFetch (Some s) {| fb_item_ids := ids |};
    dto ← mlift (expect_ok r);
    mlift (check_fetched ids dto).

Definition revoke_device (s : Session) (device : Z) : Http () :=
  r ← send Delete (PDevice device) (Some s) None;
  if (status r =? 200) || (status r =? 204) then mret () else mthrow_ (error_from r).

Definition put_attachment (s : Session) (id item : Z) (blob : list Z) : Http () :=
  r ← put (PAttachment id) (Some s) {| apb_item := item; apb_blob := base64_encode blob |};
  if status r =? 200 then mret ()
  else if status r =? 404 then mthrow_ Unsupported
  else mthrow_ (error_from r).

Definition get_attachment (s : Session) (id : Z) : Http (Z * list Z) :=
  r ← get (PAttachment id) (Some s);
  dto ← mlift (expect_ok r);
  mlift (into_parts dto).
End Wire.
