(* ===== verification/WireAccount.v ===== *)
(** * The account routes of the sync client (crates/havenkeys-sync-client)

    client.rs from [health] to [claim_pairing] but for the vault routes of
    Wire.v, the JSON shapes of wire.rs they use, and invite.rs.  A body is a
    record of what the source serializes; what the answer is checked for
    before anything acts on it is written out.  The auth key goes into
    OPAQUE (Opaque.v) or, on the legacy routes, into the body itself; what
    the random generator draws is an argument. *)

From S2P Require Import Prelude Errors Text Blob Url Tags Totp Clean Card Identity.
From S2P Require Import CustomField Bank Sso Attachment Model Keys Store Origin Health BuildItem.
From S2P Require Import Vault Items Sync Encoding SecretKey Pairing Opaque Wire.

(** ** invite.rs *)

Record Invite := { inv_server : list Z; inv_email : list Z; inv_account : Z; inv_secret : list Z }.
Definition INVITE_PREFIX : list Z := lit "HKINV1-".
Definition MAX_INVITE_CHARS : Z := 2048.
Definition BAD_INVITE : SyncError := Refused "that invite is not valid".

(** ** wire.rs: requests *)

Record KdfDto := {
  kdf_algorithm : list Z;
  kdf_memory_kib : Z;
  kdf_iterations : Z;
  kdf_parallelism : Z;
  kdf_salt : list Z;
}.

Record ActivateBody := {
  ab_email : list Z;
  ab_invite : list Z;
  ab_kdf : KdfDto;
  ab_auth_key : option (list Z);
  ab_registration_upload : option (list Z);
  ab_vault_id : Z;
  ab_header : list Z;
  ab_key_scheme : Z;
}.
Record ActivateRegisterBody := { ar_email : list Z; ar_invite : list Z; ar_registration_request : list Z }.
Record PakeStartBody := { ps_email : list Z; ps_credential_request : list Z; ps_device_id : Z }.
Record PakeFinishBody := {
  pf_login_id : list Z;
  pf_credential_finalization : list Z;
  pf_device_id : Z;
  pf_device_name : list Z;
}.
Record RegisterBody := { rb_registration_request : list Z }.
Record ReauthBody := { rab_credential_request : list Z }.
Record EnrollBody := { eb_current_auth_key : list Z; eb_registration_upload : list Z }.
Record ParamsBody := { pb_email : list Z }.
Record LoginBody := { lb_email : list Z; lb_auth_key : list Z; lb_device_id : Z; lb_device_name : list Z }.
Record CredentialsBody := {
  cb_current_auth_key : option (list Z);
  cb_reauth_id : option (list Z);
  cb_credential_finalization : option (list Z);
  cb_kdf : KdfDto;
  cb_new_auth_key : option (list Z);
  cb_registration_upload : option (list Z);
  cb_header : list Z;
  cb_base_header_revision : Z;
}.
Record AccountDeletionBody := {
  adb_current_auth_key : option (list Z);
  adb_reauth_id : option (list Z);
  adb_credential_finalization : option (list Z);
  adb_email : list Z;
}.
Record CreatePairingBody := { cp_device_id : Z; cp_device_name : list Z; cp_claim_hash : list Z }.
Record ApprovePairingBody := { apv_envelope : list Z }.
Record ClaimPairingBody := { clb_claim_secret : list Z }.

(** ** wire.rs: responses *)

Record PakeStartDto := { psd_login_id : list Z; psd_credential_response : list Z }.
Record RegistrationDto := { rgd_registration_response : list Z }.
Record ReauthDto := { rad_reauth_id : list Z; rad_credential_response : list Z }.
Record ActivatedDto := { atd_account_id : Z; atd_vault_id : Z }.
Record ParamsDto := { pmd_account_id : Z; pmd_kdf : KdfDto }.
Record LoginDto := {
  ld_token : list Z;
  ld_expires_at : list Z;
  ld_vault_id : Z;
  ld_account : option AccountDto;
}.
Record CredentialsAckDto := { cad_header_revision : Z }.
Record DeviceDto := {
  dd_id : Z;
  dd_name : list Z;
  dd_created_at : list Z;
  dd_last_seen_at : option (list Z);
  dd_current : bool;
  dd_approved_by : option Z;
}.
Record CreatedPairingDto := { cpd_pairing_id : list Z; cpd_expires_at : list Z }.
Record PairingDetailsDto := {
  pdd_device_name : list Z;
  pdd_ip : list Z;
  pdd_location : option (list Z);
  pdd_created_at : list Z;
  pdd_expires_at : list Z;
}.
Inductive ClaimDto :=
| CdWaiting
| CdDenied
| CdApproved (token expires_at : list Z) (account_id vault_id : Z) (envelope : list Z).

(** One JSON form per shape. *)
Class AccountSerde := {
  ser_invite :: Serde Invite;
  ser_activate :: Serde ActivateBody;
  ser_activate_register :: Serde ActivateRegisterBody;
  ser_pake_start :: Serde PakeStartBody;
  ser_pake_finish :: Serde PakeFinishBody;
  ser_register :: Serde RegisterBody;
  ser_reauth :: Serde ReauthBody;
  ser_enroll :: Serde EnrollBody;
  ser_params :: Serde ParamsBody;
  ser_login :: Serde LoginBody;
  ser_credentials :: Serde CredentialsBody;
  ser_deletion :: Serde AccountDeletionBody;
  ser_create_pairing :: Serde CreatePairingBody;
  ser_approve_pairing :: Serde ApprovePairingBody;
  ser_claim_pairing :: Serde ClaimPairingBody;
  ser_pake_started :: Serde PakeStartDto;
  ser_registration :: Serde RegistrationDto;
  ser_reauthed :: Serde ReauthDto;
  ser_activated :: Serde ActivatedDto;
  ser_params_dto :: Serde ParamsDto;
  ser_login_dto :: Serde LoginDto;
  ser_credentials_ack :: Serde CredentialsAckDto;
  ser_devices :: Serde (list DeviceDto);
  ser_created_pairing :: Serde CreatedPairingDto;
  ser_pairing_details :: Serde PairingDetailsDto;
  ser_claim :: Serde ClaimDto;
}.

(** The general category Cf of unicode-properties. *)
Class FormatChars := format_char : Z -> bool.

(** ** client.rs: the values *)

Record Activated := { activated_account : Z; activated_vault : Z }.
Record AuthParams := { params_account : Z; params_kdf : KdfParams }.
Record DeviceInfo := {
  di_id : Z;
  di_name : list Z;
  di_created_at : list Z;
  di_last_seen_at : option (list Z);
  di_current : bool;
  di_approved_by : option Z;
}.
Record CreatedPairing := { created_id : list Z; created_expires : list Z }.
Record PairingDetails := {
  det_device_name : list Z;
  det_ip : list Z;
  det_location : option (list Z);
  det_created_at : list Z;
  det_expires_at : list Z;
}.
Inductive Claim := ClaimWaiting | ClaimDenied | ClaimApproved (session : Wire.Session) (envelope : list Z).

Record Activation := {
  act_email : list Z;
  act_invite : list Z;
  act_kdf : KdfParams;
  act_auth_key : list Z;
  act_vault_id : Z;
  act_header : list Z;
}.
Record CredentialChange := {
  cc_current_auth_key : list Z;
  cc_kdf : KdfParams;
  cc_new_auth_key : list Z;
  cc_header : list Z;
  cc_base_header_revision : Z;
  cc_pake : bool;
}.

Section WireAccount.
Context {H : HeaderLib} {B64 : Base64UrlLib} {O : OpaqueKe} {FC : FormatChars} {A : AccountSerde} {S1 : Serde ErrorBody}.
Context {W : Type} {T : Transport W}.
Abbreviation Http := (M W SyncError).

Definition invite_decode (raw : list Z) : result SyncError Invite :=
  let raw := trim raw in
  if MAX_INVITE_CHARS <? str_len raw then Err BAD_INVITE
  else
    body ← ok_or BAD_INVITE (strip_prefix INVITE_PREFIX raw);
    json ← ok_or BAD_INVITE (decode_text base64url_nopad (utf8 body));
    invite ← ok_or BAD_INVITE (from_json json);
    if bool_decide (trim (inv_email invite) = []) || bool_decide (inv_secret invite = []) then Err BAD_INVITE
    else Ok invite.

(** ** wire.rs *)

Definition kdf_dto (k : KdfParams) : KdfDto :=
  {| kdf_algorithm := lit "argon2id"; kdf_memory_kib := memory_kib k; kdf_iterations := iterations k;
     kdf_parallelism := parallelism k; kdf_salt := base64_encode (salt k) |}.

Definition kdf_params (d : KdfDto) : result SyncError KdfParams :=
  if negb (bool_decide (kdf_algorithm d = lit "argon2id")) then Err (Protocol "unsupported kdf")
  else
    decoded ← ok_or (Protocol "kdf salt") (base64_decode (kdf_salt d));
    if negb (length decoded =? SALT_LEN)%nat then Err (Protocol "kdf salt")
    else
      let params := {| memory_kib := kdf_memory_kib d; iterations := kdf_iterations d;
                       parallelism := kdf_parallelism d; salt := decoded |} in
      _ ← map_err (fun _ => Protocol "kdf parameters out of range") (kdf_validate params);
      Ok params.

(** An OPAQUE message from the server. *)
Definition message (raw : list Z) : result SyncError (list Z) :=
  let max := (MAX_MESSAGE_BYTES + 2) / 3 * 4 in
  if bool_decide (raw = []) || (max <? str_len raw) then Err (Protocol "pake")
  else ok_or (Protocol "pake") (base64_decode raw).

(** ** client.rs *)

Definition pake_error (e : PakeError) : SyncError :=
  match e with InvalidLogin => Wire.Unauthorized | Malformed => Protocol "pake" end.
Definition pake {X} (r : result PakeError X) : Http X := mlift (map_err pake_error r).

Definition pairing_path (id : list Z) (suffix : string) : result SyncError Path :=
  if negb (valid_pairing_id id) then Err (Refused "not found") else Ok (PPairing id (lit suffix)).

Definition check_header (header : list Z) : result SyncError () :=
  guard_err (bool_decide (header = []) || (MAX_HEADER_BYTES <? len header)) (Refused "header is not valid").

(** The statuses a route without a body answers with. *)
Definition expect_done (r : HttpResponse) : Http () :=
  if (status r =? 200) || (status r =? 204) then mret () else mthrow_ (error_from r).

Definition health : Http () :=
  r ← get PHealth None;
  if status r =? 200 then mret () else mthrow_ Wire.Unavailable.

(** What the client draws for one OPAQUE exchange: to start and to finish. *)
Definition Draws : Type := list Z * list Z.

(** [register]: the upload for [auth_key]. *)
Definition register {B} `{Serde B} (p : Path) (s : option Wire.Session) (b : B) (state : ClientRegistrationState)
    (random auth_key : list Z) : Http (list Z) :=
  r ← post p s b;
  dto ← mlift (expect_ok r);
  response ← mlift (message (rgd_registration_response dto));
  upload ← pake (register_finish state random auth_key response);
  mret (base64_encode upload).

Definition activation_body (a : Activation) (key upload : option (list Z)) : ActivateBody :=
  {| ab_email := act_email a; ab_invite := act_invite a; ab_kdf := kdf_dto (act_kdf a); ab_auth_key := key;
     ab_registration_upload := upload; ab_vault_id := act_vault_id a; ab_header := base64_encode (act_header a);
     ab_key_scheme := KEY_SCHEME |}.
Definition activated_from (r : HttpResponse) : result SyncError Activated :=
  dto ← expect_ok r;
  Ok {| activated_account := atd_account_id dto; activated_vault := WireAccount.atd_vault_id dto |}.

Definition activate_legacy (a : Activation) : Http Activated :=
  _ ← mlift (check_header (act_header a));
  r ← post PActivate None (activation_body a (Some (base64_encode (act_auth_key a))) None);
  mlift (activated_from r).

(** A computation's own failure, as a value. *)
Definition caught {X} (m : Http X) : Http (result SyncError X) := fun w => let '(w, r) := m w in (w, Ok r).

Definition activate (random : Draws) (a : Activation) : Http Activated :=
  _ ← mlift (check_header (act_header a));
  start ← pake (register_start random.1 (act_auth_key a));
  let body := {| ar_email := act_email a; ar_invite := act_invite a; ar_registration_request := base64_encode start.2 |} in
  upload ← caught (register PActivateRegister None body start.1 random.2 (act_auth_key a));
  match upload with
  | Ok upload =>
      r ← post PActivate None (activation_body a None (Some upload));
      mlift (activated_from r)
  | Err e => if bool_decide (e = Refused "not found") then activate_legacy a else mthrow_ e
  end.

Definition auth_params (email : list Z) : Http AuthParams :=
  r ← post PParams None {| pb_email := email |};
  dto ← mlift (expect_ok r);
  k ← mlift (kdf_params (pmd_kdf dto));
  mret {| params_account := pmd_account_id dto; params_kdf := k |}.

Definition bad_id (id : list Z) : bool := bool_decide (id = []) || (64 <? str_len id).

(** [session_from]: the account is the one the caller derived keys for. *)
Definition session_from (r : HttpResponse) (account_id : Z) : result SyncError Wire.Session :=
  dto ← expect_ok r;
  if bool_decide (ld_token dto = []) || (128 <? str_len (ld_token dto)) then Err (Protocol "token")
  else Ok {| token := ld_token dto; expires_at := ld_expires_at dto; sess_account_id := account_id;
             sess_vault_id := ld_vault_id dto; sess_account := account_info <$> ld_account dto |}.

Definition login_pake (random : Draws) (email auth_key : list Z) (account_id device_id : Z) (device_name : list Z)
    : Http Wire.Session :=
  start ← pake (login_start random.1 auth_key);
  r ← post PPakeStart None {| ps_email := email; ps_credential_request := base64_encode start.2; ps_device_id := device_id |};
  dto ← mlift (expect_ok r);
  _ ← mlift (guard_err (bad_id (psd_login_id dto)) (Protocol "pake"));
  response ← mlift (message (psd_credential_response dto));
  finalization ← pake (login_finish start.1 random.2 auth_key response);
  r ← post PPakeFinish None {| pf_login_id := psd_login_id dto; pf_credential_finalization := base64_encode finalization;
                               pf_device_id := device_id; pf_device_name := device_name |};
  mlift (session_from r account_id).

Definition register_in_session (random : Draws) (s : Wire.Session) (auth_key : list Z) : Http (list Z) :=
  start ← pake (register_start random.1 auth_key);
  register PRegister (Some s) {| rb_registration_request := base64_encode start.2 |} start.1 random.2 auth_key.

Definition reauth (random : Draws) (s : Wire.Session) (auth_key : list Z) : Http (list Z * list Z) :=
  start ← pake (login_start random.1 auth_key);
  r ← post PReauth (Some s) {| rab_credential_request := base64_encode start.2 |};
  dto ← mlift (expect_ok r);
  _ ← mlift (guard_err (bad_id (rad_reauth_id dto)) (Protocol "pake"));
  response ← mlift (message (rad_credential_response dto));
  finalization ← pake (login_finish start.1 random.2 auth_key response);
  mret (rad_reauth_id dto, base64_encode finalization).

Definition enroll (random : Draws) (s : Wire.Session) (auth_key : list Z) : Http () :=
  upload ← register_in_session random s auth_key;
  r ← post PEnroll (Some s) {| eb_current_auth_key := base64_encode auth_key; eb_registration_upload := upload |};
  expect_done r.

Definition login_legacy (email auth_key : list Z) (account_id device_id : Z) (device_name : list Z)
    : Http Wire.Session :=
  r ← post PLogin None {| lb_email := email; lb_auth_key := base64_encode auth_key; lb_device_id := device_id;
                          lb_device_name := device_name |};
  mlift (session_from r account_id).

(** The proof and the new key of a credential change, in the account's way
    of signing in. *)
Definition credentials_body (r1 r2 : Draws) (s : Wire.Session) (c : CredentialChange) : Http CredentialsBody :=
  if cc_pake c then
    proof ← reauth r1 s (cc_current_auth_key c);
    upload ← register_in_session r2 s (cc_new_auth_key c);
    mret {| cb_current_auth_key := None; cb_reauth_id := Some proof.1; cb_credential_finalization := Some proof.2;
            cb_kdf := kdf_dto (cc_kdf c); cb_new_auth_key := None; cb_registration_upload := Some upload;
            cb_header := base64_encode (cc_header c); cb_base_header_revision := cc_base_header_revision c |}
  else
    mret {| cb_current_auth_key := Some (base64_encode (cc_current_auth_key c)); cb_reauth_id := None;
            cb_credential_finalization := None; cb_kdf := kdf_dto (cc_kdf c);
            cb_new_auth_key := Some (base64_encode (cc_new_auth_key c)); cb_registration_upload := None;
            cb_header := base64_encode (cc_header c); cb_base_header_revision := cc_base_header_revision c |}.

Definition change_credentials (r1 r2 : Draws) (s : Wire.Session) (c : CredentialChange) : Http Z :=
  _ ← mlift (check_header (cc_header c));
  _ ← mlift (guard_err (cc_base_header_revision c <? 0) (Refused "header revision is not valid"));
  body ← credentials_body r1 r2 s c;
  r ← post PCredentials (Some s) body;
  dto ← mlift (expect_ok r);
  _ ← mlift (guard_err (negb (cad_header_revision dto =? cc_base_header_revision c + 1)) (Protocol "header revision"));
  mret (cad_header_revision dto).

Definition deletion_body (random : Draws) (s : Wire.Session) (auth_key email : list Z) (with_pake : bool)
    : Http AccountDeletionBody :=
  if with_pake then
    proof ← reauth random s auth_key;
    mret {| adb_current_auth_key := None; adb_reauth_id := Some proof.1; adb_credential_finalization := Some proof.2;
            adb_email := email |}
  else
    mret {| adb_current_auth_key := Some (base64_encode auth_key); adb_reauth_id := None;
            adb_credential_finalization := None; adb_email := email |}.

Definition delete_account (random : Draws) (s : Wire.Session) (auth_key email : list Z) (with_pake : bool) : Http () :=
  body ← deletion_body random s auth_key email with_pake;
  r ← post PDeleteAccount (Some s) body;
  expect_done r.

Definition device_info (d : DeviceDto) : DeviceInfo :=
  {| di_id := dd_id d; di_name := dd_name d; di_created_at := dd_created_at d; di_last_seen_at := dd_last_seen_at d;
     di_current := dd_current d; di_approved_by := dd_approved_by d |}.
Definition devices (s : Wire.Session) : Http (list DeviceInfo) :=
  r ← get PDevices (Some s);
  l ← mlift (expect_ok r);
  mret (map device_info l).

(** ** client.rs: pairing *)

Definition create_pairing (device_id : Z) (device_name claim_hash : list Z) : Http CreatedPairing :=
  r ← post PPairings None {| cp_device_id := device_id; cp_device_name := device_name;
                             cp_claim_hash := encode_text base64url_nopad claim_hash |};
  dto ← mlift (expect_ok r);
  if negb (valid_pairing_id (cpd_pairing_id dto)) || (64 <? str_len (cpd_expires_at dto))
  then mthrow_ (Protocol "pairing")
  else mret {| created_id := cpd_pairing_id dto; created_expires := cpd_expires_at dto |}.

Definition short_text (s : list Z) : bool := (len s <=? 64) && negb (existsb is_control s).
Definition shown_text (s : list Z) : list Z := List.filter (fun c => negb (format_char c)) s.

Definition check_details (d : PairingDetailsDto) : result SyncError PairingDetails :=
  if negb (short_text (pdd_device_name d)) || negb (short_text (pdd_ip d))
     || negb (match pdd_location d with Some l => short_text l | None => true end)
     || (64 <? str_len (pdd_created_at d)) || (64 <? str_len (pdd_expires_at d))
  then Err (Protocol "pairing")
  else Ok {| det_device_name := shown_text (pdd_device_name d); det_ip := shown_text (pdd_ip d);
             det_location := shown_text <$> pdd_location d; det_created_at := pdd_created_at d;
             det_expires_at := pdd_expires_at d |}.

Definition pairing_details (s : Wire.Session) (id : list Z) : Http PairingDetails :=
  p ← mlift (pairing_path id "");
  r ← get p (Some s);
  dto ← mlift (expect_ok r);
  mlift (check_details dto).

Definition approve_pairing (s : Wire.Session) (id envelope : list Z) : Http () :=
  p ← mlift (pairing_path id "/approve");
  r ← post p (Some s) {| apv_envelope := base64_encode envelope |};
  expect_done r.

Definition deny_pairing (s : Wire.Session) (id : list Z) : Http () :=
  p ← mlift (pairing_path id "/deny");
  r ← send Post p (Some s) None;
  expect_done r.

Definition check_claim (d : ClaimDto) : result SyncError Claim :=
  match d with
  | CdWaiting => Ok ClaimWaiting
  | CdDenied => Ok ClaimDenied
  | CdApproved token expires_at account_id vault_id envelope =>
      if bool_decide (token = []) || (128 <? str_len token) || (64 <? str_len expires_at) then Err (Protocol "token")
      else if MAX_ENVELOPE_LEN / 3 * 4 + 4 <? str_len envelope then Err TooLarge
      else
        e ← ok_or (Protocol "envelope") (base64_decode envelope);
        Ok (ClaimApproved {| Wire.token := token; Wire.expires_at := expires_at; sess_account_id := account_id;
                             sess_vault_id := vault_id; sess_account := None |} e)
  end.

Definition claim_pairing (id claim_secret : list Z) : Http Claim :=
  p ← mlift (pairing_path id "/claim");
  r ← post p None {| clb_claim_secret := encode_text base64url_nopad claim_secret |};
  dto ← mlift (expect_ok r);
  mlift (check_claim dto).
End WireAccount.
