(* ===== verification/Transport.v ===== *)
(** * The HTTP transport (crates/havenkeys-sync-client/src/transport.rs)

    Which servers a bearer token may travel to, where a request goes and how
    much of an answer is read.  [reqwest] is the class [ReqwestLib]: its
    client never follows a redirect (the builder's own setting). *)

From S2P Require Import Prelude Errors Text Blob Url Tags Totp Clean Card Identity.
From S2P Require Import CustomField Bank Sso Attachment Model Keys Store Origin Health BuildItem.
From S2P Require Import Vault Items Sync Wire.

Definition MAX_RESPONSE_BYTES : Z := 17 * 1024 * 1024.

(** [Url::join] of a request's path; one request, answered with its status
    and the chunks of the body as they are read ([None]: the connection
    failed there), or not at all. *)
Class ReqwestLib {UL : UrlLib} (W : Type) := {
  url_join : Url -> Path -> option Url;
  reqwest_send : Url -> HttpRequest -> W -> W * option (Z * list (option (list Z)));
}.

Section Transport.
Context {UL : UrlLib}.

Definition trim_slashes (s : list Z) : list Z := drop_end (Z.eqb 47) s.

Definition is_local_host (u : Url) : bool :=
  bool_decide (url_host_str u = Some (lit "localhost")) || bool_decide (url_host_str u = Some (lit "127.0.0.1"))
  || bool_decide (url_host_str u = Some (lit "[::1]")).

Definition scheme_allowed (base : Url) (localhost_http : bool) : bool :=
  if bool_decide (url_scheme base = lit "https") then true
  else if bool_decide (url_scheme base = lit "http") then is_local_host base && localhost_http
  else false.

(** [HttpTransport::new]; [localhost_http] is the build's setting. *)
Definition http_transport (localhost_http : bool) (base_url : list Z) : result SyncError Url :=
  base ← ok_or Wire.InvalidServerUrl (url_parse (trim_slashes base_url));
  if negb (scheme_allowed base localhost_http) then Err Wire.InvalidServerUrl else Ok base.

(** [read_capped]: the loop over the chunks, with what is read so far. *)
Fixpoint read_capped (body : list Z) (chunks : list (option (list Z))) : result SyncError (list Z) :=
  match chunks with
  | [] => Ok body
  | None :: _ => Err Wire.Unavailable
  | Some chunk :: chunks =>
      if MAX_RESPONSE_BYTES <? len body + len chunk then Err TooLarge else read_capped (body ++ chunk) chunks
  end.

Context {W : Type} {R : ReqwestLib W}.

Definition http_send (base : Url) (request : HttpRequest) : M W SyncError HttpResponse :=
  url ← mlift (ok_or Wire.InvalidServerUrl (url_join base (path request)));
  if negb (bool_decide (url_host_str url = url_host_str base)) || negb (bool_decide (url_scheme url = url_scheme base))
  then mthrow_ Wire.InvalidServerUrl
  else
    answer ← (fun w => let '(w, a) := reqwest_send url request w in (w, Ok a));
    match answer with
    | None => mthrow_ Wire.Unavailable
    | Some (st, chunks) => b ← mlift (read_capped [] chunks); mret {| status := st; body := b |}
    end.

(** ** Lemmas *)

Lemma read_capped_bound chunks body b : len body <= MAX_RESPONSE_BYTES -> read_capped body chunks = Ok b -> len b <= MAX_RESPONSE_BYTES.
Proof.
  revert body. induction chunks as [|[c|] chunks IH]; intros body Hb; cbn [read_capped]; [by intros [= <-]| |done].
  destruct (Z.ltb_spec MAX_RESPONSE_BYTES (len body + len c)); [done|]. apply IH. rewrite length_app. lia.
Qed.

Lemma read_capped_whole chunks body b : read_capped body (Some <$> chunks) = Ok b -> b = body ++ concat chunks.
Proof.
  revert body. induction chunks as [|c chunks IH]; intros body; cbn [read_capped fmap list_fmap concat].
  - intros [= <-]. by rewrite app_nil_r.
  - destruct (_ <? _); [done|]. intros ->%IH. by rewrite app_assoc.
Qed.

(** A server a token travels to is https, or this machine itself. *)
Lemma server_url_safe localhost_http raw base :
  http_transport localhost_http raw = Ok base ->
  url_scheme base = lit "https" \/ (url_scheme base = lit "http" /\ is_local_host base = true /\ localhost_http = true).
Proof.
  unfold http_transport. intros (u & _ & Hs)%bind_Ok. destruct (scheme_allowed u localhost_http) eqn:E; [|done].
  injection Hs as <-. revert E. unfold scheme_allowed.
  case_bool_decide; [by left|]. case_bool_decide; [|done]. intros [? ?]%andb_true_iff. by right.
Qed.

(** A request is sent to the server it was made for or not at all, and what
    comes back is bounded. *)
Lemma http_send_stays base req w w' r :
  http_send base req w = (w', Ok r) ->
  len (body r) <= MAX_RESPONSE_BYTES /\
  exists url st chunks, reqwest_send url req w = (w', Some (st, chunks)) /\ status r = st /\
    url_host_str url = url_host_str base /\ url_scheme url = url_scheme base.
Proof.
  unfold http_send. intros (url & w1 & Hu & Hrun)%M_bind_Ok. apply mlift_Ok in Hu as [-> _].
  destruct (bool_decide_reflect (url_host_str url = url_host_str base)) as [Hh|]; [|done].
  destruct (bool_decide_reflect (url_scheme url = url_scheme base)) as [Hs|]; [|done]. cbn [negb orb] in Hrun.
  apply M_bind_Ok in Hrun as (a & w2 & Ha & Hrun). destruct (reqwest_send url req w) as [w3 a'] eqn:Es.
  injection Ha as <- <-. destruct a' as [[st chunks]|]. 2: done.
  apply M_bind_Ok in Hrun as (b & w4 & Hb & Hr). apply mlift_Ok in Hb as [-> Hb]. injection Hr as <- <-.
  split; [|by exists url, st, chunks]. eapply read_capped_bound; [|exact Hb]. by vm_compute.
Qed.
End Transport.
