(* ===== verification/Device.v ===== *)
(** * This device's own file and the platform's key store
      (crates/havenkeys-client: device.rs, key_store.rs)

    The Secret Key lives in the platform's store, or in [device.json] when no
    store took it.  [KeyHost] is what is outside the process: one call of the
    platform's store run on its own thread (it may not answer in time), the
    files of the data folder and the generator of device ids.  [DeviceHost]
    pairs the device with it. *)

From S2P Require Import Prelude Errors Text Blob Url Tags Totp Clean Card Identity.
From S2P Require Import CustomField Bank Sso Attachment Model Keys Store Origin Health BuildItem.
From S2P Require Import Vault Items Sync Encoding SecretKey Wire.

(** ** key_store.rs *)

Inductive Storage := Keychain | File | NoStorage.
#[export] Instance Storage_eq_dec : EqDecision Storage.
Proof. solve_decision. Defined.

(** [StoreError] and an [io::Error]: neither carries anything the program
    reads. *)
Inductive StoreError := store_error.
Inductive IoError := io_error.

(** How a call on its own thread ended ([run_timed]). *)
Inductive Timed (A : Type) := Answered (r : result StoreError A) | TimedOut | NotStarted.
Arguments Answered {A} r.
Arguments TimedOut {A}.
Arguments NotStarted {A}.

Inductive FileRead := FileMissing | FileFailed | FileBytes (b : list Z).

Class KeyHost (W : Type) := {
  timed_get : Z -> W -> W * Timed (option (list Z));
  timed_set : Z -> list Z -> W -> W * Timed ();
  timed_delete : Z -> W -> W * Timed ();
  (** Whether a call that timed out is still running, and five seconds, or
      less if it ends before. *)
  abandoned_runs : W -> bool;
  wait_for_it : W -> W;
  read_device_file : W -> W * FileRead;
  move_device_file_aside : W -> W * bool;
  write_device_file : list Z -> W -> W * bool;
  new_uuid : W -> W * Z;
}.

(** ** device.rs *)

Record OnDisk := { od_device_id : Z; od_secret_key : option (list Z) }.
Record Cached := { ca_account : Z; ca_text : option (list Z); ca_storage : Storage }.
Record KeyStatus := { missing : bool; ks_storage : Storage }.
Record Forgotten := { keychain_cleared : bool; saved : result IoError () }.

(** [busy] is the flag of the device's [TimedKeyStore]. *)
Record Device := {
  dev_id : Z;
  file_key : option (list Z);
  cached : option Cached;
  file_fallback : bool;
  read_failed : bool;
  busy : bool;
}.

Definition with_busy (b : bool) (d : Device) : Device :=
  {| dev_id := dev_id d; file_key := file_key d; cached := cached d; file_fallback := file_fallback d;
     read_failed := read_failed d; busy := b |}.
Definition with_cached (c : option Cached) (d : Device) : Device :=
  {| dev_id := dev_id d; file_key := file_key d; cached := c; file_fallback := file_fallback d;
     read_failed := read_failed d; busy := busy d |}.
Definition with_file_key (k : option (list Z)) (d : Device) : Device :=
  {| dev_id := dev_id d; file_key := k; cached := cached d; file_fallback := file_fallback d;
     read_failed := read_failed d; busy := busy d |}.
Definition with_id (i : Z) (d : Device) : Device :=
  {| dev_id := i; file_key := file_key d; cached := cached d; file_fallback := file_fallback d;
     read_failed := read_failed d; busy := busy d |}.
Definition without_file_fallback (d : Device) : Device :=
  {| dev_id := dev_id d; file_key := file_key d; cached := cached d; file_fallback := false;
     read_failed := read_failed d; busy := busy d |}.

Section Device.
Context {C : Crypto} {K : KeyLib} {U : Unicode} {B32 : Base32Lib} {S : Serde OnDisk}.
Context {W : Type} {KH : KeyHost W}.

(** A step of the device and what is outside it. *)
Definition D (A : Type) : Type := Device * W -> (Device * W) * A.
Definition dret {A} (a : A) : D A := fun s => (s, a).
Definition dbind {A B} (m : D A) (f : A -> D B) : D B := fun s => let '(s, a) := m s in f a s.
Definition dget : D Device := fun s => (s, s.1).
Definition dmodify (f : Device -> Device) : D () := fun s => ((f s.1, s.2), ()).
Definition host {A} (f : W -> W * A) : D A := fun s => let '(w, a) := f s.2 in ((s.1, w), a).

(** [TimedKeyStore::call]: a pending call fails the rest fast. *)
Definition call {A} (f : W -> W * Timed A) : D (result StoreError A) := fun s =>
  if busy s.1 && abandoned_runs s.2 then (s, Err store_error)
  else
    let '(w, r) := f s.2 in
    match r with
    | Answered r => ((with_busy false s.1, w), r)
    | TimedOut => ((with_busy true s.1, w), Err store_error)
    | NotStarted => ((with_busy false s.1, w), Err store_error)
    end.
Definition store_get (account : Z) : D (result StoreError (option (list Z))) := call (timed_get account).
Definition store_set (account : Z) (value : list Z) : D (result StoreError ()) := call (timed_set account value).
Definition store_delete (account : Z) : D (result StoreError ()) := call (timed_delete account).
Definition wait_idle : D () := host (fun w => (wait_for_it w, ())).

Definition parses (s : list Z) : bool := is_ok (SecretKey.parse s).

Definition save : D (result IoError ()) := fun s =>
  if read_failed s.1 then (s, Err io_error)
  else
    let '(w, done) := write_device_file (to_json {| od_device_id := dev_id s.1; od_secret_key := file_key s.1 |}) s.2 in
    ((s.1, w), if (done : bool) then Ok () else Err io_error).

(** [Device::load]. *)
Definition load (w : W) : Device * W :=
  let '(w, r) := read_device_file w in
  let '(w, parsed, failed) :=
    match r with
    | FileBytes b =>
        match from_json b with
        | Some d => (w, Some d, false)
        | None => let '(w, moved) := move_device_file_aside w in (w, None, negb moved)
        end
    | FileMissing => (w, None, false)
    | FileFailed => (w, None, true)
    end in
  let '(w, i, key) :=
    match parsed with
    | Some d => (w, od_device_id d, match od_secret_key d with Some k => if parses k then Some k else None | None => None end)
    | None => let '(w, fresh) := new_uuid w in (w, fresh, None)
    end in
  (save ({| dev_id := i; file_key := key; cached := None; file_fallback := true; read_failed := failed; busy := false |}, w)).1.

(** The text of the key, where it is and whether the answer is definite. *)
Definition Found : Type := option (list Z) * Storage * bool.

(** The lookup of [resolve] when nothing definite is kept for the account. *)
Definition look_up (account : Z) : D Found :=
  dbind (store_get account) (fun r =>
  dbind dget (fun d =>
  let in_file := match file_key d with
                 | Some k => (Some k, File, true)
                 | None => (None, NoStorage, is_ok r)
                 end in
  let found : Found := match r with
                       | Ok (Some v) => if parses v then (Some v, Keychain, true) else in_file
                       | _ => in_file
                       end in
  let '(text, storage, definite) := found in
  dbind (dmodify (with_cached (if definite then Some {| ca_account := account; ca_text := text; ca_storage := storage |}
                               else None)))
    (fun _ => dret found))).

Definition resolve (account : Z) : D Found := fun s =>
  match cached s.1 with
  | Some c => if ca_account c =? account then (s, (ca_text c, ca_storage c, true)) else look_up account s
  | None => look_up account s
  end.

Definition key_status (account : Z) : D KeyStatus :=
  dbind (resolve account) (fun f =>
  let '(text, storage, definite) := f in
  dret {| missing := is_none text && definite; ks_storage := storage |}).

Definition secret_key_text (account : Z) : D (option (list Z)) := dbind (resolve account) (fun f => dret f.1.1).
Definition secret_key (account : Z) : D (option (list Z)) :=
  dbind (secret_key_text account) (fun t => dret (s ← t; result_ok (SecretKey.parse s))).
Definition secret_key_lookup (account : Z) : D (option (list Z) * bool) :=
  dbind (resolve account) (fun f => dret (f.1.1, f.2)).

(** [set_secret_key]. *)
Definition set_secret_key (account : Z) (key : list Z) : D (result IoError Storage) :=
  let text := to_text key in
  dbind (store_set account text) (fun r =>
  dbind (match r with
         | Ok _ => dbind (store_get account) (fun g =>
             dret (match g with Ok (Some v) => bool_decide (v = text) | _ => false end))
         | Err _ => dret false
         end) (fun in_keychain =>
  dbind dget (fun d =>
  if negb in_keychain && negb (file_fallback d) then
    dbind (dmodify (with_cached None)) (fun _ => dret (Err io_error))
  else
    let '(key_in_file, storage) := if in_keychain then (None, Keychain) else (Some text, File) in
    let previous := file_key d in
    dbind (dmodify (with_file_key key_in_file)) (fun _ =>
    dbind save (fun r =>
    match r with
    | Err e => dbind (dmodify (fun d => with_cached None (with_file_key previous d))) (fun _ => dret (Err e))
    | Ok _ =>
        dbind (dmodify (with_cached (Some {| ca_account := account; ca_text := Some text; ca_storage := storage |})))
          (fun _ => dret (Ok storage))
    end))))).

Definition migrate (account : Z) : D () :=
  dbind dget (fun d =>
  match (k ← file_key d; result_ok (SecretKey.parse k)) with
  | Some key => dbind (set_secret_key account key) (fun _ => dret ())
  | None => dret ()
  end).

Definition forget (account : Z) : D Forgotten :=
  dbind (store_delete account) (fun r =>
  dbind (if is_ok r then dret true
         else dbind wait_idle (fun _ => dbind (store_delete account) (fun r => dret (is_ok r)))) (fun cleared =>
  dbind (host new_uuid) (fun fresh =>
  dbind (dmodify (fun d => with_id fresh (with_cached None (with_file_key None d)))) (fun _ =>
  dbind save (fun r => dret {| keychain_cleared := cleared; saved := r |}))))).
End Device.
