(* ===== verification/Admission.v ===== *)
(** * What the server lets an account do
      (crates/havenkeys-server/src/billing/mod.rs, auth/rate_limit.rs)

    The plan of an account as a stored row read against the clock, with its
    audit trail, and the counters that limit guesses of a key.  Times are
    seconds; a row of a table is an option of its record. *)

From S2P Require Import Prelude Text.

(** ** Plans (billing/mod.rs) *)

Definition TRIAL_DAYS : Z := 14.
Definition GRACE_DAYS : Z := 7.

Inductive Status := Trialing | Active | PastDue | SFrozen | Complimentary.
#[export] Instance Status_eq_dec : EqDecision Status.
Proof. solve_decision. Defined.

Definition status_as_str (s : Status) : list Z :=
  match s with
  | Trialing => lit "trialing"
  | Active => lit "active"
  | PastDue => lit "past_due"
  | SFrozen => lit "frozen"
  | Complimentary => lit "complimentary"
  end.

Definition status_parse (s : list Z) : option Status :=
  if bool_decide (s = lit "trialing") then Some Trialing
  else if bool_decide (s = lit "active") then Some Active
  else if bool_decide (s = lit "past_due") then Some PastDue
  else if bool_decide (s = lit "frozen") then Some SFrozen
  else if bool_decide (s = lit "complimentary") then Some Complimentary
  else None.

Record Subscription := {
  sub_status : Status;
  trial_ends_at : option Z;
  current_period_end : option Z;
  grace_ends_at : option Z;
}.

Inductive Entitlement := EFull | EFrozen.
#[export] Instance Entitlement_eq_dec : EqDecision Entitlement.
Proof. solve_decision. Defined.

Definition ent_as_str (e : Entitlement) : list Z :=
  match e with EFull => lit "full" | EFrozen => lit "frozen" end.

Definition ended (now : Z) (at_ : option Z) : bool :=
  match at_ with Some t => t <=? now | None => false end.

Definition entitlement (s : Subscription) (now : Z) : Entitlement :=
  match sub_status s with
  | Complimentary => EFull
  | Active => if ended now (current_period_end s) then EFrozen else EFull
  | Trialing => if ended now (trial_ends_at s) then EFrozen else EFull
  | PastDue =>
      match grace_ends_at s with
      | Some _ => if negb (ended now (grace_ends_at s)) then EFull else EFrozen
      | None => EFrozen
      end
  | SFrozen => EFrozen
  end.

Definition entitlement_of (s : option Subscription) (now : Z) : Entitlement :=
  match s with Some s => entitlement s now | None => EFull end.

Inductive Actor := Admin | System | Provider.
Definition actor_as_str (a : Actor) : list Z :=
  match a with Admin => lit "admin" | System => lit "system" | Provider => lit "provider" end.

(** The stored row of [subscriptions] and a line of [billing_events]. *)
Record PlanRow := {
  pr_status : list Z;
  pr_trial : option Z;
  pr_period : option Z;
  pr_grace : option Z;
}.
Record BillingEvent := {
  old_status : option (list Z);
  new_status : list Z;
  actor : list Z;
  reason : list Z;
}.
Record Billing := { plan_row : option PlanRow; billing_events : list BillingEvent }.

(** [from_row] on a row; [load]. *)
Definition from_row (r : PlanRow) : option Subscription :=
  s ← status_parse (pr_status r);
  Some {| sub_status := s; trial_ends_at := pr_trial r; current_period_end := pr_period r;
          grace_ends_at := pr_grace r |}.
Definition load (b : Billing) : option Subscription := plan_row b ≫= from_row.

(** The column [until] lands in. *)
Definition row_for (s : Status) (until : option Z) : PlanRow :=
  let '(trial, period, grace) :=
    match s with
    | Trialing => (until, None, None)
    | Active => (None, until, None)
    | PastDue => (None, None, until)
    | SFrozen | Complimentary => (None, None, None)
    end in
  {| pr_status := status_as_str s; pr_trial := trial; pr_period := period; pr_grace := grace |}.

Definition set_status (a : Actor) (s : Status) (until : option Z) (why : list Z) (b : Billing) : Billing :=
  {| plan_row := Some (row_for s until);
     billing_events := billing_events b ++
       [{| old_status := pr_status <$> plan_row b; new_status := status_as_str s;
           actor := actor_as_str a; reason := why |}] |}.

Definition note (why : list Z) (b : Billing) : Billing :=
  match plan_row b with
  | None => b
  | Some r =>
      {| plan_row := plan_row b;
         billing_events := billing_events b ++
           [{| old_status := Some (pr_status r); new_status := pr_status r;
               actor := actor_as_str System; reason := why |}] |}
  end.

(** ** Rate limits (auth/rate_limit.rs) *)

Definition MAX_FAILURES : Z := 5.
Definition WINDOW_MINUTES : Z := 15.

Definition block_seconds (failures : Z) : Z :=
  if failures <=? 5 then 60 else if failures <=? 9 then 5 * 60 else 30 * 60.

(** A row of [login_attempts]. *)
Record Attempts := { failures : Z; window_start : Z; blocked_until : option Z }.

Definition blocked (now : Z) (a : Attempts) : bool :=
  match blocked_until a with Some t => now <? t | None => false end.
Definition expired (now : Z) (minutes : Z) (a : Attempts) : bool := window_start a <? now - minutes * 60.

(** One counter of [AttemptKeys::charge]: the inserted row, the count, the
    block. *)
Definition fresh_row (now : Z) : Attempts := {| failures := 0; window_start := now; blocked_until := None |}.
Definition count_failure (now : Z) (a : Attempts) : Attempts :=
  let gone := expired now WINDOW_MINUTES a in
  {| failures := if gone then 1 else failures a + 1;
     window_start := if gone then now else window_start a;
     blocked_until := blocked_until a |}.
Definition arm (now : Z) (a : Attempts) : Attempts :=
  if MAX_FAILURES <=? failures a
  then {| failures := failures a; window_start := window_start a;
          blocked_until := Some (now + block_seconds (failures a)) |}
  else a.

(** The table: a row per key. *)
Abbreviation Counters := (gmap (list Z) Attempts).

Definition row_at (now : Z) (key : list Z) (t : Counters) : Attempts := default (fresh_row now) (t !! key).

(** [AttemptKeys::charge]: [false] is [RateLimited], and the transaction is
    rolled back. *)
Definition charge (now : Z) (keys : list (list Z)) (t : Counters) : Counters * bool :=
  let t1 := foldl (fun t k => <[k := row_at now k t]> t) t keys in
  if existsb (fun k => blocked now (row_at now k t1)) keys then (t, false)
  else (foldl (fun t k => <[k := arm now (count_failure now (row_at now k t))]> t) t1 keys, true).

Definition clear (keys : list (list Z)) (t : Counters) : Counters := foldl (fun t k => delete k t) t keys.

(** [check] and [record_failure], on one key. *)
Definition check (now : Z) (key : list Z) (t : Counters) : bool :=
  match t !! key with Some a => negb (blocked now a) | None => true end.

Definition record_failure (now : Z) (key : list Z) (t : Counters) : Counters :=
  let a :=
    match t !! key with
    | None => {| failures := 1; window_start := now; blocked_until := None |}
    | Some a =>
        let gone := expired now WINDOW_MINUTES a in
        {| failures := if gone then 1 else failures a + 1;
           window_start := if gone then now else window_start a;
           blocked_until := if gone then None else blocked_until a |}
    end in
  <[key := arm now a]> t.

(** [charge_window] and [over_window]: every call counts, no block is armed. *)
Definition charge_window (now : Z) (key : list Z) (max minutes : Z) (t : Counters) : Counters * bool :=
  let a :=
    match t !! key with
    | None => {| failures := 1; window_start := now; blocked_until := None |}
    | Some a =>
        let gone := expired now minutes a in
        {| failures := if gone then 1 else failures a + 1;
           window_start := if gone then now else window_start a;
           blocked_until := blocked_until a |}
    end in
  (<[key := a]> t, failures a <=? max).

Definition over_window (now : Z) (key : list Z) (max minutes : Z) (t : Counters) : bool :=
  match t !! key with
  | Some a => (max <=? failures a) && negb (expired now minutes a)
  | None => false
  end.

(** ** What the plan says *)

Lemma status_roundtrip s : status_parse (status_as_str s) = Some s.
Proof. by destruct s. Qed.

(** After [set_status] the account may write exactly while the status
    stands: without a date, or before it; a grace must be dated. *)
Lemma set_status_entitlement a s until why b now :
  entitlement_of (load (set_status a s until why b)) now = EFull <->
  match s with
  | Complimentary => True
  | Trialing | Active => forall t, until = Some t -> now < t
  | PastDue => exists t, until = Some t /\ now < t
  | SFrozen => False
  end.
Proof.
  unfold load, set_status. cbn [plan_row mbind option_bind].
  assert (from_row (row_for s until) =
    Some {| sub_status := s; trial_ends_at := pr_trial (row_for s until);
            current_period_end := pr_period (row_for s until); grace_ends_at := pr_grace (row_for s until) |}) as ->.
  { unfold from_row. by destruct s. }
  destruct s; cbn; destruct until as [t|]; cbn;
    try destruct (Z.leb_spec t now); cbn; split; try done; intros; try naive_solver lia.
Qed.

(** The audit trail only grows. *)
Lemma set_status_audit a s until why b :
  exists l, billing_events (set_status a s until why b) = billing_events b ++ l /\ length l = 1%nat.
Proof. by eexists. Qed.

(** ** How fast a key can be guessed *)

Lemma charge_lookup now keys t k :
  NoDup keys ->
  (charge now keys t).1 !! k =
    (if (charge now keys t).2 && bool_decide (k ∈ keys)
     then Some (arm now (count_failure now (row_at now k t))) else t !! k) /\
  ((charge now keys t).2 = true -> k ∈ keys -> blocked now (row_at now k t) = false).
Proof.
  intros Hn. unfold charge. set (t1 := foldl _ t keys).
  assert (forall l t0 j, foldl (fun t k => <[k := row_at now k t]> t) t0 l !! j =
            if bool_decide (j ∈ l) then Some (row_at now j t0) else t0 !! j) as Hins.
  { clear. induction l as [|i l IH]; intros t0 j; [done|]. cbn [foldl]. rewrite IH. clear IH.
    unfold row_at. destruct (decide (j = i)) as [->|Hne].
    - rewrite lookup_insert_eq. cbn [default]. rewrite (bool_decide_eq_true_2 (i ∈ i :: l)) by by left.
      by destruct (bool_decide _).
    - rewrite lookup_insert_ne by done. destruct (decide (j ∈ l)).
      + rewrite !bool_decide_eq_true_2; [done|by right|done].
      + rewrite !bool_decide_eq_false_2; [done|by rewrite elem_of_cons; intros [|]|done]. }
  assert (forall j, row_at now j t1 = row_at now j t) as Hrow.
  { intros j. unfold row_at at 1, t1. rewrite Hins. unfold row_at. by destruct (bool_decide _). }
  destruct (existsb _ keys) eqn:Eb; cbn [fst snd andb]; [done|]. split.
  - assert (forall l t0, NoDup l -> foldl (fun t k => <[k := arm now (count_failure now (row_at now k t))]> t) t0 l !! k =
            if bool_decide (k ∈ l) then Some (arm now (count_failure now (row_at now k t0))) else t0 !! k) as Hupd.
    { clear. induction l as [|i l IH]; intros t0 Hn; [done|]. apply NoDup_cons in Hn as [Hi Hn].
      cbn [foldl]. rewrite (IH _ Hn). unfold row_at. destruct (decide (k = i)) as [->|Hne].
      - rewrite bool_decide_eq_false_2, lookup_insert_eq, bool_decide_eq_true_2; [done|by left|done].
      - rewrite lookup_insert_ne by done. destruct (decide (k ∈ l)).
        + rewrite !bool_decide_eq_true_2; [done|by right|done].
        + rewrite !bool_decide_eq_false_2; [done|by rewrite elem_of_cons; intros [|]|done]. }
    rewrite Hupd, Hrow by done. unfold t1. rewrite Hins. by destruct (bool_decide _).
  - intros _ Hk. rewrite <- Hrow. apply not_true_iff_false. intros Hb. apply not_true_iff_false in Eb. apply Eb.
    apply existsb_exists. exists k. by rewrite <- list_elem_of_In.
Qed.

(** The least age of a window when its [f]-th attempt is let through. *)
Definition pace (f : Z) : Z := if f <=? 5 then 0 else 60 + 300 * (f - 6).

(** [n] attempts let through since [t0], as the key's row remembers them. *)
Definition paced (t0 : Z) (n : nat) (now : Z) (row : option Attempts) : Prop :=
  match row with
  | None => n = 0%nat
  | Some a =>
      1 <= failures a <= 8 /\ window_start a <= now /\
      (5 <= failures a -> exists b, blocked_until a = Some b /\ window_start a + pace (failures a + 1) <= b) /\
      exists w, 0 <= w /\ Z.of_nat n <= 8 * w + failures a /\ t0 + 901 * w <= window_start a
  end.

Lemma paced_later t0 n now now' row : now <= now' -> paced t0 n now row -> paced t0 n now' row.
Proof. intros Hle. destruct row as [a|]; [|done]. intros (H1 & H2 & H3). split; [done|]. split; [lia|done]. Qed.

Lemma arm_same now a : failures (arm now a) = failures a /\ window_start (arm now a) = window_start a.
Proof. unfold arm. by destruct (_ <=? _). Qed.

Lemma arm_paced now a :
  1 <= failures a <= 8 -> window_start a + pace (failures a) <= now ->
  5 <= failures (arm now a) ->
  exists b, blocked_until (arm now a) = Some b /\ window_start (arm now a) + pace (failures (arm now a) + 1) <= b.
Proof.
  destruct (arm_same now a) as [-> ->]. intros Hf Hw H5. unfold arm, MAX_FAILURES.
  destruct (Z.leb_spec 5 (failures a)); [|lia]. eexists; split; [done|].
  unfold pace, block_seconds in *.
  repeat match goal with |- context [?x <=? ?y] => destruct (Z.leb_spec x y) end;
  repeat match goal with H : context [?x <=? ?y] |- _ => destruct (Z.leb_spec x y) end; lia.
Qed.

Lemma paced_charge t0 n now now' row :
  t0 <= now -> now <= now' -> paced t0 n now row ->
  blocked now' (default (fresh_row now') row) = false ->
  paced t0 (S n) now' (Some (arm now' (count_failure now' (default (fresh_row now') row)))).
Proof.
  intros Ht Hle Hp Hb. destruct row as [a|]; cbn [from_option id] in *.
  - destruct Hp as ([H1 H8] & Hws & Hblk & w & Hw0 & Hn & Hw). unfold paced.
    set (c := count_failure now' a). destruct (arm_same now' c) as [Ef Ew].
    assert (if expired now' WINDOW_MINUTES a then failures c = 1 /\ window_start c = now'
            else failures c = failures a + 1 /\ window_start c = window_start a) as Hc.
    { subst c. unfold count_failure. by destruct (expired _ _ _). }
    clearbody c.
    unfold expired, WINDOW_MINUTES in Hc.
    destruct (Z.ltb_spec (window_start a) (now' - 15 * 60)) as [Hold|Hnew]; destruct Hc as [Hf Hs].
    + split; [lia|]. split; [lia|]. split; [lia|]. exists (w + 1). lia.
    + assert (failures a + 1 <= 8) as Hlt.
      { destruct (decide (failures a = 8)) as [He|]; [|lia].
        destruct Hblk as (b & Hbu & Hbp); [lia|]. unfold blocked in Hb. rewrite Hbu in Hb. rewrite He in Hbp. change (pace (8 + 1)) with 960 in Hbp.
        apply Z.ltb_ge in Hb. lia. }
      assert (window_start a + pace (failures a + 1) <= now') as Hpace.
      { destruct (decide (5 <= failures a)) as [H5|].
        - destruct (Hblk H5) as (b & Hbu & Hbp). unfold blocked in Hb. rewrite Hbu in Hb.
          apply Z.ltb_ge in Hb. lia.
        - unfold pace. destruct (Z.leb_spec (failures a + 1) 5); lia. }
      split; [lia|]. split; [lia|]. split; [|exists w; lia].
      apply arm_paced; [lia|]. by rewrite Hf, Hs.
  - cbn in Hp. subst. unfold paced. destruct (arm_same now' (count_failure now' (fresh_row now'))) as [Ef Ew].
    assert (count_failure now' (fresh_row now') = {| failures := 1; window_start := now'; blocked_until := None |}) as Ec.
    { unfold count_failure. replace (expired now' WINDOW_MINUTES (fresh_row now')) with false; [done|].
      symmetry. apply Z.ltb_ge. cbn [window_start fresh_row]. unfold WINDOW_MINUTES. lia. }
    rewrite Ec in *. cbn [failures window_start] in *. split; [lia|]. split; [lia|]. split; [lia|]. exists 0. lia.
Qed.

(** Attempts on two counters at a time, at the given moments; how many of
    those that name [k] were let through. *)
Fixpoint guesses (k : list Z) (evs : list (Z * list (list Z))) (t : Counters) : nat :=
  match evs with
  | [] => 0
  | (now, keys) :: evs =>
      let '(t', ok) := charge now keys t in
      (if ok && bool_decide (k ∈ keys) then 1 else 0) + guesses k evs t'
  end.

Fixpoint in_order (from upto : Z) (evs : list (Z * list (list Z))) : Prop :=
  match evs with
  | [] => from <= upto
  | (now, keys) :: evs => from <= now /\ NoDup keys /\ in_order now upto evs
  end.

Lemma guesses_paced k t0 upto evs now n t :
  t0 <= now -> in_order now upto evs -> paced t0 n now (t !! k) ->
  Z.of_nat (n + guesses k evs t) <= 8 * ((upto - t0) / 901) + 8.
Proof.
  revert now n t. induction evs as [|[at_ keys] evs IH]; intros now n t Ht Hord Hp; cbn [guesses in_order] in *.
  - destruct (t !! k) as [a|]; cbn in Hp.
    + destruct Hp as (? & ? & _ & w & ? & ? & ?). assert (w <= (upto - t0) / 901) by (apply Z.div_le_lower_bound; lia). lia.
    + assert (0 <= (upto - t0) / 901) by (apply Z.div_pos; lia). lia.
  - destruct Hord as (Hle & Hn & Hord). destruct (charge_lookup at_ keys t k Hn) as [Hl Hb].
    destruct (charge at_ keys t) as [t' ok] eqn:Ec. cbn [fst snd] in *.
    destruct (ok && bool_decide (k ∈ keys)) eqn:Eok.
    + apply andb_true_iff in Eok as [-> Hk%bool_decide_eq_true].
      assert (Z.of_nat (S n + guesses k evs t') <= 8 * ((upto - t0) / 901) + 8); [|lia].
      eapply (IH at_); [lia|done|]. rewrite Hl. apply (paced_charge _ _ now); auto.
    + eapply (IH at_); [lia|done|]. rewrite Hl. by apply (paced_later _ _ now).
Qed.

(** C8: however the attempts are spread over moments and counters, and
    whoever makes them, at most eight checks of one account's (or one
    address's) key are let through per 901 seconds until a right key clears
    the counter: the number in any span is bounded by the length of the
    span. *)
Theorem guesses_bounded k t0 upto evs t :
  t !! k = None -> in_order t0 upto evs ->
  Z.of_nat (guesses k evs t) <= 8 * ((upto - t0) / 901) + 8.
Proof. intros Hk Hord. apply (guesses_paced k t0 upto evs t0 0 t); [done..|]. by rewrite Hk. Qed.

Definition acct_key : list Z := lit "acct:1".
Definition ip_key_of (n : Z) : list Z := lit "ip:" ++ [n].

(** An attempt every ten seconds for an hour, each from another address. *)
Definition siege : list (Z * list (list Z)) :=
  map (fun n => (10 * Z.of_nat n, [acct_key; ip_key_of (Z.of_nat n)])) (seq 0 360).

Lemma guesses_bounded_witness :
  Z.of_nat (guesses acct_key siege ∅) <= 8 * (3600 / 901) + 8 /\ guesses acct_key siege ∅ = 31%nat.
Proof.
  split; [|by vm_compute].
  apply (guesses_bounded acct_key 0 3600 siege ∅); [done|].
  assert (forall n from, (from <= 10 * Z.of_nat n) -> forall m, (n + m = 360)%nat ->
    in_order from 3600 (map (fun n => (10 * Z.of_nat n, [acct_key; ip_key_of (Z.of_nat n)])) (seq n m))) as Hs.
  { intros n from Hf m. revert n from Hf. induction m as [|m IH]; intros n from Hf Hm; cbn [seq map in_order]; [lia|].
    split_and!; [done| |apply IH; lia].
    apply NoDup_cons. split; [|apply NoDup_singleton]. rewrite list_elem_of_singleton.
    intros He. apply (f_equal (hd 0)) in He. by vm_compute in He. }
  apply (Hs 0%nat 0 ltac:(done) 360%nat). lia.
Defined.
