(* ===== verification/Server.v ===== *)
(** * The sync server (crates/havenkeys-server)

    auth/mod.rs (whose request it is), routes/sync.rs (the pull), routes/items.rs
    (writes and fetches), routes/attachments.rs, routes/vault.rs, b64.rs,
    limits.rs and error.rs over the tables of migrations/*.sql.  A vault's
    items and files are finite maps inside the vault's row (their foreign keys
    name it), the vault is found by its account (the column is unique).  A
    handler that fails leaves the tables as they were: its transaction is
    rolled back.  SQL itself is assumed to do what its statement says. *)

From S2P Require Import Prelude Errors Text Blob Url Tags Totp Clean Card Identity.
From S2P Require Import CustomField Bank Sso Attachment Model Keys Store Origin Health BuildItem.
From S2P Require Import Vault Items Sync Wire Admission.

(** ** error.rs *)

Inductive ApiError : Type :=
| Unauthorized
| NotFound
| Conflict
| InvalidRequest (msg : string)
| TooLarge
| VaultFull
| AttachmentsFull
| RateLimited
| AccountDeleted
| AccountFrozen
| Unavailable
| UpgradeRequired
| Internal.

#[export] Instance ApiError_eq_dec : EqDecision ApiError.
Proof. solve_decision. Defined.

Definition parts (e : ApiError) : Z * string * string :=
  match e with
  | Unauthorized => (401, "unauthorized", "Authentication failed.")
  | NotFound => (404, "not_found", "Not found.")
  | Conflict => (409, "conflict", "The stored revision has moved on.")
  | InvalidRequest m => (400, "invalid_request", m)
  | TooLarge => (413, "too_large", "Request is too large.")
  | VaultFull => (413, "vault_full", "This vault has reached its storage limit.")
  | AttachmentsFull => (413, "attachments_full", "This vault has reached its attachment storage limit.")
  | RateLimited => (429, "rate_limited", "Too many attempts. Try again later.")
  | AccountDeleted => (410, "account_deleted", "This account was deleted.")
  | AccountFrozen => (402, "account_frozen",
      "This account is frozen: the trial ended or payment lapsed. Reading and export still work.")
  | Unavailable => (503, "unavailable", "The server is busy. Try again shortly.")
  | UpgradeRequired => (426, "upgrade_required", "Update HavenKeys to sign in.")
  | Internal => (500, "internal", "Internal error.")
  end%string.

(** ** limits.rs *)

Definition MAX_BLOB_BYTES : Z := 8 * 1024 * 1024.
Definition MAX_VAULT_BYTES : Z := 256 * 1024 * 1024.
Definition MAX_ATTACHMENT_BLOB_BYTES : Z := 5 * 1024 * 1024 + 4096.
Definition MAX_ATTACHMENTS_PER_ITEM : nat := 20.
Definition MAX_ATTACHMENT_VAULT_BYTES : Z := 192 * 1024 * 1024.
Definition MAX_CHANGES_PER_BATCH : nat := 500.
Definition MAX_PULL_PAGE : nat := 500.
Definition MAX_PAGE_BYTES : Z := 12 * 1024 * 1024.

(** ** The tables *)

Record ItemRow := {
  it_overview : option (list Z);
  it_details : option (list Z);
  it_deleted : bool;
  it_revision : Z;
}.
Record FileRow := { at_item : Z; at_blob : list Z; committed : bool }.

Record VaultRow := {
  v_id : Z;
  v_header : list Z;
  v_header_revision : Z;
  v_key_scheme : Z;
  v_revision : Z;
  v_items : gmap Z ItemRow;
  v_files : gmap Z FileRow;
}.

Inductive AccountStatus := AInvited | AActive | ADisabled.
#[export] Instance AccountStatus_eq_dec : EqDecision AccountStatus.
Proof. solve_decision. Defined.

Record AccountRow := { a_status : AccountStatus; a_billing : Billing; a_vault : option VaultRow }.
Record DeviceRow := { dv_account : Z; dv_revoked : bool; dv_last_seen : option Z }.
Record SessionRow := { ss_account : Z; ss_device : Z; ss_expires : Z }.

(** The database, the configured vault limit, and the clock. *)
Record Db := {
  accounts : gmap Z AccountRow;
  devices : gmap Z DeviceRow;
  sessions : gmap (list Z) SessionRow;
  deleted_sessions : gmap (list Z) Z;
  max_vault_bytes : Z;
  now : Z;
}.

Definition set_items_row (rev : Z) (its : gmap Z ItemRow) (fls : gmap Z FileRow) (v : VaultRow) : VaultRow :=
  {| v_id := v_id v; v_header := v_header v; v_header_revision := v_header_revision v;
     v_key_scheme := v_key_scheme v; v_revision := rev; v_items := its; v_files := fls |}.
Definition set_vault (acct : Z) (v : VaultRow) (db : Db) : Db :=
  {| accounts := alter (fun a => {| a_status := a_status a; a_billing := a_billing a; a_vault := Some v |})
                   acct (accounts db);
     devices := devices db; sessions := sessions db; deleted_sessions := deleted_sessions db;
     max_vault_bytes := max_vault_bytes db; now := now db |}.
Definition seen (dev : Z) (db : Db) : Db :=
  {| accounts := accounts db;
     devices := alter (fun d => {| dv_account := dv_account d; dv_revoked := dv_revoked d;
                                   dv_last_seen := Some (now db) |}) dev (devices db);
     sessions := sessions db; deleted_sessions := deleted_sessions db;
     max_vault_bytes := max_vault_bytes db; now := now db |}.

(** ** The pull (routes/sync.rs) *)

Definition ROW_JSON_BYTES : Z := 256.
Definition b64_len (n : Z) : Z := (Z.max 0 n + 2) / 3 * 4.

Definition octet_length (b : option (list Z)) : Z := match b with Some b => len b | None => 0 end.

(** The rows of one revision at the front of [rows]. *)
Fixpoint run_of {A} (key : A -> Z) (r : Z) (rows : list A) : nat :=
  match rows with
  | x :: rows => if key x =? r then S (run_of key r rows) else 0
  | [] => 0
  end.

Fixpoint position_of (r : Z) (rows : list (Z * Z)) : nat :=
  match rows with
  | x :: rows => if x.1 =? r then 0 else S (position_of r rows)
  | [] => 0
  end.

(** The loop of [page_len]: [end_] rows, [bytes] bytes so far. *)
Fixpoint page_loop (fuel : nat) (rows : list (Z * Z)) (complete end_ : nat) (bytes : Z) : nat :=
  match fuel with
  | O => end_
  | S fuel =>
      if (end_ <? complete)%nat then
        match rows !! end_ with
        | None => end_
        | Some (revision, _) =>
            let run := run_of fst revision (drop end_ rows) in
            let next := (end_ + run)%nat in
            let more := foldr Z.add 0 (map snd (take run (drop end_ rows))) in
            if (0 <? end_)%nat && ((MAX_PULL_PAGE <? next)%nat || (MAX_PAGE_BYTES <? bytes + more))
            then end_
            else page_loop fuel rows complete next (bytes + more)
        end
      else end_
  end.

Definition page_len (rows : list (Z * Z)) (window_full : bool) : nat :=
  let complete := match last rows with
                  | Some (l, _) => if window_full then position_of l rows else length rows
                  | None => length rows
                  end in
  page_loop (length rows) rows complete 0 0.

Definition WINDOW : nat := MAX_PULL_PAGE + MAX_CHANGES_PER_BATCH + 1.

(** [SELECT … WHERE revision > since ORDER BY revision, item_id]. *)
Definition rows_after (since : Z) (v : VaultRow) : list (Z * ItemRow) :=
  sort_by_key (fun p => (it_revision p.2, p.1))
    (List.filter (fun p => since <? it_revision p.2) (map_to_list (v_items v))).
Definition rows_between (since through : Z) (v : VaultRow) : list (Z * ItemRow) :=
  List.filter (fun p => it_revision p.2 <=? through) (rows_after since v).

Definition row_size (r : ItemRow) : Z :=
  b64_len (octet_length (it_overview r)) + b64_len (octet_length (it_details r)) + ROW_JSON_BYTES.

Record Page := { pg_cursor : Z; pg_has_more : bool; pg_rows : list (Z * ItemRow) }.

Definition pull (since : Z) (v : VaultRow) : result ApiError Page :=
  if since <? 0 then Err (InvalidRequest "since is not valid")
  else
    let sized := take WINDOW (map (fun p => (it_revision p.2, row_size p.2)) (rows_after since v)) in
    let end_ := page_len sized (length sized =? WINDOW)%nat in
    if (end_ =? 0)%nat && negb (bool_decide (sized = [])) then Err Internal
    else
      let has_more := (end_ <? length sized)%nat in
      match end_ with
      | O => Ok {| pg_cursor := v_revision v; pg_has_more := has_more; pg_rows := [] |}
      | S last =>
          match sized !! last with
          | Some (through, _) =>
              Ok {| pg_cursor := through; pg_has_more := has_more; pg_rows := rows_between since through v |}
          | None => Err Internal
          end
      end.

(** ** Writes (routes/items.rs) *)

Record Change := {
  ch_item : Z;
  ch_base : option Z;
  ch_overview : option (list Z);
  ch_details : option (list Z);
  ch_deleted : bool;
  ch_attachments : option (list Z);
}.

Definition attachment_ids_valid (c : Change) : bool :=
  match ch_attachments c with
  | None => true
  | Some ids => negb (ch_deleted c) && (length ids <=? MAX_ATTACHMENTS_PER_ITEM)%nat && bool_decide (NoDup ids)
  end.

Definition check_change (c : Change) : result ApiError () :=
  let well_formed := if ch_deleted c then Wire.is_none (ch_overview c) && Wire.is_none (ch_details c)
                     else Wire.is_some (ch_overview c) && Wire.is_some (ch_details c) in
  if well_formed && attachment_ids_valid c then Ok () else Err (InvalidRequest "change is not valid").

Fixpoint check_each (seen : gset Z) (cs : list Change) : result ApiError () :=
  match cs with
  | [] => Ok ()
  | c :: cs =>
      _ ← check_change c;
      if bool_decide (ch_item c ∈ seen) then Err (InvalidRequest "an item appears twice in one batch")
      else check_each ({[ch_item c]} ∪ seen) cs
  end.

Definition check_batch (cs : list Change) : result ApiError () :=
  if bool_decide (cs = []) then Err (InvalidRequest "changes is empty")
  else if (MAX_CHANGES_PER_BATCH <? length cs)%nat then Err (InvalidRequest "too many changes in one batch")
  else check_each ∅ cs.

(** The conflict one change has with the stored rows, if any. *)
Definition conflict_of (items : gmap Z ItemRow) (c : Change) : option ConflictInfo :=
  match items !! ch_item c with
  | Some row =>
      if negb (bool_decide (ch_base c = Some (it_revision row))) || (it_deleted row && ch_deleted c)
      then Some {| cf_item := ch_item c; cf_revision := Some (it_revision row) |} else None
  | None =>
      if Wire.is_some (ch_base c) then Some {| cf_item := ch_item c; cf_revision := None |} else None
  end.

Definition find_conflicts (cs : list Change) (items : gmap Z ItemRow) : list ConflictInfo :=
  omap (conflict_of items) cs.

Definition attachment_bytes (files : gmap Z FileRow) : Z :=
  map_fold (fun _ f n => len (at_blob f) + n) 0 files.
Definition item_bytes (items : gmap Z ItemRow) : Z :=
  map_fold (fun _ r n => octet_length (it_overview r) + octet_length (it_details r) + n) 0 items.
Definition vault_bytes (items : gmap Z ItemRow) (files : gmap Z FileRow) : Z :=
  item_bytes items + attachment_bytes files.

(** The files [listed] are the item's: committed, and its others dropped. *)
Definition keep_listed (item : Z) (listed : list Z) (files : gmap Z FileRow) : result ApiError (gmap Z FileRow) :=
  let mine i := match files !! i with Some f => at_item f =? item | None => false end in
  if negb (length (List.filter mine listed) =? length listed)%nat then Err (InvalidRequest "unknown attachment")
  else Ok (map_imap (fun i f =>
             if at_item f =? item then
               if bool_decide (i ∈ listed)
               then Some {| at_item := at_item f; at_blob := at_blob f; committed := true |}
               else None
             else Some f) files).

Definition apply_attachments (c : Change) (files : gmap Z FileRow) : result ApiError (gmap Z FileRow) :=
  if ch_deleted c then keep_listed (ch_item c) [] files
  else match ch_attachments c with Some ids => keep_listed (ch_item c) ids files | None => Ok files end.

Definition row_of_change (revision : Z) (c : Change) : ItemRow :=
  if ch_deleted c
  then {| it_overview := None; it_details := None; it_deleted := true; it_revision := revision |}
  else {| it_overview := ch_overview c; it_details := ch_details c; it_deleted := false; it_revision := revision |}.

Definition apply_change (revision : Z) (t : gmap Z ItemRow * gmap Z FileRow) (c : Change)
    : result ApiError (gmap Z ItemRow * gmap Z FileRow) :=
  files ← apply_attachments c t.2;
  Ok (<[ch_item c := row_of_change revision c]> t.1, files).

Fixpoint apply_each (revision : Z) (cs : list Change) (t : gmap Z ItemRow * gmap Z FileRow)
    : result ApiError (gmap Z ItemRow * gmap Z FileRow) :=
  match cs with
  | [] => Ok t
  | c :: cs => t ← apply_change revision t c; apply_each revision cs t
  end.

Definition require_full (e : Admission.Entitlement) : result ApiError () :=
  match e with EFull => Ok () | EFrozen => Err AccountFrozen end.

(** What a batch leads to: the new row of the vault, or the conflicts. *)
Inductive Written := Accepted (v : VaultRow) | Conflicts (l : list ConflictInfo).

Definition write (e : Admission.Entitlement) (max : Z) (cs : list Change) (v : VaultRow) : result ApiError Written :=
  _ ← require_full e;
  _ ← check_batch cs;
  match find_conflicts cs (v_items v) with
  | [] =>
      if v_revision v =? i64_max then Err Internal
      else
        let revision := v_revision v + 1 in
        let before := vault_bytes (v_items v) (v_files v) in
        t ← apply_each revision cs (v_items v, v_files v);
        let after := vault_bytes t.1 t.2 in
        if (max <? after) && (before <? after) then Err VaultFull
        else Ok (Accepted (set_items_row revision t.1 t.2 v))
  | l => Ok (Conflicts l)
  end.

(** [fetch]: as many rows as fit a page, at least one. *)
Fixpoint fit (bytes : Z) (any : bool) (rows : list (Z * ItemRow)) : list Z :=
  match rows with
  | [] => []
  | (i, r) :: rows =>
      if any && (MAX_PAGE_BYTES <? bytes + row_size r) then []
      else i :: fit (bytes + row_size r) true rows
  end.

(** [SELECT … WHERE item_id = ANY(ids) ORDER BY item_id]. *)
Definition rows_of (ids : list Z) (v : VaultRow) : list (Z * ItemRow) :=
  sort_by_key fst (List.filter (fun p => bool_decide (p.1 ∈ ids)) (map_to_list (v_items v))).

Definition fetch (ids : list Z) (v : VaultRow) : result ApiError (list (Z * ItemRow) * list Z) :=
  if bool_decide (ids = []) || (MAX_CHANGES_PER_BATCH <? length ids)%nat
  then Err (InvalidRequest "itemIds is not valid")
  else if negb (bool_decide (NoDup ids)) then Err (InvalidRequest "an item appears twice")
  else
    let sized := rows_of ids v in
    let answered := fit 0 false sized in
    Ok (rows_of answered v, map fst (drop (length answered) sized)).

(** ** Attachments (routes/attachments.rs) *)

Definition put_attachment (e : Admission.Entitlement) (max : Z) (id item : Z) (blob : list Z) (v : VaultRow)
    : result ApiError VaultRow :=
  _ ← require_full e;
  if MAX_ATTACHMENT_BLOB_BYTES <? len blob then Err TooLarge
  else match v_files v !! id with
  | Some f => if (at_item f =? item) && bool_decide (at_blob f = blob) then Ok v else Err Conflict
  | None =>
      if MAX_ATTACHMENT_VAULT_BYTES <? attachment_bytes (v_files v) + len blob then Err AttachmentsFull
      else if max <? vault_bytes (v_items v) (v_files v) + len blob then Err VaultFull
      else Ok (set_items_row (v_revision v) (v_items v)
                 (<[id := {| at_item := item; at_blob := blob; committed := false |}]> (v_files v)) v)
  end.

Definition get_attachment (id : Z) (v : VaultRow) : result ApiError (Z * list Z) :=
  match v_files v !! id with
  | Some f => if committed f then Ok (at_item f, at_blob f) else Err NotFound
  | None => Err NotFound
  end.

(** ** Requests (auth/mod.rs, b64.rs, json.rs, routes/mod.rs) *)

(** [DateTime::to_rfc3339] (chrono). *)
Class Clock := { to_rfc3339 : Z -> list Z }.

(** auth/mod.rs [Session]; the vault is the row its id names. *)
Record Caller := {
  account_id : Z;
  device_id : Z;
  vault : VaultRow;
  token_hash : list Z;
  subscription : option Subscription;
  entitlement : Admission.Entitlement;
}.

Section Serve.
Context {C : Crypto} {H : HeaderLib} {Ck : Clock}.

Definition hash_of (raw : list Z) : list Z := sha256 (utf8 raw).

(** The one query of [Session::from_request_parts]. *)
Definition session_row (hash : list Z) (db : Db) : option Caller :=
  s ← sessions db !! hash;
  a ← accounts db !! ss_account s;
  d ← devices db !! ss_device s;
  v ← a_vault a;
  if (now db <? ss_expires s) && bool_decide (a_status a = AActive) && negb (dv_revoked d)
  then Some {| account_id := ss_account s; device_id := ss_device s; vault := v; token_hash := hash;
               subscription := load (a_billing a);
               entitlement := entitlement_of (load (a_billing a)) (now db) |}
  else None.

Definition authorize (raw : option (list Z)) (db : Db) : Db * result ApiError Caller :=
  match raw with
  | None => (db, Err Unauthorized)
  | Some raw =>
      if bool_decide (raw = []) || (128 <? str_len raw) then (db, Err Unauthorized)
      else match session_row (hash_of raw) db with
      | Some c => (seen (device_id c) db, Ok c)
      | None =>
          (db, Err match deleted_sessions db !! hash_of raw with
                   | Some t => if now db <? t then AccountDeleted else Unauthorized
                   | None => Unauthorized
                   end)
      end
  end.

(** [Blob::deserialize], and the fields of [Change]. *)
Definition blob_from (raw : list Z) : option (list Z) :=
  if MAX_BLOB_BYTES / 3 * 4 + 4 <? str_len raw then None
  else
    b ← base64_decode raw;
    if MAX_BLOB_BYTES <? len b then None else Some b.
Definition opt_blob (raw : option (list Z)) : option (option (list Z)) :=
  match raw with None => Some None | Some r => Some <$> blob_from r end.

Definition change_from (d : ChangeDto) : option Change :=
  ov ← opt_blob (cd_overview d);
  det ← opt_blob (cd_details d);
  Some {| ch_item := cd_item d; ch_base := cd_base_revision d; ch_overview := ov; ch_details := det;
          ch_deleted := cd_deleted d; ch_attachments := cd_attachment_ids d |}.

(** [Json]: any body the type refuses is one fixed error. *)
Definition json {A B} `{Serde A} (f : A -> option B) (b : option (list Z)) : result ApiError B :=
  ok_or (InvalidRequest "request is not valid") (x ← b; a ← from_json x; f a).

Definition account_json (c : Caller) (t : Z) : AccountDto :=
  {| ad_status := status_as_str (match subscription c with Some s => sub_status s | None => Complimentary end);
     ad_entitlement := ent_as_str (entitlement_of (subscription c) t);
     ad_trial_ends_at := to_rfc3339 <$> (subscription c ≫= Admission.trial_ends_at);
     ad_period_end := to_rfc3339 <$> (subscription c ≫= current_period_end) |}.

Definition change_json (p : Z * ItemRow) : RemoteChangeDto :=
  {| rd_item := p.1; rd_revision := it_revision p.2; rd_overview := base64_encode <$> it_overview p.2;
     rd_details := base64_encode <$> it_details p.2; rd_deleted := it_deleted p.2 |}.

Context {S1 : Serde ErrorBody} {S2 : Serde PullDto} {S3 : Serde WriteBody} {S4 : Serde WriteAckDto}.
Context {S5 : Serde ConflictsDto} {S6 : Serde FetchBody} {S7 : Serde FetchDto} {S8 : Serde HeaderDto}.
Context {S9 : Serde AttachmentPutBody} {S10 : Serde AttachmentDto}.

Definition respond (st : Z) (b : list Z) : HttpResponse := {| status := st; body := b |}.
Definition ok_json {A} `{Serde A} (a : A) : HttpResponse := respond 200 (to_json a).
(** [ApiError::into_response]. *)
Definition refuse (e : ApiError) : HttpResponse :=
  let '(st, code, message) := parts e in
  respond st (to_json {| eb_code := lit code; eb_message := lit message |}).

Definition page_json (c : Caller) (t : Z) (p : Page) : PullDto :=
  {| pd_cursor := pg_cursor p; pd_has_more := pg_has_more p; pd_changes := map change_json (pg_rows p);
     pd_account := Some (account_json c t) |}.
Definition ack_json (cs : list Change) (v : VaultRow) : WriteAckDto :=
  {| wa_cursor := v_revision v; wa_applied := map (fun c => {| ap_item := ch_item c; ap_revision := v_revision v |}) cs |}.

(** The authorized part of a request of the vault, attachment and device
    routes: the database after it, and the answer.  The account and pairing
    routes are computations of their own (ServerAuth.v and after); a path this
    router does not know is answered 404 with no body. *)
Definition handle (c : Caller) (req : HttpRequest) (db : Db) : result ApiError (Db * HttpResponse) :=
  match method req, path req with
  | Get, PSync since =>
      p ← pull since (vault c); Ok (db, ok_json (page_json c (now db) p))
  | Post, PItems =>
      cs ← json (fun b => mapM change_from (wb_changes b)) (req_body req);
      w ← write (entitlement c) (max_vault_bytes db) cs (vault c);
      match w with
      | Accepted v => Ok (set_vault (account_id c) v db, ok_json (ack_json cs v))
      | Conflicts l => Ok (db, respond 409 (to_json {| cds_conflicts := l |}))
      end
  | Post, PFetch =>
      ids ← json (fun b => Some (fb_item_ids b)) (req_body req);
      a ← fetch ids (vault c);
      Ok (db, ok_json {| fd_changes := map change_json a.1; fd_unanswered := a.2 |})
  | Get, PHeader =>
      Ok (db, ok_json {| hd_header := base64_encode (v_header (vault c));
                         hd_revision := v_header_revision (vault c); hd_key_scheme := v_key_scheme (vault c) |})
  | Put, PAttachment id =>
      b ← json (fun b => x ← blob_from (apb_blob b); Some (apb_item b, x)) (req_body req);
      v ← put_attachment (entitlement c) (max_vault_bytes db) id b.1 b.2 (vault c);
      Ok (set_vault (account_id c) v db, respond 200 (lit "{}"))
  | Get, PAttachment id =>
      a ← get_attachment id (vault c);
      Ok (db, ok_json {| atd_item := a.1; atd_blob := base64_encode a.2 |})
  | Post, PLogout =>
      Ok ({| accounts := accounts db; devices := devices db; sessions := delete (token_hash c) (sessions db);
             deleted_sessions := deleted_sessions db; max_vault_bytes := max_vault_bytes db; now := now db |},
          respond 204 [])
  | Delete, PDevice id =>
      match devices db !! id with
      | Some d =>
          if (dv_account d =? account_id c) && negb (dv_revoked d) then
            Ok ({| accounts := accounts db;
                   devices := <[id := {| dv_account := dv_account d; dv_revoked := true;
                                         dv_last_seen := dv_last_seen d |}]> (devices db);
                   sessions := filter (fun p => ss_device p.2 <> id) (sessions db);
                   deleted_sessions := deleted_sessions db; max_vault_bytes := max_vault_bytes db; now := now db |},
                respond 204 [])
          else Err NotFound
      | None => Err NotFound
      end
  | _, _ => Ok (db, respond 404 [])
  end.

Definition serve (req : HttpRequest) (db : Db) : Db * HttpResponse :=
  match authorize (req_token req) db with
  | (db, Err e) => (db, refuse e)
  | (db, Ok c) =>
      match handle c req db with
      | Ok (db, r) => (db, r)
      | Err e => (db, refuse e)
      end
  end.
End Serve.
