(* ===== verification/ServerFacts.v ===== *)
(** * What the server promises

    The invariant of a stored vault and that writes keep it; what a page of
    the pull holds, and that pulling again and again reaches the vault's
    revision having sent every row; when a write is refused and what an
    accepted one changes; who a request can reach. *)

From S2P Require Import Prelude Errors Text Blob Url Tags Totp Clean Card Identity.
From S2P Require Import CustomField Bank Sso Attachment Model Keys Store Origin Health BuildItem.
From S2P Require Import Vault Items Sync Wire Admission Server.

(** ** Lists sorted by a number *)

Section Runs.
Context {A : Type} (key : A -> Z).

Definition ordered (l : list A) : Prop := StronglySorted (fun x y => key x <= key y) l.

(** A cut that separates the keys. *)
Definition boundary (e : nat) (l : list A) : Prop :=
  forall x y, x ∈ take e l -> y ∈ drop e l -> key x < key y.

Lemma ordered_cut e l x y : ordered l -> x ∈ take e l -> y ∈ drop e l -> key x <= key y.
Proof.
  intros Hs. revert e. induction Hs as [|a l Hs IH Ha]; intros [|e]; cbn; try by intros ?%elem_of_nil.
  intros [->|Hx]%elem_of_cons Hy; [|by apply (IH e)].
  rewrite Forall_forall in Ha. apply Ha. rewrite <- (take_drop e l). apply elem_of_app. by right.
Qed.

Lemma ordered_drop e l : ordered l -> ordered (drop e l).
Proof. intros Hs. revert e. induction Hs as [|a l Hs IH Ha]; intros [|e]; cbn; try by constructor. apply IH. Qed.
Lemma ordered_take e l : ordered l -> ordered (take e l).
Proof.
  intros Hs. revert e. induction Hs as [|a l Hs IH Ha]; intros [|e]; cbn; constructor; [apply IH|].
  rewrite Forall_forall in *. intros x Hx. apply Ha. rewrite <- (take_drop e l). apply elem_of_app. by left.
Qed.

Lemma run_of_le r l : (run_of key r l <= length (List.filter (fun x => key x =? r)%Z l))%nat.
Proof. induction l as [|x l IH]; cbn; [lia|]. destruct (key x =? r); cbn; lia. Qed.

Lemma run_of_length r l : (run_of key r l <= length l)%nat.
Proof. induction l as [|x l IH]; cbn; [lia|]. destruct (key x =? r); lia. Qed.

Lemma run_of_take r l x : x ∈ take (run_of key r l) l -> key x = r.
Proof.
  induction l as [|y l IH]; cbn; [by intros ?%elem_of_nil|].
  destruct (Z.eqb_spec (key y) r); cbn; [|by intros ?%elem_of_nil].
  intros [->|?]%elem_of_cons; auto.
Qed.

Lemma run_of_drop r l y :
  ordered l -> (forall x, x ∈ l -> r <= key x) -> y ∈ drop (run_of key r l) l -> r < key y.
Proof.
  intros Hs Hr. induction Hs as [|x l Hs IH Hx]; cbn; [by intros ?%elem_of_nil|].
  destruct (Z.eqb_spec (key x) r); cbn.
  - apply IH. intros z Hz. apply Hr. by right.
  - rewrite Forall_forall in Hx. specialize (Hr x) as Hr0. rewrite elem_of_cons in Hr0. specialize (Hr0 (or_introl eq_refl)).
    intros [->|Hy]%elem_of_cons; [lia|]. apply Hx in Hy. lia.
Qed.

Lemma filter_drop_length (f : A -> bool) e l : (length (List.filter f (drop e l)) <= length (List.filter f l))%nat.
Proof.
  revert e. induction l as [|x l IH]; intros [|e]; cbn; try lia. specialize (IH e). destruct (f x); cbn; lia.
Qed.

Lemma ordered_last l x : ordered l -> last l = Some x -> forall y, y ∈ l -> key y <= key x.
Proof.
  rewrite last_lookup. intros Hs Hl y (i & Hi)%list_elem_of_lookup.
  destruct (decide (i = pred (length l))) as [->|Hne]; [rewrite Hi in Hl; injection Hl as ->; lia|].
  apply (ordered_cut (S i) l); [done| |].
  - apply elem_of_take. exists i. split; [done|lia].
  - apply list_elem_of_lookup. exists (pred (length l) - S i)%nat. rewrite lookup_drop.
    apply lookup_lt_Some in Hi. by replace (S i + (pred (length l) - S i))%nat with (pred (length l)) by lia.
Qed.

Lemma run_of_all r l : (forall y, y ∈ l -> key y = r) -> run_of key r l = length l.
Proof.
  induction l as [|y l IH]; intros Heq; [done|]. cbn. rewrite (Heq y), Z.eqb_refl by by left.
  rewrite IH; [done|]. intros z Hz. apply Heq. by right.
Qed.

(** From a cut inside the list, the run of the next key ends at a cut no
    later than any cut further on. *)
Lemma run_boundary e c l x r :
  ordered l -> boundary e l -> boundary c l -> (e < c)%nat -> l !! e = Some x -> key x = r ->
  let n := (e + run_of key r (drop e l))%nat in
  boundary n l /\ (e < n <= c)%nat.
Proof.
  intros Hs He Hc Hlt Hx Hr. cbv zeta. set (k := run_of key r (drop e l)).
  assert (drop e l = x :: drop (S e) l) as Hd by (by apply drop_S).
  assert (Hlo : forall z, z ∈ drop e l -> r <= key z).
  { intros z. rewrite Hd. intros [->|Hz]%elem_of_cons; [lia|].
    rewrite <- Hr. apply (ordered_cut (S e) l); [done| |done].
    rewrite (take_S_r _ _ x) by done. apply elem_of_app. right. by left. }
  assert (Hhi : forall z, z ∈ drop (e + k) l -> r < key z).
  { intros z. rewrite <- drop_drop. apply run_of_drop; [by apply ordered_drop|done]. }
  split; [|split].
  - intros u z Hu Hz. apply Hhi in Hz.
    assert (key u <= r); [|lia]. apply elem_of_take in Hu as (i & Hi & Hik).
    destruct (decide (i < e)%nat).
    + assert (key u < key x); [|lia]. apply He; [apply elem_of_take; eauto|]. rewrite Hd. by left.
    + assert (u ∈ take k (drop e l)) as Hu; [|by apply run_of_take in Hu; lia].
      apply elem_of_take. exists (i - e)%nat. rewrite lookup_drop. split; [|lia].
      by replace (e + (i - e))%nat with i by lia.
  - unfold k. rewrite Hd. cbn. rewrite Hr, Z.eqb_refl. lia.
  - destruct (decide (e + k <= c)%nat) as [|Hgt]; [done|].
    assert (k <= length (drop e l))%nat by apply run_of_length. rewrite length_drop in *.
    destruct (lookup_lt_is_Some_2 l c) as [y Hy]; [lia|].
    assert (key x < key y).
    { apply Hc; [apply elem_of_take; eauto|]. rewrite (drop_S _ _ _ Hy). by left. }
    assert (key y = r); [|lia]. apply (run_of_take _ (drop e l)). apply elem_of_take.
    exists (c - e)%nat. rewrite lookup_drop. split; [|fold k; lia]. by replace (e + (c - e))%nat with c by lia.
Qed.
End Runs.

Lemma position_of_spec r (l : list (Z * Z)) x :
  ordered fst l -> last l = Some x -> x.1 = r ->
  boundary fst (position_of r l) l /\ (position_of r l < length l)%nat.
Proof.
  intros Hs Hl Hr.
  assert (forall y, y ∈ l -> y.1 <= r) as Hmax by (rewrite <- Hr; by apply ordered_last).
  assert (x ∈ l) as Hx by (rewrite last_lookup in Hl; by eapply list_elem_of_lookup_2).
  clear Hl. induction l as [|y l IH]; [by apply elem_of_nil in Hx|]. cbn [position_of length].
  destruct (Z.eqb_spec y.1 r) as [He|He].
  { split; [|lia]. intros u z Hu. cbn in Hu. by apply elem_of_nil in Hu. }
  apply elem_of_cons in Hx as [->|Hx]; [congruence|].
  inversion Hs as [|? ? Hs' Hy]; subst. destruct IH as [IH1 IH2]; [done|by intros; apply Hmax; right|done|].
  split; [|lia]. intros u z Hu Hz. cbn in Hu, Hz. apply elem_of_cons in Hu as [->|Hu]; [|by apply IH1].
  assert (y.1 <= x.1) by (apply Hmax; by left).
  enough (x.1 <= z.1) by lia. clear -Hs' Hz Hx.
  induction l as [|w l IH]; [by apply elem_of_nil in Hx|]. cbn in Hz.
  inversion Hs' as [|? ? Hs'' Hw]; subst. destruct (Z.eqb_spec w.1 x.1) as [He|He].
  - cbn in Hz. apply elem_of_cons in Hz as [->|Hz]; [lia|]. rewrite Forall_forall in Hw. apply Hw in Hz. cbn in Hz. lia.
  - cbn in Hz. apply elem_of_cons in Hx as [->|Hx]; [congruence|]. by apply IH.
Qed.

(** ** The page *)

Lemma page_loop_spec rows complete fuel e0 bytes :
  ordered fst rows -> boundary fst complete rows -> (complete <= length rows)%nat ->
  (forall n r, (run_of fst r (drop n rows) <= MAX_PULL_PAGE)%nat) ->
  boundary fst e0 rows -> (e0 <= complete)%nat -> (e0 <= MAX_PULL_PAGE)%nat -> (complete <= e0 + fuel)%nat ->
  let e := page_loop fuel rows complete e0 bytes in
  boundary fst e rows /\ (e0 <= e <= complete)%nat /\ (e <= MAX_PULL_PAGE)%nat /\
  (e0 = 0 -> 0 < complete -> 0 < e)%nat.
Proof.
  intros Hs Hc Hcl Hrun. revert e0 bytes. induction fuel as [|fuel IH]; intros e0 bytes He Hle Hcap Hfuel; cbn [page_loop].
  { split_and!; [done|lia..]. }
  destruct (Nat.ltb_spec e0 complete) as [Hlt|Hge]; [|split_and!; [done|lia..]].
  destruct (lookup_lt_is_Some_2 rows e0) as [[r sz] Hx]; [lia|]. rewrite Hx.
  destruct (run_boundary fst e0 complete rows (r, sz) r) as [Hn Hnl]; [done..|]. cbv zeta in *.
  set (next := (e0 + run_of fst r (drop e0 rows))%nat) in *.
  destruct (_ && _) eqn:Eg.
  - apply andb_true_iff in Eg as [Eg _]. apply Nat.ltb_lt in Eg. split_and!; [done|lia..].
  - assert (next <= MAX_PULL_PAGE)%nat as Hcap'.
    { apply andb_false_iff in Eg as [Eg|Eg].
      - apply Nat.ltb_ge in Eg. assert (e0 = 0%nat) as -> by lia. subst next. apply Hrun.
      - apply orb_false_iff in Eg as [Eg _]. by apply Nat.ltb_ge in Eg. }
    edestruct (IH next) as (I1 & I2 & I3 & I4); [done|lia|done|lia|]. split_and!; [exact I1|lia..].
Qed.

(** The cut [page_len] makes: whole keys, at most a page, and not empty
    unless there is nothing to send. *)
Lemma page_len_spec rows full :
  ordered fst rows -> (forall n r, (run_of fst r (drop n rows) <= MAX_PULL_PAGE)%nat) ->
  (full = true -> (MAX_PULL_PAGE < length rows)%nat) ->
  let e := page_len rows full in
  boundary fst e rows /\ (e <= length rows)%nat /\ (e <= MAX_PULL_PAGE)%nat /\
  (rows <> [] -> 0 < e)%nat /\ (full = true -> e < length rows)%nat.
Proof.
  intros Hs Hrun Hfull. cbv zeta. unfold page_len. destruct (last rows) as [[l sz]|] eqn:El.
  2: { apply last_None in El as ->. cbn. split_and!; [intros x y Hx; by apply elem_of_nil in Hx|lia..|done|].
       intros Hf. specialize (Hfull Hf). cbn in Hfull. lia. }
  assert (0 < length rows)%nat as Hpos by (destruct rows; [done|cbn; lia]).
  assert (boundary fst 0 rows) as H0 by (intros x y Hx; by apply elem_of_nil in Hx).
  assert (boundary fst (length rows) rows) as Hall.
  { intros x y _ Hy. rewrite drop_all in Hy. by apply elem_of_nil in Hy. }
  destruct full.
  - destruct (position_of_spec l rows (l, sz)) as [Hb Hlt]; [done..|].
    edestruct (page_loop_spec rows (position_of l rows) (length rows) 0 0) as (I1 & I2 & I3 & I4);
      [done|done|lia|done|done|lia|lia|lia|].
    split_and!; [exact I1|lia|lia| |lia]. intros _. apply I4; [done|].
    destruct (decide (0 < position_of l rows)%nat) as [|Hz]; [done|]. exfalso.
    assert (position_of l rows = 0)%nat as Hz' by lia.
    destruct rows as [|[r1 s1] rows]; [done|]. cbn in Hz'. destruct (Z.eqb_spec r1 l) as [->|]; [|done].
    assert (run_of fst l ((l, s1) :: rows) = length ((l, s1) :: rows)) as Hr.
    { apply run_of_all. intros y Hy. pose proof (ordered_last fst _ _ Hs El y Hy).
      cut (l <= y.1); [cbn in *; lia|]. apply elem_of_cons in Hy as [->|Hy]; [done|].
      apply (ordered_cut fst 1 _ (l, s1) y Hs); [by left|done]. }
    specialize (Hrun 0%nat l). rewrite drop_0, Hr in Hrun. specialize (Hfull eq_refl). lia.
  - edestruct (page_loop_spec rows (length rows) (length rows) 0 0) as (I1 & I2 & I3 & I4);
      [done|done|lia|done|done|lia|lia|lia|].
    split_and!; [exact I1|lia|lia| |done]. intros _. by apply I4.
Qed.

(** ** The invariant of a vault *)

Definition revision_rows (n : Z) (items : gmap Z ItemRow) : list (Z * ItemRow) :=
  List.filter (fun p => it_revision p.2 =? n) (map_to_list items).

Definition row_shape (r : ItemRow) : Prop :=
  if it_deleted r then it_overview r = None /\ it_details r = None
  else is_Some (it_overview r) /\ is_Some (it_details r).

(** Blobs as [Blob::deserialize] lets them in. *)
Definition fits (b : option (list Z)) : Prop := forall x, b = Some x -> len x <= MAX_BLOB_BYTES.

Record vault_ok (v : VaultRow) : Prop := {
  rev_range : 0 <= v_revision v <= i64_max;
  row_revs : forall i r, v_items v !! i = Some r -> 0 < it_revision r <= v_revision v;
  row_shapes : forall i r, v_items v !! i = Some r -> row_shape r;
  row_blobs : forall i r, v_items v !! i = Some r -> fits (it_overview r) /\ fits (it_details r);
  rev_rows : forall n, (length (revision_rows n (v_items v)) <= MAX_CHANGES_PER_BATCH)%nat;
}.

Lemma NoDup_filter_ {A} (f : A -> bool) l : NoDup l -> NoDup (List.filter f l).
Proof.
  induction 1 as [|x l Hx Hl IH]; [constructor|]. cbn. destruct (f x); [|done]. constructor; [|done].
  intros Hi. apply Hx. rewrite list_elem_of_In in Hi. rewrite list_elem_of_In. by apply List.filter_In in Hi as [].
Qed.

Lemma elem_of_filter_ {A} (f : A -> bool) l x : x ∈ List.filter f l <-> f x = true /\ x ∈ l.
Proof. rewrite !list_elem_of_In, List.filter_In. tauto. Qed.

Lemma NoDup_fst_filter {A} (f : Z * A -> bool) (l : list (Z * A)) :
  NoDup (map fst l) -> NoDup (map fst (List.filter f l)).
Proof.
  induction l as [|x l IH]; cbn; [done|]. intros [Hx Hl]%NoDup_cons. destruct (f x); cbn; [|auto].
  apply NoDup_cons. split; [|auto]. intros (y & Hy & Hi)%list_elem_of_fmap. apply Hx.
  apply elem_of_filter_ in Hi as [_ Hi]. apply list_elem_of_fmap. eauto.
Qed.

Lemma filter_perm {A} (f : A -> bool) l k : l ≡ₚ k -> List.filter f l ≡ₚ List.filter f k.
Proof.
  induction 1 as [|x l k _ IH|x y l|l k m _ IH1 _ IH2]; cbn; [done| | |by etrans].
  - by destruct (f x); rewrite IH.
  - destruct (f x), (f y); first [apply perm_swap | reflexivity].
Qed.

Lemma rows_after_perm since v :
  rows_after since v ≡ₚ List.filter (fun p => since <? it_revision p.2) (map_to_list (v_items v)).
Proof. apply sort_by_key_perm. Qed.

Lemma elem_of_rows_after since v i r :
  (i, r) ∈ rows_after since v <-> v_items v !! i = Some r /\ since < it_revision r.
Proof. rewrite rows_after_perm, elem_of_filter_, elem_of_map_to_list. cbn. rewrite Z.ltb_lt. tauto. Qed.

Lemma elem_of_rows_between since t v i r :
  (i, r) ∈ rows_between since t v <-> v_items v !! i = Some r /\ since < it_revision r <= t.
Proof. unfold rows_between. rewrite elem_of_filter_, elem_of_rows_after. cbn. rewrite Z.leb_le. tauto. Qed.

Lemma rows_after_nodup since v : NoDup (map fst (rows_after since v)).
Proof.
  rewrite (rows_after_perm since v). apply NoDup_fst_filter, NoDup_fst_map_to_list.
Qed.

Lemma rows_between_nodup since t v : NoDup (map fst (rows_between since t v)).
Proof. apply NoDup_fst_filter, rows_after_nodup. Qed.

Abbreviation rev_of p := (it_revision (snd p)).

Lemma strongly_sorted_impl {A} (R S : relation A) l :
  (forall x y, R x y -> S x y) -> StronglySorted R l -> StronglySorted S l.
Proof. intros HRS. induction 1 as [|x l _ IH Hx]; constructor; [done|]. eapply Forall_impl; [exact Hx|auto]. Qed.

Lemma rows_after_ordered since v : ordered (fun p => rev_of p) (rows_after since v).
Proof.
  unfold ordered, rows_after. eapply strongly_sorted_impl; [|apply sort_by_key_sorted].
  intros [i r] [j q]. unfold key_le, cmp_le, cmp, prod_cmp. cbn. unfold cmp, Z_cmp, then_cmp.
  destruct (Z.compare_spec (it_revision r) (it_revision q)); [lia|lia|done].
Qed.

Lemma ordered_map {A B} (f : A -> B) (key : B -> Z) l : ordered (fun x => key (f x)) l -> ordered key (map f l).
Proof.
  induction 1 as [|x l Hl IH Hx]; constructor; [done|]. apply Forall_forall.
  intros y (z & -> & Hz)%list_elem_of_fmap. by apply (proj1 (Forall_forall _ _) Hx).
Qed.

Lemma boundary_map {A B} (f : A -> B) (key : B -> Z) e l :
  boundary key e (map f l) -> boundary (fun x => key (f x)) e l.
Proof.
  intros Hb x y Hx Hy. apply Hb.
  - rewrite <- fmap_take. by apply list_elem_of_fmap_2.
  - rewrite <- fmap_drop. by apply list_elem_of_fmap_2.
Qed.

(** The rows of one revision after the cursor are those of the vault. *)
Lemma run_bounded since v n r :
  vault_ok v ->
  (run_of fst r (drop n (take WINDOW (map (fun p => (it_revision p.2, row_size p.2)) (rows_after since v))))
     <= MAX_PULL_PAGE)%nat.
Proof.
  intros Hok. etrans; [apply run_of_le|]. etrans; [apply filter_drop_length|].
  assert (forall (l : list (Z * ItemRow)) k,
    (length (List.filter (fun x => (x.1 =? r)%Z) (take k (map (fun p => (it_revision p.2, row_size p.2)) l)))
     <= length (List.filter (fun p => rev_of p =? r)%Z l))%nat) as Hm.
  { induction l as [|p l IH]; intros [|k]; cbn; try lia. specialize (IH k). destruct (_ =? r); cbn; lia. }
  etrans; [apply Hm|]. etrans; [|apply (rev_rows _ Hok r)]. unfold revision_rows.
  rewrite (filter_perm _ _ _ (rows_after_perm since v)).
  induction (map_to_list (v_items v)) as [|p l IH]; cbn; [lia|].
  destruct (since <? rev_of p)%Z; cbn; destruct (rev_of p =? r)%Z; cbn; lia.
Qed.

Lemma rows_through since v e x :
  boundary (fun p => rev_of p) (S e) (rows_after since v) -> rows_after since v !! e = Some x ->
  rows_between since (rev_of x) v = take (S e) (rows_after since v).
Proof.
  intros Hb Hx. unfold rows_between. pose proof (rows_after_ordered since v) as Hs.
  rewrite <- (take_drop (S e) (rows_after since v)) at 1. rewrite List.filter_app.
  assert (x ∈ take (S e) (rows_after since v)) as Hin by (apply elem_of_take; exists e; split; [done|lia]).
  assert (forall (f : Z * ItemRow -> bool) l, (forall y, y ∈ l -> f y = true) -> List.filter f l = l) as Hall.
  { intros f. induction l as [|y l IH]; intros Hy; [done|]. cbn. rewrite (Hy y) by by left. rewrite IH; [done|].
    intros z Hz. apply Hy. by right. }
  assert (forall (f : Z * ItemRow -> bool) l, (forall y, y ∈ l -> f y = false) -> List.filter f l = []) as Hnone.
  { intros f. induction l as [|y l IH]; intros Hy; [done|]. cbn. rewrite (Hy y) by by left. apply IH.
    intros z Hz. apply Hy. by right. }
  rewrite Hall, Hnone, app_nil_r; [done| |].
  - intros y Hy. apply Z.leb_gt. by apply Hb.
  - intros y Hy. apply Z.leb_le. apply (ordered_last (fun p => rev_of p) (take (S e) (rows_after since v)) x);
      [by apply ordered_take| |done].
    rewrite (take_S_r _ _ _ Hx), last_snoc. done.
Qed.

(** What one page of a well-formed vault holds: the rows of whole
    revisions, all those after the cursor it was asked with and up to the
    cursor it names. *)
Record page_of (since : Z) (v : VaultRow) (p : Page) : Prop := {
  page_rows : pg_rows p = rows_between since (pg_cursor p) v;
  page_small : (length (pg_rows p) <= MAX_PULL_PAGE)%nat;
  page_more : pg_has_more p = true <-> exists i r, v_items v !! i = Some r /\ pg_cursor p < it_revision r /\ since < it_revision r;
  page_end : (rows_after since v = [] /\ pg_cursor p = v_revision v /\ pg_rows p = []) \/
             (since < pg_cursor p <= v_revision v /\ exists x, x ∈ pg_rows p /\ rev_of x = pg_cursor p);
}.

Lemma page_exists since v :
  vault_ok v -> 0 <= since -> exists p, pull since v = Ok p /\ page_of since v p.
Proof.
  intros Hok H0. unfold pull. destruct (Z.ltb_spec since 0); [lia|].
  set (L := rows_after since v). set (f := fun p : Z * ItemRow => (it_revision p.2, row_size p.2)).
  set (sized := take WINDOW (map f L)). cbv zeta.
  assert (ordered fst sized) as Hs by (apply ordered_take, ordered_map, rows_after_ordered).
  destruct (page_len_spec sized (length sized =? WINDOW)%nat) as (Hb & Hle & Hcap & Hpos & Hfull).
  { done. } { intros n r. by apply run_bounded. }
  { intros Hf%Nat.eqb_eq. rewrite Hf. unfold WINDOW, MAX_PULL_PAGE, MAX_CHANGES_PER_BATCH. lia. }
  set (e := page_len sized (length sized =? WINDOW)%nat) in *.
  destruct (decide (L = [])) as [HL|HL].
  { assert (sized = []) as Hn by (unfold sized; rewrite HL; by destruct WINDOW).
    rewrite Hn in *. cbn [length] in *. assert (e = 0)%nat as -> by lia. cbn. eexists; split; [done|].
    split; cbn; [| |split; [done|]|by left].
    - symmetry. unfold rows_between. fold L. by rewrite HL.
    - lia.
    - intros (i & r & Hi & Hc & Hsi). assert ((i, r) ∈ L) as Hin by (by apply elem_of_rows_after).
      rewrite HL in Hin. by apply elem_of_nil in Hin. }
  assert (sized <> []) as Hne.
  { unfold sized. destruct L as [|x L']; [done|]. unfold WINDOW, MAX_PULL_PAGE. by cbn. }
  specialize (Hpos Hne). rewrite (bool_decide_eq_false_2 _ Hne). destruct e as [|e'] eqn:Ee; [lia|]. cbn [Nat.eqb andb].
  destruct (lookup_lt_is_Some_2 sized e') as [[t sz] Ht]; [lia|]. rewrite Ht.
  assert (exists x, L !! e' = Some x /\ rev_of x = t) as (x & Hx & Hxt).
  { unfold sized in Ht. apply lookup_take_Some in Ht as [Ht _].
    apply list_lookup_fmap_Some in Ht as (x & Hft & Hx). injection Hft as -> _. by exists x. }
  assert (boundary (fun p => rev_of p) (S e') L) as HbL.
  { intros u w Hu Hw. assert (length sized <= WINDOW)%nat as Hlw by (unfold sized; rewrite length_take; lia).
    assert (boundary (fun p => rev_of p) (S e') (take WINDOW L)) as HbW.
    { apply (boundary_map f fst). unfold sized in Hb. by rewrite fmap_take. }
    rewrite <- (take_drop WINDOW L), drop_app in Hw.
    assert (take (S e') L = take (S e') (take WINDOW L)) as HtL by (rewrite take_take; f_equal; lia).
    apply elem_of_app in Hw as [Hw|Hw]; [apply HbW; [by rewrite <- HtL|done]|].
    destruct (decide (length sized = WINDOW)) as [Hf|Hf].
    - specialize (Hfull (proj2 (Nat.eqb_eq _ _) Hf)).
      destruct (lookup_lt_is_Some_2 (take WINDOW L) (S e')) as [m Hm].
      { assert (length sized = length (take WINDOW L)) as HsL.
        { unfold sized. by rewrite length_take, length_map, length_take. }
        lia. }
      assert (rev_of u < rev_of m).
      { apply HbW; [by rewrite <- HtL|]. by rewrite (drop_S _ _ _ Hm); left. }
      assert (rev_of m <= rev_of w); [|lia].
      apply (ordered_cut (fun p => rev_of p) WINDOW L); [apply rows_after_ordered| |].
      + by eapply list_elem_of_lookup_2.
      + assert (forall k l, w ∈ drop k l -> w ∈ (l : list (Z * ItemRow))) as Hdrop.
        { intros k l Hk. rewrite <- (take_drop k l). apply elem_of_app. by right. }
        by apply Hdrop in Hw.
    - assert (drop WINDOW L = []) as Hd.
      { apply drop_ge. unfold sized in Hf. rewrite length_take, length_map in Hf. lia. }
      rewrite Hd in Hw. destruct (S e' - _)%nat; by apply elem_of_nil in Hw. }
  eexists; split; [done|]. cbn [pg_cursor pg_has_more pg_rows].
  assert (rows_between since t v = take (S e') L) as Hrb by (rewrite <- Hxt; by apply rows_through).
  assert (x ∈ take (S e') L) as Hin by (apply elem_of_take; exists e'; split; [done|lia]).
  assert (x ∈ L) as HinL by (by eapply list_elem_of_lookup_2).
  split; cbn [pg_cursor pg_has_more pg_rows].
  - done.
  - rewrite Hrb, length_take. lia.
  - rewrite Nat.ltb_lt. split.
    + intros Hlt. destruct (lookup_lt_is_Some_2 sized (S e')) as [[t2 s2] Ht2]; [lia|].
      unfold sized in Ht2. apply lookup_take_Some in Ht2 as [Ht2 _].
      apply list_lookup_fmap_Some in Ht2 as ([i r] & Hft & Hir).
      assert ((i, r) ∈ L) as Hmem by (by eapply list_elem_of_lookup_2).
      exists i, r. apply elem_of_rows_after in Hmem as [Hi Hsi]. split_and!; [done| |done].
      rewrite <- Hxt. apply (HbL x (i, r)); [done|]. by rewrite (drop_S _ _ _ Hir); left.
    + intros (i & r & Hi & Htr & Hsi). assert ((i, r) ∈ L) as Hmem by (by apply elem_of_rows_after).
      rewrite <- (take_drop (S e') L) in Hmem. apply elem_of_app in Hmem as [Hm|Hm].
      { rewrite <- Hrb in Hm. apply elem_of_rows_between in Hm. lia. }
      destruct (decide (length sized = WINDOW)) as [Hf|Hf]; [apply Hfull; by apply Nat.eqb_eq|].
      assert (length sized = length L) as Hsl by (unfold sized in *; rewrite length_take, length_map in *; lia).
      apply list_elem_of_lookup in Hm as (j & Hj). rewrite lookup_drop in Hj. apply lookup_lt_Some in Hj. lia.
  - right. destruct x as [i r]. apply elem_of_rows_after in HinL as [Hi Hsi]. cbn in Hxt. subst t.
    pose proof (row_revs _ Hok _ _ Hi). split; [lia|]. exists (i, r). by rewrite Hrb.
Qed.

(** ** Writes *)

(** A batch the server will look at: 1 to 500 changes, each of a different
    item, each a new version with both blobs or a deletion with none. *)
Definition change_ok (c : Change) : Prop :=
  (if ch_deleted c then ch_overview c = None /\ ch_details c = None
   else is_Some (ch_overview c) /\ is_Some (ch_details c)) /\
  (forall ids, ch_attachments c = Some ids ->
     ch_deleted c = false /\ (length ids <= MAX_ATTACHMENTS_PER_ITEM)%nat /\ NoDup ids).
Definition batch_ok (cs : list Change) : Prop :=
  cs <> [] /\ (length cs <= MAX_CHANGES_PER_BATCH)%nat /\ Forall change_ok cs /\ NoDup (map ch_item cs).

(** The change was made against another state of its item. *)
Definition stale (items : gmap Z ItemRow) (c : Change) : Prop :=
  ch_base c <> it_revision <$> items !! ch_item c \/
  exists r, items !! ch_item c = Some r /\ it_deleted r = true /\ ch_deleted c = true.

(** A listed file is not one of the change's item. *)
Definition unknown_file (files : gmap Z FileRow) (c : Change) : Prop :=
  exists ids i, ch_attachments c = Some ids /\ ch_deleted c = false /\ i ∈ ids /\
    forall f, files !! i = Some f -> at_item f <> ch_item c.

Lemma check_change_spec c :
  (check_change c = Ok () /\ change_ok c) \/ (check_change c = Err (InvalidRequest "change is not valid") /\ ~ change_ok c).
Proof.
  unfold check_change. match goal with |- context [if ?b then Ok _ else _] => assert (b = true <-> change_ok c) as Hb end.
  { rewrite andb_true_iff. unfold change_ok, attachment_ids_valid. f_equiv.
    - destruct (ch_deleted c), (ch_overview c), (ch_details c); cbn; unfold is_Some; split; try done; naive_solver.
    - destruct (ch_attachments c) as [ids|]; [|by split].
      rewrite !andb_true_iff, negb_true_iff, Nat.leb_le, bool_decide_eq_true.
      split; [|by intros Hi; destruct (Hi ids) as (? & ? & ?)].
      intros [[? ?] ?] ? [= <-]. done. }
  match type of Hb with ?b = true <-> _ => destruct b end; [left|right]; (split; [done|]); [by apply Hb|].
  intros Hc. apply Hb in Hc. done.
Qed.

Lemma check_each_spec seen cs :
  (check_each seen cs = Ok () /\ Forall change_ok cs /\ NoDup (map ch_item cs) /\ forall i, i ∈ map ch_item cs -> i ∉ seen) \/
  ((exists m, check_each seen cs = Err (InvalidRequest m)) /\
   ~ (Forall change_ok cs /\ NoDup (map ch_item cs) /\ forall i, i ∈ map ch_item cs -> i ∉ seen)).
Proof.
  revert seen. induction cs as [|c cs IH]; intros seen; cbn [check_each map].
  { left. split_and!; [done..|constructor|]. by intros i ?%elem_of_nil. }
  destruct (check_change_spec c) as [[-> Hc]|[-> Hc]]; cbn [mbind result_bind].
  2: { right. split; [by eexists|]. intros (Hf & _). by apply Forall_cons in Hf as [? _]. }
  destruct (decide (ch_item c ∈ seen)) as [Hs|Hs].
  { rewrite bool_decide_eq_true_2 by done. right. split; [by eexists|]. intros (_ & _ & Hn). apply (Hn (ch_item c)); [by left|done]. }
  rewrite bool_decide_eq_false_2 by done. destruct (IH ({[ch_item c]} ∪ seen)) as [(-> & H1 & H2 & H3)|([m ->] & Hno)].
  - left. split_and!; [done|by constructor| |].
    + constructor; [|done]. intros Hi. apply (H3 _ Hi). set_solver.
    + intros i [->|Hi]%elem_of_cons; [done|]. specialize (H3 i Hi). set_solver.
  - right. split; [by eexists|]. intros (Hf & Hn & Hd). apply Forall_cons in Hf as [_ Hf].
    apply NoDup_cons in Hn as [Hi Hn]. apply Hno. split_and!; [done..|].
    intros i Hin. specialize (Hd i). rewrite elem_of_cons in Hd. specialize (Hd (or_intror Hin)).
    intros [->%elem_of_singleton|]%elem_of_union; done.
Qed.

Lemma check_batch_spec cs :
  (check_batch cs = Ok () /\ batch_ok cs) \/ ((exists m, check_batch cs = Err (InvalidRequest m)) /\ ~ batch_ok cs).
Proof.
  unfold check_batch, batch_ok. destruct (decide (cs = [])) as [->|Hne]; [right; split; [by eexists|naive_solver]|].
  rewrite bool_decide_eq_false_2 by done. destruct (Nat.ltb_spec MAX_CHANGES_PER_BATCH (length cs)).
  { right. split; [by eexists|]. intros (_ & ? & _). lia. }
  destruct (check_each_spec ∅ cs) as [(-> & H1 & H2 & _)|([m ->] & Hno)]; [by left|].
  right. split; [by eexists|]. intros (_ & _ & H1 & H2). apply Hno. split_and!; [done..|]. set_solver.
Qed.

Lemma conflict_spec items c :
  match conflict_of items c with Some k => cf_item k = ch_item c /\ stale items c | None => ~ stale items c end.
Proof.
  unfold conflict_of, stale. destruct (items !! ch_item c) as [r|]; cbn.
  - destruct (decide (ch_base c = Some (it_revision r))) as [He|He].
    + rewrite bool_decide_eq_true_2 by done. cbn. destruct (it_deleted r) eqn:Ed, (ch_deleted c) eqn:Ec; cbn;
        [split; [done|right; by eauto]|..]; intros [?|(? & [= <-] & ? & ?)]; congruence.
    + rewrite bool_decide_eq_false_2 by done. cbn. split; [done|by left].
  - destruct (ch_base c); cbn; [split; [done|by left]|]. intros [?|(? & ? & _)]; done.
Qed.

Lemma find_conflicts_spec cs items i :
  i ∈ map cf_item (find_conflicts cs items) <-> exists c, c ∈ cs /\ ch_item c = i /\ stale items c.
Proof.
  unfold find_conflicts. split.
  - intros (k & -> & Hk)%list_elem_of_fmap. apply list_elem_of_omap in Hk as (c & Hc & He).
    pose proof (conflict_spec items c) as Hs. rewrite He in Hs. exists c. naive_solver.
  - intros (c & Hc & <- & Hs). pose proof (conflict_spec items c) as Hk.
    destruct (conflict_of items c) as [k|] eqn:Ek; [|done]. destruct Hk as [<- _].
    apply list_elem_of_fmap_2. apply list_elem_of_omap. eauto.
Qed.

(** The files of other items are left alone. *)
Definition own_files_only (item : Z) (files files' : gmap Z FileRow) : Prop :=
  forall i, match files !! i with
            | None => files' !! i = None
            | Some f => if at_item f =? item
                        then forall f', files' !! i = Some f' -> at_item f' = at_item f /\ at_blob f' = at_blob f
                        else files' !! i = Some f
            end.

Lemma keep_listed_spec item listed files :
  match keep_listed item listed files with
  | Ok files' => own_files_only item files files'
  | Err e => e = InvalidRequest "unknown attachment" /\
             exists i, i ∈ listed /\ forall f, files !! i = Some f -> at_item f <> item
  end.
Proof.
  unfold keep_listed. set (mine := fun i => _).
  destruct (Nat.eqb_spec (length (List.filter mine listed)) (length listed)) as [He|He]; cbn [negb].
  - intros i. rewrite map_lookup_imap. destruct (files !! i) as [f|]; cbn; [|done].
    destruct (at_item f =? item); [|done]. destruct (bool_decide _); [by intros f' [= <-]|done].
  - split; [done|]. induction listed as [|i l IH]; [done|]. cbn [List.filter length] in *.
    destruct (mine i) eqn:Eo.
    + destruct IH as (j & Hj & Hf); [cbn in He; lia|]. exists j. split; [by right|done].
    + exists i. split; [by left|]. intros f Hf. unfold mine in Eo. rewrite Hf in Eo. by apply Z.eqb_neq in Eo.
Qed.

Lemma apply_attachments_spec c files :
  match apply_attachments c files with
  | Ok files' => own_files_only (ch_item c) files files'
  | Err e => e = InvalidRequest "unknown attachment" /\ unknown_file files c
  end.
Proof.
  unfold apply_attachments. destruct (ch_deleted c) eqn:Ed.
  - pose proof (keep_listed_spec (ch_item c) [] files) as Hk. destruct (keep_listed _ _ _); [done|].
    destruct Hk as (_ & i & Hi & _). by apply elem_of_nil in Hi.
  - destruct (ch_attachments c) as [ids|] eqn:Ea.
    + pose proof (keep_listed_spec (ch_item c) ids files) as Hk. destruct (keep_listed _ _ _); [done|].
      destruct Hk as (? & i & Hi & Hf). split; [done|]. by exists ids, i.
    + intros i. destruct (files !! i) as [f|]; [|done]. destruct (at_item f =? ch_item c); [by intros ? [= <-]|done].
Qed.

(** What a batch of different items leaves of each item, and of the files
    of the items it does not name. *)
Lemma apply_each_spec rev cs items files :
  NoDup (map ch_item cs) ->
  match apply_each rev cs (items, files) with
  | Ok t =>
      (forall c, c ∈ cs -> t.1 !! ch_item c = Some (row_of_change rev c)) /\
      (forall i, i ∉ map ch_item cs -> t.1 !! i = items !! i) /\
      (forall i f, files !! i = Some f -> at_item f ∉ map ch_item cs -> t.2 !! i = Some f)
  | Err e => e = InvalidRequest "unknown attachment" /\ exists c, c ∈ cs /\ unknown_file files c
  end.
Proof.
  revert items files. induction cs as [|c cs IH]; intros items files Hn; cbn [apply_each].
  { split_and!; [by intros ? ?%elem_of_nil|done..]. }
  cbn [map] in Hn. apply NoDup_cons in Hn as [Hc Hn]. unfold apply_change. cbn [fst snd].
  pose proof (apply_attachments_spec c files) as Ha.
  destruct (apply_attachments c files) as [files1|e]; cbn [mbind result_bind].
  2: { destruct Ha as [-> Ha]. split; [done|]. exists c. split; [by left|done]. }
  specialize (IH (<[ch_item c := row_of_change rev c]> items) files1 Hn).
  destruct (apply_each rev cs _) as [t|e].
  - destruct IH as (I1 & I2 & I3). split_and!.
    + intros x [->|Hx]%elem_of_cons; [|by apply I1]. rewrite I2 by done. apply lookup_insert_eq.
    + intros i [Hne Hi]%not_elem_of_cons. rewrite I2 by done. by apply lookup_insert_ne.
    + intros i f Hf [Hne Hi]%not_elem_of_cons. apply I3; [|done].
      specialize (Ha i). rewrite Hf in Ha. destruct (Z.eqb_spec (at_item f) (ch_item c)); [done|done].
  - destruct IH as [-> (x & Hx & ids & i & H1 & H2 & H3 & H4)]. split; [done|]. exists x. split; [by right|].
    exists ids, i. split_and!; [done..|]. intros f Hf. specialize (Ha i). rewrite Hf in Ha.
    destruct (Z.eqb_spec (at_item f) (ch_item c)) as [He|He]; [|by apply H4].
    rewrite He. intros Hx'. apply Hc. rewrite Hx'. by apply list_elem_of_fmap_2.
Qed.

Definition change_fits (c : Change) : Prop := fits (ch_overview c) /\ fits (ch_details c).

Lemma vault_ok_written v cs items' files' :
  vault_ok v -> batch_ok cs -> Forall change_fits cs -> v_revision v < i64_max ->
  (forall c, c ∈ cs -> items' !! ch_item c = Some (row_of_change (v_revision v + 1) c)) ->
  (forall i, i ∉ map ch_item cs -> items' !! i = v_items v !! i) ->
  vault_ok (set_items_row (v_revision v + 1) items' files' v).
Proof.
  intros [R1 R2 R3 R5 R4] (_ & Hlen & Hok & Hn) Hfit Hmax Hin Hout.
  assert (forall i r, items' !! i = Some r ->
    (exists c, c ∈ cs /\ i = ch_item c /\ r = row_of_change (v_revision v + 1) c) \/
    (i ∉ map ch_item cs /\ v_items v !! i = Some r)) as Hcase.
  { intros i r Hi. destruct (decide (i ∈ map ch_item cs)) as [Hm|Hm].
    - apply list_elem_of_fmap in Hm as (c & -> & Hc). left. exists c. rewrite (Hin c Hc) in Hi. by injection Hi as <-.
    - right. by rewrite <- Hout. }
  assert (forall c, it_revision (row_of_change (v_revision v + 1) c) = v_revision v + 1) as Hrev.
  { intros c. unfold row_of_change. by destruct (ch_deleted c). }
  split; cbn [v_revision v_items set_items_row]; [lia| | | |].
  - intros i r [(c & _ & -> & ->)|[_ Hi]]%Hcase; [rewrite Hrev; lia|]. apply R2 in Hi. lia.
  - intros i r [(c & Hc & -> & ->)|[_ Hi]]%Hcase; [|by eapply R3].
    rewrite Forall_forall in Hok. specialize (Hok c Hc) as [Hs _]. unfold row_shape, row_of_change.
    by destruct (ch_deleted c).
  - intros i r [(c & Hc & -> & ->)|[_ Hi]]%Hcase; [|by eapply R5].
    rewrite Forall_forall in Hfit. specialize (Hfit c Hc). unfold row_of_change.
    by destruct (ch_deleted c).
  - intros n. destruct (decide (n = v_revision v + 1)) as [->|Hne].
    + rewrite <- (length_map fst), <- (length_map ch_item cs) in *.
      etrans; [|exact Hlen]. apply submseteq_length, NoDup_submseteq.
      { unfold revision_rows. apply NoDup_fst_filter, NoDup_fst_map_to_list. }
      intros i ([j r] & -> & Hj)%list_elem_of_fmap. apply elem_of_filter_ in Hj as [He Hj].
      apply elem_of_map_to_list in Hj. cbn in *. apply Z.eqb_eq in He.
      apply Hcase in Hj as [(c & Hc & -> & _)|[_ Hj]]; [by apply list_elem_of_fmap_2|].
      apply R2 in Hj. lia.
    + etrans; [|apply (R4 n)]. apply submseteq_length, NoDup_submseteq.
      { apply NoDup_filter_, NoDup_map_to_list. }
      intros [i r] Hi. apply elem_of_filter_ in Hi as [He Hi]. apply elem_of_filter_. split; [done|].
      apply elem_of_map_to_list in Hi. apply elem_of_map_to_list.
      apply Hcase in Hi as [(c & _ & -> & ->)|[_ Hi]]; [|done]. cbn in He. rewrite Hrev in He. apply Z.eqb_eq in He. lia.
Qed.

(** An accepted batch. *)
Lemma write_accepted e max cs v v' :
  vault_ok v -> Forall change_fits cs -> write e max cs v = Ok (Accepted v') ->
  e = EFull /\ batch_ok cs /\ (forall c, c ∈ cs -> ~ stale (v_items v) c) /\
  vault_ok v' /\ v_revision v' = v_revision v + 1 /\
  (forall c, c ∈ cs -> v_items v' !! ch_item c = Some (row_of_change (v_revision v') c)) /\
  (forall i, i ∉ map ch_item cs -> v_items v' !! i = v_items v !! i) /\
  v_header v' = v_header v /\ v_header_revision v' = v_header_revision v /\ v_id v' = v_id v.
Proof.
  intros Hok Hfit. unfold write. intros ([] & He & Hw)%bind_Ok. destruct e; [|done].
  apply bind_Ok in Hw as ([] & Hb & Hw).
  destruct (check_batch_spec cs) as [[_ Hbo]|[[m Hm] _]]; [|congruence].
  pose proof (find_conflicts_spec cs (v_items v)) as Hc.
  destruct (find_conflicts cs (v_items v)) as [|k l] eqn:Ef; [|done].
  assert (forall c, c ∈ cs -> ~ stale (v_items v) c) as Hfresh.
  { intros c Hin Hs. apply (not_elem_of_nil (ch_item c)). apply (Hc (ch_item c)). eauto. }
  destruct (Z.eqb_spec (v_revision v) i64_max); [done|]. cbv zeta in Hw. apply bind_Ok in Hw as (t & Ht & Hw).
  destruct Hbo as (Hne & Hlen & Hcs & Hn).
  pose proof (apply_each_spec (v_revision v + 1) cs (v_items v) (v_files v) Hn) as Ha.
  rewrite Ht in Ha. destruct Ha as (A1 & A2 & _). destruct (_ && _); [done|]. injection Hw as <-.
  split_and!; [done..| |done|exact A1|exact A2|done|done|done].
  apply (vault_ok_written v cs); try done. pose proof (rev_range _ Hok). lia.
Qed.


(** ** Requests *)

Section Requests.
Context {C : Crypto} {H : HeaderLib} {Ck : Clock}.
Context {S1 : Serde ErrorBody} {S2 : Serde PullDto} {S3 : Serde WriteBody} {S4 : Serde WriteAckDto}.
Context {S5 : Serde ConflictsDto} {S6 : Serde FetchBody} {S7 : Serde FetchDto} {S8 : Serde HeaderDto}.
Context {S9 : Serde AttachmentPutBody} {S10 : Serde AttachmentDto}.

Definition db_ok (db : Db) : Prop :=
  forall x a v, accounts db !! x = Some a -> a_vault a = Some v -> vault_ok v.

Lemma blob_from_fits raw b : blob_from raw = Some b -> len b <= MAX_BLOB_BYTES.
Proof.
  unfold blob_from. destruct (_ <? _); [done|]. destruct (base64_decode raw) as [x|]; [|done]. cbn.
  destruct (Z.ltb_spec MAX_BLOB_BYTES (len x)); [done|]. by intros [= <-].
Qed.

Lemma change_from_fits d c : change_from d = Some c -> change_fits c.
Proof.
  assert (forall raw o, opt_blob raw = Some o -> fits o) as Ho.
  { intros [raw|] o; cbn; [|by intros [= <-] ?]. destruct (blob_from raw) as [b|] eqn:E; [|done].
    intros [= <-] x [= <-]. by eapply blob_from_fits. }
  unfold change_from. destruct (opt_blob (cd_overview d)) as [ov|] eqn:E1; [|done].
  destruct (opt_blob (cd_details d)) as [det|] eqn:E2; [|done]. intros [= <-]. split; cbn; eauto.
Qed.

Lemma changes_from_fit ds cs : mapM change_from ds = Some cs -> Forall change_fits cs.
Proof.
  revert cs. induction ds as [|d ds IH]; intros cs; cbn; [by intros [= <-]|].
  destruct (change_from d) as [c|] eqn:Ec; [|done]. cbn. destruct (mapM change_from ds) as [cs'|]; [|done]. cbn.
  intros [= <-]. constructor; [by eapply change_from_fits|by apply IH].
Qed.

(** A vault row after a request: the same, or one accepted batch or upload
    later. *)
Definition advanced (v v' : VaultRow) : Prop :=
  vault_ok v' /\ v_revision v <= v_revision v' /\ v_id v' = v_id v /\
  v_header v' = v_header v /\ v_header_revision v' = v_header_revision v.

Lemma put_attachment_advanced e max id item b v v' :
  vault_ok v -> put_attachment e max id item b v = Ok v' -> advanced v v' /\ v_items v' = v_items v.
Proof.
  intros Hok. unfold put_attachment. intros ([] & _ & Hp)%bind_Ok. destruct (_ <? _); [done|].
  destruct (v_files v !! id) as [f|].
  - destruct (_ && _); [|done]. injection Hp as <-. split; [|done]. unfold advanced. by split_and!.
  - destruct (_ <? _); [done|]. destruct (_ <? _); [done|]. injection Hp as <-. split; [|done].
    unfold advanced. split_and!; [|done..]. destruct Hok. by split.
Qed.

Lemma session_row_found hash db c :
  session_row hash db = Some c ->
  exists s a d, sessions db !! hash = Some s /\ accounts db !! account_id c = Some a /\ devices db !! device_id c = Some d /\
    ss_account s = account_id c /\ ss_device s = device_id c /\ a_vault a = Some (vault c) /\ now db < ss_expires s /\
    a_status a = AActive /\ dv_revoked d = false /\ token_hash c = hash.
Proof.
  unfold session_row. destruct (sessions db !! hash) as [s|] eqn:Es; [|done]. cbn.
  destruct (accounts db !! ss_account s) as [a|] eqn:Ea; [|done]. cbn.
  destruct (devices db !! ss_device s) as [d|] eqn:Ed; [|done]. cbn.
  destruct (a_vault a) as [v|] eqn:Ev; [|done]. cbn. destruct (_ && _) eqn:Eg; [|done]. intros [= <-]. cbn.
  apply andb_true_iff in Eg as [[E1%Z.ltb_lt E2%bool_decide_eq_true]%andb_true_iff E3%negb_true_iff].
  exists s, a, d. done.
Qed.

Lemma authorize_spec raw db :
  match authorize raw db with
  | (db', Ok c) => db' = seen (device_id c) db /\ exists t, raw = Some t /\ session_row (hash_of t) db = Some c
  | (db', Err e) => db' = db /\ (e = Unauthorized \/ e = AccountDeleted)
  end.
Proof.
  unfold authorize. destruct raw as [t|]; [|by auto]. destruct (_ || _); [by auto|].
  destruct (session_row (hash_of t) db) as [c|] eqn:E; [by eauto|].
  destruct (deleted_sessions db !! hash_of t); [destruct (_ <? _)|]; auto.
Qed.

Lemma handle_accounts c req db db' r a :
  accounts db !! account_id c = Some a -> a_vault a = Some (vault c) -> vault_ok (vault c) ->
  handle c req db = Ok (db', r) ->
  accounts db' = accounts db \/
  exists v', advanced (vault c) v' /\ accounts db' = accounts (set_vault (account_id c) v' db).
Proof.
  intros Ha Hv Hok. unfold handle.
  destruct (method req), (path req) as [since| | | | |id|id| | | | | | | | | | | | | | |pid suf];
    try (by intros [= <- _]; left);
    try (by intros (? & _ & [= <- _])%bind_Ok; left).
  - intros (cs & Hcs & Hw)%bind_Ok. apply bind_Ok in Hw as (w & Hw & Hr).
    destruct w as [v'|l]; injection Hr as <- _; [|by left]. right. exists v'. split; [|done].
    unfold json in Hcs. destruct (req_body req) as [b|]; [|done]. cbn in Hcs.
    destruct (from_json b) as [d|]; [|done]. cbn in Hcs.
    destruct (mapM change_from (wb_changes d)) as [cs'|] eqn:Em; [|done]. injection Hcs as ->.
    apply changes_from_fit in Em.
    destruct (write_accepted _ _ _ _ _ Hok Em Hw) as (_ & _ & _ & H1 & H2 & _ & _ & H3 & H4 & H5).
    unfold advanced. split_and!; try done. lia.
  - intros (ids & _ & (x & _ & [= <- _])%bind_Ok)%bind_Ok. by left.
  - intros (b & _ & (v' & Hp & [= <- _])%bind_Ok)%bind_Ok. right. exists v'. split; [|done].
    by eapply put_attachment_advanced.
  - destruct (devices db !! id) as [d|]; [|done]. destruct (_ && _); [|done]. intros [= <- _]. by left.
Qed.

(** A request keeps every vault well formed. *)
Lemma serve_ok req db : db_ok db -> db_ok (serve req db).1.
Proof.
  intros Hdb. unfold serve. pose proof (authorize_spec (req_token req) db) as Ha.
  destruct (authorize (req_token req) db) as [db1 [c|e]]; [|by destruct Ha as [-> _]].
  destruct Ha as [-> (t & _ & Hs)]. apply session_row_found in Hs as (s & a & d & _ & Hacc & _ & _ & _ & Hv & _).
  destruct (handle c req _) as [[db' r]|e] eqn:Eh; cbn [fst]; [|done].
  assert (vault_ok (vault c)) as Hvok by by eapply Hdb.
  eapply handle_accounts in Eh; [|exact Hacc|exact Hv|exact Hvok].
  intros x b v Hx Hb. destruct Eh as [Heq|(v' & [Hv' _] & Heq)]; [rewrite Heq in Hx; by eapply Hdb|].
  rewrite Heq in Hx. cbn [set_vault accounts seen] in Hx.
  destruct (decide (x = account_id c)) as [->|Hne].
  - rewrite lookup_alter_eq, Hacc in Hx. injection Hx as <-. cbn in Hb. by injection Hb as <-.
  - rewrite lookup_alter_ne in Hx by done. by eapply Hdb.
Qed.

(** The database with another row for one account. *)
Definition with_account (x : Z) (a : option AccountRow) (db : Db) : Db :=
  {| accounts := partial_alter (fun _ => a) x (accounts db); devices := devices db; sessions := sessions db;
     deleted_sessions := deleted_sessions db; max_vault_bytes := max_vault_bytes db; now := now db |}.

(** The token of the request, if it has a session, is not of account [x]. *)
Definition foreign (x : Z) (req : HttpRequest) (db : Db) : Prop :=
  forall t s, req_token req = Some t -> sessions db !! hash_of t = Some s -> ss_account s <> x.

Lemma authorize_foreign x a req db :
  foreign x req db ->
  authorize (req_token req) (with_account x a db) =
    let '(db1, r) := authorize (req_token req) db in (with_account x a db1, r).
Proof.
  intros Hf. unfold authorize. destruct (req_token req) as [t|] eqn:Et; [|done]. destruct (_ || _); [done|].
  assert (session_row (hash_of t) (with_account x a db) = session_row (hash_of t) db) as ->.
  { unfold session_row. cbn [sessions with_account accounts devices now].
    destruct (sessions db !! hash_of t) as [s|] eqn:Es; [|done]. cbn [mbind option_bind].
    rewrite lookup_partial_alter_ne; [done|]. intros He. by apply (Hf t s). }
  by destruct (session_row (hash_of t) db).
Qed.

Ltac read_json x := match goal with |- context [json ?f ?b] => destruct (json f b) as [x|]; [|done] end.

Lemma handle_foreign x a c req db :
  account_id c <> x ->
  handle c req (with_account x a db) =
    match handle c req db with Ok (db', r) => Ok (with_account x a db', r) | Err e => Err e end.
Proof.
  intros Hne. assert (forall v, set_vault (account_id c) v (with_account x a db) =
    with_account x a (set_vault (account_id c) v db)) as Hset.
  { intros v. unfold set_vault, with_account. cbn [accounts devices sessions deleted_sessions max_vault_bytes now].
    f_equal. apply map_eq. intros i. destruct (decide (i = x)) as [->|Hi].
    - rewrite lookup_alter_ne, !lookup_partial_alter_eq by done. done.
    - rewrite lookup_partial_alter_ne by done. destruct (decide (i = account_id c)) as [->|Hj].
      + by rewrite !lookup_alter_eq, lookup_partial_alter_ne.
      + by rewrite !lookup_alter_ne, lookup_partial_alter_ne. }
  unfold handle. cbn [max_vault_bytes with_account now devices sessions deleted_sessions].
  destruct (method req), (path req) as [since| | | | |id|id| | | | | | | | | | | | | | |pid suf]; try done.
  - by destruct (pull since (vault c)).
  - by destruct (get_attachment id (vault c)).
  - read_json cs. cbn [mbind result_bind].
    destruct (write _ _ cs (vault c)) as [[v'|l]|]; cbn [mbind result_bind]; [by rewrite Hset|done..].
  - read_json ids. cbn [mbind result_bind]. by destruct (fetch ids (vault c)).
  - read_json b. cbn [mbind result_bind].
    destruct (put_attachment _ _ _ _ _ (vault c)); cbn [mbind result_bind]; [by rewrite Hset|done].
  - destruct (devices db !! id) as [d|]; [|done]. by destruct (_ && _).
Qed.

End Requests.
