(* ===== verification/ServerAuth.v ===== *)
(** * The server's accounts and sign-in
      (crates/havenkeys-server: routes/auth.rs, pake.rs, email.rs, auth/mod.rs)

    The tables of Server.v with the rest of their columns and the tables only
    these routes use, and the handlers that turn a proof of the account's key
    into a session.  A handler is a computation of [M AuthDb ApiError]: an
    error keeps what was written before it, unless the writes are inside
    [transaction].  A row's columns that Server.v does not read are kept
    beside it under the same key.  Argon2id, OPAQUE and the Unicode and IP
    tables are [AuthLib]; fresh randomness is an argument. *)

From S2P Require Import Prelude Errors Text Blob Url Tags Totp Clean Card Identity.
From S2P Require Import CustomField Bank Sso Attachment Model Keys Store Origin Health BuildItem.
From S2P Require Import Vault Items Sync Wire Admission Server Dates Encoding.

(** [opaque-ke] behind havenkeys-opaque, the [argon2] crate, the general
    category Cf, and [IpAddr::parse] of an IPv6 address (its IPv4 form when
    it is mapped, else its segments). *)
Class AuthLib := {
  argon2_hash : list Z -> list Z -> list Z;
  argon2_verify : list Z -> list Z -> bool;
  dummy_verifier : list Z;
  opaque_start : list Z -> option (list Z) -> list Z -> list Z -> option (list Z * list Z);
  opaque_finish : list Z -> list Z -> bool;
  opaque_register : list Z -> list Z -> option (list Z);
  opaque_upload : list Z -> option (list Z);
  is_format : Z -> bool;
  ip_v6 : list Z -> option (list Z + list Z);
}.

Definition SESSION_TTL_HOURS : Z := 24.
Definition MAX_DEVICES_PER_ACCOUNT : nat := 64.
Definition MAX_DEVICE_NAME_CHARS : nat := 64.
Definition AUTH_KEY_LEN : nat := 32.
Definition MAX_MESSAGE_BYTES : Z := 512.
Definition PENDING_TTL_SECONDS : Z := 60.
Definition DEFAULT_MEMORY_KIB : Z := 128 * 1024.
Definition DEFAULT_ITERATIONS : Z := 4.
Definition DEFAULT_PARALLELISM : Z := 4.

(** ** The tables *)

(** The columns of [accounts] the vault routes do not read. *)
Record LoginRow := {
  lg_email : list Z;
  lg_memory : option Z;
  lg_iterations : option Z;
  lg_parallelism : option Z;
  lg_salt : option (list Z);
  lg_verifier : option (list Z);
  lg_record : option (list Z);
  lg_grace : option Z;
  lg_invite : option (list Z);
  lg_invite_expires : option Z;
  lg_terms : option (list Z);
  lg_locale : option (list Z);
  lg_created : Z;
  lg_created_by : list Z;
}.

(** The columns of [devices] beside those of Server.v. *)
Record DeviceCols := { dc_name : list Z; dc_created : Z; dc_approved_by : option Z }.

Inductive PairState := PairPending | PairApproved | PairDenied | PairClaimed.
#[export] Instance PairState_eq_dec : EqDecision PairState.
Proof. solve_decision. Defined.

Record PairingRow := {
  pr_state : PairState;
  pr_device : Z;
  pr_name : list Z;
  pr_hash : list Z;
  pr_ip : list Z;
  pr_location : option (list Z);
  pr_created : Z;
  pr_expires : Z;
  pr_account : option Z;
  pr_envelope : option (list Z);
}.

Inductive PakePurpose := Login | Reauth.
#[export] Instance PakePurpose_eq_dec : EqDecision PakePurpose.
Proof. solve_decision. Defined.

Record PendingRow := {
  pn_purpose : PakePurpose;
  pn_account : option Z;
  pn_state : list Z;
  pn_expires : Z;
}.

Record SignupRow := {
  su_hash : list Z;
  su_locale : list Z;
  su_terms : list Z;
  su_expires : Z;
  su_attempts : Z;
}.

Record AuthDb := {
  core : Db;
  logins : gmap Z LoginRow;
  device_cols : gmap Z DeviceCols;
  pairings : gmap (list Z) PairingRow;
  pake_pending : gmap (list Z) PendingRow;
  login_attempts : gmap (list Z) Attempts;
  deleted_devices : gmap (list Z) Z;
  signup_codes : gmap (list Z) SignupRow;
}.

Definition set_core (c : Db) (d : AuthDb) : AuthDb :=
  {| core := c; logins := logins d; device_cols := device_cols d; pairings := pairings d;
     pake_pending := pake_pending d; login_attempts := login_attempts d;
     deleted_devices := deleted_devices d; signup_codes := signup_codes d |}.
Definition set_logins (l : gmap Z LoginRow) (d : AuthDb) : AuthDb :=
  {| core := core d; logins := l; device_cols := device_cols d; pairings := pairings d;
     pake_pending := pake_pending d; login_attempts := login_attempts d;
     deleted_devices := deleted_devices d; signup_codes := signup_codes d |}.
Definition set_device_cols (l : gmap Z DeviceCols) (d : AuthDb) : AuthDb :=
  {| core := core d; logins := logins d; device_cols := l; pairings := pairings d;
     pake_pending := pake_pending d; login_attempts := login_attempts d;
     deleted_devices := deleted_devices d; signup_codes := signup_codes d |}.
Definition set_pairings (l : gmap (list Z) PairingRow) (d : AuthDb) : AuthDb :=
  {| core := core d; logins := logins d; device_cols := device_cols d; pairings := l;
     pake_pending := pake_pending d; login_attempts := login_attempts d;
     deleted_devices := deleted_devices d; signup_codes := signup_codes d |}.
Definition set_pending (l : gmap (list Z) PendingRow) (d : AuthDb) : AuthDb :=
  {| core := core d; logins := logins d; device_cols := device_cols d; pairings := pairings d;
     pake_pending := l; login_attempts := login_attempts d;
     deleted_devices := deleted_devices d; signup_codes := signup_codes d |}.
Definition set_attempts (l : gmap (list Z) Attempts) (d : AuthDb) : AuthDb :=
  {| core := core d; logins := logins d; device_cols := device_cols d; pairings := pairings d;
     pake_pending := pake_pending d; login_attempts := l;
     deleted_devices := deleted_devices d; signup_codes := signup_codes d |}.
Definition set_deleted_devices (l : gmap (list Z) Z) (d : AuthDb) : AuthDb :=
  {| core := core d; logins := logins d; device_cols := device_cols d; pairings := pairings d;
     pake_pending := pake_pending d; login_attempts := login_attempts d;
     deleted_devices := l; signup_codes := signup_codes d |}.
Definition set_signup_codes (l : gmap (list Z) SignupRow) (d : AuthDb) : AuthDb :=
  {| core := core d; logins := logins d; device_cols := device_cols d; pairings := pairings d;
     pake_pending := pake_pending d; login_attempts := login_attempts d;
     deleted_devices := deleted_devices d; signup_codes := l |}.

Definition set_sessions (l : gmap (list Z) SessionRow) (d : Db) : Db :=
  {| accounts := accounts d; devices := devices d; sessions := l; deleted_sessions := deleted_sessions d;
     max_vault_bytes := max_vault_bytes d; now := now d |}.
Definition set_devices (l : gmap Z DeviceRow) (d : Db) : Db :=
  {| accounts := accounts d; devices := l; sessions := sessions d; deleted_sessions := deleted_sessions d;
     max_vault_bytes := max_vault_bytes d; now := now d |}.

Abbreviation A := (M AuthDb ApiError).

(** A transaction: what it wrote is gone when it fails. *)
Definition transaction {X} (m : A X) : A X := fun d =>
  match m d with (d', Ok x) => (d', Ok x) | (_, Err e) => (d, Err e) end.

(** The configured server. *)
Record AppState := {
  server_secret : list Z;
  trust_forwarded_for : bool;
  legacy_auth_until : option Z;
  signup_url : option (list Z);
  has_mailer : bool;
}.

(** What a request says of where it came from: the first forwarded address
    of its header, when the header is text, and the peer's address. *)
Record Origin_ := { forwarded : option (list Z); peer_ip : list Z }.

Section ServerAuth.
Context {C : Crypto} {K : KeyLib} {U : Unicode} {H : HeaderLib} {Ck : Clock} {UT : UuidText}.
Context {B64 : Base64UrlLib} {AL : AuthLib}.
Variable st : AppState.

(** ** E-mail (email.rs) *)

Definition SERVER_MAX_EMAIL_LEN : Z := 254.

(** [split('@')], three parts of it. *)
Definition normalize (raw : list Z) : option (list Z) :=
  let normalized := to_lowercase (nfc (trim raw)) in
  if bool_decide (normalized = []) || (SERVER_MAX_EMAIL_LEN <? str_len normalized) then None
  else if existsb is_whitespace normalized then None
  else match split_on 64 normalized with
  | [local; domain] =>
      if bool_decide (local = []) || bool_decide (domain = []) then None else Some normalized
  | _ => None
  end.

Definition email_or_text (raw : list Z) : list Z := default (trim raw) (normalize raw).

(** ** Addresses and names *)

Definition client_ip (o : Origin_) : list Z :=
  match (if trust_forwarded_for st then forwarded o else None) with
  | Some f =>
      let f := trim f in
      if negb (bool_decide (f = [])) && (str_len f <=? 64) then f else peer_ip o
  | None => peer_ip o
  end.

Fixpoint hex_ (fuel : nat) (n : Z) (acc : list Z) : list Z :=
  match fuel with
  | O => acc
  | S fuel =>
      let d := n mod 16 in
      let acc := (if d <? 10 then 48 + d else 87 + d) :: acc in
      if n / 16 =? 0 then acc else hex_ fuel (n / 16) acc
  end.
(** [{:x}] of a [u16]. *)
Definition to_hex (n : Z) : list Z := hex_ 4 n [].

Definition ip_key (ip : list Z) : list Z :=
  lit "ip:" ++
  match ip_v6 ip with
  | None => ip
  | Some (inl v4) => v4
  | Some (inr segments) => join (lit ":") (map to_hex (take 4 segments)) ++ lit "::/64"
  end.

Definition attempt_keys (acct : Z) (ip : list Z) : list (list Z) := [lit "acct:" ++ uuid_text acct; ip_key ip].

Definition without_format_chars (s : list Z) : list Z := List.filter (fun c => negb (is_format c)) s.

Definition clean_device_name (raw : list Z) : result ApiError (list Z) :=
  let name := trim (without_format_chars raw) in
  if bool_decide (name = []) || (MAX_DEVICE_NAME_CHARS <? length name)%nat || existsb is_control name
  then Err (InvalidRequest "deviceName is not valid") else Ok name.

(** ** Counters (auth/rate_limit.rs, over the table) *)

Definition charge_keys (keys : list (list Z)) : A () := fun d =>
  let '(t, ok) := charge (now (core d)) keys (login_attempts d) in
  if ok then (set_attempts t d, Ok ()) else (d, Err RateLimited).
Definition clear_keys (keys : list (list Z)) : A () := mmodify (fun d => set_attempts (clear keys (login_attempts d)) d).
Definition check_key (key : list Z) : A () := mread (fun d =>
  if check (now (core d)) key (login_attempts d) then Ok () else Err RateLimited).
Definition fail_key (key : list Z) : A () :=
  mmodify (fun d => set_attempts (record_failure (now (core d)) key (login_attempts d)) d).
Definition charge_window_key (key : list Z) (max minutes : Z) : A () := fun d =>
  let '(t, ok) := charge_window (now (core d)) key max minutes (login_attempts d) in
  (set_attempts t d, if ok then Ok () else Err RateLimited).
Definition over_window_key (key : list Z) (max minutes : Z) : A () := mread (fun d =>
  if over_window (now (core d)) key max minutes (login_attempts d) then Err RateLimited else Ok ()).

(** ** Keys and sessions (auth/mod.rs) *)

Definition decode_auth_key (raw : list Z) : result ApiError (list Z) :=
  let bad := InvalidRequest "authKey is not valid" in
  if 64 <? str_len raw then Err bad
  else
    b ← ok_or bad (base64_decode raw);
    if negb (length b =? AUTH_KEY_LEN)%nat then Err bad else Ok b.

(** [slot] is whether a place in the queue of key checks came free in time. *)
Definition verify_auth_key (slot : bool) (stored key : list Z) : result ApiError bool :=
  if slot then Ok (argon2_verify stored key) else Err Unavailable.

Definition issue_token (raw : list Z) (acct device : Z) : A (list Z * Z) := fun d =>
  let token := encode_text base64url_nopad raw in
  let expires := now (core d) + SESSION_TTL_HOURS * 3600 in
  match sessions (core d) !! hash_of token with
  | Some _ => (d, Err Internal)
  | None =>
      (set_core (set_sessions (<[hash_of token := {| ss_account := acct; ss_device := device; ss_expires := expires |}]>
                                (sessions (core d))) (core d)) d, Ok (token, expires))
  end.

Definition drop_sessions (device : Z) : A () :=
  mmodify (fun d => set_core (set_sessions (filter (fun p => ss_device p.2 <> device) (sessions (core d))) (core d)) d).

(** The session of a request's bearer token. *)
Definition with_session {X} (token : option (list Z)) (f : Caller -> A X) : A X := fun d =>
  match authorize token (core d) with
  | (c, Ok who) => f who (set_core c d)
  | (c, Err e) => (set_core c d, Err e)
  end.

(** ** Devices (routes/auth.rs) *)

Definition register_device (acct device : Z) (name : list Z) : A () := fun d =>
  match devices (core d) !! device with
  | Some row =>
      if negb (dv_account row =? acct) || dv_revoked row then (d, Err Unauthorized)
      else
        (set_device_cols (alter (fun c => {| dc_name := name; dc_created := dc_created c;
                                             dc_approved_by := dc_approved_by c |}) device (device_cols d))
           (set_core (set_devices (<[device := {| dv_account := dv_account row; dv_revoked := false;
                                                  dv_last_seen := Some (now (core d)) |}]> (devices (core d))) (core d)) d),
         Ok ())
  | None =>
      let live := filter (fun p => dv_account p.2 = acct /\ dv_revoked p.2 = false) (devices (core d)) in
      if (MAX_DEVICES_PER_ACCOUNT <=? base.size live)%nat
      then (d, Err (InvalidRequest "this account has too many devices; revoke one first"))
      else
        (set_device_cols (<[device := {| dc_name := name; dc_created := now (core d); dc_approved_by := None |}]>
                            (device_cols d))
           (set_core (set_devices (<[device := {| dv_account := acct; dv_revoked := false;
                                                  dv_last_seen := Some (now (core d)) |}]> (devices (core d))) (core d)) d),
         Ok ())
  end.

(** [was_deleted_device] (erase.rs). *)
Definition device_hash (device : Z) : list Z := sha256 (uuid_bytes device).
Definition was_deleted_device (device : Z) (d : AuthDb) : bool :=
  match deleted_devices d !! device_hash device with Some t => now (core d) <? t | None => false end.

(** ** Accounts by address; only active ones sign in *)

Definition by_email (email : list Z) (d : AuthDb) : option (Z * LoginRow) :=
  head (List.filter (fun p => bool_decide (lg_email p.2 = email)) (map_to_list (logins d))).
Definition is_active (acct : Z) (d : AuthDb) : bool :=
  match accounts (core d) !! acct with Some a => bool_decide (a_status a = AActive) | None => false end.
Definition active_by_email (email : list Z) (d : AuthDb) : option (Z * LoginRow) :=
  p ← by_email email d; if is_active p.1 d then Some p else None.

(** [derive]; 32 bytes is a valid HKDF length. *)
Definition derive (domain email : list Z) : list Z :=
  default [] (hkdf (Some domain) (server_secret st) (utf8 email) 32).
Definition decoy_account (email : list Z) : Z := be_val (take 16 (derive (lit "havenkeys/params/account") email)).
Definition decoy_salt (email : list Z) : list Z := take 16 (derive (lit "havenkeys/params/salt") email).

Record ParamsAnswer := {
  pa_account : Z;
  pa_memory : Z;
  pa_iterations : Z;
  pa_parallelism : Z;
  pa_salt : list Z;
}.

Definition params (raw_email : list Z) (d : AuthDb) : ParamsAnswer :=
  let email := email_or_text raw_email in
  match active_by_email email d with
  | Some (acct, l) =>
      {| pa_account := acct; pa_memory := default DEFAULT_MEMORY_KIB (lg_memory l);
         pa_iterations := default DEFAULT_ITERATIONS (lg_iterations l);
         pa_parallelism := default DEFAULT_PARALLELISM (lg_parallelism l);
         pa_salt := base64_encode (default (decoy_salt email) (lg_salt l)) |}
  | None =>
      {| pa_account := decoy_account email; pa_memory := DEFAULT_MEMORY_KIB; pa_iterations := DEFAULT_ITERATIONS;
         pa_parallelism := DEFAULT_PARALLELISM; pa_salt := base64_encode (decoy_salt email) |}
  end.

(** ** Sign-in *)

(** [pake.rs]. *)
Definition legacy_allowed (grace : option Z) (t : Z) : result ApiError () :=
  match legacy_auth_until st with
  | Some until =>
      if (until <=? t) && negb match grace with Some g => t <? g | None => false end
      then Err UpgradeRequired else Ok ()
  | None => Ok ()
  end.

Definition bad_message : ApiError := InvalidRequest "message is not valid".
Definition decode_message (raw : list Z) : result ApiError (list Z) :=
  if bool_decide (raw = []) || ((MAX_MESSAGE_BYTES + 2) / 3 * 4 <? str_len raw) then Err bad_message
  else ok_or bad_message (base64_decode raw).

(** havenkeys-opaque: a message is 1 to [MAX_MESSAGE_BYTES] bytes. *)
Definition checked (b : list Z) : option (list Z) :=
  if bool_decide (b = []) || (MAX_MESSAGE_BYTES <? len b) then None else Some b.
Definition login_start (record : option (list Z)) (request id random : list Z) : option (list Z * list Z) :=
  rec ← match record with Some r => Some <$> checked r | None => Some None end;
  req ← checked request;
  opaque_start random rec req id.
Definition login_finish (pending finalization : list Z) : bool :=
  match checked pending, checked finalization with
  | Some p, Some f => opaque_finish p f
  | _, _ => false
  end.
Definition record_from_upload (upload : list Z) : option (list Z) := b ← checked upload; opaque_upload b.
Definition server_register (request id : list Z) : option (list Z) := b ← checked request; opaque_register b id.

Definition put_pending (purpose : PakePurpose) (acct : option Z) (state raw : list Z) : A (list Z) := fun d =>
  let id := encode_text base64url_nopad raw in
  match pake_pending d !! hash_of id with
  | Some _ => (d, Err Internal)
  | None =>
      (set_pending (<[hash_of id := {| pn_purpose := purpose; pn_account := acct; pn_state := state;
                                       pn_expires := now (core d) + PENDING_TTL_SECONDS |}]> (pake_pending d)) d, Ok id)
  end.

Definition take_pending (purpose : PakePurpose) (id : list Z) : A (option (option Z * list Z)) := fun d =>
  if 64 <? str_len id then (d, Ok None)
  else match pake_pending d !! hash_of id with
  | Some p =>
      if bool_decide (pn_purpose p = purpose) && (now (core d) <? pn_expires p)
      then (set_pending (delete (hash_of id) (pake_pending d)) d, Ok (Some (pn_account p, pn_state p)))
      else (d, Ok None)
  | None => (d, Ok None)
  end.

Record LoginAnswer := {
  la_token : list Z;
  la_expires : list Z;
  la_vault : Z;
  la_subscription : option Subscription;
}.

(** The subscription of an account, and whether a device is one of its live
    ones. *)
Definition plan_of (acct : Z) (d : AuthDb) : option Subscription :=
  a ← accounts (core d) !! acct; load (a_billing a).
Definition known_device (acct device : Z) (d : AuthDb) : bool :=
  match devices (core d) !! device with
  | Some r => (dv_account r =? acct) && negb (dv_revoked r)
  | None => false
  end.

Definition complete_login (keys : list (list Z)) (acct device : Z) (name raw : list Z) : A LoginAnswer :=
  d ← mget;
  v ← mlift (ok_or Unauthorized (a ← accounts (core d) !! acct; a_vault a));
  _ ← clear_keys keys;
  _ ← mlift (guard_err (negb (known_device acct device d)
                        && bool_decide (entitlement_of (plan_of acct d) (now (core d)) = EFrozen)) AccountFrozen);
  _ ← register_device acct device name;
  _ ← drop_sessions device;
  t ← issue_token raw acct device;
  mret {| la_token := t.1; la_expires := to_rfc3339 t.2; la_vault := v_id v; la_subscription := plan_of acct d |}.

(** [login]: the legacy path; [slot] as in [verify_auth_key]. *)
Definition login (o : Origin_) (raw_email raw_key : list Z) (device : Z) (raw_name raw : list Z) (slot : bool)
    : A LoginAnswer :=
  let email := email_or_text raw_email in
  key ← mlift (decode_auth_key raw_key);
  name ← mlift (clean_device_name raw_name);
  d ← mget;
  let row := active_by_email email d in
  _ ← mlift (legacy_allowed (row ≫= fun p => lg_grace p.2) (now (core d)));
  let acct := match row with Some p => p.1 | None => decoy_account email end in
  let keys := attempt_keys acct (client_ip o) in
  _ ← charge_keys keys;
  let verifier := default dummy_verifier (row ≫= fun p => lg_verifier p.2) in
  ok ← mlift (verify_auth_key slot verifier key);
  d ← mget;
  if negb (ok && Wire.is_some row)
  then mthrow_ (if negb (Wire.is_some row) && was_deleted_device device d then AccountDeleted else Unauthorized)
  else complete_login keys acct device name raw.

Record PakeStartAnswer := { ps_login_id : list Z; ps_response : list Z }.

Definition pake_start (o : Origin_) (raw_email raw_request : list Z) (device : Z) (raw random : list Z)
    : A PakeStartAnswer :=
  let email := email_or_text raw_email in
  request ← mlift (decode_message raw_request);
  d ← mget;
  let row := active_by_email email d in
  let acct := match row with Some p => p.1 | None => decoy_account email end in
  _ ← charge_keys (attempt_keys acct (client_ip o));
  d ← mget;
  _ ← mlift (guard_err (negb (Wire.is_some row) && was_deleted_device device d) AccountDeleted);
  pr ← mlift (ok_or bad_message (login_start (row ≫= fun p => lg_record p.2) request (uuid_bytes acct) random));
  id ← put_pending Login (fst <$> row) pr.1 raw;
  mret {| ps_login_id := id; ps_response := base64_encode pr.2 |}.

Definition pake_finish (o : Origin_) (login_id raw_finalization : list Z) (device : Z) (raw_name raw : list Z)
    : A LoginAnswer :=
  finalization ← mlift (decode_message raw_finalization);
  name ← mlift (clean_device_name raw_name);
  taken ← take_pending Login login_id;
  d ← mget;
  match taken with
  | Some (Some acct, pending) =>
      if login_finish pending finalization
      then complete_login (attempt_keys acct (client_ip o)) acct device name raw
      else mthrow_ (if was_deleted_device device d then AccountDeleted else Unauthorized)
  | _ => mthrow_ (if was_deleted_device device d then AccountDeleted else Unauthorized)
  end.

(** [logout]. *)
Definition logout (token : option (list Z)) : A () :=
  with_session token (fun c =>
    mmodify (fun d => set_core (set_sessions (delete (token_hash c) (sessions (core d))) (core d)) d)).
End ServerAuth.

(** ** Concrete libraries and a server with one account, for the witnesses *)

Module ToyAuth.
Import ToyUnicode Rfc4648.

(** A digest of bytes that is the text, cut or filled. *)
#[export] Instance crypto : Crypto := {|
  aes_gcm_encrypt := fun _ _ _ _ => None; aes_gcm_decrypt := fun _ _ _ _ => None;
  sha256 := fun x => take 32 (map (fun c => c mod 256) x ++ replicate 32 0) |}.
#[export] Instance keys : KeyLib := {|
  argon2id := fun _ _ => None;
  hkdf := fun _ _ info n => Some (take n (map (fun c => c mod 256) info ++ replicate n 0));
  uuid_v8 := be_val |}.
#[export] Instance header : HeaderLib := {|
  canonical := fun _ => []; file_to_json := fun _ => []; file_from_json := fun _ => None;
  base64_encode := fun b => b; base64_decode := Some |}.
#[export] Instance clock : Clock := {| to_rfc3339 := to_decimal |}.
#[export] Instance uuids : UuidText := to_decimal.
(** A verifier and a record are the key itself, and so is its proof. *)
#[export] Instance auth : AuthLib := {|
  argon2_hash := fun _ k => k;
  argon2_verify := fun stored k => bool_decide (stored = k);
  dummy_verifier := [];
  opaque_start := fun _ record _ _ => Some (default [0] record, [1]);
  opaque_finish := fun pending f => bool_decide (pending = f);
  opaque_register := fun _ _ => Some [1];
  opaque_upload := Some;
  is_format := fun c => c =? 8203;
  ip_v6 := fun _ => None |}.

Definition server : AppState :=
  {| server_secret := replicate 32 1; trust_forwarded_for := false; legacy_auth_until := None; signup_url := Some (lit "https:/" ++ lit "/h.k"); has_mailer := true |}.
Definition origin : Origin_ := {| forwarded := None; peer_ip := lit "10.0.0.1" |}.
Definition vault_row : VaultRow :=
  {| v_id := 9; v_header := [7]; v_header_revision := 0; v_key_scheme := 3; v_revision := 0; v_items := ∅; v_files := ∅ |}.
Definition account_row : AccountRow :=
  {| a_status := AActive; a_billing := {| plan_row := None; billing_events := [] |}; a_vault := Some vault_row |}.
Definition email : list Z := lit "a@b.c".
Definition key : list Z := replicate 32 3.
Definition login_row : LoginRow :=
  {| lg_email := email; lg_memory := None; lg_iterations := None; lg_parallelism := None; lg_salt := None;
     lg_verifier := None; lg_record := Some key; lg_grace := None; lg_invite := None; lg_invite_expires := None;
     lg_terms := None; lg_locale := None; lg_created := 0; lg_created_by := lit "admin" |}.
Definition db0 : AuthDb :=
  {| core := {| accounts := {[5 := account_row]}; devices := ∅; sessions := ∅; deleted_sessions := ∅;
                max_vault_bytes := MAX_VAULT_BYTES; now := 1000 |};
     logins := {[5 := login_row]}; device_cols := ∅; pairings := ∅; pake_pending := ∅; login_attempts := ∅;
     deleted_devices := ∅; signup_codes := ∅ |}.
End ToyAuth.
