(* ===== verification/ServerPairing.v ===== *)
(** * Pairing on the server (crates/havenkeys-server/src/routes/pairings.rs)

    Create, read, approve, deny and claim a pairing, over the tables of
    ServerAuth.v.  The rows are locked by each statement that changes one, so
    a handler is one step; the session of a request is its [Caller]. *)

From S2P Require Import Prelude Errors Text Blob Url Tags Totp Clean Card.
From S2P Require Import Identity CustomField Bank Sso Attachment Model Keys Store Origin Health.
From S2P Require Import BuildItem Vault Items Sync Encoding Dates Wire Admission Server ServerAuth.

Definition PAIRING_TTL_SECONDS : Z := 120.
Definition PAIRING_MAX_AGE_MINUTES : Z := 10.
Definition PAIRINGS_PER_IP : nat := 10.
Definition PENDING_PAIRINGS_PER_IP : nat := 3.
Definition MAX_PAIRING_ENVELOPE_BYTES : Z := 4096.

Record Created := { cr_id : list Z; cr_expires : list Z }.
Record Details := {
  dt_name : list Z;
  dt_ip : list Z;
  dt_location : option (list Z);
  dt_created : list Z;
  dt_expires : list Z;
}.
Inductive ClaimAnswer :=
| ClaimWaiting
| ClaimDenied
| ClaimApproved (token expires : list Z) (acct vault : Z) (envelope : list Z).

Definition with_state (s : PairState) (r : PairingRow) : PairingRow :=
  {| pr_state := s; pr_device := pr_device r; pr_name := pr_name r; pr_hash := pr_hash r; pr_ip := pr_ip r;
     pr_location := pr_location r; pr_created := pr_created r; pr_expires := pr_expires r;
     pr_account := pr_account r; pr_envelope := pr_envelope r |}.
Definition with_account (a : option Z) (r : PairingRow) : PairingRow :=
  {| pr_state := pr_state r; pr_device := pr_device r; pr_name := pr_name r; pr_hash := pr_hash r; pr_ip := pr_ip r;
     pr_location := pr_location r; pr_created := pr_created r; pr_expires := pr_expires r;
     pr_account := a; pr_envelope := pr_envelope r |}.
Definition with_envelope (e : option (list Z)) (r : PairingRow) : PairingRow :=
  {| pr_state := pr_state r; pr_device := pr_device r; pr_name := pr_name r; pr_hash := pr_hash r; pr_ip := pr_ip r;
     pr_location := pr_location r; pr_created := pr_created r; pr_expires := pr_expires r;
     pr_account := pr_account r; pr_envelope := e |}.

Section ServerPairing.
Context {C : Crypto} {K : KeyLib} {U : Unicode} {H : HeaderLib} {Ck : Clock} {UT : UuidText}.
Context {B64 : Base64UrlLib} {AL : AuthLib}.
Variable st : AppState.

Definition fixed32 (raw : list Z) (bad : string) : result ApiError (list Z) :=
  if 64 <? str_len raw then Err (InvalidRequest bad)
  else
    b ← ok_or (InvalidRequest bad) (decode_text base64url_nopad (utf8 raw));
    if negb (length b =? 32)%nat then Err (InvalidRequest bad) else Ok b.

Definition pairing_id (raw : list Z) : result ApiError (list Z) :=
  if (str_len raw =? 22) &&
     match decode_text base64url_nopad (utf8 raw) with Some b => len b =? 16 | None => false end
  then Ok raw else Err NotFound.

(** The rows a new pairing deletes, and those it counts. *)
Definition old_row (t : Z) (r : PairingRow) : bool := pr_created r <? t - PAIRING_MAX_AGE_MINUTES * 60.
Definition waiting_row (t : Z) (r : PairingRow) : bool :=
  bool_decide (pr_state r = PairPending) && (t <? pr_expires r).
Definition count_rows (f : PairingRow -> bool) (t : gmap (list Z) PairingRow) : nat :=
  length (List.filter (fun p => f p.2) (map_to_list t)).

Definition create (o : Origin_) (device : Z) (raw_name raw_hash raw : list Z) (location : option (list Z)) : A Created :=
  name ← mlift (clean_device_name raw_name);
  hash ← mlift (fixed32 raw_hash "claimHash is not valid");
  let ip := client_ip st o in
  transaction (
    _ ← mmodify (fun d => set_pairings (filter (fun p => old_row (now (core d)) p.2 = false) (pairings d)) d);
    d ← mget;
    let t := now (core d) in
    let mine r := bool_decide (pr_ip r = ip) in
    _ ← mlift (guard_err ((PAIRINGS_PER_IP <=? count_rows mine (pairings d))%nat ||
                          (PENDING_PAIRINGS_PER_IP <=? count_rows (fun r => mine r && waiting_row t r) (pairings d))%nat)
                 RateLimited);
    let id := encode_text base64url_nopad raw in
    _ ← mlift (guard_err (Wire.is_some (pairings d !! id)) Internal);
    _ ← mmodify (set_pairings (<[id := {| pr_state := PairPending; pr_device := device; pr_name := name; pr_hash := hash;
                                          pr_ip := ip; pr_location := location; pr_created := t;
                                          pr_expires := t + PAIRING_TTL_SECONDS; pr_account := None;
                                          pr_envelope := None |}]> (pairings d)));
    mret {| cr_id := id; cr_expires := to_rfc3339 (t + PAIRING_TTL_SECONDS) |}).

(** The row a session may read, approve or deny: waiting, and free or bound
    to its account. *)
Definition open_row (acct : Z) (id : list Z) (d : AuthDb) : option PairingRow :=
  r ← pairings d !! id;
  if waiting_row (now (core d)) r && match pr_account r with Some a => a =? acct | None => true end
  then Some r else None.

Definition write_row (id : list Z) (r : PairingRow) : A () :=
  mmodify (fun d => set_pairings (<[id := r]> (pairings d)) d).

Definition details (c : Caller) (raw : list Z) : A Details :=
  id ← mlift (pairing_id raw);
  d ← mget;
  r ← mlift (ok_or NotFound (open_row (account_id c) id d));
  _ ← write_row id (with_account (Some (account_id c)) r);
  mret {| dt_name := pr_name r; dt_ip := pr_ip r; dt_location := pr_location r;
          dt_created := to_rfc3339 (pr_created r); dt_expires := to_rfc3339 (pr_expires r) |}.

Definition bad_envelope : ApiError := InvalidRequest "envelope is not valid".
Definition cannot_approve : ApiError := InvalidRequest "this device cannot be approved".

(** [register_device], whose refusal is about the code. *)
Definition register_or_refuse (acct device : Z) (name : list Z) : A () := fun d =>
  match register_device acct device name d with
  | (d', Err Unauthorized) => (d', Err cannot_approve)
  | r => r
  end.

Definition approve (c : Caller) (raw raw_envelope : list Z) : A () :=
  _ ← mlift (require_full (entitlement c));
  id ← mlift (pairing_id raw);
  _ ← mlift (guard_err (MAX_PAIRING_ENVELOPE_BYTES / 3 * 4 + 4 <? str_len raw_envelope) bad_envelope);
  envelope ← mlift (ok_or bad_envelope (base64_decode raw_envelope));
  _ ← mlift (guard_err (bool_decide (envelope = []) || (MAX_PAIRING_ENVELOPE_BYTES <? len envelope)) bad_envelope);
  transaction (
    d ← mget;
    r ← mlift (ok_or NotFound (open_row (account_id c) id d));
    _ ← mlift (guard_err (pr_device r =? device_id c) cannot_approve);
    _ ← register_or_refuse (account_id c) (pr_device r) (pr_name r);
    _ ← mmodify (fun d => set_device_cols (alter (fun x => {| dc_name := dc_name x; dc_created := dc_created x;
                                                             dc_approved_by := Some (device_id c) |}) (pr_device r)
                                             (device_cols d)) d);
    write_row id (with_envelope (Some envelope) (with_account (Some (account_id c)) (with_state PairApproved r)))).

Definition deny (c : Caller) (raw : list Z) : A () :=
  id ← mlift (pairing_id raw);
  d ← mget;
  r ← mlift (ok_or NotFound (open_row (account_id c) id d));
  write_row id (with_account (Some (account_id c)) (with_state PairDenied r)).

(** The row of a claim, however it ended, until it is old. *)
Definition claim_row (id : list Z) (d : AuthDb) : option PairingRow :=
  r ← pairings d !! id;
  if now (core d) - PAIRING_MAX_AGE_MINUTES * 60 <? pr_created r then Some r else None.

Definition claim (o : Origin_) (raw raw_secret token : list Z) : A ClaimAnswer :=
  id ← mlift (pairing_id raw);
  secret ← mlift (fixed32 raw_secret "claimSecret is not valid");
  let key := ip_key (client_ip st o) in
  _ ← check_key key;
  d ← mget;
  r ← mlift (ok_or NotFound (claim_row id d));
  if negb (bool_decide (pr_hash r = sha256 secret)) then _ ← fail_key key; mthrow_ NotFound
  else match pr_state r with
  | PairPending => if now (core d) <? pr_expires r then mret ClaimWaiting else mthrow_ NotFound
  | PairDenied => _ ← write_row id (with_state PairClaimed r); mret ClaimDenied
  | PairApproved =>
      transaction (
        acct ← mlift (ok_or Internal (pr_account r));
        envelope ← mlift (ok_or Internal (pr_envelope r));
        v ← mlift (ok_or Internal (a ← accounts (core d) !! acct; a_vault a));
        _ ← drop_sessions (pr_device r);
        t ← issue_token token acct (pr_device r);
        _ ← write_row id (with_envelope None (with_state PairClaimed r));
        mret (ClaimApproved t.1 (to_rfc3339 t.2) acct (v_id v) (base64_encode envelope)))
  | PairClaimed => mthrow_ NotFound
  end.
End ServerPairing.

(** ** What the server's pairing promises

    A session is issued for a pairing at most once, to whoever holds the
    claim secret it was made with, after a session of the account approved
    it, however the requests are ordered. *)

(** What a request did to a pairing. *)
Inductive Event :=
| Made (id : list Z) (device : Z) (hash : list Z)
| Allowed (id : list Z) (by_ : Caller) (envelope : list Z)
| Claimed (id : list Z)
| Nothing.

Section Pairings.
Context {C : Crypto} {K : KeyLib} {U : Unicode} {H : HeaderLib} {Ck : Clock} {UT : UuidText}.
Context {B64 : Base64UrlLib} {AL : AuthLib}.
Variable st : AppState.

(** One request, or anything else the server does meanwhile: it changes no
    pairing, but may delete some. *)
Inductive pair_step : AuthDb -> Event -> AuthDb -> Prop :=
| pair_create o device name hash h raw location d d' a :
    create st o device name hash raw location d = (d', Ok a) -> fixed32 hash "claimHash is not valid" = Ok h ->
    pair_step d (Made (cr_id a) device h) d'
| pair_create_refused o device name hash raw location d d' e :
    create st o device name hash raw location d = (d', Err e) -> pair_step d Nothing d'
| pair_details c raw d d' r : details c raw d = (d', r) -> pair_step d Nothing d'
| pair_approve c raw raw_envelope envelope d d' :
    approve c raw raw_envelope d = (d', Ok ()) -> base64_decode raw_envelope = Some envelope ->
    pair_step d (Allowed raw c envelope) d'
| pair_approve_refused c raw raw_envelope d d' e :
    approve c raw raw_envelope d = (d', Err e) -> pair_step d Nothing d'
| pair_deny c raw d d' r : deny c raw d = (d', r) -> pair_step d Nothing d'
| pair_claim o raw secret token d d' t x acct vault envelope :
    claim st o raw secret token d = (d', Ok (ClaimApproved t x acct vault envelope)) -> pair_step d (Claimed raw) d'
| pair_claim_refused o raw secret token d d' r :
    claim st o raw secret token d = (d', r) ->
    (forall t x acct vault envelope, r <> Ok (ClaimApproved t x acct vault envelope)) -> pair_step d Nothing d'
| pair_other d d' : pairings d' ⊆ pairings d -> pair_step d Nothing d'.

(** The events of a run, the newest first. *)
Inductive pair_run (d0 : AuthDb) : list Event -> AuthDb -> Prop :=
| run_here : pair_run d0 [] d0
| run_more log d e d' : pair_run d0 log d -> pair_step d e d' -> pair_run d0 (e :: log) d'.

(** ** What each handler does to the rows *)

Lemma transaction_Ok {X} (m : M AuthDb ApiError X) d d' x :
  transaction m d = (d', Ok x) -> m d = (d', Ok x).
Proof. unfold transaction. by destruct (m d) as [? []]. Qed.

Lemma transaction_Err {X} (m : M AuthDb ApiError X) d d' e : transaction m d = (d', Err e) -> d' = d.
Proof. unfold transaction. destruct (m d) as [? []]; congruence. Qed.

Lemma mlift_Err {X} (r : result ApiError X) (d d' : AuthDb) e : mlift r d = (d', Err e) -> d' = d.
Proof. unfold mlift. congruence. Qed.

Lemma create_rows o device name hash raw location d d' a h :
  create st o device name hash raw location d = (d', Ok a) -> fixed32 hash "claimHash is not valid" = Ok h ->
  exists rows r, rows ⊆ pairings d /\ rows !! cr_id a = None /\ pairings d' = <[cr_id a := r]> rows /\
    pr_device r = device /\ pr_hash r = h /\ pr_state r = PairPending.
Proof.
  unfold create. intros Hc Hh. apply M_bind_Ok in Hc as (n & d1 & [-> _]%mlift_Ok & Hc).
  rewrite Hh in Hc. apply M_bind_Ok in Hc as (h' & d1 & [-> [= <-]]%mlift_Ok & Hc).
  apply transaction_Ok in Hc. rewrite run_mmodify, run_mget in Hc.
  set (d1 := set_pairings _ d) in *. apply M_bind_Ok in Hc as ([] & d2 & [-> _]%mlift_Ok & Hc).
  apply M_bind_Ok in Hc as ([] & d2 & [-> Hid]%mlift_Ok & Hc). injection Hc as <- <-.
  do 2 eexists. split_and!; [| |done|done|done|done]; cbn.
  - apply map_filter_subseteq.
  - cbn in Hid. by destruct (filter _ _ !! encode_text base64url_nopad raw).
Qed.

Lemma create_refused o device name hash raw location d d' e :
  create st o device name hash raw location d = (d', Err e) -> d' = d.
Proof.
  unfold create. rewrite run_mlift. destruct (clean_device_name name); [|congruence].
  rewrite run_mlift. destruct (fixed32 _ _); [|congruence]. apply transaction_Err.
Qed.

Lemma open_row_some acct id d r :
  open_row acct id d = Some r -> pairings d !! id = Some r /\ pr_state r = PairPending /\
    (pr_account r = None \/ pr_account r = Some acct).
Proof.
  unfold open_row. destruct (pairings d !! id) as [x|]; [|done]. cbn [mbind option_bind].
  destruct (waiting_row _ x) eqn:Ew; [|done]. unfold waiting_row in Ew. apply andb_true_iff in Ew as [Ep _].
  apply bool_decide_eq_true in Ep. destruct (pr_account x) as [a|] eqn:Ea; cbn.
  - destruct (Z.eqb_spec a acct); [|done]. intros [= <-]. subst. auto.
  - intros [= <-]. auto.
Qed.

Lemma pairing_id_same raw id : pairing_id raw = Ok id -> id = raw.
Proof. unfold pairing_id. destruct (_ && _); [|done]. by intros [= ->]. Qed.

(** A row that a session read or denied. *)
Definition same_claim (r r' : PairingRow) : Prop := pr_device r' = pr_device r /\ pr_hash r' = pr_hash r.

(** Every handler but [create] leaves the rows, or writes one back. *)
Definition rewrites (id : list Z) (d d' : AuthDb) (P : PairingRow -> PairingRow -> Prop) : Prop :=
  pairings d' = pairings d \/
  exists r r', pairings d !! id = Some r /\ pairings d' = <[id := r']> (pairings d) /\ same_claim r r' /\ P r r'.

Lemma details_rows c raw d d' r :
  details c raw d = (d', r) -> rewrites raw d d' (fun r r' => pr_state r = PairPending /\ pr_state r' = PairPending).
Proof.
  unfold details. rewrite run_mlift. destruct (pairing_id raw) as [id|] eqn:Ei; [|intros [= <- _]; by left].
  apply pairing_id_same in Ei as ->. rewrite run_mget, run_mlift.
  destruct (open_row _ _ _) as [x|] eqn:Eo; [|intros [= <- _]; by left]. cbn [ok_or]. intros [= <- _].
  apply open_row_some in Eo as (Hx & Hs & _). right. exists x, (with_account (Some (account_id c)) x). by split_and!.
Qed.

Lemma deny_rows c raw d d' r :
  deny c raw d = (d', r) -> rewrites raw d d' (fun r r' => pr_state r = PairPending /\ pr_state r' = PairDenied).
Proof.
  unfold deny. rewrite run_mlift. destruct (pairing_id raw) as [id|] eqn:Ei; [|intros [= <- _]; by left].
  apply pairing_id_same in Ei as ->. rewrite run_mget, run_mlift.
  destruct (open_row _ _ _) as [x|] eqn:Eo; [|intros [= <- _]; by left]. cbn [ok_or]. intros [= <- _].
  apply open_row_some in Eo as (Hx & Hs & _). right. eexists x, _. by split_and!.
Qed.

Lemma register_pairings acct device name d d' r : register_device acct device name d = (d', r) -> pairings d' = pairings d.
Proof. unfold register_device. repeat case_match; intros [= <- _]; done. Qed.

Lemma approve_rows c raw raw_envelope envelope d d' :
  approve c raw raw_envelope d = (d', Ok ()) -> base64_decode raw_envelope = Some envelope ->
  exists r r', pairings d !! raw = Some r /\ pairings d' = <[raw := r']> (pairings d) /\ same_claim r r' /\
    pr_state r = PairPending /\ pr_state r' = PairApproved /\ pr_account r' = Some (account_id c) /\
    pr_envelope r' = Some envelope /\ entitlement c = EFull /\ device_id c <> pr_device r.
Proof.
  unfold approve. intros Ha He. apply M_bind_Ok in Ha as ([] & d1 & [-> Hf]%mlift_Ok & Ha).
  apply M_bind_Ok in Ha as (id & d1 & [-> Hid]%mlift_Ok & Ha). apply pairing_id_same in Hid as ->.
  apply M_bind_Ok in Ha as ([] & d1 & [-> _]%mlift_Ok & Ha). rewrite He in Ha.
  apply M_bind_Ok in Ha as (env & d1 & [-> [= <-]]%mlift_Ok & Ha).
  apply M_bind_Ok in Ha as ([] & d1 & [-> _]%mlift_Ok & Ha). apply transaction_Ok in Ha.
  rewrite run_mget in Ha. apply M_bind_Ok in Ha as (r & d1 & [-> Hr]%mlift_Ok & Ha).
  destruct (open_row _ _ _) as [x|] eqn:Eo; [|done]. injection Hr as ->. apply open_row_some in Eo as (Hx & Hs & _).
  apply M_bind_Ok in Ha as ([] & d1 & [-> Hdev]%mlift_Ok & Ha).
  destruct (Z.eqb_spec (pr_device r) (device_id c)) as [|Hne]; [done|].
  apply M_bind_Ok in Ha as ([] & d1 & Hreg & Ha).
  assert (pairings d1 = pairings d) as Hp.
  { unfold register_or_refuse in Hreg. destruct (register_device _ _ _ _) as [d2 [[]|e]] eqn:Er.
    - injection Hreg as <-. by eapply register_pairings.
    - by destruct e. }
  rewrite run_mmodify in Ha. injection Ha as <-. cbn. rewrite Hp. exists r. eexists. split_and!; try done.
  by destruct (entitlement c).
Qed.

Lemma approve_refused c raw raw_envelope d d' e : approve c raw raw_envelope d = (d', Err e) -> d' = d.
Proof.
  unfold approve. rewrite run_mlift. destruct (require_full _); [|congruence].
  rewrite run_mlift. destruct (pairing_id raw); [|congruence]. rewrite run_mlift. destruct (guard_err _ _); [|congruence].
  rewrite run_mlift. destruct (ok_or _ _); [|congruence]. rewrite run_mlift. destruct (guard_err _ _); [|congruence].
  apply transaction_Err.
Qed.

Lemma fail_pairings key d d' r : fail_key key d = (d', r) -> pairings d' = pairings d.
Proof. by intros [= <- _]. Qed.

Lemma claim_approved o raw raw_secret raw_token d d' t x acct vault envelope :
  claim st o raw raw_secret raw_token d = (d', Ok (ClaimApproved t x acct vault envelope)) ->
  exists r secret sealed expires, pairings d !! raw = Some r /\ pr_state r = PairApproved /\
    fixed32 raw_secret "claimSecret is not valid" = Ok secret /\ pr_hash r = sha256 secret /\
    pr_account r = Some acct /\ pr_envelope r = Some sealed /\ envelope = base64_encode sealed /\
    pairings d' = <[raw := with_envelope None (with_state PairClaimed r)]> (pairings d) /\
    x = to_rfc3339 expires /\
    sessions (core d') !! hash_of t = Some {| ss_account := acct; ss_device := pr_device r; ss_expires := expires |}.
Proof.
  unfold claim. intros Hc. apply M_bind_Ok in Hc as (id & d1 & [-> Hid]%mlift_Ok & Hc). apply pairing_id_same in Hid as ->.
  apply M_bind_Ok in Hc as (secret & d1 & [-> Hs]%mlift_Ok & Hc). apply M_bind_Ok in Hc as ([] & d1 & Hk & Hc).
  injection Hk as <- _. rewrite run_mget in Hc. apply M_bind_Ok in Hc as (r & d1 & [-> Hr]%mlift_Ok & Hc).
  unfold claim_row in Hr. destruct (pairings d !! raw) as [row|] eqn:Ep; [|done]. cbn [mbind option_bind] in Hr.
  destruct (_ <? pr_created row); [|done]. injection Hr as ->.
  destruct (bool_decide_reflect (pr_hash r = sha256 secret)) as [Hh|]; [|done]. cbn [negb] in Hc.
  destruct (pr_state r) eqn:Es; [by destruct (_ <? _)| |done|done].
  apply transaction_Ok in Hc. apply M_bind_Ok in Hc as (a & d1 & [-> Ha]%mlift_Ok & Hc).
  apply M_bind_Ok in Hc as (e & d1 & [-> He]%mlift_Ok & Hc). apply M_bind_Ok in Hc as (v & d1 & [-> _]%mlift_Ok & Hc).
  destruct (pr_account r) as [a'|] eqn:Ea; [|done]. injection Ha as ->.
  destruct (pr_envelope r) as [e'|] eqn:Ee; [|done]. injection He as ->.
  unfold drop_sessions in Hc. rewrite run_mmodify in Hc. apply M_bind_Ok in Hc as ([tok exp] & d1 & Ht & Hc).
  unfold issue_token in Ht. destruct (sessions _ !! hash_of (encode_text base64url_nopad raw_token)); [done|].
  injection Ht as <- <- <-. injection Hc as <- <- <- <- _ <-. exists r, secret, e. eexists. split_and!; try done.
  cbn. apply lookup_insert_eq.
Qed.

Lemma claim_other o raw raw_secret raw_token d d' r :
  claim st o raw raw_secret raw_token d = (d', r) ->
  (forall t x acct vault envelope, r <> Ok (ClaimApproved t x acct vault envelope)) ->
  rewrites raw d d' (fun r r' => pr_state r = PairDenied /\ pr_state r' = PairClaimed).
Proof.
  unfold claim. rewrite run_mlift. destruct (pairing_id raw) as [id|] eqn:Hid; [|intros [= <- _] _; by left].
  apply pairing_id_same in Hid as ->. rewrite run_mlift. destruct (fixed32 _ _) as [secret|]; [|intros [= <- _] _; by left].
  destruct (check_key (ip_key (client_ip st o)) d) as [d1 [[]|e]] eqn:Hk.
  2: { rewrite (run_bind_err _ _ _ _ _ Hk). injection Hk as <- _. intros [= <- _] _. by left. }
  rewrite (run_bind _ _ _ _ _ Hk). injection Hk as <- _. rewrite run_mget, run_mlift.
  unfold claim_row. destruct (pairings d !! raw) as [row|] eqn:Ep; [|intros [= <- _] _; by left]. cbn [mbind option_bind].
  destruct (_ <? pr_created row); [|intros [= <- _] _; by left]. cbn [ok_or].
  destruct (bool_decide (pr_hash row = _)); cbn [negb]; [|intros [= <- _] _; by left].
  destruct (pr_state row) eqn:Es.
  - destruct (_ <? _); intros [= <- _] _; by left.
  - intros Hc Hn. left. destruct r as [a|e]; [|by apply transaction_Err in Hc as ->].
    apply transaction_Ok in Hc. apply M_bind_Ok in Hc as (a0 & d1 & _ & Hc). apply M_bind_Ok in Hc as (e & d2 & _ & Hc).
    apply M_bind_Ok in Hc as (v & d3 & _ & Hc). apply M_bind_Ok in Hc as (u & d4 & _ & Hc).
    apply M_bind_Ok in Hc as (tk & d5 & _ & Hc). apply M_bind_Ok in Hc as (w & d6 & _ & Hc). injection Hc as _ <-.
    by destruct (Hn _ _ _ _ _ eq_refl).
  - intros [= <- _] _. right. eexists row, _. by split_and!.
  - intros [= <- _] _. by left.
Qed.

(** ** The history of a row *)

Definition event_id (e : Event) : option (list Z) :=
  match e with Made id _ _ | Claimed id => Some id | _ => None end.

Definition allowed_by (id : list Z) (r : PairingRow) (log : list Event) : Prop :=
  exists c envelope, Allowed id c envelope ∈ log /\ pr_account r = Some (account_id c) /\
    pr_envelope r = Some envelope /\ entitlement c = EFull /\ device_id c <> pr_device r.

(** A row was made once; it was not claimed while it waits or is approved,
    and it is approved by a session of the account it names. *)
Definition row_story (log : list Event) (id : list Z) (r : PairingRow) : Prop :=
  exists mid pre, log = mid ++ Made id (pr_device r) (pr_hash r) :: pre /\
    (pr_state r = PairPending \/ pr_state r = PairApproved -> Forall (fun e => event_id e <> Some id) mid) /\
    (pr_state r = PairApproved -> allowed_by id r mid).

Definition stories (log : list Event) (d : AuthDb) : Prop :=
  forall id r, pairings d !! id = Some r -> row_story log id r.

(** A row another event leaves, and the row an event rewrites. *)
Lemma story_kept log id r e :
  row_story log id r -> event_id e <> Some id \/ (pr_state r <> PairPending /\ pr_state r <> PairApproved) ->
  row_story (e :: log) id r.
Proof.
  intros (mid & pre & -> & Hm & Ha) He. exists (e :: mid), pre. split_and!; [done| |].
  - intros Hs. destruct He as [He|[]]; [|by destruct Hs]. constructor; auto.
  - intros Hs. destruct (Ha Hs) as (c & env & Hin & Hrest). exists c, env. split; [by right|done].
Qed.

Lemma story_written log id r r' e :
  row_story log id r -> same_claim r r' -> pr_state r = PairPending \/ pr_state r' = PairClaimed ->
  (pr_state r' = PairPending \/ pr_state r' = PairApproved -> event_id e <> Some id) ->
  (pr_state r' = PairApproved -> allowed_by id r' [e]) -> row_story (e :: log) id r'.
Proof.
  intros (mid & pre & -> & Hm & _) [Hd Hh] Hs He Ha. exists (e :: mid), pre. rewrite Hd, Hh. split_and!; [done| |].
  - intros Hs'. constructor; [by apply He|]. apply Hm. left. destruct Hs as [|Hs]; [done|]. rewrite Hs in Hs'. by destruct Hs'.
  - intros Hs'. destruct (Ha Hs') as (c & env & Hin & Hrest). exists c, env. split; [|done].
    apply list_elem_of_singleton in Hin as ->. by left.
Qed.

Lemma stories_rewrites log d d' raw P e :
  stories log d -> rewrites raw d d' P -> (forall id, event_id e <> Some id) ->
  (forall r r', P r r' -> (pr_state r = PairPending \/ pr_state r' = PairClaimed) /\ pr_state r' <> PairApproved) ->
  stories (e :: log) d'.
Proof.
  intros Hs Hr He HP id r Hl. destruct Hr as [Hp|(x & y & Hx & Hp & Hsame & Hxy)].
  { rewrite Hp in Hl. apply story_kept; [by apply Hs|]. left. apply He. }
  rewrite Hp in Hl. apply lookup_insert_Some in Hl as [[<- <-]|[Hne Hl]].
  - destruct (HP _ _ Hxy) as [H1 H2]. apply (story_written log raw x); auto. done.
  - apply story_kept; [by apply Hs|]. left. apply He.
Qed.

Lemma stories_step log d e d' : stories log d -> pair_step d e d' -> stories (e :: log) d'.
Proof.
  intros Hs Hstep. destruct Hstep as [o device name hash h raw location d d' a Hc Hh|o device name hash raw location d d' e Hc
    |c raw d d' r Hc|c raw renv env d d' Hc He|c raw renv d d' e Hc|c raw d d' r Hc|o raw secret token d d' t x acct vault env Hc
    |o raw secret token d d' r Hc Hn|d d' Hsub].
  - intros id r Hl. destruct (create_rows _ _ _ _ _ _ _ _ _ _ Hc Hh) as (rows & r0 & Hsub & Hnew & Hp & <- & <- & Hst).
    rewrite Hp in Hl. apply lookup_insert_Some in Hl as [[<- <-]|[Hne Hl]].
    + exists [], log. split_and!; [done|by constructor|]. by rewrite Hst.
    + apply story_kept; [apply Hs; by eapply lookup_weaken|]. left. cbn. congruence.
  - apply create_refused in Hc as ->. intros id r Hl. apply story_kept; [by apply Hs|by left].
  - eapply stories_rewrites; [done|by eapply details_rows|done|]. intros r0 r' [? ->]. by split; [left|].
  - destruct (approve_rows _ _ _ _ _ _ Hc He) as (r0 & r' & Hl0 & Hp & Hsame & Hst & Hst' & Hacc & Henv & Hfull & Hdev).
    intros id r Hl. rewrite Hp in Hl. apply lookup_insert_Some in Hl as [[<- <-]|[Hne Hl]].
    + apply (story_written log raw r0); [by apply Hs|done|by left|done|]. intros _. exists c, env.
      destruct Hsame as [Hd _]. split; [by left|]. by rewrite Hd.
    + apply story_kept; [by apply Hs|by left].
  - apply approve_refused in Hc as ->. intros id r Hl. apply story_kept; [by apply Hs|by left].
  - eapply stories_rewrites; [done|by eapply deny_rows|done|]. intros r0 r' [? ->]. by split; [left|].
  - apply claim_approved in Hc as (r0 & s & sealed & ex & Hl0 & _ & _ & _ & _ & _ & _ & Hp & _).
    intros id r Hl. rewrite Hp in Hl. apply lookup_insert_Some in Hl as [[<- <-]|[Hne Hl]].
    + apply (story_written log raw r0); [by apply Hs|done|by right|by intros []|done].
    + apply story_kept; [by apply Hs|]. left. cbn. congruence.
  - eapply stories_rewrites; [done|by eapply claim_other|done|]. intros r0 r' [? ->]. by split; [right|].
  - intros id r Hl. apply story_kept; [apply Hs; by eapply lookup_weaken|by left].
Qed.

Lemma stories_run d0 log d : pairings d0 = ∅ -> pair_run d0 log d -> stories log d.
Proof.
  intros H0. induction 1 as [|log d e d' _ IH Hstep]; [|by eapply stories_step].
  intros id r. by rewrite H0, lookup_empty.
Qed.

(** C20: however the requests of pairing devices are ordered, a claim is
    answered with a session only for a pairing made with the hash of its
    secret, once, after a fully entitled session of the account, on another
    device, approved it; the session is the pairing's device's, and the
    envelope the one of the approval. *)
Theorem pairing_session_once d0 log d o raw raw_secret raw_token d' token expires acct vault envelope :
  pairings d0 = ∅ -> pair_run d0 log d ->
  claim st o raw raw_secret raw_token d = (d', Ok (ClaimApproved token expires acct vault envelope)) ->
  exists mid pre device secret c sealed t,
    fixed32 raw_secret "claimSecret is not valid" = Ok secret /\
    log = mid ++ Made raw device (sha256 secret) :: pre /\
    Forall (fun e => event_id e <> Some raw) mid /\
    Allowed raw c sealed ∈ mid /\ account_id c = acct /\ entitlement c = EFull /\ device_id c <> device /\
    envelope = base64_encode sealed /\
    sessions (core d') !! hash_of token = Some {| ss_account := acct; ss_device := device; ss_expires := t |}.
Proof.
  intros H0 Hrun Hc. pose proof (stories_run _ _ _ H0 Hrun) as Hs.
  apply claim_approved in Hc as (r & secret & sealed & t & Hl & Hst & Hsec & Hh & Ha & He & -> & _ & _ & Hses).
  destruct (Hs _ _ Hl) as (mid & pre & -> & Hm & Hal). destruct (Hal Hst) as (c & env & Hin & Hac & Hen & Hfull & Hdev).
  rewrite Ha in Hac. injection Hac as Hac. rewrite He in Hen. injection Hen as <-.
  exists mid, pre, (pr_device r), secret, c, sealed, t. rewrite Hh. split_and!; try done. apply Hm. by right.
Qed.
End Pairings.

(** ** A desktop approved by a phone *)

Module ToyPairs.
Import ToyUnicode Rfc4648 ToyAuth.

Definition phone : Caller :=
  {| account_id := 5; device_id := 1; vault := vault_row; token_hash := []; subscription := None; entitlement := EFull |}.
Definition secret : list Z := replicate 32 4.
Definition secret_text : list Z := encode_text base64url_nopad secret.
Definition hash_text : list Z := encode_text base64url_nopad (sha256 secret).
Definition id : list Z := encode_text base64url_nopad (replicate 16 0).
Definition envelope : list Z := lit "sealed".

Definition of_ok_at {X} (m : M AuthDb ApiError X) (d : AuthDb) : AuthDb := (m d).1.
Definition made : AuthDb := of_ok_at (create server origin 2 (lit "Desk") hash_text (replicate 16 0) None) db0.
Definition seen_ : AuthDb := of_ok_at (details phone id) made.
Definition allowed : AuthDb := of_ok_at (approve phone id envelope) seen_.
Definition claimed : AuthDb := of_ok_at (claim server origin id secret_text (replicate 32 8)) allowed.
Definition token : list Z := encode_text base64url_nopad (replicate 32 8).
Definition story : list Event := [Allowed id phone envelope; Nothing; Made id 2 (sha256 secret)].

Lemma story_runs : pair_run server db0 story allowed.
Proof.
  eapply run_more; [eapply run_more; [eapply run_more; [apply run_here|]|]|].
  - apply (pair_create server origin 2 (lit "Desk") hash_text (sha256 secret) (replicate 16 0) None db0 made
      {| cr_id := id; cr_expires := to_rfc3339 1120 |}); vm_compute; reflexivity.
  - eapply (pair_details server phone id made seen_). vm_compute. reflexivity.
  - apply (pair_approve server phone id envelope envelope seen_ allowed); vm_compute; reflexivity.
Qed.

Lemma pairing_session_once_witness :
  exists mid pre device c t,
    story = mid ++ Made id device (sha256 secret) :: pre /\ Allowed id c envelope ∈ mid /\ account_id c = 5 /\
    sessions (core claimed) !! hash_of token = Some {| ss_account := 5; ss_device := device; ss_expires := t |}.
Proof.
  destruct (pairing_session_once server db0 story allowed origin id secret_text (replicate 32 8) claimed
    token (to_rfc3339 87400) 5 9 envelope) as (mid & pre & device & secret' & c & sealed & t & Hs & Hlog & _ & Hin & Hc & _ & _ & He & Hses).
  - reflexivity.
  - exact story_runs.
  - vm_compute. reflexivity.
  - assert (secret' = secret) as ->.
    { assert (fixed32 secret_text "claimSecret is not valid" = Ok secret) as E by (vm_compute; reflexivity).
      rewrite E in Hs. by injection Hs as <-. }
    change (base64_encode sealed) with sealed in He. subst sealed. exists mid, pre, device, c, t.
    exact (conj Hlog (conj Hin (conj Hc Hses))).
Defined.
End ToyPairs.
