(* ===== verification/ServerAccount.v ===== *)
(** * Accounts on the server: activation, signup, credentials, deletion
      (crates/havenkeys-server: routes/account.rs, accounts.rs, signup.rs,
      invite.rs, erase.rs)

    A handler that runs Argon2id between two looks at the row is two
    computations, the second under the row lock, so that other requests can
    be placed between them; the handler is one after the other. *)

From S2P Require Import Prelude Errors Text Blob Url Tags Totp Clean Card.
From S2P Require Import Identity CustomField Bank Sso Attachment Model Keys Store Origin Health.
From S2P Require Import BuildItem Vault Items Sync Encoding Dates Wire Admission Server ServerAuth.
From S2P Require Import ServerPairing.

Definition MAX_HEADER_BYTES : Z := 64 * 1024.
Definition KEY_SCHEME : Z := 3.
Definition TOMBSTONE_DAYS : Z := 30.
Definition SIGNUP_INVITE_TTL_HOURS : Z := 24.
Definition MAX_INVITE_CHARS : Z := 2048.
Definition CODE_TTL_MINUTES : Z := 15.
Definition CODE_MAX_ATTEMPTS : Z := 5.
Definition STARTS_PER_IP_PER_HOUR : Z := 5.
Definition STARTS_PER_EMAIL_PER_HOUR : Z := 3.
Definition VERIFY_FAILURES_PER_IP_PER_HOUR : Z := 10.
Definition STARTS_GLOBAL_PER_HOUR : Z := 300.
Definition SIGNUP_WINDOW_MINUTES : Z := 60.

(** ** Invites (invite.rs) *)

Record Invite := { iv_server : list Z; iv_email : list Z; iv_account : Z; iv_secret : list Z }.

Definition INVITE_PREFIX : list Z := lit "HKINV1-".
Definition bad_invite : ApiError := InvalidRequest "invite is not valid".

(** The KDF parameters of a request. *)
Record KdfDto := {
  kd_algorithm : list Z;
  kd_memory : Z;
  kd_iterations : Z;
  kd_parallelism : Z;
  kd_salt : list Z;
}.

(** How a request proves the account's key, and the key it installs. *)
Inductive Proof_ := PLegacy (key : list Z) | PPake (reauth_id finalization : list Z).
Inductive NewKey := NLegacy (key : list Z) | NPake (record : list Z).

Record Stored := { sd_verifier : option (list Z); sd_record : option (list Z); sd_grace : option Z }.
#[export] Instance Stored_eq_dec : EqDecision Stored.
Proof. solve_decision. Defined.

Record CredentialChange := {
  cc_auth_key : option (list Z);
  cc_reauth_id : option (list Z);
  cc_finalization : option (list Z);
  cc_kdf : KdfDto;
  cc_new_auth_key : option (list Z);
  cc_upload : option (list Z);
  cc_header : list Z;
  cc_base_revision : Z;
}.

(** What the first half of a credential change hands the second. *)
Record Proved := {
  pv_stored : Stored;
  pv_kdf : KdfDto;
  pv_salt : list Z;
  pv_verifier : option (list Z);
  pv_record : option (list Z);
  pv_header : list Z;
  pv_base : Z;
}.

Record ActivateRequest := {
  ac_email : list Z;
  ac_invite : list Z;
  ac_kdf : KdfDto;
  ac_auth_key : option (list Z);
  ac_upload : option (list Z);
  ac_vault : Z;
  ac_header : list Z;
  ac_key_scheme : Z;
}.

Inductive Locale := En | PtBr.
Definition locale_parse (raw : list Z) : option Locale :=
  if bool_decide (raw = lit "en") then Some En
  else if bool_decide (raw = lit "pt-BR") || bool_decide (raw = lit "pt-br") then Some PtBr
  else None.
Definition locale_from_db (stored : option (list Z)) : Locale := default En (stored ≫= locale_parse).
Definition locale_as_str (l : Locale) : list Z := match l with En => lit "en" | PtBr => lit "pt-BR" end.

Section ServerAccount.
Context {C : Crypto} {K : KeyLib} {U : Unicode} {H : HeaderLib} {Ck : Clock} {UT : UuidText}.
Context {B64 : Base64UrlLib} {AL : AuthLib} {TL : TotpLib} {SI : Serde Invite}.
Variable st : AppState.

Definition invite_encode (i : Invite) : list Z := INVITE_PREFIX ++ encode_text base64url_nopad (to_json i).
Definition invite_decode (raw : list Z) : result ApiError Invite :=
  let raw := trim raw in
  if MAX_INVITE_CHARS <? str_len raw then Err bad_invite
  else
    body ← ok_or bad_invite (strip_prefix INVITE_PREFIX raw);
    json ← ok_or bad_invite (decode_text base64url_nopad (utf8 body));
    ok_or bad_invite (from_json json).
Definition invite_hash (secret : list Z) : list Z := sha256 (utf8 secret).
Definition invite_secret (raw : list Z) : list Z := encode_text base64url_nopad raw.

(** ** What the routes check alike *)

Definition check_header (header : list Z) : result ApiError () :=
  guard_err (bool_decide (header = []) || (MAX_HEADER_BYTES <? len header)) (InvalidRequest "header is not valid").

Definition bad_kdf : ApiError := InvalidRequest "kdf parameters are not valid".
Definition kdf_check (k : KdfDto) : result ApiError (list Z) :=
  if negb (bool_decide (kd_algorithm k = lit "argon2id")) then Err bad_kdf
  else if negb (in_range MIN_MEMORY_KIB MAX_MEMORY_KIB (kd_memory k)
                && in_range MIN_ITERATIONS MAX_ITERATIONS (kd_iterations k)
                && in_range MIN_PARALLELISM MAX_PARALLELISM (kd_parallelism k)) then Err bad_kdf
  else
    salt ← ok_or bad_kdf (base64_decode (kd_salt k));
    if negb (length salt =? SALT_LEN)%nat then Err bad_kdf else Ok salt.

Definition proof_from (key reauth_id finalization : option (list Z)) : result ApiError Proof_ :=
  match key, reauth_id, finalization with
  | Some k, None, None => k ← decode_auth_key k; Ok (PLegacy k)
  | None, Some id, Some f => f ← decode_message f; Ok (PPake id f)
  | _, _, _ => Err (InvalidRequest "send currentAuthKey or a reauth proof")
  end.

Definition load_stored (acct : Z) : A Stored := mread (fun d =>
  l ← ok_or Unauthorized (if is_active acct d then logins d !! acct else None);
  Ok {| sd_verifier := lg_verifier l; sd_record := lg_record l; sd_grace := lg_grace l |}).

(** [check_proof]; [slot] as in [verify_auth_key]. *)
Definition check_proof (acct : Z) (stored : Stored) (p : Proof_) (slot : bool) : A () :=
  match p with
  | PLegacy key =>
      d ← mget;
      _ ← mlift (legacy_allowed st (sd_grace stored) (now (core d)));
      verifier ← mlift (ok_or Unauthorized (sd_verifier stored));
      _ ← mlift (guard_err (Wire.is_some (sd_record stored)) UpgradeRequired);
      ok ← mlift (verify_auth_key slot verifier key);
      mlift (guard_err (negb ok) Unauthorized)
  | PPake reauth_id finalization =>
      taken ← take_pending Reauth reauth_id;
      match taken with
      | Some (Some bound, pending) =>
          mlift (guard_err (negb ((bound =? acct) && login_finish pending finalization)) Unauthorized)
      | _ => mthrow_ Unauthorized
      end
  end.

Definition upload_record (upload : list Z) : result ApiError (list Z) :=
  m ← decode_message upload; ok_or bad_message (record_from_upload m).

(** ** Credentials (account.rs) *)

Definition new_key_of (p : Proof_) (new_key upload : option (list Z)) : result ApiError NewKey :=
  match new_key, upload, p with
  | Some k, None, PLegacy _ => k ← decode_auth_key k; Ok (NLegacy k)
  | Some _, None, PPake _ _ => Err (InvalidRequest "newAuthKey needs a legacy proof")
  | None, Some u, _ => r ← upload_record u; Ok (NPake r)
  | _, _, _ => Err (InvalidRequest "send newAuthKey or registrationUpload")
  end.

(** The proof of [acct]'s key, charged like a login. *)
Definition prove (o : Origin_) (acct : Z) (p : Proof_) (slot : bool) : A Stored :=
  let keys := attempt_keys acct (client_ip st o) in
  _ ← charge_keys keys;
  stored ← load_stored acct;
  _ ← check_proof acct stored p slot;
  _ ← clear_keys keys;
  mret stored.

Definition credentials_prove (o : Origin_) (c : Caller) (req : CredentialChange) (slot : bool) (salt_random : list Z)
    : A Proved :=
  _ ← mlift (require_full (entitlement c));
  _ ← mlift (check_header (cc_header req));
  _ ← mlift (guard_err (cc_base_revision req <? 0) (InvalidRequest "baseHeaderRevision is not valid"));
  salt ← mlift (kdf_check (cc_kdf req));
  p ← mlift (proof_from (cc_auth_key req) (cc_reauth_id req) (cc_finalization req));
  k ← mlift (new_key_of p (cc_new_auth_key req) (cc_upload req));
  stored ← prove o (account_id c) p slot;
  let '(verifier, record) := match k with
                             | NLegacy key => (Some (argon2_hash salt_random key), None)
                             | NPake r => (None, Some r)
                             end in
  mret {| pv_stored := stored; pv_kdf := cc_kdf req; pv_salt := salt; pv_verifier := verifier; pv_record := record;
          pv_header := cc_header req; pv_base := cc_base_revision req |}.

Definition with_credentials (k : KdfDto) (salt : list Z) (verifier record : option (list Z)) (l : LoginRow) : LoginRow :=
  {| lg_email := lg_email l; lg_memory := Some (kd_memory k); lg_iterations := Some (kd_iterations k);
     lg_parallelism := Some (kd_parallelism k); lg_salt := Some salt; lg_verifier := verifier; lg_record := record;
     lg_grace := lg_grace l; lg_invite := lg_invite l; lg_invite_expires := lg_invite_expires l;
     lg_terms := lg_terms l; lg_locale := lg_locale l;
     lg_created := lg_created l; lg_created_by := lg_created_by l |}.

Definition with_header (header : list Z) (rev : Z) (v : VaultRow) : VaultRow :=
  {| v_id := v_id v; v_header := header; v_header_revision := rev; v_key_scheme := v_key_scheme v;
     v_revision := v_revision v; v_items := v_items v; v_files := v_files v |}.

(** The stored credentials must be those the proof was checked against. *)
Definition same_stored (acct : Z) (stored : Stored) : A () :=
  now_stored ← load_stored acct;
  mlift (guard_err (negb (bool_decide (now_stored = stored))) Conflict).

Definition credentials_commit (c : Caller) (p : Proved) : A Z :=
  transaction (
    _ ← same_stored (account_id c) (pv_stored p);
    d ← mget;
    v ← mlift (ok_or Internal (a ← accounts (core d) !! account_id c; v ← a_vault a;
                               if v_id v =? v_id (vault c) then Some v else None));
    _ ← mlift (guard_err (negb (pv_base p =? v_header_revision v)) Conflict);
    let next := as_i64 (v_header_revision v + 1) in
    _ ← mmodify (fun d => set_logins (alter (with_credentials (pv_kdf p) (pv_salt p) (pv_verifier p) (pv_record p))
                                        (account_id c) (logins d)) d);
    _ ← mmodify (fun d => set_core (set_vault (account_id c) (with_header (pv_header p) next v) (core d)) d);
    _ ← mmodify (fun d => set_core (set_sessions (filter (fun s => ss_account s.2 <> account_id c \/ s.1 = token_hash c)
                                                    (sessions (core d))) (core d)) d);
    mret next).

Definition change_credentials (o : Origin_) (c : Caller) (req : CredentialChange) (slot : bool) (salt_random : list Z)
    : A Z :=
  p ← credentials_prove o c req slot salt_random; credentials_commit c p.

(** ** OPAQUE inside a session *)

Definition pake_register (c : Caller) (raw_request : list Z) : result ApiError (list Z) :=
  request ← decode_message raw_request;
  response ← ok_or bad_message (server_register request (uuid_bytes (account_id c)));
  Ok (base64_encode response).

Definition pake_reauth (o : Origin_) (c : Caller) (raw_request raw random : list Z) : A PakeStartAnswer :=
  request ← mlift (decode_message raw_request);
  _ ← charge_keys (attempt_keys (account_id c) (client_ip st o));
  stored ← load_stored (account_id c);
  pr ← mlift (ok_or bad_message (login_start (sd_record stored) request (uuid_bytes (account_id c)) random));
  id ← put_pending Reauth (Some (account_id c)) pr.1 raw;
  mret {| ps_login_id := id; ps_response := base64_encode pr.2 |}.

Definition with_record (r : list Z) (l : LoginRow) : LoginRow :=
  {| lg_email := lg_email l; lg_memory := lg_memory l; lg_iterations := lg_iterations l;
     lg_parallelism := lg_parallelism l; lg_salt := lg_salt l; lg_verifier := lg_verifier l; lg_record := Some r;
     lg_grace := None; lg_invite := lg_invite l; lg_invite_expires := lg_invite_expires l;
     lg_terms := lg_terms l; lg_locale := lg_locale l;
     lg_created := lg_created l; lg_created_by := lg_created_by l |}.

Definition enroll_prove (o : Origin_) (c : Caller) (raw_key upload : list Z) (slot : bool) : A (Stored * list Z) :=
  key ← mlift (decode_auth_key raw_key);
  record ← mlift (upload_record upload);
  let keys := attempt_keys (account_id c) (client_ip st o) in
  _ ← charge_keys keys;
  stored ← load_stored (account_id c);
  _ ← mlift (guard_err (Wire.is_some (sd_record stored)) Conflict);
  _ ← check_proof (account_id c) stored (PLegacy key) slot;
  _ ← clear_keys keys;
  mret (stored, record).

Definition enroll_commit (c : Caller) (p : Stored * list Z) : A () :=
  transaction (
    _ ← same_stored (account_id c) p.1;
    mmodify (fun d => set_logins (alter (with_record p.2) (account_id c) (logins d)) d)).

Definition pake_enroll (o : Origin_) (c : Caller) (raw_key upload : list Z) (slot : bool) : A () :=
  p ← enroll_prove o c raw_key upload slot; enroll_commit c p.

(** ** Erasing (erase.rs) *)

(** [HEXLOWER] of bytes, [code_hash] and [signup_email_key] (signup.rs). *)
Definition hex_digit_of (n : Z) : Z := if n <? 10 then 48 + n else 87 + n.
Definition hex_lower (b : list Z) : list Z := b ≫= (fun x => [hex_digit_of (x / 16); hex_digit_of (x mod 16)]).
Definition code_hash (code : list Z) : list Z := default [] (hmac Totp.Sha256 (server_secret st) (utf8 code)).
Definition signup_email_key (email : list Z) : list Z := lit "signup-email:" ++ hex_lower (take 16 (code_hash email)).

Definition devices_of (acct : Z) (d : AuthDb) : list Z :=
  map fst (map_to_list (filter (fun p => dv_account p.2 = acct) (devices (core d)))).

(** The rows [account]'s foreign keys take with it. *)
Definition cascade (acct : Z) (d : AuthDb) : AuthDb :=
  let gone := devices_of acct d in
  {| core := {| accounts := delete acct (accounts (core d));
                devices := filter (fun p => dv_account p.2 <> acct) (devices (core d));
                sessions := filter (fun p => ss_account p.2 <> acct /\ ss_device p.2 ∉ gone) (sessions (core d));
                deleted_sessions := deleted_sessions (core d); max_vault_bytes := max_vault_bytes (core d);
                now := now (core d) |};
     logins := delete acct (logins d);
     device_cols := filter (fun p => p.1 ∉ gone) (device_cols d);
     pairings := filter (fun p => pr_account p.2 <> Some acct) (pairings d);
     pake_pending := filter (fun p => pn_account p.2 <> Some acct) (pake_pending d);
     login_attempts := login_attempts d; deleted_devices := deleted_devices d; signup_codes := signup_codes d |}.

Definition put_new {X} (keys : list (list Z)) (x : X) (t : gmap (list Z) X) : gmap (list Z) X :=
  foldl (fun t k => match t !! k with Some _ => t | None => <[k := x]> t end) t keys.

(** The tombstones of its tokens and devices. *)
Definition tombstones (acct : Z) (d : AuthDb) : AuthDb :=
  let until := now (core d) + TOMBSTONE_DAYS * 24 * 3600 in
  let tokens := map fst (map_to_list (filter (fun p => ss_account p.2 = acct) (sessions (core d)))) in
  let c := core d in
  set_deleted_devices (put_new (map device_hash (devices_of acct d)) until (deleted_devices d))
    (set_core {| accounts := accounts c; devices := devices c; sessions := sessions c;
                 deleted_sessions := put_new tokens until (deleted_sessions c);
                 max_vault_bytes := max_vault_bytes c; now := now c |} d).

Definition delete_opt {X} (k : option (list Z)) (t : gmap (list Z) X) : gmap (list Z) X :=
  match k with Some k => delete k t | None => t end.
Definition drop_counters (acct : Z) (email : option (list Z)) (d : AuthDb) : AuthDb :=
  set_attempts (delete_opt (signup_email_key <$> email) (delete (lit "acct:" ++ uuid_text acct) (login_attempts d))) d.
Definition drop_pairings (acct : Z) (d : AuthDb) : AuthDb :=
  set_pairings (filter (fun p => pr_account p.2 <> Some acct /\ pr_device p.2 ∉ devices_of acct d) (pairings d)) d.
Definition drop_signup (email : option (list Z)) (d : AuthDb) : AuthDb :=
  set_signup_codes (delete_opt email (signup_codes d)) d.

Definition erase_account (acct : Z) (d : AuthDb) : AuthDb :=
  let email := lg_email <$> logins d !! acct in
  cascade acct (drop_signup email (drop_pairings acct (drop_counters acct email (tombstones acct d)))).

Definition mismatch : ApiError := InvalidRequest "the email does not match this account".

Definition delete_prove (o : Origin_) (c : Caller) (key reauth_id finalization : option (list Z)) (raw_email : list Z)
    (slot : bool) : A Stored :=
  typed ← mlift (ok_or mismatch (normalize raw_email));
  p ← mlift (proof_from key reauth_id finalization);
  let keys := attempt_keys (account_id c) (client_ip st o) in
  _ ← charge_keys keys;
  d ← mget;
  l ← mlift (ok_or Unauthorized (if is_active (account_id c) d then logins d !! account_id c else None));
  _ ← mlift (guard_err (negb (bool_decide (typed = lg_email l))) mismatch);
  stored ← load_stored (account_id c);
  _ ← check_proof (account_id c) stored p slot;
  _ ← clear_keys keys;
  mret stored.

Definition delete_commit (c : Caller) (stored : Stored) : A () :=
  transaction (
    _ ← same_stored (account_id c) stored;
    mmodify (erase_account (account_id c))).

Definition delete_account (o : Origin_) (c : Caller) (key reauth_id finalization : option (list Z)) (raw_email : list Z)
    (slot : bool) : A () :=
  s ← delete_prove o c key reauth_id finalization raw_email slot; delete_commit c s.

(** [sweep_tombstones]. *)
Definition sweep_tombstones (d : AuthDb) : AuthDb :=
  let t := now (core d) in
  let c := core d in
  set_deleted_devices (filter (fun p => t < p.2) (deleted_devices d))
    (set_core {| accounts := accounts c; devices := devices c; sessions := sessions c;
                 deleted_sessions := filter (fun p => t < p.2) (deleted_sessions c);
                 max_vault_bytes := max_vault_bytes c; now := now c |} d).

(** ** Activation (accounts.rs) *)

(** The account row an invite's id and e-mail name. *)
Definition invited_row (i : Invite) (email : list Z) (d : AuthDb) : option (AccountRow * LoginRow) :=
  a ← accounts (core d) !! iv_account i;
  l ← logins d !! iv_account i;
  if bool_decide (lg_email l = email) then Some (a, l) else None.

Definition invite_accepted (r : AccountRow * LoginRow) (secret : list Z) (t : Z) : bool :=
  bool_decide (a_status r.1 = AInvited)
  && bool_decide (lg_invite r.2 = Some (invite_hash secret))
  && match lg_invite_expires r.2 with Some e => t <=? e | None => false end.

(** [invite_is_plausible], counted against the address when it is not. *)
Definition invite_checked (o : Origin_) (i : Invite) (email : list Z) : A () :=
  let key := ip_key (client_ip st o) in
  _ ← check_key key;
  d ← mget;
  match invited_row i email d with
  | Some r => if invite_accepted r (iv_secret i) (now (core d)) then mret ()
              else _ ← fail_key key; mthrow_ bad_invite
  | None => _ ← fail_key key; mthrow_ bad_invite
  end.

Definition invite_for (raw_email raw_invite : list Z) : result ApiError (list Z * Invite) :=
  email ← ok_or (InvalidRequest "email address is not valid") (normalize raw_email);
  i ← invite_decode raw_invite;
  if negb (bool_decide (iv_email i = email)) then Err bad_invite else Ok (email, i).

Definition activate_register (o : Origin_) (raw_email raw_invite raw_request : list Z) : A (list Z) :=
  ei ← mlift (invite_for raw_email raw_invite);
  request ← mlift (decode_message raw_request);
  _ ← invite_checked o ei.2 ei.1;
  response ← mlift (ok_or bad_message (server_register request (uuid_bytes (iv_account ei.2))));
  mret (base64_encode response).

(** The credential of a request, before any hashing. *)
Definition activation_key (req : ActivateRequest) (t : Z) : result ApiError NewKey :=
  match ac_auth_key req, ac_upload req with
  | Some k, None => _ ← legacy_allowed st None t; k ← decode_auth_key k; Ok (NLegacy k)
  | None, Some u => r ← upload_record u; Ok (NPake r)
  | _, _ => Err (InvalidRequest "send authKey or registrationUpload")
  end.

Definition activate_check (o : Origin_) (req : ActivateRequest) (salt_random : list Z)
    : A (list Z * Invite * list Z * (option (list Z) * option (list Z))) :=
  ei ← mlift (invite_for (ac_email req) (ac_invite req));
  _ ← mlift (guard_err (negb (ac_key_scheme req =? KEY_SCHEME)) (InvalidRequest "unsupported key scheme"));
  _ ← mlift (check_header (ac_header req));
  salt ← mlift (kdf_check (ac_kdf req));
  d ← mget;
  k ← mlift (activation_key req (now (core d)));
  _ ← invite_checked o ei.2 ei.1;
  mret (ei.1, ei.2, salt, match k with
                          | NLegacy key => (Some (argon2_hash salt_random key), None)
                          | NPake r => (None, Some r)
                          end).

Definition activated (req : ActivateRequest) (salt : list Z) (vr : option (list Z) * option (list Z)) (l : LoginRow)
    : LoginRow :=
  {| lg_email := lg_email l; lg_memory := Some (kd_memory (ac_kdf req)); lg_iterations := Some (kd_iterations (ac_kdf req));
     lg_parallelism := Some (kd_parallelism (ac_kdf req)); lg_salt := Some salt; lg_verifier := vr.1; lg_record := vr.2;
     lg_grace := lg_grace l; lg_invite := None; lg_invite_expires := None; lg_terms := lg_terms l; lg_locale := lg_locale l;
     lg_created := lg_created l; lg_created_by := lg_created_by l |}.

(** The trial starts at activation, unless its end is already set. *)
Definition start_trial (t : Z) (b : Billing) : Billing :=
  match plan_row b with
  | Some r =>
      if bool_decide (pr_status r = lit "trialing") && negb (Wire.is_some (pr_trial r))
      then {| plan_row := Some {| pr_status := pr_status r; pr_trial := Some (t + TRIAL_DAYS * 24 * 3600);
                                  pr_period := pr_period r; pr_grace := pr_grace r |};
              billing_events := billing_events b |}
      else b
  | None => b
  end.

(** A vault id in use, by any account. *)
Definition vault_taken (id : Z) (d : AuthDb) : bool :=
  existsb (fun p => match a_vault p.2 with Some v => v_id v =? id | None => false end) (map_to_list (accounts (core d))).

Definition activate_commit (req : ActivateRequest)
    (p : list Z * Invite * list Z * (option (list Z) * option (list Z))) : A (Z * Z) :=
  let '(email, i, salt, vr) := p in
  transaction (
    d ← mget;
    r ← mlift (ok_or bad_invite (invited_row i email d));
    _ ← mlift (guard_err (negb (invite_accepted r (iv_secret i) (now (core d)))) bad_invite);
    _ ← mmodify (fun d => set_logins (alter (activated req salt vr) (iv_account i) (logins d)) d);
    _ ← mlift (guard_err (vault_taken (ac_vault req) d || Wire.is_some (a_vault r.1)) (InvalidRequest "vaultId is not available"));
    let v := {| v_id := ac_vault req; v_header := ac_header req; v_header_revision := 0; v_key_scheme := KEY_SCHEME;
                v_revision := 0; v_items := ∅; v_files := ∅ |} in
    _ ← mmodify (fun d => set_core
          {| accounts := alter (fun a => {| a_status := AActive; a_billing := start_trial (now (core d)) (a_billing a);
                                            a_vault := Some v |}) (iv_account i) (accounts (core d));
             devices := devices (core d); sessions := sessions (core d); deleted_sessions := deleted_sessions (core d);
             max_vault_bytes := max_vault_bytes (core d); now := now (core d) |} d);
    mret (iv_account i, ac_vault req)).

Definition activate (o : Origin_) (req : ActivateRequest) (salt_random : list Z) : A (Z * Z) :=
  p ← activate_check o req salt_random;
  a ← activate_commit req p;
  _ ← clear_keys [ip_key (client_ip st o)];
  mret a.

(** ** Signup (signup.rs) *)

Definition generate_code (n : Z) : list Z := pad_zeros 6 (to_decimal n).
Definition address_key (ip : list Z) : list Z := lit "signup-" ++ ip_key ip.

Definition check_terms_version (raw : list Z) : result ApiError (list Z) :=
  let b := utf8 raw in
  let shaped := (length b =? 10)%nat &&
                forallb (fun p : nat * Z => if bool_decide (p.1 = 4%nat) || bool_decide (p.1 = 7%nat)
                                            then p.2 =? 45 else is_ascii_digit p.2) (imap pair b) in
  if shaped then Ok raw else Err (InvalidRequest "acceptedTerms is not valid").

Inductive Mail := MCode (locale : Locale) (code : list Z) | MRegistered (locale : Locale) | MInvite (locale : Locale) (text : list Z).

(** [start]: the mail to send; [sent] is whether it went out. *)
Definition signup_start (o : Origin_) (raw_email raw_locale raw_terms : list Z) (code : Z) (sent : bool) : A Mail :=
  _ ← mlift (guard_err (negb (has_mailer st && Wire.is_some (signup_url st))) Server.NotFound);
  locale ← mlift (ok_or (InvalidRequest "locale is not valid") (locale_parse raw_locale));
  terms ← mlift (check_terms_version raw_terms);
  email ← mlift (ok_or (InvalidRequest "email address is not valid") (normalize raw_email));
  let ip := client_ip st o in
  _ ← charge_window_key (lit "signup-global") STARTS_GLOBAL_PER_HOUR SIGNUP_WINDOW_MINUTES;
  _ ← charge_window_key (address_key ip) STARTS_PER_IP_PER_HOUR SIGNUP_WINDOW_MINUTES;
  _ ← charge_window_key (signup_email_key email) STARTS_PER_EMAIL_PER_HOUR SIGNUP_WINDOW_MINUTES;
  d ← mget;
  let invited := match by_email email d with
                 | Some (acct, _) => match accounts (core d) !! acct with
                                     | Some a => bool_decide (a_status a = AInvited)
                                     | None => true
                                     end
                 | None => true
                 end in
  mail ← (if invited then
            _ ← mmodify (fun d => set_signup_codes (<[email :=
                  {| su_hash := code_hash (generate_code code); su_locale := locale_as_str locale; su_terms := terms;
                     su_expires := now (core d) + CODE_TTL_MINUTES * 60; su_attempts := 0 |}]> (signup_codes d)) d);
            mret (MCode locale (generate_code code))
          else
            _ ← mmodify (fun d => set_signup_codes (delete email (signup_codes d)) d);
            mret (MRegistered locale));
  if sent then mret mail else mthrow_ Unavailable.

Definition bad_code : ApiError := InvalidRequest "code is not valid".

(** A failed guess is counted, whatever the counter answers. *)
Definition verify_failed (ip : list Z) : A () := fun d =>
  ((charge_window_key ip VERIFY_FAILURES_PER_IP_PER_HOUR SIGNUP_WINDOW_MINUTES d).1, Err bad_code).

Definition with_invite (hash : list Z) (expires : Z) (terms locale : list Z) (l : LoginRow) : LoginRow :=
  {| lg_email := lg_email l; lg_memory := lg_memory l; lg_iterations := lg_iterations l;
     lg_parallelism := lg_parallelism l; lg_salt := lg_salt l; lg_verifier := lg_verifier l; lg_record := lg_record l;
     lg_grace := lg_grace l; lg_invite := Some hash; lg_invite_expires := Some expires; lg_terms := Some terms;
     lg_locale := Some locale; lg_created := lg_created l; lg_created_by := lg_created_by l |}.
Definition no_login (email : list Z) (t : Z) (by_ : list Z) : LoginRow :=
  {| lg_email := email; lg_memory := None; lg_iterations := None; lg_parallelism := None; lg_salt := None;
     lg_verifier := None; lg_record := None; lg_grace := None; lg_invite := None; lg_invite_expires := None;
     lg_terms := None; lg_locale := None; lg_created := t; lg_created_by := by_ |}.

Definition with_billing (acct : Z) (f : Billing -> Billing) (d : AuthDb) : AuthDb :=
  set_core {| accounts := alter (fun a => {| a_status := a_status a; a_billing := f (a_billing a); a_vault := a_vault a |})
                            acct (accounts (core d));
              devices := devices (core d); sessions := sessions (core d); deleted_sessions := deleted_sessions (core d);
              max_vault_bytes := max_vault_bytes (core d); now := now (core d) |} d.

(** A new invited account, with its plan. *)
Definition insert_account (acct : Z) (l : LoginRow) (b : Billing) (d : AuthDb) : AuthDb :=
  set_logins (<[acct := l]> (logins d))
    (set_core {| accounts := <[acct := {| a_status := AInvited; a_billing := b; a_vault := None |}]> (accounts (core d));
                 devices := devices (core d); sessions := sessions (core d); deleted_sessions := deleted_sessions (core d);
                 max_vault_bytes := max_vault_bytes (core d); now := now (core d) |} d).
Definition no_billing : Billing := {| plan_row := None; billing_events := [] |}.

(** The account a right code invites: a new one, or the one still waiting. *)
Definition invite_account (email : list Z) (row : SignupRow) (fresh : Z) (secret : list Z) : A Z :=
  d ← mget;
  let expires := now (core d) + SIGNUP_INVITE_TTL_HOURS * 3600 in
  let locale := locale_as_str (locale_from_db (Some (su_locale row))) in
  let invited := with_invite (invite_hash secret) expires (su_terms row) locale in
  match by_email email d with
  | None =>
      if Wire.is_some (accounts (core d) !! fresh) then mthrow_ bad_code
      else
        _ ← mmodify (insert_account fresh (invited (no_login email (now (core d)) (lit "signup")))
                       (set_status System Trialing None (lit "signup") no_billing));
        mret fresh
  | Some (acct, _) =>
      match accounts (core d) !! acct with
      | Some a =>
          if bool_decide (a_status a = AInvited) then
            _ ← mmodify (fun d => set_logins (alter invited acct (logins d)) d);
            _ ← mwhen (negb (Wire.is_some (load (a_billing a))))
                  (mmodify (with_billing acct (set_status System Trialing None (lit "signup"))));
            mret acct
          else mthrow_ bad_code
      | None => mthrow_ Internal
      end
  end.

Definition drop_code (email : list Z) : A () := mmodify (fun d => set_signup_codes (delete email (signup_codes d)) d).
Definition count_attempt (email : list Z) : A () :=
  mmodify (fun d => set_signup_codes (alter (fun r => {| su_hash := su_hash r; su_locale := su_locale r; su_terms := su_terms r;
                                                         su_expires := su_expires r; su_attempts := su_attempts r + 1 |})
                                        email (signup_codes d)) d).

Definition signup_verify (o : Origin_) (raw_email code : list Z) (fresh : Z) (raw : list Z) : A (list Z) :=
  _ ← mlift (guard_err (negb (has_mailer st && Wire.is_some (signup_url st))) Server.NotFound);
  email ← mlift (ok_or bad_code (normalize raw_email));
  _ ← mlift (guard_err (negb (str_len code =? 6) || negb (all_digits code)) bad_code);
  let ip := address_key (client_ip st o) in
  _ ← over_window_key ip VERIFY_FAILURES_PER_IP_PER_HOUR SIGNUP_WINDOW_MINUTES;
  d ← mget;
  match signup_codes d !! email with
  | None => _ ← verify_failed ip; mthrow_ bad_code
  | Some row =>
      let expired := su_expires row <? now (core d) in
      let matches := bool_decide (su_hash row = code_hash code) in
      if expired || (CODE_MAX_ATTEMPTS <=? su_attempts row) || negb matches then
        _ ← (if expired || (CODE_MAX_ATTEMPTS <=? su_attempts row + 1) then drop_code email else count_attempt email);
        _ ← verify_failed ip; mthrow_ bad_code
      else
        let secret := invite_secret raw in
        let active := match by_email email d with
                      | Some (acct, _) => match accounts (core d) !! acct with
                                          | Some a => negb (bool_decide (a_status a = AInvited))
                                          | None => false
                                          end
                      | None => false
                      end in
        if active then _ ← drop_code email; mthrow_ bad_code
        else
          acct ← transaction (_ ← drop_code email; invite_account email row fresh secret);
          mret (invite_encode {| iv_server := default [] (signup_url st); iv_email := email; iv_account := acct;
                                 iv_secret := secret |})
  end.
End ServerAccount.

(** ** What the server's sign-in, credentials and deletion promise *)

Lemma alter_insert_case {K A} `{Countable K} (f : A -> A) (k : K) (m : gmap K A) :
  alter f k m = match m !! k with Some x => <[k := f x]> m | None => m end.
Proof.
  apply map_eq. intros j. destruct (m !! k) as [x|] eqn:E; destruct (decide (j = k)) as [->|].
  - by rewrite lookup_alter_eq, E, lookup_insert_eq.
  - by rewrite lookup_alter_ne, lookup_insert_ne.
  - by rewrite lookup_alter_eq, E.
  - by rewrite lookup_alter_ne.
Qed.

Section Accounts.
Context {C : Crypto} {K : KeyLib} {U : Unicode} {H : HeaderLib} {Ck : Clock} {UT : UuidText}.
Context {B64 : Base64UrlLib} {AL : AuthLib} {TL : TotpLib} {SI : Serde Invite}.
Variable st : AppState.

(** ** Counters touch nothing else *)

Lemma charge_keys_run keys d d' r : charge_keys keys d = (d', r) -> exists t, d' = set_attempts t d.
Proof.
  unfold charge_keys. destruct (charge _ _ _) as [t []]; intros [= <- _]; [by exists t|].
  exists (login_attempts d). by destruct d.
Qed.

Lemma clear_keys_run keys d : clear_keys keys d = (set_attempts (clear keys (login_attempts d)) d, Ok ()).
Proof. done. Qed.

(** ** The last step of a sign-in *)

(** A session for [device] of [acct], the only one of that device. *)
Record signed_in (acct device : Z) (token : list Z) (d d' : AuthDb) : Prop := {
  si_sessions : sessions (core d') =
    <[hash_of token := {| ss_account := acct; ss_device := device; ss_expires := now (core d) + SESSION_TTL_HOURS * 3600 |}]>
      (filter (fun p => ss_device p.2 <> device) (sessions (core d)));
  si_device : devices (core d') !! device = Some {| dv_account := acct; dv_revoked := false; dv_last_seen := Some (now (core d)) |};
  si_devices : forall i, i <> device -> devices (core d') !! i = devices (core d) !! i;
  si_accounts : accounts (core d') = accounts (core d);
  si_pending : pake_pending d' = pake_pending d;
  si_known : known_device acct device d = true \/ entitlement_of (plan_of acct d) (now (core d)) = EFull;
}.

Lemma register_run acct device name d d' :
  register_device acct device name d = (d', Ok ()) ->
  exists cols, d' = set_device_cols cols
    (set_core (set_devices (<[device := {| dv_account := acct; dv_revoked := false; dv_last_seen := Some (now (core d)) |}]>
                              (devices (core d))) (core d)) d).
Proof.
  unfold register_device. destruct (devices (core d) !! device) as [r|].
  - destruct (Z.eqb_spec (dv_account r) acct) as [->|]; cbn [negb orb]; [|done].
    destruct (dv_revoked r); [done|]. intros [= <-]. by eexists.
  - destruct (_ <=? _)%nat; [done|]. intros [= <-]. by eexists.
Qed.

Lemma complete_login_run keys acct device name raw d d' a :
  complete_login keys acct device name raw d = (d', Ok a) ->
  signed_in acct device (la_token a) d d' /\
  exists r v, accounts (core d) !! acct = Some r /\ a_vault r = Some v /\ la_vault a = v_id v.
Proof.
  unfold complete_login. rewrite run_mget. intros Hc. apply M_bind_Ok in Hc as (v & d1 & [-> Hv]%mlift_Ok & Hc).
  destruct (accounts (core d) !! acct) as [r|] eqn:Er; [|done]. cbn [mbind option_bind] in Hv.
  destruct (a_vault r) as [v'|] eqn:Ev; [|done]. injection Hv as ->.
  rewrite (run_bind _ _ _ _ _ (clear_keys_run _ _)) in Hc.
  apply M_bind_Ok in Hc as ([] & d1 & [-> Hg]%mlift_Ok & Hc).
  apply M_bind_Ok in Hc as ([] & d1 & Hr & Hc). apply register_run in Hr as [cols ->].
  unfold drop_sessions in Hc. rewrite run_mmodify in Hc. apply M_bind_Ok in Hc as ([tok exp] & d1 & Ht & Hc).
  unfold issue_token in Ht. destruct (sessions _ !! hash_of (encode_text base64url_nopad raw)); [done|].
  injection Ht as <- <- <-. injection Hc as <- <-. split; [|by exists r, v]. cbn. split; cbn; try done.
  - apply lookup_insert_eq.
  - intros i Hi. by rewrite lookup_insert_ne.
  - unfold guard_err in Hg. destruct (known_device acct device d); [by left|]. right. cbn [negb andb] in Hg. destruct (entitlement_of _ _); [done|].
    by rewrite bool_decide_eq_true_2 in Hg.
Qed.

Lemma take_pending_run purpose id d d' acct pending :
  take_pending purpose id d = (d', Ok (Some (acct, pending))) ->
  exists p, pake_pending d !! hash_of id = Some p /\ pn_purpose p = purpose /\ now (core d) < pn_expires p /\
    pn_account p = acct /\ pn_state p = pending /\ d' = set_pending (delete (hash_of id) (pake_pending d)) d.
Proof.
  unfold take_pending. destruct (64 <? _); [done|]. destruct (pake_pending d !! hash_of id) as [p|]; [|done].
  destruct (bool_decide_reflect (pn_purpose p = purpose)); [|done]. destruct (Z.ltb_spec (now (core d)) (pn_expires p)); [|done].
  intros [= <- <- <-]. by exists p.
Qed.

Lemma legacy_open grace t : legacy_allowed st grace t = Ok () ->
  match legacy_auth_until st with
  | Some until => t < until \/ exists g, grace = Some g /\ t < g
  | None => True
  end.
Proof.
  unfold legacy_allowed. destruct (legacy_auth_until st) as [u|]; [|done].
  destruct (Z.leb_spec u t); [|by left]. destruct grace as [g|]; [|done]. cbn [andb].
  destruct (Z.ltb_spec t g); [|done]. right. by exists g.
Qed.

(** C18: a sign-in ends with a session only when the key was proved.  The
    OPAQUE path takes an unexpired exchange this account started and the
    proof that completes it, and spends the exchange; the legacy path, while
    it is open, takes a key the stored verifier accepts.  The session is the
    device's only one, the device is the account's and not revoked, and a
    frozen account gains no device. *)
Theorem sign_in_needs_proof o login_id finalization email key device name raw slot d :
  (forall d' a, pake_finish st o login_id finalization device name raw d = (d', Ok a) ->
     exists acct p f d1, pake_pending d !! hash_of login_id = Some p /\ pn_purpose p = Login /\
       pn_account p = Some acct /\ now (core d) < pn_expires p /\ decode_message finalization = Ok f /\
       login_finish (pn_state p) f = true /\ d1 = set_pending (delete (hash_of login_id) (pake_pending d)) d /\
       signed_in acct device (la_token a) d1 d' /\
       (forall raw' device' name', exists e, pake_finish st o login_id finalization device' name' raw' d' = (d', Err e))) /\
  (forall d' a, login st o email key device name raw slot d = (d', Ok a) ->
     exists acct l k t d1, active_by_email (email_or_text email) d = Some (acct, l) /\ decode_auth_key key = Ok k /\
       argon2_verify (default dummy_verifier (lg_verifier l)) k = true /\
       match legacy_auth_until st with
       | Some until => now (core d) < until \/ exists g, lg_grace l = Some g /\ now (core d) < g
       | None => True
       end /\ d1 = set_attempts t d /\ signed_in acct device (la_token a) d1 d').
Proof.
  split; intros d' a Hc.
  - unfold pake_finish in Hc. apply M_bind_Ok in Hc as (f & d1 & [-> Hf]%mlift_Ok & Hc).
    apply M_bind_Ok in Hc as (n & d1 & [-> _]%mlift_Ok & Hc). apply M_bind_Ok in Hc as (taken & d1 & Ht & Hc).
    rewrite run_mget in Hc. destruct taken as [[[acct|] pending]|]; [|done|done].
    apply take_pending_run in Ht as (p & Hp & Hpu & Hx & Ha & <- & ->).
    destruct (login_finish (pn_state p) f) eqn:Ef; [|done]. apply complete_login_run in Hc as [Hs _].
    exists acct, p, f. eexists. split_and!; try done.
    intros raw' device' name'. unfold pake_finish. rewrite run_mlift, Hf, run_mlift.
    destruct (clean_device_name name') as [n'|e]; [|by exists e].
    assert (take_pending Login login_id d' = (d', Ok None)) as Hnone.
    { unfold take_pending. destruct (64 <? _); [done|]. rewrite (si_pending _ _ _ _ _ Hs). cbn.
      by rewrite lookup_delete_eq. }
    rewrite (run_bind _ _ _ _ _ Hnone), run_mget. by eexists.
  - unfold login in Hc. apply M_bind_Ok in Hc as (k & d1 & [-> Hk]%mlift_Ok & Hc).
    apply M_bind_Ok in Hc as (n & d1 & [-> _]%mlift_Ok & Hc). rewrite run_mget in Hc.
    apply M_bind_Ok in Hc as ([] & d1 & [-> Hl]%mlift_Ok & Hc). apply M_bind_Ok in Hc as ([] & d1 & Hch & Hc).
    apply charge_keys_run in Hch as [t ->]. apply M_bind_Ok in Hc as (ok & d1 & [-> Hok]%mlift_Ok & Hc).
    rewrite run_mget in Hc. destruct (active_by_email _ d) as [[acct l]|] eqn:Ea.
    2: { by rewrite andb_false_r in Hc. }
    cbn [Wire.is_some negb] in Hc. rewrite andb_true_r in Hc. destruct ok; [|done]. cbn [negb] in Hc.
    apply complete_login_run in Hc as [Hs _]. exists acct, l, k, t. eexists. split_and!; try done.
    + unfold verify_auth_key in Hok. destruct slot; [|done]. by injection Hok.
    + by apply legacy_open in Hl.
Qed.

(** ** Proofs of the current key *)

(** What a right proof is, at the state it is checked in. *)
Definition proves (acct : Z) (stored : Stored) (p : Proof_) (d : AuthDb) : Prop :=
  match p with
  | PLegacy key =>
      sd_record stored = None /\ (exists v, sd_verifier stored = Some v /\ argon2_verify v key = true) /\
      legacy_allowed st (sd_grace stored) (now (core d)) = Ok ()
  | PPake id f =>
      exists x, pake_pending d !! hash_of id = Some x /\ pn_purpose x = Reauth /\ pn_account x = Some acct /\
        now (core d) < pn_expires x /\ login_finish (pn_state x) f = true
  end.

Lemma check_proof_run acct stored p slot d d' :
  check_proof st acct stored p slot d = (d', Ok ()) ->
  proves acct stored p d /\ d' = match p with
                                | PLegacy _ => d
                                | PPake id _ => set_pending (delete (hash_of id) (pake_pending d)) d
                                end.
Proof.
  destruct p as [key|id f]; cbn [check_proof proves]; intros Hc.
  - rewrite run_mget in Hc. apply M_bind_Ok in Hc as ([] & d1 & [-> Hl]%mlift_Ok & Hc).
    apply M_bind_Ok in Hc as (v & d1 & [-> Hv]%mlift_Ok & Hc). apply M_bind_Ok in Hc as ([] & d1 & [-> Hr]%mlift_Ok & Hc).
    apply M_bind_Ok in Hc as (ok & d1 & [-> Hok]%mlift_Ok & Hc). apply mlift_Ok in Hc as [-> Hg].
    destruct (sd_verifier stored) as [x|]; [|done]. injection Hv as ->. unfold verify_auth_key in Hok.
    destruct slot; [|done]. injection Hok as <-. destruct (sd_record stored); [done|]. split; [|done]. split_and!; [done| |done].
    exists v. split; [done|]. by destruct (argon2_verify v key).
  - apply M_bind_Ok in Hc as (taken & d1 & Ht & Hc). destruct taken as [[[bound|] pending]|]; [|done|done].
    apply mlift_Ok in Hc as [-> Hg]. apply take_pending_run in Ht as (x & Hx & Hp & Ht & Ha & <- & ->).
    unfold guard_err in Hg. destruct (Z.eqb_spec bound acct) as [->|]; [|done]. cbn [andb] in Hg.
    destruct (login_finish (pn_state x) f) eqn:Ef; [|done]. split; [|done]. by exists x.
Qed.

Definition stored_of (l : LoginRow) : Stored :=
  {| sd_verifier := lg_verifier l; sd_record := lg_record l; sd_grace := lg_grace l |}.

Lemma load_stored_run acct d d' s :
  load_stored acct d = (d', Ok s) ->
  d' = d /\ exists l, is_active acct d = true /\ logins d !! acct = Some l /\ s = stored_of l.
Proof.
  unfold load_stored, mread. intros [= <- Hs]. split; [done|]. destruct (is_active acct d); [|done].
  destruct (logins d !! acct) as [l|]; [|done]. injection Hs as <-. by exists l.
Qed.

Lemma prove_run o acct p slot d d' s :
  prove st o acct p slot d = (d', Ok s) ->
  exists l, is_active acct d = true /\ logins d !! acct = Some l /\ s = stored_of l /\ proves acct s p d.
Proof.
  unfold prove. intros Hc. apply M_bind_Ok in Hc as ([] & d1 & Hch & Hc). apply charge_keys_run in Hch as [t ->].
  apply M_bind_Ok in Hc as (s' & d1 & Hl & Hc). apply load_stored_run in Hl as (-> & l & Ha & Hl & ->).
  apply M_bind_Ok in Hc as ([] & d1 & Hp & Hc). apply check_proof_run in Hp as [Hp ->].
  rewrite (run_bind _ _ _ _ _ (clear_keys_run _ _)) in Hc. injection Hc as _ <-. exists l. split_and!; [done..|].
  destruct p; exact Hp.
Qed.

Lemma same_stored_run acct s d d' :
  same_stored acct s d = (d', Ok ()) ->
  d' = d /\ exists l, is_active acct d = true /\ logins d !! acct = Some l /\ stored_of l = s.
Proof.
  unfold same_stored. intros Hc. apply M_bind_Ok in Hc as (s' & d1 & Hl & Hc).
  apply load_stored_run in Hl as (-> & l & Ha & Hl & ->). apply mlift_Ok in Hc as [-> Hg]. split; [done|].
  exists l. split_and!; try done. unfold guard_err in Hg. by destruct (bool_decide_reflect (stored_of l = s)).
Qed.

(** What a committed credential change leaves. *)
Record credentials_changed (c : Caller) (p : Proved) (rev : Z) (d d' : AuthDb) : Prop := {
  ch_stored : exists l a v, logins d !! account_id c = Some l /\ is_active (account_id c) d = true /\ stored_of l = pv_stored p /\
    accounts (core d) !! account_id c = Some a /\ a_vault a = Some v /\ v_header_revision v = pv_base p /\
    logins d' = <[account_id c := with_credentials (pv_kdf p) (pv_salt p) (pv_verifier p) (pv_record p) l]> (logins d) /\
    accounts (core d') = <[account_id c := {| a_status := a_status a; a_billing := a_billing a;
                                             a_vault := Some (with_header (pv_header p) rev v) |}]> (accounts (core d));
  ch_revision : rev = as_i64 (pv_base p + 1);
  ch_sessions : forall h s, sessions (core d') !! h = Some s <->
    sessions (core d) !! h = Some s /\ (ss_account s = account_id c -> h = token_hash c);
}.


(** ** Erasing an account *)

Lemma put_new_lookup {X} (keys : list (list Z)) (x : X) t k :
  put_new keys x t !! k = match t !! k with Some y => Some y | None => if bool_decide (k ∈ keys) then Some x else None end.
Proof.
  unfold put_new. revert t. induction keys as [|j keys IH]; intros t; cbn [foldl].
  { destruct (t !! k); [done|]. rewrite bool_decide_eq_false_2; [done|]. by intros ?%elem_of_nil. }
  rewrite IH. destruct (t !! j) as [y|] eqn:Ej.
  - destruct (t !! k) eqn:Ek; [done|]. assert (k <> j) as Hkj by (intros E; rewrite E, Ej in Ek; discriminate Ek).
    by rewrite (bool_decide_ext (k ∈ j :: keys) (k ∈ keys)) by set_solver.
  - destruct (decide (k = j)) as [->|Hne].
    + rewrite lookup_insert_eq, Ej. by rewrite bool_decide_eq_true_2 by by left.
    + rewrite lookup_insert_ne by done. destruct (t !! k); [done|].
      by rewrite (bool_decide_ext (k ∈ j :: keys) (k ∈ keys)) by set_solver.
Qed.

Lemma devices_of_spec acct d i : i ∈ devices_of acct d <-> exists r, devices (core d) !! i = Some r /\ dv_account r = acct.
Proof.
  unfold devices_of. rewrite list_elem_of_fmap. split.
  - intros ([j x] & -> & Hin). apply elem_of_map_to_list in Hin. apply map_lookup_filter_Some in Hin as [? ?]. by exists x.
  - intros (x & Hx & HP). exists (i, x). split; [done|]. apply elem_of_map_to_list, map_lookup_filter_Some. done.
Qed.

(** The tables after an erasure, one at a time. *)
Lemma erase_tables acct d :
  let d' := erase_account st acct d in
  let until := now (core d) + TOMBSTONE_DAYS * 24 * 3600 in
  accounts (core d') = delete acct (accounts (core d)) /\ logins d' = delete acct (logins d) /\
  devices (core d') = filter (fun p => dv_account p.2 <> acct) (devices (core d)) /\
  sessions (core d') = filter (fun p => ss_account p.2 <> acct /\ ss_device p.2 ∉ devices_of acct d) (sessions (core d)) /\
  device_cols d' = filter (fun p => p.1 ∉ devices_of acct d) (device_cols d) /\
  pake_pending d' = filter (fun p => pn_account p.2 <> Some acct) (pake_pending d) /\
  deleted_sessions (core d') =
    put_new (map fst (map_to_list (filter (fun p => ss_account p.2 = acct) (sessions (core d))))) until (deleted_sessions (core d)) /\
  deleted_devices d' = put_new (map device_hash (devices_of acct d)) until (deleted_devices d) /\
  now (core d') = now (core d).
Proof.
  split_and!; reflexivity.
Qed.

Lemma erase_pairings acct d id r : pairings (erase_account st acct d) !! id = Some r <->
  pairings d !! id = Some r /\ pr_account r <> Some acct /\ pr_device r ∉ devices_of acct d.
Proof.
  assert (pairings (erase_account st acct d) = filter (fun p => pr_account p.2 <> Some acct)
    (filter (fun p => pr_account p.2 <> Some acct /\ pr_device p.2 ∉ devices_of acct d) (pairings d))) as ->.
  { unfold erase_account. by destruct (lg_email <$> logins d !! acct). }
  rewrite !map_lookup_filter_Some. cbn. tauto.
Qed.

Lemma erase_counters acct d l : logins d !! acct = Some l ->
  login_attempts (erase_account st acct d) = delete (signup_email_key st (lg_email l)) (delete (lit "acct:" ++ uuid_text acct) (login_attempts d)) /\
  signup_codes (erase_account st acct d) = delete (lg_email l) (signup_codes d).
Proof. intros Hl. unfold erase_account. by rewrite Hl. Qed.

(** No row names the account, one of its devices or its address. *)
Record nothing_left (acct : Z) (email : list Z) (gone : list Z) (d : AuthDb) : Prop := {
  nl_account : accounts (core d) !! acct = None /\ logins d !! acct = None;
  nl_devices : forall i r, devices (core d) !! i = Some r -> dv_account r <> acct;
  nl_sessions : forall h s, sessions (core d) !! h = Some s -> ss_account s <> acct /\ ss_device s ∉ gone;
  nl_columns : forall i c, device_cols d !! i = Some c -> i ∉ gone;
  nl_pairings : forall i r, pairings d !! i = Some r -> pr_account r <> Some acct /\ pr_device r ∉ gone;
  nl_pending : forall h p, pake_pending d !! h = Some p -> pn_account p <> Some acct;
  nl_counters : login_attempts d !! (lit "acct:" ++ uuid_text acct) = None /\ login_attempts d !! signup_email_key st email = None;
  nl_code : signup_codes d !! email = None;
}.


(** ** Activation *)

(** An invite activates its account once: the account was invited with the
    hash of its secret and in date, the vault id was free, the vault starts
    empty under the header sent, and no invite for the account is accepted
    after it. *)
Lemma invite_activates_once req email i salt vr d d' r :
  activate_commit req (email, i, salt, vr) d = (d', Ok r) ->
  r = (iv_account i, ac_vault req) /\ vault_taken (ac_vault req) d = false /\
  (exists a l, invited_row i email d = Some (a, l) /\ a_status a = AInvited /\ lg_invite l = Some (invite_hash (iv_secret i)) /\
     (exists e, lg_invite_expires l = Some e /\ now (core d) <= e) /\
     accounts (core d') !! iv_account i =
       Some {| a_status := AActive; a_billing := start_trial (now (core d)) (a_billing a);
               a_vault := Some {| v_id := ac_vault req; v_header := ac_header req; v_header_revision := 0;
                                  v_key_scheme := KEY_SCHEME; v_revision := 0; v_items := ∅; v_files := ∅ |} |} /\
     logins d' !! iv_account i = Some (activated req salt vr l)) /\
  (forall req' email' i' salt' vr', iv_account i' = iv_account i ->
     (activate_commit req' (email', i', salt', vr') d').2 = Err bad_invite).
Proof.
  unfold activate_commit at 1. intros Hc%transaction_Ok. rewrite run_mget in Hc.
  apply M_bind_Ok in Hc as ([a l] & d1 & [-> Hr]%mlift_Ok & Hc). apply M_bind_Ok in Hc as ([] & d1 & [-> Hi]%mlift_Ok & Hc).
  rewrite run_mmodify in Hc. apply M_bind_Ok in Hc as ([] & d1 & [-> Hv]%mlift_Ok & Hc).
  rewrite run_mmodify in Hc. injection Hc as <- <-. split; [done|].
  unfold guard_err in Hi, Hv. destruct (invite_accepted (a, l) (iv_secret i) (now (core d))) eqn:Eacc; [|done].
  destruct (vault_taken (ac_vault req) d) eqn:Et; [done|]. split; [done|].
  destruct (invited_row i email d) as [[a' l']|] eqn:Erow; [|done]. injection Hr as -> ->.
  pose proof Erow as Erow'. unfold invited_row in Erow'. destruct (accounts (core d) !! iv_account i) as [x|] eqn:Ea; [|done].
  cbn [mbind option_bind] in Erow'. destruct (logins d !! iv_account i) as [y|] eqn:El; [|done]. cbn [mbind option_bind] in Erow'.
  destruct (bool_decide (lg_email y = email)); [|done]. injection Erow' as -> ->.
  unfold invite_accepted in Eacc. cbn [fst snd] in Eacc. apply andb_true_iff in Eacc as [[H1 H2]%andb_true_iff H3].
  apply bool_decide_eq_true in H1, H2. cbn. rewrite !lookup_alter_eq, Ea, El. split.
  - exists a, l. destruct (lg_invite_expires l) as [e|]; [|done]. split_and!; try done. exists e. split; [done|]. by apply Z.leb_le.
  - intros req' email' i' salt' vr' Hi'. unfold activate_commit, transaction. rewrite run_mget, run_mlift.
    unfold invited_row. cbn. rewrite Hi', !lookup_alter_eq, Ea, El. cbn. destruct (bool_decide _); [|done]. cbn [ok_or].
    rewrite run_mlift. unfold invite_accepted. cbn. by rewrite bool_decide_eq_false_2.
Qed.
End Accounts.

(** ** One account, signed in *)

Module ToyAccount.
Import ToyUnicode Rfc4648 ToyAuth.
#[local] Instance totp : TotpLib := {| base32_decode := fun _ => None; hmac := fun _ _ m => Some (m ++ replicate 32 0) |}.
#[local] Instance invites : Serde Invite := {| to_json := fun _ => []; from_json := fun _ => None |}.

Definition login_id : list Z := encode_text base64url_nopad (replicate 32 6).
Definition started : AuthDb := (pake_start server origin email (lit "request") 2 (replicate 32 6) [] db0).1.
Definition finished : AuthDb := (pake_finish server origin login_id key 2 (lit "Desk") (replicate 32 7) started).1.
Definition token : list Z := encode_text base64url_nopad (replicate 32 7).

Lemma sign_in_needs_proof_witness :
  exists acct d1, signed_in acct 2 token d1 finished /\
    (forall raw device name, exists e, pake_finish server origin login_id key device name raw finished = (finished, Err e)).
Proof.
  destruct (sign_in_needs_proof server origin login_id key email key 2 (lit "Desk") (replicate 32 7) true started) as [Hs _].
  destruct (Hs finished {| la_token := token; la_expires := to_rfc3339 87400; la_vault := 9; la_subscription := None |})
    as (acct & p & f & d1 & _ & _ & _ & _ & _ & _ & _ & Hin & Hno).
  - vm_compute. reflexivity.
  - exists acct, d1. exact (conj Hin Hno).
Defined.

Definition me : Caller :=
  {| account_id := 5; device_id := 2; vault := vault_row; token_hash := hash_of token; subscription := None; entitlement := EFull |}.
Definition reauth_id : list Z := encode_text base64url_nopad (replicate 32 9).
Definition asked : AuthDb := (pake_reauth server origin me (lit "request") (replicate 32 9) [] finished).1.
Definition change : CredentialChange :=
  {| cc_auth_key := None; cc_reauth_id := Some reauth_id; cc_finalization := Some key;
     cc_kdf := {| kd_algorithm := lit "argon2id"; kd_memory := 131072; kd_iterations := 4; kd_parallelism := 4;
                  kd_salt := replicate 16 4 |};
     cc_new_auth_key := None; cc_upload := Some (replicate 32 11); cc_header := [8]; cc_base_revision := 0 |}.
Definition proved : Proved :=
  {| pv_stored := stored_of login_row; pv_kdf := cc_kdf change; pv_salt := replicate 16 4; pv_verifier := None;
     pv_record := Some (replicate 32 11); pv_header := [8]; pv_base := 0 |}.
Definition after_proof : AuthDb := (credentials_prove server origin me change true [] asked).1.
Definition changed : AuthDb := (credentials_commit me proved after_proof).1.


End ToyAccount.
