(* ===== verification/ServerAdmin.v ===== *)
(** * The operator's commands, the daily task and the device list
      (crates/havenkeys-server: admin.rs, billing/jobs.rs, routes/devices.rs,
      check_public_url of config.rs)

    The commands answer the text printed, or the message refused with; each
    one writes only when nothing after it can fail.  The daily task is given
    the set of addresses the mailer accepts, and answers its report, the mails
    sent and the tables.  The clock is the tables' [now]. *)

From S2P Require Import Prelude Errors Text Blob Url Tags Totp Clean Card Identity.
From S2P Require Import CustomField Bank Sso Attachment Model Keys Store Origin Health BuildItem.
From S2P Require Import Vault Items Sync Wire Admission Server Dates Encoding ServerAuth ServerAccount.

(** [chrono]'s readers of a time: RFC 3339, and a date at midnight UTC. *)
Class ChronoLib := {
  parse_from_rfc3339 : list Z -> option Z;
  parse_ymd : list Z -> option Z;
}.

Definition INVITE_TTL_DAYS : Z := 7.
Definition LEGACY_GRACE_HOURS : Z := 24.
Definition ENDING_NOTICE_DAYS : Z := 3.
Definition ABANDONED_SIGNUP_DAYS : Z := 7.
Definition PENDING_ATTACHMENT_TTL_HOURS : Z := 24.
Definition ENDING_REASON : list Z := lit "trial_ending_notice".
Definition ENDED_REASON : list Z := lit "trial_ended_notice".

Inductive AdminCommand :=
  | NewAccount (email server_url : list Z) (trial : bool)
  | ListAccounts
  | DeleteAccount (email : list Z)
  | SetPlan (email : list Z) (status : Status) (until : option (list Z))
  | AllowLegacySignIn (email : list Z).

Record DeviceJson := {
  dj_id : Z;
  dj_name : list Z;
  dj_created : list Z;
  dj_last_seen : option (list Z);
  dj_current : bool;
  dj_approved_by : option Z;
}.

Record DailyReport := {
  codes_swept : nat;
  signups_abandoned : nat;
  counters_swept : nat;
  stale_attachments : nat;
  ending_notices : nat;
  ended_notices : nat;
}.

Inductive Notice := TrialEnding (locale : Locale) (days : Z) | TrialEnded (locale : Locale).
Record NoticeMail := { nm_account : Z; nm_to : list Z; nm_body : Notice }.

(** [ORDER BY created_at]. *)
Definition by_created {X} (created : X -> Z) (x y : X) : Prop := created x <= created y.
#[export] Instance by_created_dec {X} (created : X -> Z) : RelDecision (by_created created).
Proof. intros x y. unfold by_created. apply _. Defined.

Section ServerAdmin.
Context {C : Crypto} {K : KeyLib} {U : Unicode} {H : HeaderLib} {Ck : Clock} {UT : UuidText}.
Context {B64 : Base64UrlLib} {AL : AuthLib} {TL : TotpLib} {SI : Serde Invite} {UL : UrlLib} {CL : ChronoLib}.
Variable st : AppState.

Abbreviation Cli := (M AuthDb (list Z)).

(** ** The operator's commands (admin.rs) *)

Fixpoint drop_slashes (s : list Z) : list Z :=
  match s with c :: s' => if c =? 47 then drop_slashes s' else s | [] => [] end.
(** [trim_end_matches('/')]. *)
Definition trim_end_slashes (s : list Z) : list Z := reverse (drop_slashes (reverse s)).

Definition check_public_url (raw : list Z) : result (list Z) (list Z) :=
  let url := trim_end_slashes (trim raw) in
  parsed ← ok_or (lit "the server URL is not valid") (url_parse url);
  let local := bool_decide (url_scheme parsed = lit "http") &&
               match url_host_str parsed with
               | Some h => bool_decide (h = lit "localhost") || bool_decide (h = lit "127.0.0.1")
               | None => false
               end in
  _ ← guard_err (negb (bool_decide (url_scheme parsed = lit "https")) && negb local)
        (lit "the server URL must be https (or http on localhost)");
  _ ← guard_err (512 <? str_len url) (lit "the server URL is too long");
  Ok url.

Definition operator_email (raw : list Z) : result (list Z) (list Z) :=
  ok_or (lit "email address is not valid") (normalize raw).

Definition invited_login (email secret : list Z) (t : Z) : LoginRow :=
  {| lg_email := email; lg_memory := None; lg_iterations := None; lg_parallelism := None; lg_salt := None;
     lg_verifier := None; lg_record := None; lg_grace := None; lg_invite := Some (invite_hash secret);
     lg_invite_expires := Some (t + INVITE_TTL_DAYS * 24 * 3600); lg_terms := None; lg_locale := None;
     lg_created := t; lg_created_by := lit "admin" |}.

(** [account] and [raw] are the random id and the bytes of the secret. *)
Definition new_account (raw_email raw_url : list Z) (trial : bool) (account : Z) (raw : list Z) : Cli (list Z) :=
  email ← mlift (operator_email raw_email);
  url ← mlift (check_public_url raw_url);
  d ← mget;
  let secret := invite_secret raw in
  _ ← mlift (guard_err (Wire.is_some (by_email email d) || Wire.is_some (logins d !! account))
               (lit "an account with that email already exists"));
  let status := if trial then Trialing else Complimentary in
  _ ← mmodify (insert_account account (invited_login email secret (now (core d)))
                 (set_status Admin status None (lit "new-account") no_billing));
  mret (invite_encode {| iv_server := url; iv_email := email; iv_account := account; iv_secret := secret |}).

Definition account_status_text (s : AccountStatus) : list Z :=
  match s with AInvited => lit "invited" | AActive => lit "active" | ADisabled => lit "disabled" end.

(** The rows with a plan beside them, the oldest first; [activated] is the
    column [activated_at]. *)
Definition list_accounts (activated : Z -> option Z) : Cli (list Z) := mread (fun d =>
  let rows := omap (fun p : Z * LoginRow => a ← accounts (core d) !! p.1; Some (p.1, p.2, a))
                (merge_sort (by_created (fun p : Z * LoginRow => lg_created p.2)) (map_to_list (logins d))) in
  let line (r : Z * LoginRow * AccountRow) :=
    let '(id, l, a) := r in
    join (lit "  ")
      [uuid_text id; lg_email l; account_status_text (a_status a);
       default (lit "-") (pr_status <$> plan_row (a_billing a));
       (if Wire.is_some (lg_record l) then lit "pake" else lit "legacy");
       default [] (to_rfc3339 <$> activated id)] in
  Ok (join [10] (map line rows))).

Definition with_grace (until : Z) (l : LoginRow) : LoginRow :=
  {| lg_email := lg_email l; lg_memory := lg_memory l; lg_iterations := lg_iterations l;
     lg_parallelism := lg_parallelism l; lg_salt := lg_salt l; lg_verifier := lg_verifier l; lg_record := lg_record l;
     lg_grace := Some until; lg_invite := lg_invite l; lg_invite_expires := lg_invite_expires l;
     lg_terms := lg_terms l; lg_locale := lg_locale l;
     lg_created := lg_created l; lg_created_by := lg_created_by l |}.

Definition allow_legacy_sign_in (raw_email : list Z) : Cli (list Z) :=
  email ← mlift (operator_email raw_email);
  d ← mget;
  match active_by_email email d with
  | Some (acct, l) =>
      if negb (Wire.is_some (lg_record l)) && Wire.is_some (lg_verifier l) then
        _ ← mmodify (fun d => set_logins (alter (with_grace (now (core d) + LEGACY_GRACE_HOURS * 3600)) acct (logins d)) d);
        mret (email ++ lit " may sign in the old way for " ++ to_decimal LEGACY_GRACE_HOURS ++ lit " hours, to enrol")
      else mthrow_ (lit "no active account with that email still on the legacy login")
  | None => mthrow_ (lit "no active account with that email still on the legacy login")
  end.

Definition parse_until (raw : list Z) : result (list Z) Z :=
  match parse_from_rfc3339 (trim raw) with
  | Some t => Ok t
  | None => ok_or (lit "--until must be a date (2027-01-31) or an RFC 3339 time") (parse_ymd (trim raw))
  end.

Definition set_plan (raw_email : list Z) (status : Status) (until : option (list Z)) : Cli (list Z) :=
  email ← mlift (operator_email raw_email);
  until ← mlift (match until with Some raw => Some <$> parse_until raw | None => Ok None end);
  d ← mget;
  match by_email email d with
  | None => mthrow_ (lit "no such account")
  | Some (id, _) =>
      let until := match until with
                   | None => if bool_decide (status = Trialing) && is_active id d
                             then Some (now (core d) + TRIAL_DAYS * 24 * 3600) else None
                   | Some t => Some t
                   end in
      _ ← mmodify (with_billing id (set_status Admin status until (lit "set-plan")));
      mret (match until, status with
            | Some t, (Trialing | Active | PastDue) => status_as_str status ++ lit " until " ++ to_rfc3339 t
            | _, _ => status_as_str status
            end)
  end.

Definition operator_deletes (raw_email : list Z) : Cli (list Z) :=
  email ← mlift (operator_email raw_email);
  d ← mget;
  match by_email email d with
  | None => mthrow_ (lit "no such account")
  | Some (id, _) => _ ← mmodify (erase_account st id); mret (lit "deleted")
  end.

Definition admin_run (cmd : AdminCommand) (account : Z) (raw : list Z) (activated : Z -> option Z) : Cli (list Z) :=
  match cmd with
  | NewAccount email server_url trial => new_account email server_url trial account raw
  | ListAccounts => list_accounts activated
  | DeleteAccount email => operator_deletes email
  | SetPlan email status until => set_plan email status until
  | AllowLegacySignIn email => allow_legacy_sign_in email
  end.

(** ** The devices of an account (devices.rs) *)

Definition list_devices (c : Caller) (d : AuthDb) : list DeviceJson :=
  let rows := omap (fun p : Z * DeviceRow => cols ← device_cols d !! p.1; Some (p.1, p.2, cols))
                (map_to_list (filter (fun p => dv_account p.2 = account_id c /\ dv_revoked p.2 = false) (devices (core d)))) in
  map (fun r : Z * DeviceRow * DeviceCols =>
         let '(id, row, cols) := r in
         {| dj_id := id; dj_name := dc_name cols; dj_created := to_rfc3339 (dc_created cols);
            dj_last_seen := to_rfc3339 <$> dv_last_seen row; dj_current := id =? device_id c;
            dj_approved_by := dc_approved_by cols |})
    (merge_sort (by_created (fun r : Z * DeviceRow * DeviceCols => dc_created r.2)) rows).

(** ** The daily task (billing/jobs.rs) *)

Definition sweep_codes (d : AuthDb) : AuthDb :=
  set_signup_codes (filter (fun p => now (core d) < su_expires p.2) (signup_codes d)) d.
Definition sweep_pending (d : AuthDb) : AuthDb :=
  set_pending (filter (fun p => now (core d) < pn_expires p.2) (pake_pending d)) d.

(** A signup nobody finished: invited, old, and its invite no longer open. *)
Definition abandoned (d : AuthDb) (acct : Z) (l : LoginRow) : bool :=
  match accounts (core d) !! acct with Some a => bool_decide (a_status a = AInvited) | None => false end
  && bool_decide (lg_created_by l = lit "signup")
  && (lg_created l <? now (core d) - ABANDONED_SIGNUP_DAYS * 24 * 3600)
  && match lg_invite_expires l with None => true | Some e => e <? now (core d) end.
Definition abandoned_accounts (d : AuthDb) : list Z :=
  map fst (List.filter (fun p => abandoned d p.1 p.2) (map_to_list (logins d))).
Definition sweep_abandoned (d : AuthDb) : AuthDb := foldl (fun d acct => cascade acct d) d (abandoned_accounts d).

Definition sweep_counters (d : AuthDb) : AuthDb :=
  set_attempts (filter (fun p => starts_with (lit "signup-") p.1 = false \/ now (core d) - 2 * 3600 <= window_start p.2)
                  (login_attempts d)) d.

(** Uploads no item write claimed; [uploaded] is the column [uploaded_at]. *)
Definition kept_file (uploaded : Z -> Z) (t : Z) (p : Z * FileRow) : bool :=
  committed p.2 || (t - PENDING_ATTACHMENT_TTL_HOURS * 3600 <=? uploaded p.1).
Definition sweep_files (uploaded : Z -> Z) (d : AuthDb) : AuthDb :=
  let c := core d in
  set_core {| accounts := (fun a => {| a_status := a_status a; a_billing := a_billing a;
                                       a_vault := (fun v => set_items_row (v_revision v) (v_items v)
                                                     (filter (fun p => kept_file uploaded (now c) p = true) (v_files v)) v)
                                                  <$> a_vault a |}) <$> accounts c;
              devices := devices c; sessions := sessions c; deleted_sessions := deleted_sessions c;
              max_vault_bytes := max_vault_bytes c; now := now c |} d.
Definition files_of (d : AuthDb) : nat :=
  sum_list (map (fun p => match a_vault p.2 with Some v => base.size (v_files v) | None => 0%nat end)
              (map_to_list (accounts (core d)))).

(** The rows of the two queries: active accounts on a trial whose end [due]
    picks, without a line of that reason. *)
Definition noted (why : list Z) (b : Billing) : bool := existsb (fun e => bool_decide (reason e = why)) (billing_events b).
Definition trials (due : Z -> bool) (why : list Z) (d : AuthDb) : list (Z * LoginRow * Z) :=
  omap (fun p : Z * AccountRow =>
    r ← plan_row (a_billing p.2);
    ends ← pr_trial r;
    l ← logins d !! p.1;
    if bool_decide (pr_status r = lit "trialing") && bool_decide (a_status p.2 = AActive) && due ends
       && negb (noted why (a_billing p.2))
    then Some (p.1, l, ends) else None)
  (map_to_list (accounts (core d))).
Definition due_ending (t ends : Z) : bool := (t <? ends) && (ends <=? t + ENDING_NOTICE_DAYS * 24 * 3600).
Definition due_ended (t ends : Z) : bool := ends <=? t.

(** A notice is marked only after its mail was sent. *)
Definition notify (accepts : list Z -> bool) (why : list Z) (body : Locale -> Z -> Notice)
    (rows : list (Z * LoginRow * Z)) (d : AuthDb) : list NoticeMail * AuthDb :=
  foldl (fun (acc : list NoticeMail * AuthDb) (r : Z * LoginRow * Z) =>
    let '(id, l, ends) := r in
    if accepts (lg_email l)
    then (acc.1 ++ [{| nm_account := id; nm_to := lg_email l; nm_body := body (locale_from_db (lg_locale l)) ends |}],
          with_billing id (note why) acc.2)
    else acc) ([], d) rows.

Definition days_left (t ends : Z) : Z := (Z.max (Z.quot (ends - t) 3600) 0 + 23) / 24.

Definition run_daily (mailer : option (list Z -> bool)) (uploaded : Z -> Z) (d : AuthDb)
    : DailyReport * list NoticeMail * AuthDb :=
  let d1 := sweep_codes d in
  let d2 := sweep_pending d1 in
  let d3 := sweep_abandoned d2 in
  let d4 := sweep_counters d3 in
  let d5 := sweep_files uploaded d4 in
  let t := now (core d) in
  let '(ending, d6) := match mailer with
                       | Some accepts => notify accepts ENDING_REASON (fun loc ends => TrialEnding loc (days_left t ends))
                                           (trials (due_ending t) ENDING_REASON d5) d5
                       | None => ([], d5)
                       end in
  let '(over, d7) := match mailer with
                     | Some accepts => notify accepts ENDED_REASON (fun loc _ => TrialEnded loc)
                                         (trials (due_ended t) ENDED_REASON d6) d6
                     | None => ([], d6)
                     end in
  ({| codes_swept := base.size (signup_codes d) - base.size (signup_codes d1);
      signups_abandoned := length (abandoned_accounts d2);
      counters_swept := base.size (login_attempts d3) - base.size (login_attempts d4);
      stale_attachments := files_of d4 - files_of d5;
      ending_notices := length ending; ended_notices := length over |}%nat, ending ++ over, d7).
End ServerAdmin.

(** ** What the daily task does to a plan *)

Definition billing_at (acct : Z) (d : AuthDb) : option Billing := a_billing <$> accounts (core d) !! acct.
Definition is_ending (n : Notice) : bool := match n with TrialEnding _ _ => true | TrialEnded _ => false end.
Definition reason_of (n : Notice) : list Z := if is_ending n then ENDING_REASON else ENDED_REASON.

(** [b'] is [b] with more lines in its audit trail. *)
Definition grown (b b' : Billing) : Prop :=
  plan_row b' = plan_row b /\ exists l, billing_events b' = billing_events b ++ l.

Lemma grown_refl b : grown b b.
Proof. split; [done|]. exists []. by rewrite app_nil_r. Qed.
Lemma grown_trans a b c : grown a b -> grown b c -> grown a c.
Proof.
  intros [P1 (l1 & E1)] [P2 (l2 & E2)]. split; [congruence|].
  exists (l1 ++ l2). by rewrite E2, E1, app_assoc.
Qed.
#[export] Hint Resolve grown_refl : core.

Lemma note_grown why b : grown b (note why b).
Proof.
  unfold note. destruct (plan_row b) eqn:E; [|done]. split; cbn; [done|by eexists].
Qed.

Lemma note_noted why b : Wire.is_some (plan_row b) = true -> noted why (note why b) = true.
Proof.
  unfold note, noted. destruct (plan_row b); cbn; [intros _|done].
  rewrite existsb_app. cbn. rewrite bool_decide_eq_true_2 by done. by rewrite orb_true_r.
Qed.

Lemma grown_noted why b b' : grown b b' -> noted why b = true -> noted why b' = true.
Proof. unfold noted. intros [_ (l & ->)] N. by rewrite existsb_app, N. Qed.

Section Daily.
Context {C : Crypto}.

Lemma billing_at_with_billing acct id f d :
  billing_at acct (with_billing id f d) = if decide (acct = id) then f <$> billing_at acct d else billing_at acct d.
Proof.
  unfold billing_at, with_billing. cbn. destruct (decide (acct = id)) as [->|Hne].
  - rewrite lookup_alter_eq. by destruct (accounts (core d) !! id).
  - by rewrite lookup_alter_ne.
Qed.

(** What [notify] does to the plan of one account: it gains lines, and has
    the reason when its mail went out. *)
Lemma notify_spec accepts why body rows d acct :
  (forall b, billing_at acct d = Some b ->
    exists b', billing_at acct (notify accepts why body rows d).2 = Some b' /\ grown b b' /\
      (Wire.is_some (plan_row b) = true ->
       acct ∈ map nm_account (notify accepts why body rows d).1 -> noted why b' = true)) /\
  (forall m, m ∈ (notify accepts why body rows d).1 ->
    exists l ends, (nm_account m, l, ends) ∈ rows /\ accepts (nm_to m) = true /\ nm_to m = lg_email l /\
                   nm_body m = body (locale_from_db (lg_locale l)) ends).
Proof.
  unfold notify.
  change ([], d) with (([] : list NoticeMail), d).
  induction rows as [|[[id l] ends] rows IH] using rev_ind.
  { cbn. split; [|intros m; rewrite elem_of_nil; done].
    intros b Hb. exists b. split_and!; [done|done|intros _ X; by apply elem_of_nil in X]. }
  rewrite foldl_app. cbn [foldl]. destruct (foldl _ _ rows) as [ms d'] eqn:Ef.
  cbn [fst snd] in *. destruct IH as [I1 I2].
  destruct (accepts (lg_email l)) eqn:Ea; cbn [fst snd].
  - split.
    + intros b Hb. destruct (I1 b Hb) as (b' & Hb' & Hg & Hn).
      rewrite billing_at_with_billing. destruct (decide (acct = id)) as [->|Hne].
      * exists (note why b'). rewrite Hb'. split_and!; [done|by eapply grown_trans; [|apply note_grown]|].
        intros Hp _. apply note_noted. by rewrite (proj1 Hg).
      * exists b'. split_and!; [done|done|]. intros Hp. rewrite map_app, elem_of_app. intros [X|X]; [by apply Hn|].
        cbn in X. by apply list_elem_of_singleton in X.
    + intros m. rewrite elem_of_app. intros [X|X].
      * destruct (I2 m X) as (l0 & e0 & X1 & X2). exists l0, e0. split; [apply elem_of_app; by left|done].
      * apply list_elem_of_singleton in X as ->. exists l, ends. cbn. split_and!; [apply elem_of_app; right; by left|done..].
  - split.
    + intros b Hb. by destruct (I1 b Hb) as (b' & ?); exists b'.
    + intros m X. destruct (I2 m X) as (l0 & e0 & X1 & X2). exists l0, e0. split; [apply elem_of_app; by left|done].
Qed.

Lemma notify_none accepts why body rows d acct :
  billing_at acct d = None -> billing_at acct (notify accepts why body rows d).2 = None.
Proof.
  intros Hd. unfold notify.
  induction rows as [|[[id l] ends] rows IH] using rev_ind; [done|].
  rewrite foldl_app. cbn [foldl]. destruct (foldl _ _ rows) as [ms d'].
  destruct (accepts (lg_email l)); cbn [fst snd] in *; [|done].
  rewrite billing_at_with_billing, IH. by destruct (decide _).
Qed.

Lemma trials_spec due why d acct l ends : (acct, l, ends) ∈ trials due why d ->
  exists a, accounts (core d) !! acct = Some a /\ a_status a = AActive /\ logins d !! acct = Some l /\ due ends = true /\
    Wire.is_some (plan_row (a_billing a)) = true /\ pr_trial <$> plan_row (a_billing a) = Some (Some ends) /\
    noted why (a_billing a) = false.
Proof.
  unfold trials. rewrite list_elem_of_omap. intros ([id a] & Hin & E). apply elem_of_map_to_list in Hin. cbn [fst snd] in E.
  destruct (plan_row (a_billing a)) as [r|] eqn:Er; [|done]. cbn [mbind option_bind] in E.
  destruct (pr_trial r) as [e|] eqn:Et; [|done]. cbn [mbind option_bind] in E.
  destruct (logins d !! id) as [l'|] eqn:El; [|done]. cbn [mbind option_bind] in E.
  destruct (bool_decide (pr_status r = _)); [|done].
  destruct (bool_decide_reflect (a_status a = AActive)); [|done]. cbn [andb] in E.
  destruct (due e) eqn:Ed; [|done]. destruct (noted why (a_billing a)) eqn:En; [done|].
  injection E as <- <- <-. exists a. rewrite Er. cbn. by rewrite Et.
Qed.

(** The sweeps keep the plan of every account but the signups nobody
    finished. *)
Lemma cascade_billing acct gone d : acct <> gone -> accounts (core (cascade gone d)) !! acct = accounts (core d) !! acct.
Proof. intros Hne. unfold cascade. cbn. by rewrite lookup_delete_ne. Qed.

Lemma sweep_abandoned_active acct a d :
  accounts (core d) !! acct = Some a -> a_status a <> AInvited ->
  accounts (core (sweep_abandoned d)) !! acct = Some a.
Proof.
  intros Ha Hs. unfold sweep_abandoned.
  assert (acct ∉ abandoned_accounts d) as Hn.
  { unfold abandoned_accounts. rewrite list_elem_of_fmap. intros ([i l] & -> & X). cbn [fst] in *.
    apply list_elem_of_In, filter_In in X as [_ X]. unfold abandoned in X. cbn [fst snd] in X. rewrite Ha in X.
    by rewrite bool_decide_eq_false_2 in X. }
  revert Hn. generalize (abandoned_accounts d) as l. intros l. revert d Ha.
  induction l as [|i l IH]; intros d Ha Hn; [done|]. cbn [foldl]. apply not_elem_of_cons in Hn as [Hi Hn].
  apply IH; [|done]. by rewrite cascade_billing.
Qed.

Lemma sweep_files_accounts up d acct :
  accounts (core (sweep_files up d)) !! acct =
  (fun a => {| a_status := a_status a; a_billing := a_billing a;
               a_vault := (fun v => set_items_row (v_revision v) (v_items v)
                             (filter (fun p => kept_file up (now (core d)) p = true) (v_files v)) v) <$> a_vault a |})
  <$> accounts (core d) !! acct.
Proof. unfold sweep_files. cbn. by rewrite lookup_fmap. Qed.

Definition swept (up : Z -> Z) (d : AuthDb) : AuthDb :=
  sweep_files up (sweep_counters (sweep_abandoned (sweep_pending (sweep_codes d)))).

Lemma run_daily_mails accepts up d :
  let t := now (core d) in
  let d5 := swept up d in
  let n1 := notify accepts ENDING_REASON (fun loc ends => TrialEnding loc (days_left t ends))
              (trials (due_ending t) ENDING_REASON d5) d5 in
  let n2 := notify accepts ENDED_REASON (fun loc _ => TrialEnded loc) (trials (due_ended t) ENDED_REASON n1.2) n1.2 in
  (run_daily (Some accepts) up d).1.2 = n1.1 ++ n2.1 /\ (run_daily (Some accepts) up d).2 = n2.2.
Proof.
  cbn zeta. unfold run_daily. fold (swept up d). destruct (notify _ ENDING_REASON _ _ _) as [m1 d6]. cbn [fst snd].
  by destruct (notify _ ENDED_REASON _ _ _) as [m2 d7].
Qed.

(** A mail of the daily task goes to an active account on a trial that had
    no line of its kind, and leaves one. *)
Lemma daily_mail accepts up d m :
  m ∈ (run_daily (Some accepts) up d).1.2 ->
  exists b5 b', billing_at (nm_account m) (swept up d) = Some b5 /\
    billing_at (nm_account m) (run_daily (Some accepts) up d).2 = Some b' /\ grown b5 b' /\
    noted (reason_of (nm_body m)) b5 = false /\ noted (reason_of (nm_body m)) b' = true.
Proof.
  destruct (run_daily_mails accepts up d) as [-> ->]. cbn zeta.
  set (f1 := fun loc ends => TrialEnding loc _). set (r1 := trials (due_ending _) _ _).
  set (n1 := notify accepts ENDING_REASON f1 r1 (swept up d)).
  set (f2 := fun loc (_ : Z) => TrialEnded loc). set (r2 := trials (due_ended _) _ _).
  destruct (notify_spec accepts ENDING_REASON f1 r1 (swept up d) (nm_account m)) as [A1 B1]. fold n1 in A1, B1.
  destruct (notify_spec accepts ENDED_REASON f2 r2 n1.2 (nm_account m)) as [A2 B2].
  set (n2 := notify accepts ENDED_REASON f2 r2 n1.2) in *.
  rewrite elem_of_app. intros [X|X].
  - destruct (B1 m X) as (l & e & Hr & _ & _ & Hbody).
    destruct (trials_spec _ _ _ _ _ _ Hr) as (a & Ha & _ & _ & _ & Hp & _ & Hn).
    assert (billing_at (nm_account m) (swept up d) = Some (a_billing a)) as H5 by (unfold billing_at; by rewrite Ha).
    destruct (A1 _ H5) as (b1 & E1 & G1 & N1). destruct (A2 _ E1) as (b2 & E2 & G2 & _).
    exists (a_billing a), b2. rewrite Hbody. cbn [reason_of is_ending f1].
    split_and!; [done|done|by eapply grown_trans|done|].
    eapply grown_noted; [exact G2|]. apply N1; [done|]. by apply list_elem_of_fmap_2.
  - destruct (B2 m X) as (l & e & Hr & _ & _ & Hbody).
    destruct (trials_spec _ _ _ _ _ _ Hr) as (a & Ha & _ & _ & _ & Hp & _ & Hn).
    assert (billing_at (nm_account m) n1.2 = Some (a_billing a)) as H6 by (unfold billing_at; by rewrite Ha).
    destruct (billing_at (nm_account m) (swept up d)) as [b5|] eqn:H5.
    + destruct (A1 _ eq_refl) as (b1 & E1 & G1 & _). rewrite H6 in E1. injection E1 as <-.
      destruct (A2 _ H6) as (b2 & E2 & G2 & N2). exists b5, b2. rewrite Hbody. cbn [reason_of is_ending f2].
      split_and!; [done|done|by eapply grown_trans| |apply N2; [done|by apply list_elem_of_fmap_2]].
      destruct (noted ENDED_REASON b5) eqn:E; [|done]. by rewrite (grown_noted _ _ _ G1 E) in Hn.
    + pose proof (notify_none accepts ENDING_REASON f1 r1 _ _ H5) as X0. fold n1 in X0. congruence.
Qed.

(** A notice reaches an account once: a later run, on tables where the audit
    trail of an account only grew, sends no second one of the same kind. *)
Lemma notice_once accepts up d accepts2 up2 d2 m m2 :
  m ∈ (run_daily (Some accepts) up d).1.2 ->
  (forall acct b b2, billing_at acct (run_daily (Some accepts) up d).2 = Some b -> billing_at acct (swept up2 d2) = Some b2 ->
     exists l, billing_events b2 = billing_events b ++ l) ->
  m2 ∈ (run_daily (Some accepts2) up2 d2).1.2 ->
  nm_account m2 = nm_account m -> is_ending (nm_body m2) <> is_ending (nm_body m).
Proof.
  intros Hm Hgrow Hm2 Eid Ek.
  destruct (daily_mail _ _ _ _ Hm) as (b5 & b' & _ & Hb' & _ & _ & N').
  destruct (daily_mail _ _ _ _ Hm2) as (c5 & c' & Hc5 & _ & _ & N5 & _).
  rewrite Eid in Hc5. destruct (Hgrow _ _ _ Hb' Hc5) as (l & E).
  assert (reason_of (nm_body m2) = reason_of (nm_body m)) as Er by (unfold reason_of; by rewrite Ek).
  rewrite Er in N5. unfold noted in N5, N'. by rewrite E, existsb_app, N' in N5.
Qed.

(** No plan changes: the entitlement of an account the task keeps is what it
    was. *)
Lemma daily_entitlement accepts up d acct a :
  accounts (core d) !! acct = Some a -> a_status a <> AInvited ->
  exists b', billing_at acct (run_daily (Some accepts) up d).2 = Some b' /\ plan_row b' = plan_row (a_billing a).
Proof.
  intros Ha Hs. destruct (run_daily_mails accepts up d) as [_ ->]. cbn zeta.
  assert (billing_at acct (swept up d) = Some (a_billing a)) as H5.
  { unfold billing_at, swept. rewrite sweep_files_accounts.
    change (accounts (core (sweep_counters (sweep_abandoned (sweep_pending (sweep_codes d))))))
      with (accounts (core (sweep_abandoned (sweep_pending (sweep_codes d))))).
    by rewrite (sweep_abandoned_active acct a). }
  match goal with |- context [notify accepts ENDED_REASON ?f2 ?r2 (notify accepts ENDING_REASON ?f1 ?r1 ?x).2] =>
    destruct (proj1 (notify_spec accepts ENDING_REASON f1 r1 x acct) _ H5) as (b1 & E1 & G1 & _);
    destruct (proj1 (notify_spec accepts ENDED_REASON f2 r2 _ acct) _ E1) as (b2 & E2 & G2 & _) end.
  exists b2. split; [exact E2|]. by rewrite (proj1 G2), (proj1 G1).
Qed.
End Daily.
