(* ===== verification/Client.v ===== *)
(** * The account client (crates/havenkeys-client)

    client.rs (the session with the server and its connectivity), sync.rs
    (reconciling the header, the pull, retrying items, writes) and the wipe of
    deletion.rs, over the vault service and the HTTP methods of Wire.v.  The
    files are in ClientFiles.v, the account's own flows in Account.v.

    A method is a computation on the client and everything outside it: the
    server behind its [Transport], and the [Platform] (clocks, the key store,
    the vault file).  Each [await] of the source is one step of the world; no
    other thread of the client runs between two of them. *)

From S2P Require Import Prelude Errors Text Blob Url Tags Totp Clean Card Identity.
From S2P Require Import CustomField Bank Sso Attachment Model Keys Store Origin Health BuildItem.
From S2P Require Import Vault Items Sync Wire.

(** ** error.rs *)

Record ClientError := { ce_code : string; ce_message : string }.
#[export] Instance ClientError_eq_dec : EqDecision ClientError.
Proof. solve_decision. Defined.

#[export] Instance Entitlement_eq_dec : EqDecision Store.Entitlement.
Proof. solve_decision. Defined.
#[export] Instance PlanRecord_eq_dec : EqDecision PlanRecord.
Proof. solve_decision. Defined.

Definition fixed (c m : string) : ClientError := {| ce_code := c; ce_message := m |}.
Definition internal : ClientError := fixed "internal" "Internal error.".
Definition account_frozen : ClientError :=
  fixed "account_frozen" "This account is frozen: the trial ended or payment lapsed. The vault is read-only.".
Definition attachment_damaged : ClientError :=
  fixed "attachment_damaged" "This attachment is damaged or was changed".
Definition attachment_offline : ClientError :=
  fixed "attachment_offline" "You're offline — reconnect to open this file.".

(** [From<havenkeys_core::Error>] and [From<SyncError>]. *)
Definition from_core (e : Error) : ClientError := {| ce_code := code e; ce_message := display e |}.
Definition from_sync (e : SyncError) : ClientError :=
  match e with
  | Wire.Conflict _ => from_core ItemChangedElsewhere
  | Wire.Unavailable => from_core Offline
  | Wire.Unauthorized => fixed "signed_out" "HavenKeys is signed out of this account. Unlock again to reconnect."
  | Wire.AccountDeleted => fixed "account_deleted" "This account was deleted."
  | Wire.AccountFrozen => account_frozen
  | Wire.RateLimited => fixed "rate_limited" "Too many attempts. Try again in a few minutes."
  | Wire.Unsupported =>
      fixed "server_unsupported" "Your server doesn't support attachments yet — update havenkeys-server."
  | Wire.AttachmentsFull => fixed "attachments_full" "Attachment storage is full (192 MB)."
  | Wire.VaultFull => fixed "vault_full" "This vault has reached its storage limit."
  | Wire.InvalidServerUrl =>
      fixed "invalid_server_url" "That server address cannot be used. It must start with https://."
  | Wire.Refused _ | Wire.Protocol _ | Wire.TooLarge =>
      fixed "sync_failed" "The server did not accept that request."
  end.

(** ** events.rs *)

Inductive ClientEvent :=
| EvLocked (reason : string) (was_open : bool)
| EvConnectivity (online : bool)
| EvSignedOut
| EvSynced (r : SyncReport)
| EvItemsChanged
| EvAccountDeleted (keychain_cleared : bool)
| EvPlanChanged
| EvUnlocked (auto_lock_minutes : Z)
| EvRemoved (keychain_cleared : bool).

(** ** client.rs *)

Definition PULL_INTERVAL : Z := 60000.
Definition RETRY_INTERVAL : Z := 15000.
Definition MAX_BATCH : nat := 500.

Inductive Connectivity := COffline | Online (s : Wire.Session) | Unreachable (s : Wire.Session).

Record HavenClient := {
  vault_ : VaultService;
  connectivity : Connectivity;
  last_sync_attempt : option Z;
  attachment_cache_cap : Z;
  storage_error : option ClientError;
  events : list ClientEvent;
}.

Definition set_vault_ (v : VaultService) (c : HavenClient) : HavenClient :=
  {| vault_ := v; connectivity := connectivity c; last_sync_attempt := last_sync_attempt c;
     attachment_cache_cap := attachment_cache_cap c; storage_error := storage_error c; events := events c |}.
Definition set_connectivity (k : Connectivity) (c : HavenClient) : HavenClient :=
  {| vault_ := vault_ c; connectivity := k; last_sync_attempt := last_sync_attempt c;
     attachment_cache_cap := attachment_cache_cap c; storage_error := storage_error c; events := events c |}.
Definition set_attempt (t : option Z) (c : HavenClient) : HavenClient :=
  {| vault_ := vault_ c; connectivity := connectivity c; last_sync_attempt := t;
     attachment_cache_cap := attachment_cache_cap c; storage_error := storage_error c; events := events c |}.
Definition tell (e : ClientEvent) (c : HavenClient) : HavenClient :=
  {| vault_ := vault_ c; connectivity := connectivity c; last_sync_attempt := last_sync_attempt c;
     attachment_cache_cap := attachment_cache_cap c; storage_error := storage_error c; events := events c ++ [e] |}.

Definition is_online (c : HavenClient) : bool := match connectivity c with Online _ => true | _ => false end.

(** The session held, also while the server is unreachable. *)
Definition session_ (c : HavenClient) : result ClientError Wire.Session :=
  match connectivity c with Online s | Unreachable s => Ok s | COffline => Err (from_core Offline) end.

Definition mark_unreachable (c : HavenClient) : HavenClient :=
  match connectivity c with
  | Online s => tell (EvConnectivity false) (set_connectivity (Unreachable s) c)
  | _ => c
  end.
Definition mark_reachable (c : HavenClient) : HavenClient :=
  match connectivity c with
  | Unreachable s => tell (EvConnectivity true) (set_connectivity (Online s) c)
  | _ => c
  end.
Definition set_online (s : Wire.Session) (c : HavenClient) : HavenClient := set_connectivity (Online s) c.

(** The client without a session, whether one was held, whether it was
    shown online. *)
Definition drop_session (c : HavenClient) : HavenClient * bool * bool :=
  (set_connectivity COffline c,
   match connectivity c with COffline => false | _ => true end, is_online c).
Definition go_offline (c : HavenClient) : HavenClient * bool :=
  let '(c', held, shown) := drop_session c in
  (if shown then tell (EvConnectivity false) c' else c', held).

Definition pull_interval (c : HavenClient) : option Z :=
  match connectivity c with Online _ => Some PULL_INTERVAL | Unreachable _ => Some RETRY_INTERVAL | COffline => None end.
Definition sync_due (elapsed every : Z) (c : HavenClient) : bool :=
  match last_sync_attempt c with None => true | Some t => every <=? u64_saturating_sub elapsed t end.
Definition pull_due (elapsed : Z) (c : HavenClient) : bool :=
  match pull_interval c with Some every => sync_due elapsed every c | None => false end.

Definition lock (reason : string) (c : HavenClient) : HavenClient :=
  let '(v, was_open) := Vault.lock (vault_ c) in
  let '(c, _, _) := drop_session (set_vault_ v c) in
  tell (EvLocked reason was_open) (set_attempt None c).

(** [now_ms], [origin.elapsed], the vault file, the platform's key store and
    the marker of a deletion to finish. *)
Class Platform (W : Type) := {
  now_ms : W -> Z;
  elapsed : W -> Z;
  remove_vault_file : W -> W * bool;
  forget_device : Z -> W -> W * bool;
  write_marker : Z -> W -> W;
  remove_marker : W -> W;
  read_marker : W -> option (list Z);
}.

Section Client.
Context {C : Crypto} {K : KeyLib} {U : Unicode} {J : JsonLib} {H : HeaderLib}.
Context {S1 : Serde ErrorBody} {S2 : Serde PullDto} {S3 : Serde WriteBody} {S4 : Serde WriteAckDto}.
Context {S5 : Serde ConflictsDto} {S6 : Serde FetchBody} {S7 : Serde FetchDto} {S8 : Serde HeaderDto}.
Context {S9 : Serde AttachmentPutBody} {S10 : Serde AttachmentDto}.
Context {W : Type} {T : Transport W} {P : Platform W}.

Abbreviation Cl := (M (HavenClient * W) ClientError).

Definition client (f : HavenClient -> HavenClient) : Cl () := mmodify (fun s => (f s.1, s.2)).
Definition world {A} (f : W -> W * A) : Cl A := fun s => let '(w, a) := f s.2 in ((s.1, w), Ok a).
Definition time : Cl Z := fun s => (s, Ok (now_ms s.2)).

(** [self.vault()?] and then a method of the vault: every access refuses
    with the reason the file did not open. *)
Definition with_vault {A} (m : V A) : Cl A := fun s =>
  match storage_error s.1 with
  | Some e => (s, Err e)
  | None => let '(v, r) := m (vault_ s.1) in ((set_vault_ v s.1, s.2), map_err from_core r)
  end.
Definition read_vault {A} (f : VaultService -> Result A) : Cl A := with_vault (mread f).

(** [.ok()]: the error is dropped, what it did is kept. *)
Definition attempt {A} (m : Cl A) : Cl (option A) := fun s => let '(s, r) := m s in (s, Ok (result_ok r)).

Definition session : Cl Wire.Session := fun s => (s, session_ s.1).
(** The HTTP client is the one of the account's server. *)
Definition server : Cl () := read_vault (fun v => match account (store v) with Some _ => Ok () | None => Err NoVault end).
Definition require_full : Cl () :=
  e ← read_vault (fun v => Ok (entitlement (plan (store v))));
  match e with Store.Full => mret () | Store.Frozen => mthrow_ account_frozen end.
Definition require_online : Cl () := fun s => (s, if is_online s.1 then Ok () else Err (from_core Offline)).
Definition mark_sync_attempt : Cl () := fun s => ((set_attempt (Some (elapsed s.2)) s.1, s.2), Ok ()).

(** deletion.rs [wipe_local]: the marker, then the lock, the vault file and
    the key store; the marker goes once the file is gone. *)
Definition wipe_local (acct : Z) : Cl () :=
  _ ← world (fun w => (write_marker acct w, ()));
  _ ← client (lock "account_deleted");
  file_gone ← attempt (
    old ← with_vault (fun v => let '(v, old) := replace_store empty_store v in (v, Ok old : Result StoreT));
    gone ← world remove_vault_file;
    _ ← with_vault (fun v => let '(v, _) := replace_store (if (gone : bool) then empty_store else old) v in (v, Ok () : Result ()));
    mret gone);
  cleared ← world (forget_device acct);
  _ ← (if default false file_gone then world (fun w => (remove_marker w, ())) else mret ());
  client (tell (EvAccountDeleted cleared)).

(** A refused write: the stored entitlement flips, and is announced once. *)
Definition mark_frozen : Cl () :=
  flipped ← attempt (
    v ← read_vault Ok;
    if is_none (account (store v)) then mret false
    else
      let p := plan (store v) in
      if bool_decide (entitlement p = Store.Frozen) then mret false
      else
        _ ← with_vault (on_store' (set_plan {| plan_status := plan_status p; entitlement := Store.Frozen;
                                               Store.trial_ends_at := Store.trial_ends_at p;
                                               period_end := period_end p |}));
        mret true);
  match flipped with Some true => client (tell EvPlanChanged) | _ => mret () end.

(** [failed]: what a failure of the server does to this client. *)
Definition react (e : SyncError) : Cl () :=
  match e with
  | Wire.Unauthorized => client (fun c => let '(c, held) := go_offline c in if held then tell EvSignedOut c else c)
  | Wire.AccountDeleted =>
      a ← attempt (read_vault (fun v => Ok (account (store v))));
      match a with
      | Some (Some a) => wipe_local (account_id a)
      | _ => mret ()
      end
  | Wire.Unavailable => client mark_unreachable
  | Wire.AccountFrozen => mark_frozen
  | _ => mret ()
  end.
Definition failed {A} (e : SyncError) : Cl A := _ ← react e; mthrow_ (from_sync e).

(** A request: its own result, or [map_err(|e| self.failed(e))]. *)
Definition ask {A} (m : M W SyncError A) : Cl (result SyncError A) := fun s =>
  let '(w, r) := m s.2 in ((s.1, w), Ok r).
Definition request {A} (m : M W SyncError A) : Cl A :=
  r ← ask m; match r with Ok a => mret a | Err e => failed e end.

(** ** sync.rs *)

Definition record_plan (info : option AccountInfo) : Cl () :=
  match info with
  | None => mret ()
  | Some i =>
      let p := {| plan_status := Some (ai_status i); entitlement := ai_entitlement i;
                  Store.trial_ends_at := ai_trial_ends_at i; period_end := ai_period_end i |} in
      before ← read_vault (fun v => Ok (plan (store v)));
      if bool_decide (before = p) then mret ()
      else _ ← with_vault (on_store' (set_plan p)); client (tell EvPlanChanged)
  end.

Definition header_revision (v : VaultService) : Result (option Z) := header_field Store.revision v.

(** The state the loop of [sync_now] carries. *)
Record PullState := {
  ps_cursor : Z;
  from_zero : bool;
  seen : gset Z;
  held : list Z;
  report : SyncReport;
}.

Definition add_page (r p : SyncReport) : SyncReport :=
  {| rep_added := rep_added r + rep_added p; rep_updated := rep_updated r + rep_updated p;
     rep_deleted := rep_deleted r + rep_deleted p; skipped_items := skipped_items r + skipped_items p;
     header_adopted := header_adopted r |}.
Definition add_deleted (n : nat) (r : SyncReport) : SyncReport :=
  {| rep_added := rep_added r; rep_updated := rep_updated r; rep_deleted := rep_deleted r + n;
     skipped_items := skipped_items r; header_adopted := header_adopted r |}.

(** One round: [inl] goes on, [inr] is the [break]. *)
Definition pull_round (s : Wire.Session) (st : PullState) : Cl (PullState + SyncReport) :=
  p ← request (pull s (ps_cursor st));
  let next := cursor p in
  if next <? ps_cursor st then
    if from_zero st then mthrow_ internal
    else
      t ← time;
      _ ← with_vault (reset_sync_cursor t);
      held ← read_vault replica_item_ids;
      mret (inl {| ps_cursor := 0; from_zero := true; seen := ∅; held := held; report := report st |})
  else
    let seen := if from_zero st then seen st ∪ list_to_set (map rc_item (changes p)) else seen st in
    t ← time;
    page ← with_vault (apply_remote_changes next (changes p) t);
    _ ← attempt (record_plan (pulled_account p));
    let report := add_page (report st) page in
    if negb (has_more p) || (next <=? ps_cursor st) then
      if from_zero st && negb (has_more p) then
        t ← time;
        dropped ← with_vault (drop_items_the_server_lacks (held st) seen t);
        mret (inr (add_deleted (rep_deleted dropped) report))
      else mret (inr report)
    else mret (inl {| ps_cursor := next; from_zero := from_zero st; seen := seen; held := held st; report := report |}).

(** [loop]: at most [fuel] rounds; [None] when it is still going. *)
Fixpoint rounds {St R} (f : St -> Cl (St + R)) (fuel : nat) (st : St) : Cl (option R) :=
  match fuel with
  | O => mret None
  | S fuel => x ← f st; match x with inl st => rounds f fuel st | inr r => mret (Some r) end
  end.

(** The state the loop starts in. *)
Definition pull_start (report : SyncReport) : Cl PullState :=
  c ← read_vault (fun v => Ok (match account (store v) with Some a => server_cursor a | None => 0 end));
  let from_zero := c =? 0 in
  held ← (if from_zero then read_vault replica_item_ids else mret []);
  mret {| ps_cursor := c; from_zero := from_zero; seen := ∅; held := held; report := report |}.

(** The header, before anything else: adopted when the server's is newer,
    refused when it is older than this device's. *)
Definition reconcile_header (s : Wire.Session) : Cl bool :=
  remote ← request (Wire.header s);
  _ ← client mark_reachable;
  revision ← read_vault (fun v => r ← header_revision v; Ok (default 0 r));
  if revision <? rh_revision remote then with_vault (adopt_account_header (rh_bytes remote))
  else if rh_revision remote <? revision then mthrow_ internal
  else mret false.

(** One chunk of items that did not open: asked for until all are answered.
    [false] leaves every chunk. *)
Definition not_in (l : list Z) (i : Z) : bool := negb (bool_decide (i ∈ l)).
Definition refetch_round (s : Wire.Session) (st : list Z * SyncReport)
    : Cl ((list Z * SyncReport) + (bool * SyncReport)) :=
  let '(asked, report) := st in
  if bool_decide (asked = []) then mret (inr (true, report))
  else
    r ← ask (fetch_items s asked);
    match r with
    | Err Wire.Unauthorized => _ ← react Wire.Unauthorized; mret (inr (false, report))
    | Err _ => mret (inr (false, report))
    | Ok fetched =>
        let answered := List.filter (not_in (unanswered fetched)) asked in
        if bool_decide (answered = []) then mret (inr (false, report))
        else
          t ← time;
          applied ← attempt (with_vault (apply_refetched answered (f_changes fetched) t));
          match applied with
          | None => mret (inr (false, report))
          | Some page =>
              let report := {| rep_added := rep_added report + rep_added page;
                               rep_updated := rep_updated report + rep_updated page;
                               rep_deleted := rep_deleted report + rep_deleted page;
                               skipped_items := skipped_items report; header_adopted := header_adopted report |} in
              mret (inl (unanswered fetched, report))
          end
    end.

(** [chunks(MAX_BATCH)]. *)
Fixpoint chunks {A} (fuel : nat) (n : nat) (l : list A) : list (list A) :=
  match fuel, l with
  | S fuel, _ :: _ => take n l :: chunks fuel n (drop n l)
  | _, _ => []
  end.

(** Each round leaves fewer items to ask for, so one more round than items
    is enough. *)
Fixpoint refetch_chunks (s : Wire.Session) (cs : list (list Z)) (report : SyncReport) : Cl SyncReport :=
  match cs with
  | [] => mret report
  | c :: cs =>
      r ← rounds (refetch_round s) (S (length c)) (c, report);
      match r with
      | Some (true, report) => refetch_chunks s cs report
      | Some (false, report) => mret report
      | None => mret report
      end
  end.

Definition revision_for (applied : list (Z * Z)) (item : Z) : result ClientError Z :=
  match List.find (fun p => p.1 =? item) applied with
  | Some p => Ok p.2
  | None => Err (fixed "sync_failed" "The server did not acknowledge that item.")
  end.

Definition push (w : StagedWrite) : Cl (option ItemOverview) :=
  _ ← require_full;
  s ← session; _ ← server;
  ack ← request (write s [w]);
  rev ← mlift (revision_for (applied ack) (sw_item w));
  with_vault (commit_write w rev).

Fixpoint commit_batch (ack : WriteAck) (ws : list StagedWrite) (committed : nat) : Cl nat :=
  match ws with
  | [] => mret committed
  | w :: ws =>
      rev ← mlift (revision_for (applied ack) (sw_item w));
      _ ← with_vault (commit_write w rev);
      commit_batch ack ws (S committed)
  end.

Fixpoint push_each (s : Wire.Session) (batches : list (list StagedWrite)) (committed : nat) : Cl nat :=
  match batches with
  | [] => mret committed
  | b :: batches =>
      ack ← request (write s b);
      committed ← commit_batch ack b committed;
      push_each s batches committed
  end.

Definition push_batches (ws : list StagedWrite) : Cl nat :=
  _ ← require_full;
  s ← session; _ ← server;
  push_each s (chunks (length ws) MAX_BATCH ws) 0.

Definition purge_expired_trash : Cl nat :=
  t ← time;
  due ← attempt (read_vault (stage_expired_trash t));
  match due with
  | Some (w :: ws) => n ← attempt (push_batches (w :: ws)); mret (default 0%nat n)
  | _ => mret 0%nat
  end.

Definition prune_cache : Cl () :=
  c ← (fun s => (s, Ok (attachment_cache_cap s.1)));
  _ ← attempt (with_vault (prune_attachments c)); mret ().

(** After the pull: retried items, expired trash, the file cache. *)
Definition finish_sync (s : Wire.Session) (report : SyncReport) : Cl SyncReport :=
  pending ← read_vault (fun v => Ok (unreadable_ids (store v)));
  report ← refetch_chunks s (chunks (length pending) MAX_BATCH pending) report;
  purged ← purge_expired_trash;
  let report := add_deleted purged report in
  _ ← prune_cache;
  _ ← mark_sync_attempt;
  _ ← client (tell (EvSynced report));
  mret report.

(** [sync_now] with at most [fuel] pages. *)
Definition sync_now (fuel : nat) : Cl (option SyncReport) :=
  _ ← mark_sync_attempt;
  s ← session; _ ← server;
  adopted ← reconcile_header s;
  st ← pull_start {| rep_added := 0; rep_updated := 0; rep_deleted := 0; skipped_items := 0; header_adopted := adopted |};
  r ← rounds (pull_round s) fuel st;
  match r with
  | None => mret None
  | Some report => report ← finish_sync s report; mret (Some report)
  end.
End Client.
