(* ===== verification/Account.v ===== *)
(** * The account on this device (crates/havenkeys-client: account.rs, pake.rs,
      bundle.rs, deletion.rs, removal.rs)

    Activation, signing in on a second device, unlocking and its fallback to
    the server's header, the change of the master password, unlock bundles,
    the devices, signing out, removing the device and deleting the account.

    The world of Client.v is here [Local]: the device of Device.v, the HTTP
    client last built ([server_for]), the pairing in progress, and what is
    outside the process ([AppHost]).  A task the source spawns in the
    background is a [Job] the method returns; [run_job] runs it, whenever the
    shell's executor does. *)

From S2P Require Import Prelude Errors Text Blob Url Tags Totp Clean Card Identity.
From S2P Require Import CustomField Bank Sso Attachment Model Keys Store Lock Origin Health BuildItem.
From S2P Require Import Vault Items Sync Encoding SecretKey Pairing Dates Opaque Wire WireAccount Transport Device Client.

(** [PendingPairing] (pairing.rs): the new device's half of one pairing. *)
Record PendingPairing := {
  pend_keys : PairingKeys;
  pend_claim : list Z;
  pend_server : list Z;
  pend_id : list Z;
}.

(** A file of the data folder: the vault file, set aside under a stamp or
    not, with a suffix of SQLite's. *)
Record VaultFile := { vf_aside : option (list Z); vf_suffix : list Z }.
Definition main_file : VaultFile := {| vf_aside := None; vf_suffix := [] |}.
Definition SUFFIXES : list (list Z) := [lit "-wal"; lit "-shm"; lit "-journal"].

Inductive RemoveEnd := Removed | WasMissing | RemoveFailed.

(** What else is outside the process: clocks, random generators, the files
    of the vault and the marker of a deletion, and [Uuid]'s parser. *)
Class AppHost (W : Type) := {
  host_now_ms : W -> Z;
  host_elapsed : W -> Z;
  host_unix_secs : W -> Z;
  draw_bytes : nat -> W -> W * option (list Z);
  draw_opaque : W -> W * Draws;
  (** The generator of an HPKE key pair or encapsulation. *)
  draw_key : W -> W * list Z;
  draw_field_ids : W -> W * (nat -> Z);
  file_exists : VaultFile -> W -> bool;
  rename_file : VaultFile -> VaultFile -> W -> W * bool;
  remove_file : VaultFile -> W -> W * RemoveEnd;
  store_opens : W -> W * result Error ();
  host_write_marker : list Z -> W -> W;
  host_remove_marker : W -> W;
  host_read_marker : W -> option (list Z);
}.
Class UuidParse := uuid_parse : list Z -> option Z.

Record Local {UL : UrlLib} (W : Type) := {
  lc_device : Device;
  lc_server : option (list Z * Url);
  lc_pairing : option PendingPairing;
  lc_host : W;
}.
Arguments lc_device {UL W}.
Arguments lc_server {UL W}.
Arguments lc_pairing {UL W}.
Arguments lc_host {UL W}.
Arguments Build_Local {UL W}.

(** ** error.rs *)

Definition file_error : ClientError := fixed "file" "Could not read or delete the file.".
Definition sign_in_failed : ClientError :=
  fixed "sign_in_failed" "Email, master password or Secret Key is incorrect.".
Definition pairing_gone : ClientError :=
  fixed "pairing_gone" "This code has expired. Ask the new device for a new one.".
Definition pairing_other_server : ClientError := fixed "pairing_other_server" "This code is for another server.".
Definition pairing_failed : ClientError :=
  fixed "pairing_failed" "The sign-in could not be completed. Ask for a new code.".
Definition account_frozen_new_device : ClientError :=
  fixed "account_frozen_new_device" "This account is read-only (the trial ended or payment lapsed) and cannot add a new device. Sign in from a device that already has it, or subscribe.".
Definition keychain_unavailable : ClientError :=
  fixed "keychain_unavailable" "Your system keychain did not answer. Approve its prompt if one is showing, then try again.".
Definition password_change_unknown : ClientError :=
  fixed "password_change_unknown" "HavenKeys could not confirm whether the server applied the new master password. If your current password stops working, use the new one.".
Definition invalid_kit : ClientError := fixed "invalid_kit" "That is not a HavenKeys Recovery Sheet code.".
Definition password_changed_elsewhere : ClientError :=
  fixed "password_changed_elsewhere" "Your master password was changed on another device. Lock and unlock with the new password.".

(** ** account.rs: what is shown *)

Record DeviceStatus := {
  ds_key_scheme : option KeyScheme;
  needs_secret_key : bool;
  ds_online : bool;
  secret_key_storage : Storage;
}.
Record AccountStatus := {
  as_email : list Z;
  as_server_url : list Z;
  as_account_id : Z;
  as_online : bool;
  as_last_synced_at : option Z;
  as_plan_status : option (list Z);
  as_entitlement : Store.Entitlement;
  as_trial_ends_at : option (list Z);
  as_period_end : option (list Z);
}.
Record InvitePreview := { ip_email : list Z; ip_server_url : list Z }.
Inductive AccountField := FEmail | FServer | FAccountId | FSecretKey.

Inductive ChangeOutcome := Applied | NotApplied | Unknown.

Definition change_outcome (server : option KdfParams) (old new : KdfParams) : ChangeOutcome :=
  match server with
  | Some k => if bool_decide (k = new) then Applied else if bool_decide (k = old) then NotApplied else Unknown
  | None => Unknown
  end.
Definition credential_change_conflict (e : SyncError) : option ClientError :=
  match e with Wire.Conflict _ => Some password_changed_elsewhere | _ => None end.

(** A task left running in the background. *)
Inductive Job := JConnect (auth_key : list Z) | JSync | JBundle (auth_key : list Z) (opened : Z).

(** ** pake.rs *)

Definition may_fall_back (e : SyncError) : bool :=
  match e with
  | Wire.Unauthorized => true
  | Wire.Refused what => bool_decide (what = "not found")
  | _ => false
  end.

Section Account.
Context {C : Crypto} {K : KeyLib} {U : Unicode} {J : JsonLib} {H : HeaderLib} {UL : UrlLib}.
Context {B32 : Base32Lib} {B64 : Base64UrlLib} {HP : HpkeLib} {F : FormLib} {O : OpaqueKe} {FC : FormatChars}.
Context {TL : TotpLib} {AS : AccountSerde} {SD : Serde OnDisk} {UT : UuidText} {UP : UuidParse}.
Context {S1 : Serde ErrorBody} {S2 : Serde PullDto} {S3 : Serde WriteBody} {S4 : Serde WriteAckDto}.
Context {S5 : Serde ConflictsDto} {S6 : Serde FetchBody} {S7 : Serde FetchDto} {S8 : Serde HeaderDto}.
Context {W : Type} {KH : KeyHost W} {RL : ReqwestLib W} {AH : AppHost W}.
(** [ClientConfig::device_name], and the build's setting of transport.rs. *)
Variables (device_name : list Z) (localhost_http : bool).

Definition set_host (h : W) (l : Local W) : Local W := Build_Local (lc_device l) (lc_server l) (lc_pairing l) h.
Definition set_server (x : option (list Z * Url)) (l : Local W) : Local W :=
  Build_Local (lc_device l) x (lc_pairing l) (lc_host l).
Definition set_pairing (p : option PendingPairing) (l : Local W) : Local W :=
  Build_Local (lc_device l) (lc_server l) p (lc_host l).
Definition on_host {A} (f : W -> W * A) (l : Local W) : Local W * A := let '(h, a) := f (lc_host l) in (set_host h l, a).
Definition on_device {A} (m : D A) (l : Local W) : Local W * A :=
  let '((d, h), a) := m (lc_device l, lc_host l) in (Build_Local d (lc_server l) (lc_pairing l) h, a).

(** Requests go to the server the HTTP client was built for. *)
#[export] Instance local_transport : Transport (Local W) := fun request l =>
  match lc_server l with
  | Some (_, base) => let '(h, r) := http_send base request (lc_host l) in (set_host h l, r)
  | None => (l, Err Wire.Unavailable)
  end.

(** deletion.rs: the vault file with SQLite's sidecars. *)
Definition remove_files (w : W) : W * bool :=
  let w := foldl (fun w s => (remove_file {| vf_aside := None; vf_suffix := s |} w).1) w SUFFIXES in
  let '(w, r) := remove_file main_file w in (w, match r with RemoveFailed => false | _ => true end).

#[export] Instance local_platform : Platform (Local W) :=
  {| now_ms := fun l => host_now_ms (lc_host l);
     elapsed := fun l => host_elapsed (lc_host l);
     remove_vault_file := on_host remove_files;
     forget_device := fun acct l => let '(l, f) := on_device (forget acct) l in (set_server None l, keychain_cleared f);
     write_marker := fun acct l => set_host (host_write_marker (uuid_text acct) (lc_host l)) l;
     remove_marker := fun l => set_host (host_remove_marker (lc_host l)) l;
     read_marker := fun l => host_read_marker (lc_host l) |}.

Abbreviation Cl := (M (HavenClient * Local W) ClientError).
Abbreviation Http := (M (Local W) SyncError).

Definition dev {A} (m : D A) : Cl A := world (on_device m).
Definition draw (n : nat) : Cl (option (list Z)) := world (on_host (draw_bytes n)).
Definition opaque_draws : Http Draws := fun l => let '(l, d) := on_host draw_opaque l in (l, Ok d).
Definition core {A} (r : Result A) : Cl A := mlift (map_err from_core r).
Definition device_id : Cl Z := dev (fun s => (s, dev_id s.1)).

(** [?] on an answer of the server, without [failed]. *)
Definition asked {A} (m : Http A) : Cl A := r ← ask m; mlift (map_err from_sync r).
(** [.map_err(|_| e)]. *)
Definition as_error {A} (e : ClientError) (m : Cl A) : Cl A := fun s => let '(s, r) := m s in (s, map_err (fun _ => e) r).
(** A step's own failure, as a value. *)
Definition caught_client {A} (m : Cl A) : Cl (result ClientError A) := fun s => let '(s, r) := m s in (s, Ok r).
(** A method of the vault, its own error as a value. *)
Definition core_result {A} (m : V A) : Cl (Result A) := fun s =>
  match storage_error s.1 with
  | Some e => (s, Err e)
  | None => let '(v, r) := m (vault_ s.1) in ((set_vault_ v s.1, s.2), Ok r)
  end.

Definition shown_online : Cl bool := fun s => (s, Ok (is_online s.1)).
Definition require_unlocked : Cl () := read_vault (fun v => guard_err (negb (is_unlocked v)) Locked).

(** [server_for]: the client is kept for as long as the URL is the same. *)
Definition server_for (url : list Z) : Cl () := fun s =>
  match lc_server s.2 with
  | Some (cached_url, _) =>
      if bool_decide (cached_url = url) then (s, Ok ())
      else
        match http_transport localhost_http url with
        | Ok base => ((s.1, set_server (Some (url, base)) s.2), Ok ())
        | Err e => (s, Err (from_sync e))
        end
  | None =>
      match http_transport localhost_http url with
      | Ok base => ((s.1, set_server (Some (url, base)) s.2), Ok ())
      | Err e => (s, Err (from_sync e))
      end
  end.
(** [server]: of the stored account. *)
Definition own_server : Cl () :=
  a ← read_vault (fun v => ok_or NoVault (account (store v)));
  server_for (Store.server_url a).
Definition forget_server : Cl () := world (fun l => (set_server None l, ())).

(** ** pake.rs *)

Definition sign_in_with_key (email auth_key : list Z) (account_id device : Z) (confirmed : bool)
    : Http (Wire.Session * bool) :=
  random ← opaque_draws;
  first ← caught (login_pake random email auth_key account_id device device_name);
  match first with
  | Ok session => mret (session, true)
  | Err e =>
      if confirmed || negb (may_fall_back e) then mthrow_ e
      else
        second ← caught (login_legacy email auth_key account_id device device_name);
        match second with
        | Err e2 => mthrow_ (if bool_decide (e2 = Wire.Refused "upgrade required") then e else e2)
        | Ok session =>
            random ← opaque_draws;
            enrolled ← caught (enroll random session auth_key);
            mret (session, is_ok enrolled)
        end
  end.

(** ** account.rs *)

Definition vault_account : Cl AccountRef :=
  read_vault (fun v => a ← ok_or NoVault (account (store v)); to_ref a).

Definition device_status : Cl DeviceStatus :=
  scheme ← read_vault (header_field key_scheme);
  a ← read_vault (fun v => Ok (account (store v)));
  online ← shown_online;
  match a with
  | Some a =>
      st ← dev (key_status (Store.account_id a));
      mret {| ds_key_scheme := scheme; needs_secret_key := is_some scheme && missing st; ds_online := online;
              secret_key_storage := ks_storage st |}
  | None => mret {| ds_key_scheme := scheme; needs_secret_key := false; ds_online := online; secret_key_storage := NoStorage |}
  end.

Definition account_status : Cl (option AccountStatus) :=
  a ← read_vault (fun v => Ok (account (store v)));
  p ← read_vault (fun v => Ok (plan (store v)));
  online ← shown_online;
  mret ((fun a => {| as_email := Store.email a; as_server_url := Store.server_url a; as_account_id := Store.account_id a;
                     as_online := online; as_last_synced_at := last_synced_at a; as_plan_status := plan_status p;
                     as_entitlement := entitlement p; as_trial_ends_at := Store.trial_ends_at p;
                     as_period_end := period_end p |}) <$> a).

Definition preview_invite (invite : list Z) : result ClientError InvitePreview :=
  i ← map_err (fun _ => from_core (InvalidInput "that invite is not valid")) (invite_decode (trim invite));
  e ← map_err from_core (email_parse (inv_email i));
  Ok {| ip_email := e; ip_server_url := inv_server i |}.

Definition new_account_record (a : AccountRef) (server_url : list Z) (max_header_rev : Z) : AccountRecord :=
  {| Store.account_id := ref_id a; Store.email := ref_email a; Store.server_url := server_url; server_cursor := 0;
     Store.max_header_rev := max_header_rev; last_synced_at := None |}.

(** No vault on this device yet. *)
Definition no_vault : Cl () :=
  scheme ← read_vault (header_field key_scheme);
  mlift (guard_err (is_some scheme) (from_core VaultExists)).

(** The vault opens unlocked; its epoch once open. *)
Definition create_vault (p : PreparedVault) (record : AccountRecord) : Cl Z :=
  nonce ← draw 12;
  _ ← with_vault (create_account_vault p record nonce);
  st ← read_vault settings;
  _ ← client (tell (EvUnlocked (auto_lock_minutes st)));
  read_vault (fun v => Ok (epoch v)).

(** [go_online_after_sign_in]: a lock since [opened] wins. *)
Definition go_online_after_sign_in (session : Wire.Session) (opened : Z) : Cl (VaultStatus * option Job) :=
  v ← read_vault Ok;
  let online := is_unlocked v && (epoch v =? opened) in
  _ ← (if online then client (set_online session) else mret ());
  st ← read_vault Vault.status;
  if online then _ ← client (tell (EvConnectivity true)); mret (st, Some JSync) else mret (st, None).

Definition keep_secret_key (account : Z) (key : list Z) : Cl () :=
  r ← dev (set_secret_key account key);
  match r with Ok _ => mret () | Err _ => mthrow_ file_error end.

(** [KdfParams::generate]. *)
Definition kdf_generate : Cl KdfParams :=
  salt ← draw SALT_LEN;
  core (with_cost DEFAULT_MEMORY_KIB DEFAULT_ITERATIONS DEFAULT_PARALLELISM salt).

(** The part of [activate] before the server is asked. *)
Definition prepare_activation (invite password : list Z) : Cl (AccountRef * list Z * AccountVault * list Z) :=
  _ ← no_vault;
  _ ← core (check_new_master_password password);
  i ← mlift (map_err from_sync (invite_decode (trim invite)));
  e ← core (email_parse (inv_email i));
  let a := {| ref_id := inv_account i; ref_email := e |} in
  _ ← server_for (inv_server i);
  kdf ← kdf_generate;
  now ← time;
  secret ← draw SECRET_KEY_LEN; vault ← world (on_host new_uuid); vault_key ← draw KEY_LEN; nonce ← draw 12;
  made ← core (prepare_new_account_vault password a kdf now secret vault vault_key nonce);
  nonce ← draw 12;
  header ← core (encode_header_for (av_prepared made) nonce);
  mret (a, inv_server i, made, header).

(** [activate]: the Secret Key is kept before the server is asked, the vault
    is created only once it agreed. *)
Definition activate (invite password : list Z) : Cl (VaultStatus * option Job) :=
  p ← prepare_activation invite password;
  let '(a, server_url, made, header) := p in
  _ ← keep_secret_key (ref_id a) (av_secret_key made);
  _ ← asked (random ← opaque_draws;
             WireAccount.activate random
               {| act_email := ref_email a; act_invite := trim invite; act_kdf := Store.kdf (prep_header (av_prepared made));
                  act_auth_key := av_auth_key made; act_vault_id := Store.vault_id (prep_header (av_prepared made));
                  act_header := header |});
  _ ← create_vault (av_prepared made) (new_account_record a server_url 0);
  st ← read_vault Vault.status;
  mret (st, Some (JConnect (av_auth_key made))).

(** A Secret Key typed: an empty one is none. *)
Definition typed_key (typed : option (list Z)) : Cl (option (list Z)) :=
  match typed with
  | Some (c :: t) => k ← core (SecretKey.parse (c :: t)); mret (Some k)
  | _ => mret None
  end.

Definition derive_auth_key (password key : list Z) (k : KdfParams) (a : AccountRef) : Result (list Z) :=
  m ← derive_master_key password k; derive_auth_key_from_master m key a.

Definition normalize_url (url : list Z) : list Z := trim_slashes (trim url).

(** The first sign-in, open to the legacy login; what the user is told. *)
Definition sign_in_first (email auth_key : list Z) (account device : Z) : Cl (Wire.Session * bool) :=
  r ← ask (sign_in_with_key email auth_key account device false);
  mlift (map_err (fun e => if bool_decide (e = Wire.AccountFrozen) then account_frozen_new_device else sign_in_failed) r).

Definition mark_confirmed (pake_ok : bool) : Cl () :=
  if pake_ok then _ ← attempt (with_vault (on_store' set_pake_confirmed)); mret () else mret ().

(** [sign_in]: nothing is written before the server's header opened. *)
Definition sign_in (server_url email password : list Z) (typed : option (list Z)) : Cl (VaultStatus * option Job) :=
  _ ← no_vault;
  e ← core (email_parse email);
  typed ← typed_key typed;
  let server_url := normalize_url server_url in
  _ ← server_for server_url;
  device ← device_id;
  params ← asked (auth_params e);
  let a := {| ref_id := params_account params; ref_email := e |} in
  secret ← (match typed with
           | Some k => mret k
           | None => k ← dev (secret_key (ref_id a)); core (ok_or SecretKeyRequired k) : Cl (list Z)
           end);
  auth_key ← core (derive_auth_key password secret (params_kdf params) a);
  signed ← sign_in_first e auth_key (ref_id a) device;
  remote ← as_error sign_in_failed (asked (Wire.header signed.1));
  prepared ← as_error sign_in_failed (core (prepare_sign_in (rh_bytes remote) password secret a));
  opened ← create_vault prepared.1 (new_account_record a server_url (as_i64 (Store.revision (prep_header prepared.1))));
  _ ← mark_confirmed signed.2;
  _ ← keep_secret_key (ref_id a) secret;
  go_online_after_sign_in signed.1 opened.

Definition remember_typed_secret_key (account : Z) (key_text : option (list Z)) : Cl () :=
  match (t ← key_text; result_ok (SecretKey.parse t)) with
  | Some k => _ ← dev (set_secret_key account k); mret ()
  | None => mret ()
  end.

(** The vault opened: its status, announced with its auto-lock. *)
Definition announce_open : Cl VaultStatus :=
  st ← read_vault settings;
  status ← read_vault Vault.status;
  _ ← client (tell (EvUnlocked (auto_lock_minutes st)));
  mret status.

Definition kdf_of (v : VaultService) : Result (option KdfParams) := header_field Store.kdf v.

(** [unlock_from_server]: reached with the vault locked; [opened] is the
    epoch of the failed unlock.  A timeout of its first request is one more
    way for that request to fail, and the caller hides which. *)
Definition unlock_from_server (password key_text : list Z) (opened : Z) : Cl (VaultStatus * option Job) :=
  a ← vault_account;
  local_kdf ← read_vault kdf_of;
  _ ← own_server;
  params ← asked (auth_params (ref_email a));
  if negb (params_account params =? ref_id a) || bool_decide (local_kdf = Some (params_kdf params))
  then mthrow_ (from_core UnlockFailed)
  else
    secret ← core (SecretKey.parse key_text);
    auth_key ← core (derive_auth_key password secret (params_kdf params) a);
    v ← read_vault Ok;
    device ← device_id;
    signed ← asked (sign_in_with_key (ref_email a) auth_key (ref_id a) device (pake_confirmed (store v)));
    remote ← asked (Wire.header signed.1);
    prepared ← core (prepare_sign_in (rh_bytes remote) password secret a);
    _ ← with_vault (adopt_and_unlock prepared.1 opened);
    shown ← caught_client (read_vault (fun v => st ← settings v; status ← Vault.status v; Ok (auto_lock_minutes st, status)));
    match shown with
    | Err e => _ ← client (fun c => set_vault_ (Vault.lock (vault_ c)).1 c); mthrow_ e
    | Ok (minutes, status) =>
        _ ← mark_confirmed signed.2;
        _ ← client (tell (EvUnlocked minutes));
        _ ← client (set_online signed.1);
        _ ← client (tell (EvConnectivity true));
        mret (status, Some JSync)
    end.

(** What [unlock] does with the keys derived for its ticket. *)
Definition finish_and_announce (t : UnlockTicket) (key : Result (list Z)) : Cl (VaultStatus + Error * Z) :=
  r ← core_result (finish_unlock t key);
  match r with
  | Ok _ => st ← announce_open; mret (inl st)
  | Err e => v ← read_vault Ok; mret (inr (e, epoch v))
  end.

(** [unlock] with a key at hand: [key_text] is the typed one's. *)
Definition unlock_with_key (a : AccountRef) (password secret fallback_text : list Z) (key_text : option (list Z))
    : Cl (VaultStatus * option Job) :=
  t ← with_vault begin_unlock;
  let derived := derive_session_for_account t password secret a in
  r ← finish_and_announce t (fst <$> derived);
  match r with
  | inl st =>
      _ ← remember_typed_secret_key (ref_id a) key_text;
      mret (st, match derived with Ok (_, auth_key) => Some (JConnect auth_key) | Err _ => None end)
  | inr (e, opened) =>
      if negb (bool_decide (code e = "unlock_failed")) then mthrow_ (from_core e)
      else
        r ← caught_client (unlock_from_server password fallback_text opened);
        match r with
        | Ok done => _ ← remember_typed_secret_key (ref_id a) key_text; mret done
        | Err _ => mthrow_ (from_core e)
        end
  end.

Definition unlock (password : list Z) (typed : option (list Z)) : Cl (VaultStatus * option Job) :=
  a ← vault_account;
  found ← dev (secret_key_lookup (ref_id a));
  let stored_text := found.1 in
  let stored := t ← stored_text; result_ok (SecretKey.parse t) in
  typed ← typed_key typed;
  match typed, stored with
  | None, None =>
      if negb found.2 then mthrow_ keychain_unavailable
      else
        t ← with_vault begin_unlock;
        _ ← with_vault (finish_unlock t (Err SecretKeyRequired));
        mthrow_ (from_core SecretKeyRequired)
  | Some k, _ => unlock_with_key a password k (to_text k) (Some (to_text k))
  | None, Some k => unlock_with_key a password k (default [] stored_text) None
  end.

Definition own_secret_key (account : Z) : Cl (list Z) :=
  k ← dev (secret_key account); core (ok_or SecretKeyRequired k).

Definition verify_master_password (password : list Z) : Cl () :=
  a ← vault_account;
  secret ← own_secret_key (ref_id a);
  check ← read_vault begin_password_check;
  core (verify_password check password secret).

(** [change_master_password] after its sync: the request, judged by what the
    server serves when the answer is lost, then the commit. *)
Definition send_change (a : AccountRef) (t : RekeyTicket) (old_kdf : KdfParams) (r : Rekeyed) (header : list Z)
    (confirmed : bool) : Cl Z :=
  s ← session;
  _ ← own_server;
  let base := as_i64 (Store.revision (rk_header t)) in
  sent ← ask (r1 ← opaque_draws; r2 ← opaque_draws;
              change_credentials r1 r2 s
                {| cc_current_auth_key := current_auth_key r; cc_kdf := re_kdf r; cc_new_auth_key := new_auth_key r;
                   cc_header := header; cc_base_header_revision := base; cc_pake := confirmed |});
  match sent with
  | Ok rev => if rev <? 0 then mthrow_ internal else mret rev
  | Err ((Wire.Unavailable | Wire.Protocol _) as e) =>
      now ← ask (auth_params (ref_email a));
      let served := match now with
                    | Ok p => if params_account p =? ref_id a then Some (params_kdf p) else None
                    | Err _ => None
                    end in
      match change_outcome served old_kdf (re_kdf r) with
      | Applied => mret (u64_saturating_add (Store.revision (rk_header t)) 1)
      | NotApplied => mthrow_ (from_sync e)
      | Unknown => mthrow_ password_change_unknown
      end
  | Err e => match credential_change_conflict e with Some c => mthrow_ c | None => failed e end
  end.

Definition change_after_sync (current new : list Z) : Cl () :=
  kdf ← kdf_generate;
  a ← vault_account;
  secret ← own_secret_key (ref_id a);
  t ← read_vault begin_rekey;
  old_kdf ← read_vault (fun v => k ← kdf_of v; ok_or NoVault k);
  v ← read_vault Ok;
  nonce ← draw 12;
  rekeyed ← core (rekey_derive t current new kdf secret a nonce);
  nonce ← draw 12;
  header ← read_vault (encode_rekeyed_header t rekeyed nonce);
  rev ← send_change a t old_kdf rekeyed header (pake_confirmed (store v));
  r ← core_result (commit_rekey t (Ok rekeyed) rev);
  match r with
  | Ok _ | Err (Busy | Locked) => mret ()
  | Err e => mthrow_ (from_core e)
  end.

(** [change_master_password]; [None] while the sync before it goes on. *)
Definition change_master_password (fuel : nat) (current new : list Z) : Cl (option ()) :=
  _ ← require_online;
  _ ← require_full;
  _ ← core (check_new_master_password new);
  synced ← sync_now fuel;
  match synced with
  | None => mret None
  | Some _ => _ ← change_after_sync current new; mret (Some ())
  end.

Definition list_devices : Cl (list DeviceInfo) :=
  _ ← require_unlocked;
  s ← session; _ ← own_server;
  asked (devices s).

Definition revoke_device (id : Z) : Cl () :=
  _ ← require_unlocked;
  s ← session; _ ← own_server;
  _ ← asked (Wire.revoke_device s id);
  mine ← device_id;
  if id =? mine then client (fun c => (go_offline c).1) else mret ().

Definition sign_out : Cl () :=
  _ ← attempt (s ← session; _ ← own_server; asked (logout s));
  _ ← client (lock "user");
  client (tell (EvConnectivity false)).

(** [account_field]; the account behind the item only while unlocked. *)
Definition account_field (a : AccountRecord) (f : AccountField) : D (Result (list Z)) :=
  match f with
  | FEmail => dret (Ok (Store.email a))
  | FServer => dret (Ok (Store.server_url a))
  | FAccountId => dret (Ok (uuid_text (Store.account_id a)))
  | FSecretKey => dbind (secret_key_text (Store.account_id a)) (fun t => dret (ok_or NotFound t))
  end.
Definition unlocked_account (v : VaultService) : Result AccountRecord :=
  if negb (is_unlocked v) then Err Locked else ok_or NoVault (account (store v)).
Definition account_value (f : AccountField) : Cl (list Z * Z) :=
  a ← read_vault unlocked_account;
  st ← read_vault settings;
  x ← dev (account_field a f);
  x ← core x;
  mret (x, clipboard_clear_seconds st).

(** ** sync.rs: [connect] and what it leaves to do *)

Definition account_email (v : VaultService) : Result (option (list Z)) := Ok (Store.email <$> account (store v)).

(** [ensure_identity]; [None] while the pull it may run goes on. *)
Definition ensure_identity (fuel : nat) : Cl (option ()) :=
  e ← attempt (read_vault account_email);
  match e with
  | Some (Some e) =>
      now ← time;
      ids ← world (on_host draw_field_ids); r1 ← draw 12; r2 ← draw 12;
      staged ← attempt (read_vault (stage_identity_if_missing ids e now r1 r2));
      match staged with
      | Some (Some w) =>
          r ← caught_client (push w);
          match r with
          | Ok _ => _ ← client (tell EvItemsChanged); mret (Some ())
          | Err e =>
              if bool_decide (ce_code e = "item_changed_elsewhere") then
                r ← caught_client (sync_now fuel);
                match r with
                | Ok None => mret None
                | Ok (Some _) => _ ← client (tell EvItemsChanged); mret (Some ())
                | Err _ => mret (Some ())
                end
              else mret (Some ())
          end
      | _ => mret (Some ())
      end
  | _ => mret (Some ())
  end.

(** What [connect] does with its session: a lock since [opened] wins. *)
Definition go_online (session : Wire.Session) (pake_ok : bool) (opened : Z) : Cl () :=
  v ← read_vault Ok;
  _ ← mlift (guard_err (negb (is_unlocked v) || negb (epoch v =? opened)) (from_core Locked));
  _ ← mark_confirmed pake_ok;
  _ ← client (set_online session);
  _ ← attempt (record_plan (sess_account session));
  client (tell (EvConnectivity true)).

Definition connect (fuel : nat) (auth_key : list Z) : Cl (option ()) :=
  v ← read_vault Ok;
  _ ← mlift (guard_err (negb (is_unlocked v)) (from_core Locked));
  a ← core (ok_or NoVault (account (store v)));
  _ ← server_for (Store.server_url a);
  device ← device_id;
  r ← ask (sign_in_with_key (Store.email a) auth_key (Store.account_id a) device (pake_confirmed (store v)));
  match r with
  | Err e => _ ← (if bool_decide (e = Wire.Unauthorized) then client (tell EvSignedOut) else mret ()); failed e
  | Ok (session, pake_ok) =>
      _ ← go_online session pake_ok (epoch v);
      synced ← sync_now fuel;
      match synced with None => mret None | Some _ => ensure_identity fuel end
  end.

(** ** bundle.rs *)

Definition create_unlock_bundle (password : list Z) (boot_count : Z) : Cl (list Z) :=
  a ← vault_account;
  t ← read_vault begin_bundle;
  secret ← own_secret_key (ref_id a);
  enrolled ← time;
  b ← core (bundle_derive t password secret a enrolled boot_count);
  v ← read_vault Ok;
  _ ← mlift (guard_err (negb (is_unlocked v) || negb (epoch v =? bt_epoch t)) (from_core Locked));
  mret (bundle_encode b).

Definition unlock_with_bundle (bundle : list Z) (boot_count : Z) : Cl (VaultStatus * option Job) :=
  b ← core (bundle_decode bundle);
  now ← time;
  _ ← core (check_fresh b now boot_count);
  _ ← with_vault (unlock_with_vault_key (bun_vault_key b));
  st ← announce_open;
  v ← read_vault Ok;
  mret (st, Some (JBundle (bun_auth_key b) (epoch v))).

(** ** The background *)

Definition run_job (fuel : nat) (j : Job) : Cl (option ()) :=
  match j with
  | JConnect auth_key => r ← attempt (connect fuel auth_key); mret (default (Some ()) r)
  | JSync => r ← attempt (sync_now fuel); mret (match r with Some None => None | _ => Some () end)
  | JBundle auth_key opened =>
      r ← caught_client (connect fuel auth_key);
      match r with
      | Ok r => mret r
      | Err e =>
          v ← attempt (read_vault Ok);
          _ ← (if bool_decide (ce_code e = "signed_out") && match v with Some v => epoch v =? opened | None => false end
               then client (lock "bundle_refused") else mret ());
          mret (Some ())
      end
  end.

(** ** deletion.rs and removal.rs *)

Definition confirms (typed email : list Z) : bool :=
  match email_parse typed, email_parse email with
  | Ok a, Ok b => bool_decide (a = b)
  | _, _ => false
  end.
Definition type_the_email : ClientError := from_core (InvalidInput "type this account's email to confirm").

Definition delete_account (confirmation password : list Z) : Cl () :=
  _ ← require_unlocked;
  _ ← require_online;
  record ← read_vault (fun v => ok_or NoVault (account (store v)));
  _ ← mlift (guard_err (negb (confirms confirmation (Store.email record))) type_the_email);
  _ ← verify_master_password password;
  a ← vault_account;
  secret ← own_secret_key (ref_id a);
  kdf ← read_vault (fun v => k ← kdf_of v; ok_or NoVault k);
  v ← read_vault Ok;
  auth_key ← core (derive_auth_key password secret kdf a);
  s ← session; _ ← own_server;
  sent ← ask (random ← opaque_draws;
              WireAccount.delete_account random s auth_key (ref_email a) (pake_confirmed (store v)));
  match sent with
  | Ok _ | Err Wire.AccountDeleted => wipe_local (Store.account_id record)
  | Err e => failed e
  end.

(** At startup: whether a wipe was finished. *)
Definition finish_pending_deletion : Cl bool :=
  marker ← (fun s => (s, Ok (read_marker s.2))) : Cl (option (list Z));
  match marker with
  | None => mret false
  | Some text =>
      current ← attempt (read_vault (fun v => Ok (Store.account_id <$> account (store v))));
      match uuid_parse (trim text), default None current with
      | Some id, None => _ ← wipe_local id; mret true
      | Some id, Some c =>
          if c =? id then _ ← wipe_local id; mret true
          else _ ← world (fun l => (remove_marker l, ())); mret false
      | None, _ => _ ← world (fun l => (remove_marker l, ())); mret false
      end
  end.

Definition aside (stamp suffix : list Z) : VaultFile := {| vf_aside := Some stamp; vf_suffix := suffix |}.
Definition in_place (suffix : list Z) : VaultFile := {| vf_aside := None; vf_suffix := suffix |}.

Definition restore_journal_files (stamp : list Z) (moved : list (list Z)) (w : W) : W :=
  foldl (fun w s => (rename_file (aside stamp s) (in_place s) w).1) w moved.

(** The journal files first, the main file last; what moved is put back when
    a rename fails. *)
Fixpoint move_files (stamp : list Z) (suffixes moved : list (list Z)) (w : W) : W * bool :=
  match suffixes with
  | [] =>
      let '(w, done) := rename_file main_file (aside stamp []) w in
      if (done : bool) then (w, true) else (restore_journal_files stamp moved w, false)
  | s :: suffixes =>
      if negb (file_exists (in_place s) w) then move_files stamp suffixes moved w
      else
        let '(w, done) := rename_file (in_place s) (aside stamp s) w in
        if (done : bool) then move_files stamp suffixes (moved ++ [s]) w
        else (restore_journal_files stamp moved w, false)
  end.
Definition set_aside (stamp : list Z) (w : W) : W * bool :=
  if file_exists (aside stamp []) w then (w, false) else move_files stamp SUFFIXES [] w.

(** The stamp of a second since the epoch. *)
Definition civil_from_days (z : Z) : Z * Z * Z :=
  let z := z + 719468 in
  let era := z / 146097 in
  let doe := z - era * 146097 in
  let yoe := (doe - doe / 1460 + doe / 36524 - doe / 146096) / 365 in
  let y := yoe + era * 400 in
  let doy := doe - (365 * yoe + yoe / 4 - yoe / 100) in
  let mp := (5 * doy + 2) / 153 in
  let d := doy - (153 * mp + 2) / 5 + 1 in
  let m := if mp <? 10 then mp + 3 else mp - 9 in
  (if m <=? 2 then y + 1 else y, m, d).

Definition stamp_for_secs (secs : Z) : list Z :=
  let '(days, s) := (secs / 86400, secs mod 86400) in
  let '(year, month, day) := civil_from_days days in
  pad_int 4 year ++ pad_int 2 month ++ pad_int 2 day ++ lit "T"
    ++ pad_int 2 (s / 3600) ++ pad_int 2 (s mod 3600 / 60) ++ pad_int 2 (s mod 60) ++ lit "Z".
Definition chrono_free_utc_stamp (w : W) : list Z := stamp_for_secs (as_i64 (host_unix_secs w)).

(** The session, device and HTTP client [remove_device] captures. *)
Definition http_client : Cl (option (list Z * Url)) := fun x => (x, Ok (lc_server x.2)).
Definition capture : Cl (Wire.Session * Z * option (list Z * Url)) :=
  s ← session; _ ← own_server; d ← device_id; c ← http_client;
  mret (s, d, c).

(** [remove_device]: the file is set aside first, and from there every step
    runs whatever the ones before did. *)
Definition remove_device (confirmation : list Z) : Cl () :=
  a ← read_vault unlocked_account;
  _ ← mlift (guard_err (negb (confirms confirmation (Store.email a))) type_the_email);
  revoke ← attempt capture;
  was_online ← shown_online;
  _ ← client (lock "user");
  _ ← forget_server;
  _ ← (if (was_online : bool) then client (tell (EvConnectivity false)) else mret ());
  old ← with_vault (fun v => let '(v, old) := replace_store empty_store v in (v, Ok old : Result StoreT));
  moved ← world (on_host (fun w => set_aside (chrono_free_utc_stamp w) w));
  if negb (moved : bool) then
    opened ← world (on_host store_opens);
    _ ← core opened;
    _ ← with_vault (fun v => let '(v, _) := replace_store old v in (v, Ok () : Result ()));
    mthrow_ file_error
  else
    _ ← match revoke with
        | Some (s, d, client_of) =>
            _ ← world (fun l => (set_server client_of l, ()));
            _ ← ask (Wire.revoke_device s d);
            forget_server
        | None => mret ()
        end;
    reopened ← world (on_host store_opens);
    reopened ← caught_client (_ ← core reopened;
                              with_vault (fun v => let '(v, _) := replace_store empty_store v in (v, Ok () : Result ())));
    forgotten ← dev (forget (Store.account_id a));
    _ ← client (tell (EvRemoved (keychain_cleared forgotten)));
    _ ← mlift reopened;
    mlift (map_err (fun _ => file_error) (saved forgotten)).
End Account.
