(* ===== verification/ClientPairing.v ===== *)
(** * Pairing a new device, and the Recovery Sheet's code
      (crates/havenkeys-client: pairing.rs, kit.rs, client.rs [device_label])

    The new device shows a code and polls until the phone approves, denies or
    the code expires; an approval's envelope must open under the code's key
    and name the account and vault the server's session is for.  The phone
    reads the code, asks the server about it and seals its vault's keys to
    it.  [pairing_gate]: polls run one after the other. *)

From S2P Require Import Prelude Errors Text Blob Url Tags Totp Clean Card Identity.
From S2P Require Import CustomField Bank Sso Attachment Model Keys Store Lock Origin Health BuildItem.
From S2P Require Import Vault Items Sync Encoding SecretKey Pairing Dates Opaque Wire WireAccount Transport Device Client Account.

Record PairingStart := { start_link : list Z; start_expires_at : list Z }.
Inductive PairingPoll := PollWaiting | PollDenied | PollExpired | PollApproved (s : VaultStatus * option Job).
Record PairingRequest := {
  pr_link : list Z;
  pr_device_name : list Z;
  pr_ip : list Z;
  pr_location : option (list Z);
  pr_created_at : list Z;
}.

(** kit.rs *)
Definition MAX_KIT_LEN : Z := 2048.
Record KitFields := { kit_account_id : Z; kit_email : list Z; kit_server_url : list Z; kit_secret_key : list Z }.
(** The slots [parse_kit] fills, each once. *)
Record KitSlots := { ks_account : option (list Z); ks_email : option (list Z); ks_key : option (list Z); ks_server : option (list Z) }.

Definition MAX_LABEL_NAME_CHARS : nat := 40.

Section ClientPairing.
Context {C : Crypto} {K : KeyLib} {U : Unicode} {J : JsonLib} {H : HeaderLib} {UL : UrlLib}.
Context {B32 : Base32Lib} {B64 : Base64UrlLib} {HP : HpkeLib} {F : FormLib} {O : OpaqueKe} {FC : FormatChars}.
Context {TL : TotpLib} {AS : AccountSerde} {SD : Serde OnDisk} {UT : UuidText} {UP : UuidParse}.
Context {S1 : Serde ErrorBody} {S2 : Serde PullDto} {S3 : Serde WriteBody} {S4 : Serde WriteAckDto}.
Context {S5 : Serde ConflictsDto} {S6 : Serde FetchBody} {S7 : Serde FetchDto} {S8 : Serde HeaderDto}.
Context {W : Type} {KH : KeyHost W} {RL : ReqwestLib W} {AH : AppHost W}.
Variable (localhost_http : bool).

Abbreviation Cl := (M (HavenClient * Local W) ClientError).

(** ** client.rs [device_label] *)

Definition device_label (name kind platform : list Z) : list Z :=
  let spaced := map (fun c => if is_whitespace c || is_control c then 32 else c) name in
  let cleaned := take MAX_LABEL_NAME_CHARS (join [32] (split_whitespace spaced)) in
  let shown := trim_end cleaned in
  (if bool_decide (shown = []) then kind else shown) ++ lit " (" ++ platform ++ lit ")".

(** ** kit.rs *)

Definition fill_kit (r : result ClientError KitSlots) (kv : list Z * list Z) : result ClientError KitSlots :=
  k ← r;
  let put (o : option (list Z)) (f : option (list Z) -> KitSlots) :=
    match o with Some _ => Err invalid_kit | None => Ok (f (Some kv.2)) end in
  if bool_decide (kv.1 = lit "account") then
    put (ks_account k) (fun x => {| ks_account := x; ks_email := ks_email k; ks_key := ks_key k; ks_server := ks_server k |})
  else if bool_decide (kv.1 = lit "email") then
    put (ks_email k) (fun x => {| ks_account := ks_account k; ks_email := x; ks_key := ks_key k; ks_server := ks_server k |})
  else if bool_decide (kv.1 = lit "key") then
    put (ks_key k) (fun x => {| ks_account := ks_account k; ks_email := ks_email k; ks_key := x; ks_server := ks_server k |})
  else if bool_decide (kv.1 = lit "server") then
    put (ks_server k) (fun x => {| ks_account := ks_account k; ks_email := ks_email k; ks_key := ks_key k; ks_server := x |})
  else Err invalid_kit.

Definition no_slots : KitSlots := {| ks_account := None; ks_email := None; ks_key := None; ks_server := None |}.

Definition parse_kit (text : list Z) : result ClientError KitFields :=
  let text := trim text in
  if MAX_KIT_LEN <? str_len text then Err invalid_kit
  else
    url ← ok_or invalid_kit (url_parse text);
    if negb (bool_decide (url_scheme url = lit "havenkeys")) || negb (bool_decide (url_host_str url = Some (lit "kit")))
       || negb (bool_decide (url_path url = lit "/v2"))
    then Err invalid_kit
    else
      k ← foldl fill_kit (Ok no_slots) (url_query_pairs url);
      match ks_account k, ks_email k, ks_key k, ks_server k with
      | Some acct, Some email, Some key, Some server =>
          _ ← map_err (fun _ => invalid_kit) (SecretKey.parse key);
          _ ← map_err (fun _ => invalid_kit) (email_parse email);
          i ← ok_or invalid_kit (uuid_parse acct);
          Ok {| kit_account_id := i; kit_email := email; kit_server_url := server; kit_secret_key := key |}
      | _, _, _, _ => Err invalid_kit
      end.

(** ** pairing.rs: the new device *)

Definition pending : Cl (option PendingPairing) := fun s => (s, Ok (lc_pairing s.2)).
Definition put_pairing (p : option PendingPairing) : Cl () := world (fun l => (set_pairing p l, ())).

Definition start_pairing (server_url device_name : list Z) : Cl PairingStart :=
  _ ← no_vault;
  let server_url := normalize_url server_url in
  _ ← server_for localhost_http server_url;
  secret ← world (on_host draw_key);
  let keys := generate_keys secret in
  claim ← draw 32;
  claim ← core (claim_generate claim);
  device ← device_id;
  created ← asked (create_pairing device device_name (claim_hash claim));
  _ ← put_pairing (Some {| pend_keys := keys; pend_claim := claim; pend_server := server_url; pend_id := created_id created |});
  mret {| start_link := link_to_text {| link_server := server_url; link_id := created_id created; link_key := pk_public keys |};
          start_expires_at := created_expires created |}.

Definition cancel_pairing : Cl () := put_pairing None.

Definition is_pairing (id : list Z) (p : option PendingPairing) : bool :=
  match p with Some p => bool_decide (pend_id p = id) | None => false end.
(** Only if it is still that one. *)
Definition cancel_pairing_if (id : list Z) : Cl () :=
  p ← pending; if is_pairing id p then put_pairing None else mret ().

Definition finish_pairing (p : PendingPairing) (session : Wire.Session) (envelope : list Z)
    : Cl (VaultStatus * option Job) :=
  payload ← as_error pairing_failed (core (open_envelope (pend_keys p) (pend_server p) (pend_id p) envelope));
  if negb (pp_account_id payload =? sess_account_id session) || negb (pp_vault_id payload =? sess_vault_id session)
  then mthrow_ pairing_failed
  else
    _ ← server_for localhost_http (pend_server p);
    remote ← as_error pairing_failed (asked (Wire.header session));
    paired ← as_error pairing_failed (core (prepare_paired_sign_in (rh_bytes remote) payload));
    opened ← create_vault (ps_prepared paired)
               (new_account_record (ps_account paired) (pend_server p)
                  (as_i64 (Store.revision (prep_header (ps_prepared paired)))));
    _ ← keep_secret_key (ref_id (ps_account paired)) (ps_secret_key paired);
    go_online_after_sign_in session opened.

(** One claim attempt; any answer but [ClaimWaiting] ends the pairing. *)
Definition poll_pairing : Cl PairingPoll :=
  p ← pending;
  p ← mlift (ok_or pairing_gone p);
  _ ← server_for localhost_http (pend_server p);
  answer ← ask (claim_pairing (pend_id p) (pend_claim p));
  match answer with
  | Ok ClaimWaiting => mret PollWaiting
  | Ok ClaimDenied => _ ← cancel_pairing_if (pend_id p); mret PollDenied
  | Err (Wire.Refused _) => _ ← cancel_pairing_if (pend_id p); mret PollExpired
  | Err e => mthrow_ (from_sync e)
  | Ok (ClaimApproved session envelope) =>
      now ← pending;
      match now with
      | Some taken =>
          if bool_decide (pend_id taken = pend_id p) then
            _ ← put_pairing None;
            st ← finish_pairing taken session envelope;
            mret (PollApproved st)
          else mthrow_ pairing_gone
      | None => mthrow_ pairing_gone
      end
  end.

(** ** pairing.rs: the phone *)

Definition pairing_error {A} (e : SyncError) : Cl A :=
  match e with
  | Wire.Refused what => mthrow_ (if bool_decide (what = "not found") then pairing_gone else pairing_failed)
  | e => failed e
  end.
Definition pairing_asked {A} (m : M (Local W) SyncError A) : Cl A :=
  r ← ask m; match r with Ok a => mret a | Err e => pairing_error e end.

Definition pairing_link_for_this_account (link : list Z) : Cl PairingLink :=
  _ ← require_unlocked;
  l ← core (link_parse link);
  a ← read_vault (fun v => ok_or NoVault (account (store v)));
  if negb (bool_decide (normalize_url (link_server l) = normalize_url (Store.server_url a))) then mthrow_ pairing_other_server
  else _ ← require_online; mret l.

Definition pairing_request (link : list Z) : Cl PairingRequest :=
  l ← pairing_link_for_this_account link;
  s ← session; _ ← own_server localhost_http;
  d ← pairing_asked (pairing_details s (link_id l));
  mret {| pr_link := link_to_text l; pr_device_name := det_device_name d; pr_ip := det_ip d;
          pr_location := det_location d; pr_created_at := det_created_at d |}.

Definition approve_pairing (link : list Z) : Cl () :=
  l ← pairing_link_for_this_account link;
  a ← read_vault (fun v => ok_or NoVault (account (store v)));
  secret ← own_secret_key (Store.account_id a);
  random ← world (on_host draw_key);
  envelope ← read_vault (seal_pairing random l a secret);
  s ← session; _ ← own_server localhost_http;
  pairing_asked (WireAccount.approve_pairing s (link_id l) envelope).

Definition deny_pairing (link : list Z) : Cl () :=
  l ← pairing_link_for_this_account link;
  s ← session; _ ← own_server localhost_http;
  pairing_asked (WireAccount.deny_pairing s (link_id l)).
End ClientPairing.
