(* ===== verification/ClientFiles.v ===== *)
(** * Files and backups of the account client (crates/havenkeys-client)

    attachments.rs (saving, opening and caching an item's files) and
    restore.rs (restoring a backup through the server, resolving each
    conflict), over Client.v and the plan of Restore.v. *)

From S2P Require Import Prelude Errors Text Blob Url Tags Totp Clean Card Identity.
From S2P Require Import CustomField Bank Sso Attachment Model Keys Store Origin Health BuildItem.
From S2P Require Import Vault Items Dates Import Staging Backup AppTarget Cbor Passkey PasskeyVault Restore Sync Wire Client.

Definition attachment_damaged : ClientError := fixed "attachment_damaged" "This attachment is damaged or was changed".
Definition attachment_offline : ClientError := fixed "attachment_offline" "You're offline — reconnect to open this file.".

Record NewFile := { nf_name : list Z; nf_bytes : list Z }.

Definition is_damaged (e : Error) : bool :=
  match e with Decryption | Corrupted | UnsupportedVersion => true | _ => false end.

Section ClientFiles.
Context {C : Crypto} {K : KeyLib} {U : Unicode} {J : JsonLib} {UL : UrlLib} {SL : SiteLib UL} {L : TotpLib} {H : HeaderLib}.
Context {AL : AppLib} {PL : PasskeyLib}.
Context {S1 : Serde ErrorBody} {S2 : Serde PullDto} {S3 : Serde WriteBody} {S4 : Serde WriteAckDto}.
Context {S5 : Serde ConflictsDto} {S6 : Serde FetchBody} {S7 : Serde FetchDto} {S8 : Serde HeaderDto}.
Context {S9 : Serde AttachmentPutBody} {S10 : Serde AttachmentDto}.
Context {W : Type} {T : Transport W} {P : Platform W}.

Abbreviation Cl := (M (HavenClient * W) ClientError).

(** ** attachments.rs *)

Definition check_limits (item : Z) (files : list NewFile) (gone : nat) : Cl () :=
  if existsb (fun f => MAX_ATTACHMENT_BYTES <? len (nf_bytes f)) files
  then mthrow_ (from_core (InvalidInput "Files can be up to 5 MB"))
  else
    held ← read_vault (fun v => Ok match get_item item v with Ok o => length (attachments o) | Err _ => 0%nat end);
    if (MAX_ATTACHMENTS_PER_ITEM <? held + length files - gone)%nat
    then mthrow_ (from_core (InvalidInput "An item holds up to 20 files"))
    else mret ().

(** The ids and nonces the files are sealed with, by place. *)
Fixpoint upload_each (s : Wire.Session) (item now_ms : Z) (ids : nat -> Z) (random : nat -> option (list Z)) (k : nat)
    (files : list NewFile) (metas : list AttachmentMeta) : Cl (list AttachmentMeta) :=
  match files with
  | [] => mret metas
  | f :: files =>
      sealed ← read_vault (seal_attachment (ids k) item (nf_name f) (nf_bytes f) now_ms (random k));
      _ ← request (put_attachment s (att_id (sa_meta sealed)) item (sa_blob sealed));
      _ ← with_vault (cache_attachment (att_id (sa_meta sealed)) (sa_blob sealed) now_ms);
      upload_each s item now_ms ids random (S k) files (metas ++ [sa_meta sealed])
  end.

Definition upload_files (item : Z) (ids : nat -> Z) (random : nat -> option (list Z)) (files : list NewFile)
    : Cl (list AttachmentMeta) :=
  if bool_decide (files = []) then mret []
  else
    _ ← require_online;
    s ← session; _ ← server;
    now ← time;
    upload_each s item now ids random 0 files [].

Definition save_with_files (item : Z) (ids : nat -> Z) (random : nat -> option (list Z)) (files : list NewFile)
    (gone : list Z) (stage : VaultService -> FileEdits -> Result StagedWrite) : Cl ItemOverview :=
  _ ← require_full;
  _ ← check_limits item files (length gone);
  metas ← upload_files item ids random files;
  staged ← read_vault (fun v => stage v {| added := metas; removed := gone |});
  saved ← push staged;
  o ← mlift (ok_or internal saved);
  _ ← (if is_some (attachment_ids staged) then prune_cache else mret ());
  mret o.

Definition download_attachment (item id : Z) : Cl (list Z) :=
  online ← (fun s => (s, Ok (is_online s.1)));
  if negb (online : bool) then mthrow_ attachment_offline
  else
    s ← session; _ ← server;
    r ← ask (get_attachment s id);
    match r with
    | Ok (owner, blob) => if negb (owner =? item) then mthrow_ attachment_damaged else mret blob
    | Err e => if bool_decide (e = Wire.Refused "not found") then mthrow_ attachment_damaged else failed e
    end.

(** The opening of a downloaded file: bytes that do not open are damage. *)
Definition open_downloaded (item : Z) (m : AttachmentMeta) (blob : list Z) : Cl (list Z) := fun s =>
  match storage_error s.1 with
  | Some e => (s, Err e)
  | None =>
      (s, match open_attachment item m blob (vault_ s.1) with
          | Ok plain => Ok plain
          | Err e => Err (if is_damaged e then attachment_damaged else from_core e)
          end)
  end.

Definition fetch_file (item id : Z) (m : AttachmentMeta) : Cl (list Z) :=
  blob ← download_attachment item id;
  plain ← open_downloaded item m blob;
  now ← time;
  _ ← with_vault (cache_attachment id blob now);
  mret plain.

(** [now_s] is the second the store stamps a cached copy with when it is
    read. *)
Definition attachment_bytes (item id now_s : Z) : Cl (list Z) :=
  m ← read_vault (attachment_meta item id);
  cached ← with_vault (cached_attachment_of id now_s);
  match cached with
  | None => fetch_file item id m
  | Some blob =>
      opened ← read_vault (fun v => Ok (open_attachment item m blob v));
      match opened with
      | Ok plain => mret plain
      | Err e => if is_damaged e then _ ← with_vault (evict_attachment id); fetch_file item id m else mthrow_ (from_core e)
      end
  end.

(** ** restore.rs *)

(** One file of the backup: [false] when the server takes no files. *)
Definition restore_attachment (new : Z) (random : option (list Z)) (p : RestorePlan) (f : BackupAttachment)
    : Cl (RestorePlan * bool) :=
  match target f p with
  | None => mret (counted_plan CAttachments p, true)
  | Some item =>
      sealed ← read_vault (seal_attachment new item (att_name (ba_meta f)) (ba_bytes f) (att_created_at (ba_meta f)) random);
      s ← session; _ ← server;
      r ← ask (put_attachment s (att_id (sa_meta sealed)) item (sa_blob sealed));
      match r with
      | Ok _ => mret (attach (ba_item_id f) (sa_meta sealed) p, true)
      | Err Wire.AttachmentsFull | Err Wire.VaultFull => mret (counted_plan CAttachmentsStorage p, true)
      | Err Wire.Unsupported => mret (counted_plan CAttachments p, false)
      | Err e => failed e
      end
  end.

Fixpoint restore_attachments (ids : nat -> Z) (random : nat -> option (list Z)) (k : nat) (supported : bool)
    (files : list (Result BackupAttachment)) (p : RestorePlan) : Cl RestorePlan :=
  match files with
  | [] => mret p
  | file :: files =>
      f ← mlift (map_err from_core file);
      '(p, supported) ← (if supported then restore_attachment (ids k) (random k) p f
                         else mret (counted_plan CAttachments p, false));
      restore_attachments ids random (S k) supported files p
  end.

(** The items of a batch still to be written, those revived, and the counts. *)
Record RestoreState := { rs_batch : list StagedWrite; rs_revived : gset Z; rs_report : ImportReport; rs_committed : nat }.

(** [take]. *)
Fixpoint take_write (id : Z) (l : list StagedWrite) : option StagedWrite * list StagedWrite :=
  match l with
  | [] => (None, [])
  | w :: l => if sw_item w =? id then (Some w, l) else let '(x, l) := take_write id l in (x, w :: l)
  end.

Definition with_base (rev : Z) (w : StagedWrite) : StagedWrite :=
  {| sw_item := sw_item w; base_revision := Some rev; sw_overview := sw_overview w; sw_details := sw_details w;
     attachment_ids := attachment_ids w; sw_epoch := sw_epoch w; plain := plain w |}.
Fixpoint revive (id rev : Z) (l : list StagedWrite) : list StagedWrite :=
  match l with
  | [] => []
  | w :: l => if sw_item w =? id then with_base rev w :: l else w :: revive id rev l
  end.

(** One named item: a tombstone is revived once, anything else left alone. *)
Definition resolve (tombstones : list (Z * Z)) (st : RestoreState) (id : Z) : RestoreState :=
  match List.find (fun t => (t.1 =? id) && negb (bool_decide (t.1 ∈ rs_revived st))) tombstones with
  | Some t =>
      {| rs_batch := revive id t.2 (rs_batch st); rs_revived := {[id]} ∪ rs_revived st; rs_report := rs_report st;
         rs_committed := rs_committed st |}
  | None =>
      let '(skipped, batch) := take_write id (rs_batch st) in
      {| rs_batch := batch; rs_revived := rs_revived st;
         rs_report := restore_found_existing (w ← skipped; item_type <$> plain w) (rs_report st); rs_committed := rs_committed st |}
  end.

(** One round of a batch: [inr] ends it. *)
Definition restore_round (s : Wire.Session) (st : RestoreState) : Cl (RestoreState + RestoreState) :=
  if bool_decide (rs_batch st = []) then mret (inr st)
  else
    r ← ask (write s (rs_batch st));
    match r with
    | Ok ack =>
        n ← commit_batch ack (rs_batch st) (rs_committed st);
        mret (inr {| rs_batch := []; rs_revived := rs_revived st; rs_report := rs_report st; rs_committed := n |})
    | Err (Wire.Conflict conflicts) =>
        let named := map cf_item conflicts in
        if existsb (fun id => negb (existsb (fun w => sw_item w =? id) (rs_batch st))) named
        then failed (Wire.Protocol "a conflict naming an item that was not sent")
        else
          let wanted := List.filter (fun id => negb (bool_decide (id ∈ rs_revived st))) named in
          tombstones ← (if bool_decide (wanted = []) then mret []
                        else
                          f ← request (fetch_items s wanted);
                          mret (map (fun c => (rc_item c, rc_revision c)) (List.filter rc_deleted (f_changes f))));
          mret (inl (foldl (resolve tombstones) st named))
    | Err e => failed e
    end.

(** Each round removes an item or revives one for the first time. *)
Fixpoint restore_batches (s : Wire.Session) (batches : list (list StagedWrite)) (report : ImportReport) (committed : nat)
    : Cl (option (ImportReport * nat)) :=
  match batches with
  | [] => mret (Some (report, committed))
  | b :: batches =>
      r ← rounds (restore_round s) (S (2 * length b))
            {| rs_batch := b; rs_revived := ∅; rs_report := report; rs_committed := committed |};
      match r with
      | None => mret None
      | Some st => restore_batches s batches (rs_report st) (rs_committed st)
      end
  end.

Definition push_restore (si : StagedImport) : Cl (option ImportReport) :=
  _ ← require_full;
  if bool_decide (si_writes si = []) then mret (Some (update CImported (fun _ => 0%nat) (si_report si)))
  else
    s ← session; _ ← server;
    r ← restore_batches s (chunks (length (si_writes si)) MAX_BATCH (si_writes si)) (si_report si) 0;
    match r with
    | None => mret None
    | Some (report, committed) => mret (Some (update CImported (fun _ => committed) report))
    end.

(** What a restore draws. *)
Record RestoreDraws := {
  rd_sections : nat -> nat -> Z;
  rd_files : nat -> Z;
  rd_file_random : nat -> option (list Z);
  rd_random : nat -> option (list Z) * option (list Z);
  rd_identity : option (list Z) * option (list Z);
}.

Definition restore_backup (fuel : nat) (dr : RestoreDraws) (b : OpenedBackup) (files : list (Result BackupAttachment))
    : Cl (option ImportReport) :=
  _ ← require_full;
  synced ← sync_now fuel;
  if is_none synced then mret None
  else
    p ← read_vault (plan_restore (rd_sections dr) b);
    p ← restore_attachments (rd_files dr) (rd_file_random dr) 0 true files p;
    let '(p, identity) := take_identity_files p in
    staged ← read_vault (stage_restore (rd_random dr) p);
    report ← push_restore staged;
    match report, identity with
    | None, _ => mret None
    | Some report, None => mret (Some report)
    | Some report, Some (item, metas) =>
        now ← time;
        w ← read_vault (stage_attachments item (AddFiles metas) now (rd_identity dr).1 (rd_identity dr).2);
        _ ← push w;
        mret (Some report)
    end.
End ClientFiles.
