(* ===== verification/Converge.v ===== *)
(** * Devices in step

    A client of Client.v against the server of Server.v.  The pull loop of
    [sync_now] ends and leaves the replica in step with the vault; against any
    server at all it ends; and what one device pushes, another that holds the
    keys reads after its next pull. *)

From S2P Require Import Prelude Errors Text Blob Url Tags Totp Clean Card.
From S2P Require Import Identity CustomField Bank Sso Attachment Model Keys Store Origin Health.
From S2P Require Import BuildItem Vault Items Page Sync Replica Wire Client Admission Server ServerFacts.


(** Base64 is made of bytes: four for every three, rounded up. *)
Class Base64Len (H : HeaderLib) : Prop := {
  base64_len : forall l, str_len (base64_encode l) = (len l + 2) / 3 * 4;
}.

(** ** Mapping over results *)

Lemma mapM_result_map {E A B D} (f : A -> result E B) (g : D -> A) (h : D -> B) l :
  (forall x, x ∈ l -> f (g x) = Ok (h x)) -> mapM_result f (map g l) = Ok (map h l).
Proof.
  induction l as [|x l IH]; intros Hf; [done|]. cbn. rewrite Hf by by left. cbn.
  rewrite IH; [done|]. intros y Hy. apply Hf. by right.
Qed.

(** ** Runs of the client's monad *)

Section Runs.
Context {W : Type}.

Lemma with_vault_run {A} (m : V A) (c : HavenClient) (w : W) v' a :
  storage_error c = None -> m (vault_ c) = (v', Ok a) ->
  with_vault m (c, w) = ((set_vault_ v' c, w), Ok a).
Proof. intros He Hm. unfold with_vault. cbn [fst snd]. by rewrite He, Hm. Qed.

Lemma read_vault_run {A} (f : VaultService -> Result A) (c : HavenClient) (w : W) a :
  storage_error c = None -> f (vault_ c) = Ok a -> read_vault f (c, w) = ((c, w), Ok a).
Proof.
  intros He Hf. unfold read_vault. erewrite with_vault_run; [|done|unfold mread; by rewrite Hf]. by destruct c.
Qed.
End Runs.

Section Converge.
Context {C : Crypto} {K : KeyLib} {U : Unicode} {J : JsonLib} {H : HeaderLib} {Ck : Clock}.
Context {S1 : Serde ErrorBody} {S2 : Serde PullDto} {S3 : Serde WriteBody} {S4 : Serde WriteAckDto}.
Context {S5 : Serde ConflictsDto} {S6 : Serde FetchBody} {S7 : Serde FetchDto} {S8 : Serde HeaderDto}.
Context {S9 : Serde AttachmentPutBody} {S10 : Serde AttachmentDto}.
Context {P : Platform Server.Db}.

(** The network that delivers every request to the server. *)
#[export] Instance honest : Transport Server.Db := fun req db => let '(db', r) := serve req db in (db', Ok r).

(** ** The server's side of a pull *)

(** The token of [s] is that of the live session of caller [c]. *)
Definition served (s : Wire.Session) (c : Caller) (db : Server.Db) : Prop :=
  token s <> [] /\ str_len (token s) <= 128 /\ session_row (hash_of (token s)) db = Some c.

Lemma session_row_seen hash dev db : session_row hash (seen dev db) = session_row hash db.
Proof.
  unfold session_row, seen. cbn [sessions accounts devices now].
  destruct (sessions db !! hash) as [x|]; [|done]. cbn.
  destruct (accounts db !! ss_account x) as [a|]; [|done]. cbn.
  destruct (decide (ss_device x = dev)) as [->|Hne].
  - rewrite lookup_alter_eq. by destruct (devices db !! dev).
  - by rewrite lookup_alter_ne.
Qed.

Lemma served_seen s c dev db : served s c db -> served s c (seen dev db).
Proof. intros (H1 & H2 & H3). split_and!; [done..|]. by rewrite session_row_seen. Qed.

Lemma authorize_served s c db :
  served s c db -> authorize (Some (token s)) db = (seen (device_id c) db, Ok c).
Proof.
  intros (H1 & H2 & H3). unfold authorize. rewrite bool_decide_eq_false_2 by done.
  rewrite (proj2 (Z.ltb_ge _ _)) by done. cbn [orb]. by rewrite H3.
Qed.

Lemma serve_served s c req db :
  served s c db -> req_token req = Some (token s) ->
  serve req db = match handle c req (seen (device_id c) db) with
                 | Ok r => r
                 | Err e => (seen (device_id c) db, refuse e)
                 end.
Proof.
  intros Hs Ht. unfold serve. rewrite Ht, (authorize_served s c) by done.
  by destruct (handle _ _ _) as [[]|].
Qed.

(** A stored row as the client receives it. *)
Definition row_change (p : Z * Server.ItemRow) : RemoteChange :=
  {| rc_item := p.1; rc_revision := it_revision p.2; rc_overview := it_overview p.2;
     rc_details := it_details p.2; rc_deleted := it_deleted p.2 |}.

Lemma decode_blob_encode `{!HeaderLaws H, !Base64Len H} b :
  fits b -> decode_blob (base64_encode <$> b) = Ok b.
Proof.
  intros Hf. destruct b as [b|]; [|done]. specialize (Hf b eq_refl). cbn [fmap option_fmap option_map decode_blob].
  rewrite base64_len, base64_roundtrip. cbn [ok_or mbind result_bind].
  change MAX_BLOB_BYTES with MAX_BLOB_LEN in Hf.
  assert ((len b + 2) / 3 * 4 <= MAX_BLOB_LEN / 3 * 4 + 4) as Hle.
  { assert ((len b + 2) / 3 <= MAX_BLOB_LEN / 3 + 1); [|lia].
    replace (MAX_BLOB_LEN / 3 + 1) with ((MAX_BLOB_LEN + 1 * 3) / 3) by (by rewrite Z.div_add).
    apply Z.div_le_mono; lia. }
  rewrite (proj2 (Z.ltb_ge _ _)) by done. by rewrite (proj2 (Z.ltb_ge _ _)).
Qed.

Lemma remote_row `{!HeaderLaws H, !Base64Len H} v i r :
  vault_ok v -> v_items v !! i = Some r -> remote_change (change_json (i, r)) = Ok (row_change (i, r)).
Proof.
  intros Hok Hi. pose proof (row_revs _ Hok _ _ Hi) as Hrev. pose proof (row_shapes _ Hok _ _ Hi) as Hsh.
  destruct (row_blobs _ Hok _ _ Hi) as [Hov Hdet]. unfold remote_change, change_json.
  cbn [rd_revision rd_overview rd_details rd_deleted rd_item fst snd].
  rewrite (proj2 (Z.ltb_ge _ _)) by lia. rewrite !decode_blob_encode by done. cbn [mbind result_bind].
  unfold row_shape in Hsh. unfold row_change. cbn [fst snd]. destruct (it_deleted r).
  - destruct Hsh as [-> ->]. done.
  - destruct Hsh as [[ov ->] [det ->]]. done.
Qed.

Definition told (p : Page) (info : AccountInfo) : Pulled :=
  {| cursor := pg_cursor p; has_more := pg_has_more p; changes := map row_change (pg_rows p);
     pulled_account := Some info |}.

Lemma pull_honest `{!HeaderLaws H, !Base64Len H, !SerdeLaws PullDto} s c db k :
  served s c db -> vault_ok (vault c) -> 0 <= k ->
  exists p info, page_of k (vault c) p /\ Wire.pull s k db = (seen (device_id c) db, Ok (told p info)).
Proof.
  intros Hs Hok Hk. destruct (page_exists k (vault c) Hok Hk) as (p & Hp & Hpage).
  exists p, (account_info (account_json c (now db))). split; [done|].
  unfold Wire.pull. rewrite (proj2 (Z.ltb_ge _ _)) by done. unfold get, send.
  unfold mbind, M_bind, transport_send, honest.
  rewrite (serve_served s c) by done. unfold handle. cbn [method path]. rewrite Hp.
  cbn [mbind result_bind]. unfold mlift, expect_ok, ok_json, respond. cbn [status body Z.eqb Pos.eqb negb].
  unfold parse_body. rewrite json_roundtrip. cbn [ok_or]. unfold check_page.
  cbn [page_json pd_cursor pd_changes pd_has_more pd_account now seen].
  assert (0 <= pg_cursor p) as Hc.
  { destruct (page_end _ _ _ Hpage) as [(_ & -> & _)|[Hc _]]; [|lia]. pose proof (rev_range _ Hok). lia. }
  rewrite (proj2 (Z.ltb_ge _ _)) by done. rewrite length_map.
  pose proof (page_small _ _ _ Hpage) as Hsm. unfold MAX_CHANGES. unfold MAX_PULL_PAGE in Hsm.
  rewrite (proj2 (Nat.ltb_ge _ _)) by done.
  rewrite (mapM_result_map _ _ row_change); [done|]. intros [i r] Hi. apply (remote_row (vault c)); [done|].
  rewrite (page_rows _ _ _ Hpage) in Hi. by apply elem_of_rows_between in Hi as [? _].
Qed.

(** ** The replica's side *)

(** What the replica holds of one row of the vault: nothing of a deleted
    item; the row itself when it opens; otherwise the item is recorded as
    unreadable at that revision. *)
Definition follows (s : Vault.Session) (st : StoreT) (i : Z) (r : Server.ItemRow) : Prop :=
  if it_deleted r then items st !! i = None /\ unreadable_items st !! i = None
  else match Sync.check_change s (row_change (i, r)) with
  | Some (row, _) => items st !! i = Some (row_of row) /\ unreadable_items st !! i = None
  | None => unreadable_items st !! i = Some (it_revision r)
  end.

(** The replica follows every row up to revision [k]. *)
Definition in_step (s : Vault.Session) (st : StoreT) (v : VaultRow) (k : Z) : Prop :=
  forall i r, v_items v !! i = Some r -> it_revision r <= k -> follows s st i r.

(** The vault of an unlocked client, whose keys are those of [s]. *)
Record unlocked (s : Vault.Session) (v : VaultService) (s' : Vault.Session) (a : AccountRecord) : Prop := {
  un_session : Vault.session v = Ok s';
  un_cache : session_ok (items (store v)) s';
  un_keys : same_keys s s';
  un_account : account (store v) = Some a;
}.

Lemma check_change_keys s s' c : same_keys s s' -> Sync.check_change s' c = Sync.check_change s c.
Proof. intros (Hk & Hv & _). unfold Sync.check_change, check_item_bytes. by rewrite Hk, Hv. Qed.

Lemma follows_keys s s' st i r : same_keys s s' -> follows s' st i r <-> follows s st i r.
Proof. intros Hk. unfold follows. by rewrite (check_change_keys s s'). Qed.

Lemma unlocked_require s v s' a : unlocked s v s' a -> require_account v = Ok a.
Proof. intros [_ _ _ Ha]. unfold require_account. by rewrite Ha. Qed.

Lemma cursor_of a v : account (store v) = Some a -> server_cursor a = default 0 (server_cursor <$> account (store v)).
Proof. by intros ->. Qed.

Lemma unlocked_changes s v s' a changes k t :
  unlocked s v s' a ->
  exists v' rep s2,
    apply_changes changes k t v = (v', Ok rep) /\ (forall i, pulled v v' s' s2 changes i) /\
    exists a2, unlocked s v' s2 a2 /\ server_cursor a2 = match k with Some k => k | None => server_cursor a end.
Proof.
  intros Hu. pose proof (unlocked_require _ _ _ _ Hu) as Hr. destruct Hu as [Hs Hok Hk Ha].
  destruct (apply_changes_effect changes k t v s' a) as (v' & rep & s2 & H1 & H2 & H3 & H4 & H5 & _ & H6); [done..|].
  exists v', rep, s2. split_and!; [done..|]. unfold account in Ha.
  destruct (account_row (store v)) as [x|] eqn:Ex; [|done]. cbn in Ha. injection Ha as <-.
  exists (acc (match k with Some k => with_cursor k t x | None => x end)). split; [|by destruct k].
  split; [done|done|by eapply same_keys_trans|]. unfold account. rewrite H6. by destruct k.
Qed.

(** *** One page applied *)

Lemma NoDup_fst_inj {A} (l : list (Z * A)) i x y : NoDup (map fst l) -> (i, x) ∈ l -> (i, y) ∈ l -> x = y.
Proof.
  induction l as [|[j z] l IH]; intros Hn Hx Hy; [by apply elem_of_nil in Hx|].
  apply NoDup_cons in Hn as [Hj Hn].
  assert (forall u, (j, u) ∈ l -> False) as Hno by (intros u Hu; apply Hj; by apply (list_elem_of_fmap_2 fst _ (j, u))).
  apply elem_of_cons in Hx as [Hx|Hx], Hy as [Hy|Hy]; simplify_eq; [done| | |by apply IH];
    exfalso; by eapply Hno.
Qed.

Lemma last_with_row (rows : list (Z * Server.ItemRow)) i :
  NoDup (map fst rows) ->
  match last_with rc_item i (map row_change rows) with
  | Some c => exists r, (i, r) ∈ rows /\ c = row_change (i, r)
  | None => i ∉ map fst rows
  end.
Proof.
  intros Hn. assert (map rc_item (map row_change rows) = map fst rows) as Hm by (by rewrite map_map).
  destruct (last_with rc_item i (map row_change rows)) as [c|] eqn:E.
  - apply last_with_Some in E as [Hc <-]. apply list_elem_of_fmap in Hc as ([j r] & -> & Hj). cbn. by exists r.
  - apply last_with_None in E. by rewrite <- Hm.
Qed.

Lemma pulled_follows s v v' s' s2 rows i r :
  same_keys s s' -> pulled v v' s' s2 (map row_change rows) i -> NoDup (map fst rows) -> (i, r) ∈ rows ->
  follows s (store v') i r.
Proof.
  intros Hk Hp Hn Hi. pose proof (last_with_row rows i Hn) as Hl. unfold pulled in Hp.
  destruct (last_with rc_item i (map row_change rows)) as [c|].
  2: { destruct Hl. apply list_elem_of_fmap. by exists (i, r). }
  destruct Hl as (r' & Hr' & ->).
  assert (r' = r) as ->.
  { by eapply NoDup_fst_inj. }
  unfold follows. cbn [rc_deleted row_change snd rc_revision] in Hp. destruct (it_deleted r); [naive_solver|].
  rewrite (check_change_keys s s') in Hp by done.
  destruct (Sync.check_change s (row_change (i, r))) as [[row o]|]; naive_solver.
Qed.

Lemma pulled_other v v' s' s2 rows i :
  pulled v v' s' s2 (map row_change rows) i -> NoDup (map fst rows) -> i ∉ map fst rows ->
  items (store v') !! i = items (store v) !! i /\ unreadable_items (store v') !! i = unreadable_items (store v) !! i.
Proof.
  intros Hp Hn Hi. pose proof (last_with_row rows i Hn) as Hl. unfold pulled in Hp.
  destruct (last_with rc_item i (map row_change rows)) as [c|]; [|naive_solver].
  destruct Hl as (r & Hr & _). destruct Hi. by apply (list_elem_of_fmap_2 fst _ (i, r)).
Qed.

Lemma follows_same s st st' i r :
  items st' !! i = items st !! i -> unreadable_items st' !! i = unreadable_items st !! i ->
  follows s st i r -> follows s st' i r.
Proof. unfold follows. by intros -> ->. Qed.

(** A page takes a replica in step up to its cursor to the page's. *)
Lemma page_in_step s sv p v v' s' s2 k :
  same_keys s s' -> page_of k sv p -> vault_ok sv ->
  (forall i, pulled v v' s' s2 (map row_change (pg_rows p)) i) ->
  in_step s (store v) sv k -> in_step s (store v') sv (pg_cursor p).
Proof.
  intros Hk Hpage Hok Hp Hin i r Hi Hr.
  assert (NoDup (map fst (pg_rows p))) as Hn by (rewrite (page_rows _ _ _ Hpage); apply rows_between_nodup).
  destruct (decide (k < it_revision r)) as [Hlt|Hge].
  - eapply (pulled_follows s v v' s' s2); [done|apply Hp|done|]. rewrite (page_rows _ _ _ Hpage).
    apply elem_of_rows_between. split; [done|]. lia.
  - assert (i ∉ map fst (pg_rows p)) as Hout.
    { rewrite (page_rows _ _ _ Hpage). intros ([j q] & -> & Hq)%list_elem_of_fmap.
      apply elem_of_rows_between in Hq as [Hq ?]. cbn in Hi. rewrite Hi in Hq. injection Hq as ->. lia. }
    destruct (pulled_other v v' s' s2 (pg_rows p) i (Hp i) Hn Hout) as [H1 H2].
    eapply follows_same; [done..|]. apply Hin; [done|lia].
Qed.

(** Items the replica holds are of the vault, or were held at the start. *)
Definition no_strays (st : StoreT) (ok : Z -> Prop) : Prop := forall i, is_Some (items st !! i) -> ok i.

Lemma page_no_strays sv p v v' s' s2 k ok :
  page_of k sv p -> (forall i, pulled v v' s' s2 (map row_change (pg_rows p)) i) ->
  (forall i, i ∈ map fst (pg_rows p) -> ok i) -> no_strays (store v) ok -> no_strays (store v') ok.
Proof.
  intros Hpage Hp Hrows Hin i Hi.
  assert (NoDup (map fst (pg_rows p))) as Hn by (rewrite (page_rows _ _ _ Hpage); apply rows_between_nodup).
  destruct (decide (i ∈ map fst (pg_rows p))) as [|Hout]; [by apply Hrows|].
  destruct (pulled_other v v' s' s2 (pg_rows p) i (Hp i) Hn Hout) as [H1 _]. apply Hin. by rewrite <- H1.
Qed.

(** *** One round of the loop *)

(** A client with an unlocked vault whose session the server knows. *)
Record ready (s : Vault.Session) (ws : Wire.Session) (k : Caller) (x : HavenClient * Server.Db)
    (s' : Vault.Session) (a : AccountRecord) : Prop := {
  rd_open : storage_error x.1 = None;
  rd_unlocked : unlocked s (vault_ x.1) s' a;
  rd_served : served ws k x.2;
}.

(** Where the loop stands between two rounds. *)
Definition on_track (s : Vault.Session) (sv : VaultRow) (st : PullState) (m : StoreT) : Prop :=
  0 <= ps_cursor st /\
  if from_zero st then
    ps_cursor st <= v_revision sv /\ in_step s m sv (ps_cursor st) /\
    no_strays m (fun i => i ∈ held st \/ is_Some (v_items sv !! i)) /\
    (forall i r, v_items sv !! i = Some r -> it_revision r <= ps_cursor st -> i ∈ Client.seen st) /\
    (forall i, i ∈ Client.seen st -> is_Some (v_items sv !! i))
  else
    ps_cursor st <= v_revision sv ->
    in_step s m sv (ps_cursor st) /\ no_strays m (fun i => is_Some (v_items sv !! i)).

(** The replica of an unlocked vault is the server's vault: it follows every
    row, holds nothing else, and has no row left to ask for. *)
Definition arrived (s : Vault.Session) (sv : VaultRow) (m : StoreT) (a : AccountRecord) : Prop :=
  (forall i r, v_items sv !! i = Some r -> follows s m i r) /\
  no_strays m (fun i => is_Some (v_items sv !! i)) /\
  rows_after (server_cursor a) sv = [].

Definition weight (sv : VaultRow) (st : PullState) : nat :=
  if from_zero st then S (length (rows_after (ps_cursor st) sv))
  else if decide (ps_cursor st <= v_revision sv) then S (length (rows_after (ps_cursor st) sv))
  else S (S (length (rows_after 0 sv))).

Lemma rows_after_nil k sv : rows_after k sv = [] <-> forall i r, v_items sv !! i = Some r -> it_revision r <= k.
Proof.
  split.
  - intros Hn i r Hi. destruct (decide (k < it_revision r)) as [Hlt|]; [|lia].
    assert ((i, r) ∈ rows_after k sv) as Hin by by apply elem_of_rows_after.
    rewrite Hn in Hin. by apply elem_of_nil in Hin.
  - intros Hall. destruct (rows_after k sv) as [|[i r] l] eqn:E; [done|].
    assert ((i, r) ∈ rows_after k sv) as Hin by (rewrite E; by left).
    apply elem_of_rows_after in Hin as [Hi Hk]. apply Hall in Hi. lia.
Qed.

Lemma rows_after_shrink k k' sv p : p ∈ rows_after k sv -> k < it_revision p.2 <= k' ->
  (length (rows_after k' sv) < length (rows_after k sv))%nat.
Proof.
  intros Hp Hk. assert (p :: rows_after k' sv ⊆+ rows_after k sv) as Hsub; [|apply submseteq_length in Hsub; cbn in Hsub; lia].
  apply NoDup_submseteq.
  - constructor.
    + destruct p as [i r]. intros [_ ?]%elem_of_rows_after. cbn in Hk. lia.
    + apply NoDup_map_fst, rows_after_nodup.
  - intros [i r] [->|Hi]%elem_of_cons; [done|]. apply elem_of_rows_after in Hi as [Hi ?].
    apply elem_of_rows_after. split; [done|lia].
Qed.

Lemma request_run {W A} `{Transport W} `{Platform W} (m : M W SyncError A) (c : HavenClient) (w w' : W) a :
  m w = (w', Ok a) -> request m (c, w) = ((c, w'), Ok a).
Proof. intros Hm. unfold request, ask, mbind, M_bind. cbn [fst snd]. by rewrite Hm. Qed.

(** What [record_plan] leaves alone. *)
Lemma record_plan_ready s ws k x s' a info :
  ready s ws k x s' a ->
  exists x', attempt (record_plan info) x = (x', Ok (Some ())) /\ ready s ws k x' s' a /\
    items (store (vault_ x'.1)) = items (store (vault_ x.1)) /\
    unreadable_items (store (vault_ x'.1)) = unreadable_items (store (vault_ x.1)).
Proof.
  intros [He [Hs Hok Hk Ha] Hsv]. destruct x as [c db]. cbn [fst snd] in *. unfold attempt, record_plan.
  destruct info as [i|]; [|by exists (c, db)].
  erewrite run_bind by (by apply read_vault_run). case_bool_decide; [by exists (c, db)|].
  erewrite run_bind by (by apply with_vault_run). cbn [client mmodify fst snd].
  eexists. split; [done|]. split; [|done]. split; [done| |done]. cbn [fst vault_ tell set_vault_].
  split; [done|done|done|]. unfold account in *. cbn. by destruct (account_row (store (vault_ c))).
Qed.

(** The server's cursor is behind the replica's: the loop starts over. *)
Lemma round_reset s ws k st x s' a p info db' :
  ready s ws k x s' a -> from_zero st = false -> v_revision (vault k) < ps_cursor st ->
  vault_ok (vault k) ->
  Wire.pull ws (ps_cursor st) x.2 = (db', Ok (told p info)) -> served ws k db' -> page_of (ps_cursor st) (vault k) p ->
  exists x' st' a', pull_round ws st x = (x', Ok (inl st')) /\ ready s ws k x' s' a' /\
    on_track s (vault k) st' (store (vault_ x'.1)) /\ (weight (vault k) st' < weight (vault k) st)%nat.
Proof.
  intros [He Hu Hsv] Hz Hlt Hok Hpull Hsv' Hpage. destruct x as [c db]. cbn [fst snd] in *.
  assert (pg_cursor p < ps_cursor st) as Hback.
  { destruct (page_end _ _ _ Hpage) as [(_ & -> & _)|[? _]]; lia. }
  unfold pull_round. erewrite run_bind by (by apply request_run). cbv zeta. cbn [told cursor].
  rewrite (proj2 (Z.ltb_lt _ _)) by done. rewrite Hz.
  destruct Hu as [Hs Hcache Hkeys Ha]. assert (require_account (vault_ c) = Ok a) as Hr.
  { unfold require_account. by rewrite Ha. }
  erewrite run_bind by done. cbn [snd].
  erewrite run_bind.
  2: { apply with_vault_run; [done|]. unfold reset_sync_cursor. mrun. rewrite Hr. mrun. unfold on_store', mmodify. done. }
  assert (exists a', account (reset_cursor (now_ms db') (store (vault_ c))) = Some a') as [a' Ha'].
  { unfold account in *. cbn. destruct (account_row (store (vault_ c))) as [r|]; [by eexists|done]. }
  erewrite run_bind.
  2: { apply read_vault_run; [done|]. unfold replica_item_ids, require_account. cbn [vault_ set_vault_ store set_store].
       by rewrite Ha'. }
  do 3 eexists. split; [done|]. split; [|split].
  - split; [done| |done]. cbn [fst vault_ set_vault_]. by split.
  - split; cbn [ps_cursor from_zero held Client.seen]; [lia|]. pose proof (rev_range _ Hok). split_and!; [lia|..].
    + intros i r Hi Hr'. pose proof (row_revs _ Hok _ _ Hi). lia.
    + intros i [row Hi]. left. unfold item_ids. apply list_elem_of_fmap. exists (i, row). split; [done|].
      by apply elem_of_map_to_list.
    + intros i r Hi Hr'. pose proof (row_revs _ Hok _ _ Hi). lia.
    + intros i. set_solver.
  - unfold weight. cbn [from_zero ps_cursor]. rewrite Hz, decide_False by lia. lia.
Qed.

(** After a pull from zero, what the server never named is dropped. *)
Lemma drop_arrived s ws k x s' a (held : list Z) (seen : gset Z) t :
  ready s ws k x s' a -> rows_after (server_cursor a) (vault k) = [] ->
  (forall i r, v_items (vault k) !! i = Some r -> follows s (store (vault_ x.1)) i r) ->
  no_strays (store (vault_ x.1)) (fun i => i ∈ held \/ is_Some (v_items (vault k) !! i)) ->
  (forall i, i ∈ seen <-> is_Some (v_items (vault k) !! i)) ->
  exists x' rep s2 a2, with_vault (drop_items_the_server_lacks held seen t) x = (x', Ok rep) /\
    ready s ws k x' s2 a2 /\ arrived s (vault k) (store (vault_ x'.1)) a2.
Proof.
  intros [He Hu Hsv] Hend Hall Hstr Hseen. destruct x as [c db]. cbn [fst snd] in *.
  assert (require_account (vault_ c) = Ok a) as Hr by by eapply unlocked_require.
  set (missing := map deletion (List.filter (fun i => negb (bool_decide (i ∈ seen))) held)).
  assert (forall i, i ∈ map rc_item missing <-> i ∈ held /\ i ∉ seen) as Hmiss.
  { intros i. unfold missing. rewrite map_map. cbn [rc_item deletion]. rewrite map_id, elem_of_filter_, negb_true_iff, bool_decide_eq_false. tauto. }
  destruct (decide (missing = [])) as [Hnil|Hne].
  { exists (c, db), empty_report, s', a. split_and!; [|done|].
    - unfold with_vault. cbn [fst snd]. rewrite He. unfold drop_items_the_server_lacks. mrun. rewrite Hr. mrun.
      fold missing. rewrite bool_decide_eq_true_2 by done. by destruct c.
    - split_and!; [done| |done]. intros i [Hi|]%Hstr; [|done]. apply Hseen. destruct (decide (i ∈ seen)); [done|].
      exfalso. apply (not_elem_of_nil i). change (i ∈ map rc_item []). rewrite <- Hnil. by apply Hmiss. }
  destruct (unlocked_changes s (vault_ c) s' a missing None t Hu) as (v2 & rep & s2 & Hrun & Hp & a2 & Hu2 & Hc2).
  exists (set_vault_ v2 c, db), rep, s2, a2. split_and!.
  - apply with_vault_run; [done|]. unfold drop_items_the_server_lacks. mrun. rewrite Hr. mrun.
    fold missing. by rewrite bool_decide_eq_false_2.
  - by split.
  - cbn [fst vault_ set_vault_]. split_and!; [| |by rewrite Hc2].
    + intros i r Hi. specialize (Hp i). unfold pulled in Hp.
      destruct (last_with rc_item i missing) as [ch|] eqn:El.
      { apply last_with_Some in El as [Hin <-]. exfalso.
        assert (rc_item ch ∈ map rc_item missing) as [_ Hno]%Hmiss by by apply list_elem_of_fmap_2.
        apply Hno, Hseen. by eexists. }
      eapply follows_same; [..|by apply Hall]; naive_solver.
    + intros i Hi. specialize (Hp i). unfold pulled in Hp.
      destruct (last_with rc_item i missing) as [ch|] eqn:El.
      { apply last_with_Some in El as [(y & -> & _)%list_elem_of_fmap _]. cbn in Hp. destruct Hp as [Hp _].
        rewrite Hp in Hi. by destruct Hi. }
      destruct Hp as [Hp _]. rewrite Hp in Hi. apply Hstr in Hi as [Hi|]; [|done].
      apply Hseen. destruct (decide (i ∈ seen)); [done|]. apply last_with_None in El. destruct El. by apply Hmiss.
Qed.

Lemma told_ids p info : map rc_item (changes (told p info)) = map fst (pg_rows p).
Proof. cbn. by rewrite map_map. Qed.

Lemma page_ids n sv p i : page_of n sv p -> i ∈ map fst (pg_rows p) -> is_Some (v_items sv !! i).
Proof.
  intros Hpage. rewrite (page_rows _ _ _ Hpage). intros ([j r] & -> & Hj)%list_elem_of_fmap.
  apply elem_of_rows_between in Hj as [Hj _]. by eexists.
Qed.

(** The rows seen once the page is in. *)
Lemma page_seen sv p k (seen : gset Z) :
  page_of k sv p ->
  (forall i r, v_items sv !! i = Some r -> it_revision r <= k -> i ∈ seen) -> (forall i, i ∈ seen -> is_Some (v_items sv !! i)) ->
  (forall i r, v_items sv !! i = Some r -> it_revision r <= pg_cursor p -> i ∈ seen ∪ list_to_set (map fst (pg_rows p))) /\
  (forall i, i ∈ seen ∪ list_to_set (map fst (pg_rows p)) -> is_Some (v_items sv !! i)).
Proof.
  intros Hpage H1 H2. split.
  - intros i r Hi Hr. destruct (decide (it_revision r <= k)) as [Hle|Hgt]; [apply elem_of_union_l; by eapply H1|].
    apply elem_of_union_r, elem_of_list_to_set. rewrite (page_rows _ _ _ Hpage). apply list_elem_of_fmap.
    exists (i, r). split; [done|]. apply elem_of_rows_between. split; [done|lia].
  - intros i [Hi|Hi]%elem_of_union; [by apply H2|]. rewrite elem_of_list_to_set in Hi. by eapply page_ids.
Qed.

Lemma page_last k sv p :
  page_of k sv p -> k <= pg_cursor p -> pg_has_more p = false -> rows_after (pg_cursor p) sv = [].
Proof.
  intros Hpage Hle Hm. apply rows_after_nil. intros i r Hi.
  destruct (decide (it_revision r <= pg_cursor p)) as [|Hgt]; [done|].
  assert (pg_has_more p = true) as Hm'; [|congruence]. apply (page_more _ _ _ Hpage). exists i, r.
  split_and!; [done|lia..].
Qed.

Lemma page_onwards k sv p :
  page_of k sv p -> vault_ok sv -> pg_has_more p = true ->
  k < pg_cursor p <= v_revision sv /\ (length (rows_after (pg_cursor p) sv) < length (rows_after k sv))%nat.
Proof.
  intros Hpage Hok Hm. destruct (page_end _ _ _ Hpage) as [(Hn & _)|[Hc (y & Hy & Hyr)]].
  - apply (page_more _ _ _ Hpage) in Hm as (i & r & Hi & _ & Hk).
    assert ((i, r) ∈ rows_after k sv) as Hin by (by apply elem_of_rows_after). rewrite Hn in Hin. by apply elem_of_nil in Hin.
  - split; [done|]. apply (rows_after_shrink _ _ _ y); [|lia]. rewrite (page_rows _ _ _ Hpage) in Hy. destruct y as [i r].
    apply elem_of_rows_between in Hy as [Hy ?]. apply elem_of_rows_after. split; [done|lia].
Qed.

(** The server has more to say, or has said it all. *)
Lemma round_page s ws k st x s' a p info db' :
  ready s ws k x s' a -> (from_zero st = false -> ps_cursor st <= v_revision (vault k)) ->
  on_track s (vault k) st (store (vault_ x.1)) -> vault_ok (vault k) ->
  Wire.pull ws (ps_cursor st) x.2 = (db', Ok (told p info)) -> served ws k db' -> page_of (ps_cursor st) (vault k) p ->
  exists x' r s2 a2, pull_round ws st x = (x', Ok r) /\ ready s ws k x' s2 a2 /\
    match r with
    | inl st' => on_track s (vault k) st' (store (vault_ x'.1)) /\ (weight (vault k) st' < weight (vault k) st)%nat
    | inr _ => arrived s (vault k) (store (vault_ x'.1)) a2
    end.
Proof.
  intros [He Hu Hsv] Hvalid [H0 Htrack] Hok Hpull Hsv' Hpage. destruct x as [c db]. cbn [fst snd] in *.
  assert (ps_cursor st <= v_revision (vault k)) as Hrev.
  { destruct (from_zero st); [apply Htrack|by apply Hvalid]. }
  assert (ps_cursor st <= pg_cursor p) as Hle.
  { destruct (page_end _ _ _ Hpage) as [(_ & -> & _)|[? _]]; lia. }
  assert (in_step s (store (vault_ c)) (vault k) (ps_cursor st)) as Hin.
  { destruct (from_zero st); [apply Htrack|by apply Htrack]. }
  destruct (unlocked_changes s (vault_ c) s' a (map row_change (pg_rows p)) (Some (pg_cursor p)) (now_ms db') Hu)
    as (v2 & rep & s2 & Hrun & Hp & a2 & Hu2 & Hc2).
  assert (in_step s (store v2) (vault k) (pg_cursor p)) as Hin2.
  { eapply page_in_step; [apply (un_keys _ _ _ _ Hu)|exact Hpage|exact Hok|exact Hp|exact Hin]. }
  destruct (record_plan_ready s ws k (set_vault_ v2 c, db') s2 a2 (Some info)) as ([c3 db3] & Hplan & Hr3 & Hi3 & Hun3); [by split|].
  cbn [fst vault_ set_vault_] in Hi3, Hun3.
  assert (in_step s (store (vault_ c3)) (vault k) (pg_cursor p)) as Hin3.
  { intros i r Hi Hr. eapply follows_same; [by rewrite Hi3|by rewrite Hun3|by apply Hin2]. }
  assert (forall Q : Z -> Prop, (forall i, is_Some (v_items (vault k) !! i) -> Q i) -> no_strays (store (vault_ c)) Q ->
    no_strays (store (vault_ c3)) Q) as Hstr.
  { intros Q HQ Hs i. rewrite Hi3. eapply page_no_strays; [exact Hpage|exact Hp| |exact Hs].
    intros j Hj. apply HQ. by eapply page_ids. }
  unfold pull_round. erewrite run_bind by (by apply request_run). cbv zeta. rewrite told_ids. cbn [told cursor changes has_more pulled_account].
  rewrite (proj2 (Z.ltb_ge _ _)) by done. erewrite run_bind by done. cbn [snd].
  erewrite run_bind by (apply with_vault_run; [done|exact Hrun]). erewrite run_bind by exact Hplan.
  destruct (pg_has_more p) eqn:Hm; cbn [negb orb].
  - destruct (page_onwards _ _ _ Hpage Hok Hm) as [Hlt Hshr]. rewrite (proj2 (Z.leb_gt _ _)) by lia.
    do 4 eexists. split; [done|]. split; [exact Hr3|]. cbn [fst]. split.
    + split; cbn [ps_cursor from_zero held Client.seen]; [lia|]. destruct (from_zero st).
      * destruct Htrack as (_ & _ & T1 & T2 & T3).
        destruct (page_seen _ _ _ _ Hpage T2 T3) as [G1 G2]. split; [lia|]. split; [exact Hin3|]. split; [|by split].
        apply Hstr; [by intros i Hi; right|done].
      * intros _. split; [exact Hin3|]. apply Hstr; [done|]. by apply Htrack.
    + unfold weight. cbn [from_zero ps_cursor]. destruct (from_zero st); rewrite ?decide_True by lia; lia.
  - pose proof (page_last _ _ _ Hpage Hle Hm) as Hend. destruct (from_zero st) eqn:Hz; cbn [andb].
    + destruct Htrack as (_ & _ & T1 & T2 & T3). destruct (page_seen _ _ _ _ Hpage T2 T3) as [G1 G2].
      destruct (drop_arrived s ws k (c3, db3) s2 a2 (held st) (Client.seen st ∪ list_to_set (map fst (pg_rows p)))
        (now_ms db3)) as (x4 & rep4 & s4 & a4 & Hd & Hr4 & Ha4).
      * exact Hr3.
      * by rewrite Hc2.
      * intros i r Hi. apply Hin3; [done|]. by eapply rows_after_nil.
      * apply Hstr; [by intros i Hi; right|done].
      * intros i. split; [apply G2|]. intros [r Hi]. eapply G1; [done|]. by eapply rows_after_nil.
      * erewrite run_bind by done. cbn [snd]. erewrite run_bind by exact Hd. do 4 eexists. split; [done|]. by split.
    + do 4 eexists. split; [done|]. split; [exact Hr3|]. cbn [fst]. split_and!; [| |by rewrite Hc2].
      * intros i r Hi. apply Hin3; [done|]. by eapply rows_after_nil.
      * apply Hstr; [done|]. by apply Htrack.
Qed.

Lemma round_honest `{!HeaderLaws H, !Base64Len H, !SerdeLaws PullDto} s ws k st x s' a :
  ready s ws k x s' a -> on_track s (vault k) st (store (vault_ x.1)) -> vault_ok (vault k) ->
  exists x' r s2 a2, pull_round ws st x = (x', Ok r) /\ ready s ws k x' s2 a2 /\
    match r with
    | inl st' => on_track s (vault k) st' (store (vault_ x'.1)) /\ (weight (vault k) st' < weight (vault k) st)%nat
    | inr _ => arrived s (vault k) (store (vault_ x'.1)) a2
    end.
Proof.
  intros Hr Ht Hok. destruct (pull_honest ws k x.2 (ps_cursor st)) as (p & info & Hpage & Hpull);
    [apply Hr|done|apply Ht|].
  assert (served ws k (seen (device_id k) x.2)) as Hsv by (apply served_seen, Hr).
  destruct (from_zero st) eqn:Hz; [|destruct (decide (ps_cursor st <= v_revision (vault k)))].
  - eapply round_page; [done|by rewrite Hz|done..].
  - eapply round_page; [done|done|done..].
  - destruct (round_reset s ws k st x s' a p info (seen (device_id k) x.2)) as (x' & st' & a' & H1 & H2 & H3 & H4); [done|done|lia|done..|].
    exists x', (inl st'), s', a'. split_and!; done.
Qed.

Lemma rounds_arrive `{!HeaderLaws H, !Base64Len H, !SerdeLaws PullDto} s ws k fuel : forall st x s' a,
  ready s ws k x s' a -> on_track s (vault k) st (store (vault_ x.1)) -> vault_ok (vault k) ->
  (weight (vault k) st <= fuel)%nat ->
  exists x' rep s2 a2, rounds (pull_round ws) fuel st x = (x', Ok (Some rep)) /\ ready s ws k x' s2 a2 /\
    arrived s (vault k) (store (vault_ x'.1)) a2.
Proof.
  induction fuel as [|fuel IH]; intros st x s' a Hr Ht Hok Hw.
  { unfold weight in Hw. destruct (from_zero st); [lia|]. destruct (decide _); lia. }
  destruct (round_honest s ws k st x s' a) as (x1 & r & s1 & a1 & Hrun & Hr1 & Hm); [done..|].
  cbn [rounds]. erewrite run_bind by exact Hrun. destruct r as [st'|rep].
  - destruct Hm as [Ht1 Hw1]. eapply IH; [done..|lia].
  - by exists x1, rep, s1, a1.
Qed.

(** ** The loop *)

(** The [loop] of [sync_now], from where it starts. *)
Definition pull_loop (ws : Wire.Session) (fuel : nat) (rep : SyncReport) : M (HavenClient * Server.Db) ClientError (option SyncReport) :=
  st ← pull_start rep; rounds (pull_round ws) fuel st.

(** A replica the loop can bring in step with the vault: one that never
    synced or is told to start over, one further than the server (which was
    restored), or one in step as far as its cursor. *)
Definition resumable (s : Vault.Session) (sv : VaultRow) (m : StoreT) (a : AccountRecord) : Prop :=
  server_cursor a = 0 \/ v_revision sv < server_cursor a \/
  (0 < server_cursor a /\ in_step s m sv (server_cursor a) /\ no_strays m (fun i => is_Some (v_items sv !! i))).

Lemma length_rows_after k sv : (length (rows_after k sv) <= base.size (v_items sv))%nat.
Proof.
  rewrite (rows_after_perm k sv). etrans; [apply List.filter_length_le|]. by rewrite length_map_to_list.
Qed.

Lemma pull_start_on_track s ws k x s' a rep :
  ready s ws k x s' a -> vault_ok (vault k) -> resumable s (vault k) (store (vault_ x.1)) a ->
  exists st, pull_start rep x = (x, Ok st) /\ on_track s (vault k) st (store (vault_ x.1)) /\
    (weight (vault k) st <= S (S (base.size (v_items (vault k)))))%nat.
Proof.
  intros [He [Hs Hcache Hk Ha] Hsv] Hok Hres. destruct x as [c db]. cbn [fst snd] in *.
  assert (forall st, weight (vault k) st <= S (S (base.size (v_items (vault k)))))%nat as Hw.
  { intros st. unfold weight. pose proof (length_rows_after (ps_cursor st) (vault k)).
    pose proof (length_rows_after 0 (vault k)). destruct (from_zero st); [lia|]. destruct (decide _); lia. }
  unfold pull_start. erewrite run_bind by (apply read_vault_run; [done|by rewrite Ha]). cbv zeta.
  pose proof (rev_range _ Hok) as Hrev.
  assert (server_cursor a = 0 \/ 0 < server_cursor a) as [Hz|Hz] by (destruct Hres as [|[|[]]]; lia).
  - rewrite Hz. cbn [Z.eqb]. erewrite run_bind.
    2: { apply read_vault_run; [done|]. unfold replica_item_ids, require_account. by rewrite Ha. }
    eexists. split; [done|]. split; [|apply Hw]. split; cbn [ps_cursor from_zero held Client.seen]; [lia|].
    split_and!; [lia|..].
    + intros i r Hi Hr. pose proof (row_revs _ Hok _ _ Hi). lia.
    + intros i [row Hi]. left. apply list_elem_of_fmap. exists (i, row). split; [done|]. by apply elem_of_map_to_list.
    + intros i r Hi Hr. pose proof (row_revs _ Hok _ _ Hi). lia.
    + intros i. set_solver.
  - rewrite (proj2 (Z.eqb_neq _ _)) by lia. rewrite run_mret.
    eexists. split; [done|]. split; [|apply Hw]. split; cbn [ps_cursor from_zero]; [lia|].
    intros Hle. destruct Hres as [|[|(_ & ? & ?)]]; [lia|lia|done].
Qed.

Lemma pull_loop_arrives `{!HeaderLaws H, !Base64Len H, !SerdeLaws PullDto} s ws k x s' a rep fuel :
  ready s ws k x s' a -> vault_ok (vault k) -> resumable s (vault k) (store (vault_ x.1)) a ->
  (base.size (v_items (vault k)) + 2 <= fuel)%nat ->
  exists x' rep' s2 a2, pull_loop ws fuel rep x = (x', Ok (Some rep')) /\ ready s ws k x' s2 a2 /\
    arrived s (vault k) (store (vault_ x'.1)) a2.
Proof.
  intros Hr Hok Hres Hfuel. destruct (pull_start_on_track s ws k x s' a rep) as (st & Hst & Ht & Hw); [done..|].
  unfold pull_loop. erewrite run_bind by exact Hst. eapply rounds_arrive; [done..|lia].
Qed.

(** C3: the pull ends in step.  A client whose vault is open and whose session
    the server knows, and whose replica never synced, is further than the
    server, or is in step up to its cursor, leaves the loop after at most two
    rounds more than the vault has rows: every row is followed, nothing else
    is held, and no row is left to ask for. *)
Theorem pull_loop_converges `{!HeaderLaws H, !Base64Len H, !SerdeLaws PullDto} s ws k x s' a rep fuel :
  ready s ws k x s' a -> vault_ok (vault k) -> resumable s (vault k) (store (vault_ x.1)) a ->
  (base.size (v_items (vault k)) + 2 <= fuel)%nat ->
  exists x' rep' s2 a2, pull_loop ws fuel rep x = (x', Ok (Some rep')) /\ ready s ws k x' s2 a2 /\
    arrived s (vault k) (store (vault_ x'.1)) a2.
Proof. apply pull_loop_arrives. Qed.

(** ** A write, from one device to another *)

(** The change the server reads out of a staged write. *)
Definition change_of (w : StagedWrite) (ch : Change) : Prop :=
  ch_item ch = sw_item w /\ ch_base ch = base_revision w /\ ch_overview ch = sw_overview w /\
  ch_details ch = sw_details w /\ ch_deleted ch = Wire.is_none (sw_overview w).

Lemma opt_blob_encode `{!HeaderLaws H} b o : opt_blob (Some (base64_encode b)) = Some o -> o = Some b.
Proof.
  cbn. unfold blob_from. destruct (_ <? _); [done|]. rewrite base64_roundtrip. cbn.
  destruct (_ <? _); [done|]. by intros [= <-].
Qed.

Lemma change_of_dto `{!HeaderLaws H} w d ch : change_dto w = Ok d -> change_from d = Some ch -> change_of w ch.
Proof.
  unfold change_dto, change_from, change_of.
  destruct (sw_overview w) as [ov|], (sw_details w) as [det|]; try done.
  - destruct (_ || _); [done|]. intros [= <-]. cbn [cd_overview cd_details cd_item cd_base_revision cd_deleted].
    destruct (opt_blob (Some (base64_encode ov))) as [o1|] eqn:E1; [|done].
    destruct (opt_blob (Some (base64_encode det))) as [o2|] eqn:E2; [|done].
    apply opt_blob_encode in E1 as ->, E2 as ->. by intros [= <-].
  - intros [= <-]. by intros [= <-].
Qed.

Lemma write_served `{!HeaderLaws H, !SerdeLaws WriteBody} ws k db w db' ack :
  served ws k db -> Wire.write ws [w] db = (db', Ok ack) ->
  exists ch v', change_of w ch /\ change_fits ch /\ db' = set_vault (account_id k) v' (Server.seen (device_id k) db) /\
    Server.write (Server.entitlement k) (max_vault_bytes db) [ch] (vault k) = Ok (Accepted v').
Proof.
  intros Hs. unfold Wire.write. rewrite bool_decide_eq_false_2 by done. cbn [length].
  destruct (change_dto w) as [d|] eqn:Ed; [|unfold MAX_CHANGES; cbn; rewrite Ed; done].
  unfold MAX_CHANGES. cbn [Nat.ltb Nat.leb mapM_result mbind result_bind]. rewrite Ed. cbn [mbind result_bind].
  rewrite run_mlift. unfold post, send. unfold mbind at 1, M_bind, transport_send, honest. rewrite (serve_served ws k) by done.
  unfold handle. cbn [method path req_body].
  unfold json at 1. cbn [mbind option_bind]. rewrite json_roundtrip. cbn [mbind option_bind ok_or wb_changes mapM].
  assert (forall e, (mlift (check_ack 1 (refuse e)) (Server.seen (device_id k) db)) <> (db', Ok ack)) as Hrefuse.
  { intros e. unfold mlift, check_ack, refuse. destruct e; cbn;
      repeat match goal with |- context [if ?b then _ else _] => destruct b end; try done;
      unfold parse_body; destruct (from_json _) as [[[|]]|]; done. }
  destruct (change_from d) as [ch|] eqn:Ec; cbn [mbind option_bind ok_or result_bind mret option_ret]; [|by intros ?%Hrefuse].
  destruct (Server.write _ _ _ _) as [[v'|l]|e] eqn:Ew; cbn [mbind result_bind]; [| |by intros ?%Hrefuse].
  - unfold mlift. intros [= <- _]. exists ch, v'. split_and!; [by eapply change_of_dto|by eapply change_from_fits|done..].
  - unfold mlift, check_ack, respond. cbn [status Z.eqb Pos.eqb].
    unfold parse_body. destruct (from_json _) as [x|]; [|done]. cbn. by case_bool_decide.
Qed.

(** The session of another device of the account, after the vault's row is
    replaced. *)
Lemma session_row_set_vault hash acct v' db k :
  session_row hash db = Some k -> account_id k = acct ->
  exists k', session_row hash (set_vault acct v' db) = Some k' /\ vault k' = v' /\ device_id k' = device_id k /\ account_id k' = acct.
Proof.
  unfold session_row, set_vault. cbn [sessions accounts devices now].
  destruct (sessions db !! hash) as [x|]; [|done]. cbn.
  destruct (accounts db !! ss_account x) as [a|] eqn:Ea; [|done]. cbn.
  destruct (devices db !! ss_device x) as [d|]; [|done]. cbn.
  destruct (a_vault a); [|done]. cbn. destruct (_ && _) eqn:Eg; [|done]. intros [= <-] <-. cbn.
  rewrite lookup_alter_eq, Ea. cbn. rewrite Eg. by eexists.
Qed.

Lemma served_written ws k acct v' dev db :
  served ws k db -> account_id k = acct ->
  exists k', served ws k' (set_vault acct v' (Server.seen dev db)) /\ vault k' = v'.
Proof.
  intros (H1 & H2 & H3) Ha. rewrite <- (session_row_seen _ dev) in H3.
  destruct (session_row_set_vault _ acct v' _ _ H3 Ha) as (k' & H4 & H5 & _).
  exists k'. by split.
Qed.

Lemma push_served `{!HeaderLaws H, !SerdeLaws WriteBody} w ws k c db x' o :
  session_ c = Ok ws -> served ws k db -> push w (c, db) = (x', Ok o) ->
  exists ch v', change_of w ch /\ change_fits ch /\ x'.2 = set_vault (account_id k) v' (Server.seen (device_id k) db) /\
    Server.write (Server.entitlement k) (max_vault_bytes db) [ch] (vault k) = Ok (Accepted v').
Proof.
  intros Hc Hs. unfold push. intros ([] & [c1 db1] & H1 & Hp)%M_bind_Ok.
  assert (c1 = c /\ db1 = db) as [-> ->].
  { unfold require_full in H1. apply M_bind_Ok in H1 as (e & [c2 db2] & H1 & H2).
    unfold read_vault, with_vault in H1. cbn [fst snd] in H1. destruct (storage_error c); [done|]. injection H1 as <- <- <-.
    destruct (Store.entitlement _) in H2; [|done]. injection H2 as <- <-. by destruct c. }
  clear H1. apply M_bind_Ok in Hp as (ws' & [c1 db1] & H1 & Hp). unfold Client.session in H1. cbn [fst snd] in H1.
  injection H1 as <- <- H1. assert (ws' = ws) as -> by congruence.
  apply M_bind_Ok in Hp as ([] & [c1 db1] & H2 & Hp).
  assert (c1 = c /\ db1 = db) as [-> ->].
  { unfold server, read_vault, with_vault in H2. cbn [fst snd] in H2. destruct (storage_error c); [done|].
    unfold mread in H2. injection H2 as <- <- _. by destruct c. }
  apply M_bind_Ok in Hp as (ack & [c3 db3] & H3 & Hp). unfold request, ask in H3. unfold mbind at 1, M_bind in H3. cbn [fst snd] in H3.
  destruct (Wire.write ws [w] db) as [db4 [ack'|e]] eqn:Ew.
  2: { unfold failed in H3. apply M_bind_Ok in H3 as ([] & y & _ & H3). done. }
  injection H3 as <- <- <-. destruct (write_served ws k db w _ _ Hs Ew) as (ch & v' & G1 & G2 & G3 & G4).
  exists ch, v'. split_and!; [done..| |done]. rewrite <- G3.
  apply M_bind_Ok in Hp as (rev & y & Hrev%mlift_Ok & Hp). destruct Hrev as [-> _].
  unfold with_vault in Hp. cbn [fst snd] in Hp. destruct (storage_error c); [done|].
  destruct (commit_write w rev (vault_ c)) as [v2 r2]. by injection Hp as <- _.
Qed.

(** A sealed version passes the checks of the pull on any device with the
    keys. *)
Lemma sealed_checks s i ov det o :
  read_overview (data_key s) (ses_vault_id s) (i, ov) = Ok o -> details_readable s i ov det o ->
  check_item_bytes s i ov det = Some o.
Proof.
  intros Hr (d & Hd & Ht). pose proof (read_overview_id _ _ _ _ _ Hr) as Hid.
  unfold read_overview in Hr. cbn [fst snd] in Hr. apply bind_Ok in Hr as (x & Hx & Hr).
  destruct (_ =? _); [|done]. apply (inj Ok) in Hr. subst x. unfold check_item_bytes.
  rewrite Hx. cbn [result_ok mbind option_bind]. rewrite Hd. cbn [result_ok mbind option_bind].
  by rewrite Hid, Z.eqb_refl, bool_decide_eq_true_2.
Qed.

Lemma written_step s sv sv' m (a : AccountRecord) item row :
  vault_ok sv -> v_items sv' = <[item := row]> (v_items sv) -> v_revision sv < it_revision row ->
  server_cursor a <= v_revision sv -> resumable s sv m a -> resumable s sv' m a.
Proof.
  intros Hok Hit Hrow Hc [Hz|[Hgt|(Hpos & Hin & Hstr)]]; [by left|lia|].
  right. right. split_and!; [done| |].
  - intros i r Hi Hr. rewrite Hit in Hi. destruct (decide (i = item)) as [->|Hne].
    + rewrite lookup_insert_eq in Hi. injection Hi as <-. lia.
    + rewrite lookup_insert_ne in Hi by done. by apply Hin.
  - intros i Hi. rewrite Hit. destruct (decide (i = item)) as [->|Hne]; [by rewrite lookup_insert_eq|].
    rewrite lookup_insert_ne by done. by apply Hstr.
Qed.

(** What an accepted write of one item makes of the vault. *)
Lemma written_vault e max w ch sv sv' :
  vault_ok sv -> change_of w ch -> change_fits ch -> Server.write e max [ch] sv = Ok (Accepted sv') ->
  vault_ok sv' /\ v_items sv' = <[sw_item w := row_of_change (v_revision sv') ch]> (v_items sv) /\
  v_revision sv' = v_revision sv + 1.
Proof.
  intros Hok (Hi & _) Hf Hw.
  destruct (write_accepted e max [ch] sv sv' Hok) as (_ & _ & _ & H1 & H2 & H3 & H4 & _); [by constructor|done|].
  split_and!; [done| |done]. apply map_eq. intros i. destruct (decide (i = sw_item w)) as [->|Hne].
  - rewrite lookup_insert_eq, <- Hi. apply H3. by left.
  - rewrite lookup_insert_ne by done. apply H4. cbn. rewrite Hi. by intros ->%list_elem_of_singleton.
Qed.

Lemma size_insert_le {A} (m : gmap Z A) i x : (base.size (<[i := x]> m) <= S (base.size m))%nat.
Proof. rewrite map_size_insert. destruct (m !! i); cbn; lia. Qed.

(** A replica that follows the row of a sealed write reads it. *)
Lemma follows_reads s s' w ch rev m :
  sealed_write s w -> change_of w ch -> same_keys s s' -> session_ok (items m) s' ->
  follows s m (sw_item w) (row_of_change rev ch) ->
  cached s' (sw_item w) = plain w /\
  item_blobs (sw_item w) m = match sw_overview w, sw_details w with Some ov, Some det => Some (ov, det) | _, _ => None end.
Proof.
  intros Hw (_ & _ & Hov & Hdet & Hdel) Hk Hcache. unfold follows, row_of_change, item_blobs.
  rewrite (cache_exact _ _ Hcache). unfold readable. destruct Hk as (Hk1 & Hk2 & _). rewrite Hdel, Hov, Hdet.
  destruct Hw as [ov det o H1 H2 H3 H4 H5|H1 H2 H3 H4].
  - rewrite H1, H2. cbn [Wire.is_none it_deleted]. unfold Sync.check_change, row_change.
    cbn [rc_overview rc_details rc_item rc_revision it_overview it_details it_revision fst snd].
    rewrite (sealed_checks _ _ _ _ _ H4 H5). cbn [fmap option_fmap option_map]. intros [-> _].
    cbn [mbind option_bind row_of row_overview pull_overview fmap option_fmap option_map]. rewrite Hk1, Hk2, H4, H3. done.
  - rewrite H1. cbn [Wire.is_none it_deleted]. intros [-> _]. by rewrite H3.
Qed.

(** C2: what one device saves, another reads. A write that the first device's
    [push] reports as done is, after the next pull of any other device of the
    account whose replica was in step (or is new), in that device's cache as
    the first device staged it, with the same ciphertexts behind it; a pushed
    deletion leaves nothing of the item. *)
Theorem pushed_write_arrives `{!HeaderLaws H, !Base64Len H, !SerdeLaws PullDto, !SerdeLaws WriteBody}
    s wsA kA cA db w x o wsB kB cB sB aB rep fuel :
  session_ cA = Ok wsA -> served wsA kA db -> vault_ok (vault kA) -> sealed_write s w ->
  push w (cA, db) = (x, Ok o) ->
  ready s wsB kB (cB, db) sB aB -> account_id kB = account_id kA ->
  server_cursor aB <= v_revision (vault kA) -> resumable s (vault kA) (store (vault_ cB)) aB ->
  (base.size (v_items (vault kA)) + 3 <= fuel)%nat ->
  exists y rep' sB', pull_loop wsB fuel rep (cB, x.2) = (y, Ok (Some rep')) /\
    Vault.session (vault_ y.1) = Ok sB' /\ cached sB' (sw_item w) = plain w /\
    item_blobs (sw_item w) (store (vault_ y.1)) =
      match sw_overview w, sw_details w with Some ov, Some det => Some (ov, det) | _, _ => None end.
Proof.
  intros HsA HkA Hok Hw Hpush [He Hu Hs] Hacct Hcur Hres Hfuel. cbn [fst snd] in *.
  destruct (push_served w wsA kA cA db x o) as (ch & v' & Hch & Hfit & Hdb & Hwr); [done..|].
  destruct (written_vault (Server.entitlement kA) (max_vault_bytes db) w ch (vault kA) v') as (Hok' & Hit & Hrev); [done..|].
  destruct (served_written wsB kB (account_id kA) v' (device_id kA) db) as (kB' & Hs' & HvB); [done..|].
  rewrite <- Hdb in Hs'.
  destruct (pull_loop_arrives s wsB kB' (cB, x.2) sB aB rep fuel) as (y & rep' & s2 & a2 & Hrun & Hr2 & Harr & _).
  - by split.
  - by rewrite HvB.
  - rewrite HvB. eapply (written_step s (vault kA) v'); [done|exact Hit| |done|done].
    unfold row_of_change. destruct (ch_deleted ch); cbn; lia.
  - rewrite HvB, Hit. pose proof (size_insert_le (v_items (vault kA)) (sw_item w) (row_of_change (v_revision v') ch)). lia.
  - exists y, rep', s2. destruct Hr2 as [_ [U1 U2 U3 _] _]. split_and!; [done..| |]; 
      (eapply follows_reads; [exact Hw|exact Hch|exact U3|exact U2|]; apply Harr; rewrite HvB, Hit; apply lookup_insert_eq).
Qed.
End Converge.

(** ** No server can keep a client syncing

    The two loops of [sync_now] (the pull, and the retry of items that did
    not open) against an arbitrary transport: every round either ends the
    loop or makes a quantity smaller that cannot go below zero. *)

(** ** Loops *)

Section Loops.
Context {W St R : Type} (f : St -> M (HavenClient * W) ClientError (St + R)) (measure : St -> nat).

(** Every round that goes on leaves less to do. *)
Definition shrinks : Prop := forall st x x' st', f st x = (x', Ok (inl st')) -> (measure st' < measure st)%nat.

Lemma rounds_end fuel st x : shrinks -> (measure st < fuel)%nat -> (rounds f fuel st x).2 <> Ok None.
Proof.
  intros Hs. revert st x. induction fuel as [|fuel IH]; intros st x Hf; [lia|]. cbn [rounds].
  unfold mbind, M_bind. destruct (f st x) as [x1 [[st1|r]|e]] eqn:E; [|done|done].
  apply IH. apply Hs in E. lia.
Qed.
End Loops.

Section Progress.
Context {C : Crypto} {K : KeyLib} {U : Unicode} {J : JsonLib} {H : HeaderLib}.
Context {S1 : Serde ErrorBody} {S2 : Serde PullDto} {S3 : Serde WriteBody} {S4 : Serde WriteAckDto}.
Context {S5 : Serde ConflictsDto} {S6 : Serde FetchBody} {S7 : Serde FetchDto} {S8 : Serde HeaderDto}.
Context {S9 : Serde AttachmentPutBody} {S10 : Serde AttachmentDto}.
Context {W : Type} {T : Transport W} {P : Platform W}.

Lemma request_Ok {A} (m : M W SyncError A) x x' a :
  request m x = (x', Ok a) -> exists w', m x.2 = (w', Ok a) /\ x' = (x.1, w').
Proof.
  unfold request, ask, mbind, M_bind. destruct (m x.2) as [w' [b|e]].
  - intros [= <- <-]. by exists w'.
  - unfold failed, mbind, M_bind. by destruct (react e (x.1, w')) as [y [[]|]].
Qed.

(** ** The pull *)

(** The JSON number of a cursor is an [i64]. *)
Definition cursors_fit : Prop := forall b (d : PullDto), from_json b = Some d -> pd_cursor d <= i64_max.

Lemma pull_cursor s since w w' p :
  cursors_fit -> Wire.pull s since w = (w', Ok p) -> 0 <= since /\ 0 <= cursor p <= i64_max.
Proof.
  intros Hfit. unfold Wire.pull. destruct (Z.ltb_spec since 0); [done|].
  intros (r & w1 & _ & Hr)%M_bind_Ok. apply M_bind_Ok in Hr as (d & w2 & [_ Hd]%mlift_Ok & Hr).
  apply mlift_Ok in Hr as [_ Hr]. unfold expect_ok in Hd. destruct (negb _); [done|].
  unfold parse_body in Hd. destruct (from_json (body r)) as [d'|] eqn:Ej; [|done]. injection Hd as ->.
  apply Hfit in Ej. unfold check_page in Hr. destruct (Z.ltb_spec (pd_cursor d) 0); [done|].
  destruct (_ <? _)%nat; [done|]. apply bind_Ok in Hr as (cs & _ & Hr). injection Hr as <-. cbn. lia.
Qed.

Definition pull_measure (st : PullState) : nat :=
  Z.to_nat ((if from_zero st then 0 else 2 ^ 63) + Z.max 0 (i64_max - ps_cursor st)).

Lemma pull_shrinks s : cursors_fit -> shrinks (W := W) (pull_round s) pull_measure.
Proof.
  intros Hfit st x x' st'. unfold pull_round. intros (p & x1 & Hp & Hr)%M_bind_Ok.
  apply request_Ok in Hp as (w' & Hp & _). apply (pull_cursor _ _ _ _ _ Hfit) in Hp as [H0 Hc]. cbv zeta in Hr.
  unfold pull_measure. assert (i64_max = 2 ^ 63 - 1) as Hmax by done.
  destruct (Z.ltb_spec (cursor p) (ps_cursor st)).
  - destruct (from_zero st); [done|]. apply M_bind_Ok in Hr as (t & x2 & _ & Hr).
    apply M_bind_Ok in Hr as (u & x3 & _ & Hr). apply M_bind_Ok in Hr as (h & x4 & _ & Hr).
    injection Hr as _ <-. cbn [from_zero ps_cursor]. lia.
  - apply M_bind_Ok in Hr as (t & x2 & _ & Hr). apply M_bind_Ok in Hr as (pg & x3 & _ & Hr).
    apply M_bind_Ok in Hr as (u & x4 & _ & Hr). destruct (negb (has_more p)); cbn [orb] in Hr.
    { destruct (_ && _); [|done]. apply M_bind_Ok in Hr as (t2 & x5 & _ & Hr).
      by apply M_bind_Ok in Hr as (d & x6 & _ & Hr). }
    destruct (Z.leb_spec (cursor p) (ps_cursor st)).
    { destruct (_ && _); [|done]. apply M_bind_Ok in Hr as (t2 & x5 & _ & Hr).
      by apply M_bind_Ok in Hr as (d & x6 & _ & Hr). }
    injection Hr as _ <-. cbn [from_zero ps_cursor]. destruct (from_zero st); lia.
Qed.

(** ** Items that did not open *)

Lemma check_asked_spec asked seen ids :
  check_asked asked seen ids = true -> NoDup ids /\ forall i, i ∈ ids -> i ∈ asked /\ i ∉ seen.
Proof.
  revert seen. induction ids as [|j ids IH]; intros seen; cbn.
  { intros _. split; [constructor|]. by intros i ?%elem_of_nil. }
  rewrite !andb_true_iff, !bool_decide_eq_true. intros [[Ha Hs] [Hn Hi]%IH]. split.
  - constructor; [|done]. intros Hj. apply Hi in Hj as [_ Hj]. set_solver.
  - intros i [->|Hin]%elem_of_cons; [done|]. apply Hi in Hin as [? ?]. set_solver.
Qed.

Lemma fetch_unanswered s ids w w' f :
  fetch_items s ids w = (w', Ok f) -> NoDup (unanswered f) /\ forall i, i ∈ unanswered f -> i ∈ ids.
Proof.
  unfold fetch_items. destruct (_ || _); [done|]. intros (r & w1 & _ & Hr)%M_bind_Ok.
  apply M_bind_Ok in Hr as (d & w2 & _ & Hr). apply mlift_Ok in Hr as [_ Hr]. unfold check_fetched in Hr.
  destruct (check_asked _ _ _) eqn:Ec; [|done]. cbn [negb] in Hr. apply bind_Ok in Hr as (cs & _ & Hr).
  injection Hr as <-. cbn [unanswered]. apply check_asked_spec in Ec as [Hn Hi]. apply NoDup_app in Hn as (_ & _ & Hn).
  split; [done|]. intros i Hin. destruct (Hi i) as [Ha _]; [apply elem_of_app; by right|].
  by rewrite elem_of_list_to_set in Ha.
Qed.

Lemma refetch_shrinks s : shrinks (W := W) (refetch_round s) (fun st => length st.1).
Proof.
  intros [asked rep] x x' st'. unfold refetch_round. case_bool_decide; [done|].
  intros (r & x1 & Hask & Hr)%M_bind_Ok. unfold ask in Hask. destruct (fetch_items s asked x.2) as [w' r'] eqn:Ef.
  injection Hask as <- <-. destruct r' as [f|e].
  2: { by destruct e; try done; apply M_bind_Ok in Hr as (u & x2 & _ & Hr). }
  cbv zeta in Hr. case_bool_decide as Hans; [done|]. apply M_bind_Ok in Hr as (t & x2 & _ & Hr).
  apply M_bind_Ok in Hr as (ap & x3 & _ & Hr). destruct ap as [page|]; [|done]. injection Hr as _ <-. cbn [fst].
  apply fetch_unanswered in Ef as [Hn Hi].
  destruct (List.filter (not_in (unanswered f)) asked) as [|i l] eqn:El; [done|].
  assert (i ∈ List.filter (not_in (unanswered f)) asked) as Hin by (rewrite El; by left).
  apply list_elem_of_In, List.filter_In in Hin as [Hin Hnot]. apply list_elem_of_In in Hin.
  unfold not_in in Hnot. apply negb_true_iff, bool_decide_eq_false in Hnot.
  assert (i :: unanswered f ⊆+ asked) as Hsub; [|apply submseteq_length in Hsub; cbn in Hsub; lia].
  apply NoDup_submseteq; [by constructor|]. intros j [->|Hj]%elem_of_cons; [done|by apply Hi].
Qed.

(** C9: a sync ends, whatever the server answers. With enough fuel for every
    [i64] cursor the pull is never still going: a page only asks for another
    past a later cursor, and starting over happens once. The retry of a chunk
    of unreadable items ends within one round more than it has items, which
    is the fuel [refetch_chunks] gives it. *)
Theorem sync_terminates :
  cursors_fit ->
  (exists N, forall fuel x, (N <= fuel)%nat -> (sync_now fuel x).2 <> Ok None) /\
  (forall s asked rep x, (rounds (refetch_round s) (S (length asked)) (asked, rep) x).2 <> Ok None).
Proof.
  intros Hfit. split.
  - exists (Z.to_nat (2 ^ 65)). intros fuel x Hfuel Hnone.
    destruct (sync_now fuel x) as [x' r] eqn:E. cbn [snd] in Hnone. subst r. unfold sync_now in E.
    apply M_bind_Ok in E as (u1 & x1 & _ & E). apply M_bind_Ok in E as (s & x2 & _ & E).
    apply M_bind_Ok in E as (u2 & x3 & _ & E). apply M_bind_Ok in E as (ad & x4 & _ & E).
    apply M_bind_Ok in E as (st & x5 & _ & E). apply M_bind_Ok in E as (r & x6 & Hr & E).
    destruct r as [rep|]; [by apply M_bind_Ok in E as (rep' & x7 & _ & E)|].
    destruct (decide (0 <= ps_cursor st)) as [Hpos|Hneg].
    + apply (rounds_end (pull_round s) pull_measure fuel st x5 (pull_shrinks s Hfit)); [|by rewrite Hr].
      unfold pull_measure, i64_max. destruct (from_zero st); lia.
    + destruct fuel as [|fuel]; [lia|]. cbn [rounds] in Hr. apply M_bind_Ok in Hr as (y & x7 & Hround & _).
      unfold pull_round in Hround. apply M_bind_Ok in Hround as (p & x8 & Hp & _).
      apply request_Ok in Hp as (w' & Hp & _). apply (pull_cursor _ _ _ _ _ Hfit) in Hp. lia.
  - intros s asked rep x. apply (rounds_end _ (fun st => length st.1)); [apply refetch_shrinks|cbn; lia].
Qed.
End Progress.
