(* ===== verification/ToyNet.v ===== *)
(** * A concrete network for the witnesses

    JSON forms of the wire's documents (a document's code as one number), a
    Base64 of the right lengths, a platform and a clock, and a server with one
    account on two devices, whose vault holds one row.  Used by the witnesses
    only. *)

From S2P Require Import Prelude Errors Text Blob Url Tags Totp Clean Card Identity.
From S2P Require Import CustomField Bank Sso Attachment Model Keys Store Origin Health BuildItem.
From S2P Require Import Vault Items Page ToyCodec Sync Replica Lifecycle System Wire Client Admission Server ServerFacts.
From S2P Require Import Converge.

#[export] Instance AccountDto_eq_dec : EqDecision AccountDto.
Proof. solve_decision. Defined.
#[export] Instance AccountDto_countable : Countable AccountDto.
Proof.
  apply (inj_countable (fun x => [encode (ad_status x); encode (ad_entitlement x); encode (ad_trial_ends_at x); encode (ad_period_end x)])
    (fun l => match l with
     | [x0; x1; x2; x3] => x0 ← decode x0; x1 ← decode x1; x2 ← decode x2; x3 ← decode x3; Some {| ad_status := x0; ad_entitlement := x1; ad_trial_ends_at := x2; ad_period_end := x3 |}
     | _ => None end)). intros []. cbn -[encode decode]. by rewrite !decode_encode.
Defined.

#[export] Instance RemoteChangeDto_eq_dec : EqDecision RemoteChangeDto.
Proof. solve_decision. Defined.
#[export] Instance RemoteChangeDto_countable : Countable RemoteChangeDto.
Proof.
  apply (inj_countable (fun x => [encode (rd_item x); encode (rd_revision x); encode (rd_overview x); encode (rd_details x); encode (rd_deleted x)])
    (fun l => match l with
     | [x0; x1; x2; x3; x4] => x0 ← decode x0; x1 ← decode x1; x2 ← decode x2; x3 ← decode x3; x4 ← decode x4; Some {| rd_item := x0; rd_revision := x1; rd_overview := x2; rd_details := x3; rd_deleted := x4 |}
     | _ => None end)). intros []. cbn -[encode decode]. by rewrite !decode_encode.
Defined.

#[export] Instance PullDto_eq_dec : EqDecision PullDto.
Proof. solve_decision. Defined.
#[export] Instance PullDto_countable : Countable PullDto.
Proof.
  apply (inj_countable (fun x => [encode (pd_cursor x); encode (pd_has_more x); encode (pd_changes x); encode (pd_account x)])
    (fun l => match l with
     | [x0; x1; x2; x3] => x0 ← decode x0; x1 ← decode x1; x2 ← decode x2; x3 ← decode x3; Some {| pd_cursor := x0; pd_has_more := x1; pd_changes := x2; pd_account := x3 |}
     | _ => None end)). intros []. cbn -[encode decode]. by rewrite !decode_encode.
Defined.

#[export] Instance ChangeDto_eq_dec : EqDecision ChangeDto.
Proof. solve_decision. Defined.
#[export] Instance ChangeDto_countable : Countable ChangeDto.
Proof.
  apply (inj_countable (fun x => [encode (cd_item x); encode (cd_base_revision x); encode (cd_overview x); encode (cd_details x); encode (cd_deleted x); encode (cd_attachment_ids x)])
    (fun l => match l with
     | [x0; x1; x2; x3; x4; x5] => x0 ← decode x0; x1 ← decode x1; x2 ← decode x2; x3 ← decode x3; x4 ← decode x4; x5 ← decode x5; Some {| cd_item := x0; cd_base_revision := x1; cd_overview := x2; cd_details := x3; cd_deleted := x4; cd_attachment_ids := x5 |}
     | _ => None end)). intros []. cbn -[encode decode]. by rewrite !decode_encode.
Defined.

#[export] Instance WriteBody_eq_dec : EqDecision WriteBody.
Proof. solve_decision. Defined.
#[export] Instance WriteBody_countable : Countable WriteBody.
Proof.
  apply (inj_countable (fun x => [encode (wb_changes x)])
    (fun l => match l with
     | [x0] => x0 ← decode x0; Some {| wb_changes := x0 |}
     | _ => None end)). intros []. cbn -[encode decode]. by rewrite !decode_encode.
Defined.

#[export] Instance FetchBody_eq_dec : EqDecision FetchBody.
Proof. solve_decision. Defined.
#[export] Instance FetchBody_countable : Countable FetchBody.
Proof.
  apply (inj_countable (fun x => [encode (fb_item_ids x)])
    (fun l => match l with
     | [x0] => x0 ← decode x0; Some {| fb_item_ids := x0 |}
     | _ => None end)). intros []. cbn -[encode decode]. by rewrite !decode_encode.
Defined.

#[export] Instance AttachmentPutBody_eq_dec : EqDecision AttachmentPutBody.
Proof. solve_decision. Defined.
#[export] Instance AttachmentPutBody_countable : Countable AttachmentPutBody.
Proof.
  apply (inj_countable (fun x => [encode (apb_item x); encode (apb_blob x)])
    (fun l => match l with
     | [x0; x1] => x0 ← decode x0; x1 ← decode x1; Some {| apb_item := x0; apb_blob := x1 |}
     | _ => None end)). intros []. cbn -[encode decode]. by rewrite !decode_encode.
Defined.

#[export] Instance FetchDto_eq_dec : EqDecision FetchDto.
Proof. solve_decision. Defined.
#[export] Instance FetchDto_countable : Countable FetchDto.
Proof.
  apply (inj_countable (fun x => [encode (fd_changes x); encode (fd_unanswered x)])
    (fun l => match l with
     | [x0; x1] => x0 ← decode x0; x1 ← decode x1; Some {| fd_changes := x0; fd_unanswered := x1 |}
     | _ => None end)). intros []. cbn -[encode decode]. by rewrite !decode_encode.
Defined.

#[export] Instance AppliedDto_eq_dec : EqDecision AppliedDto.
Proof. solve_decision. Defined.
#[export] Instance AppliedDto_countable : Countable AppliedDto.
Proof.
  apply (inj_countable (fun x => [encode (ap_item x); encode (ap_revision x)])
    (fun l => match l with
     | [x0; x1] => x0 ← decode x0; x1 ← decode x1; Some {| ap_item := x0; ap_revision := x1 |}
     | _ => None end)). intros []. cbn -[encode decode]. by rewrite !decode_encode.
Defined.

#[export] Instance WriteAckDto_eq_dec : EqDecision WriteAckDto.
Proof. solve_decision. Defined.
#[export] Instance WriteAckDto_countable : Countable WriteAckDto.
Proof.
  apply (inj_countable (fun x => [encode (wa_cursor x); encode (wa_applied x)])
    (fun l => match l with
     | [x0; x1] => x0 ← decode x0; x1 ← decode x1; Some {| wa_cursor := x0; wa_applied := x1 |}
     | _ => None end)). intros []. cbn -[encode decode]. by rewrite !decode_encode.
Defined.

#[export] Instance ConflictInfo_countable : Countable ConflictInfo.
Proof.
  apply (inj_countable (fun x => [encode (cf_item x); encode (cf_revision x)])
    (fun l => match l with
     | [x0; x1] => x0 ← decode x0; x1 ← decode x1; Some {| cf_item := x0; cf_revision := x1 |}
     | _ => None end)). intros []. cbn -[encode decode]. by rewrite !decode_encode.
Defined.

#[export] Instance ConflictsDto_eq_dec : EqDecision ConflictsDto.
Proof. solve_decision. Defined.
#[export] Instance ConflictsDto_countable : Countable ConflictsDto.
Proof.
  apply (inj_countable (fun x => [encode (cds_conflicts x)])
    (fun l => match l with
     | [x0] => x0 ← decode x0; Some {| cds_conflicts := x0 |}
     | _ => None end)). intros []. cbn -[encode decode]. by rewrite !decode_encode.
Defined.

#[export] Instance HeaderDto_eq_dec : EqDecision HeaderDto.
Proof. solve_decision. Defined.
#[export] Instance HeaderDto_countable : Countable HeaderDto.
Proof.
  apply (inj_countable (fun x => [encode (hd_header x); encode (hd_revision x); encode (hd_key_scheme x)])
    (fun l => match l with
     | [x0; x1; x2] => x0 ← decode x0; x1 ← decode x1; x2 ← decode x2; Some {| hd_header := x0; hd_revision := x1; hd_key_scheme := x2 |}
     | _ => None end)). intros []. cbn -[encode decode]. by rewrite !decode_encode.
Defined.

#[export] Instance AttachmentDto_eq_dec : EqDecision AttachmentDto.
Proof. solve_decision. Defined.
#[export] Instance AttachmentDto_countable : Countable AttachmentDto.
Proof.
  apply (inj_countable (fun x => [encode (atd_item x); encode (atd_blob x)])
    (fun l => match l with
     | [x0; x1] => x0 ← decode x0; x1 ← decode x1; Some {| atd_item := x0; atd_blob := x1 |}
     | _ => None end)). intros []. cbn -[encode decode]. by rewrite !decode_encode.
Defined.

#[export] Instance ErrorBody_eq_dec : EqDecision ErrorBody.
Proof. solve_decision. Defined.
#[export] Instance ErrorBody_countable : Countable ErrorBody.
Proof.
  apply (inj_countable (fun x => [encode (eb_code x); encode (eb_message x)])
    (fun l => match l with
     | [x0; x1] => x0 ← decode x0; x1 ← decode x1; Some {| eb_code := x0; eb_message := x1 |}
     | _ => None end)). intros []. cbn -[encode decode]. by rewrite !decode_encode.
Defined.

Module ToyNet.
Import Blob.Toy ToyUnicode ToyCodec.

(** A document of one type, and nothing else, reads back. *)
Definition serde (A : Type) `{Countable A} : Serde A := {|
  Wire.to_json := fun a => [Zpos (encode a)];
  Wire.from_json := fun l => match l with [Zpos p] => decode p | _ => None end |}.
Lemma serde_laws (A : Type) `{Countable A} : @SerdeLaws A (serde A).
Proof. split. intros a. cbn -[encode]. apply decode_encode. Qed.

#[export] Instance json_error : Serde ErrorBody := serde ErrorBody.
#[export] Instance json_pull : Serde PullDto := serde PullDto.
#[export] Instance json_write : Serde WriteBody := serde WriteBody.
#[export] Instance json_ack : Serde WriteAckDto := serde WriteAckDto.
#[export] Instance json_conflicts : Serde ConflictsDto := serde ConflictsDto.
#[export] Instance json_fetch : Serde FetchBody := serde FetchBody.
#[export] Instance json_fetched : Serde FetchDto := serde FetchDto.
#[export] Instance json_header : Serde HeaderDto := serde HeaderDto.
#[export] Instance json_put : Serde AttachmentPutBody := serde AttachmentPutBody.
#[export] Instance json_file : Serde AttachmentDto := serde AttachmentDto.
#[export] Instance json_pull_laws : SerdeLaws PullDto := serde_laws PullDto.
#[export] Instance json_write_laws : SerdeLaws WriteBody := serde_laws WriteBody.

(** One character that spells the bytes, and padding. *)
Definition base64 (l : list Z) : list Z :=
  match l with [] => [] | _ => Zneg (encode l) :: replicate (Z.to_nat ((len l + 2) / 3 * 4 - 1)) 0 end.
Definition unbase64 (t : list Z) : option (list Z) :=
  match t with [] => Some [] | Zneg p :: _ => decode p | _ => None end.

#[export] Instance header_lib : HeaderLib := {|
  canonical := canonical (HeaderLib := Sample.header_lib);
  file_to_json := file_to_json (HeaderLib := Sample.header_lib);
  file_from_json := file_from_json (HeaderLib := Sample.header_lib);
  base64_encode := base64; base64_decode := unbase64 |}.
#[export] Instance header_laws : HeaderLaws header_lib.
Proof.
  split; [apply Sample.header_laws|apply Sample.header_laws|]. intros [|x l]; [done|]. cbn -[encode]. apply decode_encode.
Qed.

Lemma str_len_zeros n : str_len (replicate n 0) = Z.of_nat n.
Proof. unfold str_len, utf8. induction n as [|n IH]; [done|]. cbn. rewrite !Nat2Z.inj_succ. by rewrite IH. Qed.

#[export] Instance header_len : Base64Len header_lib.
Proof.
  split. intros [|x l]; [done|]. cbn [base64_encode header_lib base64].
  set (n := (len (x :: l) + 2) / 3 * 4). assert (1 <= n) as Hn.
  { unfold n. assert (1 <= (len (x :: l) + 2) / 3); [|lia]. apply Z.div_le_lower_bound; [lia|]. cbn [length]. lia. }
  clearbody n. change (str_len (Zneg (encode (x :: l)) :: replicate (Z.to_nat (n - 1)) 0)) with
    (Z.of_nat (S (length (utf8 (replicate (Z.to_nat (n - 1)) 0))))).
  pose proof (str_len_zeros (Z.to_nat (n - 1))) as Hz. unfold str_len in Hz. lia.
Qed.

#[export] Instance clock : Clock := {| to_rfc3339 := fun t => [t] |}.
#[export] Instance platform : Platform Server.Db :=
  {| now_ms := fun db => Server.now db; elapsed := fun db => Server.now db;
     remove_vault_file := fun db => (db, true); forget_device := fun _ db => (db, true);
     write_marker := fun _ db => db; remove_marker := fun db => db; read_marker := fun _ => None |}.

(** *** The server *)

Definition token_a : list Z := lit "a".
Definition token_b : list Z := lit "b".
(** A row whose blobs open under no key. *)
Definition garbled_row : Server.ItemRow :=
  {| it_overview := Some [1]; it_details := Some [2]; it_deleted := false; it_revision := 3 |}.
Definition vault0 : VaultRow :=
  {| v_id := 9; v_header := [1]; v_header_revision := 1; v_key_scheme := 3; v_revision := 3;
     v_items := {[43 := garbled_row]}; v_files := ∅ |}.
Definition account0 (v : VaultRow) : Server.AccountRow :=
  {| a_status := AActive; a_billing := {| plan_row := None; billing_events := [] |}; a_vault := Some v |}.
Definition device0 : DeviceRow := {| dv_account := 5; dv_revoked := false; dv_last_seen := None |}.
Definition db0 : Server.Db :=
  {| accounts := {[5 := account0 vault0]}; devices := {[1 := device0; 2 := device0]};
     sessions := {[hash_of token_a := {| ss_account := 5; ss_device := 1; ss_expires := 9000 |};
                   hash_of token_b := {| ss_account := 5; ss_device := 2; ss_expires := 9000 |}]};
     deleted_sessions := ∅; max_vault_bytes := MAX_VAULT_BYTES; Server.now := 5000 |}.

Lemma vault0_ok : vault_ok vault0.
Proof.
  split; cbn [v_revision v_items vault0].
  - unfold i64_max. lia.
  - intros i r [_ <-]%lookup_singleton_Some. cbn. lia.
  - intros i r [_ <-]%lookup_singleton_Some. split; by eexists.
  - intros i r [_ <-]%lookup_singleton_Some. split; intros x [= <-]; vm_compute; discriminate.
  - intros n. etrans; [apply List.filter_length_le|]. vm_compute. lia.
Qed.

Definition caller (dev : Z) (token : list Z) : Caller :=
  {| Server.account_id := 5; device_id := dev; vault := vault0; token_hash := hash_of token; subscription := None;
     Server.entitlement := EFull |}.
Lemma row_a : session_row (hash_of token_a) db0 = Some (caller 1 token_a).
Proof. vm_compute. reflexivity. Qed.
Lemma row_b : session_row (hash_of token_b) db0 = Some (caller 2 token_b).
Proof. vm_compute. reflexivity. Qed.

(** *** The devices *)

Definition sign_in (t : list Z) : Wire.Session :=
  {| token := t; expires_at := []; sess_account_id := 5; sess_vault_id := 9; sess_account := None |}.
Definition device (t : list Z) : HavenClient :=
  {| vault_ := Sample.unlocked; connectivity := Online (sign_in t); last_sync_attempt := None;
     attachment_cache_cap := 0; storage_error := None; events := [] |}.

Lemma served_a : served (sign_in token_a) (caller 1 token_a) db0.
Proof. split; [done|]. split; [vm_compute; discriminate|apply row_a]. Qed.
Lemma served_b : served (sign_in token_b) (caller 2 token_b) db0.
Proof. split; [done|]. split; [vm_compute; discriminate|apply row_b]. Qed.

Lemma ready_b : ready Run.session1 (sign_in token_b) (caller 2 token_b) (device token_b, db0) Run.session1 Sample.record.
Proof.
  destruct Run.session1_ok as [H1 H2]. split; [done| |apply served_b]. split; [exact H1|exact H2|done|].
  vm_compute. reflexivity.
Qed.

Definition no_report : SyncReport := empty_report.

Lemma pull_loop_converges_witness :
  exists x rep s a, pull_loop (sign_in token_b) 3 no_report (device token_b, db0) = (x, Ok (Some rep)) /\
    arrived s vault0 (store (vault_ x.1)) a /\ unreadable_items (store (vault_ x.1)) !! 43 = Some 3.
Proof.
  destruct (pull_loop_converges Run.session1 (sign_in token_b) (caller 2 token_b) (device token_b, db0) Run.session1
    Sample.record no_report 3) as (x & rep & s & a & H1 & H2 & H3).
  - apply ready_b.
  - apply vault0_ok.
  - left. reflexivity.
  - vm_compute. lia.
  - exists x, rep, Run.session1, a. split; [exact H1|]. split; [exact H3|].
    destruct H3 as [Hf _]. specialize (Hf 43 garbled_row). unfold follows in Hf. cbn [it_deleted garbled_row] in Hf.
    destruct (Sync.check_change Run.session1 (row_change (43, garbled_row))) as [[row o]|] eqn:E; [vm_compute in E; discriminate E|].
    apply Hf. apply lookup_singleton_eq.
Defined.

Definition pushed : (HavenClient * Server.Db) * result ClientError (option ItemOverview) :=
  push Run.write (device token_a, db0).

Lemma pushed_write_arrives_witness :
  exists y rep s, pull_loop (sign_in token_b) 4 no_report (device token_b, pushed.1.2) = (y, Ok (Some rep)) /\
    Vault.session (vault_ y.1) = Ok s /\ cached s 42 = plain Run.write /\ plain Run.write <> None.
Proof.
  destruct pushed as [x r] eqn:Ep. unfold pushed in Ep. cbn [fst].
  assert (r = Ok (plain Run.write)) as ->.
  { change r with ((x, r).2). rewrite <- Ep. vm_compute. reflexivity. }
  destruct (pushed_write_arrives Run.session1 (sign_in token_a) (caller 1 token_a) (device token_a) db0 Run.write x
    (plain Run.write) (sign_in token_b) (caller 2 token_b) (device token_b) Run.session1 Sample.record no_report 4)
    as (y & rep & s & H1 & H2 & H3 & _).
  - reflexivity.
  - apply served_a.
  - apply vault0_ok.
  - destruct Run.session1_ok as [G1 G2]. apply (stages_ok Sample.unlocked Run.session1 Run.write G1 G2 Run.write_stages).
  - exact Ep.
  - apply ready_b.
  - reflexivity.
  - vm_compute. discriminate.
  - left. reflexivity.
  - vm_compute. lia.
  - exists y, rep, s. split; [exact H1|]. split; [exact H2|]. split; [exact H3|]. vm_compute. discriminate.
Defined.

Definition change0 : Change :=
  {| ch_item := 44; ch_base := None; ch_overview := Some [1]; ch_details := Some [2]; ch_deleted := false; ch_attachments := None |}.


Definition a_pull : HttpRequest :=
  {| method := Get; path := PSync 0; req_token := Some token_b; req_body := None |}.


(** A reader of pages that refuses cursors outside [i64]. *)
Definition json_i64 : Serde PullDto := {|
  Wire.to_json := Wire.to_json;
  Wire.from_json := fun b => d ← Wire.from_json b; if pd_cursor d <=? i64_max then Some d else None |}.

Lemma sync_terminates_witness :
  exists N, forall fuel (x : HavenClient * Server.Db), (N <= fuel)%nat -> (sync_now (S2 := json_i64) (T := honest (S2 := json_i64)) fuel x).2 <> Ok None.
Proof.
  destruct (sync_terminates (S2 := json_i64) (T := honest (S2 := json_i64)) (P := platform)) as [[N HN] _].
  - intros b d. cbn -[decode]. destruct b as [|[|p|p] [|? ?]]; try done. destruct (decode p) as [d'|]; [|done]. cbn [mbind option_bind].
    destruct (Z.leb_spec (pd_cursor d') i64_max); [|done]. intros [= <-]. done.
  - exists N. exact HN.
Defined.
End ToyNet.
