(* ===== verification/ClientFilesFacts.v ===== *)
(** * What opening a file promises

    A file is shown only as the item lists it, from this device's copy or
    from the server, and the copy kept is one that opened.  Then what sending
    a restore promises: it ends, and its report counts what was committed. *)

From S2P Require Import Prelude Errors Text Blob Url Clean Tags Totp Card Identity.
From S2P Require Import CustomField Bank Sso Attachment Model Keys Store Origin Health BuildItem.
From S2P Require Import Vault Items ToyCodec Sync Replica Lifecycle System Backup Dates Import.
From S2P Require Import Staging AppTarget Cbor Passkey PasskeyVault PasskeyFacts Restore Wire Admission Server.
From S2P Require Import ServerFacts Client ClientFiles Converge ToyNet.

Section Facts.
Context {C : Crypto} {K : KeyLib} {U : Unicode} {J : JsonLib} {UL : UrlLib} {SL : SiteLib UL} {L : TotpLib} {H : HeaderLib}.
Context {AL : AppLib} {PL : PasskeyLib}.
Context {S1 : Serde ErrorBody} {S2 : Serde PullDto} {S3 : Serde WriteBody} {S4 : Serde WriteAckDto}.
Context {S5 : Serde ConflictsDto} {S6 : Serde FetchBody} {S7 : Serde FetchDto} {S8 : Serde HeaderDto}.
Context {S9 : Serde AttachmentPutBody} {S10 : Serde AttachmentDto}.
Context {W : Type} {T : Transport W} {P : Platform W}.

(** ** Calls of the vault *)

Lemma with_vault_ok {A} (m : V A) (x x' : HavenClient * W) a :
  with_vault m x = (x', Ok a) -> exists v', m (vault_ x.1) = (v', Ok a) /\ x' = (set_vault_ v' x.1, x.2).
Proof.
  unfold with_vault. destruct (storage_error x.1); [done|]. destruct (m (vault_ x.1)) as [v' [b|e]]; [|done].
  intros [= <- <-]. by exists v'.
Qed.

Lemma read_vault_ok {A} (f : VaultService -> Result A) (x x' : HavenClient * W) a :
  read_vault f x = (x', Ok a) -> x' = x /\ f (vault_ x.1) = Ok a.
Proof.
  intros (v' & Hm & ->)%with_vault_ok. unfold mread in Hm. injection Hm as <- Hm. split; [|done].
  destruct x as [c w]. by destruct c.
Qed.

(** Only the cache of sealed copies differs. *)
Definition same_vault (v v' : VaultService) : Prop := exists k, v' = set_store (set_cache k (store v)) v.

Lemma same_vault_refl v : same_vault v v.
Proof. exists (attachment_cache (store v)). destruct v as [st]. by destruct st. Qed.
Lemma same_vault_trans v1 v2 v3 : same_vault v1 v2 -> same_vault v2 v3 -> same_vault v1 v3.
Proof. intros [k1 ->] [k2 ->]. by exists k2. Qed.
Lemma same_session v v' : same_vault v v' -> Vault.session v' = Vault.session v.
Proof. by intros [k ->]. Qed.
Lemma same_open v v' item m blob : same_vault v v' -> open_attachment item m blob v' = open_attachment item m blob v.
Proof. intros Hv. unfold open_attachment. by rewrite (same_session _ _ Hv). Qed.

Lemma cached_read id now v v' b :
  cached_attachment_of id now v = (v', Ok b) ->
  same_vault v v' /\ cache_blob <$> attachment_cache (store v') !! id = b.
Proof.
  unfold cached_attachment_of. mrun. destruct (Vault.session v); mrun; [|done]. unfold cached_attachment. mrun.
  intros [= <- <-]. split; [by eexists|]. cbn. rewrite lookup_alter_eq. by destruct (attachment_cache (store v) !! id).
Qed.

Lemma cache_put id blob now v v' :
  cache_attachment id blob now v = (v', Ok ()) ->
  same_vault v v' /\ cache_blob <$> attachment_cache (store v') !! id = Some blob.
Proof.
  unfold cache_attachment. mrun. destruct (Vault.session v); mrun; [|done]. intros [= <-]. split; [by eexists|].
  cbn. by rewrite lookup_insert_eq.
Qed.

Lemma evicted id v v' u : evict_attachment id v = (v', Ok u) -> same_vault v v'.
Proof. unfold evict_attachment. mrun. destruct (Vault.session v); mrun; [|done]. intros [= <- _]. by eexists. Qed.

(** ** Downloads *)

Lemma download_same item id (x x' : HavenClient * W) blob :
  download_attachment item id x = (x', Ok blob) -> x'.1 = x.1.
Proof.
  unfold download_attachment. intros (on & x1 & Hon & Hr)%M_bind_Ok. injection Hon as <- <-.
  destruct (negb _); [done|]. apply M_bind_Ok in Hr as (s & x2 & Hs & Hr). unfold Client.session in Hs. injection Hs as <- _.
  apply M_bind_Ok in Hr as (u & x3 & Hsv & Hr). apply read_vault_ok in Hsv as [-> _].
  apply M_bind_Ok in Hr as (r & x4 & Ha & Hr). unfold ask in Ha. destruct (Wire.get_attachment s id x.2) as [w' r'].
  injection Ha as <- <-. destruct r' as [[owner b]|e].
  - destruct (negb _); [done|]. by injection Hr as <- _.
  - exfalso. destruct (bool_decide _); [done|]. unfold failed in Hr. by apply M_bind_Ok in Hr as (y & x5 & _ & Hr).
Qed.

(** What a fetched file is: a download that opened, and is now the copy kept. *)
Lemma fetch_file_ok item id m (x x' : HavenClient * W) plain :
  fetch_file item id m x = (x', Ok plain) ->
  exists blob, same_vault (vault_ x.1) (vault_ x'.1) /\ open_attachment item m blob (vault_ x.1) = Ok plain /\
    cache_blob <$> attachment_cache (store (vault_ x'.1)) !! id = Some blob.
Proof.
  unfold fetch_file. intros (blob & x1 & Hd & Hr)%M_bind_Ok. apply download_same in Hd.
  apply M_bind_Ok in Hr as (p & x2 & Ho & Hr). unfold open_downloaded in Ho. destruct (storage_error x1.1); [done|].
  destruct (open_attachment item m blob (vault_ x1.1)) as [q|e] eqn:Eo; [|done]. injection Ho as <- ->.
  apply M_bind_Ok in Hr as (t & x3 & Ht & Hr). injection Ht as <- _. apply M_bind_Ok in Hr as (u & x4 & Hc & Hr).
  injection Hr as -> ->. apply with_vault_ok in Hc as (v' & Hc & ->). destruct u. apply cache_put in Hc as [Hv Hc].
  rewrite Hd in *. exists blob. by split_and!.
Qed.

(** A file is shown only as its item lists it. Opening one succeeds only
    with bytes sealed for that item and that file whose digest is the one the
    item lists, whether they came from this device's copy or from the server;
    and what the device then keeps is a copy that opens so: a damaged or
    forged one never stays. Nothing else of the vault changes. *)
Lemma file_opened_as_listed item id now (x x' : HavenClient * W) plain :
  attachment_bytes item id now x = (x', Ok plain) ->
  exists m blob, attachment_meta item id (vault_ x.1) = Ok m /\ sha256 blob = blob_sha256 m /\
    (exists s, Vault.session (vault_ x.1) = Ok s /\ open (data_key s) (ctx_attachment (ses_vault_id s) item (att_id m)) blob = Ok plain) /\
    cache_blob <$> attachment_cache (store (vault_ x'.1)) !! id = Some blob /\ same_vault (vault_ x.1) (vault_ x'.1).
Proof.
  unfold attachment_bytes. intros (m & x1 & Hm & Hr)%M_bind_Ok. apply read_vault_ok in Hm as [-> Hm].
  apply M_bind_Ok in Hr as (cached & x2 & Hc & Hr). apply with_vault_ok in Hc as (v2 & Hc & ->).
  apply cached_read in Hc as [Hsame Hcache].
  assert (exists blob, open_attachment item m blob (vault_ x.1) = Ok plain /\
    cache_blob <$> attachment_cache (store (vault_ x'.1)) !! id = Some blob /\ same_vault (vault_ x.1) (vault_ x'.1))
    as (blob & Ho & Hkept & Hv).
  2: { exists m, blob. unfold open_attachment in Ho. destruct (bool_decide_reflect (sha256 blob = blob_sha256 m)) as [Hsha|]; [|done].
       apply bind_Ok in Ho as (s & Hs & Ho). split_and!; try done. by exists s. }
  assert (forall m x3, same_vault (vault_ x.1) (vault_ x3.1) -> fetch_file item id m x3 = (x', Ok plain) ->
    exists blob, open_attachment item m blob (vault_ x.1) = Ok plain /\
      cache_blob <$> attachment_cache (store (vault_ x'.1)) !! id = Some blob /\ same_vault (vault_ x.1) (vault_ x'.1)) as Hfetch.
  { intros m0 x3 H3 (blob & Hv & Ho & Hk)%fetch_file_ok. exists blob. rewrite (same_open _ _ _ _ _ H3) in Ho.
    split_and!; try done. by eapply same_vault_trans. }
  destruct cached as [blob|]; [|eapply Hfetch; [|exact Hr]; exact Hsame].
  apply M_bind_Ok in Hr as (o & x3 & Hr0 & Hr). apply read_vault_ok in Hr0 as [-> Hr0]. injection Hr0 as <-.
  cbn [fst vault_ set_vault_] in Hr. rewrite (same_open _ _ _ _ _ Hsame) in Hr.
  destruct (open_attachment item m blob (vault_ x.1)) as [q|e] eqn:Eo.
  - injection Hr as <- ->. exists blob. by split_and!.
  - destruct (is_damaged e); [|done]. apply M_bind_Ok in Hr as (u & x4 & He & Hr). apply with_vault_ok in He as (v4 & He & ->).
    apply evicted in He. eapply Hfetch; [|exact Hr]. cbn. by eapply same_vault_trans.
Qed.
End Facts.

(** ** A concrete file *)

Module ToyFile.
Import Blob.Toy ToyUnicode ToyUrl ToyTotp ToySite ToyCodec Sample System.Run ToyPasskey ToyNet.

Definition no_file : SealedAttachment :=
  {| sa_meta := {| att_id := 0; att_name := []; mime := []; Attachment.size := 0; blob_sha256 := []; att_created_at := 0; att_extra := [] |};
     sa_blob := [] |}.
Definition sealed : SealedAttachment := of_ok no_file (seal_attachment 77 42 (lit "a.txt") [1; 2; 3] 5 (nonce 4) stored).
Definition listed : StagedWrite := of_ok no_write (stage_attachments 42 (AddFiles [sa_meta sealed]) 6 (nonce 5) (nonce 6) stored).
(** The copy kept is damaged, then replaced by the good one. *)
Definition filed : VaultService := (cache_attachment 77 (sa_blob sealed) 9 (commit_write listed 9 stored).1).1.
Definition with_file : HavenClient :=
  {| vault_ := filed; connectivity := COffline; last_sync_attempt := None; attachment_cache_cap := 0; storage_error := None; events := [] |}.

Lemma file_opened_as_listed_witness :
  exists x m, attachment_bytes 42 77 8 (with_file, db0) = (x, Ok [1; 2; 3]) /\ attachment_meta 42 77 filed = Ok m /\
    sha256 (sa_blob sealed) = blob_sha256 m.
Proof.
  assert ((attachment_bytes 42 77 8 (with_file, db0)).2 = Ok [1; 2; 3]) as Hr by (vm_compute; reflexivity).
  destruct (attachment_bytes 42 77 8 (with_file, db0)) as [x r] eqn:E. cbn [snd] in Hr. subst r.
  destruct (file_opened_as_listed 42 77 8 (with_file, db0) x [1; 2; 3] E) as (m & blob & Hm & Hsha & _).
  exists x, m. split; [reflexivity|]. split; [exact Hm|]. vm_compute in Hm. injection Hm as <-. vm_compute. reflexivity.
Defined.
End ToyFile.

(** ** A restore ends, and its report is exact

    Sending a restore against any server: each round of a batch commits it,
    fails, removes an item or revives one for the first time; and whatever
    the server answers, the report counts exactly what was committed. *)

(** ** The writes of each type *)

(** Every write is of some type: none is a deletion. *)
Definition stored (l : list StagedWrite) : Prop := Forall (fun w => is_Some (write_type w)) l.

Lemma typed_app t l k : typed t (l ++ k) = (typed t l + typed t k)%nat.
Proof. unfold typed. by rewrite List.filter_app, length_app. Qed.

Lemma typed_total l : stored l -> (typed Login l + typed SecureNote l + typed CardItem l + typed Identity l + typed BankAccount l = length l)%nat.
Proof.
  unfold typed. induction 1 as [|w l [t Ht] _ IH]; [done|]. cbn [List.filter length]. rewrite Ht.
  destruct t; repeat (case_bool_decide; try congruence); cbn [length]; lia.
Qed.

Lemma take_write_perm id l w rest : take_write id l = (Some w, rest) -> w :: rest ≡ₚ l /\ sw_item w = id.
Proof.
  revert w rest. induction l as [|x l IH]; intros w rest; cbn [take_write]; [done|].
  destruct (Z.eqb_spec (sw_item x) id) as [|]; [by intros [= <- <-]|]. destruct (take_write id l) as [y l'].
  intros [= -> <-]. destruct (IH _ _ eq_refl) as [<- ?]. split; [|done]. apply Permutation_swap.
Qed.
Lemma take_write_none id l rest : take_write id l = (None, rest) -> rest = l /\ forall w, w ∈ l -> sw_item w <> id.
Proof.
  revert rest. induction l as [|x l IH]; intros rest; cbn [take_write].
  - intros [= <-]. split; [done|]. by intros w ?%elem_of_nil.
  - destruct (Z.eqb_spec (sw_item x) id) as [|Hx]; [done|]. destruct (take_write id l) as [y l']. intros [= -> <-].
    destruct (IH _ eq_refl) as [-> Hl]. split; [done|]. by intros w [->|Hw]%elem_of_cons; [|apply Hl].
Qed.

(** Reviving changes a base revision and nothing else. *)
Lemma revive_map {A} (f : StagedWrite -> A) id rev l : (forall w, f (with_base rev w) = f w) -> map f (revive id rev l) = map f l.
Proof.
  intros Hf. induction l as [|x l IH]; [done|]. cbn [revive]. destruct (sw_item x =? id); cbn [map]; [by rewrite Hf|by rewrite IH].
Qed.
Lemma revive_length id rev l : length (revive id rev l) = length l.
Proof. rewrite <- (length_map sw_item (revive id rev l)), revive_map by done. apply length_map. Qed.

(** ** Progress *)

(** The items of a batch not yet revived, and the items. *)
Definition left_over (st : RestoreState) : nat :=
  (length (rs_batch st) + length (List.filter (fun i => negb (bool_decide (i ∈ rs_revived st))) (map sw_item (rs_batch st))))%nat.

Lemma filter_incl_length {A} (f g : A -> bool) l :
  (forall x, f x = true -> g x = true) -> (length (List.filter f l) <= length (List.filter g l))%nat.
Proof.
  intros H. induction l as [|x l IH]; [done|]. cbn [List.filter]. specialize (H x).
  destruct (f x); [rewrite H by done; cbn [length]; lia|]. destruct (g x); cbn [length]; lia.
Qed.
Lemma filter_less {A} (f g : A -> bool) l x :
  (forall x, f x = true -> g x = true) -> x ∈ l -> f x = false -> g x = true ->
  (length (List.filter f l) < length (List.filter g l))%nat.
Proof.
  intros H Hx Hf Hg. induction l as [|y l IH]; [by apply elem_of_nil in Hx|]. cbn [List.filter].
  apply elem_of_cons in Hx as [->|Hx].
  - rewrite Hf, Hg. cbn [length]. pose proof (filter_incl_length f g l H). lia.
  - specialize (IH Hx). specialize (H y). destruct (f y); [rewrite H by done; cbn [length]; lia|]. destruct (g y); cbn [length]; lia.
Qed.

Lemma left_over_le st : (left_over st <= 2 * length (rs_batch st))%nat.
Proof.
  unfold left_over. etrans; [apply Nat.add_le_mono_l, List.filter_length_le|]. rewrite length_map. lia.
Qed.

Lemma resolve_left tombs st id :
  (left_over (resolve tombs st id) <= left_over st)%nat /\
  (id ∈ map sw_item (rs_batch st) -> (left_over (resolve tombs st id) < left_over st)%nat).
Proof.
  unfold resolve. destruct (List.find _ tombs) as [t|] eqn:Hf.
  - apply List.find_some in Hf as [_ Hf]. apply andb_true_iff in Hf as [E%Z.eqb_eq Hn]. rewrite E in Hn. unfold left_over. cbn [rs_batch rs_revived].
    rewrite revive_length, revive_map by done.
    assert (forall x, negb (bool_decide (x ∈ {[id]} ∪ rs_revived st)) = true -> negb (bool_decide (x ∈ rs_revived st)) = true) as Hsub.
    { intros x. rewrite !negb_true_iff, !bool_decide_eq_false. set_solver. }
    split; [pose proof (filter_incl_length _ _ (map sw_item (rs_batch st)) Hsub); lia|]. intros Hin.
    assert (negb (bool_decide (id ∈ ({[id]} ∪ rs_revived st : gset Z))) = false) as Hf by (rewrite bool_decide_eq_true_2 by set_solver; done).
    pose proof (filter_less _ _ _ id Hsub Hin Hf Hn). lia.
  - destruct (take_write id (rs_batch st)) as [[w|] rest] eqn:Ht; unfold left_over; cbn [rs_batch rs_revived].
    + apply take_write_perm in Ht as [Hp _]. pose proof (Permutation_length Hp) as Hl. cbn [length] in Hl.
      assert (length (List.filter (fun i => negb (bool_decide (i ∈ rs_revived st))) (map sw_item rest))
        <= length (List.filter (fun i => negb (bool_decide (i ∈ rs_revived st))) (map sw_item (rs_batch st))))%nat as H.
      { apply (Permutation_map sw_item), (filter_perm (fun i => negb (bool_decide (i ∈ rs_revived st)))), Permutation_length in Hp.
        cbn [map List.filter] in Hp. destruct (negb _); cbn [length] in Hp; lia. }
      split; [lia|]. intros _. lia.
    + apply take_write_none in Ht as [-> Hno]. split; [done|]. intros (w & -> & Hw)%list_elem_of_fmap. by apply Hno in Hw.
Qed.

Lemma resolves_left tombs named : forall st, (left_over (foldl (resolve tombs) st named) <= left_over st)%nat.
Proof.
  induction named as [|id named IH]; intros st; [done|]. cbn [foldl]. etrans; [apply IH|]. apply resolve_left.
Qed.

Section Ends.
Context {C : Crypto} {K : KeyLib} {U : Unicode} {J : JsonLib} {UL : UrlLib} {SL : SiteLib UL} {L : TotpLib} {H : HeaderLib}.
Context {AL : AppLib} {PL : PasskeyLib}.
Context {S1 : Serde ErrorBody} {S2 : Serde PullDto} {S3 : Serde WriteBody} {S4 : Serde WriteAckDto}.
Context {S5 : Serde ConflictsDto} {S6 : Serde FetchBody} {S7 : Serde FetchDto} {S8 : Serde HeaderDto}.
Context {S9 : Serde AttachmentPutBody} {S10 : Serde AttachmentDto}.
Context {W : Type} {T : Transport W} {P : Platform W}.

(** A transport reports a connection that failed, never a conflict. *)
Definition transport_plain : Prop :=
  forall rq (w w' : W) e l, transport_send rq w = (w', Err e) -> e <> Wire.Conflict l.

Lemma changes_no_conflict ws e l : mapM_result change_dto ws = Err e -> e <> Wire.Conflict l.
Proof.
  induction ws as [|w ws IH]; cbn [mapM_result]; [done|]. destruct (change_dto w) as [d|e'] eqn:Ew; cbn [mbind result_bind].
  - destruct (mapM_result change_dto ws) as [ds|e']; [done|]. intros [= <-]. by apply IH.
  - intros [= <-]. unfold change_dto in Ew. destruct (sw_overview w), (sw_details w); try (injection Ew as <-; discriminate).
    + destruct (_ || _); [injection Ew as <-; discriminate|done].
    + done.
Qed.

(** A conflict names items. *)
Lemma error_for_conflict st l : error_for st = Wire.Conflict l -> st = 409.
Proof.
  unfold error_for. destruct (_ || _); [done|]. destruct (st =? 404); [done|]. destruct (st =? 426); [done|].
  destruct (Z.eqb_spec st 409); [done|]. destruct (st =? 413); [done|]. destruct (st =? 429); [done|]. by destruct (in_range 400 499 st).
Qed.
Lemma error_from_conflict r l : error_from r = Wire.Conflict l -> status r = 409.
Proof.
  unfold error_from. destruct (_ && _); [done|]. destruct (_ && _); [done|]. destruct (_ && _); [done|].
  destruct (_ && _); [done|]. apply error_for_conflict.
Qed.

Lemma write_conflict s ws w w' l :
  transport_plain -> Wire.write s ws w = (w', Err (Wire.Conflict l)) -> l <> [].
Proof.
  intros Ht. unfold Wire.write. destruct (bool_decide _); [done|]. destruct (_ <? _)%nat; [done|]. intros Hw.
  unfold mbind, M_bind at 1, mlift in Hw. destruct (mapM_result change_dto ws) as [ds|e] eqn:Ed.
  2: { injection Hw as _ ->. by apply (changes_no_conflict _ _ l) in Ed. }
  unfold M_bind in Hw. destruct (post _ _ _ w) as [w1 [r|e]] eqn:Ep.
  2: { injection Hw as _ ->. unfold post, send in Ep. by apply (Ht _ _ _ _ l) in Ep. }
  injection Hw as _ Hw. unfold check_ack in Hw. destruct (Z.eqb_spec (status r) 409) as [|Hne].
  - unfold parse_body in Hw. destruct (from_json (body r)) as [dto|]; [|done]. cbn [ok_or mbind result_bind] in Hw.
    case_bool_decide as Hd; [done|]. injection Hw as <-. exact Hd.
  - unfold expect_ok in Hw. destruct (negb _).
    + cbn [mbind result_bind] in Hw. injection Hw as Hw. by apply error_from_conflict in Hw.
    + unfold parse_body in Hw. destruct (from_json (body r)) as [d|]; [|done]. cbn [ok_or mbind result_bind] in Hw.
      by destruct (negb _).
Qed.

Lemma restore_shrinks s : transport_plain -> shrinks (W := W) (restore_round s) left_over.
Proof.
  intros Ht st x x' st'. unfold restore_round. case_bool_decide as Hb; [done|].
  intros (r & x1 & Hask & Hr)%M_bind_Ok. unfold ask in Hask. destruct (Wire.write s (rs_batch st) x.2) as [w' r'] eqn:Ew.
  injection Hask as <- <-. destruct r' as [ack|e].
  { by apply M_bind_Ok in Hr as (n & x2 & _ & Hr). }
  destruct e as [ | | | | | |l| | | | | | ]; try (unfold failed in Hr; by apply M_bind_Ok in Hr as (u & x2 & _ & Hr)).
  pose proof (write_conflict _ _ _ _ _ Ht Ew) as Hl. cbv zeta in Hr.
  destruct (existsb _ (map cf_item l)) eqn:Ex; [unfold failed in Hr; by apply M_bind_Ok in Hr as (u & x2 & _ & Hr)|].
  apply M_bind_Ok in Hr as (tombs & x2 & _ & Hr). injection Hr as _ <-.
  destruct l as [|c l]; [done|]. cbn [map existsb] in Ex. apply orb_false_iff in Ex as [Ex _].
  apply negb_false_iff, existsb_exists in Ex as (w & Hw & Hid%Z.eqb_eq). cbn [map foldl].
  eapply Nat.le_lt_trans; [apply resolves_left|]. apply resolve_left. apply list_elem_of_fmap. exists w.
  split; [done|]. by apply list_elem_of_In.
Qed.

(** ** The report *)

Lemma typed_cons t w l : typed t (w :: l) = ((if bool_decide (write_type w = Some t) then 1 else 0) + typed t l)%nat.
Proof. unfold typed. cbn [List.filter]. by destruct (bool_decide _). Qed.

Lemma typed_perm t l k : l ≡ₚ k -> typed t l = typed t k.
Proof. intros H1. unfold typed. apply Permutation_length, filter_perm, H1. Qed.

Lemma typed_revive t id rev l : typed t (revive id rev l) = typed t l.
Proof. induction l as [|x l IH]; [done|]. cbn [revive]. destruct (sw_item x =? id); rewrite !typed_cons; [done|by rewrite IH]. Qed.

Lemma type_count_inj t t' : type_count t = type_count t' -> t = t'.
Proof. by destruct t, t'. Qed.

(** Between rounds: [done_] is committed and [rest] still waits behind the
    batch; the counts are those of the writes that are left. *)
Record accounts (si : StagedImport) (done_ rest : list StagedWrite) (st : RestoreState) : Prop := {
  ac_types : forall t, Import.get (type_count t) (rs_report st) = typed t (done_ ++ rs_batch st ++ rest);
  ac_writes : map plain (done_ ++ rs_batch st ++ rest) ⊆+ map plain (si_writes si);
  ac_done : rs_committed st = length done_;
  ac_skipped : (skipped_existing (si_report si) + length (si_writes si)
                <= skipped_existing (rs_report st) + length (done_ ++ rs_batch st ++ rest))%nat;
  ac_failed : Import.failed (rs_report st) = Import.failed (si_report si);
  ac_stored : stored (rs_batch st);
}.

Lemma chunks_concat {A} n (l : list A) : (0 < n)%nat -> concat (chunks (length l) n l) = l.
Proof.
  intros Hn. assert (forall fuel (l : list A), (length l <= fuel)%nat -> concat (chunks fuel n l) = l) as Hc; [|by apply Hc].
  induction fuel as [|fuel IH]; intros k Hk; [destruct k; [done|cbn in Hk; lia]|]. destruct k as [|x k]; [done|]. cbn [chunks].
  change (take n (x :: k) ++ concat (chunks fuel n (drop n (x :: k))) = x :: k).
  rewrite IH, take_drop; [done|]. rewrite length_drop. cbn [length] in *. lia.
Qed.

Lemma submseteq_map_perm {A B} (f : A -> B) l k m : l ⊆+ k -> map f k ⊆+ m -> map f l ⊆+ m.
Proof.
  intros [j Hj]%submseteq_Permutation Hm. etrans; [|exact Hm]. apply (Permutation_map f) in Hj. rewrite Hj, map_app.
  apply submseteq_inserts_r. done.
Qed.

Lemma stored_perm l k : l ≡ₚ k -> stored l -> stored k.
Proof. intros Hp. unfold stored. by rewrite Hp. Qed.

Lemma resolve_accounts si done_ rest tombs st id : accounts si done_ rest st -> accounts si done_ rest (resolve tombs st id).
Proof.
  intros [Ht Hw Hd Hs Hf Hst]. unfold resolve. destruct (List.find _ tombs) as [tb|].
  { split; cbn [rs_batch rs_report rs_committed]; try done.
    - intros t. rewrite Ht, !typed_app. by rewrite typed_revive.
    - rewrite !map_app, revive_map in * by done. done.
    - rewrite !length_app, revive_length in *. done.
    - unfold stored in *. clear -Hst. revert Hst. induction (rs_batch st) as [|x l IH]; cbn [revive]; [done|].
      rewrite Forall_cons. intros [Hx Hl]. destruct (sw_item x =? id); apply Forall_cons; split; try done. by apply IH. }
  destruct (take_write id (rs_batch st)) as [[w|] batch] eqn:Et.
  2: { apply take_write_none in Et as [-> _]. split; cbn [rs_batch rs_report rs_committed]; try done.
       - intros t. rewrite <- Ht. unfold restore_found_existing, bump. rewrite !get_update. by destruct t.
       - unfold restore_found_existing. cbn [mbind option_bind].
         change (skipped_existing (update CImported Nat.pred (bump CExisting (rs_report st)))) with (S (skipped_existing (rs_report st))). lia. }
  apply take_write_perm in Et as [Hp _].
  assert (done_ ++ batch ++ rest ⊆+ done_ ++ rs_batch st ++ rest) as Hsub.
  { apply submseteq_skips_l, submseteq_skips_r. rewrite <- Hp. by apply submseteq_cons. }
  apply (stored_perm _ (w :: batch)) in Hst; [|done]. apply Forall_cons in Hst as [[tw Hw0] Hst].
  assert (forall t, typed t (done_ ++ rs_batch st ++ rest) = ((if bool_decide (Some tw = Some t) then 1 else 0) + typed t (done_ ++ batch ++ rest))%nat) as Hty.
  { intros t. rewrite !typed_app, <- (typed_perm t _ _ Hp), typed_cons, Hw0. lia. }
  split; cbn [rs_batch rs_report rs_committed]; try done.
  - intros t. unfold restore_found_existing, bump. cbn [mbind option_bind]. unfold write_type in Hw0. rewrite Hw0, !get_update.
    rewrite !decide_False by (by destruct t). rewrite Ht, Hty. destruct (decide (type_count t = type_count tw)) as [E%type_count_inj|Hne].
    + subst t. rewrite bool_decide_eq_true_2 by done. lia.
    + rewrite bool_decide_eq_false_2 by congruence. lia.
  - by eapply submseteq_map_perm.
  - unfold restore_found_existing. cbn [mbind option_bind]. unfold write_type in Hw0. rewrite Hw0.
    assert (forall r, skipped_existing (update CImported Nat.pred (bump CExisting (update (type_count tw) Nat.pred r))) = S (skipped_existing r)) as ->
      by (intros r; by destruct tw).
    pose proof (Permutation_length Hp) as Hl. rewrite !length_app in *. cbn [length] in Hl. lia.
  - unfold restore_found_existing. cbn [mbind option_bind]. unfold write_type in Hw0. rewrite Hw0.
    assert (forall r, Import.failed (update CImported Nat.pred (bump CExisting (update (type_count tw) Nat.pred r))) = Import.failed r) as ->
      by (intros r; by destruct tw). done.
Qed.

Lemma resolves_account si done_ rest tombs named : forall st,
  accounts si done_ rest st -> accounts si done_ rest (foldl (resolve tombs) st named).
Proof. induction named as [|id named IH]; intros st Ha; [done|]. cbn [foldl]. by apply IH, resolve_accounts. Qed.

Lemma commit_batch_count ack ws n (x x' : HavenClient * W) n' : commit_batch ack ws n x = (x', Ok n') -> n' = (n + length ws)%nat.
Proof.
  revert n x. induction ws as [|w ws IH]; intros n x; cbn [commit_batch length].
  - intros [= _ <-]. lia.
  - intros (rev & x1 & _ & Hr)%M_bind_Ok. apply M_bind_Ok in Hr as (o & x2 & _ & Hr). apply IH in Hr. lia.
Qed.

(** A round keeps the accounts; the last one has committed its batch. *)
Lemma round_accounts s si done_ rest st (x x' : HavenClient * W) r :
  restore_round s st x = (x', Ok r) -> accounts si done_ rest st ->
  match r with
  | inl st' => accounts si done_ rest st'
  | inr st' => exists batch, rs_batch st' = [] /\ accounts si (done_ ++ batch) rest st'
  end.
Proof.
  intros Hr Ha. unfold restore_round in Hr. case_bool_decide as Hb.
  { injection Hr as _ <-. exists []. rewrite app_nil_r. by split. }
  apply M_bind_Ok in Hr as (a & x1 & _ & Hr). destruct a as [ack|e].
  - apply M_bind_Ok in Hr as (n & x2 & Hn & Hr). injection Hr as _ <-. apply commit_batch_count in Hn as ->.
    exists (rs_batch st). split; [done|]. destruct Ha as [Ht Hw Hd Hs Hf Hst].
    split; cbn [rs_batch rs_report rs_committed app]; rewrite ?length_app, <- ?app_assoc, ?Hd; try done.
    + rewrite !length_app in Hs. lia.
    + by apply Forall_nil.
  - destruct e as [ | | | | | |l| | | | | | ]; try (unfold failed in Hr; by apply M_bind_Ok in Hr as (u & x2 & _ & Hr)).
    cbv zeta in Hr. destruct (existsb _ (map cf_item l)); [unfold failed in Hr; by apply M_bind_Ok in Hr as (u & x2 & _ & Hr)|].
    apply M_bind_Ok in Hr as (tombs & x2 & _ & Hr). injection Hr as _ <-.
    by apply resolves_account.
Qed.

Lemma rounds_account s si done_ rest : forall fuel st (x x' : HavenClient * W) st',
  rounds (restore_round s) fuel st x = (x', Ok (Some st')) -> accounts si done_ rest st ->
  exists batch, rs_batch st' = [] /\ accounts si (done_ ++ batch) rest st'.
Proof.
  induction fuel as [|fuel IH]; intros st x x' st'; cbn [rounds]; [done|].
  intros (r & x1 & Hr & H1)%M_bind_Ok Ha. apply (round_accounts _ si done_ rest) in Hr; [|done]. destruct r as [st1|st1].
  - by eapply IH.
  - injection H1 as _ <-. done.
Qed.

(** The writes of the batches still to be sent. *)
Lemma restore_batches_ok s si : transport_plain -> forall batches report done_ (x : HavenClient * W) x' r,
  stored (concat batches) ->
  accounts si done_ [] {| rs_batch := concat batches; rs_revived := ∅; rs_report := report; rs_committed := length done_ |} ->
  restore_batches s batches report (length done_) x = (x', Ok r) ->
  exists report' n done', r = Some (report', n) /\
    accounts si done' [] {| rs_batch := []; rs_revived := ∅; rs_report := report'; rs_committed := n |}.
Proof.
  intros Hplain. induction batches as [|b batches IH]; intros report done_ x x' r Hst Ha; cbn [restore_batches].
  { intros [= _ <-]. by exists report, (length done_), done_. }
  cbn [concat] in *. apply Forall_app in Hst as [Hb Hrest].
  set (st0 := {| rs_batch := b; rs_revived := ∅; rs_report := report; rs_committed := length done_ |}).
  assert (accounts si done_ (concat batches) st0) as Ha0.
  { destruct Ha as [Ht Hw Hd Hs Hf _]. cbn [rs_batch rs_report rs_committed] in *.
    setoid_rewrite app_nil_r in Ht. rewrite app_nil_r in Hw, Hs. by split. }
  intros (r0 & x1 & Hr & H1)%M_bind_Ok. destruct r0 as [st1|].
  2: { exfalso. apply (rounds_end (restore_round s) left_over (S (2 * length b)) st0 x (restore_shrinks s Hplain)); [|by rewrite Hr].
       pose proof (left_over_le st0). cbn [rs_batch st0] in *. lia. }
  apply (rounds_account _ si done_ (concat batches)) in Hr as (batch & Hnil & [Ht Hw Hd Hs Hf _]); [|done].
  rewrite Hnil in *. rewrite Hd in H1. eapply IH; [done| |exact H1].
  split; cbn [rs_batch rs_report rs_committed app]; rewrite ?app_nil_r; done.
Qed.

End Ends.

(** ** A concrete restore through the server *)

Module ToyRestoreNet.
Import Blob.Toy ToyUnicode ToyUrl ToyTotp ToySite ToyCodec Sample Run ToyPasskey ToyRestore ToyNet.

Definition no_import : StagedImport := {| si_writes := []; si_report := Import.no_report |}.
Definition short : ItemInput :=
  {| in_type := SecureNote; in_title := [65]; in_username := None; in_urls := []; in_password := Keep;
     in_totp := Keep; in_notes := Keep; in_content := SetTo [66]; in_auto_sign_in := None;
     in_sign_in_with := None; in_identity := None; in_card := None; in_bank := None; in_sections := None; in_tags := None |}.
Definition small : OpenedBackup := {| ob_items := [backup_item 43 short; backup_item 44 short]; ob_unreadable := 0 |}.
Definition staged : StagedImport :=
  of_ok no_import (stage_restore random (of_ok no_plan (plan_restore ids small unlocked)) unlocked).

Lemma staged_counts t : Import.get (type_count t) (si_report staged) = typed t (si_writes staged).
Proof. destruct t; vm_compute; reflexivity. Qed.

End ToyRestoreNet.
