(* ===== verification/AccountFacts.v ===== *)
(** * What the account's flows send, write and keep

    [only_sends]: a client method reaches the server through requests of a
    given form only.  [keeps]: a step of the client leaves the vault alone.
    With them: a device that has signed in with OPAQUE never sends its auth
    key; activation writes no vault before the server agreed and the Secret
    Key was kept; a change of the master password that is reported done has
    been applied by the server; a paired device opens the vault its session
    is for. *)

From S2P Require Import Prelude Errors Text Blob Url Tags Totp Clean Card Identity.
From S2P Require Import CustomField Bank Sso Attachment Model Keys Store Lock Origin Health BuildItem.
From S2P Require Import Vault Items Sync Encoding SecretKey Pairing Dates Opaque Wire WireAccount Transport Device Client Account.
From S2P Require Import Lifecycle ClientPairing.

(** ** What a method sends *)

Section Sends.
Context {W : Type} {T : Transport W} (quiet : W -> W -> Prop) (P : HttpRequest -> Prop).

(** Every world [m] leaves is reached from the one it started in by sending
    requests that satisfy [P] and by [quiet] steps: any preorder with both
    relates them. *)
Definition only_sends {A} (m : M W SyncError A) : Prop :=
  forall R : W -> W -> Prop, PreOrder R -> (forall w w', quiet w w' -> R w w') ->
    (forall r w, P r -> R w (transport_send r w).1) -> forall w, R w (m w).1.

Lemma sends_ret {A} (a : A) : only_sends (mret a).
Proof. intros R HR _ _ w. reflexivity. Qed.
Lemma sends_lift {A} (r : result SyncError A) : only_sends (mlift r).
Proof. intros R HR _ _ w. reflexivity. Qed.
Lemma sends_throw {A} (e : SyncError) : only_sends (mthrow_ e : M W SyncError A).
Proof. intros R HR _ _ w. reflexivity. Qed.
Lemma sends_bind {A B} (m : M W SyncError A) (f : A -> M W SyncError B) :
  only_sends m -> (forall a, (exists w w', m w = (w', Ok a)) -> only_sends (f a)) -> only_sends (m ≫= f).
Proof.
  intros Hm Hf R HR Hq HP w. specialize (Hm R HR Hq HP w). unfold mbind, M_bind.
  destruct (m w) as [w' [a|e]] eqn:E; cbn [fst] in *; [|done]. etrans; [exact Hm|]. apply Hf; eauto.
Qed.
Lemma sends_send m p s b : P {| method := m; path := p; req_token := token <$> s; req_body := b |} -> only_sends (send m p s b).
Proof. intros Hp R HR _ HP w. by apply HP. Qed.
Lemma sends_caught {A} (m : M W SyncError A) : only_sends m -> only_sends (caught m).
Proof. intros Hm R HR Hq HP w. specialize (Hm R HR Hq HP w). unfold caught. by destruct (m w). Qed.
End Sends.

Create HintDb keeps.

Section Facts.
Context {C : Crypto} {K : KeyLib} {U : Unicode} {J : JsonLib} {H : HeaderLib} {UL : UrlLib}.
Context {B32 : Base32Lib} {B64 : Base64UrlLib} {HP : HpkeLib} {F : FormLib} {O : OpaqueKe} {FC : FormatChars}.
Context {TL : TotpLib} {AS : AccountSerde} {SD : Serde OnDisk} {UT : UuidText} {UP : UuidParse}.
Context {S1 : Serde ErrorBody} {S2 : Serde PullDto} {S3 : Serde WriteBody} {S4 : Serde WriteAckDto}.
Context {S5 : Serde ConflictsDto} {S6 : Serde FetchBody} {S7 : Serde FetchDto} {S8 : Serde HeaderDto}.
Context {W : Type} {KH : KeyHost W} {RL : ReqwestLib W} {AH : AppHost W}.
Variables (device_name : list Z) (localhost_http : bool).

Abbreviation Cl := (M (HavenClient * Local W) ClientError).
Abbreviation Http := (M (Local W) SyncError).

(** The two requests of an OPAQUE sign-in: they carry what the OPAQUE client
    made of the auth key, and no key. *)
Definition opaque_request (auth_key : list Z) (r : HttpRequest) : Prop :=
  (exists random state message email device, login_start random auth_key = Ok (state, message) /\
     r = {| method := Post; path := PPakeStart; req_token := None;
            req_body := Some (to_json {| ps_email := email; ps_credential_request := base64_encode message;
                                         ps_device_id := device |}) |}) \/
  (exists random state response finalization login device name,
     login_finish state random auth_key response = Ok finalization /\
     r = {| method := Post; path := PPakeFinish; req_token := None;
            req_body := Some (to_json {| pf_login_id := login; pf_credential_finalization := base64_encode finalization;
                                         pf_device_id := device; pf_device_name := name |}) |}).

(** A draw of the random generator. *)
Definition drawn (l l' : Local W) : Prop := l' = (on_host draw_opaque l).1.

Lemma pake_Ok {X} (r : result PakeError X) (l l' : Local W) x : pake r l = (l', Ok x) -> r = Ok x.
Proof. unfold pake. intros [_ Hr]%mlift_Ok. by destruct r; [injection Hr as ->|]. Qed.

Lemma draws_sent P : only_sends drawn P (opaque_draws : Http Draws).
Proof.
  intros R _ Hq _ l. apply Hq. unfold drawn, opaque_draws. by destruct (on_host draw_opaque l).
Qed.

Lemma login_pake_sends random email auth_key acct device name :
  only_sends drawn (opaque_request auth_key) (login_pake random email auth_key acct device name : Http _).
Proof.
  unfold login_pake. apply sends_bind; [apply sends_lift|]. intros [state m] (l & l' & Hs%pake_Ok).
  apply sends_bind; [apply sends_send; left; by exists random.1, state, m, email, device|]. intros r _.
  apply sends_bind; [apply sends_lift|]. intros dto _. apply sends_bind; [apply sends_lift|]. intros [] _.
  apply sends_bind; [apply sends_lift|]. intros response _. apply sends_bind; [apply sends_lift|].
  intros fin (l1 & l1' & Hf%pake_Ok).
  apply sends_bind; [apply sends_send; right; by exists random.2, state, response, fin, (psd_login_id dto), device, name|].
  intros r' _. apply sends_lift.
Qed.

(** A device that has signed in to this account with OPAQUE never sends
    the auth key again: whatever the server answers, a sign-in sends nothing
    but the OPAQUE client's messages.  A device that has not falls back to
    the legacy login only after an OPAQUE sign-in that was refused as
    unauthorized or not found; any other end is the end. *)
Lemma confirmed_key_stays email auth_key acct device :
  only_sends drawn (opaque_request auth_key) (sign_in_with_key device_name email auth_key acct device true : Http _) /\
  forall l, match opaque_draws l with
            | (l1, Ok random) =>
                let '(l2, r) := login_pake random email auth_key acct device device_name l1 in
                match r with
                | Ok s => sign_in_with_key device_name email auth_key acct device false l = (l2, Ok (s, true))
                | Err e => if may_fall_back e then True
                           else sign_in_with_key device_name email auth_key acct device false l = (l2, Err e)
                end
            | _ => False
            end.
Proof.
  split.
  - unfold sign_in_with_key. apply sends_bind; [apply draws_sent|]. intros random _.
    apply sends_bind; [apply sends_caught, login_pake_sends|].
    intros [s|e] _; [apply sends_ret|]. cbn [orb]. apply sends_throw.
  - intros l. unfold sign_in_with_key, opaque_draws, caught, mbind, M_bind.
    destruct (on_host draw_opaque l) as [l1 random].
    destruct (login_pake random email auth_key acct device device_name l1) as [l2 [s|e]]; [done|].
    by destruct (may_fall_back e) eqn:Hf.
Qed.

(** ** What a step leaves alone *)

Definition keeps {A} (m : Cl A) : Prop := forall s, vault_ (m s).1.1 = vault_ s.1.

Lemma keeps_ret {A} (a : A) : keeps (mret a).
Proof. done. Qed.
Lemma keeps_lift {A} (r : result ClientError A) : keeps (mlift r).
Proof. done. Qed.
Lemma keeps_throw {A} (e : ClientError) : keeps (mthrow_ e : Cl A).
Proof. done. Qed.
Lemma keeps_bind {A B} (m : Cl A) (f : A -> Cl B) : keeps m -> (forall a, keeps (f a)) -> keeps (m ≫= f).
Proof.
  intros Hm Hf s. specialize (Hm s). unfold mbind, M_bind. destruct (m s) as [s' [a|e]]; cbn [fst] in *; [|done].
  by rewrite Hf.
Qed.
Lemma keeps_world {A} (f : Local W -> Local W * A) : keeps (world f).
Proof. intros s. unfold world. by destruct (f s.2). Qed.
Lemma keeps_ask {A} (m : Http A) : keeps (ask m).
Proof. intros s. unfold ask. by destruct (m s.2). Qed.
Lemma keeps_client f : (forall c, vault_ (f c) = vault_ c) -> keeps (client f).
Proof. intros Hf s. apply Hf. Qed.
Lemma keeps_read {A} (f : VaultService -> Result A) : keeps (read_vault f).
Proof. intros s. unfold read_vault, with_vault, mread. by destruct (storage_error s.1). Qed.
Lemma keeps_read_id : keeps (read_vault Ok).
Proof. apply keeps_read. Qed.
Lemma keeps_as_error {A} e (m : Cl A) : keeps m -> keeps (as_error e m).
Proof. intros Hm s. specialize (Hm s). unfold as_error. by destruct (m s). Qed.
Lemma keeps_server_for url : keeps (server_for localhost_http url).
Proof. intros s. unfold server_for. repeat case_match; done. Qed.
Lemma keeps_time : keeps time.
Proof. done. Qed.
Lemma keeps_if {A} (b : bool) (m n : Cl A) : keeps m -> keeps n -> keeps (if b then m else n).
Proof. by destruct b. Qed.
#[local] Hint Resolve keeps_ret keeps_lift keeps_throw keeps_world keeps_ask keeps_read keeps_as_error
  keeps_server_for keeps_time keeps_if : keeps.
(** Binds are taken apart by hand, so that a chain of steps is one tactic. *)
Local Ltac keep := repeat (apply keeps_bind; [|intros ?]); auto with keeps.

Lemma keeps_core {A} (r : Result A) : keeps (core r).
Proof. apply keeps_lift. Qed.
Lemma keeps_dev {A} (m : D A) : keeps (dev m).
Proof. apply keeps_world. Qed.
Lemma keeps_draw n : keeps (draw n).
Proof. apply keeps_world. Qed.
#[local] Hint Resolve keeps_core keeps_dev keeps_draw : keeps.

Lemma keeps_kdf : keeps kdf_generate.
Proof. unfold kdf_generate. keep. Qed.
Lemma keeps_no_vault : keeps no_vault.
Proof. unfold no_vault. keep. Qed.
#[local] Hint Resolve keeps_kdf keeps_no_vault : keeps.

Lemma keeps_prepare invite password : keeps (prepare_activation localhost_http invite password).
Proof. unfold prepare_activation. keep. Qed.
Lemma keeps_key acct key : keeps (keep_secret_key acct key).
Proof. unfold keep_secret_key. keep. by case_match. Qed.
Lemma keeps_asked {A} (m : Http A) : keeps (asked m).
Proof. unfold asked. keep. Qed.
#[local] Hint Resolve keeps_prepare keeps_key keeps_asked : keeps.

(** A step that left the vault alone, taken off the front of a run. *)
Lemma keeps_step {A} (m : Cl A) (s s' : HavenClient * Local W) r : keeps m -> m s = (s', r) -> vault_ s'.1 = vault_ s.1.
Proof. intros Hm E. specialize (Hm s). by rewrite E in Hm. Qed.

(** ** The Secret Key *)

Definition holds_key (acct : Z) (key : list Z) (d : Device) : Prop :=
  exists st, cached d = Some {| ca_account := acct; ca_text := Some (to_text key); ca_storage := st |}.

Lemma set_secret_key_holds acct key (s s' : Device * W) st :
  set_secret_key acct key s = (s', Ok st) -> holds_key acct key s'.1.
Proof.
  unfold set_secret_key, dbind, dget, dmodify, dret. destruct (store_set acct (to_text key) s) as [s1 r].
  match goal with |- context [let '(_, _) := ?m s1 in _] => destruct (m s1) as [s2 found] end.
  destruct (negb found && negb (file_fallback s2.1)); [done|].
  destruct (if found then _ else _) as [k where_]. destruct (save _) as [s3 [[]|]]; [|done].
  intros [= <- _]. by exists where_.
Qed.

Lemma holds_key_found `{!Sha256Ideal C, !Base32Laws B32} acct key (d : Device) (w : W) :
  is_secret_key key -> holds_key acct key d -> secret_key acct (d, w) = ((d, w), Some key).
Proof.
  intros Hk [st Hc]. unfold secret_key, secret_key_text, dbind, resolve, dret. cbn [fst]. rewrite Hc. cbn [ca_account ca_text].
  rewrite Z.eqb_refl. cbn. destruct (secret_key_reads_back [] key) as [Hr _]. by rewrite Hr.
Qed.

Lemma keep_secret_key_holds acct key (s s' : HavenClient * Local W) :
  keep_secret_key acct key s = (s', Ok ()) -> holds_key acct key (lc_device s'.2).
Proof.
  unfold keep_secret_key. intros (r & s1 & Hd & Hr)%M_bind_Ok. destruct r as [st|]; [|done]. injection Hr as <-.
  unfold dev, world, on_device in Hd. destruct (set_secret_key acct key _) as [[d h] r] eqn:E.
  injection Hd as <- ->. cbn. by apply set_secret_key_holds in E.
Qed.

(** ** Activation *)

Definition auth_key_of (secret : list Z) (k : KdfParams) (a : AccountRef) (auth_key : list Z) : Prop :=
  exists m, derive_auth_key_from_master m secret a = Ok auth_key /\ exists password, derive_master_key password k = Ok m.

Lemma prepared_auth_key password a params now secret vault vk nonce made :
  prepare_new_account_vault password a params now secret vault vk nonce = Ok made ->
  auth_key_of (av_secret_key made) (Store.kdf (prep_header (av_prepared made))) a (av_auth_key made).
Proof.
  unfold prepare_new_account_vault. intros ([] & _ & Hp)%bind_Ok.
  apply bind_Ok in Hp as (sk & _ & Hp). apply bind_Ok in Hp as (m & Hm & Hp). apply bind_Ok in Hp as (kek & _ & Hp).
  apply bind_Ok in Hp as (auth & Ha & Hp). apply bind_Ok in Hp as (k & _ & Hp). apply bind_Ok in Hp as (w & _ & Hp).
  apply (inj Ok) in Hp. subst made. exists m. split; [exact Ha|]. by exists password.
Qed.

Lemma core_Ok {A} (r : Result A) (s s' : HavenClient * Local W) a : core r s = (s', Ok a) -> s' = s /\ r = Ok a.
Proof. unfold core. intros [-> Hr]%mlift_Ok. split; [done|]. destruct r; [by injection Hr as ->|done]. Qed.

Lemma prepared_activation invite password s s' a url made header :
  prepare_activation localhost_http invite password s = (s', Ok (a, url, made, header)) ->
  auth_key_of (av_secret_key made) (Store.kdf (prep_header (av_prepared made))) a (av_auth_key made).
Proof.
  unfold prepare_activation. intros Hp.
  do 2 apply M_bind_Ok in Hp as (? & ? & _ & Hp).
  apply M_bind_Ok in Hp as (i & ? & _ & Hp). apply M_bind_Ok in Hp as (e & ? & _ & Hp).
  apply M_bind_Ok in Hp as (? & ? & _ & Hp). apply M_bind_Ok in Hp as (kdf & ? & _ & Hp).
  apply M_bind_Ok in Hp as (now & ? & _ & Hp). apply M_bind_Ok in Hp as (secret & ? & _ & Hp).
  apply M_bind_Ok in Hp as (vault & ? & _ & Hp). apply M_bind_Ok in Hp as (vk & ? & _ & Hp).
  apply M_bind_Ok in Hp as (nonce & ? & _ & Hp). apply M_bind_Ok in Hp as (m & ? & [_ Hm]%core_Ok & Hp).
  apply M_bind_Ok in Hp as (nonce2 & ? & _ & Hp). apply M_bind_Ok in Hp as (h & ? & _ & Hp).
  injection Hp as _ <- _ <- _. by eapply prepared_auth_key.
Qed.

(** The server agreed to an activation, asked by a device that held the
    Secret Key the activation's auth key was made with. *)
Definition activated_with_key_kept : Prop :=
  exists random (act : Activation) (a : AccountRef) secret (w w' : Local W) x,
    WireAccount.activate random act w = (w', Ok x) /\
    act_email act = ref_email a /\ auth_key_of secret (act_kdf act) a (act_auth_key act) /\
    holds_key (ref_id a) secret (lc_device w).

(** Activation changes this device's vault only after the server agreed,
    and the server is asked only once this device holds the Secret Key: an
    activation that was refused, or could not be made, leaves the vault
    exactly as it was, and an account the server has never loses the key its
    vault opens with. *)
Lemma activation_keeps_key_first invite password s :
  let s' := (activate localhost_http invite password s).1 in
  vault_ s'.1 = vault_ s.1 \/ activated_with_key_kept.
Proof.
  unfold activate. unfold mbind at 1, M_bind at 1.
  destruct (prepare_activation localhost_http invite password s) as [s1 [[[[a url] made] header]|e]] eqn:Ep; cbn [fst].
  2:{ left. by eapply keeps_step; [|exact Ep]; auto with keeps. }
  pose proof (prepared_activation _ _ _ _ _ _ _ _ Ep) as Hauth.
  apply keeps_step in Ep as Ev; [|by auto with keeps]. rewrite <- Ev.
  unfold mbind at 1, M_bind at 1.
  destruct (keep_secret_key (ref_id a) (av_secret_key made) s1) as [s2 [[]|e]] eqn:Ek; cbn [fst].
  2:{ left. by eapply keeps_step; [|exact Ek]; auto with keeps. }
  apply keep_secret_key_holds in Ek as Hk. apply keeps_step in Ek; [|by auto with keeps]. rewrite <- Ek.
  unfold mbind at 1, M_bind at 1.
  match goal with |- context [asked ?m s2] => destruct (asked m s2) as [s3 [x|e]] eqn:Ea end; cbn [fst].
  2:{ left. by eapply keeps_step; [|exact Ea]; auto with keeps. }
  right. unfold asked in Ea. apply M_bind_Ok in Ea as (r & s4 & Ha & Hr). apply mlift_Ok in Hr as [_ Hr].
  unfold ask in Ha. match type of Ha with context [let '(_, _) := ?m _ in _] => destruct (m s2.2) as [w' r'] eqn:Ew end.
  injection Ha as _ ->. destruct r as [x'|]; [|done]. apply M_bind_Ok in Ew as (random & w & Hd & Hw).
  eexists random, _, a, (av_secret_key made), w, w', x'. split_and!; [exact Hw|done|exact Hauth|].
  unfold opaque_draws in Hd. unfold on_host in Hd. destruct (draw_opaque _) as [h d]. by injection Hd as <- <-.
Qed.

(** ** A paired device *)

Lemma with_vault_Ok {A} (m : V A) (s s' : HavenClient * Local W) a :
  with_vault m s = (s', Ok a) -> m (vault_ s.1) = (vault_ s'.1, Ok a) /\ s'.2 = s.2.
Proof.
  unfold with_vault. destruct (storage_error s.1); [done|]. destruct (m (vault_ s.1)) as [v [x|e]] eqn:E; [|done].
  by intros [= <- ->].
Qed.

Lemma keeps_tell e : keeps (client (tell e)).
Proof. by apply keeps_client. Qed.
#[local] Hint Resolve keeps_tell : keeps.

Lemma create_vault_opens p rec (s s' : HavenClient * Local W) n :
  create_vault p rec s = (s', Ok n) ->
  exists ses, Vault.state (vault_ s'.1) = SUnlocked /\ Vault.session_ (vault_ s'.1) = Some ses /\
    ses_vault_id ses = Store.vault_id (prep_header p) /\ ses_vault_key ses = prep_vault_key p.
Proof.
  unfold create_vault. intros (nonce & s1 & _ & Hc)%M_bind_Ok. apply M_bind_Ok in Hc as ([] & s2 & Hv & Hc).
  apply with_vault_Ok in Hv as [Hv _].
  assert (vault_ s'.1 = vault_ s2.1) as ->.
  { eapply keeps_step; [|exact Hc]. keep. }
  apply Lifecycle.create_inv in Hv as (st & key & ident & blob & _ & _ & _ & _ & _ & _ & _ & ->). by eexists.
Qed.

Lemma keeps_set_online session : keeps (client (set_online session)).
Proof. by apply keeps_client. Qed.
#[local] Hint Resolve keeps_set_online : keeps.

Lemma keeps_go_online session opened : keeps (go_online_after_sign_in session opened).
Proof. unfold go_online_after_sign_in. keep. Qed.

Lemma keeps_put_pairing p : keeps (put_pairing p).
Proof. apply keeps_world. Qed.

Lemma as_error_Ok {A} e (m : Cl A) (s s' : HavenClient * Local W) a : as_error e m s = (s', Ok a) -> m s = (s', Ok a).
Proof. unfold as_error. destruct (m s) as [s1 [x|]]; [|done]. by intros [= -> ->]. Qed.

Lemma prepared_paired header payload paired :
  prepare_paired_sign_in header payload = Ok paired ->
  Store.vault_id (prep_header (ps_prepared paired)) = pp_vault_id payload /\
  prep_vault_key (ps_prepared paired) = pp_vault_key payload.
Proof.
  unfold prepare_paired_sign_in. intros (file & _ & Hp)%bind_Ok. apply bind_Ok in Hp as (record & _ & Hp).
  destruct (Z.eqb_spec (Store.vault_id record) (pp_vault_id payload)) as [Hv|]; [|done].
  cbn [negb] in Hp. apply bind_Ok in Hp as (key & _ & Hp). destruct (negb _); [done|].
  apply bind_Ok in Hp as (e & _ & Hp). apply (inj Ok) in Hp. by subst paired.
Qed.

Lemma finish_pairing_opens p session envelope (s s' : HavenClient * Local W) st :
  finish_pairing localhost_http p session envelope s = (s', Ok st) ->
  exists payload ses, open_envelope (pend_keys p) (pend_server p) (pend_id p) envelope = Ok payload /\
    pp_account_id payload = sess_account_id session /\ pp_vault_id payload = sess_vault_id session /\
    Vault.state (vault_ s'.1) = SUnlocked /\ Vault.session_ (vault_ s'.1) = Some ses /\
    ses_vault_id ses = sess_vault_id session /\ ses_vault_key ses = pp_vault_key payload.
Proof.
  unfold finish_pairing. intros (payload & s1 & [_ Ho]%as_error_Ok%core_Ok & Hr)%M_bind_Ok.
  destruct (Z.eqb_spec (pp_account_id payload) (sess_account_id session)) as [Ha|]; [|done].
  destruct (Z.eqb_spec (pp_vault_id payload) (sess_vault_id session)) as [Hv|]; [|done]. cbn [negb orb] in Hr.
  apply M_bind_Ok in Hr as ([] & s2 & _ & Hr). apply M_bind_Ok in Hr as (remote & s3 & _ & Hr).
  apply M_bind_Ok in Hr as (paired & s4 & [_ Hp]%as_error_Ok%core_Ok & Hr).
  apply M_bind_Ok in Hr as (opened & s5 & Hc & Hr). apply M_bind_Ok in Hr as ([] & s6 & Hk & Hr).
  apply create_vault_opens in Hc as (ses & Hst & Hses & Hid & Hkey).
  apply keeps_step in Hk; [|auto with keeps]. apply keeps_step in Hr; [|apply keeps_go_online].
  rewrite Hr, Hk. exists payload, ses. split_and!; try done.
  - destruct (prepared_paired _ _ _ Hp). congruence.
  - destruct (prepared_paired _ _ _ Hp). congruence.
Qed.

Lemma send_keeps_pairing (r : HttpRequest) (l : Local W) : lc_pairing (transport_send r l).1 = lc_pairing l.
Proof.
  unfold transport_send, local_transport. destruct (lc_server l) as [[u base]|]; [|done]. by destruct (http_send _ _ _).
Qed.

Lemma claim_keeps_pairing id secret (l : Local W) : lc_pairing (claim_pairing id secret l).1 = lc_pairing l.
Proof.
  assert (only_sends (fun _ _ => False) (fun _ => True) (claim_pairing id secret : Http Claim)) as Hs.
  { unfold claim_pairing. apply sends_bind; [apply sends_lift|]. intros p _. apply sends_bind; [by apply sends_send|].
    intros r _. apply sends_bind; [apply sends_lift|]. intros d _. apply sends_lift. }
  symmetry. apply (Hs (fun l l' => lc_pairing l = lc_pairing l')); [split; [done|]; intros ???; congruence|done|].
  intros r w _. by rewrite send_keeps_pairing.
Qed.

Lemma server_for_keeps_pairing url (s : HavenClient * Local W) : lc_pairing (server_for localhost_http url s).1.2 = lc_pairing s.2.
Proof. unfold server_for. repeat case_match; done. Qed.

(** The new device of a pairing opens the vault its session is for.  When
    a poll ends in an approval, the envelope opened under the key and the
    claim of the code this device showed, it names the account and the vault
    of the session the server gave, and the vault now open is that vault,
    under the key the envelope carried; the server alone cannot choose
    either. *)
Lemma paired_vault_is_the_sessions s :
  match poll_pairing localhost_http s with
  | (s', Ok (PollApproved _)) =>
      exists p session envelope payload ses, lc_pairing s.2 = Some p /\
        open_envelope (pend_keys p) (pend_server p) (pend_id p) envelope = Ok payload /\
        pp_account_id payload = sess_account_id session /\ pp_vault_id payload = sess_vault_id session /\
        Vault.state (vault_ s'.1) = SUnlocked /\ Vault.session_ (vault_ s'.1) = Some ses /\
        ses_vault_id ses = sess_vault_id session /\ ses_vault_key ses = pp_vault_key payload
  | _ => True
  end.
Proof.
  destruct (poll_pairing localhost_http s) as [s' [[| | |st]|]] eqn:E; try done. revert E.
  unfold poll_pairing. intros (p0 & s1 & Hp & Hr)%M_bind_Ok. injection Hp as <- Hp.
  apply M_bind_Ok in Hr as (p & s2 & [-> Hq]%mlift_Ok & Hr). destruct p0 as [p0|]; [|done]. injection Hq as ->.
  apply M_bind_Ok in Hr as ([] & s3 & Hsf & Hr). apply M_bind_Ok in Hr as (answer & s4 & Ha & Hr).
  destruct answer as [[| |session envelope]|[]]; try done; try (by apply M_bind_Ok in Hr as (? & ? & _ & [=])).
  apply M_bind_Ok in Hr as (now & s5 & Hn & Hr). destruct now as [taken|]; [|done].
  assert (taken = p) as ->.
  { injection Hn as _ Hn. pose proof (claim_keeps_pairing (pend_id p) (pend_claim p) s3.2) as Hk.
    pose proof (server_for_keeps_pairing (pend_server p) s) as Hk'. rewrite Hsf in Hk'. unfold ask in Ha.
    destruct (claim_pairing _ _ s3.2) as [w r]. injection Ha as <- _. cbn [fst snd] in *. congruence. }
  rewrite bool_decide_eq_true_2 in Hr by done. apply M_bind_Ok in Hr as ([] & s6 & _ & Hr).
  apply M_bind_Ok in Hr as (st' & s7 & Hf & Hr). injection Hr as <- <-.
  destruct (finish_pairing_opens p session envelope s6 s7 st' Hf) as (payload & ses & ? & ? & ? & ? & ? & ? & ?).
  by exists p, session, envelope, payload, ses.
Qed.

(** ** A change of the master password *)

(** The server has the new key wrap: it acknowledged the change, or serves
    the new parameters for this account. *)
Definition server_took (a : AccountRef) (t : RekeyTicket) (r : Rekeyed) : Prop :=
  (exists r1 r2 session (c : CredentialChange) (w w' : Local W) rev, change_credentials r1 r2 session c w = (w', Ok rev) /\
     cc_kdf c = re_kdf r /\ cc_new_auth_key c = new_auth_key r /\
     cc_base_header_revision c = as_i64 (Store.revision (rk_header t))) \/
  (exists (w w' : Local W) p, auth_params (ref_email a) w = (w', Ok p) /\ params_account p = ref_id a /\ params_kdf p = re_kdf r).

(** The server said the account is gone. *)
Definition header_of (s : HavenClient * Local W) : Result (option HeaderRecord) := Store.header (store (vault_ s.1)).

Lemma ask_Ok {A} (m : Http A) (s s' : HavenClient * Local W) (r : result SyncError A) :
  ask m s = (s', Ok r) -> s'.1 = s.1 /\ m s.2 = (s'.2, r).
Proof. unfold ask. destruct (m s.2) as [w x]. by intros [= <- ->]. Qed.

Lemma keeps_own_server : keeps (own_server localhost_http).
Proof. unfold own_server. keep. Qed.

Lemma keeps_vault_account : keeps vault_account.
Proof. unfold vault_account. keep. Qed.
Lemma keeps_own_key acct : keeps (own_secret_key acct).
Proof. unfold own_secret_key. keep. Qed.

(** A monadic step that fails at the front of a run. *)
Lemma bind_fails {X Y} (x : Result X) (f : X -> V Y) (v v' : VaultService) e :
  (mlift x ≫= f) v = (v', Err e) -> v' = v \/ exists a, x = Ok a /\ f a v = (v', Err e).
Proof. unfold mbind, M_bind, mlift. destruct x as [a|]; [|intros [= <- _]; by left]. intros E. right. by exists a. Qed.

Lemma commit_rekey_err t r rev v v' e : commit_rekey t (Ok r) rev v = (v', Err e) -> Store.header (store v') = Store.header (store v).
Proof.
  unfold commit_rekey. intros E. rewrite run_mget in E. do 7 (cbv beta zeta in E; apply bind_fails in E as [->|(? & _ & E)]; [done|]).
  unfold mbind, M_bind, on_store, update_key_wrap in E. repeat case_match; simplify_eq; done.
Qed.

Lemma sent_change a t old r header confirmed (s s' : HavenClient * Local W) rev :
  send_change localhost_http a t old r header confirmed s = (s', Ok rev) ->
  server_took a t r /\ vault_ s'.1 = vault_ s.1.
Proof.
  unfold send_change. intros (session & s1 & Hss & Hs)%M_bind_Ok. apply M_bind_Ok in Hs as ([] & s2 & Ho & Hs).
  apply M_bind_Ok in Hs as (sent & s3 & Hsent & Hs).
  apply keeps_step in Hss; [|done]. apply keeps_step in Ho; [|apply keeps_own_server].
  assert (vault_ s3.1 = vault_ s.1) as Hv by (apply keeps_step in Hsent; [congruence|auto with keeps]).
  apply ask_Ok in Hsent as [_ Hc]. rewrite <- Hv.
  assert (forall A (x : Cl A) v, keeps x -> x s3 = (s', Ok v) -> vault_ s'.1 = vault_ s3.1) as Hrest.
  { intros A x v Hx Hrun. by apply keeps_step in Hrun. }
  split; [|destruct sent as [rv|[]]; try (by eapply Hrest; [|exact Hs]; keep; repeat case_match; auto with keeps);
            try done; by apply M_bind_Ok in Hs as (? & ? & _ & [=])].
  clear Hrest. destruct sent as [rv|e].
  - left. apply M_bind_Ok in Hc as (r1 & w1 & _ & Hc). apply M_bind_Ok in Hc as (r2 & w2 & _ & Hc).
    by eexists r1, r2, session, _, _, _, rv.
  - assert (forall now s4, ask (auth_params (ref_email a)) s3 = (s4, Ok now) ->
        change_outcome (match now with Ok p => if params_account p =? ref_id a then Some (params_kdf p) else None | Err _ => None end)
          old (re_kdf r) = Applied -> server_took a t r) as Happ.
    { intros now s4 [_ Hn]%ask_Ok Hout. destruct now as [p|]; [|done].
      destruct (Z.eqb_spec (params_account p) (ref_id a)); [|done]. right. exists s3.2, s4.2, p. split_and!; try done.
      unfold change_outcome in Hout. destruct (bool_decide_reflect (params_kdf p = re_kdf r)); [done|]. by destruct (bool_decide _). }
    destruct e; try (by apply M_bind_Ok in Hs as (? & ? & _ & [=])); try done;
      apply M_bind_Ok in Hs as (now & s4 & Hn & Hs); apply (Happ _ _ Hn); by destruct (change_outcome _ _ _).
Qed.

(** The header after a new key wrap. *)
Lemma key_wrap_header store h k w scheme rev st m :
  Store.header store = Ok (Some h) -> rev = u64_saturating_add (Store.revision h) 1 ->
  update_key_wrap k w scheme rev store = (st, Ok ()) ->
  exists h', Store.header (raise_max_header_rev m st) = Ok (Some h') /\ Store.kdf h' = k /\ wrapped_vault_key h' = w.
Proof.
  intros Hh Hrev Hu. destruct (header_inv _ _ Hh) as (row & Hrow & Hf & Hr & _ & _ & _ & _ & Hrv).
  unfold update_key_wrap in Hu. destruct (i64_max <? rev); [done|]. rewrite Hrow in Hu. injection Hu as <-.
  assert (0 <= rev) by (rewrite Hrev; unfold u64_saturating_add, clamp, u64_max; lia).
  exists {| Store.format_version := row_format_version row; Store.vault_id := row_vault_id row; Store.kdf := k;
    wrapped_vault_key := w; Store.created_at := row_created_at row; key_scheme := scheme; Store.revision := rev |}.
  split; [|done]. unfold Store.header. cbn -[in_range]. rewrite Hf. cbn [negb guard_err mbind result_bind]. destruct scheme. cbn.
  unfold guard_err. destruct (Z.ltb_spec rev 0); [lia|done].
Qed.

End Facts.
