(* ===== verification/Protocol.v ===== *)
(** * Protocol: the messages between the extension and the desktop

    havenkeys-protocol: the requests and answers, what each may hold
    ([field_sizes_ok], [Response::is_valid]), how one request is read
    ([parse_request]) and one answer accepted ([Outgoing::parse]), and the
    frames they travel in ([frame.rs]).  What serde_json and the derived
    (de)serializers do is the class [WireSerde]; a [Read] is the list of what
    its calls return.  Most types mirror the core's: a client of this file
    imports it before the core's files and names it in full. *)

From S2P Require Import Prelude Text.

(** ** Limits (lib.rs) *)

Definition PROTOCOL_VERSION : Z := 1.
Definition MAX_REQUEST_BYTES : Z := 16 * 1024.
Definition MAX_RESPONSE_BYTES : Z := 256 * 1024.
Definition MAX_URL_BYTES : Z := 4096.
Definition MAX_SECRET_BYTES : Z := 4 * 4096.
Definition MAX_USERNAME_BYTES : Z := 4 * 512.
Definition MAX_TITLE_BYTES : Z := 4 * 256.
Definition MAX_ACCOUNT_BYTES : Z := 4 * 254.
Definition MAX_PROVIDER_ORIGINS : nat := 4.
Definition MAX_PROVIDER_ACCOUNTS : nat := 10.
Definition MAX_MATCHES : nat := 50.
Definition MAX_MATCH_TAGS : nat := 20.
Definition MAX_MATCH_TAG_BYTES : Z := 4 * 32.
Definition MIN_PASSWORD_LENGTH : Z := 8.
Definition MAX_PASSWORD_LENGTH : Z := 128.
Definition MAX_IDENTITY_ROLES : nat := 40.
Definition MAX_IDENTITY_VALUE_BYTES : Z := 4096.
Definition MAX_CARD_FRAMES : nat := 8.
Definition MAX_CARD_ROLES : nat := 8.
Definition MAX_CARD_VALUE_BYTES : Z := 4 * 256.
Definition MAX_CARD_NUMBER_BYTES : Z := 64.
Definition MAX_CARD_CODE_BYTES : Z := 16.
Definition CREDENTIAL_ID_BYTES : Z := 16.
Definition MAX_CHALLENGE_BYTES : Z := 4096.
Definition MAX_USER_HANDLE_BYTES : Z := 64.
Definition MAX_RP_ID_BYTES : Z := 253.
Definition MAX_LOOKALIKE_BYTES : Z := 253.
Definition MAX_CREDENTIAL_LIST : nat := 64.
Definition COSE_ES256 : Z := -7.
Definition MAX_BANK_CHARS : nat := 64.
Definition MAX_ACCOUNT_LAST3_CHARS : nat := 6.

(** ** Requests (message.rs) *)

(** A secret on the wire is its text. *)
Abbreviation WireSecret := (list Z) (only parsing).

Inductive IdentityRole :=
| FullName | FirstName | MiddleName | LastName | Email | Phone | BirthDate | BirthDay | BirthMonth | BirthYear
| Company | Street | Number | Complement | AddressLine1 | AddressLine2 | Neighborhood | City | State | PostalCode
| Country | Username | Cpf | Rg | Passport | DriversLicense.
#[export] Instance IdentityRole_eq_dec : EqDecision IdentityRole.
Proof. solve_decision. Defined.

Inductive CardRole :=
| CardholderName | CardholderGivenName | CardholderFamilyName | CardNumber | VerificationNumber
| ExpiryMonth | ExpiryYear | Brand.
#[export] Instance CardRole_eq_dec : EqDecision CardRole.
Proof. solve_decision. Defined.

Inductive CardBrandId :=
| Visa | Mastercard | Amex | Elo | Hipercard | Diners | Discover | Jcb | Unionpay | Maestro | Other.
Inductive SsoProvider := Google | Microsoft | Github | Apple | Facebook | Discord | X | Linkedin | Gitlab.

Record PasswordOptions := {
  po_length : Z;
  po_uppercase : bool;
  po_lowercase : bool;
  po_digits : bool;
  po_symbols : bool;
  po_avoid_ambiguous : bool;
}.
Record CardFrame := { cf_url : list Z; cf_roles : list CardRole }.

Inductive Request :=
| Status
| Lock
| FindMatches (url : list Z) (top_url : option (list Z))
| CheckLookalike (url : list Z) (top_url : option (list Z))
| FillItem (item_id : Z) (url : list Z) (top_url : option (list Z))
| GetTotp (item_id : Z) (url : list Z) (top_url : option (list Z))
| GeneratorOptions
| GeneratePassword (options : option PasswordOptions)
| CheckLogin (url : list Z) (top_url : option (list Z)) (username : option (list Z)) (password : WireSecret)
    (current_password : option WireSecret)
| SaveLogin (url : list Z) (top_url : option (list Z)) (username : option (list Z)) (password : WireSecret)
    (item_id : option Z) (title : option (list Z))
| FindPasskeys (url : list Z) (top_url : option (list Z)) (rp_id : list Z) (allow_credentials : list (list Z))
| PasskeyGet (item_id : Z) (credential_id : list Z) (url : list Z) (top_url : option (list Z)) (rp_id : list Z)
    (challenge : list Z)
| CheckPasskeyCreate (url : list Z) (top_url : option (list Z)) (rp_id : list Z) (user_name : list Z)
    (exclude_credentials : list (list Z)) (conditional : bool)
| PasskeyCreate (url : list Z) (top_url : option (list Z)) (rp_id : list Z) (challenge : list Z)
    (user_handle : list Z) (user_name : list Z) (display_name : option (list Z)) (item_id : option Z)
    (conditional : bool)
| PasskeyStatus (url : list Z) (top_url : option (list Z))
| OpenItem (item_id : Z) (url : list Z) (top_url : option (list Z))
| StartSso (item_id : Z) (url : list Z) (top_url : option (list Z))
| CheckSso (url : list Z) (top_url : option (list Z)) (provider : SsoProvider) (account : option (list Z))
| SaveSso (url : list Z) (top_url : option (list Z)) (provider : SsoProvider) (account : option (list Z))
    (item_id : option Z) (title : option (list Z))
| FindIdentity (url : list Z) (top_url : option (list Z))
| FillIdentity (url : list Z) (top_url : option (list Z)) (roles : list IdentityRole) (documents : bool)
| OpenIdentity (url : list Z) (top_url : option (list Z))
| FindCards (url : list Z) (top_url : option (list Z))
| FillCard (item_id : Z) (top_url : list Z) (frames : list CardFrame)
| SaveCard (url : list Z) (top_url : option (list Z)) (title : option (list Z)) (cardholder_name : option (list Z))
    (number : WireSecret) (verification_number : option WireSecret) (expiry : option (list Z))
| ShowUnlock.

Record RequestEnvelope := { env_v : Z; env_id : Z; env_request : Request }.

(** *** What a field may hold *)

Definition is_some {A} (o : option A) : bool := match o with Some _ => true | None => false end.
Definition is_none_or {A} (f : A -> bool) (o : option A) : bool := match o with Some a => f a | None => true end.

Definition password_options_valid (o : PasswordOptions) : bool :=
  in_range MIN_PASSWORD_LENGTH MAX_PASSWORD_LENGTH (po_length o)
  && (po_uppercase o || po_lowercase o || po_digits o || po_symbols o).

Definition expiry_shape_ok (s : list Z) : bool :=
  let b := utf8 s in
  (length b =? 7)%nat && bool_decide (b !! 4%nat = Some 45)
  && forallb (fun p => (p.1 =? 4)%nat || is_ascii_digit p.2) (imap pair b).

Definition is_alphanumeric (c : Z) : bool := is_ascii_digit c || is_ascii_upper c || is_ascii_lower c.

(** A character above ASCII is made of bytes above ASCII. *)
Definition b64url_len (s : list Z) : option Z :=
  if (str_len s mod 4 =? 1) || negb (forallb (fun b => is_alphanumeric b || (b =? 45) || (b =? 95)) s) then None
  else Some (str_len s / 4 * 3 + nth (Z.to_nat (str_len s mod 4)) [0; 0; 1; 2] 0).

Definition b64url_ok (s : list Z) (min max : Z) : bool :=
  match b64url_len s with Some n => in_range min max n | None => false end.

Definition text_ok (s : list Z) (max : Z) : bool := negb (bool_decide (s = [])) && (str_len s <=? max).

Definition lookalike_site_ok (s : list Z) : bool :=
  text_ok s MAX_LOOKALIKE_BYTES && (2 <=? length (split_on 46 s))%nat
  && forallb (fun label => negb (bool_decide (label = []))
                && forallb (fun b => is_ascii_lower b || is_ascii_digit b || (b =? 45)) label) (split_on 46 s).

Definition secret_ok (s : WireSecret) : bool := text_ok s MAX_SECRET_BYTES.
Definition all_unique {A} `{EqDecision A} (l : list A) : bool := bool_decide (NoDup l).
Definition credential_ok (s : list Z) : bool := b64url_ok s CREDENTIAL_ID_BYTES CREDENTIAL_ID_BYTES.
Definition credential_list_ok (v : list (list Z)) : bool :=
  (length v <=? MAX_CREDENTIAL_LIST)%nat && forallb credential_ok v.
Definition rp_ok (s : list Z) : bool := text_ok s MAX_RP_ID_BYTES.
Definition name_ok (s : list Z) : bool := str_len s <=? MAX_USERNAME_BYTES.
Definition account_ok (a : option (list Z)) : bool := is_none_or (fun a => text_ok a MAX_ACCOUNT_BYTES) a.
Definition title_ok (title : option (list Z)) (item_id : option Z) : bool :=
  is_none_or (fun t => bool_decide (item_id = None) && text_ok t MAX_TITLE_BYTES) title.

Definition urls (r : Request) : list (list Z) :=
  match r with
  | Status | Lock | GeneratorOptions | GeneratePassword _ | ShowUnlock => []
  | FillCard _ top_url frames => top_url :: map cf_url frames
  | FindMatches url top_url | CheckLookalike url top_url | FillItem _ url top_url | GetTotp _ url top_url
  | CheckLogin url top_url _ _ _ | SaveLogin url top_url _ _ _ _ | FindPasskeys url top_url _ _
  | PasskeyGet _ _ url top_url _ _ | CheckPasskeyCreate url top_url _ _ _ _
  | PasskeyCreate url top_url _ _ _ _ _ _ _ | PasskeyStatus url top_url | OpenItem _ url top_url
  | StartSso _ url top_url | CheckSso url top_url _ _ | SaveSso url top_url _ _ _ _ | FindIdentity url top_url
  | FillIdentity url top_url _ _ | OpenIdentity url top_url | FindCards url top_url
  | SaveCard url top_url _ _ _ _ _ => url :: match top_url with Some t => [t] | None => [] end
  end.

Definition card_frame_ok (f : CardFrame) : bool :=
  negb (bool_decide (cf_roles f = [])) && (length (cf_roles f) <=? MAX_CARD_ROLES)%nat && all_unique (cf_roles f).

Definition own_fields_ok (r : Request) : bool :=
  match r with
  | CheckLogin _ _ username password current_password =>
      secret_ok password && is_none_or secret_ok current_password && is_none_or name_ok username
  | SaveLogin _ _ username password item_id title =>
      secret_ok password && title_ok title item_id && is_none_or name_ok username
  | CheckSso _ _ _ account => account_ok account
  | SaveSso _ _ _ account item_id title => account_ok account && title_ok title item_id
  | FindPasskeys _ _ rp_id allow_credentials => rp_ok rp_id && credential_list_ok allow_credentials
  | PasskeyGet _ credential_id _ _ rp_id challenge =>
      rp_ok rp_id && credential_ok credential_id && b64url_ok challenge 1 MAX_CHALLENGE_BYTES
  | CheckPasskeyCreate _ _ rp_id user_name exclude_credentials _ =>
      rp_ok rp_id && name_ok user_name && credential_list_ok exclude_credentials
  | PasskeyCreate _ _ rp_id challenge user_handle user_name display_name _ _ =>
      rp_ok rp_id && b64url_ok challenge 1 MAX_CHALLENGE_BYTES && b64url_ok user_handle 1 MAX_USER_HANDLE_BYTES
      && name_ok user_name && is_none_or name_ok display_name
  | FillIdentity _ _ roles _ =>
      negb (bool_decide (roles = [])) && (length roles <=? MAX_IDENTITY_ROLES)%nat && all_unique roles
  | FillCard _ _ frames =>
      negb (bool_decide (frames = [])) && (length frames <=? MAX_CARD_FRAMES)%nat && forallb card_frame_ok frames
  | SaveCard _ _ title cardholder_name number verification_number expiry =>
      title_ok title None && text_ok number MAX_CARD_NUMBER_BYTES
      && is_none_or (fun c => text_ok c MAX_CARD_CODE_BYTES) verification_number
      && is_none_or (fun n => text_ok n MAX_CARD_VALUE_BYTES) cardholder_name
      && is_none_or expiry_shape_ok expiry
  | GeneratePassword options => is_none_or password_options_valid options
  | _ => true
  end.

Definition field_sizes_ok (r : Request) : bool :=
  forallb (fun u => text_ok u MAX_URL_BYTES) (urls r) && own_fields_ok r.

(** ** Errors *)

Inductive ErrorCode :=
| Locked | Busy | NoVault | NotFound | Denied | InvalidInput | Decryption | Corrupted | Malformed | TooLarge
| UnsupportedVersion | RateLimited | IntegrationDisabled | DesktopUnavailable | Offline | Frozen | Internal.
#[export] Instance ErrorCode_eq_dec : EqDecision ErrorCode.
Proof. solve_decision. Defined.

Definition message (c : ErrorCode) : string :=
  match c with
  | Locked => "HavenKeys is locked."
  | Busy => "HavenKeys is busy. Try again in a moment."
  | NoVault => "No vault has been created yet."
  | NotFound => "Item not found."
  | Denied => "This item is not saved for this website."
  | InvalidInput => "Invalid request."
  | Decryption => "Failed to decrypt vault item."
  | Corrupted => "The vault item is damaged."
  | Malformed => "Malformed message."
  | TooLarge => "Message too large."
  | UnsupportedVersion => "Unsupported protocol version."
  | RateLimited => "Too many requests. Try again shortly."
  | IntegrationDisabled => "Browser integration is turned off in HavenKeys settings."
  | DesktopUnavailable => "The HavenKeys app is not running."
  | Offline => "HavenKeys is offline. The vault is read-only until it reconnects."
  | Frozen => "Your HavenKeys trial has ended. The vault is read-only until you subscribe."
  | Internal => "Internal error."
  end.
Record WireError := { we_code : ErrorCode; we_message : list Z }.
Definition wire_error (c : ErrorCode) : WireError := {| we_code := c; we_message := lit (message c) |}.

(** ** Answers *)

Inductive LockState := LsLocked | LsUnlocking | LsUnlocked | LsLocking.
Inductive MatchStrength := ExactUrl | SameHost | SameSite.
Inductive MatchKind := BankAccount.
Inductive SaveAction := Add | Update | Unchanged.
#[export] Instance SaveAction_eq_dec : EqDecision SaveAction.
Proof. solve_decision. Defined.
Inductive Entitlement := EntFull | EntFrozen.
Inductive UpgradeHint := HintNone | HintAsk (item_id : Z) | HintAuto (item_id : Z).
#[export] Instance UpgradeHint_eq_dec : EqDecision UpgradeHint.
Proof. solve_decision. Defined.

Record BankMatch := { bm_bank : option (list Z); bm_branch : option (list Z); bm_account_last3 : option (list Z) }.
Record BankFill := {
  bf_branch : option (list Z);
  bf_branch_digit : option (list Z);
  bf_account : option WireSecret;
  bf_account_digit : option WireSecret;
}.
Record Match := {
  m_id : Z;
  m_title : list Z;
  m_username : option (list Z);
  m_has_totp : bool;
  m_strength : MatchStrength;
  m_provider : option SsoProvider;
  m_tags : list (list Z);
  m_kind : option MatchKind;
  m_bank : option BankMatch;
}.
Record PasskeyMatch := {
  pm_item_id : Z;
  pm_credential_id : list Z;
  pm_title : list Z;
  pm_user_name : list Z;
  pm_replaced : bool;
}.
Record PasskeyCandidate := { pcd_item_id : Z; pcd_title : list Z; pcd_username : option (list Z) }.
Record IdentityValue := { iv_role : IdentityRole; iv_value : WireSecret }.
Record CardMatch := {
  cm_id : Z;
  cm_title : list Z;
  cm_brand : option CardBrandId;
  cm_last4 : option (list Z);
  cm_expiry : option (list Z);
}.
Record CardValue := { cv_role : CardRole; cv_value : WireSecret }.

Inductive ResultBody :=
| RbStatus (state : LockState) (vault_exists : bool) (entitlement : Entitlement)
| RbLock
| RbFindMatches (matches : list Match) (entitlement : Entitlement)
| RbCheckLookalike (lookalike_of : option (list Z))
| RbFillItem (username : option (list Z)) (password : option WireSecret) (bank : option BankFill) (auto_submit : bool)
| RbGetTotp (code : WireSecret) (period seconds_remaining : Z) (auto_submit : bool)
| RbGeneratorOptions (options : PasswordOptions)
| RbGeneratePassword (password : WireSecret)
| RbCheckLogin (action : SaveAction) (item_id : option Z)
| RbSaveLogin (item_id : Z)
| RbFindPasskeys (passkeys : list PasskeyMatch)
| RbPasskeyGet (credential_id authenticator_data client_data_json signature user_handle : list Z)
| RbCheckPasskeyCreate (excluded : bool) (candidates : list PasskeyCandidate) (upgrade : UpgradeHint)
| RbPasskeyCreate (credential_id attestation_object client_data_json authenticator_data public_key : list Z)
    (public_key_algorithm : Z)
| RbPasskeyStatus (has_passkey : bool)
| RbOpenItem
| RbStartSso (provider : SsoProvider) (account : option (list Z)) (provider_origins : list (list Z)) (auto_choose : bool)
| RbCheckSso (action : SaveAction) (item_id : option Z) (accounts : list (list Z))
| RbSaveSso (item_id : Z)
| RbFindIdentity (title : list Z) (email : option (list Z)) (roles : list IdentityRole)
| RbFillIdentity (values : list IdentityValue)
| RbOpenIdentity
| RbFindCards (insecure : bool) (cards : list CardMatch)
| RbFillCard (frames : list (list CardValue))
| RbSaveCard (item_id : Z)
| RbShowUnlock.

Record Response := { r_v : Z; r_id : option Z; r_result : option ResultBody; r_error : option WireError }.

Definition ok (id : Z) (result : ResultBody) : Response :=
  {| r_v := PROTOCOL_VERSION; r_id := Some id; r_result := Some result; r_error := None |}.
Definition err (id : option Z) (code : ErrorCode) : Response :=
  {| r_v := PROTOCOL_VERSION; r_id := id; r_result := None; r_error := Some (wire_error code) |}.

(** *** What an answer may hold *)

Definition digits_ok (s : list Z) (min max : Z) : bool := in_range min max (str_len s) && forallb is_ascii_digit s.
Definition check_digit_ok (s : list Z) (max : Z) : bool :=
  in_range 1 max (str_len s) && forallb (fun b => is_ascii_digit b || (b =? 88)) s.

Definition bank_match_valid (b : BankMatch) : bool :=
  is_none_or (fun b => (length b <=? MAX_BANK_CHARS)%nat) (bm_bank b)
  && is_none_or (fun b => digits_ok b 1 8) (bm_branch b)
  && is_none_or (fun l => (length l <=? MAX_ACCOUNT_LAST3_CHARS)%nat) (bm_account_last3 b).

Definition bank_fill_valid (b : BankFill) : bool :=
  (is_some (bf_branch b) || is_some (bf_account b))
  && is_none_or (fun s => digits_ok s 1 8) (bf_branch b)
  && is_none_or (fun s => digits_ok s 1 20) (bf_account b)
  && is_none_or (fun d => is_some (bf_branch b) && check_digit_ok d 1) (bf_branch_digit b)
  && is_none_or (fun d => is_some (bf_account b) && check_digit_ok d 2) (bf_account_digit b).

Definition match_valid (m : Match) : bool :=
  eqb (is_some (m_kind m)) (is_some (m_bank m)) && is_none_or bank_match_valid (m_bank m)
  && (length (m_tags m) <=? MAX_MATCH_TAGS)%nat && forallb (fun t => str_len t <=? MAX_MATCH_TAG_BYTES) (m_tags m).

Definition card_match_valid (c : CardMatch) : bool :=
  (str_len (cm_title c) <=? MAX_TITLE_BYTES)
  && is_none_or (fun l => (str_len l =? 4) && forallb is_ascii_digit l) (cm_last4 c)
  && is_none_or expiry_shape_ok (cm_expiry c).

Definition card_values_valid (values : list CardValue) : bool :=
  (length values <=? MAX_CARD_ROLES)%nat && all_unique (map cv_role values)
  && forallb (fun v => text_ok (cv_value v) MAX_CARD_VALUE_BYTES) values.

Definition result_valid (b : ResultBody) : bool :=
  match b with
  | RbCheckLookalike lookalike_of => is_none_or lookalike_site_ok lookalike_of
  | RbFillItem _ _ bank _ => is_none_or bank_fill_valid bank
  | RbFindMatches matches _ => (length matches <=? MAX_MATCHES)%nat && forallb match_valid matches
  | RbGeneratorOptions options => password_options_valid options
  | RbCheckLogin action item_id => eqb (bool_decide (action = Update)) (is_some item_id)
  | RbFindPasskeys passkeys =>
      (length passkeys <=? MAX_MATCHES)%nat && forallb (fun p => credential_ok (pm_credential_id p)) passkeys
  | RbCheckPasskeyCreate excluded candidates upgrade =>
      (length candidates <=? MAX_MATCHES)%nat && negb (excluded && negb (bool_decide (candidates = [])))
      && negb (excluded && negb (bool_decide (upgrade = HintNone)))
  | RbPasskeyCreate credential_id _ _ _ _ alg => credential_ok credential_id && (alg =? COSE_ES256)
  | RbPasskeyGet credential_id _ _ _ _ => credential_ok credential_id
  | RbStartSso _ _ provider_origins _ =>
      negb (bool_decide (provider_origins = [])) && (length provider_origins <=? MAX_PROVIDER_ORIGINS)%nat
      && forallb (fun o => str_len o <=? MAX_URL_BYTES) provider_origins
  | RbCheckSso action item_id accounts =>
      eqb (bool_decide (action = Update)) (is_some item_id) && (length accounts <=? MAX_PROVIDER_ACCOUNTS)%nat
      && forallb (fun a => text_ok a MAX_ACCOUNT_BYTES) accounts
  | RbFindIdentity title email roles =>
      (str_len title <=? MAX_TITLE_BYTES) && is_none_or (fun e => str_len e <=? MAX_USERNAME_BYTES) email
      && (length roles <=? MAX_IDENTITY_ROLES)%nat && all_unique roles
  | RbFillIdentity values =>
      (length values <=? MAX_IDENTITY_ROLES)%nat && all_unique (map iv_role values)
      && forallb (fun v => text_ok (iv_value v) MAX_IDENTITY_VALUE_BYTES) values
  | RbFindCards insecure cards =>
      (length cards <=? MAX_MATCHES)%nat && negb (insecure && negb (bool_decide (cards = [])))
      && forallb card_match_valid cards
  | RbFillCard frames => (length frames <=? MAX_CARD_FRAMES)%nat && forallb card_values_valid frames
  | _ => true
  end.

Definition response_valid (r : Response) : bool :=
  (r_v r =? PROTOCOL_VERSION) && negb (eqb (is_some (r_result r)) (is_some (r_error r)))
  && negb (is_some (r_result r) && negb (is_some (r_id r)))
  && is_none_or result_valid (r_result r).

(** ** Events, and what goes to the extension *)

Inductive Event := EvLocked | EvUnlocked | EvDisconnected.
Inductive Outgoing := OutResponse (r : Response) | OutEvent (v : Z) (e : Event).
Definition event_envelope (e : Event) : Outgoing := OutEvent PROTOCOL_VERSION e.

(** ** Reading and writing messages *)

Record Probe := { probe_v : option (option Z); probe_id : option (option Z) }.
(** The keys of a message from the desktop; the outer option of [raw_id] is
    the key's presence. *)
Record RawOutgoing := {
  raw_v : Z;
  raw_id : option (option Z);
  raw_result : option ResultBody;
  raw_error : option WireError;
  raw_event : option Event;
}.

(** serde_json and the derived (de)serializers; a probed value is kept as the
    [u64] it is, if it is one. *)
Class WireSerde := {
  probe_of : list Z -> option Probe;
  request_of : list Z -> option RequestEnvelope;
  request_bytes : RequestEnvelope -> option (list Z);
  raw_outgoing : list Z -> option RawOutgoing;
  to_bytes : Outgoing -> option (list Z);
}.

Record Rejection := { rj_id : option Z; rj_code : ErrorCode }.
Definition rejection_response (r : Rejection) : Response := err (rj_id r) (rj_code r).

Section Messages.
Context {WS : WireSerde}.

Definition u32_of (n : Z) : option Z := if n <=? u32_max then Some n else None.

Definition parse_request (bytes : list Z) : result Rejection RequestEnvelope :=
  let probe := probe_of bytes in
  let id := p ← probe; v ← probe_id p; n ← v; u32_of n in
  let reject := fun code => Err {| rj_id := id; rj_code := code |} in
  match (p ← probe; probe_v p) with
  | Some v =>
      if negb (bool_decide (v = Some PROTOCOL_VERSION)) then reject UnsupportedVersion
      else match request_of bytes with
           | None => reject Malformed
           | Some env => if negb (field_sizes_ok (env_request env)) then reject InvalidInput else Ok env
           end
  | None => match request_of bytes with
            | None => reject Malformed
            | Some env => if negb (field_sizes_ok (env_request env)) then reject InvalidInput else Ok env
            end
  end.

Definition outgoing_parse (bytes : list Z) : option Outgoing :=
  raw ← raw_outgoing bytes;
  if negb (raw_v raw =? PROTOCOL_VERSION) then None
  else match raw_id raw, raw_event raw with
       | None, Some event =>
           if negb (is_some (raw_result raw)) && negb (is_some (raw_error raw)) then Some (event_envelope event) else None
       | Some id, None =>
           let r := {| r_v := raw_v raw; r_id := id; r_result := raw_result raw;
                       r_error := (fun e => wire_error (we_code e)) <$> raw_error raw |} in
           if response_valid r then Some (OutResponse r) else None
       | _, _ => None
       end.
End Messages.

(** ** Frames (frame.rs) *)

(** What the calls of a [Read] return, in order: bytes (at least one; no more
    of them are handed over than the call asks for), [Interrupted], or another
    error.  A [Read] with nothing left is at its end. *)
Inductive Piece := Data (b : Z) (l : list Z) | Interrupted | Broken.

Inductive FrameError := FrameIo | FrameTooLarge (n : Z).

(** Read until [need] bytes are there: the bytes read, whether the stream
    ended before them, and what is left of it. *)
Inductive Filled := Got (bytes : list Z) (rest : list Piece) | Ended (bytes : list Z) | Failed.

Definition unread (l : list Z) (rest : list Piece) : list Piece :=
  match l with [] => rest | b :: l => Data b l :: rest end.

Fixpoint fill (need : nat) (acc : list Z) (r : list Piece) : Filled :=
  match need with
  | O => Got acc r
  | _ =>
      match r with
      | [] => Ended acc
      | Interrupted :: r => fill need acc r
      | Broken :: _ => Failed
      | Data b l :: r =>
          if (need <=? length (b :: l))%nat then Got (acc ++ take need (b :: l)) (unread (drop need (b :: l)) r)
          else fill (need - length (b :: l)) (acc ++ b :: l) r
      end
  end.

Definition read_frame (r : list Piece) (max : Z) : list Piece * result FrameError (option (list Z)) :=
  match fill 4 [] r with
  | Ended [] => ([], Ok None)
  | Ended _ => ([], Err FrameIo)
  | Failed => ([], Err FrameIo)
  | Got len_buf r =>
      let n := le_val len_buf in
      if max <? n then (r, Err (FrameTooLarge n))
      else match fill (Z.to_nat n) [] r with
           | Got buf r => (r, Ok (Some buf))
           | _ => ([], Err FrameIo)
           end
  end.

Definition discard (r : list Piece) (n : Z) : list Piece * result FrameError unit :=
  match fill (Z.to_nat n) [] r with
  | Got _ r => (r, Ok ())
  | _ => ([], Err FrameIo)
  end.

(** [write_frame]: what it hands to [write_all] in one call. *)
Definition frame_of (payload : list Z) (max : Z) : result FrameError (list Z) :=
  if max <? len payload then Err (FrameTooLarge (Z.min (len payload) u32_max))
  else if u32_max <? len payload then Err (FrameTooLarge u32_max)
  else Ok (le_bytes 4 (len payload) ++ payload).

(** ** The native host (havenkeys-native-host)

    It relays between the extension and the desktop: only well-formed requests
    go one way, re-encoded, and only well-formed messages the other. *)

Definition CHROME_EXTENSION_ORIGIN : list Z := lit "chrome-extension://fmmfkakdkkcfpdnfmbngnlelbfaogafo/".
Definition FIREFOX_EXTENSION_ID : list Z := lit "havenkeys@havenkeys.app".
Definition caller_allowed (args : list (list Z)) : bool :=
  existsb (fun a => bool_decide (a = CHROME_EXTENSION_ORIGIN) || bool_decide (a = FIREFOX_EXTENSION_ID)) (take 2 (drop 1 args)).

(** The streams outside the process.  [connect] opens the connection to the
    desktop and starts the thread that reads it, whose end [alive] tells. *)
Class HostIo (W : Type) := {
  connect : W -> W * bool;
  alive : W -> bool;
  write_up : list Z -> W -> W * bool;
  write_out : list Z -> W -> W * bool;
}.

Record HostState (W : Type) := { host_input : list Piece; connected : bool; host_world : W }.
Arguments host_input {W} _.
Arguments connected {W} _.
Arguments host_world {W} _.

Section NativeHost.
Context {WS : WireSerde} {W : Type} {HI : HostIo W}.

Definition emit (m : Outgoing) (w : W) : W * bool :=
  match to_bytes m with
  | None => (w, false)
  | Some bytes => match frame_of bytes MAX_RESPONSE_BYTES with Ok f => write_out f w | Err _ => (w, false) end
  end.

(** Reconnect if the connection has dropped; a failed send forgets it. *)
Definition send_upstream (up : bool) (frame : list Z) (w : W) : W * bool :=
  let '(w, up) := if up && alive w then (w, true) else connect w in
  if up then match frame_of frame MAX_REQUEST_BYTES with Ok f => write_up f w | Err _ => (w, false) end
  else (w, false).

(** One round of [run]; false ends the loop. *)
Definition host_round (h : HostState W) : HostState W * bool :=
  let '(rest, frame) := read_frame (host_input h) MAX_REQUEST_BYTES in
  let next r c w := {| host_input := r; connected := c; host_world := w |} in
  let tell r c m w := let '(w, told) := emit m w in (next r c w, told) in
  match frame with
  | Ok None | Err FrameIo => (next rest (connected h) (host_world h), false)
  | Err (FrameTooLarge n) =>
      match discard rest n with
      | (rest, Ok _) => tell rest (connected h) (OutResponse (err None TooLarge)) (host_world h)
      | (rest, Err _) => (next rest (connected h) (host_world h), false)
      end
  | Ok (Some bytes) =>
      match parse_request bytes with
      | Err rejection => tell rest (connected h) (OutResponse (rejection_response rejection)) (host_world h)
      | Ok env =>
          match request_bytes env with
          | None => (next rest (connected h) (host_world h), true)
          | Some canonical =>
              let '(w, sent) := send_upstream (connected h) canonical (host_world h) in
              if sent then (next rest true w, true)
              else tell rest false (OutResponse (err (Some (env_id env)) DesktopUnavailable)) w
          end
      end
  end.

Fixpoint host_run (fuel : nat) (h : HostState W) : HostState W :=
  match fuel with
  | O => h
  | S fuel => let '(h, go) := host_round h in if go then host_run fuel h else h
  end.

(** The downstream thread: an invalid message is dropped; false ends it. *)
Definition forward (bytes : list Z) (w : W) : W * bool :=
  match outgoing_parse bytes with Some m => emit m w | None => (w, true) end.
Fixpoint downstream (fuel : nat) (r : list Piece) (w : W) : W :=
  match fuel with
  | O => (emit (event_envelope EvDisconnected) w).1
  | S fuel =>
      match read_frame r MAX_RESPONSE_BYTES with
      | (r, Ok (Some bytes)) =>
          let '(w, go) := forward bytes w in
          if go then downstream fuel r w else (emit (event_envelope EvDisconnected) w).1
      | _ => (emit (event_envelope EvDisconnected) w).1
      end
  end.
End NativeHost.
