(* ===== verification/Bridge.v ===== *)
(** * Bridge: what the desktop answers the browser (crates/havenkeys-bridge)

    [convert.rs], [dispatch.rs], [ratelimit.rs] and the request path of
    [server.rs].  A request is dispatched under the vault lock, one step of
    the service; the hooks the application wires in ([BridgeHost]) run with no
    lock held and may leave any shared state, as what other threads do
    meanwhile is up to them.  The calls a request makes to them are its trace.
    The shared state is the vault service, the limiter, the confirmation slot
    and the rest of the machine. *)

From Stdlib Require Import Floats.SpecFloat.
From S2P Require Import Prelude Protocol Errors Text Blob Url Clean Tags Totp Card Identity.
From S2P Require Import CustomField Bank Generator Sso Attachment Model Keys Store Origin Health BuildItem.
From S2P Require Import Vault Items Page IdentityPage ToyCodec Sync Replica Activity CardPage.
From S2P Require Import AppTarget Cbor Passkey PasskeyVault.

(** ** convert.rs *)

Definition lock_state (s : VaultState) : Protocol.LockState :=
  match s with
  | SLocked => Protocol.LsLocked
  | SUnlocking => Protocol.LsUnlocking
  | SUnlocked => Protocol.LsUnlocked
  | SLocking => Protocol.LsLocking
  end.

Definition strength (s : Origin.MatchStrength) : Protocol.MatchStrength :=
  match s with
  | Origin.ExactUrl => Protocol.ExactUrl
  | Origin.SameHost => Protocol.SameHost
  | Origin.SameSite | Origin.Equivalent => Protocol.SameSite
  end.

Definition match_kind (k : Page.MatchKind) : option Protocol.MatchKind :=
  if decide (k = MkBank) then Some Protocol.BankAccount else None.

Definition bank_match (b : BankSummary) : BankMatch :=
  {| bm_bank := bs_bank b; bm_branch := bs_branch b; bm_account_last3 := account_last3 b |}.
Definition bank_fill (b : BankValues) : BankFill :=
  {| bf_branch := bv_branch b; bf_branch_digit := bv_branch_digit b;
     bf_account := bv_account b; bf_account_digit := bv_account_digit b |}.

Definition wire_provider (p : Sso.SsoProvider) : Protocol.SsoProvider :=
  match p with
  | Sso.Google => Protocol.Google
  | Sso.Microsoft => Protocol.Microsoft
  | Sso.Github => Protocol.Github
  | Sso.Apple => Protocol.Apple
  | Sso.Facebook => Protocol.Facebook
  | Sso.Discord => Protocol.Discord
  | Sso.X => Protocol.X
  | Sso.Linkedin => Protocol.Linkedin
  | Sso.Gitlab => Protocol.Gitlab
  end.
Definition core_provider (p : Protocol.SsoProvider) : Sso.SsoProvider :=
  match p with
  | Protocol.Google => Sso.Google
  | Protocol.Microsoft => Sso.Microsoft
  | Protocol.Github => Sso.Github
  | Protocol.Apple => Sso.Apple
  | Protocol.Facebook => Sso.Facebook
  | Protocol.Discord => Sso.Discord
  | Protocol.X => Sso.X
  | Protocol.Linkedin => Sso.Linkedin
  | Protocol.Gitlab => Sso.Gitlab
  end.

Definition core_role (r : IdentityRole) : FillRole :=
  match r with
  | FullName => RFullName | FirstName => RFirstName | MiddleName => RMiddleName | LastName => RLastName
  | Email => REmail | Phone => RPhone | BirthDate => RBirthDate | BirthDay => RBirthDay
  | BirthMonth => RBirthMonth | BirthYear => RBirthYear | Company => RCompany | Street => RStreet
  | Number => RNumber | Complement => RComplement | AddressLine1 => RAddressLine1
  | AddressLine2 => RAddressLine2 | Neighborhood => RNeighborhood | City => RCity | State => RState
  | PostalCode => RPostalCode | Country => RCountry | Username => RUsername | Cpf => RCpf | Rg => RRg
  | Passport => RPassport | DriversLicense => RDriversLicense
  end.
Definition wire_role (r : FillRole) : IdentityRole :=
  match r with
  | RFullName => FullName | RFirstName => FirstName | RMiddleName => MiddleName | RLastName => LastName
  | REmail => Email | RPhone => Phone | RBirthDate => BirthDate | RBirthDay => BirthDay
  | RBirthMonth => BirthMonth | RBirthYear => BirthYear | RCompany => Company | RStreet => Street
  | RNumber => Number | RComplement => Complement | RAddressLine1 => AddressLine1
  | RAddressLine2 => AddressLine2 | RNeighborhood => Neighborhood | RCity => City | RState => State
  | RPostalCode => PostalCode | RCountry => Country | RUsername => Username | RCpf => Cpf | RRg => Rg
  | RPassport => Passport | RDriversLicense => DriversLicense
  end.

Definition core_card_role (r : Protocol.CardRole) : CardPage.CardRole :=
  match r with
  | CardholderName => CrHolder
  | CardholderGivenName => CrGivenName
  | CardholderFamilyName => CrFamilyName
  | CardNumber => CrNumber
  | VerificationNumber => CrVerification
  | ExpiryMonth => CrExpiryMonth
  | ExpiryYear => CrExpiryYear
  | Brand => CrBrand
  end.
Definition wire_card_role (r : CardPage.CardRole) : Protocol.CardRole :=
  match r with
  | CrHolder => CardholderName
  | CrGivenName => CardholderGivenName
  | CrFamilyName => CardholderFamilyName
  | CrNumber => CardNumber
  | CrVerification => VerificationNumber
  | CrExpiryMonth => ExpiryMonth
  | CrExpiryYear => ExpiryYear
  | CrBrand => Brand
  end.

Definition wire_brand (b : CardBrand) : CardBrandId :=
  match b with
  | Card.Visa => Protocol.Visa
  | Card.Mastercard => Protocol.Mastercard
  | Card.Amex => Protocol.Amex
  | Card.Elo => Protocol.Elo
  | Card.Hipercard => Protocol.Hipercard
  | Card.Diners => Protocol.Diners
  | Card.Discover => Protocol.Discover
  | Card.Jcb => Protocol.Jcb
  | Card.Unionpay => Protocol.Unionpay
  | Card.Maestro => Protocol.Maestro
  | BrandOther => Protocol.Other
  end.

Definition save_action (a : Page.SaveAction) : Protocol.SaveAction * option Z :=
  match a with
  | SaveAdd => (Add, None)
  | SaveUpdate id => (Update, Some id)
  | SaveUnchanged => (Unchanged, None)
  end.

(** ** ratelimit.rs *)

(** An [Instant] is nanoseconds from some origin. *)
Definition saturating_duration_since (now earlier : Z) : Z := Z.max 0 (now - earlier).
Definition NANOS_PER_SEC : Z := 1000000000.

(** [Duration::as_secs_f64] and [f64::min]. *)
Definition as_secs_f64 (d : Z) : f64 :=
  SFadd 53 1024 (f64_of_Z (d / NANOS_PER_SEC)) (SFdiv 53 1024 (f64_of_Z (d mod NANOS_PER_SEC)) (f64_of_Z NANOS_PER_SEC)).
Definition f64_min (a b : f64) : f64 :=
  match a, b with
  | S754_nan, _ => b
  | _, S754_nan => a
  | _, _ => if SFltb b a then b else a
  end.
Definition f64_half : f64 := SFdiv 53 1024 (f64_of_Z 1) (f64_of_Z 2).

Inductive RequestClass := Lookup | Secret.

Record Bucket := { capacity : f64; per_second : f64; tokens : f64; last : option Z }.
Definition bucket_new (capacity per_second : f64) : Bucket :=
  {| capacity := capacity; per_second := per_second; tokens := capacity; last := None |}.

Definition refilled (b : Bucket) (now : Z) : f64 :=
  match last b with
  | Some l =>
      let elapsed := as_secs_f64 (saturating_duration_since now l) in
      f64_min (SFadd 53 1024 (tokens b) (SFmul 53 1024 elapsed (per_second b))) (capacity b)
  | None => tokens b
  end.
Definition take_token (b : Bucket) (now : Z) : Bucket * bool :=
  let t := refilled b now in
  let left t := {| capacity := capacity b; per_second := per_second b; tokens := t; last := Some now |} in
  if SFleb (f64_of_Z 1) t then (left (SFsub 53 1024 t (f64_of_Z 1)), true) else (left t, false).

Definition ITEM_UPDATE_INTERVAL : Z := 10 * 60 * NANOS_PER_SEC.

Record RateLimiter := { lookup_ : Bucket; secret_ : Bucket; updates : gmap Z Z }.
Definition default_limiter : RateLimiter :=
  {| lookup_ := bucket_new (f64_of_Z 60) (f64_of_Z 5); secret_ := bucket_new (f64_of_Z 10) f64_half; updates := ∅ |}.
Definition with_updates (u : gmap Z Z) (l : RateLimiter) : RateLimiter :=
  {| lookup_ := lookup_ l; secret_ := secret_ l; updates := u |}.

Definition allow (class : RequestClass) (now : Z) (l : RateLimiter) : RateLimiter * bool :=
  match class with
  | Lookup => let '(b, ok) := take_token (lookup_ l) now in
              ({| lookup_ := b; secret_ := secret_ l; updates := updates l |}, ok)
  | Secret => let '(b, ok) := take_token (secret_ l) now in
              ({| lookup_ := lookup_ l; secret_ := b; updates := updates l |}, ok)
  end.

Definition allow_item_update (item now : Z) (l : RateLimiter) : RateLimiter * bool :=
  let kept := filter (fun p : Z * Z => saturating_duration_since now p.2 < ITEM_UPDATE_INTERVAL) (updates l) in
  match kept !! item with
  | Some _ => (with_updates kept l, false)
  | None => (with_updates (<[item := now]> kept) l, true)
  end.
Definition record_item_update (item now : Z) (l : RateLimiter) : RateLimiter :=
  with_updates (<[item := now]> (updates l)) l.
Definition release_item_update (item at_ : Z) (l : RateLimiter) : RateLimiter :=
  if bool_decide (updates l !! item = Some at_) then with_updates (delete item (updates l)) l else l.

(** ** dispatch.rs *)

Definition code (e : Error) : ErrorCode :=
  match e with
  | Errors.Locked => Protocol.Locked
  | Errors.Busy => Protocol.Busy
  | Errors.NoVault => Protocol.NoVault
  | Errors.NotFound => Protocol.NotFound
  | Errors.Denied => Protocol.Denied
  | Errors.InvalidInput _ => Protocol.InvalidInput
  | Errors.Decryption => Protocol.Decryption
  | Errors.Corrupted => Protocol.Corrupted
  | Errors.Offline => Protocol.Offline
  | _ => Protocol.Internal
  end.
Definition item_code (e : Error) : ErrorCode :=
  match e with Errors.NotFound => Protocol.Denied | other => code other end.

Definition now_ms (unix_seconds : Z) : Z :=
  let ms := clamp 0 u64_max (unix_seconds * 1000) in if ms <=? i64_max then ms else i64_max.

Definition save_target (item_id : option Z) (title : option (list Z)) : SaveTarget :=
  match item_id with Some id => UpdateLogin id | None => NewLogin title end.

Inductive UpdateConsent := AskIfRecent | AskAlways | Allowed.

Inductive Dispatched :=
| Done (r : ResultBody)
| Write (w : StagedWrite) (r : ResultBody)
| Tidy (w : StagedWrite) (r : ResultBody)
| Open (item : Z) (r : ResultBody)
| Confirm (summary : ConfirmUpdate) (epoch : Z).

Definition refused_when_frozen (r : Request) : bool :=
  match r with
  | CheckLogin _ _ _ _ _ | SaveLogin _ _ _ _ _ _ | CheckPasskeyCreate _ _ _ _ _ _ | Protocol.PasskeyCreate _ _ _ _ _ _ _ _ _
  | StartSso _ _ _ | CheckSso _ _ _ _ | SaveSso _ _ _ _ _ _ | FindIdentity _ _ | FillIdentity _ _ _ _
  | FindCards _ _ | FillCard _ _ _ | SaveCard _ _ _ _ _ _ _ => true
  | _ => false
  end.

(** Everything but status and lock comes from a web page. *)
Definition from_page (r : Request) : bool :=
  match r with Status | Lock | ShowUnlock => false | _ => true end.

(** What the operations draw. *)
Record BridgeDraws := {
  bd_new_id : nat -> Z;
  bd_fresh : Z;
  bd_use : option (list Z);
  bd_key : nat -> option (list Z);
  bd_credential : option (list Z);
  bd_r1 : option (list Z);
  bd_r2 : option (list Z);
  bd_sample : nat -> nat -> nat;
}.

Section Dispatch.
Context {C : Crypto} {K : KeyLib} {U : Unicode} {J : JsonLib} {UL : UrlLib} {SL : SiteLib UL} {L : TotpLib}.
Context {FL : FloatLib} {AC : Codec Activity} {LL : LookalikeLib} {AL : AppLib} {PL : PasskeyLib}.

Abbreviation D := (M VaultService ErrorCode).

Definition core {A} (f : Error -> ErrorCode) (r : VaultService -> Result A) : D A := fun v => (v, map_err f (r v)).
Definition core_op {A} (f : Error -> ErrorCode) (m : V A) : D A := fun v => let '(v', r) := m v in (v', map_err f r).

Definition require_enabled (v : VaultService) : result ErrorCode unit :=
  s ← map_err code (settings v);
  if browser_integration s then Ok () else Err Protocol.IntegrationDisabled.

(** [VaultService::entitlement] (vault.rs). *)
Definition entitlement (v : VaultService) : Result Store.Entitlement := Ok (Store.entitlement (plan (store v))).

Definition bytes (s : list Z) : result ErrorCode (list Z) := ok_or Protocol.InvalidInput (decode_b64url s).
Fixpoint byte_list (l : list (list Z)) : result ErrorCode (list (list Z)) :=
  match l with
  | [] => Ok []
  | s :: l => b ← bytes s; bs ← byte_list l; Ok (b :: bs)
  end.

Definition wire_match (s : Suggestion) : Match :=
  {| m_id := sg_id s; m_title := sg_title s;
     m_username := match sg_username s with Some u => Some u | None => sg_account s end;
     m_has_totp := sg_has_totp s; m_strength := strength (Page.strength s); m_provider := wire_provider <$> sg_provider s;
     m_tags := sg_tags s; m_kind := match_kind (kind s); m_bank := bank_match <$> sg_bank s |}.

(** The user picked this login: it ranks higher next time.  Never fails. *)
Definition ranked (picked : bool) (item_id now : Z) (random : option (list Z)) : D () := fun v =>
  (if picked then (record_use item_id now random v).1 else v, Ok ()).

Definition dispatch_fill (frozen : bool) (item_id : Z) (url : list Z) (top_url : option (list Z)) (now : Z)
    (random : option (list Z)) : D Dispatched :=
  matched ← core code (matches_page item_id url top_url);
  if negb matched then mthrow_ Protocol.Denied
  else if (frozen : bool) then mthrow_ Protocol.Frozen
  else
    creds ← core_op item_code (fill_for_page item_id url top_url now);
    auto_submit ← core item_code (auto_sign_in_for item_id);
    _ ← ranked (Model.is_some (fc_password creds) || Model.is_some (fc_bank creds)) item_id now random;
    mret (Done (RbFillItem (fc_username creds) (fc_password creds) (bank_fill <$> fc_bank creds) auto_submit)).

Definition wire_options (o : Generator.GeneratorOptions) : result ErrorCode PasswordOptions :=
  if Z.of_nat (g_length o) <=? u32_max
  then Ok {| po_length := Z.of_nat (g_length o); po_uppercase := uppercase o; po_lowercase := lowercase o;
             po_digits := g_digits o; po_symbols := symbols o; po_avoid_ambiguous := avoid_ambiguous o |}
  else Err Protocol.Internal.
Definition core_options (o : PasswordOptions) : Generator.GeneratorOptions :=
  {| g_length := Z.to_nat (po_length o); uppercase := po_uppercase o; lowercase := po_lowercase o;
     g_digits := po_digits o; symbols := po_symbols o; avoid_ambiguous := po_avoid_ambiguous o |}.

Definition dispatch_generate (sample : nat -> nat -> nat) (options : option PasswordOptions) : D Dispatched :=
  policy ← (match options with
            | Some o => mret (core_options o)
            | None => s ← core code settings; mret (generator s)
            end : D Generator.GeneratorOptions);
  password ← core code (fun _ => (Generator.generate sample policy 0%nat).2);
  mret (Done (RbGeneratePassword password)).

Definition dispatch_save_login (d : BridgeDraws) (consent : UpdateConsent) (url : list Z) (top_url : option (list Z))
    (username : option (list Z)) (password : list Z) (item_id : option Z) (title : option (list Z)) (now : Z)
    : D Dispatched :=
  staged ← core item_code (stage_save_login (bd_new_id d) (bd_fresh d) url top_url username password
                             (save_target item_id title) now (bd_r1 d) (bd_r2 d));
  let write := mret (Write (save_write staged) (RbSaveLogin (save_item staged))) : D Dispatched in
  match item_id with
  | None => write
  | Some id =>
      ask ← (match consent with
             | Allowed => mret false
             | AskAlways => mret true
             | AskIfRecent => core item_code (update_needs_confirmation id now)
             end : D bool);
      if (ask : bool) then
        summary ← core item_code (confirm_update_summary id url);
        v ← mget;
        mret (Confirm summary (Vault.epoch v))
      else write
  end.

Definition wire_passkey (m : PasskeyVault.PasskeyMatch) : Protocol.PasskeyMatch :=
  {| pm_item_id := PasskeyVault.pm_item m; pm_credential_id := encode_b64url (PasskeyVault.pm_credential m);
     Protocol.pm_title := PasskeyVault.pm_title m; pm_user_name := PasskeyVault.pm_user m;
     Protocol.pm_replaced := PasskeyVault.pm_replaced m |}.

Definition dispatch_find_passkeys (d : BridgeDraws) (url : list Z) (top_url : option (list Z)) (rp_id : list Z)
    (allow_credentials : list (list Z)) (now : Z) : D Dispatched :=
  allow ← mlift (byte_list allow_credentials);
  found ← core code (find_passkeys rp_id url top_url allow);
  let result := RbFindPasskeys (map wire_passkey (take MAX_MATCHES found)) in
  tidy ← core code (stage_drop_replaced_passkeys rp_id url top_url allow now (bd_r1 d) (bd_r2 d));
  mret match tidy with Some write => Tidy write result | None => Done result end.

Definition dispatch_passkey_get (item_id : Z) (credential_id url : list Z) (top_url : option (list Z))
    (rp_id challenge : list Z) : D Dispatched :=
  credential ← mlift (bytes credential_id);
  ch ← mlift (bytes challenge);
  a ← core item_code (passkey_assert item_id credential rp_id url top_url ch);
  mret (Done (RbPasskeyGet (encode_b64url (ass_credential_id a)) (encode_b64url (ass_authenticator_data a))
                (encode_b64url (ass_client_data a)) (encode_b64url (ass_signature a))
                (encode_b64url (ass_user_handle a)))).

Definition wire_candidate (s : Suggestion) : PasskeyCandidate :=
  {| pcd_item_id := sg_id s; pcd_title := sg_title s; pcd_username := sg_username s |}.
Definition upgrade_hint (u : Upgrade) : UpgradeHint :=
  match u with UpNone => HintNone | UpAsk id => HintAsk id | UpAuto id => HintAuto id end.

Definition dispatch_check_create (url : list Z) (top_url : option (list Z)) (rp_id user_name : list Z)
    (exclude_credentials : list (list Z)) (conditional : bool) (now : Z) : D Dispatched :=
  exclude ← mlift (byte_list exclude_credentials);
  check ← core code (check_passkey_create
                       {| cq_rp := rp_id; cq_page := url; cq_top := top_url; cq_user := user_name;
                          cq_exclude := exclude; cq_conditional := conditional |} now);
  let candidates := if cc_excluded check then [] else map wire_candidate (take MAX_MATCHES (cc_candidates check)) in
  mret (Done (RbCheckPasskeyCreate (cc_excluded check) candidates (upgrade_hint (cc_upgrade check)))).

Definition dispatch_create (d : BridgeDraws) (url : list Z) (top_url : option (list Z)) (rp_id challenge user_handle : list Z)
    (user_name : list Z) (display_name : option (list Z)) (item_id : option Z) (conditional : bool) (now : Z)
    : D Dispatched :=
  ch ← mlift (bytes challenge);
  handle ← mlift (bytes user_handle);
  staged ← core_op item_code (stage_passkey_create (bd_new_id d) (bd_fresh d)
             {| pc_rp := rp_id; pc_page := url; pc_top := top_url; pc_challenge := ch; pc_handle := handle;
                pc_user := user_name; pc_display := display_name; pc_item := item_id; pc_conditional := conditional |}
             now (bd_key d) (bd_credential d) (bd_r1 d) (bd_r2 d));
  let r := sp_registration staged in
  mret (Write (sp_write staged)
          (RbPasskeyCreate (encode_b64url (reg_credential_id r)) (encode_b64url (reg_attestation r))
             (encode_b64url (reg_client_data r)) (encode_b64url (reg_authenticator_data r))
             (encode_b64url (reg_public_key r)) COSE_ES256)).

Definition wire_card (c : CardOffer) : CardMatch :=
  {| cm_id := of_id c; cm_title := of_title c; cm_brand := wire_brand <$> of_brand c; cm_last4 := of_last4 c;
     cm_expiry := expiry_to_wire <$> of_expiry c |}.
Definition wire_card_value (p : CardPage.CardRole * list Z) : CardValue :=
  {| cv_role := wire_card_role p.1; cv_value := p.2 |}.

Definition dispatch_fill_card (item_id : Z) (top_url : list Z) (frames : list Protocol.CardFrame) : D Dispatched :=
  per_frame ← core code (card_values_for_page item_id top_url
                (map (fun f => {| cfr_url := cf_url f; cfr_roles := map core_card_role (cf_roles f) |}) frames));
  if negb (length per_frame =? length frames)%nat then mthrow_ Protocol.Internal
  else mret (Done (RbFillCard (map (map wire_card_value) per_frame))).

Definition dispatch_check_sso (url : list Z) (top_url : option (list Z)) (provider : Protocol.SsoProvider)
    (account : option (list Z)) : D Dispatched :=
  a ← core code (check_sso url top_url (core_provider provider) account);
  let '(action, item_id) := save_action a in
  accounts ← (if bool_decide (action = Unchanged) then mret []
              else core code (provider_accounts (core_provider provider)) : D (list (list Z)));
  mret (Done (RbCheckSso action item_id accounts)).

Definition dispatch_matches (ent : Protocol.Entitlement) (url : list Z) (top_url : option (list Z)) (now : Z) : D Dispatched :=
  found ← core code (find_matches url top_url now);
  mret (Done (RbFindMatches (map wire_match (take MAX_MATCHES found)) ent)).

(** An answer the protocol would reject is dropped, not sent. *)
Definition dispatch_lookalike (url : list Z) (top_url : option (list Z)) : D Dispatched :=
  site ← core code (lookalike_for_page url top_url);
  mret (Done (RbCheckLookalike (s ← site; if lookalike_site_ok s then Some s else None))).

Definition dispatch_totp (frozen : bool) (item_id : Z) (url : list Z) (top_url : option (list Z)) (unix_seconds : Z)
    : D Dispatched :=
  t ← core item_code (totp_for_page item_id url top_url unix_seconds);
  auto_submit ← (if (frozen : bool) then mret false else core item_code (auto_sign_in_for item_id) : D bool);
  mret (Done (RbGetTotp (tc_code t) (tc_period t) (seconds_remaining t) auto_submit)).

Definition dispatch_check_login (url : list Z) (top_url username : option (list Z)) (password : list Z)
    (current_password : option (list Z)) : D Dispatched :=
  a ← core code (check_login url top_url username password current_password);
  mret (Done (RbCheckLogin (save_action a).1 (save_action a).2)).

Definition dispatch_open (item_id : Z) (url : list Z) (top_url : option (list Z)) : D Dispatched :=
  saved_here ← core code (matches_page item_id url top_url);
  if negb saved_here then mthrow_ Protocol.Denied else mret (Open item_id RbOpenItem).

Definition dispatch_find_identity (url : list Z) (top_url : option (list Z)) : D Dispatched :=
  s ← core code (identity_summary_for_page url top_url);
  mret (Done (RbFindIdentity (is_title s) (is_email s) (map wire_role (is_roles s)))).

Definition dispatch_fill_identity (url : list Z) (top_url : option (list Z)) (roles : list IdentityRole)
    (documents : bool) : D Dispatched :=
  vs ← core code (identity_values_for_page url top_url (map core_role roles) documents);
  mret (Done (RbFillIdentity (map (fun p => {| iv_role := wire_role p.1; iv_value := p.2 |}) vs))).

Definition dispatch_find_cards (url : list Z) (top_url : option (list Z)) (now : Z) : D Dispatched :=
  l ← core code (cards_for_page url top_url now);
  mret (Done (RbFindCards (insecure l) (map wire_card (take MAX_MATCHES (offers l))))).

Definition dispatch_save_card (d : BridgeDraws) (url : list Z) (top_url : option (list Z)) (c : NewCard) (now : Z)
    : D Dispatched :=
  staged ← core code (stage_save_card (bd_new_id d) (bd_fresh d) url top_url c now (bd_r1 d) (bd_r2 d));
  mret (Write (save_write staged) (RbSaveCard (save_item staged))).

Definition dispatch_start_sso (item_id : Z) (url : list Z) (top_url : option (list Z)) : D Dispatched :=
  s ← core item_code (start_sso_for_page item_id url top_url);
  mret (Done (RbStartSso (wire_provider (ss_provider s)) (ss_account s) (Sso.origins (ss_provider s)) (auto_choose s))).

Definition dispatch_save_sso (d : BridgeDraws) (url : list Z) (top_url : option (list Z)) (provider : Protocol.SsoProvider)
    (account : option (list Z)) (item_id : option Z) (title : option (list Z)) (now : Z) : D Dispatched :=
  staged ← core item_code (stage_save_sso (bd_new_id d) (bd_fresh d) url top_url (core_provider provider) account
             (save_target item_id title) now (bd_r1 d) (bd_r2 d));
  mret (Write (save_write staged) (RbSaveSso (save_item staged))).

Definition dispatch_request (d : BridgeDraws) (frozen : bool) (r : Request) (unix_seconds : Z) (consent : UpdateConsent)
    : D Dispatched :=
  let now := now_ms unix_seconds in
  let ent := if frozen then EntFrozen else EntFull in
  match r with
  | Status =>
      s ← core code Vault.status;
      mret (Done (RbStatus (lock_state (vs_state s)) (vault_exists s) ent))
  | Lock | ShowUnlock => mthrow_ Protocol.Internal
  | FindMatches url top_url => dispatch_matches ent url top_url now
  | CheckLookalike url top_url => dispatch_lookalike url top_url
  | FillItem item_id url top_url => dispatch_fill frozen item_id url top_url now (bd_use d)
  | GetTotp item_id url top_url => dispatch_totp frozen item_id url top_url unix_seconds
  | Protocol.GeneratorOptions =>
      s ← core code settings;
      options ← mlift (wire_options (generator s));
      mret (Done (RbGeneratorOptions options))
  | GeneratePassword options => dispatch_generate (bd_sample d) options
  | CheckLogin url top_url username password current_password =>
      dispatch_check_login url top_url username password current_password
  | SaveLogin url top_url username password item_id title =>
      dispatch_save_login d consent url top_url username password item_id title now
  | FindPasskeys url top_url rp_id allow_credentials => dispatch_find_passkeys d url top_url rp_id allow_credentials now
  | PasskeyGet item_id credential_id url top_url rp_id challenge =>
      dispatch_passkey_get item_id credential_id url top_url rp_id challenge
  | CheckPasskeyCreate url top_url rp_id user_name exclude_credentials conditional =>
      dispatch_check_create url top_url rp_id user_name exclude_credentials conditional now
  | Protocol.PasskeyCreate url top_url rp_id challenge user_handle user_name display_name item_id conditional =>
      dispatch_create d url top_url rp_id challenge user_handle user_name display_name item_id conditional now
  | PasskeyStatus url top_url =>
      has ← core code (has_passkey_for_page url top_url);
      mret (Done (RbPasskeyStatus has))
  | OpenItem item_id url top_url => dispatch_open item_id url top_url
  | FindIdentity url top_url => dispatch_find_identity url top_url
  | FillIdentity url top_url roles documents => dispatch_fill_identity url top_url roles documents
  | OpenIdentity url top_url =>
      id ← core code (identity_id_for_page url top_url);
      mret (Open id RbOpenIdentity)
  | FindCards url top_url => dispatch_find_cards url top_url now
  | FillCard item_id top_url frames => dispatch_fill_card item_id top_url frames
  | SaveCard url top_url title cardholder_name number verification_number expiry =>
      dispatch_save_card d url top_url
        {| nc_title := title; nc_holder := cardholder_name; nc_number := number;
           nc_verification := verification_number; nc_expiry := expiry |} now
  | StartSso item_id url top_url => dispatch_start_sso item_id url top_url
  | CheckSso url top_url provider account => dispatch_check_sso url top_url provider account
  | SaveSso url top_url provider account item_id title => dispatch_save_sso d url top_url provider account item_id title now
  end.

Definition dispatch_with (d : BridgeDraws) (r : Request) (unix_seconds : Z) (consent : UpdateConsent) : D Dispatched :=
  _ ← (if from_page r then mread require_enabled else mret () : D ());
  e ← core code entitlement;
  let frozen := match e with Store.Frozen => true | Store.Full => false end in
  if frozen && refused_when_frozen r then mthrow_ Protocol.Frozen
  else dispatch_request d frozen r unix_seconds consent.
Definition dispatch (d : BridgeDraws) (r : Request) (unix_seconds : Z) : D Dispatched :=
  dispatch_with d r unix_seconds AskIfRecent.
End Dispatch.

(** ** server.rs: one request *)

Inductive ItemBudget := BudgetNone | Reserved (item at_ : Z) | CoolingDown (item : Z).

Definition request_class (r : Request) : option RequestClass :=
  match r with
  | Status | Lock => None
  | FindMatches _ _ | CheckLookalike _ _ | Protocol.GeneratorOptions | GeneratePassword _ | FindPasskeys _ _ _ _
  | CheckPasskeyCreate _ _ _ _ _ _ | PasskeyStatus _ _ | FindIdentity _ _ | FindCards _ _ => Some Lookup
  | FillItem _ _ _ | GetTotp _ _ _ | CheckLogin _ _ _ _ _ | SaveLogin _ _ _ _ _ _ | PasskeyGet _ _ _ _ _ _
  | Protocol.PasskeyCreate _ _ _ _ _ _ _ _ _ | OpenItem _ _ _ | ShowUnlock | FillIdentity _ _ _ _ | OpenIdentity _ _
  | StartSso _ _ _ | CheckSso _ _ _ _ | SaveSso _ _ _ _ _ _ | FillCard _ _ _ | SaveCard _ _ _ _ _ _ _ => Some Secret
  end.

Definition may_wait_for_user (r : Request) : bool :=
  match r with SaveLogin _ _ _ _ (Some _) _ => true | _ => false end.

Definition changes_items (r : Request) : bool :=
  match r with
  | SaveLogin _ _ _ _ _ _ | Protocol.PasskeyCreate _ _ _ _ _ _ _ _ _ | SaveSso _ _ _ _ _ _ | SaveCard _ _ _ _ _ _ _ => true
  | _ => false
  end.

Definition CONFIRM_UPDATE_TIMEOUT : Z := 60 * NANOS_PER_SEC.
Definition MAX_BACKGROUND_PER_CONNECTION : nat := 2.

(** [Inner]: what all threads share; [sh_rest] is the rest of the machine. *)
Record Shared (W : Type) := {
  sh_vault : VaultService;
  sh_limiter : RateLimiter;
  sh_pending : bool;
  sh_rest : W;
}.
Arguments sh_vault {W} _.
Arguments sh_limiter {W} _.
Arguments sh_pending {W} _.
Arguments sh_rest {W} _.

Definition with_vault {W} (v : VaultService) (s : Shared W) : Shared W :=
  {| sh_vault := v; sh_limiter := sh_limiter s; sh_pending := sh_pending s; sh_rest := sh_rest s |}.
Definition with_limiter {W} (l : RateLimiter) (s : Shared W) : Shared W :=
  {| sh_vault := sh_vault s; sh_limiter := l; sh_pending := sh_pending s; sh_rest := sh_rest s |}.
Definition with_pending {W} (b : bool) (s : Shared W) : Shared W :=
  {| sh_vault := sh_vault s; sh_limiter := sh_limiter s; sh_pending := b; sh_rest := sh_rest s |}.
Definition with_rest {W} (w : W) (s : Shared W) : Shared W :=
  {| sh_vault := sh_vault s; sh_limiter := sh_limiter s; sh_pending := sh_pending s; sh_rest := w |}.

(** The clocks, the random source and the hooks the application sets. *)
Class BridgeHost (W : Type) := {
  instant : W -> W * Z;
  unix_seconds : W -> W * Z;
  bridge_draws : W -> W * BridgeDraws;
  on_lock : Shared W -> Shared W;
  on_items_changed : Shared W -> Shared W;
  save : StagedWrite -> Shared W -> Shared W * result ErrorCode unit;
  on_open_item : option (Z -> Shared W -> Shared W);
  on_show_unlock : option (Shared W -> Shared W);
  on_confirm_update : option (ConfirmUpdate -> Z -> Shared W -> Shared W * bool);
  confirm_timeout : Z;
}.

(** The calls to the hooks, in order. *)
Inductive Call :=
| CallLock
| CallAsked (summary : ConfirmUpdate) (allowed : bool)
| CallSave (w : StagedWrite)
| CallOpen (item : Z)
| CallShowUnlock
| CallChanged.

Record BridgeState (W : Type) := { shared : Shared W; calls : list Call }.
Arguments shared {W} _.
Arguments calls {W} _.

Section Server.
Context {C : Crypto} {K : KeyLib} {U : Unicode} {J : JsonLib} {UL : UrlLib} {SL : SiteLib UL} {L : TotpLib}.
Context {FL : FloatLib} {AC : Codec Activity} {LL : LookalikeLib} {AL : AppLib} {PL : PasskeyLib}.
Context {W : Type} {BH : BridgeHost W}.

Abbreviation B := (M (BridgeState W) ErrorCode).

(** One step on what is shared; a call of a hook. *)
Definition on_shared {A} (f : Shared W -> Shared W * result ErrorCode A) : B A := fun s =>
  let '(sh, r) := f (shared s) in ({| shared := sh; calls := calls s |}, r).
Definition call {A} (c : Call) (f : Shared W -> Shared W * result ErrorCode A) : B A := fun s =>
  let '(sh, r) := f (shared s) in ({| shared := sh; calls := calls s ++ [c] |}, r).
Definition from_rest {A} (f : W -> W * A) : B A :=
  on_shared (fun sh => let '(w, a) := f (sh_rest sh) in (with_rest w sh, Ok a)).
Definition on_limiter {A} (f : RateLimiter -> RateLimiter * A) : B A :=
  on_shared (fun sh => let '(l, a) := f (sh_limiter sh) in (with_limiter l sh, Ok a)).

Definition check_rate_limits (r : Request) : B ItemBudget :=
  _ ← (match request_class r with
       | Some class =>
           now ← from_rest instant;
           allowed ← on_limiter (allow class now);
           if (allowed : bool) then mret () else mthrow_ RateLimited
       | None => mret ()
       end : B ());
  now ← from_rest instant;
  match r with
  | SaveLogin _ _ _ _ (Some id) _ =>
      allowed ← on_limiter (allow_item_update id now);
      mret (if (allowed : bool) then Reserved id now else CoolingDown id)
  | SaveSso _ _ _ _ (Some id) _ =>
      allowed ← on_limiter (allow_item_update id now);
      if (allowed : bool) then mret (Reserved id now) else mthrow_ RateLimited
  | _ => mret BudgetNone
  end.

(** [dispatch_with] under the vault lock. *)
Definition dispatch_locked (r : Request) (consent : UpdateConsent) : B Dispatched :=
  now ← from_rest unix_seconds;
  d ← from_rest bridge_draws;
  on_shared (fun sh => let '(v, x) := dispatch_with d r now consent (sh_vault sh) in (with_vault v sh, x)).

(** The hook runs while the slot is held; the slot is freed however it ends. *)
Definition ask_user (summary : ConfirmUpdate) : B () :=
  match on_confirm_update with
  | None => mthrow_ Protocol.Denied
  | Some hook => fun s =>
      if sh_pending (shared s) then (s, Err Protocol.Busy)
      else
        let asking : B bool :=
          _ ← on_shared (fun sh => (with_pending true sh, Ok ()));
          started ← from_rest instant;
          allowed ← (fun s => let '(sh, a) := hook summary confirm_timeout (shared s) in
                              ({| shared := sh; calls := calls s ++ [CallAsked summary a] |}, Ok a) : _ * result ErrorCode bool);
          in_time ← (if (allowed : bool) then
                       now ← from_rest instant;
                       mret (saturating_duration_since now started <=? confirm_timeout)
                     else mret false : B bool);
          _ ← on_shared (fun sh => (with_pending false sh, Ok ()));
          mret in_time in
        (granted ← asking; if (granted : bool) then mret () else mthrow_ Protocol.Denied) s
  end.

Definition confirm_then_stage (r : Request) (summary : ConfirmUpdate) (epoch : Z) : B Dispatched :=
  _ ← ask_user summary;
  s ← mget;
  if negb (Vault.epoch (sh_vault (shared s)) =? epoch) then mthrow_ Protocol.Denied
  else dispatch_locked r Allowed.

Definition open_in_desktop (item : Z) : B () :=
  match on_open_item with
  | None => mthrow_ Protocol.Internal
  | Some hook => call (CallOpen item) (fun sh => (hook item sh, Ok ()))
  end.
Definition show_unlock : B () :=
  match on_show_unlock with
  | None => mthrow_ Protocol.Internal
  | Some hook => call CallShowUnlock (fun sh => (hook sh, Ok ()))
  end.
Definition items_changed : B () := call CallChanged (fun sh => (on_items_changed sh, Ok ())).
Definition save_write_ (w : StagedWrite) : B () := call (CallSave w) (save w).

Definition finish_dispatched (x : Dispatched) : B ResultBody :=
  match x with
  | Done body => mret body
  | Write w result => _ ← save_write_ w; mret result
  | Tidy w result => fun s =>
      match save_write_ w s with
      | (s, Ok _) => (_ ← items_changed; mret result) s
      | (s, Err _) => (s, Ok result)
      end
  | Open item result => _ ← open_in_desktop item; mret result
  | Confirm _ _ => mthrow_ Protocol.Internal
  end.

(** What follows the release of the vault lock. *)
Definition answer_dispatched (r : Request) (x : Dispatched) : B ResultBody :=
  x ← (match x with Confirm summary epoch => confirm_then_stage r summary epoch | other => mret other end : B Dispatched);
  result ← finish_dispatched x;
  _ ← (if changes_items r then items_changed else mret () : B ());
  mret result.

Definition handle_limited (r : Request) (consent : UpdateConsent) : B ResultBody :=
  match r with
  | ShowUnlock => _ ← show_unlock; mret RbShowUnlock
  | _ => x ← dispatch_locked r consent; answer_dispatched r x
  end.

(** A failed change gives its reservation back; one allowed inside the
    interval starts it again. *)
Definition settle (budget : ItemBudget) (ok : bool) : B () :=
  match budget, ok with
  | Reserved item at_, false => on_limiter (fun l => (release_item_update item at_ l, ()))
  | CoolingDown item, true =>
      now ← from_rest instant;
      on_limiter (fun l => (record_item_update item now l, ()))
  | _, _ => mret ()
  end.

Definition consent_of (budget : ItemBudget) : UpdateConsent :=
  match budget with CoolingDown _ => AskAlways | _ => AskIfRecent end.

Definition settled (budget : ItemBudget) (m : B ResultBody) : B ResultBody := fun s =>
  let '(s, result) := m s in ((settle budget (is_ok result) s).1, result).
Definition handle_request (r : Request) : B ResultBody :=
  budget ← check_rate_limits r;
  settled budget (handle_limited r (consent_of budget)).

Definition handle (r : Request) : B ResultBody :=
  match r with
  | Lock => _ ← call CallLock (fun sh => (on_lock sh, Ok ())); mret RbLock
  | _ => handle_request r
  end.

(** ** server.rs: one connection *)

Section Connection.
Context {WS : WireSerde}.

(** Bytes on the wire; [usize::MAX] when the answer cannot be written. *)
Definition wire_len (r : Response) : Z :=
  match to_bytes (OutResponse r) with Some b => len b | None => u64_max end.

(** Clear the tags of the last match that has any. *)
Fixpoint clear_last (l : list Match) : option (list Match) :=
  match l with
  | [] => None
  | m :: l =>
      match clear_last l with
      | Some l => Some (m :: l)
      | None =>
          if bool_decide (m_tags m = []) then None
          else Some ({| m_id := m_id m; m_title := m_title m; m_username := m_username m; m_has_totp := m_has_totp m;
                        m_strength := m_strength m; m_provider := m_provider m; m_tags := []; m_kind := m_kind m;
                        m_bank := m_bank m |} :: l)
      end
  end.
Definition with_matches (l : list Match) (e : Protocol.Entitlement) (r : Response) : Response :=
  {| r_v := r_v r; r_id := r_id r; r_result := Some (RbFindMatches l e); r_error := r_error r |}.

(** Every round clears one match's tags. *)
Fixpoint fit_matches (rounds : nat) (r : Response) (l : list Match) (e : Protocol.Entitlement) : list Match :=
  match rounds with
  | O => l
  | S rounds =>
      if MAX_RESPONSE_BYTES <? wire_len (with_matches l e r) then
        match clear_last l with
        | Some l => fit_matches rounds r l e
        | None => l
        end
      else l
  end.
Definition fit_frame (r : Response) : Response :=
  match r_result r with
  | Some (RbFindMatches l e) => with_matches (fit_matches (S (length l)) r l e) e r
  | _ => r
  end.

Definition answer (env : RequestEnvelope) (s : BridgeState W) : BridgeState W * Outgoing :=
  match handle (env_request env) s with
  | (s, Ok result) => (s, OutResponse (fit_frame (Protocol.ok (env_id env) result)))
  | (s, Err c) => (s, OutResponse (err (Some (env_id env)) c))
  end.

Definition handle_frame (bytes : list Z) (s : BridgeState W) : BridgeState W * Outgoing :=
  match parse_request bytes with
  | Ok env => answer env s
  | Err rejection => (s, OutResponse (rejection_response rejection))
  end.

(** A connection: what its peer sends, the answers queued for its writer, the
    requests answered on threads of their own, whether it is still read. *)
Record Conn := {
  input : list Piece;
  outbox : list (list Z);
  in_flight : list RequestEnvelope;
  reading : bool;
}.

(** Queue a message; one that cannot be written is not sent. *)
Definition send_ (m : Outgoing) (c : Conn) : Conn :=
  match to_bytes m with
  | Some b => {| input := input c; outbox := outbox c ++ [b]; in_flight := in_flight c; reading := reading c |}
  | None => c
  end.
Definition close_ (c : Conn) : Conn :=
  {| input := input c; outbox := outbox c; in_flight := in_flight c; reading := false |}.
Definition reply_or_close (m : Outgoing) (c : Conn) : Conn :=
  match to_bytes m with Some _ => send_ m c | None => close_ c end.

(** With no place left the request is answered [busy] at once. *)
Definition answer_in_background (env : RequestEnvelope) (c : Conn) : Conn :=
  if (length (in_flight c) <? MAX_BACKGROUND_PER_CONNECTION)%nat
  then {| input := input c; outbox := outbox c; in_flight := in_flight c ++ [env]; reading := reading c |}
  else send_ (OutResponse (err (Some (env_id env)) Protocol.Busy)) c.

(** One round of [read_loop]. *)
Definition read_round (c : Conn) (s : BridgeState W) : Conn * BridgeState W :=
  let '(rest, frame) := read_frame (input c) MAX_REQUEST_BYTES in
  let c := {| input := rest; outbox := outbox c; in_flight := in_flight c; reading := reading c |} in
  match frame with
  | Ok (Some bytes) =>
      match parse_request bytes with
      | Err rejection => (reply_or_close (OutResponse (rejection_response rejection)) c, s)
      | Ok env =>
          if may_wait_for_user (env_request env) then (answer_in_background env c, s)
          else let '(s, m) := answer env s in (reply_or_close m c, s)
      end
  | Ok None => (close_ c, s)
  | Err (FrameTooLarge _) => (close_ (send_ (OutResponse (err None Protocol.TooLarge)) c), s)
  | Err FrameIo => (close_ c, s)
  end.

(** The thread of the [i]-th request under way answers and ends. *)
Definition finish_round (i : nat) (c : Conn) (s : BridgeState W) : Conn * BridgeState W :=
  match in_flight c !! i with
  | None => (c, s)
  | Some env =>
      let '(s, m) := answer env s in
      (send_ m {| input := input c; outbox := outbox c; in_flight := delete i (in_flight c); reading := reading c |}, s)
  end.

(** What happens next on a connection: its reader goes on, one of its threads
    ends, or other connections and the application leave the shared state they
    please. *)
Inductive Turn := Reads | Finishes (i : nat) | Elsewhere (s : BridgeState W).
Definition take_turn (x : Conn * BridgeState W) (turn : Turn) : Conn * BridgeState W :=
  match turn with
  | Reads => if reading x.1 then read_round x.1 x.2 else x
  | Finishes i => finish_round i x.1 x.2
  | Elsewhere s => (x.1, s)
  end.
Definition opened (r : list Piece) : Conn := {| input := r; outbox := []; in_flight := []; reading := true |}.
Definition serve (r : list Piece) (s : BridgeState W) (turns : list Turn) : Conn * BridgeState W :=
  foldl take_turn (opened r, s) turns.
End Connection.
End Server.
