(* ===== verification/BridgeFacts.v ===== *)
(** * What the browser can and cannot obtain

    The frames of a connection read back whatever pieces they arrive in; an
    item's password changes made without the user are spaced by the limiter,
    and one made inside the interval was allowed on the desktop with the vault
    still in the same unlock; a page gets nothing from a locked vault or with
    the integration off; a frozen account gives no secret of a login and
    stages nothing; an item that is not saved for the page is answered like
    one that does not exist. *)

From Stdlib Require Import Floats.SpecFloat.
From S2P Require Import Prelude Protocol Errors Text Blob Url Clean Tags Totp Card Identity.
From S2P Require Import CustomField Bank Generator Sso Attachment Model Keys Store Origin Health BuildItem.
From S2P Require Import Vault Items Page IdentityPage ToyCodec Sync Replica Activity CardPage.
From S2P Require Import AppTarget Cbor Passkey PasskeyVault Lifecycle Bridge.

(** ** Frames *)

(** The bytes a reader will hand over, if nothing breaks it. *)
Definition piece_bytes (p : Piece) : list Z := match p with Data b l => b :: l | _ => [] end.
Definition stream_bytes (r : list Piece) : list Z := r ≫= piece_bytes.
Definition unbroken (r : list Piece) : Prop := Forall (fun p => p <> Broken) r.

Lemma unread_bytes l r : stream_bytes (unread l r) = l ++ stream_bytes r.
Proof. by destruct l. Qed.
Lemma unread_unbroken l r : unbroken r -> unbroken (unread l r).
Proof. destruct l; [done|]. intros H. by constructor. Qed.

(** Reading gives the next bytes of the stream, in whatever pieces. *)
Lemma fill_reads r : forall need acc, unbroken r -> (need <= length (stream_bytes r))%nat ->
  exists r', fill need acc r = Got (acc ++ take need (stream_bytes r)) r' /\
    stream_bytes r' = drop need (stream_bytes r) /\ unbroken r'.
Proof.
  induction r as [|p r IH]; intros need acc Hb Hn.
  { destruct need; [|cbn in Hn; lia]. exists []. cbn. by rewrite app_nil_r. }
  apply Forall_cons in Hb as [Hp Hb]. destruct need as [|need].
  { exists (p :: r). cbn. rewrite app_nil_r, drop_0. split; [done|]. split; [done|]. by constructor. }
  destruct p as [b l| |]; [| |done].
  - change (stream_bytes (Data b l :: r)) with ((b :: l) ++ stream_bytes r) in *.
    rewrite length_app in Hn. cbn [fill].
    destruct (Nat.leb_spec (S need) (length (b :: l))) as [Hle|Hgt].
    + exists (unread (drop (S need) (b :: l)) r). rewrite take_app_le by done. rewrite drop_app_le by done.
      rewrite unread_bytes. auto using unread_unbroken.
    + destruct (IH (S need - length (b :: l))%nat (acc ++ b :: l) Hb ltac:(lia)) as (r' & E & Hr & Hu).
      exists r'. rewrite E. rewrite take_app_ge, drop_app_ge by lia. by rewrite <- app_assoc.
  - change (stream_bytes (Interrupted :: r)) with (stream_bytes r) in *. exact (IH (S need) acc Hb Hn).
Qed.

Lemma frame_of_ok payload max f : frame_of payload max = Ok f ->
  f = le_bytes 4 (len payload) ++ payload /\ len payload <= max /\ len payload < 2 ^ 32.
Proof.
  unfold frame_of, u32_max. repeat case_match; intros [=]; subst. split; [done|]. lia.
Qed.

(** The length of a frame is read, and its payload is next. *)
Lemma frame_head payload max f more r : frame_of payload max = Ok f -> unbroken r -> stream_bytes r = f ++ more ->
  exists r1 r2, fill 4 [] r = Got (le_bytes 4 (len payload)) r1 /\ le_val (le_bytes 4 (len payload)) = len payload /\
    fill (Z.to_nat (len payload)) [] r1 = Got payload r2 /\ stream_bytes r2 = more /\ unbroken r2.
Proof.
  intros (-> & Hm & Hl)%frame_of_ok Hb E. rewrite <- app_assoc in E.
  assert (length (le_bytes 4 (len payload)) = 4%nat) as H4 by apply length_le_bytes.
  destruct (fill_reads r 4 [] Hb) as (r1 & E1 & R1 & B1).
  { rewrite E, length_app, H4. lia. }
  rewrite E in E1, R1. rewrite take_app_length' in E1 by done. rewrite drop_app_length' in R1 by done.
  destruct (fill_reads r1 (length payload) [] B1) as (r2 & E2 & R2 & B2).
  { rewrite R1, length_app. lia. }
  rewrite R1 in E2, R2. rewrite take_app_length in E2. rewrite drop_app_length in R2.
  exists r1, r2. rewrite Nat2Z.id, le_val_bytes, Z.mod_small by lia. auto.
Qed.

(** A frame written reads back as its payload in whatever pieces it
    arrives and however reads are interrupted, and the reader is left at the
    byte after it. *)
Lemma frame_reads_back payload max f more r :
  frame_of payload max = Ok f -> unbroken r -> stream_bytes r = f ++ more ->
  exists r', read_frame r max = (r', Ok (Some payload)) /\ stream_bytes r' = more /\ unbroken r'.
Proof.
  intros Hf Hb E. destruct (frame_head _ _ _ _ _ Hf Hb E) as (r1 & r2 & E1 & Hn & E2 & R2 & B2).
  apply frame_of_ok in Hf as (-> & Hm & _). exists r2. unfold read_frame. rewrite E1, Hn, E2.
  destruct (Z.ltb_spec max (len payload)); [lia|auto].
Qed.

Lemma frame_reads_back_witness :
  frame_of [1; 2; 3] 16 = Ok [3; 0; 0; 0; 1; 2; 3] /\
  exists r', read_frame [Data 3 []; Interrupted; Data 0 [0]; Data 0 [1; 2]; Interrupted; Data 3 [9]] 16 = (r', Ok (Some [1; 2; 3])) /\
    stream_bytes r' = [9] /\ unbroken r'.
Proof.
  split; [vm_compute; reflexivity|]. apply (frame_reads_back [1; 2; 3] 16 [3; 0; 0; 0; 1; 2; 3] [9]).
  - vm_compute. reflexivity.
  - repeat constructor; discriminate.
  - vm_compute. reflexivity.
Defined.

(** A frame over the limit is refused on its length alone; once its payload is
    thrown away the next frame is read. *)
Lemma discard_resyncs payload f more r max : frame_of payload u32_max = Ok f -> max < len payload ->
  unbroken r -> stream_bytes r = f ++ more ->
  exists r' r'', read_frame r max = (r', Err (FrameTooLarge (len payload))) /\
    discard r' (len payload) = (r'', Ok ()) /\ stream_bytes r'' = more /\ unbroken r''.
Proof.
  intros Hf Hx Hb E. destruct (frame_head _ _ _ _ _ Hf Hb E) as (r1 & r2 & E1 & Hn & E2 & R2 & B2).
  exists r1, r2. unfold read_frame, discard. rewrite E1, Hn, E2.
  destruct (Z.ltb_spec max (len payload)); [auto|lia].
Qed.

(** ** The relay *)

Lemma fill_got r : forall need acc bs r', fill need acc r = Got bs r' ->
  length (stream_bytes r) = (need + length (stream_bytes r'))%nat.
Proof.
  induction r as [|p r IH]; intros need acc bs r'; [by destruct need; cbn; intros [= <- <-]|].
  destruct need as [|need]; [by intros [= <- <-]|]. destruct p as [b l| |]; [|apply (IH (S need))|done].
  change (stream_bytes (Data b l :: r)) with ((b :: l) ++ stream_bytes r). rewrite length_app. cbn [fill].
  destruct (Nat.leb_spec (S need) (length (b :: l))).
  - intros [= <- <-]. rewrite unread_bytes, length_app, length_drop. cbn [length] in *. lia.
  - intros E%IH. cbn [length] in *. lia.
Qed.

(** A frame that is read, or refused and thrown away, has been consumed. *)
Lemma read_frame_consumes r max :
  match read_frame r max with
  | (r', Ok (Some _)) => (length (stream_bytes r') < length (stream_bytes r))%nat
  | (r', Err (FrameTooLarge _)) => (length (stream_bytes r') < length (stream_bytes r))%nat
  | _ => True
  end.
Proof.
  unfold read_frame. destruct (fill 4 [] r) as [bs r1|[]|] eqn:E; try done.
  apply fill_got in E. destruct (_ <? _); [lia|]. destruct (fill _ [] r1) as [bs' r2| |] eqn:E2; try done.
  apply fill_got in E2. lia.
Qed.
Lemma discard_consumes r n : match discard r n with (r', Ok _) => (length (stream_bytes r') <= length (stream_bytes r))%nat | _ => True end.
Proof. unfold discard. destruct (fill _ [] r) eqn:E; try done. apply fill_got in E. lia. Qed.

Section Relay.
Context {WS : WireSerde} {W : Type} {HI : HostIo W}.

Lemma host_round_consumes (h : HostState W) :
  (host_round h).2 = true -> (length (stream_bytes (host_input (host_round h).1)) < length (stream_bytes (host_input h)))%nat.
Proof.
  unfold host_round. pose proof (read_frame_consumes (host_input h) MAX_REQUEST_BYTES) as Hr.
  destruct (read_frame _ _) as [r1 [[bytes|]|[|n]]]; try done.
  - destruct (parse_request bytes) as [env|rj]; [|by destruct (emit _ _)].
    destruct (request_bytes env); [|done]. destruct (send_upstream _ _ _) as [w []]; [done|by destruct (emit _ _)].
  - pose proof (discard_consumes r1 n) as Hd. destruct (discard r1 n) as [r2 [[]|]]; [|done]. destruct (emit _ _). cbn [fst snd host_input] in *. lia.
Qed.

(** The relay ends: it goes round at most once per byte the extension
    sends before its stream ends, whatever the desktop does. *)
Lemma host_run_ends (h : HostState W) more :
  host_run (S (length (stream_bytes (host_input h))) + more) h = host_run (S (length (stream_bytes (host_input h)))) h.
Proof.
  remember (length (stream_bytes (host_input h))) as n eqn:En. assert (length (stream_bytes (host_input h)) <= n)%nat as Hn by lia. clear En.
  revert h Hn. induction n as [|n IH]; intros h Hn; cbn [host_run Nat.add]; pose proof (host_round_consumes h) as Hc;
    destruct (host_round h) as [h' []]; try done; cbn in Hc; specialize (Hc eq_refl); [lia|]. apply (IH h'). lia.
Qed.
End Relay.

(** ** The limiter *)

(** A run of the limiter: [now] is the latest instant it was asked at, and the
    list holds the reservations granted and not given back.  Only a
    reservation granted is given back ([Bridge.settle]). *)
Inductive limiter_run : Z -> RateLimiter -> list (Z * Z) -> Prop :=
| RunStart now : limiter_run now default_limiter []
| RunLater now now' l kept : limiter_run now l kept -> now <= now' -> limiter_run now' l kept
| RunAllow class at_ now l kept : limiter_run now l kept -> limiter_run now (allow class at_ l).1 kept
| RunAsk item now l kept : limiter_run now l kept ->
    limiter_run now (allow_item_update item now l).1
      (if (allow_item_update item now l).2 then kept ++ [(item, now)] else kept)
| RunRecord item now l kept : limiter_run now l kept -> limiter_run now (record_item_update item now l) kept
| RunRelease item at_ now l kept : limiter_run now l kept -> (item, at_) ∈ kept ->
    limiter_run now (release_item_update item at_ l) (filter (fun p => p <> (item, at_)) kept).

(** The reservation is still in the limiter's table, or its interval is over. *)
Definition covered (now : Z) (l : RateLimiter) (p : Z * Z) : Prop :=
  (exists t, updates l !! p.1 = Some t /\ p.2 <= t) \/ p.2 + ITEM_UPDATE_INTERVAL <= now.
Definition spaced (p q : Z * Z) : Prop := p.1 = q.1 -> p.2 + ITEM_UPDATE_INTERVAL <= q.2.
Definition run_ok (now : Z) (l : RateLimiter) (kept : list (Z * Z)) : Prop :=
  Forall (fun p => p.2 <= now /\ covered now l p) kept /\ StronglySorted spaced kept.

Lemma covered_asked item now l p : covered now l p -> covered now (allow_item_update item now l).1 p.
Proof.
  intros [(t & Ht & Hle)|Hover]; [|by right]. unfold allow_item_update.
  destruct (decide (ITEM_UPDATE_INTERVAL <= saturating_duration_since now t)) as [Hd|Hd].
  { right. unfold saturating_duration_since, ITEM_UPDATE_INTERVAL, NANOS_PER_SEC in *. lia. }
  assert (filter (fun p : Z * Z => saturating_duration_since now p.2 < ITEM_UPDATE_INTERVAL) (updates l) !! p.1 = Some t) as Hf.
  { apply map_lookup_filter_Some. split; [done|cbn; lia]. }
  left. destruct (_ !! item) as [u|] eqn:Eu; cbn [fst with_updates updates].
  - by exists t.
  - destruct (decide (p.1 = item)) as [<-|Hne]; [congruence|]. exists t. by rewrite lookup_insert_ne.
Qed.

Lemma granted_after item now l : (allow_item_update item now l).2 = true ->
  forall t, updates l !! item = Some t -> t + ITEM_UPDATE_INTERVAL <= now.
Proof.
  unfold allow_item_update. destruct (_ !! item) eqn:E; [done|]. intros _ t Ht.
  destruct (decide (t + ITEM_UPDATE_INTERVAL <= now)) as [|Hn]; [done|].
  exfalso. assert (filter (fun p : Z * Z => saturating_duration_since now p.2 < ITEM_UPDATE_INTERVAL) (updates l) !! item = Some t).
  { apply map_lookup_filter_Some. split; [done|cbn]. unfold saturating_duration_since, ITEM_UPDATE_INTERVAL, NANOS_PER_SEC in *. lia. }
  congruence.
Qed.
Lemma granted_recorded item now l : (allow_item_update item now l).2 = true ->
  updates (allow_item_update item now l).1 !! item = Some now.
Proof. unfold allow_item_update. destruct (_ !! item) eqn:E; [done|]. intros _. cbn. by rewrite lookup_insert_eq. Qed.

Lemma sorted_snoc {A} (R : A -> A -> Prop) l x : StronglySorted R l -> Forall (fun y => R y x) l ->
  StronglySorted R (l ++ [x]).
Proof.
  induction 1 as [|y l Hs IH Hy]; cbn; intros Hf; [by repeat constructor|].
  apply Forall_cons in Hf as [Hx Hf]. constructor; [auto|]. apply Forall_app. auto.
Qed.
Lemma sorted_filter {A} (R : A -> A -> Prop) (P : A -> Prop) `{forall x, Decision (P x)} l :
  StronglySorted R l -> StronglySorted R (filter P l).
Proof.
  induction 1 as [|y l Hs IH Hy]; [constructor|]. rewrite filter_cons. case_decide; [|done].
  constructor; [done|]. apply Forall_forall. intros x [_ Hx]%list_elem_of_filter. by eapply Forall_forall in Hy.
Qed.
Lemma sorted_pair {A} (R : A -> A -> Prop) l p q : StronglySorted R l -> p ∈ l -> q ∈ l -> p = q \/ R p q \/ R q p.
Proof.
  induction 1 as [|y l Hs IH Hy]; [by intros ?%not_elem_of_nil|]. rewrite Forall_forall in Hy.
  rewrite !elem_of_cons. intros [->|Hp] [->|Hq]; auto.
Qed.

Lemma run_granted item now l kept : run_ok now l kept -> (allow_item_update item now l).2 = true ->
  run_ok now (allow_item_update item now l).1 (kept ++ [(item, now)]).
Proof.
  intros [Hc Hs] Hg. split.
  - apply Forall_app. split.
    + eapply Forall_impl; [exact Hc|]. intros p [??]. auto using covered_asked.
    + apply Forall_singleton. split; [cbn; lia|]. left. exists now. split; [by apply granted_recorded|cbn; lia].
  - apply sorted_snoc; [done|]. eapply Forall_impl; [exact Hc|].
    intros [i a] [_ [(t & Ht & Hle)|Hover]] E; cbn in *; [|done]. subst i.
    specialize (granted_after _ _ _ Hg t Ht). lia.
Qed.

Lemma run_released item at_ now l kept : run_ok now l kept -> (item, at_) ∈ kept ->
  run_ok now (release_item_update item at_ l) (filter (fun p => p <> (item, at_)) kept).
Proof.
  intros [Hc Hs] Hin. split; [|by apply sorted_filter]. rewrite Forall_forall in Hc.
  apply Forall_forall. intros [i a] [Hne Hp]%list_elem_of_filter. destruct (Hc _ Hp) as [Hle Hcov].
  split; [done|]. unfold release_item_update. case_bool_decide as Ht; [|done].
  destruct Hcov as [(t & Hu & Hat)|Hover]; [|by right]. cbn [fst snd] in *.
  destruct (decide (i = item)) as [->|Hi].
  - rewrite Ht in Hu. injection Hu as <-. right. cbn. destruct (Hc _ Hin) as [Hnow _].
    destruct (sorted_pair _ _ _ _ Hs Hp Hin) as [?|[Hsp|Hsp]]; [done| |]; specialize (Hsp eq_refl); cbn in *.
    + lia.
    + unfold ITEM_UPDATE_INTERVAL, NANOS_PER_SEC in *. lia.
  - left. exists t. cbn. by rewrite lookup_delete_ne.
Qed.

Lemma run_later now now' l kept : run_ok now l kept -> now <= now' -> run_ok now' l kept.
Proof.
  intros [Hc Hs] Hn. split; [|done]. eapply Forall_impl; [exact Hc|].
  intros p [Hle [Ht|Hover]]; (split; [lia|]); [by left|right; lia].
Qed.
Lemma covered_same now l l' p : updates l' = updates l -> covered now l p -> covered now l' p.
Proof. intros E. unfold covered. by rewrite E. Qed.
Lemma run_recorded item now l kept : run_ok now l kept -> run_ok now (record_item_update item now l) kept.
Proof.
  intros [Hc Hs]. split; [|done]. eapply Forall_impl; [exact Hc|].
  intros [i a] [Hle Hcov]. split; [done|]. destruct Hcov as [(t & Ht & Hat)|Hover]; [|by right].
  left. cbn in *. destruct (decide (i = item)) as [->|Hne].
  - exists now. by rewrite lookup_insert_eq.
  - exists t. by rewrite lookup_insert_ne.
Qed.

Lemma limiter_run_ok now l kept : limiter_run now l kept -> run_ok now l kept.
Proof.
  induction 1 as [now|now now' l kept _ IH Hn|class at_ now l kept _ IH|item now l kept _ IH|item now l kept _ IH|item at_ now l kept _ IH Hin].
  - split; constructor.
  - by eapply run_later.
  - destruct IH as [Hc Hs]. split; [|done]. eapply Forall_impl; [exact Hc|]. intros p [??]. split; [done|].
    eapply covered_same; [|done]. unfold allow. by destruct class, (take_token _ _).
  - destruct (_.2) eqn:E; [by apply run_granted|]. destruct IH as [Hc Hs]. split; [|done].
    eapply Forall_impl; [exact Hc|]. intros p [??]. auto using covered_asked.
  - by apply run_recorded.
  - by apply run_released.
Qed.

(** However threads take turns at the limiter, two changes of one item
    that went through on a reservation were reserved at least the interval
    apart: refusals, failures given back and changes the user allowed in
    between make no room. *)
Lemma kept_updates_spaced now l kept i j item a b :
  limiter_run now l kept -> kept !! i = Some (item, a) -> kept !! j = Some (item, b) -> (i < j)%nat ->
  a + ITEM_UPDATE_INTERVAL <= b.
Proof.
  intros [_ Hs]%limiter_run_ok. revert i j. induction Hs as [|p kept Hs IH Hp]; intros i j Hi Hj Hij; [done|].
  destruct i as [|i], j as [|j]; try lia; cbn in Hi, Hj.
  - injection Hi as ->. rewrite Forall_forall in Hp. apply (Hp (item, b)); [by eapply list_elem_of_lookup_2|done].
  - apply (IH i j); auto; lia.
Qed.

Lemma kept_updates_spaced_witness :
  exists l, limiter_run ITEM_UPDATE_INTERVAL l [(7, 0); (7, ITEM_UPDATE_INTERVAL)] /\ 0 + ITEM_UPDATE_INTERVAL <= ITEM_UPDATE_INTERVAL.
Proof.
  eexists. split.
  - exact (RunAsk 7 ITEM_UPDATE_INTERVAL _ _ (RunLater 0 ITEM_UPDATE_INTERVAL _ _ (RunAsk 7 0 _ _ (RunStart 0)) ltac:(vm_compute; discriminate))).
  - apply (kept_updates_spaced ITEM_UPDATE_INTERVAL _ [(7, 0); (7, ITEM_UPDATE_INTERVAL)] 0 1 7 0 ITEM_UPDATE_INTERVAL
      (RunAsk 7 ITEM_UPDATE_INTERVAL _ _ (RunLater 0 ITEM_UPDATE_INTERVAL _ _ (RunAsk 7 0 _ _ (RunStart 0)) ltac:(vm_compute; discriminate))));
      [reflexivity|reflexivity|lia].
Defined.

(** *** Bursts *)

(** The requests of a class allowed when [n] are made at one instant. *)
Fixpoint burst (n : nat) (class : RequestClass) (t : Z) (l : RateLimiter) : nat :=
  match n with
  | O => 0
  | S n => let '(l, ok) := allow class t l in ((if ok then 1 else 0) + burst n class t l)%nat
  end.

Definition burst_of (class : RequestClass) : nat := match class with Lookup => 60 | Secret => 10 end.
Definition bucket_of (class : RequestClass) (l : RateLimiter) : Bucket :=
  match class with Lookup => lookup_ l | Secret => secret_ l end.

(** A bucket of the class with [k] tokens left, last asked at [t] if ever. *)
Definition holds (class : RequestClass) (t : Z) (k : nat) (b : Bucket) : Prop :=
  capacity b = capacity (bucket_of class default_limiter) /\ per_second b = per_second (bucket_of class default_limiter) /\
  tokens b = f64_of_Z (Z.of_nat k) /\ (last b = None \/ last b = Some t).

Lemma no_time_no_tokens class : Forall (fun k =>
  let b := bucket_of class default_limiter in let x := f64_of_Z (Z.of_nat k) in
  f64_min (SFadd 53 1024 x (SFmul 53 1024 (as_secs_f64 0) (per_second b))) (capacity b) = x /\
  SFleb (f64_of_Z 1) x = (1 <=? k)%nat /\ SFsub 53 1024 (f64_of_Z (Z.of_nat (S k))) (f64_of_Z 1) = x)
  (seq 0 (S (burst_of class))).
Proof. destruct class; repeat constructor. Qed.

Lemma take_holds class t k b : holds class t k b -> (k <= burst_of class)%nat ->
  holds class t (k - 1) (take_token b t).1 /\ (take_token b t).2 = (1 <=? k)%nat.
Proof.
  intros (Hc & Hp & Ht & Hl) Hk.
  pose proof (fun j (Hj : j ∈ seq 0 (S (burst_of class))) => proj1 (Forall_forall _ _) (no_time_no_tokens class) j Hj) as Hn.
  setoid_rewrite elem_of_seq in Hn. cbn zeta in Hn.
  destruct (Hn k ltac:(lia)) as (Hr & Hle & _).
  assert (refilled b t = f64_of_Z (Z.of_nat k)) as Hf.
  { unfold refilled. destruct Hl as [->| ->]; [done|]. unfold saturating_duration_since. rewrite Z.sub_diag, Hp, Hc, Ht. exact Hr. }
  unfold take_token. rewrite Hf, Hle. destruct k as [|k]; cbn [Nat.leb].
  - split; [|done]. repeat split; try done. by right.
  - split; [|done]. destruct (Hn k ltac:(lia)) as (_ & _ & Hs). repeat split; try done; [|by right]. cbn [tokens fst].
    by rewrite Hs, Nat.sub_succ, Nat.sub_0_r.
Qed.

(** At one instant a class lets through its burst and no more. *)
Lemma burst_is_bounded class t n : burst n class t default_limiter = Nat.min n (burst_of class).
Proof.
  assert (forall n k l, (k <= burst_of class)%nat -> holds class t k (bucket_of class l) -> burst n class t l = Nat.min n k) as H.
  { clear n. induction n as [|n IH]; intros k l Hk Hh; [done|]. cbn [burst].
    destruct (take_holds class t k _ Hh Hk) as [Hh' Hb].
    assert (exists l', allow class t l = (l', (1 <=? k)%nat) /\ bucket_of class l' = (take_token (bucket_of class l) t).1) as (l' & -> & El).
    { unfold allow. destruct class; cbn [bucket_of] in *; destruct (take_token _ t) as [b ok]; cbn in *; subst ok; by eexists. }
    rewrite <- El in Hh'. rewrite (IH (k - 1)%nat l') by (done || lia). destruct k; cbn; lia. }
  apply H; [done|]. destruct class; repeat split; by left.
Qed.

(** ** Answering a request *)

Section Facts.
Context {C : Crypto} {K : KeyLib} {U : Unicode} {J : JsonLib} {UL : UrlLib} {SL : SiteLib UL} {L : TotpLib}.
Context {FL : FloatLib} {AC : Codec Activity} {LL : LookalikeLib} {AL : AppLib} {PL : PasskeyLib}.
Context {W : Type} {BH : BridgeHost W}.

Abbreviation B := (M (BridgeState W) ErrorCode).
Abbreviation vault_of s := (sh_vault (shared s)).

(** A step that leaves the vault alone and calls no hook. *)
Definition silent {A} (m : B A) : Prop := forall s, calls (m s).1 = calls s /\ vault_of (m s).1 = vault_of s.

Lemma silent_ret {A} (a : A) : silent (mret a).
Proof. by intros s. Qed.
Lemma silent_throw {A} e : silent (mthrow_ e : B A).
Proof. by intros s. Qed.
Lemma silent_bind {A A'} (m : B A) (f : A -> B A') : silent m -> (forall a, silent (f a)) -> silent (m ≫= f).
Proof.
  intros Hm Hf s. specialize (Hm s). unfold mbind, M_bind. destruct (m s) as [s1 [a|e]]; cbn in *; [|done].
  specialize (Hf a s1). destruct (f a s1) as [s2 r]; cbn in *. destruct Hm as [<- <-], Hf as [-> ->]. done.
Qed.
Lemma silent_rest {A} (f : W -> W * A) : silent (from_rest f).
Proof. intros s. unfold from_rest, on_shared. by destruct (f _). Qed.
Lemma silent_limiter {A} (f : RateLimiter -> RateLimiter * A) : silent (on_limiter f).
Proof. intros s. unfold on_limiter, on_shared. by destruct (f _). Qed.

Lemma silent_limits r : silent (check_rate_limits r).
Proof.
  unfold check_rate_limits. apply silent_bind.
  - destruct (request_class r); [|apply silent_ret]. apply silent_bind; [apply silent_rest|intros now].
    apply silent_bind; [apply silent_limiter|]. intros []; [apply silent_ret|apply silent_throw].
  - intros _. apply silent_bind; [apply silent_rest|intros now].
    destruct r; try apply silent_ret; (destruct item_id; [|apply silent_ret]);
      (apply silent_bind; [apply silent_limiter|intros []; (apply silent_ret || apply silent_throw)]).
Qed.
Lemma silent_settle budget ok : silent (settle budget ok).
Proof.
  destruct budget, ok; cbn [settle]; try apply silent_ret; try apply silent_limiter.
  apply silent_bind; [apply silent_rest|]. intros. apply silent_limiter.
Qed.

(** What the hooks are called for is what [handle_limited] calls them for. *)
Lemma handle_cases r : r <> Lock -> forall s,
  (exists c s1, handle r s = (s1, Err c) /\ calls s1 = calls s /\ vault_of s1 = vault_of s) \/
  (exists budget s1, check_rate_limits r s = (s1, Ok budget) /\ calls s1 = calls s /\ vault_of s1 = vault_of s /\
     (handle r s).2 = (handle_limited r (consent_of budget) s1).2 /\
     calls (handle r s).1 = calls (handle_limited r (consent_of budget) s1).1 /\
     vault_of (handle r s).1 = vault_of (handle_limited r (consent_of budget) s1).1).
Proof.
  intros Hr s. assert (handle r s = handle_request r s) as -> by by destruct r.
  unfold handle_request, mbind, M_bind. destruct (silent_limits r s) as [Hc Hv].
  destruct (check_rate_limits r s) as [s1 [budget|c]]; cbn [fst] in *; [|left; by exists c, s1].
  right. exists budget, s1. unfold settled. destruct (handle_limited r _ s1) as [s2 x].
  destruct (silent_settle budget (is_ok x) s2). done.
Qed.

(** The vault is the one [dispatch_with] leaves; nothing else happens. *)
Lemma dispatch_locked_run r consent s : let now := (unix_seconds (sh_rest (shared s))).2 in exists d w,
  dispatch_locked r consent s =
    ({| shared := with_vault (dispatch_with d r now consent (vault_of s)).1 (with_rest w (shared s)); calls := calls s |},
     (dispatch_with d r now consent (vault_of s)).2).
Proof.
  unfold dispatch_locked, mbind, M_bind, from_rest, on_shared.
  destruct (unix_seconds (sh_rest (shared s))) as [w1 now]. cbn [shared sh_rest with_rest].
  destruct (bridge_draws w1) as [w2 d]. cbn [shared with_rest sh_vault snd]. exists d, w2.
  by destruct (dispatch_with d r now consent (sh_vault (shared s))).
Qed.

(** *** The switch *)

Definition page_access (v : VaultService) : Prop :=
  exists ses, session v = Ok ses /\ browser_integration (ses_settings ses) = true.

Lemma require_enabled_cases v : page_access v \/ exists c, require_enabled v = Err c.
Proof.
  unfold page_access, require_enabled, settings. destruct (session v) as [ses|e]; cbn [mbind result_bind map_err]; [|eauto].
  destruct (browser_integration (ses_settings ses)) eqn:E; eauto.
Qed.

Lemma dispatch_disabled d r now consent v c : from_page r = true -> require_enabled v = Err c ->
  dispatch_with d r now consent v = (v, Err c).
Proof. intros Hr Hv. unfold dispatch_with, mbind at 1, M_bind at 1. rewrite Hr. unfold mread. by rewrite Hv. Qed.

Definition uses_vault (r : Request) : bool := match r with Lock | ShowUnlock => false | _ => true end.
Lemma limited_dispatches r consent s : uses_vault r = true ->
  handle_limited r consent s = (dispatch_locked r consent ≫= answer_dispatched r) s.
Proof. by destruct r. Qed.

(** A page gets nothing while the vault is locked or the browser
    integration is off: the request fails, no hook runs, nothing is staged or
    sent, and the vault is as it was. *)
Lemma page_needs_the_switch r s :
  page_access (vault_of s) \/ from_page r = false \/
  exists c s', handle r s = (s', Err c) /\ calls s' = calls s /\ vault_of s' = vault_of s.
Proof.
  destruct (require_enabled_cases (vault_of s)) as [?|[c Hc]]; [by left|right].
  destruct (from_page r) eqn:Hp; [right|by left].
  assert (r <> Lock) as Hl by by intros ->.
  destruct (handle_cases r Hl s) as [(c' & s1 & H1 & H2 & H3)|(budget & s1 & _ & H2 & H3 & Hr & Hcs & Hv)]; [eauto|].
  rewrite limited_dispatches in Hr, Hcs, Hv by by destruct r.
  destruct (dispatch_locked_run r (consent_of budget) s1) as (d & w & Hd). set (now := (unix_seconds _).2) in *.
  rewrite H3, (dispatch_disabled _ _ _ _ _ _ Hp Hc) in Hd. unfold mbind, M_bind in Hr, Hcs, Hv. rewrite Hd in Hr, Hcs, Hv.
  cbn in Hr, Hcs, Hv. destruct (handle r s) as [s' x]. cbn in *. exists c, s'. by rewrite Hr, Hcs, Hv, H2.
Qed.

(** *** A frozen account *)

Definition is_frozen (v : VaultService) : Prop := Store.entitlement (plan (store v)) = Store.Frozen.
Definition secret_of_login (b : ResultBody) : bool := match b with RbFillItem _ _ _ _ => true | _ => false end.
Definition asks_passkeys (r : Request) : bool := match r with FindPasskeys _ _ _ _ => true | _ => false end.

(** What a frozen account's requests come to. *)
Definition frozen_answer (r : Request) (x : Dispatched) : bool :=
  match x with
  | Done b | Open _ b => negb (secret_of_login b)
  | Tidy _ b => asks_passkeys r && negb (secret_of_login b)
  | Write _ _ | Confirm _ _ => false
  end.

Ltac bind_steps :=
  repeat match goal with
  | H : (_ ≫= _) _ = (_, Ok _) |- _ => apply M_bind_Ok in H as (? & ? & ? & H)
  | H : mret _ _ = (_, Ok _) |- _ => injection H as <- <-
  end.

Lemma dispatch_frozen d r now consent v v' x :
  is_frozen v -> dispatch_with d r now consent v = (v', Ok x) -> frozen_answer r x = true /\ changes_items r = false.
Proof.
  intros Hf H. unfold dispatch_with in H. apply M_bind_Ok in H as (? & v1 & Hs & H).
  assert (v1 = v) as ->. { destruct (from_page r); by injection Hs. }
  apply M_bind_Ok in H as (e & v2 & He & H). unfold core, entitlement in He. rewrite Hf in He.
  injection He as <- <-. destruct r; cbn [refused_when_frozen andb] in H; try done; cbn [dispatch_request] in H;
    unfold dispatch_matches, dispatch_lookalike, dispatch_totp in H; (split; [|done]); try (bind_steps; done).
  - unfold dispatch_fill in H. apply M_bind_Ok in H as (m & ? & ? & H). by destruct m.
  - unfold dispatch_generate in H. bind_steps. done.
  - unfold dispatch_find_passkeys in H. bind_steps. match goal with t : option StagedWrite |- _ => by destruct t end.
  - unfold dispatch_passkey_get in H. bind_steps. done.
  - unfold dispatch_open in H. apply M_bind_Ok in H as (m & ? & ? & H). destruct m; [|done]. by injection H as <- <-.
Qed.

(** What a request's calls and answer come to, from what was dispatched. *)
Lemma handle_dispatched r s : uses_vault r = true ->
  (exists c s', handle r s = (s', Err c) /\ calls s' = calls s) \/
  exists budget s1 d s2, let now := (unix_seconds (sh_rest (shared s1))).2 in check_rate_limits r s = (s1, Ok budget) /\ calls s2 = calls s /\ vault_of s1 = vault_of s /\
    vault_of s2 = (dispatch_with d r now (consent_of budget) (vault_of s)).1 /\
    match (dispatch_with d r now (consent_of budget) (vault_of s)).2 with
    | Err c => (handle r s).2 = Err c /\ calls (handle r s).1 = calls s
    | Ok x =>
        (handle r s).2 = (answer_dispatched r x s2).2 /\ calls (handle r s).1 = calls (answer_dispatched r x s2).1
    end.
Proof.
  intros Hu. assert (r <> Lock) as Hl by by intros ->.
  destruct (handle_cases r Hl s) as [(c & s1 & H1 & H2 & _)|(budget & s1 & Hb & H2 & H3 & Hr & Hc & _)]; [left; eauto|right].
  rewrite limited_dispatches in Hr, Hc by done.
  destruct (dispatch_locked_run r (consent_of budget) s1) as (d & w & Hd). set (now := (unix_seconds _).2) in *. rewrite H3 in Hd.
  exists budget, s1, d.
  exists {| shared := with_vault (dispatch_with d r now (consent_of budget) (vault_of s)).1 (with_rest w (shared s1)); calls := calls s1 |}.
  intros now'. change now' with now. split; [done|]. split; [exact H2|]. split; [exact H3|]. split; [done|].
  destruct (dispatch_with _ _ _ _ _) as [v' [x|c]]; cbn [fst snd] in *.
  - by rewrite (run_bind _ _ _ _ _ Hd) in Hr, Hc.
  - rewrite (run_bind_err _ _ _ _ _ Hd) in Hr, Hc. by rewrite <- H2.
Qed.

(** The hooks called since [s]. *)
Definition since (s s' : BridgeState W) : list Call := drop (length (calls s)) (calls s').
Lemma since_app s s' l : calls s' = calls s ++ l -> since s s' = l.
Proof. intros E. unfold since. rewrite E. apply drop_app_length. Qed.
Lemma since_same s s' : calls s' = calls s -> since s s' = [].
Proof. intros E. apply since_app. by rewrite app_nil_r. Qed.
Definition is_save (c : Call) : bool := match c with CallSave _ => true | _ => false end.

(** What finishing an answer that writes nothing calls. *)
Lemma finish_calls r s0 x s : calls s = calls s0 -> frozen_answer r x = true -> changes_items r = false ->
  let m := answer_dispatched r x s in
  (existsb is_save (since s0 m.1) = true -> asks_passkeys r = true) /\
  (forall b, m.2 = Ok b -> secret_of_login b = false).
Proof.
  intros Hs Hx Hr m. subst m. unfold answer_dispatched. destruct x as [b|w b|w b|item b|sm e]; cbn in Hx; try done.
  - cbn. rewrite Hr. cbn. rewrite since_same by done. split; [done|]. intros b' [= <-]. by apply negb_true_iff.
  - apply andb_true_iff in Hx as [Hk Hb]. split; [done|]. intros b'.
    unfold mbind, M_bind. cbn [finish_dispatched mret M_ret]. unfold save_write_, items_changed, call, mbind, M_bind.
    destruct (save w (shared s)) as [sh [u|c]]; rewrite Hr; cbn; intros [= <-]; by apply negb_true_iff.
  - unfold mbind, M_bind. cbn [finish_dispatched mret M_ret]. unfold open_in_desktop, mbind, M_bind.
    destruct on_open_item as [hook|]; rewrite ?Hr; cbn; split; try done.
    + rewrite (since_app _ _ [CallOpen item]); [done|]. cbn. by rewrite Hs.
    + intros b' [= <-]. by apply negb_true_iff.
    + by rewrite since_same.
Qed.

(** The requests answered without the vault. *)
Lemma handle_without_vault r s : uses_vault r = false ->
  existsb is_save (since s (handle r s).1) = false /\ forall b, (handle r s).2 = Ok b -> secret_of_login b = false.
Proof.
  destruct r; try done; intros _.
  - cbn. rewrite (since_app _ _ [CallLock]) by done. split; [done|]. by intros b [= <-].
  - destruct (handle_cases ShowUnlock ltac:(done) s) as [(c & s1 & -> & H2 & _)|(budget & s1 & _ & H2 & _ & Hr & Hc & _)].
    { cbn. by rewrite since_same. }
    unfold since. rewrite Hr, Hc. cbn [handle_limited]. unfold show_unlock, mbind, M_bind.
    destruct on_show_unlock as [hook|]; cbn; rewrite H2.
    + rewrite drop_app_length. split; [done|]. by intros b [= <-].
    + by rewrite drop_all.
Qed.

(** C31: once the trial has ended, no request gets a login's password or has
    anything written; only the clean-up of passkeys the site replaced is
    still offered to the server. *)
Theorem frozen_fills_and_writes_nothing r s :
  Store.entitlement (plan (store (vault_of s))) = Store.Full \/
  ((existsb is_save (since s (handle r s).1) = true -> asks_passkeys r = true) /\
   (forall b, (handle r s).2 = Ok b -> secret_of_login b = false)).
Proof.
  destruct (Store.entitlement _) eqn:Ef; [by left|right].
  destruct (uses_vault r) eqn:Hu; [|destruct (handle_without_vault r s Hu) as [-> H]; by split].
  destruct (handle_dispatched r s Hu) as [(c & s' & H1 & H2)|(budget & s1 & d & s2 & _ & H2 & _ & _ & H3)].
  { rewrite H1. cbn. rewrite since_same by done. done. }
  destruct (dispatch_with _ _ _ _ _) as [v' [x|c]] eqn:Ed; cbn [snd] in H3; destruct H3 as [Hr Hc].
  - destruct (dispatch_frozen _ _ _ _ _ _ _ Ef Ed) as [Hx Hn]. unfold since. rewrite Hr, Hc. by apply finish_calls.
  - rewrite Hr. rewrite since_same by done. done.
Qed.

(** *** Items of other sites *)

(** The requests that name one item of the page, and the same request for
    another item. *)
Definition asked_of (item : Z) (r : Request) : Request :=
  match r with
  | FillItem _ url top => FillItem item url top
  | GetTotp _ url top => GetTotp item url top
  | OpenItem _ url top => OpenItem item url top
  | StartSso _ url top => StartSso item url top
  | SaveLogin url top user pw (Some _) title => SaveLogin url top user pw (Some item) title
  | SaveSso url top p account (Some _) title => SaveSso url top p account (Some item) title
  | _ => r
  end.

(** The item exists and is saved for the page the request comes from: by its
    rules, and for a change by its own rules only. *)
Definition saved_here (item : Z) (r : Request) (v : VaultService) : bool :=
  match r with
  | FillItem _ url top | GetTotp _ url top | OpenItem _ url top | StartSso _ url top =>
      is_ok (authorize_for_page item url top v)
  | SaveLogin url top _ _ (Some _) _ | SaveSso url top _ _ (Some _) _ => is_ok (authorize_with item url top DIRECT v)
  | _ => true
  end.

Lemma refused_cases item url top policy v : is_ok (authorize_with item url top policy v) = false ->
  (exists e, session v = Err e /\ authorize_with item url top policy v = Err e) \/
  exists e, authorize_with item url top policy v = Err e /\ item_code e = Protocol.Denied /\ exists ses, session v = Ok ses.
Proof.
  unfold authorize_with. destruct (session v) as [s|e]; [|left; eauto]. cbn [mbind result_bind].
  destruct (overviews s !! item) as [o|]; cbn; [|right; eauto].
  destruct (context_parse url top) as [p|]; cbn; [|right; eauto].
  destruct (_ || _); [right; eauto|done].
Qed.

(** Refusing the item, whatever else would have been done with it. *)
Lemma refused_alike {A} (f g : ItemOverview -> Result A) a b url top policy v :
  is_ok (authorize_with a url top policy v) = false -> is_ok (authorize_with b url top policy v) = false ->
  exists c, map_err item_code (authorize_with a url top policy v ≫= f) = Err c /\
            map_err item_code (authorize_with b url top policy v ≫= g) = Err c.
Proof.
  intros [(e & Hs & Ha)|(e & Ha & Hd & ses & Hs)]%refused_cases [(e' & Hs' & Hb)|(e' & Hb & Hd' & ses' & Hs')]%refused_cases;
    rewrite Ha, Hb; cbn; exists (item_code e); split; congruence.
Qed.
Lemma page_refused_alike {A} (f g : ItemOverview -> Result A) a b url top v :
  is_ok (authorize_for_page a url top v) = false -> is_ok (authorize_for_page b url top v) = false ->
  exists c, map_err item_code (authorize_for_page a url top v ≫= f) = Err c /\
            map_err item_code (authorize_for_page b url top v ≫= g) = Err c.
Proof.
  unfold authorize_for_page. destruct (match_policy v) as [policy|e]; [apply refused_alike|].
  intros _ _. by exists (item_code e).
Qed.

(** A call of the core that fails ends the request. *)
Lemma core_fails {A A'} (f : Error -> ErrorCode) (r : VaultService -> Result A) (k : A -> M VaultService ErrorCode A') v c :
  map_err f (r v) = Err c -> (core f r ≫= k) v = (v, Err c).
Proof. intros H. unfold mbind, M_bind, core. by rewrite H. Qed.

Lemma matches_refused item url top v : is_ok (authorize_for_page item url top v) = false ->
  matches_page item url top v = match session v with Ok _ => Ok false | Err e => Err e end.
Proof.
  unfold authorize_for_page, matches_page, authorize_with, match_policy. destruct (session v) as [s|e]; [|done].
  cbn [mbind result_bind]. destruct (context_parse url top) as [p|]; [|done]. cbn.
  destruct (overviews s !! item) as [o|]; cbn; [|done]. unfold some_with, Model.is_some, Model.is_none.
  destruct (is_site_bound (item_type o)), (context_matches _ _ _); cbn; done.
Qed.

(** Two calls that fail alike. *)
Definition fail_alike {A} (r r' : Result A) : Prop := exists c, map_err item_code r = Err c /\ map_err item_code r' = Err c.

Lemma save_login_alike new_id fresh url top user pw title title' a b now r1 r2 v :
  is_ok (authorize_with a url top DIRECT v) = false -> is_ok (authorize_with b url top DIRECT v) = false ->
  fail_alike (stage_save_login new_id fresh url top user pw (save_target (Some a) title) now r1 r2 v)
    (stage_save_login new_id fresh url top user pw (save_target (Some b) title') now r1 r2 v).
Proof.
  intros Ha Hb. unfold stage_save_login, fail_alike. case_bool_decide; [by eexists|].
  destruct (session v); [|by eexists]. by apply refused_alike.
Qed.
Lemma save_sso_alike new_id fresh url top p account title title' a b now r1 r2 v :
  is_ok (authorize_with a url top DIRECT v) = false -> is_ok (authorize_with b url top DIRECT v) = false ->
  fail_alike (stage_save_sso new_id fresh url top p account (save_target (Some a) title) now r1 r2 v)
    (stage_save_sso new_id fresh url top p account (save_target (Some b) title') now r1 r2 v).
Proof.
  intros Ha Hb. unfold stage_save_sso, fail_alike. destruct (session v); [|by eexists]. cbn [mbind result_bind save_target].
  destruct (Model.is_none _); [by eexists|]. by apply refused_alike.
Qed.
Lemma fail_alike_ends {A A'} (f g : VaultService -> Result A) (k h : A -> M VaultService ErrorCode A') v :
  fail_alike (f v) (g v) -> (core item_code f ≫= k) v = (core item_code g ≫= h) v.
Proof. intros (c & Hf & Hg). by rewrite (core_fails _ _ _ _ _ Hf), (core_fails _ _ _ _ _ Hg). Qed.

Lemma request_alike a b r d frozen now consent v :
  saved_here a r v = false -> saved_here b r v = false ->
  dispatch_request d frozen (asked_of a r) now consent v = dispatch_request d frozen (asked_of b r) now consent v.
Proof.
  destruct r; cbn [saved_here asked_of]; try done; try (destruct item_id; [|done]); intros Ha Hb;
    cbn [dispatch_request]; unfold dispatch_fill, dispatch_totp, dispatch_save_login, dispatch_open, dispatch_start_sso, dispatch_save_sso.
  - unfold mbind, M_bind, core. rewrite !matches_refused by done. by destruct (session v).
  - apply fail_alike_ends. by apply page_refused_alike.
  - by apply fail_alike_ends, save_login_alike.
  - unfold mbind, M_bind, core. rewrite !matches_refused by done. by destruct (session v).
  - apply fail_alike_ends. by apply page_refused_alike.
  - by apply fail_alike_ends, save_sso_alike.
Qed.

(** A page cannot tell an item that does not exist from one saved for
    other sites: every request that names an item is answered alike for the
    two, whatever the vault's state. *)
Lemma foreign_items_alike a b r d now consent v :
  saved_here a r v = true \/ saved_here b r v = true \/
  dispatch_with d (asked_of a r) now consent v = dispatch_with d (asked_of b r) now consent v.
Proof.
  destruct (saved_here a r v) eqn:Ha; [by left|]. destruct (saved_here b r v) eqn:Hb; [auto|]. right; right.
  pose proof (fun frozen => request_alike a b r d frozen now consent v Ha Hb) as Hreq.
  unfold dispatch_with, mbind, M_bind.
  assert (from_page (asked_of a r) = from_page (asked_of b r)) as -> by by destruct r as []; try destruct item_id.
  assert (refused_when_frozen (asked_of a r) = refused_when_frozen (asked_of b r)) as -> by by destruct r; try destruct item_id.
  destruct (_ v) as [v' [u|c]] eqn:E; [|done]. cbn.
  assert (v' = v) as -> by (destruct (from_page _); by injection E).
  cbn. destruct (Store.entitlement _), (refused_when_frozen _); cbn; rewrite ?Hreq; done.
Qed.

(** *** Changes of a password *)

(** A step only adds to the calls. *)
Definition grows {A} (m : B A) : Prop := forall s, exists l, calls (m s).1 = calls s ++ l.
Lemma silent_grows {A} (m : B A) : silent m -> grows m.
Proof. intros Hm s. exists []. rewrite app_nil_r. apply Hm. Qed.
Lemma grows_call {A} c (f : Shared W -> Shared W * result ErrorCode A) : grows (call c f).
Proof. intros s. exists [c]. unfold call. by destruct (f _). Qed.
Lemma grows_bind {A A'} (m : B A) (f : A -> B A') : grows m -> (forall a, grows (f a)) -> grows (m ≫= f).
Proof.
  intros Hm Hf s. destruct (Hm s) as [l Hl]. unfold mbind, M_bind. destruct (m s) as [s1 [a|e]]; cbn in *; [|eauto].
  destruct (Hf a s1) as [l' Hl']. exists (l ++ l'). by rewrite Hl', Hl, app_assoc.
Qed.
Lemma grows_finish x : grows (finish_dispatched x).
Proof.
  destruct x as [b|w b|w b|item b|sm e]; cbn [finish_dispatched].
  - apply silent_grows, silent_ret.
  - apply grows_bind; [apply grows_call|]. intros. apply silent_grows, silent_ret.
  - intros s. pose proof (grows_call (CallSave w) (save w) s) as [l Hl]. unfold save_write_.
    destruct (call _ _ s) as [s1 [u|c]]; cbn [fst] in *; [|eauto].
    assert (grows (_ ← items_changed; mret b)) as Hg.
    { apply grows_bind; [apply grows_call|]. intros. apply silent_grows, silent_ret. }
    destruct (Hg s1) as [l' Hl']. exists (l ++ l'). by rewrite Hl', Hl, app_assoc.
  - apply grows_bind; [|intros; apply silent_grows, silent_ret]. unfold open_in_desktop.
    destruct on_open_item; [apply grows_call|apply silent_grows, silent_throw].
  - apply silent_grows, silent_throw.
Qed.
Lemma grows_finished r x :
  grows (result ← finish_dispatched x; _ ← (if changes_items r then items_changed else mret () : B ()); mret result).
Proof.
  apply grows_bind; [apply grows_finish|]. intros b. apply grows_bind; [|intros; apply silent_grows, silent_ret].
  destruct (changes_items r); [apply grows_call|apply silent_grows, silent_ret].
Qed.

Section Change.
Variables (url : list Z) (top : option (list Z)) (user : option (list Z)) (pw : list Z) (item : Z) (title : option (list Z)).
Abbreviation change := (SaveLogin url top user pw (Some item) title).

(** Staging a change leaves the vault alone; it is written at once only when
    the user has allowed it, or it may go unasked and none was made lately. *)
Lemma dispatch_change d now consent v :
  match dispatch_with d change now consent v with
  | (v', r) => v' = v /\
      match r with
      | Ok (Write w b) => consent = Allowed \/
          consent = AskIfRecent /\ update_needs_confirmation item (now_ms now) v = Ok false
      | Ok (Confirm sm e) => cu_item sm = item /\ e = Vault.epoch v
      | Ok _ => False
      | Err _ => True
      end
  end.
Proof.
  unfold dispatch_with, mbind, M_bind. cbn [from_page refused_when_frozen]. unfold mread.
  destruct (require_enabled v); [|done]. cbn [core entitlement map_err]. unfold core, entitlement. cbn [map_err].
  destruct (Store.entitlement _); cbn [andb]; [|done]. cbn [dispatch_request]. unfold dispatch_save_login, mbind, M_bind, core.
  destruct (stage_save_login _ _ _ _ _ _ _ _ _ _ _) as [st|e]; cbn [map_err]; [|done].
  assert (match confirm_update_summary item url v with Ok sm => cu_item sm = item | Err _ => True end) as Hsm.
  { unfold confirm_update_summary. destruct (session v); [|done]. cbn. destruct (overviews _ !! item); [|done]. cbn.
    by destruct (page_parse url ≫= site_of). }
  destruct consent; cbn.
  - destruct (update_needs_confirmation item _ v) as [[]|] eqn:En; cbn; [|auto|done].
    destruct (confirm_update_summary item url v); cbn; auto.
  - destruct (confirm_update_summary item url v); cbn; auto.
  - auto.
Qed.

(** The user answered Allow, in time, while the vault stayed in one unlock. *)
Definition user_allowed (s s' : BridgeState W) : Prop :=
  exists hook sm sh sh', on_confirm_update = Some hook /\ hook sm confirm_timeout sh = (sh', true) /\
    cu_item sm = item /\ Vault.epoch (sh_vault sh') = Vault.epoch (vault_of s) /\ In (CallAsked sm true) (since s s').

Lemma ask_user_run sm s :
  match ask_user sm s with
  | (s', Ok _) => calls s' = calls s ++ [CallAsked sm true] /\
      exists hook sh sh', on_confirm_update = Some hook /\ hook sm confirm_timeout sh = (sh', true) /\ sh_vault sh' = vault_of s'
  | (s', Err _) => calls s' = calls s \/ exists b, calls s' = calls s ++ [CallAsked sm b]
  end.
Proof.
  unfold ask_user. destruct on_confirm_update as [hook|] eqn:Eh; [|by left].
  destruct (sh_pending (shared s)); [by left|]. unfold mbind, M_bind, from_rest, on_shared. cbn [shared calls].
  destruct (instant _) as [w1 started]. cbn [shared calls with_rest].
  destruct (hook sm confirm_timeout _) as [sh a] eqn:Ehk. cbn [shared calls].
  destruct a; cbn; [|right; by exists false].
  destruct (instant _) as [w2 now]. cbn [fst snd shared calls with_rest mret M_ret]. destruct (_ <=? confirm_timeout); cbn; [|by right; exists true].
  split; [done|]. by eexists hook, _, sh.
Qed.

Lemma no_save_since s s' l : calls s' = calls s ++ l -> existsb is_save l = false -> existsb is_save (since s s') = false.
Proof. intros E H. by rewrite (since_app _ _ _ E). Qed.

(** A change put to the user is written only on an Allow. *)
Lemma confirmed_change s s2 sm : calls s2 = calls s -> cu_item sm = item ->
  let s' := (answer_dispatched change (Confirm sm (Vault.epoch (vault_of s))) s2).1 in
  existsb is_save (since s s') = false \/ user_allowed s s'.
Proof.
  intros Hc Hi s'. subst s'. unfold answer_dispatched.
  pose proof (grows_finished change) as Hk. set (F := fun x : Dispatched => _) in Hk |- *.
  assert (forall x, grows (F x)) as Hgrow by exact Hk. clearbody F. clear Hk. unfold confirm_then_stage, mbind, M_bind, mget.
  pose proof (ask_user_run sm s2) as Ha. destruct (ask_user sm s2) as [s3 [[]|c]].
  - destruct Ha as (Hc3 & hook & sh & sh' & Hh & Hk & Hv).
    destruct (Vault.epoch (vault_of s3) =? Vault.epoch (vault_of s)) eqn:Ee; cbn [negb].
    + right. apply Z.eqb_eq in Ee. exists hook, sm, sh, sh'. rewrite Hv. split_and!; try done.
      destruct (dispatch_locked_run change Allowed s3) as (d & w & ->).
      destruct (dispatch_with _ _ _ _ _).2 as [x|c].
      * edestruct (Hgrow x) as [l Hl]. rewrite (since_app _ _ ([CallAsked sm true] ++ l)); [by left|].
        rewrite Hl. cbn. by rewrite Hc3, Hc, <- app_assoc.
      * rewrite (since_app _ _ [CallAsked sm true]); [by left|]. cbn. by rewrite Hc3, Hc.
    + left. cbn. apply (no_save_since _ _ [CallAsked sm true]); [cbn; by rewrite Hc3, Hc|done].
  - left. cbn. destruct Ha as [Ha|[b Ha]].
    + rewrite since_same; [done|by rewrite Ha].
    + by apply (no_save_since _ _ [CallAsked sm b]); [rewrite Ha, Hc|].
Qed.

(** The clocks, as a change reads them: the limiter's twice, then the wall's. *)
Definition limiter_now (s : BridgeState W) : Z := (instant (instant (sh_rest (shared s))).1).2.
Definition wall_now (s : BridgeState W) : Z := (unix_seconds (instant (instant (sh_rest (shared s))).1).1).2.

Lemma allow_updates class at_ l : updates (allow class at_ l).1 = updates l.
Proof. unfold allow. by destruct class, (take_token _ _). Qed.

Lemma limits_of_change s s1 budget : check_rate_limits change s = (s1, Ok budget) ->
  (unix_seconds (sh_rest (shared s1))).2 = wall_now s /\
  (budget = CoolingDown item \/
   budget = Reserved item (limiter_now s) /\
   forall t, updates (sh_limiter (shared s)) !! item = Some t -> t + ITEM_UPDATE_INTERVAL <= limiter_now s).
Proof.
  unfold limiter_now, wall_now, check_rate_limits, mbind, M_bind, from_rest, on_limiter, on_shared. cbn [request_class].
  destruct (instant (sh_rest (shared s))) as [w1 n1] eqn:E1. cbn [shared sh_limiter with_rest fst].
  pose proof (allow_updates Secret n1 (sh_limiter (shared s))) as Hu.
  destruct (allow Secret n1 _) as [l1 []]; cbn [fst] in Hu; cbn; [|done].
  destruct (instant w1) as [w2 n2]. cbn.
  pose proof (granted_after item n2 l1) as Hg. destruct (allow_item_update item n2 l1) as [l2 g]. cbn in Hg |- *.
  intros [= <- <-]. split; [done|]. destruct g; [right|by left]. split; [done|]. rewrite <- Hu. by apply Hg.
Qed.

(** C30: a password change asked for by the browser is written only when the
    user allowed it on the desktop, in time and with the vault still in the
    same unlock, or when the item's interval had passed and its password had
    not changed lately. *)
Theorem change_needs_room_or_allow s :
  let s' := (handle change s).1 in
  existsb is_save (since s s') = false \/ user_allowed s s' \/
  (forall t, updates (sh_limiter (shared s)) !! item = Some t -> t + ITEM_UPDATE_INTERVAL <= limiter_now s) /\
  update_needs_confirmation item (now_ms (wall_now s)) (vault_of s) = Ok false.
Proof.
  intros s'. subst s'.
  destruct (handle_dispatched change s eq_refl) as [(c & s' & -> & H2)|(budget & s1 & d & s2 & Hb & H2 & _ & _ & H3)].
  { left. by rewrite since_same. }
  apply limits_of_change in Hb as [Hw Hbud]. rewrite Hw in H3.
  pose proof (dispatch_change d (wall_now s) (consent_of budget) (vault_of s)) as Hd.
  destruct (dispatch_with _ _ _ _ _) as [v' [x|c]]; cbn [snd] in H3; destruct Hd as [_ Hd], H3 as [_ Hc];
    [|left; by rewrite since_same].
  destruct x as [b|w b|w b|i b|sm e]; try done.
  - destruct Hbud as [->|[-> Hroom]]; cbn in Hd; [by destruct Hd as [?|[? _]]|].
    destruct Hd as [?|[_ Hq]]; [done|]. auto.
  - destruct Hd as [Hi ->]. destruct (confirmed_change s s2 sm H2 Hi) as [H|H].
    + left. unfold since in *. by rewrite Hc.
    + right; left. unfold user_allowed, since in *. by rewrite Hc.
Qed.
End Change.

(** ** One connection *)

Section Connection.
Context {WS : WireSerde}.

(** What waits for the user on a connection: at most the places there are,
    and only password changes. *)
Definition waits_ok (c : Conn) : Prop :=
  (length (in_flight c) <= MAX_BACKGROUND_PER_CONNECTION)%nat /\
  Forall (fun env => may_wait_for_user (env_request env) = true /\ field_sizes_ok (env_request env) = true) (in_flight c).

Lemma send_waits m c : waits_ok c -> waits_ok (send_ m c).
Proof. unfold send_. by destruct (to_bytes m). Qed.
Lemma reply_waits m c : waits_ok c -> waits_ok (reply_or_close m c).
Proof. intros H. unfold reply_or_close. destruct (to_bytes m); [by apply send_waits|done]. Qed.
Lemma background_waits env c : may_wait_for_user (env_request env) = true -> field_sizes_ok (env_request env) = true ->
  waits_ok c -> waits_ok (answer_in_background env c).
Proof.
  intros Hm Hs [Hl Hf]. unfold answer_in_background. destruct (Nat.ltb_spec (length (in_flight c)) MAX_BACKGROUND_PER_CONNECTION).
  - split; cbn; [rewrite length_app; cbn; lia|]. apply Forall_app. auto.
  - by apply send_waits.
Qed.
Lemma parse_request_sizes bytes env : parse_request bytes = Ok env -> field_sizes_ok (env_request env) = true.
Proof. unfold parse_request. repeat case_match; intros [=]; subst; by apply negb_false_iff. Qed.

Lemma read_waits c s : waits_ok c -> waits_ok (read_round c s).1.
Proof.
  intros H. unfold read_round. destruct (read_frame (input c) MAX_REQUEST_BYTES) as [rest [[bytes|]|[|n]]]; try done.
  - destruct (parse_request bytes) as [env|rj] eqn:Ep; [|by apply reply_waits].
    destruct (may_wait_for_user _) eqn:Em; [by apply background_waits; [|eapply parse_request_sizes|]|].
    destruct (answer env s) as [s' m]. by apply reply_waits.
  - by apply send_waits.
Qed.
Lemma finish_waits i c s : waits_ok c -> waits_ok (finish_round i c s).1.
Proof.
  intros [Hl Hf]. unfold finish_round. destruct (in_flight c !! i) eqn:Ei; [|done].
  destruct (answer _ _) as [s' m]. apply send_waits. split; cbn.
  - rewrite length_delete by eauto. lia.
  - by apply Forall_delete.
Qed.

(** C32: however requests and answers take turns, and whatever other threads
    do, a connection never has more requests waiting for the user than it has
    places, and each of them is a well-formed change of a saved password. *)
Theorem connection_waits_bounded r s turns : waits_ok (serve r s turns).1.
Proof.
  unfold serve. assert (waits_ok (opened r)) as H by (split; [cbn; lia|constructor]). revert H.
  generalize (opened r) as c. revert s. induction turns as [|turn turns IH]; intros s c H; [done|]. cbn [foldl].
  assert (waits_ok (take_turn (c, s) turn).1) as Ht.
  { destruct turn; cbn; [|by apply finish_waits|done]. destruct (reading c); [by apply read_waits|done]. }
  destruct (take_turn (c, s) turn) as [c' s']. by apply IH.
Qed.

(** The tags are all that may be lost. *)
Definition untagged (m : Match) : Match :=
  {| m_id := m_id m; m_title := m_title m; m_username := m_username m; m_has_totp := m_has_totp m;
     m_strength := m_strength m; m_provider := m_provider m; m_tags := []; m_kind := m_kind m; m_bank := m_bank m |}.
Definition tagged (l : list Match) : nat := length (filter (fun m => m_tags m <> []) l).

Lemma clear_last_spec l :
  match clear_last l with
  | Some l' => map untagged l' = map untagged l /\ tagged l = S (tagged l')
  | None => tagged l = 0%nat
  end.
Proof.
  unfold tagged. induction l as [|m l IH]; [done|]. cbn [clear_last]. rewrite filter_cons. destruct (clear_last l) as [l'|].
  - destruct IH as [IH1 IH2]. cbn [map]. rewrite IH1. split; [done|]. rewrite filter_cons. case_decide; cbn; lia.
  - case_bool_decide; case_decide; done.
Qed.

(** An answer too big for one frame loses nothing but tags, and stops
    losing them only once it fits or has none. *)
Lemma fit_frame_drops_only_tags r l e :
  let l' := fit_matches (S (length l)) r l e in
  map untagged l' = map untagged l /\ (wire_len (with_matches l' e r) <= MAX_RESPONSE_BYTES \/ Forall (fun m => m_tags m = []) l').
Proof.
  assert (forall rounds l, (tagged l < rounds)%nat -> let l' := fit_matches rounds r l e in
    map untagged l' = map untagged l /\ (wire_len (with_matches l' e r) <= MAX_RESPONSE_BYTES \/ tagged l' = 0%nat)) as Hfit.
  { clear l. induction rounds as [|rounds IH]; intros l Hl; [lia|]. cbn [fit_matches].
    destruct (Z.ltb_spec MAX_RESPONSE_BYTES (wire_len (with_matches l e r))); [|auto].
    pose proof (clear_last_spec l) as Hc. destruct (clear_last l) as [l1|]; [|auto]. destruct Hc as [Hu Ht].
    destruct (IH l1 ltac:(lia)) as [Hm Hx]. split; [by rewrite Hm|done]. }
  destruct (Hfit (S (length l)) l) as [Hm Hx].
  { unfold tagged. pose proof (length_filter (fun m => m_tags m <> []) l). lia. }
  split; [done|]. destruct Hx as [?|Hx]; [by left|right]. apply Forall_forall. intros m Hin.
  destruct (decide (m_tags m = [])) as [|Hne]; [done|]. apply nil_length_inv in Hx.
  exfalso. eapply not_elem_of_nil. rewrite <- Hx. by apply list_elem_of_filter.
Qed.
End Connection.
End Facts.
