(* ===== verification/Mobile.v ===== *)
(** * Filling on a phone (crates/havenkeys-mobile)

    vault.rs and events.rs (the phone's vault, its auto-lock clock and what
    the app is told), settings.rs, activity.rs, autofill.rs with
    asset_links_fetch.rs, cards.rs, identity_fill.rs, save.rs, and
    credentials.rs with passkey_json.rs: what Android's Autofill and
    Credential Manager may get.  A call is a computation over the client of
    Client.v, the auto-lock clock and the world; the events the client tells
    during a call reach the phone's listener at its end.

    Requests to several sites at once are made one after another; serde's
    reading of a request and writing of a response, the HTTP client and the
    camera's QR decoder are [PhoneLib] and [PhoneHost]. *)

From S2P Require Import Prelude Errors Text Blob Url Clean Tags Totp Card Identity.
From S2P Require Import CustomField Bank Sso Attachment Model Keys Store Lock Origin Health BuildItem.
From S2P Require Import Vault Items Page IdentityPage ToyCodec Sync Replica Activity CardPage Dates.
From S2P Require Import AppTarget Cbor Passkey PasskeyVault Restore AppFill Wire Device Account ClientPairing Client.

(** ** error.rs *)

Inductive MobileError := Failed (code detail : string).
#[export] Instance MobileError_eq_dec : EqDecision MobileError.
Proof. solve_decision. Defined.

Definition from_client (e : ClientError) : MobileError := Failed (ce_code e) (ce_message e).
Definition of_core (e : Error) : MobileError := from_client (from_core e).

(** ** events.rs *)

Inductive AppEvent :=
| AppLocked (reason : string)
| AppUnlocked
| AppConnectivity (online : bool)
| AppSignedOut
| AppItemsChanged
| AppRemoved
| AppAccountDeleted
| AppPlanChanged.

(** [LockClock]: the readings are of its monotonic and of the wall clock. *)
Definition clock_new : LockManager := Lock.new None.
Definition clock_arm (minutes mono wall : Z) (m : LockManager) : LockManager :=
  Lock.reset mono wall (Lock.set_timeout (Lock.timeout_from_minutes minutes) m).
Definition clock_touch (mono wall : Z) (m : LockManager) : LockManager * option LockReason :=
  let '(m, due) := Lock.tick mono wall m in
  (match due with None => Lock.record_activity mono m | Some _ => m end, due).
Definition clock_due (mono wall : Z) (m : LockManager) : LockManager * option LockReason := Lock.tick mono wall m.

(** [ClientEvents for MobileEvents]: what the clock and the app get. *)
Definition hear (mono wall : Z) (s : LockManager * list AppEvent) (e : ClientEvent) : LockManager * list AppEvent :=
  let '(m, l) := s in
  match e with
  | EvUnlocked minutes => (clock_arm minutes mono wall m, l ++ [AppUnlocked])
  | EvLocked reason was_open => (m, if (was_open : bool) then l ++ [AppLocked reason] else l)
  | EvConnectivity online => (m, l ++ [AppConnectivity online])
  | EvSignedOut => (m, l ++ [AppSignedOut])
  | EvSynced _ | EvItemsChanged => (m, l ++ [AppItemsChanged])
  | EvRemoved _ => (m, l ++ [AppRemoved])
  | EvAccountDeleted _ => (m, l ++ [AppAccountDeleted])
  | EvPlanChanged => (m, l ++ [AppPlanChanged])
  end.

(** ** settings.rs *)

Record DeviceSettings := { lock_on_screen_off : bool; confirm_before_filling : bool; asset_links : bool }.
Definition device_default : DeviceSettings :=
  {| lock_on_screen_off := true; confirm_before_filling := false; asset_links := true |}.
(** A slot that does not open never turns the confirmation off. *)
Definition from_slot (read : Result (option DeviceSettings)) : DeviceSettings :=
  match read with
  | Ok (Some s) => s
  | Ok None => device_default
  | Err _ => {| lock_on_screen_off := lock_on_screen_off device_default; confirm_before_filling := true;
                asset_links := asset_links device_default |}
  end.

Record MobileSettings := {
  ms_auto_lock_minutes : Z;
  ms_clipboard_clear_seconds : Z;
  ms_lock_on_screen_off : bool;
  ms_confirm_before_filling : bool;
  ms_asset_links : bool;
  ms_equivalent_domains : bool;
}.

Definition shared_settings (s : MobileSettings) (shared : Settings) : Settings :=
  {| Model.auto_lock_minutes := ms_auto_lock_minutes s; clipboard_clear_seconds := ms_clipboard_clear_seconds s;
     theme := theme shared; browser_integration := browser_integration shared; generator := Model.generator shared;
     set_auto_sign_in := set_auto_sign_in shared; auto_passkey_upgrade := auto_passkey_upgrade shared;
     Model.equivalent_domains := ms_equivalent_domains s |}.

(** ** autofill.rs: the facts and the answers *)

Record TargetFacts := {
  tf_package : list Z;
  tf_certs : list (list Z);
  tf_web_domain : option (list Z);
  tf_web_scheme : option (list Z);
}.
Record FrameFacts := { ff_domain : option (list Z); ff_scheme : option (list Z) }.
Inductive TargetKind := KindBrowser | KindApp.
Inductive AutofillKind := AkLogin | AkBankAccount.
Record BankSummaryRecord := { bsr_bank : option (list Z); bsr_branch : option (list Z); bsr_last3 : option (list Z) }.
Record BankFillRecord := {
  bfr_branch : option (list Z);
  bfr_branch_digit : option (list Z);
  bfr_account : option (list Z);
  bfr_account_digit : option (list Z);
}.
Record AutofillMatch := {
  am_id : list Z;
  am_title : list Z;
  am_username : option (list Z);
  am_has_totp : bool;
  am_kind : AutofillKind;
  am_bank : option BankSummaryRecord;
}.
Record FillValues := {
  fv_username : option (list Z);
  fv_password : option (list Z);
  fv_bank : option BankFillRecord;
}.
Record BoundFill := { bf_values : FillValues; bf_saved : bool }.

(** [u64::try_from(now_ms() / 1000).unwrap_or(0)]. *)
Definition unix_seconds (now : Z) : Z := let s := Z.quot now 1000 in if s <? 0 then 0 else s.

Definition bank_record (b : BankSummary) : BankSummaryRecord :=
  {| bsr_bank := bs_bank b; bsr_branch := bs_branch b; bsr_last3 := account_last3 b |}.
Definition to_match `{UT : UuidText} (s : Suggestion) : AutofillMatch :=
  {| am_id := uuid_text (sg_id s); am_title := sg_title s; am_username := sg_username s; am_has_totp := sg_has_totp s;
     am_kind := match kind s with MkLogin => AkLogin | MkBank => AkBankAccount end;
     am_bank := bank_record <$> sg_bank s |}.
Definition to_values (c : FillCredentials) : FillValues :=
  {| fv_username := fc_username c; fv_password := fc_password c;
     fv_bank := (fun b => {| bfr_branch := bv_branch b; bfr_branch_digit := bv_branch_digit b;
                             bfr_account := bv_account b; bfr_account_digit := bv_account_digit b |}) <$> fc_bank c |}.

(** ** cards.rs, identity_fill.rs and save.rs: the requests and answers *)

(** The phone's own [CardRole] and [IdentityRole]: [core] and [of]. *)
Inductive CardRole :=
| CardholderName | CardholderGivenName | CardholderFamilyName | CardNumber | VerificationNumber
| ExpiryMonth | ExpiryYear | Brand.
Definition core_card_role (r : CardRole) : CardPage.CardRole :=
  match r with
  | CardholderName => CrHolder | CardholderGivenName => CrGivenName | CardholderFamilyName => CrFamilyName
  | CardNumber => CrNumber | VerificationNumber => CrVerification | ExpiryMonth => CrExpiryMonth
  | ExpiryYear => CrExpiryYear | Brand => CrBrand
  end.
Definition card_role_of (r : CardPage.CardRole) : CardRole :=
  match r with
  | CrHolder => CardholderName | CrGivenName => CardholderGivenName | CrFamilyName => CardholderFamilyName
  | CrNumber => CardNumber | CrVerification => VerificationNumber | CrExpiryMonth => ExpiryMonth
  | CrExpiryYear => ExpiryYear | CrBrand => Brand
  end.

Inductive IdentityRole :=
| FullName | FirstName | MiddleName | LastName | Email | Phone | BirthDate
| BirthDay | BirthMonth | BirthYear | Company | Street | Number | Complement
| AddressLine1 | AddressLine2 | Neighborhood | City | State | PostalCode | Country
| Username | Cpf | Rg | Passport | DriversLicense.
Definition core_role (r : IdentityRole) : FillRole :=
  match r with
  | FullName => RFullName | FirstName => RFirstName | MiddleName => RMiddleName | LastName => RLastName
  | Email => REmail | Phone => RPhone | BirthDate => RBirthDate | BirthDay => RBirthDay
  | BirthMonth => RBirthMonth | BirthYear => RBirthYear | Company => RCompany | Street => RStreet
  | Number => RNumber | Complement => RComplement | AddressLine1 => RAddressLine1 | AddressLine2 => RAddressLine2
  | Neighborhood => RNeighborhood | City => RCity | State => RState | PostalCode => RPostalCode
  | Country => RCountry | Username => RUsername | Cpf => RCpf | Rg => RRg
  | Passport => RPassport | DriversLicense => RDriversLicense
  end.
Definition role_of (r : FillRole) : IdentityRole :=
  match r with
  | RFullName => FullName | RFirstName => FirstName | RMiddleName => MiddleName | RLastName => LastName
  | REmail => Email | RPhone => Phone | RBirthDate => BirthDate | RBirthDay => BirthDay
  | RBirthMonth => BirthMonth | RBirthYear => BirthYear | RCompany => Company | RStreet => Street
  | RNumber => Number | RComplement => Complement | RAddressLine1 => AddressLine1 | RAddressLine2 => AddressLine2
  | RNeighborhood => Neighborhood | RCity => City | RState => State | RPostalCode => PostalCode
  | RCountry => Country | RUsername => Username | RCpf => Cpf | RRg => Rg
  | RPassport => Passport | RDriversLicense => DriversLicense
  end.
Definition is_document_role (r : IdentityRole) : bool := is_document (core_role r).

Definition MAX_CARD_FRAMES : nat := 8.
Definition MAX_IDENTITY_ROLES : nat := length ALL_ROLES.

Record CardChoice := {
  cc_id : list Z;
  cc_title : list Z;
  cc_brand : list Z;
  cc_last4 : option (list Z);
  cc_expiry : option (list Z);
}.
Record CardChoices := { cs_insecure : bool; cs_cards : list CardChoice; cs_frames : list bool }.
Record CardFrameRoles := { cfr_frame : FrameFacts; cfr_frame_roles : list CardRole }.
Record CardValue := { cv_role : CardRole; cv_value : list Z }.
Record SaveCard := {
  sc_cardholder_name : option (list Z);
  sc_number : list Z;
  sc_verification_number : option (list Z);
  sc_expiry : option (list Z);
}.
Definition card_choice `{UT : UuidText} (c : CardOffer) : CardChoice :=
  {| cc_id := uuid_text (of_id c); cc_title := of_title c;
     cc_brand := match of_brand c with Some b => brand_id b | None => lit "other" end;
     cc_last4 := of_last4 c; cc_expiry := expiry_to_wire <$> of_expiry c |}.
Definition card_values (found : list (CardPage.CardRole * list Z)) : list CardValue :=
  map (fun p => {| cv_role := card_role_of p.1; cv_value := p.2 |}) found.

Record IdentityChoice := { ic_title : list Z; ic_email : option (list Z); ic_roles : list IdentityRole }.
Record IdentityValue := { iv_role : IdentityRole; iv_value : list Z }.
Inductive Place := InPage (page top : list Z) | InApp.
Definition identity_choice (summary : IdentitySummary) (documents_allowed : bool) : option IdentityChoice :=
  let roles := List.filter (fun r => documents_allowed || negb (is_document_role r)) (map role_of (is_roles summary)) in
  if bool_decide (roles = []) then None
  else Some {| ic_title := is_title summary; ic_email := is_email summary; ic_roles := roles |}.

Record SaveLogin := {
  sl_username : option (list Z);
  sl_password : list Z;
  sl_current_password : option (list Z);
  sl_title : option (list Z);
}.
Inductive SaveResult := Added | Updated | Unchanged.
Definition decided (a : SaveAction) : option (SaveTarget * SaveResult) :=
  match a with
  | SaveAdd => Some (NewLogin None, Added)
  | SaveUpdate i => Some (UpdateLogin i, Updated)
  | SaveUnchanged => None
  end.

(** ** credentials.rs and passkey_json.rs: the requests and answers *)

Definition MAX_ORIGIN_LEN : Z := 2048.
Definition MAX_OFFERS : nat := 16.
Definition MAX_REQUEST_JSON_BYTES : Z := 64 * 1024.
Definition MAX_CREDENTIAL_LIST : nat := 64.

Record CredentialCaller := { cr_package : list Z; cr_certs : list (list Z); cr_origin : option (list Z) }.
Record PasskeyOffer := { po_item : list Z; po_credential : list Z; po_title : list Z; po_user : list Z }.
Record PasskeyCreatePlan := { pp_rp : list Z; pp_user : list Z; pp_excluded : bool; pp_homes : list AutofillMatch }.
Inductive Caller := CallerBrowser (page_url : list Z) | CallerApp (app : AppIdentity).

Record RawDescriptor := { rd_kind : list Z; rd_id : list Z }.
Record RawParam := { rp_kind : list Z; rp_alg : Z }.
Record RawCreation := {
  rc_rp_id : option (list Z);
  rc_user_id : list Z;
  rc_user_name : list Z;
  rc_display_name : option (list Z);
  rc_challenge : list Z;
  rc_params : list RawParam;
  rc_exclude : list RawDescriptor;
}.
Record RawRequest := { rr_challenge : list Z; rr_rp_id : option (list Z); rr_allow : list RawDescriptor }.
Record CreationOptions := {
  co_rp_id : option (list Z);
  co_user_handle : list Z;
  co_user_name : list Z;
  co_display_name : option (list Z);
  co_challenge : list Z;
  co_exclude : list (list Z);
}.
Record RequestOptions := { ro_rp_id : option (list Z); ro_challenge : list Z; ro_allow : list (list Z) }.

(** The two responses, field by field (binary fields in Base64url). *)
Record RegistrationResponse := {
  rs_id : list Z;
  rs_client_data : list Z;
  rs_attestation : list Z;
  rs_authenticator_data : list Z;
  rs_public_key : list Z;
}.
Record AssertionResponse := {
  as_id : list Z;
  as_client_data : list Z;
  as_authenticator_data : list Z;
  as_signature : list Z;
  as_user_handle : list Z;
}.

(** serde_json and data-encoding's unpadded Base64url, on the requests and
    responses above. *)
Class PhoneLib := {
  read_creation : list Z -> option RawCreation;
  read_request : list Z -> option RawRequest;
  write_registration : RegistrationResponse -> list Z;
  write_assertion : AssertionResponse -> list Z;
  b64url_nopad : list Z -> option (list Z);
}.

Definition invalid_request : MobileError := Failed "invalid_input" "The passkey request is not valid.".
Definition unsupported : MobileError :=
  Failed "unsupported_algorithm" "The site asked for a passkey type HavenKeys cannot create.".
Definition passkey_exists : MobileError := Failed "passkey_exists" "This account already has a passkey in HavenKeys.".
Definition PUBLIC_KEY : list Z := lit "public-key".

(** [trim_end_matches('=')]. *)
Fixpoint trim_eq (s : list Z) : list Z := match s with 61 :: s => trim_eq s | _ => s end.
Definition trim_end_eq (s : list Z) : list Z := reverse (trim_eq (reverse s)).

Section PasskeyJson.
Context {PH : PhoneLib} {PL : PasskeyLib}.

Definition from_json_ {A} (read : list Z -> option A) (json : list Z) : result MobileError A :=
  if MAX_REQUEST_JSON_BYTES <? str_len json then Err invalid_request else ok_or invalid_request (read json).
Definition json_bytes (s : list Z) : result MobileError (list Z) := ok_or invalid_request (b64url_nopad (trim_end_eq s)).
Definition credential_ids (l : list RawDescriptor) : result MobileError (list (list Z)) :=
  if (MAX_CREDENTIAL_LIST <? length l)%nat then Err invalid_request
  else mapM_result (fun d => json_bytes (rd_id d)) (List.filter (fun d => bool_decide (rd_kind d = PUBLIC_KEY)) l).

Definition parse_creation (json : list Z) : result MobileError CreationOptions :=
  raw ← from_json_ read_creation json;
  let es256 := bool_decide (length (rc_params raw) = 0%nat)
               || existsb (fun p => bool_decide (rp_kind p = PUBLIC_KEY) && (rp_alg p =? COSE_ALG_ES256)) (rc_params raw) in
  if negb es256 then Err unsupported
  else
    handle ← json_bytes (rc_user_id raw);
    challenge ← json_bytes (rc_challenge raw);
    exclude ← credential_ids (rc_exclude raw);
    Ok {| co_rp_id := rc_rp_id raw; co_user_handle := handle; co_user_name := rc_user_name raw;
          co_display_name := rc_display_name raw; co_challenge := challenge; co_exclude := exclude |}.
Definition parse_request_ (json : list Z) : result MobileError RequestOptions :=
  raw ← from_json_ read_request json;
  challenge ← json_bytes (rr_challenge raw);
  allow ← credential_ids (rr_allow raw);
  Ok {| ro_rp_id := rr_rp_id raw; ro_challenge := challenge; ro_allow := allow |}.

Definition registration_json (r : Registration) : list Z :=
  write_registration
    {| rs_id := encode_b64url (reg_credential_id r); rs_client_data := encode_b64url (reg_client_data r);
       rs_attestation := encode_b64url (reg_attestation r);
       rs_authenticator_data := encode_b64url (reg_authenticator_data r);
       rs_public_key := encode_b64url (reg_public_key r) |}.
Definition assertion_json (a : Assertion) : list Z :=
  write_assertion
    {| as_id := encode_b64url (ass_credential_id a); as_client_data := encode_b64url (ass_client_data a);
       as_authenticator_data := encode_b64url (ass_authenticator_data a);
       as_signature := encode_b64url (ass_signature a); as_user_handle := encode_b64url (ass_user_handle a) |}.
End PasskeyJson.

(** ** vault.rs: the phone's vault *)

Record MobileVault := {
  haven : HavenClient;
  clock : LockManager;
  told : list AppEvent;
  (** A scanned Recovery Sheet waiting for its master password. *)
  kit : option KitFields;
  own_package : list Z;
}.
Definition set_haven (c : HavenClient) (v : MobileVault) : MobileVault :=
  {| haven := c; clock := clock v; told := told v; kit := kit v; own_package := own_package v |}.
Definition set_clock (m : LockManager) (v : MobileVault) : MobileVault :=
  {| haven := haven v; clock := m; told := told v; kit := kit v; own_package := own_package v |}.
Definition set_told (m : LockManager) (l : list AppEvent) (v : MobileVault) : MobileVault :=
  {| haven := haven v; clock := m; told := l; kit := kit v; own_package := own_package v |}.
Definition set_kit (k : option KitFields) (v : MobileVault) : MobileVault :=
  {| haven := haven v; clock := clock v; told := told v; kit := k; own_package := own_package v |}.

(** What a call draws: ids, nonces, and a passkey's key and credential id. *)
Record PhoneDraws := {
  pd_new_id : nat -> Z;
  pd_fresh : Z;
  pd_use : option (list Z);
  pd_key : nat -> option (list Z);
  pd_credential : option (list Z);
  pd_r1 : option (list Z);
  pd_r2 : option (list Z);
}.

(** The clocks of [LockClock], the random source, and an HTTP client without
    redirects: the status of an answer and its chunks as they arrive ([None]
    is a broken read). *)
Class PhoneHost (W : Type) := {
  mono : W -> Z;
  wall : W -> Z;
  phone_draws : W -> W * PhoneDraws;
  http_ready : W -> bool;
  http_get : list Z -> W -> W * option (Z * list (option (list Z)));
}.

Section Mobile.
Context {C : Crypto} {K : KeyLib} {U : Unicode} {J : JsonLib} {UL : UrlLib} {SL : SiteLib UL} {L : TotpLib} {H : HeaderLib}.
Context {AL : AppLib} {PL : PasskeyLib} {FL : FloatLib} {LL : LookalikeLib} {HX : HexLib} {UT : UuidText} {UP : UuidParse}.
Context {AC : Codec Activity} {ACC : Codec AssetLinksCache} {DC : Codec DeviceSettings} {PH : PhoneLib}.
Context {S1 : Serde ErrorBody} {S2 : Serde PullDto} {S3 : Serde WriteBody} {S4 : Serde WriteAckDto}.
Context {S5 : Serde ConflictsDto} {S6 : Serde FetchBody} {S7 : Serde FetchDto} {S8 : Serde HeaderDto}.
Context {S9 : Serde AttachmentPutBody} {S10 : Serde AttachmentDto}.
Context {W : Type} {T : Transport W} {P : Platform W} {HO : PhoneHost W}.

Abbreviation Cl := (M (HavenClient * W) ClientError).
Abbreviation Mb := (M (MobileVault * W) MobileError).

(** A call of the client; then the events it told reach the clock and the app. *)
Definition on_client {A} (m : Cl A) : Mb A := fun s =>
  let '((c, w), r) := m (haven s.1, s.2) in
  let '(k, l) := foldl (hear (mono w) (wall w)) (clock s.1, told s.1) (drop (length (events (haven s.1))) (events c)) in
  ((set_told k l (set_haven c s.1), w), map_err from_client r).

(** [self.client.vault()?] and then a method of the vault. *)
Definition read {A} (f : VaultService -> Result A) : Mb A := on_client (read_vault f).
Definition change {A} (m : V A) : Mb A := on_client (with_vault m).
Definition core_ {A} (r : Result A) : Mb A := mlift (map_err of_core r).
Definition now : Mb Z := fun s => (s, Ok (now_ms s.2)).
Definition draws : Mb PhoneDraws := fun s => let '(w, d) := phone_draws s.2 in ((s.1, w), Ok d).
Definition attempt_ {A} (m : Mb A) : Mb (option A) := fun s => let '(s, r) := m s in (s, Ok (result_ok r)).

Definition parse_id (id : list Z) : Mb Z := core_ (ok_or NotFound (uuid_parse id)).

Definition is_online_ : Mb bool := fun s => (s, Ok (is_online (haven s.1))).
Definition online_required : Mb () := on_client Client.require_online.
Definition require_full_ : Mb () := on_client Client.require_full.
Definition require_unlocked : Mb () := read (fun v => guard_err (negb (is_unlocked v)) Locked).
Definition vault_unlocked (s : MobileVault) : bool :=
  match storage_error (haven s) with Some _ => false | None => is_unlocked (vault_ (haven s)) end.

Definition lock_ (reason : string) : Mb () := on_client (client (Client.lock reason)).

Definition auto_lock_tick : Mb () := fun s =>
  if negb (vault_unlocked s.1) then (s, Ok ())
  else
    let '(m, due) := clock_due (mono s.2) (wall s.2) (clock s.1) in
    let s := (set_clock m s.1, s.2) in
    match due with Some reason => lock_ (reason_as_str reason) s | None => (s, Ok ()) end.

(** Every call that reads the vault starts here. *)
Definition unlocked : Mb () := _ ← auto_lock_tick; require_unlocked.

Definition refuse_when_frozen : Mb () := require_full_.
Definition entitlement_ : Mb Store.Entitlement := read (fun v => Ok (Store.entitlement (plan (store v)))).
Definition is_frozen : Mb bool := e ← entitlement_; mret (bool_decide (e = Store.Frozen)).

Definition tell_items_changed : Mb () := fun s => ((set_told (clock s.1) (told s.1 ++ [AppItemsChanged]) s.1, s.2), Ok ()).
Definition send_returning (w : StagedWrite) : Mb (option ItemOverview) :=
  ov ← on_client (push w); _ ← tell_items_changed; mret ov.
Definition send (w : StagedWrite) : Mb () := _ ← send_returning w; mret ().

Definition frozen (s : MobileVault * W) : bool :=
  match (entitlement_ s).2 with Ok e => bool_decide (e = Store.Frozen) | Err _ => false end.
Definition forget_kit : Mb () := fun s => ((set_kit None s.1, s.2), Ok ()).
Definition lock : Mb () := _ ← lock_ "user"; forget_kit.
Definition touch : Mb () := fun s =>
  let '(m, due) := clock_touch (mono s.2) (wall s.2) (clock s.1) in
  let s := (set_clock m s.1, s.2) in
  match due with
  | Some reason => if vault_unlocked s.1 then lock_ (reason_as_str reason) s else (s, Ok ())
  | None => (s, Ok ())
  end.

(** settings.rs *)
Definition device_settings : Mb DeviceSettings := fun s =>
  (s, Ok (from_slot match storage_error (haven s.1) with
                    | None => read_local Vault.DeviceSettings (vault_ (haven s.1))
                    | Some _ => Err Locked
                    end)).
Definition screen_turned_off : Mb () := fun s =>
  if vault_unlocked s.1 then
    (d ← device_settings; if lock_on_screen_off d then lock_ "screen_off" else mret ()) s
  else (s, Ok ()).
Definition settings_ : Mb MobileSettings :=
  shared ← read settings;
  d ← read (fun v => Ok (from_slot (read_local Vault.DeviceSettings v)));
  mret {| ms_auto_lock_minutes := auto_lock_minutes shared;
          ms_clipboard_clear_seconds := clipboard_clear_seconds shared;
          ms_lock_on_screen_off := lock_on_screen_off d; ms_confirm_before_filling := confirm_before_filling d;
          ms_asset_links := asset_links d; ms_equivalent_domains := Model.equivalent_domains shared |}.
Definition arm (minutes : Z) : Mb () := fun s =>
  ((set_clock (clock_arm minutes (mono s.2) (wall s.2) (clock s.1)) s.1, s.2), Ok ()).
Definition update_settings_ (s : MobileSettings) : Mb () :=
  d ← draws;
  shared ← read settings;
  _ ← change (update_settings (shared_settings s shared) (pd_r1 d));
  _ ← change (write_local Vault.DeviceSettings
                {| lock_on_screen_off := ms_lock_on_screen_off s; confirm_before_filling := ms_confirm_before_filling s;
                   asset_links := ms_asset_links s |} (pd_r2 d));
  arm (ms_auto_lock_minutes s).

(** activity.rs *)
Definition note_use (item : Z) : Mb () :=
  d ← draws; t ← now; _ ← attempt_ (change (record_use item t (pd_use d))); mret ().

(** ** asset_links_fetch.rs *)

Definition url_for (host : list Z) : option (list Z) :=
  u ← url_parse (lit "https://" ++ host ++ lit "/.well-known/assetlinks.json");
  match url_host u with
  | Some (HDomain d) =>
      if bool_decide (d = host) && negb (bool_decide (d = lit "localhost")) && bool_decide (46 ∈ d)
      then Some (url_to_string u) else None
  | _ => None
  end.

Fixpoint body_of (body : list Z) (chunks : list (option (list Z))) : option (list Z) :=
  match chunks with
  | [] => Some body
  | None :: _ => None
  | Some c :: chunks => if MAX_ASSET_LINKS_BYTES <? len body + len c then None else body_of (body ++ c) chunks
  end.
Definition fetch_from (url : list Z) : Mb (option (list AppStatement)) := fun s =>
  let '(w, r) := http_get url s.2 in
  ((s.1, w), Ok ('(status, chunks) ← r;
                 if status =? 200 then body ← body_of [] chunks; result_ok (links_parse body) else None)).

(** ** autofill.rs *)

Definition frame_url (top : list Z) (f : FrameFacts) : option (list Z) :=
  match ff_domain f with None => Some top | Some domain => browser_page_url domain (ff_scheme f) end.

Definition target (t : TargetFacts) : Mb FillTarget := fun s =>
  core_ (classify (own_package s.1) (tf_package t) (tf_certs t) (tf_web_domain t) (tf_web_scheme t)) s.

(** The hosts an answer is missing for, the vault's candidates first. *)
Definition push_new (l : list (list Z)) (h : list Z) : list (list Z) := if bool_decide (h ∈ l) then l else l ++ [h].
Definition stale_hosts (app : AppIdentity) (also : list (list Z)) (now : Z) (asked : bool) (v : VaultService)
    : Result (AssetLinksCache * list (list Z)) :=
  let cache : AssetLinksCache := match read_local AssetLinks v with Ok (Some c) => c | _ => [] end in
  if asked then
    hosts ← login_hosts v;
    let hosts := foldl push_new (candidate_hosts (app_package app) hosts) also in
    Ok (cache, List.filter (fun h => negb (is_fresh h now cache)) hosts)
  else Ok (cache, []).

Fixpoint fetch_all (hosts : list (list Z)) : Mb (list (option (list AppStatement))) :=
  match hosts with
  | [] => mret []
  | h :: hosts =>
      x ← (match url_for h with Some url => fetch_from url | None => mret None end : Mb (option (list AppStatement)));
      xs ← fetch_all hosts;
      mret (x :: xs)
  end.
Definition record_all (now : Z) (l : list (list Z * option (list AppStatement))) (c : AssetLinksCache) : AssetLinksCache :=
  foldl (fun c p => cache_record p.1 now p.2 c) c l.

Definition refreshed (now : Z) (stale : list (list Z)) (cache : AssetLinksCache) : Mb AssetLinksCache := fun s =>
  if bool_decide (stale = []) || negb (http_ready s.2) then (s, Ok cache)
  else
    (fetched ← fetch_all stale;
     let cache := record_all now (combine stale fetched) cache in
     d ← draws;
     _ ← attempt_ (change (write_local AssetLinks cache (pd_use d)));
     mret cache) s.

Definition verified_hosts_asking (app : AppIdentity) (also : list (list Z)) : Mb (list (list Z)) :=
  t ← now;
  d ← device_settings;
  '(cache, stale) ← read (stale_hosts app also t (asset_links d));
  cache ← refreshed t stale cache;
  mret (AppTarget.verified_hosts app t cache).
Definition verified_hosts (app : AppIdentity) : Mb (list (list Z)) := verified_hosts_asking app [].

Definition autofill_target_kind (t : TargetFacts) : Mb TargetKind :=
  x ← target t; mret match x with TBrowser _ => KindBrowser | TApp _ => KindApp end.
Definition confirm_before_filling_ : Mb bool := d ← device_settings; mret (confirm_before_filling d).

Definition matches_of (x : FillTarget) : Mb (list Suggestion) :=
  match x with
  | TBrowser page_url => t ← now; read (find_matches page_url None t)
  | TApp app => hosts ← verified_hosts app; t ← now; read (matches_for_app app hosts t)
  end.
Definition fill_of (id : Z) (x : FillTarget) : Mb FillCredentials :=
  match x with
  | TBrowser page_url => t ← now; change (fill_for_page id page_url None t)
  | TApp app => hosts ← verified_hosts app; read (fill_for_app id app hosts)
  end.

Definition autofill_matches (t : TargetFacts) : Mb (list AutofillMatch) :=
  _ ← unlocked;
  cold ← is_frozen;
  if (cold : bool) then mret []
  else x ← target t; found ← matches_of x; mret (map to_match found).

Definition lookalike_for (t : TargetFacts) : Mb (option (list Z)) :=
  _ ← unlocked;
  x ← target t;
  match x with TBrowser page_url => read (lookalike_for_page page_url None) | TApp _ => mret None end.

Definition autofill_fill (id : list Z) (t : TargetFacts) : Mb FillValues :=
  id ← parse_id id;
  _ ← unlocked;
  _ ← refuse_when_frozen;
  x ← target t;
  creds ← fill_of id x;
  mret (to_values creds).

Definition autofill_totp (id : list Z) (t : TargetFacts) : Mb (list Z) :=
  id ← parse_id id;
  _ ← unlocked;
  x ← target t;
  code ← (match x with
          | TBrowser page_url => t ← now; read (totp_for_page id page_url None (unix_seconds t))
          | TApp app => hosts ← verified_hosts app; t ← now; read (totp_for_app id app hosts (unix_seconds t))
          end : Mb TotpCode);
  mret (tc_code code).

Definition autofill_search (query : list Z) : Mb (list AutofillMatch) :=
  _ ← unlocked;
  cold ← is_frozen;
  if (cold : bool) then mret [] else found ← read (search_logins query); mret (map to_match found).

(** A fill the user confirmed and nothing stored: the item itself. *)
Definition read_once (item : Z) (v : VaultService) : Result FillCredentials :=
  o ← get_item item v;
  if bool_decide (item_type o = BankAccount) then
    f ← bank_fields item v;
    Ok {| fc_username := None; fc_password := b_password f; fc_bank := bank_values f |}
  else
    password ← (match reveal item SfPassword v with
                | Ok p => Ok (Some p)
                | Err NotFound => Ok None
                | Err e => Err e
                end : Result (option (list Z)));
    Ok {| fc_username := username o; fc_password := password; fc_bank := None |}.

Definition autofill_bind_and_fill (id : list Z) (t : TargetFacts) : Mb BoundFill :=
  item ← parse_id id;
  _ ← unlocked;
  _ ← refuse_when_frozen;
  x ← target t;
  match x with
  | TBrowser _ => mthrow_ (of_core Denied)
  | TApp app =>
      d ← draws;
      at_ ← now;
      staged ← read (stage_bind_app item app at_ (pd_r1 d) (pd_r2 d));
      online ← is_online_;
      pushed ← (if (online : bool) then attempt_ (on_client (push staged)) else mret None : Mb (option (option ItemOverview)));
      let saved := is_some pushed in
      creds ← (if saved then read (fill_for_app item app []) else read (read_once item) : Mb FillCredentials);
      _ ← note_use item;
      mret {| bf_values := to_values creds; bf_saved := saved |}
  end.

(** ** cards.rs *)

Definition bounded {A} (frames : list A) : Mb () :=
  if (MAX_CARD_FRAMES <? length frames)%nat then mthrow_ (of_core (InvalidInput "too many frames")) else mret ().

(** [&self.client.vault()?], held for the rest of the call. *)
Definition guard_vault : Mb () := read (fun _ => Ok ()).

Definition stage_card_save (t : TargetFacts) (f : FrameFacts) (card : SaveCard) : Mb (option StagedWrite) :=
  _ ← unlocked;
  x ← target t;
  saved ← read (card_number_saved (sc_number card));
  if (saved : bool) then mret None
  else
    let new := {| nc_title := None; nc_holder := sc_cardholder_name card; nc_number := sc_number card;
                  nc_verification := sc_verification_number card; nc_expiry := sc_expiry card |} in
    t ← now;
    d ← draws;
    staged ← (match x with
              | TBrowser page_url =>
                  page ← core_ (ok_or Denied (frame_url page_url f));
                  read (stage_save_card (pd_new_id d) (pd_fresh d) page (Some page_url) new t (pd_r1 d) (pd_r2 d))
              | TApp _ => read (stage_save_card_for_app (pd_new_id d) (pd_fresh d) new t (pd_r1 d) (pd_r2 d))
              end : Mb StagedSave);
    mret (Some (save_write staged)).

Definition autofill_cards (t : TargetFacts) (frames : list FrameFacts) : Mb CardChoices :=
  _ ← bounded frames;
  _ ← unlocked;
  cold ← is_frozen;
  if (cold : bool) then mret {| cs_insecure := false; cs_cards := []; cs_frames := map (fun _ => false) frames |}
  else
    _ ← guard_vault;
    x ← target t;
    match x with
    | TBrowser page_url =>
        t ← now;
        l ← read (cards_for_page page_url None t);
        mret {| cs_insecure := insecure l; cs_cards := map card_choice (offers l);
                cs_frames := map (fun f => negb (insecure l)
                                           && match frame_url page_url f with
                                              | Some url => frame_may_get_cards url page_url
                                              | None => false
                                              end) frames |}
    | TApp _ =>
        t ← now;
        l ← read (cards_for_app t);
        mret {| cs_insecure := false; cs_cards := map card_choice l; cs_frames := map (fun _ => true) frames |}
    end.

Definition core_frame (page_url : list Z) (f : CardFrameRoles) : Result CardFrame :=
  url ← ok_or Denied (frame_url page_url (cfr_frame f));
  Ok {| cfr_url := url; cfr_roles := map core_card_role (cfr_frame_roles f) |}.
Definition autofill_card_values (id : list Z) (t : TargetFacts) (frames : list CardFrameRoles) : Mb (list (list CardValue)) :=
  _ ← bounded frames;
  id ← parse_id id;
  _ ← unlocked;
  _ ← refuse_when_frozen;
  _ ← guard_vault;
  x ← target t;
  found ← (match x with
           | TBrowser page_url =>
               core ← core_ (mapM_result (core_frame page_url) frames);
               read (card_values_for_page id page_url core)
           | TApp _ =>
               read (fun v => mapM_result (fun f => card_values_for_app id (map core_card_role (cfr_frame_roles f)) v) frames)
           end : Mb (list (list (CardPage.CardRole * list Z))));
  mret (map card_values found).

Definition autofill_save_card (t : TargetFacts) (f : FrameFacts) (card : SaveCard) : Mb SaveResult :=
  staged ← stage_card_save t f card;
  match staged with
  | None => mret Unchanged
  | Some w => _ ← online_required; _ ← send w; mret Added
  end.

(** ** identity_fill.rs *)

Definition place (t : TargetFacts) (f : FrameFacts) : Mb Place :=
  x ← target t;
  match x with
  | TBrowser page_url => page ← core_ (ok_or Denied (frame_url page_url f)); mret (InPage page page_url)
  | TApp _ => mret InApp
  end.

Definition autofill_identity (t : TargetFacts) (f : FrameFacts) : Mb (option IdentityChoice) :=
  _ ← unlocked;
  cold ← is_frozen;
  if (cold : bool) then mret None
  else
    p ← place t f;
    found ← read (fun v => Ok match p with
                              | InPage page top => identity_summary_for_page page (Some top) v
                              | InApp => identity_summary_for_app v
                              end);
    let documents_allowed := match p with
                             | InPage page _ => match page_parse page with Some u => is_https u | None => false end
                             | InApp => true
                             end in
    match found with
    | Ok summary => mret (identity_choice summary documents_allowed)
    | Err NotFound => mret None
    | Err e => mthrow_ (of_core e)
    end.

Definition autofill_identity_values (t : TargetFacts) (f : FrameFacts) (roles : list IdentityRole) (documents : bool)
    : Mb (list IdentityValue) :=
  if (MAX_IDENTITY_ROLES <? length roles)%nat then mthrow_ (of_core (InvalidInput "too many roles"))
  else
    _ ← unlocked;
    _ ← refuse_when_frozen;
    let core := map core_role roles in
    p ← place t f;
    found ← (match p with
             | InPage page top => read (identity_values_for_page page (Some top) core documents)
             | InApp => read (identity_values_for_app core documents)
             end : Mb (list (FillRole * list Z)));
    mret (map (fun q => {| iv_role := role_of q.1; iv_value := q.2 |}) found).

(** ** save.rs *)

Definition stage_autofill_save (t : TargetFacts) (login : SaveLogin) : Mb (option (StagedWrite * SaveResult)) :=
  _ ← unlocked;
  let username := trimmed_nonempty (sl_username login) in
  at_ ← now;
  d ← draws;
  x ← target t;
  match x with
  | TBrowser page_url =>
      action ← read (check_login page_url None username (sl_password login) (sl_current_password login));
      match decided action with
      | None => mret None
      | Some (to, r) =>
          staged ← read (stage_save_login (pd_new_id d) (pd_fresh d) page_url None username (sl_password login) to at_
                           (pd_r1 d) (pd_r2 d));
          mret (Some (save_write staged, r))
      end
  | TApp app =>
      hosts ← verified_hosts app;
      action ← read (check_login_for_app app hosts username (sl_password login) (sl_current_password login));
      match decided action with
      | None => mret None
      | Some (to, r) =>
          let to := match to with NewLogin _ => NewLogin (sl_title login) | update => update end in
          staged ← read (stage_save_login_for_app (pd_new_id d) (pd_fresh d) app hosts username (sl_password login) to at_
                           (pd_r1 d) (pd_r2 d));
          mret (Some (save_write staged, r))
      end
  end.
Definition autofill_save (t : TargetFacts) (login : SaveLogin) : Mb SaveResult :=
  _ ← unlocked;
  _ ← online_required;
  staged ← stage_autofill_save t login;
  match staged with None => mret Unchanged | Some (w, r) => _ ← send w; mret r end.

(** ** credentials.rs *)

Definition hash_32 (h : list Z) : Mb (list Z) := if (length h =? 32)%nat then mret h else mthrow_ invalid_request.

Definition rp_for (c : Caller) (asked : option (list Z)) : Mb (list Z) :=
  match asked, c with
  | Some id, _ => mret id
  | None, CallerBrowser page_url => core_ (ok_or Denied (url_parse page_url ≫= url_host_str))
  | None, CallerApp _ => mthrow_ invalid_request
  end.

Definition with_username (found : list Suggestion) : list AutofillMatch :=
  map to_match (List.filter (fun s => match sg_username s with Some u => negb (bool_decide (trim u = [])) | None => false end)
                  found).

Definition credential_caller (c : CredentialCaller) : Mb Caller := fun s =>
  core_ (app ← app_identity (cr_package c) (cr_certs c);
         if bool_decide (app_package app = own_package s.1) then Err Denied
         else
           match cr_origin c with
           | None => Ok (CallerApp app)
           | Some origin =>
               let privileged := existsb (is_privileged_browser (app_package app)) (app_certs app) in
               if negb privileged || (MAX_ORIGIN_LEN <? str_len origin) || is_none (page_parse origin) then Err Denied
               else Ok (CallerBrowser origin)
           end) s.

Definition ask_about_rp (app : AppIdentity) (rp_id : list Z) : Mb (list Z * list (list Z)) :=
  rp ← core_ (ok_or Denied (app_rp_id rp_id));
  hosts ← verified_hosts_asking app [rp];
  mret (rp, hosts).

Definition create_check (c : Caller) (rp user_name : list Z) (exclude : list (list Z)) : Mb (list Z * CreateCheck) :=
  at_ ← now;
  match c with
  | CallerBrowser page_url =>
      check ← read (check_passkey_create {| cq_rp := rp; cq_page := page_url; cq_top := None; cq_user := user_name;
                                            cq_exclude := exclude; cq_conditional := false |} at_);
      mret (default rp (app_rp_id rp), check)
  | CallerApp app =>
      '(rp, hosts) ← ask_about_rp app rp;
      check ← read (check_passkey_create_for_app {| aq_rp := rp; aq_app := app; aq_hosts := hosts; aq_user := user_name;
                                                    aq_exclude := exclude |} at_);
      mret (rp, check)
  end.

Definition passkey_offers (c : CredentialCaller) (request_json : list Z) : Mb (list PasskeyOffer) :=
  _ ← unlocked;
  caller ← credential_caller c;
  req ← mlift (parse_request_ request_json);
  rp ← rp_for caller (ro_rp_id req);
  found ← (match caller with
           | CallerBrowser page_url => read (find_passkeys rp page_url None (ro_allow req))
           | CallerApp app =>
               '(rp, _) ← ask_about_rp app rp;
               t ← now;
               read (find_passkeys_for_app rp app (ro_allow req) t)
           end : Mb (list PasskeyMatch));
  mret (map (fun m => {| po_item := uuid_text (pm_item m); po_credential := pm_credential m; po_title := pm_title m;
                         po_user := pm_user m |}) (take MAX_OFFERS found)).

Definition passkey_sign_in (c : CredentialCaller) (request_json : list Z) (client_data_hash : option (list Z))
    (item_id credential_id : list Z) : Mb (list Z) :=
  item ← parse_id item_id;
  _ ← unlocked;
  caller ← credential_caller c;
  req ← mlift (parse_request_ request_json);
  rp ← rp_for caller (ro_rp_id req);
  if negb (bool_decide (ro_allow req = [])) && negb (bool_decide (credential_id ∈ ro_allow req))
  then mthrow_ (of_core Denied)
  else
    assertion ← (match caller with
                 | CallerBrowser page_url =>
                     _ ← guard_vault;
                     match client_data_hash with
                     | Some h =>
                         hash ← hash_32 h;
                         read (passkey_assert_with_hash item credential_id rp page_url (ro_challenge req) hash)
                     | None => read (passkey_assert item credential_id rp page_url None (ro_challenge req))
                     end
                 | CallerApp app =>
                     '(rp, _) ← ask_about_rp app rp;
                     t ← now;
                     read (passkey_assert_for_app item credential_id rp app (ro_challenge req) t)
                 end : Mb Assertion);
    _ ← note_use item;
    mret (assertion_json assertion).

Definition passkey_create_plan (c : CredentialCaller) (request_json : list Z) : Mb PasskeyCreatePlan :=
  _ ← unlocked;
  _ ← require_full_;
  caller ← credential_caller c;
  opts ← mlift (parse_creation request_json);
  rp ← rp_for caller (co_rp_id opts);
  '(rp_id, check) ← create_check caller rp (co_user_name opts) (co_exclude opts);
  mret {| pp_rp := rp_id; pp_user := co_user_name opts; pp_excluded := cc_excluded check;
          pp_homes := if cc_excluded check then [] else map to_match (cc_candidates check) |}.

Definition parse_item (id : option (list Z)) : Mb (option Z) :=
  match id with None => mret None | Some id => i ← parse_id id; mret (Some i) end.

Definition passkey_create (c : CredentialCaller) (request_json : list Z) (item_id : option (list Z)) : Mb (list Z) :=
  item ← parse_item item_id;
  _ ← unlocked;
  _ ← online_required;
  _ ← require_full_;
  caller ← credential_caller c;
  opts ← mlift (parse_creation request_json);
  rp ← rp_for caller (co_rp_id opts);
  '(_, check) ← create_check caller rp (co_user_name opts) (co_exclude opts);
  if cc_excluded check then mthrow_ passkey_exists
  else
    at_ ← now;
    d ← draws;
    staged ← (match caller with
              | CallerBrowser page_url =>
                  change (stage_passkey_create (pd_new_id d) (pd_fresh d)
                    {| pc_rp := rp; pc_page := page_url; pc_top := None; pc_challenge := co_challenge opts;
                       pc_handle := co_user_handle opts; pc_user := co_user_name opts;
                       pc_display := co_display_name opts; pc_item := item; pc_conditional := false |}
                    at_ (pd_key d) (pd_credential d) (pd_r1 d) (pd_r2 d))
              | CallerApp app =>
                  '(rp, hosts) ← ask_about_rp app rp;
                  read (stage_passkey_create_for_app (pd_new_id d) (pd_fresh d)
                    {| ap_rp := rp; ap_app := app; ap_hosts := hosts; ap_challenge := co_challenge opts;
                       ap_handle := co_user_handle opts; ap_user := co_user_name opts;
                       ap_display := co_display_name opts; AppFill.ap_item := item |}
                    at_ (pd_key d) (pd_credential d) (pd_r1 d) (pd_r2 d))
              end : Mb StagedPasskey);
    _ ← send (sp_write staged);
    mret (registration_json (sp_registration staged)).

Definition target_of (c : Caller) : FillTarget :=
  match c with CallerBrowser page_url => TBrowser page_url | CallerApp app => TApp app end.
Definition credential_password_offers (c : CredentialCaller) : Mb (list AutofillMatch) :=
  _ ← unlocked;
  cold ← is_frozen;
  if (cold : bool) then mret []
  else caller ← credential_caller c; found ← matches_of (target_of caller); mret (take MAX_OFFERS (with_username found)).

Definition credential_password (c : CredentialCaller) (item_id : list Z) : Mb FillValues :=
  id ← parse_id item_id;
  _ ← unlocked;
  _ ← refuse_when_frozen;
  caller ← credential_caller c;
  creds ← fill_of id (target_of caller);
  _ ← note_use id;
  mret {| fv_username := fc_username creds; fv_password := fc_password creds; fv_bank := None |}.
End Mobile.

(** ** What a call does to the phone *)

Section Facts.
Context {C : Crypto} {K : KeyLib} {U : Unicode} {J : JsonLib} {UL : UrlLib} {SL : SiteLib UL} {L : TotpLib} {H : HeaderLib}.
Context {AL : AppLib} {PL : PasskeyLib} {FL : FloatLib} {LL : LookalikeLib} {HX : HexLib} {UT : UuidText} {UP : UuidParse}.
Context {AC : Codec Activity} {ACC : Codec AssetLinksCache} {DC : Codec DeviceSettings} {PH : PhoneLib}.
Context {S1 : Serde ErrorBody} {S2 : Serde PullDto} {S3 : Serde WriteBody} {S4 : Serde WriteAckDto}.
Context {S5 : Serde ConflictsDto} {S6 : Serde FetchBody} {S7 : Serde FetchDto} {S8 : Serde HeaderDto}.
Context {S9 : Serde AttachmentPutBody} {S10 : Serde AttachmentDto}.
Context {W : Type} {T : Transport W} {P : Platform W} {HO : PhoneHost W}.
Implicit Type s : MobileVault * W.

Abbreviation Mb := (M (MobileVault * W) MobileError).
Abbreviation vault_of s := (vault_ (haven s.1)).

(** A call of the client that tells nothing and leaves it alone. *)
Lemma run_quiet {A} (m : M (HavenClient * W) ClientError A) s r :
  m (haven s.1, s.2) = ((haven s.1, s.2), r) -> on_client m s = (s, map_err from_client r).
Proof.
  intros Hm. unfold on_client. rewrite Hm, drop_all. cbn [foldl]. destruct s as [v w]. by destruct v.
Qed.

Lemma run_change {A} (m : V A) s :
  change m s =
  match storage_error (haven s.1) with
  | Some e => (s, Err (from_client e))
  | None => let '(v, r) := m (vault_of s) in ((set_haven (set_vault_ v (haven s.1)) s.1, s.2), map_err of_core r)
  end.
Proof.
  unfold change. destruct (storage_error (haven s.1)) as [e|] eqn:Ee.
  - rewrite (run_quiet _ s (Err e)); [done|]. unfold with_vault. cbn. by rewrite Ee.
  - unfold on_client, with_vault. cbn. rewrite Ee. destruct (m _) as [v r]. cbn. rewrite drop_all. cbn [foldl].
    destruct r; by destruct s as [[] w].
Qed.

Lemma run_read {A} (f : VaultService -> Result A) s :
  read f s = (s, match storage_error (haven s.1) with
                 | Some e => Err (from_client e)
                 | None => map_err of_core (f (vault_of s))
                 end).
Proof.
  change (read f) with (change (mread f)). rewrite run_change. unfold mread.
  destruct (storage_error _); [done|]. by destruct s as [[[]] w].
Qed.

Lemma map_err_Ok {E E' A} (g : E -> E') (r : result E A) a : map_err g r = Ok a -> r = Ok a.
Proof. by destruct r as [?|]; intros [= ->]. Qed.

Lemma read_Ok {A} (f : VaultService -> Result A) s s' a :
  read f s = (s', Ok a) -> s' = s /\ storage_error (haven s.1) = None /\ f (vault_of s) = Ok a.
Proof.
  rewrite run_read. destruct (storage_error _); [done|]. intros [= <- Hr].
  split_and!; [done..|by apply map_err_Ok in Hr].
Qed.

(** The phone's vault is open but its auto-lock has passed. *)
Definition overdue s : bool :=
  vault_unlocked s.1 && is_some (clock_due (mono s.2) (wall s.2) (clock s.1)).2.

Lemma vault_unlocked_true v : vault_unlocked v = true <-> storage_error (haven v) = None /\ is_unlocked (vault_ (haven v)) = true.
Proof.
  unfold vault_unlocked. destruct (storage_error _); [split; [done|by intros [[=] _]]|split; [done|by intros [_ ?]]].
Qed.

Lemma lock_locks reason s : storage_error (haven s.1) = None ->
  exists s', lock_ reason s = (s', Ok ()) /\ storage_error (haven s'.1) = None /\ is_unlocked (vault_of s') = false.
Proof.
  intros He. unfold lock_, on_client, client, mmodify, Client.lock, Vault.lock. cbn.
  destruct (foldl _ _ _) as [k l]. eexists. split; [done|]. by cbn.
Qed.

Lemma run_require_unlocked s :
  require_unlocked s = (s, match storage_error (haven s.1) with
                           | Some e => Err (from_client e)
                           | None => if is_unlocked (vault_of s) then Ok () else Err (of_core Locked)
                           end).
Proof.
  unfold require_unlocked. rewrite run_read. destruct (storage_error _); [done|]. by destruct (is_unlocked (vault_of s)).
Qed.

(** Past the auto-lock a call locks the vault and fails. *)
Lemma overdue_locks s : overdue s = true ->
  exists s' e, unlocked s = (s', Err e) /\ vault_unlocked s'.1 = false.
Proof.
  unfold overdue. intros [Hu Hd]%andb_true_iff. unfold unlocked, auto_lock_tick.
  pose proof Hu as [He _]%vault_unlocked_true.
  unfold mbind, M_bind. rewrite Hu. cbn [negb]. destruct (clock_due _ _ _) as [m [reason|]]; [|done].
  destruct (lock_locks (reason_as_str reason) (set_clock m s.1, s.2)) as (s' & -> & He' & Hl); [done|].
  rewrite run_require_unlocked, He', Hl. exists s', (of_core Locked). split; [done|].
  unfold vault_unlocked. by rewrite He'.
Qed.

(** A call that gets past [unlocked] found the vault open and its auto-lock
    not passed; only the clock was read. *)
Lemma unlocked_Ok s s' a : unlocked s = (s', Ok a) ->
  vault_unlocked s.1 = true /\ overdue s = false /\ exists m, s' = (set_clock m s.1, s.2).
Proof.
  intros Hok. destruct (overdue s) eqn:Eo.
  { destruct (overdue_locks _ Eo) as (? & ? & Hl & _). congruence. }
  unfold unlocked in Hok. apply M_bind_Ok in Hok as (? & s1 & Ht & Hr). rewrite run_require_unlocked in Hr.
  unfold auto_lock_tick in Ht. unfold overdue in Eo. destruct (vault_unlocked s.1) eqn:Eu; cbn [negb andb] in *.
  - destruct (clock_due _ _ _) as [m [reason|]]; [done|]. injection Ht as <- _. injection Hr as <- _.
    split_and!; [done..|by exists m].
  - injection Ht as <- _. exfalso. unfold vault_unlocked in Eu. destruct (storage_error _); [done|].
    cbn in Hr. by destruct (is_unlocked _).
Qed.

(** *** Calls that begin with the auto-lock

    What such a call promises: past the auto-lock it fails, with the vault
    locked, or left as it was when the call was refused for its arguments;
    and it answers only from an open vault. *)
Definition guarded {A} (m : Mb A) : Prop := forall s,
  let '(s', r) := m s in
  if overdue s then is_ok r = false /\ (s' = s \/ vault_unlocked s'.1 = false)
  else is_ok r = true -> vault_unlocked s.1 = true.

Lemma guarded_unlocked {A} (f : () -> Mb A) : guarded (unlocked ≫= f).
Proof.
  intros s. destruct (overdue s) eqn:Eo.
  - destruct (overdue_locks _ Eo) as (s' & e & Hl & Hv). erewrite run_bind_err by exact Hl. by auto.
  - destruct ((unlocked ≫= f) s) as [s' r] eqn:E. destruct r as [a|]; [|done]. intros _.
    apply M_bind_Ok in E as (? & ? & Hu & _). by apply unlocked_Ok in Hu as [? _].
Qed.
Lemma guarded_only : guarded unlocked.
Proof.
  assert (guarded (unlocked ≫= mret)) as Hg by apply guarded_unlocked. intros s. specialize (Hg s).
  unfold mbind, M_bind in Hg. by destruct (unlocked s) as [s' [[]|e]].
Qed.
Lemma guarded_bind {A B} (m : Mb A) (f : A -> Mb B) : guarded m -> guarded (m ≫= f).
Proof.
  intros Hm s. specialize (Hm s). unfold mbind, M_bind. destruct (m s) as [s1 [a|e]]; [|done].
  destruct (overdue s); [by destruct Hm|]. destruct (f a s1) as [s' r]. auto.
Qed.

(** Arguments are read before: that neither changes nor reveals anything. *)
Lemma guarded_lift {A B} (r : result MobileError A) (f : A -> Mb B) : (forall a, guarded (f a)) -> guarded (mlift r ≫= f).
Proof.
  intros Hf s. destruct r as [a|e]; [apply (Hf a s)|]. unfold mlift, mbind, M_bind. destruct (overdue s); [by auto|done].
Qed.
Lemma guarded_throw {A} e : guarded (mthrow_ e : Mb A).
Proof. intros s. unfold mthrow_. destruct (overdue s); by auto. Qed.
Lemma guarded_id {B} id (f : Z -> Mb B) : (forall a, guarded (f a)) -> guarded (parse_id id ≫= f).
Proof. apply guarded_lift. Qed.
Lemma guarded_bounded {A B} (l : list A) (f : () -> Mb B) : (forall a, guarded (f a)) -> guarded (bounded l ≫= f).
Proof. intros Hf. unfold bounded. destruct (_ <? _)%nat; [apply (guarded_lift (Err _))|apply (guarded_lift (Ok ()))]; auto. Qed.
Lemma guarded_item {B} id (f : option Z -> Mb B) : (forall a, guarded (f a)) -> guarded (parse_item id ≫= f).
Proof.
  intros Hf. unfold parse_item. destruct id as [id|]; [|apply (guarded_lift (Ok None)); auto].
  intros s. pose proof (guarded_id id (fun i => f (Some i)) (fun i => Hf _) s) as Hg.
  revert Hg. unfold parse_id, core_, mlift, mret, M_ret, mbind, M_bind. by destruct (uuid_parse id).
Qed.
End Facts.

(** ** What a fill was allowed by *)

Section Fills.
Context {C : Crypto} {K : KeyLib} {U : Unicode} {J : JsonLib} {UL : UrlLib} {SL : SiteLib UL} {L : TotpLib} {H : HeaderLib}.
Context {AL : AppLib} {PL : PasskeyLib} {FL : FloatLib} {LL : LookalikeLib} {HX : HexLib} {UT : UuidText} {UP : UuidParse}.
Context {AC : Codec Activity} {ACC : Codec AssetLinksCache} {DC : Codec DeviceSettings} {PH : PhoneLib}.
Context {S1 : Serde ErrorBody} {S2 : Serde PullDto} {S3 : Serde WriteBody} {S4 : Serde WriteAckDto}.
Context {S5 : Serde ConflictsDto} {S6 : Serde FetchBody} {S7 : Serde FetchDto} {S8 : Serde HeaderDto}.
Context {S9 : Serde AttachmentPutBody} {S10 : Serde AttachmentDto}.
Context {W : Type} {T : Transport W} {P : Platform W} {HO : PhoneHost W}.
Implicit Type s : MobileVault * W.

Abbreviation Mb := (M (MobileVault * W) MobileError).
Abbreviation vault_of s := (vault_ (haven s.1)).

(** The site answered, complete, under [url_for] and without a redirect. *)
Definition site_said (h : list Z) (l : list AppStatement) : Prop :=
  exists url (w w' : W) chunks body, url_for h = Some url /\ http_get url w = (w', Some (200, chunks)) /\
    body_of [] chunks = Some body /\ links_parse body = Ok l.

Lemma fetch_from_said h url s s' x : url_for h = Some url -> fetch_from url s = (s', Ok (Some x)) -> site_said h x.
Proof.
  unfold fetch_from. intros Hu. destruct (http_get url s.2) as [w [[status chunks]|]] eqn:Eg; [|done].
  cbn. destruct (Z.eqb_spec status 200) as [->|]; [|done]. destruct (body_of [] chunks) as [body|] eqn:Eb; [|done].
  cbn. destruct (links_parse body) as [l|] eqn:El; [|done]. cbn. intros [= _ ->].
  by exists url, s.2, w, chunks, body.
Qed.

Lemma fetch_all_said hosts s : exists w xs, fetch_all hosts s = ((s.1, w), Ok xs) /\
  forall h l, (h, Some l) ∈ combine hosts xs -> site_said h l.
Proof.
  revert s. induction hosts as [|h hosts IH]; intros s.
  - exists s.2, []. split; [by destruct s|]. intros ? ? []%elem_of_nil.
  - set (m := match url_for h with Some url => fetch_from url | None => mret None end : Mb _).
    assert (exists w x, m s = ((s.1, w), Ok x) /\ forall l, x = Some l -> site_said h l) as (w & x & Hm & Hx).
    { unfold m. destruct (url_for h) as [url|] eqn:Eu; [|exists s.2, None; split; [by destruct s|done]].
      destruct (fetch_from url s) as [s' r] eqn:Ef. assert (exists w x, s' = (s.1, w) /\ r = Ok x) as (w & x & -> & ->).
      { revert Ef. unfold fetch_from. destruct (http_get url s.2). intros [= <- <-]. by eauto. }
      exists w, x. split; [done|]. intros l ->. by eapply fetch_from_said. }
    destruct (IH (s.1, w)) as (w' & xs & Hxs & Hs). exists w', (x :: xs). split.
    + change (fetch_all (h :: hosts)) with (m ≫= fun x => fetch_all hosts ≫= fun xs => mret (x :: xs)).
      by rewrite (run_bind _ _ _ _ _ Hm), (run_bind _ _ _ _ _ Hxs).
    + cbn. intros h' l [[= <- <-]|Hin]%elem_of_cons; [by apply Hx|by apply Hs].
Qed.

(** A line of the cache is kept from before, or is one just recorded. *)
Lemma cache_record_in h now x c e : e ∈ cache_record h now x c ->
  e ∈ c \/ e = {| ch_host := h; checked_at_ms := now; ch_statements := x |}.
Proof.
  unfold cache_record. cbv zeta. intros He.
  assert (e ∈ List.filter (fun e => negb (bool_decide (ch_host e = h))) c
              ++ [{| ch_host := h; checked_at_ms := now; ch_statements := x |}]) as He'.
  { destruct (_ <? _)%nat; [|done]. apply (subseteq_take _ _) in He. by rewrite sort_by_key_perm in He. }
  apply elem_of_app in He' as [He'|He']; [left|right].
  - apply list_elem_of_In, List.filter_In in He' as [He' _]. by apply list_elem_of_In.
  - by apply list_elem_of_singleton in He'.
Qed.
Lemma record_all_in now l c e : e ∈ record_all now l c ->
  e ∈ c \/ exists h x, (h, x) ∈ l /\ e = {| ch_host := h; checked_at_ms := now; ch_statements := x |}.
Proof.
  unfold record_all. revert c. induction l as [|[h x] l IH]; intros c; cbn [foldl]; [by left|].
  intros [He|(h' & x' & Hin & ->)]%IH.
  - apply cache_record_in in He as [He| ->]; [by left|]. right. exists h, x. split; [left|done].
  - right. exists h', x'. split; [by right|done].
Qed.

(** The same session over the same stored items. *)
Definition same_items_ (v v' : VaultService) : Prop :=
  Vault.session v' = Vault.session v /\ Store.items (store v') = Store.items (store v).

Lemma run_draws s : exists w d, draws s = ((s.1, w), Ok d).
Proof. unfold draws. destruct (phone_draws s.2) as [w d]. by exists w, d. Qed.

Lemma write_local_same {A} `{Codec A} slot (a : A) r v v' x :
  write_local slot a r v = (v', x) -> same_items_ v v'.
Proof.
  unfold write_local. mrun. destruct (Vault.session v) as [se|] eqn:Es; [|intros [= <- <-]; done].
  destruct (seal_json _ _ _ _) as [b|]; [|intros [= <- <-]; done]. unfold on_store'. intros [= <- <-].
  unfold same_items_, Vault.session in *. cbn. by destruct (state v).
Qed.

Lemma refreshed_ok now stale cache s s' r : refreshed now stale cache s = (s', r) ->
  same_items_ (vault_of s) (vault_of s') /\ exists c, r = Ok c /\ forall e, e ∈ c ->
    e ∈ cache \/ exists h x, h ∈ stale /\ e = {| ch_host := h; checked_at_ms := now; ch_statements := x |} /\
                             forall l, x = Some l -> site_said h l.
Proof.
  unfold refreshed. destruct (_ || _).
  { intros [= <- <-]. split; [done|]. exists cache. by auto. }
  destruct (fetch_all_said stale s) as (w & xs & Hf & Hs). rewrite (run_bind _ _ _ _ _ Hf). cbv zeta.
  destruct (run_draws (s.1, w)) as (w' & d & Hd). rewrite (run_bind _ _ _ _ _ Hd).
  unfold attempt_, mbind, M_bind. rewrite run_change. cbn [fst snd].
  assert (forall e, e ∈ record_all now (combine stale xs) cache -> e ∈ cache \/ exists h x, h ∈ stale /\
            e = {| ch_host := h; checked_at_ms := now; ch_statements := x |} /\ forall l, x = Some l -> site_said h l) as Hin.
  { intros e [?|(h & x & Hx & ->)]%record_all_in; [by left|right; exists h, x]. split_and!; [|done|intros l ->; by apply Hs].
    apply list_elem_of_In. apply list_elem_of_In in Hx. by eapply in_combine_l. }
  destruct (storage_error _).
  - intros [= <- <-]. split; [done|]. by eexists.
  - destruct (write_local AssetLinks _ _ _) as [v x] eqn:Ew. intros [= <- <-].
    split; [|by eexists]. exact (write_local_same _ _ _ _ _ _ Ew).
Qed.

(** What stands behind a host that vouches: a line of the cache that is
    still fresh, or the site's own answer of just now, asked for only where
    this phone's settings say so. *)
Definition host_vouches (app : AppIdentity) s (h : list Z) : Prop :=
  (exists c e l, read_local AssetLinks (vault_of s) = Ok (Some c) /\ e ∈ (c : AssetLinksCache) /\ ch_host e = h /\
     ch_statements e = Some l /\ fresh e (now_ms s.2) = true /\ vouches_for l app = true) \/
  (exists d l, device_settings s = (s, Ok d) /\ asset_links d = true /\ site_said h l /\ vouches_for l app = true).

Lemma verified_hosts_ok app also s s' hosts : verified_hosts_asking app also s = (s', Ok hosts) ->
  same_items_ (vault_of s) (vault_of s') /\ Forall (host_vouches app s) hosts.
Proof.
  unfold verified_hosts_asking. intros Hv. rewrite (run_bind _ _ s s (now_ms s.2)) in Hv by done.
  apply M_bind_Ok in Hv as (d & s0 & Hd & Hv). assert (s0 = s) as -> by (unfold device_settings in Hd; by injection Hd).
  apply M_bind_Ok in Hv as ([cache stale] & s0 & Hr & Hv). apply read_Ok in Hr as (-> & _ & Hst).
  apply M_bind_Ok in Hv as (c & s1 & Hc & Hv). apply refreshed_ok in Hc as (Hsame & c' & [= <-] & Hin).
  injection Hv as <- <-. split; [done|]. unfold AppTarget.verified_hosts. apply Forall_forall. intros h Hh.
  apply list_elem_of_fmap in Hh as (e & -> & He). apply list_elem_of_In, List.filter_In in He as [He Hvo].
  apply List.filter_In in He as [He%list_elem_of_In Hfr].
  destruct (ch_statements e) as [l|] eqn:El; [|done]. destruct (Hin _ He) as [Hold|(h & x & Hh & -> & Hs)].
  - left. unfold stale_hosts in Hst. destruct (read_local AssetLinks (vault_of s)) as [[c0|]|] eqn:Ec.
    + exists c0, e, l. split_and!; try done. destruct (asset_links d); [|by injection Hst as <- _].
      apply bind_Ok in Hst as (? & _ & [= <- _]). done.
    + exfalso. destruct (asset_links d); [apply bind_Ok in Hst as (? & _ & [= <- _])|injection Hst as <- _]; by apply elem_of_nil in Hold.
    + exfalso. destruct (asset_links d); [apply bind_Ok in Hst as (? & _ & [= <- _])|injection Hst as <- _]; by apply elem_of_nil in Hold.
  - right. cbn in El |- *. exists d, l. split_and!; [done| |by apply Hs|done].
    unfold stale_hosts in Hst. destruct (asset_links d); [done|]. injection Hst as _ <-. by apply elem_of_nil in Hh.
Qed.

(** Without the setting nobody is asked and nothing is written. *)
Lemma links_off_asks_nobody app also s d : device_settings s = (s, Ok d) -> asset_links d = false ->
  (verified_hosts_asking app also s).1 = s.
Proof.
  intros Hd Ho. unfold verified_hosts_asking. rewrite (run_bind _ _ s s (now_ms s.2)) by done.
  rewrite (run_bind _ _ _ _ _ Hd), Ho. unfold mbind, M_bind. rewrite run_read. destruct (storage_error _); [done|].
  by destruct s.
Qed.

(** *** A fill *)

(** The vault's own rules let the page, or the app, have the item. *)
Definition page_lets (page : list Z) (o : ItemOverview) (v : VaultService) : Prop :=
  exists se p, Vault.session v = Ok se /\ context_parse page None = Some p /\
    page_allowed o p {| Origin.equivalent_domains := Model.equivalent_domains (ses_settings se) |}.
Definition app_lets (app : AppIdentity) s (o : ItemOverview) (v : VaultService) : Prop :=
  (exists d, load_details (Model.id o) v = Ok d /\ user_bound d app) \/
  (exists hosts policy, Forall (host_vouches app s) hosts /\ match_policy v = Ok policy /\ site_vouched o hosts policy).
Definition lets (x : FillTarget) s (o : ItemOverview) (v : VaultService) : Prop :=
  match x with TBrowser page => page_lets page o v | TApp app => app_lets app s o v end.

Lemma page_fill_ok item page top now v v' creds :
  fill_for_page item page top now v = (v', Ok creds) ->
  exists o, authorize_for_page item page top v = Ok o /\ fill_reply item (username o) v = Ok creds.
Proof.
  unfold fill_for_page. mrun. destruct (authorize_for_page _ _ _ _) as [o|] eqn:Ea; [|done]. mrun.
  destruct (fill_reply item (username o) v) as [c|] eqn:Ef; [|done].
  intros (? & ? & _ & [= _ ->])%M_bind_Ok. by exists o.
Qed.

Lemma fill_of_ok item x s s' creds : fill_of item x s = (s', Ok creds) ->
  exists se o v, Vault.session (vault_of s) = Ok se /\ overviews se !! item = Some o /\
    is_site_bound (item_type o) = true /\ same_items_ (vault_of s) v /\ lets x s o v /\
    fill_reply item (username o) v = Ok creds.
Proof.
  destruct x as [page|app]; cbn [fill_of lets].
  - rewrite (run_bind _ _ s s (now_ms s.2)) by done. rewrite run_change. destruct (storage_error _); [done|].
    destruct (fill_for_page _ _ _ _ _) as [v' r] eqn:Ef. intros [= _ ->%map_err_Ok].
    apply page_fill_ok in Ef as (o & Ha & Hf). unfold authorize_for_page in Ha.
    apply bind_Ok in Ha as (policy & Hp & Ha). apply authorize_with_ok in Ha as (se & p & Hs & Ho & Hc & Hal).
    unfold match_policy in Hp. rewrite Hs in Hp. cbn in Hp. injection Hp as <-.
    exists se, o, (vault_of s). split_and!; try done; [by apply Hal|by exists se, p].
  - intros (hosts & s1 & Hv & Hf)%M_bind_Ok. apply verified_hosts_ok in Hv as [[Hse Hi] Hh].
    apply read_Ok in Hf as (_ & _ & Hf). apply app_fill_authorized in Hf as (se & o & policy & Hs & Ho & Hb & Hp & Hor & Hr).
    exists se, o, (vault_of s1). split_and!; try done; [congruence|]. destruct Hor as [?|?]; [by left|right; by exists hosts, policy].
Qed.

Lemma full_Ok s s' a : refuse_when_frozen s = (s', Ok a) ->
  s' = s /\ storage_error (haven s.1) = None /\ Store.entitlement (plan (store (vault_of s))) = Store.Full.
Proof.
  unfold refuse_when_frozen, require_full_. intros Hr.
  assert (exists r, Client.require_full (haven s.1, s.2) = ((haven s.1, s.2), r) /\
            (r = Ok () -> storage_error (haven s.1) = None /\ Store.entitlement (plan (store (vault_of s))) = Store.Full))
    as (r & Hq & Hok).
  { unfold Client.require_full, read_vault, with_vault, mbind, M_bind, mread. cbn. destruct (storage_error _); [by eexists|].
    destruct s as [[[]] w]. cbn. destruct (Store.entitlement _); (eexists; split; [done|]); [by split|by intros]. }
  rewrite (run_quiet _ _ _ Hq) in Hr. injection Hr as <- Hr. apply map_err_Ok in Hr. destruct a. split; [done|by apply Hok].
Qed.

(** The call of Android: which app or page is asking is worked out from the
    facts, never the phone's own app. *)
Lemma target_Ok t s s' x : target t s = (s', Ok x) ->
  s' = s /\ classify (own_package s.1) (tf_package t) (tf_certs t) (tf_web_domain t) (tf_web_scheme t) = Ok x /\
  match x with TBrowser _ => True | TApp app => app_package app <> own_package s.1 end.
Proof.
  unfold target, core_, mlift. intros [= <- Hc]. apply map_err_Ok in Hc. split_and!; [done..|].
  unfold classify in Hc. apply bind_Ok in Hc as (app & _ & Hc). destruct (bool_decide (_ = own_package _)) eqn:Eo; [done|].
  apply bool_decide_eq_false in Eo. destruct (negb _); [by injection Hc as <-|].
  apply bind_Ok in Hc as (? & _ & Hc). apply bind_Ok in Hc as (? & _ & [= <-]). done.
Qed.

(** Nothing of the phone but its clock was touched. *)
Definition ticked s s1 : Prop := exists m, s1 = (set_clock m s.1, s.2).
Lemma ticked_lets s s1 x o v : ticked s s1 -> lets x s1 o v -> lets x s o v.
Proof.
  intros [m ->]. destruct x as [page|app]; [done|]. intros [?|(hosts & policy & Hh & ?)]; [by left|right].
  exists hosts, policy. split; [|done]. eapply Forall_impl; [exact Hh|]. intros h [Hl|(d & l & Hd & Hr)]; [by left|right].
  exists d, l. split; [|done]. revert Hd. unfold device_settings. cbn. intros [= <-]. done.
Qed.

(** C33: a fill on a phone leaves only from an open vault, within its
    auto-lock, of an account in full standing, for a live login or bank
    account.  Who asks is worked out from what Android says, and is never the
    phone's own app.  A browser's page gets the item only where the item's
    rules let it; another app only where the user bound the item to it, under
    one of the certificates it is signed with, or where a website of the item
    vouches for it: by statements still fresh in the cache, or by what the
    site itself answered just now, asked only with the setting on.  What
    leaves is read from that item. *)
Theorem phone_fill_authorized id t s :
  match autofill_fill id t s with
  | (_, Err _) => True
  | (_, Ok values) =>
      vault_unlocked s.1 = true /\ overdue s = false /\
      Store.entitlement (plan (store (vault_of s))) = Store.Full /\
      exists item x se o v creds, uuid_parse id = Some item /\
        classify (own_package s.1) (tf_package t) (tf_certs t) (tf_web_domain t) (tf_web_scheme t) = Ok x /\
        match x with TBrowser _ => True | TApp app => app_package app <> own_package s.1 end /\
        Vault.session (vault_of s) = Ok se /\ overviews se !! item = Some o /\ is_site_bound (item_type o) = true /\
        same_items_ (vault_of s) v /\ lets x s o v /\
        fill_reply item (username o) v = Ok creds /\ values = to_values creds
  end.
Proof.
  destruct (autofill_fill id t s) as [s' [values|e]] eqn:E; [|done]. unfold autofill_fill in E.
  apply M_bind_Ok in E as (item & s0 & Hid & E). apply mlift_Ok in Hid as (-> & Hid).
  apply map_err_Ok, ok_or_Ok in Hid. apply M_bind_Ok in E as ([] & s1 & Hu & E).
  apply unlocked_Ok in Hu as (Hop & Hov & Hck). apply M_bind_Ok in E as ([] & s2 & Hfull & E).
  apply full_Ok in Hfull as (-> & _ & Hfull). apply M_bind_Ok in E as (x & s2 & Ht & E).
  apply target_Ok in Ht as (-> & Hcl & Hown). apply M_bind_Ok in E as (creds & s2 & Hf & [= _ <-]).
  apply fill_of_ok in Hf as (se & o & v & H1 & H2 & H3 & H4 & H5 & H6). apply (ticked_lets s) in H5; [|done].
  destruct Hck as [m ->]. split_and!; [done..|]. exists item, x, se, o, v, creds. by split_and!.
Qed.
End Fills.
