(* ===== verification/MobileEdit.v ===== *)
(** * Items on a phone (crates/havenkeys-mobile)

    items.rs (the viewer: overviews, one revealed value per call), edit.rs
    (drafts: what the editor changed, never the whole item), trash.rs and the
    calls of activity.rs and health.rs, with qr.rs.  An item is read and
    written through Mobile.v; a write is recorded once the server took it.
    Then key_file.rs, and the calls of unlock.rs, account.rs, onboarding.rs
    and pairing.rs over Account.v's client; then the theorems.

    The QR decoder is [QrLib].  The generated password's call is left out:
    its entropy figure is not modelled. *)

From S2P Require Import Lifecycle System Staging.
From S2P Require Import Prelude Errors Text Blob Url Clean Tags Totp Card Identity.
From S2P Require Import CustomField Bank Sso Attachment Model Keys Store Lock Origin Health BuildItem.
From S2P Require Import Vault Items Page IdentityPage ToyCodec Sync Replica Activity CardPage Dates HealthVault.
From S2P Require Import AppTarget Cbor Passkey PasskeyVault Restore AppFill Encoding SecretKey Pairing Opaque Wire WireAccount Transport Device Account ClientPairing Client Mobile.

(** ** items.rs: the data *)

Inductive ItemKind := KLogin | KSecureNote | KCard | KIdentity | KBankAccount.
#[export] Instance ItemKind_eq_dec : EqDecision ItemKind.
Proof. solve_decision. Defined.
#[export] Instance IdentityField_eq_dec : EqDecision IdentityField.
Proof. solve_decision. Defined.

Inductive BankField := BfAccount | BfAccountDigit | BfPassword | BfNotes.
Inductive FieldKind := FkText | FkSecret | FkUrl | FkTotp.
Inductive MatchKind := MkDomain | MkOrigin | MkExact.
Record Website := { w_url : list Z; w_kind : MatchKind }.

Record ItemSummary := {
  is_id : list Z;
  is_kind : ItemKind;
  is_title : list Z;
  is_subtitle : option (list Z);
  is_website : option (list Z);
  is_has_totp : bool;
  is_has_passkey : bool;
  is_updated_at : Z;
  is_created_at : Z;
  is_tags : list (list Z);
  is_bank : option BankSummaryRecord;
}.
Record ViewSection := { vs_index : Z; vs_title : option (list Z) }.
Record ViewField := {
  vf_key : list Z;
  vf_label : list Z;
  vf_kind : FieldKind;
  vf_value : option (list Z);
  vf_section : option ViewSection;
}.
Record ItemView := { iv_summary : ItemSummary; iv_fields : list ViewField }.
Record BankViewRecord := {
  bv_summary : ItemSummary;
  bv_bank : option (list Z);
  bv_holder_name : option (list Z);
  bv_account_type : option BankAccountType;
  bvr_branch : option (list Z);
  bvr_branch_digit : option (list Z);
  bv_has_account : bool;
  bv_has_password : bool;
  bv_has_notes : bool;
  bv_websites : list Website;
  bv_custom_fields : list ViewField;
  bv_revision : option Z;
}.
Record TotpNow := { tn_code : list Z; tn_period : Z; tn_seconds_remaining : Z }.

(** The kind of a core item, and the two names of how a website matches.
    [BankAccountType::of] and [core] pair types of the same constructors. *)
Definition kind_of (t : ItemType) : ItemKind :=
  match t with
  | Login => KLogin
  | SecureNote => KSecureNote
  | BankAccount => KBankAccount
  | CardItem => KCard
  | Identity => KIdentity
  end.
Definition match_kind (t : MatchType) : MatchKind :=
  match t with Domain => MkDomain | Origin => MkOrigin | Exact => MkExact end.
Definition match_type_of (k : MatchKind) : MatchType :=
  match k with MkDomain => Domain | MkOrigin => Origin | MkExact => Exact end.
Definition websites (o : ItemOverview) : list Website :=
  map (fun r => {| w_url := Model.url r; w_kind := match_kind (match_type r) |}) (urls o).

Definition DOCUMENTS : list (list Z) := map lit ["cpf"; "rg"; "passport"; "drivers_license"]%string.

Definition IDENTITY_FIELDS : list (list Z) := map lit
  ["first_name"; "middle_name"; "last_name"; "gender"; "birth_date"; "occupation";
   "company"; "job_title"; "cpf"; "rg"; "passport"; "drivers_license";
   "email"; "mobile_phone"; "home_phone"; "work_phone"; "street"; "number";
   "complement"; "neighborhood"; "city"; "state"; "postal_code"; "country";
   "username"; "website"; "notes"]%string.

Definition IDENTITY_TABLE : list (list Z * IdentityField) :=
  combine IDENTITY_FIELDS
  [IFirstName; IMiddleName; ILastName; IGender; IBirthDate; IOccupation;
   ICompany; IJobTitle; ICpf; IRg; IPassport; IDriversLicense;
   IEmail; IMobilePhone; IHomePhone; IWorkPhone; IStreet; INumber;
   IComplement; INeighborhood; ICity; IState; IPostalCode; ICountry;
   IUsername; IWebsite; INotes].

Definition set_slot (f : IdentityField) (v : option (list Z)) (i : IdentityFields) : IdentityFields :=
  let put k old := if bool_decide (f = k) then v else old in
  {| first_name := put IFirstName (first_name i); middle_name := put IMiddleName (middle_name i); last_name := put ILastName (last_name i);
     gender := put IGender (gender i); birth_date := put IBirthDate (birth_date i); occupation := put IOccupation (occupation i);
     company := put ICompany (company i); job_title := put IJobTitle (job_title i); cpf := put ICpf (cpf i);
     rg := put IRg (rg i); passport := put IPassport (passport i); drivers_license := put IDriversLicense (drivers_license i);
     id_email := put IEmail (id_email i); mobile_phone := put IMobilePhone (mobile_phone i); home_phone := put IHomePhone (home_phone i);
     work_phone := put IWorkPhone (work_phone i); street := put IStreet (street i); addr_number := put INumber (addr_number i);
     complement := put IComplement (complement i); neighborhood := put INeighborhood (neighborhood i); city := put ICity (city i);
     Identity.state := put IState (Identity.state i); postal_code := put IPostalCode (postal_code i); country := put ICountry (country i);
     id_username := put IUsername (id_username i); website := put IWebsite (website i); id_notes := put INotes (id_notes i);
     custom := custom i |}.

(** [identity_field], and the slot of edit.rs of the same name. *)
Definition identity_field (name : list Z) : option IdentityField :=
  snd <$> List.find (fun p => bool_decide (p.1 = name)) IDENTITY_TABLE.

(** ** edit.rs: the data *)

Inductive Change := ChKeep | ChReplace (value : list Z) | ChRemove.
Definition update_of (c : Change) : SecretUpdate :=
  match c with ChKeep => Keep | ChReplace v => SetTo v | ChRemove => Clear end.

Record EditField := { ef_key : list Z; ef_kind : FieldKind; ef_present : bool; ef_value : option (list Z) }.
Record ItemEdit := {
  ie_kind : ItemKind;
  ie_title : list Z;
  ie_websites : list Website;
  ie_fields : list EditField;
  ie_has_custom_fields : bool;
  ie_deletable : bool;
  ie_revision : option Z;
  ie_tags : list (list Z);
}.
Record FieldChange := { fc_key : list Z; fc_change : Change }.
Record ItemDraft := {
  dr_kind : ItemKind;
  dr_title : list Z;
  dr_websites : list Website;
  dr_changes : list FieldChange;
  dr_base_revision : option Z;
  dr_tags : list (list Z);
}.
Record BankDraft := {
  bd_id : option (list Z);
  bd_base_revision : option Z;
  bd_title : list Z;
  bd_websites : list Website;
  bd_tags : list (list Z);
  bd_bank : option (list Z);
  bd_holder_name : option (list Z);
  bd_account_type : option BankAccountType;
  bd_branch : option (list Z);
  bd_branch_digit : option (list Z);
  bd_account : Change;
  bd_account_digit : Change;
  bd_password : Change;
  bd_notes : Change;
}.

Definition document_kind (n : list Z) : FieldKind := if bool_decide (n ∈ DOCUMENTS) then FkSecret else FkText.
Definition identity_key (n : list Z) : list Z := lit "identity." ++ n.
Definition fields_of (k : ItemKind) : list (list Z * FieldKind) :=
  match k with
  | KLogin => [(lit "username", FkText); (lit "password", FkSecret); (lit "totp", FkTotp); (lit "notes", FkSecret)]
  | KSecureNote => [(lit "content", FkSecret)]
  | KBankAccount => []
  | KCard => [(lit "card.holder", FkText); (lit "card.number", FkSecret); (lit "card.code", FkSecret);
              (lit "card.expiry", FkText); (lit "card.notes", FkSecret)]
  | KIdentity => map (fun n => (identity_key n, document_kind n)) IDENTITY_FIELDS
  end.

Definition invalid_website : MobileError := Failed "invalid_website" "A website address is not valid.".
Definition invalid_totp : MobileError := Failed "invalid_totp" "That is not a setup key or otpauth:// link.".
Definition invalid_expiry : MobileError := Failed "invalid_expiry" "Enter the expiry as MM/YYYY.".
Definition invalid_field : MobileError := Failed "invalid_field" "That field cannot be changed on this item.".
Definition title_required : MobileError := Failed "title_required" "Add a title.".
Definition card_title_required : MobileError := Failed "card_title_required" "Add a title or a card number.".

(** A draft's changes by key. *)
Abbreviation Changes := (gmap (list Z) Change).
Fixpoint changes_from (allowed : list (list Z * FieldKind)) (l : list FieldChange) (m : Changes) : result MobileError Changes :=
  match l with
  | [] => Ok m
  | c :: l =>
      if negb (existsb (fun p => bool_decide (p.1 = fc_key c)) allowed) || is_some (m !! fc_key c) then Err invalid_field
      else changes_from allowed l (<[fc_key c := fc_change c]> m)
  end.
Definition changes_new (l : list FieldChange) (k : ItemKind) : result MobileError Changes := changes_from (fields_of k) l ∅.

Definition take_ (key : list Z) (m : Changes) : option Change * Changes := (m !! key, delete key m).
Definition update_ (key : list Z) (m : Changes) : SecretUpdate * Changes :=
  let '(c, m) := take_ key m in (match c with Some c => update_of c | None => Keep end, m).
Definition totp_ (m : Changes) : SecretUpdate * Changes :=
  let '(u, m) := update_ (lit "totp") m in
  (match u with SetTo v => if bool_decide (trim v = []) then Keep else u | _ => u end, m).
Definition apply_ (key : list Z) (current : option (list Z)) (m : Changes) : option (list Z) * Changes :=
  let '(c, m) := take_ key m in
  (match c with
   | None | Some ChKeep => current
   | Some (ChReplace v) => if bool_decide (trim v = []) then None else Some v
   | Some ChRemove => None
   end, m).

(** [MM/YY], [MM/YYYY] or [YYYY-MM]; [month] is a [u8] and [year] a [u16]. *)
Definition digits_only (s : list Z) : bool := negb (bool_decide (s = [])) && all_digits s.
Definition parse_expiry (text : list Z) : result MobileError (option CardExpiry) :=
  let t := trim text in
  if bool_decide (t = []) then Ok None
  else
    let parsed :=
      match split_once 47 t with
      | Some (m, y) =>
          if digits_only m && (str_len m <=? 2) && digits_only y && ((str_len y =? 2) || (str_len y =? 4)) then
            let month := default 0 (parse_unsigned 255 m) in
            let year := default 0 (parse_unsigned 65535 y) in
            expiry_new (if str_len y =? 2 then 2000 + year else year) month
          else Err (InvalidInput "bad expiry")
      | None => expiry_parse t
      end in
    map_err (fun _ => invalid_expiry) (e ← parsed; Ok (Some e)).

(** qr.rs *)
Class QrLib := detect_in_luma : list Z -> Z -> Z -> option (list Z).
Record LumaFrame := { lf_width : Z; lf_height : Z; lf_bytes : list Z }.
Definition qr_decode `{QL : QrLib} (f : LumaFrame) : option (list Z) :=
  if (lf_width f =? 0) || (lf_height f =? 0) || negb (len (lf_bytes f) =? lf_width f * lf_height f) then None
  else detect_in_luma (lf_bytes f) (lf_width f) (lf_height f).

(** ** health.rs: the data *)

Record HealthIssueView := {
  hv_item_id : list Z;
  hv_kinds : list HealthCheck;
  hv_reused_group : option nat;
  hv_duplicate_group : option nat;
  hv_dismissed : bool;
}.
Record HealthView := { hv_counts : HealthCounts; hv_issues : list HealthIssueView }.
Definition health_view `{UT : UuidText} (r : HealthReport) : HealthView :=
  {| hv_counts := counts r;
     hv_issues := map (fun i => {| hv_item_id := uuid_text (issue_item i); hv_kinds := issue_checks i;
                                   hv_reused_group := Health.reused_group i; hv_duplicate_group := Health.duplicate_group i;
                                   hv_dismissed := false |}) (issues r)
                  ++ map (fun d => {| hv_item_id := uuid_text (dis_item d); hv_kinds := dis_checks d; hv_reused_group := None;
                                      hv_duplicate_group := None; hv_dismissed := true |}) (dismissed r) |}.

(** trash.rs *)
Record TrashSummary := { ts_item : ItemSummary; ts_trashed_at : Z; ts_days_left : Z }.

Section MobileEdit.
Context {C : Crypto} {K : KeyLib} {U : Unicode} {J : JsonLib} {UL : UrlLib} {SL : SiteLib UL} {L : TotpLib} {H : HeaderLib}.
Context {AL : AppLib} {PL : PasskeyLib} {FL : FloatLib} {LL : LookalikeLib} {HX : HexLib} {UT : UuidText} {UP : UuidParse}.
Context {AC : Codec Activity} {ACC : Codec AssetLinksCache} {DC : Codec DeviceSettings} {PH : PhoneLib} {HL : HealthLib}.
Context {QL : QrLib}.
Context {S1 : Serde ErrorBody} {S2 : Serde PullDto} {S3 : Serde WriteBody} {S4 : Serde WriteAckDto}.
Context {S5 : Serde ConflictsDto} {S6 : Serde FetchBody} {S7 : Serde FetchDto} {S8 : Serde HeaderDto}.
Context {S9 : Serde AttachmentPutBody} {S10 : Serde AttachmentDto}.
Context {W : Type} {T : Transport W} {P : Platform W} {HO : PhoneHost W}.

Abbreviation Mb := (M (MobileVault * W) MobileError).
Abbreviation Mr := (result MobileError).

(** A core error, and [vault.item_revision]. *)
Definition ofc {A} (r : Result A) : Mr A := map_err of_core r.
Definition revision_of (item : Z) (v : VaultService) : Result (option Z) :=
  _ ← Vault.session v; Ok (item_revision item (store v)).

(** ** items.rs *)

Definition with_host (raw : list Z) : option Url :=
  match url_parse raw with Some u => if is_some (url_host u) then Some u else None | None => None end.
Definition host_text (u : Url) : option (list Z) :=
  host ← url_host_str u;
  let host := default host (strip_prefix (lit "www.") host) in
  Some match url_port u with Some port => host ++ [58] ++ to_decimal port | None => host end.
(** [url_host]: of the text, or of the text after [https://]. *)
Definition url_host_text (raw : list Z) : option (list Z) :=
  match with_host raw with
  | Some u => host_text u
  | None => match url_parse (lit "https://" ++ raw) with Some u => host_text u | None => None end
  end.
Definition host_of (o : ItemOverview) : option (list Z) := r ← head (urls o); url_host_text (Model.url r).

Definition summary (o : ItemOverview) : ItemSummary :=
  let subtitle := match item_type o with
                  | Login => username o
                  | CardItem => (fun l => [8226; 8226; 8226; 8226; 32] ++ l) <$> (Model.card o ≫= last4)
                  | SecureNote | BankAccount | Identity => None
                  end in
  {| is_id := uuid_text (Model.id o); is_kind := kind_of (item_type o); is_title := title o; is_subtitle := subtitle;
     is_website := host_of o; is_has_totp := has_totp o; is_has_passkey := has_passkey o;
     is_updated_at := updated_at o; is_created_at := Model.created_at o; is_tags := tags o;
     is_bank := bank_record <$> Model.bank o |}.

Definition field (key label : list Z) (k : FieldKind) (value : option (list Z)) : ViewField :=
  {| vf_key := key; vf_label := label; vf_kind := k; vf_value := value; vf_section := None |}.
Definition custom_row (index : nat) (s : FieldSection) (f : CustomField) : ViewField :=
  {| vf_key := lit "custom." ++ uuid_text (f_id f); vf_label := f_label f;
     vf_kind := if is_concealed (f_value f) then FkSecret else FkText; vf_value := None;
     vf_section := Some {| vs_index := Z.of_nat index; vs_title := s_title s |} |}.
Definition custom_rows (sections : list FieldSection) : list ViewField :=
  concat (imap (fun index s => map (custom_row index s) (s_fields s)) sections).

Definition list_items_ : Mb (list ItemSummary) :=
  _ ← unlocked; l ← read list_items; mret (sort_by_key (fun s => to_lowercase (is_title s)) (map summary l)).
Definition search_ (query : list Z) : Mb (list ItemSummary) :=
  _ ← unlocked; l ← read (search query); mret (map summary l).

Definition when {A} (b : bool) (x : A) : list A := if b then [x] else [].
Definition login_rows (o : ItemOverview) (secs : list FieldSection) : list ViewField :=
  match username o with Some u => [field (lit "username") (lit "username") FkText (Some u)] | None => [] end
  ++ when (has_password o) (field (lit "password") (lit "password") FkSecret None)
  ++ when (has_totp o) (field (lit "totp") (lit "totp") FkTotp None)
  ++ imap (fun i r => field (lit "website." ++ to_decimal (Z.of_nat i)) (lit "website") FkUrl (Some (Model.url r))) (urls o)
  ++ custom_rows secs
  ++ when (has_notes o) (field (lit "notes") (lit "notes") FkSecret None).
Definition card_rows : list ViewField := map (fun p => field p.1 p.1 p.2 None) (fields_of KCard).
Definition identity_rows (present : IdentityFields) : list ViewField :=
  map (fun n => field (identity_key (lit n)) (identity_key (lit n)) (document_kind (lit n)) None) (filled_field_names present).

Definition view_fields (item : Z) (o : ItemOverview) (v : VaultService) : Result (list ViewField) :=
  match item_type o with
  | Login => secs ← item_sections item v; Ok (login_rows o secs)
  | SecureNote =>
      secs ← item_sections item v; Ok (field (lit "content") (lit "content") FkText None :: custom_rows secs)
  | CardItem => Ok card_rows
  | BankAccount => Ok []
  | Identity => present ← reveal_identity item v; Ok (identity_rows present)
  end.
Definition item_view (id : list Z) : Mb ItemView :=
  _ ← unlocked;
  id ← parse_id id;
  read (fun v => o ← get_item id v; fields ← view_fields id o v; Ok {| iv_summary := summary o; iv_fields := fields |}).

Definition wrong : Error := InvalidInput "field does not exist on this item".
Definition reveal_custom (item : Z) (field_id : list Z) (unix : Z) (v : VaultService) : Result (list Z) :=
  field_id ← ok_or wrong (uuid_parse field_id);
  custom ← item_field item field_id v;
  match f_value custom with
  | VOtp _ => c ← CustomField.totp_code custom unix; Ok (tc_code c)
  | value => Ok (into_text value)
  end.
Definition reveal_value (item : Z) (key : list Z) (unix : Z) (v : VaultService) : Result (list Z) :=
  if bool_decide (key = lit "password") then reveal item SfPassword v
  else if bool_decide (key = lit "notes") then reveal item SfNotes v
  else if bool_decide (key = lit "content") then reveal item SfContent v
  else if bool_decide (key = lit "card.holder") then card_value_of item FCardholderName v
  else if bool_decide (key = lit "card.number") then card_value_of item FNumber v
  else if bool_decide (key = lit "card.code") then card_value_of item FVerificationNumber v
  else if bool_decide (key = lit "card.expiry") then card_value_of item FExpiry v
  else if bool_decide (key = lit "card.notes") then c ← card_fields item v; ok_or NotFound (cf_notes c)
  else
    match strip_prefix (lit "identity.") key with
    | Some name => f ← ok_or wrong (identity_field name); identity_value item f v
    | None =>
        match strip_prefix (lit "custom.") key with
        | Some field_id => reveal_custom item field_id unix v
        | None => Err wrong
        end
    end.
Definition reveal_ (id key : list Z) : Mb (list Z) :=
  _ ← unlocked; id ← parse_id id; t ← now; read (reveal_value id key (unix_seconds t)).

Definition bank_view (id : list Z) : Mb BankViewRecord :=
  _ ← unlocked;
  id ← parse_id id;
  read (fun v =>
    f ← bank_fields id v;
    o ← get_item id v;
    rev ← revision_of id v;
    Ok {| bv_summary := summary o; bv_bank := Bank.bank f; bv_holder_name := holder_name f;
          bv_account_type := account_type f; bvr_branch := branch f; bvr_branch_digit := branch_digit f;
          bv_has_account := is_some (Bank.account f); bv_has_password := is_some (b_password f);
          bv_has_notes := is_some (b_notes f); bv_websites := websites o;
          bv_custom_fields := custom_rows (b_sections f); bv_revision := rev |}).
Definition reveal_bank_field (id : list Z) (k : BankField) : Mb (list Z) :=
  _ ← unlocked;
  id ← parse_id id;
  read (fun v =>
    f ← bank_fields id v;
    ok_or NotFound match k with
                   | BfAccount => Bank.account f
                   | BfAccountDigit => account_digit f
                   | BfPassword => b_password f
                   | BfNotes => b_notes f
                   end).
Definition bank_details_text (id lang : list Z) : Mb (list Z) :=
  lang ← core_ (parse_language lang);
  _ ← unlocked;
  id ← parse_id id;
  read (fun v => f ← bank_fields id v; ok_or NotFound (bank_details f lang)).
Definition totp_now (id : list Z) : Mb TotpNow :=
  _ ← unlocked;
  id ← parse_id id;
  t ← now;
  c ← read (Items.totp_code id (unix_seconds t));
  mret {| tn_code := tc_code c; tn_period := tc_period c; tn_seconds_remaining := seconds_remaining c |}.

(** ** edit.rs: staging a draft *)

Fixpoint rules (l : list Website) : Mr (list UrlRule) :=
  match l with
  | [] => Ok []
  | w :: l =>
      if bool_decide (trim (w_url w) = []) then rules l
      else
        url ← map_err (fun _ => invalid_website) (Clean.normalize_url (w_url w));
        rest ← rules l;
        Ok ({| Model.url := url; match_type := match_type_of (w_kind w) |} :: rest)
  end.
Definition checked_totp (u : SecretUpdate) : Mr SecretUpdate :=
  match u with
  | SetTo v => if negb (bool_decide (trim v = [])) && negb (is_ok (parse_totp_input v)) then Err invalid_totp else Ok u
  | _ => Ok u
  end.

Definition login_draft (existing : option ItemOverview) (d : ItemDraft) (t : list Z) (c : Changes) : Mr ItemInput :=
  if bool_decide (t = []) then Err title_required
  else
    let '(user, c) := apply_ (lit "username") (existing ≫= username) c in
    urls ← rules (dr_websites d);
    let '(pw, c) := update_ (lit "password") c in
    let '(tu, c) := totp_ c in
    tu ← checked_totp tu;
    let '(notes, _) := update_ (lit "notes") c in
    Ok {| in_type := Login; in_title := t; in_username := trim <$> user; in_urls := urls; in_password := pw;
          in_totp := tu; in_notes := notes; in_content := Keep; in_auto_sign_in := None;
          in_sign_in_with := existing ≫= sign_in_with; in_identity := None; in_card := None; in_bank := None;
          in_sections := None; in_tags := Some (dr_tags d) |}.

Definition note_draft (d : ItemDraft) (t : list Z) (c : Changes) : Mr ItemInput :=
  if bool_decide (t = []) then Err title_required
  else
    let '(content, _) := update_ (lit "content") c in
    Ok {| in_type := SecureNote; in_title := t; in_username := None; in_urls := []; in_password := Keep;
          in_totp := Keep; in_notes := Keep; in_content := content; in_auto_sign_in := None; in_sign_in_with := None;
          in_identity := None; in_card := None; in_bank := None; in_sections := None; in_tags := Some (dr_tags d) |}.

Definition no_card : CardFields :=
  {| cardholder_name := None; cf_brand := None; number := None; verification_number := None; expiry := None;
     cf_notes := None |}.
Definition card_draft (id : option Z) (d : ItemDraft) (t : list Z) (c : Changes) (v : VaultService) : Mr ItemInput :=
  current ← ofc (match id with Some id => card_fields id v | None => Ok no_card end);
  let '(num, c) := update_ (lit "card.number") c in
  let has_number := match num with
                    | SetTo n => negb (bool_decide (trim n = []))
                    | Keep => is_some (number current)
                    | Clear => false
                    end in
  if bool_decide (t = []) && negb has_number then Err card_title_required
  else
    let '(x, c) := take_ (lit "card.expiry") c in
    expiry ← (match x with
              | None | Some ChKeep => Ok (expiry current)
              | Some ChRemove => Ok None
              | Some (ChReplace value) => parse_expiry value
              end : Mr (option CardExpiry));
    let '(holder, c) := apply_ (lit "card.holder") (cardholder_name current) c in
    let '(code, c) := update_ (lit "card.code") c in
    let '(notes, _) := apply_ (lit "card.notes") (cf_notes current) c in
    Ok {| in_type := CardItem; in_title := t; in_username := None; in_urls := []; in_password := Keep;
          in_totp := Keep; in_notes := Keep; in_content := Keep; in_auto_sign_in := None; in_sign_in_with := None;
          in_identity := None;
          in_card := Some {| ci_cardholder_name := holder; ci_brand := cf_brand current; ci_number := num;
                             ci_verification_number := code; ci_expiry := expiry; ci_notes := notes |};
          in_bank := None; in_sections := None; in_tags := Some (dr_tags d) |}.

Definition slot_step (s : Changes * IdentityFields) (name : list Z) : Changes * IdentityFields :=
  let '(c, fields) := s in
  match identity_field name with
  | None => s
  | Some k => let '(value, c) := apply_ (identity_key name) (id_value fields k) c in (c, set_slot k value fields)
  end.
Definition identity_draft (id : option Z) (d : ItemDraft) (c : Changes) (v : VaultService) : Mr ItemInput :=
  id ← ofc (ok_or Denied id);
  fields ← ofc (reveal_identity id v);
  let '(_, fields) := foldl slot_step (c, fields) IDENTITY_FIELDS in
  Ok {| in_type := Identity; in_title := []; in_username := None; in_urls := []; in_password := Keep;
        in_totp := Keep; in_notes := Keep; in_content := Keep; in_auto_sign_in := None; in_sign_in_with := None;
        in_identity := Some fields; in_card := None; in_bank := None; in_sections := None;
        in_tags := Some (dr_tags d) |}.

Definition draft_input (id : option Z) (existing : option ItemOverview) (d : ItemDraft) (c : Changes) (v : VaultService)
    : Mr ItemInput :=
  let t := trim (dr_title d) in
  match dr_kind d with
  | KLogin => login_draft existing d t c
  | KSecureNote => note_draft d t c
  | KCard => card_draft id d t c v
  | KBankAccount => Err (of_core (InvalidInput "a bank account is saved with save_bank"))
  | KIdentity => identity_draft id d c v
  end.

(** A pull may have brought another device's change since the editor opened. *)
Definition same_revision (id : option Z) (base : option Z) (v : VaultService) : Result () :=
  match id with
  | None => Ok ()
  | Some id =>
      rev ← revision_of id v;
      if negb (bool_decide (rev = base)) then Err ItemChangedElsewhere else Ok ()
  end.
Definition existing_of (id : option Z) (v : VaultService) : Result (option ItemOverview) :=
  match id with None => Ok None | Some id => o ← get_item id v; Ok (Some o) end.
Definition stage_input (draws : PhoneDraws) (t : Z) (id : option Z) (i : ItemInput) (v : VaultService) : Mr StagedWrite :=
  ofc (match id with
       | Some id => stage_update (pd_new_id draws) id i t (pd_r1 draws) (pd_r2 draws) v
       | None => stage_create (pd_new_id draws) (pd_fresh draws) i t (pd_r1 draws) (pd_r2 draws) v
       end).

(** [stage_draft] once the vault is open: the vault is held throughout. *)
Definition draft_write (draws : PhoneDraws) (t : Z) (id : option Z) (d : ItemDraft) (v : VaultService) : Mr StagedWrite :=
  existing ← ofc (existing_of id v);
  if match existing with Some o => negb (bool_decide (kind_of (item_type o) = dr_kind d)) | None => false end
  then Err (of_core (InvalidInput "item type cannot change"))
  else
    _ ← ofc (same_revision id (dr_base_revision d) v);
    c ← changes_new (dr_changes d) (dr_kind d);
    input ← draft_input id existing d c v;
    stage_input draws t id input v.
Definition the_vault : Mb VaultService := read (fun v => Ok v).
Definition stage_draft (id : option Z) (d : ItemDraft) : Mb StagedWrite :=
  _ ← unlocked;
  v ← the_vault;
  t ← now;
  draws ← draws;
  mlift (draft_write draws t id d v).

Definition bank_write (draws : PhoneDraws) (t : Z) (id : option Z) (d : BankDraft) (v : VaultService) : Mr StagedWrite :=
  _ ← ofc (match id with Some id => _ ← bank_fields id v; Ok () | None => Ok () end : Result ());
  _ ← ofc (same_revision id (bd_base_revision d) v);
  urls ← rules (bd_websites d);
  stage_input draws t id
    {| in_type := BankAccount; in_title := trim (bd_title d); in_username := None; in_urls := urls;
       in_password := update_of (bd_password d); in_totp := Keep; in_notes := update_of (bd_notes d); in_content := Keep;
       in_auto_sign_in := None; in_sign_in_with := None; in_identity := None; in_card := None;
       in_bank := Some {| bi_bank := bd_bank d; bi_holder_name := bd_holder_name d; bi_account_type := bd_account_type d;
                          bi_branch := bd_branch d; bi_branch_digit := bd_branch_digit d;
                          bi_account := update_of (bd_account d); bi_account_digit := update_of (bd_account_digit d) |};
       in_sections := None; in_tags := Some (bd_tags d) |} v.
Definition stage_bank (d : BankDraft) : Mb StagedWrite :=
  _ ← unlocked;
  id ← parse_item (bd_id d);
  v ← the_vault;
  t ← now;
  draws ← draws;
  mlift (bank_write draws t id d v).

(** ** edit.rs: the calls *)

Definition save_bank (d : BankDraft) : Mb (list Z) :=
  _ ← unlocked;
  _ ← online_required;
  staged ← stage_bank d;
  _ ← send staged;
  mret (uuid_text (sw_item staged)).
Definition create_item (d : ItemDraft) : Mb (list Z) :=
  _ ← unlocked;
  _ ← online_required;
  staged ← stage_draft None d;
  _ ← send staged;
  mret (uuid_text (sw_item staged)).
Definition update_item (id : list Z) (d : ItemDraft) : Mb () :=
  id ← parse_id id;
  _ ← unlocked;
  _ ← online_required;
  staged ← stage_draft (Some id) d;
  send staged.

Definition present_keys (l : list (list Z * bool)) : list (list Z) := map fst (List.filter snd l).
Definition edit_title (o : ItemOverview) (c : CardFields) : list Z :=
  if is_some (number c) && bool_decide (title o = brand_display_name (effective_brand c)) then [] else title o.
Definition edit_present (item : Z) (o : ItemOverview) (v : VaultService) : Result (list Z * list (list Z)) :=
  match kind_of (item_type o) with
  | KLogin =>
      Ok (title o, present_keys [(lit "username", is_some (username o)); (lit "password", has_password o);
                                 (lit "totp", has_totp o); (lit "notes", has_notes o)])
  | KSecureNote => Ok (title o, [lit "content"])
  | KCard =>
      c ← card_fields item v;
      Ok (edit_title o c,
          present_keys [(lit "card.holder", is_some (cardholder_name c)); (lit "card.number", is_some (number c));
                        (lit "card.code", is_some (verification_number c)); (lit "card.expiry", is_some (expiry c));
                        (lit "card.notes", is_some (cf_notes c))])
  | KBankAccount => Ok (title o, [])
  | KIdentity => i ← reveal_identity item v; Ok (title o, map (fun n => identity_key (lit n)) (filled_field_names i))
  end.
Definition has_sections (k : ItemKind) : bool :=
  match k with KLogin | KSecureNote | KBankAccount => true | KCard | KIdentity => false end.
Definition edit_of (item : Z) (v : VaultService) : Result ItemEdit :=
  o ← get_item item v;
  let k := kind_of (item_type o) in
  '(t, present) ← edit_present item o v;
  has_custom ← (if has_sections k then secs ← item_sections item v; Ok (negb (bool_decide (length secs = 0%nat)))
                else Ok false : Result bool);
  rev ← revision_of item v;
  Ok {| ie_kind := k; ie_title := t; ie_websites := websites o;
        ie_fields := map (fun p => {| ef_key := p.1; ef_kind := p.2; ef_present := bool_decide (p.1 ∈ present);
                                      ef_value := if bool_decide (p.1 = lit "username") then username o else None |})
                       (fields_of k);
        ie_has_custom_fields := has_custom; ie_deletable := negb (bool_decide (k = KIdentity)); ie_revision := rev;
        ie_tags := tags o |}.
Definition item_edit (id : list Z) : Mb ItemEdit := _ ← unlocked; id ← parse_id id; read (edit_of id).

Definition template_of (k : ItemKind) : ItemEdit :=
  {| ie_kind := k; ie_title := []; ie_websites := [];
     ie_fields := map (fun p => {| ef_key := p.1; ef_kind := p.2; ef_present := false; ef_value := None |}) (fields_of k);
     ie_has_custom_fields := false; ie_deletable := true; ie_revision := None; ie_tags := [] |}.
Definition item_template (k : ItemKind) : Mb ItemEdit :=
  _ ← unlocked; if bool_decide (k = KIdentity) then mthrow_ (of_core Denied) else mret (template_of k).

Definition TOTP_LINK : list Z := lit "otpauth://totp".
Definition totp_link (text : list Z) : option (list Z) :=
  if eq_ignore_ascii_case (take (length TOTP_LINK) text) TOTP_LINK && is_ok (parse_totp_input text) then Some text else None.
Definition scan_totp (f : LumaFrame) : Mb (option (list Z)) := _ ← unlocked; mret (qr_decode f ≫= totp_link).

(** ** trash.rs *)

Definition trash_item (id : list Z) : Mb bool :=
  id ← parse_id id;
  _ ← unlocked;
  _ ← online_required;
  t ← now;
  d ← draws;
  staged ← read (stage_trash id t (pd_r1 d) (pd_r2 d));
  ov ← send_returning staged;
  mret (is_some ov).
Definition restore_item (id : list Z) : Mb () :=
  id ← parse_id id;
  _ ← unlocked;
  _ ← online_required;
  d ← draws;
  staged ← read (stage_restore_trashed id (pd_r1 d) (pd_r2 d));
  send staged.
Definition purge_item (id : list Z) : Mb () :=
  id ← parse_id id;
  _ ← unlocked;
  _ ← online_required;
  staged ← read (stage_purge id);
  send staged.
(** A refused batch may follow committed ones: the app reloads either way. *)
Definition push_all (staged : list StagedWrite) : Mb Z := fun s =>
  let '(s, pushed) := on_client (push_batches staged) s in
  let '(s, _) := tell_items_changed s in
  (s, match pushed with Ok n => Ok (Z.min (Z.of_nat n) u32_max) | Err e => Err e end).
Definition empty_trash : Mb Z :=
  _ ← unlocked;
  _ ← online_required;
  staged ← read stage_empty_trash;
  push_all staged.
Definition list_trash_ : Mb (list TrashSummary) :=
  _ ← unlocked;
  t ← now;
  l ← read (list_trash t);
  mret (map (fun e => {| ts_item := summary (te_overview e); ts_trashed_at := default 0 (trashed_at (te_overview e));
                         ts_days_left := te_days_left e |}) l).

(** ** activity.rs and health.rs *)

Definition record_use_ (id : list Z) : Mb () :=
  id ← parse_id id; _ ← unlocked; t ← now; d ← draws; change (record_use id t (pd_use d)).
Definition frequently_used_ (n : nat) : Mb (list ItemSummary) :=
  _ ← unlocked; t ← now; l ← read (frequently_used n t); mret (map summary l).
Definition recently_created_ (n : nat) : Mb (list ItemSummary) :=
  _ ← unlocked; l ← read (recently_created n); mret (map summary l).
Definition recent_searches_ : Mb (list (list Z)) := _ ← unlocked; read recent_searches.
Definition record_search_ (query : list Z) : Mb () :=
  _ ← unlocked; t ← now; d ← draws; change (record_search query t (pd_use d)).
Definition clear_recent_searches_ : Mb () :=
  _ ← unlocked; t ← now; d ← draws; change (clear_recent_searches t (pd_use d)).

Definition health_report_ : Mb HealthView := _ ← unlocked; t ← now; r ← change (health_report t); mret (health_view r).
Definition set_health_ignored (id : list Z) (kinds : list HealthCheck) : Mb () :=
  id ← parse_id id;
  _ ← unlocked;
  _ ← online_required;
  d ← draws;
  staged ← read (stage_health_ignored id kinds (pd_r1 d) (pd_r2 d));
  _ ← on_client (push staged);
  tell_items_changed.
Definition health_help_url_ (id : list Z) (k : HealthCheck) : Mb (list Z) :=
  id ← parse_id id; _ ← unlocked; read (health_help_url id k).
End MobileEdit.

(** ** key_file.rs *)

(** The app's Keystore key, and the files of the app's own folder: reading
    is [None] when it fails, [Some None] when the file is not there. *)
Class KeystoreCipher := { cipher_seal : list Z -> option (list Z); cipher_open : list Z -> option (list Z) }.
Class KeyFiles (W : Type) := {
  key_file_read : list Z -> W -> option (option (list Z));
  key_file_write : list Z -> list Z -> W -> W * bool;
  key_file_rename : list Z -> list Z -> W -> W * bool;
  (** [true] also when the file was not there. *)
  key_file_remove : list Z -> W -> W * bool;
}.

Section KeyFile.
Context {UT : UuidText} {KC : KeystoreCipher} {W : Type} {KF : KeyFiles W}.

Definition key_path (account : Z) : list Z := lit "secret-key-" ++ uuid_text account ++ lit ".bin".
Definition key_tmp (account : Z) : list Z := lit "secret-key-" ++ uuid_text account ++ lit ".tmp".
Definition key_get (account : Z) (w : W) : result StoreError (option (list Z)) :=
  match key_file_read (key_path account) w with
  | None => Err store_error
  | Some None => Ok None
  | Some (Some sealed) =>
      plain ← ok_or store_error (cipher_open sealed); text ← ok_or store_error (from_utf8 plain); Ok (Some text)
  end.
Definition key_set (account : Z) (value : list Z) (w : W) : W * result StoreError () :=
  match cipher_seal (utf8 value) with
  | None => (w, Err store_error)
  | Some sealed =>
      let '(w, ok) := key_file_write (key_tmp account) sealed w in
      if negb (ok : bool) then (w, Err store_error)
      else
        let '(w, ok) := key_file_rename (key_tmp account) (key_path account) w in
        (w, if (ok : bool) then Ok () else Err store_error)
  end.
Definition key_delete (account : Z) (w : W) : W * result StoreError () :=
  let '(w, ok) := key_file_remove (key_path account) w in (w, if (ok : bool) then Ok () else Err store_error).

(** What is sealed opens again; a file holds what was written or moved there. *)
Class KeyFileLaws := {
  sealed_opens x y : cipher_seal x = Some y -> cipher_open y = Some x;
  written_reads p b w : (key_file_write p b w).2 = true -> key_file_read p (key_file_write p b w).1 = Some (Some b);
  renamed_reads p q w : (key_file_rename p q w).2 = true -> key_file_read q (key_file_rename p q w).1 = key_file_read p w;
}.

(** A Secret Key that was kept reads back. *)
Lemma key_reads_back `{!KeyFileLaws} account value w :
  Forall is_scalar value -> (key_set account value w).2 = Ok () -> key_get account (key_set account value w).1 = Ok (Some value).
Proof.
  intros Hv. unfold key_set, key_get. destruct (cipher_seal (utf8 value)) as [sealed|] eqn:Es; [|done].
  pose proof (written_reads (key_tmp account) sealed w) as Hw.
  destruct (key_file_write (key_tmp account) sealed w) as [w1 [|]]; [|done]. cbn [negb fst snd] in *.
  pose proof (renamed_reads (key_tmp account) (key_path account) w1) as Hr.
  destruct (key_file_rename (key_tmp account) (key_path account) w1) as [w2 [|]]; [|done]. cbn [fst snd] in *. intros _.
  rewrite Hr, Hw by done. rewrite (sealed_opens _ _ Es). cbn. by rewrite from_utf8_utf8.
Qed.

(** Without the Keystore nothing is written. *)
Lemma key_never_plain account value w : cipher_seal (utf8 value) = None -> key_set account value w = (w, Err store_error).
Proof. unfold key_set. by intros ->. Qed.
End KeyFile.

(** ** vault.rs [status], unlock.rs, account.rs, onboarding.rs and pairing.rs

    Over Account.v's client, whose world is [Local W]; a task the client
    leaves behind runs apart. *)

Inductive LockState := LkLocked | LkUnlocking | LkUnlocked.
Record PhoneStatus := {
  ph_state : LockState;
  ph_vault_exists : bool;
  ph_online : bool;
  ph_needs_secret_key : bool;
  ph_email : option (list Z);
  ph_server_url : option (list Z);
  ph_last_synced_at : option Z;
  ph_unreadable_items : Z;
  ph_plan_status : option (list Z);
  ph_entitlement : list Z;
  ph_trial_ends_at : option (list Z);
}.
Record PhoneDevice := {
  pv_id : list Z;
  pv_name : list Z;
  pv_created_at : list Z;
  pv_last_seen_at : option (list Z);
  pv_current : bool;
  pv_approved_by : option (list Z);
}.
Record KitPreview := { kp_email : list Z; kp_server_url : list Z }.
Definition KIT_PREFIX : list Z := lit "havenkeys://kit/".

Section PhoneAccount.
Context {C : Crypto} {K : KeyLib} {U : Unicode} {J : JsonLib} {UL : UrlLib} {L : TotpLib} {H : HeaderLib}.
Context {B32 : Base32Lib} {B64 : Base64UrlLib} {HP : HpkeLib} {F : FormLib} {O : OpaqueKe} {FC : FormatChars}.
Context {AS : AccountSerde} {SD : Serde OnDisk} {UT : UuidText} {UP : UuidParse} {QL : QrLib}.
Context {S1 : Serde ErrorBody} {S2 : Serde PullDto} {S3 : Serde WriteBody} {S4 : Serde WriteAckDto}.
Context {S5 : Serde ConflictsDto} {S6 : Serde FetchBody} {S7 : Serde FetchDto} {S8 : Serde HeaderDto}.
Context {W : Type} {KH : KeyHost W} {RL : ReqwestLib W} {AH : AppHost W} {HO : PhoneHost (Local W)}.
Variables (device_name : list Z) (localhost_http : bool).

Abbreviation Mb := (M (MobileVault * Local W) MobileError).

(** Safe while locked: no secrets. *)
Definition phone_status : Mb PhoneStatus :=
  vs ← read Vault.status;
  device ← on_client device_status;
  a ← on_client account_status;
  mret {| ph_state := match vs_state vs with
                      | SUnlocked => LkUnlocked | SUnlocking => LkUnlocking | SLocked | SLocking => LkLocked
                      end;
          ph_vault_exists := vault_exists vs; ph_online := ds_online device;
          ph_needs_secret_key := needs_secret_key device; ph_email := as_email <$> a; ph_server_url := as_server_url <$> a;
          ph_last_synced_at := a ≫= as_last_synced_at;
          ph_unreadable_items := Z.min u32_max (Z.of_nat (vs_unreadable_items vs));
          ph_plan_status := a ≫= as_plan_status;
          ph_entitlement := match a with
                            | Some a => match as_entitlement a with Store.Full => lit "full" | Store.Frozen => lit "frozen" end
                            | None => lit "full"
                            end;
          ph_trial_ends_at := a ≫= as_trial_ends_at |}.

Definition unlock_password (password : list Z) (secret_key : option (list Z)) : Mb PhoneStatus :=
  _ ← on_client (unlock device_name localhost_http password secret_key); phone_status.
Definition create_unlock_bundle_ (password : list Z) (boot_count : Z) : Mb (list Z) :=
  _ ← unlocked; on_client (Account.create_unlock_bundle password boot_count).
Definition unlock_with_bundle_ (bundle : list Z) (boot_count : Z) : Mb PhoneStatus :=
  _ ← on_client (Account.unlock_with_bundle bundle boot_count); phone_status.

(** [None]: the pull is not over. *)
Definition sync_now_ (fuel : nat) : Mb (option ()) := r ← on_client (sync_now fuel); mret ((fun _ => ()) <$> r).
Definition sync_if_due (fuel : nat) : Mb (option ()) := fun s =>
  if pull_due (elapsed s.2) (haven s.1) then sync_now_ fuel s else (s, Ok (Some ())).
Definition phone_device (d : DeviceInfo) : PhoneDevice :=
  {| pv_id := uuid_text (di_id d); pv_name := di_name d; pv_created_at := di_created_at d;
     pv_last_seen_at := di_last_seen_at d; pv_current := di_current d; pv_approved_by := uuid_text <$> di_approved_by d |}.
Definition devices : Mb (list PhoneDevice) := l ← on_client (list_devices localhost_http); mret (map phone_device l).
(** Revoking this phone ends its access as signing out does. *)
Definition tell_signed_out : Mb () := fun s =>
  let '(k, l) := hear (mono s.2) (wall s.2) (clock s.1, told s.1) EvSignedOut in ((set_told k l s.1, s.2), Ok ()).
Definition revoked (id : Z) : Mb () :=
  own ← attempt_ (on_client device_id); if bool_decide (own = Some id) then tell_signed_out else mret ().
Definition revoke_device_ (id : list Z) : Mb () :=
  id ← parse_id id; _ ← on_client (Account.revoke_device localhost_http id); revoked id.
Definition sign_out_ : Mb () := on_client (sign_out localhost_http).
Definition remove_device_ (confirmation : list Z) : Mb () := on_client (remove_device localhost_http confirmation).
Definition delete_account_ (confirmation master : list Z) : Mb () :=
  on_client (Account.delete_account localhost_http confirmation master).

(** A HavenKeys kit is kept here until [sign_in_with_kit]; the app only
    learns the address and the server. *)
Definition scan_kit (f : LumaFrame) : Mb (option KitPreview) := fun s =>
  match qr_decode f with
  | None => (s, Ok None)
  | Some text =>
      if negb (bool_decide (take (length KIT_PREFIX) text = KIT_PREFIX)) then (s, Ok None)
      else
        match parse_kit text with
        | Err e => (s, Err (from_client e))
        | Ok k => ((set_kit (Some k) s.1, s.2), Ok (Some {| kp_email := kit_email k; kp_server_url := kit_server_url k |}))
        end
  end.
(** The kit stays held after a failure. *)
Definition held_kit : Mb KitFields := fun s => (s, ok_or (from_client invalid_kit) (kit s.1)).
Definition sign_in_with_kit (password : list Z) : Mb PhoneStatus :=
  k ← held_kit;
  _ ← on_client (sign_in device_name localhost_http (kit_server_url k) (kit_email k) password (Some (kit_secret_key k)));
  _ ← forget_kit;
  phone_status.
Definition sign_in_ (server_url email password secret_key : list Z) : Mb PhoneStatus :=
  _ ← on_client (sign_in device_name localhost_http server_url email password (Some secret_key)); phone_status.
Definition preview_invite_ (invite : list Z) : Mb InvitePreview := mlift (map_err from_client (preview_invite invite)).
Definition activate_ (invite password : list Z) : Mb PhoneStatus :=
  _ ← on_client (activate localhost_http invite password); phone_status.

(** Only a link of a pairing comes back from the camera. *)
Definition scan_pairing (f : LumaFrame) : Mb (option (list Z)) :=
  _ ← unlocked; mret (text ← qr_decode f; _ ← result_ok (link_parse text); Some text).
Definition pairing_request_ (link : list Z) : Mb PairingRequest :=
  _ ← touch; on_client (ClientPairing.pairing_request localhost_http link).
Definition approve_pairing_ (link : list Z) : Mb () := _ ← touch; on_client (ClientPairing.approve_pairing localhost_http link).
Definition deny_pairing_ (link : list Z) : Mb () := _ ← touch; on_client (ClientPairing.deny_pairing localhost_http link).
End PhoneAccount.

(** ** The calls of the phone *)

Inductive Ask :=
| AskMatches (t : TargetFacts)
| AskLookalike (t : TargetFacts)
| AskFill (id : list Z) (t : TargetFacts)
| AskTotp (id : list Z) (t : TargetFacts)
| AskSearch (q : list Z)
| AskBind (id : list Z) (t : TargetFacts)
| AskCards (t : TargetFacts) (l : list FrameFacts)
| AskCardValues (id : list Z) (t : TargetFacts) (l : list CardFrameRoles)
| AskSaveCard (t : TargetFacts) (f : FrameFacts) (c : SaveCard)
| AskIdentity (t : TargetFacts) (f : FrameFacts)
| AskIdentityValues (t : TargetFacts) (f : FrameFacts) (l : list IdentityRole) (documents : bool)
| AskSave (t : TargetFacts) (l : SaveLogin)
| AskOffers (c : CredentialCaller) (json : list Z)
| AskSignIn (c : CredentialCaller) (json : list Z) (hash : option (list Z)) (item cred : list Z)
| AskCreatePlan (c : CredentialCaller) (json : list Z)
| AskCreate (c : CredentialCaller) (json : list Z) (item : option (list Z))
| AskPasswordOffers (c : CredentialCaller)
| AskPassword (c : CredentialCaller) (item : list Z)
| AskList
| AskItems (q : list Z)
| AskView (id : list Z)
| AskReveal (id key : list Z)
| AskBank (id : list Z)
| AskBankField (id : list Z) (k : BankField)
| AskDetails (id lang : list Z)
| AskTotpNow (id : list Z)
| AskSaveBank (d : BankDraft)
| AskCreateItem (d : ItemDraft)
| AskUpdate (id : list Z) (d : ItemDraft)
| AskEdit (id : list Z)
| AskTemplate (k : ItemKind)
| AskScan (f : LumaFrame)
| AskTrash (id : list Z)
| AskRestore (id : list Z)
| AskPurge (id : list Z)
| AskEmpty
| AskListTrash
| AskUse (id : list Z)
| AskFrequent (n : nat)
| AskRecent (n : nat)
| AskSearches
| AskRecordSearch (q : list Z)
| AskClearSearches
| AskHealth
| AskIgnore (id : list Z) (l : list HealthCheck)
| AskHelp (id : list Z) (k : HealthCheck).

Section Facts.
Context {C : Crypto} {K : KeyLib} {U : Unicode} {J : JsonLib} {UL : UrlLib} {SL : SiteLib UL} {L : TotpLib} {H : HeaderLib}.
Context {AL : AppLib} {PL : PasskeyLib} {FL : FloatLib} {LL : LookalikeLib} {HX : HexLib} {UT : UuidText} {UP : UuidParse}.
Context {AC : Codec Activity} {ACC : Codec AssetLinksCache} {DC : Codec DeviceSettings} {PH : PhoneLib} {HL : HealthLib}.
Context {QL : QrLib}.
Context {S1 : Serde ErrorBody} {S2 : Serde PullDto} {S3 : Serde WriteBody} {S4 : Serde WriteAckDto}.
Context {S5 : Serde ConflictsDto} {S6 : Serde FetchBody} {S7 : Serde FetchDto} {S8 : Serde HeaderDto}.
Context {S9 : Serde AttachmentPutBody} {S10 : Serde AttachmentDto}.
Context {W : Type} {T : Transport W} {P : Platform W} {HO : PhoneHost W}.
Abbreviation Mb := (M (MobileVault * W) MobileError).

(** Whether a call answered, whatever it answered. *)
Definition done_ {A} (m : Mb A) : Mb () := _ ← m; mret ().
Definition ask (a : Ask) : Mb () :=
  match a with
  | AskMatches t => done_ (autofill_matches t)
  | AskLookalike t => done_ (lookalike_for t)
  | AskFill id t => done_ (autofill_fill id t)
  | AskTotp id t => done_ (autofill_totp id t)
  | AskSearch q => done_ (autofill_search q)
  | AskBind id t => done_ (autofill_bind_and_fill id t)
  | AskCards t l => done_ (autofill_cards t l)
  | AskCardValues id t l => done_ (autofill_card_values id t l)
  | AskSaveCard t f c => done_ (autofill_save_card t f c)
  | AskIdentity t f => done_ (autofill_identity t f)
  | AskIdentityValues t f l documents => done_ (autofill_identity_values t f l documents)
  | AskSave t l => done_ (autofill_save t l)
  | AskOffers c json => done_ (passkey_offers c json)
  | AskSignIn c json hash item cred => done_ (passkey_sign_in c json hash item cred)
  | AskCreatePlan c json => done_ (passkey_create_plan c json)
  | AskCreate c json item => done_ (passkey_create c json item)
  | AskPasswordOffers c => done_ (credential_password_offers c)
  | AskPassword c item => done_ (credential_password c item)
  | AskList => done_ list_items_
  | AskItems q => done_ (search_ q)
  | AskView id => done_ (item_view id)
  | AskReveal id key => done_ (reveal_ id key)
  | AskBank id => done_ (bank_view id)
  | AskBankField id k => done_ (reveal_bank_field id k)
  | AskDetails id lang => done_ (bank_details_text id lang)
  | AskTotpNow id => done_ (totp_now id)
  | AskSaveBank d => done_ (save_bank d)
  | AskCreateItem d => done_ (create_item d)
  | AskUpdate id d => update_item id d
  | AskEdit id => done_ (item_edit id)
  | AskTemplate k => done_ (item_template k)
  | AskScan f => done_ (scan_totp f)
  | AskTrash id => done_ (trash_item id)
  | AskRestore id => restore_item id
  | AskPurge id => purge_item id
  | AskEmpty => done_ empty_trash
  | AskListTrash => done_ list_trash_
  | AskUse id => record_use_ id
  | AskFrequent n => done_ (frequently_used_ n)
  | AskRecent n => done_ (recently_created_ n)
  | AskSearches => done_ recent_searches_
  | AskRecordSearch q => record_search_ q
  | AskClearSearches => clear_recent_searches_
  | AskHealth => done_ health_report_
  | AskIgnore id l => set_health_ignored id l
  | AskHelp id k => done_ (health_help_url_ id k)
  end.

Lemma guarded_done {A} (m : Mb A) : guarded m -> guarded (done_ m).
Proof. apply guarded_bind. Qed.
Lemma guarded_core {A B} (r : Result A) (f : A -> Mb B) : (forall a, guarded (f a)) -> guarded (core_ r ≫= f).
Proof. apply guarded_lift. Qed.

Lemma ask_guarded a : guarded (ask a).
Proof.
  destruct a; cbn [ask]; try apply guarded_done.
  all: try (apply guarded_unlocked).
  all: try (apply guarded_id; intros ?; apply guarded_unlocked).
  all: try (apply guarded_bounded; intros ?; first [apply guarded_unlocked|apply guarded_id; intros ?; apply guarded_unlocked]).
  - apply guarded_bind, guarded_unlocked.
  - unfold autofill_identity_values. destruct (_ <? _)%nat; [apply guarded_throw|apply guarded_unlocked].
  - apply guarded_item. intros ?. apply guarded_unlocked.
  - apply guarded_core. intros ?. apply guarded_unlocked.
Qed.


(** ** Editing *)

(** The draft says nothing of the field. *)
Definition untouched (d : ItemDraft) (key : list Z) : Prop := forall c, c ∈ dr_changes d -> fc_key c <> key.

Lemma changes_from_other (allowed : list (list Z * FieldKind)) (l : list FieldChange) (m m' : Changes) (key : list Z) :
  changes_from allowed l m = Ok m' -> (forall c, c ∈ l -> fc_key c <> key) -> m' !! key = m !! key.
Proof.
  revert m. induction l as [|c l IH]; intros m; cbn [changes_from]; [by intros [= ->]|].
  destruct (_ || _); [done|]. intros Hm Hk. rewrite (IH _ Hm); [|intros c' Hc; apply Hk; by right].
  apply lookup_insert_ne, Hk. left.
Qed.
Lemma changes_new_none (l : list FieldChange) (k : ItemKind) (m : Changes) (key : list Z) : changes_new l k = Ok m -> (forall c, c ∈ l -> fc_key c <> key) -> m !! key = None.
Proof. intros Hm Hk. by rewrite (changes_from_other _ _ _ _ _ Hm Hk). Qed.

(** Taking one change leaves the others. *)
Lemma delete_absent (m : Changes) (k key : list Z) : m !! key = None -> delete k m !! key = None.
Proof. intros Hm. by apply lookup_delete_None; right. Qed.
Lemma update_step (key : list Z) (c c' : Changes) u : update_ key c = (u, c') -> c' = delete key c /\ (c !! key = None -> u = Keep).
Proof. unfold update_, take_. intros [= <- <-]. split; [done|by intros ->]. Qed.
Lemma totp_step (c c' : Changes) u : totp_ c = (u, c') -> c' = delete (lit "totp") c /\ (c !! lit "totp" = None -> u = Keep).
Proof. unfold totp_, update_, take_. intros [= <- <-]. split; [done|by intros ->]. Qed.
Lemma apply_step (key : list Z) (cur : option (list Z)) (c c' : Changes) x :
  apply_ key cur c = (x, c') -> c' = delete key c /\ (c !! key = None -> x = cur).
Proof. unfold apply_, take_. intros [= <- <-]. split; [done|by intros ->]. Qed.

(** The names of the slots, one to one. *)
Lemma identity_field_in n f : identity_field n = Some f -> In (n, f) IDENTITY_TABLE.
Proof.
  unfold identity_field. destruct (List.find _ _) as [[n' f']|] eqn:Ef; [|done]. cbn. intros [= ->].
  apply find_some in Ef as [Hin Hn%bool_decide_eq_true]. cbn in Hn. by subst n'.
Qed.
Lemma identity_table_ok :
  forallb (fun p => negb (bool_decide (p.2 = IAddress))
                    && forallb (fun q => negb (bool_decide (p.2 = q.2)) || bool_decide (p.1 = q.1)) IDENTITY_TABLE)
    IDENTITY_TABLE = true.
Proof. by vm_compute. Qed.
Lemma identity_field_one n n' f : identity_field n = Some f -> f <> IAddress /\ (identity_field n' = Some f -> n' = n).
Proof.
  intros Hn%identity_field_in. pose proof (proj1 (forallb_forall _ _) identity_table_ok _ Hn) as [Ha Hq]%andb_true_iff.
  cbn [fst snd] in *. apply negb_true_iff, bool_decide_eq_false in Ha. split; [done|]. intros Hn'%identity_field_in.
  pose proof (proj1 (forallb_forall _ _) Hq _ Hn') as Hp. cbn [fst snd] in Hp.
  rewrite bool_decide_eq_true_2 in Hp by done. by apply bool_decide_eq_true in Hp.
Qed.

(** One slot of the identity after the others: each is set by its own name. *)
Lemma id_value_set (i : IdentityFields) (f : IdentityField) (v : option (list Z)) (g : IdentityField) : g <> IAddress ->
  id_value (set_slot f v i) g = if bool_decide (f = g) then v else id_value i g.
Proof. intros Hg. destruct g; try done; by destruct f. Qed.

Lemma slots_kept (names : list (list Z)) (c : Changes) (i : IdentityFields) (name : list Z) (f : IdentityField) :
  identity_field name = Some f -> c !! identity_key name = None ->
  id_value (foldl slot_step (c, i) names).2 f = id_value i f.
Proof.
  intros Hf. revert c i. induction names as [|n names IH]; intros c i Hc; [done|]. cbn [foldl].
  unfold slot_step at 2. destruct (identity_field n) as [g|] eqn:Eg; [|by apply IH].
  cbn [apply_ take_]. rewrite IH by (by apply delete_absent). destruct (identity_field_one _ n _ Hf) as [Ha Hn].
  rewrite id_value_set by done. case_bool_decide as E; [|done]. subst g. by rewrite (Hn Eg), Hc.
Qed.
Lemma slots_custom (names : list (list Z)) (s : Changes * IdentityFields) : custom (foldl slot_step s names).2 = custom s.2.
Proof.
  revert s. induction names as [|n names IH]; intros [c i]; [done|]. cbn [foldl]. rewrite IH. unfold slot_step.
  by destruct (identity_field n).
Qed.

(** *** What an update builds *)

Lemma update_built new_id item i now r1 r2 v w :
  stage_update new_id item i now r1 r2 v = Ok w ->
  exists o old o' new ids w0, get_item item v = Ok o /\ item_type o = in_type i /\ load_details item v = Ok old /\
    build_item new_id item (fill_defaults o i) (Some old) (Model.created_at o) now = Ok (o', new) /\
    stage v (with_attachments (with_extra (extra o) o') (attachments o)) (Some new) (item_revision item (store v)) r1 r2 = Ok w0 /\
    w = with_ids ids w0.
Proof.
  unfold stage_update, stage_update_with. intros (o & Ho & Hw)%bind_Ok.
  destruct (negb _) eqn:Et; [done|]. apply negb_false_iff, bool_decide_eq_true in Et.
  apply bind_Ok in Hw as (old & Hold & Hw). apply bind_Ok in Hw as ([o' new] & Hb & Hw).
  apply bind_Ok in Hw as ([o'' ids] & Hf & Hw). cbn in Hf. injection Hf as <- <-.
  apply bind_Ok in Hw as (w0 & Hw0 & [= <-]). by exists o, old, o', new, None, w0.
Qed.

(** What the draft does not name stays: a login's and a note's secrets to the
    letter, with what the editor cannot reach; a card's and an identity's
    values as they go into the cleaning every save does. *)
Definition kept (d : ItemDraft) (now : Z) (old new : ItemDetails) : Prop :=
  match old, new with
  | DLogin a, DLogin b =>
      (untouched d (lit "password") -> password b = password a /\ password_history b = password_history a) /\
      (untouched d (lit "totp") -> totp b = totp a) /\ (untouched d (lit "notes") -> Model.notes b = Model.notes a) /\
      sections b = sections a /\ passkeys b = passkeys a /\ app_bindings b = app_bindings a /\
      health_ignored b = health_ignored a
  | DNote a secs, DNote b secs' => (untouched d (lit "content") -> b = a) /\ secs' = secs
  | DCard a, DCard b => exists raw, card_clean raw = Ok b /\ cf_brand raw = cf_brand a /\
      (untouched d (lit "card.holder") -> cardholder_name raw = cardholder_name a) /\
      (untouched d (lit "card.number") -> number raw = number a) /\
      (untouched d (lit "card.code") -> verification_number raw = verification_number a) /\
      (untouched d (lit "card.expiry") -> expiry raw = expiry a) /\
      (untouched d (lit "card.notes") -> cf_notes raw = cf_notes a)
  | DIdentity a, DIdentity b => exists raw, id_clean raw now = Ok b /\ custom raw = custom a /\
      forall name f, identity_field name = Some f -> untouched d (identity_key name) -> id_value raw f = id_value a f
  | _, _ => False
  end.

(** The changes a draft lists. *)
Definition lists (d : ItemDraft) (c : Changes) : Prop := forall key, untouched d key -> c !! key = None.

Lemma history_kept p h now : next_history p p h now = h.
Proof.
  unfold next_history. destruct p as [p|]; [|done]. unfold secrets_equal.
  rewrite (proj2 (Z.eqb_eq _ _)); [done|]. apply fold_xor_zero. split; [done|].
  apply Forall_forall. intros [x y] Hin. apply elem_of_lookup_zip_with in Hin as (i & a & b & [= -> ->] & Ha & Hb).
  cbn. congruence.
Qed.

Section Kept.
Context (new_id : nat -> Z) (item : Z) (now : Z) (o : ItemOverview) (d : ItemDraft) (c : Changes) (Hc : lists d c).

(** What is left of the changes lists the draft too. *)
Ltac absent := repeat apply delete_absent; by apply Hc.

Lemma login_kept t i old o' new :
  login_draft (Some o) d t c = Ok i ->
  build_item new_id item (fill_defaults o i) (Some old) (Model.created_at o) now = Ok (o', new) ->
  kept d now old new /\ auto_sign_in o' = auto_sign_in o /\ clean_sign_in_with (sign_in_with o) = Ok (sign_in_with o') /\
  (untouched d (lit "username") -> clean_username (trim <$> username o) = Ok (username o')).
Proof.
  unfold login_draft. destruct (bool_decide _); [done|]. change (Some o ≫= username) with (username o).
  destruct (apply_ _ _ c) as [user c1] eqn:E; apply apply_step in E as [-> Huser]. intros (us & _ & Hi)%bind_Ok.
  destruct (update_ _ _) as [pw c2] eqn:E; apply update_step in E as [-> Hpw]. destruct (totp_ _) as [tu c3] eqn:E; apply totp_step in E as [-> Htu].
  apply bind_Ok in Hi as (tu' & Htu' & Hi). destruct (update_ _ _) as [notes c4] eqn:E; apply update_step in E as [-> Hnotes].
  injection Hi as <-. intros (_ & Hd & _ & _ & _ & _ & Hun & _ & _ & _ & Hau & _)%build_item_ok. destruct (Hun eq_refl) as [Hu Hsso].
  pose proof (build_details_type _ _ _ _ _ Hd) as [Hty Hold]. specialize (Hold _ eq_refl).
  unfold build_details in Hd. cbn [fill_defaults in_type] in *. destruct old as [a| | | |]; try done.
  destruct new as [b| | | |]; try done. clear Hold.
  apply build_login_ok in Hd as (old' & Hold & Hp & _ & _ & Hn & Ht & Hs & Hh & Hpk & Hab & Hhi).
  assert (old' = a) as -> by (by destruct Hold as [[= ->]|[? _]]). cbn [in_password in_notes in_totp in_sections in_username] in *.
  split_and!; [cbn [kept]; split_and!; try done|exact Hau|exact Hsso|].
  - intros Hk. rewrite Hpw in Hp by absent. cbn in Hp. rewrite Hh, Hp. split; [done|apply history_kept].
  - intros Hk. rewrite Htu in Htu' by absent. injection Htu' as <-. by injection Ht as ->.
  - intros Hk. by rewrite Hnotes in Hn by absent.
  - by injection Hs as ->.
  - intros Hk. by rewrite <- Huser by absent.
Qed.

Lemma note_kept t i old o' new :
  note_draft d t c = Ok i ->
  build_item new_id item (fill_defaults o i) (Some old) (Model.created_at o) now = Ok (o', new) ->
  kept d now old new.
Proof.
  unfold note_draft. destruct (bool_decide _); [done|]. destruct (update_ _ _) as [u c1] eqn:E; apply update_step in E as [-> Hu].
  intros [= <-] (_ & Hd & _)%build_item_ok. unfold build_details in Hd. cbn [fill_defaults in_type] in Hd.
  unfold build_note in Hd. cbn [in_content in_sections] in Hd. apply bind_Ok in Hd as ([cur secs] & Hcur & Hd).
  apply bind_Ok in Hd as ([] & _ & Hd). apply bind_Ok in Hd as (secs' & Hs & [= <-]). injection Hs as <-.
  destruct old; try done. injection Hcur as <- <-. cbn [kept]. split; [|done]. intros Hk. by rewrite Hu by absent.
Qed.

Lemma card_kept t i old o' new v :
  load_details item v = Ok old -> card_draft (Some item) d t c v = Ok i ->
  build_item new_id item (fill_defaults o i) (Some old) (Model.created_at o) now = Ok (o', new) ->
  kept d now old new.
Proof.
  intros Hl. unfold card_draft, ofc, card_fields. rewrite Hl. intros (a & Ha & Hi)%bind_Ok.
  destruct old as [| | |a'|]; try done. injection Ha as <-.
  destruct (update_ _ _) as [num c1] eqn:E; apply update_step in E as [-> Hnum]. cbv zeta in Hi. destruct (_ && _); [done|].
  unfold take_ in Hi. apply bind_Ok in Hi as (ex & Hex & Hi).
  destruct (apply_ _ _ _) as [holder c2] eqn:E; apply apply_step in E as [-> Hho]. destruct (update_ _ _) as [code c3] eqn:E; apply update_step in E as [-> Hco].
  destruct (apply_ _ _ _) as [notes c4] eqn:E; apply apply_step in E as [-> Hno]. injection Hi as <-.
  intros (_ & Hd & _)%build_item_ok. unfold build_details in Hd. cbn [fill_defaults in_type] in Hd.
  unfold build_card in Hd. cbn [in_card fill_defaults ok_or mbind result_bind] in Hd.
  apply bind_Ok in Hd as (b & Hb & [= <-]).
  cbn [kept]. eexists. split; [exact Hb|]. cbn. split_and!; [done|..]; intros Hk.
  - apply Hho. absent.
  - by rewrite Hnum by absent.
  - by rewrite Hco by absent.
  - assert (delete (lit "card.number") c !! lit "card.expiry" = None) as E by absent. rewrite E in Hex. by injection Hex as <-.
  - apply Hno. absent.
Qed.

Lemma identity_kept i old o' new v :
  load_details item v = Ok old -> identity_draft (Some item) d c v = Ok i ->
  build_item new_id item (fill_defaults o i) (Some old) (Model.created_at o) now = Ok (o', new) ->
  kept d now old new.
Proof.
  intros Hl. unfold identity_draft, ofc, reveal_identity. cbn [ok_or map_err mbind result_bind]. rewrite Hl. intros (a & Ha & Hi)%bind_Ok.
  destruct old as [| |a'| |]; try discriminate Ha. injection Ha as <-.
  destruct (foldl slot_step (c, a') IDENTITY_FIELDS) as [c' raw] eqn:Er. injection Hi as <-.
  intros (_ & Hd & _)%build_item_ok. unfold build_details in Hd. cbn [fill_defaults in_type] in Hd.
  unfold build_identity in Hd. cbn [in_identity fill_defaults ok_or mbind result_bind] in Hd.
  apply bind_Ok in Hd as (b & Hb & [= <-]).
  cbn [kept]. exists raw. split; [exact Hb|].
  pose proof (slots_custom IDENTITY_FIELDS (c, a')) as Hcu. rewrite Er in Hcu. split; [done|].
  intros name f Hf Hk. pose proof (slots_kept IDENTITY_FIELDS c a' name f Hf (Hc _ Hk)) as Hs. by rewrite Er in Hs.
Qed.
End Kept.

(** The steps of staging a draft of an existing item. *)
Lemma draft_update_steps ds t item d v o :
  get_item item v = Ok o ->
  draft_write ds t (Some item) d v =
  if negb (bool_decide (kind_of (item_type o) = dr_kind d)) then Err (of_core (InvalidInput "item type cannot change"))
  else if negb (bool_decide (item_revision item (store v) = dr_base_revision d)) then Err (of_core ItemChangedElsewhere)
  else c ← changes_new (dr_changes d) (dr_kind d);
       i ← draft_input (Some item) (Some o) d c v;
       stage_input ds t (Some item) i v.
Proof.
  intros Ho. unfold draft_write, existing_of. rewrite Ho. cbn [ofc map_err mbind result_bind].
  destruct (negb _); [done|]. unfold same_revision, revision_of. unfold get_item in Ho.
  apply bind_Ok in Ho as (se & -> & _). cbn [mbind result_bind]. by destruct (negb _).
Qed.

Lemma stage_input_built ds t item i v w : stage_input ds t (Some item) i v = Ok w ->
  stage_update (pd_new_id ds) item i t (pd_r1 ds) (pd_r2 ds) v = Ok w.
Proof. apply map_err_Ok. Qed.
Lemma staged_names ds t item i v w : stage_input ds t (Some item) i v = Ok w ->
  sw_item w = item /\ base_revision w = item_revision item (store v).
Proof. intros Hw%stage_input_built. by eapply update_fields. Qed.

(** C35: a draft is staged only against the version it was opened from.  An
    item gone is not found, one of another type is refused, and one whose
    revision is no longer the draft's is refused as changed elsewhere; what is
    staged names that item and that revision, for the server to check again.
    A bank account's draft likewise. *)
Theorem stale_draft_refused ds t item d v :
  match get_item item v with
  | Err e => draft_write ds t (Some item) d v = Err (of_core e)
  | Ok o =>
      if negb (bool_decide (kind_of (item_type o) = dr_kind d)) then
        draft_write ds t (Some item) d v = Err (of_core (InvalidInput "item type cannot change"))
      else if negb (bool_decide (item_revision item (store v) = dr_base_revision d)) then
        draft_write ds t (Some item) d v = Err (of_core ItemChangedElsewhere)
      else
        match draft_write ds t (Some item) d v with
        | Ok w => sw_item w = item /\ base_revision w = dr_base_revision d
        | Err _ => True
        end
  end /\
  forall b, match bank_fields item v with
  | Err e => bank_write ds t (Some item) b v = Err (of_core e)
  | Ok _ =>
      if negb (bool_decide (item_revision item (store v) = bd_base_revision b)) then
        bank_write ds t (Some item) b v = Err (of_core ItemChangedElsewhere)
      else
        match bank_write ds t (Some item) b v with
        | Ok w => sw_item w = item /\ base_revision w = bd_base_revision b
        | Err _ => True
        end
  end.
Proof.
  split.
  - destruct (get_item item v) as [o|e] eqn:Ho.
    + rewrite (draft_update_steps _ _ _ _ _ _ Ho). destruct (negb _); [done|].
      destruct (bool_decide (item_revision _ _ = _)) eqn:Er; [|done]. apply bool_decide_eq_true in Er. cbn [negb].
      destruct (changes_new _ _ ≫= _) as [w|] eqn:Ew; [|done].
      apply bind_Ok in Ew as (c & _ & Ew). apply bind_Ok in Ew as (i & _ & [? Hb]%staged_names). split; [done|congruence].
    + unfold draft_write, existing_of. by rewrite Ho.
  - intros b. unfold bank_write, same_revision, revision_of. destruct (bank_fields item v) as [f|e] eqn:Hf; [|done].
    assert (exists se, Vault.session v = Ok se) as [se ->].
    { unfold bank_fields, load_details in Hf. apply bind_Ok in Hf as (? & (se & ? & _)%bind_Ok & _). by exists se. }
    cbn [ofc map_err mbind result_bind]. destruct (bool_decide (item_revision _ _ = _)) eqn:Er; [|done].
    apply bool_decide_eq_true in Er. cbn [negb map_err mbind result_bind].
    destruct (rules (bd_websites b) ≫= _) as [w|] eqn:Ew; [|done].
    apply bind_Ok in Ew as (us & _ & [? Hb]%staged_names). split; [done|congruence].
Qed.


(** The expiry the viewer shows is read back by the editor, as it is. *)
Lemma expiry_all :
  forallb (fun y => forallb (fun m =>
    let e := {| year := y; month := m |} in
    let ok t := match parse_expiry t with Ok (Some e') => bool_decide (e' = e) | _ => false end in
    ok (expiry_display e) && ok (expiry_to_wire e)) (seqZ 1 12)) (seqZ 1970 130) = true.
Proof. by vm_compute. Qed.
Lemma expiry_edit_reads_back y m :
  match expiry_new y m with
  | Ok e => parse_expiry (expiry_display e) = Ok (Some e) /\ parse_expiry (expiry_to_wire e) = Ok (Some e)
  | Err _ => True
  end.
Proof.
  unfold expiry_new. destruct (in_range _ _ y) eqn:Ey; [|done]. destruct (in_range 1 12 m) eqn:Em; [|done].
  apply in_range_true in Ey, Em. unfold MIN_EXPIRY_YEAR, MAX_EXPIRY_YEAR in Ey. cbn [negb orb].
  pose proof (proj1 (forallb_forall _ _) expiry_all y) as Hy. specialize (Hy ltac:(apply list_elem_of_In, elem_of_seqZ; lia)).
  pose proof (proj1 (forallb_forall _ _) Hy m) as Hm. specialize (Hm ltac:(apply list_elem_of_In, elem_of_seqZ; lia)).
  cbv zeta in Hm. apply andb_true_iff in Hm as [H1 H2].
  split; [destruct (parse_expiry (expiry_display _)) as [[e|]|]|destruct (parse_expiry (expiry_to_wire _)) as [[e|]|]];
    try done; [apply bool_decide_eq_true in H1 as ->|apply bool_decide_eq_true in H2 as ->]; done.
Qed.
End Facts.

(** ** A phone with one login *)

Module ToyPhone.
Import Blob.Toy ToyUnicode ToyTotp ToyCodec Lifecycle.Sample System.Run.

(** A host may be followed by a slash. *)
#[local] Instance urls_ : UrlLib := {|
  Url := list Z * list Z; url_parse := fun s => (fun u => (u.1, default u.2 (strip_suffix [47] u.2))) <$> ToyUrl.parse s;
  url_scheme := fst; url_host_str := fun u => Some u.2; url_username := fun _ => []; url_password := fun _ => None;
  url_path := fun _ => []; url_query_pairs := fun _ => []; url_drop_fragment := fun u => u;
  url_to_string := fun u => u.1 ++ lit "://" ++ u.2; percent_encode := fun s => s; percent_decode := fun s => s |}.
#[local] Instance sites : SiteLib urls_ := {|
  url_host := fun u : @Url urls_ => Some (HDomain (snd u)); url_port := fun _ => None;
  url_port_or_known_default := fun u : @Url urls_ => if bool_decide (fst u = lit "https") then Some 443 else Some 80;
  url_origin_ascii := fun u : @Url urls_ => fst u ++ lit "://" ++ snd u; ipv6_to_string := fun _ => lit "::1";
  psl_domain := fun h => ToySite.last_two (length h) h; equivalent_table := None |}.

(** The certificate of the one browser is 32 zeros. *)
Definition zeros : list Z := concat (replicate 31 (lit "00:")) ++ lit "00".
#[local] Instance apps : AppLib :=
  {| browser_list := Some [{| la_kind := lit "android"; la_package := lit "com.browser";
                              la_signatures := [{| build := lit "release"; cert_fingerprint_sha256 := zeros |}] |}];
     raw_statements := fun _ => None; hexlower := fun c => c |}.
#[local] Instance hex : HexLib := fun _ => None.
#[local] Instance uuids : UuidParse := fun t => match t with [n] => Some n | _ => None end.
#[local] Instance links_codec : Codec AssetLinksCache := {| Vault.to_json := fun _ => []; Vault.from_json := fun _ => None |}.
#[local] Instance device_codec : Codec DeviceSettings := {| Vault.to_json := fun _ => []; Vault.from_json := fun _ => None |}.
(** The world is the time, in milliseconds. *)
#[local] Instance platform : Platform Z :=
  {| now_ms := fun t => t; elapsed := fun t => t; remove_vault_file := fun t => (t, true);
     forget_device := fun _ t => (t, true); write_marker := fun _ t => t; remove_marker := fun t => t;
     read_marker := fun _ => None |}.
Definition ds : PhoneDraws :=
  {| pd_new_id := System.Run.new_id; pd_fresh := 99; pd_use := None; pd_key := fun _ => None; pd_credential := None;
     pd_r1 := nonce 8; pd_r2 := nonce 9 |}.
#[local] Instance host : PhoneHost Z :=
  {| mono := fun t => t * 1000000; wall := fun t => t * 1000000; phone_draws := fun t => (t, ds); http_ready := fun _ => false;
     http_get := fun _ t => (t, None) |}.

(** Unlocked at time 0 with five minutes of auto-lock. *)
Definition phone : MobileVault :=
  {| haven := {| vault_ := stored; connectivity := COffline; last_sync_attempt := None; attachment_cache_cap := 0;
                 storage_error := None; events := [] |};
     clock := clock_arm 5 0 0 clock_new; told := []; kit := None; own_package := lit "com.havenkeys" |}.
Definition on_page (host : string) : TargetFacts :=
  {| tf_package := lit "com.browser"; tf_certs := [replicate 32 0]; tf_web_domain := Some (lit host);
     tf_web_scheme := Some (lit "https") |}.
Definition fills (host : string) (t : Z) : result MobileError FillValues := (autofill_fill [42] (on_page host) (phone, t)).2.

Lemma fills_its_site : fills "a.com" 4000 = Ok {| fv_username := Some (lit "me"); fv_password := Some (lit "old-password"); fv_bank := None |}.
Proof. vm_compute. reflexivity. Qed.
Lemma fills_no_other : fills "evil.com" 4000 = Err (of_core Denied).
Proof. vm_compute. reflexivity. Qed.
Lemma fills_not_overdue : overdue (phone, 400000) = true /\ fills "a.com" 400000 = Err (of_core Locked).
Proof. split; vm_compute; reflexivity. Qed.

Definition new_password (base : option Z) : ItemDraft :=
  {| dr_kind := KLogin; dr_title := lit "Site"; dr_websites := [];
     dr_changes := [{| fc_key := lit "password"; fc_change := ChReplace (lit "new-password") |}];
     dr_base_revision := base; dr_tags := [] |}.
Lemma drafts_of_it :
  sw_item <$> draft_write ds 5000 (Some 42) (new_password (Some 7)) stored = Ok 42 /\
  draft_write ds 5000 (Some 42) (new_password (Some 6)) stored = Err (of_core ItemChangedElsewhere).
Proof. split; vm_compute; reflexivity. Qed.
(** A Keystore that reverses, and files that are all there is. *)
Abbreviation KeyDisk := (list Z -> option (list Z)).
Definition key_put (p : list Z) (x : option (list Z)) (w : KeyDisk) : KeyDisk := fun q => if decide (q = p) then x else w q.
#[local] Instance keystore : KeystoreCipher := {| cipher_seal := fun x => Some (rev x); cipher_open := fun x => Some (rev x) |}.
#[local] Instance key_files : KeyFiles KeyDisk := {|
  key_file_read := fun p w => Some (w p); key_file_write := fun p b w => (key_put p (Some b) w, true);
  key_file_rename := fun p q w => (key_put q (w p) w, true); key_file_remove := fun p w => (key_put p None w, true) |}.
Lemma key_laws : @KeyFileLaws keystore KeyDisk key_files.
Proof.
  split; cbn; intros *.
  - intros [= <-]. by rewrite rev_involutive.
  - intros _. unfold key_put. by rewrite decide_True.
  - intros _. unfold key_put. by rewrite decide_True.
Qed.
End ToyPhone.
