(* ===== verification/DesktopParts.v ===== *)
(** * What the desktop keeps beside the vault (apps/desktop/src-tauri)

    updates.rs (the phases of an update), quick_access.rs (the global
    shortcut and its file), confirm.rs (the one question to the user),
    scan_slot.rs and pending_files.rs (what waits in Rust for a save),
    clipboard.rs (clearing what was copied), qr_scan.rs (codes in captured
    images) and item_input.rs (a save request with scanned codes).

    Each mutex is held for a whole call, so a call is one step.  The
    computer is a world [W] reached through classes: its files ([Disk]), the
    global shortcuts ([ShortcutHost]), the clipboard ([Clip]) and captured
    images; the shortcut plugin's parser, serde and the QR reader are
    parameters too. *)

From S2P Require Import Prelude Errors Text Blob Url Clean Tags Totp Card Identity.
From S2P Require Import CustomField Bank Sso Attachment Model Keys Store Vault Client ClientFiles.

(** ** Files *)

(** Names are relative to the application's directory; a file is created
    with its whole contents and synced. *)
Class Disk (W : Type) := {
  disk_read : list Z -> W -> option (list Z);
  disk_remove : list Z -> W -> W;
  disk_create : list Z -> list Z -> W -> W * bool;
  disk_rename : list Z -> list Z -> W -> W * bool;
}.

Section Files.
Context {W : Type} {D : Disk W}.

(** The tail of both [save]s: a temporary file renamed over the old one. *)
Definition write_renamed (tmp name bytes : list Z) (w : W) : W * bool :=
  let '(w, ok) := disk_create tmp bytes w in if (ok : bool) then disk_rename tmp name w else (w, false).

Definition load_json {A} `{Codec A} (name : list Z) (w : W) : option A := bytes ← disk_read name w; from_json bytes.
End Files.

(** ** updates.rs *)

Definition UPDATES_FILE : list Z := lit "updates.json".
Definition NOTES_LIMIT : nat := 4000.
Definition UNKNOWN_SIZE_STEP : Z := 1024 * 1024.

Record UpdateSettings := { auto_check : bool }.
Definition update_default : UpdateSettings := {| auto_check := true |}.

Inductive Stage := StageCheck | StageInstall.
Inductive Phase :=
| PhIdle
| PhChecking
| PhAvailable (version notes : list Z)
| PhDownloading (version : list Z) (downloaded : Z) (total : option Z)
| PhInstalling
| PhFailed (during : Stage).
Inductive CheckOutcome := UpToDate | Found (version notes : list Z) | CheckFailed.

Record Machine := { phase : Phase; before_check : Phase }.
Definition machine_new : Machine := {| phase := PhIdle; before_check := PhIdle |}.
Definition set_phase (p : Phase) (m : Machine) : Machine := {| phase := p; before_check := before_check m |}.

Definition truncate_notes (notes : list Z) : list Z :=
  if (NOTES_LIMIT <? length notes)%nat then take NOTES_LIMIT notes ++ [8230] else notes.

Definition begin_check (m : Machine) : Machine * bool :=
  match phase m with
  | PhChecking | PhDownloading _ _ _ | PhInstalling => (m, false)
  | p => ({| phase := PhChecking; before_check := p |}, true)
  end.

Definition finish_check (outcome : CheckOutcome) (manual : bool) (m : Machine) : Machine :=
  {| before_check := PhIdle;
     phase := match outcome with
              | Found version notes => PhAvailable version (truncate_notes notes)
              | UpToDate => PhIdle
              | CheckFailed =>
                  if manual then PhFailed StageCheck
                  else match before_check m with PhAvailable v n => PhAvailable v n | _ => PhIdle end
              end |}.

(** [None]: an install was asked for without an update on offer. *)
Definition begin_install (m : Machine) : Machine * option (list Z) :=
  match phase m with
  | PhAvailable version _ => (set_phase (PhDownloading version 0 None) m, Some version)
  | _ => (m, None)
  end.

Definition percent (n size : Z) : Z := Z.min u64_max (n * 100) / size.
Definition progress (chunk : Z) (total : option Z) (m : Machine) : Machine * bool :=
  match phase m with
  | PhDownloading version before _ =>
      let downloaded := u64_saturating_add before chunk in
      (set_phase (PhDownloading version downloaded total) m,
       match total with
       | Some size =>
           if 0 <? size then negb (percent downloaded size =? percent before size)
           else negb (downloaded / UNKNOWN_SIZE_STEP =? before / UNKNOWN_SIZE_STEP)
       | None => negb (downloaded / UNKNOWN_SIZE_STEP =? before / UNKNOWN_SIZE_STEP)
       end)
  | _ => (m, false)
  end.
Definition installing (m : Machine) : Machine := set_phase PhInstalling m.
Definition install_failed (m : Machine) : Machine := set_phase (PhFailed StageInstall) m.

Definition can_install_in_place (os : string) (appimage : bool) : bool :=
  if String.eqb os "windows" || String.eqb os "macos" then true
  else if String.eqb os "linux" then appimage else false.

(** ** quick_access.rs: chords *)

(** The keys of keyboard-types the source names, and the others. *)
Module Code.
Inductive t :=
| KeyA | KeyB | KeyC | KeyD | KeyE | KeyF | KeyG | KeyH | KeyI | KeyJ | KeyK | KeyL | KeyM
| KeyN | KeyO | KeyP | KeyQ | KeyR | KeyS | KeyT | KeyU | KeyV | KeyW | KeyX | KeyY | KeyZ
| Digit0 | Digit1 | Digit2 | Digit3 | Digit4 | Digit5 | Digit6 | Digit7 | Digit8 | Digit9
| Space
| F1 | F2 | F3 | F4 | F5 | F6 | F7 | F8 | F9 | F10 | F11 | F12
| Backquote | Minus | Equal | BracketLeft | BracketRight | Backslash | Semicolon | Quote | Comma | Period | Slash
| Other (n : Z).
#[global] Instance eq_dec : EqDecision t.
Proof. solve_decision. Defined.
End Code.

Record Modifiers := { SUPER : bool; CONTROL : bool; ALT : bool; SHIFT : bool; other_mods : Z }.
Record Shortcut := { mods : Modifiers; key : Code.t }.
#[export] Instance Modifiers_eq_dec : EqDecision Modifiers.
Proof. solve_decision. Defined.
#[export] Instance Shortcut_eq_dec : EqDecision Shortcut.
Proof. solve_decision. Defined.

Definition QUICK_FILE : list Z := lit "quick-access.json".
Definition QUICK_TMP : list Z := lit "quick-access.json.tmp".
Definition MAX_KEYS_LEN : Z := 64.

Definition ALLOWED_KEYS : list (Code.t * list Z) :=
  combine
    [Code.KeyA; Code.KeyB; Code.KeyC; Code.KeyD; Code.KeyE; Code.KeyF; Code.KeyG; Code.KeyH; Code.KeyI; Code.KeyJ;
     Code.KeyK; Code.KeyL; Code.KeyM; Code.KeyN; Code.KeyO; Code.KeyP; Code.KeyQ; Code.KeyR; Code.KeyS; Code.KeyT;
     Code.KeyU; Code.KeyV; Code.KeyW; Code.KeyX; Code.KeyY; Code.KeyZ;
     Code.Digit0; Code.Digit1; Code.Digit2; Code.Digit3; Code.Digit4; Code.Digit5; Code.Digit6; Code.Digit7;
     Code.Digit8; Code.Digit9; Code.Space;
     Code.F1; Code.F2; Code.F3; Code.F4; Code.F5; Code.F6; Code.F7; Code.F8; Code.F9; Code.F10; Code.F11; Code.F12;
     Code.Backquote; Code.Minus; Code.Equal; Code.BracketLeft; Code.BracketRight; Code.Backslash; Code.Semicolon;
     Code.Quote; Code.Comma; Code.Period; Code.Slash]
    (map lit
      ["A"; "B"; "C"; "D"; "E"; "F"; "G"; "H"; "I"; "J"; "K"; "L"; "M"; "N"; "O"; "P"; "Q"; "R"; "S"; "T"; "U"; "V"; "W";
       "X"; "Y"; "Z"; "0"; "1"; "2"; "3"; "4"; "5"; "6"; "7"; "8"; "9"; "Space";
       "F1"; "F2"; "F3"; "F4"; "F5"; "F6"; "F7"; "F8"; "F9"; "F10"; "F11"; "F12";
       "Backquote"; "Minus"; "Equal"; "BracketLeft"; "BracketRight"; "Backslash"; "Semicolon"; "Quote"; "Comma"; "Period";
       "Slash"]%string).

Definition RESERVED : list (list Z) := map lit
  ["Super+C"; "Control+C"; "Super+V"; "Control+V"; "Super+X"; "Control+X"; "Super+A"; "Control+A"; "Super+Z"; "Control+Z";
   "Super+Y"; "Control+Y"; "Super+Q"; "Control+Q"; "Super+W"; "Control+W"; "Super+Space"; "Super+Shift+3"; "Super+Shift+4";
   "Super+Shift+5"; "Alt+F4"; "Super+Control+Q"]%string.

Definition MODIFIER_NAMES : list ((Modifiers -> bool) * list Z) :=
  [(SUPER, lit "Super"); (CONTROL, lit "Control"); (ALT, lit "Alt"); (SHIFT, lit "Shift")].

(** The operating system the app was built for, and the parser of the
    shortcut plugin. *)
Class ShortcutLib := { macos : bool; shortcut_parse : list Z -> option Shortcut }.

Inductive ShortcutRefusal := RefusedModifier | RefusedKey | RefusedReserved.

Record QuickAccessSetting := { q_shortcut : bool; q_shortcut_keys : option (list Z) }.
Definition quick_default : QuickAccessSetting := {| q_shortcut := true; q_shortcut_keys := None |}.

Record QuickAccessStatus := {
  qs_enabled : bool;
  qs_in_use : bool;
  qs_keys : list Z;
  qs_is_default : bool;
  qs_candidate_in_use : bool;
}.
Inductive SetShortcutError := SseRefused (r : ShortcutRefusal) | SseSave.

Record Registration := { r_enabled : bool; r_shortcut : Shortcut; r_registered : bool; r_in_use : bool }.
Record QuickAccess := { registration : Registration; q_main_was_focused : bool; q_for_browser : bool }.
Definition set_registration (r : Registration) (q : QuickAccess) : QuickAccess :=
  {| registration := r; q_main_was_focused := q_main_was_focused q; q_for_browser := q_for_browser q |}.

(** [register] answers whether the system gave the shortcut. *)
Class ShortcutHost (W : Type) := {
  register : Shortcut -> W -> W * bool;
  unregister : Shortcut -> W -> W;
}.

Section Chords.
Context {SL : ShortcutLib}.

Definition default_shortcut : Shortcut :=
  {| mods := {| SUPER := macos; CONTROL := negb macos; ALT := false; SHIFT := true; other_mods := 0 |}; key := Code.Space |}.

Definition canonical (s : Shortcut) : option (list Z) :=
  name ← snd <$> List.find (fun p => bool_decide (p.1 = key s)) ALLOWED_KEYS;
  Some (concat (map (fun p => if p.1 (mods s) : bool then p.2 ++ lit "+" else []) MODIFIER_NAMES) ++ name).
Definition keys_of (s : Shortcut) : list Z := default [] (canonical s).

Definition parse_keys (keys : list Z) : result ShortcutRefusal Shortcut :=
  if MAX_KEYS_LEN <? str_len keys then Err RefusedKey
  else
    parsed ← ok_or RefusedKey (shortcut_parse keys);
    if negb (bool_decide (canonical parsed = Some keys)) then Err RefusedKey
    else if negb (SUPER (mods parsed) || CONTROL (mods parsed) || ALT (mods parsed)) then Err RefusedModifier
    else if bool_decide (keys ∈ RESERVED) then Err RefusedReserved
    else Ok parsed.

Definition stored_keys (s : Shortcut) : option (list Z) :=
  if bool_decide (s = default_shortcut) then None else Some (keys_of s).

Definition chord (s : QuickAccessSetting) : Shortcut :=
  match q_shortcut_keys s with
  | Some k => match parse_keys k with Ok s => s | Err _ => default_shortcut end
  | None => default_shortcut
  end.

(** ** quick_access.rs: the registration *)

Context {W : Type} {D : Disk W} {SH : ShortcutHost W} {SC : Codec QuickAccessSetting}.

Definition quick_load (w : W) : QuickAccessSetting := default quick_default (load_json QUICK_FILE w).
Definition quick_save (s : QuickAccessSetting) (w : W) : W * bool :=
  write_renamed QUICK_TMP QUICK_FILE (to_json s) (disk_remove QUICK_TMP w).

Definition quick_new (w : W) : QuickAccess :=
  let setting := quick_load w in
  {| registration := {| r_enabled := q_shortcut setting; r_shortcut := chord setting; r_registered := false;
                        r_in_use := false |};
     q_main_was_focused := false; q_for_browser := false |}.

Definition quick_status (q : QuickAccess) : QuickAccessStatus :=
  let r := registration q in
  {| qs_enabled := r_enabled r; qs_in_use := r_enabled r && r_in_use r; qs_keys := keys_of (r_shortcut r);
     qs_is_default := bool_decide (r_shortcut r = default_shortcut); qs_candidate_in_use := false |}.
Definition is_current (pressed : Shortcut) (q : QuickAccess) : bool :=
  bool_decide (mods (r_shortcut (registration q)) = mods pressed)
  && bool_decide (key (r_shortcut (registration q)) = key pressed).

Definition mark (registered in_use : bool) (r : Registration) : Registration :=
  {| r_enabled := r_enabled r; r_shortcut := r_shortcut r; r_registered := registered; r_in_use := in_use |}.
Definition quick_apply (s : QuickAccess * W) : QuickAccess * W :=
  let '(q, w) := s in
  let r := registration q in
  if r_enabled r && negb (r_registered r) then
    let '(w, given) := register (r_shortcut r) w in (set_registration (mark given (negb given) r) q, w)
  else if negb (r_enabled r) && r_registered r then
    (set_registration (mark false false r) q, unregister (r_shortcut r) w)
  else if negb (r_enabled r) then (set_registration (mark (r_registered r) false r) q, w)
  else (q, w).

(** The Settings switch; [false]: the file was not written. *)
Definition quick_set (enabled : bool) (s : QuickAccess * W) : (QuickAccess * W) * bool :=
  let '(q, w) := s in
  let r := registration q in
  let '(w, saved) := quick_save {| q_shortcut := enabled; q_shortcut_keys := stored_keys (r_shortcut r) |} w in
  if negb (saved : bool) then ((q, w), false)
  else
    (quick_apply (set_registration {| r_enabled := enabled; r_shortcut := r_shortcut r; r_registered := r_registered r;
                                      r_in_use := r_in_use r |} q, w), true).

(** Settings: Change and Reset. *)
Definition proposed (keys : option (list Z)) : result ShortcutRefusal Shortcut :=
  match keys with None => Ok default_shortcut | Some k => parse_keys k end.
Definition moved_to (next : Shortcut) (r : Registration) : Registration :=
  {| r_enabled := r_enabled r; r_shortcut := next; r_registered := r_enabled r; r_in_use := false |}.
Definition in_use_elsewhere (q : QuickAccess) : QuickAccessStatus :=
  let s := quick_status q in
  {| qs_enabled := qs_enabled s; qs_in_use := qs_in_use s; qs_keys := qs_keys s; qs_is_default := qs_is_default s;
     qs_candidate_in_use := true |}.
Definition set_shortcut (keys : option (list Z)) (s : QuickAccess * W)
    : (QuickAccess * W) * result SetShortcutError QuickAccessStatus :=
  let '(q, w) := s in
  match proposed keys with
  | Err why => (s, Err (SseRefused why))
  | Ok next =>
      let r := registration q in
      let setting := {| q_shortcut := r_enabled r; q_shortcut_keys := stored_keys next |} in
      if bool_decide (next = r_shortcut r) then
        let s := if r_enabled r && negb (r_registered r) then quick_apply s else s in (s, Ok (quick_status s.1))
      else if r_enabled r then
        let '(w, given) := register next w in
        if negb (given : bool) then ((q, w), Ok (in_use_elsewhere q))
        else
          let '(w, saved) := quick_save setting w in
          if negb (saved : bool) then ((q, unregister next w), Err SseSave)
          else
            let w := if r_registered r then unregister (r_shortcut r) w else w in
            let q := set_registration (moved_to next r) q in
            ((q, w), Ok (quick_status q))
      else
        let '(w, saved) := quick_save setting w in
        if negb (saved : bool) then ((q, w), Err SseSave)
        else let q := set_registration (moved_to next r) q in ((q, w), Ok (quick_status q))
  end.

Definition update_load `{Codec UpdateSettings} (w : W) : UpdateSettings := default update_default (load_json UPDATES_FILE w).
Definition update_save `{Codec UpdateSettings} (s : UpdateSettings) (w : W) : W * bool :=
  write_renamed (lit "updates.json.tmp") UPDATES_FILE (to_json s) w.
End Chords.

Definition note_opened (main_was_focused for_browser : bool) (q : QuickAccess) : QuickAccess :=
  {| registration := registration q; q_main_was_focused := main_was_focused; q_for_browser := for_browser |}.
Definition note_hidden (q : QuickAccess) : QuickAccess := note_opened (q_main_was_focused q) false q.
Definition take_browser_unlock (q : QuickAccess) : QuickAccess * bool := (note_hidden q, q_for_browser q).

Inductive HideReason := Dismissed | Blurred | HideLocked | Opened.
#[export] Instance HideReason_eq_dec : EqDecision HideReason.
Proof. solve_decision. Defined.
Definition returns_focus_to_previous_app (main_was_focused : bool) (reason : HideReason) : bool :=
  bool_decide (reason = Dismissed) && negb main_was_focused.

Inductive ShortcutTarget := TargetMain | TargetQuick.
Inductive BrowserUnlockTarget := UnlockMain | UnlockQuick | UnlockNothing.
Definition shortcut_target (vault_exists : option bool) : ShortcutTarget :=
  match vault_exists with Some true => TargetQuick | _ => TargetMain end.
Definition browser_unlock_target (status : option (bool * bool)) : BrowserUnlockTarget :=
  match status with Some (true, true) => UnlockNothing | Some (true, false) => UnlockQuick | _ => UnlockMain end.

(** [i32] positions, [u32] sizes. *)
Definition i32_saturating_add (a b : Z) : Z := clamp (-2 ^ 31) (2 ^ 31 - 1) (a + b).
Definition center_offset (monitor window : Z) : Z :=
  let half := Z.max 0 (monitor - window) / 2 in if half <? 2 ^ 31 then half else 0.
Definition centered (pos size window : Z * Z) : Z * Z :=
  (i32_saturating_add pos.1 (center_offset size.1 window.1), i32_saturating_add pos.2 (center_offset size.2 window.2)).

(** ** confirm.rs *)

(** The pending confirmation, and the answers sent to those that wait: a
    channel holds one message. *)
Record PendingConfirmation := { slot : option Z; answers : gmap Z bool }.
Definition no_confirmation : PendingConfirmation := {| slot := None; answers := ∅ |}.

Definition confirm_begin (id : Z) (p : PendingConfirmation) : PendingConfirmation * option Z :=
  match slot p with Some _ => (p, None) | None => ({| slot := Some id; answers := answers p |}, Some id) end.
Definition try_send (id : Z) (allow : bool) (m : gmap Z bool) : gmap Z bool :=
  match m !! id with Some _ => m | None => <[id := allow]> m end.
Definition confirm_answer (id : Z) (allow : bool) (p : PendingConfirmation) : PendingConfirmation * bool :=
  if bool_decide (slot p = Some id) then ({| slot := None; answers := try_send id allow (answers p) |}, true) else (p, false).
Definition confirm_cancel (p : PendingConfirmation) : PendingConfirmation :=
  match slot p with Some id => {| slot := None; answers := try_send id false (answers p) |} | None => p end.
Definition confirm_finish (id : Z) (p : PendingConfirmation) : PendingConfirmation :=
  if bool_decide (slot p = Some id) then {| slot := None; answers := answers p |} else p.
Definition wait (id : Z) (p : PendingConfirmation) : bool := default false (answers p !! id).

(** What the other threads do while [run] waits. *)
Inductive Meanwhile := MwAnswer (id : Z) (allow : bool) | MwCancel | MwBegin (id : Z).
Definition meanwhile (p : PendingConfirmation) (e : Meanwhile) : PendingConfirmation :=
  match e with
  | MwAnswer id allow => (confirm_answer id allow p).1
  | MwCancel => confirm_cancel p
  | MwBegin id => (confirm_begin id p).1
  end.
(** [run]: whether the change is allowed, and whether a dialog was started
    (and then closed). *)
Definition confirm_run (id : Z) (unlocked shown : bool) (during : list Meanwhile) (p : PendingConfirmation)
    : PendingConfirmation * bool * bool :=
  match confirm_begin id p with
  | (p, None) => (p, false, false)
  | (p, Some id) =>
      if negb unlocked then (confirm_finish id p, false, false)
      else
        let p := if shown then foldl meanwhile p during else p in
        (confirm_finish id p, shown && wait id p, true)
  end.

(** ** scan_slot.rs *)

Definition SCAN_TTL : Z := 5 * 60 * 1000.
Definition MAX_HELD : nat := 16.

Record ScannedCode := { sc_uri : list Z; sc_issuer : option (list Z); sc_account : option (list Z) }.
Record ScannedTotp := { st_token : list Z; st_issuer : option (list Z); st_account : option (list Z) }.
Record ScanEntry := { se_created : Z; se_token : list Z; se_uri : list Z }.
Abbreviation ScanSlot := (list ScanEntry).

(** [{b:02x}] of each byte. *)
Definition hex_char (d : Z) : Z := if d <? 10 then 48 + d else 87 + d.
Definition hex_text (b : list Z) : list Z := b ≫= (fun x => [hex_char (x / 16); hex_char (x mod 16)]).

(** [draws n] is the 16 random bytes of the n-th token. *)
Fixpoint scan_push (codes : list ScannedCode) (draws : nat -> option (list Z)) (n : nat) (now : Z) (s : ScanSlot)
    : ScanSlot * Result (list ScannedTotp) :=
  match codes with
  | [] => (s, Ok [])
  | c :: codes =>
      match draws n with
      | None => (s, Err Rng)
      | Some raw =>
          let token := hex_text raw in
          let '(s, r) := scan_push codes draws (S n) now
                           (s ++ [{| se_created := now; se_token := token; se_uri := sc_uri c |}]) in
          (s, previews ← r;
              Ok ({| st_token := token; st_issuer := sc_issuer c; st_account := sc_account c |} :: previews))
      end
  end.
Definition scan_add (codes : list ScannedCode) (draws : nat -> option (list Z)) (now : Z) (s : ScanSlot)
    : ScanSlot * Result (list ScannedTotp) :=
  let '(s, r) := scan_push codes draws 0 now s in
  match r with
  | Ok previews => (drop (length s - MAX_HELD) s, Ok previews)
  | Err e => (s, Err e)
  end.
Definition scan_get (token : list Z) (now : Z) (s : ScanSlot) : option (list Z) :=
  e ← List.find (fun e => bool_decide (se_token e = token)) s;
  if Z.max 0 (now - se_created e) <? SCAN_TTL then Some (se_uri e) else None.

(** ** pending_files.rs *)

Abbreviation PendingFiles := (gmap Z NewFile).
Definition file_gone : ClientError := from_core (InvalidInput "This file is no longer available").
Fixpoint remove_each (tokens : list Z) (m : PendingFiles) : PendingFiles * list (option NewFile) :=
  match tokens with
  | [] => (m, [])
  | t :: tokens => let '(m', taken) := remove_each tokens (delete t m) in (m', (m !! t) :: taken)
  end.
Definition take_files (tokens : list Z) (m : PendingFiles) : PendingFiles * result ClientError (list NewFile) :=
  let '(m, taken) := remove_each tokens m in (m, ok_or file_gone (mapM (fun x => x) taken)).
Definition discard (tokens : list Z) (m : PendingFiles) : PendingFiles := foldl (fun m t => delete t m) m tokens.

(** ** clipboard.rs *)

(** The clipboard of the system: opening it may fail, as may setting its
    text; its text may be unreadable. *)
Class Clip (W : Type) := {
  clip_open : W -> bool;
  clip_set : list Z -> W -> W * bool;
  clip_text : W -> option (list Z);
  clip_clear : W -> W;
}.
Record ClipboardGuard := { opened : bool; clip_generation : Z; owned_digest : option (list Z) }.
Definition clipboard_default : ClipboardGuard := {| opened := false; clip_generation := 0; owned_digest := None |}.

Section Clipboard.
Context `{C : Crypto} {W : Type} {CL : Clip W}.
Definition digest (text : list Z) : list Z := sha256 (utf8 text).

(** The generation a copy got is what its timer clears by. *)
Definition clip_copy (text : list Z) (s : ClipboardGuard * W) : (ClipboardGuard * W) * option Z :=
  let '(g, w) := s in
  if negb (opened g) && negb (clip_open w) then (s, None)
  else
    let g := {| opened := true; clip_generation := clip_generation g; owned_digest := owned_digest g |} in
    let '(w, ok) := clip_set text w in
    if negb (ok : bool) then ((g, w), None)
    else
      let n := u64_wrapping_add (clip_generation g) 1 in
      (({| opened := true; clip_generation := n; owned_digest := Some (digest text) |}, w), Some n).

Definition clear_if_owned (generation : option Z) (s : ClipboardGuard * W) : ClipboardGuard * W :=
  let '(g, w) := s in
  if match generation with Some n => negb (n =? clip_generation g) | None => false end then s
  else
    match owned_digest g with
    | None => s
    | Some expected =>
        let g := {| opened := opened g; clip_generation := clip_generation g; owned_digest := None |} in
        if negb (opened g) then (g, w)
        else
          match clip_text w with
          | Some c => if bool_decide (digest c = expected) then (g, clip_clear w) else (g, w)
          | None => (g, w)
          end
    end.
End Clipboard.

(** ** qr_scan.rs *)

Definition MAX_PIXELS : Z := 64000000.
Record Frame := { fr_width : Z; fr_height : Z; rgba : list Z }.
Inductive ScanError := ScanNotFound | ScanNotTotp | ScanCapture.
Definition scan_error `{ShortcutLib} (e : ScanError) : ClientError :=
  match e with
  | ScanNotFound =>
      if macos then fixed "qr_not_found_macos" "No QR code found. Make sure it's fully visible on screen. If this is the first scan, allow HavenKeys in System Settings → Privacy & Security → Screen Recording."
      else fixed "qr_not_found" "No QR code found. Make sure it's fully visible on screen."
  | ScanNotTotp => fixed "qr_not_totp" "The QR code isn't a one-time code setup."
  | ScanCapture => fixed "screen_capture" "Could not capture the screen."
  end.

(** The text of every QR code in a greyscale image. *)
Class QrTexts := qr_texts : list Z -> Z -> Z -> list (list Z).

Definition luma (r g b a : Z) : Z :=
  let y := (r * 299 + g * 587 + b * 114) / 1000 in ((y * a + 255 * (255 - a)) / 255) mod 256.
(** [chunks_exact(4).map(luma)]. *)
Fixpoint greys (px : list Z) : list Z :=
  match px with r :: g :: b :: a :: px => luma r g b a :: greys px | _ => [] end.

Section Scan.
Context `{U : Unicode} `{UL : UrlLib} `{L : TotpLib} `{Q : QrTexts}.

Record Decoded := { d_codes : list ScannedCode; d_saw_qr : bool; d_seen : list (list Z * TotpAlgorithm * Z * Z) }.
Definition nothing_decoded : Decoded := {| d_codes := []; d_saw_qr := false; d_seen := [] |}.

Definition TOTP_PREFIX : list Z := lit "otpauth://totp".
Definition decode_text (d : Decoded) (text : list Z) : Decoded :=
  let d := {| d_codes := d_codes d; d_saw_qr := true; d_seen := d_seen d |} in
  if negb (eq_ignore_ascii_case (take (length TOTP_PREFIX) text) TOTP_PREFIX) then d
  else
    match parse_totp_input text with
    | Err _ => d
    | Ok config =>
        let k := (secret config, algorithm config, digits config, period config) in
        if bool_decide (k ∈ d_seen d) then d
        else {| d_codes := d_codes d ++ [{| sc_uri := text; sc_issuer := issuer config; sc_account := Totp.account config |}];
                d_saw_qr := true; d_seen := d_seen d ++ [k] |}
    end.

Definition decode_frame (s : Decoded * Z) (f : Frame) : Decoded * Z :=
  let '(d, budget) := s in
  let pixels := fr_width f * fr_height f in
  if (fr_width f =? 0) || (fr_height f =? 0) || (budget <? pixels) || (u64_max <? 4 * pixels)
     || negb (len (rgba f) =? 4 * pixels)
  then s
  else (foldl decode_text d (qr_texts (greys (rgba f)) (fr_width f) (fr_height f)), budget - pixels).
Definition decode_frames (frames : list Frame) (max_pixels : Z) : Decoded :=
  (foldl decode_frame (nothing_decoded, max_pixels) frames).1.

(** The clipboard first; the screen only if that gave no code. *)
Definition scan (clipboard : option Frame) (screens : result ScanError (list Frame)) : result ScanError (list ScannedCode) :=
  let first := match clipboard with Some f => decode_frames [f] MAX_PIXELS | None => nothing_decoded end in
  match d_codes first with
  | _ :: _ => Ok (d_codes first)
  | [] =>
      frames ← screens;
      let found := decode_frames frames MAX_PIXELS in
      match d_codes found with
      | _ :: _ => Ok (d_codes found)
      | [] => Err (if d_saw_qr first || d_saw_qr found then ScanNotTotp else ScanNotFound)
      end
  end.
End Scan.

(** ** item_input.rs *)

Inductive TotpUpdate := TuKeep | TuSet (v : list Z) | TuClear | TuScanned (token : list Z).
Inductive FieldValueWire :=
| FwText (v : list Z)
| FwUrl (v : list Z)
| FwEmail (v : list Z)
| FwPhone (v : list Z)
| FwDate (v : list Z)
| FwAddress (a : AddressValue)
| FwPassword (u : SecretUpdate)
| FwOtp (u : TotpUpdate).
Record FieldWire := { fw_id : option Z; fw_label : list Z; fw_value : FieldValueWire }.
Record SectionWire := { sw_id : option Z; sw_title : option (list Z); sw_fields : list FieldWire }.
Record ItemInputWire := {
  iw_type : ItemType;
  iw_title : list Z;
  iw_tags : option (list (list Z));
  iw_username : option (list Z);
  iw_urls : list UrlRule;
  iw_password : SecretUpdate;
  iw_totp : TotpUpdate;
  iw_notes : SecretUpdate;
  iw_content : SecretUpdate;
  iw_auto_sign_in : option bool;
  iw_sign_in_with : option SignInWith;
  iw_identity : option IdentityFields;
  iw_card : option CardInput;
  iw_bank : option BankAccountInput;
  iw_sections : option (list SectionWire);
}.

Definition scan_expired : ClientError := fixed "scan_expired" "The scanned code expired. Scan it again.".
Definition is_scanned (u : TotpUpdate) : bool := match u with TuScanned _ => true | _ => false end.
Definition otp_updates (s : SectionWire) : list TotpUpdate :=
  omap (fun f => match fw_value f with FwOtp u => Some u | _ => None end) (sw_fields s).
Definition uses_scan (i : ItemInputWire) : bool :=
  is_scanned (iw_totp i) || existsb (fun s => existsb is_scanned (otp_updates s)) (default [] (iw_sections i)).

Section Resolve.
Context (s : ScanSlot) (now : Z).
Definition resolve_totp (u : TotpUpdate) : result ClientError SecretUpdate :=
  match u with
  | TuKeep => Ok Keep
  | TuSet v => Ok (SetTo v)
  | TuClear => Ok Clear
  | TuScanned token => uri ← ok_or scan_expired (scan_get token now s); Ok (SetTo uri)
  end.
(** [try_map_otp], of a value, a field and a section. *)
Definition resolve_value (v : FieldValueWire) : result ClientError FieldValueInput :=
  match v with
  | FwText v => Ok (FText v)
  | FwUrl v => Ok (FUrl v)
  | FwEmail v => Ok (FEmail v)
  | FwPhone v => Ok (FPhone v)
  | FwDate v => Ok (FDate v)
  | FwAddress a => Ok (FAddress a)
  | FwPassword u => Ok (FPassword u)
  | FwOtp u => u ← resolve_totp u; Ok (FOtp u)
  end.
Definition resolve_field (f : FieldWire) : result ClientError FieldInput :=
  v ← resolve_value (fw_value f); Ok {| i_id := fw_id f; i_label := fw_label f; i_value := v |}.
Definition resolve_section (x : SectionWire) : result ClientError SectionInput :=
  fields ← mapM_result resolve_field (sw_fields x);
  Ok {| si_id := sw_id x; si_title := sw_title x; si_fields := fields |}.
Definition resolve (i : ItemInputWire) : result ClientError ItemInput :=
  t ← resolve_totp (iw_totp i);
  sections ← (match iw_sections i with
              | Some l => l ← mapM_result resolve_section l; Ok (Some l)
              | None => Ok None
              end : result ClientError (option (list SectionInput)));
  Ok {| in_type := iw_type i; in_title := iw_title i; in_username := iw_username i; in_urls := iw_urls i;
        in_password := iw_password i; in_totp := t; in_notes := iw_notes i; in_content := iw_content i;
        in_auto_sign_in := iw_auto_sign_in i; in_sign_in_with := iw_sign_in_with i; in_identity := iw_identity i;
        in_card := iw_card i; in_bank := iw_bank i; in_sections := sections; in_tags := iw_tags i |}.
End Resolve.

(** ** Chords *)

Section ChordFacts.
Context {SL : ShortcutLib}.

(** A chord is read only under the one spelling it is written with. *)
Lemma parse_keys_spelling k s : parse_keys k = Ok s -> keys_of s = k.
Proof.
  unfold parse_keys. destruct (_ <? _); [done|]. intros (p & _ & H)%bind_Ok.
  destruct (bool_decide (canonical p = Some k)) eqn:Ec; [|done]. apply bool_decide_eq_true in Ec. cbn [negb] in H.
  destruct (negb _); [done|]. destruct (bool_decide _); [done|]. injection H as <-. unfold keys_of. by rewrite Ec.
Qed.

(** A chord the rules let through, or the default. *)
Definition chord_ok (s : Shortcut) : Prop := s = default_shortcut \/ parse_keys (keys_of s) = Ok s.
Lemma proposed_ok k s : proposed k = Ok s -> chord_ok s.
Proof.
  destruct k as [k|]; cbn; [|intros [= <-]; by left]. intros Hk. right. by rewrite (parse_keys_spelling _ _ Hk).
Qed.
Lemma chord_chord_ok st : chord_ok (chord st).
Proof.
  unfold chord. destruct (q_shortcut_keys st) as [k|]; [|by left].
  destruct (parse_keys k) as [s|] eqn:Ek; [by apply (proposed_ok (Some k))|by left].
Qed.
Lemma chord_stored on s : chord_ok s -> chord {| q_shortcut := on; q_shortcut_keys := stored_keys s |} = s.
Proof.
  intros Hs. unfold chord, stored_keys. cbn [q_shortcut_keys]. case_bool_decide as Ed; [done|]. destruct Hs as [|Hs]; [done|]. by rewrite Hs.
Qed.
End ChordFacts.

(** ** The shortcut the system holds, the setting on disk and what Settings
    shows never disagree *)

(** What the shortcuts of the system and the files do. *)
Class HostLaws (W : Type) {D : Disk W} {SH : ShortcutHost W} := {
  held : W -> Shortcut -> Prop;
  register_held : forall s w w' given t, register s w = (w', given) -> held w' t <-> held w t \/ (given = true /\ t = s);
  unregister_held : forall s w t, held (unregister s w) t <-> held w t /\ t <> s;
  register_disk : forall s w w' given n, register s w = (w', given) -> disk_read n w' = disk_read n w;
  unregister_disk : forall s w n, disk_read n (unregister s w) = disk_read n w;
  remove_held : forall n w t, held (disk_remove n w) t <-> held w t;
  create_held : forall n b w w' ok t, disk_create n b w = (w', ok) -> held w' t <-> held w t;
  rename_held : forall a b w w' ok t, disk_rename a b w = (w', ok) -> held w' t <-> held w t;
  remove_read : forall n m w, m <> n -> disk_read m (disk_remove n w) = disk_read m w;
  create_read : forall n b w w' ok, disk_create n b w = (w', ok) ->
    (ok = true -> disk_read n w' = Some b) /\ forall m, m <> n -> disk_read m w' = disk_read m w;
  rename_read : forall a b w w' ok, disk_rename a b w = (w', ok) ->
    if ok : bool then disk_read b w' = disk_read a w else forall m, disk_read m w' = disk_read m w;
}.

Section Registered.
Context {SL : ShortcutLib} {W : Type} {D : Disk W} {SH : ShortcutHost W} {SC : Codec QuickAccessSetting}.
Context {HL : HostLaws W} {SCL : CodecLaws QuickAccessSetting}.

Lemma quick_save_ok st w w' ok : quick_save st w = (w', ok) ->
  (forall t, held w' t <-> held w t) /\
  disk_read QUICK_FILE w' = if ok then Some (to_json st) else disk_read QUICK_FILE w.
Proof.
  unfold quick_save, write_renamed. assert (QUICK_FILE <> QUICK_TMP) as Hne by (by vm_compute).
  destruct (disk_create _ _ _) as [w1 made] eqn:Ec.
  pose proof (fun t => create_held _ _ _ _ _ t Ec) as Hh. destruct (create_read _ _ _ _ _ Ec) as [Hm Ho].
  destruct made.
  - intros Er. pose proof (rename_read _ _ _ _ _ Er) as Hr. split.
    + intros t. by rewrite (rename_held _ _ _ _ _ t Er), Hh, remove_held.
    + destruct ok; [by rewrite Hr, Hm|]. by rewrite Hr, Ho, remove_read.
  - intros [= <- <-]. split; [intros t; by rewrite Hh, remove_held|]. by rewrite Ho, remove_read.
Qed.

(** The app would start again with the switch and chord it has. *)
Definition remembered (w : W) (r : Registration) : Prop :=
  q_shortcut (quick_load w) = r_enabled r /\ chord (quick_load w) = r_shortcut r.
Definition in_step (s : QuickAccess * W) : Prop :=
  let r := registration s.1 in
  (forall t, held s.2 t <-> r_registered r = true /\ t = r_shortcut r) /\
  (r_registered r = true -> r_enabled r = true /\ r_in_use r = false) /\
  chord_ok (r_shortcut r) /\ remembered s.2 r.

Lemma remembered_saved on c w r : disk_read QUICK_FILE w = Some (to_json {| q_shortcut := on; q_shortcut_keys := stored_keys c |}) ->
  chord_ok c -> r_enabled r = on -> r_shortcut r = c -> remembered w r.
Proof.
  intros Hf Hc <- <-. unfold remembered, quick_load, load_json. rewrite Hf. cbn. rewrite json_roundtrip. cbn.
  split; [done|by apply chord_stored].
Qed.
Lemma remembered_same w w' r r' : disk_read QUICK_FILE w' = disk_read QUICK_FILE w ->
  r_enabled r' = r_enabled r -> r_shortcut r' = r_shortcut r -> remembered w r -> remembered w' r'.
Proof. unfold remembered, quick_load, load_json. by intros -> -> ->. Qed.

(** The three calls.  [quick_apply] also runs from a switch just turned. *)
Lemma apply_in_step q w :
  let r := registration q in
  (forall t, held w t <-> r_registered r = true /\ t = r_shortcut r) ->
  (r_registered r = true -> r_in_use r = false) -> chord_ok (r_shortcut r) -> remembered w r ->
  in_step (quick_apply (q, w)).
Proof.
  intros r. subst r. intros Hh Hu Hc Hm. unfold quick_apply.
  destruct (r_enabled (registration q)) eqn:Ee, (r_registered (registration q)) eqn:Er; cbn [andb negb].
  - unfold in_step. cbn. rewrite Er, Ee. split_and!; auto.
  - destruct (register (r_shortcut (registration q)) w) as [w' given] eqn:Eg. unfold in_step. cbn. rewrite Ee. split_and!.
    + intros t. rewrite (register_held _ _ _ _ t Eg), Hh. naive_solver.
    + by intros ->.
    + done.
    + by eapply remembered_same; [by eapply register_disk| | |exact Hm].
  - unfold in_step. cbn. split_and!; [|done|done|by eapply remembered_same; [apply unregister_disk| | |exact Hm]].
    intros t. rewrite unregister_held, Hh. naive_solver.
  - unfold in_step. cbn. split_and!; [|done|done|by eapply remembered_same; [| | |exact Hm]].
    intros t. rewrite Hh. naive_solver congruence.
Qed.

Lemma set_in_step on s : in_step s -> in_step (quick_set on s).1.
Proof.
  destruct s as [q w]. intros (Hh & Hr & Hc & Hm). cbn [fst snd] in *. unfold quick_set.
  destruct (quick_save _ w) as [w' saved] eqn:Es. apply quick_save_ok in Es as [Hh' Hf].
  destruct saved; cbn [negb fst].
  - apply apply_in_step; cbn; [|by intros [_ ?]%Hr|done|by eapply remembered_saved].
    intros t. by rewrite Hh', Hh.
  - unfold in_step. cbn. split_and!; [intros t; by rewrite Hh', Hh|done|done|by eapply remembered_same].
Qed.

Lemma rebind_in_step k s : in_step s -> in_step (set_shortcut k s).1.
Proof.
  destruct s as [q w]. intros Hin. unfold set_shortcut. destruct (proposed k) as [next|] eqn:Ep; [|done].
  apply proposed_ok in Ep. pose proof Hin as (Hh & Hr & Hc & Hm). cbn [fst snd] in *.
  case_bool_decide as En.
  { destruct (_ && _); [|done]. apply apply_in_step; [done|by intros [_ ?]%Hr|done|done]. }
  destruct (r_enabled (registration q)) eqn:Ee.
  - destruct (register next w) as [w1 given] eqn:Eg. pose proof (fun t => register_held _ _ _ _ t Eg) as Hg.
    assert (disk_read QUICK_FILE w1 = disk_read QUICK_FILE w) as Hd by (by eapply register_disk).
    destruct given; cbn [negb].
    2: { unfold in_step. cbn. split_and!; [intros t; rewrite Hg, Hh; naive_solver|by intros [_ ?]%Hr|done|by eapply remembered_same]. }
    destruct (quick_save _ w1) as [w2 saved] eqn:Es. apply quick_save_ok in Es as [Hh2 Hf2]. destruct saved; cbn [negb].
    + unfold in_step. cbn. rewrite Ee. split_and!; [|done|done|].
      * intros t. destruct (r_registered _) eqn:Er; [rewrite unregister_held|]; rewrite Hh2, Hg, Hh; naive_solver.
      * apply (remembered_saved true next); [|done..].
        destruct (r_registered _); [by rewrite unregister_disk|done].
    + unfold in_step. cbn. rewrite Ee. split_and!; [|done|done|].
      * intros t. rewrite unregister_held, Hh2, Hg, Hh. naive_solver.
      * eapply remembered_same; [|done..|exact Hm]. by rewrite unregister_disk, Hf2.
  - destruct (quick_save _ w) as [w2 saved] eqn:Es. apply quick_save_ok in Es as [Hh2 Hf2].
    assert (r_registered (registration q) = false) as Er by (destruct (r_registered _); [by destruct Hr|done]).
    destruct saved; cbn [negb].
    + unfold in_step. cbn. rewrite Ee. split_and!; [|done|done|by eapply remembered_saved].
      intros t. rewrite Hh2, Hh, Er. naive_solver.
    + unfold in_step. cbn. rewrite Ee. split_and!; [intros t; by rewrite Hh2, Hh|by rewrite Er|done|].
      by eapply remembered_same; [exact Hf2|by rewrite ?Ee| |exact Hm].
Qed.

(** The calls in any order, with the window's notes and whatever else
    happens on the computer in between. *)
Inductive quick_step : QuickAccess * W -> QuickAccess * W -> Prop :=
| step_apply s : quick_step s (quick_apply s)
| step_set on s : quick_step s (quick_set on s).1
| step_rebind k s : quick_step s (set_shortcut k s).1
| step_note q q' w : registration q' = registration q -> quick_step (q, w) (q', w)
| step_world q w w' : (forall t, held w' t <-> held w t) -> disk_read QUICK_FILE w' = disk_read QUICK_FILE w ->
    quick_step (q, w) (q, w').

Lemma step_in_step s s' : in_step s -> quick_step s s' -> in_step s'.
Proof.
  intros Hin Hs. destruct Hs as [[q w]|on s|k s|q q' w Hq|q w w' Hh Hd].
  - destruct Hin as (Hh & Hr & Hc & Hm). apply apply_in_step; [done|by intros [_ ?]%Hr|done|done].
  - by apply set_in_step.
  - by apply rebind_in_step.
  - unfold in_step in *. cbn in *. by rewrite Hq.
  - destruct Hin as (Hh' & Hr & Hc & Hm). split_and!; [intros t; cbn; by rewrite Hh, Hh'|done|done|by eapply remembered_same].
Qed.

(** From a start where the app holds no shortcut, whatever calls follow
    in whatever order, whichever are refused by the system or fail to write
    the file: the system holds for the app exactly the chord that is shown as
    registered, and only while the switch is on; the chord passes the rules;
    and the file would bring back the switch and the chord as they are. *)
Lemma shortcut_in_step w q' w' :
  (forall t, ~ held w t) -> rtc quick_step (quick_new w, w) (q', w') -> in_step (q', w').
Proof.
  intros Hw Hrun. assert (in_step (quick_new w, w)) as Hin.
  { split; [|split; [by intros [=]|split; [apply chord_chord_ok|by split]]].
    intros t. split; [by intros ?%Hw|by intros [? _]]. }
  revert Hin. induction Hrun as [|x y z Hs _ IH]; [done|]. intros Hin. by eapply IH, step_in_step.
Qed.
End Registered.

(** ** The question to the user *)

(** What the first word on a pending question is. *)
Fixpoint verdict (id : Z) (during : list Meanwhile) : bool :=
  match during with
  | [] => false
  | MwAnswer i allow :: during => if i =? id then allow else verdict id during
  | MwCancel :: _ => false
  | MwBegin _ :: during => verdict id during
  end.

Lemma meanwhile_done during p id : slot p <> Some id ->
  (forall i, MwBegin i ∈ during -> i <> id) -> answers (foldl meanwhile p during) !! id = answers p !! id.
Proof.
  revert p. induction during as [|e during IH]; intros p Hs Hb; [done|]. cbn [foldl].
  assert (slot (meanwhile p e) <> Some id /\ answers (meanwhile p e) !! id = answers p !! id) as [Hs' <-].
  { destruct e as [i allow| |i]; cbn [meanwhile].
    - unfold confirm_answer. case_bool_decide as Ei; [|done]. cbn. split; [done|]. unfold try_send.
      destruct (answers p !! i) eqn:Ea; [done|]. rewrite lookup_insert_ne; congruence.
    - unfold confirm_cancel. destruct (slot p) as [i|] eqn:Ei; [|by rewrite Ei]. cbn. split; [done|]. unfold try_send.
      destruct (answers p !! i) eqn:Ea; [done|]. rewrite lookup_insert_ne; congruence.
    - unfold confirm_begin. destruct (slot p) as [j|] eqn:Ej; cbn; [by rewrite Ej|]. split; [|done].
      intros [= ->]. by eapply (Hb id); [left|]. }
  apply IH; [done|]. intros i Hi. apply Hb. by right.
Qed.

Lemma meanwhile_verdict during p id : slot p = Some id -> answers p !! id = None ->
  (forall i, MwBegin i ∈ during -> i <> id) -> wait id (foldl meanwhile p during) = verdict id during.
Proof.
  intros Hs Ha Hb. revert p Hs Ha. induction during as [|e during IH]; intros p Hs Ha; [unfold wait; cbn; by rewrite Ha|].
  assert (forall i, MwBegin i ∈ during -> i <> id) as Hb' by (intros i Hi; apply Hb; by right). cbn [foldl].
  assert (forall b, wait id (foldl meanwhile {| slot := None; answers := try_send id b (answers p) |} during) = b) as Hsent.
  { intros b. unfold wait. rewrite meanwhile_done by done. cbn. unfold try_send. by rewrite Ha, lookup_insert_eq. }
  destruct e as [i allow| |i]; cbn [meanwhile verdict].
  - unfold confirm_answer. rewrite Hs. destruct (Z.eqb_spec i id) as [->|Hi].
    + rewrite bool_decide_eq_true_2 by done. apply Hsent.
    + rewrite bool_decide_eq_false_2 by congruence. by apply IH.
  - unfold confirm_cancel. rewrite Hs. apply Hsent.
  - unfold confirm_begin. rewrite Hs. by apply IH.
Qed.

(** C40: a change is allowed only by the user's Allow of the very question
    shown for it, given before any lock or closed window: not while another
    question is pending, not from a locked vault, not unseen, not by an
    answer to another question, and never by silence.  The question is over
    when the wait is, and one that was pending is left alone. *)
Theorem confirm_needs_allow id unlocked shown during p :
  answers p !! id = None -> (forall i, MwBegin i ∈ during -> i <> id) ->
  let '(p', allowed, _) := confirm_run id unlocked shown during p in
  allowed = (is_none (slot p) && unlocked && shown && verdict id during) /\
  match slot p with Some other => p' = p | None => slot p' <> Some id end.
Proof.
  intros Ha Hb. unfold confirm_run, confirm_begin. destruct (slot p) as [other|] eqn:Es; [done|].
  assert (forall q, slot (confirm_finish id q) <> Some id) as Hf.
  { intros q. unfold confirm_finish. by case_bool_decide. }
  destruct unlocked; cbn [negb is_none andb]; [|by split; [|apply Hf]].
  destruct shown; cbn [andb]; (split; [|apply Hf]); [|done]. by apply meanwhile_verdict.
Qed.

(** ** What waits for a save *)

(** A scanned code is found only under its token and while it is fresh. *)
Lemma scan_get_fresh token now s uri : scan_get token now s = Some uri ->
  exists e, e ∈ s /\ se_token e = token /\ se_uri e = uri /\ now - se_created e < SCAN_TTL.
Proof.
  unfold scan_get. destruct (List.find _ s) as [e|] eqn:Ef; [|done]. cbn.
  apply find_some in Ef as [Hin%list_elem_of_In Ht%bool_decide_eq_true].
  destruct (Z.ltb_spec (Z.max 0 (now - se_created e)) SCAN_TTL); [|done]. intros [= <-]. exists e. split_and!; [done..|lia].
Qed.
Lemma scan_add_bounded codes draws now s s' r : (length s <= MAX_HELD)%nat -> scan_add codes draws now s = (s', Ok r) ->
  (length s' <= MAX_HELD)%nat.
Proof.
  intros _. unfold scan_add. destruct (scan_push _ _ _ _ _) as [s1 [p|]]; [|done]. intros [= <- <-]. rewrite length_drop. lia.
Qed.

(** Files taken for a save are gone, whether or not the save goes through. *)
Lemma remove_each_gone tokens m t : t ∈ tokens \/ m !! t = None -> (remove_each tokens m).1 !! t = None.
Proof.
  revert m. induction tokens as [|u tokens IH]; intros m Ht; cbn [remove_each].
  - by destruct Ht as [?%elem_of_nil|].
  - destruct (remove_each tokens (delete u m)) as [m' taken] eqn:E. cbn. change m' with (m', taken).1. rewrite <- E.
    apply IH. destruct Ht as [[->|Ht]%elem_of_cons|Ht]; [right; apply lookup_delete_eq|by left|right].
    apply lookup_delete_None. by right.
Qed.
Lemma taken_files_gone tokens m : forall t, t ∈ tokens -> (take_files tokens m).1 !! t = None.
Proof.
  intros t Ht. pose proof (remove_each_gone tokens m t (or_introl Ht)) as Hg. unfold take_files.
  by destruct (remove_each tokens m).
Qed.

(** ** The clipboard *)

Section ClipboardFacts.
Context `{C : Crypto} {W : Type} {CL : Clip W}.

(** Nothing is ever cleared but a text whose digest is the one last copied
    from here, and by a timer only if nothing was copied since. *)
Lemma clears_only_its_own gen g (w : W) g' w' : clear_if_owned gen (g, w) = (g', w') ->
  w' = w \/ (w' = clip_clear w /\ exists text, clip_text w = Some text /\ owned_digest g = Some (digest text) /\
             forall n, gen = Some n -> n = clip_generation g).
Proof.
  unfold clear_if_owned. destruct (match gen with Some n => _ | None => _ end) eqn:Eg; [intros [= _ <-]; by left|].
  destruct (owned_digest g) as [d|]; [|intros [= _ <-]; by left]. cbn [opened]. destruct (opened g); cbn [negb]; [|intros [= _ <-]; by left].
  destruct (clip_text w) as [c|]; [|intros [= _ <-]; by left].
  case_bool_decide as Ed; intros [= _ <-]; [right|by left]. split; [done|]. exists c. split_and!; [done|by rewrite Ed|].
  intros n ->. by apply negb_false_iff, Z.eqb_eq in Eg.
Qed.
(** A copy that is still there when its timer ends, or at a lock, goes. *)
Lemma own_copy_cleared text (g : ClipboardGuard) (w : W) s n : clip_copy text (g, w) = (s, Some n) ->
  clip_text s.2 = Some text -> forall gen, gen = None \/ gen = Some n -> (clear_if_owned gen s).2 = clip_clear s.2.
Proof.
  unfold clip_copy. destruct (_ && _); [done|]. cbn [opened clip_generation owned_digest].
  destruct (clip_set text w) as [w1 [|]]; [|done]. intros [= <- <-]. cbn [fst snd]. intros Ht gen Hg. unfold clear_if_owned.
  cbn [clip_generation owned_digest opened].
  replace (match gen with Some n => _ | None => false end) with false by (destruct Hg as [->| ->]; [done|by rewrite Z.eqb_refl]).
  cbn [negb]. rewrite Ht. by rewrite bool_decide_eq_true_2.
Qed.
End ClipboardFacts.

(** ** Updates *)

(** An install begins only from an offer, and only once; a check in the
    background that fails takes no offer away. *)
Lemma install_needs_offer m m' v : begin_install m = (m', Some v) ->
  (exists notes, phase m = PhAvailable v notes) /\ (begin_install m').2 = None /\ (begin_check m').2 = false.
Proof. unfold begin_install. destruct (phase m) eqn:Ep; try done. intros [= <- <-]. split; [by eexists|done]. Qed.
Lemma failed_check_keeps_offer m v notes : phase m = PhAvailable v notes ->
  (begin_check m).2 = true /\ phase (finish_check CheckFailed false (begin_check m).1) = PhAvailable v notes.
Proof. unfold begin_check. by intros ->. Qed.

(** ** A desktop whose file cannot be written once *)

Module ToyDesktop.
Record World := { files : gmap (list Z) (list Z); ours : list Shortcut; theirs : list Shortcut; full : bool }.
Definition toy_read (n : list Z) (w : World) : option (list Z) := files w !! n.
Definition with_files (f : gmap (list Z) (list Z)) (w : World) : World :=
  {| files := f; ours := ours w; theirs := theirs w; full := full w |}.
Definition with_ours (l : list Shortcut) (w : World) : World :=
  {| files := files w; ours := l; theirs := theirs w; full := full w |}.
#[export] Instance toy_disk : Disk World :=
  {| disk_read := toy_read; disk_remove := fun n w => with_files (delete n (files w)) w;
     disk_create := fun n b w => if full w then (w, false) else (with_files (<[n := b]> (files w)) w, true);
     disk_rename := fun a b w => match files w !! a with
                                 | Some x => (with_files (<[b := x]> (files w)) w, true)
                                 | None => (w, false)
                                 end |}.
#[export] Instance toy_host : ShortcutHost World :=
  {| register := fun s w => if bool_decide (s ∈ theirs w) then (w, false) else (with_ours (s :: ours w) w, true);
     unregister := fun s w => with_ours (filter (fun t => t <> s) (ours w)) w |}.
#[export, program] Instance toy_laws : HostLaws World := {| held w t := t ∈ ours w |}.
Next Obligation. cbn. intros s w w' given t. case_bool_decide; intros [= <- <-]; cbn; set_solver. Qed.
Next Obligation. cbn. intros s w t. rewrite list_elem_of_filter. tauto. Qed.
Next Obligation. cbn. intros s w w' given n. case_bool_decide; by intros [= <- <-]. Qed.
Next Obligation. done. Qed.
Next Obligation. done. Qed.
Next Obligation. cbn. intros n b w w' ok t. destruct (full w); by intros [= <- _]. Qed.
Next Obligation. cbn. intros a b w w' ok t. destruct (files w !! a); by intros [= <- _]. Qed.
Next Obligation. cbn. unfold toy_read. cbn. intros n m w Hn. by apply lookup_delete_ne. Qed.
Next Obligation.
  cbn. unfold toy_read. intros n b w w' ok. destruct (full w); intros [= <- <-]; [done|]. cbn.
  split; [intros _; by rewrite lookup_insert_eq|]. intros m Hm. by apply lookup_insert_ne.
Qed.
Next Obligation.
  cbn. unfold toy_read. intros a b w w' ok. destruct (files w !! a) as [x|] eqn:Ea; intros [= <- <-]; [|done].
  cbn. by rewrite lookup_insert_eq.
Qed.

(** One flag for each of the four modifiers, then the key's place. *)
Definition flag (b : bool) : Z := if b then 1 else 0.
Definition spelled (k : list Z) : option Shortcut :=
  snd <$> List.find (fun p => bool_decide (p.1 = k))
    (p ← ALLOWED_KEYS; a ← [true; false]; b ← [true; false]; c ← [true; false]; d ← [true; false];
     let s := {| mods := {| SUPER := a; CONTROL := b; ALT := c; SHIFT := d; other_mods := 0 |}; key := p.1 |} in
     [(concat [if a : bool then lit "Super+" else []; if b : bool then lit "Control+" else [];
               if c : bool then lit "Alt+" else []; if d : bool then lit "Shift+" else []; p.2], s)]).
#[export] Instance toy_keys : ShortcutLib := {| macos := false; shortcut_parse := spelled |}.
#[export] Instance toy_setting : Codec QuickAccessSetting :=
  {| to_json := fun s => flag (q_shortcut s) :: match q_shortcut_keys s with Some k => 1 :: k | None => [0] end;
     from_json := fun l => match l with
                           | on :: 1 :: k => Some {| q_shortcut := on =? 1; q_shortcut_keys := Some k |}
                           | [on; 0] => Some {| q_shortcut := on =? 1; q_shortcut_keys := None |}
                           | _ => None
                           end |}.
#[export] Instance toy_setting_laws : CodecLaws QuickAccessSetting.
Proof. intros [[] [k|]]; reflexivity. Qed.

Definition w0 : World := {| files := ∅; ours := []; theirs := []; full := false |}.
Definition start : QuickAccess * World := (quick_new w0, w0).
Definition rebound : QuickAccess * World := (set_shortcut (Some (lit "Alt+K")) (quick_apply start)).1.

Lemma rebound_holds : ours rebound.2 = [{| mods := {| SUPER := false; CONTROL := false; ALT := true; SHIFT := false;
                                                       other_mods := 0 |}; key := Code.KeyK |}].
Proof. vm_compute. reflexivity. Qed.

Lemma shortcut_in_step_witness : (forall t, ~ held w0 t) /\ in_step rebound.
Proof.
  assert (forall t, ~ held w0 t) as Hw by (intros t Ht; inversion Ht). split; [exact Hw|].
  assert (rtc quick_step start rebound) as Hrun.
  { apply (rtc_l _ start (quick_apply start)); [apply step_apply|]. apply rtc_once. exact (step_rebind (Some (lit "Alt+K")) (quick_apply start)). }
  rewrite (surjective_pairing rebound) in Hrun |- *.
  exact (shortcut_in_step w0 rebound.1 rebound.2 Hw Hrun).
Defined.

Lemma confirm_needs_allow_witness :
  (confirm_run 7 true true [MwAnswer 6 true; MwAnswer 7 true; MwCancel] no_confirmation).1.2 = true /\
  (confirm_run 7 true true [MwCancel; MwAnswer 7 true] no_confirmation).1.2 = false.
Proof.
  split.
  - destruct (confirm_run 7 true true [MwAnswer 6 true; MwAnswer 7 true; MwCancel] no_confirmation) as [[p a] c] eqn:E.
    pose proof (confirm_needs_allow 7 true true [MwAnswer 6 true; MwAnswer 7 true; MwCancel] no_confirmation) as H.
    rewrite E in H. destruct H as [-> _]; [reflexivity|intros i Hi; repeat (apply elem_of_cons in Hi as [[=]|Hi]); by apply elem_of_nil in Hi|reflexivity].
  - vm_compute. reflexivity.
Defined.
End ToyDesktop.
