(* ===== verification/Desktop.v ===== *)
(** * The desktop's commands (apps/desktop/src-tauri)

    state.rs and events.rs (the shared state, its auto-lock clock and what
    locking clears), quick_window.rs and quick_shortcut.rs, commands.rs,
    custom_field.rs, card.rs, bank.rs, identity.rs, health.rs, sync.rs,
    attachments.rs, import.rs, export.rs, account.rs, removal.rs, pairing.rs
    and emergency_kit.rs: every call the windows may make,
    over the client of Client.v and the pieces of DesktopParts.v.  A call is a
    computation over the state and the computer; an [await] ends with the
    client's answer.

    The account, pairing, export and restore commands run over Account.v's
    client, whose world is [Local W].  The generated password and its
    strength are left out. *)

From S2P Require Import Prelude Protocol Errors Text Blob Url Clean Tags Totp Card Identity.
From S2P Require Import Backup Import Staging Export ImportCsv ImportBitwarden ImportOnePux.
From S2P Require Import CustomField Bank Generator Sso Attachment Model Keys Store Lock Origin Health BuildItem.
From S2P Require Import Vault Items Page IdentityPage ToyCodec Sync Replica Activity CardPage Dates HealthVault.
From S2P Require Import AppTarget Cbor Passkey PasskeyVault Restore Encoding SecretKey Pairing Opaque Wire WireAccount.
From S2P Require Import Transport Device Client Account ClientPairing ClientFiles DesktopParts.

(** ** state.rs *)

Inductive DesktopEvent :=
| DeUnlocked
| DeLocked (reason : string)
| DeConnectivity (online : bool)
| DeSignedOut
| DeSynced (r : SyncReport)
| DePlanChanged
| DeItemsChanged
| DeRemoved (keychain_warning : option string)
| DeAccountDeleted (keychain_warning : option string)
| DeOpenItem (item : Z)
| DeShown (for_browser : bool)
| DeMainShown
| DeAppHidden
| DeConfirmClosed (id : Z).

(** A picked file: its directory and its name. *)
Record FilePath := { fp_dir : list Z; fp_name : list Z }.

Record AppState := {
  client_ : HavenClient;
  lock_manager : LockManager;
  clipboard : ClipboardGuard;
  last_import : option FilePath;
  totp_scan : list ScanEntry;
  confirm : PendingConfirmation;
  pending_files : gmap Z NewFile;
  (** [QuickAccess], and whether its window shows. *)
  quick : QuickAccess;
  quick_shown : bool;
  (** what the windows and the bridge were told *)
  emitted : list DesktopEvent;
  notified : list Protocol.Event;
}.

Definition with_client (c : HavenClient) (s : AppState) : AppState :=
  {| client_ := c; lock_manager := lock_manager s; clipboard := clipboard s; last_import := last_import s;
     totp_scan := totp_scan s; confirm := confirm s; pending_files := pending_files s; quick := quick s;
     quick_shown := quick_shown s; emitted := emitted s; notified := notified s |}.
Definition with_lock_manager (m : LockManager) (s : AppState) : AppState :=
  {| client_ := client_ s; lock_manager := m; clipboard := clipboard s; last_import := last_import s;
     totp_scan := totp_scan s; confirm := confirm s; pending_files := pending_files s; quick := quick s;
     quick_shown := quick_shown s; emitted := emitted s; notified := notified s |}.
Definition with_clipboard (g : ClipboardGuard) (s : AppState) : AppState :=
  {| client_ := client_ s; lock_manager := lock_manager s; clipboard := g; last_import := last_import s;
     totp_scan := totp_scan s; confirm := confirm s; pending_files := pending_files s; quick := quick s;
     quick_shown := quick_shown s; emitted := emitted s; notified := notified s |}.
(** [last_import], the scan slot, the question and the picked files. *)
Definition with_held (i : option FilePath) (t : list ScanEntry) (c : PendingConfirmation) (f : gmap Z NewFile) (s : AppState)
    : AppState :=
  {| client_ := client_ s; lock_manager := lock_manager s; clipboard := clipboard s; last_import := i; totp_scan := t;
     confirm := c; pending_files := f; quick := quick s; quick_shown := quick_shown s; emitted := emitted s;
     notified := notified s |}.
Definition with_scan (t : list ScanEntry) (s : AppState) : AppState := with_held (last_import s) t (confirm s) (pending_files s) s.
Definition with_confirm (c : PendingConfirmation) (s : AppState) : AppState :=
  with_held (last_import s) (totp_scan s) c (pending_files s) s.
Definition with_pending (f : gmap Z NewFile) (s : AppState) : AppState :=
  with_held (last_import s) (totp_scan s) (confirm s) f s.
Definition with_quick (q : QuickAccess) (shown : bool) (s : AppState) : AppState :=
  {| client_ := client_ s; lock_manager := lock_manager s; clipboard := clipboard s; last_import := last_import s;
     totp_scan := totp_scan s; confirm := confirm s; pending_files := pending_files s; quick := q; quick_shown := shown;
     emitted := emitted s; notified := notified s |}.
Definition emit (e : DesktopEvent) (s : AppState) : AppState :=
  {| client_ := client_ s; lock_manager := lock_manager s; clipboard := clipboard s; last_import := last_import s;
     totp_scan := totp_scan s; confirm := confirm s; pending_files := pending_files s; quick := quick s;
     quick_shown := quick_shown s; emitted := emitted s ++ [e]; notified := notified s |}.
Definition notify (e : Protocol.Event) (s : AppState) : AppState :=
  {| client_ := client_ s; lock_manager := lock_manager s; clipboard := clipboard s; last_import := last_import s;
     totp_scan := totp_scan s; confirm := confirm s; pending_files := pending_files s; quick := quick s;
     quick_shown := quick_shown s; emitted := emitted s; notified := notified s ++ [e] |}.

Definition KEYCHAIN_NOT_CLEARED_DELETED : string :=
  "The account was deleted, but HavenKeys could not delete the Secret Key from the system keychain. Delete the entry “app.havenkeys” yourself.".
Definition KEYCHAIN_NOT_CLEARED : string :=
  "This computer was removed, but HavenKeys could not delete the Secret Key from the system keychain. Delete the entry “app.havenkeys” yourself.".
Definition err_file : ClientError := fixed "file" "Could not read or delete the file.".
Definition err_clipboard : ClientError := fixed "clipboard" "Could not access the clipboard.".
Definition err_open_website : ClientError := fixed "open_website" "Could not open the website.".
Definition no_confirmation_error : ClientError := fixed "no_confirmation" "Nothing is waiting for this answer.".
Definition settings_failed : ClientError := fixed "quick_access_settings" "Could not save the Quick Access setting.".
Definition shortcut_refused (r : ShortcutRefusal) : ClientError :=
  fixed "quick_access_shortcut_invalid"
    match r with
    | RefusedModifier => "Add Cmd, Ctrl or Alt."
    | RefusedKey => "This key can't be used."
    | RefusedReserved => "Reserved by the system."
    end.

Definition DEFAULT_CLIPBOARD_CLEAR_SECS : Z := 30.

(** What a call draws. *)
Record DesktopDraws := {
  dd_item : Z;
  dd_new_id : nat -> Z;
  dd_file_ids : nat -> Z;
  dd_file_random : nat -> option (list Z);
  dd_tokens : nat -> option (list Z);
  dd_r1 : option (list Z);
  dd_r2 : option (list Z);
  dd_import : Staging.Draws;
  dd_restore : RestoreDraws;
  (** [KdfParams::generate], and a backup's nonces. *)
  dd_kdf : Result KdfParams;
  dd_nonces : nat -> option (list Z);
}.

(** The clocks ([mono] and [wall] as [Duration]s), the random source, the
    default browser, the QR sources, and whether the main window had the
    keyboard. *)
Class DesktopHost (W : Type) := {
  mono : W -> Z;
  wall : W -> Z;
  desktop_draws : W -> W * DesktopDraws;
  open_url : list Z -> W -> W * bool;
  clipboard_frame : W -> option Frame;
  screen_frames : W -> result ScanError (list Frame);
  main_focused : W -> bool;
}.

(** The native dialogs and the files outside the app.  [file_at] is whether a
    regular file is there and what it holds; [file_new] creates a file that
    was not there, [file_put] writes and syncs it. *)
Class FileHost (W : Type) := {
  pick_open : W -> W * option FilePath;
  pick_save : list Z -> W -> W * option FilePath;
  file_at : FilePath -> W -> option (bool * list Z);
  file_new : FilePath -> W -> W * bool;
  file_put : FilePath -> list Z -> W -> W * bool;
  file_move : FilePath -> FilePath -> W -> W * bool;
  file_delete : FilePath -> W -> W * bool;
  process_id : list Z;
}.
(** The qrcode crate: the width and the modules. *)
Class QrMaker := qr_make : list Z -> option (nat * list bool).

Definition attachments_unavailable : ClientError :=
  fixed "attachments_unavailable" "Some attachments could not be read. Nothing was exported.".

Section Desktop.
Context {C : Crypto} {K : KeyLib} {U : Unicode} {J : JsonLib} {UL : UrlLib} {SL : SiteLib UL} {L : TotpLib} {H : HeaderLib}.
Context {AL : AppLib} {UT : UuidText} {PL : PasskeyLib} {HL : HealthLib} {QT : QrTexts} {KL : ShortcutLib} {SC : Vault.Codec QuickAccessSetting}.
Context {S1 : Serde ErrorBody} {S2 : Serde PullDto} {S3 : Serde WriteBody} {S4 : Serde WriteAckDto}.
Context {S5 : Serde ConflictsDto} {S6 : Serde FetchBody} {S7 : Serde FetchDto} {S8 : Serde HeaderDto}.
Context {S9 : Serde AttachmentPutBody} {S10 : Serde AttachmentDto}.
Context {W : Type} {T : Transport W} {P : Platform W} {HO : DesktopHost W} {CLP : Clip W} {D : Disk W} {SH : ShortcutHost W}.
Context {FH : FileHost W} {JT : JsonText} {ZL : ZipLib} {CSV : CsvLib} {BJ : BackupJson} {PF : PlainForms}.

Abbreviation Cl := (M (HavenClient * W) ClientError).
Abbreviation Cmd := (M (AppState * W) ClientError).

(** A step that cannot fail, of the state and the computer, or the state. *)
Definition step_ (f : AppState * W -> AppState * W) : Cmd () := fun s => (f s, Ok ()).
Definition on_app (f : AppState -> AppState) : Cmd () := step_ (fun s => (f s.1, s.2)).

Definition touch_ (s : AppState * W) : AppState * W :=
  (with_lock_manager (record_activity (mono s.2) (lock_manager s.1)) s.1, s.2).
Definition touch : Cmd () := step_ touch_.
Definition arm_auto_lock (minutes : Z) (s : AppState * W) : AppState * W :=
  (with_lock_manager (reset (mono s.2) (wall s.2) (set_timeout (timeout_from_minutes minutes) (lock_manager s.1))) s.1, s.2).

Definition clear_totp_scan (s : AppState) : AppState := with_scan [] s.
Definition clear_clipboard (generation : option Z) (s : AppState * W) : AppState * W :=
  let '(g, w) := clear_if_owned generation (clipboard s.1, s.2) in (with_clipboard g s.1, w).
Definition clear_after_lock (s : AppState * W) : AppState * W :=
  let '(a, w) := clear_clipboard None s in (with_held None [] (confirm_cancel (confirm a)) ∅ a, w).

(** quick_window.rs [hide] and [after_unlock]; only macOS hides the app. *)
Definition return_focus (reason : HideReason) (s : AppState) : AppState :=
  if macos && returns_focus_to_previous_app (q_main_was_focused (quick s)) reason then emit DeAppHidden s else s.
Definition hide (reason : HideReason) (s : AppState) : AppState :=
  return_focus reason (with_quick (note_hidden (quick s)) false s).
Definition after_unlock (s : AppState) : AppState :=
  let '(q, for_browser) := take_browser_unlock (quick s) in
  let s := with_quick q (quick_shown s) s in
  if (for_browser : bool) then hide Dismissed s else s.

(** events.rs *)
Definition hear (s : AppState * W) (e : ClientEvent) : AppState * W :=
  match e with
  | EvUnlocked minutes =>
      let s := arm_auto_lock minutes s in
      (after_unlock (emit DeUnlocked (notify Protocol.EvUnlocked s.1)), s.2)
  | EvLocked reason was_open =>
      let s := clear_after_lock s in
      if (was_open : bool) then (hide HideLocked (emit (DeLocked reason) (notify Protocol.EvLocked s.1)), s.2) else s
  | EvConnectivity online => (emit (DeConnectivity online) s.1, s.2)
  | EvSignedOut => (emit DeSignedOut s.1, s.2)
  | EvSynced r => (emit (DeSynced r) s.1, s.2)
  | EvPlanChanged => (emit DePlanChanged s.1, s.2)
  | EvItemsChanged => (emit DeItemsChanged s.1, s.2)
  | EvRemoved cleared => (emit (DeRemoved (if cleared : bool then None else Some KEYCHAIN_NOT_CLEARED)) s.1, s.2)
  | EvAccountDeleted cleared =>
      (emit (DeAccountDeleted (if cleared : bool then None else Some KEYCHAIN_NOT_CLEARED_DELETED)) s.1, s.2)
  end.

(** A call of the client; the events it tells are heard in their order. *)
Definition on_client {A} (m : Cl A) : Cmd A := fun s =>
  let '((c, w), r) := m (client_ s.1, s.2) in
  (foldl hear (with_client c s.1, w) (drop (length (events (client_ s.1))) (events c)), r).

(** [state.vault()?] and then a method. *)
Definition read {A} (f : VaultService -> Result A) : Cmd A := on_client (read_vault f).
Definition change {A} (m : V A) : Cmd A := on_client (with_vault m).
Definition core_ {A} (r : Result A) : Cmd A := mlift (map_err from_core r).
Definition on_computer {A} (f : W -> W * A) : Cmd A := fun s => let '(w, a) := f s.2 in ((s.1, w), Ok a).
Definition draws : Cmd DesktopDraws := fun s => let '(w, d) := desktop_draws s.2 in ((s.1, w), Ok d).
Definition now : Cmd Z := fun s => (s, Ok (now_ms s.2)).
Definition unix_seconds : Cmd Z := fun s => (s, Ok (Z.max 0 (wall s.2) / 1000000000)).

Definition require_unlocked : Cmd () := read (fun v => guard_err (negb (is_unlocked v)) Locked).
Definition require_online : Cmd () := on_client Client.require_online.
Definition require_full : Cmd () := on_client Client.require_full.

Definition lock (reason : string) : Cmd () := on_client (client (Client.lock reason)).

(** Every few seconds, on its own thread. *)
Definition auto_lock_tick : Cmd () := fun s =>
  if negb (is_unlocked (vault_ (client_ s.1))) then (s, Ok ())
  else
    let '(m, due) := tick (mono s.2) (wall s.2) (lock_manager s.1) in
    let s := (with_lock_manager m s.1, s.2) in
    match due with Some reason => lock (reason_as_str reason) s | None => (s, Ok ()) end.

Definition add_scanned (codes : list ScannedCode) (d : DesktopDraws) : Cmd (list ScannedTotp) := fun s =>
  let '(t, r) := scan_add codes (dd_tokens d) (mono s.2 / 1000000) (totp_scan s.1) in
  ((with_scan t s.1, s.2), map_err from_core r).
Definition store_totp_scan (codes : list ScannedCode) : Cmd (list ScannedTotp) :=
  _ ← require_unlocked;
  d ← draws;
  add_scanned codes d.
Definition resolve_item_input (i : ItemInputWire) : Cmd ItemInput := fun s =>
  (s, resolve (totp_scan s.1) (mono s.2 / 1000000) i).

(** ** commands.rs *)

Definition vault_status : Cmd VaultStatus := read Vault.status.
Definition sync_now_ (fuel : nat) : Cmd (option SyncReport) := _ ← touch; on_client (sync_now fuel).
Definition resync_vault (fuel : nat) : Cmd (option SyncReport) :=
  _ ← touch; _ ← require_online; t ← now; _ ← change (reset_sync_cursor t); on_client (sync_now fuel).
Definition lock_vault : Cmd () := lock "user".
Definition record_activity_ : Cmd () := touch.

Definition list_items_ (query : option (list Z)) : Cmd (list ItemOverview) :=
  read (match query with Some q => search q | None => list_items end).
Definition get_item_ (id : Z) : Cmd ItemOverview := read (get_item id).
Definition sso_accounts_ (p : SsoProvider) : Cmd (list SsoAccount) := read (sso_accounts p).
Definition provider_login_ (id : Z) : Cmd ProviderLogin := read (provider_login id).
Definition reveal_secret (id : Z) (f : SecretField) : Cmd (list Z) := read (reveal id f).
Definition password_history_ (id : Z) : Cmd (list Z) := _ ← touch; read (password_history_times id).
Definition list_passkeys_ (id : Z) : Cmd (list PasskeyInfo) := read (list_passkeys id).
Definition reveal_previous_password_ (id : Z) (index : nat) : Cmd (list Z) :=
  _ ← touch; read (reveal_previous_password id index).
Definition get_totp_code (id : Z) : Cmd TotpCode := t ← unix_seconds; read (Items.totp_code id t).
Definition list_trash_ : Cmd (list TrashEntry) := t ← now; read (list_trash t).
Definition get_settings : Cmd Settings := read settings.

(** Copying: only the delay comes back. *)
Inductive CopyField := CfUsername | CfPassword | CfTotp | CfContent.
Definition copy_to_clipboard (value : list Z) (seconds : Z) : Cmd Z := fun s =>
  let '((g, w), done) := clip_copy value (clipboard s.1, s.2) in
  ((with_clipboard g s.1, w), match done with Some _ => Ok seconds | None => Err err_clipboard end).
Definition copy_from_vault (f : VaultService -> Result (list Z)) : Cmd Z :=
  _ ← touch;
  '(value, seconds) ← read (fun v => st ← settings v; value ← f v; Ok (value, clipboard_clear_seconds st));
  copy_to_clipboard value seconds.
Definition copy_secret (id : Z) (f : CopyField) : Cmd Z :=
  t ← unix_seconds;
  copy_from_vault (fun v =>
    match f with
    | CfUsername => o ← get_item id v; ok_or NotFound (username o)
    | CfPassword => reveal id SfPassword v
    | CfTotp => c ← Items.totp_code id t v; Ok (tc_code c)
    | CfContent => reveal id SfContent v
    end).
(** The timer of a copy. *)
Definition clipboard_timer (generation : Z) : Cmd () := step_ (clear_clipboard (Some generation)).

(** Only an address saved on the item opens, in the form saving gives it. *)
Definition open_ (url : list Z) : Cmd () := fun s =>
  let '(w, ok) := open_url url s.2 in ((s.1, w), if (ok : bool) then Ok () else Err err_open_website).
Definition saved_website (id : Z) (url : list Z) (v : VaultService) : Result (list Z) :=
  o ← get_item id v;
  saved ← ok_or NotFound (List.find (fun r => bool_decide (Model.url r = url)) (urls o));
  Clean.normalize_url (Model.url saved).
Definition open_website (id : Z) (url : list Z) : Cmd () :=
  _ ← touch; target ← read (saved_website id url); open_ target.

Definition scan_images : Cmd (list ScannedCode) := fun s =>
  (s, map_err scan_error (scan (clipboard_frame s.2) (screen_frames s.2))).
Definition scan_totp_qr : Cmd (list ScannedTotp) :=
  _ ← touch;
  _ ← require_unlocked;
  codes ← scan_images;
  store_totp_scan codes.

(** Staging counts as activity and needs a session and a full account. *)
Definition stage_write {A} (stage : Cmd A) : Cmd A := _ ← touch; _ ← require_online; _ ← require_full; stage.
Definition emit_items_changed : Cmd () := on_app (emit DeItemsChanged).

Record FilesWire := { fw_added : list Z; fw_removed : list Z }.
Definition no_files_wire : FilesWire := {| fw_added := []; fw_removed := [] |}.
Definition take_pending (tokens : list Z) : Cmd (list NewFile) := fun s =>
  let '(m, r) := take_files tokens (pending_files s.1) in ((with_pending m s.1, s.2), r).
Definition save_item (id : Z) (input : ItemInputWire) (files : option FilesWire) (d : DesktopDraws)
    (stage : ItemInput -> VaultService -> FileEdits -> Result StagedWrite) : Cmd ItemOverview :=
  let f := default no_files_wire files in
  added ← take_pending (fw_added f);
  i ← stage_write (resolve_item_input input);
  saved ← on_client (save_with_files id (dd_file_ids d) (dd_file_random d) added (fw_removed f) (stage i));
  _ ← (if uses_scan input then on_app clear_totp_scan else mret ());
  _ ← emit_items_changed;
  mret saved.
Definition create_item (input : ItemInputWire) (files : option FilesWire) : Cmd ItemOverview :=
  d ← draws;
  t ← now;
  save_item (dd_item d) input files d
    (fun i v files => stage_create_with (dd_new_id d) (dd_item d) i files t (dd_r1 d) (dd_r2 d) v).
Definition update_item (id : Z) (input : ItemInputWire) (files : option FilesWire) : Cmd ItemOverview :=
  d ← draws;
  t ← now;
  save_item id input files d (fun i v files => stage_update_with (dd_new_id d) id i files t (dd_r1 d) (dd_r2 d) v).

Definition push_saved (w : StagedWrite) : Cmd ItemOverview := ov ← on_client (push w); mlift (ok_or internal ov).
Definition trash_item (id : Z) : Cmd bool :=
  d ← draws; t ← now;
  staged ← stage_write (read (stage_trash id t (dd_r1 d) (dd_r2 d)));
  ov ← on_client (push staged); mret (is_some ov).
Definition restore_item (id : Z) : Cmd ItemOverview :=
  d ← draws; staged ← stage_write (read (stage_restore_trashed id (dd_r1 d) (dd_r2 d))); push_saved staged.
Definition purge_item (id : Z) : Cmd () :=
  staged ← stage_write (read (stage_purge id)); _ ← on_client (push staged); mret ().
Definition empty_trash : Cmd nat :=
  staged ← stage_write (read stage_empty_trash); on_client (push_batches staged).
Definition delete_passkey (id : Z) (credential : list Z) : Cmd ItemOverview :=
  d ← draws; t ← now;
  staged ← stage_write (read (stage_remove_passkey id credential t (dd_r1 d) (dd_r2 d)));
  o ← push_saved staged; _ ← emit_items_changed; mret o.

(** Settings and the generator keep out of each other's way. *)
Definition with_generator (o : GeneratorOptions) (s : Settings) : Settings :=
  {| auto_lock_minutes := auto_lock_minutes s; clipboard_clear_seconds := clipboard_clear_seconds s; theme := theme s;
     browser_integration := browser_integration s; Model.generator := o; set_auto_sign_in := set_auto_sign_in s;
     auto_passkey_upgrade := auto_passkey_upgrade s; Model.equivalent_domains := Model.equivalent_domains s |}.
Definition set_generator_options (o : GeneratorOptions) : Cmd GeneratorOptions :=
  d ← draws; _ ← touch; st ← read settings; _ ← change (update_settings (with_generator o st) (dd_r1 d)); mret o.
Definition update_settings_ (st : Settings) : Cmd Settings :=
  d ← draws;
  _ ← touch;
  old ← read settings;
  let st := with_generator (Model.generator old) st in
  _ ← change (update_settings st (dd_r1 d));
  _ ← step_ (arm_auto_lock (auto_lock_minutes st));
  mret st.
Definition copy_generated_password (value : list Z) : Cmd Z :=
  _ ← touch;
  if bool_decide (value = []) || (MAX_LENGTH <? length value)%nat then mthrow_ (from_core (InvalidInput "nothing to copy"))
  else
    seconds ← read (fun v => Ok match settings v with Ok st => clipboard_clear_seconds st | Err _ => DEFAULT_CLIPBOARD_CLEAR_SECS end);
    copy_to_clipboard value seconds.

(** ** custom_field.rs, card.rs, bank.rs and identity.rs *)

Definition item_fields (id : Z) : Cmd (list SectionView) := read (fun v => secs ← item_sections id v; Ok (views secs)).
Definition reveal_item_field (id field : Z) : Cmd (list Z) :=
  _ ← touch; read (fun v => f ← item_field id field v; concealed f).
Definition item_field_totp (id field : Z) : Cmd TotpCode :=
  t ← unix_seconds; read (fun v => f ← item_field id field v; CustomField.totp_code f t).
Definition copy_item_field (id field : Z) (part : option AddressPart) : Cmd Z :=
  t ← unix_seconds; copy_from_vault (fun v => f ← item_field id field v; CustomField.copy_value f part t).
Definition open_item_field_url (id field : Z) : Cmd () :=
  _ ← touch; target ← read (fun v => f ← item_field id field v; field_url f); open_ target.

Record CardView := {
  cv_cardholder_name : option (list Z);
  cv_brand : option CardBrand;
  cv_expiry : option CardExpiry;
  cv_notes : option (list Z);
  cv_has_number : bool;
  cv_has_verification_number : bool;
}.
Inductive CardRevealField := RfNumber | RfVerificationNumber.
Definition card_field_of (f : CardRevealField) : CardField :=
  match f with RfNumber => FNumber | RfVerificationNumber => FVerificationNumber end.
Record CardNumberCheck := { cn_brand : option CardBrand; cn_check_digit_ok : bool }.
Definition check_card_number (number : list Z) : CardNumberCheck :=
  let d := List.filter (fun c => negb (c =? 32) && negb (c =? 45)) number in
  if bool_decide (d = []) || negb (all_digits d) then {| cn_brand := None; cn_check_digit_ok := false |}
  else {| cn_brand := detect_brand d;
          cn_check_digit_ok := in_range MIN_NUMBER_DIGITS MAX_NUMBER_DIGITS (str_len d) && check_digit_ok d |}.
Definition reveal_card (id : Z) : Cmd CardView :=
  _ ← touch;
  f ← read (card_fields id);
  mret {| cv_cardholder_name := cardholder_name f; cv_brand := cf_brand f; cv_expiry := expiry f; cv_notes := cf_notes f;
          cv_has_number := is_some (number f); cv_has_verification_number := is_some (verification_number f) |}.
Definition reveal_card_field (id : Z) (f : CardRevealField) : Cmd (list Z) :=
  _ ← touch; read (card_value_of id (card_field_of f)).
Definition copy_card_field (id : Z) (f : CardField) : Cmd Z := copy_from_vault (card_value_of id f).

Record BankView := {
  bw_bank : option (list Z);
  bw_holder_name : option (list Z);
  bw_account_type : option BankAccountType;
  bw_branch : option (list Z);
  bw_branch_digit : option (list Z);
  bw_notes : option (list Z);
  bw_sections : list SectionView;
  bw_has_account : bool;
  bw_has_password : bool;
}.
Inductive BankRevealField := RfAccount | RfAccountDigit | RfPassword.
Inductive BankCopyField := BcBank | BcHolderName | BcBranch | BcAccount | BcPassword | BcDetails.
Definition bank_reveal_value (f : BankAccountFields) (k : BankRevealField) : option (list Z) :=
  match k with RfAccount => Bank.account f | RfAccountDigit => account_digit f | RfPassword => b_password f end.
Definition bank_copy_value (f : BankAccountFields) (k : BankCopyField) (lang : DetailsLanguage) : option (list Z) :=
  match k with
  | BcBank => Bank.bank f
  | BcHolderName => holder_name f
  | BcDetails => bank_details f lang
  | BcBranch => branch_joined f
  | BcAccount => account_joined f
  | BcPassword => b_password f
  end.
(** tray.rs [UiLanguage::parse], then [language]. *)
Definition ui_language (tag : list Z) : result ClientError DetailsLanguage :=
  if bool_decide (tag = lit "en") then Ok En
  else if bool_decide (tag = lit "pt-BR") then Ok PtBr
  else Err (fixed "unsupported_language" "Unsupported language.").
Definition reveal_bank (id : Z) : Cmd BankView :=
  _ ← touch;
  f ← read (bank_fields id);
  mret {| bw_bank := Bank.bank f; bw_holder_name := holder_name f; bw_account_type := account_type f; bw_branch := branch f;
          bw_branch_digit := branch_digit f; bw_notes := b_notes f; bw_sections := views (b_sections f);
          bw_has_account := is_some (Bank.account f); bw_has_password := is_some (b_password f) |}.
Definition reveal_bank_field (id : Z) (k : BankRevealField) : Cmd (list Z) :=
  _ ← touch; read (fun v => f ← bank_fields id v; ok_or NotFound (bank_reveal_value f k)).
Definition copy_bank_field (id : Z) (k : BankCopyField) (lang : list Z) : Cmd Z :=
  lang ← mlift (ui_language lang);
  copy_from_vault (fun v => f ← bank_fields id v; ok_or NotFound (bank_copy_value f k lang)).

Inductive CopyTarget := CtField (f : IdentityField) | CtCustom (index : nat).
(** A typed field's name in camel case, or [custom:] and up to three digits. *)
Definition IDENTITY_WIRE_NAMES : list (list Z * IdentityField) :=
  combine (map lit ["firstName"; "middleName"; "lastName"; "gender"; "birthDate"; "occupation"; "company"; "jobTitle"; "cpf";
                    "rg"; "passport"; "driversLicense"; "email"; "mobilePhone"; "homePhone"; "workPhone"; "street"; "number";
                    "complement"; "neighborhood"; "city"; "state"; "postalCode"; "country"; "username"; "website"; "notes";
                    "address"]%string)
    [IFirstName; IMiddleName; ILastName; IGender; IBirthDate; IOccupation; ICompany; IJobTitle; ICpf; IRg; IPassport;
     IDriversLicense; IEmail; IMobilePhone; IHomePhone; IWorkPhone; IStreet; INumber; IComplement; INeighborhood; ICity; IState;
     IPostalCode; ICountry; IUsername; IWebsite; INotes; IAddress].
Definition copy_target (text : list Z) : option CopyTarget :=
  match strip_prefix (lit "custom:") text with
  | Some index =>
      if bool_decide (index = []) || (3 <? str_len index) || negb (all_digits index) then None
      else
        i ← parse_unsigned u64_max index;
        if i <? Z.of_nat MAX_CUSTOM_FIELDS then Some (CtCustom (Z.to_nat i)) else None
  | None => CtField <$> (snd <$> List.find (fun p => bool_decide (p.1 = text)) IDENTITY_WIRE_NAMES)
  end.
Definition identity_item_id_ : Cmd Z := read identity_item_id.
Record IdentityView := { iv_fields : IdentityFields; iv_address : option (list Z) }.
Definition reveal_identity_ (id : Z) : Cmd IdentityView :=
  _ ← touch; f ← read (reveal_identity id); mret {| iv_fields := f; iv_address := formatted_address f |}.
Definition copy_identity_field (id : Z) (t : CopyTarget) : Cmd Z :=
  copy_from_vault (fun v => match t with CtField f => identity_value id f v | CtCustom i => identity_custom_value id i v end).

(** ** health.rs and sync.rs *)

Definition health_report_ : Cmd HealthReport := t ← now; change (health_report t).
Definition set_health_ignored (id : Z) (checks : list HealthCheck) : Cmd () :=
  d ← draws; _ ← touch;
  _ ← require_online;
  staged ← read (stage_health_ignored id checks (dd_r1 d) (dd_r2 d));
  _ ← on_client (push staged); mret ().
Definition open_health_help (id : Z) (c : HealthCheck) : Cmd () := _ ← touch; target ← read (health_help_url id c); open_ target.

Definition bridge_error (e : ClientError) : Protocol.ErrorCode :=
  match ce_code e with
  | "offline" | "signed_out" => Protocol.Offline
  | "locked" => Protocol.Locked
  | "denied" => Protocol.Denied
  | "not_found" | "item_changed_elsewhere" => Protocol.NotFound
  | "invalid_input" => Protocol.InvalidInput
  | "rate_limited" => Protocol.RateLimited
  | "account_frozen" => Protocol.Frozen
  | _ => Protocol.Internal
  end%string.

(** ** attachments.rs *)

Record PendingFileWire := { pf_token : Z; pf_name : list Z; pf_size : Z; pf_mime : list Z }.
(** [held] comes from the renderer; the sum is a [usize]'s. *)
Definition ensure_room (held : Z) (picked : nat) : result ClientError () :=
  if Z.of_nat MAX_ATTACHMENTS_PER_ITEM <? u64_wrapping_add held (Z.of_nat picked) then Err (from_core (InvalidInput "An item holds up to 20 files")) else Ok ().
Definition ensure_previewable (bytes : list Z) : result ClientError () :=
  if is_previewable (sniff bytes) then Ok () else Err (from_core (InvalidInput "this file cannot be previewed")).
(** What [read_limited] keeps of a file's bytes. *)
Definition within_limit (bytes : list Z) : result ClientError (list Z) :=
  if MAX_ATTACHMENT_BYTES <? len bytes then Err (from_core (InvalidInput "Files can be up to 5 MB")) else Ok bytes.
Definition hold (token : Z) (name bytes : list Z) : Cmd PendingFileWire := fun s =>
  let name := sanitize_name name in
  ((with_pending (<[token := {| nf_name := name; nf_bytes := bytes |}]> (pending_files s.1)) s.1, s.2),
   Ok {| pf_token := token; pf_name := name; pf_size := len bytes; pf_mime := sniff bytes |}).
Fixpoint hold_each (d : DesktopDraws) (k : nat) (files : list (list Z * list Z)) : Cmd (list PendingFileWire) :=
  match files with
  | [] => mret []
  | (name, bytes) :: files => x ← hold (dd_file_ids d k) name bytes; xs ← hold_each d (S k) files; mret (x :: xs)
  end.
(** The files the user picked, with their names; [None]: the dialog was
    cancelled. *)
Definition pick_files (held : Z) (picked : option (list (list Z * list Z))) : Cmd (list PendingFileWire) :=
  _ ← touch;
  _ ← require_unlocked;
  match picked with
  | None => mret []
  | Some files =>
      _ ← mlift (ensure_room held (length files));
      files ← mlift (mapM_result (fun f : list Z * list Z => b ← within_limit f.2; Ok (f.1, b)) files);
      _ ← require_unlocked;
      d ← draws;
      hold_each d 0 files
  end.
Definition discard_pending_files (tokens : list Z) : Cmd () := on_app (fun s => with_pending (discard tokens (pending_files s)) s).
Definition save_name (m : AttachmentMeta) : list Z := sanitize_name (att_name m).
Definition preview_attachment (item att : Z) : Cmd (list Z) :=
  _ ← touch;
  _ ← require_unlocked;
  t ← unix_seconds;
  bytes ← on_client (attachment_bytes item att t);
  _ ← mlift (ensure_previewable bytes);
  mret bytes.

Definition file_step (f : W -> W * bool) : Cmd () := fun s =>
  let '(w, ok) := f s.2 in ((s.1, w), if (ok : bool) then Ok () else Err err_file).
(** export.rs [write_private_with]: the contents [fill] gives, renamed over
    [path]; a failure removes the temporary file.  The source hands [fill] the
    open file; here it answers what it would write, and the write that may
    fail comes after it. *)
Definition part_file (path : FilePath) : FilePath :=
  {| fp_dir := fp_dir path; fp_name := lit "." ++ fp_name path ++ lit "." ++ process_id ++ lit ".part" |}.
Definition filled (path : FilePath) (fill : Cmd (list Z)) : Cmd () :=
  _ ← file_step (file_new (part_file path));
  bytes ← fill;
  _ ← file_step (file_put (part_file path) bytes);
  file_step (file_move (part_file path) path).
Definition write_private_with (path : FilePath) (fill : Cmd (list Z)) : Cmd () := fun s =>
  let '(s, r) := filled path fill s in
  match r with
  | Ok _ => (s, r)
  | Err _ => ((s.1, (file_delete (part_file path) s.2).1), r)
  end.
Definition write_private (path : FilePath) (bytes : list Z) : Cmd () := write_private_with path (mret bytes).
Definition save_attachment (item att : Z) : Cmd bool :=
  _ ← touch;
  _ ← require_unlocked;
  m ← read (attachment_meta item att);
  t ← unix_seconds;
  bytes ← on_client (attachment_bytes item att t);
  picked ← on_computer (pick_save (save_name m));
  match picked with
  | None => mret false
  | Some path => _ ← require_unlocked; _ ← write_private path bytes; mret true
  end.

(** ** import.rs *)

Definition read_limited (path : FilePath) (limit : Z) : Cmd (list Z) := fun s =>
  (s, match file_at path s.2 with
      | Some (true, bytes) =>
          if limit <? len bytes then Err (from_core (InvalidInput "export file is too large")) else Ok bytes
      | _ => Err err_file
      end).
Definition remember_import (path : option FilePath) : Cmd () :=
  on_app (fun s => with_held path (totp_scan s) (confirm s) (pending_files s) s).
Record ImportResult := { ir_report : ImportReport; ir_file_name : list Z }.
(** An unlocked vault that may be written to, asked before the picker opens. *)
Definition ready_to_import : Cmd () := _ ← touch; _ ← require_unlocked; _ ← require_online; require_full.
Definition import_picked (source : ImportSource) (path : FilePath) : Cmd ImportResult :=
  bytes ← read_limited path (max_bytes source);
  parsed ← core_ (import_parse source bytes);
  d ← draws; t ← now;
  staged ← read (stage_import (dd_import d) (pa_items parsed) (pa_report parsed) t);
  committed ← on_client (push_batches (si_writes staged));
  _ ← remember_import (Some path);
  mret {| ir_report := update CImported (fun _ => committed - sso_upgraded (si_report staged))%nat (si_report staged);
          ir_file_name := fp_name path |}.
Definition import_file (source : ImportSource) : Cmd (option ImportResult) :=
  _ ← ready_to_import;
  picked ← on_computer pick_open;
  match picked with None => mret None | Some path => r ← import_picked source path; mret (Some r) end.
Definition take_import : Cmd FilePath := fun s =>
  match last_import s.1 with
  | Some path => ((with_held None (totp_scan s.1) (confirm s.1) (pending_files s.1) s.1, s.2), Ok path)
  | None => (s, Err (from_core NotFound))
  end.
Definition delete_import_file : Cmd () :=
  _ ← touch; _ ← require_unlocked; path ← take_import; file_step (file_delete path).

(** The records of a backup as the restore asks for them; as many steps as
    the file has bytes are enough. *)
Fixpoint records_of (fuel : nat) (r : BackupAttachments) : list (Result BackupAttachment) :=
  match fuel with
  | O => []
  | S fuel => match next r with (_, None) => [] | (r, Some x) => x :: records_of fuel r end
  end.
(** [None]: the sync that comes first is not over. *)
Definition restore_picked (fuel : nat) (password : list Z) (path : FilePath) : Cmd (option ImportResult) :=
  bytes ← read_limited path MAX_BACKUP_FILE_BYTES;
  '(opened, files) ← core_ (open_backup_stream bytes password);
  d ← draws;
  report ← on_client (restore_backup fuel (dd_restore d) opened (records_of (length bytes) files));
  mret ((fun r => {| ir_report := r; ir_file_name := fp_name path |}) <$> report).
Definition restore_backup_ (fuel : nat) (password : list Z) : Cmd (option (option ImportResult)) :=
  _ ← ready_to_import;
  picked ← on_computer pick_open;
  match picked with None => mret (Some None) | Some path => r ← restore_picked fuel password path; mret (Some <$> r) end.

(** ** export.rs *)

Definition export_summary (f : ExportFormat) : Cmd ExportSummary := _ ← touch; _ ← require_unlocked; read (summarize f).
Record ExportResult := { er_file_name : list Z; er_summary : ExportSummary }.
Definition export_password (f : ExportFormat) (master : list Z) (backup : option (list Z)) : Result (option (list Z)) :=
  match f, backup with
  | FBackup, Some p => _ ← check_backup_password p master; Ok (Some p)
  | FBackup, None => Err (InvalidInput "a backup needs a backup password")
  | _, _ => Ok None
  end.
Fixpoint write_each (d : DesktopDraws) (k : nat) (files : list (Z * AttachmentMeta)) (w : BackupWriter) : Cmd BackupWriter :=
  match files with
  | [] => mret w
  | (item, m) :: files =>
      t ← unix_seconds;
      r ← (fun s => let '(s, r) := on_client (attachment_bytes item (Attachment.att_id m) t) s in
                    (s, map_err (fun _ => attachments_unavailable) r)) : Cmd (list Z);
      w ← core_ (write_attachment {| ba_item_id := item; ba_meta := m; ba_bytes := r |} (dd_nonces d k) w);
      write_each d (S k) files w
  end.
Definition write_backup (payload password : list Z) (files : list (Z * AttachmentMeta)) : Cmd (list Z) :=
  d ← draws;
  _ ← mlift (guard_err (u32_max <? Z.of_nat (length files)) internal);
  kdf ← core_ (dd_kdf d);
  w ← core_ (writer_new password kdf (Z.of_nat (length files)));
  w ← core_ (write_items payload (dd_nonces d 0) w);
  w ← write_each d 1 files w;
  core_ (writer_finish w).
Definition files_left_out (s : ExportSummary) : ExportSummary :=
  {| ex_logins := ex_logins s; ex_secure_notes := ex_secure_notes s; ex_cards := ex_cards s;
     ex_identities := ex_identities s; ex_bank_accounts := ex_bank_accounts s; passkeys_left_out := passkeys_left_out s;
     password_history_left_out := password_history_left_out s; custom_fields_left_out := custom_fields_left_out s;
     items_left_out := items_left_out s; ex_unreadable := ex_unreadable s; attachments_left_out := ex_attachments s;
     ex_attachments := 0 |}.
(** Everything after the dialog; the payload and the list of files are read
    under one guard. *)
Definition export_to (f : ExportFormat) (backup : option (list Z)) (include_attachments : bool) (path : FilePath)
    : Cmd ExportResult :=
  t ← now;
  '(bytes, summary, files) ← read (fun v =>
    x ← render f t v;
    files ← (if is_some backup && include_attachments then backup_attachments v else Ok []);
    Ok (x, files));
  _ ← match backup with
      | Some p => write_private_with path (write_backup bytes p files)
      | None => write_private path bytes
      end;
  mret {| er_file_name := fp_name path;
          er_summary := if bool_decide (f = FBackup) && negb include_attachments then files_left_out summary else summary |}.
(** [verify] is the client's check of the master password. *)
Definition export_after (verify : list Z -> Cl ()) (f : ExportFormat) (master : list Z) (backup : option (list Z))
    (include_attachments : bool) : Cmd (option ExportResult) :=
  _ ← touch;
  _ ← require_unlocked;
  backup ← core_ (export_password f master backup);
  _ ← on_client (verify master);
  t ← now;
  picked ← on_computer (pick_save (default_file_name f t));
  match picked with
  | None => mret None
  | Some path => r ← export_to f backup include_attachments path; mret (Some r)
  end.

(** ** confirm.rs: the hook and the answer *)

(** [main_window]: whether the dialog could be shown.  [during] is what the
    other threads do while it waits. *)
Definition confirm_ask (id : Z) (main_window : bool) (during : list Meanwhile) : Cmd bool := fun s =>
  let unlocked := is_ok (require_unlocked s).2 in
  let '(p, allowed, asked) := confirm_run id unlocked main_window during (confirm s.1) in
  let a := with_confirm p s.1 in
  ((if (asked : bool) then emit (DeConfirmClosed id) a else a, s.2), Ok allowed).
Definition answer_pending (id : Z) (allow : bool) : Cmd () := fun s =>
  let '(p, taken) := confirm_answer id allow (confirm s.1) in
  ((with_confirm p s.1, s.2), if (taken : bool) then Ok () else Err no_confirmation_error).
Definition answer_update_confirmation (id : Z) (allow : bool) : Cmd () := _ ← touch; answer_pending id allow.

(** ** quick_window.rs and quick_shortcut.rs *)

Definition show_focused (for_browser : bool) (s : AppState * W) : AppState * W :=
  (emit (DeShown for_browser) (with_quick (note_opened (main_focused s.2) for_browser (quick s.1)) true s.1), s.2).
Definition vault_facts (s : AppState) : option (bool * bool) :=
  match storage_error (client_ s) with
  | Some _ => None
  | None =>
      match Vault.status (vault_ (client_ s)) with
      | Ok x => Some (vault_exists x, bool_decide (vs_state x = SUnlocked))
      | Err _ => None
      end
  end.
Definition toggle_from_shortcut : Cmd () := step_ (fun s =>
  match shortcut_target (fst <$> vault_facts s.1) with
  | TargetMain => (emit DeMainShown s.1, s.2)
  | TargetQuick =>
      if quick_shown s.1 then (return_focus Dismissed (with_quick (quick s.1) false s.1), s.2) else show_focused false s
  end).
Definition show_for_browser_unlock : Cmd () := step_ (fun s =>
  match browser_unlock_target (vault_facts s.1) with
  | UnlockNothing => s
  | UnlockMain => (emit DeMainShown s.1, s.2)
  | UnlockQuick => show_focused true s
  end).
Definition hide_quick_window : Cmd () := on_app (hide Dismissed).
Definition open_in_app (id : Z) : Cmd () :=
  _ ← touch; _ ← read (get_item id); on_app (fun s => emit (DeOpenItem id) (emit DeMainShown (hide Opened s))).
(** The close button, and losing the keyboard. *)
Inductive WindowEvent := CloseRequested | FocusLost.
Definition on_window_event (e : WindowEvent) : Cmd () :=
  on_app (hide match e with CloseRequested => Dismissed | FocusLost => Blurred end).

Definition on_quick {A} (f : QuickAccess * W -> (QuickAccess * W) * A) : Cmd A := fun s =>
  let '((q, w), a) := f (quick s.1, s.2) in ((with_quick q (quick_shown s.1) s.1, w), Ok a).
Definition shortcut_pressed (pressed : Shortcut) : Cmd () := fun s =>
  if is_current pressed (quick s.1) then toggle_from_shortcut s else (s, Ok ()).
Definition quick_access_status : Cmd QuickAccessStatus := fun s => (s, Ok (quick_status (quick s.1))).
Definition set_quick_access (enabled : bool) : Cmd QuickAccessStatus :=
  _ ← touch;
  _ ← require_unlocked;
  ok ← on_quick (quick_set enabled);
  if (ok : bool) then quick_access_status else mthrow_ settings_failed.
Definition set_quick_access_shortcut (keys : option (list Z)) : Cmd QuickAccessStatus :=
  _ ← touch;
  _ ← require_unlocked;
  r ← on_quick (set_shortcut keys);
  match r with
  | Ok st => mret st
  | Err (SseRefused why) => mthrow_ (shortcut_refused why)
  | Err SseSave => mthrow_ settings_failed
  end.
End Desktop.

(** ** account.rs, removal.rs, pairing.rs and emergency_kit.rs *)

Section DesktopAccount.
Context {C : Crypto} {K : KeyLib} {U : Unicode} {J : JsonLib} {UL : UrlLib} {SL : SiteLib UL} {L : TotpLib} {H : HeaderLib}.
Context {B32 : Base32Lib} {B64 : Base64UrlLib} {HP : HpkeLib} {F : FormLib} {O : OpaqueKe} {FC : FormatChars}.
Context {AS : AccountSerde} {SD : Serde OnDisk} {UT : UuidText} {UP : UuidParse} {KL : ShortcutLib}.
Context {S1 : Serde ErrorBody} {S2 : Serde PullDto} {S3 : Serde WriteBody} {S4 : Serde WriteAckDto}.
Context {S5 : Serde ConflictsDto} {S6 : Serde FetchBody} {S7 : Serde FetchDto} {S8 : Serde HeaderDto}.
Context {S9 : Serde AttachmentPutBody} {S10 : Serde AttachmentDto} {QM : QrMaker} {BJ : BackupJson} {PF : PlainForms}.
Context {W : Type} {KH : KeyHost W} {RL : ReqwestLib W} {AH : AppHost W}.
Context {HO : DesktopHost (Local W)} {CLP : Clip (Local W)} {D : Disk (Local W)} {FH : FileHost (Local W)}.
Variables (device_name : list Z) (localhost_http : bool).

Abbreviation Cmd := (M (AppState * Local W) ClientError).

Definition device_status_ : Cmd DeviceStatus := on_client device_status.
Definition account_status_ : Cmd (option AccountStatus) := on_client account_status.
(** A task the client leaves behind runs apart. *)
Definition unlock_vault (password : list Z) (secret_key : option (list Z)) : Cmd (VaultStatus * option Job) :=
  on_client (unlock device_name localhost_http password secret_key).
Definition change_master_password_ (fuel : nat) (current new : list Z) : Cmd (option ()) :=
  _ ← touch; on_client (change_master_password localhost_http fuel current new).
Definition activate_account (invite password : list Z) : Cmd (VaultStatus * option Job) := on_client (activate localhost_http invite password).
Definition sign_in_ (server_url email password : list Z) (secret_key : option (list Z)) : Cmd (VaultStatus * option Job) :=
  on_client (sign_in device_name localhost_http server_url email password secret_key).
Definition list_devices_ : Cmd (list DeviceInfo) := _ ← touch; on_client (list_devices localhost_http).
Definition revoke_device_ (id : Z) : Cmd () := _ ← touch; on_client (Account.revoke_device localhost_http id).
Definition sign_out_ : Cmd () := on_client (sign_out localhost_http).
Definition reveal_account_secret_key : Cmd (list Z) := _ ← touch; x ← on_client (account_value FSecretKey); mret x.1.
Definition copy_account_field (f : AccountField) : Cmd Z :=
  _ ← touch; '(value, seconds) ← on_client (account_value f); copy_to_clipboard value seconds.
Definition remove_device_ (confirmation : list Z) : Cmd () := on_client (remove_device localhost_http confirmation).
Definition delete_account_ (confirmation master : list Z) : Cmd () :=
  _ ← touch; on_client (Account.delete_account localhost_http confirmation master).
(** Fixed addresses only. *)
Definition SIGNUP_URL : list Z := lit "https://havenkeys.net/signup".
Definition PRICING_URL : list Z := lit "https://havenkeys.net/pricing".
Definition open_signup : Cmd () := open_ SIGNUP_URL.
Definition open_pricing : Cmd () := open_ PRICING_URL.

Definition export_file (f : ExportFormat) (master : list Z) (backup : option (list Z)) (include_attachments : bool)
    : Cmd (option ExportResult) :=
  export_after verify_master_password f master backup include_attachments.

Record PairingCode := { pc_qr_size : nat; pc_qr_modules : list bool; pc_expires_at : list Z }.
(** [label] is the computer's (device_label.rs). *)
Definition pairing_start (server_url label : list Z) : Cmd PairingCode :=
  start ← on_client (start_pairing localhost_http server_url label);
  '(size, modules) ← mlift (ok_or internal (qr_make (utf8 (start_link start))));
  mret {| pc_qr_size := size; pc_qr_modules := modules; pc_expires_at := start_expires_at start |}.
Definition pairing_poll : Cmd PairingPoll := on_client (poll_pairing localhost_http).
Definition pairing_cancel : Cmd () := on_client cancel_pairing.

(** [percent_encode]. *)
Definition hex_upper (d : Z) : Z := if d <? 10 then 48 + d else 55 + d.
Definition unreserved (b : Z) : bool :=
  in_range 65 90 b || in_range 97 122 b || in_range 48 57 b || (b =? 45) || (b =? 46) || (b =? 95) || (b =? 126).
Definition kit_percent_encode (value : list Z) : list Z :=
  utf8 value ≫= (fun b => if unreserved b then [b] else [37; hex_upper (b / 16); hex_upper (b mod 16)]).
Definition kit_payload (account_id : Z) (email server_url secret_key : list Z) : list Z :=
  lit "havenkeys://kit/v2?account=" ++ uuid_text account_id ++ lit "&email=" ++ kit_percent_encode email
  ++ lit "&key=" ++ secret_key ++ lit "&server=" ++ kit_percent_encode server_url.
Record EmergencyKit := {
  ek_secret_key : list Z;
  ek_vault_id : Z;
  ek_account_id : Z;
  ek_email : list Z;
  ek_server_url : list Z;
  ek_created_at : Z;
  ek_qr_size : nat;
  ek_qr_modules : list bool;
}.
Definition kit_account (v : VaultService) : Result (Z * Z * AccountRecord) :=
  if negb (is_unlocked v) then Err Locked
  else
    vault ← header_field Store.vault_id v; vault ← ok_or NoVault vault;
    created ← header_field Store.created_at v;
    a ← ok_or NoVault (account (store v));
    Ok (vault, default 0 created, a).
Definition emergency_kit : Cmd EmergencyKit :=
  _ ← touch;
  '(vault, created, a) ← read kit_account;
  key ← on_client (dev (secret_key_text (Store.account_id a)));
  key ← core_ (ok_or NotFound key);
  '(size, modules) ← mlift (ok_or internal (qr_make (utf8 (kit_payload (Store.account_id a) (Store.email a) (Store.server_url a) key))));
  mret {| ek_secret_key := key; ek_vault_id := vault; ek_account_id := Store.account_id a; ek_email := Store.email a;
          ek_server_url := Store.server_url a; ek_created_at := created; ek_qr_size := size; ek_qr_modules := modules |}.
End DesktopAccount.

(** ** What locking leaves *)

(** Nothing of the vault waits on the desktop: no picked file, no scanned
    code, no export to delete, no question, no copy to clear later. *)
Definition nothing_waits (s : AppState) : Prop :=
  totp_scan s = [] /\ pending_files s = ∅ /\ last_import s = None /\ slot (confirm s) = None /\
  owned_digest (clipboard s) = None.

Section LockFacts.
Context {C : Crypto} {KL : ShortcutLib} {W : Type} {T : Transport W} {P : Platform W} {HO : DesktopHost W} {CLP : Clip W}.

Lemma hide_keeps r s : nothing_waits s -> nothing_waits (hide r s).
Proof. intros H. unfold hide, return_focus. by case_match. Qed.
Lemma hide_client r s : client_ (hide r s) = client_ s.
Proof. unfold hide, return_focus. by case_match. Qed.

Lemma after_lock_clean (s : AppState * W) :
  nothing_waits (clear_after_lock s).1 /\ client_ (clear_after_lock s).1 = client_ s.1 /\
  (clear_after_lock s).2 = (clear_if_owned None (clipboard s.1, s.2)).2.
Proof.
  unfold clear_after_lock, clear_clipboard.
  assert (owned_digest (clear_if_owned None (clipboard s.1, s.2)).1 = None) as Ho.
  { unfold clear_if_owned. destruct (owned_digest (clipboard s.1)) eqn:Eo; [|done].
    destruct (opened (clipboard s.1)); [|done]. cbn [negb opened]. case_match; [|done]. by case_bool_decide. }
  destruct (clear_if_owned None (clipboard s.1, s.2)) as [g w]. cbn [fst] in Ho. cbn. repeat split; try done.
  unfold confirm_cancel. by destruct (slot (confirm s.1)) eqn:E.
Qed.

Lemma hear_locked (s : AppState * W) reason was_open :
  nothing_waits (hear s (EvLocked reason was_open)).1 /\ client_ (hear s (EvLocked reason was_open)).1 = client_ s.1 /\
  (hear s (EvLocked reason was_open)).2 = (clear_if_owned None (clipboard s.1, s.2)).2.
Proof.
  destruct (after_lock_clean s) as (H1 & H2 & H3). unfold hear. destruct was_open; [|done]. cbn [fst snd].
  split; [by apply hide_keeps|by rewrite hide_client].
Qed.
End LockFacts.

(** ** The clock *)

(** What the windows read again by themselves, when the sync thread or the
    extension changed something, or on a timer. *)
Inductive Refresh :=
| RfList (query : option (list Z)) | RfItem (id : Z) | RfSso (p : SsoProvider) | RfLogin (id : Z)
| RfSecret (id : Z) (f : SecretField) | RfPasskeys (id : Z) | RfTotp (id : Z) | RfTrash | RfSettings | RfFields (id : Z)
| RfFieldTotp (id field : Z) | RfStatus | RfIdentity | RfHealth | RfQuick | RfConnected (online : bool) | RfSynced (r : SyncReport)
| RfChanged.

Section ClockFacts.
Context {C : Crypto} {K : KeyLib} {U : Unicode} {J : JsonLib} {UL : UrlLib} {SL : SiteLib UL} {L : TotpLib} {H : HeaderLib}.
Context {UT : UuidText} {AL : AppLib} {PL : PasskeyLib} {HL : HealthLib} {KL : ShortcutLib}.
Context {S1 : Serde ErrorBody} {S2 : Serde PullDto} {S3 : Serde WriteBody} {S4 : Serde WriteAckDto}.
Context {S5 : Serde ConflictsDto} {S6 : Serde FetchBody} {S7 : Serde FetchDto} {S8 : Serde HeaderDto}.
Context {W : Type} {T : Transport W} {P : Platform W} {HO : DesktopHost W} {CLP : Clip W}.

Definition forget {A} (m : M (AppState * W) ClientError A) : M (AppState * W) ClientError () := _ ← m; mret ().
Definition refresh (r : Refresh) : M (AppState * W) ClientError () :=
  match r with
  | RfList q => forget (list_items_ q)
  | RfItem id => forget (get_item_ id)
  | RfSso p => forget (sso_accounts_ p)
  | RfLogin id => forget (provider_login_ id)
  | RfSecret id f => forget (reveal_secret id f)
  | RfPasskeys id => forget (list_passkeys_ id)
  | RfTotp id => forget (get_totp_code id)
  | RfTrash => forget list_trash_
  | RfSettings => forget get_settings
  | RfFields id => forget (item_fields id)
  | RfFieldTotp id f => forget (item_field_totp id f)
  | RfStatus => forget vault_status
  | RfIdentity => forget identity_item_id_
  | RfHealth => forget health_report_
  | RfQuick => forget quick_access_status
  | RfConnected online => step_ (fun s => hear s (EvConnectivity online))
  | RfSynced r => step_ (fun s => hear s (EvSynced r))
  | RfChanged => step_ (fun s => hear s EvItemsChanged)
  end.

(** Neither the clock nor the computer. *)
Definition quiet {A} (m : M (AppState * W) ClientError A) : Prop :=
  forall s, lock_manager (m s).1.1 = lock_manager s.1 /\ (m s).1.2 = s.2.

Lemma quiet_change {A} (m : V A) : quiet (change m).
Proof.
  intros [a w]. unfold change, on_client, with_vault. cbn [fst snd]. destruct (storage_error (client_ a)).
  - cbn. by rewrite drop_all.
  - destruct (m (vault_ (client_ a))) as [v r]. cbn. by rewrite drop_all.
Qed.
Lemma quiet_read {A} (f : VaultService -> Result A) : quiet (read f).
Proof. apply quiet_change. Qed.
Lemma quiet_bind {A B} (m : M (AppState * W) ClientError A) (f : A -> M (AppState * W) ClientError B) :
  quiet m -> (forall a, quiet (f a)) -> quiet (m ≫= f).
Proof.
  intros Hm Hf s. specialize (Hm s). unfold mbind, M_bind. destruct (m s) as [s1 [a|e]]; cbn in *; [|done].
  specialize (Hf a s1). by destruct Hm as [<- <-].
Qed.
Lemma quiet_same {A} (m : M (AppState * W) ClientError A) : (forall s, (m s).1 = s) -> quiet m.
Proof. intros Hm s. by rewrite Hm. Qed.
Lemma quiet_forget {A} (m : M (AppState * W) ClientError A) : quiet m -> quiet (forget m).
Proof. intros Hm. apply quiet_bind; [done|]. by intros a s. Qed.
End ClockFacts.

Create HintDb desktop.
#[export] Hint Resolve quiet_change quiet_read quiet_forget : desktop.
#[export] Hint Extern 1 (quiet (_ ≫= _)) => apply quiet_bind; [|intros] : desktop.
#[export] Hint Extern 2 (quiet _) => by apply quiet_same : desktop.

Section Clock.
Context {C : Crypto} {K : KeyLib} {U : Unicode} {J : JsonLib} {UL : UrlLib} {SL : SiteLib UL} {L : TotpLib} {H : HeaderLib}.
Context {UT : UuidText} {AL : AppLib} {PL : PasskeyLib} {HL : HealthLib} {KL : ShortcutLib}.
Context {W : Type} {T : Transport W} {P : Platform W} {HO : DesktopHost W} {CLP : Clip W}.

Lemma refresh_quiet (r : Refresh) : quiet (refresh r).
Proof.
  destruct r; cbn [refresh]; unfold list_items_, get_item_, sso_accounts_, provider_login_, reveal_secret, list_passkeys_,
    get_totp_code, list_trash_, get_settings, item_fields, item_field_totp, vault_status, identity_item_id_, health_report_,
    quick_access_status; auto with desktop; by intros s.
Qed.
End Clock.

(** ** Locking and the clock *)

Section Locking.
Context {C : Crypto} {K : KeyLib} {U : Unicode} {J : JsonLib} {UL : UrlLib} {SL : SiteLib UL} {L : TotpLib} {H : HeaderLib}.
Context {UT : UuidText} {AL : AppLib} {PL : PasskeyLib} {HL : HealthLib} {KL : ShortcutLib}.
Context {W : Type} {T : Transport W} {P : Platform W} {HO : DesktopHost W} {CLP : Clip W}.

Lemma lock_heard reason (s : AppState * W) :
  (lock reason s).1 =
  hear (with_client (Client.lock reason (client_ s.1)) s.1, s.2) (EvLocked reason (Vault.lock (vault_ (client_ s.1))).2).
Proof.
  unfold lock, on_client, client, mmodify. cbn [fst snd]. unfold Client.lock, drop_session, tell. cbn.
  by rewrite drop_app_length.
Qed.


Lemma refreshes_quiet (rs : list Refresh) (s : AppState * W) :
  lock_manager (foldl (fun s r => (refresh r s).1) s rs).1 = lock_manager s.1 /\
  (foldl (fun s r => (refresh r s).1) s rs).2 = s.2.
Proof.
  revert s. induction rs as [|r rs IH]; intros s; [done|]. cbn [foldl].
  destruct (refresh_quiet r s) as [<- <-]. apply IH.
Qed.

(** C38: what the windows read again by themselves, after a sync, after a
    change the extension made or on a timer, is not activity: after any
    number of such reads the auto-lock clock decides what it would have
    decided without them, and a vault that is due is locked. *)
Theorem refreshes_do_not_hold_open (rs : list Refresh) (s : AppState * W) :
  let s' := foldl (fun s r => (refresh r s).1) s rs in
  let due := tick (mono s.2) (wall s.2) (lock_manager s.1) in
  tick (mono s'.2) (wall s'.2) (lock_manager s'.1) = due /\
  is_some due.2 && is_unlocked (vault_ (client_ (auto_lock_tick s').1.1)) = false.
Proof.
  cbv zeta. destruct (refreshes_quiet rs s) as [Hm Hw]. set (s' := foldl _ s rs) in *. rewrite Hm, Hw.
  split; [done|]. unfold auto_lock_tick. destruct (is_unlocked (vault_ (client_ s'.1))) eqn:Hu;
    [|cbn; by rewrite Hu, andb_false_r].
  cbn [negb]. rewrite Hm, Hw. destruct (tick _ _ _) as [m [reason|]]; [|done]. rewrite lock_heard.
  edestruct hear_locked as (_ & H2 & _). by rewrite H2.
Qed.
End Locking.

(** ** Files *)

(** The file system: a path holds what was last written or moved there. *)
Class FileLaws {W : Type} (FH : FileHost W) : Prop := {
  new_other p q w : q <> p -> file_at q (file_new p w).1 = file_at q w;
  put_other p q b w : q <> p -> file_at q (file_put p b w).1 = file_at q w;
  put_at p b w : (file_put p b w).2 = true -> file_at p (file_put p b w).1 = Some (true, b);
  move_at p q w : file_at q (file_move p q w).1 = if (file_move p q w).2 then file_at p w else file_at q w;
  delete_other p q w : q <> p -> file_at q (file_delete p w).1 = file_at q w;
}.

Section FileFacts.
Context {W : Type} {FH : FileHost W}.
Abbreviation Cmd := (M (AppState * W) ClientError).

Lemma part_file_other (path : FilePath) : path <> part_file path.
Proof.
  intros Hp. apply (f_equal (length ∘ fp_name)) in Hp. unfold part_file, compose in Hp. cbn [fp_name] in Hp.
  rewrite !length_app in Hp. assert (length (lit ".") = 1%nat) by done. lia.
Qed.

(** C39: a file the desktop writes for the user is written whole or not at
    all: after a success the path holds exactly what was to be written, and
    after any failure, of the disk or of what gives the contents, it holds
    what it held before. *)
Theorem write_all_or_nothing `{!FileLaws FH} path (fill : Cmd (list Z)) (s : AppState * W) :
  (forall x, file_at path (fill x).1.2 = file_at path x.2) ->
  let '(s', r) := write_private_with path fill s in
  match r with
  | Ok _ => exists bytes, (fill (s.1, (file_new (part_file path) s.2).1)).2 = Ok bytes /\ file_at path s'.2 = Some (true, bytes)
  | Err _ => file_at path s'.2 = file_at path s.2
  end.
Proof.
  intros Hfill. pose proof (part_file_other path) as Hne. unfold write_private_with, filled.
  pose proof (new_other (part_file path) path s.2 Hne) as Hnew.
  destruct (file_new (part_file path) s.2) as [w ok] eqn:En. cbn [fst] in Hnew.
  assert (file_step (file_new (part_file path)) s = ((s.1, w), if ok then Ok () else Err err_file)) as E0.
  { unfold file_step. by rewrite En. }
  destruct ok; [rewrite (run_bind _ _ _ _ _ E0)|rewrite (run_bind_err _ _ _ _ _ E0)]; [|cbn; by rewrite delete_other, Hnew].
  specialize (Hfill (s.1, w)). destruct (fill (s.1, w)) as [s1 [bytes|e]] eqn:Ef; cbn [fst snd] in Hfill.
  2: { rewrite (run_bind_err _ _ _ _ _ Ef). cbn. by rewrite delete_other, Hfill, Hnew. }
  rewrite (run_bind _ _ _ _ _ Ef).
  pose proof (put_other (part_file path) path bytes s1.2 Hne) as Hput.
  pose proof (put_at (part_file path) bytes s1.2) as Hat.
  destruct (file_put (part_file path) bytes s1.2) as [w2 ok] eqn:Ep. cbn [fst snd] in Hput, Hat.
  assert (file_step (file_put (part_file path) bytes) s1 = ((s1.1, w2), if ok then Ok () else Err err_file)) as E2.
  { unfold file_step. by rewrite Ep. }
  destruct ok; [rewrite (run_bind _ _ _ _ _ E2)|rewrite (run_bind_err _ _ _ _ _ E2)];
    [|cbn; by rewrite delete_other, Hput, Hfill, Hnew].
  unfold file_step. cbn [fst snd]. pose proof (move_at (part_file path) path w2) as Hmove.
  destruct (file_move (part_file path) path w2) as [w3 [|]]; cbn in Hmove |- *.
  - exists bytes. split; [by rewrite Ef|by rewrite Hmove, Hat].
  - by rewrite delete_other, Hmove, Hput, Hfill, Hnew.
Qed.
End FileFacts.

Section ReadFacts.
Context {C : Crypto} {KL : ShortcutLib} {W : Type} {HO : DesktopHost W} {CLP : Clip W}.

Lemma read_keeps {A} (f : VaultService -> Result A) (s : AppState * W) : (read f s).1 = s.
Proof.
  destruct s as [[c ? ? ? ? ? ? ? ? ? ?] w]. unfold read, on_client, read_vault, with_vault, mread. cbn [fst snd client_].
  destruct (storage_error c); cbn; rewrite drop_all; destruct c; done.
Qed.
End ReadFacts.

Section ExportFacts.
Context {C : Crypto} {K : KeyLib} {U : Unicode} {J : JsonLib} {UL : UrlLib} {SL : SiteLib UL} {L : TotpLib}.
Context {H : HeaderLib} {SD : Serde OnDisk} {B32 : Base32Lib} {UT : UuidText} {KL : ShortcutLib}.
Context {BJ : BackupJson} {PF : PlainForms} {S9 : Serde AttachmentPutBody} {S10 : Serde AttachmentDto}.
Context {S1 : Serde ErrorBody} {W : Type} {KH : KeyHost W} {RL : ReqwestLib W} {AH : AppHost W}.
Context {HO : DesktopHost (Local W)} {CLP : Clip (Local W)} {FH : FileHost (Local W)}.

(** An export asks for the master password every time.  When it is not
    the vault's, nothing is rendered and no file is touched: the computer is
    as it was, or as the check of the password left it. *)
Lemma wrong_password_exports_nothing f master backup files (s : AppState * Local W) :
  let check := on_client (verify_master_password master) (touch_ s) in
  let export := export_file f master backup files s in
  is_ok check.2 = true \/ is_ok export.2 = false /\ (export.1.2 = s.2 \/ export.1.2 = check.1.2).
Proof.
  cbv zeta. destruct (is_ok (on_client (verify_master_password master) (touch_ s)).2) eqn:Hbad; [by left|right]. unfold export_file, export_after.
  rewrite (run_bind _ _ s (touch_ s) ()) by done.
  destruct (require_unlocked (touch_ s)) as [s0 [u|e]] eqn:Eu.
  2: { rewrite (run_bind_err _ _ _ _ _ Eu). split; [done|]. left. cbn.
       change s0 with (s0, @Err ClientError () e).1. rewrite <- Eu. unfold require_unlocked. by rewrite read_keeps. }
  rewrite (run_bind _ _ _ _ _ Eu).
  assert (s0 = touch_ s) as ->.
  { change s0 with (s0, @Ok ClientError () u).1. rewrite <- Eu. apply read_keeps. }
  unfold core_. destruct (export_password f master backup) as [b|e] eqn:Eb.
  2: { cbn. auto. }
  cbn [map_err]. rewrite run_mlift.
  destruct (on_client (verify_master_password master) (touch_ s)) as [s1 [[]|e]] eqn:Ev; [discriminate Hbad|].
  rewrite (run_bind_err _ _ _ _ _ Ev). split; [done|]. by right.
Qed.
End ExportFacts.

(** ** A computer *)

Module ToyDisk.
#[export] Instance FilePath_eq_dec : EqDecision FilePath.
Proof. solve_decision. Defined.
(** The files outside the app; every operation succeeds but moving a file
    that is not there. *)
Abbreviation Files := (FilePath -> option (bool * list Z)).
Definition put (p : FilePath) (x : option (bool * list Z)) (w : Files) : Files := fun q => if decide (q = p) then x else w q.
#[local] Instance host : FileHost Files := {|
  pick_open := fun w => (w, None); pick_save := fun _ w => (w, None); file_at := fun p w => w p;
  file_new := fun p w => (put p (Some (true, [])) w, true); file_put := fun p b w => (put p (Some (true, b)) w, true);
  file_move := fun p q w => match w p with Some x => (put q (Some x) (put p None w), true) | None => (w, false) end;
  file_delete := fun p w => (put p None w, true); process_id := lit "7" |}.
Lemma put_ne p q x w : q <> p -> put p x w q = w q.
Proof. intros Hq. unfold put. by rewrite decide_False. Qed.
Lemma put_eq p x w : put p x w p = x.
Proof. unfold put. by rewrite decide_True. Qed.
Lemma laws : FileLaws host.
Proof.
  split; cbn; intros; rewrite ?put_ne, ?put_eq by done; try done. destruct (w p) eqn:E; cbn; [by rewrite put_eq|done].
Qed.

Definition out : FilePath := {| fp_dir := lit "/home"; fp_name := lit "a.csv" |}.
Definition app : AppState :=
  {| client_ := {| vault_ := new_service empty_store; connectivity := COffline; last_sync_attempt := None;
                   attachment_cache_cap := 0; storage_error := None; events := [] |};
     lock_manager := Lock.new None; clipboard := clipboard_default; last_import := None; totp_scan := [];
     confirm := no_confirmation; pending_files := ∅;
     quick := {| registration := {| r_enabled := false; r_shortcut := {| mods := {| SUPER := true; CONTROL := false; ALT := false;
                                                                                    SHIFT := true; other_mods := 0 |};
                                                                         key := Code.Space |};
                                    r_registered := false; r_in_use := false |};
                 q_main_was_focused := false; q_for_browser := false |};
     quick_shown := false; emitted := []; notified := [] |}.
Definition start : AppState * Files := (app, put out (Some (true, lit "old")) (fun _ => None)).
Definition failing : M (AppState * Files) ClientError (list Z) := fun s => (s, Err attachments_unavailable).

(** A whole write, and one whose contents could not be had. *)
Lemma write_all_or_nothing_witness :
  exists bytes, (mret (lit "new") : M (AppState * Files) ClientError (list Z)) start = (start, Ok bytes) /\
    file_at out (write_private_with out (mret (lit "new")) start).1.2 = Some (true, bytes) /\
    file_at out (write_private_with out failing start).1.2 = Some (true, lit "old").
Proof.
  exists (lit "new"). split; [reflexivity|].
  pose proof (@write_all_or_nothing _ host laws out (mret (lit "new")) start (fun x => eq_refl)) as Hw.
  pose proof (@write_all_or_nothing _ host laws out failing start (fun x => eq_refl)) as Hf.
  split; [|exact Hf]. destruct Hw as (b & Hb & Hw). injection Hb as <-. exact Hw.
Defined.
End ToyDisk.
